(* ===== verification/_CoqProject ===== *)
-Q . S2P
Prelude.v
GoStrings.v
GoNet.v
GoPath.v
GoText.v
Role.v
TopologyV2.v
Ranges.v
Ledger.v
Registry.v
AuditTrail.v
Fanout.v
PeerList.v
CertLifecycle.v
Server.v
ServerProofs.v
ServerContracts.v
Balancer.v
BalancerProofs.v
Ingress.v
IngressProofs.v
Topology.v
AllowedIPs.v
Migrate.v
Rotation.v
RotationService.v
UpgradePlan.v
UpgradeDriver.v
WgTypes.v
UAPI.v
UAPIProofs.v
WgConfig.v
DualListener.v
ISpec.v
AwgParams.v
RotateTiers.v
AdminState.v
RotateCmd.v
Nft.v
Firewall.v
Masquerade.v
Dscp.v
Netlink.v
Daemon.v
LinkConfig.v
PeerReload.v
CertUpdate.v
ClientAgent.v
LedgerStream.v
ClientCommand.v
Mesh.v
MasterAgent.v
ComposeMigrate.v
GoFiles.v
Backup.v
BackupProofs.v
BackupRoundtrip.v
Token.v
NodeAuth.v
IpRange.v
FileScript.v
KeyFiles.v
RouterOS.v
RouterOSProofs.v
RouterStatic.v
TlsFiles.v
NodeCmd.v
NodeCmdProofs.v
NodeCmdRuns.v
GoDuration.v
GoFlag.v
NodeMain.v
NodeMainProofs.v
Maps.v
Dns.v
Diagnose.v
Bootstrap.v
