(* ===== verification/Prelude.v ===== *)
(** * awg-mesh: a verification library

    awg-mesh runs an AmneziaWG overlay network. An operator describes the mesh in
    a topology file; every node registers with a control plane; the control plane
    owns the ledger that says which master carries which overlay address, pushes
    peer lists to the nodes whenever the ledger changes, rotates obfuscation
    parameters and certificates, and drains a node that leaves. A client follows
    these streams and configures its WireGuard device and routes. Balancer nodes
    spread flows over egress nodes; ingress nodes route TLS connections by SNI;
    egress nodes masquerade.

    ** The parts and their models

    Shared ground:
    - [Prelude]: results and loops that stop at the first error, sorting by a key,
      decimal text, machine integers, list lemmas, the hint database [mesh]; [Maps]:
      maps made from lists.
    - [GoStrings], [GoNet], [GoPath], [GoText]: what the sources use of Go's
      [strings], [strconv], [net], [net/netip], [path/filepath], [encoding/hex],
      [encoding/base64] and [bufio] - trimming, case folding, host:port splitting,
      address and prefix parsers and printers, path cleaning, line scanning - with
      the facts the components need. [GoFiles] adds file trees and the calls of [os]
      that change them. [GoDuration] and [GoFlag] model [time.Duration] text and the
      [flag] package.

    Topology (src/pkg/role, src/pkg/topology):
    - [Role] models role.go; [TopologyV2] topology_v2.go; [Ranges] ranges.go;
      [Topology] topology.go and validate.go; [AllowedIPs] allowedips.go;
      [Migrate] migrate.go and migrate_v1_to_v2.go.

    Control plane (src/pkg/control_plane, src/pkg/rotation):
    - [Ledger] models ledger.go: a map from overlay address to its entry, a
      version and the listener; operations return the notifications they emit.
    - [Registry] models registry.go: nodes by name and by overlay address.
    - [AuditTrail] models audit.go: the ring buffer of events.
    - [Fanout] models fanout.go: one generic broadcaster for the two the source
      writes out, channels with the source's buffer of 8 and its drop rule.
    - [PeerList] models buildPeerListUpdate of server.go.
    - [CertLifecycle] models cert_lifecycle.go.
    - [Server] models server.go: a handler is a state transformer over the five
      components; [ServerProofs] and [ServerContracts] hold its theorems. Its runs are
      sequences of complete calls.
    - [LedgerStream] takes the ledger, the broadcasters and a reading client apart at
      the locks: mutations and broadcasts of overlapping calls in any order.
    - [Daemon] models daemon.go: the checks and the assembly of the process.
    - [Rotation] models rotation/orchestrator.go over a class of appliers;
      [RotationService] models the RPC that drives it; [RotateTiers] models
      tier1.go, tier2.go, tier3.go and adaptive.go.

    WireGuard and parameters (src/pkg/wg, src/pkg/awggen):
    - [WgTypes] models types.go, keygen.go and interface_name.go; [UAPI] uapi.go,
      with its theorems in [UAPIProofs]; [WgConfig] config.go; [DualListener]
      dual_listener.go over numbered transports.
    - [ISpec] models ispec.go and families.go; [AwgParams] generator.go, presets.go
      and mtu.go.

    Kernel configuration (src/pkg/routing, src/pkg/nftables, src/pkg/node):
    - [Nft] says what the code relies on of nftables: tables, chains, rules as
      expression lists, batches that apply as a whole, packets run through rules.
    - [Firewall] models nftables.go; [Dscp] dscp.go; [Netlink] netlink.go, types.go
      and sysctl.go; [Masquerade] nftables/masquerade.go and node/egress_v2.go over
      the class [NATFirewall], which [Firewall] implements.

    Client daemon (src/pkg/clientd):
    - [LinkConfig] states the interface a node needs of the operating system; the
      netlink router implements it.
    - [PeerReload] models peer_reload.go; [CertUpdate] cert_update.go;
      [ClientAgent] agent.go: the loop over the interleaved streams, the state
      cache and the configurator; [ClientCommand] command.go and nat_traverse.go:
      flag checks, credentials, the transport created on first use, the restarts.
    - [Mesh] composes the control plane's peer list with the client's reload.

    Master (src/pkg/node):
    - [MasterAgent] models master_v2.go: the two listeners, the links, the hosted
      control plane and the observer that turns registered nodes into peers.

    Entry point (src/cmd/awg-mesh-node):
    - [NodeMain] models main.go and the flags of clientd: a command line becomes the
      configuration of one mode, which is refused, printed or run; [NodeMainProofs]
      holds its theorems.

    Node agent (src/pkg/tls, src/pkg/grpc):
    - [Token] models tls/token.go; [NodeAuth] models grpc/server.go: who may call a
      node, and the caches that follow the token and certificate files.

    Data plane decisions (src/pkg/balancer, src/pkg/ingress):
    - [Balancer] models types.go, registry.go, health.go, selector.go and the
      assembly in runtime.go; [BalancerProofs] holds its theorems.
    - [Ingress] models types.go, registry.go, sni.go and health.go;
      [IngressProofs] holds its theorems.

    Names (src/pkg/dns):
    - [Dns] models zone.go and the records and handlers of server.go.

    Operations (src/pkg/upgrade, src/cmd/mesh-ctl):
    - [UpgradePlan] models plan.go and the v2 plan of cmd/upgrade.go;
      [UpgradeDriver] models driver.go and rollback.go as a state machine over
      files, remote calls and log entries; [ComposeMigrate] models compose_migrate.go
      line by line.
    - [IpRange] models cmd/ip.go over the topology file.
    - [TlsFiles] models pkg/tls/ca.go and cert.go; [NodeCmd] models cmd/node.go,
      node_mikrotik.go, onboarding.go and controlplane_client.go over the file tree and
      the control plane, with lemmas in [NodeCmdProofs] and whole runs in [NodeCmdRuns].
    - [Diagnose] models cmd/inspect.go, status.go and the scrape targets of topology.go;
      [Bootstrap] models cmd/bootstrap.go over the answers of a host.
    - [FileScript] is the language of programs that work on files while other
      processes do; [KeyFiles] models in it the key files of cmd/node_mikrotik.go.
    - [RouterOS] models pkg/mikrotik: commands.go, templates.go and routing.go, with
      its theorems in [RouterOSProofs]; [RouterStatic] models mikrotik/v2.
    - [AdminState] models adminstate/state.go over a disk that records every write;
      [RotateCmd] models cmd/rotate.go over a cluster of nodes; [Backup] models
      cmd/backup.go over file trees, with the lemmas of its round trip in
      [BackupProofs] and whole runs in [BackupRoundtrip].

    ** How the code is modelled

    A function with an [error] result is a function into [res]; the error type has
    one constructor per error, carrying the values its text is formatted from. A
    struct is a [Record], a map a [gmap], a method with a pointer receiver a
    function from the old state to the new one. The handlers of [Server] are single
    transitions, so a run of it is a sequence of complete calls, while the program runs
    them concurrently and locks the registry, the ledger and the broadcasters one after
    the other. The points between those locks are modelled where something depends on
    them: the loop of [Drain] (other calls may come before every step of it), the
    broadcast after a mutation ([LedgerStream]) and the opening of a stream.
    [int64] counters wrap; Go integers that index slices stay in range, which is
    proved where the code could panic ([at_], [slice] and [SelectPanic] are the
    panics). [time.Time] is nanoseconds since Go's zero time; floating point is
    IEEE double precision.

    Parameters stand for what is not the program's own: the clock, the random
    source, the registration observer, PEM and X.509 decoding, the certificate
    issuer, Curve25519, the resolver, the YAML and JSON codecs, health probes, the
    context and the stream of an RPC, what the upgrade driver is injected with.
    Calls the operating system, the kernel or another node may refuse take the
    answer as an argument (records named [..._env], [..._answers]): theorems hold
    for every answer, or say which answers they need. [sort.Slice]
    is a parameter with the laws of a sorting permutation where keys may repeat,
    and a definite sort where they cannot (then every sort gives the same list).

    Recursion that is not structural has fuel: the address scan of [AllocateIP] one
    more than the number of used addresses (each step that does not return skips
    a used one), the base-36 digits of [idString] the binary length of the number,
    the SNI loops and the I-spec tokenizer one more than the length of the input
    (each turn advances), a duration its length (each term consumes), template expansion
    two more than the source's own depth limit, which is tested as in the source; the
    IPv6 parser has eight groups. Every theorem about them is about the result
    with this fuel, so running out is excluded by proof.

    ** What is proved

    - Ledger and registry: invariants of every reachable state; compare-and-swap of
      ownership; the ledger refines a map from address to owner; versions are
      consecutive; draining moves everything, and while other calls run it moves what
      nobody else touches and never takes back what another call has taken; certificates stay pinned outside an announced rollover.
    - Server and daemon: the joint invariant over every sequence of calls; what
      registering and decommissioning do on each branch; owners stay registered when
      calls do not overlap; the peer list partitions the overlay addresses among the masters; a rotation reaches every mesh-internal
      node exactly once; without TLS the daemon binds loopback addresses only.
    - Streams: a subscriber is sent every mutation exactly once, in some order, unless its
      channel is closed; a client that compares versions ends with the newest.
    - Audit, fan-out, certificates: queries return exactly the recent matching events;
      a subscriber gets the messages in order or is dropped; a due certificate is
      issued, announced and accepted; the stream sleeps exactly until then.
    - Client: the running agent holds, has cached and has applied exactly the newest
      data it was sent; applying a list replaces the device's peers by the converted
      ones and routes their networks and no other; credentials are replaced as a pair
      or not at all; restarts are paced, the one tunnel device is closed on every
      way out, and plaintext connections stay on the machine. End to end, every
      overlay address of the ledger is delivered to the peer of its owner.
    - Master: every accepted node is a peer of the device with its own address and is
      routed to, as long as no later node registers with its key or address; a run ends with all devices closed, whatever failed.
    - WireGuard: a key survives its texts; the UAPI reader
      recovers every peer and attribute, the writer sends exactly the configuration;
      a written configuration file parses back; the two listeners never leak a
      transport.
    - Parameters: I-spec validation ends with exactly the stated outcome for every text
      and accepts exactly what executes; generated parameters satisfy the preset and the protocol's rules.
    - Kernel configuration: NAT rules form a set of interfaces and masquerade exactly
      their packets; DSCP routing marks exactly the configured code points, and its
      teardown removes its table and the ip rules of that form (routes and names stay); sticky ECMP is undone by its inverse; egress traffic is
      masqueraded before the agent runs; multipath routes are exact.
    - Rotation commands: tier 2 touches no master unless all are healthy, in any order
      of goroutines; the outcome of tier 3 on every branch, rollback included; the
      recorded key is replaced atomically at every instant.
    - Balancer: only healthy egresses are chosen, flows stick, labels are obeyed, the
      rotation is fair. Ingress: no byte string crashes the ClientHello parser, it
      inverts the encoder, hosts map to one route.
    - Topology: the validators accept exactly the declared conditions; allocation is
      first fit and complete; AllowedIPs lists hold exactly the intended routes;
      the migration is characterised and loses nothing it does not report.
    - Upgrades: the order of nodes; the phases of one upgrade and its log; a rollback
      restores the old compose file; remote commands are quoted safely; a migrated
      compose file keeps the node's identity and is recognised as current.
    - Backups: restoring the archive of a backup brings back every entry of the
      directories and the topology; no archive makes a restore write outside its
      targets, whatever its member names are and wherever the system fails.
    - Entry point: a client starts the agent with the configuration its flags describe,
      although they are written and parsed twice; a router's client starts as deployed; a dry run predicts the run.
    - Node agents: a call is handled exactly with a verified certificate or the token
      whose hash was saved; a new token is in force at the next call; a certificate
      once loaded is never replaced by a fallback.
    - Node commands: preparing a node writes to its own directory and the authority only;
      what it leaves is trusted by the mesh; registering it registers exactly that.
    - Key files: processes that create the key pair of a node at the same time all
      return one pair, which is the stored one; alone, a run creates it.
    - RouterOS: a deployment script with literal values, read back by any reader of literal
      text, gives exactly the intended commands, values and token; a static script gives every overlay address of the
      mesh to one peer.
    - Diagnosis: an inspection succeeds exactly for a node in the expected state; the
      data-plane verdict covers every pair. Bootstrap: only the intended commands run,
      with the image quoted. DNS: forward and reverse lookups agree.
    - Ranges: the commands keep names unique, networks disjoint and balancers inside.

    Some theorems record behaviour the sources do not intend: a peer list with a
    malformed key disables a client for good, a failed re-registration drops the
    earlier registration, opening a stream has a gap before its subscription,
    textual duplicate checks miss IPv4-mapped addresses, IPv6 overlays are widened to
    a /32, a second upgrade attempt overwrites the backup of the first, a newline in
    an I-parameter injects a directive, a hanging master blocks the rollback of a key
    rotation, a failed flush disables the firewall for good, the master's own
    registration can be replaced by any node, a rejected node may stay a peer, a
    backup with certain names cannot be restored, a failed rename loses both copies,
    range commands save topologies the validator refuses, a token replaced while the
    agent starts is not noticed, a token hash with zero rounds crashes the call, a
    newline in a node name adds a command to a router script, a gateway ending in
    .1 gives a container the address of its router, an authority written half or by two
    processes at once is unusable, two decommissions at once leave an owner that is not
    registered, broadcasts overtake each other, a node that registers with the key of
    another takes its place, an unreadable key registers a node without one,
    a router's client that advertises an endpoint never starts.

    ** What is not modelled

    Sockets, TLS, HTTP, gRPC plumbing, process handling, device drivers, eBPF, packet
    capture, metrics, logging and the wiring of the command-line library: they are I/O or
    calls of libraries, without decisions of the program's own. *)

From Stdlib Require Export Ascii.
From stdpp Require Export base gmap strings list sorting.
From stdpp Require Import pretty.
From Stdlib Require Export ZArith Lia.

#[global] Open Scope string_scope.
#[global] Open Scope Z_scope.
#[global] Open Scope list_scope.

(** ** Results

    A Go function returning [(T, error)] is a function into [res E T]; the
    error type [E] has one constructor per error the function can return. *)

Inductive res (E A : Type) : Type :=
  | Ok (a : A)
  | Err (e : E).
Arguments Ok {E A} a.
Arguments Err {E A} e.

Definition res_bind {E A B} (m : res E A) (k : A → res E B) : res E B :=
  match m with Ok a => k a | Err e => Err e end.

(** Go's [fmt.Errorf("...: %w", err)]: the error is wrapped, a success kept. *)
Definition wrap_err {E F A} (f : E → F) (m : res E A) : res F A :=
  match m with Ok a => Ok a | Err e => Err (f e) end.

Definition is_ok {E A} (m : res E A) : bool :=
  match m with Ok _ => true | Err _ => false end.

Declare Scope res_scope.
Delimit Scope res_scope with res.
Notation "'let!' x := m 'in' k" := (res_bind m (λ x, k))
  (at level 10, x pattern, m at level 100, k at level 200) : res_scope.
(** An early return: [if c { return err }]. *)
Notation "'check!' c 'else' e ; k" := (if c then k else Err e)
  (at level 10, c at level 100, e at level 100, k at level 200) : res_scope.
#[global] Open Scope res_scope.

Create HintDb mesh.

Lemma res_bind_ok {E A B} (m : res E A) (k : A → res E B) b :
  res_bind m k = Ok b ↔ ∃ a, m = Ok a ∧ k a = Ok b.
Proof. destruct m; simpl; naive_solver. Qed.

Lemma wrap_err_ok {E F A} (f : E → F) (m : res E A) a :
  wrap_err f m = Ok a ↔ m = Ok a.
Proof. destruct m; simpl; naive_solver. Qed.

Lemma check_ok {E A} (c : bool) (e : E) (k : res E A) a :
  (if c then k else Err e) = Ok a ↔ c = true ∧ k = Ok a.
Proof. destruct c; naive_solver. Qed.

(** [inv_res] takes a hypothesis [_ = Ok _] apart: every bind yields the
    intermediate value, every early return its guard. *)
Ltac inv_res_step :=
  match goal with
  | H : res_bind _ _ = Ok _ |- _ =>
      let a := fresh "a" in let Ha := fresh "Ha" in
      apply res_bind_ok in H as (a & Ha & H)
  | H : wrap_err _ _ = Ok _ |- _ => apply wrap_err_ok in H
  | H : (if _ then _ else Err _) = Ok _ |- _ =>
      let Hc := fresh "Hc" in apply check_ok in H as [Hc H]
  | H : (if ?c then Err _ else _) = Ok _ |- _ =>
      let Hc := fresh "Hc" in destruct c eqn:Hc; [discriminate H|]
  | H : Ok _ = Ok _ |- _ => injection H as H; try subst
  | H : Err _ = Ok _ |- _ => discriminate H
  end.
Ltac inv_res := repeat inv_res_step.

(** Boolean guards to propositions. *)
Ltac bool_to_prop :=
  repeat match goal with
  | H : negb _ = true |- _ => apply negb_true_iff in H
  | H : negb _ = false |- _ => apply negb_false_iff in H
  | H : _ && _ = true |- _ => apply andb_true_iff in H as [? ?]
  | H : _ || _ = false |- _ => apply orb_false_iff in H as [? ?]
  | H : bool_decide _ = true |- _ => apply bool_decide_eq_true in H
  | H : bool_decide _ = false |- _ => apply bool_decide_eq_false in H
  end.

(** ** Loops that stop at the first error *)

Section loops.
Context {E A S : Type} (f : nat → S → A → res E S).

(** [for i, x := range l { s, err = f(i, s, x); if err != nil { return err } }] *)
Fixpoint fold_res_from (i : nat) (s : S) (l : list A) : res E S :=
  match l with
  | [] => Ok s
  | x :: l => res_bind (f i s x) (λ s', fold_res_from (Datatypes.S i) s' l)
  end.
End loops.

Definition fold_res {E A S} (f : nat → S → A → res E S) (s : S) (l : list A) : res E S :=
  fold_res_from f 0 s l.

(** An invariant indexed by the elements already processed. *)
Lemma fold_res_from_ind {E A S} (f : nat → S → A → res E S)
    (P : list A → S → Prop) :
  (∀ i done s x s', P done s → f i s x = Ok s' → P (done ++ [x]) s') →
  ∀ l i done s s', P done s → fold_res_from f i s l = Ok s' → P (done ++ l) s'.
Proof.
  intros Hstep l. induction l as [|x l IH]; intros i done s s' HP H; simpl in H.
  - inv_res. by rewrite app_nil_r.
  - inv_res. rewrite cons_middle, app_assoc. eauto.
Qed.

Lemma fold_res_ind {E A S} (f : nat → S → A → res E S) (P : list A → S → Prop) l s s' :
  P [] s →
  (∀ i done s x s', P done s → f i s x = Ok s' → P (done ++ [x]) s') →
  fold_res f s l = Ok s' → P l s'.
Proof. intros H0 Hs H. by eapply (fold_res_from_ind f P Hs l 0 []). Qed.

(** ** Sorting by a string key

    [sort.Slice(out, func(i, j int) bool { return key(out[i]) < key(out[j]) })].
    Go compares strings byte by byte, which is [String.le]. When the keys are
    distinct every sorting algorithm returns the same list ([sort_by_unique]),
    so neither the algorithm nor the order of the input matters. *)

Section sort_by.
Context {A : Type} (key : A → string).

Definition key_le (x y : A) : Prop := String.le (key x) (key y).

#[global] Instance key_le_dec x y : Decision (key_le x y).
Proof. unfold key_le. apply _. Defined.
#[global] Instance key_le_trans : Transitive key_le.
Proof. intros x y z. unfold key_le. apply transitivity. Qed.
#[global] Instance key_le_total : Total key_le.
Proof. intros x y. unfold key_le. apply total, _. Qed.

Definition sort_by (l : list A) : list A := merge_sort key_le l.

Lemma sort_by_perm l : sort_by l ≡ₚ l.
Proof. apply merge_sort_Permutation. Qed.

Lemma sort_by_sorted l : StronglySorted key_le (sort_by l).
Proof. apply StronglySorted_merge_sort; apply _. Qed.

Lemma sort_by_elem_of x l : x ∈ sort_by l ↔ x ∈ l.
Proof. by rewrite sort_by_perm. Qed.

Lemma NoDup_key_inj l x y :
  NoDup (key <$> l) → x ∈ l → y ∈ l → key x = key y → x = y.
Proof.
  induction l as [|z l IH]; simpl; [set_solver|].
  intros [Hz Hl]%NoDup_cons Hx Hy Hk.
  apply elem_of_cons in Hx as [->|Hx], Hy as [->|Hy]; auto.
  - exfalso. apply Hz. rewrite Hk. by apply list_elem_of_fmap_2.
  - exfalso. apply Hz. rewrite <- Hk. by apply list_elem_of_fmap_2.
Qed.

Lemma sorted_perm_unique l1 l2 :
  NoDup (key <$> l1) → l1 ≡ₚ l2 →
  StronglySorted key_le l1 → StronglySorted key_le l2 → l1 = l2.
Proof.
  intros Hnd Hp H1 H2. apply (StronglySorted_unique_strong key_le); auto.
  intros x y Hx Hy Hxy Hyx. apply (NoDup_key_inj l1); auto.
  - by rewrite Hp.
  - by apply (anti_symm String.le).
Qed.

Lemma sort_by_unique l1 l2 :
  NoDup (key <$> l1) → l1 ≡ₚ l2 → sort_by l1 = sort_by l2.
Proof.
  intros Hnd Hp. apply sorted_perm_unique; auto using sort_by_sorted.
  - by rewrite sort_by_perm.
  - by rewrite !sort_by_perm.
Qed.
End sort_by.

#[export] Hint Resolve sort_by_perm sort_by_sorted : mesh.

(** What [sort.Slice] promises of a comparison by a key that may repeat: it is not
    stable, so only some sorted permutation. *)
Class SortSliceBy {A : Type} (key : A → string) (sorter : list A → list A) : Prop := {
  slice_by_perm : ∀ l, sorter l ≡ₚ l;
  slice_by_sorted : ∀ l, StronglySorted (key_le key) (sorter l)
}.
#[global] Instance sort_by_slice {A} (key : A → string) : SortSliceBy key (sort_by key).
Proof. split; intros; [apply sort_by_perm|apply sort_by_sorted]. Qed.

(** ** Loops over indexes *)

(** [for i := range l] visiting [l[i]] is a loop over [l]. *)
Lemma omap_lookup_seq {A B} (g : A → option B) (l : list A) (h : nat → option A) :
  (∀ i, (i < length l)%nat → h i = l !! i) →
  omap (λ i, e ← h i; g e) (seq 0 (length l)) = omap g l.
Proof.
  intros Hh. assert (∀ k, (∀ i, (i < length l)%nat → h (k + i)%nat = l !! i) →
    omap (λ i, e ← h i; g e) (seq k (length l)) = omap g l) as H; [|by apply H].
  clear Hh. induction l as [|x l IH]; intros k Hh; [done|]. simpl.
  pose proof (Hh 0%nat ltac:(simpl; lia)) as H0. rewrite Nat.add_0_r in H0. rewrite H0. simpl.
  rewrite IH; [done|]. intros i Hi. pose proof (Hh (S i) ltac:(simpl; lia)) as HS.
  simpl in HS. rewrite <- HS. f_equal. lia.
Qed.

Lemma omap_Forall_ext {A B} (f g : A → option B) (l : list A) :
  Forall (λ x, f x = g x) l → omap f l = omap g l.
Proof.
  induction 1 as [|x l Hx _ IH]; simpl; [done|]. rewrite Hx.
  destruct (g x); [f_equal|]; exact IH.
Qed.

Lemma omap_filter {A} (p : A → bool) (l : list A) :
  omap (λ x, if p x then Some x else None) l = filter (λ x, p x = true) l.
Proof.
  induction l as [|x l IH]; simpl; [done|]. rewrite filter_cons, <- IH.
  destruct (p x) eqn:Hp; [by rewrite decide_True|by rewrite decide_False].
Qed.

(** ** Strings *)

Lemma string_length_app (a b : string) : String.length (a +:+ b) = (String.length a + String.length b)%nat.
Proof. induction a as [|c a IH]; simpl; [done|]. by rewrite IH. Qed.

#[global] Instance string_app_inj_l (s : string) : Inj (=) (=) (λ a, a +:+ s).
Proof.
  intros a. induction a as [|c a IH]; intros [|d b] H; [done| | |].
  - apply (f_equal String.length) in H. rewrite !string_length_app in H. simpl in H. lia.
  - apply (f_equal String.length) in H. rewrite !string_length_app in H. simpl in H. lia.
  - injection H as -> H. f_equal. by apply IH.
Qed.

(** ** Grouping *)

(** Grouping a list by a key and concatenating the groups keeps every element
    whose key is among the groups, with its multiplicity. *)
Lemma filter_group_cons {A} (key : A → string) (m : string) (order : list string) (l : list A) :
  m ∉ order →
  filter (λ x, key x ∈ m :: order) l ≡ₚ
  filter (λ x, key x = m) l ++ filter (λ x, key x ∈ order) l.
Proof.
  intros Hm. induction l as [|x l IH]; [done|]. rewrite !filter_cons.
  destruct (decide (key x = m)) as [He|Hne].
  - rewrite !decide_True by set_solver. rewrite decide_False by (by rewrite He).
    simpl. by rewrite IH.
  - destruct (decide (key x ∈ order)) as [Ho|Ho].
    + rewrite decide_True by set_solver. rewrite IH. apply Permutation_middle.
    + rewrite decide_False by set_solver. done.
Qed.

Lemma group_perm {A} (key : A → string) (order : list string) (l : list A) :
  NoDup order →
  mjoin ((λ m, filter (λ x, key x = m) l) <$> order) ≡ₚ filter (λ x, key x ∈ order) l.
Proof.
  induction 1 as [|m order Hm Hnd IH].
  - cbn. induction l as [|x l IH]; [done|]. rewrite filter_cons, decide_False by set_solver. done.
  - rewrite fmap_cons. cbn. rewrite (filter_group_cons key m order l Hm).
    by apply Permutation_app_head.
Qed.

Lemma fmap_mjoin {A B} (f : A → B) (ls : list (list A)) :
  f <$> mjoin ls = mjoin (fmap f <$> ls).
Proof. induction ls as [|l ls IH]; [done|]. cbn. rewrite fmap_app. f_equal. exact IH. Qed.

Lemma filter_all {A} (P : A → Prop) `{∀ x, Decision (P x)} (l : list A) :
  Forall P l → filter P l = l.
Proof.
  induction 1 as [|x l Hx _ IH]; [done|]. rewrite filter_cons, decide_True by done. by rewrite IH.
Qed.

(** ** Decimal integers ([strconv.Itoa]) *)
Definition Itoa (n : Z) : string := pretty n.

(** ** Integers at their width *)

Definition uint_max (w : Z) : Z := 2 ^ w - 1.
(** The value an [int64]/[int] computation wraps to. *)
Definition wrap_int64 (z : Z) : Z := (z + 2 ^ 63) mod 2 ^ 64 - 2 ^ 63.

Lemma wrap_int64_id z : - 2 ^ 63 ≤ z < 2 ^ 63 → wrap_int64 z = z.
Proof. intros H. unfold wrap_int64. rewrite Z.mod_small; lia. Qed.

Lemma wrap_int64_range z : - 2 ^ 63 ≤ wrap_int64 z < 2 ^ 63.
Proof.
  unfold wrap_int64. pose proof (Z.mod_pos_bound (z + 2 ^ 63) (2 ^ 64)). lia.
Qed.

(** Wrapping an intermediate result does not change the wrapped sum. *)
Lemma wrap_int64_add a b : wrap_int64 (wrap_int64 a + b) = wrap_int64 (a + b).
Proof.
  unfold wrap_int64. f_equal.
  replace ((a + 2 ^ 63) mod 2 ^ 64 - 2 ^ 63 + b + 2 ^ 63) with ((a + 2 ^ 63) mod 2 ^ 64 + b) by lia.
  rewrite Z.add_mod_idemp_l by lia. f_equal. lia.
Qed.

(** A filter keeps keys distinct. *)
Lemma NoDup_fmap_filter {A B} (f : A → B) (P : A → Prop) `{∀ x, Decision (P x)} (l : list A) :
  NoDup (f <$> l) → NoDup (f <$> filter P l).
Proof.
  induction l as [|x l IH]; [done|]. intros [Hx Hl]%NoDup_cons. rewrite filter_cons.
  destruct (decide (P x)); [|by apply IH]. apply NoDup_cons. split; [|by apply IH].
  intros (y & Hy & [_ Hin]%list_elem_of_filter)%list_elem_of_fmap. apply Hx. rewrite Hy.
  by apply (list_elem_of_fmap_2 f).
Qed.
