(* ===== verification/GoStrings.v ===== *)
(** * Go strings

    What the sources use of Go's [strings], [strconv] and [net.SplitHostPort].
    A Go string is a byte sequence, as Rocq's [string] is; the functions work on
    its bytes [list ascii]. *)

From Stdlib Require Import Wf_nat.
From S2P Require Import Prelude.

Notation bytes := (list ascii) (only parsing).
Notation to_bytes := String.list_ascii_of_string (only parsing).
Notation of_bytes := String.string_of_list_ascii (only parsing).

(** The value of a byte. *)
Definition code (a : ascii) : Z := Z.of_N (N_of_ascii a).
Definition chr (n : Z) : ascii := ascii_of_N (Z.to_N n).

Lemma to_of_bytes l : to_bytes (of_bytes l) = l.
Proof. apply String.list_ascii_of_string_of_list_ascii. Qed.
Lemma of_to_bytes s : of_bytes (to_bytes s) = s.
Proof. apply String.string_of_list_ascii_of_string. Qed.
#[export] Hint Rewrite to_of_bytes of_to_bytes : mesh.

#[global] Instance to_bytes_inj : Inj (=) (=) String.list_ascii_of_string.
Proof. intros s t H. rewrite <- (of_to_bytes s), <- (of_to_bytes t). by f_equal. Qed.
#[global] Instance of_bytes_inj : Inj (=) (=) String.string_of_list_ascii.
Proof. intros s t H. rewrite <- (to_of_bytes s), <- (to_of_bytes t). by f_equal. Qed.

Lemma code_range a : 0 ≤ code a < 256.
Proof. unfold code. pose proof (N_ascii_bounded a). lia. Qed.
Lemma chr_code a : chr (code a) = a.
Proof. unfold chr, code. rewrite N2Z.id. apply ascii_N_embedding. Qed.
Lemma code_chr n : 0 ≤ n < 256 → code (chr n) = n.
Proof. intros H. unfold chr, code. rewrite N_ascii_embedding; lia. Qed.
#[global] Instance code_inj : Inj (=) (=) code.
Proof. intros a b H. rewrite <- (chr_code a), <- (chr_code b). by f_equal. Qed.

(** ** [strings.TrimSpace]

    [unicode.IsSpace] holds of the ASCII blanks, U+0085, U+00A0, U+1680,
    U+2000..U+200A, U+2028, U+2029, U+202F, U+205F and U+3000: one, two and
    three bytes of UTF-8. Invalid UTF-8 decodes to U+FFFD, which is not a space,
    so a byte is trimmed exactly when it belongs to one of these encodings. *)
Definition space1 (a : ascii) : bool :=
  let a := code a in ((9 <=? a) && (a <=? 13)) || (a =? 32).
Definition space2 (a b : ascii) : bool :=
  (code a =? 0xC2) && ((code b =? 0x85) || (code b =? 0xA0)).
Definition space3 (a b c : ascii) : bool :=
  let a := code a in let b := code b in let c := code c in
  ((a =? 0xE1) && (b =? 0x9A) && (c =? 0x80)) ||
  ((a =? 0xE2) && (b =? 0x80) &&
     (((0x80 <=? c) && (c <=? 0x8A)) || (c =? 0xA8) || (c =? 0xA9) || (c =? 0xAF))) ||
  ((a =? 0xE2) && (b =? 0x81) && (c =? 0x9F)) ||
  ((a =? 0xE3) && (b =? 0x80) && (c =? 0x80)).

Section trim.
(** Two- and three-byte tests in reading order. *)
Context (sp2 : ascii → ascii → bool) (sp3 : ascii → ascii → ascii → bool).

Fixpoint trim_with (l : list ascii) : list ascii :=
  match l with
  | [] => []
  | a :: l1 =>
      if space1 a then trim_with l1 else
      match l1 with
      | [] => l
      | b :: l2 =>
          if sp2 a b then trim_with l2 else
          match l2 with
          | [] => l
          | c :: l3 => if sp3 a b c then trim_with l3 else l
          end
      end
  end.

Definition starts_space (l : list ascii) : bool :=
  match l with
  | [] => false
  | [a] => space1 a
  | [a; b] => space1 a || sp2 a b
  | a :: b :: c :: _ => space1 a || sp2 a b || sp3 a b c
  end.

Lemma trim_with_fix l : starts_space l = false → trim_with l = l.
Proof.
  destruct l as [|a [|b [|c l]]]; simpl; intros H; auto;
    rewrite ?orb_false_iff in H; destruct_and?; repeat case_match; congruence.
Qed.


Lemma trim_with_starts l : starts_space (trim_with l) = false.
Proof.
  induction l as [l IH] using (induction_ltof1 _ length).
  unfold ltof in IH.
  destruct l as [|a [|b [|c l]]]; simpl; auto.
  - destruct (space1 a) eqn:E1; simpl; auto.
  - destruct (space1 a) eqn:E1; [by apply (IH [b]); simpl; lia|].
    destruct (sp2 a b) eqn:E2; simpl; [done|by rewrite E1, E2].
  - destruct (space1 a) eqn:E1; [by apply (IH (b :: c :: l)); simpl; lia|].
    destruct (sp2 a b) eqn:E2; [by apply (IH (c :: l)); simpl; lia|].
    destruct (sp3 a b c) eqn:E3; [by apply IH; simpl; lia|].
    simpl. by rewrite E1, E2, E3.
Qed.

Lemma trim_with_suffix l : trim_with l `suffix_of` l.
Proof.
  induction l as [l IH] using (induction_ltof1 _ length).
  unfold ltof in IH.
  destruct l as [|a l1]; simpl; [done|].
  destruct (space1 a); [apply suffix_cons_r, IH; simpl; lia|].
  destruct l1 as [|b l2]; [done|].
  destruct (sp2 a b); [do 2 apply suffix_cons_r; apply IH; simpl; lia|].
  destruct l2 as [|c l3]; [done|].
  destruct (sp3 a b c); [do 3 apply suffix_cons_r; apply IH; simpl; lia|done].
Qed.

Lemma starts_space_prefix p l :
  p `prefix_of` l → starts_space l = false → starts_space p = false.
Proof.
  intros [k ->] H. destruct p as [|a [|b [|c p]]]; simpl in *; auto.
  - destruct k as [|b [|c k]]; simpl in H; rewrite ?orb_false_iff in H; naive_solver.
  - destruct k as [|c k]; simpl in H; rewrite ?orb_false_iff in *; naive_solver.
Qed.
End trim.

Definition trim_left : list ascii → list ascii := trim_with space2 space3.
Definition trim_right (l : list ascii) : list ascii :=
  reverse (trim_with (λ b a, space2 a b) (λ c b a, space3 a b c) (reverse l)).

Definition TrimSpace (s : string) : string :=
  of_bytes (trim_right (trim_left (to_bytes s))).
(** [strings.TrimSpace(s) == ""] *)
Definition blank (s : string) : bool := bool_decide (TrimSpace s = "").

Lemma trim_right_idem l : trim_right (trim_right l) = trim_right l.
Proof.
  unfold trim_right. rewrite reverse_involutive.
  by rewrite trim_with_fix by apply trim_with_starts.
Qed.

Lemma trim_right_prefix l : trim_right l `prefix_of` l.
Proof.
  unfold trim_right.
  destruct (trim_with_suffix (λ b a, space2 a b) (λ c b a, space3 a b c) (reverse l)) as [k Hk].
  exists (reverse k). apply (inj reverse). rewrite reverse_app, !reverse_involutive. done.
Qed.

Lemma trim_left_trim_right l : trim_left (trim_right (trim_left l)) = trim_right (trim_left l).
Proof.
  apply trim_with_fix. eapply starts_space_prefix; [apply trim_right_prefix|].
  apply trim_with_starts.
Qed.

(** Trimming twice is trimming once. *)
Lemma TrimSpace_idem s : TrimSpace (TrimSpace s) = TrimSpace s.
Proof.
  unfold TrimSpace. autorewrite with mesh.
  by rewrite trim_left_trim_right, trim_right_idem.
Qed.
#[export] Hint Rewrite TrimSpace_idem : mesh.

(** ** Character classes *)
Definition is_digit (a : ascii) : bool := (48 <=? code a) && (code a <=? 57).
Definition is_lower (a : ascii) : bool := (97 <=? code a) && (code a <=? 122).
Definition is_upper (a : ascii) : bool := (65 <=? code a) && (code a <=? 90).

(** A string whose first and last bytes are not blank bytes nor bytes above 127
    is left alone by [TrimSpace]. *)
Definition plain (a : ascii) : bool := negb (space1 a) && (code a <? 128).

Lemma starts_space_plain sp2 sp3 a l :
  (∀ a b, sp2 a b = true → 128 ≤ code a) → (∀ a b c, sp3 a b c = true → 128 ≤ code a) →
  plain a = true → starts_space sp2 sp3 (a :: l) = false.
Proof.
  unfold plain. intros H2 H3 [H1%negb_true_iff Hlt%Z.ltb_lt]%andb_true_iff.
  assert (∀ b, sp2 a b = false) as E2.
  { intros b. destruct (sp2 a b) eqn:E; [|done]. apply H2 in E. lia. }
  assert (∀ b c, sp3 a b c = false) as E3.
  { intros b c. destruct (sp3 a b c) eqn:E; [|done]. apply H3 in E. lia. }
  destruct l as [|b [|c l]]; simpl; by rewrite ?H1, ?E2, ?E3.
Qed.

Lemma TrimSpace_plain s :
  Forall (λ a, plain a = true) (to_bytes s) → TrimSpace s = s.
Proof.
  intros Hf. unfold TrimSpace, trim_right, trim_left.
  assert (∀ l, Forall (λ a, plain a = true) l → trim_with space2 space3 l = l) as Hl.
  { intros [|a l]; [done|]. intros [Ha _]%Forall_cons. apply trim_with_fix.
    apply starts_space_plain; [| |done]; unfold space2, space3; intros; lia. }
  rewrite Hl by done.
  rewrite trim_with_fix, reverse_involutive, of_to_bytes; [done|].
  apply Forall_reverse in Hf. destruct (reverse (to_bytes s)) as [|a l]; [done|].
  apply Forall_cons in Hf as [Ha _].
  apply starts_space_plain; [| |done]; unfold space2, space3; intros; lia.
Qed.

(** ** [strings.ToLower]

    ASCII letters are lowered; U+0130 lowers to [i] and U+212A to [k]. Every
    other rune outside ASCII lowers to a rune outside ASCII; it is kept as it
    is, so the model and Go agree on which results are pure ASCII, which is all
    the callers (hostname checks) ask. *)
Fixpoint to_lower (l : list ascii) : list ascii :=
  match l with
  | [] => []
  | a :: l1 =>
      if is_upper a then chr (code a + 32) :: to_lower l1 else
      match l1 with
      | b :: l2 =>
          if (code a =? 0xC4) && (code b =? 0xB0) then "i"%char :: to_lower l2 else
          match l2 with
          | c :: l3 =>
              if (code a =? 0xE2) && (code b =? 0x84) && (code c =? 0xAA)
              then "k"%char :: to_lower l3 else a :: to_lower l1
          | [] => a :: to_lower l1
          end
      | [] => [a]
      end
  end.
Definition ToLower (s : string) : string := of_bytes (to_lower (to_bytes s)).

Lemma to_lower_cons a l :
  is_upper a = false → code a < 128 → to_lower (a :: l) = a :: to_lower l.
Proof.
  intros Hu Hlt. destruct l as [|b l]; simpl; rewrite Hu; [done|].
  replace (code a =? 0xC4) with false by lia. simpl.
  replace (code a =? 0xE2) with false by lia. by destruct l.
Qed.

Lemma to_lower_fix l :
  Forall (λ a, is_upper a = false ∧ code a < 128) l → to_lower l = l.
Proof.
  induction 1 as [|a l [Hu Hlt] Hf IH]; [done|].
  by rewrite to_lower_cons, IH.
Qed.

(** ** [strings.EqualFold] with an ASCII second argument: letters match up to
    case, U+017F matches [s] and U+212A matches [k]. *)
Definition fold_ascii (a : ascii) : Z := if is_upper a then code a + 32 else code a.
Fixpoint equal_fold (l t : list ascii) : bool :=
  match t, l with
  | [], [] => true
  | c :: t', a :: l1 =>
      if fold_ascii a =? fold_ascii c then equal_fold l1 t' else
      match l1 with
      | b :: l2 =>
          if (code a =? 0xC5) && (code b =? 0xBF) && (fold_ascii c =? 115)
          then equal_fold l2 t' else
          match l2 with
          | d :: l3 =>
              if (code a =? 0xE2) && (code b =? 0x84) && (code d =? 0xAA)
                 && (fold_ascii c =? 107)
              then equal_fold l3 t' else false
          | [] => false
          end
      | [] => false
      end
  | _, _ => false
  end.
Definition EqualFold (s t : string) : bool := equal_fold (to_bytes s) (to_bytes t).

(** ** Searching *)
Fixpoint is_prefix (p l : list ascii) : bool :=
  match p, l with
  | [], _ => true
  | a :: p, b :: l => bool_decide (a = b) && is_prefix p l
  | _ :: _, [] => false
  end.
Definition HasPrefix (s p : string) : bool := is_prefix (to_bytes p) (to_bytes s).
Definition HasSuffix (s p : string) : bool :=
  is_prefix (reverse (to_bytes p)) (reverse (to_bytes s)).
Fixpoint is_infix (p l : list ascii) : bool :=
  is_prefix p l || match l with [] => false | _ :: l => is_infix p l end.
Definition Contains (s sub : string) : bool := is_infix (to_bytes sub) (to_bytes s).
(** [strings.ContainsAny] with an ASCII character set. *)
Definition ContainsAny (s chars : string) : bool :=
  existsb (λ a, bool_decide (a ∈ to_bytes chars)) (to_bytes s).
Definition count_byte (c : ascii) (l : list ascii) : nat :=
  length (filter (λ a, a = c) l).

(** The first occurrence of a byte splits a string: [strings.IndexByte]/[Cut]. *)
Fixpoint cut_byte (c : ascii) (l : list ascii) : option (list ascii * list ascii) :=
  match l with
  | [] => None
  | a :: l => if bool_decide (a = c) then Some ([], l)
              else (λ '(x, y), (a :: x, y)) <$> cut_byte c l
  end.
(** The last occurrence: [strings.LastIndexByte]. *)
Definition cut_last_byte (c : ascii) (l : list ascii) : option (list ascii * list ascii) :=
  (λ '(x, y), (reverse y, reverse x)) <$> cut_byte c (reverse l).

(** [strings.Split] at a one-byte separator. *)
Fixpoint split_byte (c : ascii) (l : list ascii) : list (list ascii) :=
  match l with
  | [] => [[]]
  | a :: l =>
      if bool_decide (a = c) then [] :: split_byte c l
      else match split_byte c l with
           | [] => [[a]]
           | x :: xs => (a :: x) :: xs
           end
  end.

Lemma split_byte_app c a b : c ∉ a → split_byte c (a ++ c :: b) = a :: split_byte c b.
Proof.
  induction a as [|x a IH]; intros H; cbn [app split_byte].
  - by rewrite (bool_decide_eq_true_2 (c = c)).
  - apply not_elem_of_cons in H as [H1 H2]. rewrite (bool_decide_eq_false_2 (x = c)) by done. by rewrite IH.
Qed.
Lemma split_byte_none c a : c ∉ a → split_byte c a = [a].
Proof.
  induction a as [|x a IH]; intros H; cbn [split_byte]; [done|].
  apply not_elem_of_cons in H as [H1 H2]. rewrite (bool_decide_eq_false_2 (x = c)) by done. by rewrite IH.
Qed.

(** ** [strconv.Atoi] *)
Fixpoint digits_val (acc : Z) (l : list ascii) : option Z :=
  match l with
  | [] => Some acc
  | a :: l => if is_digit a then digits_val (acc * 10 + (code a - 48)) l else None
  end.
Definition Atoi (s : string) : option Z :=
  let '(neg, ds) :=
    match to_bytes s with
    | "-"%char :: l => (true, l)
    | "+"%char :: l => (false, l)
    | l => (false, l)
    end in
  match ds with
  | [] => None
  | _ =>
      v ← digits_val 0 ds;
      let z := if neg : bool then - v else v in
      if (- 2 ^ 63 <=? z) && (z <? 2 ^ 63) then Some z else None
  end.

(** ** [net.SplitHostPort] *)
Inductive hostport_error :=
  | MissingPort | TooManyColons | MissingBracket | UnexpectedOpen | UnexpectedClose.

Definition has_byte (c : ascii) (l : list ascii) : bool := bool_decide (c ∈ l).

Definition SplitHostPort (s : string) : res hostport_error (string * string) :=
  let l := to_bytes s in
  match cut_last_byte ":" l with
  | None => Err MissingPort
  | Some (before, port) =>
      match l with
      | "["%char :: _ =>
          match cut_byte "]" l with
          | None => Err MissingBracket
          | Some (h, rest) =>
              (* [end+1] is the length up to and including the bracket *)
              if bool_decide (rest = []) then Err MissingPort
              else if bool_decide (S (length h) = length before) then
                (* the expected result; hostport[1:] has no further "[",
                   hostport[end+1:] no further "]" *)
                if has_byte "[" (drop 1 l) then Err UnexpectedOpen
                else if has_byte "]" rest then Err UnexpectedClose
                else Ok (of_bytes (drop 1 h), of_bytes port)
              else match rest with
                   | ":"%char :: _ => Err TooManyColons
                   | _ => Err MissingPort
                   end
          end
      | _ =>
          if has_byte ":" before then Err TooManyColons
          else if has_byte "[" l then Err UnexpectedOpen
          else if has_byte "]" l then Err UnexpectedClose
          else Ok (of_bytes before, of_bytes port)
      end
  end.

(** The port check shared by the endpoint validators:
    [port, err := strconv.Atoi(portText); err != nil || port < 1 || port > 65535]. *)
Definition port_ok (portText : string) : bool :=
  match Atoi portText with
  | Some p => (1 <=? p) && (p <=? 65535)
  | None => false
  end.

(** Decides the comparisons of a literal key. *)
Ltac key_steps :=
  repeat match goal with
  | |- context [bool_decide (?a = ?b :> string)] =>
      first [ rewrite (bool_decide_eq_true_2 (a = b)) by reflexivity
            | rewrite (bool_decide_eq_false_2 (a = b)) by discriminate ]; cbv iota
  end.
