(* ===== verification/GoNet.v ===== *)
(** * IP addresses

    What the sources use of Go's [net/netip] and [net]: addresses, prefixes,
    their parsers and printers. An address carries its value as an unsigned
    integer of 32 or 128 bits; [net.IP] in its 16-byte form is a 128-bit value. *)

From S2P Require Import Prelude GoStrings.

(** ** [netip.Addr] *)

Inductive Addr :=
  | AddrInvalid                        (* the zero [netip.Addr] *)
  | Addr4 (v : Z)
  | Addr6 (v : Z) (zone : string).

#[global] Instance Addr_eq_dec : EqDecision Addr.
Proof. solve_decision. Defined.

#[global] Instance Addr_countable : Countable Addr.
Proof.
  refine (inj_countable'
    (λ a, match a with AddrInvalid => None | Addr4 v => Some (inl v) | Addr6 v z => Some (inr (v, z)) end)
    (λ x, match x with None => AddrInvalid | Some (inl v) => Addr4 v | Some (inr (v, z)) => Addr6 v z end) _).
  by intros [].
Defined.

Definition addr_valid (a : Addr) : bool := match a with AddrInvalid => false | _ => true end.
Definition addr_bits (a : Addr) : Z :=
  match a with AddrInvalid => 0 | Addr4 _ => 32 | Addr6 _ _ => 128 end.
Definition addr_val (a : Addr) : Z :=
  match a with AddrInvalid => 0 | Addr4 v => v | Addr6 v _ => v end.
Definition addr_zone (a : Addr) : string := match a with Addr6 _ z => z | _ => "" end.

(** The invariant of [netip.Addr]: the value fits its width. *)
Definition addr_wf (a : Addr) : Prop := 0 ≤ addr_val a < 2 ^ addr_bits a.

Definition in_v4_mapped (v : Z) : bool := Z.shiftr v 32 =? 0xffff.
Definition Is4In6 (a : Addr) : bool :=
  match a with Addr6 v _ => in_v4_mapped v | _ => false end.
Definition Unmap (a : Addr) : Addr :=
  if Is4In6 a then Addr4 (addr_val a mod 2 ^ 32) else a.
(** [As16]: the 128-bit value of the IPv4-mapped form. *)
Definition v4_mapped (v : Z) : Z := Z.lor (Z.shiftl 0xffff 32) v.
Definition As16 (a : Addr) : Z := match a with Addr4 v => v4_mapped v | _ => addr_val a end.

(** [Addr.Next]: invalid after the last address of the family. *)
Definition Next (a : Addr) : Addr :=
  match a with
  | AddrInvalid => AddrInvalid
  | Addr4 v => if v + 1 =? 2 ^ 32 then AddrInvalid else Addr4 (v + 1)
  | Addr6 v z => if v + 1 =? 2 ^ 128 then AddrInvalid else Addr6 (v + 1) z
  end.

(** [Addr.Less]: by width, then value, then zone. *)
Definition Less (a b : Addr) : bool :=
  match addr_bits a ?= addr_bits b with
  | Lt => true
  | Gt => false
  | Eq =>
      match addr_val a ?= addr_val b with
      | Lt => true
      | Gt => false
      | Eq => String.ltb (addr_zone a) (addr_zone b)
      end
  end.

(** ** [netip.ParseAddr] *)

(** [parseIPv4Fields]: [val] and [digLen] describe the current octet, [first] and
    [prevdot] what the bounds checks on [s[i-1]] see. *)
Fixpoint v4_fields (l : list ascii) (val : Z) (digLen : nat) (pos : list Z) (atstart : bool)
    : option (list Z) :=
  match l with
  | [] => if bool_decide (length pos < 3)%nat then None else Some (pos ++ [val])
  | a :: l' =>
      if is_digit a then
        if bool_decide (digLen = 1%nat) && (val =? 0) then None
        else
          let val' := val * 10 + (code a - 48) in
          if 255 <? val' then None else v4_fields l' val' (S digLen) pos false
      else if bool_decide (a = "."%char) then
        (* first byte, last byte, or right after another dot *)
        if atstart || bool_decide (l' = []) || bool_decide (digLen = 0%nat) then None
        else if bool_decide (length pos = 3%nat) then None
        else v4_fields l' 0 0 (pos ++ [val]) false
      else None
  end.
Definition parse_v4_fields (l : list ascii) : option (list Z) := v4_fields l 0 0 [] true.

Definition be_val (bs : list Z) : Z := fold_left (λ acc b, acc * 256 + b) bs 0.

Definition hex_val (a : ascii) : option Z :=
  if is_digit a then Some (code a - 48)
  else if (97 <=? code a) && (code a <=? 102) then Some (code a - 97 + 10)
  else if (65 <=? code a) && (code a <=? 70) then Some (code a - 65 + 10)
  else None.

(** One group of hex digits: its length, value and what follows; more than four
    digits fail. *)
Fixpoint scan_hex (l : list ascii) (off : nat) (acc : Z) : option (nat * Z * list ascii) :=
  match l with
  | [] => Some (off, acc, [])
  | a :: l' =>
      match hex_val a with
      | None => Some (off, acc, l)
      | Some d => if bool_decide (3 < off)%nat then None else scan_hex l' (S off) (acc * 16 + d)
      end
  end.

(** The loop of [parseIPv6]: [ip] holds the bytes written so far, [ell] the
    position of the ellipsis; the loop ends after 16 bytes ([fuel] = 8 groups). *)
Fixpoint v6_loop (fuel : nat) (ip : list Z) (ell : option nat) (s : list ascii)
    : option (list Z * option nat * list ascii) :=
  match fuel with
  | O => Some (ip, ell, s)
  | S fuel =>
      match scan_hex s 0 0 with
      | None => None
      | Some (off, acc, rest) =>
          if bool_decide (off = 0%nat) then None else
          match rest with
          | "."%char :: _ =>
              if (negb (bool_decide (is_Some ell)) && negb (bool_decide (length ip = 12%nat)))
                 || bool_decide (16 < length ip + 4)%nat
              then None
              else f ← parse_v4_fields s; Some (ip ++ f, ell, [])
          | _ =>
              let ip := ip ++ [acc / 256; acc mod 256] in
              match rest with
              | [] => Some (ip, ell, [])
              | ":"%char :: [] => None
              | ":"%char :: ":"%char :: s' =>
                  if bool_decide (is_Some ell) then None
                  else if bool_decide (s' = []) then Some (ip, Some (length ip), [])
                  else v6_loop fuel ip (Some (length ip)) s'
              | ":"%char :: s' => v6_loop fuel ip ell s'
              | _ => None
              end
          end
      end
  end.

Definition parse_v6 (inp : list ascii) : option Addr :=
  let '(s, zone, badzone) :=
    match cut_byte "%" inp with
    | None => (inp, [], false)
    | Some (s, z) => (s, z, bool_decide (z = []))
    end in
  if badzone : bool then None else
  let '(s, ell) := match s with
                   | ":"%char :: ":"%char :: s' => (s', Some 0%nat)
                   | _ => (s, None)
                   end in
  if bool_decide (is_Some ell) && bool_decide (s = []) then Some (Addr6 0 (of_bytes zone)) else
  '(ip, ell, s) ← v6_loop 8 [] ell s;
  if negb (bool_decide (s = [])) then None
  else if bool_decide (length ip < 16)%nat then
    e ← ell;
    Some (Addr6 (be_val (take e ip ++ replicate (16 - length ip) 0 ++ drop e ip)) (of_bytes zone))
  else if bool_decide (is_Some ell) then None
  else Some (Addr6 (be_val ip) (of_bytes zone)).

(** The first of ['.'], [':'] and ['%'] decides the family. *)
Fixpoint addr_family (l : list ascii) : option bool :=
  match l with
  | [] => None
  | a :: l => if bool_decide (a = "."%char) then Some true
              else if bool_decide (a = ":"%char) then Some false
              else if bool_decide (a = "%"%char) then None else addr_family l
  end.

Definition ParseAddr (s : string) : option Addr :=
  match addr_family (to_bytes s) with
  | None => None
  | Some true => f ← parse_v4_fields (to_bytes s); Some (Addr4 (be_val f))
  | Some false => parse_v6 (to_bytes s)
  end.

(** ** [netip.Prefix] *)

Record Prefix := MkPrefix { pfx_addr : Addr; pfx_bits : Z }.
(** The zero [Prefix] is the invalid one. *)
Definition PrefixInvalid : Prefix := MkPrefix AddrInvalid (-1).

Definition prefix_valid (p : Prefix) : bool :=
  addr_valid (pfx_addr p) && (0 <=? pfx_bits p) && (pfx_bits p <=? addr_bits (pfx_addr p)).

Definition clear_low (v h : Z) : Z := Z.shiftl (Z.shiftr v h) h.

(** [Prefix.Masked]: the zone and the host bits are dropped. *)
Definition Masked (p : Prefix) : Prefix :=
  if negb (prefix_valid p) then PrefixInvalid else
  let h := addr_bits (pfx_addr p) - pfx_bits p in
  match pfx_addr p with
  | AddrInvalid => PrefixInvalid
  | Addr4 v => MkPrefix (Addr4 (clear_low v h)) (pfx_bits p)
  | Addr6 v _ => MkPrefix (Addr6 (clear_low v h) "") (pfx_bits p)
  end.

(** [Prefix.Contains]. *)
Definition prefix_contains (p : Prefix) (a : Addr) : bool :=
  prefix_valid p && addr_valid a && bool_decide (addr_zone a = "") &&
  (addr_bits (pfx_addr p) =? addr_bits a) &&
  (Z.shiftr (Z.lxor (addr_val a) (addr_val (pfx_addr p))) (addr_bits a - pfx_bits p) =? 0).

Definition ParsePrefix (s : string) : option Prefix :=
  '(ipText, bitsText) ← cut_last_byte "/" (to_bytes s);
  ip ← ParseAddr (of_bytes ipText);
  if negb (bool_decide (addr_zone ip = "")) then None
  else if match bitsText with
          | a :: _ :: _ => negb ((49 <=? code a) && (code a <=? 57))
          | _ => false
          end then None
  else
    bits ← Atoi (of_bytes bitsText);
    if (bits <? 0) || (addr_bits ip <? bits) then None
    else Some (MkPrefix ip bits).

(** ** [net.IP] and [net.IPNet]

    [net.ParseIP] yields the 16-byte form, a 128-bit value. *)

Definition ParseIP (s : string) : option Z :=
  match ParseAddr s with
  | Some a => if bool_decide (addr_zone a = "") then Some (As16 a) else None
  | None => None
  end.

(** [IP.To4] *)
Definition To4 (ip : Z) : option Z :=
  if in_v4_mapped ip then Some (ip mod 2 ^ 32) else None.

Record IPNet := MkIPNet {
  net_v4 : bool;     (* the mask has 4 bytes *)
  net_ip : Z;        (* masked address: 32 bits with a 4-byte mask, else 128 *)
  net_bits : Z       (* leading ones of the mask *)
}.

(** [dtoi]: decimal, at most [0xFFFFFF], the whole text. *)
Definition dtoi_all (l : list ascii) : option Z :=
  match l with
  | [] => None
  | _ => v ← digits_val 0 l; if v <? 0xFFFFFF then Some v else None
  end.

Definition ParseCIDR (s : string) : option (Z * IPNet) :=
  '(ipText, bitsText) ← cut_byte "/" (to_bytes s);
  a ← ParseAddr (of_bytes ipText);
  if negb (bool_decide (addr_zone a = "")) then None else
  n ← dtoi_all bitsText;
  if addr_bits a <? n then None
  else match a with
       | Addr4 v => Some (As16 a, MkIPNet true (clear_low v (32 - n)) n)
       | _ => Some (As16 a, MkIPNet false (clear_low (addr_val a) (128 - n)) n)
       end.

(** [networkNumberAndMask]: whether the network number has 4 bytes, its value and
    the number of mask bits over it. *)
Definition network_number (n : IPNet) : bool * Z * Z :=
  if net_v4 n then (true, net_ip n, net_bits n)
  else match To4 (net_ip n) with
       | Some v => (true, v, net_bits n - 96)
       | None => (false, net_ip n, net_bits n)
       end.

(** [IPNet.Contains] *)
Definition net_contains (n : IPNet) (ip : Z) : bool :=
  let '(nn4, nn, b) := network_number n in
  match To4 ip with
  | Some v => nn4 && (Z.shiftr v (32 - b) =? Z.shiftr nn (32 - b))
  | None => negb nn4 && (Z.shiftr ip (128 - b) =? Z.shiftr nn (128 - b))
  end.

(** ** Printing *)

(** Big-endian octets of a value of [n] bytes. *)
Fixpoint octets (n : nat) (v : Z) : list Z :=
  match n with
  | O => []
  | S n => (v / 256 ^ Z.of_nat n) mod 256 :: octets n v
  end.

Definition join (sep : string) (l : list string) : string := String.concat sep l.

Definition addr4_string (v : Z) : string := join "." (Itoa <$> octets 4 v).

Definition hex_digit (d : Z) : ascii := chr (if d <? 10 then 48 + d else 87 + d).
(** [appendHex]: no leading zeros. *)
Definition hex_group (x : Z) : list ascii :=
  let ds := [x / 4096; (x / 256) mod 16; (x / 16) mod 16; x mod 16] in
  let fix strip (l : list Z) :=
    match l with
    | [d] => [d]
    | d :: l' => if d =? 0 then strip l' else l
    | [] => []
    end in
  hex_digit <$> strip ds.

Fixpoint groups (n : nat) (v : Z) : list Z :=
  match n with
  | O => []
  | S n => (v / 65536 ^ Z.of_nat n) mod 65536 :: groups n v
  end.

Fixpoint zero_run (l : list Z) : nat :=
  match l with 0 :: l => S (zero_run l) | _ => 0 end.

(** The first longest run of at least two zero groups: [(start, length)]. *)
Fixpoint longest_run (i : nat) (l : list Z) (best : nat * nat) : nat * nat :=
  match l with
  | [] => best
  | _ :: l' =>
      let r := zero_run l in
      longest_run (S i) l' (if bool_decide (2 ≤ r ∧ best.2 < r)%nat then (i, r) else best)
  end.

Definition join_groups (l : list Z) : string := join ":" (of_bytes ∘ hex_group <$> l).

Definition addr6_string (v : Z) : string :=
  let g := groups 8 v in
  let '(st, len) := longest_run 0 g (0%nat, 0%nat) in
  if bool_decide (len = 0%nat) then join_groups g
  else (join_groups (take st g) +:+ "::" +:+ join_groups (drop (st + len) g))%string.

(** [net.IP.String] of a 16-byte address. *)
Definition ip_string (ip : Z) : string :=
  match To4 ip with
  | Some v => addr4_string v
  | None => addr6_string ip
  end.

(** [IPNet.String] *)
Definition net_string (n : IPNet) : string :=
  let '(nn4, nn, b) := network_number n in
  ((if nn4 : bool then addr4_string nn else addr6_string nn) +:+ "/" +:+ Itoa b)%string.

(** ** Facts about prefixes

    [hostsize p] addresses, from [Masked p] on, are exactly the contained ones. *)

Lemma clear_low_div v h : 0 ≤ h → clear_low v h = 2 ^ h * (v / 2 ^ h).
Proof.
  intros Hh. unfold clear_low. rewrite Z.shiftl_mul_pow2, Z.shiftr_div_pow2; lia.
Qed.

Lemma clear_low_range v h : 0 ≤ h → clear_low v h ≤ v < clear_low v h + 2 ^ h.
Proof.
  intros Hh. rewrite clear_low_div by done.
  pose proof (Z.mul_div_le v (2 ^ h)). pose proof (Z.mod_pos_bound v (2 ^ h)).
  pose proof (Z.div_mod v (2 ^ h)). assert (0 < 2 ^ h) by (apply Z.pow_pos_nonneg; lia). lia.
Qed.

Lemma clear_low_idem v h : 0 ≤ h → clear_low (clear_low v h) h = clear_low v h.
Proof.
  intros Hh. rewrite !clear_low_div by done. f_equal.
  rewrite Z.mul_comm, Z.div_mul; [done|]. pose proof (Z.pow_pos_nonneg 2 h). lia.
Qed.

Lemma shiftr_lxor_zero a b h :
  0 ≤ h → Z.shiftr (Z.lxor a b) h = 0 ↔ clear_low a h = clear_low b h.
Proof.
  intros Hh. rewrite Z.shiftr_lxor, Z.lxor_eq_0_iff. unfold clear_low. split.
  - by intros ->.
  - intros H. apply (f_equal (λ x, Z.shiftr x h)) in H.
    rewrite !Z.shiftr_shiftl_l, Z.sub_diag, !Z.shiftl_0_r in H by lia. done.
Qed.

Lemma clear_low_eq_iff a b h :
  0 ≤ h → clear_low a h = clear_low b h ↔ clear_low b h ≤ a < clear_low b h + 2 ^ h.
Proof.
  intros Hh. assert (0 < 2 ^ h) by (apply Z.pow_pos_nonneg; lia). split.
  - intros <-. by apply clear_low_range.
  - rewrite !clear_low_div by done. intros H1. f_equal.
    symmetry. apply Z.div_unique with (r := a - 2 ^ h * (b / 2 ^ h)); lia.
Qed.

(** The host part of a prefix: how many bits, how many addresses. *)
Definition host_bits (p : Prefix) : Z := addr_bits (pfx_addr p) - pfx_bits p.
Definition net_base (p : Prefix) : Z := clear_low (addr_val (pfx_addr p)) (host_bits p).

Lemma prefix_valid_spec p :
  prefix_valid p = true ↔
  pfx_addr p ≠ AddrInvalid ∧ 0 ≤ pfx_bits p ≤ addr_bits (pfx_addr p).
Proof.
  unfold prefix_valid. rewrite !andb_true_iff, !Z.leb_le.
  destruct (pfx_addr p); simpl; naive_solver.
Qed.

(** A prefix contains the zone-less addresses of its family from its base on,
    [2 ^ host_bits] of them. *)
Lemma prefix_contains_spec p a :
  prefix_valid p = true →
  prefix_contains p a = true ↔
  addr_valid a = true ∧ addr_zone a = "" ∧ addr_bits a = addr_bits (pfx_addr p) ∧
  net_base p ≤ addr_val a < net_base p + 2 ^ host_bits p.
Proof.
  intros Hv. unfold prefix_contains. rewrite Hv. simpl.
  rewrite !andb_true_iff, bool_decide_eq_true, !Z.eqb_eq.
  apply prefix_valid_spec in Hv as [_ Hb]. unfold net_base, host_bits.
  split.
  - intros [[[Ha Hz] He] H0]. split_and!; try done.
    + rewrite <- He in H0. rewrite shiftr_lxor_zero in H0 by lia.
      apply clear_low_eq_iff in H0; lia.
    + rewrite <- He in H0. rewrite shiftr_lxor_zero in H0 by lia.
      apply clear_low_eq_iff in H0; lia.
  - intros (Ha & Hz & He & Hr). split_and!; try done.
    rewrite He. apply shiftr_lxor_zero; [lia|]. apply clear_low_eq_iff; lia.
Qed.

Lemma Masked_valid p : prefix_valid p = true →
  Masked p = MkPrefix (match pfx_addr p with
                       | Addr4 _ => Addr4 (net_base p) | _ => Addr6 (net_base p) "" end)
                      (pfx_bits p).
Proof.
  intros Hv. unfold Masked. rewrite Hv. simpl. unfold net_base, host_bits.
  apply prefix_valid_spec in Hv as [Hn _]. by destruct (pfx_addr p).
Qed.

Lemma Masked_prefix_valid p : prefix_valid p = true → prefix_valid (Masked p) = true.
Proof.
  intros Hv. rewrite Masked_valid by done. apply prefix_valid_spec in Hv as [Hn Hb].
  apply prefix_valid_spec. by destruct (pfx_addr p).
Qed.

Lemma Masked_idem p : Masked (Masked p) = Masked p.
Proof.
  destruct (prefix_valid p) eqn:Hv; [|by unfold Masked; rewrite Hv].
  rewrite (Masked_valid (Masked p)), (Masked_valid p) by auto using Masked_prefix_valid.
  apply prefix_valid_spec in Hv as [Hn Hb]. unfold net_base, host_bits.
  destruct p as [[|v|v z] b]; simpl in *; [done| |]; rewrite clear_low_idem by lia; done.
Qed.

(** Masking does not change what a prefix contains. *)
Lemma Masked_contains p a : prefix_contains (Masked p) a = prefix_contains p a.
Proof.
  destruct (prefix_valid p) eqn:Hv.
  - apply eq_iff_eq_true.
    rewrite (prefix_contains_spec (Masked p)), (prefix_contains_spec p)
      by auto using Masked_prefix_valid.
    rewrite Masked_valid by done. apply prefix_valid_spec in Hv as [Hn Hb].
    unfold net_base, host_bits.
    destruct p as [[|v|v z] b]; simpl in *; [done| |]; rewrite clear_low_idem by lia; done.
  - unfold prefix_contains, Masked. by rewrite Hv.
Qed.

(** ** Octets *)

Lemma be_val_acc l acc :
  fold_left (λ a b, a * 256 + b) l acc = acc * 256 ^ Z.of_nat (length l) + be_val l.
Proof.
  unfold be_val. revert acc. induction l as [|b l IH]; intros acc; simpl; [lia|].
  rewrite (IH (acc * 256 + b)), (IH (0 * 256 + b)).
  rewrite Nat2Z.inj_succ, Z.pow_succ_r by lia. lia.
Qed.

Lemma be_val_cons b l : be_val (b :: l) = b * 256 ^ Z.of_nat (length l) + be_val l.
Proof. unfold be_val at 1. cbn [fold_left]. rewrite be_val_acc. lia. Qed.

Lemma length_octets n v : length (octets n v) = n.
Proof. induction n; simpl; auto. Qed.

Lemma be_val_octets n v : be_val (octets n v) = v mod 256 ^ Z.of_nat n.
Proof.
  induction n as [|n IH]; [by rewrite Z.mod_1_r|].
  simpl octets. rewrite be_val_cons, length_octets, IH.
  rewrite Nat2Z.inj_succ, Z.pow_succ_r by lia.
  rewrite (Z.mul_comm 256), Z.rem_mul_r; [lia| |lia]. apply Z.pow_nonzero; lia.
Qed.

Lemma be_val_bound l :
  Forall (λ b, 0 ≤ b < 256) l → 0 ≤ be_val l < 256 ^ Z.of_nat (length l).
Proof.
  induction 1 as [|b l Hb _ IH]; [done|].
  rewrite be_val_cons. simpl length. rewrite Nat2Z.inj_succ, Z.pow_succ_r by lia.
  assert (0 < 256 ^ Z.of_nat (length l)) by (apply Z.pow_pos_nonneg; lia). nia.
Qed.

Definition octet (k v : Z) : Z := (v / 256 ^ k) mod 256.

Lemma octets_lookup n v i :
  (i < n)%nat → octets n v !! i = Some (octet (Z.of_nat (n - 1 - i)) v).
Proof.
  revert i. induction n as [|n IH]; intros i Hi; [lia|]. destruct i as [|i]; simpl.
  - do 2 f_equal. by replace (n - 0 - 0)%nat with n by lia.
  - rewrite IH by lia. do 2 f_equal. lia.
Qed.

Lemma octet_lor k a b : 0 ≤ k → octet k (Z.lor a b) = Z.lor (octet k a) (octet k b).
Proof.
  intros Hk. unfold octet. change 256 with (2 ^ 8).
  rewrite <- Z.pow_mul_r, <- !Z.land_ones, <- !Z.shiftr_div_pow2 by lia.
  by rewrite Z.shiftr_lor, Z.land_lor_distr_l.
Qed.

Lemma octet_range k v : 0 ≤ octet k v < 256.
Proof. unfold octet. apply Z.mod_pos_bound. lia. Qed.

(** The octets of a mask of [h] low ones. *)
Lemma octet_ones k h :
  0 ≤ k → 0 ≤ h →
  octet k (Z.ones h) = if h <=? 8 * k then 0 else Z.ones (Z.min 8 (h - 8 * k)).
Proof.
  intros Hk Hh. unfold octet. change 256 with (2 ^ 8). rewrite <- Z.pow_mul_r by lia.
  destruct (h <=? 8 * k) eqn:E.
  - rewrite Z.div_small; [done|]. rewrite Z.ones_equiv.
    assert (2 ^ h ≤ 2 ^ (8 * k)) by (apply Z.pow_le_mono_r; lia).
    assert (0 < 2 ^ h) by (apply Z.pow_pos_nonneg; lia). lia.
  - rewrite Z.ones_div_pow2 by lia. destruct (Z.le_gt_cases 8 (h - 8 * k)).
    + rewrite Z.ones_mod_pow2 by lia. by rewrite Z.min_l by lia.
    + rewrite Z.min_r by lia. rewrite Z.mod_small; [done|].
      rewrite Z.ones_equiv. assert (2 ^ (h - 8 * k) ≤ 2 ^ 8) by (apply Z.pow_le_mono_r; lia).
      assert (0 < 2 ^ (h - 8 * k)) by (apply Z.pow_pos_nonneg; lia). lia.
Qed.

Lemma octet_lor_ff k v : Z.lor (octet k v) 255 = 255.
Proof.
  change 255 with (Z.ones 8). apply Z.lor_ones_low; [apply octet_range|].
  pose proof (octet_range k v) as [H0 H1].
  destruct (decide (octet k v = 0)) as [->|]; [done|].
  apply Z.log2_lt_pow2; [lia|]. change (2 ^ 8) with 256. lia.
Qed.

(** Setting the [h] low bits of a value that has none of them set. *)
Lemma lor_ones_add v h :
  0 ≤ h → Z.lor (clear_low v h) (Z.ones h) = clear_low v h + 2 ^ h - 1.
Proof.
  intros Hh. pose proof (Z.add_lor_land (clear_low v h) (Z.ones h)) as H.
  rewrite Z.land_ones, clear_low_div, Z.mul_comm, Z.mod_mul, Z.ones_equiv in H;
    [|apply Z.pow_nonzero; lia|done|done].
  rewrite clear_low_div, Z.ones_equiv by done.
  rewrite Z.mul_comm. lia.
Qed.

(** ** Parsed addresses fit their width *)

Lemma is_digit_range a : is_digit a = true → 0 ≤ code a - 48 ≤ 9.
Proof. unfold is_digit. lia. Qed.

Lemma v4_fields_wf l : ∀ val digLen pos st f,
  0 ≤ val ≤ 255 → Forall (λ b, 0 ≤ b < 256) pos → (length pos ≤ 3)%nat →
  v4_fields l val digLen pos st = Some f →
  Forall (λ b, 0 ≤ b < 256) f ∧ length f = 4%nat.
Proof.
  induction l as [|a l IH]; intros val digLen pos st f Hv Hf Hl H; simpl in H.
  - case_bool_decide; simplify_eq. rewrite Forall_app, length_app. simpl.
    split; [|lia]. split; [done|]. constructor; [lia|done].
  - destruct (is_digit a) eqn:Hd.
    + apply is_digit_range in Hd.
      destruct (_ && _); [done|]. destruct (255 <? _) eqn:Hgt; [done|].
      eapply IH; [| | |exact H]; [lia|done|done].
    + repeat (case_match; try done). bool_to_prop. subst.
      eapply IH; [| | |exact H]; [lia| |].
      * rewrite Forall_app. split; [done|]. constructor; [lia|done].
      * rewrite length_app. simpl. lia.
Qed.

Lemma hex_val_range a d : hex_val a = Some d → 0 ≤ d < 16.
Proof.
  unfold hex_val, is_digit. intros H. repeat case_match; simplify_eq; lia.
Qed.

Lemma scan_hex_wf l : ∀ off acc off' acc' rest,
  (off ≤ 4)%nat → 0 ≤ acc < 16 ^ Z.of_nat off →
  scan_hex l off acc = Some (off', acc', rest) → 0 ≤ acc' < 65536.
Proof.
  assert (∀ off, (off ≤ 4)%nat → 16 ^ Z.of_nat off ≤ 65536) as Hp.
  { intros off Ho. change 65536 with (16 ^ 4). apply Z.pow_le_mono_r; lia. }
  induction l as [|a l IH]; intros off acc off' acc' rest Ho Ha H; simpl in H.
  - simplify_eq. specialize (Hp _ Ho). lia.
  - destruct (hex_val a) as [d|] eqn:Hd; [|simplify_eq; specialize (Hp _ Ho); lia].
    apply hex_val_range in Hd. case_bool_decide; [done|].
    eapply IH; [| |exact H]; [lia|]. rewrite Nat2Z.inj_succ, Z.pow_succ_r by lia. lia.
Qed.

Lemma v6_loop_wf fuel : ∀ ip ell s ip' ell' s',
  (length ip + 2 * fuel = 16)%nat → Forall (λ b, 0 ≤ b < 256) ip →
  v6_loop fuel ip ell s = Some (ip', ell', s') →
  Forall (λ b, 0 ≤ b < 256) ip' ∧ (length ip' ≤ 16)%nat.
Proof.
  induction fuel as [|fuel IH]; intros ip ell s ip' ell' s' Hl Hf H; simpl in H.
  - simplify_eq. split; [done|lia].
  - destruct (scan_hex s 0 0) as [[[off acc] rest]|] eqn:Hs; [|done].
    apply scan_hex_wf in Hs; [|lia|done].
    assert (Forall (λ b, 0 ≤ b < 256) (ip ++ [acc / 256; acc mod 256]) ∧
            length (ip ++ [acc / 256; acc mod 256]) = (length ip + 2)%nat) as [Hf' Hl'].
    { rewrite Forall_app, length_app. split; [|done]. split; [done|].
      pose proof (Z.mod_pos_bound acc 256). constructor; [|constructor; [lia|done]].
      split; [apply Z.div_pos; lia|apply Z.div_lt_upper_bound; lia]. }
    set (ip2 := ip ++ [acc / 256; acc mod 256]) in *.
    assert (∀ f, parse_v4_fields s = Some f → (length ip + 4 ≤ 16)%nat →
       Forall (λ b, 0 ≤ b < 256) (ip ++ f) ∧ (length (ip ++ f) ≤ 16)%nat) as Hv4.
    { intros f Hp Hle. apply v4_fields_wf in Hp as [Hff Hfl]; [|lia|constructor|simpl; lia].
      rewrite Forall_app, length_app. split; [done|lia]. }
    repeat first [discriminate H | case_match];
      simplify_option_eq; try (split; [done|lia]); try (apply Hv4; [done|lia]);
      try (eapply IH; [| |exact H]; [lia|done]).
Qed.

Lemma parse_v6_wf l a : parse_v6 l = Some a → addr_wf a ∧ addr_valid a = true.
Proof.
  unfold parse_v6. intros H.
  destruct (match cut_byte "%" l with None => _ | Some _ => _ end) as [[s z] bz].
  destruct bz; [done|].
  destruct (match s with ":"%char :: _ => _ | _ => _ end) as [s' ell].
  destruct (_ && _); [simplify_eq; done|].
  destruct (v6_loop 8 [] ell s') as [[[ip ell'] rest]|] eqn:Hl; simpl in H; [|done].
  apply v6_loop_wf in Hl as [Hf Hlen]; [|done|constructor].
  assert (∀ bs, Forall (λ b, 0 ≤ b < 256) bs → length bs = 16%nat →
            0 ≤ be_val bs < 2 ^ 128) as Hb.
  { intros bs Hbs Hlb. apply be_val_bound in Hbs. by rewrite Hlb in Hbs. }
  destruct (negb _); [done|]. unfold addr_wf. case_bool_decide.
  - destruct ell' as [e|]; simpl in H; [|done]. injection H as <-. simpl. split; [|done]. apply Hb.
    + rewrite !Forall_app. split; [by apply Forall_take|]. split; [|by apply Forall_drop].
      by apply Forall_replicate.
    + rewrite !length_app, length_replicate, length_take, length_drop. lia.
  - case_bool_decide; [done|]. injection H as <-. simpl. split; [|done].
    apply Hb; [done|lia].
Qed.

Lemma ParseAddr_wf s a : ParseAddr s = Some a → addr_wf a ∧ addr_valid a = true.
Proof.
  unfold ParseAddr. intros H. destruct (addr_family _) as [[]|]; [| |done].
  - destruct (parse_v4_fields _) as [f|] eqn:Hp; simpl in H; [|done]. injection H as <-.
    apply v4_fields_wf in Hp as [Hf Hl]; [|lia|constructor|simpl; lia].
    apply be_val_bound in Hf. rewrite Hl in Hf. done.
  - by eapply parse_v6_wf.
Qed.

(** The invariant of a prefix a parser returned. *)
Definition prefix_ok (p : Prefix) : Prop := prefix_valid p = true ∧ addr_wf (pfx_addr p).

Lemma ParsePrefix_ok s p : ParsePrefix s = Some p → prefix_ok p.
Proof.
  unfold ParsePrefix. intros H.
  destruct (cut_last_byte _ _) as [[t b]|]; simpl in H; [|done].
  destruct (ParseAddr _) as [ip|] eqn:Hip; simpl in H; [|done].
  destruct (negb _); [done|]. destruct (match b with [] => _ | _ => _ end); [done|].
  destruct (Atoi _) as [n|]; simpl in H; [|done].
  destruct (_ || _) eqn:E; [done|]. injection H as <-.
  apply ParseAddr_wf in Hip as [Hw Hv]. split; [|done].
  unfold prefix_valid. simpl. rewrite Hv. simpl. lia.
Qed.

Lemma Masked_ok p : prefix_ok p → prefix_ok (Masked p).
Proof.
  intros [Hv Hw]. split; [by apply Masked_prefix_valid|].
  rewrite Masked_valid by done. apply prefix_valid_spec in Hv as [Hn Hb].
  unfold addr_wf, net_base, host_bits in *.
  pose proof (clear_low_range (addr_val (pfx_addr p)) (addr_bits (pfx_addr p) - pfx_bits p)).
  assert (0 ≤ clear_low (addr_val (pfx_addr p)) (addr_bits (pfx_addr p) - pfx_bits p)).
  { rewrite clear_low_div by lia. apply Z.mul_nonneg_nonneg; [lia|].
    apply Z.div_pos; [lia|]. apply Z.pow_pos_nonneg; lia. }
  destruct p as [[|v|v z] b]; simpl in *; [done| |]; lia.
Qed.
#[export] Hint Resolve ParsePrefix_ok Masked_ok Masked_prefix_valid : mesh.

(** The addresses of a prefix stay within the width of its family. *)
Lemma net_base_bound p :
  prefix_ok p → 0 ≤ net_base p ∧ net_base p + 2 ^ host_bits p ≤ 2 ^ addr_bits (pfx_addr p).
Proof.
  intros [Hv Hw]. apply prefix_valid_spec in Hv as [_ Hb]. unfold addr_wf in Hw.
  unfold net_base, host_bits in *.
  set (n := addr_bits (pfx_addr p)) in *. set (b := pfx_bits p) in *.
  set (v := addr_val (pfx_addr p)) in *.
  rewrite clear_low_div by lia.
  assert (0 < 2 ^ (n - b)) by (apply Z.pow_pos_nonneg; lia).
  assert (2 ^ n = 2 ^ (n - b) * 2 ^ b) as Hn.
  { rewrite <- Z.pow_add_r by lia. f_equal. lia. }
  assert (v / 2 ^ (n - b) < 2 ^ b) by (apply Z.div_lt_upper_bound; lia).
  assert (0 ≤ v / 2 ^ (n - b)) by (apply Z.div_pos; lia). nia.
Qed.

(** ** Printing and parsing IPv4 addresses *)

(** The digits of one octet, as the scanner reads them. *)
Fixpoint run_digits (ds : list ascii) (val : Z) (digLen : nat) : option (Z * nat) :=
  match ds with
  | [] => Some (val, digLen)
  | a :: ds =>
      if negb (is_digit a) then None
      else if bool_decide (digLen = 1%nat) && (val =? 0) then None
      else let val' := val * 10 + (code a - 48) in
           if 255 <? val' then None else run_digits ds val' (S digLen)
  end.

Lemma v4_fields_digits ds : ∀ val digLen pos st l v' d',
  run_digits ds val digLen = Some (v', d') →
  v4_fields (ds ++ l) val digLen pos st = v4_fields l v' d' pos (if decide (ds = []) then st else false).
Proof.
  induction ds as [|a ds IH]; intros val digLen pos st l v' d' H; simpl in *; [by injection H as <- <-|].
  destruct (is_digit a); [|discriminate]. simpl in H.
  destruct (bool_decide (digLen = 1%nat) && (val =? 0)); [discriminate|].
  destruct (255 <? val * 10 + (code a - 48)); [discriminate|].
  rewrite (IH _ _ _ _ _ _ _ H). by destruct (decide (ds = [])).
Qed.

(** The decimal text of an octet: nonempty digits that read back. *)
Definition octet_text_ok (b : Z) : bool :=
  let ds := to_bytes (Itoa b) in
  bool_decide (run_digits ds 0 0 = Some (b, length ds)) && negb (bool_decide (ds = [])).
Lemma octet_text b : 0 ≤ b < 256 →
  run_digits (to_bytes (Itoa b)) 0 0 = Some (b, length (to_bytes (Itoa b))) ∧ to_bytes (Itoa b) ≠ [].
Proof.
  intros Hb. assert (Forall (λ b, octet_text_ok b = true) (seqZ 0 256)) as Hall.
  { apply (bool_decide_unpack _). vm_compute. exact I. }
  rewrite Forall_forall in Hall. specialize (Hall b). unfold octet_text_ok in Hall.
  rewrite elem_of_seqZ in Hall. specialize (Hall ltac:(lia)). bool_to_prop. done.
Qed.

Lemma to_bytes_app a b : to_bytes (a +:+ b) = to_bytes a ++ to_bytes b.
Proof. induction a as [|c a IH]; simpl; [done|]. by rewrite IH. Qed.

(** The bytes of a dotted quad. *)
Lemma addr4_bytes v :
  ∃ a b c d, octets 4 v = [a; b; c; d] ∧ 0 ≤ a < 256 ∧ 0 ≤ b < 256 ∧ 0 ≤ c < 256 ∧ 0 ≤ d < 256 ∧
  to_bytes (addr4_string v) =
    to_bytes (Itoa a) ++ "."%char :: to_bytes (Itoa b) ++ "."%char :: to_bytes (Itoa c) ++ "."%char :: to_bytes (Itoa d).
Proof.
  eexists _, _, _, _. split; [cbn [octets]; reflexivity|].
  do 4 (split; [apply Z.mod_pos_bound; lia|]).
  unfold addr4_string. cbn [octets]. unfold join. cbn [fmap list_fmap String.concat].
  rewrite !to_bytes_app. reflexivity.
Qed.

Definition quad_char (a : ascii) : bool := is_digit a || bool_decide (a = "."%char).

Lemma run_digits_chars ds : ∀ v n v' n', run_digits ds v n = Some (v', n') → Forall (λ a, is_digit a = true) ds.
Proof.
  induction ds as [|a ds IH]; intros v n v' n' H; simpl in *; [constructor|].
  destruct (is_digit a) eqn:Ha; [|discriminate]. simpl in H.
  destruct (_ && _); [discriminate|]. destruct (255 <? _); [discriminate|]. constructor; eauto.
Qed.

Lemma addr4_chars v : Forall (λ a, quad_char a = true) (to_bytes (addr4_string v)).
Proof.
  destruct (addr4_bytes v) as (a & b & c & d & _ & Ha & Hb & Hc & Hd & ->).
  assert (∀ x, 0 ≤ x < 256 → Forall (λ a, quad_char a = true) (to_bytes (Itoa x))) as Hx.
  { intros x Hx. destruct (octet_text x Hx) as [Hr _]. apply run_digits_chars in Hr.
    eapply Forall_impl; [exact Hr|]. intros ch Hch. unfold quad_char. by rewrite Hch. }
  repeat (apply Forall_app; split; [by apply Hx|]; constructor; [done|]). by apply Hx.
Qed.

Lemma digit_family a l : is_digit a = true → addr_family (a :: l) = addr_family l.
Proof.
  intros Ha. simpl. rewrite !bool_decide_eq_false_2; [done|..]; intros ->; discriminate Ha.
Qed.

Lemma v4_octet x pos st l :
  0 ≤ x < 256 → l ≠ [] → (length pos < 3)%nat →
  v4_fields (to_bytes (Itoa x) ++ "."%char :: l) 0 0 pos st = v4_fields l 0 0 (pos ++ [x]) false.
Proof.
  intros Hx Hl Hp. destruct (octet_text x Hx) as [Hr Hne]. rewrite (v4_fields_digits _ _ _ _ _ _ _ _ Hr).
  rewrite decide_False by done. simpl.
  rewrite (bool_decide_eq_false_2 (l = [])) by done.
  rewrite (bool_decide_eq_false_2 (length (to_bytes (Itoa x)) = 0%nat)) by (by destruct (to_bytes (Itoa x))).
  rewrite (bool_decide_eq_false_2 (length pos = 3%nat)) by lia. done.
Qed.

(** Printing an IPv4 address and parsing it gives it back. *)
Lemma ParseAddr_addr4_string v : 0 ≤ v < 2 ^ 32 → ParseAddr (addr4_string v) = Some (Addr4 v).
Proof.
  intros Hv. pose proof (be_val_octets 4 v) as Hbe. change (256 ^ Z.of_nat 4) with (2 ^ 32) in Hbe.
  rewrite Z.mod_small in Hbe by done.
  destruct (addr4_bytes v) as (a & b & c & d & Ho & Ha & Hb & Hc & Hd & Hs).
  unfold ParseAddr. rewrite Hs.
  destruct (octet_text a Ha) as [Hra Hna]. destruct (octet_text b Hb) as [_ Hnb].
  destruct (octet_text c Hc) as [_ Hnc]. destruct (octet_text d Hd) as [Hrd Hnd].
  assert (∀ ds l, Forall (λ a, is_digit a = true) ds → addr_family (ds ++ "."%char :: l) = Some true) as Hfam.
  { induction 1 as [|x ds Hx _ IH]; [done|]. change ((x :: ds) ++ "."%char :: l) with (x :: (ds ++ "."%char :: l)).
    by rewrite digit_family. }
  rewrite Hfam by (by eapply run_digits_chars). unfold parse_v4_fields.
  rewrite v4_octet by (try done; try (simpl; lia); intros Hn; apply app_nil in Hn as [? _]; done).
  rewrite v4_octet by (try done; try (simpl; lia); intros Hn; apply app_nil in Hn as [? _]; done).
  rewrite v4_octet by (try done; simpl; lia).
  rewrite <- (app_nil_r (to_bytes (Itoa d))), (v4_fields_digits _ _ _ _ _ _ _ _ Hrd). simpl.
  cbn [mbind option_bind]. do 2 f_equal. rewrite <- Hbe at 1. by rewrite Ho.
Qed.

(** ** Networks of IPv4 hosts *)

Lemma cut_byte_app c l r : c ∉ l → cut_byte c (l ++ c :: r) = Some (l, r).
Proof.
  induction l as [|a l IH]; intros H; cbn [app cut_byte].
  - by rewrite (bool_decide_eq_true_2 (c = c)).
  - apply not_elem_of_cons in H as [H1 H2].
    rewrite (bool_decide_eq_false_2 (a = c)) by done. by rewrite IH.
Qed.

Lemma is_infix_byte c l : is_infix [c] l = bool_decide (c ∈ l).
Proof.
  induction l as [|a l IH]; [done|].
  change (is_infix [c] (a :: l)) with (bool_decide (c = a) && true || is_infix [c] l).
  rewrite IH, andb_true_r. apply eq_true_iff_eq.
  rewrite orb_true_iff, !bool_decide_eq_true, elem_of_cons. done.
Qed.

Lemma Contains_slash s : Contains s "/" = bool_decide ("/"%char ∈ to_bytes s).
Proof. apply is_infix_byte. Qed.

Lemma addr4_no_slash v : "/"%char ∉ to_bytes (addr4_string v).
Proof. intros H. pose proof (addr4_chars v) as Hf. rewrite Forall_forall in Hf. by specialize (Hf _ H). Qed.

(** The host network of an IPv4 address and its text. *)
Definition host_net (v : Z) : IPNet := MkIPNet true v 32.
Definition host_route (v : Z) : string := addr4_string v +:+ "/32".

Lemma net_string_host v : net_string (host_net v) = host_route v.
Proof. reflexivity. Qed.

Lemma ParseCIDR_host s v :
  ParseAddr s = Some (Addr4 v) → "/"%char ∉ to_bytes s →
  ParseCIDR (s +:+ "/32") = Some (v4_mapped v, host_net v).
Proof.
  intros Hp Hs. unfold ParseCIDR.
  rewrite to_bytes_app. change (to_bytes "/32") with ("/"%char :: to_bytes "32").
  rewrite cut_byte_app by done. cbn [mbind option_bind]. rewrite of_to_bytes, Hp. cbn [mbind option_bind].
  change (dtoi_all (to_bytes "32")) with (Some 32). cbn [mbind option_bind addr_zone addr_bits].
  rewrite (bool_decide_eq_true_2 (("" : string) = "")) by done. cbn.
  unfold clear_low. change (32 - 32) with 0. by rewrite Z.shiftr_0_r, Z.shiftl_0_r.
Qed.

Lemma host_route_inj v w : 0 ≤ v < 2 ^ 32 → 0 ≤ w < 2 ^ 32 → host_route v = host_route w → v = w.
Proof.
  intros Hv Hw H. apply (f_equal to_bytes) in H. unfold host_route in H. rewrite !to_bytes_app in H.
  apply app_inv_tail in H. apply (f_equal of_bytes) in H. rewrite !of_to_bytes in H.
  apply (f_equal ParseAddr) in H. rewrite !ParseAddr_addr4_string in H by done. by injection H.
Qed.
