(* ===== verification/GoPath.v ===== *)
(** * File paths: Go's [path] and [path/filepath] on Unix

    [Join], [Clean], [Dir] and [Base], and what a joined path ends with: enough to tell apart
    the files a component keeps beside each other. *)

From S2P Require Import Prelude GoStrings GoNet.

(** [Clean] on the components: the stack is reversed. *)
Definition clean_step (rooted : bool) (stack : list string) (c : string) : list string :=
  if bool_decide (c = "") || bool_decide (c = ".") then stack else
  if bool_decide (c = "..") then
    match stack with
    | top :: rest => if bool_decide (top = "..") then c :: stack else rest
    | [] => if rooted then [] else [c]
    end
  else c :: stack.
Definition path_Clean (p : string) : string :=
  let rooted := HasPrefix p "/" in
  let comps := foldl (clean_step rooted) [] (of_bytes <$> split_byte "/" (to_bytes p)) in
  let body := join "/" (reverse comps) in
  if rooted then "/" +:+ body else if bool_decide (body = "") then "." else body.
Definition path_Join (elems : list string) : string :=
  match filter (λ e, e ≠ "") elems with
  | [] => ""
  | es => path_Clean (join "/" es)
  end.

(** [Dir]: all up to and including the last slash, cleaned. [Base]: the last element
    once trailing slashes are gone. *)
Fixpoint drop_until_slash (l : list ascii) : list ascii :=
  match l with
  | [] => []
  | a :: l' => if bool_decide (a = "/"%char) then l else drop_until_slash l'
  end.
Fixpoint drop_slashes (l : list ascii) : list ascii :=
  match l with
  | a :: l' => if bool_decide (a = "/"%char) then drop_slashes l' else l
  | [] => []
  end.
Fixpoint take_until_slash (l : list ascii) : list ascii :=
  match l with
  | [] => []
  | a :: l' => if bool_decide (a = "/"%char) then [] else a :: take_until_slash l'
  end.
Definition path_Dir (p : string) : string := path_Clean (of_bytes (reverse (drop_until_slash (reverse (to_bytes p))))).
Definition path_Base (p : string) : string :=
  if bool_decide (p = "") then "." else
  let l := drop_slashes (reverse (to_bytes p)) in
  if bool_decide (l = []) then "/" else of_bytes (reverse (take_until_slash l)).

Example path_Base_ex : path_Base "/etc/nodes/n1/node.crt//" = "node.crt" ∧ path_Base "//" = "/" ∧ path_Base "x" = "x".
Proof. by vm_compute. Qed.
Example path_Dir_ex : path_Dir "/etc/nodes/n1/node.crt" = "/etc/nodes/n1" ∧ path_Dir "x" = "." ∧ path_Dir "/x" = "/".
Proof. by vm_compute. Qed.

Lemma split_byte_suffix c l suf :
  c ∉ suf → ∃ ini lst, split_byte c (l ++ suf) = ini ++ [lst ++ suf].
Proof.
  intros Hs. induction l as [|a l IH].
  - exists [], []. cbn [app]. clear -Hs. induction suf as [|a suf IH]; [done|].
    apply not_elem_of_cons in Hs as [Ha Hs]. cbn [split_byte].
    rewrite (bool_decide_eq_false_2 (a = c)) by done. by rewrite (IH Hs).
  - destruct IH as (ini & lst & H). cbn [app split_byte]. rewrite H.
    destruct (bool_decide (a = c)).
    + by exists ([] :: ini), lst.
    + destruct ini as [|x ini]; cbn [app].
      * by exists [], (a :: lst).
      * by exists ((a :: x) :: ini), lst.
Qed.

Lemma clean_step_push rooted stack c :
  (2 < length (to_bytes c))%nat → clean_step rooted stack c = c :: stack.
Proof.
  intros Hl. unfold clean_step.
  rewrite !bool_decide_eq_false_2 by (intros ->; simpl in Hl; lia). done.
Qed.

Lemma string_app_assoc a b c : (a +:+ b) +:+ c = a +:+ (b +:+ c).
Proof. induction a as [|x a IH]; [done|]. exact (f_equal (String x) IH). Qed.

Lemma join_snoc sep l c : ∃ p, join sep (l ++ [c]) = p +:+ c.
Proof.
  unfold join. induction l as [|x l [p IH]]; [by exists ""|]. cbn [app].
  destruct (l ++ [c]) as [|y k] eqn:E; [by destruct l|]. rewrite <- E in *.
  exists (x +:+ sep +:+ p). change (String.concat sep (x :: l ++ [c])) with
    (match l ++ [c] with [] => x | _ => x +:+ sep +:+ String.concat sep (l ++ [c]) end).
  rewrite E at 1. rewrite IH. by rewrite !string_app_assoc.
Qed.

Lemma to_bytes_of l : to_bytes (of_bytes l) = l.
Proof. apply to_of_bytes. Qed.

Lemma path_Clean_suffix l suf :
  "/"%char ∉ suf → (2 < length suf)%nat → ∃ q, to_bytes (path_Clean (of_bytes (l ++ suf))) = q ++ suf.
Proof.
  intros Hs Hl. unfold path_Clean. rewrite to_bytes_of.
  destruct (split_byte_suffix "/" l suf Hs) as (ini & lst & ->).
  rewrite fmap_app, foldl_app. cbn [fmap list_fmap foldl].
  rewrite clean_step_push by (rewrite to_bytes_of, length_app; lia). rewrite reverse_cons.
  match goal with |- context [join "/" (?l ++ [?c])] => destruct (join_snoc "/" l c) as [p Hp]; rewrite Hp end.
  assert (to_bytes (p +:+ of_bytes (lst ++ suf)) = (to_bytes p ++ lst) ++ suf) as Hb
    by (rewrite to_bytes_app, to_bytes_of; apply app_assoc).
  destruct (HasPrefix _ _).
  - rewrite to_bytes_app, Hb, app_assoc. eauto.
  - case_bool_decide as He; [|rewrite Hb; eauto].
    rewrite He in Hb. destruct suf; [simpl in Hl; lia|]. by destruct (to_bytes p ++ lst).
Qed.

Lemma path_Join_suffix d name suf :
  "/"%char ∉ to_bytes suf → (2 < length (to_bytes suf))%nat →
  ∃ q, to_bytes (path_Join [d; name +:+ suf]) = q ++ to_bytes suf.
Proof.
  intros Hs Hl. unfold path_Join.
  assert (name +:+ suf ≠ "") as Hne.
  { intros H. apply (f_equal to_bytes) in H. rewrite to_bytes_app in H. destruct (to_bytes suf); [simpl in Hl; lia|].
    by destruct (to_bytes name). }
  rewrite !filter_cons, filter_nil. rewrite (decide_True (P := name +:+ suf ≠ "")) by done.
  case_decide as Hd.
  - replace (join "/" [d; name +:+ suf]) with (of_bytes ((to_bytes d ++ "/"%char :: to_bytes name) ++ to_bytes suf)).
    { by apply path_Clean_suffix. }
    rewrite <- (of_to_bytes (join "/" [d; name +:+ suf])). f_equal. unfold join. cbn [String.concat].
    rewrite !to_bytes_app, <- app_assoc. done.
  - replace (join "/" [name +:+ suf]) with (of_bytes (to_bytes name ++ to_bytes suf)).
    { by apply path_Clean_suffix. }
    rewrite <- to_bytes_app. apply of_to_bytes.
Qed.
