(* ===== verification/GoText.v ===== *)
(** * Go text encodings

    What the sources use of Go's [strconv], [encoding/hex], [encoding/base64],
    [bufio.Scanner] and the word functions of [strings]: decimal integers,
    hexadecimal and base-64 text, lines, fields, upper case, cutting - with the
    round trips the text formats of the components are proved from. *)

From stdpp Require Import pretty.
From Stdlib Require Import Wf_nat SpecFloat.
From S2P Require Import Prelude GoStrings GoNet.

(** ** Decimal integers *)

Lemma digit_char n : (n < 10)%N →
  is_digit (pretty_N_char n) = true ∧ code (pretty_N_char n) - 48 = Z.of_N n.
Proof.
  intros H. assert (n = 0 ∨ n = 1 ∨ n = 2 ∨ n = 3 ∨ n = 4 ∨ n = 5 ∨ n = 6 ∨ n = 7 ∨ n = 8 ∨ n = 9)%N
    as Hc by lia.
  repeat destruct Hc as [->|Hc]; subst; split; reflexivity.
Qed.

(** Printing pushes the digits of the number in front of the accumulated text. *)
Lemma pretty_N_go_digits n : ∃ ds,
  (∀ s, to_bytes (pretty_N_go n s) = ds ++ to_bytes s) ∧
  Forall (λ a, is_digit a = true) ds ∧ ((0 < n)%N → ds ≠ []) ∧
  (∀ k : nat, Z.of_N n < 10 ^ Z.of_nat k → (length ds ≤ k)%nat) ∧
  ∀ acc l, digits_val acc (ds ++ l) = digits_val (acc * 10 ^ Z.of_nat (length ds) + Z.of_N n) l.
Proof.
  induction (N.lt_wf_0 n) as [n _ IH].
  destruct (decide (n = 0)%N) as [->|Hn].
  { exists []. split_and!; [done|done|lia|cbn; lia|]. intros acc l. cbn. f_equal. lia. }
  destruct (IH (n / 10)%N) as (ds & Hs & Hf & _ & Hl & Hv); [apply N.div_lt; lia|].
  destruct (digit_char (n mod 10)%N) as [Hd Hc]; [apply N.mod_lt; lia|].
  exists (ds ++ [pretty_N_char (n mod 10)]). split_and!.
  - intros s. rewrite pretty_N_go_step by lia. rewrite Hs. by rewrite <- app_assoc.
  - apply Forall_app; auto.
  - intros _ H. by apply app_nil in H as [_ ?].
  - intros k Hk. rewrite length_app. cbn [length]. destruct k as [|k]; [cbn in Hk; lia|].
    specialize (Hl k). rewrite N2Z.inj_div in Hl. change (Z.of_N 10) with 10 in Hl.
    rewrite Nat2Z.inj_succ, Z.pow_succ_r in Hk by lia.
    assert (Z.of_N n / 10 < 10 ^ Z.of_nat k) by (apply Z.div_lt_upper_bound; lia).
    specialize (Hl ltac:(done)). lia.
  - intros acc l. rewrite <- app_assoc, Hv. cbn [app digits_val]. rewrite Hd, Hc. f_equal.
    rewrite length_app, Nat2Z.inj_add, Z.pow_add_r by lia. simpl (Z.of_nat (length [_])).
    pose proof (N.div_mod n 10 ltac:(lia)). lia.
Qed.

Lemma Itoa_nonneg z : 0 ≤ z →
  Forall (λ a, is_digit a = true) (to_bytes (Itoa z)) ∧ to_bytes (Itoa z) ≠ [] ∧
  digits_val 0 (to_bytes (Itoa z)) = Some z.
Proof.
  intros Hz. destruct z as [|p|p]; [repeat split; [by repeat constructor|discriminate]| |lia].
  change (Itoa (Z.pos p)) with (pretty_N_go (N.pos p) "").
  destruct (pretty_N_go_digits (N.pos p)) as (ds & Hs & Hf & Hne & _ & Hv).
  rewrite Hs, app_nil_r. specialize (Hv 0 []). rewrite app_nil_r in Hv.
  split_and!; [done|apply Hne; lia|]. rewrite Hv. simpl. f_equal. 
Qed.

Lemma Itoa_length_nonneg z : 0 ≤ z < 2 ^ 64 → (length (to_bytes (Itoa z)) ≤ 20)%nat.
Proof.
  intros Hz. destruct z as [|p|p]; [cbn; lia| |lia].
  change (Itoa (Z.pos p)) with (pretty_N_go (N.pos p) "").
  destruct (pretty_N_go_digits (N.pos p)) as (ds & Hs & _ & _ & Hl & _).
  rewrite Hs, app_nil_r. apply Hl. change (Z.of_N (N.pos p)) with (Z.pos p).
  assert (2 ^ 64 < 10 ^ Z.of_nat 20) by (by vm_compute). lia.
Qed.

Lemma Itoa_neg p : Itoa (Z.neg p) = "-" +:+ Itoa (Z.pos p).
Proof. reflexivity. Qed.

(** The characters of a printed integer. *)
Definition int_char (a : ascii) : bool := is_digit a || bool_decide (a = "-"%char).

Lemma Itoa_chars z : Forall (λ a, int_char a = true) (to_bytes (Itoa z)).
Proof.
  assert (∀ z, 0 ≤ z → Forall (λ a, int_char a = true) (to_bytes (Itoa z))) as Hp.
  { intros y Hy. eapply Forall_impl; [apply (Itoa_nonneg y Hy)|]. intros a Ha. unfold int_char. by rewrite Ha. }
  destruct z as [|p|p]; [apply Hp; lia|apply Hp; lia|].
  rewrite Itoa_neg, to_bytes_app. apply Forall_app. split; [by repeat constructor|apply Hp; lia].
Qed.

Lemma Itoa_nonempty z : to_bytes (Itoa z) ≠ [].
Proof.
  destruct z as [|p|p]; [discriminate|apply Itoa_nonneg; lia|]. rewrite Itoa_neg, to_bytes_app. discriminate.
Qed.

Lemma digit_not_sign a : is_digit a = true → a ≠ "-"%char ∧ a ≠ "+"%char.
Proof. intros H. split; intros ->; discriminate H. Qed.

Lemma sign_split_digits a l : is_digit a = true →
  match a :: l with
  | "-"%char :: l => (true, l)
  | "+"%char :: l => (false, l)
  | l => (false, l)
  end = (false, a :: l).
Proof. intros H. destruct a as [[] [] [] [] [] [] [] []]; try reflexivity; discriminate H. Qed.

(** Parsing a printed [int] gives it back. *)
Lemma Atoi_Itoa z : - 2 ^ 63 ≤ z < 2 ^ 63 → Atoi (Itoa z) = Some z.
Proof.
  intros Hz. unfold Atoi. destruct (decide (0 ≤ z)) as [Hp|Hn].
  - destruct (Itoa_nonneg z Hp) as (Hf & Hne & Hv).
    destruct (to_bytes (Itoa z)) as [|a l]; [done|]. apply Forall_cons in Hf as [Ha _].
    rewrite sign_split_digits by done. rewrite Hv. cbn [mbind option_bind].
    assert ((- 2 ^ 63 <=? z) = true ∧ (z <? 2 ^ 63) = true) as [-> ->] by lia. done.
  - destruct z as [|p|p]; [lia|lia|]. destruct (Itoa_nonneg (Z.pos p)) as (Hf & Hne & Hv); [lia|].
    rewrite Itoa_neg, to_bytes_app. change (to_bytes "-") with ["-"%char]. cbn [app].
    destruct (to_bytes (Itoa (Z.pos p))) as [|a l]; [done|]. rewrite Hv. cbn [mbind option_bind].
    change (- Z.pos p) with (Z.neg p).
    rewrite (proj2 (Z.leb_le _ _)), (proj2 (Z.ltb_lt _ _)) by apply Hz. done.
Qed.

Lemma Itoa_length z : - 2 ^ 63 ≤ z < 2 ^ 63 → (length (to_bytes (Itoa z)) ≤ 21)%nat.
Proof.
  intros Hz. destruct (decide (0 ≤ z)); [pose proof (Itoa_length_nonneg z); lia|].
  destruct z as [|p|p]; [lia|lia|]. rewrite Itoa_neg, to_bytes_app, length_app. cbn [length String.list_ascii_of_string].
  pose proof (Itoa_length_nonneg (Z.pos p)). lia.
Qed.

(** [strconv.ParseInt(s, 10, 64)] accepts what [Atoi] accepts on 64-bit platforms. *)
Definition ParseInt64 (s : string) : option Z := Atoi s.

(** ** Hexadecimal *)

Definition hex_byte (a : ascii) : list ascii := [hex_digit (code a / 16); hex_digit (code a mod 16)].
(** [hex.EncodeToString] *)
Definition hex_encode (l : list ascii) : string := of_bytes (mjoin (hex_byte <$> l)).

(** [hex.DecodeString]: both cases, an even number of digits. *)
Fixpoint hex_decode_bytes (l : list ascii) : option (list ascii) :=
  match l with
  | [] => Some []
  | [_] => None
  | a :: b :: l =>
      h ← hex_val a; k ← hex_val b; r ← hex_decode_bytes l; Some (chr (h * 16 + k) :: r)
  end.
Definition hex_decode (s : string) : option (list ascii) := hex_decode_bytes (to_bytes s).

Definition hex_char (a : ascii) : bool := match hex_val a with Some _ => true | None => false end.

Lemma hex_digit_val d : 0 ≤ d < 16 → hex_val (hex_digit d) = Some d.
Proof.
  intros H. assert (Forall (λ d, hex_val (hex_digit d) = Some d) (seqZ 0 16)) as Hall
    by (apply (bool_decide_unpack _); vm_compute; exact I).
  rewrite Forall_forall in Hall. apply Hall. apply elem_of_seqZ. lia.
Qed.

Lemma code_nibbles a : 0 ≤ code a / 16 < 16 ∧ 0 ≤ code a mod 16 < 16.
Proof.
  pose proof (code_range a). split; [|apply Z.mod_pos_bound; lia].
  split; [apply Z.div_pos; lia|apply Z.div_lt_upper_bound; lia].
Qed.

Lemma hex_decode_encode l : hex_decode (hex_encode l) = Some l.
Proof.
  unfold hex_decode, hex_encode. rewrite to_of_bytes. induction l as [|a l IH]; [done|].
  rewrite fmap_cons. change (mjoin (hex_byte a :: _)) with (hex_byte a ++ mjoin (hex_byte <$> l)).
  cbn [hex_byte app hex_decode_bytes]. destruct (code_nibbles a) as [H1 H2].
  rewrite !hex_digit_val by done. cbn [mbind option_bind]. rewrite IH. cbn [mbind option_bind].
  do 2 f_equal. rewrite <- (chr_code a) at 3. f_equal. pose proof (Z.div_mod (code a) 16). lia.
Qed.

Lemma hex_encode_chars l : Forall (λ a, hex_char a = true) (to_bytes (hex_encode l)).
Proof.
  unfold hex_encode. rewrite to_of_bytes. apply Forall_forall. intros x Hx.
  apply list_elem_of_join in Hx as (g & Hx & Hg). apply list_elem_of_fmap in Hg as (a & -> & _).
  destruct (code_nibbles a) as [H1 H2]. unfold hex_char.
  apply elem_of_cons in Hx as [->|Hx]; [by rewrite hex_digit_val|].
  apply list_elem_of_singleton in Hx as ->. by rewrite hex_digit_val.
Qed.

Lemma hex_encode_length l : length (to_bytes (hex_encode l)) = (2 * length l)%nat.
Proof.
  unfold hex_encode. rewrite to_of_bytes. induction l as [|a l IH]; [done|]. rewrite fmap_cons.
  change (mjoin (hex_byte a :: _)) with (hex_byte a ++ mjoin (hex_byte <$> l)).
  rewrite length_app, IH. cbn [length hex_byte]. lia.
Qed.

Lemma hex_decode_bytes_length n : ∀ l bs, (length l ≤ n)%nat →
  hex_decode_bytes l = Some bs → length l = (2 * length bs)%nat.
Proof.
  induction n as [|n IH]; intros [|a [|b l]] bs Hl H; simpl in *; try lia; try discriminate;
    [by injection H as <-|by injection H as <-|].
  destruct (hex_val a); [|discriminate]. destruct (hex_val b); [|discriminate]. cbn in H.
  destruct (hex_decode_bytes l) as [r|] eqn:E; [|discriminate]. injection H as <-.
  apply IH in E; [|lia]. simpl. lia.
Qed.

(** ** Base 64 ([base64.StdEncoding]) *)

Definition b64_char (d : Z) : ascii :=
  chr (if d <? 26 then 65 + d else if d <? 52 then 71 + d else if d <? 62 then d - 4
       else if d =? 62 then 43 else 47).
Definition b64_val (a : ascii) : option Z :=
  let c := code a in
  if is_upper a then Some (c - 65) else if is_lower a then Some (c - 71)
  else if is_digit a then Some (c + 4)
  else if c =? 43 then Some 62 else if c =? 47 then Some 63 else None.

(** Three bytes become four characters; the last group is padded. *)
Fixpoint b64_encode_bytes (l : list ascii) : list ascii :=
  match l with
  | [] => []
  | [a] =>
      let v := code a * 65536 in
      [b64_char (v / 262144); b64_char (v / 4096 mod 64); "="%char; "="%char]
  | [a; b] =>
      let v := code a * 65536 + code b * 256 in
      [b64_char (v / 262144); b64_char (v / 4096 mod 64); b64_char (v / 64 mod 64); "="%char]
  | a :: b :: c :: l =>
      let v := code a * 65536 + code b * 256 + code c in
      b64_char (v / 262144) :: b64_char (v / 4096 mod 64) ::
      b64_char (v / 64 mod 64) :: b64_char (v mod 64) :: b64_encode_bytes l
  end.
Definition b64_encode (l : list ascii) : string := of_bytes (b64_encode_bytes l).

(** Groups of four characters; padding only at the very end, its spare bits are
    not checked (the encoding is not strict). *)
Fixpoint b64_decode_bytes (l : list ascii) : option (list ascii) :=
  match l with
  | [] => Some []
  | a :: b :: c :: d :: l =>
      x ← b64_val a; y ← b64_val b;
      if bool_decide (c = "="%char) then
        if bool_decide (d = "="%char) && bool_decide (l = [])
        then Some [chr (x * 4 + y / 16)] else None
      else
        z ← b64_val c;
        if bool_decide (d = "="%char) then
          if bool_decide (l = []) then Some [chr (x * 4 + y / 16); chr (y mod 16 * 16 + z / 4)] else None
        else
          w ← b64_val d; r ← b64_decode_bytes l;
          Some (chr (x * 4 + y / 16) :: chr (y mod 16 * 16 + z / 4) :: chr (z mod 4 * 64 + w) :: r)
  | _ => None
  end.
(** Line breaks are skipped wherever they stand. *)
Definition b64_skip (a : ascii) : bool := bool_decide (a = "010"%char) || bool_decide (a = "013"%char).
Definition b64_decode (s : string) : option (list ascii) :=
  b64_decode_bytes (filter (λ a, b64_skip a = false) (to_bytes s)).

(** A character of the alphabet: it has a value and is no padding, line break or blank. *)
Definition b64_text (a : ascii) : bool :=
  match b64_val a with Some _ => true | None => false end || bool_decide (a = "="%char).

Lemma b64_char_facts d : 0 ≤ d < 64 →
  b64_val (b64_char d) = Some d ∧ b64_char d ≠ "="%char ∧ b64_skip (b64_char d) = false.
Proof.
  intros H. assert (Forall (λ d, b64_val (b64_char d) = Some d ∧ b64_char d ≠ "="%char ∧
    b64_skip (b64_char d) = false) (seqZ 0 64)) as Hall by (apply (bool_decide_unpack _); vm_compute; exact I).
  rewrite Forall_forall in Hall. apply Hall. apply elem_of_seqZ. lia.
Qed.

(** The four sextets of three bytes, and back. *)
Lemma sextets a b c : 0 ≤ a < 256 → 0 ≤ b < 256 → 0 ≤ c < 256 →
  let v := a * 65536 + b * 256 + c in
  0 ≤ v / 262144 < 64 ∧ 0 ≤ v / 4096 mod 64 < 64 ∧ 0 ≤ v / 64 mod 64 < 64 ∧ 0 ≤ v mod 64 < 64 ∧
  v / 262144 * 4 + v / 4096 mod 64 / 16 = a ∧
  v / 4096 mod 64 mod 16 * 16 + v / 64 mod 64 / 4 = b ∧
  v / 64 mod 64 mod 4 * 64 + v mod 64 = c.
Proof. intros Ha Hb Hc v. subst v. Z.to_euclidean_division_equations. lia. Qed.

(** Encoded text contains only characters of the alphabet and padding. *)
Lemma b64_encode_ind (P : list ascii → Prop) :
  P [] → (∀ a, P [a]) → (∀ a b, P [a; b]) → (∀ a b c l, P l → P (a :: b :: c :: l)) → ∀ l, P l.
Proof.
  intros H0 H1 H2 H3 l. induction l as [l IH] using (induction_ltof1 _ length). unfold ltof in IH.
  destruct l as [|a [|b [|c l]]]; auto. apply H3, IH. simpl. lia.
Qed.

Lemma b64_encode_chars l : Forall (λ a, b64_text a = true ∧ b64_skip a = false) (b64_encode_bytes l).
Proof.
  assert (∀ d, 0 ≤ d < 64 → b64_text (b64_char d) = true ∧ b64_skip (b64_char d) = false) as Hd.
  { intros d Hd. destruct (b64_char_facts d Hd) as (H1 & _ & H2). unfold b64_text. by rewrite H1. }
  assert (b64_text "=" = true ∧ b64_skip "=" = false) as He by done.
  induction l as [|a|a b|a b c l IH] using b64_encode_ind; cbn [b64_encode_bytes]; [constructor|..].
  - destruct (sextets (code a) 0 0) as (H1 & H2 & _); try lia; try apply code_range.
    rewrite !Z.mul_0_l, !Z.add_0_r in *. repeat (constructor; auto).
  - destruct (sextets (code a) (code b) 0) as (H1 & H2 & H3 & _); try lia; try apply code_range.
    rewrite !Z.add_0_r in *. repeat (constructor; auto).
  - destruct (sextets (code a) (code b) (code c)) as (H1 & H2 & H3 & H4 & _); try apply code_range.
    repeat (constructor; auto).
Qed.

(** Decoding one character of the alphabet. *)
Ltac b64_step H :=
  rewrite ?(bool_decide_eq_false_2 _ (proj1 (proj2 (b64_char_facts _ H))));
  rewrite (proj1 (b64_char_facts _ H)); cbn [mbind option_bind].

Lemma b64_decode_encode_bytes l : b64_decode_bytes (b64_encode_bytes l) = Some l.
Proof.
  induction l as [|a|a b|a b c l IH] using b64_encode_ind; cbn [b64_encode_bytes]; [done|..];
    cbn [b64_decode_bytes].
  - destruct (sextets (code a) 0 0) as (H1 & H2 & _ & _ & Ea & _); try lia; try apply code_range.
    rewrite !Z.mul_0_l, !Z.add_0_r in *.
    b64_step H1. b64_step H2. cbn. rewrite Ea. by rewrite chr_code.
  - destruct (sextets (code a) (code b) 0) as (H1 & H2 & H3 & _ & Ea & Eb & _); try lia; try apply code_range.
    rewrite !Z.add_0_r in *.
    b64_step H1. b64_step H2. b64_step H3. cbn. by rewrite Ea, Eb, !chr_code.
  - destruct (sextets (code a) (code b) (code c)) as (H1 & H2 & H3 & H4 & Ea & Eb & Ec); try apply code_range.
    b64_step H1. b64_step H2. b64_step H3. b64_step H4. rewrite IH.
    cbn. by rewrite Ea, Eb, Ec, !chr_code.
Qed.

Lemma b64_decode_encode l : b64_decode (b64_encode l) = Some l.
Proof.
  unfold b64_decode, b64_encode. rewrite to_of_bytes, filter_all; [apply b64_decode_encode_bytes|].
  eapply Forall_impl; [apply b64_encode_chars|]. by intros a [_ ?].
Qed.

(** ** Lines ([bufio.Scanner] with [ScanLines])

    A line ends at a line feed, one carriage return before it is dropped, and a
    last line without line feed counts if it is not empty. A line that does not
    fit the scanner's buffer of 64 KiB stops the scan. *)
Definition max_token : nat := Z.to_nat 65536.
Lemma max_token_Z : Z.of_nat max_token = 65536.
Proof. by apply Z2Nat.id. Qed.
Definition drop_cr (l : list ascii) : list ascii :=
  match reverse l with "013"%char :: r => reverse r | _ => l end.

Inductive scan_end := ScanEOF | ScanTooLong.

Fixpoint scan_raw (cur l : list ascii) : list (list ascii) :=
  match l with
  | [] => if bool_decide (cur = []) then [] else [reverse cur]
  | a :: l => if bool_decide (a = "010"%char) then reverse cur :: scan_raw [] l else scan_raw (a :: cur) l
  end.
(** The lines before the first one that is too long. *)
Fixpoint scan_fit (ls : list (list ascii)) : list string * scan_end :=
  match ls with
  | [] => ([], ScanEOF)
  | l :: ls =>
      if bool_decide (max_token ≤ length l)%nat then ([], ScanTooLong)
      else let '(r, e) := scan_fit ls in (of_bytes (drop_cr l) :: r, e)
  end.
Definition ScanLines (s : string) : list string * scan_end := scan_fit (scan_raw [] (to_bytes s)).

(** The text of a list of lines. *)
Definition unlines (ls : list string) : string := foldr (λ l s, l +:+ String "010" s) "" ls.

Definition line_ok (l : string) : Prop :=
  "010"%char ∉ to_bytes l ∧ "013"%char ∉ to_bytes l ∧ (length (to_bytes l) < max_token)%nat.

Lemma unlines_app a b : unlines (a ++ b) = unlines a +:+ unlines b.
Proof.
  induction a as [|l a IH]; [done|]. cbn [app unlines foldr]. fold (unlines (a ++ b)) (unlines a).
  apply to_bytes_inj. rewrite IH, !to_bytes_app. cbn. rewrite to_bytes_app.
  by rewrite <- app_assoc.
Qed.

Lemma scan_raw_line cur l r : "010"%char ∉ l →
  scan_raw cur (l ++ "010"%char :: r) = (reverse cur ++ l) :: scan_raw [] r.
Proof.
  revert cur. induction l as [|a l IH]; intros cur H; cbn [app scan_raw].
  - by rewrite app_nil_r.
  - apply not_elem_of_cons in H as [H1 H2]. rewrite bool_decide_eq_false_2 by done.
    rewrite IH by done. by rewrite reverse_cons, <- app_assoc.
Qed.

Lemma drop_cr_none l : "013"%char ∉ l → drop_cr l = l.
Proof.
  intros H. unfold drop_cr. destruct (reverse l) as [|a r] eqn:E; [done|].
  assert (a ∈ l) as Ha by (apply elem_of_reverse; rewrite E; left).
  destruct a as [[] [] [] [] [] [] [] []]; try done; exfalso; apply H, Ha.
Qed.

(** Scanning well-formed lines gives them back. *)
Lemma ScanLines_unlines ls : Forall line_ok ls → ScanLines (unlines ls) = (ls, ScanEOF).
Proof.
  unfold ScanLines. induction 1 as [|l ls (Hn & Hr & Hlen) _ IH]; [done|].
  cbn [unlines foldr]. fold (unlines ls). rewrite to_bytes_app.
  change (to_bytes (String "010" ?s)) with ("010"%char :: to_bytes s).
  rewrite scan_raw_line by done. cbn [reverse app scan_fit].
  rewrite (bool_decide_eq_false_2 (max_token ≤ _)%nat) by (change (reverse [] ++ ?x) with x; lia).
  rewrite IH. change (reverse [] ++ ?x) with x. by rewrite drop_cr_none, of_to_bytes.
Qed.

(** ** Words *)

(** [strings.Fields]: the runs of bytes between Unicode blanks. *)
Fixpoint fields_go (cur l : list ascii) : list (list ascii) :=
  let flush rest := if bool_decide (cur = []) then rest else reverse cur :: rest in
  match l with
  | [] => flush []
  | a :: l1 =>
      if space1 a then flush (fields_go [] l1) else
      match l1 with
      | [] => fields_go (a :: cur) l1
      | b :: l2 =>
          if space2 a b then flush (fields_go [] l2) else
          match l2 with
          | [] => fields_go (a :: cur) l1
          | c :: l3 => if space3 a b c then flush (fields_go [] l3) else fields_go (a :: cur) l1
          end
      end
  end.
Definition Fields (s : string) : list string := of_bytes <$> fields_go [] (to_bytes s).

(** [strings.ToUpper], up to the runes whose upper case is not ASCII, which it keeps:
    U+0131 becomes [I] and U+017F becomes [S]. *)
Fixpoint to_upper (l : list ascii) : list ascii :=
  match l with
  | [] => []
  | a :: l1 =>
      if is_lower a then chr (code a - 32) :: to_upper l1 else
      match l1 with
      | b :: l2 =>
          if (code a =? 0xC4) && (code b =? 0xB1) then "I"%char :: to_upper l2
          else if (code a =? 0xC5) && (code b =? 0xBF) then "S"%char :: to_upper l2
          else a :: to_upper l1
      | [] => [a]
      end
  end.
Definition ToUpper (s : string) : string := of_bytes (to_upper (to_bytes s)).

(** [strings.Cut] at a one-byte separator and [strings.CutPrefix]. *)
Definition Cut (s : string) (c : ascii) : option (string * string) :=
  (λ '(a, b), (of_bytes a, of_bytes b)) <$> cut_byte c (to_bytes s).
Definition CutPrefix (s p : string) : option string :=
  if HasPrefix s p then Some (of_bytes (drop (length (to_bytes p)) (to_bytes s))) else None.

Lemma is_prefix_app p l : is_prefix p (p ++ l) = true.
Proof. induction p as [|a p IH]; [done|]. cbn. rewrite IH. by rewrite bool_decide_eq_true_2. Qed.

Lemma is_prefix_spec p l : is_prefix p l = true ↔ ∃ r, l = p ++ r.
Proof.
  split.
  - revert l. induction p as [|a p IH]; intros l H; [by exists l|]. destruct l as [|b l]; [discriminate|].
    cbn in H. bool_to_prop. subst. destruct (IH _ H0) as [r ->]. by exists r.
  - intros [r ->]. apply is_prefix_app.
Qed.

Lemma CutPrefix_app p s : CutPrefix (p +:+ s) p = Some s.
Proof.
  unfold CutPrefix, HasPrefix. rewrite to_bytes_app, is_prefix_app, drop_app_length. by rewrite of_to_bytes.
Qed.

Lemma Cut_app k c v : c ∉ to_bytes k → Cut (k +:+ String c v) c = Some (k, v).
Proof.
  intros H. unfold Cut. rewrite to_bytes_app. cbn. rewrite cut_byte_app by done. cbn. by rewrite !of_to_bytes.
Qed.

(** ** Trimming lines *)

Lemma space2_high a b : space2 a b = true → 128 ≤ code a ∧ 128 ≤ code b.
Proof. unfold space2. lia. Qed.
Lemma space3_high a b c : space3 a b c = true → 128 ≤ code a ∧ 128 ≤ code b ∧ 128 ≤ code c.
Proof. unfold space3. lia. Qed.

(** The blank tests of [trim_right], which reads backwards. *)
Lemma starts_space_app_low v x p :
  v ≠ [] → code x < 128 → starts_space (λ b a, space2 a b) (λ c b a, space3 a b c) v = false →
  starts_space (λ b a, space2 a b) (λ c b a, space3 a b c) (v ++ x :: p) = false.
Proof.
  intros Hv Hx H.
  assert (∀ b, space2 x b = false) as E2.
  { intros b. destruct (space2 x b) eqn:E; [|done]. apply space2_high in E. lia. }
  assert (∀ b c, space3 x b c = false ∧ space3 b x c = false) as E3.
  { intros b c. split; [destruct (space3 x b c) eqn:E|destruct (space3 b x c) eqn:E]; try done;
      apply space3_high in E; lia. }
  destruct v as [|a [|b [|c v]]]; cbn in *; [done|..]; [|destruct p; cbn|done].
  - destruct p as [|y p]; cbn; rewrite ?E2, ?orb_false_r; [done|].
    by rewrite (proj2 (E3 y a)), H.
  - by rewrite (proj1 (E3 b a)), H.
  - by rewrite (proj1 (E3 b a)), H.
Qed.

Lemma TrimSpace_fixed s :
  starts_space space2 space3 (to_bytes s) = false →
  starts_space (λ b a, space2 a b) (λ c b a, space3 a b c) (reverse (to_bytes s)) = false →
  TrimSpace s = s.
Proof.
  intros H1 H2. unfold TrimSpace, trim_left, trim_right.
  rewrite (trim_with_fix _ _ _ H1), (trim_with_fix _ _ _ H2), reverse_involutive. apply of_to_bytes.
Qed.

(** Conversely a trimmed string starts and ends without blanks. *)
Lemma TrimSpace_fixed_inv s : TrimSpace s = s →
  starts_space space2 space3 (to_bytes s) = false ∧
  starts_space (λ b a, space2 a b) (λ c b a, space3 a b c) (reverse (to_bytes s)) = false.
Proof.
  intros H. apply (f_equal to_bytes) in H. unfold TrimSpace in H. rewrite to_of_bytes in H.
  rewrite <- H. split.
  - rewrite <- trim_left_trim_right. apply trim_with_starts.
  - unfold trim_right. rewrite reverse_involutive. apply trim_with_starts.
Qed.

Lemma plain_starts a l : plain a = true → starts_space space2 space3 (a :: l) = false.
Proof.
  apply starts_space_plain; [intros ?? H; apply space2_high in H; tauto|intros ??? H; apply space3_high in H; tauto].
Qed.
Lemma plain_ends a l : plain a = true →
  starts_space (λ b a, space2 a b) (λ c b a, space3 a b c) (a :: l) = false.
Proof.
  apply starts_space_plain; [intros ?? H; apply space2_high in H; tauto|intros ??? H; apply space3_high in H; tauto].
Qed.

(** A plain first byte, then ASCII, then a trimmed text: nothing to trim. *)
Lemma TrimSpace_line a p x v :
  plain a = true → code x < 128 → TrimSpace v = v → v ≠ "" →
  TrimSpace (of_bytes (a :: p ++ [x]) +:+ v) = of_bytes (a :: p ++ [x]) +:+ v.
Proof.
  intros Ha Hx Hv Hne. apply TrimSpace_fixed_inv in Hv as [_ Hv].
  apply TrimSpace_fixed; rewrite to_bytes_app, to_of_bytes.
  - by apply plain_starts.
  - rewrite reverse_app, app_comm_cons, reverse_app. apply starts_space_app_low; [|done|done].
    intros H. apply (f_equal reverse) in H. rewrite reverse_involutive in H. destruct v; done.
Qed.

(** Blanks around a trimmed text go away. *)
Lemma TrimSpace_leading v : TrimSpace (String " " v) = TrimSpace v.
Proof. reflexivity. Qed.

Lemma TrimSpace_trailing_byte x s :
  space1 x = true → code x < 128 → TrimSpace s = s → TrimSpace (s +:+ String x "") = s.
Proof.
  intros Hx Hlow Hs. apply TrimSpace_fixed_inv in Hs as [H1 H2].
  destruct s as [|c s].
  { unfold TrimSpace, trim_left. change (to_bytes ("" +:+ String x "")) with [x]. cbn [trim_with]. by rewrite Hx. }
  set (s' := String c s) in *.
  unfold TrimSpace, trim_left, trim_right. rewrite to_bytes_app. change (to_bytes (String x "")) with [x].
  rewrite (trim_with_fix space2 space3).
  - rewrite reverse_app. change (reverse [x]) with [x]. cbn [app trim_with]. rewrite Hx.
    by rewrite trim_with_fix, reverse_involutive, of_to_bytes.
  - subst s'. cbn [String.list_ascii_of_string] in *.
    destruct (to_bytes s) as [|b [|d l]]; cbn in *; rewrite ?orb_false_r; [..|done].
    + rewrite H1. destruct (space2 c x) eqn:E; [|done]. apply space2_high in E. lia.
    + rewrite H1. destruct (space3 c b x) eqn:E; [|done]. apply space3_high in E. lia.
Qed.
Lemma TrimSpace_trailing s : TrimSpace s = s → TrimSpace (s +:+ " ") = s.
Proof. by apply TrimSpace_trailing_byte. Qed.

Lemma hex_char_plain a : hex_char a = true → plain a = true.
Proof.
  destruct a as [[] [] [] [] [] [] [] []]; vm_compute; congruence.
Qed.
Lemma hex_encode_line l : TrimSpace (hex_encode l +:+ String "010" "") = hex_encode l.
Proof.
  apply TrimSpace_trailing_byte; [done..|]. apply TrimSpace_plain.
  eapply Forall_impl; [apply hex_encode_chars|]. apply hex_char_plain.
Qed.

Lemma b64_text_plain a : b64_text a = true → plain a = true ∧ a ≠ ","%char.
Proof.
  unfold b64_text, b64_val, plain, space1, is_upper, is_lower, is_digit. intros H. split.
  - destruct (bool_decide (a = "="%char)) eqn:E; bool_to_prop; [by subst|].
    repeat case_match; try discriminate; lia.
  - intros ->. discriminate H.
Qed.
(** A line of base64 text. *)
Lemma b64_encode_line l : TrimSpace (b64_encode l +:+ String "010" "") = b64_encode l.
Proof.
  apply TrimSpace_trailing_byte; [done..|]. apply TrimSpace_plain. unfold b64_encode. rewrite to_of_bytes.
  eapply Forall_impl; [apply b64_encode_chars|]. intros a [Ha _]. by apply b64_text_plain.
Qed.

(** ** UDP addresses and networks *)

Record UDPAddr := MkUDPAddr {
  udp_IP : option Z;     (* [None]: nil *)
  udp_Port : Z;
  udp_Zone : string
}.
#[global] Instance UDPAddr_eq_dec : EqDecision UDPAddr.
Proof. solve_decision. Defined.
#[global] Instance IPNet_eq_dec : EqDecision IPNet.
Proof. solve_decision. Defined.

(** [net.JoinHostPort] *)
Definition JoinHostPort (host port : string) : string :=
  if has_byte ":" (to_bytes host) then ("[" +:+ host +:+ "]:" +:+ port)%string
  else (host +:+ ":" +:+ port)%string.
(** [UDPAddr.String] *)
Definition udp_string (a : UDPAddr) : string :=
  let ip := match udp_IP a with Some ip => ip_string ip | None => "" end in
  JoinHostPort (if bool_decide (udp_Zone a = "") then ip else (ip +:+ "%" +:+ udp_Zone a)%string)
    (Itoa (udp_Port a)).

(** [net.ResolveUDPAddr] of a literal address with a decimal port; a host name needs a
    resolver. *)
Definition resolve_literal (s : string) : option UDPAddr :=
  match SplitHostPort s with
  | Ok (host, port) =>
      a ← ParseAddr host; p ← Atoi port;
      if (0 <=? p) && (p <=? 65535) then Some (MkUDPAddr (Some (As16 a)) p (addr_zone a)) else None
  | Err _ => None
  end.

Definition udp4 (v port : Z) : UDPAddr := MkUDPAddr (Some (v4_mapped v)) port "".

Lemma To4_mapped v : 0 ≤ v < 2 ^ 32 → To4 (v4_mapped v) = Some v.
Proof.
  intros H. unfold To4, in_v4_mapped, v4_mapped.
  rewrite Z.shiftr_lor, Z.shiftr_shiftl_l, Z.sub_diag, Z.shiftl_0_r by lia.
  rewrite (Z.shiftr_div_pow2 v), Z.div_small by lia. cbn -[Z.pow Z.shiftl].
  f_equal. rewrite <- Z.land_ones, Z.land_lor_distr_l, !Z.land_ones by lia.
  rewrite (Z.mod_small v), Z.shiftl_mul_pow2, Z.mod_mul by lia. apply Z.lor_0_l.
Qed.

Lemma addr4_free v c : quad_char c = false → c ∉ to_bytes (addr4_string v).
Proof.
  intros Hc H. pose proof (addr4_chars v) as Hf. rewrite Forall_forall in Hf.
  specialize (Hf _ H). congruence.
Qed.

Lemma int_char_free z c : int_char c = false → c ∉ to_bytes (Itoa z).
Proof.
  intros Hc H. pose proof (Itoa_chars z) as Hf. rewrite Forall_forall in Hf. specialize (Hf _ H). congruence.
Qed.

Lemma udp_string_4 v port : 0 ≤ v < 2 ^ 32 →
  udp_string (udp4 v port) = addr4_string v +:+ ":" +:+ Itoa port.
Proof.
  intros Hv. unfold udp_string, udp4, ip_string. cbn [udp_IP udp_Zone udp_Port].
  rewrite To4_mapped by done. rewrite (bool_decide_eq_true_2 ((""%string) = "")) by done.
  unfold JoinHostPort, has_byte. by rewrite bool_decide_eq_false_2 by (by apply addr4_free).
Qed.

Lemma SplitHostPort_plain host port :
  ":"%char ∉ to_bytes host → ":"%char ∉ to_bytes port →
  (∀ c, c = "["%char ∨ c = "]"%char → c ∉ to_bytes host ∧ c ∉ to_bytes port) →
  SplitHostPort (host +:+ ":" +:+ port) = Ok (host, port).
Proof.
  intros Hh Hp Hb. unfold SplitHostPort. rewrite !to_bytes_app. change (to_bytes ":") with [":"%char].
  set (h := to_bytes host) in *. set (p := to_bytes port) in *.
  assert (∀ c, c = "["%char ∨ c = "]"%char → c ∉ h ++ [":"%char] ++ p) as Hall.
  { intros c Hc. specialize (Hb c Hc). rewrite !not_elem_of_app. destruct_and?. split_and!; auto.
    intros Hx%list_elem_of_singleton. by destruct Hc; subst. }
  assert (cut_last_byte ":" (h ++ [":"%char] ++ p) = Some (h, p)) as ->.
  { unfold cut_last_byte. rewrite !reverse_app. change (reverse [":"%char]) with [":"%char].
    rewrite <- app_assoc. cbn [app]. rewrite cut_byte_app by (by rewrite elem_of_reverse).
    cbn. by rewrite !reverse_involutive. }
  destruct (h ++ [":"%char] ++ p) as [|x l] eqn:E; [by apply app_nil in E as [_ ?]|].
  assert (x ≠ "["%char) as Hx by (intros ->; apply (Hall "["%char); [auto|left]).
  unfold has_byte. rewrite (bool_decide_eq_false_2 (":"%char ∈ h)) by done.
  rewrite (bool_decide_eq_false_2 ("["%char ∈ _)) by auto.
  rewrite (bool_decide_eq_false_2 ("]"%char ∈ _)) by auto. subst h p. rewrite !of_to_bytes.
  destruct x as [[] [] [] [] [] [] [] []]; try done; exfalso; by apply Hx.
Qed.

(** A printed IPv4 address and port resolve to themselves. *)
Lemma resolve_udp4 v port : 0 ≤ v < 2 ^ 32 → 0 ≤ port < 65536 →
  resolve_literal (udp_string (udp4 v port)) = Some (udp4 v port).
Proof.
  intros Hv Hp. rewrite udp_string_4 by done. unfold resolve_literal.
  rewrite SplitHostPort_plain; [|by apply addr4_free|by apply int_char_free|
    (intros c [-> | ->]; split; first [by apply addr4_free|by apply int_char_free])].
  rewrite ParseAddr_addr4_string by done. cbn [mbind option_bind].
  rewrite Atoi_Itoa by lia. cbn [mbind option_bind].
  assert ((0 <=? port) = true ∧ (port <=? 65535) = true) as [-> ->] by lia. done.
Qed.

(** A network whose address is masked, IPv4. *)
Definition net4_ok (n : IPNet) : Prop :=
  net_v4 n = true ∧ 0 ≤ net_ip n < 2 ^ 32 ∧ 0 ≤ net_bits n ≤ 32 ∧
  clear_low (net_ip n) (32 - net_bits n) = net_ip n.

(** Printing an IPv4 network and parsing it gives it back. *)
Lemma ParseCIDR_net4 n : net4_ok n → ParseCIDR (net_string n) = Some (v4_mapped (net_ip n), n).
Proof.
  destruct n as [v4 v b]. intros (Hv4 & Hv & Hb & Hm). cbn [net_v4 net_ip net_bits] in *. subst v4.
  unfold ParseCIDR, net_string, network_number. cbn [net_v4 net_ip net_bits].
  rewrite !to_bytes_app. change (to_bytes "/") with ["/"%char]. cbn [app].
  rewrite cut_byte_app by apply addr4_no_slash. cbn [mbind option_bind].
  rewrite of_to_bytes, ParseAddr_addr4_string by done. cbn [mbind option_bind addr_zone].
  rewrite (bool_decide_eq_true_2 ((""%string) = "")) by done. cbn [negb].
  destruct (Itoa_nonneg b) as (_ & Hne & Hd); [lia|]. unfold dtoi_all.
  destruct (to_bytes (Itoa b)) as [|x l]; [done|]. rewrite Hd. cbn [mbind option_bind].
  assert ((b <? 0xFFFFFF) = true) as -> by lia. cbn [mbind option_bind addr_bits].
  assert ((32 <? b) = false) as -> by lia. by rewrite Hm.
Qed.

(** The text of a network has no blanks, commas or line breaks. *)
Lemma net4_chars n : net4_ok n →
  Forall (λ a, quad_char a || bool_decide (a = "/"%char) = true) (to_bytes (net_string n)).
Proof.
  destruct n as [v4 v b]. intros (Hv4 & Hv & Hb & _). cbn [net_v4 net_ip net_bits] in *. subst v4.
  unfold net_string, network_number. cbn [net_v4 net_ip net_bits]. rewrite !to_bytes_app.
  repeat (apply Forall_app; split).
  - eapply Forall_impl; [apply addr4_chars|]. intros a Ha. by rewrite Ha.
  - by repeat constructor.
  - eapply Forall_impl; [apply (Itoa_nonneg b); lia|]. intros a Ha. unfold quad_char. by rewrite Ha.
Qed.

(** ** Durations as seconds

    [int(d.Seconds())]: the nanoseconds of a [time.Duration] as a [float64] number of
    seconds, [float64(sec) + float64(nsec)/1e9], truncated to an integer. *)
Definition float64 (z : Z) : spec_float := binary_normalize 53 1024 z 0 false.
Definition float_trunc (f : spec_float) : Z :=
  match f with
  | S754_finite s m e =>
      let v := if 0 <=? e then Z.pos m * 2 ^ e else Z.pos m / 2 ^ (- e) in
      if s : bool then - v else v
  | _ => 0
  end.
Definition int_seconds (d : Z) : Z :=
  float_trunc (SFadd 53 1024 (float64 (Z.quot d 1000000000))
    (SFdiv 53 1024 (float64 (Z.rem d 1000000000)) (float64 1000000000))).

Definition shift_pos (k m : positive) : positive := Pos.iter xO m k.
Lemma digits_shift k m : digits2_pos (shift_pos k m) = (digits2_pos m + k)%positive.
Proof.
  unfold shift_pos. induction k as [|k IH] using Pos.peano_ind; [simpl; lia|].
  rewrite Pos.iter_succ. cbn [digits2_pos]. rewrite IH. lia.
Qed.
Lemma shift_pos_val k m : Z.pos (shift_pos k m) = Z.pos m * 2 ^ Z.pos k.
Proof.
  unfold shift_pos. induction k as [|k IH] using Pos.peano_ind; [simpl; lia|].
  rewrite Pos.iter_succ, Pos2Z.inj_xO, IH, Pos2Z.inj_succ, Z.pow_succ_r; lia.
Qed.

(** A mantissa of exactly the precision's width is kept by the rounding. *)
Lemma round_exact m e : Z.pos (digits2_pos m) = 53 → -1074 ≤ e ≤ 971 →
  binary_round_aux 53 1024 false (Z.pos m) e loc_Exact = S754_finite false m e.
Proof.
  intros Hd He. assert (fexp 53 1024 (Z.pos (digits2_pos m) + e) - e = 0) as E by (unfold fexp, emin; lia).
  unfold binary_round_aux, shr_fexp. cbn [Zdigits2]. rewrite E.
  cbn [shr shr_record_of_loc loc_of_shr_record round_nearest_even shr_m shr_r shr_s Zdigits2].
  rewrite E. cbn [shr shr_record_of_loc shr_m].
  destruct (Z.leb_spec e (1024 - 53)); [done|lia].
Qed.

Lemma float64_pos m : Z.pos (digits2_pos m) ≤ 53 → ∃ m' e,
  float64 (Z.pos m) = S754_finite false m' e ∧ e ≤ 0 ∧ Z.pos m' = Z.pos m * 2 ^ (- e).
Proof.
  intros H. unfold float64, binary_normalize, binary_round, shl_align.
  assert (fexp 53 1024 (Z.pos (digits2_pos m) + 0) = Z.pos (digits2_pos m) - 53) as -> by (unfold fexp, emin; lia).
  rewrite Z.sub_0_r. destruct (Z.pos (digits2_pos m) - 53) as [|p|p] eqn:Ed; [|lia|].
  - exists m, 0. rewrite round_exact by lia. split_and!; [done|lia|]. cbn. lia.
  - exists (shift_pos p m), (Z.neg p). fold (shift_pos p m).
    rewrite round_exact by (rewrite ?digits_shift; lia).
    split_and!; [done|lia|]. by rewrite shift_pos_val.
Qed.

Lemma digits2_pos_bound m : 2 ^ (Z.pos (digits2_pos m) - 1) ≤ Z.pos m.
Proof.
  induction m as [m IH|m IH|]; cbn [digits2_pos]; [| |reflexivity]; rewrite Pos2Z.inj_succ;
    replace (Z.succ (Z.pos (digits2_pos m)) - 1) with (Z.succ (Z.pos (digits2_pos m) - 1)) by lia;
    rewrite Z.pow_succ_r by lia; lia.
Qed.

Lemma float64_trunc z : 0 ≤ z < 2 ^ 53 → float_trunc (float64 z) = z.
Proof.
  intros H. destruct z as [|m|m]; [reflexivity| |lia].
  destruct (float64_pos m) as (m' & e & -> & He & Hm).
  - pose proof (digits2_pos_bound m). destruct (decide (Z.pos (digits2_pos m) ≤ 53)) as [|Hgt]; [done|].
    assert (2 ^ 53 ≤ 2 ^ (Z.pos (digits2_pos m) - 1)) by (apply Z.pow_le_mono_r; lia). lia.
  - unfold float_trunc. destruct (Z.leb_spec 0 e).
    + assert (e = 0) as -> by lia. rewrite Hm. cbn. lia.
    + rewrite Hm, Z.div_mul; [done|]. apply Z.pow_nonzero; lia.
Qed.

(** Whole seconds convert exactly. *)
Lemma int_seconds_whole k : 0 ≤ k < 2 ^ 53 → int_seconds (k * 1000000000) = k.
Proof.
  intros H. unfold int_seconds. rewrite Z.quot_mul, Z.rem_mul by lia.
  change (SFdiv 53 1024 (float64 0) (float64 1000000000)) with (S754_zero false).
  rewrite <- (float64_trunc k) at 2 by done.
  destruct (float64 k) as [[]| | |]; reflexivity.
Qed.

(** ** [time.Unix]: nanoseconds since Go's zero time. *)
Definition unix_to_internal : Z := 62135596800.
Definition time_Unix (sec nsec : Z) : Z :=
  let '(sec, nsec) :=
    if (nsec <? 0) || (1000000000 <=? nsec) then
      let n := Z.quot nsec 1000000000 in
      let sec := wrap_int64 (sec + n) in
      let nsec := nsec - n * 1000000000 in
      if nsec <? 0 then (wrap_int64 (sec - 1), nsec + 1000000000) else (sec, nsec)
    else (sec, nsec) in
  wrap_int64 (sec + unix_to_internal) * 1000000000 + nsec.

(** ** Trimming brackets *)

(** [strings.Trim(s, "[]")] *)
Fixpoint drop_brackets (l : list ascii) : list ascii :=
  match l with
  | a :: l' => if bool_decide (a = "["%char) || bool_decide (a = "]"%char) then drop_brackets l' else l
  | [] => []
  end.
Definition trim_brackets (s : string) : string :=
  of_bytes (reverse (drop_brackets (reverse (drop_brackets (to_bytes s))))).

(** ** Lines and prefixes *)

(** [strings.Split(s, "\n")] and [strings.TrimPrefix]. *)
Definition split_lines (s : string) : list string := of_bytes <$> split_byte "010" (to_bytes s).
Definition TrimPrefix (s p : string) : string := default s (CutPrefix s p).

Lemma split_lines_unlines ls : Forall (λ l, "010"%char ∉ to_bytes l) ls → split_lines (unlines ls) = ls ++ [""].
Proof.
  unfold split_lines. induction 1 as [|l ls Hl _ IH]; [done|]. cbn [unlines foldr]. fold (unlines ls).
  rewrite to_bytes_app. cbn [String.list_ascii_of_string]. rewrite split_byte_app by done.
  rewrite fmap_cons, of_to_bytes. cbn [app]. f_equal. exact IH.
Qed.

(** A line with a blank margin whose text starts and ends with ASCII is trimmed to it. *)
Lemma trim_left_margin n l : trim_left (replicate n " "%char ++ l) = trim_left l.
Proof. induction n as [|n IH]; [done|]. exact IH. Qed.
Lemma trim_left_plain a l : plain a = true → trim_left (a :: l) = a :: l.
Proof.
  intros Ha. apply trim_with_fix. apply starts_space_plain; [| |done]; unfold space2, space3; intros; lia.
Qed.
Lemma trim_right_plain a l : plain a = true → trim_right (l ++ [a]) = l ++ [a].
Proof.
  intros Ha. unfold trim_right. rewrite reverse_snoc, trim_with_fix.
  - by rewrite reverse_cons, reverse_involutive.
  - apply starts_space_plain; [| |done]; unfold space2, space3; intros; lia.
Qed.
(** What comes after plain text can only be shortened. *)
Lemma trim_with_stops sp2 sp3 a l : (∀ x y, sp2 x y = true → 128 ≤ code x ∧ 128 ≤ code y) →
  (∀ x y z, sp3 x y z = true → 128 ≤ code x ∧ 128 ≤ code y ∧ 128 ≤ code z) → plain a = true →
  ∀ r, ∃ r', trim_with sp2 sp3 (r ++ a :: l) = r' ++ a :: l ∧ r' `suffix_of` r.
Proof.
  intros H2 H3 Ha r. assert (code a < 128) as Hlt by (unfold plain in Ha; lia).
  induction r as [r IH] using (induction_ltof1 _ length). unfold ltof in IH.
  assert (∀ r0 pre, length r0 < length r → r = pre ++ r0 →
    ∃ r', trim_with sp2 sp3 (r0 ++ a :: l) = r' ++ a :: l ∧ r' `suffix_of` r)%nat as Hrec.
  { intros r0 pre Hlen ->. destruct (IH r0 Hlen) as (r' & E & Hs). exists r'. split; [done|]. by apply suffix_app_r. }
  assert (∃ r', r ++ a :: l = r' ++ a :: l ∧ r' `suffix_of` r) as Hstop by (by exists r).
  destruct r as [|x r1].
  { exists []. split; [|done]. apply trim_with_fix. apply starts_space_plain; [| |done]; [intros ?? ?%H2; lia|intros ??? ?%H3; lia]. }
  cbn [app trim_with]. destruct (space1 x); [apply (Hrec r1 [x]); [cbn; lia|done]|].
  destruct r1 as [|y r2]; cbn [app].
  { destruct (sp2 x a) eqn:E; [apply H2 in E; lia|]. destruct l as [|z l]; [exact Hstop|].
    destruct (sp3 x a z) eqn:E3; [apply H3 in E3; lia|exact Hstop]. }
  destruct (sp2 x y); [apply (Hrec r2 [x; y]); [cbn; lia|done]|]. destruct r2 as [|z r3]; cbn [app].
  { destruct (sp3 x y a) eqn:E3; [apply H3 in E3; lia|exact Hstop]. }
  destruct (sp3 x y z); [apply (Hrec r3 [x; y; z]); [cbn; lia|done]|exact Hstop].
Qed.
Lemma trim_right_keeps a l r : plain a = true → ∃ r', trim_right (l ++ a :: r) = l ++ a :: r' ∧ r' `prefix_of` r.
Proof.
  intros Ha. unfold trim_right. rewrite reverse_app, reverse_cons, <- app_assoc. cbn [app].
  destruct (trim_with_stops (λ b a, space2 a b) (λ c b a, space3 a b c) a (reverse l)) with (r := reverse r) as (r' & -> & k & Hk);
    [unfold space2; intros; lia|unfold space3; intros; lia|done|].
  exists (reverse r'). rewrite reverse_app, reverse_cons, reverse_involutive, <- app_assoc. split; [done|].
  exists (reverse k). by rewrite <- reverse_app, <- Hk, reverse_involutive.
Qed.

(** A line with a blank margin: plain text is kept, the rest may lose its end. *)
Lemma TrimSpace_margin n a l z r : plain a = true → plain z = true →
  ∃ r', TrimSpace (of_bytes (replicate n " "%char ++ a :: l ++ z :: r)) = of_bytes (a :: l ++ z :: r') ∧ r' `prefix_of` r.
Proof.
  intros Ha Hz. unfold TrimSpace. rewrite to_of_bytes, trim_left_margin, trim_left_plain by done.
  destruct (trim_right_keeps z (a :: l) r Hz) as (r' & E & Hp). exists r'. split; [|done]. cbn [app] in E. by rewrite E.
Qed.
Lemma TrimSpace_margin_plain n a l z : plain a = true → plain z = true →
  TrimSpace (of_bytes (replicate n " "%char ++ a :: l ++ [z])) = of_bytes (a :: l ++ [z]).
Proof.
  intros Ha Hz. destruct (TrimSpace_margin n a l z [] Ha Hz) as (r' & E & [k Hk]).
  destruct r' as [|x r']; [exact E|done].
Qed.

(** Text without a line break. *)
Definition one_line (s : string) : Prop := "010"%char ∉ to_bytes s.
Lemma one_line_app a b : one_line a → one_line b → one_line (a +:+ b).
Proof. unfold one_line. rewrite to_bytes_app, elem_of_app. tauto. Qed.
Lemma one_line_TrimSpace s : one_line s → one_line (TrimSpace s).
Proof.
  unfold one_line, TrimSpace. rewrite to_of_bytes. intros H Hin. apply H.
  destruct (trim_right_prefix (trim_left (to_bytes s))) as [k Hk].
  destruct (trim_with_suffix space2 space3 (to_bytes s)) as [k' Hk'].
  rewrite Hk'. apply elem_of_app. right. change (trim_with space2 space3 (to_bytes s)) with (trim_left (to_bytes s)).
  rewrite Hk. apply elem_of_app. by left.
Qed.
