(* ===== verification/Role.v ===== *)
(** * Node roles ([src/pkg/role/role.go])

    The role taxonomy and the composability check every node of a topology
    and every registering node goes through. The specification [composable]
    says what a role list means; [ValidateComposability] is the loop. *)

From S2P Require Import Prelude.

(** [type Role string]. *)
Notation Role := string (only parsing).

Definition RoleClient : Role := "client".
Definition RoleMaster : Role := "master".
Definition RoleEgress : Role := "egress".
Definition RoleIngress : Role := "ingress".
Definition RoleBalancer : Role := "balancer".

Inductive role_error :=
  | ErrRoleClientExclusive
  | ErrRoleEmpty
  | ErrRoleUnknown (got : string).

Definition validRoles : gset Role :=
  {[ RoleClient; RoleMaster; RoleEgress; RoleIngress; RoleBalancer ]}.

(** One iteration of the loop over [roles]: the state is [(seen, hasClient)]. *)
Definition composability_step (_ : nat) (st : gset Role * bool) (r : Role)
    : res role_error (gset Role * bool) :=
  if bool_decide (r ∈ validRoles)
  then Ok ({[r]} ∪ st.1, if bool_decide (r = RoleClient) then true else st.2)
  else Err (ErrRoleUnknown r).

Definition ValidateComposability (roles : list Role) : res role_error () :=
  if bool_decide (length roles = 0%nat) then Err ErrRoleEmpty
  else
    let! st := fold_res composability_step (∅, false) roles in
    if st.2 && bool_decide (1 < size st.1)%nat then Err ErrRoleClientExclusive
    else Ok ().

(** ** Specification *)

Definition composable (roles : list Role) : Prop :=
  roles ≠ [] ∧ Forall (λ r, r ∈ validRoles) roles ∧
  (RoleClient ∈ roles → ∀ r, r ∈ roles → r = RoleClient).

(** What the loop knows after the roles [ls]. *)
Definition composability_inv (ls : list Role) (st : gset Role * bool) : Prop :=
  st.1 = list_to_set ls ∧ st.2 = bool_decide (RoleClient ∈ ls) ∧
  Forall (λ r, r ∈ validRoles) ls.

Lemma composability_loop roles st :
  fold_res composability_step (∅, false) roles = Ok st → composability_inv roles st.
Proof.
  apply (fold_res_ind _ composability_inv).
  - done.
  - intros i ls [seen hc] x st' (Hs & Hc & Hf) H.
    unfold composability_step, composability_inv in *.
    inv_res. bool_to_prop. simpl in *. split_and!.
    + rewrite list_to_set_app_L, Hs. set_solver.
    + rewrite Hc. repeat case_bool_decide; set_solver.
    + apply Forall_app. auto.
Qed.

Lemma composability_loop_valid roles :
  Forall (λ r, r ∈ validRoles) roles →
  ∀ i st, ∃ st', fold_res_from composability_step i st roles = Ok st'.
Proof.
  induction 1 as [|x l Hx _ IH]; intros i st; simpl; [eauto|].
  unfold composability_step at 1. rewrite bool_decide_eq_true_2 by done. apply IH.
Qed.

Lemma composability_unknown pre post r :
  r ∉ validRoles → Forall (λ r, r ∈ validRoles) pre →
  ∀ i st, fold_res_from composability_step i st (pre ++ r :: post) = Err (ErrRoleUnknown r).
Proof.
  intros Hr. induction 1 as [|x l Hx _ IH]; intros i st; simpl; unfold composability_step at 1.
  - by rewrite bool_decide_eq_false_2.
  - rewrite bool_decide_eq_true_2 by done. apply IH.
Qed.

Lemma composability_err roles e : ∀ i st,
  fold_res_from composability_step i st roles = Err e →
  ∃ r pre post, e = ErrRoleUnknown r ∧ roles = pre ++ r :: post ∧
    r ∉ validRoles ∧ Forall (λ r, r ∈ validRoles) pre.
Proof.
  induction roles as [|x l IH]; intros i st H; simpl in H; [done|].
  unfold composability_step at 1 in H. case_bool_decide as Hx; simpl in H.
  - apply IH in H as (r & pre & post & -> & -> & Hr & Hp).
    exists r, (x :: pre), post. split_and!; [done..|by constructor].
  - injection H as <-. exists x, [], l. split_and!; [done..|constructor].
Qed.

Lemma size_gt_1_spec (X : gset Role) r :
  r ∈ X → (1 < size X)%nat ↔ ∃ r', r' ∈ X ∧ r' ≠ r.
Proof.
  intros Hr. split.
  - intros Hsz. destruct (set_choose_L (X ∖ {[r]})) as [y Hy].
    + intros He. assert (size X <= size ({[r]} : gset Role))%nat.
      { apply subseteq_size. intros y Hy. destruct (decide (y = r)); set_solver. }
      rewrite size_singleton in *. lia.
    + exists y. set_solver.
  - intros (y & Hy & Hne).
    assert (size ({[r; y]} : gset Role) <= size X)%nat as Hle.
    { apply subseteq_size. set_solver. }
    rewrite size_union in Hle by set_solver.
    rewrite !size_singleton in Hle. lia.
Qed.

Lemma composable_iff roles :
  ValidateComposability roles = Ok () ↔ composable roles.
Proof.
  unfold ValidateComposability, composable. split.
  - intros H. inv_res. bool_to_prop.
    apply composability_loop in Ha as (Hs & Hcl & Hf).
    split_and!; [by intros ->|done|].
    intros Hin r Hr. destruct (decide (r = RoleClient)) as [|Hne]; [done|].
    rewrite Hcl, Hs, bool_decide_eq_true_2 in Hc0 by done. simpl in Hc0. bool_to_prop.
    exfalso. apply Hc0. apply (size_gt_1_spec _ RoleClient); [set_solver|].
    exists r. set_solver.
  - intros (Hne & Hf & Hcl).
    rewrite bool_decide_eq_false_2 by (by destruct roles).
    destruct (composability_loop_valid _ Hf 0 (∅, false)) as [st Hst].
    unfold fold_res. rewrite Hst. simpl.
    apply composability_loop in Hst as (Hs & Hc & _).
    rewrite Hc, Hs. case_bool_decide as Hin; [|done]. simpl.
    rewrite bool_decide_eq_false_2; [done|].
    rewrite (size_gt_1_spec _ RoleClient) by set_solver.
    intros (r' & Hr' & Hne'). apply Hne', Hcl; set_solver.
Qed.

(** The role check accepts a list exactly when it is non-empty, all its
    roles are known, and [client], if present, is the only role in it
    (repetitions allowed); on a list it rejects it returns [ErrRoleEmpty] for
    the empty list, the first unknown role if there is one, and
    [ErrRoleClientExclusive] otherwise. *)
Theorem ValidateComposability_spec roles :
  (ValidateComposability roles = Ok () ↔ composable roles) ∧
  (ValidateComposability roles = Err ErrRoleEmpty ↔ roles = []) ∧
  (∀ r, ValidateComposability roles = Err (ErrRoleUnknown r) ↔
     ∃ pre post, roles = pre ++ r :: post ∧ r ∉ validRoles ∧ Forall (λ r, r ∈ validRoles) pre).
Proof.
  split_and!; [apply composable_iff|..].
  - unfold ValidateComposability. split; [|by intros ->].
    case_bool_decide as Hl; [intros _; by apply nil_length_inv|].
    destruct (fold_res _ _ _) as [st|e] eqn:Hf; simpl; [by destruct (_ && _)|].
    intros [= ->]. by apply composability_err in Hf as (r & pre & post & ? & _).
  - intros r. unfold ValidateComposability. split.
    + case_bool_decide; [done|].
      destruct (fold_res _ _ _) as [st|e] eqn:Hf; simpl; [by destruct (_ && _)|].
      intros [= ->]. apply composability_err in Hf as (r' & pre & post & [= <-] & Hf). eauto.
    + intros (pre & post & -> & Hr & Hpre).
      rewrite bool_decide_eq_false_2 by (rewrite length_app; simpl; lia).
      unfold fold_res. by rewrite (composability_unknown pre post r).
Qed.
