(* ===== verification/TopologyV2.v ===== *)
(** * The v2 topology and its validator ([src/pkg/topology/topology_v2.go])

    The flat role-tagged schema and [ValidateV2], with the acceptance condition
    [v2_wf] that the loop over the nodes implements. *)

From S2P Require Import Prelude GoStrings GoNet Role.

(** [SchemaVersion] *)
Definition SchemaV1 : Z := 1.
Definition SchemaV2 : Z := 2.

Record MeshConfig := MkMeshConfig {
  mc_Name : string;
  mc_OverlaySupernet : string;
  mc_Tenants : list string
}.

Record NodeV2 := MkNodeV2 {
  n2_Name : string;
  n2_Roles : list Role;
  n2_OverlayIP : string;
  n2_BridgeIP : string;
  n2_PublicIP : string;
  n2_MeshListenPort : Z;
  n2_MeshEndpoint : string;
  n2_Region : string;
  n2_Platform : string;
  n2_PreferredMaster : string;
  n2_InternetIface : string;
  n2_ClientProtocol : string;
  n2_MeshProtocol : string
}.

Record IngressBindingV2 := MkIngressBindingV2 {
  ib_Hostname : string;
  ib_Mode : string;
  ib_IngressNode : string;
  ib_Port : Z;
  ib_HTTP3 : bool
}.

Record ServiceV2 := MkServiceV2 {
  sv_Name : string;
  sv_OwnerNode : string;
  sv_Protocol : string;
  sv_LocalPort : Z;
  sv_Ingress : list IngressBindingV2;
  sv_Tenant : string
}.

Record ObservabilityConfig := MkObservability {
  ob_AuditRetentionDays : Z;
  ob_CertRotationDays : Z;
  ob_PrometheusListen : string;
  ob_LogLevel : string
}.

(** [CaptureConfig], [RotationDefaults] and [RotationConfig] (topology.go). *)
Record CaptureConfig := MkCapture {
  cc_DomainsFile : string;
  cc_Schedule : string;
  cc_RetentionDays : Z
}.
Record RotationConfig := MkRotation {
  rc_Tier1Interval : string;
  rc_Tier2Interval : string;
  rc_Tier3Interval : string;
  rc_Preset : string
}.

Record TopologyV2 := MkTopologyV2 {
  t2_SchemaVersion : Z;
  t2_Mesh : MeshConfig;
  t2_Nodes : list NodeV2;
  t2_Services : list ServiceV2;
  t2_Rotation : RotationConfig;
  t2_Capture : CaptureConfig;
  t2_Observability : ObservabilityConfig
}.

Inductive endpoint_error :=
  | ErrEndpointNotHostPort (e : hostport_error)
  | ErrEndpointEmptyHost
  | ErrEndpointPort (port : string).

Inductive v2_error :=
  | ErrV2Nil
  | ErrV2SchemaMissing
  | ErrV2OverlayMissing
  | ErrV2OverlayInvalid (cidr : string)
  | ErrV2NoNodes
  | ErrV2NodeMissingName (index : nat)
  | ErrV2NodeMissingRoles (node : string)
  | ErrV2NodeRoles (node : string) (e : role_error)
  | ErrV2NodePort (node : string)
  | ErrV2NodeEndpoint (node : string) (e : endpoint_error)
  | ErrV2NodePublicIPPort (node : string)
  | ErrV2NodeMissingOverlay (node : string)
  | ErrV2NodeOverlayInvalid (node ip : string)
  | ErrV2OverlayOutOfRange (node ip supernet : string)
  | ErrV2OverlayDuplicate (prev node ip : string).

Definition validateV2MeshEndpoint (endpoint : string) : res endpoint_error () :=
  match SplitHostPort endpoint with
  | Err e => Err (ErrEndpointNotHostPort e)
  | Ok (host, portText) =>
      if bool_decide (TrimSpace host = "") then Err ErrEndpointEmptyHost
      else if port_ok portText then Ok () else Err (ErrEndpointPort portText)
  end.

(** One iteration of the loop over [t.Nodes]; the state is [seenOverlay]. *)
Definition validate_node (cidr : string) (supernet : IPNet)
    (i : nat) (seenOverlay : gmap string string) (n : NodeV2)
    : res v2_error (gmap string string) :=
  if bool_decide (n2_Name n = "") then Err (ErrV2NodeMissingName i) else
  if bool_decide (length (n2_Roles n) = 0%nat) then Err (ErrV2NodeMissingRoles (n2_Name n)) else
  let! _ := wrap_err (ErrV2NodeRoles (n2_Name n)) (ValidateComposability (n2_Roles n)) in
  if (n2_MeshListenPort n <? 0) || (65535 <? n2_MeshListenPort n)
  then Err (ErrV2NodePort (n2_Name n)) else
  let endpoint := TrimSpace (n2_MeshEndpoint n) in
  let! _ := if bool_decide (endpoint ≠ "")
            then wrap_err (ErrV2NodeEndpoint (n2_Name n)) (validateV2MeshEndpoint endpoint)
            else Ok () in
  if is_ok (SplitHostPort (TrimSpace (n2_PublicIP n)))
  then Err (ErrV2NodePublicIPPort (n2_Name n)) else
  if bool_decide (n2_OverlayIP n = "") then Err (ErrV2NodeMissingOverlay (n2_Name n)) else
  match ParseIP (n2_OverlayIP n) with
  | None => Err (ErrV2NodeOverlayInvalid (n2_Name n) (n2_OverlayIP n))
  | Some ip =>
      if negb (net_contains supernet ip)
      then Err (ErrV2OverlayOutOfRange (n2_Name n) (n2_OverlayIP n) cidr) else
      match seenOverlay !! n2_OverlayIP n with
      | Some prev => Err (ErrV2OverlayDuplicate prev (n2_Name n) (n2_OverlayIP n))
      | None => Ok (<[n2_OverlayIP n := n2_Name n]> seenOverlay)
      end
  end.

Definition ValidateV2 (t : option TopologyV2) : res v2_error () :=
  match t with
  | None => Err ErrV2Nil
  | Some t =>
      if bool_decide (t2_SchemaVersion t ≠ SchemaV2) then Err ErrV2SchemaMissing else
      let cidr := mc_OverlaySupernet (t2_Mesh t) in
      if bool_decide (cidr = "") then Err ErrV2OverlayMissing else
      match ParseCIDR cidr with
      | None => Err (ErrV2OverlayInvalid cidr)
      | Some (_, supernet) =>
          if bool_decide (length (t2_Nodes t) = 0%nat) then Err ErrV2NoNodes else
          let! _ := fold_res (validate_node cidr supernet) ∅ (t2_Nodes t) in
          Ok ()
      end
  end.

(** ** Specification *)

Definition endpoint_wf (endpoint : string) : Prop :=
  ∃ host port, SplitHostPort endpoint = Ok (host, port) ∧ TrimSpace host ≠ "" ∧ port_ok port = true.

(** A node on its own: everything but the uniqueness of its address. *)
Record node_wf (supernet : IPNet) (n : NodeV2) : Prop := {
  nw_name : n2_Name n ≠ "";
  nw_roles : composable (n2_Roles n);
  nw_port : 0 ≤ n2_MeshListenPort n ≤ 65535;
  nw_endpoint : TrimSpace (n2_MeshEndpoint n) ≠ "" → endpoint_wf (TrimSpace (n2_MeshEndpoint n));
  nw_public : is_ok (SplitHostPort (TrimSpace (n2_PublicIP n))) = false;
  nw_overlay : ∃ ip, ParseIP (n2_OverlayIP n) = Some ip ∧ net_contains supernet ip = true
}.

Definition v2_wf (t : TopologyV2) : Prop :=
  t2_SchemaVersion t = SchemaV2 ∧ t2_Nodes t ≠ [] ∧
  (∃ ip supernet, ParseCIDR (mc_OverlaySupernet (t2_Mesh t)) = Some (ip, supernet) ∧
     Forall (node_wf supernet) (t2_Nodes t)) ∧
  NoDup (n2_OverlayIP <$> t2_Nodes t).

Lemma validateV2MeshEndpoint_spec e : validateV2MeshEndpoint e = Ok () ↔ endpoint_wf e.
Proof.
  unfold validateV2MeshEndpoint, endpoint_wf.
  destruct (SplitHostPort e) as [[host port]|]; [|naive_solver].
  case_bool_decide; [naive_solver|]. destruct (port_ok port) eqn:Hp.
  - split; [intros _; by exists host, port|done].
  - split; [done|]. intros (h & p & [= <- <-] & _ & ?). congruence.
Qed.

Lemma ParseIP_nonempty s ip : ParseIP s = Some ip → s ≠ "".
Proof. by intros H ->. Qed.

Lemma validate_node_ok cidr supernet i seen n seen' :
  validate_node cidr supernet i seen n = Ok seen' ↔
  node_wf supernet n ∧ seen !! n2_OverlayIP n = None ∧
  seen' = <[n2_OverlayIP n := n2_Name n]> seen.
Proof.
  unfold validate_node. split.
  - intros H. inv_res. destruct a. apply composable_iff in Ha.
    destruct (ParseIP (n2_OverlayIP n)) as [ip|] eqn:Hip; [|done]. inv_res.
    destruct (seen !! n2_OverlayIP n) eqn:Hs; [done|]. inv_res. bool_to_prop.
    split_and!; [|done|done]. constructor; try done; [lia| |by exists ip].
    intros He. rewrite bool_decide_eq_true_2 in Ha0 by done.
    apply wrap_err_ok in Ha0. destruct a0. by apply validateV2MeshEndpoint_spec.
  - intros ([Hname Hroles Hport Hend Hpub (ip & Hip & Hnet)] & Hseen & ->).
    rewrite bool_decide_eq_false_2 by done.
    rewrite bool_decide_eq_false_2 by (destruct Hroles as [? _]; by destruct (n2_Roles n)).
    apply composable_iff in Hroles as ->. simpl.
    rewrite (proj2 (Z.ltb_ge _ _)), (proj2 (Z.ltb_ge _ _)) by lia. simpl.
    rewrite Hpub, Hip, Hnet, Hseen. simpl.
    rewrite (bool_decide_eq_false_2 (n2_OverlayIP n = ""))
      by eauto using ParseIP_nonempty.
    case_bool_decide as He; [|done].
    specialize (Hend He). apply validateV2MeshEndpoint_spec in Hend as ->. done.
Qed.

(** The loop accepts the nodes that are well formed and use fresh addresses. *)
Lemma validate_nodes_ok cidr supernet nodes : ∀ i seen,
  is_ok (fold_res_from (validate_node cidr supernet) i seen nodes) = true ↔
  Forall (node_wf supernet) nodes ∧ NoDup (n2_OverlayIP <$> nodes) ∧
  ∀ n, n ∈ nodes → seen !! n2_OverlayIP n = None.
Proof.
  induction nodes as [|n nodes IH]; intros i seen; simpl.
  - split; [|done]. intros _. split_and!; [constructor|constructor|set_solver].
  - destruct (validate_node cidr supernet i seen n) as [seen'|] eqn:Hn; simpl.
    + apply validate_node_ok in Hn as (Hwf & Hs & ->). rewrite IH, Forall_cons, NoDup_cons.
      split.
      * intros (Hf & Hnd & Hseen). split_and!; try done.
        -- intros Hin. apply list_elem_of_fmap in Hin as (m & Heq & Hm).
           specialize (Hseen m Hm). rewrite Heq, lookup_insert_eq in Hseen. done.
        -- intros m [->|Hm]%elem_of_cons; [done|]. specialize (Hseen m Hm).
           apply lookup_insert_None in Hseen. tauto.
      * intros ([_ Hf] & [Hnin Hnd] & Hseen). split_and!; try done.
        intros m Hm. apply lookup_insert_None. split; [apply Hseen; set_solver|].
        intros Heq. apply Hnin. rewrite Heq. by apply list_elem_of_fmap_2.
    + split; [done|]. intros (Hf & Hnd & Hseen). apply Forall_cons in Hf as [Hwf _].
      assert (validate_node cidr supernet i seen n = Ok (<[n2_OverlayIP n := n2_Name n]> seen))
        as Hok by (apply validate_node_ok; split_and!; [done|apply Hseen; set_solver|done]).
      congruence.
Qed.

(** The loop and the checks before it. *)
Lemma ValidateV2_ok t : ValidateV2 (Some t) = Ok () ↔ v2_wf t.
Proof.
  unfold ValidateV2, v2_wf. split.
  - intros H. inv_res. destruct (ParseCIDR _) as [[ip net]|] eqn:Hp; [|done]. inv_res.
    assert (is_ok (fold_res (validate_node (mc_OverlaySupernet (t2_Mesh t)) net) ∅ (t2_Nodes t)) = true)
      as Hok by by rewrite Ha.
    apply validate_nodes_ok in Hok as (Hf & Hnd & _). bool_to_prop.
    split_and!; [by apply dec_stable|intros Heq; by rewrite Heq in *| |done]. eauto.
  - intros (Hs & Hne & (ip & net & Hp & Hf) & Hnd).
    rewrite bool_decide_eq_false_2 by tauto.
    rewrite bool_decide_eq_false_2 by (intros Heq; rewrite Heq in Hp; done).
    rewrite Hp. rewrite bool_decide_eq_false_2 by (by destruct (t2_Nodes t)).
    pose proof (proj2 (validate_nodes_ok (mc_OverlaySupernet (t2_Mesh t)) net (t2_Nodes t) 0 ∅)) as H.
    unfold fold_res. destruct (fold_res_from _ _ _ _) as [?|e]; [done|].
    exfalso. cut (false = true); [done|]. apply H. split_and!; [done..|]. intros. apply lookup_empty.
Qed.

(** [ValidateV2] accepts a topology exactly when it declares schema 2, has a
    parseable overlay supernet and at least one node, every node is well formed
    (name, composable roles, listen port in 0..65535, a mesh endpoint that is
    empty or host:port with a port in 1..65535, a public IP without port, an
    overlay IP that parses and lies in the supernet), and no two nodes carry the
    same overlay-IP text. *)
Theorem ValidateV2_spec t : ValidateV2 (Some t) = Ok () ↔ v2_wf t.
Proof. apply ValidateV2_ok. Qed.

Definition example_node (name ip : string) : NodeV2 :=
  MkNodeV2 name [RoleMaster] ip "" "" 0 "" "" "" "" "" "" "".

Definition alias_topology : TopologyV2 :=
  MkTopologyV2 2 (MkMeshConfig "m" "10.0.0.0/24" [])
    [example_node "a" "10.0.0.1"; example_node "b" "::ffff:10.0.0.1"] []
    (MkRotation "" "" "" "") (MkCapture "" "" 0) (MkObservability 0 0 "" "").

(** The duplicate check compares the texts of the overlay IPs, not the
    addresses: a topology in which two nodes claim the same address, once in
    dotted form and once IPv4-mapped, is accepted. *)
Theorem ValidateV2_alias_accepted :
  ValidateV2 (Some alias_topology) = Ok () ∧
  ∃ a b, t2_Nodes alias_topology = [a; b] ∧ n2_Name a ≠ n2_Name b ∧
    ParseIP (n2_OverlayIP a) = ParseIP (n2_OverlayIP b) ∧
    is_Some (ParseIP (n2_OverlayIP a)).
Proof.
  split; [vm_compute; reflexivity|].
  exists (example_node "a" "10.0.0.1"), (example_node "b" "::ffff:10.0.0.1").
  split_and!; [done|done|vm_compute; reflexivity|vm_compute; eauto].
Qed.
