(* ===== verification/Ranges.v ===== *)
(** * Overlay ranges and address allocation ([src/pkg/topology/ranges.go])

    Parsing of named ranges, containment, overlap, the last address of a prefix
    and the first-fit allocator. A range is specified by the interval of
    addresses its prefix contains ([GoNet.prefix_contains_spec]); the operations
    are proved against that. *)

From S2P Require Import Prelude GoStrings GoNet.

(** [topology.NamedRange] (topology.go). *)
Record NamedRange := MkNamedRange {
  nr_Name : string;
  nr_CIDR : string;
  nr_BalancerIP : string
}.

Record Range := MkRange {
  rg_Name : string;
  rg_Network : Prefix;
  rg_BalancerIP : Addr
}.

Inductive range_error :=
  | ErrParseCIDR (cidr : string)
  | ErrParseBalancerIP (ip : string).

Definition normalizeAddr (a : Addr) : Addr := if Is4In6 a then Unmap a else a.

Definition ParseRange (nr : NamedRange) : res range_error Range :=
  match ParsePrefix (nr_CIDR nr) with
  | None => Err (ErrParseCIDR (nr_CIDR nr))
  | Some prefix =>
      let result := MkRange (nr_Name nr) (Masked prefix) AddrInvalid in
      if bool_decide (nr_BalancerIP nr ≠ "") then
        match ParseAddr (nr_BalancerIP nr) with
        | None => Err (ErrParseBalancerIP (nr_BalancerIP nr))
        | Some b => Ok (MkRange (rg_Name result) (rg_Network result) (normalizeAddr b))
        end
      else Ok result
  end.

(** [Range.Contains] *)
Definition range_contains (r : Range) (ip : Addr) : bool := prefix_contains (rg_Network r) ip.

(** ** [prefixLastAddr] *)

(** [uint32] host mask, by cases as in the source. *)
Definition host_mask32 (hostBits : Z) : Z :=
  if hostBits =? 32 then 2 ^ 32 - 1
  else if hostBits =? 0 then 0
  else (Z.shiftl 1 hostBits) mod 2 ^ 32 - 1.

(** [byte(0xFF >> uint(rem))]: a negative count is a huge shift. *)
Definition ff_shr (rem : Z) : Z := if rem <? 0 then 0 else Z.shiftr 255 rem.

Definition last16 (bs : list Z) (prefixBits : Z) : list Z :=
  let fullBytes := Z.quot prefixBits 8 in
  let remainderBits := Z.rem prefixBits 8 in
  if fullBytes <? 16 then
    let i := Z.to_nat fullBytes in
    let '(bs, i) :=
      if negb (remainderBits =? 0)
      then (alter (λ b, Z.lor b (ff_shr remainderBits)) i bs, S i)
      else (bs, i) in
    take i bs ++ replicate (16 - i) 255
  else bs.

Definition prefixLastAddr (prefix : Prefix) : Addr :=
  let m := Masked prefix in
  match pfx_addr m with
  | Addr4 base => Addr4 (Z.lor base (host_mask32 (32 - pfx_bits m)))
  | a => Addr6 (be_val (last16 (octets 16 (As16 a)) (pfx_bits m))) ""
  end.

(** ** Enumeration and allocation *)

(** [for ip := first; ip.IsValid() && ip.Less(last); ip = ip.Next()]; the
    number of iterations is bounded by the distance to [last]. *)
Fixpoint addrs_until (fuel : nat) (ip last : Addr) : list Addr :=
  match fuel with
  | O => []
  | S fuel => if addr_valid ip && Less ip last then ip :: addrs_until fuel (Next ip) last else []
  end.

Definition AvailableIPs (r : Range) : list Addr :=
  let network := pfx_addr (Masked (rg_Network r)) in
  let last := prefixLastAddr (Masked (rg_Network r)) in
  let first := Next network in
  if negb (addr_valid first) || negb (Less first last) then []
  else addrs_until (Z.to_nat (addr_val last - addr_val first)) first last.

Definition used_set (existing : list Addr) : gset Addr :=
  list_to_set (normalizeAddr <$> filter (λ a, addr_valid a = true) existing).

(** The inner loop of [AllocateIP]. [None] is fuel exhaustion, [Some None] the
    end of the range, [Some (Some a)] the address returned. *)
Fixpoint alloc_scan (fuel : nat) (used : gset Addr) (addr last : Addr) : option (option Addr) :=
  match fuel with
  | O => None
  | S fuel =>
      if addr_valid addr && Less addr last then
        let normalized := normalizeAddr addr in
        if bool_decide (normalized ∈ used) then alloc_scan fuel used (Next addr) last
        else Some (Some normalized)
      else Some None
  end.

(** At most one address per element of [used] is skipped, so [size used + 1]
    iterations are enough ([alloc_scan_terminates]). *)
Definition alloc_range (used : gset Addr) (r : Range) : option (option Addr) :=
  let m := Masked (rg_Network r) in
  alloc_scan (size used + 1) used (Next (pfx_addr m)) (prefixLastAddr m).

Inductive alloc_error := ErrNoAvailableIP | AllocOutOfFuel.

Fixpoint alloc_ranges (used : gset Addr) (ranges : list Range) : res alloc_error Addr :=
  match ranges with
  | [] => Err ErrNoAvailableIP
  | r :: ranges =>
      match alloc_range used r with
      | None => Err AllocOutOfFuel
      | Some (Some a) => Ok a
      | Some None => alloc_ranges used ranges
      end
  end.

Definition AllocateIP (ranges : list Range) (existing : list Addr) : res alloc_error Addr :=
  alloc_ranges (used_set existing) ranges.

(** [AddrInvalid] stands for the zero [netip.Addr] the source returns. *)
Definition BalancerIPForAddr (ranges : list Range) (addr : Addr) : Addr :=
  let normalized := normalizeAddr addr in
  match List.find (λ r, range_contains r normalized) ranges with
  | Some r => rg_BalancerIP r
  | None => AddrInvalid
  end.

Definition RangesOverlap (a b : Range) : bool :=
  let aPrefix := Masked (rg_Network a) in
  let bPrefix := Masked (rg_Network b) in
  prefix_contains aPrefix (pfx_addr bPrefix) || prefix_contains bPrefix (pfx_addr aPrefix).

(** [isRangeWithinOverlay] (validate.go). *)
Definition isRangeWithinOverlay (overlay candidate : Prefix) : bool :=
  let m := Masked candidate in
  prefix_contains overlay (pfx_addr m) && prefix_contains overlay (prefixLastAddr m).

(** ** The last address of a prefix *)

Lemma ff_shr_ones rem : 0 ≤ rem ≤ 8 → ff_shr rem = Z.ones (8 - rem).
Proof.
  intros H. unfold ff_shr. replace (rem <? 0) with false by lia.
  change 255 with (Z.ones 8). by rewrite Z.shiftr_div_pow2, Z.ones_div_pow2 by lia.
Qed.

(** The byte loop sets exactly the host bits. *)
Lemma last16_spec v bits :
  0 ≤ bits ≤ 128 → last16 (octets 16 v) bits = octets 16 (Z.lor v (Z.ones (128 - bits))).
Proof.
  intros Hb. unfold last16.
  rewrite Z.quot_div_nonneg, Z.rem_mod_nonneg by lia.
  pose proof (Z.div_mod bits 8 ltac:(lia)) as Hdm.
  pose proof (Z.mod_pos_bound bits 8 ltac:(lia)) as Hm.
  set (f := bits / 8) in *. set (r := bits mod 8) in *. clearbody f r.
  assert (0 ≤ f) by lia.
  destruct (f <? 16) eqn:Hf.
  2:{ replace (128 - bits) with 0 by lia. by rewrite Z.lor_0_r. }
  apply list_eq. intros i. destruct (decide (i < 16)%nat) as [Hi|Hi].
  2:{ rewrite (lookup_ge_None_2 (octets 16 _)) by (rewrite length_octets; lia).
      apply lookup_ge_None_2. destruct (negb (r =? 0));
        rewrite length_app, length_take, length_replicate, ?length_alter, length_octets; lia. }
  rewrite (octets_lookup 16 (Z.lor _ _)), octet_lor, octet_ones by lia.
  destruct (negb (r =? 0)) eqn:Hr.
  - destruct (decide (i < S (Z.to_nat f))%nat) as [Hlt|Hge].
    + rewrite lookup_app_l by (rewrite length_take, length_alter, length_octets; lia).
      rewrite lookup_take_lt by lia. destruct (decide (i = Z.to_nat f)) as [->|Hne].
      * rewrite list_lookup_alter_eq, octets_lookup by lia. simpl. f_equal.
        rewrite (proj2 (Z.leb_gt _ _)) by lia. rewrite ff_shr_ones by lia.
        do 2 f_equal. lia.
      * rewrite list_lookup_alter_ne, octets_lookup by lia.
        rewrite (proj2 (Z.leb_le _ _)) by lia. by rewrite Z.lor_0_r.
    + rewrite lookup_app_r by (rewrite length_take, length_alter, length_octets; lia).
      rewrite lookup_replicate_2 by (rewrite length_take, length_alter, length_octets; lia).
      rewrite (proj2 (Z.leb_gt _ _)) by lia. rewrite Z.min_l by lia.
      change (Z.ones 8) with 255. by rewrite octet_lor_ff.
  - destruct (decide (i < Z.to_nat f)%nat) as [Hlt|Hge].
    + rewrite lookup_app_l by (rewrite length_take, length_octets; lia).
      rewrite lookup_take_lt, octets_lookup by lia.
      rewrite (proj2 (Z.leb_le _ _)) by lia. by rewrite Z.lor_0_r.
    + rewrite lookup_app_r by (rewrite length_take, length_octets; lia).
      rewrite lookup_replicate_2 by (rewrite length_take, length_octets; lia).
      rewrite (proj2 (Z.leb_gt _ _)) by lia. rewrite Z.min_l by lia.
      change (Z.ones 8) with 255. by rewrite octet_lor_ff.
Qed.

Lemma host_mask32_spec h : 0 ≤ h ≤ 32 → host_mask32 h = Z.ones h.
Proof.
  intros H. unfold host_mask32.
  destruct (h =? 32) eqn:E1; [by replace h with 32 by lia|].
  destruct (h =? 0) eqn:E2; [by replace h with 0 by lia|].
  rewrite Z.shiftl_1_l, Z.ones_equiv, Z.mod_small; [lia|].
  split; [apply Z.pow_nonneg; lia|apply Z.pow_lt_mono_r; lia].
Qed.

(** The address with which the prefix's interval ends, in its family. *)
Definition family_addr (p : Prefix) (v : Z) : Addr :=
  match pfx_addr p with Addr4 _ => Addr4 v | _ => Addr6 v "" end.

Lemma prefixLastAddr_value p :
  prefix_ok p → prefixLastAddr p = family_addr p (net_base p + 2 ^ host_bits p - 1).
Proof.
  intros Hok. pose proof (net_base_bound p Hok) as [Hlo Hhi].
  destruct Hok as [Hv Hw]. unfold prefixLastAddr. rewrite (Masked_valid p) by done.
  apply prefix_valid_spec in Hv as [Hn Hb]. unfold family_addr, net_base, host_bits in *.
  destruct p as [[|v|v z] b]; cbn [pfx_addr pfx_bits addr_bits addr_val As16] in *; [done| |].
  - by rewrite host_mask32_spec, lor_ones_add by lia.
  - rewrite last16_spec, lor_ones_add, be_val_octets by lia.
    rewrite Z.mod_small; [done|]. change (256 ^ Z.of_nat 16) with (2 ^ 128).
    assert (0 < 2 ^ (128 - b)) by (apply Z.pow_pos_nonneg; lia). lia.
Qed.

Lemma prefixLastAddr_contained p :
  prefix_ok p → prefix_contains p (prefixLastAddr p) = true.
Proof.
  intros Hok. pose proof Hok as [Hv _].
  rewrite prefixLastAddr_value by done. apply prefix_contains_spec; [done|].
  apply prefix_valid_spec in Hv as [Hn Hb].
  assert (0 < 2 ^ host_bits p) by (apply Z.pow_pos_nonneg; unfold host_bits; lia).
  unfold family_addr. destruct (pfx_addr p); simpl; [done| |]; split_and!; try done; lia.
Qed.
#[export] Hint Resolve prefixLastAddr_contained : mesh.

(** [prefixLastAddr] of a parsed prefix is its greatest address: it is
    contained in the prefix, and every contained address has a value at most
    its own. *)
Theorem prefixLastAddr_greatest p :
  prefix_ok p →
  prefix_contains p (prefixLastAddr p) = true ∧
  ∀ a, prefix_contains p a = true → addr_val a ≤ addr_val (prefixLastAddr p).
Proof.
  intros Hok. split; [auto with mesh|].
  intros a (_ & _ & _ & Hr)%prefix_contains_spec; [|apply Hok].
  rewrite prefixLastAddr_value by done.
  unfold family_addr. destruct (pfx_addr p); simpl; lia.
Qed.

Lemma prefixLastAddr_greatest_witness :
  prefix_contains (MkPrefix (Addr4 167772165) 24) (prefixLastAddr (MkPrefix (Addr4 167772165) 24)) = true.
Proof.
  apply (prefixLastAddr_greatest (MkPrefix (Addr4 167772165) 24)).
  split; [reflexivity|]. unfold addr_wf. simpl. lia.
Defined.

(** ** Overlap and containment *)

Lemma base_contained p : prefix_valid p = true → prefix_contains p (pfx_addr (Masked p)) = true.
Proof.
  intros Hv. apply prefix_contains_spec; [done|]. rewrite Masked_valid by done.
  apply prefix_valid_spec in Hv as [Hn Hb].
  assert (0 < 2 ^ host_bits p) by (apply Z.pow_pos_nonneg; unfold host_bits; lia).
  destruct (pfx_addr p); simpl; [done| |]; split_and!; try done; lia.
Qed.

(** Two aligned blocks that share a point are nested. *)
Lemma aligned_blocks_nested x y h k :
  0 ≤ h ≤ k → clear_low x h ≤ y < clear_low x h + 2 ^ h →
  clear_low y k ≤ clear_low x h < clear_low y k + 2 ^ k.
Proof.
  intros Hhk Hy. apply clear_low_eq_iff; [lia|].
  assert (clear_low y h = clear_low x h) as Hxy by (apply clear_low_eq_iff; lia).
  rewrite <- Hxy. clear x Hy Hxy. apply clear_low_eq_iff; [lia|].
  pose proof (clear_low_range y h ltac:(lia)). pose proof (clear_low_range y k ltac:(lia)).
  split; [|lia]. rewrite !clear_low_div by lia.
  replace k with (h + (k - h)) by lia. rewrite Z.pow_add_r, <- Z.div_div by
    (try apply Z.pow_nonzero; try apply Z.pow_pos_nonneg; lia).
  rewrite <- Z.mul_assoc. apply Z.mul_le_mono_nonneg_l; [apply Z.pow_nonneg; lia|].
  apply Z.mul_div_le. apply Z.pow_pos_nonneg; lia.
Qed.

Lemma overlap_base p q a :
  prefix_valid p = true → prefix_valid q = true →
  host_bits p ≤ host_bits q →
  prefix_contains p a = true → prefix_contains q a = true →
  prefix_contains q (pfx_addr (Masked p)) = true.
Proof.
  intros Hp Hq Hh (_ & _ & Hfp & Hrp)%prefix_contains_spec
    (_ & _ & Hfq & Hrq)%prefix_contains_spec; [|done|done].
  pose proof (base_contained p Hp) as Hb.
  apply prefix_contains_spec in Hb as (? & ? & ? & _); [|done].
  apply prefix_contains_spec; [done|]. split_and!; try done; [lia|..].
  all: apply prefix_valid_spec in Hp as Hp'; destruct Hp' as [Hn Hb'].
  all: pose proof (aligned_blocks_nested (addr_val (pfx_addr p)) (addr_val a)
        (host_bits p) (host_bits q)) as Hal.
  all: assert (clear_low (addr_val a) (host_bits q) = net_base q) as Heq
        by (apply clear_low_eq_iff; [unfold host_bits in *; lia|done]).
  all: rewrite Heq in Hal; fold (net_base p) in Hal.
  all: rewrite Masked_valid by done.
  all: assert (net_base q ≤ net_base p < net_base q + 2 ^ host_bits q)
        by (apply Hal; [unfold host_bits in *; lia|done]).
  all: destruct (pfx_addr p); simpl; [done|lia|lia].
Qed.

(** Two ranges with valid networks are reported as overlapping exactly when
    some address belongs to both. *)
Theorem RangesOverlap_spec a b :
  prefix_valid (rg_Network a) = true → prefix_valid (rg_Network b) = true →
  RangesOverlap a b = true ↔
  ∃ ip, range_contains a ip = true ∧ range_contains b ip = true.
Proof.
  intros Ha Hb. unfold RangesOverlap, range_contains.
  rewrite orb_true_iff, !Masked_contains. split.
  - intros [H|H]; eauto using base_contained.
  - intros (ip & H1 & H2).
    destruct (Z.le_gt_cases (host_bits (rg_Network a)) (host_bits (rg_Network b)));
      [right|left]; eapply overlap_base; eauto; lia.
Qed.

Lemma RangesOverlap_spec_witness :
  let a := MkRange "a" (MkPrefix (Addr4 167772160) 24) AddrInvalid in
  let b := MkRange "b" (MkPrefix (Addr4 167772288) 25) AddrInvalid in
  RangesOverlap a b = true ↔
  ∃ ip, range_contains a ip = true ∧ range_contains b ip = true.
Proof. apply RangesOverlap_spec; reflexivity. Defined.

(** A range is accepted as lying within the overlay exactly when every
    address of the range is an address of the overlay. *)
Theorem isRangeWithinOverlay_spec overlay candidate :
  prefix_valid overlay = true → prefix_ok candidate →
  isRangeWithinOverlay overlay candidate = true ↔
  ∀ ip, prefix_contains candidate ip = true → prefix_contains overlay ip = true.
Proof.
  intros Ho Hc. pose proof Hc as [Hv _]. unfold isRangeWithinOverlay.
  rewrite andb_true_iff. split.
  - intros [H1 H2] ip Hip.
    rewrite prefixLastAddr_value in H2 by auto with mesh.
    rewrite prefix_contains_spec in H1, H2, Hip by done.
    apply prefix_contains_spec; [done|].
    destruct H1 as (_ & _ & _ & Hlo), H2 as (_ & _ & Hf & Hhi).
    destruct Hip as (Ha & Hz & Hfi & Hr).
    rewrite Masked_valid in * by done. apply prefix_valid_spec in Hv as [Hn Hb].
    unfold family_addr, net_base, host_bits in *.
    destruct candidate as [[|v|v z] b]; simpl in *; [done| |];
      rewrite clear_low_idem in * by lia; split_and!; try done; lia.
  - intros H. split; apply H; rewrite <- Masked_contains.
    + rewrite <- (Masked_idem candidate) at 2. apply base_contained. auto with mesh.
    + auto with mesh.
Qed.

Lemma isRangeWithinOverlay_spec_witness :
  let overlay := MkPrefix (Addr4 167772160) 16 in
  let candidate := MkPrefix (Addr4 167772160) 24 in
  isRangeWithinOverlay overlay candidate = true ↔
  ∀ ip, prefix_contains candidate ip = true → prefix_contains overlay ip = true.
Proof.
  apply isRangeWithinOverlay_spec; [reflexivity|].
  split; [reflexivity|]. unfold addr_wf. simpl. lia.
Defined.

(** ** Allocation *)

(** The host addresses of a range: neither its first nor its last address. *)
Definition usable (p : Prefix) (u : Z) : Prop :=
  net_base p < u < net_base p + 2 ^ host_bits p - 1.
(** The address the allocator hands out for the value [u] of the range [r]. *)
Definition host_addr (r : Range) (u : Z) : Addr :=
  normalizeAddr (family_addr (Masked (rg_Network r)) u).

Lemma used_set_spec existing a :
  a ∈ used_set existing ↔ ∃ e, e ∈ existing ∧ addr_valid e = true ∧ normalizeAddr e = a.
Proof.
  unfold used_set. rewrite elem_of_list_to_set, list_elem_of_fmap.
  setoid_rewrite list_elem_of_filter. naive_solver.
Qed.

Lemma v4_mapped_split v : in_v4_mapped v = true → v = 0xffff * 2 ^ 32 + v mod 2 ^ 32.
Proof.
  unfold in_v4_mapped. rewrite Z.eqb_eq, Z.shiftr_div_pow2 by lia. intros H.
  pose proof (Z.div_mod v (2 ^ 32)). lia.
Qed.

Lemma normalize_family_inj p u v :
  normalizeAddr (family_addr p u) = normalizeAddr (family_addr p v) → u = v.
Proof.
  assert (∀ x y z, normalizeAddr (Addr6 x z) = normalizeAddr (Addr6 y z) → x = y) as H6.
  { intros x y z. unfold normalizeAddr, Unmap. cbn [Is4In6 addr_val].
    destruct (in_v4_mapped x) eqn:Hx, (in_v4_mapped y) eqn:Hy; intros [=H]; [|done].
    rewrite (v4_mapped_split x Hx), (v4_mapped_split y Hy). by rewrite H. }
  unfold family_addr. destruct (pfx_addr p); [apply H6|by intros [=]|apply H6].
Qed.

Section scan.
Context (used : gset Addr) (p : Prefix).
Implicit Types (u v w : Z).

Lemma scan_guard v w :
  addr_valid (family_addr p v) && Less (family_addr p v) (family_addr p w) = (v <? w).
Proof.
  unfold family_addr, Less. destruct (pfx_addr p); simpl;
    destruct (Z.compare_spec v w), (Z.ltb_spec v w); try lia; done.
Qed.

(** The width of the family the scan walks through. *)
Definition width : Z := match pfx_addr p with Addr4 _ => 32 | _ => 128 end.

Lemma scan_next v : v + 1 < 2 ^ width → Next (family_addr p v) = family_addr p (v + 1).
Proof.
  unfold family_addr, Next, width. intros H.
  destruct (pfx_addr p); rewrite (proj2 (Z.eqb_neq _ _)) by lia; done.
Qed.

Lemma alloc_scan_some fuel v w :
  w < 2 ^ width →
  match alloc_scan fuel used (family_addr p v) (family_addr p w) with
  | Some (Some a) => ∃ u, v ≤ u < w ∧ a = normalizeAddr (family_addr p u) ∧ a ∉ used ∧
      ∀ u', v ≤ u' < u → normalizeAddr (family_addr p u') ∈ used
  | Some None => ∀ u, v ≤ u < w → normalizeAddr (family_addr p u) ∈ used
  | None => ∀ i, 0 ≤ i < Z.of_nat fuel → normalizeAddr (family_addr p (v + i)) ∈ used
  end.
Proof.
  intros Hw. revert v. induction fuel as [|fuel IH]; intros v; simpl; [lia|].
  rewrite scan_guard. destruct (Z.ltb_spec v w) as [Hlt|Hge]; [|lia].
  case_bool_decide as Hu; [|exists v; split_and!; [lia|lia|done|done|lia]].
  rewrite scan_next by lia. specialize (IH (v + 1)).
  destruct (alloc_scan _ _ _ _) as [[a|]|].
  - destruct IH as (u & Hr & -> & Hn & Hb). exists u. split_and!; [lia|lia|done|done|].
    intros u' Hu'. destruct (decide (u' = v)) as [->|]; [done|]. apply Hb. lia.
  - intros u Hr. destruct (decide (u = v)) as [->|]; [done|]. apply IH. lia.
  - intros i Hi. destruct (decide (i = 0)) as [->|]; [by rewrite Z.add_0_r|].
    replace (v + i) with (v + 1 + (i - 1)) by lia. apply IH. lia.
Qed.

(** The scan stops after at most [size used + 1] addresses: the addresses it
    skips are distinct elements of [used]. *)
Lemma alloc_scan_terminates v w :
  w < 2 ^ width → alloc_scan (size used + 1) used (family_addr p v) (family_addr p w) ≠ None.
Proof.
  intros Hw Hnone. pose proof (alloc_scan_some (size used + 1) v w Hw) as H.
  rewrite Hnone in H. clear Hnone.
  set (l := (λ i, normalizeAddr (family_addr p (v + Z.of_nat i))) <$> seq 0 (size used + 1)).
  assert (NoDup l) as Hnd.
  { apply NoDup_fmap_2; [|apply NoDup_seq]. intros i j Hij.
    apply normalize_family_inj in Hij. lia. }
  assert (size (list_to_set l : gset Addr) ≤ size used)%nat as Hsz.
  { apply subseteq_size. intros a Ha%elem_of_list_to_set.
    apply list_elem_of_fmap in Ha as (i & -> & Hi%elem_of_seq). apply H. lia. }
  rewrite size_list_to_set in Hsz by done.
  unfold l in Hsz. rewrite length_fmap, length_seq in Hsz. lia.
Qed.
End scan.

Lemma Masked_net_base p : prefix_valid p = true → net_base (Masked p) = net_base p.
Proof.
  intros Hv. rewrite Masked_valid by done. apply prefix_valid_spec in Hv as [Hn Hb].
  unfold net_base, host_bits.
  destruct p as [[|v|v z] b]; simpl in *; [done| |]; rewrite clear_low_idem by lia; done.
Qed.

Lemma Masked_host_bits p : prefix_valid p = true → host_bits (Masked p) = host_bits p.
Proof.
  intros Hv. rewrite Masked_valid by done. apply prefix_valid_spec in Hv as [Hn Hb].
  unfold host_bits. by destruct p as [[|v|v z] b].
Qed.

Lemma Masked_base_addr p :
  prefix_valid p = true → pfx_addr (Masked p) = family_addr (Masked p) (net_base p).
Proof.
  intros Hv. rewrite Masked_valid by done. apply prefix_valid_spec in Hv as [Hn Hb].
  unfold family_addr. by destruct p as [[|v|v z] b].
Qed.

Lemma width_addr_bits p : prefix_valid p = true → width p = addr_bits (pfx_addr p).
Proof.
  intros Hv. apply prefix_valid_spec in Hv as [Hn Hb]. unfold width.
  by destruct p as [[|v|v z] b].
Qed.

(** What one range contributes: the first free host address, or none when all
    are taken. *)
Lemma alloc_range_spec used r :
  prefix_ok (rg_Network r) →
  match alloc_range used r with
  | Some (Some a) => ∃ u, usable (rg_Network r) u ∧ a = host_addr r u ∧ a ∉ used ∧
      ∀ u', usable (rg_Network r) u' → u' < u → host_addr r u' ∈ used
  | Some None => ∀ u, usable (rg_Network r) u → host_addr r u ∈ used
  | None => False
  end.
Proof.
  intros Hok. pose proof (Masked_ok _ Hok) as Hm. pose proof Hok as [Hv _].
  unfold alloc_range, usable, host_addr. rewrite Masked_base_addr by done.
  rewrite prefixLastAddr_value, Masked_net_base, Masked_host_bits by done.
  pose proof (net_base_bound _ Hm) as [Hlo Hhi].
  rewrite Masked_net_base, Masked_host_bits, <- width_addr_bits in Hhi by (done || apply Hm).
  set (m := Masked (rg_Network r)) in *.
  set (b := net_base (rg_Network r)) in *. set (h := 2 ^ host_bits (rg_Network r)) in *.
  assert (0 < h) as Hh.
  { apply prefix_valid_spec in Hv as [_ Hb]. apply Z.pow_pos_nonneg; unfold host_bits; lia. }
  clearbody b h m. destruct (decide (b + 1 < 2 ^ width m)) as [Hb|Hb].
  - rewrite scan_next by done.
    pose proof (alloc_scan_some used m (size used + 1) (b + 1) (b + h - 1) ltac:(lia)) as H.
    pose proof (alloc_scan_terminates used m (b + 1) (b + h - 1) ltac:(lia)) as Ht.
    destruct (alloc_scan _ _ _ _) as [[a|]|]; [| |done].
    + destruct H as (u & ? & ? & ? & Hall). exists u. split_and!; try done; try lia.
      intros u' Hu' Hlt. apply Hall. lia.
    + intros u Hu. apply H. lia.
  - assert (Next (family_addr m b) = AddrInvalid) as ->.
    { unfold family_addr, Next, width in *.
      destruct (pfx_addr m); rewrite (proj2 (Z.eqb_eq _ _)) by lia; done. }
    rewrite Nat.add_1_r. simpl. lia.
Qed.

(** [AllocateIP] is first fit: the address it returns is a host address of
    one of the ranges, is none of the existing addresses (compared after
    IPv4-in-IPv6 normalisation), and every host address before it, in the same
    or an earlier range, is taken. *)
Theorem AllocateIP_first_fit ranges existing a :
  Forall (λ r, prefix_ok (rg_Network r)) ranges →
  AllocateIP ranges existing = Ok a →
  ∃ pre r post u, ranges = pre ++ r :: post ∧ usable (rg_Network r) u ∧ a = host_addr r u ∧
    (∀ e, e ∈ existing → addr_valid e = true → normalizeAddr e ≠ a) ∧
    (∀ u', usable (rg_Network r) u' → u' < u → host_addr r u' ∈ used_set existing) ∧
    (∀ r' u', r' ∈ pre → usable (rg_Network r') u' → host_addr r' u' ∈ used_set existing).
Proof.
  unfold AllocateIP. intros Hf H. induction Hf as [|r ranges Hr Hf IH]; simpl in H; [done|].
  pose proof (alloc_range_spec (used_set existing) r Hr) as Hs.
  destruct (alloc_range _ r) as [[b|]|]; [| |done].
  - inv_res. destruct Hs as (u & Hu & -> & Hfresh & Hbefore).
    exists [], r, ranges, u. split_and!; try done; [|set_solver].
    intros e He Hve Heq. apply Hfresh. rewrite used_set_spec. eauto.
  - destruct (IH H) as (pre & r' & post & u & -> & Hu & -> & Hfr & Hb & Hpre).
    exists (r :: pre), r', post, u. split_and!; try done.
    intros r'' u' [->|Hin]%elem_of_cons Hus; eauto.
Qed.

Lemma AllocateIP_first_fit_witness :
  let r := MkRange "a" (MkPrefix (Addr4 167772160) 29) AddrInvalid in
  ∃ pre r' post u, [r] = pre ++ r' :: post ∧ usable (rg_Network r') u ∧
    Addr4 167772162 = host_addr r' u.
Proof.
  intros r.
  destruct (AllocateIP_first_fit [r] [Addr4 167772161] (Addr4 167772162))
    as (pre & r' & post & u & H1 & H2 & H3 & _).
  - constructor; [|constructor]. split; [reflexivity|]. unfold addr_wf. simpl. lia.
  - vm_compute. reflexivity.
  - eauto 10.
Defined.

(** [AllocateIP] always ends, and it fails only when no host address of any
    range is free. *)
Theorem AllocateIP_exhausted ranges existing e :
  Forall (λ r, prefix_ok (rg_Network r)) ranges →
  AllocateIP ranges existing = Err e →
  e = ErrNoAvailableIP ∧
  ∀ r u, r ∈ ranges → usable (rg_Network r) u → host_addr r u ∈ used_set existing.
Proof.
  unfold AllocateIP. intros Hf H. induction Hf as [|r ranges Hr Hf IH]; simpl in H.
  - split; [congruence|set_solver].
  - pose proof (alloc_range_spec (used_set existing) r Hr) as Hs.
    destruct (alloc_range _ r) as [[b|]|]; [done| |done].
    destruct (IH H) as [-> Hall]. split; [done|].
    intros r' u [->|Hin]%elem_of_cons Hus; eauto.
Qed.

Lemma AllocateIP_exhausted_witness :
  let r := MkRange "a" (MkPrefix (Addr4 167772160) 30) AddrInvalid in
  ErrNoAvailableIP = ErrNoAvailableIP ∧
  ∀ r' u, r' ∈ [r] → usable (rg_Network r') u →
    host_addr r' u ∈ used_set [Addr4 167772161; Addr4 167772162].
Proof.
  intros r. apply (AllocateIP_exhausted [r] [Addr4 167772161; Addr4 167772162]).
  - constructor; [|constructor]. split; [reflexivity|]. unfold addr_wf. simpl. lia.
  - vm_compute. reflexivity.
Defined.
