(* ===== verification/Ledger.v ===== *)
(** * The ownership ledger ([src/pkg/control_plane/ledger.go])

    Which master owns an overlay /32. Every mutation bumps the entry's and the
    ledger's version and hands a sorted snapshot to the listener; an operation is
    a function from the ledger to its result, the new ledger and the
    notifications it sends after releasing the lock. The abstract state is the
    map from overlay IP to owner ([owners]); [ledger_refines_owners] is the
    refinement. *)

From S2P Require Import Prelude GoStrings GoNet.

(** Times are nanoseconds since Go's zero time, so [IsZero] is [= 0]. *)
Notation time := Z (only parsing).

Record OwnershipEntry := MkEntry {
  oe_OverlayIP : string;
  oe_OwningMaster : string;
  oe_LastReassignedAt : time;
  oe_PreviousOwner : string;
  oe_Reason : string;
  oe_Version : Z                       (* int64 *)
}.

#[global] Instance OwnershipEntry_eq_dec : EqDecision OwnershipEntry.
Proof. solve_decision. Defined.

Inductive ledger_error :=
  | ErrLedgerOverlayInvalid (ip : string)
  | ErrLedgerEmptyMaster
  | ErrLedgerNotFound
  | ErrLedgerOwnerChanged (ip owner expected : string).

(** What [OnLedgerMutation] receives. *)
Record Notification := MkNotification {
  nt_snapshot : list OwnershipEntry;
  nt_version : Z
}.

Record Ledger := MkLedger {
  lg_entries : gmap string OwnershipEntry;
  lg_version : Z;                      (* int64 *)
  lg_listener : bool                   (* a listener is registered *)
}.

Definition NewLedger : Ledger := MkLedger ∅ 0 false.
Definition SetListener (listener : bool) (l : Ledger) : Ledger :=
  MkLedger (lg_entries l) (lg_version l) listener.

(** [snapshotLocked]: the map is iterated in any order and sorted by its key. *)
Definition snapshotLocked (l : Ledger) : list OwnershipEntry :=
  sort_by oe_OverlayIP ((map_to_list (lg_entries l)).*2).

Definition Snapshot (l : Ledger) : list OwnershipEntry * Z := (snapshotLocked l, lg_version l).
Definition Version (l : Ledger) : Z := lg_version l.
Definition ledger_Lookup (l : Ledger) (overlayIP : string) : option OwnershipEntry :=
  lg_entries l !! overlayIP.

Definition OwnedBy (l : Ledger) (master : string) : list OwnershipEntry :=
  sort_by oe_OverlayIP
    (filter (λ e, oe_OwningMaster e = master) ((map_to_list (lg_entries l)).*2)).

(** [net.ParseIP(s)] yields an IPv4 address. *)
Definition is_ipv4 (s : string) : bool :=
  match ParseIP s with
  | Some ip => bool_decide (is_Some (To4 ip))
  | None => false
  end.

(** The end of a mutation: bump the version, take the snapshot, notify. *)
Definition publish (l : Ledger) (entries : gmap string OwnershipEntry) : Ledger * list Notification :=
  let l' := MkLedger entries (wrap_int64 (lg_version l + 1)) (lg_listener l) in
  (l', if lg_listener l then [MkNotification (snapshotLocked l') (lg_version l')] else []).

Definition reassign (now : time) (overlayIP expectedOwner newOwner reason : string)
    (checkOwner : bool) (l : Ledger) : res ledger_error Z * Ledger * list Notification :=
  if bool_decide (newOwner = "") then (Err ErrLedgerEmptyMaster, l, []) else
  if negb (is_ipv4 overlayIP) then (Err (ErrLedgerOverlayInvalid overlayIP), l, []) else
  let commit (previous : string) (version : Z) :=
    let entry := MkEntry overlayIP newOwner now previous reason (wrap_int64 (version + 1)) in
    let '(l', ns) := publish l (<[overlayIP := entry]> (lg_entries l)) in
    (Ok (oe_Version entry), l', ns) in
  match lg_entries l !! overlayIP with
  | Some entry =>
      if checkOwner && bool_decide (oe_OwningMaster entry ≠ expectedOwner)
      then (Err (ErrLedgerOwnerChanged overlayIP (oe_OwningMaster entry) expectedOwner), l, [])
      else commit (oe_OwningMaster entry) (oe_Version entry)
  | None =>
      if checkOwner then (Err ErrLedgerNotFound, l, []) else commit "" 0
  end.

Definition Reassign (now : time) (overlayIP newOwner reason : string) (l : Ledger) :=
  reassign now overlayIP "" newOwner reason false l.

Definition ledger_Remove (overlayIP : string) (l : Ledger)
    : res ledger_error () * Ledger * list Notification :=
  match lg_entries l !! overlayIP with
  | None => (Err ErrLedgerNotFound, l, [])
  | Some _ =>
      let '(l', ns) := publish l (delete overlayIP (lg_entries l)) in (Ok (), l', ns)
  end.

(** ** Drain

    [chooseMaster] is a closure: a state [C] and a function from it. The lock is
    released between [OwnedBy] and each [reassign], so other goroutines may change
    the ledger; [env ip] is what they do to it just before the entry [ip] is
    reassigned (the identity when nobody interferes). *)
Inductive drain_error :=
  | ErrDrainNilChooser (ip : string)
  | ErrDrainEmptyChoice (ip : string)
  | ErrDrainFailed (ip : string) (e : ledger_error).

Section drain.
Context {C : Type} (clock : string → time) (env : string → Ledger → Ledger).
Context (sourceMaster reason : string) (choose : option (C → string → string * C)).

Fixpoint drain_loop (owned : list OwnershipEntry) (reassigned : Z) (c : C) (l : Ledger)
    (ns : list Notification) : (Z * option drain_error) * C * Ledger * list Notification :=
  match owned with
  | [] => ((reassigned, None), c, l, ns)
  | entry :: owned =>
      let ip := oe_OverlayIP entry in
      match choose with
      | None => ((reassigned, Some (ErrDrainNilChooser ip)), c, l, ns)
      | Some f =>
          let '(newOwner, c) := f c ip in
          if bool_decide (newOwner = "")
          then ((reassigned, Some (ErrDrainEmptyChoice ip)), c, l, ns)
          else if bool_decide (newOwner = sourceMaster) then drain_loop owned reassigned c l ns
          else
            let '(r, l, ns') := reassign (clock ip) ip sourceMaster newOwner reason true (env ip l) in
            match r with
            | Ok _ => drain_loop owned (reassigned + 1) c l (ns ++ ns')
            | Err (ErrLedgerOwnerChanged _ _ _) | Err ErrLedgerNotFound =>
                drain_loop owned reassigned c l (ns ++ ns')
            | Err e => ((reassigned, Some (ErrDrainFailed ip e)), c, l, ns ++ ns')
            end
      end
  end.

Definition Drain (c : C) (l : Ledger) : (Z * option drain_error) * C * Ledger * list Notification :=
  drain_loop (OwnedBy l sourceMaster) 0 c l [].
End drain.

(** ** The invariant *)

Record entry_wf (ip : string) (e : OwnershipEntry) : Prop := {
  ew_ip : oe_OverlayIP e = ip;
  ew_owner : oe_OwningMaster e ≠ "";
  ew_ipv4 : is_ipv4 ip = true
}.

Definition ledger_wf (l : Ledger) : Prop := map_Forall entry_wf (lg_entries l).

Lemma NewLedger_wf : ledger_wf NewLedger.
Proof. apply map_Forall_empty. Qed.

(** ** Snapshots *)

Lemma entries_keys l :
  ledger_wf l → oe_OverlayIP <$> (map_to_list (lg_entries l)).*2 = (map_to_list (lg_entries l)).*1.
Proof.
  intros Hwf. rewrite <- list_fmap_compose. apply list_fmap_ext.
  intros i [k e] Hi. simpl. apply (Hwf k e).
  apply elem_of_map_to_list. apply list_elem_of_lookup. eauto.
Qed.

Lemma entries_keys_NoDup l :
  ledger_wf l → NoDup (oe_OverlayIP <$> (map_to_list (lg_entries l)).*2).
Proof. intros Hwf. rewrite entries_keys by done. apply NoDup_fst_map_to_list. Qed.

Lemma elem_of_entries l e :
  ledger_wf l →
  e ∈ (map_to_list (lg_entries l)).*2 ↔ lg_entries l !! oe_OverlayIP e = Some e.
Proof.
  intros Hwf. rewrite list_elem_of_fmap. split.
  - intros ([k x] & -> & Hin%elem_of_map_to_list). simpl.
    by rewrite (ew_ip _ _ (Hwf k x Hin)).
  - intros H. exists (oe_OverlayIP e, e). split; [done|]. by apply elem_of_map_to_list.
Qed.

Lemma elem_of_snapshot l e :
  ledger_wf l → e ∈ snapshotLocked l ↔ lg_entries l !! oe_OverlayIP e = Some e.
Proof. intros. unfold snapshotLocked. rewrite sort_by_elem_of. by apply elem_of_entries. Qed.

Lemma elem_of_OwnedBy l m e :
  ledger_wf l →
  e ∈ OwnedBy l m ↔ lg_entries l !! oe_OverlayIP e = Some e ∧ oe_OwningMaster e = m.
Proof.
  intros. unfold OwnedBy. rewrite sort_by_elem_of, list_elem_of_filter, elem_of_entries by done.
  naive_solver.
Qed.

Lemma snapshot_keys_NoDup l : ledger_wf l → NoDup (oe_OverlayIP <$> snapshotLocked l).
Proof.
  intros. unfold snapshotLocked. rewrite sort_by_perm. by apply entries_keys_NoDup.
Qed.

Lemma OwnedBy_keys_NoDup l m : ledger_wf l → NoDup (oe_OverlayIP <$> OwnedBy l m).
Proof.
  intros Hwf. unfold OwnedBy. rewrite sort_by_perm.
  eapply sublist_NoDup; [by apply entries_keys_NoDup|]. apply fmap_sublist, sublist_filter.
Qed.

(** A snapshot is a function of the ledger alone: it holds exactly the
    ledger's entries, one per overlay IP, in increasing order of the IP text, and
    any other ordering of the map's iteration, sorted by any algorithm, gives the
    same list. *)
Theorem snapshot_canonical l :
  ledger_wf l →
  StronglySorted (key_le oe_OverlayIP) (snapshotLocked l) ∧
  NoDup (oe_OverlayIP <$> snapshotLocked l) ∧
  (∀ e, e ∈ snapshotLocked l ↔ lg_entries l !! oe_OverlayIP e = Some e) ∧
  (∀ out, out ≡ₚ (map_to_list (lg_entries l)).*2 →
     StronglySorted (key_le oe_OverlayIP) out → out = snapshotLocked l).
Proof.
  intros Hwf. split_and!; auto using snapshot_keys_NoDup.
  - apply sort_by_sorted.
  - intros e. by apply elem_of_snapshot.
  - intros out Hp Hs. symmetry. eapply sorted_perm_unique;
      eauto using sort_by_sorted, snapshot_keys_NoDup.
    unfold snapshotLocked. by rewrite sort_by_perm.
Qed.

(** ** Reassignment *)

(** The entry a successful reassignment of [ip] leaves. *)
Definition next_entry (now : time) (ip owner reason : string) (l : Ledger) : OwnershipEntry :=
  match lg_entries l !! ip with
  | Some e => MkEntry ip owner now (oe_OwningMaster e) reason (wrap_int64 (oe_Version e + 1))
  | None => MkEntry ip owner now "" reason 1
  end.

(** When a reassignment is allowed: the new owner is named, the address is IPv4,
    and, if the owner is checked, the entry exists and has the expected owner. *)
Definition may_reassign (ip expected owner : string) (chk : bool) (l : Ledger) : bool :=
  bool_decide (owner ≠ "") && is_ipv4 ip &&
  (negb chk || bool_decide (oe_OwningMaster <$> lg_entries l !! ip = Some expected)).

Lemma reassign_allowed now ip expected owner reason chk l :
  may_reassign ip expected owner chk l = true →
  reassign now ip expected owner reason chk l =
    (Ok (oe_Version (next_entry now ip owner reason l)),
     (publish l (<[ip := next_entry now ip owner reason l]> (lg_entries l))).1,
     (publish l (<[ip := next_entry now ip owner reason l]> (lg_entries l))).2).
Proof.
  unfold may_reassign, reassign, next_entry.
  intros [[Ho%bool_decide_eq_true Hip]%andb_true_iff Hc]%andb_true_iff.
  rewrite bool_decide_eq_false_2, Hip by done. simpl.
  destruct (lg_entries l !! ip) as [e|]; destruct chk; simpl in *; try done.
  bool_to_prop. rewrite bool_decide_eq_false_2 by naive_solver. done.
Qed.

Lemma reassign_refused now ip expected owner reason chk l :
  may_reassign ip expected owner chk l = false →
  ∃ e, reassign now ip expected owner reason chk l = (Err e, l, []).
Proof.
  unfold may_reassign, reassign. destruct (decide (owner = "")) as [->|Ho]; [simpl; eauto|].
  rewrite (bool_decide_eq_true_2 (owner ≠ "")), (bool_decide_eq_false_2 (owner = "")) by done.
  destruct (is_ipv4 ip); simpl; [|eauto].
  destruct chk; simpl; [|done]. intros Hc. bool_to_prop.
  destruct (lg_entries l !! ip) as [e|]; simpl in *; [|eauto].
  rewrite bool_decide_eq_true_2 by naive_solver. eauto.
Qed.

Lemma next_entry_wf now ip owner reason l :
  owner ≠ "" → is_ipv4 ip = true → entry_wf ip (next_entry now ip owner reason l).
Proof. intros. unfold next_entry. by destruct (lg_entries l !! ip). Qed.
#[export] Hint Resolve next_entry_wf : mesh.

Lemma may_reassign_true ip expected owner chk l :
  may_reassign ip expected owner chk l = true → owner ≠ "" ∧ is_ipv4 ip = true.
Proof. unfold may_reassign. intros H. by bool_to_prop. Qed.

(** A checked reassignment (the one [Drain] uses) is a compare-and-swap: when
    the entry's current owner is the expected one, the owner is named and the
    address is IPv4, it succeeds, records the old owner and installs the new one
    without touching any other entry; otherwise it fails and neither the ledger
    nor the listener sees anything. *)
Theorem reassign_compare_and_swap now ip expected owner reason l :
  let '(r, l', ns) := reassign now ip expected owner reason true l in
  if bool_decide (owner ≠ "" ∧ is_ipv4 ip = true ∧
                  oe_OwningMaster <$> lg_entries l !! ip = Some expected)
  then (∃ v, r = Ok v) ∧ lg_version l' = wrap_int64 (lg_version l + 1) ∧
       (∃ e, lg_entries l' !! ip = Some e ∧ oe_OwningMaster e = owner ∧
             oe_PreviousOwner e = expected) ∧
       (∀ j, j ≠ ip → lg_entries l' !! j = lg_entries l !! j)
  else (∃ e, r = Err e) ∧ l' = l ∧ ns = [].
Proof.
  case_bool_decide as Hd.
  - destruct Hd as (Ho & Hip & Hcur). rewrite reassign_allowed.
    + simpl. split_and!; [eauto|done| |intros j Hj; by rewrite lookup_insert_ne].
      eexists. split; [apply lookup_insert_eq|]. unfold next_entry.
      destruct (lg_entries l !! ip); naive_solver.
    + unfold may_reassign. rewrite !bool_decide_eq_true_2 by done. by rewrite Hip.
  - destruct (reassign_refused now ip expected owner reason true l) as [e ->]; [|eauto].
    apply not_true_is_false. unfold may_reassign. intros H. bool_to_prop.
    apply Hd. split_and!; [done|done|]. by simpl in *; bool_to_prop.
Qed.

(** ** Sequences of operations *)

Inductive ledger_op :=
  | OpReassign (now : time) (ip expected owner reason : string) (chk : bool)
  | OpRemove (ip : string)
  | OpSetListener (on : bool).

Definition run_op (op : ledger_op) (l : Ledger) : Ledger * list Notification :=
  match op with
  | OpReassign now ip expected owner reason chk =>
      let '(_, l', ns) := reassign now ip expected owner reason chk l in (l', ns)
  | OpRemove ip => let '(_, l', ns) := ledger_Remove ip l in (l', ns)
  | OpSetListener on => (SetListener on l, [])
  end.

Fixpoint run_ops (ops : list ledger_op) (l : Ledger) : Ledger * list Notification :=
  match ops with
  | [] => (l, [])
  | op :: ops =>
      let '(l1, ns1) := run_op op l in
      let '(l2, ns2) := run_ops ops l1 in (l2, ns1 ++ ns2)
  end.

(** Every operation leaves the ledger alone or publishes a new entry map. *)
Lemma run_op_cases op l :
  run_op op l = (l, []) ∨
  (∃ on, run_op op l = (SetListener on l, []) ∧ op = OpSetListener on) ∨
  (∃ now ip x owner reason chk, op = OpReassign now ip x owner reason chk ∧
     may_reassign ip x owner chk l = true ∧
     run_op op l = publish l (<[ip := next_entry now ip owner reason l]> (lg_entries l))) ∨
  (∃ ip, op = OpRemove ip ∧ is_Some (lg_entries l !! ip) ∧
     run_op op l = publish l (delete ip (lg_entries l))).
Proof.
  destruct op as [now ip x owner reason chk|ip|on]; simpl.
  - destruct (may_reassign ip x owner chk l) eqn:Hm.
    + right; right; left. rewrite reassign_allowed by done.
      exists now, ip, x, owner, reason, chk. split_and!; [done..|]. by destruct (publish _ _).
    + left. by destruct (reassign_refused now ip x owner reason chk l Hm) as [e ->].
  - unfold ledger_Remove. destruct (lg_entries l !! ip) eqn:He; [|by left].
    right; right; right. exists ip. split_and!; [done|by rewrite He|]. by destruct (publish _ _).
  - right; left. eauto.
Qed.

Lemma publish_wf l m : map_Forall entry_wf m → ledger_wf (publish l m).1.
Proof. done. Qed.

Lemma run_op_wf op l : ledger_wf l → ledger_wf (run_op op l).1.
Proof.
  intros Hwf. destruct (run_op_cases op l)
    as [->|[(on & -> & _)|[(now & ip & x & owner & reason & chk & _ & Hm & ->)|(ip & _ & _ & ->)]]].
  - done.
  - done.
  - apply publish_wf, map_Forall_insert_2; [|done].
    apply may_reassign_true in Hm as [? ?]. auto with mesh.
  - by apply publish_wf, map_Forall_delete.
Qed.

Lemma run_ops_wf ops : ∀ l, ledger_wf l → ledger_wf (run_ops ops l).1.
Proof.
  induction ops as [|op ops IH]; intros l Hwf; simpl; [done|].
  pose proof (run_op_wf op l Hwf) as H1. destruct (run_op op l) as [l1 ns1]. simpl in H1.
  specialize (IH l1 H1). by destruct (run_ops ops l1).
Qed.

(** The single-owner invariant: in every ledger reachable from the empty one,
    an overlay IP has at most one entry, the entry is filed under its own IP, the
    IP is a valid IPv4 address and the owner is named. *)
Theorem ledger_reachable_wf ops :
  ledger_wf (run_ops ops NewLedger).1 ∧
  NoDup (oe_OverlayIP <$> snapshotLocked (run_ops ops NewLedger).1).
Proof.
  assert (ledger_wf (run_ops ops NewLedger).1) by apply run_ops_wf, NewLedger_wf.
  auto using snapshot_keys_NoDup.
Qed.

(** Mutations, the operations that publish. *)
Definition no_listener_change (op : ledger_op) : Prop :=
  match op with OpSetListener _ => False | _ => True end.

Lemma run_op_versions op l :
  no_listener_change op → lg_listener l = true →
  0 ≤ lg_version l → lg_version l + 1 < 2 ^ 63 →
  let '(l', ns) := run_op op l in
  lg_listener l' = true ∧
  ((l' = l ∧ ns = []) ∨
   (lg_version l' = lg_version l + 1 ∧
    ns = [MkNotification (snapshotLocked l') (lg_version l')])).
Proof.
  intros Hn Hl H0 H1.
  assert (∀ m, lg_version (publish l m).1 = lg_version l + 1 ∧ lg_listener (publish l m).1 = true ∧
    (publish l m).2 = [MkNotification (snapshotLocked (publish l m).1) (lg_version (publish l m).1)]) as Hp.
  { intros m. unfold publish. simpl. rewrite Hl, wrap_int64_id by lia. done. }
  destruct (run_op_cases op l)
    as [->|[(on & _ & ->)|[(now & ip & x & owner & reason & chk & _ & _ & ->)|(ip & _ & _ & ->)]]].
  - auto.
  - done.
  - specialize (Hp (<[ip:=next_entry now ip owner reason l]> (lg_entries l))).
    destruct (publish _ _) as [l' ns]. simpl in Hp. tauto.
  - specialize (Hp (delete ip (lg_entries l))).
    destruct (publish _ _) as [l' ns]. simpl in Hp. tauto.
Qed.

Lemma run_ops_notifications ops : ∀ l,
  Forall no_listener_change ops → lg_listener l = true →
  0 ≤ lg_version l → lg_version l + Z.of_nat (length ops) < 2 ^ 63 →
  let '(l', ns) := run_ops ops l in
  nt_version <$> ns = seqZ (lg_version l + 1) (Z.of_nat (length ns)) ∧
  lg_version l' = lg_version l + Z.of_nat (length ns) ∧
  (ns = [] → l' = l) ∧
  (∀ n, last ns = Some n → n = MkNotification (snapshotLocked l') (lg_version l')).
Proof.
  induction ops as [|op ops IH]; intros l Hf Hl H0 H1; simpl in *.
  { split_and!; [done|lia|done|done]. }
  apply Forall_cons in Hf as [Hop Hf].
  pose proof (run_op_versions op l Hop Hl H0 ltac:(lia)) as H.
  destruct (run_op op l) as [l1 ns1]. destruct H as [Hl1 [[-> ->]|[Hv ->]]].
  - specialize (IH l Hf Hl H0 ltac:(lia)). by destruct (run_ops ops l).
  - specialize (IH l1 Hf Hl1 ltac:(lia) ltac:(lia)).
    destruct (run_ops ops l1) as [l2 ns2]. destruct IH as (IH1 & IH2 & IH3 & IH4).
    cbn [app length]. split_and!.
    + rewrite fmap_cons, IH1, Nat2Z.inj_succ.
      rewrite (seqZ_cons (lg_version l + 1)), Z.pred_succ by lia.
      cbn [nt_version]. rewrite Hv. done.
    + lia.
    + done.
    + intros n Hn. destruct ns2 as [|n2 ns2]; [|by apply IH4].
      simpl in Hn. by rewrite (IH3 eq_refl); simplify_eq.
Qed.

(** The listener of a ledger sees every mutation exactly once and in order:
    the versions it receives are the consecutive numbers after the starting
    version, the last one is the ledger's own version, and the last snapshot is
    the ledger's own (as long as the [int64] counter does not wrap). *)
Theorem notifications_consecutive ops : ∀ l,
  Forall no_listener_change ops → lg_listener l = true →
  0 ≤ lg_version l → lg_version l + Z.of_nat (length ops) < 2 ^ 63 →
  let '(l', ns) := run_ops ops l in
  nt_version <$> ns = seqZ (lg_version l + 1) (Z.of_nat (length ns)) ∧
  lg_version l' = lg_version l + Z.of_nat (length ns) ∧
  (ns = [] → l' = l) ∧
  (∀ n, last ns = Some n → n = MkNotification (snapshotLocked l') (lg_version l')).
Proof. apply run_ops_notifications. Qed.

(** The same without a bound: the counter wraps like the [int64] it is. *)
Lemma run_ops_wrapped ops : ∀ l,
  Forall no_listener_change ops → lg_listener l = true →
  let '(l', ns) := run_ops ops l in
  lg_listener l' = true ∧
  nt_version <$> ns = (λ i, wrap_int64 (lg_version l + i)) <$> seqZ 1 (Z.of_nat (length ns)) ∧
  (ns = [] → l' = l) ∧
  (∀ n, last ns = Some n → n = MkNotification (snapshotLocked l') (lg_version l')).
Proof.
  induction ops as [|op ops IH]; intros l Hf Hl; simpl; [done|].
  apply Forall_cons in Hf as [Hop Hf].
  assert (run_op op l = (l, []) ∨ ∃ m, run_op op l = publish l m) as Hcase.
  { destruct (run_op_cases op l)
      as [->|[(on & _ & ->)|[(now & ip & x & owner & reason & chk & _ & _ & ->)|(ip & _ & _ & ->)]]];
      [by left|done|eauto..]. }
  destruct Hcase as [->|[m ->]]; [specialize (IH l Hf Hl); by destruct (run_ops ops l)|].
  unfold publish. rewrite Hl. set (l1 := MkLedger m _ _). specialize (IH l1 Hf eq_refl).
  destruct (run_ops ops l1) as [l2 ns2]. destruct IH as (IH0 & IH1 & IH2 & IH3).
  cbn [app length]. split_and!; [done| |done|].
  - rewrite fmap_cons, IH1, Nat2Z.inj_succ.
    rewrite (seqZ_cons 1 (Z.succ _)), Z.pred_succ, fmap_cons by lia. f_equal.
    rewrite <- (fmap_add_seqZ 1 1). rewrite <- list_fmap_compose.
    apply list_fmap_ext. intros i z _. simpl. rewrite wrap_int64_add. f_equal. lia.
  - intros n Hn. destruct ns2 as [|n2 ns2]; [|by apply IH3].
    simpl in Hn. by rewrite (IH2 eq_refl); simplify_eq.
Qed.

Definition demo_ops : list ledger_op :=
  [OpReassign 5 "10.0.0.2" "" "m1" "register" false;
   OpReassign 6 "10.0.0.1" "" "m1" "register" false;
   OpReassign 7 "10.0.0.1" "m1" "m2" "failover" true;
   OpRemove "10.0.0.9"; OpRemove "10.0.0.2"].

Lemma notifications_consecutive_witness :
  nt_version <$> (run_ops demo_ops (SetListener true NewLedger)).2 = [1; 2; 3; 4].
Proof.
  pose proof (notifications_consecutive demo_ops (SetListener true NewLedger)) as H.
  assert (length (run_ops demo_ops (SetListener true NewLedger)).2 = 4%nat) as Hlen
    by (vm_compute; reflexivity).
  destruct (run_ops demo_ops (SetListener true NewLedger)) as [l' ns].
  cbn [fst snd] in *.
  destruct H as [H _]; [repeat constructor|reflexivity|vm_compute; discriminate|vm_compute; reflexivity|].
  rewrite H, Hlen. reflexivity.
Defined.

(** ** Refinement: the map of owners *)

Definition owners (l : Ledger) : gmap string string := oe_OwningMaster <$> lg_entries l.

(** The abstract operations on the owner map. *)
Definition spec_op (op : ledger_op) (m : gmap string string) : gmap string string :=
  match op with
  | OpReassign _ ip expected owner _ chk =>
      if bool_decide (owner ≠ "") && is_ipv4 ip &&
         (negb chk || bool_decide (m !! ip = Some expected))
      then <[ip := owner]> m else m
  | OpRemove ip => delete ip m
  | OpSetListener _ => m
  end.

Lemma owners_next_entry now ip owner reason l :
  oe_OwningMaster (next_entry now ip owner reason l) = owner.
Proof. unfold next_entry. by destruct (lg_entries l !! ip). Qed.

Lemma run_op_refines op l : owners (run_op op l).1 = spec_op op (owners l).
Proof.
  unfold owners. destruct op as [now ip x owner reason chk|ip|on]; simpl.
  - rewrite lookup_fmap. fold (may_reassign ip x owner chk l).
    destruct (may_reassign ip x owner chk l) eqn:Hm.
    + rewrite reassign_allowed by done. simpl. by rewrite fmap_insert, owners_next_entry.
    + by destruct (reassign_refused now ip x owner reason chk l Hm) as [e ->].
  - unfold ledger_Remove. destruct (lg_entries l !! ip) eqn:He; simpl.
    + by rewrite fmap_delete.
    + rewrite delete_id; [done|]. by rewrite lookup_fmap, He.
  - done.
Qed.

(** C10. The ledger refines the abstract owner map: after any sequence of
    operations the owners are those of the same sequence run on a plain map from
    overlay IP to owner, where a reassignment inserts, a checked one inserts only
    over the expected owner, and a removal deletes. *)
Theorem ledger_refines_owners ops l :
  owners (run_ops ops l).1 = foldl (λ m op, spec_op op m) (owners l) ops.
Proof.
  revert l. induction ops as [|op ops IH]; intros l; simpl; [done|].
  pose proof (run_op_refines op l) as H. destruct (run_op op l) as [l1 ns1]. simpl in H.
  specialize (IH l1). rewrite <- H. by destruct (run_ops ops l1).
Qed.

(** ** Draining a master *)

Section drain_facts.
Context {C : Type} (clock : string → time) (source reason : string).
Context (f : C → string → string * C).
(** The chooser hands out named masters other than the one being drained. *)
Hypothesis Hchoice : ∀ c ip, (f c ip).1 ≠ "" ∧ (f c ip).1 ≠ source.

(** Draining a list of distinct entries that all belong to [source]. *)
Lemma drain_loop_complete owned : ∀ n c l ns,
  ledger_wf l → NoDup (oe_OverlayIP <$> owned) →
  (∀ e, e ∈ owned → lg_entries l !! oe_OverlayIP e = Some e ∧ oe_OwningMaster e = source) →
  ∃ c' l' ns', drain_loop clock (λ _ l, l) source reason (Some f) owned n c l ns =
      ((n + Z.of_nat (length owned), None), c', l', ns') ∧
    ledger_wf l' ∧
    (∀ ip, ip ∉ oe_OverlayIP <$> owned → lg_entries l' !! ip = lg_entries l !! ip) ∧
    (∀ ip, ip ∈ oe_OverlayIP <$> owned → ∃ e c0, lg_entries l' !! ip = Some e ∧
       oe_OwningMaster e = (f c0 ip).1 ∧ oe_PreviousOwner e = source).
Proof.
  induction owned as [|e owned IH]; intros n c l ns Hwf Hnd Howned; simpl.
  { exists c, l, ns. rewrite Z.add_0_r. split_and!; [done..|set_solver]. }
  apply NoDup_cons in Hnd as [Hnin Hnd].
  destruct (Howned e) as [He Hsrc]; [set_solver|].
  destruct (f c (oe_OverlayIP e)) as [owner c1] eqn:Hf.
  destruct (Hchoice c (oe_OverlayIP e)) as [Ho1 Ho2]. rewrite Hf in Ho1, Ho2. simpl in *.
  rewrite !bool_decide_eq_false_2 by done.
  pose proof (Hwf _ _ He) as [_ _ Hip].
  rewrite reassign_allowed.
  2:{ unfold may_reassign. rewrite bool_decide_eq_true_2, Hip by done. simpl.
      rewrite He. simpl. rewrite Hsrc. by apply bool_decide_eq_true_2. }
  unfold next_entry. rewrite He.
  set (e' := MkEntry _ _ _ _ _ _). set (l1 := (publish l _).1).
  destruct (IH (n + 1) c1 l1 (ns ++ (publish l (<[oe_OverlayIP e := e']> (lg_entries l))).2))
    as (c' & l' & ns' & Heq & Hwf' & Hout & Hin).
  - apply publish_wf, map_Forall_insert_2; done.
  - done.
  - intros x Hx. destruct (Howned x) as [Hx1 Hx2]; [set_solver|]. split; [|done].
    simpl. rewrite lookup_insert_ne; [done|]. intros Heq. apply Hnin. rewrite Heq.
    by apply list_elem_of_fmap_2.
  - exists c', l', ns'. split_and!; [|done| |].
    + replace (n + Z.of_nat (S (length owned))) with (n + 1 + Z.of_nat (length owned)) by lia. done.
    + intros ip Hni. rewrite Hout by set_solver. simpl.
      rewrite lookup_insert_ne by set_solver. done.
    + intros ip Hi. apply elem_of_cons in Hi as [->|Hi]; [|by apply Hin].
      destruct (decide (oe_OverlayIP e ∈ oe_OverlayIP <$> owned)) as [|Hni]; [by apply Hin|].
      rewrite Hout by done. simpl. rewrite lookup_insert_eq. exists e', c.
      rewrite Hf. split_and!; done.
Qed.
End drain_facts.

Lemma Drain_hands_over {C} clock source reason (f : C → string → string * C) c l :
  ledger_wf l → (∀ c ip, (f c ip).1 ≠ "" ∧ (f c ip).1 ≠ source) →
  ∃ c' l' ns,
    Drain clock (λ _ l, l) source reason (Some f) c l =
      ((Z.of_nat (length (OwnedBy l source)), None), c', l', ns) ∧
    OwnedBy l' source = [] ∧
    (∀ ip e, lg_entries l !! ip = Some e →
       if bool_decide (oe_OwningMaster e = source)
       then ∃ e' c0, lg_entries l' !! ip = Some e' ∧ oe_OwningMaster e' = (f c0 ip).1 ∧
                     oe_PreviousOwner e' = source
       else lg_entries l' !! ip = Some e) ∧
    (∀ ip, lg_entries l !! ip = None → lg_entries l' !! ip = None).
Proof.
  intros Hwf Hch. unfold Drain.
  destruct (drain_loop_complete clock source reason f Hch (OwnedBy l source) 0 c l [])
    as (c' & l' & ns & Heq & Hwf' & Hout & Hin); [done|by apply OwnedBy_keys_NoDup| |].
  { intros e He. by apply elem_of_OwnedBy in He. }
  assert (∀ ip, ip ∈ oe_OverlayIP <$> OwnedBy l source ↔
            ∃ e, lg_entries l !! ip = Some e ∧ oe_OwningMaster e = source) as Hkeys.
  { intros ip. rewrite list_elem_of_fmap. setoid_rewrite elem_of_OwnedBy; [|done]. split.
    - intros (e & -> & He & Hs). eauto.
    - intros (e & He & Hs). exists e. rewrite (ew_ip _ _ (Hwf _ _ He)). done. }
  exists c', l', ns. split_and!; [done| | |].
  - apply elem_of_nil_inv. intros e He. apply elem_of_OwnedBy in He as [He Hs]; [|done].
    destruct (decide (oe_OverlayIP e ∈ oe_OverlayIP <$> OwnedBy l source)) as [Hi|Hn].
    + apply Hin in Hi as (e' & c0 & He' & Ho & _). destruct (Hch c0 (oe_OverlayIP e)). congruence.
    + rewrite Hout in He by done. apply Hn, Hkeys. eauto.
  - intros ip e He. case_bool_decide as Hs.
    + apply Hin, Hkeys. eauto.
    + rewrite Hout; [done|]. rewrite Hkeys. intros (x & Hx & ?). congruence.
  - intros ip Hno. rewrite Hout; [done|]. rewrite Hkeys. intros (x & Hx & ?). congruence.
Qed.

(** Draining hands everything over: when the chooser always names some other
    master and nobody interferes, [Drain] succeeds, reports as many
    reassignments as the source owned entries, leaves the source with none,
    leaves every entry of another master untouched, and keeps the source as the
    previous owner of what it moved. *)
Theorem Drain_complete {C} clock source reason (f : C → string → string * C) c l :
  ledger_wf l → (∀ c ip, (f c ip).1 ≠ "" ∧ (f c ip).1 ≠ source) →
  ∃ c' l' ns,
    Drain clock (λ _ l, l) source reason (Some f) c l =
      ((Z.of_nat (length (OwnedBy l source)), None), c', l', ns) ∧
    OwnedBy l' source = [] ∧
    (∀ ip e, lg_entries l !! ip = Some e →
       if bool_decide (oe_OwningMaster e = source)
       then ∃ e' c0, lg_entries l' !! ip = Some e' ∧ oe_OwningMaster e' = (f c0 ip).1 ∧
                     oe_PreviousOwner e' = source
       else lg_entries l' !! ip = Some e) ∧
    (∀ ip, lg_entries l !! ip = None → lg_entries l' !! ip = None).
Proof. apply Drain_hands_over. Qed.

Definition demo_ledger : Ledger := (run_ops demo_ops NewLedger).1.

Lemma snapshot_canonical_witness :
  NoDup (oe_OverlayIP <$> snapshotLocked demo_ledger) ∧
  oe_OverlayIP <$> snapshotLocked demo_ledger = ["10.0.0.1"].
Proof.
  split; [|vm_compute; reflexivity].
  apply (snapshot_canonical demo_ledger). apply run_ops_wf, NewLedger_wf.
Defined.

Lemma Drain_complete_witness :
  ∃ c' l' ns,
    Drain (λ _, 9) (λ _ l, l) "m2" "decommission" (Some (λ (c : nat) _, ("m3", S c))) 0%nat demo_ledger =
      ((Z.of_nat (length (OwnedBy demo_ledger "m2")), None), c', l', ns) ∧
    OwnedBy l' "m2" = [].
Proof.
  destruct (Drain_complete (λ _, 9) "m2" "decommission" (λ (c : nat) _, ("m3", S c)) 0%nat demo_ledger)
    as (c' & l' & ns & H1 & H2 & _).
  - apply run_ops_wf, NewLedger_wf.
  - intros c ip. split; discriminate.
  - eauto.
Defined.

(** Draining keeps the invariant, whatever the chooser does. *)
Lemma drain_loop_ops {C} clock source reason (ch : option (C → string → string * C)) owned : ∀ n c l ns,
  ∃ ops ns', Forall no_listener_change ops ∧
    run_ops ops l = ((drain_loop clock (λ _ l, l) source reason ch owned n c l ns).1.2, ns') ∧
    (drain_loop clock (λ _ l, l) source reason ch owned n c l ns).2 = ns ++ ns'.
Proof.
  induction owned as [|e owned IH]; intros n c l ns; simpl.
  { exists [], []. rewrite app_nil_r. done. }
  destruct ch as [f|]; [|exists [], []; by rewrite app_nil_r].
  destruct (f c (oe_OverlayIP e)) as [owner c1].
  repeat case_bool_decide; [exists [], []; by rewrite app_nil_r|apply IH|].
  set (op := OpReassign (clock (oe_OverlayIP e)) (oe_OverlayIP e) source owner reason true).
  assert (run_op op l = (let '(_, l', ns) := reassign (clock (oe_OverlayIP e)) (oe_OverlayIP e)
    source owner reason true l in (l', ns))) as Hop by done.
  assert (no_listener_change op) as Hnl by done. clearbody op.
  destruct (reassign _ _ _ _ _ _ _) as [[rr l1] ns1].
  assert (∀ ops l2 ns2, Forall no_listener_change ops → run_ops ops l1 = (l2, ns2) →
    Forall no_listener_change (op :: ops) ∧ run_ops (op :: ops) l = (l2, ns1 ++ ns2)) as Hcons.
  { intros ops l2 ns2 Hf Hr. split; [by constructor|]. cbn [run_ops]. by rewrite Hop, Hr. }
  assert (∀ n', ∃ ops ns', Forall no_listener_change ops ∧
    run_ops ops l = ((drain_loop clock (λ _ l, l) source reason (Some f) owned n' c1 l1 (ns ++ ns1)).1.2, ns') ∧
    (drain_loop clock (λ _ l, l) source reason (Some f) owned n' c1 l1 (ns ++ ns1)).2 = ns ++ ns') as Hgo.
  { intros n'. destruct (IH n' c1 l1 (ns ++ ns1)) as (ops & ns2 & Hf & Hr & ->).
    destruct (Hcons ops _ ns2 Hf Hr) as [Hf' Hr']. exists (op :: ops), (ns1 ++ ns2). by rewrite app_assoc. }
  destruct rr as [v|[ | | |]]; [apply Hgo| | |apply Hgo|apply Hgo].
  all: destruct (Hcons [] l1 [] ltac:(constructor) eq_refl) as [Hf' Hr'];
    exists [op], (ns1 ++ []); (split; [done|]); (split; [exact Hr'|]); by rewrite app_nil_r.
Qed.

(** With no chooser a non-empty drain stops before touching anything. *)
Lemma Drain_no_chooser {C} clock env source reason (c : C) l :
  OwnedBy l source = [] →
  Drain clock env source reason None c l = ((0, None), c, l, []).
Proof. intros H. unfold Drain. by rewrite H. Qed.

(** An entry that some master other than the source holds when its turn comes is
    skipped and keeps that owner. *)
Lemma Drain_respects {C} clock env source reason (f : C → string → string * C) :
  ∀ e owned n c l ns,
  (f c (oe_OverlayIP e)).1 ≠ "" → (f c (oe_OverlayIP e)).1 ≠ source →
  oe_OwningMaster <$> lg_entries (env (oe_OverlayIP e) l) !! oe_OverlayIP e ≠ Some source →
  is_ipv4 (oe_OverlayIP e) = true →
  drain_loop clock env source reason (Some f) (e :: owned) n c l ns =
  drain_loop clock env source reason (Some f) owned n (f c (oe_OverlayIP e)).2
    (env (oe_OverlayIP e) l) ns.
Proof.
  intros e owned n c l ns Hne Hns Howner Hip. simpl.
  destruct (f c (oe_OverlayIP e)) as [owner c1]. simpl in *.
  rewrite !bool_decide_eq_false_2 by done. unfold reassign.
  rewrite bool_decide_eq_false_2, Hip by done. simpl.
  destruct (lg_entries (env (oe_OverlayIP e) l) !! oe_OverlayIP e) as [x|] eqn:Hx; simpl in *.
  - rewrite bool_decide_eq_true_2 by naive_solver. by rewrite app_nil_r.
  - by rewrite app_nil_r.
Qed.

(** ** Draining while other goroutines work *)

(** The other goroutines keep the fact [P] about the entry of [ip]. *)
Definition others_keep (env : string → Ledger → Ledger) (ip : string) (P : option OwnershipEntry → Prop) : Prop :=
  ∀ k l, P (lg_entries l !! ip) → P (lg_entries (env k l) !! ip).
Definition not_owned_by (source : string) (x : option OwnershipEntry) : Prop :=
  oe_OwningMaster <$> x ≠ Some source.

Section interference.
Context {C : Type} (clock : string → time) (env : string → Ledger → Ledger) (source reason : string).
Context (f : C → string → string * C).
Hypothesis Henv : ∀ k l, ledger_wf l → ledger_wf (env k l).
Hypothesis Hchoice : ∀ c ip, (f c ip).1 ≠ "" ∧ (f c ip).1 ≠ source.

(** One turn of the loop: the others act, then the entry moves if and only if it
    still belongs to the source; no other entry is written. *)
Lemma drain_turn e owned n c l ns :
  ledger_wf l → is_ipv4 (oe_OverlayIP e) = true →
  let ip := oe_OverlayIP e in let l0 := env ip l in
  ∃ k l1 ns1, drain_loop clock env source reason (Some f) (e :: owned) n c l ns =
      drain_loop clock env source reason (Some f) owned (n + k) (f c ip).2 l1 ns1 ∧
    0 ≤ k ≤ 1 ∧ ledger_wf l1 ∧ (∀ j, j ≠ ip → lg_entries l1 !! j = lg_entries l0 !! j) ∧
    (not_owned_by source (lg_entries l0 !! ip) → lg_entries l1 !! ip = lg_entries l0 !! ip) ∧
    (¬ not_owned_by source (lg_entries l0 !! ip) → ∃ e', lg_entries l1 !! ip = Some e' ∧
       oe_OwningMaster e' = (f c ip).1 ∧ oe_PreviousOwner e' = source).
Proof using Henv Hchoice.
  intros Hwf Hip ip l0. change (is_ipv4 ip = true) in Hip. destruct (Hchoice c ip) as [Hne Hns].
  assert (ledger_wf l0) as Hwf0 by by apply Henv.
  destruct (decide (oe_OwningMaster <$> lg_entries l0 !! ip = Some source)) as [Ho|Ho].
  - assert (may_reassign ip source (f c ip).1 true l0 = true) as Hm.
    { unfold may_reassign. rewrite !bool_decide_eq_true_2 by done. by rewrite Hip. }
    set (p := publish l0 (<[ip := next_entry (clock ip) ip (f c ip).1 reason l0]> (lg_entries l0))).
    exists 1, p.1, (ns ++ p.2).
    split; [|split_and!].
    + simpl. fold ip. destruct (f c ip) as [owner c1] eqn:Hf. simpl in *. rewrite !bool_decide_eq_false_2 by done.
      fold l0. rewrite reassign_allowed by done. reflexivity.
    + lia.
    + lia.
    + apply publish_wf, map_Forall_insert_2; auto with mesh.
    + intros j Hj. simpl. by rewrite lookup_insert_ne.
    + intros Hn. by destruct (Hn Ho).
    + intros _. simpl. rewrite lookup_insert_eq. eexists. split; [done|]. unfold next_entry.
      destruct (lg_entries l0 !! ip); [|done]. simpl in *. naive_solver.
  - exists 0, l0, ns. split_and!; [|lia|lia|done|done|done|done].
    rewrite Z.add_0_r. by apply Drain_respects.
Qed.

Lemma drain_loop_interference owned : ∀ n c l ns,
  ledger_wf l → Forall (λ e, is_ipv4 (oe_OverlayIP e) = true) owned → NoDup (oe_OverlayIP <$> owned) →
  ∃ k c' l' ns', drain_loop clock env source reason (Some f) owned n c l ns = ((n + k, None), c', l', ns') ∧
    0 ≤ k ≤ Z.of_nat (length owned) ∧ ledger_wf l' ∧
    (∀ ip P, others_keep env ip P → ip ∉ oe_OverlayIP <$> owned →
       P (lg_entries l !! ip) → P (lg_entries l' !! ip)) ∧
    (∀ ip P, others_keep env ip P → (∀ x, P x → not_owned_by source x) →
       P (lg_entries l !! ip) ∨ ip ∈ oe_OverlayIP <$> owned ∧ (∀ x, P (lg_entries (env ip x) !! ip)) →
       P (lg_entries l' !! ip)) ∧
    (∀ ip, (∀ k x, lg_entries (env k x) !! ip = lg_entries x !! ip) → ip ∈ oe_OverlayIP <$> owned →
       ¬ not_owned_by source (lg_entries l !! ip) →
       ∃ e' c0, lg_entries l' !! ip = Some e' ∧ oe_OwningMaster e' = (f c0 ip).1 ∧ oe_PreviousOwner e' = source).
Proof using Henv Hchoice.
  induction owned as [|e owned IH]; intros n c l ns Hwf Hip Hnd.
  { exists 0, c, l, ns. rewrite Z.add_0_r. split_and!; [done|lia|done|done|done| |].
    - intros ip P _ _ [H|[H _]]; [done|]. by apply not_elem_of_nil in H.
    - intros ip _ H. by apply not_elem_of_nil in H. }
  apply Forall_cons in Hip as [Hip1 Hip]. rewrite fmap_cons in Hnd |- *. apply NoDup_cons in Hnd as [Hnin Hnd].
  destruct (drain_turn e owned n c l ns Hwf Hip1) as (k1 & l1 & ns1 & -> & Hk1 & Hwf1 & Hother & Hkeep & Hmove).
  destruct (IH (n + k1) (f c (oe_OverlayIP e)).2 l1 ns1 Hwf1 Hip Hnd)
    as (k & c' & l' & ns' & -> & Hk & Hwf' & Hskip & Hprot & Hmoved).
  exists (k1 + k), c', l', ns'. split_and!; [by rewrite Z.add_assoc|lia|simpl; lia|done|..].
  - intros ip P HP Hni H0. apply not_elem_of_cons in Hni as [Hne Hni].
    apply Hskip; [done..|]. rewrite Hother by done. by apply HP.
  - intros ip P HP Hexcl H. apply Hprot; [done..|].
    destruct (decide (ip = oe_OverlayIP e)) as [->|Hne].
    + left. assert (P (lg_entries (env (oe_OverlayIP e) l) !! oe_OverlayIP e)) as H0
        by (destruct H as [H|[_ H]]; auto).
      rewrite Hkeep; auto.
    + destruct H as [H|[H H0]]; [left; rewrite Hother by done; by apply HP|].
      apply elem_of_cons in H as [H|H]; [done|]. by right.
  - intros ip Hun Hin Hsrc. destruct (decide (ip = oe_OverlayIP e)) as [->|Hne].
    + destruct Hmove as (e' & He' & Ho' & Hp'); [by rewrite Hun|].
      exists e', c. split_and!; [|done|done].
      apply (Hskip (oe_OverlayIP e) (λ x, x = Some e')); [|done|done].
      intros k0 x. by rewrite Hun.
    + apply elem_of_cons in Hin as [Hin|Hin]; [done|]. apply Hmoved; [done..|].
      by rewrite Hother, Hun.
Qed.
End interference.

(** C8. Draining is safe while other calls run: whatever other goroutines do to the
    ledger between the steps of [Drain] (as long as they leave it well formed), with a
    chooser that names masters other than the source,
    - it ends without an error, reports at most as many moves as the source owned
      entries, and leaves the ledger well formed;
    - an overlay of the source that nobody else touches goes to a chosen master, with
      the source as its previous owner;
    - a fact about the entry of an overlay that says it is not the source's, and that the
      others keep, survives the drain - also when the others establish it only just
      before the turn of that overlay: what another call has taken is never taken back;
    - an overlay that was not the source's when the list was made is never written: any
      fact about its entry that the others keep survives. *)
Theorem drain_under_interference {C} clock env source reason (f : C → string → string * C) c l :
  ledger_wf l → (∀ k l, ledger_wf l → ledger_wf (env k l)) →
  (∀ c ip, (f c ip).1 ≠ "" ∧ (f c ip).1 ≠ source) →
  let '((n, err), _, l', _) := Drain clock env source reason (Some f) c l in
  err = None ∧ 0 ≤ n ≤ Z.of_nat (length (OwnedBy l source)) ∧ ledger_wf l' ∧
  (∀ ip e, lg_entries l !! ip = Some e → oe_OwningMaster e = source →
     (∀ k x, lg_entries (env k x) !! ip = lg_entries x !! ip) →
     ∃ e' c0, lg_entries l' !! ip = Some e' ∧ oe_OwningMaster e' = (f c0 ip).1 ∧ oe_PreviousOwner e' = source) ∧
  (∀ ip P, others_keep env ip P → (∀ x, P x → not_owned_by source x) →
     P (lg_entries l !! ip) ∨
       ¬ not_owned_by source (lg_entries l !! ip) ∧ (∀ x, P (lg_entries (env ip x) !! ip)) →
     P (lg_entries l' !! ip)) ∧
  (∀ ip P, others_keep env ip P → not_owned_by source (lg_entries l !! ip) →
     P (lg_entries l !! ip) → P (lg_entries l' !! ip)).
Proof.
  intros Hwf Henv Hch.
  assert (∀ ip, ip ∈ oe_OverlayIP <$> OwnedBy l source ↔ ¬ not_owned_by source (lg_entries l !! ip)) as Hkeys.
  { intros ip. unfold not_owned_by. rewrite list_elem_of_fmap. split.
    - intros (e & -> & [He <-]%elem_of_OwnedBy) H; [|done]. apply H. by rewrite He.
    - intros H. apply dec_stable in H. destruct (lg_entries l !! ip) as [e|] eqn:He; [|done].
      injection H as H. pose proof (ew_ip _ _ (Hwf _ _ He)) as Hi. exists e. split; [done|].
      apply elem_of_OwnedBy; [done|]. by rewrite Hi. }
  destruct (drain_loop_interference clock env source reason f Henv Hch (OwnedBy l source) 0 c l [])
    as (k & c' & l' & ns & Hd & Hk & Hwf' & Hskip & Hprot & Hmoved); [done| |by apply OwnedBy_keys_NoDup|].
  { apply Forall_forall. intros e [He _]%elem_of_OwnedBy; [|done]. apply (ew_ipv4 _ _ (Hwf _ _ He)). }
  unfold Drain. rewrite Hd. split_and!; [done|lia|lia|done|..].
  - intros ip e He Hs Hun.
    assert (¬ not_owned_by source (lg_entries l !! ip)) as Hn
      by (rewrite He; intros H; apply H; simpl; by rewrite Hs).
    apply Hmoved; [done|by apply Hkeys|done].
  - intros ip P HP Hx [H|[H H0]]; apply Hprot; auto. right. split; [by apply Hkeys|done].
  - intros ip P HP Hn H. apply Hskip; [done| |done]. intros Hin. apply Hkeys in Hin. by apply Hin.
Qed.

Definition two_of_m2 : Ledger :=
  (run_ops [OpReassign 5 "10.0.0.1" "" "m2" "register" false; OpReassign 6 "10.0.0.2" "" "m2" "register" false;
            OpReassign 7 "10.0.0.3" "" "m1" "register" false] NewLedger).1.
(** Another call pins one of the two overlays to [m4] while the drain runs. *)
Definition pin_second (k : string) (l : Ledger) : Ledger :=
  if bool_decide (k = "10.0.0.2") then (Reassign 8 "10.0.0.2" "m4" "operator-pinned" l).1.2 else l.

Lemma drain_under_interference_witness :
  let '((n, err), _, l', _) := Drain (λ _, 9) pin_second "m2" "drain" (Some (λ (c : nat) _, ("m3", S c))) 0%nat two_of_m2 in
  err = None ∧ ledger_wf l' ∧ n = 1 ∧
  oe_OwningMaster <$> lg_entries l' !! "10.0.0.1" = Some "m3" ∧
  oe_OwningMaster <$> lg_entries l' !! "10.0.0.2" = Some "m4".
Proof.
  assert (∀ k l ip, ip ≠ "10.0.0.2" → lg_entries (pin_second k l) !! ip = lg_entries l !! ip) as Hother.
  { intros k l ip Hne. unfold pin_second. case_bool_decide; [|done]. unfold Reassign. rewrite reassign_allowed by reflexivity.
    simpl. by rewrite lookup_insert_ne. }
  assert (∀ l, oe_OwningMaster <$> lg_entries (pin_second "10.0.0.2" l) !! "10.0.0.2" = Some "m4") as Hpin.
  { intros l. unfold pin_second. rewrite bool_decide_eq_true_2 by done. unfold Reassign. rewrite reassign_allowed by reflexivity.
    simpl. rewrite lookup_insert_eq. simpl. by rewrite owners_next_entry. }
  assert ((Drain (λ _, 9) pin_second "m2" "drain" (Some (λ (c : nat) _, ("m3", S c))) 0%nat two_of_m2).1.1.1.1 = 1) as Hn
    by (vm_compute; reflexivity).
  pose proof (drain_under_interference (λ _, 9) pin_second "m2" "drain" (λ (c : nat) _, ("m3", S c)) 0%nat two_of_m2) as H.
  destruct (Drain _ _ _ _ _ _ _) as [[[[n err] c'] l'] ns]. simpl in Hn.
  destruct H as (He & _ & Hwf & Hmoved & Hprot & _).
  - apply run_ops_wf, NewLedger_wf.
  - intros k l Hl. unfold pin_second. case_bool_decide; [|done]. unfold Reassign.
    rewrite reassign_allowed by reflexivity. apply publish_wf, map_Forall_insert_2; [|done]. by apply next_entry_wf.
  - intros c ip. split; discriminate.
  - split_and!; [done|done|done| |].
    + destruct (lg_entries two_of_m2 !! "10.0.0.1") as [e|] eqn:Ee; [|vm_compute in Ee; discriminate].
      destruct (Hmoved "10.0.0.1" e Ee) as (e' & c0 & -> & Ho & _).
      * vm_compute in Ee. by injection Ee as <-.
      * intros k x. by apply Hother.
      * simpl. by rewrite Ho.
    + apply (Hprot "10.0.0.2" (λ x, oe_OwningMaster <$> x = Some "m4")).
      * intros k x Hx. unfold pin_second. destruct (bool_decide_reflect (k = "10.0.0.2")) as [->|]; [|done].
        pose proof (Hpin x) as Hp. unfold pin_second in Hp. by rewrite bool_decide_eq_true_2 in Hp.
      * intros x Hx. unfold not_owned_by. rewrite Hx. discriminate.
      * right. split; [|exact Hpin]. intros Hc. apply Hc. vm_compute. reflexivity.
Defined.
