(* ===== verification/Registry.v ===== *)
(** * The identity registry ([src/pkg/control_plane/registry.go])

    The nodes that registered with the control plane, indexed by name and by
    overlay IP. The invariant [registry_wf] makes the two indexes inverse to each
    other; the safety properties are certificate pinning and the immobility of a
    node's overlay IP. *)

From S2P Require Import Prelude GoStrings Role.
From S2P Require Import Ledger.

Record RegisteredNode := MkNode {
  rn_Name : string;
  rn_Roles : list Role;
  rn_OverlayIP : string;
  rn_Region : string;
  rn_NodeCertPEM : string;             (* []byte *)
  rn_PendingCertPEM : string;          (* []byte, nil is empty *)
  rn_CertOverlapUntil : time;
  rn_NodeVersion : string;
  rn_RegisteredAt : time;
  rn_LastHeartbeatAt : time;
  rn_HealthIndicators : option (gmap string string);   (* nil map is None *)
  rn_Pubkey : string;                  (* []byte *)
  rn_EndpointHost : string;
  rn_Protocol : string
}.

#[global] Instance RegisteredNode_eq_dec : EqDecision RegisteredNode.
Proof. solve_decision. Defined.

Inductive registry_error :=
  | ErrRegistryEmptyName
  | ErrRegistryEmptyRoles
  | ErrRegistryRoles (e : role_error)
  | ErrRegistryNoCert
  | ErrRegistryNoOverlay (name : string)
  | ErrRegistryNotFound
  | ErrRegistryOverlayDup (ip existing : string)
  | ErrRegistryNameDup
  | ErrRegistryOverlayMove (from to : string)
  | ErrRegistryPendingCert
  | ErrRegistryOverlap.

Record Registry := MkRegistry {
  rg_byName : gmap string RegisteredNode;
  rg_byOverlay : gmap string string
}.

Definition NewRegistry : Registry := MkRegistry ∅ ∅.

(** [time.Time.After] *)
Definition After (a b : time) : bool := b <? a.
Definition IsZero (t : time) : bool := t =? 0.

(** Byte slices of equal length that agree everywhere are equal. *)
Definition certBytesEqual (a b : string) : bool := bool_decide (a = b).

Definition canPromotePendingCert (prev : RegisteredNode) (certPEM : string) (now : time) : bool :=
  if bool_decide (rn_PendingCertPEM prev = "") || negb (certBytesEqual (rn_PendingCertPEM prev) certPEM)
  then false
  else if IsZero (rn_CertOverlapUntil prev) || negb (After (rn_CertOverlapUntil prev) now)
  then false else true.

(** [hasActivePendingCert] (cert_lifecycle.go). *)
Definition hasActivePendingCert (node : RegisteredNode) (now : time) : bool :=
  if bool_decide (rn_PendingCertPEM node = "") then false
  else negb (IsZero (rn_CertOverlapUntil node)) && After (rn_CertOverlapUntil node) now.

(** [cloneRegisteredNode] copies the slices and the map: the identity on values. *)
Definition cloneRegisteredNode (n : RegisteredNode) : RegisteredNode := n.

Definition set_cert_rollover (pending : string) (until : time) (n : RegisteredNode) : RegisteredNode :=
  MkNode (rn_Name n) (rn_Roles n) (rn_OverlayIP n) (rn_Region n) (rn_NodeCertPEM n)
    pending until (rn_NodeVersion n) (rn_RegisteredAt n) (rn_LastHeartbeatAt n)
    (rn_HealthIndicators n) (rn_Pubkey n) (rn_EndpointHost n) (rn_Protocol n).

Definition or_else (x y : string) : string := if bool_decide (x = "") then y else x.

(** What re-registration keeps of the previous record. *)
Definition inherit (prev node : RegisteredNode) : RegisteredNode :=
  MkNode (rn_Name node) (rn_Roles node) (rn_OverlayIP node) (rn_Region node) (rn_NodeCertPEM node)
    (rn_PendingCertPEM node) (rn_CertOverlapUntil node) (rn_NodeVersion node)
    (rn_RegisteredAt prev) (rn_LastHeartbeatAt node) (rn_HealthIndicators node)
    (or_else (rn_Pubkey node) (rn_Pubkey prev))
    (or_else (rn_EndpointHost node) (rn_EndpointHost prev))
    (or_else (rn_Protocol node) (rn_Protocol prev)).

Definition set_registered_at (t : time) (n : RegisteredNode) : RegisteredNode :=
  MkNode (rn_Name n) (rn_Roles n) (rn_OverlayIP n) (rn_Region n) (rn_NodeCertPEM n)
    (rn_PendingCertPEM n) (rn_CertOverlapUntil n) (rn_NodeVersion n) t (rn_LastHeartbeatAt n)
    (rn_HealthIndicators n) (rn_Pubkey n) (rn_EndpointHost n) (rn_Protocol n).

Definition Register (now : time) (node : RegisteredNode) (r : Registry) : res registry_error Registry :=
  if bool_decide (rn_Name node = "") then Err ErrRegistryEmptyName else
  if bool_decide (length (rn_Roles node) = 0%nat) then Err ErrRegistryEmptyRoles else
  let! _ := wrap_err ErrRegistryRoles (ValidateComposability (rn_Roles node)) in
  if bool_decide (rn_NodeCertPEM node = "") then Err ErrRegistryNoCert else
  if bool_decide (rn_OverlayIP node = "") then Err (ErrRegistryNoOverlay (rn_Name node)) else
  let node := set_cert_rollover "" 0 node in
  let! _ := match rg_byOverlay r !! rn_OverlayIP node with
            | Some existing =>
                if bool_decide (existing ≠ rn_Name node)
                then Err (ErrRegistryOverlayDup (rn_OverlayIP node) existing) else Ok ()
            | None => Ok ()
            end in
  let! node :=
    match rg_byName r !! rn_Name node with
    | Some prev =>
        let! node :=
          if certBytesEqual (rn_NodeCertPEM prev) (rn_NodeCertPEM node)
          then Ok (set_cert_rollover (rn_PendingCertPEM prev) (rn_CertOverlapUntil prev) node)
          else if canPromotePendingCert prev (rn_NodeCertPEM node) now
          then Ok (set_cert_rollover "" 0 node)
          else Err ErrRegistryNameDup in
        if bool_decide (rn_OverlayIP prev ≠ rn_OverlayIP node)
        then Err (ErrRegistryOverlayMove (rn_OverlayIP prev) (rn_OverlayIP node))
        else Ok (inherit prev node)
    | None => Ok (set_registered_at now node)
    end in
  let stored := cloneRegisteredNode node in
  Ok (MkRegistry (<[rn_Name node := stored]> (rg_byName r))
                 (<[rn_OverlayIP node := rn_Name node]> (rg_byOverlay r))).

(** The callers below update the stored record in place. *)
Definition update_node (name : string) (n : RegisteredNode) (r : Registry) : Registry :=
  MkRegistry (<[name := n]> (rg_byName r)) (rg_byOverlay r).

Definition AllowCertRollover (now : time) (name certPEM : string) (overlapUntil : time) (r : Registry)
    : res registry_error Registry :=
  if bool_decide (name = "") then Err ErrRegistryEmptyName else
  if bool_decide (certPEM = "") then Err ErrRegistryNoCert else
  if IsZero overlapUntil || negb (After overlapUntil now) then Err ErrRegistryOverlap else
  match rg_byName r !! name with
  | None => Err ErrRegistryNotFound
  | Some node =>
      if hasActivePendingCert node now && negb (certBytesEqual (rn_PendingCertPEM node) certPEM)
      then Err ErrRegistryPendingCert
      else Ok (update_node name (set_cert_rollover certPEM overlapUntil node) r)
  end.

Definition ClearCertRollover (name certPEM : string) (r : Registry) : res registry_error Registry :=
  if bool_decide (name = "") then Err ErrRegistryEmptyName else
  match rg_byName r !! name with
  | None => Err ErrRegistryNotFound
  | Some node =>
      if bool_decide (certPEM ≠ "") && negb (certBytesEqual (rn_PendingCertPEM node) certPEM)
      then Ok r
      else Ok (update_node name (set_cert_rollover "" 0 node) r)
  end.

Definition heartbeat_node (now : time) (health : option (gmap string string))
    (pubkey endpointHost protocol : string) (n : RegisteredNode) : RegisteredNode :=
  MkNode (rn_Name n) (rn_Roles n) (rn_OverlayIP n) (rn_Region n) (rn_NodeCertPEM n)
    (rn_PendingCertPEM n) (rn_CertOverlapUntil n) (rn_NodeVersion n) (rn_RegisteredAt n)
    now (match health with Some h => Some h | None => rn_HealthIndicators n end)
    (or_else pubkey (rn_Pubkey n)) (or_else endpointHost (rn_EndpointHost n))
    (or_else protocol (rn_Protocol n)).

Definition registry_Heartbeat (now : time) (name : string) (health : option (gmap string string))
    (pubkey endpointHost protocol : string) (r : Registry) : res registry_error Registry :=
  match rg_byName r !! name with
  | None => Err ErrRegistryNotFound
  | Some n => Ok (update_node name (heartbeat_node now health pubkey endpointHost protocol n) r)
  end.

Definition registry_Lookup (r : Registry) (name : string) : option RegisteredNode :=
  cloneRegisteredNode <$> rg_byName r !! name.

Definition registry_List (r : Registry) : list RegisteredNode :=
  sort_by rn_Name (cloneRegisteredNode <$> (map_to_list (rg_byName r)).*2).

(** [slices.Contains(n.Roles, role.RoleMaster)] *)
Definition is_master (n : RegisteredNode) : bool := bool_decide (RoleMaster ∈ rn_Roles n).

Definition MastersInRegion (r : Registry) (region : string) : list string :=
  sort_by id (rn_Name <$>
    filter (λ n, (region = "" ∨ rn_Region n = region) ∧ is_master n = true)
      ((map_to_list (rg_byName r)).*2)).

Definition registry_Remove (name : string) (r : Registry) : res registry_error Registry :=
  match rg_byName r !! name with
  | None => Err ErrRegistryNotFound
  | Some n => Ok (MkRegistry (delete name (rg_byName r)) (delete (rn_OverlayIP n) (rg_byOverlay r)))
  end.

(** ** The invariant *)

Record node_ok (name : string) (n : RegisteredNode) : Prop := {
  no_name : rn_Name n = name;
  no_nonempty : name ≠ "";
  no_roles : composable (rn_Roles n);
  no_cert : rn_NodeCertPEM n ≠ "";
  no_overlay : rn_OverlayIP n ≠ ""
}.

(** The indexes are inverse to each other. *)
Record registry_wf (r : Registry) : Prop := {
  rw_nodes : map_Forall node_ok (rg_byName r);
  rw_index : ∀ name n, rg_byName r !! name = Some n →
    rg_byOverlay r !! rn_OverlayIP n = Some name;
  rw_names : ∀ ip name, rg_byOverlay r !! ip = Some name →
    ∃ n, rg_byName r !! name = Some n ∧ rn_OverlayIP n = ip
}.

Lemma NewRegistry_wf : registry_wf NewRegistry.
Proof. constructor; [apply map_Forall_empty|..]; intros ??; simpl; rewrite lookup_empty; done. Qed.

(** Two records with the same identity: what the index and the pinning depend on. *)
Definition same_identity (n n' : RegisteredNode) : Prop :=
  rn_Name n = rn_Name n' ∧ rn_Roles n = rn_Roles n' ∧ rn_OverlayIP n = rn_OverlayIP n' ∧
  rn_NodeCertPEM n = rn_NodeCertPEM n'.

Lemma update_node_wf name n n' r :
  registry_wf r → rg_byName r !! name = Some n → same_identity n n' →
  registry_wf (update_node name n' r).
Proof.
  intros [Hn Hi Hs] Hname (E1 & E2 & E3 & E4). constructor; simpl.
  - apply map_Forall_insert_2; [|done]. destruct (Hn _ _ Hname).
    constructor; congruence.
  - intros x m. rewrite lookup_insert_Some. intros [[<- <-]|[_ Hx]]; [|by apply Hi].
    rewrite <- E3. by apply Hi.
  - intros ip x Hx. apply Hs in Hx as (m & Hm & <-).
    destruct (decide (name = x)) as [<-|Hne].
    + exists n'. rewrite lookup_insert_eq. split; [done|]. congruence.
    + exists m. by rewrite lookup_insert_ne.
Qed.

(** Two names never share an overlay IP. *)
Lemma overlay_unique r a b n m :
  registry_wf r → rg_byName r !! a = Some n → rg_byName r !! b = Some m →
  rn_OverlayIP n = rn_OverlayIP m → a = b.
Proof.
  intros Hwf Ha Hb He. apply (rw_index _ Hwf) in Ha, Hb. rewrite He in Ha. congruence.
Qed.

(** What a successful registration stores, and when it succeeds. *)
Definition registered (now : time) (node : RegisteredNode) (prev : option RegisteredNode) : RegisteredNode :=
  match prev with
  | None => set_registered_at now (set_cert_rollover "" 0 node)
  | Some p =>
      if certBytesEqual (rn_NodeCertPEM p) (rn_NodeCertPEM node)
      then inherit p (set_cert_rollover (rn_PendingCertPEM p) (rn_CertOverlapUntil p) node)
      else inherit p (set_cert_rollover "" 0 node)
  end.

Record may_register (now : time) (node : RegisteredNode) (r : Registry) : Prop := {
  mr_ok : node_ok (rn_Name node) node;
  mr_overlay : ∀ other, rg_byOverlay r !! rn_OverlayIP node = Some other → other = rn_Name node;
  mr_prev : ∀ p, rg_byName r !! rn_Name node = Some p →
    rn_OverlayIP p = rn_OverlayIP node ∧
    (rn_NodeCertPEM p = rn_NodeCertPEM node ∨ canPromotePendingCert p (rn_NodeCertPEM node) now = true)
}.

Lemma Register_spec now node r r' :
  Register now node r = Ok r' ↔
  may_register now node r ∧
  r' = MkRegistry (<[rn_Name node := registered now node (rg_byName r !! rn_Name node)]> (rg_byName r))
                  (<[rn_OverlayIP node := rn_Name node]> (rg_byOverlay r)).
Proof.
  unfold Register, registered, certBytesEqual, cloneRegisteredNode. split.
  - intros H. inv_res. destruct a. apply composable_iff in Ha. bool_to_prop. simpl in *.
    assert (∀ other, rg_byOverlay r !! rn_OverlayIP node = Some other → other = rn_Name node) as Hov.
    { intros other Ho. rewrite Ho in Ha0. inv_res. bool_to_prop. by apply dec_stable. }
    destruct (rg_byName r !! rn_Name node) as [p|] eqn:Hp.
    + inv_res. bool_to_prop. case_bool_decide as He; inv_res; simpl in *; (split; [|done]);
        (constructor; [done|done|]); intros p' Hp'; simplify_eq; (split; [by apply dec_stable|tauto]).
    + inv_res. split; [|done]. constructor; [done|done|]. congruence.
  - intros [[[Hn1 Hn2 Hroles Hcert Hoverlay] Hov Hprev] ->].
    rewrite bool_decide_eq_false_2 by done.
    rewrite bool_decide_eq_false_2 by (destruct Hroles as [? _]; by destruct (rn_Roles node)).
    apply composable_iff in Hroles as ->. simpl.
    rewrite !(bool_decide_eq_false_2 (_ = "")) by done.
    assert ((match rg_byOverlay r !! rn_OverlayIP node with
            | Some existing =>
                if bool_decide (existing ≠ rn_Name node)
                then Err (ErrRegistryOverlayDup (rn_OverlayIP node) existing) else Ok ()
            | None => Ok ()
            end) = @Ok registry_error () ()) as ->.
    { destruct (rg_byOverlay r !! rn_OverlayIP node) as [o|] eqn:Ho; [|done].
      by rewrite (Hov o), bool_decide_eq_false_2 by naive_solver. }
    simpl. destruct (rg_byName r !! rn_Name node) as [p|] eqn:Hp; [|done].
    destruct (Hprev p) as [Hip Hc]; [done|]. case_bool_decide as He; simpl.
    + by rewrite bool_decide_eq_false_2 by naive_solver.
    + destruct Hc as [Hc| ->]; [done|]. simpl.
      by rewrite bool_decide_eq_false_2 by naive_solver.
Qed.

Lemma registered_identity now node prev : same_identity (registered now node prev) node.
Proof. unfold registered. destruct prev; [destruct (certBytesEqual _ _)|]; done. Qed.

Lemma registered_pubkey now node prev : rn_Pubkey node ≠ "" → rn_Pubkey (registered now node prev) = rn_Pubkey node.
Proof. intros H. unfold registered. destruct prev; [destruct (certBytesEqual _ _)|]; cbn; unfold or_else; by rewrite ?bool_decide_eq_false_2. Qed.

Lemma Register_wf now node r r' : registry_wf r → Register now node r = Ok r' → registry_wf r'.
Proof.
  intros Hwf [[Hok Hov Hprev] ->]%Register_spec.
  pose proof (registered_identity now node (rg_byName r !! rn_Name node)) as (E1 & E2 & E3 & E4).
  set (s := registered _ _ _) in *. destruct Hwf as [Hn Hi Hs]. constructor; simpl.
  - apply map_Forall_insert_2; [|done]. destruct Hok. constructor; congruence.
  - intros x m. rewrite lookup_insert_Some. intros [[<- <-]|[Hne Hx]].
    + rewrite E3. apply lookup_insert_eq.
    + rewrite lookup_insert_ne; [by apply Hi|]. intros He. apply Hi in Hx.
      rewrite <- He in Hx. apply Hov in Hx. done.
  - intros ip x. rewrite lookup_insert_Some. intros [[<- <-]|[Hne Hx]].
    + exists s. by rewrite lookup_insert_eq.
    + apply Hs in Hx as (m & Hm & <-). destruct (decide (x = rn_Name node)) as [->|].
      * destruct (Hprev m Hm) as [He _]. congruence.
      * exists m. by rewrite lookup_insert_ne.
Qed.

Lemma Remove_wf name r r' : registry_wf r → registry_Remove name r = Ok r' → registry_wf r'.
Proof.
  unfold registry_Remove. intros Hwf H.
  destruct (rg_byName r !! name) as [n|] eqn:Hname; [|done]. inv_res.
  pose proof Hwf as [Hn Hi Hs]. constructor; simpl.
  - by apply map_Forall_delete.
  - intros x m [Hne Hx]%lookup_delete_Some. rewrite lookup_delete_ne; [by apply Hi|].
    intros He. apply Hne. by eapply overlay_unique.
  - intros ip x [Hne Hx]%lookup_delete_Some. apply Hs in Hx as (m & Hm & <-).
    exists m. split; [|done]. rewrite lookup_delete_ne; [done|]. intros ->. congruence.
Qed.

Lemma AllowCertRollover_wf now name cert until r r' :
  registry_wf r → AllowCertRollover now name cert until r = Ok r' → registry_wf r'.
Proof.
  unfold AllowCertRollover. intros Hwf H. inv_res.
  destruct (rg_byName r !! name) as [n|] eqn:Hname; [|done]. inv_res.
  by eapply update_node_wf.
Qed.

Lemma ClearCertRollover_wf name cert r r' :
  registry_wf r → ClearCertRollover name cert r = Ok r' → registry_wf r'.
Proof.
  unfold ClearCertRollover. intros Hwf H. inv_res.
  destruct (rg_byName r !! name) as [n|] eqn:Hname; [|done].
  destruct (_ && _); inv_res; [done|]. by eapply update_node_wf.
Qed.

Lemma Heartbeat_wf now name h pk ep proto r r' :
  registry_wf r → registry_Heartbeat now name h pk ep proto r = Ok r' → registry_wf r'.
Proof.
  unfold registry_Heartbeat. intros Hwf H.
  destruct (rg_byName r !! name) as [n|] eqn:Hname; [|done]. inv_res.
  by eapply update_node_wf.
Qed.
#[export] Hint Resolve Register_wf Remove_wf AllowCertRollover_wf ClearCertRollover_wf
  Heartbeat_wf NewRegistry_wf : mesh.

(** ** Sequences of operations *)

Inductive registry_op :=
  | RRegister (now : time) (node : RegisteredNode)
  | RAllow (now : time) (name cert : string) (until : time)
  | RClear (name cert : string)
  | RHeartbeat (now : time) (name : string) (health : option (gmap string string))
      (pubkey endpoint protocol : string)
  | RRemove (name : string).

Definition reg_op (op : registry_op) (r : Registry) : res registry_error Registry :=
  match op with
  | RRegister now node => Register now node r
  | RAllow now name cert until => AllowCertRollover now name cert until r
  | RClear name cert => ClearCertRollover name cert r
  | RHeartbeat now name h pk ep proto => registry_Heartbeat now name h pk ep proto r
  | RRemove name => registry_Remove name r
  end.

(** An operation that fails leaves the registry as it was. *)
Definition run_reg (ops : list registry_op) (r : Registry) : Registry :=
  foldl (λ r op, match reg_op op r with Ok r' => r' | Err _ => r end) r ops.

Lemma reg_op_wf op r r' : registry_wf r → reg_op op r = Ok r' → registry_wf r'.
Proof. destruct op; simpl; eauto with mesh. Qed.

Lemma run_reg_wf ops r : registry_wf r → registry_wf (run_reg ops r).
Proof.
  unfold run_reg. revert r. induction ops as [|op ops IH]; intros r Hwf; simpl; [done|].
  apply IH. destruct (reg_op op r) eqn:H; [by eapply reg_op_wf|done].
Qed.

(** In every registry reachable from the empty one the two indexes are
    inverse to each other: each node is filed under its own name with a
    composable role list, a certificate and an overlay IP, and two different
    nodes never share an overlay IP. *)
Theorem registry_reachable_wf ops :
  registry_wf (run_reg ops NewRegistry) ∧
  ∀ a b n m, rg_byName (run_reg ops NewRegistry) !! a = Some n →
    rg_byName (run_reg ops NewRegistry) !! b = Some m →
    rn_OverlayIP n = rn_OverlayIP m → a = b.
Proof.
  assert (registry_wf (run_reg ops NewRegistry)) by auto using run_reg_wf with mesh.
  split; [done|]. eauto using overlay_unique.
Qed.

(** ** Certificate pinning *)

(** The operations that may change who holds the identity [name]. *)
Definition touches_identity (name : string) (op : registry_op) : Prop :=
  match op with
  | RAllow _ x _ _ | RRemove x => x = name
  | _ => False
  end.

(** [name] is held with certificate [cert] and no rollover is pending. *)
Definition pinned (name cert : string) (r : Registry) : Prop :=
  ∃ n, rg_byName r !! name = Some n ∧ rn_NodeCertPEM n = cert ∧ rn_PendingCertPEM n = "".

Lemma pinned_update name cert x n r :
  pinned name cert r →
  (x = name → rn_NodeCertPEM n = cert ∧ rn_PendingCertPEM n = "") →
  pinned name cert (update_node x n r).
Proof.
  intros (m & Hm & Hc & Hp) Hx. unfold pinned. simpl.
  destruct (decide (x = name)) as [->|Hne].
  - exists n. rewrite lookup_insert_eq. split; [done|]. by apply Hx.
  - exists m. by rewrite lookup_insert_ne.
Qed.

Lemma pinned_Register name cert now node r r' :
  pinned name cert r → Register now node r = Ok r' → pinned name cert r'.
Proof.
  intros (m & Hm & Hc & Hp) [[_ _ Hprev] ->]%Register_spec. unfold pinned. simpl.
  destruct (decide (rn_Name node = name)) as [He|Hne].
  - rewrite He in *. rewrite lookup_insert_eq. eexists. split; [done|].
    rewrite Hm. destruct (Hprev m Hm) as [_ [Heq|Hprom]].
    + unfold registered, certBytesEqual. rewrite bool_decide_eq_true_2 by done.
      simpl. by rewrite <- Heq.
    + unfold canPromotePendingCert in Hprom. by rewrite bool_decide_eq_true_2 in Hprom.
  - exists m. by rewrite lookup_insert_ne.
Qed.

Lemma pinned_step name cert op r r' :
  ¬ touches_identity name op → pinned name cert r → reg_op op r = Ok r' → pinned name cert r'.
Proof.
  intros Ht Hpin H. destruct op as [now node|now x c u|x c|now x h pk ep pr|x]; simpl in *.
  - by eapply pinned_Register.
  - unfold AllowCertRollover in H. inv_res. destruct (rg_byName r !! x) as [n|]; [|done]. inv_res.
    by apply pinned_update.
  - unfold ClearCertRollover in H. inv_res.
    destruct (rg_byName r !! x) as [n|] eqn:Hx; [|done].
    destruct (_ && _); inv_res; [done|]. apply pinned_update; [done|]. intros ->.
    destruct Hpin as (m & Hm & Em & Ep). simplify_eq. done.
  - unfold registry_Heartbeat in H. destruct (rg_byName r !! x) as [n|] eqn:Hx; [|done]. inv_res.
    apply pinned_update; [done|]. intros ->. destruct Hpin as (m & Hm & Em & Ep). simplify_eq. done.
  - unfold registry_Remove in H. destruct (rg_byName r !! x) as [n|]; [|done]. inv_res.
    destruct Hpin as (m & Hm & Em & Ep). exists m. simpl. by rewrite lookup_delete_ne.
Qed.

(** C3. Certificate pinning: once a node holds its name with a certificate and no
    rollover pending, no sequence of registrations, heartbeats, rollover
    clearings and operations on other nodes changes the certificate stored for
    it. Only [AllowCertRollover] or [Remove] on that very name can. *)
Theorem certificate_pinned name cert ops r :
  pinned name cert r → Forall (λ op, ¬ touches_identity name op) ops →
  pinned name cert (run_reg ops r).
Proof.
  unfold run_reg. intros Hpin Hf. revert r Hpin.
  induction Hf as [|op ops Hop _ IH]; intros r Hpin; simpl; [done|].
  apply IH. destruct (reg_op op r) eqn:H; [by eapply pinned_step|done].
Qed.

Definition demo_node (name ip cert : string) : RegisteredNode :=
  MkNode name [RoleMaster] ip "eu" cert "" 0 "v2" 0 0 None "" "" "".
Definition demo_registry : Registry :=
  run_reg [RRegister 10 (demo_node "m1" "10.0.0.1" "C1")] NewRegistry.

Lemma certificate_pinned_witness :
  pinned "m1" "C1" (run_reg [RRegister 11 (demo_node "m1" "10.0.0.1" "C2");
                             RRegister 12 (demo_node "m1" "10.0.0.1" "C1")] demo_registry).
Proof.
  apply (certificate_pinned "m1" "C1").
  - eexists. split; [vm_compute; reflexivity|done].
  - repeat constructor; simpl; tauto.
Defined.

(** The rollover protocol: a certificate allowed for a registered node with no
    other rollover active can be promoted by registering with it before the
    overlap ends, keeping the overlay IP and the original registration time and
    clearing the rollover; once the overlap has ended, registering with it is
    refused. *)
Theorem rollover_window r name cert until now later n node :
  registry_wf r → rg_byName r !! name = Some n →
  cert ≠ "" → cert ≠ rn_NodeCertPEM n → now < until → until ≠ 0 →
  hasActivePendingCert n now = false →
  rn_Name node = name → rn_NodeCertPEM node = cert → rn_OverlayIP node = rn_OverlayIP n →
  composable (rn_Roles node) →
  ∃ r1, AllowCertRollover now name cert until r = Ok r1 ∧
    if later <? until
    then ∃ r2 n2, Register later node r1 = Ok r2 ∧ rg_byName r2 !! name = Some n2 ∧
           rn_NodeCertPEM n2 = cert ∧ rn_PendingCertPEM n2 = "" ∧
           rn_OverlayIP n2 = rn_OverlayIP n ∧ rn_RegisteredAt n2 = rn_RegisteredAt n
    else ∃ e, Register later node r1 = Err e.
Proof.
  intros Hwf Hn Hc Hne Hu Hu0 Hact Hname Hcert Hip Hroles.
  pose proof (rw_nodes _ Hwf _ _ Hn) as [En Enz _ _ Eov].
  set (n1 := set_cert_rollover cert until n).
  assert (AllowCertRollover now name cert until r = Ok (update_node name n1 r)) as Hallow.
  { unfold AllowCertRollover, IsZero, After. rewrite !bool_decide_eq_false_2 by done.
    rewrite (proj2 (Z.eqb_neq until 0)), (proj2 (Z.ltb_lt now until)), Hn, Hact by done. done. }
  exists (update_node name n1 r). split; [done|].
  assert (∀ t, canPromotePendingCert n1 cert t = (t <? until)) as Hprom.
  { intros t. unfold canPromotePendingCert, certBytesEqual, IsZero, After. simpl.
    rewrite (bool_decide_eq_false_2 (cert = "")), (bool_decide_eq_true_2 (cert = cert)) by done.
    rewrite (proj2 (Z.eqb_neq until 0)) by done. simpl. by destruct (t <? until). }
  destruct (later <? until) eqn:Hl.
  - assert (may_register later node (update_node name n1 r)) as Hmay.
    { constructor; simpl; rewrite Hname.
      - constructor; congruence.
      - intros o Ho. rewrite Hip in Ho. pose proof (rw_index _ Hwf _ _ Hn). congruence.
      - intros p. rewrite lookup_insert_eq. intros [= <-]. split; [done|].
        right. by rewrite Hcert, Hprom. }
    eexists. exists (registered later node (Some n1)). split; [apply Register_spec; split; [done|reflexivity]|].
    simpl. rewrite Hname, !lookup_insert_eq.
    unfold registered, certBytesEqual. simpl.
    rewrite !(bool_decide_eq_false_2 (rn_NodeCertPEM n = rn_NodeCertPEM node)) by congruence.
    simpl. split_and!; congruence.
  - destruct (Register later node (update_node name n1 r)) as [r2|e] eqn:Hr; [|eauto].
    apply Register_spec in Hr as [[_ _ Hprev] _]. exfalso.
    destruct (Hprev n1) as [_ [Heq|Hp]]; [simpl; rewrite Hname; apply lookup_insert_eq|..].
    + simpl in Heq. congruence.
    + rewrite Hcert, Hprom in Hp. congruence.
Qed.

Lemma rollover_window_witness :
  ∃ r1, AllowCertRollover 20 "m1" "C2" 100 demo_registry = Ok r1 ∧
    ∃ r2 n2, Register 50 (demo_node "m1" "10.0.0.1" "C2") r1 = Ok r2 ∧
      rg_byName r2 !! "m1" = Some n2 ∧ rn_NodeCertPEM n2 = "C2".
Proof.
  destruct (rollover_window demo_registry "m1" "C2" 100 20 50
              (set_registered_at 10 (demo_node "m1" "10.0.0.1" "C1")) (demo_node "m1" "10.0.0.1" "C2"))
    as (r1 & H1 & r2 & n2 & H2 & H3 & H4 & _); try done.
  - apply run_reg_wf, NewRegistry_wf.
  - apply composable_iff. vm_compute. reflexivity.
  - eauto 10.
Defined.
