(* ===== verification/AuditTrail.v ===== *)
(** * The audit log ([src/pkg/control_plane/audit.go])

    A ring buffer of events. The abstract state is the list of the most recent
    [cap] events, oldest first ([contents]); [Append] is proved to push onto it and
    [Query] to filter and sort it. [sort.Slice] is not stable, so [Query] takes the
    sorting function as an argument with the laws of [SortSlice]: some sorted
    permutation. Formatted details are kept as the values they are formatted from,
    of a type [D] with the empty detail [d0]. *)

From S2P Require Import Prelude GoStrings.
From S2P Require Import Ledger Registry.

(** What [sort.Slice] promises of a comparison by a numeric key. *)
Class SortSlice {A : Type} (key : A → Z) (sorter : list A → list A) : Prop := {
  sort_slice_perm : ∀ l, sorter l ≡ₚ l;
  sort_slice_sorted : ∀ l, StronglySorted (λ x y, key x ≤ key y) (sorter l)
}.

(** Merge sort is one such function. *)
Section by_key.
Context {A : Type} (key : A → Z).
Definition num_le (x y : A) : Prop := key x ≤ key y.
#[global] Instance num_le_dec x y : Decision (num_le x y).
Proof. unfold num_le. apply _. Defined.
#[global] Instance num_le_trans : Transitive num_le.
Proof. intros ???. unfold num_le. lia. Qed.
#[global] Instance num_le_total : Total num_le.
Proof. intros ??. unfold num_le. lia. Qed.
Definition sort_num (l : list A) : list A := merge_sort num_le l.
#[global] Instance sort_num_spec : SortSlice key sort_num.
Proof.
  split; intros l.
  - apply merge_sort_Permutation.
  - apply (StronglySorted_merge_sort num_le).
Qed.
End by_key.

Record AuditEvent (D : Type) := MkEvent {
  ae_Timestamp : time;
  ae_EventType : string;
  ae_NodeName : string;
  ae_Detail : D;
  ae_Actor : string
}.
Arguments MkEvent {D}.
Arguments ae_Timestamp {D}.
Arguments ae_EventType {D}.
Arguments ae_NodeName {D}.
Arguments ae_Detail {D}.
Arguments ae_Actor {D}.

Record AuditLog (D : Type) := MkAuditLog {
  al_buf : list (AuditEvent D);
  al_cap : nat;
  al_cursor : nat;
  al_full : bool
}.
Arguments MkAuditLog {D}.
Arguments al_buf {D}.
Arguments al_cap {D}.
Arguments al_cursor {D}.
Arguments al_full {D}.

Section audit.
Context {D : Type} (d0 : D).
Implicit Types (a : AuditLog D) (e : AuditEvent D).

Definition zero_event : AuditEvent D := MkEvent 0 "" "" d0 "".

Definition NewAuditLog (capacity : Z) : AuditLog D :=
  let capacity := if capacity <=? 0 then 8192 else capacity in
  MkAuditLog (replicate (Z.to_nat capacity) zero_event) (Z.to_nat capacity) 0 false.

(** The timestamp is filled in when the caller left it zero. *)
Definition stamp (now : time) e : AuditEvent D :=
  if IsZero (ae_Timestamp e)
  then MkEvent now (ae_EventType e) (ae_NodeName e) (ae_Detail e) (ae_Actor e)
  else e.

Definition Append (now : time) e a : AuditLog D :=
  let cursor := ((al_cursor a + 1) mod al_cap a)%nat in
  MkAuditLog (<[al_cursor a := stamp now e]> (al_buf a)) (al_cap a) cursor
    (if bool_decide (cursor = 0%nat) then true else al_full a).

Definition Len a : nat := if al_full a then al_cap a else al_cursor a.

Definition matches e (since until : time) (eventType nodeName : string) : bool :=
  if negb (IsZero since) && (ae_Timestamp e <? since) then false
  else if negb (IsZero until) && (until <? ae_Timestamp e) then false
  else if bool_decide (eventType ≠ "") && bool_decide (ae_EventType e ≠ eventType) then false
  else if bool_decide (nodeName ≠ "") && bool_decide (ae_NodeName e ≠ nodeName) then false
  else true.

(** The events the two loops of [Query] collect, in visiting order. *)
Definition collect a (since until : time) (eventType nodeName : string) : list (AuditEvent D) :=
  if al_full a then
    omap (λ i, e ← al_buf a !! ((al_cursor a + i) mod al_cap a)%nat;
               if IsZero (ae_Timestamp e) then None
               else if matches e since until eventType nodeName then Some e else None)
         (seq 0 (al_cap a))
  else
    omap (λ i, e ← al_buf a !! i;
               if matches e since until eventType nodeName then Some e else None)
         (seq 0 (al_cursor a)).

Definition Query (sorter : list (AuditEvent D) → list (AuditEvent D)) a
    (since until : time) (eventType nodeName : string) (limit : Z) : list (AuditEvent D) :=
  let out := sorter (collect a since until eventType nodeName) in
  if (0 <? limit) && (limit <? Z.of_nat (length out)) then take (Z.to_nat limit) out else out.

(** ** The abstract log *)

(** The stored events, oldest first. *)
Definition contents a : list (AuditEvent D) :=
  if al_full a then drop (al_cursor a) (al_buf a) ++ take (al_cursor a) (al_buf a)
  else take (al_cursor a) (al_buf a).

Record audit_wf a : Prop := {
  aw_cap : (0 < al_cap a)%nat;
  aw_len : length (al_buf a) = al_cap a;
  aw_cursor : (al_cursor a < al_cap a)%nat;
  aw_stamped : Forall (λ e, ae_Timestamp e ≠ 0) (contents a)
}.

(** The last [n] elements of a list. *)
Definition last_n {A} (n : nat) (l : list A) : list A := drop (length l - n) l.

Lemma contents_length a : audit_wf a → length (contents a) = Len a.
Proof.
  intros [H1 H2 H3 _]. unfold contents, Len. destruct (al_full a).
  - rewrite length_app, length_drop, length_take. lia.
  - rewrite length_take. lia.
Qed.

Lemma NewAuditLog_wf capacity : audit_wf (NewAuditLog capacity).
Proof.
  unfold NewAuditLog. set (c := if capacity <=? 0 then 8192 else capacity).
  assert (0 < c) by (unfold c; destruct (Z.leb_spec capacity 0); lia).
  constructor; simpl; [lia|apply length_replicate|lia|constructor].
Qed.

(** Appending drops the oldest event of a full log and adds the new one last. *)
Lemma Append_contents now e a :
  audit_wf a → contents (Append now e a) = last_n (al_cap a) (contents a ++ [stamp now e]).
Proof.
  intros Hwf. pose proof (contents_length a Hwf) as Hlen. destruct Hwf as [H1 H2 H3 _].
  unfold last_n. rewrite length_app, Hlen. simpl length.
  assert (∀ l, length l = al_cap a → al_cursor a < length l →
            take (S (al_cursor a)) (<[al_cursor a := stamp now e]> l) =
            take (al_cursor a) l ++ [stamp now e])%nat as Htake.
  { intros l Hl Hlt. erewrite take_S_r by (apply list_lookup_insert_eq; lia).
    by rewrite take_insert_ge by lia. }
  unfold contents, Append, Len in *. simpl.
  destruct (decide (S (al_cursor a) = al_cap a)) as [Hlast|Hlast].
  - rewrite Nat.add_1_r, Hlast, Nat.Div0.mod_same. simpl. rewrite drop_0, app_nil_r.
    replace (<[al_cursor a := stamp now e]> (al_buf a))
      with (take (al_cursor a) (al_buf a) ++ [stamp now e]).
    2:{ rewrite <- Htake by lia. apply take_ge. rewrite length_insert. lia. }
    destruct (al_full a).
    + replace (al_cap a + 1 - al_cap a)%nat with 1%nat by lia.
      destruct (lookup_lt_is_Some_2 (al_buf a) (al_cursor a)) as [x Hx]; [lia|].
      rewrite (drop_S (al_buf a) x), (drop_ge (al_buf a)) by (done || lia). done.
    + replace (al_cursor a + 1 - al_cap a)%nat with 0%nat by lia. done.
  - rewrite Nat.mod_small by lia. rewrite Nat.add_1_r, bool_decide_eq_false_2 by lia.
    destruct (al_full a).
    + replace (al_cap a + 1 - al_cap a)%nat with 1%nat by lia.
      rewrite Htake by lia. rewrite drop_insert_lt by lia.
      destruct (lookup_lt_is_Some_2 (al_buf a) (al_cursor a)) as [x Hx]; [lia|].
      rewrite (drop_S (al_buf a) x (al_cursor a)) by done. simpl. by rewrite app_assoc.
    + replace (al_cursor a + 1 - al_cap a)%nat with 0%nat by lia.
      rewrite drop_0. apply Htake; lia.
Qed.

Lemma last_n_snoc {A} n (l : list A) x :
  (0 < n)%nat → last_n n (last_n n l ++ [x]) = last_n n (l ++ [x]).
Proof.
  intros Hn. unfold last_n. rewrite !length_app, length_drop. simpl.
  rewrite !drop_app_le by (rewrite ?length_drop; lia). rewrite drop_drop. f_equal. f_equal. lia.
Qed.

Lemma last_n_app {A} n (l k : list A) :
  (0 < n)%nat → last_n n (last_n n l ++ k) = last_n n (l ++ k).
Proof.
  intros Hn. induction k as [|y k IH] using rev_ind.
  - rewrite !app_nil_r. unfold last_n. rewrite drop_drop, length_drop. f_equal. lia.
  - by rewrite !app_assoc, <- (last_n_snoc _ (_ ++ k)), IH, last_n_snoc by done.
Qed.

Lemma last_n_all {A} n (l : list A) : (length l ≤ n)%nat → last_n n l = l.
Proof. intros H. unfold last_n. by replace (length l - n)%nat with 0%nat by lia. Qed.

Lemma last_n_Forall {A} n (l : list A) P : Forall P l → Forall P (last_n n l).
Proof. apply Forall_drop. Qed.

Lemma Append_wf now e a : now ≠ 0 → audit_wf a → audit_wf (Append now e a).
Proof.
  intros Hnow Hwf. pose proof (Append_contents now e a Hwf) as Hc.
  destruct Hwf as [H1 H2 H3 H4]. constructor; simpl.
  - done.
  - by rewrite length_insert.
  - apply Nat.mod_upper_bound. lia.
  - rewrite Hc. apply last_n_Forall, Forall_app. split; [done|].
    constructor; [|done]. unfold stamp, IsZero. destruct (Z.eqb_spec (ae_Timestamp e) 0); done.
Qed.

(** Appending a sequence of events, each at its own clock reading. *)
Definition append_all (es : list (time * AuditEvent D)) a : AuditLog D :=
  foldl (λ a '(now, e), Append now e a) a es.

Lemma append_all_spec es : ∀ a,
  Forall (λ x, x.1 ≠ 0) es → audit_wf a →
  audit_wf (append_all es a) ∧ al_cap (append_all es a) = al_cap a ∧
  (es ≠ [] → contents (append_all es a) =
     last_n (al_cap a) (contents a ++ ((λ x, stamp x.1 x.2) <$> es))).
Proof.
  induction es as [|[now e] es IH]; intros a Hf Hwf; [done|].
  apply Forall_cons in Hf as [Hnow Hf]. simpl in Hnow.
  destruct (IH (Append now e a) Hf (Append_wf now e a Hnow Hwf)) as (W & Hcap & Hc).
  change (append_all ((now, e) :: es) a) with (append_all es (Append now e a)).
  rewrite fmap_cons. cbn [fst snd]. split_and!; [done|done|]. intros _.
  rewrite (cons_middle (stamp now e)), (app_assoc (contents a)).
  rewrite <- last_n_app, <- Append_contents by (done || apply Hwf).
  destruct es as [|x es]; [|by apply Hc]. rewrite app_nil_r. symmetry.
  change (append_all [] (Append now e a)) with (Append now e a) in *.
  apply contents_length in W. apply last_n_all. rewrite W.
  unfold Len. destruct (al_full _); [simpl; lia|].
  pose proof (aw_cursor _ (Append_wf now e a Hnow Hwf)). simpl in *. lia.
Qed.

Lemma contents_lookup_full a i :
  audit_wf a → al_full a = true → (i < al_cap a)%nat →
  al_buf a !! ((al_cursor a + i) mod al_cap a)%nat = contents a !! i.
Proof.
  intros [H1 H2 H3 _] Hfull Hi. unfold contents. rewrite Hfull.
  destruct (decide (al_cursor a + i < al_cap a)%nat) as [Hlt|Hge].
  - rewrite Nat.mod_small by lia. rewrite lookup_app_l by (rewrite length_drop; lia).
    by rewrite lookup_drop.
  - rewrite lookup_app_r by (rewrite length_drop; lia). rewrite length_drop, H2.
    rewrite lookup_take_lt by lia. f_equal.
    rewrite <- (Nat.mod_small (i - (al_cap a - al_cursor a)) (al_cap a)) by lia.
    replace (al_cursor a + i)%nat with (i - (al_cap a - al_cursor a) + 1 * al_cap a)%nat by lia.
    apply Nat.Div0.mod_add.
Qed.

(** The two loops visit exactly the stored events, oldest first. *)
Lemma collect_spec a since until ty nd :
  audit_wf a → collect a since until ty nd = filter (λ e, matches e since until ty nd = true) (contents a).
Proof.
  intros Hwf. rewrite <- omap_filter. pose proof (contents_length a Hwf) as Hlen.
  unfold collect, Len in *. destruct (al_full a) eqn:Hfull.
  - replace (seq 0 (al_cap a)) with (seq 0 (length (contents a))) by by rewrite Hlen.
    rewrite omap_lookup_seq with (l := contents a).
    2:{ intros i Hi. apply contents_lookup_full; [done|done|lia]. }
    apply omap_Forall_ext. eapply Forall_impl; [apply (aw_stamped _ Hwf)|].
    intros e He. simpl. unfold IsZero at 1. by rewrite (proj2 (Z.eqb_neq _ _)).
  - replace (seq 0 (al_cursor a)) with (seq 0 (length (contents a))) by by rewrite Hlen.
    apply omap_lookup_seq. intros i Hi. unfold contents. rewrite Hfull.
    rewrite lookup_take_lt by lia. done.
Qed.

(** The audit log keeps the most recent events: after any sequence of
    appends to a fresh log, [Query] returns the events that match the filter
    among the last [cap] appended ones, sorted by timestamp, cut to the limit
    when it is positive; nothing older and nothing else. *)
Theorem audit_query_recent capacity es sorter since until ty nd limit :
  Forall (λ x, x.1 ≠ 0) es → SortSlice ae_Timestamp sorter →
  let a := append_all es (NewAuditLog capacity) in
  let cap := Z.to_nat (if capacity <=? 0 then 8192 else capacity) in
  let recent := last_n cap ((λ x, stamp x.1 x.2) <$> es) in
  ∃ out, out ≡ₚ filter (λ e, matches e since until ty nd = true) recent ∧
    StronglySorted (λ x y, ae_Timestamp x ≤ ae_Timestamp y) out ∧
    Query sorter a since until ty nd limit =
      (if 0 <? limit then take (Z.to_nat limit) out else out) ∧
    Len a = length recent.
Proof.
  intros Hf Hs a cap recent.
  assert (audit_wf a ∧ contents a = recent) as [Hwf Hc].
  { unfold a. destruct (append_all_spec es (NewAuditLog capacity) Hf (NewAuditLog_wf capacity))
      as (W & _ & Hc). split; [done|]. unfold recent. destruct es as [|x es]; [done|].
    rewrite Hc by done. done. }
  exists (sorter (collect a since until ty nd)).
  rewrite collect_spec, Hc by done.
  split_and!; [apply sort_slice_perm|apply sort_slice_sorted| |].
  - unfold Query. rewrite collect_spec, Hc by done.
    destruct (0 <? limit) eqn:Hl; simpl; [|done].
    destruct (Z.ltb_spec limit (Z.of_nat (length (sorter (filter
      (λ e, matches e since until ty nd = true) recent))))); [done|].
    symmetry. apply take_ge. lia.
  - by rewrite <- contents_length, Hc.
Qed.
End audit.

Definition demo_events : list (time * AuditEvent string) :=
  (λ i, (i, MkEvent 0 "register" "n" "" "")) <$> [5; 7; 6; 9].

Lemma audit_query_recent_witness :
  ∃ out, Query (sort_num ae_Timestamp) (append_all demo_events (NewAuditLog "" 3)) 0 0 "" "" 2 =
           take 2 out ∧
    StronglySorted (λ x y, ae_Timestamp x ≤ ae_Timestamp y) out ∧
    Len (append_all demo_events (NewAuditLog "" 3)) = 3%nat.
Proof.
  destruct (audit_query_recent "" 3 demo_events (sort_num ae_Timestamp) 0 0 "" "" 2)
    as (out & Hp & Hsort & HQ & Hlen); [repeat constructor; discriminate|apply _|].
  exists out. split; [exact HQ|]. split; [exact Hsort|]. rewrite Hlen. reflexivity.
Defined.

Example audit_demo :
  ae_Timestamp <$> Query (sort_num ae_Timestamp) (append_all demo_events (NewAuditLog "" 3)) 0 0 "" "" 0 =
  [6; 7; 9].
Proof. vm_compute. reflexivity. Qed.
