(* ===== verification/Fanout.v ===== *)
(** * Fan-out to streaming subscribers ([src/pkg/control_plane/fanout.go])

    The peer-list and the ownership broadcaster are the same code at two message
    types: a map from subscription id to a channel of capacity
    [subscriberBuffer]. Channels live in a heap, [bc_chans], because a consumer
    keeps reading its channel after the broadcaster has closed and forgotten it.
    A broadcast treats every subscriber separately, each on its own channel, so
    the iteration order of the map does not matter. *)

From S2P Require Import Prelude GoStrings.
From S2P Require Import Ledger.

Definition subscriberBuffer : nat := 8.

(** ** Subscription ids *)

Definition digit36 (d : Z) : ascii := chr (if d <? 10 then 48 + d else 87 + d).

(** The digit loop, most significant digit first; [fuel] bounds the number of
    digits. *)
Fixpoint digits36 (fuel : nat) (n : Z) : list ascii :=
  match fuel with
  | O => []
  | S fuel => if 0 <? n then digits36 fuel (n / 36) ++ [digit36 (n mod 36)] else []
  end.

Definition idString (n : Z) : string :=
  if n =? 0 then "0" else of_bytes (digits36 (S (Z.to_nat (Z.log2 n))) n).

(** ** Channels and broadcasters *)

Record Chan (M : Type) := MkChan { ch_buf : list M; ch_closed : bool }.
Arguments MkChan {M}.
Arguments ch_buf {M}.
Arguments ch_closed {M}.

Record Broadcaster (M : Type) := MkBroadcaster {
  bc_subs : gmap string nat;           (* subscription id -> channel *)
  bc_nextID : Z;
  bc_chans : list (Chan M)             (* every channel ever made *)
}.
Arguments MkBroadcaster {M}.
Arguments bc_subs {M}.
Arguments bc_nextID {M}.
Arguments bc_chans {M}.

Definition close_chan {M} (c : Chan M) : Chan M := MkChan (ch_buf c) true.
Definition is_full {M} (c : Chan M) : bool := bool_decide (subscriberBuffer ≤ length (ch_buf c))%nat.
Definition push {M} (m : M) (c : Chan M) : Chan M := MkChan (ch_buf c ++ [m]) (ch_closed c).

Section broadcaster.
Context {M : Type}.
Implicit Types (b : Broadcaster M) (m : M).

Definition NewBroadcaster : Broadcaster M := MkBroadcaster ∅ 0 [].

(** [Subscribe]: the subscription id (what [cancel] closes over), the channel,
    and the new state. *)
Definition Subscribe b : string * nat * Broadcaster M :=
  let nextID := bc_nextID b + 1 in
  let id := idString nextID in
  let ch := length (bc_chans b) in
  (id, ch, MkBroadcaster (<[id := ch]> (bc_subs b)) nextID (bc_chans b ++ [MkChan [] false])).

(** The cancel function [Subscribe] returns. *)
Definition cancel (id : string) b : Broadcaster M :=
  match bc_subs b !! id with
  | Some ch => MkBroadcaster (delete id (bc_subs b)) (bc_nextID b) (alter close_chan ch (bc_chans b))
  | None => b
  end.

Definition chan_full b (ch : nat) : bool :=
  match bc_chans b !! ch with Some c => is_full c | None => false end.

(** Send without blocking; a subscriber whose buffer is full is closed and
    dropped. *)
Definition Broadcast m b : Broadcaster M :=
  MkBroadcaster
    (filter (λ x, chan_full b x.2 = false) (bc_subs b))
    (bc_nextID b)
    (imap (λ ch c, if bool_decide (ch ∈ (map_to_list (bc_subs b)).*2)
                   then if is_full c then close_chan c else push m c
                   else c) (bc_chans b)).

Definition SubscriberCount b : nat := size (bc_subs b).

(** A receive on channel [ch]: a message, or nothing (blocked or closed). *)
Definition Recv (ch : nat) b : option M * Broadcaster M :=
  match bc_chans b !! ch with
  | Some (MkChan (m :: buf) closed) =>
      (Some m, MkBroadcaster (bc_subs b) (bc_nextID b) (<[ch := MkChan buf closed]> (bc_chans b)))
  | _ => (None, b)
  end.

(** ** Runs *)

Inductive bop :=
  | BSubscribe
  | BCancel (id : string)
  | BBroadcast (m : M)
  | BRecv (ch : nat).

(** A step, with the message received on [ch], if any. *)
Definition bstep (ch : nat) (op : bop) b : list M * Broadcaster M :=
  match op with
  | BSubscribe => ([], (Subscribe b).2)
  | BCancel id => ([], cancel id b)
  | BBroadcast m => ([], Broadcast m b)
  | BRecv c => let '(r, b') := Recv c b in
               (if bool_decide (c = ch) then option_list r else [], b')
  end.

Fixpoint brun (ch : nat) (ops : list bop) b : list M * Broadcaster M :=
  match ops with
  | [] => ([], b)
  | op :: ops => let '(d1, b1) := bstep ch op b in
                 let '(d2, b2) := brun ch ops b1 in (d1 ++ d2, b2)
  end.

Fixpoint broadcasts (ops : list bop) : list M :=
  match ops with
  | [] => []
  | BBroadcast m :: ops => m :: broadcasts ops
  | _ :: ops => broadcasts ops
  end.
End broadcaster.
Arguments bop : clear implicits.

(** ** The two instances *)

Record PeerListUpdateMsg := MkPeerListUpdateMsg {
  pm_SubjectNode : string;
  pm_Snapshot : list OwnershipEntry;
  pm_Version : Z
}.
Record OwnershipUpdateMsg := MkOwnershipUpdateMsg {
  om_Entries : list OwnershipEntry;
  om_Version : Z;
  om_FullSnapshot : bool
}.

Definition PeerListBroadcaster := Broadcaster PeerListUpdateMsg.
Definition OwnershipBroadcaster := Broadcaster OwnershipUpdateMsg.

(** ** Subscription ids are distinct *)

Definition digit_val (a : ascii) : Z := if code a <? 58 then code a - 48 else code a - 87.
Definition decode36 (l : list ascii) : Z := fold_left (λ acc a, acc * 36 + digit_val a) l 0.

Lemma digit36_val d : 0 ≤ d < 36 → digit_val (digit36 d) = d.
Proof.
  intros H. unfold digit_val, digit36. destruct (Z.ltb_spec d 10).
  - rewrite code_chr by lia. rewrite (proj2 (Z.ltb_lt _ _)); lia.
  - rewrite code_chr by lia. rewrite (proj2 (Z.ltb_ge _ _)); lia.
Qed.

Lemma decode36_snoc l a : decode36 (l ++ [a]) = decode36 l * 36 + digit_val a.
Proof. unfold decode36. by rewrite fold_left_app. Qed.

Lemma digits36_decode fuel n : 0 ≤ n < 2 ^ Z.of_nat fuel → decode36 (digits36 fuel n) = n.
Proof.
  revert n. induction fuel as [|fuel IH]; intros n Hn; simpl; [simpl in Hn; unfold decode36; simpl; lia|].
  destruct (Z.ltb_spec 0 n); [|unfold decode36; simpl; lia].
  rewrite decode36_snoc, digit36_val by (apply Z.mod_pos_bound; lia).
  rewrite IH; [pose proof (Z.div_mod n 36); lia|].
  rewrite Nat2Z.inj_succ, Z.pow_succ_r in Hn by lia.
  split; [apply Z.div_pos; lia|apply Z.div_lt_upper_bound; lia].
Qed.

Lemma idString_decode n : 0 ≤ n → decode36 (to_bytes (idString n)) = n.
Proof.
  intros Hn. unfold idString. destruct (Z.eqb_spec n 0) as [->|Hne]; [done|].
  rewrite to_of_bytes. apply digits36_decode.
  rewrite Nat2Z.inj_succ, Z2Nat.id by apply Z.log2_nonneg.
  split; [done|]. apply Z.log2_lt_pow2; lia.
Qed.

Lemma idString_inj_nonneg a b : 0 ≤ a → 0 ≤ b → idString a = idString b → a = b.
Proof. intros Ha Hb H. by rewrite <- (idString_decode a), <- (idString_decode b), H. Qed.

(** Two subscriptions of one broadcaster never get the same id: the base-36
    text of a counter value reads back as that value, so distinct non-negative
    counters have distinct texts. *)
Theorem idString_injective a b :
  0 ≤ a → 0 ≤ b →
  decode36 (to_bytes (idString a)) = a ∧ (idString a = idString b → a = b).
Proof. auto using idString_decode, idString_inj_nonneg. Qed.

Lemma idString_injective_witness :
  decode36 (to_bytes (idString 1295)) = 1295 ∧ (idString 1295 = idString 36 → 1295 = 36).
Proof. apply idString_injective; lia. Defined.

(** ** Delivery *)

Section delivery.
Context {M : Type}.
Implicit Types (b : Broadcaster M) (m : M).

(** Ids come from the counter, and no channel has two subscriptions. *)
Record bc_wf b : Prop := {
  bw_next : 0 ≤ bc_nextID b;
  bw_keys : ∀ id ch, bc_subs b !! id = Some ch → ∃ k, 0 < k ≤ bc_nextID b ∧ id = idString k;
  bw_inj : ∀ i j ch, bc_subs b !! i = Some ch → bc_subs b !! j = Some ch → i = j;
  bw_alloc : ∀ id ch, bc_subs b !! id = Some ch → (ch < length (bc_chans b))%nat
}.

Lemma NewBroadcaster_wf : bc_wf NewBroadcaster.
Proof. constructor; simpl; [done|..]; intros *; rewrite lookup_empty; done. Qed.

Lemma fresh_id b id ch : bc_wf b → bc_subs b !! id = Some ch → id ≠ idString (bc_nextID b + 1).
Proof.
  intros Hwf H ->. pose proof (bw_next _ Hwf).
  apply (bw_keys _ Hwf) in H as (k & Hk & He). apply idString_inj_nonneg in He; lia.
Qed.

Lemma Subscribe_wf b : bc_wf b → bc_wf (Subscribe b).2.
Proof.
  intros Hwf. pose proof Hwf as [Hn Hk Hi Ha]. constructor; simpl.
  - lia.
  - intros id ch. rewrite lookup_insert_Some. intros [[<- <-]|[_ H]].
    + exists (bc_nextID b + 1). split; [lia|done].
    + apply Hk in H as (k & ? & ->). exists k. split; [lia|done].
  - intros i j ch. rewrite !lookup_insert_Some.
    intros [[<- <-]|[_ H1]] [[<- H2]|[_ H2]]; auto.
    + apply Ha in H2. lia.
    + apply Ha in H1. lia.
    + eauto.
  - intros id ch. rewrite lookup_insert_Some, length_app. simpl.
    intros [[_ <-]|[_ H]]; [lia|]. apply Ha in H. lia.
Qed.

Lemma subs_shrink_wf b b' :
  bc_wf b → bc_nextID b' = bc_nextID b → length (bc_chans b') = length (bc_chans b) →
  (∀ id ch, bc_subs b' !! id = Some ch → bc_subs b !! id = Some ch) → bc_wf b'.
Proof.
  intros [Hn Hk Hi Ha] Hnext Hlen Hsub. constructor.
  - by rewrite Hnext.
  - rewrite Hnext. eauto.
  - eauto.
  - rewrite Hlen. eauto.
Qed.

Lemma cancel_wf id b : bc_wf b → bc_wf (cancel id b).
Proof.
  intros Hwf. unfold cancel. destruct (bc_subs b !! id); [|done].
  apply (subs_shrink_wf b); simpl; [done|done|by rewrite length_alter|].
  intros ?? [_ ?]%lookup_delete_Some. done.
Qed.

Lemma Broadcast_wf m b : bc_wf b → bc_wf (Broadcast m b).
Proof.
  intros Hwf. apply (subs_shrink_wf b); simpl; [done|done|by rewrite length_imap|].
  intros ?? [? _]%map_lookup_filter_Some. done.
Qed.

Lemma Recv_wf ch b : bc_wf b → bc_wf (Recv ch b).2.
Proof.
  intros Hwf. unfold Recv. destruct (bc_chans b !! ch) as [[[|m buf] cl]|]; [done| |done].
  apply (subs_shrink_wf b); simpl; [done|done|by rewrite length_insert|done].
Qed.

Lemma bstep_wf ch op b : bc_wf b → bc_wf (bstep ch op b).2.
Proof.
  intros Hwf. destruct op; simpl.
  - by apply Subscribe_wf.
  - by apply cancel_wf.
  - by apply Broadcast_wf.
  - pose proof (Recv_wf ch0 b Hwf). by destruct (Recv ch0 b).
Qed.

(** Where a channel stands: still subscribed, with everything broadcast since
    the subscription either delivered or buffered; or dropped and closed, with
    an initial part of it. *)
Inductive chan_status (id : string) (ch : nat) b (hist del : list M) : Prop :=
  | Active buf :
      bc_subs b !! id = Some ch → bc_chans b !! ch = Some (MkChan buf false) →
      del ++ buf = hist → chan_status id ch b hist del
  | Dropped buf :
      (∀ k, bc_subs b !! k ≠ Some ch) → bc_chans b !! ch = Some (MkChan buf true) →
      (del ++ buf) `prefix_of` hist → chan_status id ch b hist del.

Lemma elem_of_refs b ch :
  ch ∈ (map_to_list (bc_subs b)).*2 ↔ ∃ id, bc_subs b !! id = Some ch.
Proof.
  rewrite list_elem_of_fmap. split.
  - intros ([id x] & -> & H%elem_of_map_to_list). eauto.
  - intros [id H]. exists (id, ch). split; [done|]. by apply elem_of_map_to_list.
Qed.

Lemma Subscribe_status id ch b hist del :
  bc_wf b → chan_status id ch b hist del → chan_status id ch (Subscribe b).2 hist del.
Proof.
  intros Hwf [buf Hs Hc Hd|buf Hs Hc Hd].
  - eapply Active; simpl; [|rewrite lookup_app_l by (by eapply lookup_lt_Some); exact Hc|done].
    rewrite lookup_insert_ne; [done|]. intros He. by eapply fresh_id in Hs.
  - eapply Dropped; simpl; [|rewrite lookup_app_l by (by eapply lookup_lt_Some); exact Hc|done].
    intros k. rewrite lookup_insert_Some. intros [[_ He]|[_ H]]; [|by eapply Hs].
    apply lookup_lt_Some in Hc. lia.
Qed.

Lemma cancel_status k id ch b hist del :
  bc_wf b → chan_status id ch b hist del → chan_status id ch (cancel k b) hist del.
Proof.
  intros Hwf H. unfold cancel. destruct (bc_subs b !! k) as [x|] eqn:Hk; [|done].
  destruct H as [buf Hs Hc Hd|buf Hs Hc Hd].
  - destruct (decide (k = id)) as [->|Hne].
    + simplify_eq. apply (Dropped _ _ _ _ _ buf); simpl.
      * intros j [Hj Hx]%lookup_delete_Some. apply Hj. by eapply (bw_inj _ Hwf).
      * by rewrite list_lookup_alter_eq, Hc.
      * reflexivity.
    + apply (Active _ _ _ _ _ buf); simpl; [by rewrite lookup_delete_ne| |done].
      rewrite list_lookup_alter_ne; [done|]. intros ->. apply Hne. by eapply (bw_inj _ Hwf).
  - apply (Dropped _ _ _ _ _ buf); simpl; [|rewrite list_lookup_alter_ne; [done|congruence]|done].
    intros j [_ Hj]%lookup_delete_Some. by eapply Hs.
Qed.

Lemma Broadcast_status m id ch b hist del :
  chan_status id ch b hist del → chan_status id ch (Broadcast m b) (hist ++ [m]) del.
Proof.
  intros [buf Hs Hc Hd|buf Hs Hc Hd].
  - assert (bc_chans (Broadcast m b) !! ch =
      Some (if is_full (MkChan buf false) then MkChan buf true else MkChan (buf ++ [m]) false)) as Hch.
    { simpl. rewrite list_lookup_imap, Hc. simpl.
      rewrite bool_decide_eq_true_2 by (apply elem_of_refs; eauto). by destruct (is_full _). }
    destruct (is_full (MkChan buf false)) eqn:Hfull.
    + apply (Dropped _ _ _ _ _ buf); [|done|].
      * simpl. intros k [_ Hk]%map_lookup_filter_Some. unfold chan_full in Hk. simpl in Hk.
        rewrite Hc in Hk. congruence.
      * rewrite Hd. by apply prefix_app_r.
    + apply (Active _ _ _ _ _ (buf ++ [m])); [|done|by rewrite app_assoc, Hd].
      simpl. apply map_lookup_filter_Some. split; [done|]. unfold chan_full. simpl. by rewrite Hc.
  - apply (Dropped _ _ _ _ _ buf).
    + simpl. intros k [Hk _]%map_lookup_filter_Some. by eapply Hs.
    + simpl. rewrite list_lookup_imap, Hc. simpl.
      rewrite bool_decide_eq_false_2; [done|]. rewrite elem_of_refs. intros [k Hk]. by eapply Hs.
    + by apply prefix_app_r.
Qed.

Lemma Recv_status c id ch b hist del :
  chan_status id ch b hist del →
  chan_status id ch (Recv c b).2 hist
    (del ++ if bool_decide (c = ch) then option_list (Recv c b).1 else []).
Proof.
  intros H. unfold Recv. destruct (decide (c = ch)) as [->|Hne].
  - rewrite bool_decide_eq_true_2 by done.
    destruct H as [buf Hs Hc Hd|buf Hs Hc Hd]; rewrite Hc; destruct buf as [|m buf]; simpl.
    + rewrite app_nil_r. by eapply Active.
    + apply (Active _ _ _ _ _ buf); simpl; [done| |by rewrite <- app_assoc].
      rewrite list_lookup_insert_eq; [done|]. by eapply lookup_lt_Some.
    + rewrite app_nil_r. by eapply Dropped.
    + apply (Dropped _ _ _ _ _ buf); simpl; [done| |by rewrite <- app_assoc].
      rewrite list_lookup_insert_eq; [done|]. by eapply lookup_lt_Some.
  - rewrite bool_decide_eq_false_2, app_nil_r by done.
    destruct (bc_chans b !! c) as [[[|m buf'] cl]|]; try done.
    destruct H as [buf Hs Hc Hd|buf Hs Hc Hd]; simpl.
    + eapply Active; simpl; [done|by rewrite list_lookup_insert_ne|done].
    + eapply Dropped; simpl; [done|by rewrite list_lookup_insert_ne|done].
Qed.

Lemma bstep_status op id ch b hist del :
  bc_wf b → chan_status id ch b hist del →
  chan_status id ch (bstep ch op b).2 (hist ++ broadcasts [op]) (del ++ (bstep ch op b).1).
Proof.
  intros Hwf H. destruct op as [|k|m|c]; simpl; rewrite ?app_nil_r.
  - by apply Subscribe_status.
  - by apply cancel_status.
  - by apply Broadcast_status.
  - pose proof (Recv_status c id ch b hist del H) as Hr. by destruct (Recv c b).
Qed.

Lemma broadcasts_cons op ops : broadcasts (op :: ops) = broadcasts [op] ++ broadcasts (M:=M) ops.
Proof. by destruct op. Qed.

Lemma brun_status ops id ch : ∀ b hist del,
  bc_wf b → chan_status id ch b hist del →
  chan_status id ch (brun ch ops b).2 (hist ++ broadcasts ops) (del ++ (brun ch ops b).1).
Proof.
  induction ops as [|op ops IH]; intros b hist del Hwf H; [simpl; by rewrite !app_nil_r|].
  rewrite broadcasts_cons. simpl brun.
  pose proof (bstep_wf ch op b Hwf) as Hwf1. pose proof (bstep_status op id ch b hist del Hwf H) as H1.
  destruct (bstep ch op b) as [d1 b1]. specialize (IH b1 _ _ Hwf1 H1).
  destruct (brun ch ops b1) as [d2 b2]. simpl in *. by rewrite !app_assoc in *.
Qed.

Lemma Subscribe_fresh_status b :
  chan_status (Subscribe b).1.1 (Subscribe b).1.2 (Subscribe b).2 [] [].
Proof.
  apply (Active _ _ _ _ _ []); simpl; [apply lookup_insert_eq| |done].
  rewrite lookup_app_r, Nat.sub_diag by done. done.
Qed.

(** What a subscriber sees, whatever the other subscribers do: the messages
    it has received followed by those still buffered are an initial part of
    the broadcasts made since it subscribed, in order and without gaps. While
    its subscription lasts they are all of them; the only way to miss one is
    to be dropped, and then the channel is closed. *)
Theorem subscriber_stream b ops :
  bc_wf b →
  let id := (Subscribe b).1.1 in
  let ch := (Subscribe b).1.2 in
  let '(received, b') := brun ch ops (Subscribe b).2 in
  ∃ c, bc_chans b' !! ch = Some c ∧
    (received ++ ch_buf c) `prefix_of` broadcasts ops ∧
    (ch_closed c = false ↔ bc_subs b' !! id = Some ch) ∧
    (ch_closed c = false → received ++ ch_buf c = broadcasts ops).
Proof.
  intros Hwf id ch.
  pose proof (brun_status ops id ch (Subscribe b).2 [] [] (Subscribe_wf b Hwf)
                (Subscribe_fresh_status b)) as H.
  destruct (brun ch ops (Subscribe b).2) as [received b']. simpl in H.
  destruct H as [buf Hs Hc Hd|buf Hs Hc Hd]; eexists; (split; [exact Hc|]); simpl.
  - split_and!; [by rewrite Hd|done|done].
  - split_and!; [done|split; [done|intros H; by apply Hs in H]|done].
Qed.

(** Broadcasts nobody reads in between. *)
Definition flood (ms : list M) : list (bop M) := BBroadcast <$> ms.

Lemma Broadcast_room m id ch b buf :
  bc_subs b !! id = Some ch → bc_chans b !! ch = Some (MkChan buf false) →
  (length buf < subscriberBuffer)%nat →
  bc_subs (Broadcast m b) !! id = Some ch ∧
  bc_chans (Broadcast m b) !! ch = Some (MkChan (buf ++ [m]) false).
Proof.
  intros Hs Hc Hlt.
  assert (is_full (MkChan buf false) = false) as Hf by (apply bool_decide_eq_false_2; simpl; lia).
  split.
  - simpl. apply map_lookup_filter_Some. split; [done|]. unfold chan_full. simpl. by rewrite Hc.
  - simpl. rewrite list_lookup_imap, Hc. simpl.
    rewrite bool_decide_eq_true_2 by (apply elem_of_refs; eauto). by rewrite Hf.
Qed.

Lemma Broadcast_overflow m id ch b buf :
  bc_subs b !! id = Some ch → bc_chans b !! ch = Some (MkChan buf false) →
  (subscriberBuffer ≤ length buf)%nat →
  bc_subs (Broadcast m b) !! id = None ∧
  bc_chans (Broadcast m b) !! ch = Some (MkChan buf true).
Proof.
  intros Hs Hc Hge.
  assert (is_full (MkChan buf false) = true) as Hf by (apply bool_decide_eq_true_2; simpl; lia).
  split.
  - simpl. apply map_lookup_filter_None. right. intros x Hx. simplify_eq. simpl.
    unfold chan_full. rewrite Hc, Hf. done.
  - simpl. rewrite list_lookup_imap, Hc. simpl.
    rewrite bool_decide_eq_true_2 by (apply elem_of_refs; eauto). by rewrite Hf.
Qed.

Lemma flood_room ms id ch : ∀ b buf,
  bc_subs b !! id = Some ch → bc_chans b !! ch = Some (MkChan buf false) →
  (length buf + length ms ≤ subscriberBuffer)%nat →
  bc_subs (brun ch (flood ms) b).2 !! id = Some ch ∧
  bc_chans (brun ch (flood ms) b).2 !! ch = Some (MkChan (buf ++ ms) false).
Proof.
  induction ms as [|m ms IH]; intros b buf Hs Hc Hlen; simpl.
  { by rewrite app_nil_r. }
  simpl in Hlen. destruct (Broadcast_room m id ch b buf Hs Hc ltac:(lia)) as [Hs1 Hc1].
  destruct (IH (Broadcast m b) (buf ++ [m]) Hs1 Hc1) as [Hs2 Hc2];
    [rewrite length_app; simpl; lia|].
  unfold flood in *. destruct (brun ch (BBroadcast <$> ms) (Broadcast m b)) as [d b2] eqn:E.
  simpl in *. by rewrite <- app_assoc in Hc2.
Qed.

Lemma brun_snoc ch ops op b : (brun ch (ops ++ [op]) b).2 = (bstep ch op (brun ch ops b).2).2.
Proof.
  revert b. induction ops as [|o ops IH]; intros b; simpl.
  - by destruct (bstep ch op b).
  - destruct (bstep ch o b) as [d1 b1]. specialize (IH b1).
    by destruct (brun ch (ops ++ [op]) b1), (brun ch ops b1).
Qed.
End delivery.

Lemma subscriber_stream_witness :
  let b := (Subscribe (NewBroadcaster (M:=Z))).2 in
  let '(received, b') := brun 1 [BBroadcast 7; BBroadcast 8; BRecv 1; BRecv 0; BBroadcast 9] (Subscribe b).2 in
  ∃ c, bc_chans b' !! 1%nat = Some c ∧ (received ++ ch_buf c) `prefix_of` [7; 8; 9].
Proof.
  pose proof (subscriber_stream (Subscribe (NewBroadcaster (M:=Z))).2
    [BBroadcast 7; BBroadcast 8; BRecv 1; BRecv 0; BBroadcast 9]
    (Subscribe_wf _ NewBroadcaster_wf)) as H.
  simpl in H. destruct H as (c & H1 & H2 & _). exists c. split; [exact H1|exact H2].
Defined.

(** A consumer that stops reading does not hold the daemon back: after nine
    broadcasts it has not read, its subscription is gone and its channel closed
    with the first eight messages in it. *)
Theorem slow_consumer_dropped {M} (b : Broadcaster M) ms :
  length ms = 9%nat →
  let id := (Subscribe b).1.1 in
  let ch := (Subscribe b).1.2 in
  let b' := (brun ch (flood ms) (Subscribe b).2).2 in
  bc_subs b' !! id ≠ Some ch ∧ bc_chans b' !! ch = Some (MkChan (take 8 ms) true).
Proof.
  intros Hlen id ch b'.
  assert (bc_subs (Subscribe b).2 !! id = Some ch ∧
          bc_chans (Subscribe b).2 !! ch = Some (MkChan [] false)) as [Hs Hc].
  { simpl. rewrite lookup_app_r, Nat.sub_diag by done. split; [apply lookup_insert_eq|done]. }
  destruct (flood_room (take 8 ms) id ch _ [] Hs Hc) as [Hs8 Hc8];
    [rewrite length_take; unfold subscriberBuffer; cbn [length]; lia|].
  destruct (lookup_lt_is_Some_2 ms 8) as [m Hm]; [lia|].
  assert (flood ms = flood (take 8 ms) ++ [BBroadcast m]) as Hms.
  { unfold flood. rewrite <- (take_ge ms 9) at 1 by lia.
    rewrite (take_S_r ms 8 m) by done. by rewrite fmap_app. }
  subst b'. rewrite Hms, brun_snoc. simpl bstep.
  destruct (Broadcast_overflow m id ch _ _ Hs8 Hc8) as [H1 H2];
    [rewrite app_nil_l, length_take; unfold subscriberBuffer; lia|].
  split; [|exact H2]. intros He. assert (None = Some ch) as [=] by exact (eq_trans (eq_sym H1) He).
Qed.

Lemma slow_consumer_dropped_witness :
  let b' := (brun 0 (flood [1; 2; 3; 4; 5; 6; 7; 8; 9]) (Subscribe (NewBroadcaster (M:=Z))).2).2 in
  bc_subs b' !! "1" ≠ Some 0%nat ∧ bc_chans b' !! 0%nat = Some (MkChan [1; 2; 3; 4; 5; 6; 7; 8] true).
Proof. apply (slow_consumer_dropped (NewBroadcaster (M:=Z)) [1; 2; 3; 4; 5; 6; 7; 8; 9]). reflexivity. Defined.
