(* ===== verification/PeerList.v ===== *)
(** * Peer lists ([buildPeerListUpdate] in [src/pkg/control_plane/server.go])

    What a node is told about its peers: one WireGuard peer per owning master,
    with one /32 for every overlay IP the master owns, the node's own left out.
    WireGuard routes a destination to the one peer whose allowed IPs hold it, so
    the property that matters is that no /32 appears twice. *)

From S2P Require Import Prelude GoStrings.
From S2P Require Import Ledger Registry.

Definition defaultPeerPersistentKeepaliveSecs : Z := 25.

(** [pb.PeerEntry] and [pb.PeerListUpdate] *)
Record PeerEntry := MkPeerEntry {
  pe_PeerName : string;
  pe_PeerOverlayIp : string;
  pe_AllowedIps : list string;
  pe_PeerPubkey : string;
  pe_PeerEndpointHost : string;
  pe_PersistentKeepaliveSecs : Z;
  pe_Protocol : string
}.
Record PeerListUpdate := MkPeerListUpdate {
  pu_SubjectNode : string;
  pu_Peers : list PeerEntry;
  pu_Version : Z
}.

Record masterAgg := MkAgg { ma_allowedIPs : list string; ma_overlayIP : string }.

(** An entry the subject is not told about: its own overlay IP. *)
Definition is_subject (subjectOverlay : string) (e : OwnershipEntry) : bool :=
  bool_decide (subjectOverlay ≠ "") && bool_decide (oe_OverlayIP e = subjectOverlay).

(** Step 1, one iteration: the state is [(byMaster, masterOrder)]. *)
Definition group_step (subjectOverlay : string) (st : gmap string masterAgg * list string)
    (e : OwnershipEntry) : gmap string masterAgg * list string :=
  let overlayIP := oe_OverlayIP e in
  if is_subject subjectOverlay e then st else
  let '(byMaster, masterOrder) := st in
  let '(agg, masterOrder) :=
    match byMaster !! oe_OwningMaster e with
    | Some agg => (agg, masterOrder)
    | None => (MkAgg [] overlayIP, masterOrder ++ [oe_OwningMaster e])
    end in
  (<[oe_OwningMaster e := MkAgg (ma_allowedIPs agg ++ [overlayIP +:+ "/32"]) (ma_overlayIP agg)]> byMaster,
   masterOrder).

(** Step 2: one entry, enriched from the registry. *)
Definition peer_entry (r : Registry) (masterName : string) (agg : masterAgg) : PeerEntry :=
  match registry_Lookup r masterName with
  | Some node =>
      MkPeerEntry masterName
        (if bool_decide (rn_OverlayIP node ≠ "") then rn_OverlayIP node else ma_overlayIP agg)
        (ma_allowedIPs agg) (rn_Pubkey node) (rn_EndpointHost node)
        defaultPeerPersistentKeepaliveSecs (rn_Protocol node)
  | None => MkPeerEntry masterName (ma_overlayIP agg) (ma_allowedIPs agg) "" "" 0 ""
  end.

Definition subject_overlay (r : Registry) (subject : string) : string :=
  match registry_Lookup r subject with Some node => rn_OverlayIP node | None => "" end.

Definition buildPeerListUpdate (r : Registry) (subject : string)
    (snapshot : list OwnershipEntry) (version : Z) : PeerListUpdate :=
  let '(byMaster, masterOrder) := foldl (group_step (subject_overlay r subject)) (∅, []) snapshot in
  MkPeerListUpdate subject
    (omap (λ m, peer_entry r m <$> byMaster !! m) masterOrder) version.

Lemma buildPeerListUpdate_version r subject snapshot version :
  pu_Version (buildPeerListUpdate r subject snapshot version) = version.
Proof. unfold buildPeerListUpdate. by destruct (foldl _ _ _). Qed.

(** ** What the grouping computes *)

Definition kept (subjectOverlay : string) (e : OwnershipEntry) : Prop := is_subject subjectOverlay e = false.
#[global] Instance kept_dec so e : Decision (kept so e).
Proof. unfold kept. apply _. Defined.

Definition slash32 (e : OwnershipEntry) : string := oe_OverlayIP e +:+ "/32".

(** The entries of master [m] that the subject is told about. *)
Definition share (so m : string) (l : list OwnershipEntry) : list OwnershipEntry :=
  filter (λ e, oe_OwningMaster e = m) (filter (kept so) l).

Record group_inv (so : string) (l : list OwnershipEntry) (st : gmap string masterAgg * list string) : Prop := {
  gi_nodup : NoDup st.2;
  gi_order : ∀ m, m ∈ st.2 ↔ ∃ e, e ∈ l ∧ kept so e ∧ oe_OwningMaster e = m;
  gi_agg : ∀ m, m ∈ st.2 → ∃ ov, st.1 !! m = Some (MkAgg (slash32 <$> share so m l) ov);
  gi_none : ∀ m, m ∉ st.2 → st.1 !! m = None
}.

Lemma share_snoc so m l e :
  share so m (l ++ [e]) =
  share so m l ++ (if decide (kept so e ∧ oe_OwningMaster e = m) then [e] else []).
Proof.
  unfold share. rewrite !filter_app. f_equal. rewrite filter_cons, filter_nil.
  destruct (decide (kept so e)); [|by rewrite decide_False by tauto].
  rewrite filter_cons, filter_nil.
  destruct (decide (oe_OwningMaster e = m)); [by rewrite decide_True|by rewrite decide_False by tauto].
Qed.

Lemma share_none so m l :
  (¬ ∃ e, e ∈ l ∧ kept so e ∧ oe_OwningMaster e = m) → share so m l = [].
Proof.
  intros H. apply elem_of_nil_inv. intros e He. apply H. exists e. unfold share in He.
  rewrite !list_elem_of_filter in He. tauto.
Qed.

Lemma group_step_inv so l st e : group_inv so l st → group_inv so (l ++ [e]) (group_step so st e).
Proof.
  intros [Hnd Hord Hagg Hnone]. unfold group_step. destruct st as [byM order]. simpl in *.
  destruct (is_subject so e) eqn:Hk.
  { assert (¬ kept so e) by (unfold kept; congruence).
    split; simpl; [done| | |done].
    - intros m. rewrite Hord. set_solver.
    - intros m Hm. rewrite share_snoc, decide_False, app_nil_r by tauto. auto. }
  assert (kept so e) as Hkept by done.
  set (w := oe_OwningMaster e).
  assert (∃ agg order', match byM !! w with
      | Some agg => (agg, order) | None => (MkAgg [] (oe_OverlayIP e), order ++ [w]) end = (agg, order') ∧
    NoDup order' ∧ (∀ m, m ∈ order' ↔ m ∈ order ∨ m = w) ∧
    ma_allowedIPs agg = slash32 <$> share so w l) as (agg & order' & -> & Hnd' & Hin' & Hips).
  { destruct (decide (w ∈ order)) as [Hw|Hw].
    - destruct (Hagg _ Hw) as [ov ->]. exists (MkAgg (slash32 <$> share so w l) ov), order. set_solver.
    - rewrite (Hnone _ Hw). eexists _, _. split; [done|]. split_and!.
      + apply NoDup_app. split_and!; [done|set_solver|apply NoDup_singleton].
      + set_solver.
      + rewrite share_none; [done|]. by rewrite <- Hord. }
  split; simpl.
  - done.
  - intros m. rewrite Hin', Hord. set_solver.
  - intros m Hm. rewrite share_snoc. destruct (decide (m = w)) as [->|Hne].
    + rewrite lookup_insert_eq, Hips, decide_True by done. rewrite fmap_app. eauto.
    + rewrite lookup_insert_ne by done. rewrite decide_False by naive_solver. rewrite app_nil_r.
      apply Hagg. by apply Hin' in Hm as [?| ->].
  - intros m Hm. rewrite Hin' in Hm. rewrite lookup_insert_ne by naive_solver. apply Hnone. tauto.
Qed.

Lemma group_loop so snapshot : group_inv so snapshot (foldl (group_step so) (∅, []) snapshot).
Proof.
  induction snapshot as [|e l IH] using rev_ind.
  - split; simpl; [constructor|set_solver|set_solver|intros; apply lookup_empty].
  - rewrite foldl_snoc. by apply group_step_inv.
Qed.

Lemma peer_entry_fields r m agg :
  pe_PeerName (peer_entry r m agg) = m ∧ pe_AllowedIps (peer_entry r m agg) = ma_allowedIPs agg.
Proof. unfold peer_entry. by destruct (registry_Lookup r m). Qed.

(** The peers, in first-seen order of their masters. *)
Lemma buildPeerListUpdate_peers r subject snapshot version :
  let so := subject_overlay r subject in
  let peers := pu_Peers (buildPeerListUpdate r subject snapshot version) in
  ∃ order, NoDup order ∧ pe_PeerName <$> peers = order ∧
    pe_AllowedIps <$> peers = (λ m, slash32 <$> share so m snapshot) <$> order ∧
    (∀ m, m ∈ order ↔ ∃ e, e ∈ snapshot ∧ kept so e ∧ oe_OwningMaster e = m).
Proof.
  intros so peers. unfold peers, buildPeerListUpdate. fold so.
  destruct (group_loop so snapshot) as [Hnd Hord Hagg _].
  destruct (foldl (group_step so) (∅, []) snapshot) as [byM order]. simpl in *.
  exists order. split; [done|]. split; [|split; [|exact Hord]]; clear Hnd Hord.
  - induction order as [|m order IH]; [done|]. simpl.
    destruct (Hagg m) as [ov ->]; [set_solver|]. simpl.
    f_equal; [apply peer_entry_fields|]. apply IH. set_solver.
  - induction order as [|m order IH]; [done|]. simpl.
    destruct (Hagg m) as [ov ->]; [set_solver|]. simpl.
    rewrite (proj2 (peer_entry_fields _ _ _)). simpl.
    f_equal. apply IH. set_solver.
Qed.

Lemma peer_list_spec r subject snapshot version :
  NoDup (oe_OverlayIP <$> snapshot) →
  let peers := pu_Peers (buildPeerListUpdate r subject snapshot version) in
  let so := subject_overlay r subject in
  NoDup (pe_PeerName <$> peers) ∧
  mjoin (pe_AllowedIps <$> peers) ≡ₚ slash32 <$> filter (kept so) snapshot ∧
  NoDup (mjoin (pe_AllowedIps <$> peers)) ∧
  (∀ p ip, p ∈ peers → ip ∈ pe_AllowedIps p ↔
     ∃ e, e ∈ snapshot ∧ kept so e ∧ oe_OwningMaster e = pe_PeerName p ∧ ip = slash32 e).
Proof.
  intros Hsnap peers so.
  destruct (buildPeerListUpdate_peers r subject snapshot version) as (order & Hnd & Hnames & Hips & Hord).
  fold peers in Hnames, Hips. fold so in Hips, Hord.
  assert (mjoin (pe_AllowedIps <$> peers) ≡ₚ slash32 <$> filter (kept so) snapshot) as Hperm.
  { rewrite Hips.
    assert ((λ m, slash32 <$> share so m snapshot) <$> order =
            fmap slash32 <$> ((λ m, share so m snapshot) <$> order)) as ->
      by (rewrite <- list_fmap_compose; done).
    rewrite <- fmap_mjoin. apply fmap_Permutation. unfold share.
    rewrite group_perm by done. rewrite filter_all; [done|]. apply Forall_forall.
    intros e He. apply list_elem_of_filter in He as [? ?]. apply Hord. eauto. }
  split_and!; [by rewrite Hnames|done| |].
  - rewrite Hperm. eapply sublist_NoDup.
    + assert (NoDup (slash32 <$> snapshot)) as Hs; [|exact Hs].
      replace (slash32 <$> snapshot) with ((λ s, s +:+ "/32") <$> (oe_OverlayIP <$> snapshot))
        by (rewrite <- list_fmap_compose; done).
      apply NoDup_fmap_2; [|done]. apply _.
    + apply fmap_sublist, sublist_filter.
  - intros p ip Hp. apply list_elem_of_lookup in Hp as [i Hi].
    pose proof (f_equal (lookup i) Hips) as Hl. rewrite <- Hnames in Hl.
    rewrite !list_lookup_fmap, Hi in Hl. simpl in Hl. injection Hl as ->.
    rewrite list_elem_of_fmap. unfold share. setoid_rewrite list_elem_of_filter.
    setoid_rewrite list_elem_of_filter. naive_solver.
Qed.

(** Every entry is its master's, enriched from the registry. *)
Lemma peer_list_entries r subject snapshot version p :
  p ∈ pu_Peers (buildPeerListUpdate r subject snapshot version) → ∃ agg, p = peer_entry r (pe_PeerName p) agg.
Proof.
  unfold buildPeerListUpdate. destruct (foldl _ _ _) as [byM order]. simpl. intros (m & Hm & Hp)%list_elem_of_omap.
  apply fmap_Some in Hp as (agg & _ & ->). exists agg. by rewrite (proj1 (peer_entry_fields r m agg)).
Qed.

(** A peer list is a partition of the snapshot: peers are named after
    distinct masters, and the allowed IPs of all peers taken together are, up to
    order, exactly the /32s of the entries other than the subject's own; hence no
    /32 is routed to two peers when the overlay IPs are distinct, as they are in
    every ledger snapshot. *)
Theorem peer_list_partition r subject snapshot version :
  NoDup (oe_OverlayIP <$> snapshot) →
  let peers := pu_Peers (buildPeerListUpdate r subject snapshot version) in
  let so := subject_overlay r subject in
  NoDup (pe_PeerName <$> peers) ∧
  mjoin (pe_AllowedIps <$> peers) ≡ₚ slash32 <$> filter (kept so) snapshot ∧
  NoDup (mjoin (pe_AllowedIps <$> peers)) ∧
  (∀ p ip, p ∈ peers → ip ∈ pe_AllowedIps p ↔
     ∃ e, e ∈ snapshot ∧ kept so e ∧ oe_OwningMaster e = pe_PeerName p ∧ ip = slash32 e).
Proof. apply peer_list_spec. Qed.

Definition demo_snapshot : list OwnershipEntry :=
  [MkEntry "10.0.0.1" "m1" 0 "" "register" 1; MkEntry "10.0.0.2" "m2" 0 "" "register" 1;
   MkEntry "10.0.0.3" "m1" 0 "" "register" 1; MkEntry "10.0.0.4" "m2" 0 "" "register" 1].

Lemma peer_list_partition_witness :
  pe_AllowedIps <$> pu_Peers (buildPeerListUpdate NewRegistry "c1" demo_snapshot 4) =
    [["10.0.0.1/32"; "10.0.0.3/32"]; ["10.0.0.2/32"; "10.0.0.4/32"]] ∧
  NoDup (mjoin (pe_AllowedIps <$> pu_Peers (buildPeerListUpdate NewRegistry "c1" demo_snapshot 4))).
Proof.
  split; [vm_compute; reflexivity|].
  apply (peer_list_partition NewRegistry "c1" demo_snapshot 4).
  apply (bool_decide_unpack (NoDup (oe_OverlayIP <$> demo_snapshot))). vm_compute. exact I.
Defined.
