(* ===== verification/CertLifecycle.v ===== *)
(** * Certificate lifecycle ([src/pkg/control_plane/cert_lifecycle.go])

    When a node's mTLS certificate is due for replacement, how long the stream
    that watches it sleeps, and which host names the replacement carries. The PEM
    and X.509 decoders and the issuer are parameters: the first two are
    cryptographic libraries, the third is the source's own interface
    [CertIssuer]. *)

From S2P Require Import Prelude GoStrings GoNet.
From S2P Require Import Ledger Registry.

(** ** Durations: [int64] nanoseconds *)
Definition Second : Z := 1000000000.
Definition Hour : Z := 3600 * Second.
Definition maxDuration : Z := 2 ^ 63 - 1.
Definition minDuration : Z := - 2 ^ 63.

(** [t.Sub(u)] saturates. *)
Definition time_Sub (t u : time) : Z := Z.max minDuration (Z.min maxDuration (t - u)).

(** Seconds between Go's zero time and the Unix epoch. *)
Definition unixToInternal : Z := 62135596800.
(** [t.Unix()] *)
Definition Unix (t : time) : Z := t / Second - unixToInternal.

Definition defaultCertRotationDays : Z := 90.
Definition defaultCertRenewBefore : Z := 7 * 24 * Hour.
Definition defaultCertPollInterval : Z := Hour.
Definition defaultCertPromotionGrace : Z := Hour.

(** What the code reads of an [x509.Certificate]. *)
Record Certificate := MkCert {
  crt_CommonName : string;
  crt_NotBefore : time;
  crt_NotAfter : time;
  crt_DNSNames : list string;
  crt_IPAddresses : list Z             (* net.IP, as 16 bytes *)
}.

(** [pb.CertUpdate] *)
Record CertUpdate := MkCertUpdate {
  cu_CertPem : string;
  cu_KeyPem : string;
  cu_ValidFromUnix : Z;
  cu_ValidUntilUnix : Z
}.

Inductive cert_error :=
  | ErrNoPEMBlock
  | ErrParseCertificate
  | ErrParseCurrent (node : string) (e : cert_error)
  | ErrCertCNMismatch (cn node : string)
  | ErrIssue (node : string) (e : cert_error)
  | ErrCAMaterialRequired
  | ErrIssuerRequired
  | ErrIssuerFailed (what : string).

(** [interface CertIssuer] *)
Definition CertIssuer : Type :=
  RegisteredNode → list string → Z → res cert_error (string * string * Certificate).

Record CertLifecycleConfig := MkCertLifecycleConfig {
  cc_RotationDays : Z;
  cc_RenewBefore : Z;
  cc_PollInterval : Z
}.

Record CertLifecycle := MkCertLifecycle {
  cl_issuer : CertIssuer;
  cl_validFor : Z;
  cl_renewBefore : Z;
  cl_pollInterval : Z
}.

(** The [Now] field is the clock every operation below takes as an argument. *)
Definition NewCertLifecycle (issuer : option CertIssuer) (cfg : CertLifecycleConfig)
    : res cert_error CertLifecycle :=
  match issuer with
  | None => Err ErrIssuerRequired
  | Some issuer =>
      let rotationDays := if cc_RotationDays cfg <=? 0 then defaultCertRotationDays else cc_RotationDays cfg in
      let renewBefore := if cc_RenewBefore cfg <=? 0 then defaultCertRenewBefore else cc_RenewBefore cfg in
      let pollInterval := if cc_PollInterval cfg <=? 0 then defaultCertPollInterval else cc_PollInterval cfg in
      Ok (MkCertLifecycle issuer (wrap_int64 (wrap_int64 (rotationDays * 24) * Hour)) renewBefore pollInterval)
  end.

(** ** Host names of the replacement *)

(** The state is [(hosts, seen)]. *)
Definition addUniqueHost (st : list string * gset string) (host : string) : list string * gset string :=
  if bool_decide (host = "") then st else
  let host := match ParseIP host with Some ip => ip_string ip | None => host end in
  if bool_decide (host ∈ st.2) then st else (st.1 ++ [host], {[host]} ∪ st.2).

Definition certHostsForNode (node : RegisteredNode) (current : option Certificate) : list string :=
  let st := ([], ∅) in
  let st :=
    match current with
    | Some current =>
        let st := addUniqueHost st (crt_CommonName current) in
        let st := foldl addUniqueHost st (crt_DNSNames current) in
        foldl (λ st ip, addUniqueHost st (ip_string ip)) st (crt_IPAddresses current)
    | None => st
    end in
  let st := addUniqueHost st (rn_Name node) in
  let st := if bool_decide (rn_OverlayIP node ≠ "") then addUniqueHost st (rn_OverlayIP node) else st in
  st.1.

Section lifecycle.
(** [encoding/pem] and [crypto/x509]. *)
Context (pem_Decode : string → option string) (ParseCertificate : string → option Certificate).

(** [pkg/tls.ParseCertPEM] *)
Definition ParseCertPEM (certPEM : string) : res cert_error Certificate :=
  match pem_Decode certPEM with
  | None => Err ErrNoPEMBlock
  | Some bytes =>
      match ParseCertificate bytes with
      | None => Err ErrParseCertificate
      | Some cert => Ok cert
      end
  end.

(** [CAIssuer]: [issue] is [pkgtls.IssueCertWithValidity] applied to the CA
    material, [None] when the material is missing. *)
Definition CAIssuer_IssueNodeCert
    (issue : option (string → list string → Z → res cert_error (string * string))) : CertIssuer :=
  λ node hosts validFor,
    match issue with
    | None => Err ErrCAMaterialRequired
    | Some issue =>
        let! pem := issue (rn_Name node) hosts validFor in
        let! cert := ParseCertPEM pem.1 in
        Ok (pem.1, pem.2, cert)
    end.

(** The result is [(update, deadline, due)]: [due] is [update ≠ None]. *)
Definition NextDueUpdate (c : CertLifecycle) (now : time) (node : RegisteredNode)
    : res cert_error (option CertUpdate * time) :=
  let! current := wrap_err (ErrParseCurrent (rn_Name node)) (ParseCertPEM (rn_NodeCertPEM node)) in
  if bool_decide (crt_CommonName current ≠ rn_Name node)
  then Err (ErrCertCNMismatch (crt_CommonName current) (rn_Name node)) else
  if hasActivePendingCert node now then Ok (None, crt_NotAfter current) else
  if now + cl_renewBefore c <? crt_NotAfter current then Ok (None, crt_NotAfter current) else
  let minDeadline := now + defaultCertPromotionGrace in
  let promotionDeadline :=
    if crt_NotAfter current <? minDeadline then minDeadline else crt_NotAfter current in
  let! issued := wrap_err (ErrIssue (rn_Name node))
    (cl_issuer c node (certHostsForNode node (Some current)) (cl_validFor c)) in
  let '(certPEM, keyPEM, cert) := issued in
  Ok (Some (MkCertUpdate certPEM keyPEM (Unix (crt_NotBefore cert)) (Unix (crt_NotAfter cert))),
      promotionDeadline).

Definition DelayUntilDue (c : CertLifecycle) (now : time) (node : RegisteredNode) : Z :=
  match ParseCertPEM (rn_NodeCertPEM node) with
  | Err _ => 0
  | Ok current =>
      if hasActivePendingCert node now then cl_pollInterval c else
      let delay := time_Sub (crt_NotAfter current - cl_renewBefore c) now in
      if delay <? 0 then 0
      else if cl_pollInterval c <? delay then cl_pollInterval c
      else delay
  end.
End lifecycle.

(** ** Configuration *)

Lemma NewCertLifecycle_fields issuer cfg c :
  NewCertLifecycle (Some issuer) cfg = Ok c → 0 < cl_renewBefore c ∧ 0 < cl_pollInterval c.
Proof.
  unfold NewCertLifecycle. intros H. inv_res. simpl.
  destruct (Z.leb_spec (cc_RenewBefore cfg) 0), (Z.leb_spec (cc_PollInterval cfg) 0);
    split; try done; vm_compute; reflexivity.
Qed.

(** The validity is the configured number of days while it fits a [Duration];
    106751 days is the most that does. *)
Lemma NewCertLifecycle_validFor issuer cfg c :
  cc_RotationDays cfg ≤ 106751 → NewCertLifecycle (Some issuer) cfg = Ok c →
  cl_validFor c = (if cc_RotationDays cfg <=? 0 then 90 else cc_RotationDays cfg) * 24 * Hour ∧
  0 < cl_validFor c.
Proof.
  unfold NewCertLifecycle. intros Hd H. inv_res. simpl. unfold Hour, Second, defaultCertRotationDays.
  destruct (Z.leb_spec (cc_RotationDays cfg) 0).
  - split; [reflexivity|vm_compute; reflexivity].
  - rewrite !wrap_int64_id by (rewrite ?wrap_int64_id; lia). lia.
Qed.

(** ** Hosts *)

(** The form under which a host is listed. *)
Definition host_form (h : string) : string :=
  match ParseIP h with Some ip => ip_string ip | None => h end.

(** What the accumulator of [addUniqueHost] knows after the hosts [hs]: no
    duplicates, [seen] is the list's set, and the list holds exactly the forms of
    the non-empty hosts. *)
Record hosts_inv (hs : list string) (st : list string * gset string) : Prop := {
  hi_nodup : NoDup st.1;
  hi_seen : ∀ h, h ∈ st.1 ↔ h ∈ st.2;
  hi_elems : ∀ x, x ∈ st.1 ↔ ∃ h, h ∈ hs ∧ h ≠ "" ∧ x = host_form h
}.

Lemma addUniqueHost_inv hs st h :
  hosts_inv hs st → hosts_inv (hs ++ [h]) (addUniqueHost st h).
Proof.
  intros [Hnd Hseen Hel]. unfold addUniqueHost. fold (host_form h).
  case_bool_decide as Hh; [|case_bool_decide as Hin].
  - split; [done..|]. intros x. rewrite Hel. subst h. set_solver.
  - split; [done..|]. intros x. rewrite Hel. rewrite <- Hseen, Hel in Hin.
    destruct Hin as (h' & Hh' & Hne & Heq). split; [set_solver|].
    intros (h'' & [Hi| ->%list_elem_of_singleton]%elem_of_app & Hne' & ->); [eauto|].
    exists h'. rewrite Heq. done.
  - rewrite <- Hseen in Hin. split; simpl.
    + apply NoDup_app. split_and!; [done|set_solver|apply NoDup_singleton].
    + set_solver.
    + intros x. rewrite elem_of_app, Hel. set_solver.
Qed.

Lemma addUniqueHost_fold ls : ∀ hs st,
  hosts_inv hs st → hosts_inv (hs ++ ls) (foldl addUniqueHost st ls).
Proof.
  induction ls as [|h ls IH]; intros hs st H; simpl; [by rewrite app_nil_r|].
  rewrite cons_middle, app_assoc. by apply IH, addUniqueHost_inv.
Qed.

(** The hosts a replacement certificate is asked for, before deduplication. *)
Definition wanted_hosts (node : RegisteredNode) (current : Certificate) : list string :=
  crt_CommonName current :: crt_DNSNames current ++ (ip_string <$> crt_IPAddresses current) ++
  [rn_Name node; rn_OverlayIP node].

Lemma certHosts_inv node current :
  ∃ seen, hosts_inv (wanted_hosts node current) (certHostsForNode node (Some current), seen).
Proof.
  set (st := foldl addUniqueHost ([], ∅) (wanted_hosts node current)).
  assert (hosts_inv (wanted_hosts node current) st) as Hst.
  { apply (addUniqueHost_fold (wanted_hosts node current) []).
    split; [constructor|set_solver|set_solver]. }
  exists st.2. enough (certHostsForNode node (Some current) = st.1) as -> by by destruct st.
  unfold certHostsForNode, st, wanted_hosts. simpl.
  rewrite !foldl_app, foldl_fmap. simpl. f_equal.
  case_bool_decide as He; [done|]. by rewrite He.
Qed.

(** The replacement certificate keeps every identity: its host list has no
    duplicates (an address is compared in its canonical form) and holds exactly
    the canonical forms of the current common name, the current DNS names and
    addresses, the node's name and its overlay IP, empty ones left out. *)
Theorem certHostsForNode_spec node current :
  NoDup (certHostsForNode node (Some current)) ∧
  (∀ x, x ∈ certHostsForNode node (Some current) ↔
        ∃ h, h ∈ wanted_hosts node current ∧ h ≠ "" ∧ x = host_form h).
Proof. destruct (certHosts_inv node current) as [seen [H1 H2 H3]]. auto. Qed.

(** ** The renewal loop *)

Section renewal.
Context (pem_Decode : string → option string) (ParseCertificate : string → option Certificate).
Notation ParseCertPEM := (ParseCertPEM pem_Decode ParseCertificate).
Notation NextDueUpdate := (NextDueUpdate pem_Decode ParseCertificate).
Notation DelayUntilDue := (DelayUntilDue pem_Decode ParseCertificate).

(** Renewal is due at [t] for a certificate that expires at [notAfter]. *)
Definition renewal_due (c : CertLifecycle) (notAfter t : time) : Prop :=
  notAfter ≤ t + cl_renewBefore c.

Lemma NextDueUpdate_not_due c now node deadline :
  NextDueUpdate c now node = Ok (None, deadline) →
  ∃ current, ParseCertPEM (rn_NodeCertPEM node) = Ok current ∧
    (hasActivePendingCert node now = true ∨ ~ renewal_due c (crt_NotAfter current) now).
Proof.
  unfold CertLifecycle.NextDueUpdate, renewal_due. intros H. inv_res.
  exists a. split; [done|].
  destruct (hasActivePendingCert node now); [by left|right].
  destruct (Z.ltb_spec (now + cl_renewBefore c) (crt_NotAfter a)) as [|]; [lia|].
  inv_res. by destruct a0 as [[??]?].
Qed.

Lemma NextDueUpdate_due c now node u deadline :
  NextDueUpdate c now node = Ok (Some u, deadline) →
  ∃ current, ParseCertPEM (rn_NodeCertPEM node) = Ok current ∧
    crt_CommonName current = rn_Name node ∧ hasActivePendingCert node now = false ∧
    renewal_due c (crt_NotAfter current) now ∧
    deadline = Z.max (crt_NotAfter current) (now + defaultCertPromotionGrace) ∧
    ∃ cert, cl_issuer c node (certHostsForNode node (Some current)) (cl_validFor c) =
      Ok (cu_CertPem u, cu_KeyPem u, cert).
Proof.
  unfold CertLifecycle.NextDueUpdate, renewal_due. intros H. inv_res.
  exists a. bool_to_prop. apply dec_stable in Hc.
  destruct (hasActivePendingCert node now); [discriminate|].
  destruct (Z.ltb_spec (now + cl_renewBefore c) (crt_NotAfter a)) as [|]; [discriminate|].
  inv_res. destruct a0 as [[certPEM keyPEM] cert]. injection H as <- <-.
  split_and!; [done..| |eauto].
  destruct (Z.ltb_spec (crt_NotAfter a) (now + defaultCertPromotionGrace)); lia.
Qed.
End renewal.

(** The stream that watches a certificate neither spins nor oversleeps: the
    sleep is at most the poll interval; when no update is due it is positive; and,
    for a node without an active pending certificate, renewal is not yet due at
    any instant before the sleep ends, while a sleep shorter than the poll
    interval ends exactly when it is due. *)
Theorem DelayUntilDue_exact pem_Decode ParseCertificate c now node current :
  0 < cl_pollInterval c ≤ maxDuration →
  ParseCertPEM pem_Decode ParseCertificate (rn_NodeCertPEM node) = Ok current →
  let delay := DelayUntilDue pem_Decode ParseCertificate c now node in
  0 ≤ delay ≤ cl_pollInterval c ∧
  (∀ d, NextDueUpdate pem_Decode ParseCertificate c now node = Ok (None, d) → 0 < delay) ∧
  (hasActivePendingCert node now = false →
     (∀ t, now ≤ t < now + delay → ~ renewal_due c (crt_NotAfter current) t) ∧
     (delay < cl_pollInterval c → renewal_due c (crt_NotAfter current) (now + delay))).
Proof.
  intros Hp Hcur delay.
  assert (hasActivePendingCert node now = true ∧ delay = cl_pollInterval c ∨
          hasActivePendingCert node now = false ∧
          delay = Z.max 0 (Z.min (cl_pollInterval c) (crt_NotAfter current - cl_renewBefore c - now)))
    as Hdelay.
  { unfold delay, DelayUntilDue. rewrite Hcur.
    destruct (hasActivePendingCert node now); [by left|right]. split; [done|].
    unfold time_Sub, maxDuration, minDuration in *.
    set (x := crt_NotAfter current - cl_renewBefore c - now). clearbody x.
    destruct (Z.ltb_spec (Z.max (- 2 ^ 63) (Z.min (2 ^ 63 - 1) x)) 0); [lia|].
    destruct (Z.ltb_spec (cl_pollInterval c) (Z.max (- 2 ^ 63) (Z.min (2 ^ 63 - 1) x))); lia. }
  clearbody delay. unfold renewal_due. split_and!; [lia|lia| |].
  - intros d Hd. apply NextDueUpdate_not_due in Hd as (cur & Hcur' & Hd).
    rewrite Hcur in Hcur'. injection Hcur' as <-. unfold renewal_due in Hd.
    destruct Hdelay as [[Hpend ->]|[Hpend ->]]; [lia|]. destruct Hd; [congruence|lia].
  - intros Hpend. destruct Hdelay as [[Hpend' ->]|[_ ->]]; [congruence|]. split; intros; lia.
Qed.

(** A concrete decoder: the PEM text is the node's name, the certificate expires
    at second 1000000. *)
Definition demo_pem (s : string) : option string := if bool_decide (s = "") then None else Some s.
Definition demo_x509 (s : string) : option Certificate :=
  Some (MkCert "n1" 0 (1000000 * Second) ["n1"; "n1.mesh"] [v4_mapped 0x0a000001]).
Definition demo_issuer : CertIssuer :=
  λ node hosts validFor, Ok ("new-cert", "new-key", MkCert "n1" 0 validFor hosts []).
Definition demo_lifecycle : CertLifecycle := MkCertLifecycle demo_issuer (90 * 24 * Hour) (7 * 24 * Hour) Hour.

Lemma DelayUntilDue_exact_witness :
  let delay := DelayUntilDue demo_pem demo_x509 demo_lifecycle (395000 * Second) (demo_node "n1" "10.0.0.1" "c1") in
  delay = 200 * Second ∧
  renewal_due demo_lifecycle (1000000 * Second) (395000 * Second + delay).
Proof.
  intros delay.
  assert (delay = 200 * Second) as Hd by reflexivity.
  split; [exact Hd|].
  apply (DelayUntilDue_exact demo_pem demo_x509 demo_lifecycle (395000 * Second)
    (demo_node "n1" "10.0.0.1" "c1") (MkCert "n1" 0 (1000000 * Second) ["n1"; "n1.mesh"] [v4_mapped 0x0a000001])).
  - vm_compute. split; [reflexivity|discriminate].
  - reflexivity.
  - reflexivity.
  - fold delay. rewrite Hd. reflexivity.
Defined.

(** An issued replacement can be installed and is the only one outstanding: if
    an update is due at [now] with the deadline [deadline], then the registry
    accepts the rollover at any time before [now] plus the one-hour grace, and
    until the deadline the watched node is never due again. *)
Theorem due_update_installs pem_Decode ParseCertificate c now now' r name node u deadline :
  NextDueUpdate pem_Decode ParseCertificate c now node = Ok (Some u, deadline) →
  rg_byName r !! name = Some node → name ≠ "" → cu_CertPem u ≠ "" →
  0 ≤ now ≤ now' → now' < now + defaultCertPromotionGrace →
  ∃ r' node', AllowCertRollover now' name (cu_CertPem u) deadline r = Ok r' ∧
    registry_Lookup r' name = Some node' ∧ rn_PendingCertPEM node' = cu_CertPem u ∧
    ∀ t, t < deadline → ∃ d, NextDueUpdate pem_Decode ParseCertificate c t node' = Ok (None, d).
Proof.
  intros Hdue Hnode Hname Hpem Hnow Hgrace.
  apply NextDueUpdate_due in Hdue as (cur & Hcur & Hcn & Hpend & _ & Hdl & _).
  assert (hasActivePendingCert node now' = false) as Hpend'.
  { unfold hasActivePendingCert, After in *. case_bool_decide; [done|].
    apply andb_false_iff in Hpend as [->|Hb%Z.ltb_ge]; [done|].
    apply andb_false_iff. right. apply Z.ltb_ge. lia. }
  unfold defaultCertPromotionGrace, Hour, Second in *.
  assert (now' < deadline ∧ deadline ≠ 0) as [Hlt Hnz] by lia. clear Hdl.
  unfold AllowCertRollover, IsZero, After.
  rewrite !bool_decide_eq_false_2 by done.
  rewrite (proj2 (Z.eqb_neq _ _) Hnz), (proj2 (Z.ltb_lt _ _) Hlt), Hnode, Hpend'. simpl.
  eexists _, _. split; [done|]. split; [unfold registry_Lookup; simpl; by rewrite lookup_insert_eq|].
  split; [done|]. intros t Ht. exists (crt_NotAfter cur).
  unfold NextDueUpdate. simpl. rewrite Hcur. simpl.
  rewrite bool_decide_eq_false_2 by (by intros []).
  unfold hasActivePendingCert, IsZero, After. simpl.
  rewrite bool_decide_eq_false_2 by done.
  by rewrite (proj2 (Z.eqb_neq _ _) Hnz), (proj2 (Z.ltb_lt _ _) Ht).
Qed.

Lemma due_update_installs_witness :
  let node := demo_node "n1" "10.0.0.1" "c1" in
  ∃ u deadline r' node',
    NextDueUpdate demo_pem demo_x509 demo_lifecycle (500000 * Second) node = Ok (Some u, deadline) ∧
    AllowCertRollover (500001 * Second) "n1" (cu_CertPem u) deadline (MkRegistry {["n1" := node]} ∅) = Ok r' ∧
    registry_Lookup r' "n1" = Some node' ∧ rn_PendingCertPEM node' = "new-cert".
Proof.
  intros node.
  destruct (due_update_installs demo_pem demo_x509 demo_lifecycle (500000 * Second) (500001 * Second)
    (MkRegistry {["n1" := node]} ∅) "n1" node
    (MkCertUpdate "new-cert" "new-key" (- unixToInternal) (90 * 24 * 3600 - unixToInternal))
    (1000000 * Second)) as (r' & node' & H1 & H2 & H3 & _).
  - vm_compute. reflexivity.
  - reflexivity.
  - discriminate.
  - discriminate.
  - unfold Second. lia.
  - unfold defaultCertPromotionGrace, Hour, Second. lia.
  - eexists _, _, r', node'. split; [vm_compute; reflexivity|]. split; [exact H1|]. split; [exact H2|exact H3].
Defined.
