(* ===== verification/Server.v ===== *)
(** * The control-plane server ([src/pkg/control_plane/server.go])

    The RPC handlers over the registry, the ledger, the audit log and the two
    broadcasters. A handler is a state transformer; [time.Now] is a clock indexed
    by the number of readings so far (and, inside [Drain], by the entry being
    moved). The listener that [NewServer] installs on the ledger hands every
    notification to both broadcasters. Error texts are kept as the values they
    are formatted from. The registration observer is a parameter.

    A handler is one transition here: a run of this file is a sequence of complete calls.
    The program runs handlers concurrently and takes the locks of the registry, the ledger
    and the broadcasters one after the other. What happens between those locks is modelled
    where it matters: other calls during a drain ([Ledger.drain_under_interference],
    [ServerContracts.decommission_race]), the broadcast after the ledger's lock is released
    ([LedgerStream]), and the gap between the first snapshot of a stream and its
    subscription ([ServerContracts.stream_open_gap]). *)

From S2P Require Import Prelude GoStrings GoNet Role.
From S2P Require Import Ledger Registry AuditTrail Fanout PeerList CertLifecycle.

Inductive server_error :=
  | EText (text : string)
  | ERegistry (e : registry_error)
  | ELedger (e : ledger_error)
  | ESeed (node : string) (e : ledger_error)
  | EObserver (e : string)
  | EDrain (e : drain_error).

(** What an audit event's [Detail] is formatted from. *)
Inductive detail :=
  | DEmpty
  | DError (e : server_error)
  | DRegister (roles : list string) (overlay region : string)
  | DReassigned (count : Z)
  | DPartial (count : Z) (e : server_error)
  | DCertIssued (validUntil overlapUntil : Z)
  | DRotateStart (tier rotationID : string) (targets : Z)
  | DRotateResult (rotationID status : string) (results : Z).

Record Server := MkServer {
  sv_registry : Registry;
  sv_ledger : Ledger;
  sv_audit : AuditLog detail;
  sv_peerListBcast : PeerListBroadcaster;
  sv_ownershipBcast : OwnershipBroadcaster;
  sv_ticks : nat                       (* readings of the clock so far *)
}.

Definition NewServer (registry : Registry) (ledger : Ledger) (audit : AuditLog detail) : Server :=
  MkServer registry (SetListener true ledger) audit NewBroadcaster NewBroadcaster 0.

(** ** State passing *)

Definition M (A : Type) : Type := Server → A * Server.
Definition ret {A} (a : A) : M A := λ s, (a, s).
Definition bind {A B} (m : M A) (k : A → M B) : M B := λ s, let '(a, s) := m s in k a s.
Notation "'let*' x := m 'in' k" := (bind m (λ x, k))
  (at level 10, x pattern, m at level 100, k at level 200).
Notation "'do*' m ; k" := (bind m (λ _, k)) (at level 10, m at level 100, k at level 200).

Definition get_registry : M Registry := λ s, (sv_registry s, s).
Definition get_ledger : M Ledger := λ s, (sv_ledger s, s).
Definition put_registry (r : Registry) : M () := λ s,
  ((), MkServer r (sv_ledger s) (sv_audit s) (sv_peerListBcast s) (sv_ownershipBcast s) (sv_ticks s)).

(** A registry mutation: on an error the registry is unchanged. *)
Definition on_registry (op : Registry → res registry_error Registry) : M (res registry_error ()) :=
  let* r := get_registry in
  match op r with
  | Ok r' => do* put_registry r'; ret (Ok ())
  | Err e => ret (Err e)
  end.

(** The closure [NewServer] passes to [SetListener]. *)
Definition on_mutation (s : Server) (n : Notification) : Server :=
  MkServer (sv_registry s) (sv_ledger s) (sv_audit s)
    (Broadcast (MkPeerListUpdateMsg "" (nt_snapshot n) (nt_version n)) (sv_peerListBcast s))
    (Broadcast (MkOwnershipUpdateMsg (nt_snapshot n) (nt_version n) false) (sv_ownershipBcast s))
    (sv_ticks s).

Definition put_ledger (l : Ledger) (ns : list Notification) : M () := λ s,
  ((), foldl on_mutation (MkServer (sv_registry s) l (sv_audit s) (sv_peerListBcast s)
         (sv_ownershipBcast s) (sv_ticks s)) ns).

Definition on_ledger {A} (op : Ledger → A * Ledger * list Notification) : M A :=
  let* l := get_ledger in
  let '(a, l', ns) := op l in
  do* put_ledger l' ns; ret a.

(** ** Small helpers of the source *)

Definition filterOut (l : list string) (exclude : string) : list string :=
  filter (λ s, s ≠ exclude) l.

(** The closure's state is the counter [i]. *)
Definition roundRobinChooser (masters : list string) (i : nat) (_ : string) : string * nat :=
  match masters !! (i mod length masters)%nat with
  | None => ("", i)                    (* no masters *)
  | Some m => (m, S i)
  end.

Definition unixOrZero (t : Z) : time :=
  if t =? 0 then 0 else (t + unixToInternal) * Second.

(** [pb.OwnershipEntry] *)
Record OwnershipProto := MkOwnershipProto {
  op_OverlayIp : string;
  op_OwningMaster : string;
  op_LastReassignedAtUnix : Z;
  op_Reason : string
}.
Definition ownershipToProto (l : list OwnershipEntry) : list OwnershipProto :=
  (λ e, MkOwnershipProto (oe_OverlayIP e) (oe_OwningMaster e) (Unix (oe_LastReassignedAt e)) (oe_Reason e)) <$> l.

(** [int32(count)] *)
Definition int32 (z : Z) : Z := (z + 2 ^ 31) mod 2 ^ 32 - 2 ^ 31.

(** The loop over the snapshot with the accumulator [owner]. *)
Fixpoint self_master_loop (r : Registry) (owner : string) (snapshot : list OwnershipEntry) : string * bool :=
  match snapshot with
  | [] => (owner, bool_decide (owner ≠ ""))
  | entry :: rest =>
      if bool_decide (oe_OwningMaster entry = "") then self_master_loop r owner rest else
      match registry_Lookup r (oe_OwningMaster entry) with
      | Some node =>
          if negb (is_master node) || bool_decide (rn_OverlayIP node ≠ oe_OverlayIP entry)
          then self_master_loop r owner rest
          else if bool_decide (owner ≠ "") && bool_decide (owner ≠ oe_OwningMaster entry)
          then ("", false)
          else self_master_loop r (oe_OwningMaster entry) rest
      | None => self_master_loop r owner rest
      end
  end.
Definition singleSelfRegisteredMaster (r : Registry) (l : Ledger) : string * bool :=
  self_master_loop r "" (Snapshot l).1.

(** ** Messages *)

Record RegisterNodeRequest := MkRegisterNodeRequest {
  rq_NodeName : string;
  rq_Roles : list string;
  rq_OverlayIp : string;
  rq_Region : string;
  rq_NodeCertPem : string;
  rq_NodeVersion : string;
  rq_Pubkey : string;
  rq_EndpointHost : string;
  rq_Protocol : string
}.
Record RegisterNodeResponse := MkRegisterNodeResponse {
  rs_Accepted : bool;
  rs_RejectReason : option server_error;
  rs_RegisteredAtUnix : Z
}.
Record HeartbeatRequest := MkHeartbeatRequest {
  hq_NodeName : string;
  hq_Health : option (gmap string string);
  hq_Pubkey : string;
  hq_EndpointHost : string;
  hq_Protocol : string
}.
Record HeartbeatResponse := MkHeartbeatResponse { hr_ServerAtUnix : Z; hr_Stale : bool }.
Record DecommissionResponse := MkDecommissionResponse {
  dr_Success : bool;
  dr_Error : option server_error;
  dr_ReassignedOverlayCount : Z
}.
(** A gRPC status: the code and the error behind the message. *)
Inductive status :=
  | StNotFound (node : string)
  | StInternal (e : server_error)
  | StInvalidArgument (text : string)
  | StAborted (e : server_error)
  | StFailedPrecondition (e : cert_error)
  | StNoLifecycle                      (* "cert lifecycle is not configured" *)
  | StUnauthenticated (text : string).

Record QueryAuditRequest := MkQueryAuditRequest {
  qa_SinceUnix : Z;
  qa_UntilUnix : Z;
  qa_EventTypeFilter : string;
  qa_NodeFilter : string;
  qa_Limit : Z
}.
Record AuditEntry := MkAuditEntry {
  au_TsUnix : Z;
  au_EventType : string;
  au_NodeName : string;
  au_Detail : detail;
  au_Actor : string
}.

(** The peer a stream's context carries: [None] without one, [Some None] when its
    [AuthInfo] is not TLS, else the number of verified chains and the peer's
    certificates. *)
Definition authenticatedStreamNodeName (p : option (option (nat * list Certificate))) : res string string :=
  match p with
  | None | Some None => Err "mTLS peer identity required"
  | Some (Some (chains, certs)) =>
      if bool_decide (chains = 0%nat) then Err "verified client certificate required" else
      match certs with
      | [] => Err "verified client certificate required"
      | cert :: _ =>
          if bool_decide (crt_CommonName cert ≠ "") then Ok (crt_CommonName cert) else
          match crt_DNSNames cert with
          | name :: _ => Ok name
          | [] => Err "client certificate identity is empty"
          end
      end
  end.

(** The checks before the loop of [StreamCertUpdate]. *)
Definition cert_stream_open (name : string) (peer : option (option (nat * list Certificate)))
    (configured : bool) : res status () :=
  if bool_decide (name = "") then Err (StInvalidArgument "node_name required") else
  let! authenticatedName := wrap_err StUnauthenticated (authenticatedStreamNodeName peer) in
  if bool_decide (authenticatedName ≠ name)
  then Err (StUnauthenticated "authenticated node cannot request cert update for another node") else
  if negb configured then Err StNoLifecycle else Ok ().

Section handlers.
Context (clock : nat → string → time).
Context (onRegister : option (RegisteredNode → option string)).

Definition Now (label : string) : M time := λ s,
  (clock (sv_ticks s) label,
   MkServer (sv_registry s) (sv_ledger s) (sv_audit s) (sv_peerListBcast s) (sv_ownershipBcast s)
     (S (sv_ticks s))).

(** [s.audit.Append(AuditEvent{...})] *)
Definition audit (eventType nodeName : string) (d : detail) : M () :=
  let* now := Now "" in
  λ s, ((), MkServer (sv_registry s) (sv_ledger s)
              (Append now (MkEvent 0 eventType nodeName d "") (sv_audit s))
              (sv_peerListBcast s) (sv_ownershipBcast s) (sv_ticks s)).

Definition notifyRegistrationObserver (node : RegisteredNode) : res server_error () :=
  match onRegister with
  | None => Ok ()
  | Some f => match f node with Some e => Err (EObserver e) | None => Ok () end
  end.

(** [ledger.Reassign] through the server's ledger. *)
Definition ledger_reassign (ip owner reason : string) : M (res ledger_error Z) :=
  let* now := Now ip in on_ledger (Reassign now ip owner reason).

Definition seedRegisteredNodeOwnership (node : RegisteredNode) : M (res server_error ()) :=
  if is_master node then ret (Ok ()) else
  let* r := get_registry in
  let* l := get_ledger in
  let '(owner, ok) := singleSelfRegisteredMaster r l in
  if negb ok then ret (Ok ()) else
  match ledger_Lookup l (rn_OverlayIP node) with
  | Some _ => ret (Ok ())
  | None =>
      let* v := ledger_reassign (rn_OverlayIP node) owner "register" in
      match v with
      | Ok _ => ret (Ok ())
      | Err e => ret (Err (ESeed (rn_Name node) e))
      end
  end.

Fixpoint seed_all (nodes : list RegisteredNode) : M (res server_error ()) :=
  match nodes with
  | [] => ret (Ok ())
  | node :: nodes =>
      let* v := seedRegisteredNodeOwnership node in
      match v with Ok _ => seed_all nodes | Err e => ret (Err e) end
  end.
Definition seedExistingRegisteredNodeOwnership : M (res server_error ()) :=
  let* r := get_registry in seed_all (registry_List r).

Definition seedRegistrationOwnership (node : RegisteredNode) : M (res server_error ()) :=
  if is_master node then seedExistingRegisteredNodeOwnership else seedRegisteredNodeOwnership node.

(** ** RegisterNode *)

Definition reject (name : string) (e : server_error) : M RegisterNodeResponse :=
  do* audit "register-rejected" name (DError e);
  ret (MkRegisterNodeResponse false (Some e) 0).

(** Audit the rejection, then take the node out of the registry. *)
Definition reject_and_remove (name : string) (e : server_error) : M RegisterNodeResponse :=
  let* resp := reject name e in
  let* removed := on_registry (registry_Remove name) in
  do* match removed with
      | Ok _ => ret ()
      | Err removeErr => audit "register-rollback-failed" name (DError (ERegistry removeErr))
      end;
  ret resp.

Definition requested_node (req : RegisterNodeRequest) : RegisteredNode :=
  MkNode (rq_NodeName req) (rq_Roles req) (rq_OverlayIp req) (rq_Region req) (rq_NodeCertPem req)
    "" 0 (rq_NodeVersion req) 0 0 None (rq_Pubkey req) (rq_EndpointHost req) (rq_Protocol req).

Definition RegisterNode (req : RegisterNodeRequest) : M RegisterNodeResponse :=
  let name := rq_NodeName req in
  if bool_decide (name = "")
  then ret (MkRegisterNodeResponse false (Some (EText "node_name required")) 0) else
  let node := requested_node req in
  let* now := Now "" in
  let* registered := on_registry (Register now node) in
  match registered with
  | Err e => reject name (ERegistry e)
  | Ok _ =>
      let* owned := (if is_master node
                     then ledger_reassign (rq_OverlayIp req) name "register"
                     else ret (Ok 0)) in
      match owned with
      | Err e => reject_and_remove name (ELedger e)
      | Ok _ =>
          let* r := get_registry in
          match registry_Lookup r name with
          | None => reject name (EText "registered node missing after registry write")
          | Some saved =>
              let* seeded := seedRegistrationOwnership saved in
              match seeded with
              | Err e => reject_and_remove name e
              | Ok _ =>
                  match notifyRegistrationObserver saved with
                  | Err e => reject_and_remove name e
                  | Ok _ =>
                      do* audit "register" name (DRegister (rq_Roles req) (rq_OverlayIp req) (rq_Region req));
                      ret (MkRegisterNodeResponse true None (Unix (rn_RegisteredAt saved)))
                  end
              end
          end
      end
  end.

(** ** Heartbeat: one message of the stream *)

Definition heartbeat_message (req : HeartbeatRequest) : M (res status HeartbeatResponse) :=
  let name := hq_NodeName req in
  let hasPeerIdentity := bool_decide (hq_Pubkey req ≠ "") || bool_decide (hq_EndpointHost req ≠ "") ||
                         bool_decide (hq_Protocol req ≠ "") in
  let* now := Now "" in
  let* beat := on_registry (registry_Heartbeat now name (hq_Health req) (hq_Pubkey req)
                              (hq_EndpointHost req) (hq_Protocol req)) in
  match beat with
  | Err _ => ret (Err (StNotFound name))
  | Ok _ =>
      let* identity :=
        (if hasPeerIdentity then
          let* r := get_registry in
          match registry_Lookup r name with
          | None => ret (Err (StNotFound name))
          | Some saved =>
              let* seeded := seedRegistrationOwnership saved in
              match (let! _ := seeded in notifyRegistrationObserver saved) with
              | Err e => do* audit "heartbeat-rejected" name (DError e); ret (Err (StInternal e))
              | Ok _ => ret (Ok ())
              end
          end
        else ret (Ok ())) in
      match identity with
      | Err st => ret (Err st)
      | Ok _ =>
          do* audit "heartbeat" name DEmpty;
          let* now := Now "" in
          ret (Ok (MkHeartbeatResponse (Unix now) false))
      end
  end.

(** What the stream delivers: a message and whether the reply could be sent, or
    its end ([clean] for EOF and a cancelled context). *)
Inductive recv_event :=
  | RecvMsg (req : HeartbeatRequest) (sent : bool)
  | RecvErr (clean : bool).

(** The replies, and how the stream ended: [None] while it is still open. *)
Fixpoint Heartbeat (events : list recv_event)
    : M (list HeartbeatResponse * option (res (option status) ())) :=
  match events with
  | [] => ret ([], None)
  | RecvErr clean :: _ => ret ([], Some (if clean then Ok () else Err None))
  | RecvMsg req sent :: events =>
      let* resp := heartbeat_message req in
      match resp with
      | Err st => ret ([], Some (Err (Some st)))
      | Ok resp =>
          if sent then let* out := Heartbeat events in ret (resp :: out.1, out.2)
          else ret ([], Some (Err None))
      end
  end.

(** ** DecommissionNode *)

(** The masters the node's overlays may go to: its region's, else any. *)
Definition successors (r : Registry) (region name : string) : list string :=
  let candidates := filterOut (MastersInRegion r region) name in
  if bool_decide (length candidates = 0%nat) then filterOut (MastersInRegion r "") name else candidates.

Definition DecommissionNode (name : string) : M DecommissionResponse :=
  if bool_decide (name = "")
  then ret (MkDecommissionResponse false (Some (EText "node_name required")) 0) else
  let* r := get_registry in
  match registry_Lookup r name with
  | None => ret (MkDecommissionResponse false (Some (EText "node not in registry")) 0)
  | Some target =>
      let* l := get_ledger in
      let owns := bool_decide (0 < length (OwnedBy l name))%nat in
      let candidates := successors r (rn_Region target) name in
      if owns && bool_decide (length candidates = 0%nat)
      then ret (MkDecommissionResponse false (Some (EText "no surviving master available for reassignment")) 0)
      else
        let chooser := if owns then Some (roundRobinChooser candidates) else None in
        let* drained := (λ s, on_ledger (λ l,
          let '(out, _, l', ns) := Drain (clock (sv_ticks s)) (λ _ l, l) name "decommission" chooser 0%nat l in
          (out, l', ns)) s) in
        let* _ := Now "" in
        let '(count, err) := drained in
        match err with
        | Some e =>
            do* audit "decommission-failed" name (DError (EDrain e));
            ret (MkDecommissionResponse false (Some (EDrain e)) (int32 count))
        | None =>
            let* removed := on_registry (registry_Remove name) in
            match removed with
            | Err e =>
                do* audit "decommission-partial" name (DPartial count (ERegistry e));
                ret (MkDecommissionResponse false (Some (ERegistry e)) (int32 count))
            | Ok _ =>
                do* audit "decommission" name (DReassigned count);
                ret (MkDecommissionResponse true None (int32 count))
            end
        end
  end.

(** ** Streams *)

(** The first message of [StreamPeerList] and of [StreamOwnership]. *)
Definition peer_list_now (subject : string) : M (res status PeerListUpdate) :=
  if bool_decide (subject = "") then ret (Err (StInvalidArgument "node_name required")) else
  let* r := get_registry in
  let* l := get_ledger in
  let '(snapshot, version) := Snapshot l in
  ret (Ok (buildPeerListUpdate r subject snapshot version)).

Record OwnershipUpdate := MkOwnershipUpdate {
  ou_Entries : list OwnershipProto;
  ou_Version : Z;
  ou_FullSnapshot : bool
}.
Definition ownership_now : M OwnershipUpdate :=
  let* l := get_ledger in
  let '(snapshot, version) := Snapshot l in
  ret (MkOwnershipUpdate (ownershipToProto snapshot) version true).

(** The second step: the subscription, whose id and channel the stream keeps. *)
Definition peer_list_subscribe : M (string * nat) := λ s,
  let '(id, ch, b) := Subscribe (sv_peerListBcast s) in
  ((id, ch), MkServer (sv_registry s) (sv_ledger s) (sv_audit s) b (sv_ownershipBcast s) (sv_ticks s)).
Definition ownership_subscribe : M (string * nat) := λ s,
  let '(id, ch, b) := Subscribe (sv_ownershipBcast s) in
  ((id, ch), MkServer (sv_registry s) (sv_ledger s) (sv_audit s) (sv_peerListBcast s) b (sv_ticks s)).

(** One turn of the delivery loop of [StreamPeerList] on a ready channel: the
    update that is sent, [Err] when the channel was closed, [None] while it is
    empty. *)
Definition peer_list_deliver (subject : string) (ch : nat) : M (option (res status PeerListUpdate)) := λ s,
  match bc_chans (sv_peerListBcast s) !! ch with
  | Some (MkChan [] true) =>
      (Some (Err (StAborted (EText "peer-list subscription dropped (slow consumer)"))), s)
  | _ =>
      let '(m, b) := Recv ch (sv_peerListBcast s) in
      ((λ m, Ok (buildPeerListUpdate (sv_registry s) subject (pm_Snapshot m) (pm_Version m))) <$> m,
       MkServer (sv_registry s) (sv_ledger s) (sv_audit s) b (sv_ownershipBcast s) (sv_ticks s))
  end.
Definition ownership_deliver (ch : nat) : M (option (res status OwnershipUpdate)) := λ s,
  match bc_chans (sv_ownershipBcast s) !! ch with
  | Some (MkChan [] true) =>
      (Some (Err (StAborted (EText "ownership subscription dropped (slow consumer)"))), s)
  | _ =>
      let '(m, b) := Recv ch (sv_ownershipBcast s) in
      ((λ m, Ok (MkOwnershipUpdate (ownershipToProto (om_Entries m)) (om_Version m) (om_FullSnapshot m))) <$> m,
       MkServer (sv_registry s) (sv_ledger s) (sv_audit s) (sv_peerListBcast s) b (sv_ticks s))
  end.
(** The deferred [cancel()]. *)
Definition peer_list_cancel (id : string) : M () := λ s,
  ((), MkServer (sv_registry s) (sv_ledger s) (sv_audit s) (cancel id (sv_peerListBcast s))
         (sv_ownershipBcast s) (sv_ticks s)).
Definition ownership_cancel (id : string) : M () := λ s,
  ((), MkServer (sv_registry s) (sv_ledger s) (sv_audit s) (sv_peerListBcast s)
         (cancel id (sv_ownershipBcast s)) (sv_ticks s)).

(** ** QueryAudit *)

Definition QueryAudit (sorter : list (AuditEvent detail) → list (AuditEvent detail))
    (req : QueryAuditRequest) (s : Server) : list AuditEntry :=
  (λ e, MkAuditEntry (Unix (ae_Timestamp e)) (ae_EventType e) (ae_NodeName e) (ae_Detail e) (ae_Actor e)) <$>
  Query sorter (sv_audit s) (unixOrZero (qa_SinceUnix req)) (unixOrZero (qa_UntilUnix req))
    (qa_EventTypeFilter req) (qa_NodeFilter req) (qa_Limit req).

(** ** StreamCertUpdate: one turn of its loop *)

Context (pem_Decode : string → option string) (ParseCertificate : string → option Certificate).

Inductive cert_turn :=
  | CertSent (u : CertUpdate)
  | CertSleep (delay : Z)
  | CertEnd (st : option status)     (* [None] is a nil error *)
  | CertSendFailed.                  (* the error of [stream.Send] *)

(** [send] is the outcome of [stream.Send]; [ctx_done] says whether the stream's
    context is done when a send failed. *)
Definition cert_update_turn (c : CertLifecycle) (name : string) (send : bool) (ctx_done : bool) : M cert_turn :=
  let* r := get_registry in
  match registry_Lookup r name with
  | None => ret (CertEnd (Some (StNotFound name)))
  | Some node =>
      let* now := Now "" in
      match NextDueUpdate pem_Decode ParseCertificate c now node with
      | Err e => ret (CertEnd (Some (StFailedPrecondition e)))
      | Ok (None, _) =>
          let* now := Now "" in
          ret (CertSleep (DelayUntilDue pem_Decode ParseCertificate c now node))
      | Ok (Some update, overlapUntil) =>
          let* now := Now "" in
          let* allowed := on_registry (AllowCertRollover now name (cu_CertPem update) overlapUntil) in
          match allowed with
          | Err ErrRegistryNotFound => ret (CertEnd (Some (StNotFound name)))
          | Err ErrRegistryPendingCert => ret (CertEnd (Some (StAborted (ERegistry ErrRegistryPendingCert))))
          | Err e => ret (CertEnd (Some (StInternal (ERegistry e))))
          | Ok _ =>
              do* audit "cert-update-issued" name (DCertIssued (cu_ValidUntilUnix update) (Unix overlapUntil));
              if send then ret (CertSent update) else
              let* cleared := on_registry (ClearCertRollover name (cu_CertPem update)) in
              match cleared with
              | Ok _ | Err ErrRegistryNotFound =>
                  ret (if ctx_done then CertEnd None else CertSendFailed)
              | Err e => ret (CertEnd (Some (StInternal (ERegistry e))))
              end
          end
      end
  end.
End handlers.
