(* ===== verification/ServerProofs.v ===== *)
(** * Properties of the control-plane server

    Every handler of [Server] moves the server along the relation [reach]: the
    registry and the audit log keep their invariants, and the ledger changes by
    ledger operations whose notifications, in order, are what both broadcasters
    send. The invariants of a whole run, what the streams deliver, and the
    contracts of [RegisterNode] and [DecommissionNode] follow from it. *)

From S2P Require Import Prelude GoStrings GoNet Role.
From S2P Require Import Ledger Registry AuditTrail Fanout PeerList CertLifecycle Server.

Definition pmsg (n : Notification) : PeerListUpdateMsg := MkPeerListUpdateMsg "" (nt_snapshot n) (nt_version n).
Definition omsg (n : Notification) : OwnershipUpdateMsg := MkOwnershipUpdateMsg (nt_snapshot n) (nt_version n) false.

Definition send_all {A} (f : Notification → A) (ns : list Notification) (b : Broadcaster A) : Broadcaster A :=
  foldl (λ b n, Broadcast (f n) b) b ns.

Lemma send_all_app {A} (f : Notification → A) ns ns' b :
  send_all f (ns ++ ns') b = send_all f ns' (send_all f ns b).
Proof. apply foldl_app. Qed.

Lemma send_all_wf {A} (f : Notification → A) ns : ∀ b, bc_wf b → bc_wf (send_all f ns b).
Proof. induction ns as [|n ns IH]; intros b H; [done|]. by apply IH, Broadcast_wf. Qed.

Lemma on_mutation_fields ns : ∀ s,
  let s' := foldl on_mutation s ns in
  sv_registry s' = sv_registry s ∧ sv_ledger s' = sv_ledger s ∧ sv_audit s' = sv_audit s ∧
  sv_peerListBcast s' = send_all pmsg ns (sv_peerListBcast s) ∧
  sv_ownershipBcast s' = send_all omsg ns (sv_ownershipBcast s).
Proof.
  induction ns as [|n ns IH]; intros s; [done|]. simpl.
  destruct (IH (on_mutation s n)) as (-> & -> & -> & -> & ->). done.
Qed.

(** ** The relation every handler stays in *)

Record reach (s s' : Server) : Prop := MkReach {
  rc_registry : registry_wf (sv_registry s) → registry_wf (sv_registry s');
  rc_audit : audit_wf (sv_audit s) → audit_wf (sv_audit s');
  rc_ledger : ∃ ops ns, Forall no_listener_change ops ∧
    run_ops ops (sv_ledger s) = (sv_ledger s', ns) ∧
    sv_peerListBcast s' = send_all pmsg ns (sv_peerListBcast s) ∧
    sv_ownershipBcast s' = send_all omsg ns (sv_ownershipBcast s)
}.

#[global] Instance reach_refl : Reflexive reach.
Proof. intros s. split; [done..|]. by exists [], []. Qed.

Lemma run_ops_app ops ops' l :
  run_ops (ops ++ ops') l =
  (let '(l1, ns1) := run_ops ops l in let '(l2, ns2) := run_ops ops' l1 in (l2, ns1 ++ ns2)).
Proof.
  revert l. induction ops as [|op ops IH]; intros l; simpl.
  - by destruct (run_ops ops' l).
  - destruct (run_op op l) as [l1 ns1]. rewrite IH. destruct (run_ops ops l1) as [l2 ns2].
    destruct (run_ops ops' l2) as [l3 ns3]. by rewrite app_assoc.
Qed.

#[global] Instance reach_trans : Transitive reach.
Proof.
  intros s1 s2 s3 [R1 A1 (ops1 & ns1 & F1 & L1 & P1 & O1)] [R2 A2 (ops2 & ns2 & F2 & L2 & P2 & O2)].
  split; [auto..|]. exists (ops1 ++ ops2), (ns1 ++ ns2). split_and!.
  - by apply Forall_app.
  - by rewrite run_ops_app, L1, L2.
  - by rewrite P2, P1, send_all_app.
  - by rewrite O2, O1, send_all_app.
Qed.

Definition handles {A} (m : M A) : Prop := ∀ s, reach s (m s).2.

Lemma handles_ret {A} (a : A) : handles (ret a).
Proof. intros s. reflexivity. Qed.

Lemma handles_bind {A B} (m : M A) (k : A → M B) : handles m → (∀ a, handles (k a)) → handles (bind m k).
Proof.
  intros Hm Hk s. unfold bind. specialize (Hm s). destruct (m s) as [a s1]. simpl in Hm.
  etransitivity; [exact Hm|]. apply Hk.
Qed.

Lemma handles_get_registry : handles get_registry.
Proof. intros s. reflexivity. Qed.
Lemma handles_get_ledger : handles get_ledger.
Proof. intros s. reflexivity. Qed.

Lemma handles_on_registry op :
  (∀ r r', registry_wf r → op r = Ok r' → registry_wf r') → handles (on_registry op).
Proof.
  intros Hop s. unfold on_registry, get_registry, put_registry, bind, ret. simpl.
  destruct (op (sv_registry s)) as [r'|e] eqn:H; simpl; [|reflexivity].
  split; simpl; [eauto|done|]. by exists [], [].
Qed.

(** A ledger operation that is a sequence of [ledger_op]s. *)
Definition is_ledger_op {A} (op : Ledger → A * Ledger * list Notification) : Prop :=
  ∀ l, ∃ ops, Forall no_listener_change ops ∧ run_ops ops l = ((op l).1.2, (op l).2).

Lemma handles_on_ledger {A} (op : Ledger → A * Ledger * list Notification) :
  is_ledger_op op → handles (on_ledger op).
Proof.
  intros Hop s. unfold on_ledger, get_ledger, put_ledger, bind, ret. simpl.
  destruct (Hop (sv_ledger s)) as (ops & Hf & Hr).
  destruct (op (sv_ledger s)) as [[a l'] ns]. simpl in *.
  set (s1 := MkServer _ _ _ _ _ _).
  destruct (on_mutation_fields ns s1) as (H1 & H2 & H3 & H4 & H5).
  split; [by rewrite H1|by rewrite H3|]. exists ops, ns. rewrite H2, H4, H5. done.
Qed.

Lemma Reassign_is_op now ip owner reason : is_ledger_op (Reassign now ip owner reason).
Proof.
  intros l. exists [OpReassign now ip "" owner reason false]. split; [by repeat constructor|].
  simpl. unfold Reassign. destruct (reassign _ _ _ _ _ _ _) as [[r l'] ns]. simpl. by rewrite app_nil_r.
Qed.

Lemma Drain_is_op clk source reason (ch : option (nat → string → string * nat)) :
  is_ledger_op (λ l, let '(out, _, l', ns) := Drain clk (λ _ l, l) source reason ch 0%nat l in (out, l', ns)).
Proof.
  intros l. unfold Drain.
  destruct (drain_loop_ops clk source reason ch (OwnedBy l source) 0 0%nat l []) as (ops & ns' & Hf & Hr & He).
  exists ops. split; [done|]. destruct (drain_loop _ _ _ _ _ _ _ _ _ _) as [[[out c'] l'] ns].
  simpl in *. by rewrite He.
Qed.

Section facts.
Context (clock : nat → string → time) (onRegister : option (RegisteredNode → option string)).
Context (pem_Decode : string → option string) (ParseCertificate : string → option Certificate).
(** The clock never reads Go's zero time. *)
Hypothesis Hclock : ∀ n label, clock n label ≠ 0.

Lemma handles_Now label : handles (Now clock label).
Proof. intros s. split; simpl; [done..|]. by exists [], []. Qed.

Lemma handles_audit ty nd d : handles (audit clock ty nd d).
Proof.
  intros s. split; simpl; [done|intros; by apply Append_wf|]. by exists [], [].
Qed.

Lemma handles_reassign ip owner reason : handles (ledger_reassign clock ip owner reason).
Proof.
  apply handles_bind; [apply handles_Now|]. intros now. apply handles_on_ledger, Reassign_is_op.
Qed.

(** Follows the structure of a handler. *)
Ltac handle :=
  repeat first
    [ apply handles_ret | apply handles_get_registry | apply handles_get_ledger | apply handles_Now
    | apply handles_audit | apply handles_reassign
    | apply handles_on_registry; intros ???? | apply handles_on_ledger, Drain_is_op
    | progress intros | case_match
    | match goal with |- handles (bind _ _) => apply handles_bind end ].

Lemma handles_seed node : handles (seedRegisteredNodeOwnership clock node).
Proof. unfold seedRegisteredNodeOwnership. handle. Qed.

Lemma handles_seed_all nodes : handles (seed_all clock nodes).
Proof. induction nodes as [|n nodes IH]; simpl; handle; auto using handles_seed. Qed.

Lemma handles_seedRegistration node : handles (seedRegistrationOwnership clock node).
Proof.
  unfold seedRegistrationOwnership, seedExistingRegisteredNodeOwnership.
  handle; auto using handles_seed_all, handles_seed.
Qed.

Lemma handles_reject_and_remove name e : handles (reject_and_remove clock name e).
Proof. unfold reject_and_remove, reject. handle. by eapply Remove_wf. Qed.

Lemma handles_RegisterNode req : handles (RegisterNode clock onRegister req).
Proof.
  unfold RegisterNode. handle;
    eauto using handles_seedRegistration, handles_reject_and_remove, Register_wf; unfold reject; handle.
Qed.

Lemma handles_heartbeat req : handles (heartbeat_message clock onRegister req).
Proof. unfold heartbeat_message. handle; eauto using handles_seedRegistration, Heartbeat_wf. Qed.

Lemma handles_Heartbeat events : handles (Heartbeat clock onRegister events).
Proof. induction events as [|[req sent|clean] events IH]; simpl; handle; auto using handles_heartbeat. Qed.

Lemma handles_Decommission name : handles (DecommissionNode clock name).
Proof.
  unfold DecommissionNode. handle; eauto using Remove_wf;
    intros s; apply handles_on_ledger, Drain_is_op.
Qed.

Lemma handles_cert_turn c name send ctx :
  handles (cert_update_turn clock pem_Decode ParseCertificate c name send ctx).
Proof. unfold cert_update_turn. handle; eauto using AllowCertRollover_wf, ClearCertRollover_wf. Qed.

(** ** Runs *)

Inductive rpc :=
  | RpcRegister (req : RegisterNodeRequest)
  | RpcHeartbeat (events : list recv_event)
  | RpcDecommission (name : string)
  | RpcCertTurn (c : CertLifecycle) (name : string) (send ctx_done : bool)
  | RpcPeerSubscribe
  | RpcPeerDeliver (subject : string) (ch : nat)
  | RpcPeerCancel (id : string)
  | RpcOwnershipSubscribe
  | RpcOwnershipDeliver (ch : nat)
  | RpcOwnershipCancel (id : string).

Definition is_stream_step (r : rpc) : bool :=
  match r with
  | RpcRegister _ | RpcHeartbeat _ | RpcDecommission _ | RpcCertTurn _ _ _ _ => false
  | _ => true
  end.

(** The peer-list updates a step sends, with the channel they came from, and
    the new state. *)
Definition run_rpc (r : rpc) (s : Server) : list (nat * PeerListUpdate) * Server :=
  match r with
  | RpcRegister req => ([], (RegisterNode clock onRegister req s).2)
  | RpcHeartbeat events => ([], (Heartbeat clock onRegister events s).2)
  | RpcDecommission name => ([], (DecommissionNode clock name s).2)
  | RpcCertTurn c name send ctx =>
      ([], (cert_update_turn clock pem_Decode ParseCertificate c name send ctx s).2)
  | RpcPeerSubscribe => ([], (peer_list_subscribe s).2)
  | RpcPeerDeliver subject ch =>
      let '(out, s') := peer_list_deliver subject ch s in
      (match out with Some (Ok u) => [(ch, u)] | _ => [] end, s')
  | RpcPeerCancel id => ([], (peer_list_cancel id s).2)
  | RpcOwnershipSubscribe => ([], (ownership_subscribe s).2)
  | RpcOwnershipDeliver ch => ([], (ownership_deliver ch s).2)
  | RpcOwnershipCancel id => ([], (ownership_cancel id s).2)
  end.

Fixpoint run_rpcs (rs : list rpc) (s : Server) : list (nat * PeerListUpdate) * Server :=
  match rs with
  | [] => ([], s)
  | r :: rs => let '(o1, s1) := run_rpc r s in let '(o2, s2) := run_rpcs rs s1 in (o1 ++ o2, s2)
  end.

Record server_wf (s : Server) : Prop := {
  sw_registry : registry_wf (sv_registry s);
  sw_ledger : ledger_wf (sv_ledger s);
  sw_listener : lg_listener (sv_ledger s) = true;
  sw_audit : audit_wf (sv_audit s);
  sw_peers : bc_wf (sv_peerListBcast s);
  sw_ownership : bc_wf (sv_ownershipBcast s)
}.

Lemma reach_wf s s' : reach s s' → server_wf s → server_wf s'.
Proof.
  intros [HR HA (ops & ns & Hf & Hr & HP & HO)] [Hr0 Hl Hli Ha Hp Ho].
  pose proof (run_ops_wf ops _ Hl) as Hl'. pose proof (run_ops_wrapped ops _ Hf Hli) as Hw.
  rewrite Hr in Hl', Hw. destruct Hw as [Hli' _].
  split; auto; rewrite ?HP, ?HO; by apply send_all_wf.
Qed.

Lemma run_rpc_reach r s : is_stream_step r = false → (run_rpc r s).1 = [] ∧ reach s (run_rpc r s).2.
Proof.
  destruct r; try discriminate; intros _; (split; [done|]); simpl.
  - apply handles_RegisterNode.
  - apply handles_Heartbeat.
  - apply handles_Decommission.
  - apply handles_cert_turn.
Qed.

Lemma run_rpc_wf r s : server_wf s → server_wf (run_rpc r s).2.
Proof.
  intros Hwf. destruct (is_stream_step r) eqn:Hst.
  2:{ eapply reach_wf; [by apply run_rpc_reach|done]. }
  destruct Hwf as [H1 H2 H3 H4 H5 H6]. destruct r; try discriminate; simpl.
  - split; simpl; auto. by apply Subscribe_wf.
  - unfold peer_list_deliver. pose proof (Recv_wf ch _ H5) as Hw. destruct (Recv ch _).
    repeat case_match; simplify_eq; by split.
  - split; simpl; auto. by apply cancel_wf.
  - split; simpl; auto. by apply Subscribe_wf.
  - unfold ownership_deliver. pose proof (Recv_wf ch _ H6) as Hw. destruct (Recv ch _).
    repeat case_match; simplify_eq; by split.
  - split; simpl; auto. by apply cancel_wf.
Qed.

Lemma run_rpcs_wf rs : ∀ s, server_wf s → server_wf (run_rpcs rs s).2.
Proof.
  induction rs as [|r rs IH]; intros s Hwf; [done|]. simpl.
  pose proof (run_rpc_wf r s Hwf) as H1. destruct (run_rpc r s) as [o1 s1].
  specialize (IH s1 H1). by destruct (run_rpcs rs s1).
Qed.

Definition fresh_server (capacity : Z) : Server :=
  NewServer NewRegistry NewLedger (NewAuditLog DEmpty capacity).

Lemma fresh_server_wf capacity : server_wf (fresh_server capacity).
Proof.
  split; simpl; [apply NewRegistry_wf|apply NewLedger_wf|done|apply NewAuditLog_wf|
    apply NewBroadcaster_wf|apply NewBroadcaster_wf].
Qed.

(** ** What a peer-list stream delivers *)

Definition delivered (ch : nat) (out : list (nat * PeerListUpdate)) : list Z :=
  pu_Version <$> (filter (λ x, x.1 = ch) out).*2.

(** A run as the subscriber of [ch] sees it: broadcaster steps whose broadcasts
    are the ledger's notifications. *)
Record stream_run (ch : nat) (s s' : Server) (out : list (nat * PeerListUpdate)) : Prop := MkStreamRun {
  sr_run : ∃ ops ns bops recv, Forall no_listener_change ops ∧
    run_ops ops (sv_ledger s) = (sv_ledger s', ns) ∧
    brun ch bops (sv_peerListBcast s) = (recv, sv_peerListBcast s') ∧
    broadcasts bops = pmsg <$> ns ∧ delivered ch out = pm_Version <$> recv
}.

Lemma brun_flood ch ns : ∀ b : PeerListBroadcaster,
  brun ch (flood (pmsg <$> ns)) b = ([], send_all pmsg ns b) ∧
  broadcasts (flood (pmsg <$> ns)) = pmsg <$> ns.
Proof.
  induction ns as [|n ns IH]; intros b; [done|]. unfold flood in *. rewrite !fmap_cons. simpl.
  destruct (IH (Broadcast (pmsg n) b)) as [-> ->]. done.
Qed.

Lemma brun_app {A} ch ops ops' (b : Broadcaster A) :
  brun ch (ops ++ ops') b =
  (let '(d1, b1) := brun ch ops b in let '(d2, b2) := brun ch ops' b1 in (d1 ++ d2, b2)).
Proof.
  revert b. induction ops as [|op ops IH]; intros b; simpl.
  - by destruct (brun ch ops' b).
  - destruct (bstep ch op b) as [d1 b1]. rewrite IH. destruct (brun ch ops b1) as [d2 b2].
    destruct (brun ch ops' b2) as [d3 b3]. by rewrite app_assoc.
Qed.

Lemma broadcasts_app {A} (ops ops' : list (bop A)) : broadcasts (ops ++ ops') = broadcasts ops ++ broadcasts ops'.
Proof. induction ops as [|[] ops IH]; simpl; [done|done|done|by rewrite IH|done]. Qed.

Lemma stream_run_app ch s1 s2 s3 o1 o2 :
  stream_run ch s1 s2 o1 → stream_run ch s2 s3 o2 → stream_run ch s1 s3 (o1 ++ o2).
Proof.
  intros [(ops1 & ns1 & b1 & r1 & F1 & L1 & B1 & C1 & D1)] [(ops2 & ns2 & b2 & r2 & F2 & L2 & B2 & C2 & D2)].
  split. exists (ops1 ++ ops2), (ns1 ++ ns2), (b1 ++ b2), (r1 ++ r2). split_and!.
  - by apply Forall_app.
  - by rewrite run_ops_app, L1, L2.
  - by rewrite brun_app, B1, B2.
  - by rewrite broadcasts_app, C1, C2, fmap_app.
  - unfold delivered in *. by rewrite filter_app, !fmap_app, D1, D2.
Qed.

(** A step that touches only the broadcaster. *)
Lemma stream_run_bop ch s s' out bop' :
  sv_ledger s' = sv_ledger s → broadcasts [bop'] = [] →
  sv_peerListBcast s' = (bstep ch bop' (sv_peerListBcast s)).2 →
  delivered ch out = pm_Version <$> (bstep ch bop' (sv_peerListBcast s)).1 →
  stream_run ch s s' out.
Proof.
  intros Hl Hb Hs Hd. split.
  exists [], [], [bop'], (bstep ch bop' (sv_peerListBcast s)).1. split_and!; [done|by rewrite Hl| |done|done].
  simpl. rewrite Hs. destruct (bstep ch bop' (sv_peerListBcast s)). simpl. by rewrite app_nil_r.
Qed.

Lemma stream_run_refl ch s s' :
  sv_ledger s' = sv_ledger s → sv_peerListBcast s' = sv_peerListBcast s → stream_run ch s s' [].
Proof. intros Hl Hb. split. exists [], [], [], []. by rewrite Hl, Hb. Qed.

Lemma deliver_stream ch subject c s :
  let '(out, s') := run_rpc (RpcPeerDeliver subject c) s in stream_run ch s s' out.
Proof.
  simpl. unfold peer_list_deliver.
  pose proof (stream_run_bop ch s) as Hb.
  unfold Recv. destruct (bc_chans (sv_peerListBcast s) !! c) as [[[|m buf] cl]|] eqn:Hc; simpl.
  - destruct cl; by apply stream_run_refl.
  - apply (Hb _ _ (BRecv c)); simpl; unfold Recv; rewrite ?Hc; [done..|].
    unfold delivered. rewrite filter_cons, filter_nil. simpl.
    rewrite bool_decide_decide. destruct (decide (c = ch)); [|done].
    cbn. by rewrite buildPeerListUpdate_version.
  - by apply stream_run_refl.
Qed.

Lemma run_rpc_stream ch r s :
  let '(out, s') := run_rpc r s in stream_run ch s s' out.
Proof.
  destruct (is_stream_step r) eqn:Hst.
  2:{ destruct (run_rpc_reach r s Hst) as [Ho [_ _ (ops & ns & Hf & Hr & HP & _)]].
      destruct (run_rpc r s) as [out s']. simpl in *. subst out. split.
      destruct (brun_flood ch ns (sv_peerListBcast s)) as [Hb Hbc].
      exists ops, ns, (flood (pmsg <$> ns)), []. by rewrite Hb, HP. }
  destruct r; try discriminate.
  - by apply (stream_run_bop _ _ _ _ BSubscribe).
  - apply deliver_stream.
  - by apply (stream_run_bop _ _ _ _ (BCancel id)).
  - by apply stream_run_refl.
  - simpl. unfold ownership_deliver. destruct (Recv _ _).
    repeat case_match; simplify_eq; by apply stream_run_refl.
  - by apply stream_run_refl.
Qed.

Lemma run_rpcs_stream ch rs : ∀ s, let '(out, s') := run_rpcs rs s in stream_run ch s s' out.
Proof.
  induction rs as [|r rs IH]; intros s; simpl; [by apply stream_run_refl|].
  pose proof (run_rpc_stream ch r s) as H1. destruct (run_rpc r s) as [o1 s1].
  specialize (IH s1). destruct (run_rpcs rs s1) as [o2 s2]. by eapply stream_run_app.
Qed.

Lemma seqZ_prefix_take {A} (f : Z → A) (l : list A) n m :
  l `prefix_of` f <$> seqZ m n → l = f <$> seqZ m (Z.of_nat (length l)).
Proof.
  intros Hp. assert (length l ≤ length (f <$> seqZ m n))%nat as Hlen by by apply prefix_length.
  rewrite length_fmap, length_seqZ in Hlen.
  assert (l = take (length l) (f <$> seqZ m n)) as Ht.
  { destruct Hp as [k Hk]. rewrite Hk. by rewrite take_app_length. }
  rewrite Ht at 1. rewrite <- fmap_take. f_equal.
  replace n with (Z.of_nat (length l) + (n - Z.of_nat (length l))) by lia.
  destruct (decide (l = [])) as [->|Hne]; [done|].
  rewrite seqZ_app by (destruct l; simpl in *; [done|lia]).
  rewrite take_app_length'; [done|]. rewrite length_seqZ. lia.
Qed.

(** A peer-list stream in a run of complete calls, one after another (overlapping calls
    are the subject of [LedgerStream]): from the moment it
    subscribes, the updates it is sent carry the
    consecutive ledger versions after the version at which it subscribed; and
    when its channel is open and empty and something was sent, the last update
    carries the ledger's current version. *)
Theorem peer_stream_gapless rs s :
  server_wf s →
  let '((id, ch), s1) := peer_list_subscribe s in
  let '(out, s2) := run_rpcs rs s1 in
  let sent := delivered ch out in
  sent = (λ i, wrap_int64 (lg_version (sv_ledger s) + i)) <$> seqZ 1 (Z.of_nat (length sent)) ∧
  (bc_chans (sv_peerListBcast s2) !! ch = Some (MkChan [] false) → sent ≠ [] →
   last sent = Some (lg_version (sv_ledger s2))).
Proof.
  intros Hwf.
  assert (∃ id ch s1, peer_list_subscribe s = ((id, ch), s1) ∧ sv_ledger s1 = sv_ledger s ∧
    chan_status id ch (sv_peerListBcast s1) [] [] ∧ bc_wf (sv_peerListBcast s1)) as (id & ch & s1 & -> & Hl & Hst & Hb).
  { eexists _, _, _. split; [done|]. split; [done|]. split; [apply Subscribe_fresh_status|].
    apply Subscribe_wf, Hwf. }
  pose proof (run_rpcs_stream ch rs s1) as H. destruct (run_rpcs rs s1) as [out s2].
  destruct H as [(ops & ns & bops & recv & Hf & Hr & Hbr & Hbc & Hd)]. simpl.
  pose proof (brun_status bops id ch _ [] [] Hb Hst) as Hs. rewrite Hbr in Hs. simpl in Hs.
  pose proof (run_ops_wrapped ops (sv_ledger s1) Hf) as Hw. rewrite Hr, Hl in Hw.
  destruct (Hw (sw_listener _ Hwf)) as (_ & Hver & _ & Hlast). clear Hw.
  assert (pm_Version <$> (pmsg <$> ns) = nt_version <$> ns) as Hpm by (rewrite <- list_fmap_compose; done).
  rewrite Hbc in Hs. rewrite Hd. split.
  - eapply seqZ_prefix_take. rewrite <- Hver, <- Hpm.
    assert (recv `prefix_of` pmsg <$> ns) as [k Hk]; [|exists (pm_Version <$> k); by rewrite Hk, fmap_app].
    destruct Hs as [buf _ _ <-|buf _ _ Hp]; [by apply prefix_app_r|].
    etransitivity; [by apply prefix_app_r|exact Hp].
  - intros Hopen Hne. destruct Hs as [buf _ Hc Hh|buf _ Hc _]; [|congruence].
    rewrite Hopen in Hc. injection Hc as <-. rewrite app_nil_r in Hh.
    rewrite Hh, Hpm, fmap_last. destruct (last ns) as [n|] eqn:Hn.
    + simpl. by rewrite (Hlast n eq_refl).
    + apply last_None in Hn. subst ns. by rewrite Hh in Hne.
Qed.

(** C1. Every run of RPCs keeps the whole server consistent: starting from a fresh
    server, after any sequence of registrations, heartbeats, decommissions,
    certificate turns, subscriptions, deliveries and cancellations, the
    registry's indexes are inverse, the ledger holds one well-formed entry per
    overlay IP, the audit ring is intact and no channel has two subscriptions. *)
Theorem server_reachable_wf capacity rs : server_wf (run_rpcs rs (fresh_server capacity)).2.
Proof. apply run_rpcs_wf, fresh_server_wf. Qed.
End facts.

(** ** A concrete run *)

Definition demo_clock (n : nat) (_ : string) : time := Z.of_nat n + 1.
Lemma demo_clock_nonzero n label : demo_clock n label ≠ 0.
Proof. unfold demo_clock. lia. Qed.

Definition demo_register (name role ip : string) : RegisterNodeRequest :=
  MkRegisterNodeRequest name [role] ip "eu" ("cert-" +:+ name) "2.0" "pk" "host:51820" "awg".

Definition demo_rpcs : list rpc :=
  [RpcRegister (demo_register "m1" RoleMaster "10.0.0.1");
   RpcPeerDeliver "c1" 0;
   RpcRegister (demo_register "c1" RoleClient "10.0.0.9");
   RpcRegister (demo_register "m2" RoleMaster "10.0.0.2");
   RpcPeerDeliver "c1" 0; RpcPeerDeliver "c1" 0; RpcDecommission "m1"].

Definition demo_server : Server :=
  (run_rpcs demo_clock None demo_pem demo_x509 demo_rpcs (fresh_server 16)).2.

Lemma server_reachable_wf_witness : server_wf demo_server.
Proof.
  apply (server_reachable_wf demo_clock None demo_pem demo_x509 demo_clock_nonzero 16 demo_rpcs).
Defined.

Lemma peer_stream_gapless_witness :
  let '((id, ch), s1) := peer_list_subscribe (fresh_server 16) in
  let '(out, s2) := run_rpcs demo_clock None demo_pem demo_x509 demo_rpcs s1 in
  delivered ch out = [1; 2; 3] ∧
  delivered ch out = (λ i, wrap_int64 (0 + i)) <$> seqZ 1 (Z.of_nat (length (delivered ch out))).
Proof.
  pose proof (peer_stream_gapless demo_clock None demo_pem demo_x509 demo_clock_nonzero demo_rpcs
    (fresh_server 16) (fresh_server_wf 16)) as H.
  destruct (peer_list_subscribe (fresh_server 16)) as [[id ch] s1] eqn:E.
  assert (delivered ch (run_rpcs demo_clock None demo_pem demo_x509 demo_rpcs s1).1 = [1; 2; 3]) as Hv.
  { vm_compute in E. injection E as <- <- <-. vm_compute. reflexivity. }
  destruct (run_rpcs demo_clock None demo_pem demo_x509 demo_rpcs s1) as [out s2].
  split; [exact Hv|apply H].
Defined.
