(* ===== verification/ServerContracts.v ===== *)
(** * Contracts of RegisterNode and DecommissionNode

    What a client of the control plane can rely on: an accepted registration, a
    rejected one, a decommission; the invariant between the registry and the
    ledger that every owner is a registered node; and the behaviours of the
    handlers that break it. *)

From S2P Require Import Prelude GoStrings GoNet Role.
From S2P Require Import Ledger Registry AuditTrail Fanout PeerList CertLifecycle Server ServerProofs.

(** ** Running the primitives *)

(** A step that leaves the registry and the ledger alone. *)
Definition frame {A} (m : M A) : Prop :=
  ∀ s, sv_registry (m s).2 = sv_registry s ∧ sv_ledger (m s).2 = sv_ledger s.

Lemma frame_Now clock label : frame (Now clock label).
Proof. done. Qed.
Lemma frame_audit clock ty nd d : frame (audit clock ty nd d).
Proof. done. Qed.

Lemma on_ledger_run {A} (op : Ledger → A * Ledger * list Notification) s :
  (on_ledger op s).1 = (op (sv_ledger s)).1.1 ∧
  sv_registry (on_ledger op s).2 = sv_registry s ∧
  sv_ledger (on_ledger op s).2 = (op (sv_ledger s)).1.2.
Proof.
  unfold on_ledger, get_ledger, put_ledger, bind, ret. simpl.
  destruct (op (sv_ledger s)) as [[a l'] ns]. simpl. set (s1 := MkServer _ _ _ _ _ _).
  destruct (on_mutation_fields ns s1) as (-> & -> & _). done.
Qed.

Lemma on_registry_run op s :
  match op (sv_registry s) with
  | Ok r' => (on_registry op s).1 = Ok () ∧ sv_registry (on_registry op s).2 = r' ∧
             sv_ledger (on_registry op s).2 = sv_ledger s
  | Err e => on_registry op s = (Err e, s)
  end.
Proof.
  unfold on_registry, get_registry, put_registry, bind, ret. simpl.
  by destruct (op (sv_registry s)).
Qed.

(** ** Successors of a decommissioned master *)

Lemma elem_of_Masters r region m :
  registry_wf r →
  m ∈ MastersInRegion r region ↔
  ∃ n, rg_byName r !! m = Some n ∧ is_master n = true ∧ (region = "" ∨ rn_Region n = region).
Proof.
  intros Hwf. unfold MastersInRegion. rewrite sort_by_elem_of, list_elem_of_fmap. split.
  - intros (n & -> & [[Hreg Hm] Hn]%list_elem_of_filter).
    apply list_elem_of_fmap in Hn as ([k x] & -> & Hk%elem_of_map_to_list). simpl in *.
    rewrite (no_name _ _ (rw_nodes _ Hwf _ _ Hk)). eauto.
  - intros (n & Hn & Hm & Hreg). exists n. split; [symmetry; by apply (rw_nodes _ Hwf)|].
    apply list_elem_of_filter. split; [done|]. apply list_elem_of_fmap. exists (m, n).
    split; [done|]. by apply elem_of_map_to_list.
Qed.

(** A successor is a registered master other than the node; it is in the node's
    region unless no other master is. *)
Lemma elem_of_successors r region name m :
  registry_wf r → m ∈ successors r region name →
  m ≠ name ∧ m ≠ "" ∧ ∃ n, rg_byName r !! m = Some n ∧ is_master n = true ∧
    (region = "" ∨ rn_Region n = region ∨
     ∀ k x, k ≠ name → rg_byName r !! k = Some x → is_master x = true → rn_Region x ≠ region).
Proof.
  intros Hwf. unfold successors, filterOut.
  assert (∀ rg, m ∈ filter (λ s, s ≠ name) (MastersInRegion r rg) →
    m ≠ name ∧ m ≠ "" ∧ ∃ n, rg_byName r !! m = Some n ∧ is_master n = true ∧ (rg = "" ∨ rn_Region n = rg)) as Hin.
  { intros rg [Hne Hm]%list_elem_of_filter. apply elem_of_Masters in Hm as (n & Hn & Hma & Hrg); [|done].
    split; [done|]. split; [apply (rw_nodes _ Hwf _ _ Hn)|eauto]. }
  case_bool_decide as Hlen; intros Hm; apply Hin in Hm as (H1 & H2 & n & Hn & Hma & Hrg).
  - split_and!; [done..|]. exists n. split_and!; [done..|]. right; right.
    intros k x Hk Hx Hxm Hxr. apply nil_length_inv in Hlen.
    assert (k ∈ filter (λ s, s ≠ name) (MastersInRegion r region)) as Hkin.
    { apply list_elem_of_filter. split; [done|]. apply elem_of_Masters; eauto. }
    rewrite Hlen in Hkin. by apply elem_of_nil in Hkin.
  - split_and!; [done..|]. exists n. naive_solver.
Qed.

Lemma roundRobin_elem masters i ip :
  masters ≠ [] → (roundRobinChooser masters i ip).1 ∈ masters.
Proof.
  intros Hne. unfold roundRobinChooser.
  destruct (lookup_lt_is_Some_2 masters (i mod length masters)) as [m Hm].
  - apply Nat.mod_upper_bound. by destruct masters.
  - rewrite Hm. simpl. by eapply list_elem_of_lookup_2.
Qed.

(** The drain of a decommission: everything goes to a successor. *)
Lemma decommission_drain clk r region name l :
  registry_wf r → ledger_wf l → (OwnedBy l name = [] ∨ successors r region name ≠ []) →
  let owns := bool_decide (0 < length (OwnedBy l name))%nat in
  let chooser := if owns then Some (roundRobinChooser (successors r region name)) else None in
  ∃ c' l' ns, Drain clk (λ _ l, l) name "decommission" chooser 0%nat l =
      ((Z.of_nat (length (OwnedBy l name)), None), c', l', ns) ∧
    OwnedBy l' name = [] ∧
    (∀ ip e, lg_entries l !! ip = Some e →
       if bool_decide (oe_OwningMaster e = name)
       then ∃ e', lg_entries l' !! ip = Some e' ∧ oe_OwningMaster e' ∈ successors r region name ∧
                  oe_PreviousOwner e' = name
       else lg_entries l' !! ip = Some e) ∧
    (∀ ip, lg_entries l !! ip = None → lg_entries l' !! ip = None).
Proof.
  intros Hr Hl Hsucc owns chooser.
  destruct (decide (OwnedBy l name = [])) as [He|He].
  - assert (owns = false) as Ho by (apply bool_decide_eq_false; rewrite He; simpl; lia).
    unfold chooser. rewrite Ho, Drain_no_chooser, He by done.
    exists 0%nat, l, []. split; [done|]. split; [done|]. split; [|done].
    intros ip e Hip. rewrite bool_decide_eq_false_2; [done|]. intros Hname.
    assert (e ∈ OwnedBy l name) as Hin.
    { apply elem_of_OwnedBy; [done|]. by rewrite (ew_ip _ _ (Hl _ _ Hip)). }
    rewrite He in Hin. by apply elem_of_nil in Hin.
  - destruct Hsucc as [?|Hne]; [done|].
    assert (owns = true) as Ho.
    { apply bool_decide_eq_true. destruct (OwnedBy l name); simpl; [done|lia]. }
    unfold chooser. rewrite Ho.
    destruct (Drain_hands_over clk name "decommission" (roundRobinChooser (successors r region name)) 0%nat l)
      as (c' & l' & ns & Hd & Hown & Hmove & Hnone); [done| |].
    { intros c ip. pose proof (roundRobin_elem _ c ip Hne) as Hin.
      apply elem_of_successors in Hin as (? & ? & _); done. }
    exists c', l', ns. split; [exact Hd|]. split; [done|]. split; [|done].
    intros ip e Hip. specialize (Hmove ip e Hip). case_bool_decide; [|done].
    destruct Hmove as (e' & c0 & He' & Ho' & Hp). exists e'. split; [done|]. split; [|done].
    rewrite Ho'. by apply roundRobin_elem.
Qed.

Lemma decommission_run clock name target s :
  server_wf s → registry_Lookup (sv_registry s) name = Some target →
  (OwnedBy (sv_ledger s) name = [] ∨ successors (sv_registry s) (rn_Region target) name ≠ []) →
  let '(resp, s') := DecommissionNode clock name s in
  resp = MkDecommissionResponse true None (int32 (Z.of_nat (length (OwnedBy (sv_ledger s) name)))) ∧
  registry_Lookup (sv_registry s') name = None ∧ OwnedBy (sv_ledger s') name = [] ∧
  (∀ other, other ≠ name → registry_Lookup (sv_registry s') other = registry_Lookup (sv_registry s) other) ∧
  (∀ ip e, lg_entries (sv_ledger s) !! ip = Some e →
     if bool_decide (oe_OwningMaster e = name)
     then ∃ e', lg_entries (sv_ledger s') !! ip = Some e' ∧
            oe_OwningMaster e' ∈ successors (sv_registry s) (rn_Region target) name ∧
            oe_PreviousOwner e' = name
     else lg_entries (sv_ledger s') !! ip = Some e) ∧
  (∀ ip, lg_entries (sv_ledger s) !! ip = None → lg_entries (sv_ledger s') !! ip = None).
Proof.
  intros Hwf Hlook Hsucc. pose proof (sw_registry _ Hwf) as Hr. pose proof (sw_ledger _ Hwf) as Hl.
  assert (rg_byName (sv_registry s) !! name = Some target) as Hby.
  { unfold registry_Lookup in Hlook. by destruct (rg_byName (sv_registry s) !! name). }
  assert (name ≠ "") as Hname by apply (rw_nodes _ Hr _ _ Hby).
  destruct (decommission_drain (clock (sv_ticks s)) (sv_registry s) (rn_Region target) name (sv_ledger s) Hr Hl Hsucc)
    as (c' & l' & ns & Hdrain & Hown & Hmove & Hnone).
  assert (bool_decide (0 < length (OwnedBy (sv_ledger s) name))%nat &&
          bool_decide (length (successors (sv_registry s) (rn_Region target) name) = 0%nat) = false) as Hguard.
  { destruct Hsucc as [->|Hne]; [done|]. apply andb_false_iff. right. apply bool_decide_eq_false.
    by intros ?%nil_length_inv. }
  unfold DecommissionNode. rewrite bool_decide_eq_false_2 by done.
  unfold get_registry, get_ledger, bind at 1 2. cbn [fst snd]. rewrite Hlook, Hguard. unfold bind at 1.
  match goal with |- context [on_ledger ?op s] => set (op1 := op); pose proof (on_ledger_run op1 s) as Hrun end.
  assert (op1 (sv_ledger s) = ((Z.of_nat (length (OwnedBy (sv_ledger s) name)), None), l', ns)) as Hop.
  { unfold op1. by rewrite Hdrain. }
  rewrite Hop in Hrun. clearbody op1. destruct (on_ledger op1 s) as [a s1]. simpl in Hrun.
  destruct Hrun as (-> & Hreg & Hled). unfold bind, Now at 1. cbn [fst snd].
  match goal with |- context [on_registry _ ?x] => set (st := x) end.
  assert (sv_registry st = sv_registry s ∧ sv_ledger st = l') as [Hst1 Hst2] by done. clearbody st.
  pose proof (on_registry_run (registry_Remove name) st) as Hrem.
  assert (registry_Remove name (sv_registry st) = Ok (MkRegistry (delete name (rg_byName (sv_registry s)))
    (delete (rn_OverlayIP target) (rg_byOverlay (sv_registry s))))) as Hrm.
  { unfold registry_Remove. by rewrite Hst1, Hby. }
  rewrite Hrm in Hrem. destruct (on_registry _ _) as [x s2]. simpl in Hrem.
  destruct Hrem as (-> & Hreg2 & Hled2).
  simpl. rewrite Hreg2, Hled2, Hst2. unfold registry_Lookup. simpl. split_and!; [done| |done| |done|done].
  - by rewrite lookup_delete_eq.
  - intros other Hne. by rewrite lookup_delete_ne.
Qed.


(** ** Every owner is registered *)

Definition owners_in (r : Registry) (l : Ledger) : Prop :=
  ∀ ip e, lg_entries l !! ip = Some e → is_Some (rg_byName r !! oe_OwningMaster e).

Definition owners_registered (s : Server) : Prop := owners_in (sv_registry s) (sv_ledger s).

Lemma owners_in_registry r r' l :
  (∀ k, is_Some (rg_byName r !! k) → is_Some (rg_byName r' !! k)) → owners_in r l → owners_in r' l.
Proof. intros Hk H ip e He. eauto. Qed.

Lemma reassign_entries now ip expected owner reason chk l :
  let '(r, l', _) := reassign now ip expected owner reason chk l in
  match r with
  | Ok _ => (∃ e, lg_entries l' !! ip = Some e ∧ oe_OwningMaster e = owner) ∧
            (∀ j, j ≠ ip → lg_entries l' !! j = lg_entries l !! j)
  | Err _ => l' = l
  end.
Proof.
  destruct (may_reassign ip expected owner chk l) eqn:Hm.
  - rewrite reassign_allowed by done. simpl. split; [|intros j Hj; by rewrite lookup_insert_ne].
    eexists. split; [apply lookup_insert_eq|]. apply owners_next_entry.
  - by destruct (reassign_refused now ip expected owner reason chk l Hm) as [e ->].
Qed.

Lemma owners_in_reassign now ip expected owner reason chk r l :
  is_Some (rg_byName r !! owner) → owners_in r l →
  owners_in r (reassign now ip expected owner reason chk l).1.2.
Proof.
  intros Ho H. pose proof (reassign_entries now ip expected owner reason chk l) as Hr.
  destruct (reassign _ _ _ _ _ _ _) as [[[v|e] l'] ns]; simpl; [|by subst].
  destruct Hr as ((e & He & Hown) & Hother). intros j x Hx.
  destruct (decide (j = ip)) as [->|Hj]; [congruence|]. rewrite Hother in Hx by done. eauto.
Qed.

(** ** Seeding *)

(** What seeding may do: fill in missing ledger entries, for registered owners. *)
Record seeds (s s' : Server) : Prop := {
  sd_registry : sv_registry s' = sv_registry s;
  sd_entries : ∀ ip e, lg_entries (sv_ledger s) !! ip = Some e → lg_entries (sv_ledger s') !! ip = Some e;
  sd_owners : owners_registered s → owners_registered s'
}.
#[global] Instance seeds_refl : Reflexive seeds.
Proof. by intros s. Qed.
#[global] Instance seeds_trans : Transitive seeds.
Proof. intros a b c [R1 E1 O1] [R2 E2 O2]. split; [congruence|auto..]. Qed.

Lemma self_master_registered r snapshot : ∀ owner m,
  (owner = "" ∨ is_Some (rg_byName r !! owner)) →
  self_master_loop r owner snapshot = (m, true) → is_Some (rg_byName r !! m).
Proof.
  induction snapshot as [|e rest IH]; intros owner m Ho H; simpl in H.
  { injection H as <- Hb. bool_to_prop. by destruct Ho. }
  case_bool_decide; [by eapply IH|].
  destruct (registry_Lookup r (oe_OwningMaster e)) as [n|] eqn:Hn; [|by eapply IH].
  destruct (negb (is_master n) || _); [by eapply IH|]. destruct (_ && _); [discriminate|].
  eapply IH; [right|exact H]. unfold registry_Lookup in Hn.
  by destruct (rg_byName r !! oe_OwningMaster e).
Qed.

Lemma seeds_one clock node s : seeds s (seedRegisteredNodeOwnership clock node s).2.
Proof.
  unfold seedRegisteredNodeOwnership. destruct (is_master node); [reflexivity|].
  unfold bind, get_registry, get_ledger, ret. simpl.
  destruct (singleSelfRegisteredMaster (sv_registry s) (sv_ledger s)) as [owner ok] eqn:Hs.
  destruct ok; simpl; [|reflexivity].
  destruct (ledger_Lookup (sv_ledger s) (rn_OverlayIP node)) eqn:Hlook; [reflexivity|].
  unfold ledger_reassign, bind, Now. simpl. set (s0 := MkServer _ _ _ _ _ _).
  set (op := Reassign _ _ _ _). destruct (on_ledger_run op s0) as (_ & Hr & Hl).
  assert (seeds s (on_ledger op s0).2) as Hseed.
  { split; [by rewrite Hr| |]; rewrite ?Hl.
    - intros ip e He. unfold op, Reassign. simpl.
      pose proof (reassign_entries (clock (sv_ticks s) (rn_OverlayIP node)) (rn_OverlayIP node) ""
        owner "register" false (sv_ledger s)) as Hre.
      destruct (reassign _ _ _ _ _ _ _) as [[[v|err] l'] ns]; simpl; [|by subst].
      destruct Hre as [_ Hother]. rewrite Hother; [done|]. intros ->.
      unfold ledger_Lookup in Hlook. congruence.
    - unfold owners_registered. rewrite Hr, Hl. simpl. intros Ho. apply owners_in_reassign; [|done].
      eapply (self_master_registered _ _ ""); [by left|exact Hs]. }
  destruct (on_ledger op s0) as [[v|e] s1]; exact Hseed.
Qed.

Lemma seeds_all clock nodes : ∀ s, seeds s (seed_all clock nodes s).2.
Proof.
  induction nodes as [|n nodes IH]; intros s; simpl; [reflexivity|].
  unfold bind. pose proof (seeds_one clock n s) as H1.
  destruct (seedRegisteredNodeOwnership clock n s) as [[u|e] s1]; [|exact H1].
  etransitivity; [exact H1|apply IH].
Qed.

Lemma seeds_registration clock node s : seeds s (seedRegistrationOwnership clock node s).2.
Proof.
  unfold seedRegistrationOwnership. destruct (is_master node); [|apply seeds_one].
  unfold seedExistingRegisteredNodeOwnership, bind, get_registry. apply seeds_all.
Qed.

(** ** RegisterNode *)

Lemma reject_and_remove_run clock name e s :
  let '(resp, s') := reject_and_remove clock name e s in
  rs_Accepted resp = false ∧ sv_ledger s' = sv_ledger s ∧
  rg_byName (sv_registry s') !! name = None ∧
  (∀ other, other ≠ name → rg_byName (sv_registry s') !! other = rg_byName (sv_registry s) !! other).
Proof.
  unfold reject_and_remove, reject, bind. simpl. set (s0 := MkServer _ _ _ _ _ _).
  assert (sv_registry s0 = sv_registry s ∧ sv_ledger s0 = sv_ledger s) as [H1 H2] by done. clearbody s0.
  pose proof (on_registry_run (registry_Remove name) s0) as Hrun. rewrite H1 in Hrun.
  destruct (rg_byName (sv_registry s) !! name) as [n|] eqn:Hn.
  - assert (registry_Remove name (sv_registry s) = Ok (MkRegistry (delete name (rg_byName (sv_registry s)))
      (delete (rn_OverlayIP n) (rg_byOverlay (sv_registry s))))) as Hrm by (unfold registry_Remove; by rewrite Hn).
    rewrite Hrm in Hrun. destruct (on_registry _ s0) as [x s1]. simpl in Hrun. destruct Hrun as (-> & Hreg & Hl). simpl. rewrite Hreg. simpl.
    split_and!; [done|by rewrite Hl|by rewrite lookup_delete_eq|]. intros. by rewrite lookup_delete_ne.
  - assert (registry_Remove name (sv_registry s) = Err ErrRegistryNotFound) as Hrm
      by (unfold registry_Remove; by rewrite Hn).
    rewrite Hrm in Hrun. rewrite Hrun. simpl. rewrite H1. done.
Qed.

(** The state after the registry write and, for a master, its own ledger entry. *)
Lemma ledger_reassign_run clock ip owner reason s :
  sv_registry (ledger_reassign clock ip owner reason s).2 = sv_registry s ∧
  (∀ j, j ≠ ip → lg_entries (sv_ledger (ledger_reassign clock ip owner reason s).2) !! j =
                 lg_entries (sv_ledger s) !! j) ∧
  match (ledger_reassign clock ip owner reason s).1 with
  | Ok _ => ∃ e, lg_entries (sv_ledger (ledger_reassign clock ip owner reason s).2) !! ip = Some e ∧
                 oe_OwningMaster e = owner
  | Err _ => sv_ledger (ledger_reassign clock ip owner reason s).2 = sv_ledger s
  end.
Proof.
  unfold ledger_reassign, bind, Now. set (s0 := MkServer _ _ _ _ _ _).
  set (now := clock _ _). destruct (on_ledger_run (Reassign now ip owner reason) s0) as (Ha & Hr & Hl).
  rewrite Ha, Hr, Hl. unfold Reassign. simpl.
  pose proof (reassign_entries now ip "" owner reason false (sv_ledger s)) as H.
  destruct (reassign _ _ _ _ _ _ _) as [[[v|e] l'] ns]; simpl in *.
  - tauto.
  - by subst.
Qed.

(** The part of [RegisterNode] after a successful registry write. *)
Definition after_write (clock : nat → string → time) (onRegister : option (RegisteredNode → option string))
    (req : RegisterNodeRequest) : M RegisterNodeResponse :=
  let name := rq_NodeName req in
  let* owned := (if is_master (requested_node req)
                 then ledger_reassign clock (rq_OverlayIp req) name "register" else ret (Ok 0)) in
  match owned with
  | Err e => reject_and_remove clock name (ELedger e)
  | Ok _ =>
      let* r := get_registry in
      match registry_Lookup r name with
      | None => reject clock name (EText "registered node missing after registry write")
      | Some saved =>
          let* seeded := seedRegistrationOwnership clock saved in
          match seeded with
          | Err e => reject_and_remove clock name e
          | Ok _ =>
              match notifyRegistrationObserver onRegister saved with
              | Err e => reject_and_remove clock name e
              | Ok _ =>
                  do* audit clock "register" name (DRegister (rq_Roles req) (rq_OverlayIp req) (rq_Region req));
                  ret (MkRegisterNodeResponse true None (Unix (rn_RegisteredAt saved)))
              end
          end
      end
  end.

(** What holds of the state [s'] a registration ends in, [s] being the state
    after the registry write. *)
Record registered_post (req : RegisterNodeRequest) (s : Server) (resp : RegisterNodeResponse) (s' : Server) : Prop := {
  rp_others : ∀ k, k ≠ rq_NodeName req →
    rg_byName (sv_registry s') !! k = rg_byName (sv_registry s) !! k;
  rp_entries : ∀ ip e, lg_entries (sv_ledger s) !! ip = Some e →
    (ip = rq_OverlayIp req ∧ is_master (requested_node req) = true) ∨
    lg_entries (sv_ledger s') !! ip = Some e;
  rp_accepted : rs_Accepted resp = true →
    sv_registry s' = sv_registry s ∧
    (is_master (requested_node req) = true → ∃ e, lg_entries (sv_ledger s') !! rq_OverlayIp req = Some e ∧
       oe_OwningMaster e = rq_NodeName req) ∧
    (owners_registered s → owners_registered s');
  rp_rejected : rs_Accepted resp = false → rg_byName (sv_registry s') !! rq_NodeName req = None
}.

Lemma owned_step clock req s :
  is_Some (rg_byName (sv_registry s) !! rq_NodeName req) →
  let '(owned, s1) := (if is_master (requested_node req)
                       then ledger_reassign clock (rq_OverlayIp req) (rq_NodeName req) "register"
                       else ret (Ok 0)) s in
  sv_registry s1 = sv_registry s ∧
  (∀ ip e, lg_entries (sv_ledger s) !! ip = Some e →
     (ip = rq_OverlayIp req ∧ is_master (requested_node req) = true) ∨ lg_entries (sv_ledger s1) !! ip = Some e) ∧
  (is_ok owned = true → is_master (requested_node req) = true →
     ∃ e, lg_entries (sv_ledger s1) !! rq_OverlayIp req = Some e ∧ oe_OwningMaster e = rq_NodeName req) ∧
  (owners_registered s → owners_registered s1).
Proof.
  intros Hreg. destruct (is_master (requested_node req)); [|simpl; split_and!; auto; done].
  destruct (ledger_reassign_run clock (rq_OverlayIp req) (rq_NodeName req) "register" s) as (H1 & H2 & H3).
  destruct (ledger_reassign clock _ _ _ s) as [owned s1]. simpl in *.
  split_and!; [done| | |].
  - intros ip e He. destruct (decide (ip = rq_OverlayIp req)); [by left|right]. by rewrite H2.
  - intros Hok _. by destruct owned.
  - intros Ho ip e He. rewrite H1. destruct (decide (ip = rq_OverlayIp req)) as [->|Hne].
    + destruct owned; [destruct H3 as (x & Hx & Hxo); congruence|]. rewrite H3 in He. eauto.
    + rewrite H2 in He by done. eauto.
Qed.

Lemma after_write_post clock onRegister req s :
  is_Some (rg_byName (sv_registry s) !! rq_NodeName req) →
  let '(resp, s') := after_write clock onRegister req s in registered_post req s resp s'.
Proof.
  intros Hreg. unfold after_write. unfold bind at 1.
  pose proof (owned_step clock req s Hreg) as Hown.
  match type of Hown with let '(_, _) := ?m s in _ => destruct (m s) as [owned s1] end.
  destruct Hown as (Hr1 & He1 & Hm1 & Ho1).
  assert (∀ e s2, sv_registry s2 = sv_registry s →
    (∀ ip e, lg_entries (sv_ledger s1) !! ip = Some e → lg_entries (sv_ledger s2) !! ip = Some e) →
    let '(resp, s') := reject_and_remove clock (rq_NodeName req) e s2 in registered_post req s resp s') as Hrej.
  { intros e s2 Hs2 Hent. pose proof (reject_and_remove_run clock (rq_NodeName req) e s2) as H.
    destruct (reject_and_remove _ _ _ _) as [resp s']. destruct H as (Ha & Hl & Hn & Hoth).
    split; [by intros; rewrite Hoth, Hs2| |by rewrite Ha|done].
    intros ip x Hx. rewrite Hl. destruct (He1 ip x Hx); auto. }
  destruct owned as [v|e]; [|by apply Hrej].
  unfold bind at 1, get_registry. rewrite Hr1. destruct Hreg as [saved Hsaved].
  unfold registry_Lookup. rewrite Hsaved. simpl. unfold bind at 1.
  pose proof (seeds_registration clock (cloneRegisteredNode saved) s1) as Hseed.
  destruct (seedRegistrationOwnership clock _ s1) as [seeded s2]. simpl in Hseed.
  destruct Hseed as [Hr2 He2 Ho2].
  destruct seeded as [u|e]; [|apply Hrej; [congruence|auto]].
  destruct (notifyRegistrationObserver onRegister _); [|apply Hrej; [congruence|auto]].
  split; simpl; [by rewrite Hr2, Hr1| | |done].
  - intros ip e He. destruct (He1 ip e He); auto.
  - intros _. split; [congruence|]. split; [|auto]. intros Hm.
    destruct (Hm1 eq_refl Hm) as (e & He & Hown). eauto.
Qed.

(** What an accepted registration stores. *)
Lemma RegisterNode_full clock onRegister req s :
  let '(resp, s') := RegisterNode clock onRegister req s in
  (∀ k, k ≠ rq_NodeName req → rg_byName (sv_registry s') !! k = rg_byName (sv_registry s) !! k) ∧
  (∀ ip e, lg_entries (sv_ledger s) !! ip = Some e →
     (ip = rq_OverlayIp req ∧ is_master (requested_node req) = true) ∨ lg_entries (sv_ledger s') !! ip = Some e) ∧
  (if rs_Accepted resp then
     (∃ now, rg_byName (sv_registry s') !! rq_NodeName req =
        Some (registered now (requested_node req) (rg_byName (sv_registry s) !! rq_NodeName req))) ∧
     (is_master (requested_node req) = true → ∃ e, lg_entries (sv_ledger s') !! rq_OverlayIp req = Some e ∧
        oe_OwningMaster e = rq_NodeName req) ∧
     (owners_registered s → owners_registered s')
   else sv_registry s' = sv_registry s ∨ rg_byName (sv_registry s') !! rq_NodeName req = None).
Proof.
  unfold RegisterNode. case_bool_decide as Hname; [simpl; auto|].
  unfold bind at 1, Now at 1. set (s0 := MkServer _ _ _ _ _ _). unfold bind at 1.
  pose proof (on_registry_run (Register (clock (sv_ticks s) "") (requested_node req)) s0) as Hreg.
  change (sv_registry s0) with (sv_registry s) in Hreg.
  destruct (Register _ _ _) as [r'|e] eqn:Hr.
  2:{ rewrite Hreg. simpl. auto. }
  destruct (on_registry _ s0) as [x s1]. simpl in Hreg. destruct Hreg as (-> & Hs1 & Hl1).
  apply Register_spec in Hr as [_ Hr']. simpl in Hr'.
  set (n := registered _ _ _) in Hr'.
  assert (rg_byName (sv_registry s1) !! rq_NodeName req = Some n) as Hn.
  { rewrite Hs1, Hr'. apply lookup_insert_eq. }
  assert (∀ k, k ≠ rq_NodeName req → rg_byName (sv_registry s1) !! k = rg_byName (sv_registry s) !! k) as Hoth.
  { intros k Hk. rewrite Hs1, Hr'. by apply lookup_insert_ne. }
  pose proof (after_write_post clock onRegister req s1 (mk_is_Some _ _ Hn)) as Hpost.
  unfold after_write in Hpost. destruct (bind _ _ s1) as [resp s'].
  destruct Hpost as [P1 P2 P3 P4]. split_and!.
  - intros k Hk. by rewrite P1, Hoth.
  - intros ip e He. apply P2. by rewrite Hl1.
  - destruct (rs_Accepted resp); [|by right; apply P4].
    destruct (P3 eq_refl) as (Hreq & Hm & Ho). split_and!; [| done|].
    + eexists. rewrite Hreq. exact Hn.
    + intros Hown. apply Ho. unfold owners_registered. rewrite Hl1.
      eapply owners_in_registry; [|exact Hown]. intros k Hk.
      destruct (decide (k = rq_NodeName req)) as [->|Hne]; [by rewrite Hn|by rewrite Hoth].
Qed.

Lemma RegisterNode_run clock onRegister req s :
  let '(resp, s') := RegisterNode clock onRegister req s in
  (∀ k, k ≠ rq_NodeName req → rg_byName (sv_registry s') !! k = rg_byName (sv_registry s) !! k) ∧
  (∀ ip e, lg_entries (sv_ledger s) !! ip = Some e →
     (ip = rq_OverlayIp req ∧ is_master (requested_node req) = true) ∨ lg_entries (sv_ledger s') !! ip = Some e) ∧
  (if rs_Accepted resp then
     (∃ n, rg_byName (sv_registry s') !! rq_NodeName req = Some n ∧ same_identity n (requested_node req) ∧
        (rq_Pubkey req ≠ "" → rn_Pubkey n = rq_Pubkey req)) ∧
     (is_master (requested_node req) = true → ∃ e, lg_entries (sv_ledger s') !! rq_OverlayIp req = Some e ∧
        oe_OwningMaster e = rq_NodeName req) ∧
     (owners_registered s → owners_registered s')
   else sv_registry s' = sv_registry s ∨ rg_byName (sv_registry s') !! rq_NodeName req = None).
Proof.
  pose proof (RegisterNode_full clock onRegister req s) as H. destruct (RegisterNode clock onRegister req s) as [resp s'].
  destruct H as (H1 & H2 & H3). split_and!; [done..|]. destruct (rs_Accepted resp); [|done]. destruct H3 as ((now & Hn) & Hm).
  split; [|done]. eexists. split; [exact Hn|]. split; [apply registered_identity|]. intros Hk. by apply registered_pubkey.
Qed.


(** ** Runs that keep every owner registered *)

Definition observer_fails (onRegister : option (RegisteredNode → option string)) : Prop :=
  ∃ f, onRegister = Some f ∧ ∀ n, ∃ e, f n = Some e.

Section runs.
Context (clock : nat → string → time) (onRegister : option (RegisteredNode → option string)).
Context (pem_Decode : string → option string) (ParseCertificate : string → option Certificate).

(** Handlers under which owners stay registered. *)
Definition keeps_owners {A} (m : M A) : Prop := ∀ s, owners_registered s → owners_registered (m s).2.

Lemma keeps_bind {A B} (m : M A) (k : A → M B) :
  keeps_owners m → (∀ a, keeps_owners (k a)) → keeps_owners (bind m k).
Proof.
  intros Hm Hk s Hs. unfold bind. specialize (Hm s Hs). destruct (m s) as [a s1]. by apply Hk.
Qed.

Lemma keeps_frame {A} (m : M A) : frame m → keeps_owners m.
Proof. intros Hf s Hs. unfold owners_registered. destruct (Hf s) as [-> ->]. done. Qed.

Lemma keeps_ret {A} (a : A) : keeps_owners (ret a).
Proof. by apply keeps_frame. Qed.

(** A registry operation that forgets no name. *)
Lemma keeps_on_registry op :
  (∀ r r' k, op r = Ok r' → is_Some (rg_byName r !! k) → is_Some (rg_byName r' !! k)) →
  keeps_owners (on_registry op).
Proof.
  intros Hop s Hs. pose proof (on_registry_run op s) as H. unfold owners_registered.
  destruct (op (sv_registry s)) as [r'|e] eqn:Hr.
  - destruct H as (_ & -> & ->). eapply owners_in_registry; [|exact Hs]. eauto.
  - by rewrite H.
Qed.

Lemma update_node_names name n r k :
  is_Some (rg_byName r !! k) → is_Some (rg_byName (update_node name n r) !! k).
Proof. intros H. simpl. destruct (decide (k = name)) as [->|Hne]; simplify_map_eq; eauto. Qed.

Lemma keeps_seedRegistration node : keeps_owners (seedRegistrationOwnership clock node).
Proof. intros s. apply seeds_registration. Qed.

Lemma keeps_heartbeat req : keeps_owners (heartbeat_message clock onRegister req).
Proof.
  unfold heartbeat_message.
  repeat first [ apply keeps_seedRegistration | apply keeps_ret | progress intros | case_match
    | apply keeps_frame, frame_Now | apply keeps_frame, frame_audit | apply keeps_frame; done
    | match goal with |- keeps_owners (bind _ _) => apply keeps_bind end
    | apply keeps_on_registry; unfold registry_Heartbeat; intros; case_match; simplify_eq ].
  all: by apply update_node_names.
Qed.

Lemma keeps_Heartbeat events : keeps_owners (Heartbeat clock onRegister events).
Proof.
  induction events as [|[req sent|clean] events IH]; simpl; [apply keeps_ret| |apply keeps_ret].
  apply keeps_bind; [apply keeps_heartbeat|]. intros [resp|st]; [|apply keeps_ret].
  destruct sent; [|apply keeps_ret]. apply keeps_bind; [done|]. intros out. apply keeps_ret.
Qed.

Lemma keeps_cert_turn c name send ctx :
  keeps_owners (cert_update_turn clock pem_Decode ParseCertificate c name send ctx).
Proof.
  unfold cert_update_turn, AllowCertRollover, ClearCertRollover.
  repeat first [ apply keeps_ret | progress intros
    | apply keeps_frame, frame_Now | apply keeps_frame, frame_audit | apply keeps_frame; done
    | match goal with |- keeps_owners (bind _ _) => apply keeps_bind end
    | apply keeps_on_registry; intros | case_match | progress simplify_eq | by apply update_node_names | done ].
Qed.

(** A decommission forgets the node only after moving what it owned. *)
Lemma keeps_Decommission name s :
  server_wf s → owners_registered s → owners_registered (DecommissionNode clock name s).2.
Proof.
  intros Hwf Ho. destruct (registry_Lookup (sv_registry s) name) as [target|] eqn:Hlook.
  2:{ unfold DecommissionNode. case_bool_decide; [done|]. unfold bind, get_registry. by rewrite Hlook. }
  destruct (decide (OwnedBy (sv_ledger s) name = [] ∨ successors (sv_registry s) (rn_Region target) name ≠ [])) as [Hd|Hd].
  - pose proof (decommission_run clock name target s Hwf Hlook Hd) as H.
    destruct (DecommissionNode clock name s) as [resp s'].
    destruct H as (_ & _ & _ & Hother & Hmove & Hnone). simpl.
    assert (∀ k, k ≠ name → is_Some (rg_byName (sv_registry s) !! k) → is_Some (rg_byName (sv_registry s') !! k)) as Hk.
    { intros k Hne [n Hn]. specialize (Hother k Hne). unfold registry_Lookup, cloneRegisteredNode in Hother.
      rewrite Hn in Hother. by destruct (rg_byName (sv_registry s') !! k). }
    intros ip e He. destruct (lg_entries (sv_ledger s) !! ip) as [x|] eqn:Hx; [|by rewrite Hnone in He].
    specialize (Hmove ip x Hx). case_bool_decide.
    + destruct Hmove as (e' & He' & Hsucc & _). rewrite He in He'. simplify_eq.
      apply elem_of_successors in Hsucc as (Hne & _ & n & Hn & _); [|apply Hwf]. apply Hk; eauto.
    + rewrite He in Hmove. simplify_eq. apply Hk; [done|]. eauto.
  - apply Decidable.not_or in Hd as [Hd1 Hd2]. apply dec_stable in Hd2.
    unfold DecommissionNode. case_bool_decide; [done|]. unfold bind, get_registry, get_ledger.
    rewrite Hlook. simpl. rewrite bool_decide_eq_true_2; [|destruct (OwnedBy _ _); simpl; [done|lia]].
    rewrite Hd2. done.
Qed.

(** A registration that is accepted, or refused before the registry write. *)
Definition clean_step (r : rpc) (s : Server) : Prop :=
  match r with
  | RpcRegister req =>
      let out := RegisterNode clock onRegister req s in
      rs_Accepted out.1 = true ∨ (sv_registry out.2 = sv_registry s ∧ sv_ledger out.2 = sv_ledger s)
  | _ => True
  end.

Notation run_rpc := (run_rpc clock onRegister pem_Decode ParseCertificate).
Notation run_rpcs := (run_rpcs clock onRegister pem_Decode ParseCertificate).

Fixpoint clean_run (rs : list rpc) (s : Server) : Prop :=
  match rs with
  | [] => True
  | r :: rs => clean_step r s ∧ clean_run rs (run_rpc r s).2
  end.

Lemma stream_step_frame r s :
  is_stream_step r = true →
  sv_registry (run_rpc r s).2 = sv_registry s ∧ sv_ledger (run_rpc r s).2 = sv_ledger s.
Proof.
  destruct r; try discriminate; intros _; simpl; try done.
  - unfold peer_list_deliver. destruct (Recv _ _). repeat case_match; simplify_eq; done.
  - unfold ownership_deliver. destruct (Recv _ _). repeat case_match; simplify_eq; done.
Qed.

Lemma run_rpc_owners r s :
  server_wf s → owners_registered s → clean_step r s → owners_registered (run_rpc r s).2.
Proof.
  intros Hwf Ho Hc. destruct (is_stream_step r) eqn:Hst.
  { unfold owners_registered. destruct (stream_step_frame r s Hst) as [-> ->]. done. }
  destruct r; try discriminate; simpl in *.
  - pose proof (RegisterNode_run clock onRegister req s) as Hp.
    destruct (RegisterNode clock onRegister req s) as [resp s']. destruct Hp as (_ & _ & Hp). simpl in *.
    destruct Hc as [Ha|[Hr Hl]]; [rewrite Ha in Hp; by apply Hp|].
    unfold owners_registered. by rewrite Hr, Hl.
  - by apply keeps_Heartbeat.
  - by apply keeps_Decommission.
  - by apply keeps_cert_turn.
Qed.
End runs.

(** Ownership follows the registry when the handlers run one after another: as long as
    no registration is rejected after its registry write, every owner in the ledger is a
    registered node after any sequence of complete calls, decommissions included. For
    calls that overlap this is false, see [decommission_race]. *)
Theorem owners_stay_registered clock onRegister pem_Decode ParseCertificate rs : ∀ s,
  (∀ n label, clock n label ≠ 0) → server_wf s → owners_registered s →
  clean_run clock onRegister pem_Decode ParseCertificate rs s →
  owners_registered (run_rpcs clock onRegister pem_Decode ParseCertificate rs s).2.
Proof.
  induction rs as [|r rs IH]; intros s Hclock Hwf Ho Hc; [done|]. destruct Hc as [Hc1 Hc2]. simpl.
  pose proof (run_rpc_owners clock onRegister pem_Decode ParseCertificate r s Hwf Ho Hc1) as Ho1.
  pose proof (run_rpc_wf clock onRegister pem_Decode ParseCertificate Hclock r s Hwf) as Hwf1.
  destruct (run_rpc _ _ _ _ r s) as [o1 s1]. specialize (IH s1 Hclock Hwf1 Ho1 Hc2).
  by destruct (run_rpcs _ _ _ _ rs s1).
Qed.

Lemma owners_stay_registered_witness : owners_registered demo_server.
Proof.
  apply (owners_stay_registered demo_clock None demo_pem demo_x509 demo_rpcs (fresh_server 16)).
  - exact demo_clock_nonzero.
  - apply fresh_server_wf.
  - intros ip e He. simpl in He. by rewrite lookup_empty in He.
  - repeat (split; [first [exact I | left; vm_compute; reflexivity]|]). exact I.
Defined.

(** ** What breaks the invariant *)

(** A registration with a failing observer is rejected after its write. *)
Lemma observer_failure_rejects clock onRegister req s :
  observer_fails onRegister → is_Some (rg_byName (sv_registry s) !! rq_NodeName req) →
  rs_Accepted (after_write clock onRegister req s).1 = false.
Proof.
  intros (f & -> & Hf) Hreg. unfold after_write. unfold bind at 1.
  match goal with |- context [(if ?b then ?x else ?y) s] => destruct ((if b then x else y) s) as [owned s1] end.
  assert (∀ e s2, rs_Accepted (reject_and_remove clock (rq_NodeName req) e s2).1 = false) as Hrej.
  { intros e s2. pose proof (reject_and_remove_run clock (rq_NodeName req) e s2) as H.
    destruct (reject_and_remove _ _ _ _). apply H. }
  destruct owned as [v|e]; [|apply Hrej]. unfold bind at 1, get_registry.
  destruct (registry_Lookup _ _) as [saved|]; [|done]. unfold bind at 1.
  destruct (seedRegistrationOwnership clock saved s1) as [[u|e] s2]; [|apply Hrej].
  simpl. destruct (Hf saved) as [e ->]. apply Hrej.
Qed.

(** A failing observer unregisters a node that was registered: when a node that
    may register again (same certificate, same overlay) does so and the
    observer reports an error, the call is rejected and the rollback removes the
    node from the registry, its earlier valid registration included. *)
Theorem rollback_drops_registration clock onRegister req s n :
  observer_fails onRegister → rq_NodeName req ≠ "" →
  rg_byName (sv_registry s) !! rq_NodeName req = Some n →
  may_register (clock (sv_ticks s) "") (requested_node req) (sv_registry s) →
  let '(resp, s') := RegisterNode clock onRegister req s in
  rs_Accepted resp = false ∧ rg_byName (sv_registry s') !! rq_NodeName req = None.
Proof.
  intros Hobs Hname _ Hmay. unfold RegisterNode. rewrite bool_decide_eq_false_2 by done.
  unfold bind at 1, Now at 1. set (s0 := MkServer _ _ _ _ _ _). unfold bind at 1.
  pose proof (on_registry_run (Register (clock (sv_ticks s) "") (requested_node req)) s0) as Hreg.
  change (sv_registry s0) with (sv_registry s) in Hreg.
  rewrite (proj2 (Register_spec _ _ _ _) (conj Hmay eq_refl)) in Hreg.
  destruct (on_registry _ s0) as [x s1]. simpl in Hreg. destruct Hreg as (-> & Hs1 & Hl1).
  assert (is_Some (rg_byName (sv_registry s1) !! rq_NodeName req)) as Hsome.
  { rewrite Hs1. simpl. rewrite lookup_insert_eq. eauto. }
  pose proof (after_write_post clock onRegister req s1 Hsome) as Hpost.
  pose proof (observer_failure_rejects clock onRegister req s1 Hobs Hsome) as Hrej.
  unfold after_write in Hpost, Hrej. destruct (bind _ _ s1) as [resp s']. simpl in Hrej.
  split; [done|]. by apply Hpost.
Qed.

Definition demo_one : Server := (RegisterNode demo_clock None (demo_register "c1" RoleClient "10.0.0.9") (fresh_server 16)).2.

Lemma rollback_drops_registration_witness :
  let s := demo_one in
  let req := demo_register "c1" RoleClient "10.0.0.9" in
  is_Some (rg_byName (sv_registry s) !! "c1") ∧
  rg_byName (sv_registry (RegisterNode demo_clock (Some (λ _, Some "dns reload failed")) req s).2) !! "c1" = None.
Proof.
  intros s req.
  assert (∃ n, rg_byName (sv_registry s) !! "c1" = Some n) as [n Hn] by (vm_compute; eauto).
  split; [eauto|].
  pose proof (rollback_drops_registration demo_clock (Some (λ _, Some "dns reload failed")) req s n) as H.
  destruct (RegisterNode _ _ _ s) as [resp s']. apply H.
  - exists (λ _, Some "dns reload failed"). split; [done|]. eauto.
  - discriminate.
  - exact Hn.
  - assert (is_ok (Register (demo_clock (sv_ticks s) "") (requested_node req) (sv_registry s)) = true) as Hok
      by (vm_compute; reflexivity).
    destruct (Register _ _ _) as [r'|e] eqn:Hr; [|discriminate]. by apply Register_spec in Hr as [? _].
Defined.

(** One client with a non-IPv4 overlay keeps every first master out and leaves
    an orphan in the ledger: the client's registration is accepted (the registry
    only asks for a non-empty overlay), but the master's registration then fails
    while seeding ownership for that client; the master is removed from the
    registry and the ledger keeps naming it as the owner of its overlay. *)
Theorem non_ipv4_client_blocks_master :
  let s1 := RegisterNode demo_clock None (demo_register "c1" RoleClient "fd00::9") (fresh_server 16) in
  let s2 := RegisterNode demo_clock None (demo_register "m1" RoleMaster "10.0.0.1") s1.2 in
  rs_Accepted s1.1 = true ∧ rs_Accepted s2.1 = false ∧
  rs_RejectReason s2.1 = Some (ESeed "c1" (ErrLedgerOverlayInvalid "fd00::9")) ∧
  rg_byName (sv_registry s2.2) !! "m1" = None ∧
  oe_OwningMaster <$> lg_entries (sv_ledger s2.2) !! "10.0.0.1" = Some "m1".
Proof. vm_compute. split_and!; reflexivity. Qed.

(** [StreamPeerList] can miss a mutation: it sends the snapshot before it
    subscribes, and whatever RPC runs in between, the new subscription starts with
    an empty open channel while the snapshot already sent carries the version
    from before; if that RPC changed the ledger's version, the node holds an
    outdated peer list and nothing is on its way to correct it. *)
Theorem stream_open_gap clock onRegister pem_Decode ParseCertificate subject r s :
  subject ≠ "" →
  let first := (peer_list_now subject s).1 in
  let s1 := (run_rpc clock onRegister pem_Decode ParseCertificate r s).2 in
  let '((_, ch), s2) := peer_list_subscribe s1 in
  (∃ u, first = Ok u ∧ pu_Version u = lg_version (sv_ledger s)) ∧
  sv_ledger s2 = sv_ledger s1 ∧
  bc_chans (sv_peerListBcast s2) !! ch = Some (MkChan [] false).
Proof.
  intros Hs first s1. simpl. split_and!; [|done|].
  - unfold first, peer_list_now. rewrite bool_decide_eq_false_2 by done.
    unfold bind, get_registry, get_ledger. simpl. eexists. split; [done|].
    apply buildPeerListUpdate_version.
  - rewrite lookup_app_r, Nat.sub_diag by done. done.
Qed.

Lemma stream_open_gap_witness :
  let r := RpcRegister (demo_register "m1" RoleMaster "10.0.0.1") in
  let s1 := (run_rpc demo_clock None demo_pem demo_x509 r (fresh_server 16)).2 in
  let '((_, ch), s2) := peer_list_subscribe s1 in
  (∃ u, (peer_list_now "c1" (fresh_server 16)).1 = Ok u ∧ pu_Version u = 0) ∧
  lg_version (sv_ledger s2) = 1 ∧ bc_chans (sv_peerListBcast s2) !! ch = Some (MkChan [] false).
Proof.
  intros r s1.
  pose proof (stream_open_gap demo_clock None demo_pem demo_x509 "c1" r (fresh_server 16) ltac:(discriminate)) as H.
  fold s1 in H. cbv zeta in H.
  assert (lg_version (sv_ledger s1) = 1) as Hv by (vm_compute; reflexivity). clearbody s1.
  destruct (peer_list_subscribe s1) as [[id ch] s2]. destruct H as (H1 & H2 & H3).
  split; [exact H1|]. split; [by rewrite H2|exact H3].
Defined.

Definition demo_two_masters : Server :=
  (run_rpcs demo_clock None demo_pem demo_x509 (take 6 demo_rpcs) (fresh_server 16)).2.


(** ** Two decommissions at once *)

Definition demo_three_masters : Server :=
  (run_rpcs demo_clock None demo_pem demo_x509
     [RpcRegister (demo_register "m1" RoleMaster "10.0.0.1"); RpcRegister (demo_register "m2" RoleMaster "10.0.0.2");
      RpcRegister (demo_register "m3" RoleMaster "10.0.0.3")] (fresh_server 16)).2.

(** [DecommissionNode] chooses the successors from the registry and drains the ledger
    later, with no lock held in between: while the call for [m1] is there, the whole call
    for [m2] succeeds; the drain of [m1], with the candidates found before, then succeeds
    too and gives the overlay of [m1] to [m2], which is no longer registered. *)
Theorem decommission_race :
  let s := demo_three_masters in
  let candidates := successors (sv_registry s) "eu" "m1" in
  let '(resp2, s2) := DecommissionNode demo_clock "m2" s in
  let '((n, err), _, l', _) :=
    Drain (λ _, 9) (λ _ l, l) "m1" "decommission" (Some (roundRobinChooser candidates)) 0%nat (sv_ledger s2) in
  dr_Success resp2 = true ∧ err = None ∧
  oe_OwningMaster <$> lg_entries l' !! "10.0.0.1" = Some "m2" ∧
  rg_byName (sv_registry s2) !! "m2" = None.
Proof. vm_compute. split_and!; reflexivity. Qed.
