(* ===== verification/Balancer.v ===== *)
(** * The egress balancer ([src/pkg/balancer])

    Configuration, egress snapshots, health and the selection engine: weighted
    round robin over healthy egresses, sticky flows with an idle timeout, and
    label (DSCP, fwmark) steering with fallback. Metrics and log lines are not
    modelled. The engine's cursor is an [int] at its width; an index a wrapped
    cursor would make negative is the [SelectPanic] value. *)

From S2P Require Import Prelude GoStrings GoNet.

Notation time := Z (only parsing).

(** ** types.go *)

Definition DefaultHealthProbeInterval : Z := 5 * 1000000000.
Definition DefaultFlowIdleTimeout : Z := 30 * 1000000000.
Definition maxFWMarkValue : Z := 2 ^ 32 - 1.

Notation Mode := string (only parsing).
Definition ModeDumb : Mode := "dumb".
Definition ModeLabeled : Mode := "labeled".
Notation LabelType := string (only parsing).
Definition LabelDSCP : LabelType := "dscp".
Definition LabelFWMark : LabelType := "fwmark".

Record EgressTarget := MkEgress { eg_ID : string; eg_Target : string; eg_Weight : Z }.
Record LabelMapping := MkLabel { lm_Type : LabelType; lm_Value : Z; lm_EgressID : string }.

#[global] Instance EgressTarget_eq_dec : EqDecision EgressTarget.
Proof. solve_decision. Defined.

Record Config := MkConfig {
  cf_Name : string;
  cf_OverlayIP : string;
  cf_Mode : Mode;
  cf_Egresses : list EgressTarget;
  cf_Labels : list LabelMapping;
  cf_HealthProbeInterval : Z;
  cf_FlowIdleTimeout : Z;
  cf_MetricsAddress : string
}.

Record Plan := MkPlan {
  pl_Name : string;
  pl_OverlayIP : string;
  pl_Mode : Mode;
  pl_EgressCount : nat;
  pl_Egresses : list EgressTarget;
  pl_LabelCount : nat;
  pl_Labels : list LabelMapping;
  pl_HealthProbeInterval : Z;
  pl_FlowIdleTimeout : Z;
  pl_MetricsAddress : string
}.

Inductive target_error :=
  | TargetRequired
  | TargetNotHostPort (target : string) (e : hostport_error)
  | TargetHostNotIP (host : string)
  | TargetPortInvalid (port : string).

Inductive config_error :=
  | ErrNameRequired
  | ErrOverlayRequired
  | ErrOverlayParse (overlay : string)
  | ErrMode (mode : Mode)
  | ErrNoEgress
  | ErrEgressTarget (i : nat) (e : config_error)
  | ErrEgressDuplicated (id : string)
  | ErrEgressIDRequired
  | ErrEgressIDSeparator (id : string)
  | ErrTarget (e : target_error)
  | ErrWeight (id : string)
  | ErrLabelMapping (i : nat) (e : config_error)
  | ErrLabelUnknownEgress (ty : LabelType) (value : Z) (egress : string)
  | ErrLabelDuplicated (ty : LabelType) (value : Z)
  | ErrLabelType (ty : LabelType)
  | ErrLabelNotPositive (ty : LabelType)
  | ErrLabelDSCPRange (value : Z)
  | ErrLabelFWMarkRange (value : Z)
  | ErrLabelEgressRequired (ty : LabelType).

Definition validateTarget (target : string) : res target_error () :=
  if bool_decide (target = "") then Err TargetRequired else
  let! hp := wrap_err (TargetNotHostPort target) (SplitHostPort target) in
  let '(host, portText) := hp in
  match ParseAddr host with
  | None => Err (TargetHostNotIP host)
  | Some _ => check! port_ok portText else TargetPortInvalid portText; Ok ()
  end.

Definition validateMode (mode : Mode) : bool := bool_decide (mode = ModeDumb ∨ mode = ModeLabeled).
Definition validateLabelType (ty : LabelType) : bool := bool_decide (ty = LabelDSCP ∨ ty = LabelFWMark).

(** The characters [ContainsAny] looks for: space, tab, CR, LF, [=] and comma. *)
Definition id_separators : string := of_bytes (chr <$> [32; 9; 13; 10; 61; 44]).

Definition NormalizeEgressTarget (egress : EgressTarget) : res config_error EgressTarget :=
  let id := TrimSpace (eg_ID egress) in
  if bool_decide (id = "") then Err ErrEgressIDRequired else
  if ContainsAny id id_separators then Err (ErrEgressIDSeparator id) else
  let target := TrimSpace (eg_Target egress) in
  let! _ := wrap_err ErrTarget (validateTarget target) in
  let weight := eg_Weight egress in
  if weight <=? 0 then Err (ErrWeight id) else
  Ok (MkEgress id target weight).

(** The state of the loop is [(normalized, byID)]. *)
Definition egress_step (i : nat) (st : list EgressTarget * gmap string EgressTarget) (egress : EgressTarget)
    : res config_error (list EgressTarget * gmap string EgressTarget) :=
  let! next := wrap_err (ErrEgressTarget i) (NormalizeEgressTarget egress) in
  match st.2 !! eg_ID next with
  | Some _ => Err (ErrEgressDuplicated (eg_ID next))
  | None => Ok (st.1 ++ [next], <[eg_ID next := next]> st.2)
  end.

Definition normalizeEgresses (egresses : list EgressTarget)
    : res config_error (list EgressTarget * gmap string EgressTarget) :=
  if bool_decide (length egresses = 0%nat) then Err ErrNoEgress else
  fold_res egress_step ([], ∅) egresses.

Definition NormalizeLabelMapping (label : LabelMapping) : res config_error LabelMapping :=
  let labelType := lm_Type label in
  if negb (validateLabelType labelType) then Err (ErrLabelType labelType) else
  if lm_Value label <=? 0 then Err (ErrLabelNotPositive labelType) else
  let! _ :=
    if bool_decide (labelType = LabelDSCP)
    then if 63 <? lm_Value label then Err (ErrLabelDSCPRange (lm_Value label)) else Ok ()
    else if maxFWMarkValue <? lm_Value label then Err (ErrLabelFWMarkRange (lm_Value label)) else Ok () in
  let egressID := TrimSpace (lm_EgressID label) in
  if bool_decide (egressID = "") then Err (ErrLabelEgressRequired labelType) else
  Ok (MkLabel labelType (lm_Value label) egressID).

Definition labelKey (labelType : LabelType) (value : Z) : string := labelType +:+ ":" +:+ Itoa value.

Definition label_step (egresses : gmap string EgressTarget) (i : nat)
    (st : list LabelMapping * gset string) (label : LabelMapping)
    : res config_error (list LabelMapping * gset string) :=
  let! next := wrap_err (ErrLabelMapping i) (NormalizeLabelMapping label) in
  match egresses !! lm_EgressID next with
  | None => Err (ErrLabelUnknownEgress (lm_Type next) (lm_Value next) (lm_EgressID next))
  | Some _ =>
      let key := labelKey (lm_Type next) (lm_Value next) in
      if bool_decide (key ∈ st.2) then Err (ErrLabelDuplicated (lm_Type next) (lm_Value next))
      else Ok (st.1 ++ [next], {[key]} ∪ st.2)
  end.

Definition normalizeLabels (labels : list LabelMapping) (egresses : gmap string EgressTarget)
    : res config_error (list LabelMapping) :=
  let! st := fold_res (label_step egresses) ([], ∅) labels in Ok st.1.

Definition NormalizeConfig (cfg : Config) : res config_error Config :=
  let name := TrimSpace (cf_Name cfg) in
  if bool_decide (name = "") then Err ErrNameRequired else
  let overlay := TrimSpace (cf_OverlayIP cfg) in
  if bool_decide (overlay = "") then Err ErrOverlayRequired else
  if negb (bool_decide (is_Some (ParseAddr overlay))) then Err (ErrOverlayParse overlay) else
  let mode := if bool_decide (cf_Mode cfg = "") then ModeDumb else cf_Mode cfg in
  if negb (validateMode mode) then Err (ErrMode mode) else
  let! eg := normalizeEgresses (cf_Egresses cfg) in
  let '(egresses, byID) := eg in
  let! labels := normalizeLabels (cf_Labels cfg) byID in
  let healthInterval := if cf_HealthProbeInterval cfg <=? 0 then DefaultHealthProbeInterval
                        else cf_HealthProbeInterval cfg in
  let flowIdle := if cf_FlowIdleTimeout cfg <=? 0 then DefaultFlowIdleTimeout else cf_FlowIdleTimeout cfg in
  Ok (MkConfig name overlay mode egresses labels healthInterval flowIdle (TrimSpace (cf_MetricsAddress cfg))).

Definition PlanConfig (cfg : Config) : res config_error Plan :=
  let! n := NormalizeConfig cfg in
  Ok (MkPlan (cf_Name n) (cf_OverlayIP n) (cf_Mode n) (length (cf_Egresses n)) (cf_Egresses n)
        (length (cf_Labels n)) (cf_Labels n) (cf_HealthProbeInterval n) (cf_FlowIdleTimeout n)
        (cf_MetricsAddress n)).

(** ** registry.go *)

Record Snapshot := MkSnapshot {
  sn_egresses : list EgressTarget;
  sn_byID : gmap string EgressTarget;
  sn_weighted : list EgressTarget
}.

Definition weighted_of (egresses : list EgressTarget) : list EgressTarget :=
  mjoin ((λ e, replicate (Z.to_nat (eg_Weight e)) e) <$> egresses).

Definition NewSnapshot (egresses : list EgressTarget) : res config_error Snapshot :=
  let! eg := normalizeEgresses egresses in
  Ok (MkSnapshot eg.1 eg.2 (weighted_of eg.1)).

Definition snapshot_Lookup (s : Snapshot) (id : string) : option EgressTarget := sn_byID s !! id.

(** The registry is an atomic reference to the current snapshot. *)
Definition NewRegistry (egresses : list EgressTarget) : res config_error (option Snapshot) :=
  let! snapshot := NewSnapshot egresses in Ok (Some snapshot).
(** [Replace] keeps the current snapshot when the new egresses are invalid. *)
Definition Replace (current : option Snapshot) (egresses : list EgressTarget)
    : res config_error Snapshot * option Snapshot :=
  match NewSnapshot egresses with
  | Ok snapshot => (Ok snapshot, Some snapshot)
  | Err e => (Err e, current)
  end.

(** ** health.go *)

Record TargetHealth := MkHealth { th_Healthy : bool; th_LastError : string; th_CheckedAt : time }.

Definition IsHealthy (status : gmap string TargetHealth) (egress : EgressTarget) : bool :=
  match status !! eg_ID egress with Some h => th_Healthy h | None => true end.
Definition Status (status : gmap string TargetHealth) (egress : EgressTarget) : TargetHealth :=
  match status !! eg_ID egress with Some h => h | None => MkHealth true "" 0 end.
Definition health_Set (egressID : string) (healthy : bool) (checkedAt : time) (lastError : string)
    (status : gmap string TargetHealth) : gmap string TargetHealth :=
  <[egressID := MkHealth healthy lastError checkedAt]> status.
(** [probe] answers with the error of the probe, if any. *)
Definition ProbeOnce (probe : EgressTarget → option string) (snapshot : option Snapshot) (now : time)
    (status : gmap string TargetHealth) : gmap string TargetHealth :=
  match snapshot with
  | None => status
  | Some s =>
      foldl (λ st egress,
        match probe egress with
        | Some err => health_Set (eg_ID egress) false now err st
        | None => health_Set (eg_ID egress) true now "" st
        end) status (sn_egresses s)
  end.

(** ** selector.go *)

Record FlowKey := MkFlowKey {
  fk_Source : string;
  fk_Destination : string;
  fk_Protocol : string;
  fk_SourcePort : Z;
  fk_DestinationPort : Z
}.
Definition flow_String (k : FlowKey) : string :=
  join "|" [TrimSpace (fk_Source k); TrimSpace (fk_Destination k); TrimSpace (fk_Protocol k);
            Itoa (fk_SourcePort k); Itoa (fk_DestinationPort k)].
Definition flow_empty (k : FlowKey) : bool :=
  bool_decide (TrimSpace (fk_Source k) = "") && bool_decide (TrimSpace (fk_Destination k) = "") &&
  bool_decide (TrimSpace (fk_Protocol k) = "") && (fk_SourcePort k =? 0) && (fk_DestinationPort k =? 0).

Record DecisionRequest := MkRequest { dq_FlowKey : FlowKey; dq_DSCP : Z; dq_FWMark : Z }.
(** [Decision] in the source. *)
Record SelectDecision := MkDecision {
  de_Egress : EgressTarget;
  de_Mode : Mode;
  de_FlowKey : FlowKey;
  de_Sticky : bool;
  de_FallbackReason : string;
  de_ExpiresAt : time
}.
Record flowEntry := MkFlowEntry { fe_egressID : string; fe_expiresAt : time }.

Record Engine := MkEngine {
  en_cfg : Config;
  en_registry : option Snapshot;
  en_health : gmap string TargetHealth;
  en_labelMap : gmap string string;
  en_flowIdle : Z;
  en_rrCursor : Z;                     (* int *)
  en_flowEntries : gmap string flowEntry
}.

Definition build_label_map (labels : list LabelMapping) : gmap string string :=
  foldl (λ m l, <[labelKey (lm_Type l) (lm_Value l) := lm_EgressID l]> m) ∅ labels.

Definition NewEngine (cfg : Config) : res config_error Engine :=
  let! n := NormalizeConfig cfg in
  let! registry := NewRegistry (cf_Egresses n) in
  Ok (MkEngine n registry ∅ (build_label_map (cf_Labels n)) (cf_FlowIdleTimeout n) 0 ∅).

Inductive select_error :=
  | ErrNoSnapshot
  | ErrNoWeighted
  | ErrNoHealthy
  | SelectPanic.                       (* index out of range *)

Definition set_flows (f : gmap string flowEntry) (e : Engine) : Engine :=
  MkEngine (en_cfg e) (en_registry e) (en_health e) (en_labelMap e) (en_flowIdle e) (en_rrCursor e) f.
Definition set_cursor (c : Z) (e : Engine) : Engine :=
  MkEngine (en_cfg e) (en_registry e) (en_health e) (en_labelMap e) (en_flowIdle e) c (en_flowEntries e).

(** An entry lives while [now.Before(entry.expiresAt)]. *)
Definition live (now : time) (entry : flowEntry) : bool := now <? fe_expiresAt entry.
Definition expireFlows (now : time) (e : Engine) : Engine :=
  set_flows (filter (λ x, live now x.2 = true) (en_flowEntries e)) e.

Definition mappedEgress (req : DecisionRequest) (e : Engine) : option string :=
  let fwmark :=
    if 0 <? dq_FWMark req then en_labelMap e !! labelKey LabelFWMark (dq_FWMark req) else None in
  if 0 <? dq_DSCP req then
    match en_labelMap e !! labelKey LabelDSCP (dq_DSCP req) with
    | Some id => Some id
    | None => fwmark
    end
  else fwmark.

(** The loop of [nextHealthyDumb]: [n] iterations are left. *)
Fixpoint rr_loop (weighted : list EgressTarget) (health : gmap string TargetHealth) (n : nat) (cursor : Z)
    : res select_error EgressTarget * Z :=
  match n with
  | O => (Err ErrNoHealthy, cursor)
  | S n =>
      let index := Z.rem cursor (Z.of_nat (length weighted)) in
      let cursor' := wrap_int64 (cursor + 1) in
      match (if index <? 0 then None else weighted !! Z.to_nat index) with
      | None => (Err SelectPanic, cursor')
      | Some candidate =>
          if IsHealthy health candidate then (Ok candidate, cursor')
          else rr_loop weighted health n cursor'
      end
  end.

Definition nextHealthyDumb (snapshot : Snapshot) (e : Engine) : res select_error EgressTarget * Engine :=
  let weighted := sn_weighted snapshot in
  if bool_decide (length weighted = 0%nat) then (Err ErrNoWeighted, e) else
  let '(r, cursor) := rr_loop weighted (en_health e) (length weighted) (en_rrCursor e) in
  (r, set_cursor cursor e).

Definition recordDecisionLocked (req : DecisionRequest) (egress : EgressTarget) (fallbackReason : string)
    (sticky : bool) (now : time) (flowID : string) (e : Engine) : SelectDecision * Engine :=
  let expiresAt := now + en_flowIdle e in
  let e' := if bool_decide (flowID ≠ "")
            then set_flows (<[flowID := MkFlowEntry (eg_ID egress) expiresAt]> (en_flowEntries e)) e else e in
  (MkDecision egress (cf_Mode (en_cfg e)) (dq_FlowKey req) sticky fallbackReason expiresAt, e').

(** The live entry of the flow, if its egress can still be used. *)
Definition sticky_egress (snapshot : Snapshot) (now : time) (flowID : string) (e : Engine) : option EgressTarget :=
  match en_flowEntries e !! flowID with
  | Some entry =>
      if live now entry then
        match snapshot_Lookup snapshot (fe_egressID entry) with
        | Some egress => if IsHealthy (en_health e) egress then Some egress else None
        | None => None
        end
      else None
  | None => None
  end.

(** [wall] is [time.Now()], read when the caller passes the zero time. *)
Definition Select (wall : time) (req : DecisionRequest) (now : time) (e : Engine)
    : res select_error SelectDecision * Engine :=
  let now := if now =? 0 then wall else now in
  match en_registry e with
  | None => (Err ErrNoSnapshot, e)
  | Some snapshot =>
      let e := expireFlows now e in
      let flowID := if flow_empty (dq_FlowKey req) then "" else flow_String (dq_FlowKey req) in
      let sticky := if bool_decide (flowID = "") then None else sticky_egress snapshot now flowID e in
      match sticky with
      | Some egress =>
          let '(d, e) := recordDecisionLocked req egress "" true now flowID e in (Ok d, e)
      | None =>
          let e := if bool_decide (flowID = "") then e else set_flows (delete flowID (en_flowEntries e)) e in
          let dumb (fallbackReason : string) :=
            let '(r, e) := nextHealthyDumb snapshot e in
            match r with
            | Err err => (Err err, e)
            | Ok egress =>
                let '(d, e) := recordDecisionLocked req egress fallbackReason false now flowID e in (Ok d, e)
            end in
          if bool_decide (cf_Mode (en_cfg e) = ModeLabeled) then
            match mappedEgress req e with
            | None => dumb ""
            | Some mapped =>
                match snapshot_Lookup snapshot mapped with
                | None => dumb "labeled-target-missing"
                | Some egress =>
                    if IsHealthy (en_health e) egress then
                      let '(d, e) := recordDecisionLocked req egress "" false now flowID e in (Ok d, e)
                    else dumb "labeled-target-unhealthy"
                end
            end
          else dumb ""
      end
  end.

(** ** runtime.go *)

Record Runtime := MkRuntime { rt_cfg : Config; rt_plan : Plan; rt_engine : Engine }.

Definition NewRuntime (cfg : Config) : res config_error Runtime :=
  let! n := NormalizeConfig cfg in
  let! plan := PlanConfig n in
  let! engine := NewEngine n in
  Ok (MkRuntime n plan engine).
