(* ===== verification/BalancerProofs.v ===== *)
(** * Properties of the egress balancer

    Normalisation is idempotent; the engine picks healthy egresses of the current
    snapshot and fails only when there is none; flows stick; labels steer; and a
    cycle of the round robin serves each egress as often as its weight says. *)

From S2P Require Import Prelude GoStrings GoNet.
From S2P Require Import Balancer.

(** ** Normalisation *)

Lemma NormalizeEgressTarget_fix e e' :
  NormalizeEgressTarget e = Ok e' → NormalizeEgressTarget e' = Ok e' ∧ 0 < eg_Weight e'.
Proof.
  unfold NormalizeEgressTarget. intros H. inv_res. simpl in *. rewrite !TrimSpace_idem.
  apply Z.leb_gt in Hc1. split; [|done].
  rewrite Hc, Hc0, Ha. simpl. by rewrite (proj2 (Z.leb_gt _ _)).
Qed.

(** What the egress loop has built: distinct normalised targets and their index. *)
Record egresses_inv (st : list EgressTarget * gmap string EgressTarget) : Prop := {
  ei_nodup : NoDup (eg_ID <$> st.1);
  ei_fix : Forall (λ e, NormalizeEgressTarget e = Ok e) st.1;
  ei_index : ∀ id e, st.2 !! id = Some e ↔ e ∈ st.1 ∧ eg_ID e = id
}.

Lemma egresses_inv_snoc l m e :
  egresses_inv (l, m) → NormalizeEgressTarget e = Ok e → m !! eg_ID e = None →
  egresses_inv (l ++ [e], <[eg_ID e := e]> m).
Proof.
  intros [Hnd Hf Hi] Hfix Hnew. simpl in *.
  assert (eg_ID e ∉ eg_ID <$> l) as Hni.
  { rewrite list_elem_of_fmap. intros (x & Hx & Hin).
    assert (m !! eg_ID e = Some x) by (apply Hi; auto). congruence. }
  split; simpl.
  - rewrite fmap_app. apply NoDup_app. split_and!; [done|set_solver|apply NoDup_singleton].
  - apply Forall_app. auto.
  - intros id x. rewrite lookup_insert_Some, Hi, elem_of_app, list_elem_of_singleton. split.
    + intros [[<- <-]|[? [? ?]]]; auto.
    + intros [[Hx| ->] <-]; [right|left; done]. split; [|done]. intros Heq. apply Hni. rewrite Heq.
      by apply list_elem_of_fmap_2.
Qed.

Lemma egress_step_inv i st e st' :
  egresses_inv st → egress_step i st e = Ok st' →
  ∃ e', st' = (st.1 ++ [e'], <[eg_ID e' := e']> st.2) ∧ egresses_inv st' ∧ NormalizeEgressTarget e = Ok e'.
Proof.
  destruct st as [l m]. unfold egress_step. intros Hi H. inv_res. simpl in *.
  destruct (m !! eg_ID a) eqn:Hm; [discriminate|]. inv_res. exists a. split; [done|]. split; [|done].
  apply egresses_inv_snoc; [done| |done]. by eapply NormalizeEgressTarget_fix.
Qed.

Definition egress_loop_inv (done : list EgressTarget) (st : list EgressTarget * gmap string EgressTarget) : Prop :=
  egresses_inv st ∧ length st.1 = length done.

Lemma normalizeEgresses_inv egresses st :
  normalizeEgresses egresses = Ok st → egresses_inv st ∧ st.1 ≠ [].
Proof.
  unfold normalizeEgresses. intros H. inv_res. bool_to_prop.
  assert (egress_loop_inv egresses st) as [Hi Hlen].
  { revert H. apply (fold_res_ind egress_step egress_loop_inv).
    - split; [|done]. split; simpl; [constructor|constructor|]. intros. rewrite lookup_empty. set_solver.
    - intros i dn s x s' [Hi Hlen] Hs. apply egress_step_inv in Hs as (e' & -> & Hi' & _); [|done].
      split; [done|]. simpl. rewrite !length_app, Hlen. done. }
  split; [done|]. intros Hn. apply Hc. rewrite <- Hlen, Hn. done.
Qed.

(** Normalised distinct egresses pass the loop unchanged. *)
Lemma egress_loop_fix l : ∀ i done m,
  egresses_inv (done, m) → Forall (λ e, NormalizeEgressTarget e = Ok e) l →
  NoDup (eg_ID <$> (done ++ l)) →
  ∃ m', fold_res_from egress_step i (done, m) l = Ok (done ++ l, m') ∧ egresses_inv (done ++ l, m').
Proof.
  induction l as [|e l IH]; intros i done m Hi Hf Hnd; simpl.
  { exists m. by rewrite app_nil_r. }
  apply Forall_cons in Hf as [He Hf]. unfold egress_step at 1. rewrite He. simpl.
  destruct (m !! eg_ID e) as [x|] eqn:Hm.
  - apply (ei_index _ Hi) in Hm as [Hx Hid]. exfalso. rewrite fmap_app in Hnd.
    apply NoDup_app in Hnd as (_ & Hd & _). apply (Hd (eg_ID e)); simpl; [|set_solver].
    rewrite <- Hid. by apply list_elem_of_fmap_2.
  - destruct (IH (S i) (done ++ [e]) (<[eg_ID e := e]> m)) as (m' & H1 & H2).
    + by apply egresses_inv_snoc.
    + done.
    + by rewrite <- app_assoc.
    + exists m'. rewrite <- app_assoc in H1, H2. done.
Qed.

Lemma egresses_inv_map l m m' : egresses_inv (l, m) → egresses_inv (l, m') → m = m'.
Proof.
  intros [_ _ H1] [_ _ H2]. apply map_eq. intros id. apply option_eq. intros e.
  rewrite H1, H2. done.
Qed.

Lemma normalizeEgresses_idem egresses st :
  normalizeEgresses egresses = Ok st → normalizeEgresses st.1 = Ok st.
Proof.
  intros H. apply normalizeEgresses_inv in H as [Hi Hne]. destruct st as [l m]. simpl in *.
  unfold normalizeEgresses. rewrite bool_decide_eq_false_2 by (by destruct l).
  destruct (egress_loop_fix l 0 [] ∅) as (m' & H1 & H2).
  - split; simpl; [constructor|constructor|]. intros. rewrite lookup_empty. set_solver.
  - apply Hi.
  - apply Hi.
  - unfold fold_res. rewrite H1. simpl. by rewrite (egresses_inv_map l m m').
Qed.

Lemma NormalizeLabelMapping_fix l l' :
  NormalizeLabelMapping l = Ok l' → NormalizeLabelMapping l' = Ok l'.
Proof.
  unfold NormalizeLabelMapping. intros H. inv_res. simpl in *. rewrite TrimSpace_idem.
  rewrite Hc, Hc0, Ha. simpl. by rewrite Hc1.
Qed.

Definition label_key_of (l : LabelMapping) : string := labelKey (lm_Type l) (lm_Value l).

Record labels_inv (egresses : gmap string EgressTarget) (st : list LabelMapping * gset string) : Prop := {
  li_seen : st.2 = list_to_set (label_key_of <$> st.1);
  li_nodup : NoDup (label_key_of <$> st.1);
  li_fix : Forall (λ l, NormalizeLabelMapping l = Ok l ∧ is_Some (egresses !! lm_EgressID l)) st.1
}.

Lemma labels_inv_snoc egresses ls seen l :
  labels_inv egresses (ls, seen) → NormalizeLabelMapping l = Ok l → is_Some (egresses !! lm_EgressID l) →
  label_key_of l ∉ seen → labels_inv egresses (ls ++ [l], {[label_key_of l]} ∪ seen).
Proof.
  intros [Hs Hnd Hf] Hfix Heg Hnew. simpl in *. subst seen. split; simpl.
  - rewrite fmap_app, list_to_set_app_L. simpl. set_solver.
  - rewrite fmap_app. apply NoDup_app. split_and!; [done|set_solver|apply NoDup_singleton].
  - apply Forall_app. auto.
Qed.

Lemma normalizeLabels_inv labels egresses ls :
  normalizeLabels labels egresses = Ok ls → ∃ seen, labels_inv egresses (ls, seen).
Proof.
  unfold normalizeLabels. intros H. inv_res. destruct a as [ls seen]. exists seen. simpl.
  revert Ha. apply (fold_res_ind (label_step egresses) (λ _, labels_inv egresses)).
  - split; simpl; [done|constructor|constructor].
  - intros i dn [l0 s0] x s' Hi Hs. unfold label_step in Hs. inv_res. simpl in *.
    destruct (egresses !! lm_EgressID a) eqn:He; [|discriminate]. inv_res. bool_to_prop.
    apply labels_inv_snoc; [done| |by rewrite He|done]. by eapply NormalizeLabelMapping_fix.
Qed.

Lemma label_loop_fix egresses l : ∀ i done seen,
  labels_inv egresses (done, seen) →
  Forall (λ l, NormalizeLabelMapping l = Ok l ∧ is_Some (egresses !! lm_EgressID l)) l →
  NoDup (label_key_of <$> (done ++ l)) →
  ∃ seen', fold_res_from (label_step egresses) i (done, seen) l = Ok (done ++ l, seen').
Proof.
  induction l as [|x l IH]; intros i done seen Hi Hf Hnd; simpl.
  { exists seen. by rewrite app_nil_r. }
  apply Forall_cons in Hf as [[Hx [e He]] Hf]. unfold label_step at 1. rewrite Hx. simpl. rewrite He.
  fold (label_key_of x). assert (label_key_of x ∉ seen) as Hnew.
  { pose proof (li_seen _ _ Hi) as Hs. simpl in Hs. subst seen. rewrite elem_of_list_to_set.
    rewrite fmap_app in Hnd. apply NoDup_app in Hnd as (_ & Hd & _). intros Hin.
    apply (Hd _ Hin). simpl. set_solver. }
  rewrite bool_decide_eq_false_2 by done. simpl.
  destruct (IH (S i) (done ++ [x]) ({[label_key_of x]} ∪ seen)) as (seen' & H).
  - apply labels_inv_snoc; eauto.
  - done.
  - by rewrite <- app_assoc.
  - exists seen'. by rewrite H, <- app_assoc.
Qed.

Lemma normalizeLabels_idem labels egresses ls :
  normalizeLabels labels egresses = Ok ls → normalizeLabels ls egresses = Ok ls.
Proof.
  intros H. apply normalizeLabels_inv in H as [seen Hi]. unfold normalizeLabels, fold_res.
  destruct (label_loop_fix egresses ls 0 [] ∅) as (seen' & ->); [|apply Hi|apply Hi|done].
  split; simpl; [done|constructor|constructor].
Qed.

Lemma positive_default x d : 0 < d → (if (if x <=? 0 then d else x) <=? 0 then d else if x <=? 0 then d else x) =
  (if x <=? 0 then d else x).
Proof. intros Hd. destruct (Z.leb_spec x 0); [by rewrite (proj2 (Z.leb_gt d 0))|]. by rewrite (proj2 (Z.leb_gt x 0)). Qed.

Lemma NormalizeConfig_fix cfg c : NormalizeConfig cfg = Ok c → NormalizeConfig c = Ok c.
Proof.
  unfold NormalizeConfig. intros H. inv_res. destruct a as [egresses byID]. inv_res. simpl in *.
  rewrite !TrimSpace_idem, Hc, Hc0, Hc1. set (mode := if bool_decide (cf_Mode cfg = "") then ModeDumb else cf_Mode cfg) in *.
  assert ((if bool_decide (mode = "") then ModeDumb else mode) = mode) as Hm.
  { unfold mode. destruct (decide (cf_Mode cfg = "")) as [->|Hne]; [done|].
    by rewrite !(bool_decide_eq_false_2 (cf_Mode cfg = "")) by done. }
  rewrite Hm, Hc2. apply normalizeEgresses_idem in Ha. simpl in Ha. rewrite Ha. simpl.
  rewrite (normalizeLabels_idem _ _ _ Ha0). simpl. by rewrite !positive_default.
Qed.

(** Normalising a balancer configuration twice is normalising it once, and a
    normalised configuration starts a runtime: [NewRuntime] normalises, plans and
    builds an engine, each of which normalises again, and it fails only if the
    first normalisation does; the three parts then agree on the configuration. *)
Theorem NewRuntime_consistent cfg :
  match NormalizeConfig cfg with
  | Ok c => NormalizeConfig c = Ok c ∧
      ∃ rt, NewRuntime cfg = Ok rt ∧ rt_cfg rt = c ∧ en_cfg (rt_engine rt) = c ∧
            pl_Egresses (rt_plan rt) = cf_Egresses c ∧ pl_EgressCount (rt_plan rt) = length (cf_Egresses c)
  | Err e => NewRuntime cfg = Err e
  end.
Proof.
  unfold NewRuntime, PlanConfig, NewEngine. destruct (NormalizeConfig cfg) as [c|e] eqn:H; [|done].
  simpl. pose proof (NormalizeConfig_fix _ _ H) as Hf. split; [done|]. rewrite Hf. simpl.
  unfold NormalizeConfig in H. inv_res. destruct a as [egresses byID]. inv_res. simpl in *.
  apply normalizeEgresses_idem in Ha. unfold NewRegistry, NewSnapshot. simpl in Ha. rewrite Ha. simpl. eauto 10.
Qed.

(** ** Snapshots and engines *)

Record snapshot_wf (s : Snapshot) : Prop := {
  sw_inv : egresses_inv (sn_egresses s, sn_byID s);
  sw_weighted : sn_weighted s = weighted_of (sn_egresses s);
  sw_nonempty : sn_egresses s ≠ []
}.

Lemma NewSnapshot_wf egresses s : NewSnapshot egresses = Ok s → snapshot_wf s.
Proof.
  unfold NewSnapshot. intros H. inv_res. apply normalizeEgresses_inv in Ha as [Hi Hne].
  destruct a as [l m]. by split.
Qed.

Lemma snapshot_weights s e : snapshot_wf s → e ∈ sn_egresses s → 0 < eg_Weight e.
Proof.
  intros [Hi _ _] He. pose proof (ei_fix _ Hi) as Hf. simpl in Hf.
  rewrite Forall_forall in Hf. apply Hf in He. by eapply NormalizeEgressTarget_fix.
Qed.

Lemma elem_of_weighted l e : e ∈ weighted_of l ↔ e ∈ l ∧ 0 < eg_Weight e.
Proof.
  unfold weighted_of. rewrite list_elem_of_join. setoid_rewrite list_elem_of_fmap. split.
  - intros (x & He & y & -> & Hy). apply elem_of_replicate in He as [-> Hn]. split; [done|lia].
  - intros [He Hw]. exists (replicate (Z.to_nat (eg_Weight e)) e). split; [|eauto].
    apply elem_of_replicate. split; [done|lia].
Qed.

Lemma elem_of_sn_weighted s e : snapshot_wf s → e ∈ sn_weighted s ↔ e ∈ sn_egresses s.
Proof.
  intros Hwf. rewrite (sw_weighted _ Hwf), elem_of_weighted. split; [tauto|].
  intros He. split; [done|]. by eapply snapshot_weights.
Qed.

Lemma weighted_nonempty s : snapshot_wf s → sn_weighted s ≠ [].
Proof.
  intros Hwf Hn. destruct (sn_egresses s) as [|e l] eqn:He; [by apply (sw_nonempty _ Hwf)|].
  assert (e ∈ sn_weighted s) as Hin by (apply elem_of_sn_weighted; [done|]; rewrite He; set_solver).
  rewrite Hn in Hin. by apply elem_of_nil in Hin.
Qed.

Lemma Lookup_elem s id e : snapshot_wf s → snapshot_Lookup s id = Some e → e ∈ sn_egresses s ∧ eg_ID e = id.
Proof. intros Hwf H. by apply (ei_index _ (sw_inv _ Hwf)) in H. Qed.

Lemma weighted_of_cons x l : weighted_of (x :: l) = replicate (Z.to_nat (eg_Weight x)) x ++ weighted_of l.
Proof. done. Qed.

(** Copies of [e] among the weighted candidates: its weight. *)
Lemma weighted_count l e :
  NoDup (eg_ID <$> l) → e ∈ l → length (filter (λ x, x = e) (weighted_of l)) = Z.to_nat (eg_Weight e).
Proof.
  intros Hnd He. induction l as [|x l IH]; [by apply elem_of_nil in He|].
  rewrite fmap_cons in Hnd. apply NoDup_cons in Hnd as [Hx Hnd].
  rewrite weighted_of_cons, filter_app, length_app.
  assert (∀ y n, length (filter (λ z, z = e) (replicate n y)) = if decide (y = e) then n else 0%nat) as Hrep.
  { intros y n. induction n as [|n IHn]; simpl; [by destruct (decide _)|]. rewrite filter_cons.
    destruct (decide (y = e)); simpl; by rewrite ?IHn. }
  rewrite Hrep. apply elem_of_cons in He as [<-|He].
  - rewrite decide_True by done. enough (filter (λ z, z = e) (weighted_of l) = []) as -> by (simpl; lia).
    apply elem_of_nil_inv. intros y [-> Hy]%list_elem_of_filter.
    apply Hx. apply (elem_of_weighted l) in Hy as [Hy _]. by apply list_elem_of_fmap_2.
  - rewrite decide_False; [simpl; by apply IH|]. intros ->. apply Hx. by apply list_elem_of_fmap_2.
Qed.

(** ** The round robin *)

Section round_robin.
Context (weighted : list EgressTarget) (health : gmap string TargetHealth).
Hypothesis Hne : weighted ≠ [].

Definition at_cursor (c : Z) : option EgressTarget :=
  weighted !! Z.to_nat (c mod Z.of_nat (length weighted)).

Lemma weighted_len : 0 < Z.of_nat (length weighted).
Proof. destruct weighted; [done|simpl; lia]. Qed.

Lemma at_cursor_some c : ∃ x, at_cursor c = Some x ∧ x ∈ weighted.
Proof.
  unfold at_cursor. pose proof (Z.mod_pos_bound c _ weighted_len).
  destruct (lookup_lt_is_Some_2 weighted (Z.to_nat (c mod Z.of_nat (length weighted)))) as [x Hx]; [lia|].
  exists x. split; [done|]. by eapply list_elem_of_lookup_2.
Qed.

Lemma rr_loop_step n c :
  0 ≤ c → c + 1 < 2 ^ 63 →
  ∃ x, at_cursor c = Some x ∧
  rr_loop weighted health (S n) c =
    if IsHealthy health x then (Ok x, c + 1) else rr_loop weighted health n (c + 1).
Proof.
  intros H0 H1. destruct (at_cursor_some c) as (x & Hx & _). exists x. split; [done|]. simpl.
  pose proof weighted_len. rewrite Z.rem_mod_nonneg by lia.
  pose proof (Z.mod_pos_bound c _ weighted_len). rewrite (proj2 (Z.ltb_ge _ 0)) by lia.
  unfold at_cursor in Hx. rewrite Hx, wrap_int64_id by lia. done.
Qed.

(** The loop returns the first healthy candidate of the next [n]. *)
Lemma rr_loop_spec n : ∀ c,
  0 ≤ c → c + Z.of_nat n < 2 ^ 63 →
  (∃ i x, 0 ≤ i < Z.of_nat n ∧ at_cursor (c + i) = Some x ∧ IsHealthy health x = true ∧
     rr_loop weighted health n c = (Ok x, c + i + 1)) ∨
  ((∀ i x, 0 ≤ i < Z.of_nat n → at_cursor (c + i) = Some x → IsHealthy health x = false) ∧
   rr_loop weighted health n c = (Err ErrNoHealthy, c + Z.of_nat n)).
Proof.
  induction n as [|n IH]; intros c H0 H1.
  { right. split; [intros; lia|]. simpl. by rewrite Z.add_0_r. }
  destruct (rr_loop_step n c) as (x & Hx & ->); [lia|lia|].
  destruct (IsHealthy health x) eqn:Hh.
  - left. exists 0, x. rewrite Z.add_0_r. split_and!; [lia|lia|done|done|done].
  - destruct (IH (c + 1)) as [(i & y & Hi & Hy & Hhy & ->)|[Hall ->]]; [lia|lia| |].
    + left. exists (i + 1), y. replace (c + (i + 1)) with (c + 1 + i) by lia.
      split_and!; [lia|lia|done|done|done].
    + right. split; [|f_equal; lia]. intros i y Hi Hy. destruct (decide (i = 0)) as [->|Hi0].
      * rewrite Z.add_0_r in Hy. congruence.
      * apply (Hall (i - 1)); [lia|]. by replace (c + 1 + (i - 1)) with (c + i) by lia.
Qed.

(** Every candidate is within one cycle of every cursor. *)
Lemma at_cursor_covers c x : 0 ≤ c → x ∈ weighted → ∃ i, 0 ≤ i < Z.of_nat (length weighted) ∧ at_cursor (c + i) = Some x.
Proof.
  intros Hc [k Hk]%list_elem_of_lookup. pose proof weighted_len as Hl.
  assert (k < length weighted)%nat as Hkl by by eapply lookup_lt_Some.
  exists ((Z.of_nat k - c) mod Z.of_nat (length weighted)).
  split; [by apply Z.mod_pos_bound|]. unfold at_cursor.
  rewrite Z.add_mod_idemp_r by lia. replace (c + (Z.of_nat k - c)) with (Z.of_nat k) by lia.
  rewrite Z.mod_small by lia. by rewrite Nat2Z.id.
Qed.

Lemma rr_full c :
  0 ≤ c → c + Z.of_nat (length weighted) < 2 ^ 63 →
  match rr_loop weighted health (length weighted) c with
  | (Ok x, c') => x ∈ weighted ∧ IsHealthy health x = true ∧ c < c' ≤ c + Z.of_nat (length weighted)
  | (Err e, c') => e = ErrNoHealthy ∧ (∀ x, x ∈ weighted → IsHealthy health x = false) ∧
                   c' = c + Z.of_nat (length weighted)
  end.
Proof.
  intros H0 H1. destruct (rr_loop_spec (length weighted) c H0 H1) as [(i & x & Hi & Hx & Hh & ->)|[Hall ->]].
  - split_and!; [|done|lia|lia]. destruct (at_cursor_some (c + i)) as (y & Hy & Hin). congruence.
  - split_and!; [done| |done]. intros x Hin.
    destruct (at_cursor_covers c x H0 Hin) as (i & Hi & Hx). eauto.
Qed.
End round_robin.

(** ** Select *)

(** An engine whose cursor has room for one more cycle. *)
Record engine_wf (e : Engine) (s : Snapshot) : Prop := {
  ew_registry : en_registry e = Some s;
  ew_snapshot : snapshot_wf s;
  ew_cursor : 0 ≤ en_rrCursor e ∧ en_rrCursor e + Z.of_nat (length (sn_weighted s)) < 2 ^ 63
}.

Definition flow_id (req : DecisionRequest) : string :=
  if flow_empty (dq_FlowKey req) then "" else flow_String (dq_FlowKey req).
Definition effective (wall now : time) : time := if now =? 0 then wall else now.

(** The engine [Select] consults once the flow entry could not be used. *)
Definition unstuck (now : time) (flowID : string) (e : Engine) : Engine :=
  if bool_decide (flowID = "") then expireFlows now e
  else set_flows (delete flowID (en_flowEntries (expireFlows now e))) (expireFlows now e).

(** What a call of [Select] does: reuse the flow's egress, follow a label, or take
    the next healthy one. *)
Definition use_sticky (s : Snapshot) (now : time) (req : DecisionRequest) (e : Engine) : option EgressTarget :=
  if bool_decide (flow_id req = "") then None else sticky_egress s now (flow_id req) (expireFlows now e).
Definition use_label (s : Snapshot) (req : DecisionRequest) (e : Engine) : option EgressTarget :=
  if bool_decide (cf_Mode (en_cfg e) = ModeLabeled) then
    id ← mappedEgress req e; eg ← snapshot_Lookup s id;
    if IsHealthy (en_health e) eg then Some eg else None
  else None.
Definition fallback_reason (s : Snapshot) (req : DecisionRequest) (e : Engine) : string :=
  if bool_decide (cf_Mode (en_cfg e) = ModeLabeled) then
    match mappedEgress req e with
    | None => ""
    | Some id => match snapshot_Lookup s id with
                 | None => "labeled-target-missing" | Some _ => "labeled-target-unhealthy" end
    end
  else "".

(** The decision for an egress. *)
Definition decide_for (now : time) (req : DecisionRequest) (eg : EgressTarget) (reason : string)
    (sticky : bool) (e : Engine) : SelectDecision :=
  MkDecision eg (cf_Mode (en_cfg e)) (dq_FlowKey req) sticky reason (now + en_flowIdle e).
Definition note_flow (now : time) (req : DecisionRequest) (eg : EgressTarget) (e : Engine) : Engine :=
  if bool_decide (flow_id req ≠ "")
  then set_flows (<[flow_id req := MkFlowEntry (eg_ID eg) (now + en_flowIdle e)]> (en_flowEntries e)) e else e.

Lemma Select_cases wall req now0 e s :
  en_registry e = Some s →
  let now := effective wall now0 in
  let e1 := unstuck now (flow_id req) e in
  Select wall req now0 e =
  match use_sticky s now req e with
  | Some eg => (Ok (decide_for now req eg "" true e), note_flow now req eg (expireFlows now e))
  | None =>
      match use_label s req e with
      | Some eg => (Ok (decide_for now req eg "" false e), note_flow now req eg e1)
      | None =>
          let '(r, e2) := nextHealthyDumb s e1 in
          match r with
          | Ok eg => (Ok (decide_for now req eg (fallback_reason s req e) false e), note_flow now req eg e2)
          | Err err => (Err err, e2)
          end
      end
  end.
Proof.
  intros Hreg now e1. unfold Select. rewrite Hreg. cbv zeta.
  fold (flow_id req). fold (effective wall now0). fold now. fold (unstuck now (flow_id req) e). fold e1.
  unfold use_sticky. destruct (if bool_decide (flow_id req = "") then None else _) as [eg|]; [done|].
  assert (en_cfg e1 = en_cfg e ∧ en_health e1 = en_health e ∧ en_labelMap e1 = en_labelMap e ∧
          en_flowIdle e1 = en_flowIdle e) as (Hc & Hh & Hl & Hi).
  { unfold e1, unstuck. by case_bool_decide. }
  assert (mappedEgress req e1 = mappedEgress req e) as Hm by (unfold mappedEgress; by rewrite Hl).
  assert (∀ eg reason e', en_cfg e' = en_cfg e → en_flowIdle e' = en_flowIdle e →
    recordDecisionLocked req eg reason false now (flow_id req) e' =
    (decide_for now req eg reason false e, note_flow now req eg e')) as Hrec.
  { intros eg reason e' H1 H2. unfold recordDecisionLocked, decide_for, note_flow. by rewrite H1, H2. }
  assert (en_cfg (nextHealthyDumb s e1).2 = en_cfg e ∧ en_flowIdle (nextHealthyDumb s e1).2 = en_flowIdle e)
    as [Hc2 Hi2].
  { unfold nextHealthyDumb. case_bool_decide; [done|]. by destruct (rr_loop _ _ _ _). }
  unfold use_label, fallback_reason. rewrite Hc, Hm, Hh. clearbody e1 now.
  destruct (nextHealthyDumb s e1) as [r e2]. simpl in Hc2, Hi2.
  case_bool_decide; cbn [mbind option_bind].
  - destruct (mappedEgress req e) as [id|]; cbn [mbind option_bind].
    + destruct (snapshot_Lookup s id) as [eg|]; cbn [mbind option_bind].
      * destruct (IsHealthy (en_health e) eg); [by rewrite Hrec|]. destruct r; [|done]. by rewrite Hrec.
      * destruct r; [|done]. by rewrite Hrec.
    + destruct r; [|done]. by rewrite Hrec.
  - destruct r; [|done]. by rewrite Hrec.
Qed.

Lemma sticky_egress_ok s now id e eg :
  sticky_egress s now id e = Some eg →
  ∃ entry, en_flowEntries e !! id = Some entry ∧ live now entry = true ∧
    snapshot_Lookup s (fe_egressID entry) = Some eg ∧ IsHealthy (en_health e) eg = true.
Proof. unfold sticky_egress. intros H. repeat case_match; simplify_eq. eauto. Qed.

Lemma use_sticky_ok s now req e eg :
  use_sticky s now req e = Some eg → ∃ id, snapshot_Lookup s id = Some eg ∧ IsHealthy (en_health e) eg = true.
Proof.
  unfold use_sticky. case_bool_decide as Hb; [done|]. intros H.
  apply sticky_egress_ok in H as (entry & _ & _ & Hl & Hh). eauto.
Qed.

Lemma use_label_ok s req e eg :
  use_label s req e = Some eg →
  ∃ id, mappedEgress req e = Some id ∧ snapshot_Lookup s id = Some eg ∧ IsHealthy (en_health e) eg = true.
Proof.
  unfold use_label. case_bool_decide; [|done]. destruct (mappedEgress req e) as [id|]; [|done].
  cbn [mbind option_bind]. destruct (snapshot_Lookup s id) as [x|] eqn:Hx; [|done].
  cbn [mbind option_bind]. destruct (IsHealthy (en_health e) x) eqn:Hh; [|done]. intros [= ->]. eauto.
Qed.

Lemma unstuck_fields now id e :
  en_health (unstuck now id e) = en_health e ∧ en_rrCursor (unstuck now id e) = en_rrCursor e ∧
  en_registry (unstuck now id e) = en_registry e.
Proof. unfold unstuck. by case_bool_decide. Qed.

Lemma nextHealthyDumb_ok e s now id :
  engine_wf e s →
  match nextHealthyDumb s (unstuck now id e) with
  | (Ok eg, e2) => eg ∈ sn_egresses s ∧ IsHealthy (en_health e) eg = true ∧
       en_rrCursor e < en_rrCursor e2 ≤ en_rrCursor e + Z.of_nat (length (sn_weighted s))
  | (Err err, e2) => err = ErrNoHealthy ∧ ∀ eg, eg ∈ sn_egresses s → IsHealthy (en_health e) eg = false
  end.
Proof.
  intros [Hreg Hs [Hc0 Hc1]]. unfold nextHealthyDumb.
  destruct (unstuck_fields now id e) as (-> & -> & _).
  pose proof (weighted_nonempty s Hs) as Hne.
  rewrite bool_decide_eq_false_2 by (by destruct (sn_weighted s)).
  pose proof (rr_full (sn_weighted s) (en_health e) Hne (en_rrCursor e) Hc0 Hc1) as H.
  destruct (rr_loop _ _ _ _) as [[eg|err] c].
  - rewrite elem_of_sn_weighted in H by done. simpl. tauto.
  - destruct H as (-> & Hall & _). split; [done|]. intros eg Heg. apply Hall.
    by apply elem_of_sn_weighted.
Qed.

(** C35. Selection is sound and complete: a decision names an egress of the current
    snapshot that is healthy; and [Select] fails, with the "no healthy egress"
    error, exactly when no egress of the snapshot is healthy. *)
Theorem Select_healthy wall req now e s :
  engine_wf e s →
  match (Select wall req now e).1 with
  | Ok d => de_Egress d ∈ sn_egresses s ∧ IsHealthy (en_health e) (de_Egress d) = true
  | Err err => err = ErrNoHealthy ∧ ∀ eg, eg ∈ sn_egresses s → IsHealthy (en_health e) eg = false
  end.
Proof.
  intros Hwf. rewrite (Select_cases wall req now e s (ew_registry _ _ Hwf)).
  destruct (use_sticky _ _ _ _) as [eg|] eqn:Hst.
  { apply use_sticky_ok in Hst as (id & Hl & Hh). simpl. split; [|done].
    by apply (Lookup_elem s id eg (ew_snapshot _ _ Hwf)). }
  destruct (use_label _ _ _) as [eg|] eqn:Hla.
  { apply use_label_ok in Hla as (id & _ & Hl & Hh). simpl. split; [|done].
    by apply (Lookup_elem s id eg (ew_snapshot _ _ Hwf)). }
  pose proof (nextHealthyDumb_ok e s (effective wall now) (flow_id req) Hwf) as H.
  destruct (nextHealthyDumb s _) as [[eg|err] e2]; simpl; tauto.
Qed.

(** ** A concrete engine *)

Definition demo_cfg (mode : Mode) : Config :=
  MkConfig "b1" "10.0.0.5" mode [MkEgress "e1" "10.1.0.1:443" 2; MkEgress "e2" "10.1.0.2:443" 1]
    [MkLabel LabelDSCP 46 "e2"] 0 0 "".
Definition demo_engine (mode : Mode) : Engine :=
  match NewEngine (demo_cfg mode) with
  | Ok e => e
  | Err _ => MkEngine (demo_cfg mode) None ∅ ∅ 0 0 ∅
  end.
Definition demo_snapshot : Snapshot :=
  match NewSnapshot (cf_Egresses (demo_cfg ModeDumb)) with Ok s => s | Err _ => MkSnapshot [] ∅ [] end.

Lemma demo_engine_wf mode : validateMode mode = true → engine_wf (demo_engine mode) demo_snapshot.
Proof.
  unfold validateMode. intros H. bool_to_prop.
  split.
  - destruct H as [-> | ->]; vm_compute; reflexivity.
  - apply (NewSnapshot_wf (cf_Egresses (demo_cfg ModeDumb))). vm_compute. reflexivity.
  - destruct H as [-> | ->]; vm_compute; (split; [discriminate|reflexivity]).
Qed.

Definition demo_request (src : string) (dscp : Z) : DecisionRequest :=
  MkRequest (MkFlowKey src "10.9.9.9" "tcp" 4242 443) dscp 0.

Lemma Select_healthy_witness :
  match (Select 0 (demo_request "10.0.0.7" 0) 100 (demo_engine ModeDumb)).1 with
  | Ok d => de_Egress d = MkEgress "e1" "10.1.0.1:443" 2 ∧ de_Egress d ∈ sn_egresses demo_snapshot
  | Err _ => False
  end.
Proof.
  pose proof (Select_healthy 0 (demo_request "10.0.0.7" 0) 100 (demo_engine ModeDumb) demo_snapshot
    (demo_engine_wf ModeDumb eq_refl)) as H.
  assert (de_Egress <$> (match (Select 0 (demo_request "10.0.0.7" 0) 100 (demo_engine ModeDumb)).1 with
    Ok d => Some d | Err _ => None end) = Some (MkEgress "e1" "10.1.0.1:443" 2)) as He by (vm_compute; reflexivity).
  destruct (Select 0 (demo_request "10.0.0.7" 0) 100 (demo_engine ModeDumb)).1 as [d|err]; [|discriminate He].
  simpl in He. injection He as He. split; [exact He|apply H].
Defined.

(** ** Sticky flows *)

(** What happens to an engine between two packets of a flow. *)
Inductive engine_op :=
  | OpSelect (wall : time) (req : DecisionRequest) (now : time)
  | OpHealth (id : string) (healthy : bool) (at_ : time) (err : string)
  | OpReplace (egresses : list EgressTarget).

Definition run_engine_op (op : engine_op) (e : Engine) : Engine :=
  match op with
  | OpSelect wall req now => (Select wall req now e).2
  | OpHealth id healthy at_ err =>
      MkEngine (en_cfg e) (en_registry e) (health_Set id healthy at_ err (en_health e)) (en_labelMap e)
        (en_flowIdle e) (en_rrCursor e) (en_flowEntries e)
  | OpReplace egresses =>
      MkEngine (en_cfg e) (Replace (en_registry e) egresses).2 (en_health e) (en_labelMap e)
        (en_flowIdle e) (en_rrCursor e) (en_flowEntries e)
  end.

(** An operation that leaves the flow [id], which expires at [expires], alone: a
    selection for it would be for another flow and before the expiry. *)
Definition spares (id : string) (expires : time) (op : engine_op) : Prop :=
  match op with
  | OpSelect wall req now => flow_id req ≠ id ∧ effective wall now < expires
  | _ => True
  end.

Lemma unstuck_flow id entry now other e :
  en_flowEntries e !! id = Some entry → live now entry = true → other ≠ id →
  en_flowEntries (unstuck now other e) !! id = Some entry ∧
  en_flowEntries (expireFlows now e) !! id = Some entry.
Proof.
  intros He Hl Hne.
  assert (en_flowEntries (expireFlows now e) !! id = Some entry) as H1.
  { simpl. apply map_lookup_filter_Some. done. }
  split; [|done]. unfold unstuck. case_bool_decide; [done|]. simpl. by rewrite lookup_delete_ne.
Qed.

Lemma note_flow_other id now req eg e :
  flow_id req ≠ id → en_flowEntries (note_flow now req eg e) !! id = en_flowEntries e !! id.
Proof. intros H. unfold note_flow. case_bool_decide; [|done]. simpl. by rewrite lookup_insert_ne. Qed.

Lemma nextHealthyDumb_flows s e :
  en_flowEntries (nextHealthyDumb s e).2 = en_flowEntries e ∧ en_flowIdle (nextHealthyDumb s e).2 = en_flowIdle e.
Proof. unfold nextHealthyDumb. case_bool_decide; [done|]. by destruct (rr_loop _ _ _ _). Qed.

Lemma spared_flow id entry op e :
  en_flowEntries e !! id = Some entry → spares id (fe_expiresAt entry) op →
  en_flowEntries (run_engine_op op e) !! id = Some entry.
Proof.
  intros He Hs. destruct op as [wall req now| |]; simpl in *; [|done..]. destruct Hs as [Hne Hlt].
  assert (live (effective wall now) entry = true) as Hl by (by apply Z.ltb_lt).
  destruct (en_registry e) as [s|] eqn:Hreg.
  2:{ unfold Select. by rewrite Hreg. }
  rewrite (Select_cases wall req now e s Hreg).
  destruct (unstuck_flow id entry (effective wall now) (flow_id req) e He Hl Hne) as [H1 H2].
  destruct (use_sticky _ _ _ _) as [eg|]; [simpl; by rewrite note_flow_other|].
  destruct (use_label _ _ _) as [eg|]; [simpl; by rewrite note_flow_other|].
  destruct (nextHealthyDumb_flows s (unstuck (effective wall now) (flow_id req) e)) as [H3 _].
  destruct (nextHealthyDumb s _) as [[eg|err] e2]; simpl in *; [rewrite note_flow_other by done|]; by rewrite H3.
Qed.

Lemma spared_run id entry ops : ∀ e,
  en_flowEntries e !! id = Some entry → Forall (spares id (fe_expiresAt entry)) ops →
  en_flowEntries (foldl (λ e op, run_engine_op op e) e ops) !! id = Some entry.
Proof.
  induction ops as [|op ops IH]; intros e He Hf; [done|]. apply Forall_cons in Hf as [Hop Hf].
  simpl. apply IH; [|done]. by apply spared_flow.
Qed.

(** A decision for a flow leaves its entry. *)
Lemma Select_notes wall req now e d :
  flow_id req ≠ "" → (Select wall req now e).1 = Ok d →
  en_flowEntries (Select wall req now e).2 !! flow_id req =
    Some (MkFlowEntry (eg_ID (de_Egress d)) (de_ExpiresAt d)).
Proof.
  intros Hf. destruct (en_registry e) as [s|] eqn:Hreg; [|unfold Select; by rewrite Hreg].
  rewrite (Select_cases wall req now e s Hreg).
  assert (∀ eg e', en_flowEntries (note_flow (effective wall now) req eg e') !! flow_id req =
    Some (MkFlowEntry (eg_ID eg) (effective wall now + en_flowIdle e'))) as Hn.
  { intros eg e'. unfold note_flow. rewrite bool_decide_eq_true_2 by done. simpl. apply lookup_insert_eq. }
  assert (en_flowIdle (unstuck (effective wall now) (flow_id req) e) = en_flowIdle e) as Hu
    by (unfold unstuck; by case_bool_decide).
  destruct (use_sticky _ _ _ _) as [eg|]; [intros [= <-]; simpl; by rewrite Hn|].
  destruct (use_label _ _ _) as [eg|]; [intros [= <-]; simpl; by rewrite Hn, Hu|].
  destruct (nextHealthyDumb_flows s (unstuck (effective wall now) (flow_id req) e)) as [_ H3].
  destruct (nextHealthyDumb s _) as [[eg|err] e2]; simpl in *; [|done].
  intros [= <-]. simpl. by rewrite Hn, H3, Hu.
Qed.

(** Flows stick: once a flow was sent to an egress, then, whatever other flows
    are balanced, however health changes and however often the egress set is
    replaced in between, the next packet of the flow before its idle timeout goes
    to the same egress, provided it is then still in the snapshot and healthy; and
    its timeout starts again. *)
Theorem Select_sticky wall req now e d ops wall' now' e2 s2 eg2 :
  flow_id req ≠ "" → (Select wall req now e).1 = Ok d →
  Forall (spares (flow_id req) (de_ExpiresAt d)) ops →
  e2 = foldl (λ e op, run_engine_op op e) (Select wall req now e).2 ops →
  effective wall' now' < de_ExpiresAt d →
  en_registry e2 = Some s2 → snapshot_Lookup s2 (eg_ID (de_Egress d)) = Some eg2 →
  IsHealthy (en_health e2) eg2 = true →
  ∃ d2, (Select wall' req now' e2).1 = Ok d2 ∧ de_Egress d2 = eg2 ∧ de_Sticky d2 = true ∧
    de_ExpiresAt d2 = effective wall' now' + en_flowIdle e2.
Proof.
  intros Hf Hd Hops He2 Hlt Hreg Hl Hh.
  pose proof (Select_notes wall req now e d Hf Hd) as Hn.
  pose proof (spared_run (flow_id req) _ ops _ Hn Hops) as Hentry. rewrite <- He2 in Hentry.
  rewrite (Select_cases wall' req now' e2 s2 Hreg).
  assert (use_sticky s2 (effective wall' now') req e2 = Some eg2) as ->.
  { unfold use_sticky. rewrite bool_decide_eq_false_2 by done. unfold sticky_egress.
    assert (live (effective wall' now') (MkFlowEntry (eg_ID (de_Egress d)) (de_ExpiresAt d)) = true) as Hlive
      by (by apply Z.ltb_lt).
    assert (en_flowEntries (expireFlows (effective wall' now') e2) !! flow_id req =
      Some (MkFlowEntry (eg_ID (de_Egress d)) (de_ExpiresAt d))) as ->.
    { simpl. by apply map_lookup_filter_Some. }
    rewrite Hlive. simpl. by rewrite Hl, Hh. }
  eexists. split; [done|]. done.
Qed.

Lemma Select_sticky_witness :
  let e := demo_engine ModeDumb in
  let req := demo_request "10.0.0.7" 0 in
  let ops := [OpSelect 0 (demo_request "10.0.0.8" 0) 200; OpHealth "e2" false 300 "refused"] in
  ∃ d d2, (Select 0 req 100 e).1 = Ok d ∧
    (Select 0 req 1000 (foldl (λ e op, run_engine_op op e) (Select 0 req 100 e).2 ops)).1 = Ok d2 ∧
    eg_ID (de_Egress d2) = "e1" ∧ de_Sticky d2 = true.
Proof.
  intros e req ops.
  destruct (Select_sticky 0 req 100 e
    (MkDecision (MkEgress "e1" "10.1.0.1:443" 2) ModeDumb (dq_FlowKey req) false "" (100 + 30000000000))
    ops 0 1000 (foldl (λ e op, run_engine_op op e) (Select 0 req 100 e).2 ops) demo_snapshot
    (MkEgress "e1" "10.1.0.1:443" 2)) as (d2 & H1 & H2 & H3 & _).
  - vm_compute. discriminate.
  - vm_compute. reflexivity.
  - repeat constructor; vm_compute; discriminate || reflexivity.
  - reflexivity.
  - vm_compute. reflexivity.
  - vm_compute. reflexivity.
  - vm_compute. reflexivity.
  - vm_compute. reflexivity.
  - eexists _, d2. split; [vm_compute; reflexivity|]. split; [exact H1|]. rewrite H2, H3. split; reflexivity.
Defined.

(** ** Labels *)

Lemma build_label_map_lookup labels l :
  NoDup (label_key_of <$> labels) → l ∈ labels → build_label_map labels !! label_key_of l = Some (lm_EgressID l).
Proof.
  unfold build_label_map. induction labels as [|x labels IH] using rev_ind; [by intros _ ?%elem_of_nil|].
  rewrite fmap_app, foldl_snoc. intros (Hnd & Hd & _)%NoDup_app Hl. fold (label_key_of x).
  apply elem_of_app in Hl as [Hl| ->%list_elem_of_singleton]; [|apply lookup_insert_eq].
  rewrite lookup_insert_ne; [by apply IH|]. intros Heq. apply (Hd (label_key_of l)).
  - by apply list_elem_of_fmap_2.
  - simpl. rewrite Heq. set_solver.
Qed.

(** What [NewEngine] guarantees of its labels. *)
Lemma NewEngine_labels cfg e l :
  NewEngine cfg = Ok e → l ∈ cf_Labels (en_cfg e) →
  en_labelMap e !! label_key_of l = Some (lm_EgressID l) ∧ 0 < lm_Value l ∧
  ∃ s eg, en_registry e = Some s ∧ snapshot_Lookup s (lm_EgressID l) = Some eg.
Proof.
  unfold NewEngine. intros H Hl. apply res_bind_ok in H as (n & Hn & H).
  apply res_bind_ok in H as (reg & Hreg & H). injection H as <-. simpl in *.
  apply res_bind_ok in Hreg as (snap & Hsnap & [= <-]).
  unfold NormalizeConfig in Hn. inv_res. destruct a as [egs byID]. inv_res. simpl in *.
  apply normalizeLabels_inv in Ha0 as [seen [_ Hnd Hf]]. simpl in Hnd, Hf.
  rewrite Forall_forall in Hf. destruct (Hf l Hl) as [Hfix [eg Heg]].
  split; [by apply build_label_map_lookup|]. split.
  - unfold NormalizeLabelMapping in Hfix. inv_res. by apply Z.leb_gt.
  - unfold NewSnapshot in Hsnap. apply normalizeEgresses_idem in Ha. simpl in Ha. rewrite Ha in Hsnap.
    simpl in Hsnap. injection Hsnap as <-. eauto.
Qed.

(** Labels steer: in labeled mode, a packet without a flow key whose DSCP value
    the configuration maps goes to the mapped egress whenever that egress is
    healthy, with no fallback reason; when it is not, the packet goes to another
    egress and the decision says the labeled target is unhealthy. The mapped
    egress always exists, whatever health and flows did in the meantime. *)
Theorem Select_labeled cfg e e' s l wall req now :
  NewEngine cfg = Ok e → cf_Mode (en_cfg e) = ModeLabeled →
  en_registry e' = en_registry e → en_cfg e' = en_cfg e → en_labelMap e' = en_labelMap e → engine_wf e' s →
  l ∈ cf_Labels (en_cfg e) → lm_Type l = LabelDSCP → dq_DSCP req = lm_Value l → flow_id req = "" →
  ∃ eg, snapshot_Lookup s (lm_EgressID l) = Some eg ∧
    if IsHealthy (en_health e') eg
    then ∃ d, (Select wall req now e').1 = Ok d ∧ de_Egress d = eg ∧ de_FallbackReason d = ""
    else ∀ d, (Select wall req now e').1 = Ok d →
           de_FallbackReason d = "labeled-target-unhealthy" ∧ de_Egress d ≠ eg.
Proof.
  intros Hnew Hmode Hreg Hcfg Hmap Hwf Hl Hty Hval Hflow.
  destruct (NewEngine_labels cfg e l Hnew Hl) as (Hkey & Hpos & s' & eg & Hs & Heg).
  assert (s' = s) as -> by (pose proof (ew_registry _ _ Hwf); congruence).
  exists eg. split; [done|].
  assert (mappedEgress req e' = Some (lm_EgressID l)) as Hm.
  { unfold mappedEgress. rewrite Hval, (proj2 (Z.ltb_lt _ _) Hpos), Hmap.
    unfold label_key_of in Hkey. rewrite Hty in Hkey. by rewrite Hkey. }
  rewrite (Select_cases wall req now e' s (ew_registry _ _ Hwf)).
  unfold use_sticky. rewrite bool_decide_eq_true_2 by done.
  unfold use_label, fallback_reason. rewrite Hcfg, Hmode, Hm, bool_decide_eq_true_2 by done.
  cbn [mbind option_bind]. rewrite Heg. cbn [mbind option_bind].
  destruct (IsHealthy (en_health e') eg) eqn:Hh; [eauto|].
  intros d. pose proof (nextHealthyDumb_ok e' s (effective wall now) (flow_id req) Hwf) as Hd.
  destruct (nextHealthyDumb s _) as [[x|err] e2]; simpl; [|done]. intros [= <-]. simpl.
  split; [done|]. intros ->. destruct Hd as (_ & Hhx & _). congruence.
Qed.

Lemma Select_labeled_witness :
  ∃ d, (Select 5 (MkRequest (MkFlowKey "" "" "" 0 0) 46 0) 100 (demo_engine ModeLabeled)).1 = Ok d ∧
    eg_ID (de_Egress d) = "e2" ∧ de_FallbackReason d = "".
Proof.
  destruct (Select_labeled (demo_cfg ModeLabeled) (demo_engine ModeLabeled) (demo_engine ModeLabeled)
    demo_snapshot (MkLabel LabelDSCP 46 "e2") 5 (MkRequest (MkFlowKey "" "" "" 0 0) 46 0) 100)
    as (eg & Heg & H); try (vm_compute; reflexivity).
  - by apply demo_engine_wf.
  - vm_compute. apply list_elem_of_here.
  - assert (eg = MkEgress "e2" "10.1.0.2:443" 1) as -> by (vm_compute in Heg; congruence).
    assert (IsHealthy (en_health (demo_engine ModeLabeled)) (MkEgress "e2" "10.1.0.2:443" 1) = true) as Hh
      by (vm_compute; reflexivity).
    rewrite Hh in H. destruct H as (d & H1 & H2 & H3). exists d. rewrite H2. done.
Defined.

(** ** Fairness *)

Section fairness.
Context (weighted : list EgressTarget) (health : gmap string TargetHealth).
Hypothesis Hne : weighted ≠ [].
Notation len := (Z.of_nat (length weighted)).

(** [n] successive runs of the loop. *)
Fixpoint rr_run (n : nat) (c : Z) : list EgressTarget * Z :=
  match n with
  | O => ([], c)
  | S n => match rr_loop weighted health (length weighted) c with
           | (Ok x, c') => let '(xs, c'') := rr_run n c' in (x :: xs, c'')
           | (Err _, c') => ([], c')
           end
  end.

Lemma rr_loop_more n : ∀ c x c',
  rr_loop weighted health n c = (Ok x, c') → rr_loop weighted health (S n) c = (Ok x, c').
Proof.
  induction n as [|n IH]; intros c x c' H; [discriminate|].
  cbn [rr_loop] in H |- *. destruct (if _ <? 0 then None else _) as [y|]; [|discriminate].
  destruct (IsHealthy health y); [done|]. by apply IH.
Qed.

(** Skipping an unhealthy candidate changes nothing if a healthy one follows. *)
Lemma rr_loop_skip c x i y :
  0 ≤ c → c + len + 1 < 2 ^ 63 → at_cursor weighted c = Some x → IsHealthy health x = false →
  0 ≤ i < len - 1 → at_cursor weighted (c + 1 + i) = Some y → IsHealthy health y = true →
  rr_loop weighted health (length weighted) c = rr_loop weighted health (length weighted) (c + 1).
Proof.
  intros H0 H1 Hx Hxh Hi Hy Hyh. destruct (length weighted) as [|m] eqn:Hlen; [simpl in *; lia|].
  destruct (rr_loop_step weighted health Hne m c) as (x' & Hx' & Hstep); [lia|lia|].
  rewrite Hx in Hx'. injection Hx' as <-. rewrite Hxh in Hstep. rewrite Hstep.
  destruct (rr_loop_spec weighted health Hne m (c + 1)) as [(k & z & _ & _ & _ & Hr)|[Hall _]]; [lia|lia| |].
  - rewrite Hr. symmetry. by apply rr_loop_more.
  - rewrite (Hall i y) in Hyh; [done|lia|done].
Qed.

Lemma rr_run_cycle R : ∀ c,
  (∀ i, (i < length R)%nat → at_cursor weighted (c + Z.of_nat i) = R !! i) →
  Z.of_nat (length R) ≤ len → 0 ≤ c → c + Z.of_nat (length R) + len + 1 < 2 ^ 63 →
  (rr_run (length (filter (λ x, IsHealthy health x = true) R)) c).1 = filter (λ x, IsHealthy health x = true) R.
Proof.
  induction R as [|x R IH]; intros c HR Hlen H0 H1; [done|]. cbn [length] in *.
  assert (at_cursor weighted c = Some x) as Hx.
  { rewrite <- (Z.add_0_r c). apply (HR 0%nat). lia. }
  assert (∀ i, (i < length R)%nat → at_cursor weighted (c + 1 + Z.of_nat i) = R !! i) as HR'.
  { intros i Hi. change (R !! i) with ((x :: R) !! S i).
    rewrite <- (HR (S i)) by lia. f_equal. lia. }
  specialize (IH (c + 1) HR' ltac:(lia) ltac:(lia) ltac:(lia)). rewrite filter_cons.
  destruct (decide (IsHealthy health x = true)) as [Hh|Hh].
  - destruct (length weighted) as [|m] eqn:Hm; [simpl in *; lia|].
    destruct (rr_loop_step weighted health Hne m c) as (x' & Hx' & Hstep); [lia|lia|].
    rewrite Hx in Hx'. injection Hx' as <-. rewrite Hh in Hstep. cbn [length rr_run].
    rewrite Hm, Hstep. destruct (rr_run _ (c + 1)) as [xs c'']. simpl in *. by rewrite IH.
  - apply not_true_is_false in Hh.
    destruct (filter (λ x, IsHealthy health x = true) R) as [|y ys] eqn:Hf; [done|].
    assert (y ∈ filter (λ x, IsHealthy health x = true) R) as Hy by (rewrite Hf; set_solver).
    apply list_elem_of_filter in Hy as [Hyh [i Hi]%list_elem_of_lookup].
    assert (i < length R)%nat as HiR by by eapply lookup_lt_Some.
    etransitivity; [|exact IH]. cbn [length rr_run]. rewrite (rr_loop_skip c x (Z.of_nat i) y); auto; [lia|lia|].
    by rewrite HR', Hi.
Qed.

(** One cycle, starting at the cursor. *)
Definition rotation (c : Z) : list EgressTarget :=
  let k := Z.to_nat (c mod len) in drop k weighted ++ take k weighted.

Lemma rotation_cursor c i :
  0 ≤ c → (i < length (rotation c))%nat → at_cursor weighted (c + Z.of_nat i) = rotation c !! i.
Proof.
  intros H0. pose proof (weighted_len weighted Hne) as Hl.
  pose proof (Z.mod_pos_bound c len Hl) as Hk. unfold rotation, at_cursor.
  set (k := Z.to_nat (c mod len)). rewrite length_app, length_drop, length_take. intros Hi.
  rewrite <- Z.add_mod_idemp_l by lia. replace (c mod len) with (Z.of_nat k) by lia.
  destruct (decide (k + i < length weighted)%nat) as [Hlt|Hge].
  - rewrite Z.mod_small by lia. rewrite lookup_app_l by (rewrite length_drop; lia).
    rewrite lookup_drop. f_equal. lia.
  - replace (Z.of_nat k + Z.of_nat i) with (Z.of_nat (k + i - length weighted) + 1 * len) by lia.
    rewrite Z.mod_add, Z.mod_small by lia. rewrite lookup_app_r by (rewrite length_drop; lia).
    rewrite length_drop, lookup_take_lt by lia. f_equal. lia.
Qed.

Lemma rotation_perm c : rotation c ≡ₚ weighted.
Proof.
  unfold rotation. rewrite (Permutation_app_comm (drop _ _)). by rewrite take_drop.
Qed.
End fairness.

(** The egresses a sequence of packets goes to. *)
Fixpoint select_many (wall : time) (reqs : list (DecisionRequest * time)) (e : Engine) : list EgressTarget :=
  match reqs with
  | [] => []
  | (req, now) :: reqs =>
      match Select wall req now e with
      | (Ok d, e') => de_Egress d :: select_many wall reqs e'
      | (Err _, _) => []
      end
  end.

(** Without flow keys and labels, [Select] is the round robin. *)
Lemma select_many_rr wall s reqs : ∀ e,
  en_registry e = Some s → sn_weighted s ≠ [] → cf_Mode (en_cfg e) ≠ ModeLabeled →
  Forall (λ x, flow_id x.1 = "") reqs →
  select_many wall reqs e = (rr_run (sn_weighted s) (en_health e) (length reqs) (en_rrCursor e)).1.
Proof.
  induction reqs as [|[req now] reqs IH]; intros e Hreg Hne Hmode Hf; [done|].
  apply Forall_cons in Hf as [Hfl Hf]. cbn [fst] in Hfl. cbn [select_many length rr_run].
  rewrite (Select_cases wall req now e s Hreg). unfold use_sticky, use_label.
  rewrite (bool_decide_eq_true_2 (flow_id req = "")) by done.
  rewrite (bool_decide_eq_false_2 (cf_Mode (en_cfg e) = ModeLabeled)) by done.
  unfold nextHealthyDumb. rewrite (bool_decide_eq_false_2 (length (sn_weighted s) = 0%nat)) by (by destruct (sn_weighted s)).
  unfold unstuck. rewrite (bool_decide_eq_true_2 (flow_id req = "")) by done.
  change (en_health (expireFlows (effective wall now) e)) with (en_health e).
  change (en_rrCursor (expireFlows (effective wall now) e)) with (en_rrCursor e).
  destruct (rr_loop _ _ _ _) as [[x|err] c']; [|done].
  unfold note_flow. rewrite (bool_decide_eq_false_2 (flow_id req ≠ "")) by (intros H; by apply H).
  cbn [decide_for de_Egress]. rewrite IH by done.
  cbn [set_cursor en_health en_rrCursor expireFlows set_flows].
  by destruct (rr_run _ _ _ c') as [xs c''].
Qed.

(** C36. Weighted fairness: over one cycle of the round robin, with as many packets
    (without flow keys, in dumb mode) as there are healthy weighted candidates,
    every healthy egress is chosen exactly as many times as its weight, and no
    unhealthy one is chosen at all. *)
Theorem round_robin_fair wall reqs e s :
  engine_wf e s → cf_Mode (en_cfg e) ≠ ModeLabeled → Forall (λ x, flow_id x.1 = "") reqs →
  en_rrCursor e + 2 * Z.of_nat (length (sn_weighted s)) + 1 < 2 ^ 63 →
  length reqs = length (filter (λ x, IsHealthy (en_health e) x = true) (sn_weighted s)) →
  let picks := select_many wall reqs e in
  length picks = length reqs ∧
  ∀ eg, eg ∈ sn_egresses s →
    Z.of_nat (length (filter (λ x, x = eg) picks)) = if IsHealthy (en_health e) eg then eg_Weight eg else 0.
Proof.
  intros Hwf Hmode Hf Hcur Hlen picks. destruct Hwf as [Hreg Hs [Hc0 _]].
  pose proof (weighted_nonempty s Hs) as Hne.
  set (w := sn_weighted s) in *. set (h := λ x, IsHealthy (en_health e) x = true) in *.
  assert (filter h (rotation w (en_rrCursor e)) ≡ₚ filter h w) as Hperm by (by rewrite rotation_perm).
  assert (length (rotation w (en_rrCursor e)) = length w) as Hrl by (apply Permutation_length, rotation_perm).
  assert (picks = filter h (rotation w (en_rrCursor e))) as Hp.
  { unfold picks. rewrite (select_many_rr wall s) by done. rewrite Hlen, <- (Permutation_length Hperm).
    apply rr_run_cycle; [done| |by rewrite Hrl|done|rewrite Hrl; fold w; lia].
    intros i Hi. by apply rotation_cursor. }
  split; [by rewrite Hp, Hlen, Hperm|]. intros eg Heg. rewrite Hp.
  rewrite (filter_Permutation (λ x, x = eg) _ _ Hperm), list_filter_filter.
  destruct (IsHealthy (en_health e) eg) eqn:Hh.
  - rewrite (list_filter_iff _ (λ x, x = eg)).
    + unfold w. rewrite (sw_weighted s Hs), weighted_count;
        [|apply (ei_nodup _ (sw_inv s Hs))|done].
      pose proof (snapshot_weights s eg Hs Heg). lia.
    + intros x. unfold h. naive_solver.
  - enough (filter (λ x, x = eg ∧ h x) w = []) as -> by done.
    apply elem_of_nil_inv. intros x [[-> Hx] _]%list_elem_of_filter. unfold h in Hx. congruence.
Qed.

Lemma round_robin_fair_witness :
  let reqs := replicate 3 (MkRequest (MkFlowKey "" "" "" 0 0) 0 0, 100) in
  let picks := select_many 5 reqs (demo_engine ModeDumb) in
  eg_ID <$> picks = ["e1"; "e1"; "e2"] ∧
  Z.of_nat (length (filter (λ x, x = MkEgress "e1" "10.1.0.1:443" 2) picks)) = 2.
Proof.
  intros reqs picks. split; [vm_compute; reflexivity|].
  destruct (round_robin_fair 5 reqs (demo_engine ModeDumb) demo_snapshot) as [_ H].
  - by apply demo_engine_wf.
  - vm_compute. discriminate.
  - repeat constructor.
  - vm_compute. reflexivity.
  - vm_compute. reflexivity.
  - apply (H (MkEgress "e1" "10.1.0.1:443" 2)). vm_compute. apply list_elem_of_here.
Defined.
