(* ===== verification/Ingress.v ===== *)
(** * The ingress router ([src/pkg/ingress]: types.go, registry.go, sni.go, health.go)

    Route and configuration validation, the hostname table, and the parser that
    reads the server name out of a TLS ClientHello. Bytes off the wire are a list
    of integers; an access outside the slice is the error [OutOfBounds], which the
    parser is proved never to reach. *)

From S2P Require Import Prelude GoStrings GoNet.

Notation time := Z (only parsing).

Definition DefaultTenant : string := "default".
Definition DefaultHealthProbeInterval : Z := 5 * 1000000000.
Definition DefaultUDPIdleTimeout : Z := 30 * 1000000000.

Notation TLSMode := string (only parsing).
Definition TLSModeSNIPassthrough : TLSMode := "sni_passthrough".
Definition TLSModeTLSTerminate : TLSMode := "tls_terminate".
Definition TLSModeTCPForward : TLSMode := "tcp_forward".
Definition TLSModeUDPForward : TLSMode := "udp_forward".

Notation Protocol := string (only parsing).
Definition ProtocolHTTP : Protocol := "http".
Definition ProtocolWebSocket : Protocol := "websocket".
Definition ProtocolTCP : Protocol := "tcp".
Definition ProtocolUDP : Protocol := "udp".

Record Route := MkRoute {
  ro_Tenant : string;
  ro_Hostname : string;
  ro_Target : string;
  ro_Mode : TLSMode;
  ro_Protocol : Protocol;
  ro_HTTP3 : bool
}.

Record Config := MkConfig {
  ic_Name : string;
  ic_OverlayIP : string;
  ic_PublicAddress : string;
  ic_Routes : list Route;
  ic_HealthProbeInterval : Z;
  ic_UDPIdleTimeout : Z;
  ic_MetricsAddress : string;
  ic_ACMECacheDir : string;
  ic_ACMEEmail : string;
  ic_EnableHTTP3 : bool
}.

Record Plan := MkPlan {
  ip_Name : string;
  ip_OverlayIP : string;
  ip_PublicAddress : string;
  ip_RouteCount : nat;
  ip_Routes : list Route;
  ip_HealthProbeInterval : Z;
  ip_UDPIdleTimeout : Z;
  ip_MetricsAddress : string;
  ip_ACMEEnabled : bool;
  ip_HTTP3Enabled : bool
}.

Inductive host_error :=
  | HostRequired
  | HostTooLong (host : string)
  | HostDotEdge (host : string)
  | HostLabelLength (host : string)
  | HostLabelHyphen (host label : string)
  | HostInvalidCharacter (host : string).

Inductive ingress_error :=
  | ErrHost (e : host_error)
  | ErrTargetRequired
  | ErrTargetNotHostPort (target : string) (e : hostport_error)
  | ErrTargetHostNotIP (host : string)
  | ErrTargetPort (port : string)
  | ErrTLSMode (mode : TLSMode)
  | ErrProtocol (p : Protocol)
  | ErrListenRequired
  | ErrListenNotHostPort (addr : string) (e : hostport_error)
  | ErrListenHost (host : string)
  | ErrListenPort (port : string)
  | ErrIngressName
  | ErrIngressOverlayRequired
  | ErrIngressOverlayParse (overlay : string)
  | ErrNoRoutes
  | ErrRoute (i : nat) (e : ingress_error)
  | ErrSnapshotRoute (i : nat) (e : ingress_error)
  | ErrSnapshotEmpty
  | ErrHostnameOwned (host previous tenant : string).

(** ** Hostnames *)

Definition label_char (a : ascii) : bool := is_lower a || is_digit a || bool_decide (a = "-"%char).

Definition label_step (hostname : string) (_ : nat) (_ : ()) (label : list ascii) : res host_error () :=
  if bool_decide (length label = 0%nat) || bool_decide (63 < length label)%nat
  then Err (HostLabelLength hostname) else
  if is_prefix ["-"%char] label || is_prefix ["-"%char] (reverse label)
  then Err (HostLabelHyphen hostname (of_bytes label)) else
  if forallb label_char label then Ok () else Err (HostInvalidCharacter hostname).

Definition normalizeHostname (hostname : string) : res host_error string :=
  let host := ToLower (TrimSpace hostname) in
  if bool_decide (host = "") then Err HostRequired else
  if bool_decide (253 < length (to_bytes host))%nat then Err (HostTooLong hostname) else
  if HasPrefix host "." || HasSuffix host "." then Err (HostDotEdge hostname) else
  let! _ := fold_res (label_step hostname) () (split_byte "." (to_bytes host)) in
  Ok host.

(** ** Routes *)

Definition validateTarget (target : string) : res ingress_error () :=
  if bool_decide (target = "") then Err ErrTargetRequired else
  let! hp := wrap_err (ErrTargetNotHostPort target) (SplitHostPort target) in
  let '(host, portText) := hp in
  match ParseAddr host with
  | None => Err (ErrTargetHostNotIP host)
  | Some _ => check! port_ok portText else ErrTargetPort portText; Ok ()
  end.

Definition validateTLSMode (mode : TLSMode) : bool :=
  bool_decide (mode ∈ [TLSModeSNIPassthrough; TLSModeTLSTerminate; TLSModeTCPForward; TLSModeUDPForward]).
Definition validateProtocol (p : Protocol) : bool :=
  bool_decide (p ∈ [ProtocolHTTP; ProtocolWebSocket; ProtocolTCP; ProtocolUDP]).

Definition protocolForMode (mode : TLSMode) : Protocol :=
  if bool_decide (mode = TLSModeUDPForward) then ProtocolUDP
  else if bool_decide (mode = TLSModeSNIPassthrough ∨ mode = TLSModeTCPForward) then ProtocolTCP
  else ProtocolHTTP.

Definition NormalizeRoute (route : Route) : res ingress_error Route :=
  let! hostname := wrap_err ErrHost (normalizeHostname (ro_Hostname route)) in
  let target := TrimSpace (ro_Target route) in
  let! _ := validateTarget target in
  let mode := if bool_decide (ro_Mode route = "") then TLSModeTLSTerminate else ro_Mode route in
  if negb (validateTLSMode mode) then Err (ErrTLSMode mode) else
  let protocol := if bool_decide (ro_Protocol route = "") then protocolForMode mode else ro_Protocol route in
  if negb (validateProtocol protocol) then Err (ErrProtocol protocol) else
  let tenant := TrimSpace (ro_Tenant route) in
  let tenant := if bool_decide (tenant = "") then DefaultTenant else tenant in
  Ok (MkRoute tenant hostname target mode protocol (ro_HTTP3 route)).

(** ** registry.go *)

Record Snapshot := MkSnapshot { sn_routes : list Route; sn_byHost : gmap string Route }.

Definition snapshot_step (i : nat) (st : list Route * gmap string Route) (route : Route)
    : res ingress_error (list Route * gmap string Route) :=
  let! normalized := wrap_err (ErrSnapshotRoute i) (NormalizeRoute route) in
  match st.2 !! ro_Hostname normalized with
  | Some previous => Err (ErrHostnameOwned (ro_Hostname normalized) (ro_Tenant previous) (ro_Tenant normalized))
  | None => Ok (st.1 ++ [normalized], <[ro_Hostname normalized := normalized]> st.2)
  end.

Definition NewSnapshot (routes : list Route) : res ingress_error Snapshot :=
  let! st := fold_res snapshot_step ([], ∅) routes in
  if bool_decide (length st.1 = 0%nat) then Err ErrSnapshotEmpty else
  Ok (MkSnapshot st.1 st.2).

Definition stripPort (host : string) : string :=
  let value := TrimSpace host in
  if bool_decide (value = "") then value else
  if bool_decide (count_byte ":" (to_bytes value) = 1%nat) then
    match cut_byte ":" (to_bytes value) with
    | Some (before, _) => of_bytes before
    | None => value
    end
  else value.

Definition snapshot_Lookup (s : Snapshot) (hostname : string) : option Route :=
  match normalizeHostname (stripPort hostname) with
  | Ok normalized => sn_byHost s !! normalized
  | Err _ => None
  end.

(** The registry is an atomic reference to the current snapshot. *)
Definition NewRegistry (routes : list Route) : res ingress_error (option Snapshot) :=
  let! s := NewSnapshot routes in Ok (Some s).
Definition Replace (current : option Snapshot) (routes : list Route)
    : res ingress_error Snapshot * option Snapshot :=
  match NewSnapshot routes with
  | Ok s => (Ok s, Some s)
  | Err e => (Err e, current)
  end.
Definition registry_Lookup (current : option Snapshot) (hostname : string) : option Route :=
  s ← current; snapshot_Lookup s hostname.

(** ** Configuration *)

Definition validateListenAddress (addr : string) : res ingress_error () :=
  if bool_decide (TrimSpace addr = "") then Err ErrListenRequired else
  let! hp := wrap_err (ErrListenNotHostPort addr) (SplitHostPort addr) in
  let '(host, portText) := hp in
  if bool_decide (host ≠ "") && bool_decide (ParseIP host = None) &&
     ContainsAny host (of_bytes (chr <$> [47; 92]))
  then Err (ErrListenHost host) else
  check! port_ok portText else ErrListenPort portText; Ok ().

Definition route_step (i : nat) (routes : list Route) (route : Route) : res ingress_error (list Route) :=
  let! normalized := wrap_err (ErrRoute i) (NormalizeRoute route) in Ok (routes ++ [normalized]).

Definition NormalizeConfig (cfg : Config) : res ingress_error Config :=
  let name := TrimSpace (ic_Name cfg) in
  if bool_decide (name = "") then Err ErrIngressName else
  let overlay := TrimSpace (ic_OverlayIP cfg) in
  if bool_decide (overlay = "") then Err ErrIngressOverlayRequired else
  if negb (bool_decide (is_Some (ParseAddr overlay))) then Err (ErrIngressOverlayParse overlay) else
  let publicAddress := TrimSpace (ic_PublicAddress cfg) in
  let! _ := validateListenAddress publicAddress in
  if bool_decide (length (ic_Routes cfg) = 0%nat) then Err ErrNoRoutes else
  let healthInterval := if ic_HealthProbeInterval cfg <=? 0 then DefaultHealthProbeInterval
                        else ic_HealthProbeInterval cfg in
  let udpIdle := if ic_UDPIdleTimeout cfg <=? 0 then DefaultUDPIdleTimeout else ic_UDPIdleTimeout cfg in
  let! routes := fold_res route_step [] (ic_Routes cfg) in
  let! _ := NewSnapshot routes in
  Ok (MkConfig name overlay publicAddress routes healthInterval udpIdle
        (TrimSpace (ic_MetricsAddress cfg)) (TrimSpace (ic_ACMECacheDir cfg)) (TrimSpace (ic_ACMEEmail cfg))
        (ic_EnableHTTP3 cfg)).

Definition anyRouteHTTP3 (routes : list Route) : bool := existsb ro_HTTP3 routes.

Definition PlanConfig (cfg : Config) : res ingress_error Plan :=
  let! n := NormalizeConfig cfg in
  Ok (MkPlan (ic_Name n) (ic_OverlayIP n) (ic_PublicAddress n) (length (ic_Routes n)) (ic_Routes n)
        (ic_HealthProbeInterval n) (ic_UDPIdleTimeout n) (ic_MetricsAddress n)
        (bool_decide (ic_ACMECacheDir n ≠ ""))
        (bool_decide (ic_ACMECacheDir n ≠ "") && (ic_EnableHTTP3 n || anyRouteHTTP3 (ic_Routes n)))).

(** ** health.go *)

Record TargetHealth := MkHealth { th_Healthy : bool; th_LastError : string; th_CheckedAt : time }.

Definition IsHealthy (status : gmap string TargetHealth) (route : Route) : bool :=
  match status !! ro_Hostname route with Some h => th_Healthy h | None => true end.
Definition Status (status : gmap string TargetHealth) (route : Route) : TargetHealth :=
  match status !! ro_Hostname route with Some h => h | None => MkHealth true "" 0 end.
Definition health_Set (route : Route) (healthy : bool) (checkedAt : time) (err : option string)
    (status : gmap string TargetHealth) : gmap string TargetHealth :=
  <[ro_Hostname route := MkHealth healthy (default "" err) checkedAt]> status.
Definition ProbeOnce (probe : Route → option string) (snapshot : option Snapshot) (now : time)
    (status : gmap string TargetHealth) : gmap string TargetHealth :=
  match snapshot with
  | None => status
  | Some s => foldl (λ st route,
      let err := probe route in health_Set route (bool_decide (err = None)) now err st) status (sn_routes s)
  end.

(** ** sni.go *)

Inductive sni_error :=
  | ErrClientHelloTooShort
  | ErrClientHelloNoSNI
  | ErrNotHandshake (contentType : Z)
  | ErrNotClientHello
  | ErrServerName (e : host_error)
  | OutOfBounds                        (* an index or slice out of range *)
  | OutOfFuel.

Notation bytes := (list Z) (only parsing).

(** [data[i]] *)
Definition at_ (data : bytes) (i : nat) : res sni_error Z :=
  match data !! i with Some b => Ok b | None => Err OutOfBounds end.
(** [binary.BigEndian.Uint16(data[i : i+2])] *)
Definition uint16_at (data : bytes) (i : nat) : res sni_error nat :=
  let! hi := at_ data i in
  let! lo := at_ data (i + 1) in
  Ok (Z.to_nat (hi * 256 + lo)).
(** [data[i : j]] *)
Definition slice (data : bytes) (i j : nat) : res sni_error bytes :=
  check! bool_decide (i ≤ j ≤ length data)%nat else OutOfBounds; Ok (take (j - i) (drop i data)).

Definition string_of_bytes (data : bytes) : string := of_bytes (chr <$> data).

Fixpoint sni_names (fuel : nat) (data : bytes) (cursor end_ : nat) : res sni_error string :=
  match fuel with
  | O => Err OutOfFuel
  | S fuel =>
      if bool_decide (cursor + 3 ≤ end_)%nat then
        let! nameType := at_ data cursor in
        let! nameLen := uint16_at data (cursor + 1) in
        let cursor := (cursor + 3)%nat in
        if bool_decide (end_ < cursor + nameLen)%nat then Err ErrClientHelloTooShort else
        if nameType =? 0 then
          let! name := slice data cursor (cursor + nameLen) in
          wrap_err ErrServerName (normalizeHostname (string_of_bytes name))
        else sni_names fuel data (cursor + nameLen) end_
      else Err ErrClientHelloNoSNI
  end.

Definition parseSNIServerName (data : bytes) : res sni_error string :=
  if bool_decide (length data < 2)%nat then Err ErrClientHelloTooShort else
  let! listLen := uint16_at data 0 in
  if bool_decide (listLen = 0%nat) || bool_decide (length data - 2 < listLen)%nat
  then Err ErrClientHelloTooShort else
  sni_names (S (length data)) data 2 (2 + listLen).

Fixpoint extensions (fuel : nat) (body : bytes) (cursor extensionsEnd : nat) : res sni_error string :=
  match fuel with
  | O => Err OutOfFuel
  | S fuel =>
      if bool_decide (cursor + 4 ≤ extensionsEnd)%nat then
        let! extType := uint16_at body cursor in
        let! extLen := uint16_at body (cursor + 2) in
        let cursor := (cursor + 4)%nat in
        if bool_decide (extensionsEnd < cursor + extLen)%nat then Err ErrClientHelloTooShort else
        if bool_decide (extType = 0%nat) then
          let! ext := slice body cursor (cursor + extLen) in parseSNIServerName ext
        else extensions fuel body (cursor + extLen) extensionsEnd
      else Err ErrClientHelloNoSNI
  end.

(** The fields of the ClientHello after its fixed part, from [cursor] on. *)
Definition client_hello_fields (body : bytes) (cursor : nat) : res sni_error string :=
  if bool_decide (length body ≤ cursor)%nat then Err ErrClientHelloTooShort else
  let! sessionIDLen := at_ body cursor in
  let cursor := (cursor + 1 + Z.to_nat sessionIDLen)%nat in
  if bool_decide (length body < cursor + 2)%nat then Err ErrClientHelloTooShort else
  let! cipherSuitesLen := uint16_at body cursor in
  let cursor := (cursor + 2 + cipherSuitesLen)%nat in
  if bool_decide (length body ≤ cursor)%nat then Err ErrClientHelloTooShort else
  let! compressionMethodsLen := at_ body cursor in
  let cursor := (cursor + 1 + Z.to_nat compressionMethodsLen)%nat in
  if bool_decide (length body < cursor + 2)%nat then Err ErrClientHelloNoSNI else
  let! extensionsLen := uint16_at body cursor in
  let cursor := (cursor + 2)%nat in
  if bool_decide (length body < cursor + extensionsLen)%nat then Err ErrClientHelloTooShort else
  extensions (S (length body)) body cursor (cursor + extensionsLen).

Definition ClientHelloServerName (record : bytes) : res sni_error string :=
  if bool_decide (length record < 5)%nat then Err ErrClientHelloTooShort else
  let! contentType := at_ record 0 in
  if negb (contentType =? 22) then Err (ErrNotHandshake contentType) else
  let! recordLen := uint16_at record 3 in
  if bool_decide (length record - 5 < recordLen)%nat then Err ErrClientHelloTooShort else
  let! body := slice record 5 (5 + recordLen) in
  if bool_decide (length body < 42)%nat then Err ErrClientHelloTooShort else
  let! handshakeType := at_ body 0 in
  if negb (handshakeType =? 1) then Err ErrNotClientHello else
  let! b1 := at_ body 1 in
  let! b2 := at_ body 2 in
  let! b3 := at_ body 3 in
  let helloLen := Z.to_nat (Z.lor (Z.lor (Z.shiftl b1 16) (Z.shiftl b2 8)) b3) in
  if bool_decide (length body - 4 < helloLen)%nat then Err ErrClientHelloTooShort else
  client_hello_fields body (4 + 2 + 32).

Inductive classify_error := ClassifySNI (e : sni_error) | ClassifyNotAllowed (hostname : string).

Definition ClassifyClientHello (registry : option Snapshot) (record : bytes) : res classify_error Route :=
  let! hostname := wrap_err ClassifySNI (ClientHelloServerName record) in
  match registry_Lookup registry hostname with
  | Some route => Ok route
  | None => Err (ClassifyNotAllowed hostname)
  end.
