(* ===== verification/IngressProofs.v ===== *)
(** * Properties of the ingress router

    The ClientHello parser stays inside its input and terminates on every byte
    string, and reads back the server name an encoder wrote; hostnames are
    canonical after normalisation; the route table is unambiguous. *)

From S2P Require Import Prelude GoStrings GoNet.
From S2P Require Import Ingress.

(** ** The parser is safe *)

(** A result that is neither an access out of bounds nor a loop cut short. *)
Definition safe {A} (r : res sni_error A) : Prop := r ≠ Err OutOfBounds ∧ r ≠ Err OutOfFuel.

Lemma safe_ok {A} (a : A) : safe (Ok a).
Proof. done. Qed.
Lemma safe_bind {A B} (m : res sni_error A) (k : A → res sni_error B) :
  (∃ a, m = Ok a ∧ safe (k a)) → safe (res_bind m k).
Proof. by intros (a & -> & H). Qed.

Lemma at_in data i : (i < length data)%nat → ∃ b, at_ data i = Ok b.
Proof. intros H. destruct (lookup_lt_is_Some_2 data i H) as [b Hb]. exists b. unfold at_. by rewrite Hb. Qed.

Lemma uint16_in data i : (i + 1 < length data)%nat → ∃ n, uint16_at data i = Ok n.
Proof.
  intros H. destruct (at_in data i) as [hi Hhi]; [lia|]. destruct (at_in data (i + 1)) as [lo Hlo]; [lia|].
  eexists. unfold uint16_at. rewrite Hhi, Hlo. done.
Qed.

Lemma slice_in data i j :
  (i ≤ j ≤ length data)%nat → ∃ d, slice data i j = Ok d ∧ length d = (j - i)%nat.
Proof.
  intros H. eexists. unfold slice. rewrite bool_decide_eq_true_2 by done. split; [done|].
  rewrite length_take, length_drop. lia.
Qed.

Lemma safe_host (e : res host_error string) : safe (wrap_err ErrServerName e).
Proof. by destruct e. Qed.

(** Reads the next field and the guard around it. *)
Ltac read_field :=
  first
    [ apply safe_bind
    | match goal with
      | |- ∃ a, at_ ?d ?i = Ok a ∧ _ =>
          let b := fresh "b" in destruct (at_in d i) as [b ?]; [lia|exists b; split; [done|]]
      | |- ∃ a, uint16_at ?d ?i = Ok a ∧ _ =>
          let n := fresh "n" in destruct (uint16_in d i) as [n ?]; [lia|exists n; split; [done|]]
      | |- ∃ a, slice ?d ?i ?j = Ok a ∧ _ =>
          let x := fresh "d" in destruct (slice_in d i j) as [x [? ?]]; [lia|exists x; split; [done|]]
      | |- safe (if bool_decide ?P || bool_decide ?Q then _ else _) =>
          destruct (bool_decide_reflect P); cbn [orb]; [done|destruct (bool_decide_reflect Q); [done|]]
      | |- safe (if bool_decide ?P then Err _ else _) => destruct (bool_decide_reflect P); [done|]
      | |- safe (if negb ?c then Err _ else _) => destruct c; cbn [negb]; [|done]
      end ].

Lemma sni_names_safe fuel : ∀ data cursor end_,
  (end_ ≤ length data)%nat → (end_ - cursor < fuel)%nat → safe (sni_names fuel data cursor end_).
Proof.
  induction fuel as [|fuel IH]; intros data cursor end_ He Hf; [lia|]. cbn [sni_names].
  destruct (bool_decide_reflect (cursor + 3 ≤ end_)%nat) as [Hc|]; [|done].
  do 2 (read_field; read_field). read_field.
  destruct (b =? 0); [|apply IH; lia].
  read_field. read_field. apply safe_host.
Qed.

Lemma parseSNI_safe data : safe (parseSNIServerName data).
Proof.
  unfold parseSNIServerName. read_field. read_field. read_field. read_field.
  apply sni_names_safe; lia.
Qed.

Lemma extensions_safe fuel : ∀ body cursor end_,
  (end_ ≤ length body)%nat → (end_ - cursor < fuel)%nat → safe (extensions fuel body cursor end_).
Proof.
  induction fuel as [|fuel IH]; intros body cursor end_ He Hf; [lia|]. cbn [extensions].
  destruct (bool_decide_reflect (cursor + 4 ≤ end_)%nat) as [Hc|]; [|done].
  do 2 (read_field; read_field). read_field.
  destruct (bool_decide_reflect (n = 0%nat)); [|apply IH; lia].
  read_field. read_field. apply parseSNI_safe.
Qed.

Lemma client_hello_fields_safe body cursor : safe (client_hello_fields body cursor).
Proof.
  unfold client_hello_fields. read_field. read_field. read_field. read_field. read_field. read_field.
  read_field. read_field. read_field. read_field. read_field. read_field. read_field.
  apply extensions_safe; lia.
Qed.

(** C4. The ClientHello parser is safe on every input: it never indexes or slices
    outside the bytes it was given, whatever lengths those bytes claim, and its
    two loops end; the result is a server name or one of the parser's own errors. *)
Theorem ClientHello_safe record :
  ClientHelloServerName record ≠ Err OutOfBounds ∧ ClientHelloServerName record ≠ Err OutOfFuel.
Proof.
  change (safe (ClientHelloServerName record)). unfold ClientHelloServerName.
  repeat read_field. apply client_hello_fields_safe.
Qed.

(** ** The parser reads what an encoder writes *)

Definition u8 (n : nat) : bytes := [Z.of_nat n].
Definition u16 (n : nat) : bytes := [Z.of_nat n / 256; Z.of_nat n mod 256].
Definition u24 (n : nat) : bytes := [Z.of_nat n / 65536; Z.of_nat n / 256 mod 256; Z.of_nat n mod 256].

(** An extension: type, length, data (RFC 8446, section 4.2). *)
Definition extension (e : nat * bytes) : bytes := u16 e.1 ++ u16 (length e.2) ++ e.2.
(** The server_name extension with one host name (RFC 6066, section 3). *)
Definition server_name (host : bytes) : bytes :=
  u16 (3 + length host) ++ [0] ++ u16 (length host) ++ host.

Record Hello := MkHello {
  hl_random : bytes;
  hl_session : bytes;
  hl_ciphers : bytes;
  hl_compression : bytes;
  hl_before : list (nat * bytes);      (* extensions before server_name *)
  hl_host : bytes;
  hl_after : bytes                     (* the encoded extensions after it *)
}.

Definition hello_extensions (h : Hello) : bytes :=
  mjoin (extension <$> hl_before h) ++ extension (0%nat, server_name (hl_host h)) ++ hl_after h.
Definition hello_fields (h : Hello) : bytes :=
  u8 (length (hl_session h)) ++ hl_session h ++ u16 (length (hl_ciphers h)) ++ hl_ciphers h ++
  u8 (length (hl_compression h)) ++ hl_compression h ++
  u16 (length (hello_extensions h)) ++ hello_extensions h.
(** The handshake message, without its 4-byte header. *)
Definition hello_message (h : Hello) : bytes := [3; 3] ++ hl_random h ++ hello_fields h.
Definition hello_body (h : Hello) : bytes := [1] ++ u24 (length (hello_message h)) ++ hello_message h.
Definition hello_record (h : Hello) : bytes := [22; 3; 1] ++ u16 (length (hello_body h)) ++ hello_body h.

(** The lengths fit their fields and only server_name has type 0. *)
Record hello_ok (h : Hello) : Prop := {
  ho_random : length (hl_random h) = 32%nat;
  ho_before : Forall (λ e, (0 < e.1 < 65536)%nat ∧ (length e.2 < 65536)%nat) (hl_before h);
  ho_host : (length (hl_host h) + 5 < 65536)%nat;
  ho_ciphers : (length (hl_ciphers h) < 65536)%nat;
  ho_extensions : (length (hello_extensions h) < 65536)%nat;
  ho_body : (length (hello_body h) < 65536)%nat
}.

(** Reading at a known split of the data. *)
Lemma at_eq d i p b q : d = p ++ b :: q → i = length p → at_ d i = Ok b.
Proof. intros -> ->. unfold at_. by rewrite list_lookup_middle. Qed.

Lemma u16_eq d i p n q : d = p ++ u16 n ++ q → i = length p → (n < 65536)%nat → uint16_at d i = Ok n.
Proof.
  intros -> -> Hn. unfold uint16_at.
  rewrite (at_eq _ _ p (Z.of_nat n / 256) ((Z.of_nat n mod 256) :: q)) by done. cbn [res_bind].
  rewrite (at_eq _ _ (p ++ [Z.of_nat n / 256]) (Z.of_nat n mod 256) q).
  - cbn [res_bind]. f_equal. pose proof (Z.div_mod (Z.of_nat n) 256). lia.
  - by rewrite <- app_assoc.
  - by rewrite length_app.
Qed.

Lemma slice_eq d i j p m q :
  d = p ++ m ++ q → i = length p → j = (length p + length m)%nat → slice d i j = Ok m.
Proof.
  intros -> -> ->. unfold slice. rewrite bool_decide_eq_true_2 by (rewrite !length_app; lia).
  rewrite drop_app_length. replace (length p + length m - length p)%nat with (length m) by lia.
  by rewrite take_app_length.
Qed.

Lemma length_u16 n : length (u16 n) = 2%nat.
Proof. done. Qed.

(** Lengths of concatenated fields. *)
Ltac len := rewrite ?length_app, ?length_u16; cbn [length]; lia.

(** One host name is read back. *)
Lemma parseSNI_server_name host :
  (length host + 5 < 65536)%nat →
  parseSNIServerName (server_name host) = wrap_err ErrServerName (normalizeHostname (string_of_bytes host)).
Proof.
  intros Hlen. unfold parseSNIServerName. set (d := server_name host).
  assert (length d = (5 + length host)%nat) as Hl by (unfold d, server_name; len).
  rewrite Hl, bool_decide_eq_false_2 by lia.
  rewrite (u16_eq d 0 [] (3 + length host) ([0] ++ u16 (length host) ++ host)) by (done || lia).
  cbn [res_bind]. rewrite (bool_decide_eq_false_2 (_ = 0%nat)) by lia.
  rewrite (bool_decide_eq_false_2 (_ < _)%nat) by lia.
  cbn [orb sni_names]. rewrite (bool_decide_eq_true_2 (_ ≤ _)%nat) by lia.
  rewrite (at_eq d 2 (u16 (3 + length host)) 0 (u16 (length host) ++ host)) by done. cbn [res_bind].
  rewrite (u16_eq d (2 + 1) (u16 (3 + length host) ++ [0]) (length host) host) by (done || lia).
  cbn [res_bind]. rewrite bool_decide_eq_false_2 by lia. cbn [Z.eqb].
  rewrite (slice_eq d _ _ (u16 (3 + length host) ++ [0] ++ u16 (length host)) host []); [done| |len|len].
  unfold d, server_name. by rewrite app_nil_r, <- !app_assoc.
Qed.

Lemma length_extension e : length (extension e) = (4 + length e.2)%nat.
Proof. unfold extension. len. Qed.

(** The extension loop skips the extensions before server_name. *)
Lemma extensions_skip before host after : ∀ fuel p q cursor end_ body,
  Forall (λ e, (0 < e.1 < 65536)%nat ∧ (length e.2 < 65536)%nat) before →
  (length host + 5 < 65536)%nat →
  let exts := mjoin (extension <$> before) ++ extension (0%nat, server_name host) ++ after in
  body = p ++ exts ++ q → cursor = length p → end_ = (length p + length exts)%nat →
  (length exts < fuel)%nat →
  extensions fuel body cursor end_ = wrap_err ErrServerName (normalizeHostname (string_of_bytes host)).
Proof.
  induction before as [|[t x] before IH]; intros fuel p q cursor end_ body Hb Hh exts Hbody -> -> Hf.
  - destruct fuel as [|fuel]; [lia|]. cbn [extensions]. cbn [fmap list_fmap mjoin list_join app] in exts.
    set (sn := server_name host) in *.
    assert (length sn = (5 + length host)%nat) as Hsn by (unfold sn, server_name; len).
    assert (length exts = (4 + length sn + length after)%nat) as Hex
      by (unfold exts; rewrite length_app, length_extension; done).
    assert (body = p ++ u16 0 ++ u16 (length sn) ++ sn ++ after ++ q) as Hbody'.
    { rewrite Hbody. unfold exts, extension. cbn [fst snd]. by rewrite <- !app_assoc. }
    rewrite (bool_decide_eq_true_2 (_ ≤ _)%nat) by lia.
    rewrite (u16_eq body _ p 0 (u16 (length sn) ++ sn ++ after ++ q)) by (done || lia). cbn [res_bind].
    rewrite (u16_eq body _ (p ++ u16 0) (length sn) (sn ++ after ++ q));
      [|by rewrite <- app_assoc|len|lia].
    cbn [res_bind]. rewrite (bool_decide_eq_false_2 (_ < _)%nat) by lia.
    rewrite (bool_decide_eq_true_2 (0%nat = 0%nat)) by done.
    rewrite (slice_eq body _ _ (p ++ u16 0 ++ u16 (length sn)) sn (after ++ q));
      [|by rewrite <- !app_assoc|len|len].
    cbn [res_bind]. by apply parseSNI_server_name.
  - apply Forall_cons in Hb as [[Ht Hx] Hb]. cbn [fst snd] in Ht, Hx.
    set (rest := mjoin (extension <$> before) ++ extension (0%nat, server_name host) ++ after) in *.
    assert (exts = extension (t, x) ++ rest) as Hexts
      by (unfold exts, rest; rewrite fmap_cons; cbn [mjoin list_join]; by rewrite <- app_assoc).
    assert (length exts = (4 + length x + length rest)%nat) as Hex
      by (rewrite Hexts, length_app, length_extension; done).
    clearbody exts. subst exts. destruct fuel as [|fuel]; [lia|]. cbn [extensions].
    assert (body = p ++ u16 t ++ u16 (length x) ++ x ++ rest ++ q) as Hbody'.
    { rewrite Hbody. unfold extension. cbn [fst snd]. by rewrite <- !app_assoc. }
    rewrite (bool_decide_eq_true_2 (_ ≤ _)%nat) by lia.
    rewrite (u16_eq body _ p t (u16 (length x) ++ x ++ rest ++ q)) by (done || lia). cbn [res_bind].
    rewrite (u16_eq body _ (p ++ u16 t) (length x) (x ++ rest ++ q)); [|by rewrite <- app_assoc|len|lia].
    cbn [res_bind]. rewrite (bool_decide_eq_false_2 (_ < _)%nat) by lia.
    rewrite (bool_decide_eq_false_2 (t = 0%nat)) by lia.
    apply (IH fuel (p ++ u16 t ++ u16 (length x) ++ x) q); [done|done| |len| |fold rest; lia].
    + fold rest. rewrite Hbody'. by rewrite <- !app_assoc.
    + fold rest. rewrite Hex. len.
Qed.

Lemma client_hello_fields_read h p body :
  hello_ok h → (length (hl_session h) < 256)%nat → (length (hl_compression h) < 256)%nat →
  body = p ++ hello_fields h →
  client_hello_fields body (length p) = wrap_err ErrServerName (normalizeHostname (string_of_bytes (hl_host h))).
Proof.
  intros Hok Hsid Hcomp Hbody. destruct Hok as [_ Hbefore Hhost Hciph Hext _].
  destruct h as [rnd sid ciph comp before host after]. cbn [hl_random hl_session hl_ciphers hl_compression hl_before hl_host] in *.
  set (ex := hello_extensions (MkHello rnd sid ciph comp before host after)) in *.
  assert (body = p ++ u8 (length sid) ++ sid ++ u16 (length ciph) ++ ciph ++ u8 (length comp) ++ comp ++
    u16 (length ex) ++ ex) as Hb by (rewrite Hbody; done).
  assert (length body = (length p + 1 + length sid + 2 + length ciph + 1 + length comp + 2 + length ex)%nat) as Hl
    by (rewrite Hb; unfold u8; len).
  unfold client_hello_fields. rewrite (bool_decide_eq_false_2 (_ ≤ _)%nat) by lia.
  rewrite (at_eq body _ p (Z.of_nat (length sid)) (sid ++ u16 (length ciph) ++ ciph ++ u8 (length comp) ++ comp ++
    u16 (length ex) ++ ex)) by done.
  cbn [res_bind]. rewrite Nat2Z.id. rewrite (bool_decide_eq_false_2 (_ < _)%nat) by lia.
  rewrite (u16_eq body _ (p ++ u8 (length sid) ++ sid) (length ciph)
    (ciph ++ u8 (length comp) ++ comp ++ u16 (length ex) ++ ex)); [|by rewrite Hb, <- !app_assoc|unfold u8; len|lia].
  cbn [res_bind]. rewrite (bool_decide_eq_false_2 (_ ≤ _)%nat) by lia.
  rewrite (at_eq body _ (p ++ u8 (length sid) ++ sid ++ u16 (length ciph) ++ ciph) (Z.of_nat (length comp))
    (comp ++ u16 (length ex) ++ ex)); [|by rewrite Hb, <- !app_assoc|unfold u8; len].
  cbn [res_bind]. rewrite Nat2Z.id. rewrite (bool_decide_eq_false_2 (_ < _)%nat) by lia.
  set (p4 := p ++ u8 (length sid) ++ sid ++ u16 (length ciph) ++ ciph ++ u8 (length comp) ++ comp).
  assert (body = p4 ++ u16 (length ex) ++ ex) as Hp4 by (rewrite Hb; unfold p4; by rewrite <- !app_assoc).
  assert (length p4 = (length p + 1 + length sid + 2 + length ciph + 1 + length comp)%nat) as Hl4
    by (unfold p4, u8; len).
  rewrite (u16_eq body _ p4 (length ex) ex); [|done|lia|lia].
  cbn [res_bind]. rewrite (bool_decide_eq_false_2 (_ < _)%nat) by lia.
  apply (extensions_skip before host after _ (p4 ++ u16 (length ex)) []); [done|done| |len| |].
  - change (mjoin _ ++ _) with ex. rewrite app_nil_r, <- app_assoc. done.
  - change (mjoin _ ++ _) with ex. len.
  - change (mjoin _ ++ _) with ex. lia.
Qed.

(** The 24-bit length, put together with shifts and ors. *)
Lemma u24_value n :
  Z.lor (Z.lor (Z.shiftl (Z.of_nat n / 65536) 16) (Z.shiftl (Z.of_nat n / 256 mod 256) 8)) (Z.of_nat n mod 256) = Z.of_nat n.
Proof.
  assert (∀ a b k, 0 ≤ k → 0 ≤ b < 2 ^ k → Z.lor (Z.shiftl a k) b = a * 2 ^ k + b) as Hor.
  { intros a b k Hk Hb. assert (Z.land (Z.shiftl a k) b = 0) as Hland;
      [|by rewrite <- (Z.add_nocarry_lor _ _ Hland), Z.shiftl_mul_pow2 by lia].
    apply Z.bits_inj'. intros j Hj. rewrite Z.land_spec, Z.shiftl_spec, Z.bits_0 by lia.
    destruct (Z.ltb_spec j k); [rewrite Z.testbit_neg_r; [done|lia]|].
    rewrite <- (Z.mod_small b (2 ^ k)), Z.mod_pow2_bits_high by lia. apply andb_false_r. }
  set (x := Z.of_nat n). pose proof (Z.mod_pos_bound x 256). pose proof (Z.mod_pos_bound (x / 256) 256).
  change 16 with (8 + 8). rewrite <- (Z.shiftl_shiftl (x / 65536) 8 8) by lia. rewrite <- Z.shiftl_lor.
  rewrite (Hor (x / 65536)) by lia. rewrite Hor by lia.
  replace (x / 65536) with (x / 256 / 256) by (rewrite Z.div_div by lia; done).
  pose proof (Z.div_mod x 256). pose proof (Z.div_mod (x / 256) 256). lia.
Qed.

Lemma ClientHello_reads h :
  hello_ok h → (length (hl_session h) < 256)%nat → (length (hl_compression h) < 256)%nat →
  ClientHelloServerName (hello_record h) =
    wrap_err ErrServerName (normalizeHostname (string_of_bytes (hl_host h))).
Proof.
  intros Hok Hsid Hcomp. pose proof Hok as [Hrnd _ _ _ _ Hbody].
  set (body := hello_body h) in *.
  assert (length body = (4 + length (hello_message h))%nat) as Hlb by (unfold body, hello_body, u24; len).
  assert (38 + 6 ≤ length body)%nat as Hmin.
  { rewrite Hlb. unfold hello_message, hello_fields, u8. rewrite !length_app. rewrite Hrnd. len. }
  unfold ClientHelloServerName. set (rec := hello_record h).
  assert (rec = [22; 3; 1] ++ u16 (length body) ++ body) as Hrec by done.
  assert (length rec = (5 + length body)%nat) as Hlr by (rewrite Hrec; len).
  rewrite (bool_decide_eq_false_2 (_ < 5)%nat) by lia.
  rewrite (at_eq rec 0 [] 22 ([3; 1] ++ u16 (length body) ++ body)) by done. cbn [res_bind Z.eqb Pos.eqb negb].
  rewrite (u16_eq rec 3 [22; 3; 1] (length body) body) by done. cbn [res_bind].
  rewrite (bool_decide_eq_false_2 (_ < _)%nat) by lia.
  rewrite (slice_eq rec 5 _ ([22; 3; 1] ++ u16 (length body)) body []); [|by rewrite app_nil_r, <- app_assoc|done|done].
  cbn [res_bind]. rewrite (bool_decide_eq_false_2 (_ < 42)%nat) by lia.
  set (msg := hello_message h) in *. set (n := length msg) in *.
  assert (body = [1] ++ u24 n ++ msg) as Hb by done.
  rewrite (at_eq body 0 [] 1 (u24 n ++ msg)) by done. cbn [res_bind Z.eqb Pos.eqb negb].
  rewrite (at_eq body 1 [1] (Z.of_nat n / 65536) (drop 1 (u24 n) ++ msg)) by done. cbn [res_bind].
  rewrite (at_eq body 2 [1; Z.of_nat n / 65536] (Z.of_nat n / 256 mod 256) (drop 2 (u24 n) ++ msg)) by done.
  cbn [res_bind].
  rewrite (at_eq body 3 [1; Z.of_nat n / 65536; Z.of_nat n / 256 mod 256] (Z.of_nat n mod 256) msg) by done.
  cbn [res_bind]. rewrite u24_value, Nat2Z.id.
  rewrite (bool_decide_eq_false_2 (_ < _)%nat) by lia.
  replace (4 + 2 + 32)%nat with (length ([1] ++ u24 n ++ [3; 3] ++ hl_random h))
    by (rewrite !length_app, Hrnd; done).
  apply client_hello_fields_read; [done|done|done|].
  rewrite Hb. unfold msg, hello_message. by rewrite <- !app_assoc.
Qed.

(** The parser reads back what a client wrote: for every ClientHello record
    whose lengths fit their fields, whatever the session, ciphers, compression
    methods, the extensions before server_name and the bytes after it, the result
    is the normalised host name of the server_name extension (or the error of
    normalising it). *)
Theorem ClientHello_roundtrip h :
  hello_ok h → (length (hl_session h) < 256)%nat → (length (hl_compression h) < 256)%nat →
  ClientHelloServerName (hello_record h) =
    wrap_err ErrServerName (normalizeHostname (string_of_bytes (hl_host h))).
Proof. apply ClientHello_reads. Qed.

Definition demo_hello : Hello :=
  MkHello (replicate 32 7) [1; 2; 3] [0x13; 0x01; 0x13; 0x02] [0] [(43%nat, [2; 3; 4]); (10%nat, [])]
    (code <$> to_bytes "App.Example.com") [0; 23; 0; 0].

Lemma ClientHello_roundtrip_witness :
  ClientHelloServerName (hello_record demo_hello) = Ok "app.example.com".
Proof.
  rewrite (ClientHello_roundtrip demo_hello).
  - vm_compute. reflexivity.
  - split; apply (bool_decide_unpack _); vm_compute; exact I.
  - apply (bool_decide_unpack _). vm_compute. exact I.
  - apply (bool_decide_unpack _). vm_compute. exact I.
Defined.

(** ** Hostnames *)

Definition label_ok (label : list ascii) : bool :=
  negb (bool_decide (length label = 0%nat) || bool_decide (63 < length label)%nat) &&
  negb (is_prefix ["-"%char] label || is_prefix ["-"%char] (reverse label)) && forallb label_char label.

Lemma label_step_ok hostname i u label : label_step hostname i u label = Ok () ↔ label_ok label = true.
Proof.
  unfold label_step, label_ok. destruct (_ || _); simpl; [done|]. destruct (_ || _); simpl; [done|].
  by destruct (forallb label_char label).
Qed.

Lemma labels_loop hostname labels : ∀ i u,
  fold_res_from (label_step hostname) i u labels = Ok () ↔ Forall (λ l, label_ok l = true) labels.
Proof.
  induction labels as [|l labels IH]; intros i []; simpl; [by split|].
  rewrite res_bind_ok, Forall_cons. setoid_rewrite IH. split.
  - intros ([] & H%label_step_ok & ?). done.
  - intros [H ?]. exists tt. by rewrite label_step_ok.
Qed.

Lemma split_byte_elem c l a : a ∈ l → a = c ∨ ∃ x, x ∈ split_byte c l ∧ a ∈ x.
Proof.
  induction l as [|b l IH]; [by intros ?%elem_of_nil|]. simpl. intros [->|Hin]%elem_of_cons.
  - case_bool_decide; [by left|right].
    destruct (split_byte c l) as [|x xs]; eexists; (split; [apply list_elem_of_here|set_solver]).
  - destruct (IH Hin) as [->|(x & Hx & Ha)]; [by left|right]. case_bool_decide.
    + exists x. set_solver.
    + destruct (split_byte c l) as [|y ys]; [set_solver|].
      apply elem_of_cons in Hx as [->|Hx]; [exists (b :: y)|exists x]; set_solver.
Qed.

(** The characters of a normalised hostname. *)
Definition host_char (a : ascii) : Prop := label_char a = true ∨ a = "."%char.

Lemma host_char_plain a : host_char a → plain a = true ∧ is_upper a = false ∧ code a < 128 ∧ a ≠ ":"%char.
Proof.
  intros Ha. destruct a as [[] [] [] [] [] [] [] []]; vm_compute;
    (split_and!; try done; destruct Ha as [Ha|Ha]; vm_compute in Ha; discriminate Ha).
Qed.

Record host_ok (h : string) : Prop := {
  hk_chars : Forall host_char (to_bytes h);
  hk_nonempty : h ≠ "";
  hk_length : (length (to_bytes h) ≤ 253)%nat;
  hk_edges : HasPrefix h "." = false ∧ HasSuffix h "." = false;
  hk_labels : Forall (λ l, label_ok l = true) (split_byte "." (to_bytes h))
}.

Lemma normalizeHostname_ok h h' : normalizeHostname h = Ok h' → h' = ToLower (TrimSpace h) ∧ host_ok h'.
Proof.
  unfold normalizeHostname. intros H. inv_res. bool_to_prop. destruct a. apply labels_loop in Ha.
  split; [done|]. split; [|done|lia|done|done].
  apply Forall_forall. intros a Hin. destruct (split_byte_elem "." _ a Hin) as [->|(x & Hx & Hax)]; [by right|left].
  rewrite Forall_forall in Ha. specialize (Ha x Hx). unfold label_ok in Ha.
  apply andb_true_iff in Ha as [_ Ha]. rewrite forallb_forall in Ha. apply Ha. by apply list_elem_of_In.
Qed.

Lemma normalizeHostname_fix h : host_ok h → normalizeHostname h = Ok h.
Proof.
  intros [Hc Hne Hlen [He1 He2] Hl].
  assert (ToLower (TrimSpace h) = h) as Hfix.
  { rewrite TrimSpace_plain by (eapply Forall_impl; [exact Hc|]; intros a Ha; by apply host_char_plain).
    unfold ToLower. rewrite to_lower_fix, of_to_bytes; [done|].
    eapply Forall_impl; [exact Hc|]. intros a Ha. apply host_char_plain in Ha. tauto. }
  unfold normalizeHostname. rewrite Hfix. rewrite bool_decide_eq_false_2 by done.
  rewrite bool_decide_eq_false_2 by lia. rewrite He1, He2. simpl.
  assert (fold_res (label_step h) () (split_byte "." (to_bytes h)) = Ok ()) as -> by (by apply labels_loop).
  done.
Qed.

(** A normalised hostname carries no port. *)
Lemma stripPort_host h : host_ok h → stripPort h = h.
Proof.
  intros [Hc Hne _ _ _]. unfold stripPort.
  rewrite TrimSpace_plain by (eapply Forall_impl; [exact Hc|]; intros a Ha; by apply host_char_plain).
  rewrite bool_decide_eq_false_2 by done. rewrite bool_decide_eq_false_2; [done|].
  unfold count_byte. enough (filter (λ a, a = ":"%char) (to_bytes h) = []) as -> by done.
  apply elem_of_nil_inv. intros a [-> Ha]%list_elem_of_filter. rewrite Forall_forall in Hc.
  apply Hc in Ha. by apply host_char_plain in Ha as (_ & _ & _ & ?).
Qed.

(** ** Routes *)

Lemma NormalizeRoute_fix r r' :
  NormalizeRoute r = Ok r' → NormalizeRoute r' = Ok r' ∧ host_ok (ro_Hostname r').
Proof.
  unfold NormalizeRoute. intros H. inv_res. simpl in *.
  apply normalizeHostname_ok in Ha as [_ Hok]. split; [|done].
  rewrite normalizeHostname_fix by done. simpl. rewrite TrimSpace_idem, Ha0. simpl.
  set (mode := if bool_decide (ro_Mode r = "") then TLSModeTLSTerminate else ro_Mode r) in *.
  set (proto := if bool_decide (ro_Protocol r = "") then protocolForMode mode else ro_Protocol r) in *.
  assert (mode ≠ "") as Hm by (intros Hm; rewrite Hm in Hc; vm_compute in Hc; discriminate).
  assert (proto ≠ "") as Hp by (intros Hp; rewrite Hp in Hc0; vm_compute in Hc0; discriminate).
  rewrite (bool_decide_eq_false_2 (mode = "")), Hc by done.
  rewrite (bool_decide_eq_false_2 (proto = "")), Hc0 by done.
  f_equal. f_equal. set (tn := TrimSpace (ro_Tenant r)). destruct (decide (tn = "")) as [He|He].
  - by rewrite (bool_decide_eq_true_2 (tn = "")) by done.
  - rewrite !(bool_decide_eq_false_2 (tn = "")) by done. unfold tn. rewrite TrimSpace_idem.
    by rewrite bool_decide_eq_false_2.
Qed.

Record routes_inv (done : list Route) (st : list Route * gmap string Route) : Prop := {
  ri_nodup : NoDup (ro_Hostname <$> st.1);
  ri_index : ∀ h r, st.2 !! h = Some r ↔ r ∈ st.1 ∧ ro_Hostname r = h;
  ri_from : Forall2 (λ r r', NormalizeRoute r = Ok r') done st.1
}.

Lemma snapshot_step_inv i done st r st' :
  routes_inv done st → snapshot_step i st r = Ok st' → routes_inv (done ++ [r]) st'.
Proof.
  destruct st as [l m]. unfold snapshot_step. intros [Hnd Hi Hf] H. inv_res. simpl in *.
  destruct (m !! ro_Hostname a) eqn:Hm; [discriminate|]. inv_res.
  assert (ro_Hostname a ∉ ro_Hostname <$> l) as Hni.
  { rewrite list_elem_of_fmap. intros (x & Hx & Hin).
    assert (m !! ro_Hostname a = Some x) by (apply Hi; auto). congruence. }
  split; simpl.
  - rewrite fmap_app. apply NoDup_app. split_and!; [done|set_solver|apply NoDup_singleton].
  - intros h x. rewrite lookup_insert_Some, Hi, elem_of_app, list_elem_of_singleton. split.
    + intros [[<- <-]|[? [? ?]]]; auto.
    + intros [[Hx| ->] <-]; [right|by left]. split; [|done]. intros Heq. apply Hni. rewrite Heq.
      by apply list_elem_of_fmap_2.
  - apply Forall2_app; [done|by constructor].
Qed.

Lemma NewSnapshot_inv routes s : NewSnapshot routes = Ok s → routes_inv routes (sn_routes s, sn_byHost s).
Proof.
  unfold NewSnapshot. intros H. inv_res. simpl. destruct a as [l m]. simpl.
  revert Ha. apply (fold_res_ind snapshot_step routes_inv); [|intros; by eapply snapshot_step_inv].
  split; simpl; [constructor| |constructor]. intros. rewrite lookup_empty. set_solver.
Qed.

(** The hostname table is unambiguous: a snapshot holds the normalised routes
    of its input, in order, with distinct hostnames (two tenants claiming one
    hostname are rejected), and a lookup returns a route exactly when the text,
    its port removed, normalises to that route's hostname. *)
Theorem NewSnapshot_unambiguous routes s :
  NewSnapshot routes = Ok s →
  NoDup (ro_Hostname <$> sn_routes s) ∧
  Forall2 (λ r r', NormalizeRoute r = Ok r') routes (sn_routes s) ∧
  (∀ t r, snapshot_Lookup s t = Some r ↔
     r ∈ sn_routes s ∧ normalizeHostname (stripPort t) = Ok (ro_Hostname r)).
Proof.
  intros H. apply NewSnapshot_inv in H as [Hnd Hi Hf]. simpl in *. split_and!; [done|done|].
  intros t r. unfold snapshot_Lookup. destruct (normalizeHostname (stripPort t)) as [h|e].
  - rewrite Hi. naive_solver.
  - naive_solver.
Qed.

Definition demo_routes : list Route :=
  [MkRoute "" "App.Example.com" " 10.0.0.7:8443 " "" "" false;
   MkRoute "t2" "api.example.com" "10.0.0.8:443" TLSModeSNIPassthrough "" false].
Definition demo_table : Snapshot :=
  match NewSnapshot demo_routes with Ok s => s | Err _ => MkSnapshot [] ∅ end.

Lemma NewSnapshot_unambiguous_witness :
  NoDup (ro_Hostname <$> sn_routes demo_table) ∧
  ro_Target <$> snapshot_Lookup demo_table "APP.example.COM:443" = Some "10.0.0.7:8443".
Proof.
  split; [|vm_compute; reflexivity].
  apply (NewSnapshot_unambiguous demo_routes demo_table). vm_compute. reflexivity.
Defined.

(** SNI routing end to end: a ClientHello that carries the name of a route, in
    whatever letter case and amid whatever other extensions, is routed to that
    route; one whose name no route has is refused with that name. *)
Theorem ClassifyClientHello_correct routes s h name :
  NewSnapshot routes = Ok s → hello_ok h →
  (length (hl_session h) < 256)%nat → (length (hl_compression h) < 256)%nat →
  normalizeHostname (string_of_bytes (hl_host h)) = Ok name →
  ClassifyClientHello (Some s) (hello_record h) =
    match sn_byHost s !! name with Some r => Ok r | None => Err (ClassifyNotAllowed name) end ∧
  (∀ r, r ∈ sn_routes s → ro_Hostname r = name → ClassifyClientHello (Some s) (hello_record h) = Ok r).
Proof.
  intros Hs Hok Hsid Hcomp Hname.
  assert (ClassifyClientHello (Some s) (hello_record h) =
    match sn_byHost s !! name with Some r => Ok r | None => Err (ClassifyNotAllowed name) end) as Heq.
  { unfold ClassifyClientHello.
    assert (ClientHelloServerName (hello_record h) = Ok name) as ->.
    { destruct (ClientHelloServerName (hello_record h)) eqn:Hc.
      all: rewrite (ClientHello_reads h Hok Hsid Hcomp), Hname in Hc; by simplify_eq/=. }
    cbn [wrap_err res_bind registry_Lookup mbind option_bind]. unfold snapshot_Lookup.
    apply normalizeHostname_ok in Hname as [_ Hh]. by rewrite stripPort_host, normalizeHostname_fix. }
  split; [done|]. intros r Hr Hrn. rewrite Heq.
  apply NewSnapshot_inv in Hs as [_ Hi _]. simpl in Hi.
  assert (sn_byHost s !! name = Some r) as -> by (apply Hi; done). done.
Qed.

Lemma ClassifyClientHello_correct_witness :
  ro_Target <$> (match ClassifyClientHello (Some demo_table) (hello_record demo_hello) with
                 | Ok r => Some r | Err _ => None end) = Some "10.0.0.7:8443".
Proof.
  destruct (ClassifyClientHello_correct demo_routes demo_table demo_hello "app.example.com") as [H _].
  - vm_compute. reflexivity.
  - split; apply (bool_decide_unpack _); vm_compute; exact I.
  - apply (bool_decide_unpack _). vm_compute. exact I.
  - apply (bool_decide_unpack _). vm_compute. exact I.
  - vm_compute. reflexivity.
  - rewrite H. vm_compute. reflexivity.
Defined.
