(* ===== verification/Topology.v ===== *)
(** * The v1 topology and its validator ([src/pkg/topology/topology.go], [validate.go])

    The masters/endpoints/clients schema, its lookups and [ValidateTopology],
    which collects findings instead of stopping at the first. A finding's field
    and message are kept as the values they are formatted from. The declarative
    condition [v1_valid] is what the absence of findings of severity "error"
    means. *)

From S2P Require Import Prelude GoStrings GoNet.
From S2P Require Import Ranges.
From S2P Require Import TopologyV2.

(** ** topology.go *)

Record OverlayConfig := MkOverlayConfig {
  oc_Space : string;
  oc_PhysicalMTU : Z;
  oc_AWGOverhead : Z;
  oc_Ranges : list NamedRange
}.

Record MasterNode := MkMasterNode {
  mn_Name : string;
  mn_Host : string;
  mn_PeerHost : string;
  mn_OverlayIP : string;
  mn_ListenPort : Z;
  mn_GRPCPort : Z;
  mn_Endpoints : list string;
  mn_Exit : bool
}.

Record EndpointNode := MkEndpointNode {
  en_Name : string;
  en_Host : string;
  en_PeerHost : string;
  en_OverlayIP : string;
  en_ListenPort : Z;
  en_GRPCPort : Z;
  en_Region : string
}.

Record VethConfig := MkVethConfig { vc_Name : string; vc_Gateway : string }.
Record MikrotikConfig := MkMikrotikConfig { mk_StorageRoot : string }.
Record RoutingPolicy := MkRoutingPolicy { rp_Name : string; rp_DSCP : Z; rp_Targets : list string }.
Record DNSConfig := MkDNSConfig { dc_Zone : string; dc_Listen : string; dc_Upstream : string }.

Record ClientNode := MkClientNode {
  cn_Name : string;
  cn_Type : string;
  cn_Host : string;
  cn_OverlayIP : string;
  cn_GRPCPort : Z;
  cn_Veth : option VethConfig;
  cn_Mikrotik : option MikrotikConfig;
  cn_Masters : list string;
  cn_RoutingPolicies : list RoutingPolicy;
  cn_DNS : option DNSConfig
}.

Record ImageDefaults := MkImageDefaults { id_Node : string; id_Client : string }.

Record Topology := MkTopology {
  tp_Defaults : ImageDefaults;
  tp_Overlay : OverlayConfig;
  tp_Masters : list MasterNode;
  tp_Endpoints : list EndpointNode;
  tp_Clients : list ClientNode;
  tp_Capture : CaptureConfig;
  tp_Rotation : RotationConfig
}.

Definition grpc_addr (host : string) (grpcPort : Z) : string :=
  host +:+ ":" +:+ Itoa (if grpcPort =? 0 then 9090 else grpcPort).
Definition master_GRPCAddr (m : MasterNode) : string := grpc_addr (mn_Host m) (mn_GRPCPort m).
Definition endpoint_GRPCAddr (e : EndpointNode) : string := grpc_addr (en_Host e) (en_GRPCPort e).
Definition client_GRPCAddr (c : ClientNode) : string :=
  grpc_addr (if bool_decide (cn_Host c = "") then "localhost" else cn_Host c) (cn_GRPCPort c).
Definition peer_addr (host peerHost : string) (listenPort : Z) : string :=
  (if bool_decide (peerHost = "") then host else peerHost) +:+ ":" +:+ Itoa listenPort.
Definition master_PeerAddr (m : MasterNode) : string := peer_addr (mn_Host m) (mn_PeerHost m) (mn_ListenPort m).
Definition endpoint_PeerAddr (e : EndpointNode) : string := peer_addr (en_Host e) (en_PeerHost e) (en_ListenPort e).

Definition FindMaster (t : Topology) (name : string) : option MasterNode :=
  List.find (λ m, bool_decide (mn_Name m = name)) (tp_Masters t).
Definition FindEndpoint (t : Topology) (name : string) : option EndpointNode :=
  List.find (λ e, bool_decide (en_Name e = name)) (tp_Endpoints t).
Definition FindClient (t : Topology) (name : string) : option ClientNode :=
  List.find (λ c, bool_decide (cn_Name c = name)) (tp_Clients t).

(** [MastersForEndpoint]: the masters that list the endpoint, sorted by name; the
    position in the result is the listen-port offset. *)
Definition MastersForEndpoint (t : Topology) (endpointName : string) : list MasterNode :=
  sort_by mn_Name (filter (λ m, endpointName ∈ mn_Endpoints m) (tp_Masters t)).

(** ** validate.go *)

Inductive Severity := SevError | SevWarning.

Inductive field :=
  | FOverlaySpace
  | FRangeName (i : nat)
  | FRangeCIDR (i : nat)
  | FRangeBalancerIP (i : nat)
  | FRanges
  | FName (kind : string) (i : nat)
  | FOverlayIP (kind : string) (i : nat)
  | FMasterEndpoint (i j : nat)
  | FClientMaster (i j : nat)
  | FClientPolicy (i j : nat)
  | FClientStorageRoot (i : nat).

Inductive storage_error := StorageTraversal (s : string) | StorageLeadingSlash (s : string) | StorageCharacters (s : string).

Inductive message :=
  | MInvalidOverlay (cidr : string)
  | MDuplicateRange (name : string)
  | MRange (e : range_error)
  | MRangeOutside
  | MBalancerOutside
  | MRangesOverlap (a b : string)
  | MDuplicateName (name : string)
  | MLongMasterName (name : string) (len : nat)
  | MInvalidOverlayIP (value : string)
  | MOverlayIPUsed (value : string) (owner : field)
  | MEndpointNotFound (name : string)
  | MMasterNotFound (name : string)
  | MDSCP (client policy : string) (dscp : Z)
  | MStorageRoot (client : string) (e : storage_error).

Record ValidationError := MkFinding { ve_Field : field; ve_Message : message; ve_Severity : Severity }.

Definition ValidateDSCP (dscp : Z) : bool := negb ((dscp <? 1) || (63 <? dscp)).

(** [^[a-zA-Z0-9_/-]+$] *)
Definition storage_char (a : ascii) : bool :=
  is_lower a || is_upper a || is_digit a || bool_decide (a = "_"%char) || bool_decide (a = "/"%char) ||
  bool_decide (a = "-"%char).
Definition ValidateStorageRoot (s : string) : res storage_error () :=
  if Contains s ".." then Err (StorageTraversal s) else
  if HasPrefix s "/" then Err (StorageLeadingSlash s) else
  check! bool_decide (to_bytes s ≠ []) && forallb storage_char (to_bytes s) else StorageCharacters s; Ok ().

(** One iteration of the loop over the ranges: its findings, the names seen and
    the range when it parses. *)
Definition check_range (overlay : option Prefix) (i : nat) (rangeNames : gset string) (nr : NamedRange)
    : list ValidationError * gset string * option Range :=
  let '(dup, rangeNames) :=
    if bool_decide (nr_Name nr ∈ rangeNames)
    then ([MkFinding (FRangeName i) (MDuplicateRange (nr_Name nr)) SevError], rangeNames)
    else ([], {[nr_Name nr]} ∪ rangeNames) in
  match ParseRange nr with
  | Err e => (dup ++ [MkFinding (FRangeCIDR i) (MRange e) SevError], rangeNames, None)
  | Ok parsed =>
      let outside :=
        match overlay with
        | Some o => if isRangeWithinOverlay o (rg_Network parsed) then []
                    else [MkFinding (FRangeCIDR i) MRangeOutside SevError]
        | None => []
        end in
      let balancer :=
        if bool_decide (nr_BalancerIP nr ≠ "") && negb (range_contains parsed (rg_BalancerIP parsed))
        then [MkFinding (FRangeBalancerIP i) MBalancerOutside SevError] else [] in
      (dup ++ outside ++ balancer, rangeNames, Some parsed)
  end.

Fixpoint check_ranges (overlay : option Prefix) (i : nat) (rangeNames : gset string) (ranges : list NamedRange)
    : list ValidationError * list Range :=
  match ranges with
  | [] => ([], [])
  | nr :: ranges =>
      let '(errs, rangeNames, parsed) := check_range overlay i rangeNames nr in
      let '(errs', valid) := check_ranges overlay (S i) rangeNames ranges in
      (errs ++ errs', option_list parsed ++ valid)
  end.

(** The double loop over [validRanges]. *)
Fixpoint check_overlaps (valid : list Range) : list ValidationError :=
  match valid with
  | [] => []
  | r :: valid =>
      omap (λ q, if RangesOverlap r q
                 then Some (MkFinding FRanges (MRangesOverlap (rg_Name r) (rg_Name q)) SevError) else None) valid
      ++ check_overlaps valid
  end.

Fixpoint validateUniqueNames (kind : string) (i : nat) (seen : gset string) (names : list string)
    : list ValidationError :=
  match names with
  | [] => []
  | name :: names =>
      if bool_decide (name ∈ seen)
      then MkFinding (FName kind i) (MDuplicateName name) SevError :: validateUniqueNames kind (S i) seen names
      else validateUniqueNames kind (S i) ({[name]} ∪ seen) names
  end.

Definition maxMasterNameLen : nat := 12.
Definition long_master_names (masters : list MasterNode) : list ValidationError :=
  omap id (imap (λ i m,
    let n := length (to_bytes (mn_Name m)) in
    if bool_decide (maxMasterNameLen < n)%nat
    then Some (MkFinding (FName "masters" i) (MLongMasterName (mn_Name m) n) SevWarning) else None) masters).

(** [recordIP] over the nodes, each with the field it is reported under; the
    state is [owners]. *)
Fixpoint record_ips (owners : gmap Addr field) (nodes : list (field * string)) : list ValidationError :=
  match nodes with
  | [] => []
  | (f, value) :: nodes =>
      match ParseAddr value with
      | None => MkFinding f (MInvalidOverlayIP value) SevError :: record_ips owners nodes
      | Some addr =>
          let addr := normalizeAddr addr in
          match owners !! addr with
          | Some owner => MkFinding f (MOverlayIPUsed value owner) SevError :: record_ips owners nodes
          | None => record_ips (<[addr := f]> owners) nodes
          end
      end
  end.
Definition overlay_ips (t : Topology) : list (field * string) :=
  imap (λ i m, (FOverlayIP "masters" i, mn_OverlayIP m)) (tp_Masters t) ++
  imap (λ i e, (FOverlayIP "endpoints" i, en_OverlayIP e)) (tp_Endpoints t) ++
  imap (λ i c, (FOverlayIP "clients" i, cn_OverlayIP c)) (tp_Clients t).
Definition validateUniqueOverlayIPs (t : Topology) : list ValidationError := record_ips ∅ (overlay_ips t).

Definition missing_refs (known : gset string) (mk : nat → field) (msg : string → message) (refs : list string)
    : list ValidationError :=
  omap id (imap (λ j ref, if bool_decide (ref ∈ known) then None
                          else Some (MkFinding (mk j) (msg ref) SevWarning)) refs).
Definition validateReferences (t : Topology) : list ValidationError :=
  let endpoints := list_to_set (en_Name <$> tp_Endpoints t) in
  let masters := list_to_set (mn_Name <$> tp_Masters t) in
  mjoin (imap (λ i m, missing_refs endpoints (FMasterEndpoint i) MEndpointNotFound (mn_Endpoints m)) (tp_Masters t)) ++
  mjoin (imap (λ i c, missing_refs masters (FClientMaster i) MMasterNotFound (cn_Masters c)) (tp_Clients t)).

Definition validateClientDSCPPolicies (t : Topology) : list ValidationError :=
  mjoin (imap (λ i c, omap id (imap (λ j p,
    if ValidateDSCP (rp_DSCP p) then None
    else Some (MkFinding (FClientPolicy i j) (MDSCP (cn_Name c) (rp_Name p) (rp_DSCP p)) SevError))
    (cn_RoutingPolicies c))) (tp_Clients t)).

Definition storage_root (c : ClientNode) : string :=
  match cn_Mikrotik c with Some m => mk_StorageRoot m | None => "" end.
Definition validateClientStorageRoots (t : Topology) : list ValidationError :=
  omap id (imap (λ i c,
    if bool_decide (storage_root c = "") then None else
    match ValidateStorageRoot (storage_root c) with
    | Ok _ => None
    | Err e => Some (MkFinding (FClientStorageRoot i) (MStorageRoot (cn_Name c) e) SevError)
    end) (tp_Clients t)).

Definition ValidateTopology (t : Topology) : list ValidationError :=
  let space := oc_Space (tp_Overlay t) in
  let overlay := Masked <$> ParsePrefix space in
  let '(rangeErrs, valid) := check_ranges overlay 0 ∅ (oc_Ranges (tp_Overlay t)) in
  match overlay with
  | None => [MkFinding FOverlaySpace (MInvalidOverlay space) SevError]
  | Some _ => []
  end ++
  rangeErrs ++ check_overlaps valid ++
  validateUniqueNames "masters" 0 ∅ (mn_Name <$> tp_Masters t) ++
  validateUniqueNames "endpoints" 0 ∅ (en_Name <$> tp_Endpoints t) ++
  validateUniqueNames "clients" 0 ∅ (cn_Name <$> tp_Clients t) ++
  long_master_names (tp_Masters t) ++
  validateUniqueOverlayIPs t ++ validateReferences t ++
  validateClientDSCPPolicies t ++ validateClientStorageRoots t.

(** ** Specification *)

(** A range that parses into [r], fits the overlay and holds its balancer IP. *)
Definition range_fits (overlay : option Prefix) (nr : NamedRange) (r : Range) : Prop :=
  ParseRange nr = Ok r ∧
  (∀ o, overlay = Some o → isRangeWithinOverlay o (rg_Network r) = true) ∧
  (nr_BalancerIP nr ≠ "" → range_contains r (rg_BalancerIP r) = true).

Record v1_valid (t : Topology) : Prop := {
  vv_overlay : is_Some (ParsePrefix (oc_Space (tp_Overlay t)));
  vv_range_names : NoDup (nr_Name <$> oc_Ranges (tp_Overlay t));
  vv_ranges : ∃ rs,
    Forall2 (range_fits (Masked <$> ParsePrefix (oc_Space (tp_Overlay t)))) (oc_Ranges (tp_Overlay t)) rs ∧
    ForallOrdPairs (λ a b, RangesOverlap a b = false) rs;
  vv_masters : NoDup (mn_Name <$> tp_Masters t);
  vv_endpoints : NoDup (en_Name <$> tp_Endpoints t);
  vv_clients : NoDup (cn_Name <$> tp_Clients t);
  vv_ips : ∃ addrs,
    Forall2 (λ x a, normalizeAddr <$> ParseAddr x.2 = Some a) (overlay_ips t) addrs ∧ NoDup addrs;
  vv_dscp : Forall (λ c, Forall (λ p, 1 ≤ rp_DSCP p ≤ 63) (cn_RoutingPolicies c)) (tp_Clients t);
  vv_storage : Forall (λ c, storage_root c = "" ∨ is_ok (ValidateStorageRoot (storage_root c)) = true) (tp_Clients t)
}.

(** No finding of severity "error". *)
Definition no_errors (l : list ValidationError) : Prop := Forall (λ e, ve_Severity e = SevWarning) l.

Lemma no_errors_nil : no_errors [].
Proof. constructor. Qed.
Lemma no_errors_app l k : no_errors (l ++ k) ↔ no_errors l ∧ no_errors k.
Proof. apply Forall_app. Qed.
Lemma no_errors_error f m l : no_errors (MkFinding f m SevError :: l) ↔ False.
Proof. split; [|done]. by intros [? _]%Forall_cons. Qed.

Lemma unique_names_spec kind names : ∀ i seen,
  no_errors (validateUniqueNames kind i seen names) ↔
  NoDup names ∧ (∀ n, n ∈ names → n ∉ seen).
Proof.
  induction names as [|n names IH]; intros i seen; simpl.
  { split; [split; [constructor|set_solver]|intros; apply no_errors_nil]. }
  rewrite NoDup_cons. case_bool_decide.
  - rewrite no_errors_error. set_solver.
  - rewrite IH. set_solver.
Qed.

Lemma record_ips_spec nodes : ∀ owners,
  no_errors (record_ips owners nodes) ↔
  ∃ addrs, Forall2 (λ x a, normalizeAddr <$> ParseAddr x.2 = Some a) nodes addrs ∧ NoDup addrs ∧
           (∀ a, a ∈ addrs → owners !! a = None).
Proof.
  induction nodes as [|[f v] nodes IH]; intros owners; simpl.
  { split; [intros _; exists []|intros; apply no_errors_nil].
    split_and!; [constructor|constructor|set_solver]. }
  destruct (ParseAddr v) as [a|] eqn:Ha.
  2:{ rewrite no_errors_error. split; [done|]. intros (addrs & H & _).
      inversion H as [|? ? ? ? Hx]; subst. simpl in Hx. by rewrite Ha in Hx. }
  destruct (owners !! normalizeAddr a) eqn:Ho.
  - rewrite no_errors_error. split; [done|]. intros (addrs & H & _ & Hn).
    inversion H as [|? ? ? ? Hx]; subst. simpl in Hx. rewrite Ha in Hx. injection Hx as <-.
    rewrite (Hn (normalizeAddr a)) in Ho; [done|set_solver].
  - rewrite IH. split.
    + intros (addrs & H & Hnd & Hn). exists (normalizeAddr a :: addrs). split_and!.
      * constructor; [simpl; by rewrite Ha|done].
      * apply NoDup_cons. split; [|done]. intros Hin. apply Hn in Hin. by rewrite lookup_insert_eq in Hin.
      * intros b [->|Hb]%elem_of_cons; [done|]. by apply Hn, lookup_insert_None in Hb as [? _].
    + intros (addrs & H & Hnd & Hn). inversion H as [|? ? ? addrs' Hx Hrest]; subst.
      simpl in Hx. rewrite Ha in Hx. injection Hx as <-. apply NoDup_cons in Hnd as [Hni Hnd].
      exists addrs'. split_and!; [done|done|]. intros b Hb. apply lookup_insert_None.
      split; [apply Hn; set_solver|]. intros <-. done.
Qed.

Lemma overlaps_spec rs : no_errors (check_overlaps rs) ↔ ForallOrdPairs (λ a b, RangesOverlap a b = false) rs.
Proof.
  induction rs as [|r rs IH]; simpl.
  { split; [constructor|intros; apply no_errors_nil]. }
  rewrite no_errors_app, IH.
  assert (no_errors (omap (λ q, if RangesOverlap r q
      then Some (MkFinding FRanges (MRangesOverlap (rg_Name r) (rg_Name q)) SevError) else None) rs) ↔
    Forall (λ b, RangesOverlap r b = false) rs) as ->.
  { clear IH. induction rs as [|q rs IH]; simpl; [by split; constructor|].
    rewrite Forall_cons. destruct (RangesOverlap r q).
    - rewrite no_errors_error. naive_solver.
    - rewrite IH. naive_solver. }
  split; [intros [? ?]; by constructor|]. intros H. by inversion H.
Qed.

(** Findings collected by index. *)
Lemma no_errors_imap {A} (P : A → Prop) (l : list A) : ∀ f : nat → A → option ValidationError,
  (∀ i x, no_errors (option_list (f i x)) ↔ P x) → no_errors (omap id (imap f l)) ↔ Forall P l.
Proof.
  induction l as [|x l IH]; intros f Hf; [by split; constructor|].
  rewrite imap_cons, Forall_cons, <- (Hf 0%nat x), <- (IH (f ∘ S)) by (intros; apply Hf).
  destruct (f 0%nat x) as [e|]; simpl.
  - apply (no_errors_app [e]).
  - split; [|tauto]. intros; split; [apply no_errors_nil|done].
Qed.

Lemma no_errors_mjoin {A} (P : A → Prop) (l : list A) : ∀ g : nat → A → list ValidationError,
  (∀ i x, no_errors (g i x) ↔ P x) → no_errors (mjoin (imap g l)) ↔ Forall P l.
Proof.
  induction l as [|x l IH]; intros g Hg; [by split; constructor|].
  rewrite imap_cons, Forall_cons, <- (Hg 0%nat x), <- (IH (g ∘ S)) by (intros; apply Hg).
  cbn [mjoin list_join]. apply no_errors_app.
Qed.

Lemma dscp_spec t :
  no_errors (validateClientDSCPPolicies t) ↔
  Forall (λ c, Forall (λ p, 1 ≤ rp_DSCP p ≤ 63) (cn_RoutingPolicies c)) (tp_Clients t).
Proof.
  apply no_errors_mjoin. intros i c. apply no_errors_imap. intros j p. unfold ValidateDSCP.
  destruct (Z.ltb_spec (rp_DSCP p) 1), (Z.ltb_spec 63 (rp_DSCP p)); simpl;
    rewrite ?no_errors_error; (split; [try done|try lia; intros; apply no_errors_nil]).
Qed.

Lemma storage_spec t :
  no_errors (validateClientStorageRoots t) ↔
  Forall (λ c, storage_root c = "" ∨ is_ok (ValidateStorageRoot (storage_root c)) = true) (tp_Clients t).
Proof.
  apply no_errors_imap. intros i c. case_bool_decide; simpl.
  - split; [by left|intros; apply no_errors_nil].
  - destruct (ValidateStorageRoot (storage_root c)); simpl.
    + split; [by right|intros; apply no_errors_nil].
    + rewrite no_errors_error. split; [done|]. by intros [?|?].
Qed.

Lemma warnings_only t :
  no_errors (long_master_names (tp_Masters t)) ∧ no_errors (validateReferences t).
Proof.
  assert (∀ (A : Type) (l : list A) (f : nat → A → option ValidationError),
    (∀ i x, no_errors (option_list (f i x))) → no_errors (omap id (imap f l))) as Hall.
  { intros A l f Hf. apply (no_errors_imap (λ _, True)); [|by apply Forall_true].
    intros i x. specialize (Hf i x). tauto. }
  split.
  - apply Hall. intros i m. simpl. case_bool_decide; repeat constructor.
  - unfold validateReferences. apply no_errors_app. split.
    all: apply (no_errors_mjoin (λ _, True)); [|by apply Forall_true].
    all: intros i x; split; [done|]; intros _; apply Hall; intros j ref; case_bool_decide; repeat constructor.
Qed.

Lemma check_range_spec ov i seen nr :
  let '(errs, seen', p) := check_range ov i seen nr in
  (no_errors errs ↔ nr_Name nr ∉ seen ∧ ∃ r, range_fits ov nr r) ∧
  (∀ r, ParseRange nr = Ok r → p = Some r) ∧ (nr_Name nr ∉ seen → seen' = {[nr_Name nr]} ∪ seen).
Proof.
  unfold check_range.
  set (dup := if bool_decide _ then _ else _).
  assert ((no_errors dup.1 ↔ nr_Name nr ∉ seen) ∧ (nr_Name nr ∉ seen → dup.2 = {[nr_Name nr]} ∪ seen)) as [Hd1 Hd2].
  { unfold dup. case_bool_decide; simpl; [rewrite no_errors_error; tauto|].
    split; [|done]. split; [done|intros; apply no_errors_nil]. }
  destruct dup as [de ds]. simpl in Hd1, Hd2. unfold range_fits.
  destruct (ParseRange nr) as [r|e].
  - split_and!; [|naive_solver|done]. rewrite !no_errors_app, Hd1.
    set (outside := match ov with Some o => _ | None => _ end).
    set (balancer := if _ && _ then _ else _).
    assert (no_errors outside ↔ ∀ o, ov = Some o → isRangeWithinOverlay o (rg_Network r) = true) as ->.
    { unfold outside. destruct ov as [o|]; [|split; [done|intros; apply no_errors_nil]].
      destruct (isRangeWithinOverlay o (rg_Network r)) eqn:Ho.
      - split; [by intros _ ? [= <-]|intros; apply no_errors_nil].
      - rewrite no_errors_error. split; [done|]. intros H. by rewrite (H o) in Ho. }
    assert (no_errors balancer ↔ (nr_BalancerIP nr ≠ "" → range_contains r (rg_BalancerIP r) = true)) as ->.
    { unfold balancer. case_bool_decide; simpl; [|split; [done|intros; apply no_errors_nil]].
      destruct (range_contains r (rg_BalancerIP r)); simpl; [split; [done|intros; apply no_errors_nil]|].
      rewrite no_errors_error. naive_solver. }
    naive_solver.
  - split_and!; [|done|done]. rewrite no_errors_app, no_errors_error. naive_solver.
Qed.

Lemma check_ranges_spec ov ranges : ∀ i seen,
  let '(errs, valid) := check_ranges ov i seen ranges in
  (no_errors errs ↔ NoDup (nr_Name <$> ranges) ∧ (∀ n, n ∈ nr_Name <$> ranges → n ∉ seen) ∧
     ∃ rs, Forall2 (range_fits ov) ranges rs) ∧
  (∀ rs, Forall2 (range_fits ov) ranges rs → valid = rs).
Proof.
  induction ranges as [|nr ranges IH]; intros i seen; simpl.
  { split; [|intros rs H; by inversion H]. split; [intros _|intros; apply no_errors_nil].
    split_and!; [constructor|set_solver|exists []; constructor]. }
  pose proof (check_range_spec ov i seen nr) as Hr.
  destruct (check_range ov i seen nr) as [[errs seen'] p]. destruct Hr as (Hr1 & Hr2 & Hr3).
  specialize (IH (S i) seen'). destruct (check_ranges ov (S i) seen' ranges) as [errs' valid].
  destruct IH as [IH1 IH2]. split.
  - rewrite no_errors_app, Hr1, IH1, NoDup_cons. split.
    + intros [[Hn [r Hfit]] (Hnd & Hns & rs & Hrs)]. rewrite Hr3 in Hns by done.
      split_and!; [set_solver|done|set_solver|exists (r :: rs); by constructor].
    + intros [[Hni Hnd] (Hns & rs & Hrs)]. inversion Hrs as [|? r ? rs' Hfit Hrest]; subst.
      assert (nr_Name nr ∉ seen) as Hn by set_solver. rewrite Hr3 by done.
      split_and!; [done|eauto|done|set_solver|eauto].
  - intros rs Hrs. inversion Hrs as [|? r ? rs' Hfit Hrest]; subst.
    rewrite (Hr2 r) by apply Hfit. simpl. by rewrite (IH2 rs').
Qed.

(** [ValidateTopology] is sound and complete: it reports no finding of severity
    "error" exactly when the overlay and every range parse, range names are
    distinct, every range lies in the overlay and holds its balancer IP, no two
    ranges overlap, names are distinct per kind of node, every overlay IP parses
    and, up to IPv4-mapped notation, none is used twice across all kinds, every
    DSCP value is between 1 and 63, and every storage root is acceptable. *)
Theorem ValidateTopology_spec t :
  no_errors (ValidateTopology t) ↔ v1_valid t.
Proof.
  unfold ValidateTopology. set (ov := Masked <$> ParsePrefix (oc_Space (tp_Overlay t))).
  pose proof (check_ranges_spec ov (oc_Ranges (tp_Overlay t)) 0 ∅) as Hr.
  destruct (check_ranges ov 0 ∅ (oc_Ranges (tp_Overlay t))) as [errs valid]. destruct Hr as [Hr1 Hr2].
  rewrite !no_errors_app, Hr1, overlaps_spec, !unique_names_spec, dscp_spec, storage_spec.
  unfold validateUniqueOverlayIPs. rewrite record_ips_spec.
  destruct (warnings_only t) as [Hw1 Hw2].
  assert (no_errors match ov with None => [MkFinding FOverlaySpace (MInvalidOverlay (oc_Space (tp_Overlay t))) SevError]
    | Some _ => [] end ↔ is_Some (ParsePrefix (oc_Space (tp_Overlay t)))) as ->.
  { unfold ov. destruct (ParsePrefix (oc_Space (tp_Overlay t))); simpl.
    - split; [eauto|intros; apply no_errors_nil].
    - rewrite no_errors_error. split; [done|]. by intros [? ?]. }
  split.
  - intros (H1 & (H2 & _ & rs & H3) & H4 & (H5 & _) & (H6 & _) & (H7 & _) & _ & (addrs & H8 & H9 & _) & _ & H10 & H11).
    rewrite (Hr2 rs H3) in H4. split; eauto.
  - intros [H1 H2 (rs & H3 & H4) H5 H6 H7 (addrs & H8 & H9) H10 H11].
    rewrite (Hr2 rs H3). split_and!; try done; try (intros ? _; apply not_elem_of_empty); [by exists rs|].
    exists addrs. split_and!; [done|done|]. intros; apply lookup_empty.
Qed.

(** Listen-port offsets are stable: the masters bound to an endpoint are exactly
    those that list it, and, when master names are distinct, their order (whose
    index is the port offset) does not depend on the order of the masters in the
    topology file. *)
Theorem MastersForEndpoint_stable t t' ep :
  NoDup (mn_Name <$> tp_Masters t) → tp_Masters t ≡ₚ tp_Masters t' →
  MastersForEndpoint t ep = MastersForEndpoint t' ep ∧
  (∀ m, m ∈ MastersForEndpoint t ep ↔ m ∈ tp_Masters t ∧ ep ∈ mn_Endpoints m) ∧
  StronglySorted (key_le mn_Name) (MastersForEndpoint t ep).
Proof.
  intros Hnd Hp. unfold MastersForEndpoint. split_and!.
  - apply sort_by_unique; [|by rewrite Hp].
    eapply sublist_NoDup; [exact Hnd|]. apply fmap_sublist, sublist_filter.
  - intros m. rewrite sort_by_elem_of, list_elem_of_filter. tauto.
  - apply sort_by_sorted.
Qed.

Definition demo_master (name : string) : MasterNode := MkMasterNode name "h" "" "10.0.0.1" 51820 0 ["e1"] false.
Definition demo_topology (masters : list MasterNode) : Topology :=
  MkTopology (MkImageDefaults "" "") (MkOverlayConfig "10.0.0.0/16" 1500 80 []) masters [] []
    (MkCapture "" "" 0) (MkRotation "" "" "" "").

Lemma MastersForEndpoint_stable_witness :
  MastersForEndpoint (demo_topology [demo_master "m2"; demo_master "m1"]) "e1" =
  MastersForEndpoint (demo_topology [demo_master "m1"; demo_master "m2"]) "e1".
Proof.
  apply (MastersForEndpoint_stable (demo_topology [demo_master "m2"; demo_master "m1"])
           (demo_topology [demo_master "m1"; demo_master "m2"]) "e1").
  - apply (bool_decide_unpack _). vm_compute. exact I.
  - apply Permutation_swap.
Defined.
