(* ===== verification/AllowedIPs.v ===== *)
(** * AllowedIPs lists ([src/pkg/topology/allowedips.go])

    The three builders of WireGuard AllowedIPs and their order-preserving
    [dedup]. A master's list for an endpoint peer is characterised exactly for
    IPv4 overlays; the last section shows what happens to an IPv6 one. *)

From S2P Require Import Prelude GoStrings GoNet.
From S2P Require Import Ranges.
From S2P Require Import TopologyV2.
From S2P Require Import Topology.

Inductive allowed_error :=
  | ErrOverlayIPRequired
  | ErrTransportRequired
  | ErrOverlayIPInvalid (text : string)
  | ErrTransportInvalid (text : string)
  | ErrRangeCIDRInvalid (cidr range : string)
  | ErrPeerOverlayInvalid (text endpoint : string).

Definition dedup_step (st : gset string * list string) (s : string) : gset string * list string :=
  let '(seen, out) := st in
  if bool_decide (s ∈ seen) then (seen, out) else ({[s]} ∪ seen, out ++ [s]).
Definition dedup (l : list string) : list string := (fold_left dedup_step l (∅, [])).2.

(** The guards [BuildAllowedIPsForEndpoint] and
    [BuildMinimalAllowedIPsForEndpointPeer] share. *)
Definition check_master_args (masterOverlayIP transportSubnet : string) : res allowed_error () :=
  if bool_decide (masterOverlayIP = "") then Err ErrOverlayIPRequired else
  if bool_decide (transportSubnet = "") then Err ErrTransportRequired else
  check! bool_decide (is_Some (ParseIP masterOverlayIP)) else ErrOverlayIPInvalid masterOverlayIP;
  check! bool_decide (is_Some (ParseCIDR transportSubnet)) else ErrTransportInvalid transportSubnet;
  Ok ().

Definition append_range (_ : nat) (out : list string) (r : NamedRange) : res allowed_error (list string) :=
  if bool_decide (nr_CIDR r = "") then Ok out else
  check! bool_decide (is_Some (ParseCIDR (nr_CIDR r))) else ErrRangeCIDRInvalid (nr_CIDR r) (nr_Name r);
  Ok (out ++ [nr_CIDR r]).

Definition BuildAllowedIPsForEndpoint (topo : Topology) (masterOverlayIP transportSubnet : string)
    : res allowed_error (list string) :=
  let! _ := check_master_args masterOverlayIP transportSubnet in
  let! out := fold_res append_range [transportSubnet; masterOverlayIP +:+ "/32"] (oc_Ranges (tp_Overlay topo)) in
  Ok (dedup out).

Definition BuildMinimalAllowedIPsForEndpointPeer (masterOverlayIP transportSubnet : string)
    : res allowed_error (list string) :=
  let! _ := check_master_args masterOverlayIP transportSubnet in
  Ok [transportSubnet; masterOverlayIP +:+ "/32"].

(** The normalisation of a (trimmed) overlay address to a "/32", written out
    twice in [BuildAllowedIPsForMasterPeer]. *)
Definition overlay_net (text : string) : option IPNet :=
  overlayCIDR ←
    (if Contains text "/"
     then '(hostIP, _) ← ParseCIDR text; Some (ip_string hostIP +:+ "/32")
     else Some (text +:+ "/32"));
  '(_, overlay) ← ParseCIDR overlayCIDR;
  Some overlay.

(** The first range named "endpoints" with a CIDR. *)
Definition endpoints_range (ranges : list NamedRange) : option NamedRange :=
  List.find (λ r, EqualFold (TrimSpace (nr_Name r)) "endpoints" && negb (bool_decide (TrimSpace (nr_CIDR r) = ""))) ranges.

Definition append_peer (selfName selfOverlay : string) (_ : nat) (out : list string) (endpoint : EndpointNode)
    : res allowed_error (list string) :=
  if bool_decide (selfName ≠ "") && bool_decide (en_Name endpoint = selfName) then Ok out else
  let peerOverlayCIDR := TrimSpace (en_OverlayIP endpoint) in
  if bool_decide (peerOverlayCIDR = "") then Ok out else
  match overlay_net peerOverlayCIDR with
  | None => Err (ErrPeerOverlayInvalid (en_OverlayIP endpoint) (en_Name endpoint))
  | Some peerOverlay =>
      if bool_decide (net_string peerOverlay = selfOverlay) then Ok out
      else Ok (out ++ [net_string peerOverlay])
  end.

Definition BuildAllowedIPsForMasterPeer (topo : option Topology)
    (endpointName endpointOverlayIP transportSubnet : string) : res allowed_error (list string) :=
  if bool_decide (endpointOverlayIP = "") then Err ErrOverlayIPRequired else
  if bool_decide (transportSubnet = "") then Err ErrTransportRequired else
  match ParseCIDR (TrimSpace transportSubnet) with
  | None => Err (ErrTransportInvalid transportSubnet)
  | Some (_, transport) =>
      match overlay_net (TrimSpace endpointOverlayIP) with
      | None => Err (ErrOverlayIPInvalid endpointOverlayIP)
      | Some overlay =>
          let out := [net_string transport; net_string overlay] in
          match topo with
          | None => Ok out
          | Some topo =>
              match endpoints_range (oc_Ranges (tp_Overlay topo)) with
              | Some namedRange =>
                  check! bool_decide (is_Some (ParseCIDR (nr_CIDR namedRange)))
                    else ErrRangeCIDRInvalid (nr_CIDR namedRange) "endpoints";
                  Ok (dedup (out ++ [nr_CIDR namedRange]))
              | None =>
                  let! out := fold_res (append_peer (TrimSpace endpointName) (net_string overlay)) out
                                       (tp_Endpoints topo) in
                  Ok (dedup out)
              end
          end
      end
  end.

(** ** [dedup] keeps the first occurrence of each string *)

Lemma dedup_fold l : ∀ seen out,
  NoDup out → (∀ s, s ∈ seen ↔ s ∈ out) →
  let r := (fold_left dedup_step l (seen, out)).2 in
  NoDup r ∧ (∀ s, s ∈ r ↔ s ∈ out ∨ s ∈ l) ∧ out `prefix_of` r.
Proof.
  induction l as [|x l IH]; intros seen out Hnd Hs; cbn [fold_left].
  { split_and!; [done|set_solver|done]. }
  unfold dedup_step at 2 4 6. case_bool_decide as Hx.
  - destruct (IH seen out Hnd Hs) as (? & He & ?). split_and!; [done| |done].
    intros s. rewrite He. set_solver.
  - destruct (IH ({[x]} ∪ seen) (out ++ [x])) as (? & He & Hp).
    { apply NoDup_app. split_and!; [done|set_solver|apply NoDup_singleton]. }
    { set_solver. }
    split_and!; [done|intros s; rewrite He; set_solver|].
    etransitivity; [|exact Hp]. by apply prefix_app_r.
Qed.

Lemma dedup_spec l : NoDup (dedup l) ∧ (∀ s, s ∈ dedup l ↔ s ∈ l).
Proof.
  destruct (dedup_fold l ∅ []) as (? & H & _); [constructor|set_solver|].
  split; [done|]. intros s. unfold dedup. rewrite H. set_solver.
Qed.

Lemma dedup_head x l : head (dedup (x :: l)) = Some x.
Proof.
  unfold dedup. cbn [fold_left]. unfold dedup_step at 2. rewrite bool_decide_eq_false_2 by set_solver.
  destruct (dedup_fold l ({[x]} ∪ ∅) [x]) as (_ & _ & [k Hk]); [apply NoDup_singleton|set_solver|].
  cbn [app]. by rewrite Hk.
Qed.

(** ** IPv4 overlays *)

(** The IPv4 host an overlay text denotes, with or without a prefix length. *)
Definition v4_host (text : string) : option Z :=
  if Contains text "/" then '(ip, _) ← ParseCIDR text; To4 ip
  else match ParseAddr text with Some (Addr4 v) => Some v | _ => None end.

Lemma overlay_net_v4 text v : v4_host text = Some v → overlay_net text = Some (host_net v).
Proof.
  unfold v4_host, overlay_net. destruct (Contains text "/") eqn:Hc.
  - destruct (ParseCIDR text) as [[ip n]|]; [|done]. cbn [mbind option_bind]. intros Hv.
    unfold ip_string. rewrite Hv.
    rewrite (ParseCIDR_host _ v); [done| |apply addr4_no_slash].
    apply ParseAddr_addr4_string. unfold To4 in Hv. destruct (in_v4_mapped ip); [|done].
    injection Hv as <-. apply Z.mod_pos_bound. lia.
  - rewrite Contains_slash in Hc. bool_to_prop. intros Hv.
    destruct (ParseAddr text) as [[|w|]|] eqn:Hp; simplify_eq.
    cbn [mbind option_bind]. by rewrite (ParseCIDR_host _ v).
Qed.

(** The peers of endpoint [selfName] that contribute a host route. *)
Definition other_host (selfName : string) (e : EndpointNode) (v : Z) : Prop :=
  (selfName = "" ∨ en_Name e ≠ selfName) ∧ v4_host (TrimSpace (en_OverlayIP e)) = Some v.
Definition v4_endpoint (e : EndpointNode) : Prop :=
  TrimSpace (en_OverlayIP e) = "" ∨ is_Some (v4_host (TrimSpace (en_OverlayIP e))).

Lemma v4_host_empty : v4_host "" = None.
Proof. reflexivity. Qed.

Lemma append_peer_v4 selfName self i out e :
  v4_endpoint e →
  ∃ extra, append_peer selfName self i out e = Ok (out ++ extra) ∧
  ∀ r, r ∈ extra ↔ r ≠ self ∧ ∃ v, other_host selfName e v ∧ r = host_route v.
Proof.
  intros He. unfold append_peer, other_host. cbv zeta.
  destruct (bool_decide (selfName ≠ "") && bool_decide (en_Name e = selfName)) eqn:Hs.
  { exists []. rewrite app_nil_r. split; [done|]. bool_to_prop. set_solver. }
  assert (selfName = "" ∨ en_Name e ≠ selfName) as Hother.
  { destruct (decide (selfName = "")); [by left|]. right. intros Heq.
    rewrite (bool_decide_eq_true_2 (selfName ≠ "")), (bool_decide_eq_true_2 (en_Name e = selfName)) in Hs by done. discriminate. }
  destruct (bool_decide (TrimSpace (en_OverlayIP e) = "")) eqn:Hempty; bool_to_prop.
  { exists []. rewrite app_nil_r. split; [done|]. rewrite Hempty, v4_host_empty. set_solver. }
  destruct He as [?|[v Hv]]; [done|]. rewrite (overlay_net_v4 _ _ Hv), net_string_host.
  destruct (bool_decide (host_route v = self)) eqn:Hself; bool_to_prop.
  - exists []. rewrite app_nil_r. split; [done|]. rewrite Hv. intros r. split; [set_solver|].
    intros [Hr (w & [_ Hw] & ->)]. congruence.
  - exists [host_route v]. split; [done|]. rewrite Hv. intros r. rewrite list_elem_of_singleton. split.
    + intros ->. eauto 10.
    + intros [_ (w & [_ Hw] & ->)]. congruence.
Qed.

Lemma append_peers_v4 selfName self l : ∀ i out,
  Forall v4_endpoint l →
  ∃ extra, fold_res_from (append_peer selfName self) i out l = Ok (out ++ extra) ∧
  ∀ r, r ∈ extra ↔ r ≠ self ∧ ∃ e v, e ∈ l ∧ other_host selfName e v ∧ r = host_route v.
Proof.
  induction l as [|e l IH]; intros i out Hl; cbn [fold_res_from].
  { exists []. rewrite app_nil_r. split; [done|]. set_solver. }
  apply Forall_cons in Hl as [He Hl].
  destruct (append_peer_v4 selfName self i out e He) as (x & -> & Hx). cbn [res_bind].
  destruct (IH (S i) (out ++ x) Hl) as (y & -> & Hy). exists (x ++ y). rewrite app_assoc. split; [done|].
  intros r. rewrite elem_of_app, Hx, Hy. set_solver.
Qed.

(** ** The lists *)

(** What the list for an endpoint peer consists of. *)
Definition master_peer_routes (topo : Topology) (endpointName : string) (transport : IPNet) (v : Z) (r : string) : Prop :=
  r = net_string transport ∨ r = host_route v ∨
  match endpoints_range (oc_Ranges (tp_Overlay topo)) with
  | Some nr => r = nr_CIDR nr
  | None => ∃ e w, e ∈ tp_Endpoints topo ∧ other_host (TrimSpace endpointName) e w ∧ r = host_route w
  end.

(** For an IPv4 endpoint overlay, given plain or as a CIDR, in a topology whose
    endpoint overlays are IPv4 (or empty) and whose "endpoints" range, if any,
    parses, [BuildAllowedIPsForMasterPeer] succeeds; the list starts with the
    transport network, has no duplicates and holds exactly the transport network,
    the endpoint's own address as a /32 (never the wider network of its CIDR form)
    and either the "endpoints" range or the /32 of every other endpoint. *)
Theorem master_peer_allowed_ips topo endpointName overlayIP transportSubnet ip transport v :
  overlayIP ≠ "" → transportSubnet ≠ "" →
  ParseCIDR (TrimSpace transportSubnet) = Some (ip, transport) →
  v4_host (TrimSpace overlayIP) = Some v →
  Forall v4_endpoint (tp_Endpoints topo) →
  (∀ nr, endpoints_range (oc_Ranges (tp_Overlay topo)) = Some nr → is_Some (ParseCIDR (nr_CIDR nr))) →
  ∃ out, BuildAllowedIPsForMasterPeer (Some topo) endpointName overlayIP transportSubnet = Ok out ∧
    head out = Some (net_string transport) ∧ NoDup out ∧
    ∀ r, r ∈ out ↔ master_peer_routes topo endpointName transport v r.
Proof.
  intros Ho Ht Hp Hv Hpeers Hr. unfold BuildAllowedIPsForMasterPeer, master_peer_routes.
  rewrite !bool_decide_eq_false_2 by done. rewrite Hp, (overlay_net_v4 _ _ Hv), net_string_host.
  destruct (endpoints_range _) as [nr|].
  - rewrite bool_decide_eq_true_2 by auto. eexists. split; [done|]. cbn [app].
    split; [apply dedup_head|]. destruct (dedup_spec [net_string transport; host_route v; nr_CIDR nr]) as [? H].
    split; [done|]. intros r. rewrite H. set_solver.
  - unfold fold_res.
    destruct (append_peers_v4 (TrimSpace endpointName) (host_route v) (tp_Endpoints topo) 0
                [net_string transport; host_route v] Hpeers) as (x & -> & Hx).
    cbn [res_bind]. eexists. split; [done|]. cbn [app]. split; [apply dedup_head|].
    destruct (dedup_spec (net_string transport :: host_route v :: x)) as [? H]. split; [done|].
    intros r. rewrite H, !elem_of_cons, Hx.
    destruct (decide (r = host_route v)); naive_solver.
Qed.

(** The topology of the witnesses: two endpoints, one overlay in CIDR form. *)
Definition sample_topology : Topology :=
  MkTopology (MkImageDefaults "" "") (MkOverlayConfig "172.20.70.0/24" 0 0 []) []
    [MkEndpointNode "de1" "1.2.3.4" "" "172.20.70.34/27" 0 0 "eu";
     MkEndpointNode "us1" "1.2.3.5" "" "172.20.70.35" 0 0 "us"]
    [] (MkCapture "" "" 0) (MkRotation "" "" "" "").

Lemma master_peer_allowed_ips_witness :
  ∃ out, BuildAllowedIPsForMasterPeer (Some sample_topology) "de1" "172.20.70.34/27" "10.255.0.25/30" = Ok out ∧
    out = ["10.255.0.24/30"; "172.20.70.34/32"; "172.20.70.35/32"].
Proof.
  destruct (master_peer_allowed_ips sample_topology "de1" "172.20.70.34/27" "10.255.0.25/30"
    (v4_mapped 0x0aff0019) (MkIPNet true 0x0aff0018 30) 0xac144622) as (out & H & _ & _ & _);
    [done|done|reflexivity|reflexivity| |done|].
  - repeat (apply Forall_cons; split; [right; vm_compute; eauto|]). constructor.
  - exists out. split; [exact H|]. vm_compute in H. by injection H.
Defined.

(** The result on any topology, whatever the family: no string occurs twice. *)
Lemma master_peer_nodup topo name ov tr out :
  BuildAllowedIPsForMasterPeer (Some topo) name ov tr = Ok out → NoDup out.
Proof.
  unfold BuildAllowedIPsForMasterPeer. intros H. inv_res.
  destruct (ParseCIDR _) as [[? ?]|]; [|done]. destruct (overlay_net _) as [o|]; [|done].
  destruct (endpoints_range _); inv_res; apply dedup_spec.
Qed.

Lemma append_ranges_spec l : ∀ i out out',
  fold_res_from append_range i out l = Ok out' ↔
  out' = out ++ filter (λ c, c ≠ "") (nr_CIDR <$> l) ∧
  Forall (λ c, c = "" ∨ is_Some (ParseCIDR c)) (nr_CIDR <$> l).
Proof.
  induction l as [|r l IH]; intros i out out'; cbn [fold_res_from fmap list_fmap].
  { rewrite filter_nil, app_nil_r. split; [intros [= <-]; by split|by intros [-> _]]. }
  rewrite Forall_cons. unfold append_range at 1. case_bool_decide as He; cbn [res_bind].
  - rewrite filter_cons_False by (rewrite He; auto). rewrite IH. naive_solver.
  - rewrite filter_cons_True by done. case_bool_decide as Hp; cbn [res_bind].
    + rewrite IH, <- app_assoc. cbn [app]. naive_solver.
    + split; [done|]. naive_solver.
Qed.

(** [BuildAllowedIPsForEndpoint] succeeds exactly when the master's overlay
    address is an IP address, the transport is a CIDR and every non-empty range
    is a CIDR; the list then is duplicate-free, begins with the transport and
    holds the transport, the master's address with "/32" and every range. *)
Theorem endpoint_allowed_ips topo masterOverlayIP transportSubnet out :
  BuildAllowedIPsForEndpoint topo masterOverlayIP transportSubnet = Ok out ↔
  is_Some (ParseIP masterOverlayIP) ∧ is_Some (ParseCIDR transportSubnet) ∧
  Forall (λ r, nr_CIDR r = "" ∨ is_Some (ParseCIDR (nr_CIDR r))) (oc_Ranges (tp_Overlay topo)) ∧
  out = dedup (transportSubnet :: (masterOverlayIP +:+ "/32") ::
               filter (λ c, c ≠ "") (nr_CIDR <$> oc_Ranges (tp_Overlay topo))) ∧
  NoDup out ∧ head out = Some transportSubnet.
Proof.
  set (l := transportSubnet :: (masterOverlayIP +:+ "/32") :: filter (λ c, c ≠ "") (nr_CIDR <$> oc_Ranges (tp_Overlay topo))).
  assert (BuildAllowedIPsForEndpoint topo masterOverlayIP transportSubnet = Ok out ↔
    is_Some (ParseIP masterOverlayIP) ∧ is_Some (ParseCIDR transportSubnet) ∧
    Forall (λ c, c = "" ∨ is_Some (ParseCIDR c)) (nr_CIDR <$> oc_Ranges (tp_Overlay topo)) ∧ out = dedup l) as H.
  { unfold BuildAllowedIPsForEndpoint, check_master_args. split.
    - intros H. inv_res. bool_to_prop. unfold fold_res in *.
      match goal with H : fold_res_from _ _ _ _ = _ |- _ => apply append_ranges_spec in H as [-> ?] end. done.
    - intros (H1 & H2 & H3 & ->).
      rewrite (bool_decide_eq_false_2 (masterOverlayIP = "")) by (intros ->; by destruct H1).
      rewrite (bool_decide_eq_false_2 (transportSubnet = "")) by (intros ->; by destruct H2).
      rewrite !bool_decide_eq_true_2 by done. cbn [res_bind]. unfold fold_res.
      by rewrite (proj2 (append_ranges_spec _ _ _ _) (conj eq_refl H3)). }
  rewrite H, Forall_fmap. split.
  - intros (? & ? & ? & ->). split_and!; [done..|apply dedup_spec|apply dedup_head].
  - intros (? & ? & ? & -> & _). done.
Qed.

Lemma minimal_allowed_ips masterOverlayIP transportSubnet out :
  BuildMinimalAllowedIPsForEndpointPeer masterOverlayIP transportSubnet = Ok out →
  out = [transportSubnet; masterOverlayIP +:+ "/32"] ∧
  ∀ topo full, BuildAllowedIPsForEndpoint topo masterOverlayIP transportSubnet = Ok full → out ⊆ full.
Proof.
  unfold BuildMinimalAllowedIPsForEndpointPeer, BuildAllowedIPsForEndpoint. intros H. inv_res.
  split; [done|]. intros topo full H. inv_res. unfold fold_res in *.
  match goal with H : fold_res_from _ _ _ _ = _ |- _ => apply append_ranges_spec in H as [-> _] end.
  intros r Hr. apply dedup_spec. set_solver.
Qed.

(** ** IPv6 overlays

    The forced "/32" is a host route for IPv4 only. *)

(** The same normalisation widens an IPv6 overlay: for [fd00::1/128] the list
    holds [fd00::/32], which covers 2^96 addresses. *)
Theorem master_peer_widens_ipv6 :
  BuildAllowedIPsForMasterPeer None "de1" "fd00::1/128" "10.255.0.24/30" =
    Ok ["10.255.0.24/30"; "fd00::/32"] ∧
  (∀ n, overlay_net "fd00::1/128" = Some n →
    ∀ x, 0 ≤ x < 2 ^ 96 → net_contains n (0xfd00 * 2 ^ 112 + x) = true).
Proof.
  split; [vm_compute; reflexivity|]. intros n Hn x Hx.
  assert (overlay_net "fd00::1/128" = Some (MkIPNet false (0xfd00 * 2 ^ 112) 32)) as Hm by (vm_compute; reflexivity).
  rewrite Hm in Hn. injection Hn as <-. unfold net_contains, network_number.
  cbn [net_v4 net_ip net_bits].
  change (To4 (0xfd00 * 2 ^ 112)) with (@None Z).
  assert (To4 (0xfd00 * 2 ^ 112 + x) = None) as ->.
  { unfold To4, in_v4_mapped. rewrite Z.shiftr_div_pow2 by lia.
    destruct (_ =? _) eqn:He; [|done]. apply Z.eqb_eq in He.
    assert (0xfd00 * 2 ^ 80 <= (0xfd00 * 2 ^ 112 + x) / 2 ^ 32); [|lia].
    apply Z.div_le_lower_bound; lia. }
  cbn [negb andb]. apply Z.eqb_eq. change (128 - 32) with 96.
  rewrite !Z.shiftr_div_pow2 by lia. rewrite Z.add_comm.
  change (0xfd00 * 2 ^ 112) with (0xfd00 * 2 ^ 16 * 2 ^ 96).
  rewrite Z.div_add by lia. rewrite Z.div_mul by lia. rewrite Z.div_small by lia. lia.
Qed.
