(* ===== verification/Migrate.v ===== *)
(** * Schema detection and the v1 to v2 migration
    ([src/pkg/topology/migrate.go], [migrate_v1_to_v2.go])

    The YAML decoder is a parameter: it yields the permissive document
    [DetectSchemaVersion] inspects and the v1 topology the migration converts.
    [MigrateV1ToV2WithReport] is characterised exactly, and a migration that
    reports no dropped field loses nothing: [v1_of] recovers the legacy topology
    up to surrounding white space. *)

From S2P Require Import Prelude GoStrings GoNet Role.
From S2P Require Import Ranges.
From S2P Require Import TopologyV2.
From S2P Require Import Topology.

(** ** migrate.go *)

(** A decoded [any]: the dynamic types the detector distinguishes. *)
Inductive yaml_value :=
  | YInt (n : Z)
  | YInt64 (n : Z)
  | YMap (m : list (string * yaml_value))
  | YOther (type : string).

Definition yaml_get (m : list (string * yaml_value)) (key : string) : option yaml_value :=
  snd <$> List.find (λ kv, bool_decide (kv.1 = key)) m.
Definition yaml_has (m : list (string * yaml_value)) (key : string) : bool :=
  bool_decide (is_Some (snd <$> List.find (λ kv, bool_decide (kv.1 = key)) m)).

Inductive migrate_error :=
  | ErrEmptyInput
  | ErrParseYAML
  | ErrEmptyDocument
  | ErrUnsupportedVersion (n : Z)
  | ErrVersionType
  | ErrUndetermined
  | ErrAlreadyV2
  | ErrExpectedV1 (version : Z)
  | ErrUnmarshalV1
  | ErrLegacyMissingName
  | ErrLegacyDuplicateName (name : string)
  | ErrMigratedInvalid (e : v2_error).

(** ** migrate_v1_to_v2.go *)

Inductive warning :=
  | WTopologyDropped (fields : list string)
  | WMasterDropped (name : string) (fields : list string)
  | WMasterMapped (name : string) (exit : bool)
  | WEndpointDropped (name : string) (fields : list string)
  | WEndpointMapped (name : string)
  | WClientDropped (name : string) (fields : list string)
  | WClientMapped (name : string).

Record V1ToV2MigrationResult := MkMigrationResult {
  mr_Topology : TopologyV2;
  mr_Warnings : list warning
}.

Definition migratedOverlaySupernet (overlay : OverlayConfig) : string :=
  let trimmed := TrimSpace (oc_Space overlay) in
  if bool_decide (trimmed ≠ "") then trimmed else
  match oc_Ranges overlay with
  | r :: _ => TrimSpace (nr_CIDR r)
  | [] => ""
  end.

(** [if cond { fields = append(fields, name) }] *)
Definition field_if (c : bool) (name : string) : list string := if c then [name] else [].

Definition legacyTopologyDroppedFields (legacy : Topology) : list string :=
  field_if (bool_decide (TrimSpace (id_Node (tp_Defaults legacy)) ≠ "")) "defaults.image.node" ++
  field_if (bool_decide (TrimSpace (id_Client (tp_Defaults legacy)) ≠ "")) "defaults.image.client" ++
  field_if (bool_decide (oc_PhysicalMTU (tp_Overlay legacy) ≠ 0)) "overlay.physical_mtu" ++
  field_if (bool_decide (oc_AWGOverhead (tp_Overlay legacy) ≠ 0)) "overlay.awg_overhead" ++
  field_if (bool_decide (0 < length (oc_Ranges (tp_Overlay legacy)))%nat) "overlay.ranges".

Definition legacyMasterDroppedFields (master : MasterNode) : list string :=
  field_if (bool_decide (TrimSpace (mn_Host master) ≠ "")) "host" ++
  field_if (bool_decide (TrimSpace (mn_PeerHost master) ≠ "")) "peer_host" ++
  field_if (bool_decide (mn_ListenPort master ≠ 0)) "listen_port" ++
  field_if (bool_decide (mn_GRPCPort master ≠ 0)) "grpc_port" ++
  field_if (bool_decide (0 < length (mn_Endpoints master))%nat) "endpoints".

Definition legacyEndpointDroppedFields (endpoint : EndpointNode) : list string :=
  field_if (bool_decide (TrimSpace (en_Host endpoint) ≠ "")) "host" ++
  field_if (bool_decide (TrimSpace (en_PeerHost endpoint) ≠ "")) "peer_host" ++
  field_if (bool_decide (en_ListenPort endpoint ≠ 0)) "listen_port" ++
  field_if (bool_decide (en_GRPCPort endpoint ≠ 0)) "grpc_port".

Definition legacyClientDroppedFields (client : ClientNode) : list string :=
  field_if (bool_decide (TrimSpace (cn_Host client) ≠ "")) "host" ++
  field_if (bool_decide (cn_GRPCPort client ≠ 0)) "grpc_port" ++
  field_if (bool_decide (is_Some (cn_Veth client))) "veth" ++
  field_if (bool_decide (is_Some (cn_Mikrotik client))) "mikrotik" ++
  field_if (bool_decide (1 < length (cn_Masters client))%nat) "masters[1:]" ++
  field_if (bool_decide (0 < length (cn_RoutingPolicies client))%nat) "routing_policies" ++
  field_if (bool_decide (is_Some (cn_DNS client))) "dns".

(** [if fields := ...; len(fields) > 0 { warn }] *)
Definition dropped (mk : list string → warning) (fields : list string) : list warning :=
  if bool_decide (0 < length fields)%nat then [mk fields] else [].

Definition appendMigratedNode (seenNames : gset string) (nodes : list NodeV2) (node : NodeV2)
    : res migrate_error (gset string * list NodeV2) :=
  if bool_decide (n2_Name node = "") then Err ErrLegacyMissingName else
  if bool_decide (n2_Name node ∈ seenNames) then Err (ErrLegacyDuplicateName (n2_Name node)) else
  Ok ({[n2_Name node]} ∪ seenNames, nodes ++ [node]).

Definition master_roles (master : MasterNode) : list Role :=
  [RoleMaster; RoleBalancer] ++ (if mn_Exit master then [RoleEgress] else []).
Definition master_node (master : MasterNode) : NodeV2 :=
  MkNodeV2 (TrimSpace (mn_Name master)) (master_roles master) (TrimSpace (mn_OverlayIP master))
    "" "" 0 "" "" "" "" "" "vanilla-wg" "amneziawg".
Definition master_warnings (master : MasterNode) : list warning :=
  dropped (WMasterDropped (mn_Name master)) (legacyMasterDroppedFields master) ++
  [WMasterMapped (mn_Name master) (mn_Exit master)].

Definition endpoint_node (endpoint : EndpointNode) : NodeV2 :=
  MkNodeV2 (TrimSpace (en_Name endpoint)) [RoleEgress] (TrimSpace (en_OverlayIP endpoint))
    "" "" 0 "" (TrimSpace (en_Region endpoint)) "" "" "" "" "amneziawg".
Definition endpoint_warnings (endpoint : EndpointNode) : list warning :=
  dropped (WEndpointDropped (en_Name endpoint)) (legacyEndpointDroppedFields endpoint) ++
  [WEndpointMapped (en_Name endpoint)].

Definition client_node (client : ClientNode) : NodeV2 :=
  let preferredMaster := match cn_Masters client with m :: _ => TrimSpace m | [] => "" end in
  MkNodeV2 (TrimSpace (cn_Name client)) [RoleClient] (TrimSpace (cn_OverlayIP client))
    "" "" 0 "" "" (TrimSpace (cn_Type client)) preferredMaster "" "vanilla-wg" "".
Definition client_warnings (client : ClientNode) : list warning :=
  dropped (WClientDropped (cn_Name client)) (legacyClientDroppedFields client) ++
  [WClientMapped (cn_Name client)].

(** The body of each of the three loops: the warnings, then the node. *)
Definition migrate_step {A} (warn : A → list warning) (node : A → NodeV2) (_ : nat)
    (st : list warning * gset string * list NodeV2) (x : A)
    : res migrate_error (list warning * gset string * list NodeV2) :=
  let '(warnings, seenNames, nodes) := st in
  let! (seenNames, nodes) := appendMigratedNode seenNames nodes (node x) in
  Ok (warnings ++ warn x, seenNames, nodes).

Definition migrated_topology (legacy : Topology) (nodes : list NodeV2) : TopologyV2 :=
  MkTopologyV2 SchemaV2 (MkMeshConfig "migrated-mesh" (migratedOverlaySupernet (tp_Overlay legacy)) [])
    nodes [] (tp_Rotation legacy) (tp_Capture legacy) (MkObservability 0 0 "" "").

Section migrate.
(** [yaml.Unmarshal] of the input into [map[string]any] (a nil map for an empty
    document) and into [Topology]. *)
Variable unmarshal_map : string → option (option (list (string * yaml_value))).
Variable unmarshal_v1 : string → option Topology.

Definition DetectSchemaVersion (input : string) : res migrate_error Z :=
  if bool_decide (input = "") then Err ErrEmptyInput else
  match unmarshal_map input with
  | None => Err ErrParseYAML
  | Some None => Err ErrEmptyDocument
  | Some (Some raw) =>
      match yaml_get raw "schema_version" with
      | Some (YInt x) | Some (YInt64 x) => if x =? 2 then Ok SchemaV2 else Err (ErrUnsupportedVersion x)
      | Some _ => Err ErrVersionType
      | None =>
          if yaml_has raw "masters" then Ok SchemaV1 else
          if yaml_has raw "endpoints" then Ok SchemaV1 else
          match yaml_get raw "transport" with
          | Some (YMap m) =>
              if yaml_has m "pool" then Ok SchemaV1 else
              if yaml_has m "prefix_length" then Ok SchemaV1 else Err ErrUndetermined
          | _ => Err ErrUndetermined
          end
      end
  end.

Definition MigrateV1ToV2WithReport (input : string) : res migrate_error V1ToV2MigrationResult :=
  let! version := DetectSchemaVersion input in
  if version =? SchemaV2 then Err ErrAlreadyV2 else
  if negb (version =? SchemaV1) then Err (ErrExpectedV1 version) else
  match unmarshal_v1 input with
  | None => Err ErrUnmarshalV1
  | Some legacy =>
      let warnings := dropped WTopologyDropped (legacyTopologyDroppedFields legacy) in
      let! st := fold_res (migrate_step master_warnings master_node) (warnings, ∅, []) (tp_Masters legacy) in
      let! st := fold_res (migrate_step endpoint_warnings endpoint_node) st (tp_Endpoints legacy) in
      let! (warnings, _, nodes) := fold_res (migrate_step client_warnings client_node) st (tp_Clients legacy) in
      let topo := migrated_topology legacy nodes in
      let! _ := wrap_err ErrMigratedInvalid (ValidateV2 (Some topo)) in
      Ok (MkMigrationResult topo warnings)
  end.

Definition MigrateV1ToV2 (input : string) : res migrate_error TopologyV2 :=
  let! result := MigrateV1ToV2WithReport input in Ok (mr_Topology result).

(** ** The loops *)

Lemma migrate_loop {A} (warn : A → list warning) (node : A → NodeV2) l : ∀ i ws seen nodes st',
  fold_res_from (migrate_step warn node) i (ws, seen, nodes) l = Ok st' ↔
  Forall (λ n, n ≠ "" ∧ n ∉ seen) (n2_Name ∘ node <$> l) ∧ NoDup (n2_Name ∘ node <$> l) ∧
  st' = (ws ++ mjoin (warn <$> l), list_to_set (n2_Name ∘ node <$> l) ∪ seen, nodes ++ (node <$> l)).
Proof.
  induction l as [|x l IH]; intros i ws seen nodes st'; cbn [fold_res_from fmap list_fmap mjoin list_join].
  { assert (list_to_set [] ∪ seen = seen) as -> by set_solver. rewrite !app_nil_r. split; [intros [= <-]|by intros (_ & _ & ->)].
    split_and!; [constructor|constructor|done]. }
  rewrite Forall_cons, NoDup_cons. cbn [migrate_step]. unfold appendMigratedNode, compose.
  destruct (bool_decide (n2_Name (node x) = "")) eqn:H1; bool_to_prop; [split; [done|naive_solver]|].
  destruct (bool_decide (n2_Name (node x) ∈ seen)) eqn:H2; bool_to_prop; [split; [done|naive_solver]|].
  cbn [res_bind]. rewrite IH, !Forall_forall, <- !app_assoc. unfold compose. cbn [app].
  assert (list_to_set ((λ y, n2_Name (node y)) <$> x :: l) ∪ seen =
          list_to_set ((λ y, n2_Name (node y)) <$> l) ∪ ({[n2_Name (node x)]} ∪ seen)) as Hset.
  { rewrite fmap_cons, list_to_set_cons. set_solver. }
  rewrite fmap_cons in Hset. rewrite Hset.
  split.
  - intros (Hf & Hnd & ->). split_and!; [done|done| | |done|done].
    + intros n Hn. specialize (Hf n Hn). set_solver.
    + intros Hin. specialize (Hf _ Hin). set_solver.
  - intros ([_ Hf] & [Hnin Hnd] & ->). split_and!; [|done|done].
    intros n Hn. specialize (Hf n Hn). set_solver.
Qed.

Lemma migrate_loop_run {A} (warn : A → list warning) (node : A → NodeV2) l i ws seen nodes :
  Forall (λ n, n ≠ "" ∧ n ∉ seen) (n2_Name ∘ node <$> l) → NoDup (n2_Name ∘ node <$> l) →
  fold_res_from (migrate_step warn node) i (ws, seen, nodes) l =
  Ok (ws ++ mjoin (warn <$> l), list_to_set (n2_Name ∘ node <$> l) ∪ seen, nodes ++ (node <$> l)).
Proof. intros. by apply migrate_loop. Qed.

(** ** The migration as a whole *)

Definition migrated_nodes (legacy : Topology) : list NodeV2 :=
  (master_node <$> tp_Masters legacy) ++ (endpoint_node <$> tp_Endpoints legacy) ++
  (client_node <$> tp_Clients legacy).
Definition migration_warnings (legacy : Topology) : list warning :=
  dropped WTopologyDropped (legacyTopologyDroppedFields legacy) ++
  mjoin (master_warnings <$> tp_Masters legacy) ++
  mjoin (endpoint_warnings <$> tp_Endpoints legacy) ++
  mjoin (client_warnings <$> tp_Clients legacy).

Lemma migrate_loops legacy st :
  (let! st := fold_res (migrate_step master_warnings master_node)
                (dropped WTopologyDropped (legacyTopologyDroppedFields legacy), ∅, []) (tp_Masters legacy) in
   let! st := fold_res (migrate_step endpoint_warnings endpoint_node) st (tp_Endpoints legacy) in
   fold_res (migrate_step client_warnings client_node) st (tp_Clients legacy)) = Ok st ↔
  Forall (λ n, n2_Name n ≠ "") (migrated_nodes legacy) ∧ NoDup (n2_Name <$> migrated_nodes legacy) ∧
  st = (migration_warnings legacy, list_to_set (n2_Name <$> migrated_nodes legacy), migrated_nodes legacy).
Proof.
  unfold fold_res, migrated_nodes, migration_warnings.
  rewrite !fmap_app, <- !list_fmap_compose, !list_to_set_app_L.
  rewrite !Forall_app, !Forall_fmap, !NoDup_app. split.
  - intros H. inv_res. apply migrate_loop in Ha as (H1 & N1 & ->). apply migrate_loop in Ha0 as (H2 & N2 & ->).
    apply migrate_loop in H as (H3 & N3 & ->). rewrite !Forall_fmap, !Forall_forall in *. cbn [app].
    rewrite <- !app_assoc. unfold compose in *.
    split_and!; try done.
    all: try (intros n Hn; first [apply H1 in Hn|apply H2 in Hn|apply H3 in Hn]; tauto).
    + intros n Hn. rewrite elem_of_app. intros [(x & -> & Hx)%list_elem_of_fmap|(x & -> & Hx)%list_elem_of_fmap].
      * apply H2 in Hx. set_solver.
      * apply H3 in Hx. set_solver.
    + intros n Hn (x & -> & Hx)%list_elem_of_fmap. apply H3 in Hx. set_solver.
    + f_equal. f_equal. set_solver.
  - intros ((F1 & F2 & F3) & (N1 & D1 & N2 & D2 & N3) & ->).
    rewrite migrate_loop_run; [cbn [res_bind]| |exact N1].
    2:{ apply Forall_fmap. eapply Forall_impl; [exact F1|]. unfold compose. set_solver. }
    rewrite migrate_loop_run; [cbn [res_bind]| |exact N2].
    2:{ rewrite Forall_fmap, !Forall_forall in *. unfold compose in *. intros n Hn. split; [by apply F2|]. set_solver. }
    apply migrate_loop. split_and!; [|exact N3|].
    + rewrite Forall_fmap, !Forall_forall in *. unfold compose in *. intros n Hn. split; [by apply F3|]. set_solver.
    + cbn [app]. rewrite <- !app_assoc. f_equal. f_equal. set_solver.
Qed.

Lemma migrate_ok input r :
  MigrateV1ToV2WithReport input = Ok r ↔
  DetectSchemaVersion input = Ok SchemaV1 ∧
  ∃ legacy, unmarshal_v1 input = Some legacy ∧
    Forall (λ n, n2_Name n ≠ "") (migrated_nodes legacy) ∧ NoDup (n2_Name <$> migrated_nodes legacy) ∧
    v2_wf (migrated_topology legacy (migrated_nodes legacy)) ∧
    r = MkMigrationResult (migrated_topology legacy (migrated_nodes legacy)) (migration_warnings legacy).
Proof.
  unfold MigrateV1ToV2WithReport. split.
  - intros H. apply res_bind_ok in H as (version & Hd & H). inv_res. bool_to_prop.
    apply Z.eqb_eq in Hc0 as ->. split; [done|]. destruct (unmarshal_v1 input) as [legacy|]; [|done].
    exists legacy. split; [done|]. pose proof (migrate_loops legacy) as HL.
    apply res_bind_ok in H as (s1 & E1 & H). apply res_bind_ok in H as (s2 & E2 & H).
    apply res_bind_ok in H as (s3 & E3 & H). specialize (HL s3). rewrite E1 in HL. cbn [res_bind] in HL.
    rewrite E2 in HL. cbn [res_bind] in HL. apply HL in E3 as (HF & HN & ->). inv_res. destruct a.
    split_and!; [done..| |done]. by apply ValidateV2_ok.
  - intros (-> & legacy & -> & HF & HN & Hwf & ->). cbn [res_bind].
    pose proof (proj2 (migrate_loops legacy _) (conj HF (conj HN eq_refl))) as HL.
    apply res_bind_ok in HL as (s1 & E1 & HL). apply res_bind_ok in HL as (s2 & E2 & HL).
    rewrite Z.eqb_refl. change (SchemaV1 =? SchemaV2) with false. cbn [negb].
    rewrite E1. cbn [res_bind]. rewrite E2. cbn [res_bind]. rewrite HL. cbn [res_bind].
    by rewrite (proj2 (ValidateV2_ok _) Hwf).
Qed.

(** The migration succeeds exactly on input detected as schema v1 that decodes to
    a topology whose trimmed node names are non-empty and pairwise different
    across masters, endpoints and clients and whose image is a valid v2 topology;
    the result then lists every master, endpoint and client once, in this order,
    with the roles [master balancer (egress)], [egress] and [client], and carries
    every warning. Nothing invalid is ever returned. *)
Theorem migration_spec input r :
  MigrateV1ToV2WithReport input = Ok r ↔
  DetectSchemaVersion input = Ok SchemaV1 ∧
  ∃ legacy, unmarshal_v1 input = Some legacy ∧
    Forall (λ n, n2_Name n ≠ "") (migrated_nodes legacy) ∧ NoDup (n2_Name <$> migrated_nodes legacy) ∧
    v2_wf (migrated_topology legacy (migrated_nodes legacy)) ∧
    r = MkMigrationResult (migrated_topology legacy (migrated_nodes legacy)) (migration_warnings legacy).
Proof. apply migrate_ok. Qed.

(** ** Migrations without dropped fields *)

Definition is_dropped (w : warning) : bool :=
  match w with
  | WTopologyDropped _ | WMasterDropped _ _ | WEndpointDropped _ _ | WClientDropped _ _ => true
  | WMasterMapped _ _ | WEndpointMapped _ | WClientMapped _ => false
  end.

(** The v1 view of a migrated topology. *)
Definition v1_master (n : NodeV2) : option MasterNode :=
  if bool_decide (RoleMaster ∈ n2_Roles n)
  then Some (MkMasterNode (n2_Name n) "" "" (n2_OverlayIP n) 0 0 [] (bool_decide (RoleEgress ∈ n2_Roles n)))
  else None.
Definition v1_endpoint (n : NodeV2) : option EndpointNode :=
  if bool_decide (n2_Roles n = [RoleEgress])
  then Some (MkEndpointNode (n2_Name n) "" "" (n2_OverlayIP n) 0 0 (n2_Region n)) else None.
Definition v1_client (n : NodeV2) : option ClientNode :=
  if bool_decide (RoleClient ∈ n2_Roles n)
  then Some (MkClientNode (n2_Name n) (n2_Platform n) "" (n2_OverlayIP n) 0 None None
               (if bool_decide (n2_PreferredMaster n = "") then [] else [n2_PreferredMaster n]) [] None)
  else None.
Definition v1_of (t : TopologyV2) : Topology :=
  MkTopology (MkImageDefaults "" "") (MkOverlayConfig (mc_OverlaySupernet (t2_Mesh t)) 0 0 [])
    (omap v1_master (t2_Nodes t)) (omap v1_endpoint (t2_Nodes t)) (omap v1_client (t2_Nodes t))
    (t2_Capture t) (t2_Rotation t).

(** A legacy topology with its texts trimmed. *)
Definition trim_master (m : MasterNode) : MasterNode :=
  MkMasterNode (TrimSpace (mn_Name m)) (TrimSpace (mn_Host m)) (TrimSpace (mn_PeerHost m))
    (TrimSpace (mn_OverlayIP m)) (mn_ListenPort m) (mn_GRPCPort m) (mn_Endpoints m) (mn_Exit m).
Definition trim_endpoint (e : EndpointNode) : EndpointNode :=
  MkEndpointNode (TrimSpace (en_Name e)) (TrimSpace (en_Host e)) (TrimSpace (en_PeerHost e))
    (TrimSpace (en_OverlayIP e)) (en_ListenPort e) (en_GRPCPort e) (TrimSpace (en_Region e)).
Definition trim_client (c : ClientNode) : ClientNode :=
  MkClientNode (TrimSpace (cn_Name c)) (TrimSpace (cn_Type c)) (TrimSpace (cn_Host c))
    (TrimSpace (cn_OverlayIP c)) (cn_GRPCPort c) (cn_Veth c) (cn_Mikrotik c)
    (filter (λ m, m ≠ "") (TrimSpace <$> cn_Masters c)) (cn_RoutingPolicies c) (cn_DNS c).
Definition trim_topology (t : Topology) : Topology :=
  MkTopology
    (MkImageDefaults (TrimSpace (id_Node (tp_Defaults t))) (TrimSpace (id_Client (tp_Defaults t))))
    (MkOverlayConfig (TrimSpace (oc_Space (tp_Overlay t))) (oc_PhysicalMTU (tp_Overlay t))
       (oc_AWGOverhead (tp_Overlay t)) (oc_Ranges (tp_Overlay t)))
    (trim_master <$> tp_Masters t) (trim_endpoint <$> tp_Endpoints t) (trim_client <$> tp_Clients t)
    (tp_Capture t) (tp_Rotation t).

Lemma field_if_nil c name : field_if c name = [] ↔ c = false.
Proof. by destruct c. Qed.

(** No dropped fields: the listed fields are all zero. *)
Ltac no_fields H :=
  repeat rewrite app_nil in H; rewrite ?field_if_nil in H; destruct_and? H; bool_to_prop.

Lemma dropped_none mk fields ws :
  (∀ f, is_dropped (mk f) = true) → Forall (λ w, is_dropped w = false) (dropped mk fields ++ ws) →
  fields = [] ∧ Forall (λ w, is_dropped w = false) ws.
Proof.
  intros Hmk H. apply Forall_app in H as [H Hws]. split; [|done]. unfold dropped in H.
  destruct fields; [done|]. rewrite bool_decide_eq_true_2 in H by (simpl; lia).
  apply Forall_cons in H as [H _]. by rewrite Hmk in H.
Qed.

Lemma master_lossless m : legacyMasterDroppedFields m = [] →
  v1_master (master_node m) = Some (trim_master m).
Proof.
  intros H. unfold legacyMasterDroppedFields in H. no_fields H.
  unfold v1_master, master_node, trim_master, master_roles. cbn [n2_Roles n2_Name n2_OverlayIP].
  rewrite bool_decide_eq_true_2 by set_solver.
  destruct m as [? ? ? ? ? ? [|e es] ex]; cbn in *; [|lia].
  repeat match goal with H : ¬ _ ≠ _ |- _ => apply dec_stable in H; rewrite ?H; subst end.
  do 2 f_equal. by destruct ex.
Qed.

Lemma endpoint_lossless e : legacyEndpointDroppedFields e = [] →
  v1_endpoint (endpoint_node e) = Some (trim_endpoint e).
Proof.
  intros H. unfold legacyEndpointDroppedFields in H. no_fields H.
  unfold v1_endpoint, endpoint_node, trim_endpoint. cbn [n2_Roles n2_Name n2_OverlayIP n2_Region].
  rewrite bool_decide_eq_true_2 by done. destruct e; cbn in *.
  repeat match goal with H : ¬ _ ≠ _ |- _ => apply dec_stable in H; rewrite ?H; subst end. done.
Qed.

Lemma preferred_lossless ms :
  ¬ (1 < length ms)%nat →
  let p := match ms with m :: _ => TrimSpace m | [] => "" end in
  (if bool_decide (p = "") then [] else [p]) = filter (λ m, m ≠ "") (TrimSpace <$> ms).
Proof.
  intros Hlen. destruct ms as [|m [|m2 ms]]; [done| |simpl in Hlen; lia]. cbn [fmap list_fmap].
  case_bool_decide as Hm; [by rewrite filter_cons_False by tauto|by rewrite filter_cons_True].
Qed.

Lemma client_lossless c : legacyClientDroppedFields c = [] →
  v1_client (client_node c) = Some (trim_client c).
Proof.
  intros H. unfold legacyClientDroppedFields in H. no_fields H.
  unfold v1_client, client_node, trim_client. cbn [n2_Roles n2_Name n2_OverlayIP n2_Platform n2_PreferredMaster].
  rewrite bool_decide_eq_true_2 by set_solver. rewrite preferred_lossless by done.
  destruct c as [? ? ? ? ? [v|] [k|] ms [|p ps] [d|]]; cbn in *;
    try (exfalso; match goal with H : ¬ is_Some (Some _) |- _ => apply H; eauto | H : ¬ (0 < S _)%nat |- _ => lia end).
  repeat match goal with H : ¬ _ ≠ _ |- _ => apply dec_stable in H; rewrite ?H; subst end. done.
Qed.

(** One section of the node list: its own view finds all of it, the others none. *)
Lemma omap_section {A B} (view : NodeV2 → option B) (node : A → NodeV2) (f : A → B) l :
  Forall (λ x, view (node x) = Some (f x)) l → omap view (node <$> l) = f <$> l.
Proof. induction 1 as [|x l Hx _ IH]; [done|]. cbn. by rewrite Hx, IH. Qed.
Lemma omap_other {A B} (view : NodeV2 → option B) (node : A → NodeV2) l :
  (∀ x, view (node x) = None) → omap view (node <$> l) = [].
Proof. intros Hx. induction l as [|x l IH]; [done|]. cbn. by rewrite Hx. Qed.

Lemma warnings_lossless {A} (warn : A → list warning) (mk : A → list string → warning) fields mapped l :
  (∀ x, warn x = dropped (mk x) (fields x) ++ [mapped x]) → (∀ x f, is_dropped (mk x f) = true) →
  Forall (λ w, is_dropped w = false) (mjoin (warn <$> l)) → Forall (λ x, fields x = []) l.
Proof.
  intros Hw Hmk. induction l as [|x l IH]; intros H; [constructor|]. cbn in H.
  rewrite Forall_app, Hw in H. destruct H as [[H _]%dropped_none Hl]; [|apply Hmk]. constructor; auto.
Qed.

(** A migration that reports no dropped field is lossless: the v1 view of the
    migrated topology is the legacy topology with its texts trimmed (names,
    addresses, exit flags, regions, platforms, preferred masters, overlay space,
    capture and rotation settings), so every lossy conversion is reported. *)
Theorem migration_lossless input r :
  MigrateV1ToV2WithReport input = Ok r →
  Forall (λ w, is_dropped w = false) (mr_Warnings r) →
  ∃ legacy, unmarshal_v1 input = Some legacy ∧ v1_of (mr_Topology r) = trim_topology legacy.
Proof.
  intros (_ & legacy & Hu & _ & _ & Hwf & ->)%migrate_ok Hw. exists legacy. split; [done|].
  cbn [mr_Warnings mr_Topology] in *. unfold migration_warnings in Hw.
  apply dropped_none in Hw as [Ht Hw]; [|done]. rewrite !Forall_app in Hw. destruct Hw as (Hm & He & Hc).
  apply (warnings_lossless _ (λ m, WMasterDropped (mn_Name m)) legacyMasterDroppedFields (λ m, WMasterMapped (mn_Name m) (mn_Exit m))) in Hm; [|done..].
  apply (warnings_lossless _ (λ m, WEndpointDropped (en_Name m)) legacyEndpointDroppedFields (λ m, WEndpointMapped (en_Name m))) in He; [|done..].
  apply (warnings_lossless _ (λ m, WClientDropped (cn_Name m)) legacyClientDroppedFields (λ m, WClientMapped (cn_Name m))) in Hc; [|done..].
  unfold v1_of, migrated_topology, trim_topology, migrated_nodes. cbn [t2_Nodes t2_Mesh t2_Capture t2_Rotation mc_OverlaySupernet].
  rewrite !omap_app.
  rewrite (omap_section v1_master master_node trim_master) by (eapply Forall_impl; [exact Hm|]; apply master_lossless).
  rewrite (omap_section v1_endpoint endpoint_node trim_endpoint) by (eapply Forall_impl; [exact He|]; apply endpoint_lossless).
  rewrite (omap_section v1_client client_node trim_client) by (eapply Forall_impl; [exact Hc|]; apply client_lossless).
  rewrite (omap_other v1_master endpoint_node), (omap_other v1_master client_node) by done.
  rewrite (omap_other v1_endpoint master_node), (omap_other v1_endpoint client_node) by (intros x; done || (unfold v1_endpoint, master_node, master_roles; by destruct (mn_Exit x))).
  rewrite (omap_other v1_client master_node), (omap_other v1_client endpoint_node) by (intros x; done || (unfold v1_client, master_node, master_roles; by destruct (mn_Exit x))).
  rewrite !app_nil_r. cbn [app].
  unfold legacyTopologyDroppedFields in Ht. no_fields Ht.
  destruct legacy as [[? ?] [space mtu oh [|r rs]] ? ? ? ? ?]; cbn in *; [|lia].
  repeat match goal with H : ¬ _ ≠ _ |- _ => apply dec_stable in H; rewrite ?H; subst end.
  f_equal. f_equal. unfold migratedOverlaySupernet. cbn. case_bool_decide as Hs; [done|]. by symmetry.
Qed.
End migrate.

(** A one-master legacy document, decoded by concrete functions. *)
Definition sample_raw (_ : string) : option (option (list (string * yaml_value))) :=
  Some (Some [("overlay", YMap []); ("masters", YOther "[]interface {}")]).
Definition sample_v1 (_ : string) : option Topology :=
  Some (MkTopology (MkImageDefaults "" "") (MkOverlayConfig " 10.0.0.0/24" 0 0 [])
    [MkMasterNode "m1 " "" "" "10.0.0.1" 0 0 [] true] [] [] (MkCapture "" "" 0) (MkRotation "" "" "" "")).
Definition sample_migration : res migrate_error V1ToV2MigrationResult :=
  MigrateV1ToV2WithReport sample_raw sample_v1 "masters: ...".

Lemma migration_lossless_witness :
  ∃ r, sample_migration = Ok r ∧
    tp_Masters (v1_of (mr_Topology r)) = [MkMasterNode "m1" "" "" "10.0.0.1" 0 0 [] true].
Proof.
  destruct sample_migration as [r|] eqn:Hr; [|vm_compute in Hr; discriminate Hr].
  exists r. split; [done|].
  destruct (migration_lossless sample_raw sample_v1 "masters: ..." r) as (legacy & Hu & ->).
  - exact Hr.
  - vm_compute in Hr. injection Hr as <-. repeat constructor.
  - injection Hu as <-. vm_compute. reflexivity.
Defined.
