(* ===== verification/Rotation.v ===== *)
(** * Mesh-wide parameter rotation ([src/pkg/rotation/orchestrator.go])

    Planning and executing one rotation over the mesh-internal nodes. The
    orchestrator is generic in its [Applier], as the source is; [MemoryApplier],
    the control plane's own, is the instance. Copies of values are the values
    themselves here, which the [clone] functions are proved to be: no field is
    lost. A context is its error at each apply ([None] while it is live);
    [sort.Slice] is some sorting permutation. *)

From S2P Require Import Prelude GoStrings Role.
From S2P Require Import Ledger Registry CertLifecycle.

Definition Tier1 : string := "tier1".
Definition Tier2 : string := "tier2".
Definition Tier3 : string := "tier3".
Definition RotationStatusSucceeded : string := "succeeded".
Definition RotationStatusPartialFailed : string := "partial_failed".
Definition DefaultApplyLeadTime : Z := 30 * Second.

(** [pb.AWGParamsV2] *)
Record AWGParamsV2 := MkAWGParamsV2 {
  ap_Jc : Z; ap_Jmin : Z; ap_Jmax : Z; ap_S1 : Z; ap_S2 : Z;
  ap_H1 : Z; ap_H2 : Z; ap_H3 : Z; ap_H4 : Z;
  ap_I1 : string; ap_I2 : string; ap_I3 : string; ap_I4 : string; ap_I5 : string
}.

Record Target := MkTarget { tg_Name : string; tg_Roles : list Role; tg_OverlayIP : string }.

Record Request := MkRequest {
  rr_Tier : string;
  rr_Params : option AWGParamsV2;
  rr_ApplyAt : time;
  rr_RotationID : string;
  rr_Reason : string;
  rr_Targets : list Target
}.

Record Plan := MkPlan {
  pl_Tier : string;
  pl_Params : option AWGParamsV2;
  pl_ApplyAt : time;
  pl_RotationID : string;
  pl_Reason : string;
  pl_Targets : list Target
}.

Record Result := MkResult { re_Target : Target; re_Ack : bool; re_Error : string }.
Record Execution := MkExecution { ex_Plan : Plan; ex_Results : list Result; ex_Status : string }.
Record RotationRecord := MkRecord {
  rd_Plan : Plan;
  rd_Results : list Result;
  rd_Status : string;
  rd_CreatedAt : time
}.

Inductive rotation_error :=
  | ErrContextRequired
  | ErrUnsupportedTier (tier : string)
  | ErrParamsRequired
  | ErrNoRotationTargets
  | ErrApplyInPast (applyAt : time)
  | ErrPartialApply (rotationID : string).

(** The zero values returned beside an error. *)
Definition zero_plan : Plan := MkPlan "" None 0 "" "" [].
Definition zero_execution : Execution := MkExecution zero_plan [] "".

(** ** Copies *)

Definition CloneAWGParamsV2 (p : option AWGParamsV2) : option AWGParamsV2 :=
  p ← p;
  Some (MkAWGParamsV2 (ap_Jc p) (ap_Jmin p) (ap_Jmax p) (ap_S1 p) (ap_S2 p)
          (ap_H1 p) (ap_H2 p) (ap_H3 p) (ap_H4 p)
          (ap_I1 p) (ap_I2 p) (ap_I3 p) (ap_I4 p) (ap_I5 p)).
Definition cloneTarget (t : Target) : Target := MkTarget (tg_Name t) (tg_Roles t) (tg_OverlayIP t).
Definition cloneTargets (l : list Target) : list Target := cloneTarget <$> l.
Definition clonePlan (p : Plan) : Plan :=
  MkPlan (pl_Tier p) (CloneAWGParamsV2 (pl_Params p)) (pl_ApplyAt p) (pl_RotationID p) (pl_Reason p)
    (cloneTargets (pl_Targets p)).
Definition cloneResults (l : list Result) : list Result :=
  (λ r, MkResult (cloneTarget (re_Target r)) (re_Ack r) (re_Error r)) <$> l.
Definition cloneRecord (r : RotationRecord) : RotationRecord :=
  MkRecord (clonePlan (rd_Plan r)) (cloneResults (rd_Results r)) (rd_Status r) (rd_CreatedAt r).

Lemma CloneAWGParamsV2_id p : CloneAWGParamsV2 p = p.
Proof. by destruct p as [[]|]. Qed.
Lemma cloneTarget_id t : cloneTarget t = t.
Proof. by destruct t. Qed.
Lemma cloneTargets_id l : cloneTargets l = l.
Proof. unfold cloneTargets. rewrite <- (list_fmap_id l) at 2. apply list_fmap_ext. intros. apply cloneTarget_id. Qed.
Lemma clonePlan_id p : clonePlan p = p.
Proof. destruct p. unfold clonePlan. simpl. by rewrite CloneAWGParamsV2_id, cloneTargets_id. Qed.
Lemma cloneResults_id l : cloneResults l = l.
Proof.
  unfold cloneResults. rewrite <- (list_fmap_id l) at 2. apply list_fmap_ext. intros i [t a e] _. simpl.
  by rewrite cloneTarget_id.
Qed.
Lemma cloneRecord_id r : cloneRecord r = r.
Proof. destruct r. unfold cloneRecord. simpl. by rewrite clonePlan_id, cloneResults_id. Qed.

(** ** The applier *)

(** [interface Applier]: the context's error, the target and the plan; the state
    [A] is the applier's own. *)
Class Applier (A : Type) := {
  ApplyRotation : option string → Target → Plan → A → option string * A
}.

Record MemoryApplier := MkMemoryApplier {
  ma_applied : gmap string Plan;
  ma_failures : gmap string string
}.
Definition NewMemoryApplier : MemoryApplier := MkMemoryApplier ∅ ∅.

Definition SetFailure (nodeName : string) (err : option string) (m : MemoryApplier) : MemoryApplier :=
  let key := TrimSpace nodeName in
  match err with
  | None => MkMemoryApplier (ma_applied m) (delete key (ma_failures m))
  | Some e => MkMemoryApplier (ma_applied m) (<[key := e]> (ma_failures m))
  end.

Definition memory_ApplyRotation (ctx : option string) (target : Target) (plan : Plan) (m : MemoryApplier)
    : option string * MemoryApplier :=
  match ctx with
  | Some e => (Some e, m)
  | None =>
      match ma_failures m !! tg_Name target with
      | Some e => (Some e, m)
      | None => (None, MkMemoryApplier (<[tg_Name target := clonePlan plan]> (ma_applied m)) (ma_failures m))
      end
  end.
#[global] Instance MemoryApplier_Applier : Applier MemoryApplier := {| ApplyRotation := memory_ApplyRotation |}.

Definition applied_Snapshot (m : MemoryApplier) : gmap string Plan := clonePlan <$> ma_applied m.

(** ** Planning *)

Definition NormalizeTier (tier : string) : res rotation_error string :=
  let t := ToLower (TrimSpace tier) in
  if bool_decide (t = "1") || bool_decide (t = Tier1) then Ok Tier1 else
  if bool_decide (t = "2") || bool_decide (t = Tier2) then Ok Tier2 else
  if bool_decide (t = "3") || bool_decide (t = Tier3) then Ok Tier3 else
  Err (ErrUnsupportedTier tier).

Definition isMeshInternal (roles : list Role) : bool :=
  existsb (λ r, bool_decide (r = RoleMaster) || bool_decide (r = RoleEgress) ||
                bool_decide (r = RoleIngress) || bool_decide (r = RoleBalancer)) roles.

(** [t.UnixMicro()], an [int64]. *)
Definition UnixMicro (t : time) : Z := wrap_int64 ((t - unixToInternal * Second) / 1000).

Section orchestrator.
Context (sorter : list Target → list Target).

Definition MeshInternalTargets (nodes : list Target) : list Target :=
  sorter (omap (λ node, if isMeshInternal (tg_Roles node) then Some (cloneTarget node) else None) nodes).

(** The applier's state, the history's records and the lead time; the clock's
    readings are arguments. *)
Record Orchestrator (A : Type) := MkOrchestrator {
  or_applier : A;
  or_history : list RotationRecord;
  or_lead : Z
}.
Arguments MkOrchestrator {A}.
Arguments or_applier {A}.
Arguments or_history {A}.
Arguments or_lead {A}.

Context {A : Type} `{!Applier A}.
Implicit Types o : Orchestrator A.

Definition NewOrchestrator (applier : A) (applyLeadTime : Z) : Orchestrator A :=
  MkOrchestrator applier [] (if applyLeadTime <=? 0 then DefaultApplyLeadTime else applyLeadTime).

(** [Orchestrator.Plan] at the clock reading [now]. *)
Definition make_plan (o : Orchestrator A) (now : time) (req : Request) : res rotation_error Plan :=
  let! tier := NormalizeTier (rr_Tier req) in
  if bool_decide (rr_Params req = None) then Err ErrParamsRequired else
  let targets := MeshInternalTargets (rr_Targets req) in
  if bool_decide (length targets = 0%nat) then Err ErrNoRotationTargets else
  let applyAt := if IsZero (rr_ApplyAt req) then now + or_lead o else rr_ApplyAt req in
  if applyAt <? now then Err (ErrApplyInPast applyAt) else
  let rotationID := TrimSpace (rr_RotationID req) in
  let rotationID := if bool_decide (rotationID = "") then tier +:+ "-" +:+ Itoa (UnixMicro now) else rotationID in
  Ok (MkPlan tier (CloneAWGParamsV2 (rr_Params req)) applyAt rotationID (TrimSpace (rr_Reason req))
        (cloneTargets targets)).

Definition history_Append (record : RotationRecord) (o : Orchestrator A) : Orchestrator A :=
  MkOrchestrator (or_applier o) (or_history o ++ [cloneRecord record]) (or_lead o).
Definition Records (o : Orchestrator A) : list RotationRecord := cloneRecord <$> or_history o.

(** The loop over the targets: [ctx i] is the context's error at the [i]-th apply. *)
Fixpoint apply_loop (ctx : nat → option string) (plan : Plan) (i : nat) (targets : list Target)
    (results : list Result) (status : string) (a : A) : list Result * string * A :=
  match targets with
  | [] => (results, status, a)
  | target :: targets =>
      match ApplyRotation (ctx i) target (clonePlan plan) a with
      | (Some err, a) =>
          apply_loop ctx plan (S i) targets (results ++ [MkResult (cloneTarget target) false err])
            RotationStatusPartialFailed a
      | (None, a) =>
          apply_loop ctx plan (S i) targets (results ++ [MkResult (cloneTarget target) true ""]) status a
      end
  end.

(** [now] is the reading of [Plan], [createdAt] the one of the history record. *)
Definition Execute (ctx : option (nat → option string)) (now createdAt : time) (req : Request) (o : Orchestrator A)
    : Execution * option rotation_error * Orchestrator A :=
  match ctx with
  | None => (zero_execution, Some ErrContextRequired, o)
  | Some ctx =>
      match make_plan o now req with
      | Err e => (zero_execution, Some e, o)
      | Ok plan =>
          let '(results, status, a) := apply_loop ctx plan 0 (pl_Targets plan) [] RotationStatusSucceeded (or_applier o) in
          let exec := MkExecution (clonePlan plan) (cloneResults results) status in
          let o := history_Append (MkRecord (ex_Plan exec) (ex_Results exec) status createdAt)
                     (MkOrchestrator a (or_history o) (or_lead o)) in
          (exec,
           if bool_decide (status = RotationStatusPartialFailed) then Some (ErrPartialApply (pl_RotationID plan)) else None,
           o)
      end
  end.
End orchestrator.
Arguments MkOrchestrator {A}.
Arguments or_applier {A}.
Arguments or_history {A}.
Arguments or_lead {A}.

(** ** The loop over the targets *)

Lemma apply_loop_spec {A} `{!Applier A} ctx plan targets : ∀ i results status (a : A),
  ∃ new a', apply_loop ctx plan i targets results status a =
    (results ++ new, if forallb re_Ack new then status else RotationStatusPartialFailed, a') ∧
    re_Target <$> new = targets.
Proof.
  induction targets as [|t targets IH]; intros i results status a; cbn [apply_loop].
  { exists [], a. by rewrite app_nil_r. }
  destruct (ApplyRotation (ctx i) t (clonePlan plan) a) as [[err|] a1].
  - destruct (IH (S i) (results ++ [MkResult (cloneTarget t) false err]) RotationStatusPartialFailed a1)
      as (new & a' & -> & Hn).
    exists (MkResult (cloneTarget t) false err :: new), a'. rewrite <- app_assoc. cbn.
    rewrite Hn, cloneTarget_id. split; [|done]. by destruct (forallb re_Ack new).
  - destruct (IH (S i) (results ++ [MkResult (cloneTarget t) true ""]) status a1) as (new & a' & -> & Hn).
    exists (MkResult (cloneTarget t) true "" :: new), a'. rewrite <- app_assoc. cbn.
    by rewrite Hn, cloneTarget_id.
Qed.

(** The same loop over the memory applier: who acknowledges, and what is stored. *)
Lemma memory_loop ctx plan targets : ∀ i results status (m : MemoryApplier),
  ∃ new m', apply_loop ctx plan i targets results status m =
    (results ++ new, if forallb re_Ack new then status else RotationStatusPartialFailed, m') ∧
    re_Target <$> new = targets ∧ ma_failures m' = ma_failures m ∧
    (∀ k r, new !! k = Some r →
       re_Ack r = true ↔ ctx (i + k)%nat = None ∧ ma_failures m !! tg_Name (re_Target r) = None) ∧
    (∀ n, ma_applied m' !! n =
       if existsb (λ r, re_Ack r && bool_decide (tg_Name (re_Target r) = n)) new then Some plan
       else ma_applied m !! n).
Proof.
  induction targets as [|t targets IH]; intros i results status m; cbn [apply_loop].
  { exists [], m. rewrite app_nil_r. done. }
  change (ApplyRotation (ctx i) t (clonePlan plan) m) with (memory_ApplyRotation (ctx i) t (clonePlan plan) m).
  assert (∃ r m1, memory_ApplyRotation (ctx i) t (clonePlan plan) m =
            (if re_Ack r then None else Some (re_Error r), m1) ∧
          re_Target r = t ∧ (re_Ack r = true → re_Error r = "") ∧ ma_failures m1 = ma_failures m ∧
          (re_Ack r = true ↔ ctx i = None ∧ ma_failures m !! tg_Name t = None) ∧
          ma_applied m1 = if re_Ack r then <[tg_Name t := plan]> (ma_applied m) else ma_applied m)
    as (r & m1 & Happ & Ht & Herr & Hf & Hack & Hm1).
  { unfold memory_ApplyRotation. destruct (ctx i) as [e|].
    - exists (MkResult t false e), m. naive_solver.
    - destruct (ma_failures m !! tg_Name t) as [e|] eqn:He.
      + exists (MkResult t false e), m. naive_solver.
      + exists (MkResult t true ""), (MkMemoryApplier (<[tg_Name t := plan]> (ma_applied m)) (ma_failures m)).
        rewrite !clonePlan_id. naive_solver. }
  rewrite Happ, cloneTarget_id.
  destruct (IH (S i) (results ++ [r]) (if re_Ack r then status else RotationStatusPartialFailed) m1)
    as (new & m' & Hloop & Hn & Hf' & Hacks & Hst).
  exists (r :: new), m'. split_and!.
  - rewrite <- app_assoc in Hloop. cbn [app forallb] in *. destruct r as [rt [|] re]; cbn in *; subst rt.
    + rewrite (Herr eq_refl) in Hloop |- *. done.
    + rewrite Hloop. by destruct (forallb re_Ack new).
  - cbn. by rewrite Ht, Hn.
  - congruence.
  - intros [|k] r' Hr'; cbn in Hr'.
    + injection Hr' as <-. by rewrite Nat.add_0_r, Ht.
    + rewrite (Hacks _ _ Hr'), Hf. by rewrite Nat.add_succ_comm.
  - intros n. rewrite Hst, Hm1. cbn [existsb]. rewrite Ht.
    destruct (existsb _ new); [by rewrite orb_true_r|]. rewrite orb_false_r.
    destruct (re_Ack r); [|done]. cbn [andb]. case_bool_decide as Hk.
    + subst n. by rewrite lookup_insert_eq.
    + by rewrite lookup_insert_ne.
Qed.

Lemma mesh_internal_filter (l : list Target) :
  omap (λ node, if isMeshInternal (tg_Roles node) then Some (cloneTarget node) else None) l =
  filter (λ t, isMeshInternal (tg_Roles t) = true) l.
Proof.
  induction l as [|t l IH]; [done|]. cbn [omap list_omap]. rewrite filter_cons.
  destruct (isMeshInternal (tg_Roles t)) eqn:Ht.
  - rewrite decide_True by done. rewrite cloneTarget_id. f_equal. apply IH.
  - rewrite decide_False by done. apply IH.
Qed.

Lemma forallb_ack l : forallb re_Ack l = true ↔ Forall (λ r, re_Ack r = true) l.
Proof. rewrite forallb_forall, Forall_forall. split; intros H x Hx; apply H; by apply list_elem_of_In. Qed.

(** ** Specification *)

(** What a plan made at [now] for [req] is. *)
Record planned (lead : Z) (now : time) (req : Request) (plan : Plan) : Prop := {
  pd_tier : NormalizeTier (rr_Tier req) = Ok (pl_Tier plan);
  pd_params : is_Some (pl_Params plan) ∧ pl_Params plan = rr_Params req;
  pd_targets : pl_Targets plan ≠ [] ∧
    pl_Targets plan ≡ₚ filter (λ t, isMeshInternal (tg_Roles t) = true) (rr_Targets req) ∧
    StronglySorted (key_le tg_Name) (pl_Targets plan);
  pd_apply_at : now ≤ pl_ApplyAt plan ∧
    pl_ApplyAt plan = if rr_ApplyAt req =? 0 then now + lead else rr_ApplyAt req;
  pd_id : pl_RotationID plan ≠ ""
}.

Lemma string_app_nonempty a b : a ≠ "" → a +:+ b ≠ "".
Proof. by destruct a. Qed.

Lemma make_plan_ok {A} `{!Applier A} sorter (o : Orchestrator A) now req plan :
  SortSliceBy tg_Name sorter → make_plan sorter o now req = Ok plan → planned (or_lead o) now req plan.
Proof.
  intros Hs H. unfold make_plan in H. inv_res. bool_to_prop. apply Z.ltb_ge in Hc1.
  constructor; cbn [pl_Tier pl_Params pl_Targets pl_ApplyAt pl_RotationID].
  - done.
  - rewrite CloneAWGParamsV2_id. split; [|done]. by destruct (rr_Params req) as [p|]; [exists p|].
  - rewrite cloneTargets_id. unfold MeshInternalTargets in *. rewrite mesh_internal_filter in *. split_and!.
    + intros He. by rewrite He in Hc0.
    + apply slice_by_perm.
    + apply slice_by_sorted.
  - unfold IsZero in *. done.
  - case_bool_decide as He; [|done]. apply string_app_nonempty.
    unfold NormalizeTier in Ha. repeat destruct (_ || _); by inv_res.
Qed.

Lemma make_plan_accepts {A} `{!Applier A} sorter (o : Orchestrator A) now req :
  SortSliceBy tg_Name sorter → 0 ≤ or_lead o →
  is_ok (make_plan sorter o now req) = true ↔
  is_ok (NormalizeTier (rr_Tier req)) = true ∧ is_Some (rr_Params req) ∧
  Exists (λ t, isMeshInternal (tg_Roles t) = true) (rr_Targets req) ∧
  (rr_ApplyAt req = 0 ∨ now ≤ rr_ApplyAt req).
Proof.
  intros Hs Hl. unfold make_plan. destruct (NormalizeTier (rr_Tier req)) as [tier|]; cbn [res_bind is_ok]; [|naive_solver].
  destruct (rr_Params req) as [p|]; [|split; [done|intros (_ & [? [=]] & _)]].
  rewrite (bool_decide_eq_false_2 (Some p = None)) by done.
  assert (length (MeshInternalTargets sorter (rr_Targets req)) = 0%nat ↔
          ¬ Exists (λ t, isMeshInternal (tg_Roles t) = true) (rr_Targets req)) as Hn.
  { unfold MeshInternalTargets. rewrite mesh_internal_filter, (Permutation_length (slice_by_perm _)).
    rewrite length_zero_iff_nil. split.
    - intros Hf Hex. apply Exists_exists in Hex as (t & Ht & Hi).
      assert (t ∈ filter (λ t, isMeshInternal (tg_Roles t) = true) (rr_Targets req)) as Hin by (by apply list_elem_of_filter).
      rewrite Hf in Hin. set_solver.
    - intros Hex. destruct (filter _ _) as [|t l] eqn:Hf; [done|]. exfalso. apply Hex.
      assert (t ∈ t :: l) as Hin by set_solver. rewrite <- Hf in Hin. apply list_elem_of_filter in Hin as [? ?].
      apply Exists_exists. eauto. }
  case_bool_decide as Hb; [split; [done|tauto]|].
  assert (Exists (λ t, isMeshInternal (tg_Roles t) = true) (rr_Targets req)) by (apply dec_stable; tauto).
  unfold IsZero. destruct (rr_ApplyAt req =? 0) eqn:Hz.
  - apply Z.eqb_eq in Hz. rewrite (proj2 (Z.ltb_ge _ _)) by lia. naive_solver.
  - apply Z.eqb_neq in Hz. destruct (rr_ApplyAt req <? now) eqn:Hlt; cbn [is_ok].
    + apply Z.ltb_lt in Hlt. split; [done|]. intros (_ & _ & _ & [?|?]); lia.
    + apply Z.ltb_ge in Hlt. split; [|done]. intros _. eauto 10.
Qed.

(** Rotation over any applier. A request is accepted exactly when its tier is
    known, it has parameters, some target is mesh-internal and the apply time is
    unset or not in the past; a refused request leaves the orchestrator alone.
    An accepted one is attempted on every mesh-internal target exactly once, in
    name order, whatever fails on the way; one record with all the results joins
    the history; and the call succeeds exactly when every target acknowledged. *)
Theorem rotation_outcome {A} `{!Applier A} sorter ctx now createdAt req (o : Orchestrator A) :
  SortSliceBy tg_Name sorter → 0 ≤ or_lead o →
  let '(exec, err, o') := Execute sorter (Some ctx) now createdAt req o in
  (is_ok (make_plan sorter o now req) = true ↔
     is_ok (NormalizeTier (rr_Tier req)) = true ∧ is_Some (rr_Params req) ∧
     Exists (λ t, isMeshInternal (tg_Roles t) = true) (rr_Targets req) ∧
     (rr_ApplyAt req = 0 ∨ now ≤ rr_ApplyAt req)) ∧
  match make_plan sorter o now req with
  | Err e => exec = zero_execution ∧ err = Some e ∧ o' = o
  | Ok plan =>
      planned (or_lead o) now req plan ∧ ex_Plan exec = plan ∧
      re_Target <$> ex_Results exec = pl_Targets plan ∧
      or_history o' = or_history o ++ [MkRecord plan (ex_Results exec) (ex_Status exec) createdAt] ∧
      (err = None ↔ Forall (λ r, re_Ack r = true) (ex_Results exec)) ∧
      (ex_Status exec = RotationStatusSucceeded ↔ Forall (λ r, re_Ack r = true) (ex_Results exec)) ∧
      (err ≠ None → err = Some (ErrPartialApply (pl_RotationID plan)))
  end.
Proof.
  intros Hs Hl. pose proof (make_plan_accepts sorter o now req Hs Hl) as Hacc. unfold Execute.
  destruct (make_plan sorter o now req) as [plan|e] eqn:Hp; [|done].
  destruct (apply_loop_spec ctx plan (pl_Targets plan) 0 [] RotationStatusSucceeded (or_applier o))
    as (new & a' & -> & Hn). cbn [app]. split; [done|].
  unfold history_Append. cbn [ex_Plan ex_Results ex_Status or_history].
  rewrite cloneRecord_id, clonePlan_id, cloneResults_id, <- forallb_ack.
  split_and!; [by eapply make_plan_ok|done..| | |].
  - destruct (forallb re_Ack new); done.
  - destruct (forallb re_Ack new); done.
  - by case_bool_decide.
Qed.

(** Rotation over the control plane's own applier: afterwards a node stores the
    new plan exactly when one of its targets acknowledged, every other node keeps
    the plan it had (a partial failure is a mixed mesh, which the results name),
    and a target acknowledges exactly when the context was live and no failure is
    configured for it. *)
Theorem memory_rotation sorter ctx now createdAt req (o : Orchestrator MemoryApplier) plan :
  make_plan sorter o now req = Ok plan →
  let '(exec, _, o') := Execute sorter (Some ctx) now createdAt req o in
  (∀ n, ma_applied (or_applier o') !! n =
     if existsb (λ r, re_Ack r && bool_decide (tg_Name (re_Target r) = n)) (ex_Results exec) then Some plan
     else ma_applied (or_applier o) !! n) ∧
  (∀ i r, ex_Results exec !! i = Some r →
     re_Ack r = true ↔ ctx i = None ∧ ma_failures (or_applier o) !! tg_Name (re_Target r) = None) ∧
  ma_failures (or_applier o') = ma_failures (or_applier o).
Proof.
  intros Hp. unfold Execute. rewrite Hp.
  destruct (memory_loop ctx plan (pl_Targets plan) 0 [] RotationStatusSucceeded (or_applier o))
    as (new & m' & -> & Hn & Hf & Hack & Hst).
  cbn. rewrite cloneResults_id. done.
Qed.

(** A mesh of one master, one egress node that fails and one client. *)
Definition demo_request : Request :=
  MkRequest " TIER2 " (Some (MkAWGParamsV2 4 40 70 15 16 1 2 3 4 "" "" "" "" "")) 0 "" "drill"
    [MkTarget "m1" ["master"] "10.0.0.1"; MkTarget "e1" ["egress"] "10.0.0.2"; MkTarget "c1" ["client"] "10.0.0.3"].
Definition demo_orchestrator : Orchestrator MemoryApplier :=
  NewOrchestrator (SetFailure " e1 " (Some "offline") NewMemoryApplier) 0.

Lemma rotation_outcome_witness :
  let '(exec, err, o') := Execute (sort_by tg_Name) (Some (λ _, None)) 10 20 demo_request demo_orchestrator in
  (tg_Name ∘ re_Target <$> ex_Results exec) = ["e1"; "m1"] ∧ length (or_history o') = 1%nat ∧ err ≠ None.
Proof.
  pose proof (rotation_outcome (sort_by tg_Name) (λ _, None) 10 20 demo_request demo_orchestrator _
                ltac:(vm_compute; discriminate)) as H.
  destruct (Execute _ _ _ _ _ _) as [[exec err] o'] eqn:He. destruct H as [_ H].
  assert (∃ plan, make_plan (sort_by tg_Name) demo_orchestrator 10 demo_request = Ok plan) as [plan Hp]
    by (vm_compute; eauto).
  rewrite Hp in H. destruct H as (_ & _ & Ht & Hh & _).
  vm_compute in He. injection He as <- <- <-. done.
Defined.

Lemma memory_rotation_witness :
  let '(exec, _, o') := Execute (sort_by tg_Name) (Some (λ _, None)) 10 20 demo_request demo_orchestrator in
  is_Some (ma_applied (or_applier o') !! "m1") ∧ ma_applied (or_applier o') !! "e1" = None.
Proof.
  destruct (make_plan (sort_by tg_Name) demo_orchestrator 10 demo_request) as [plan|] eqn:Hp;
    [|vm_compute in Hp; discriminate Hp].
  pose proof (memory_rotation (sort_by tg_Name) (λ _, None) 10 20 demo_request demo_orchestrator plan Hp) as H.
  destruct (Execute _ _ _ _ _ _) as [[exec err] o'] eqn:He. destruct H as (H & _).
  rewrite !H. vm_compute in He. injection He as <- <- <-. split; [vm_compute; eauto|done].
Defined.
