(* ===== verification/RotationService.v ===== *)
(** * The rotation RPC ([src/pkg/control_plane/server.go], RotateAWGParamsMeshWide)

    The handler over the server's state and its [rotation] field: the registered
    nodes become targets, the orchestrator runs, one response per target is
    streamed and two audit events frame the attempt. The stream is what its
    [Recv] returned and, per response, whether [Send] succeeded. *)

From S2P Require Import Prelude GoStrings Role.
From S2P Require Import Ledger Registry AuditTrail CertLifecycle Server Rotation.

(** [pb.RotateRequest] and [pb.RotateResponse] *)
Record RotateRequest := MkRotateRequest {
  ro_Tier : string;
  ro_NewParams : option AWGParamsV2;
  ro_ApplyAtUnixMicros : Z;
  ro_RotationId : string
}.
Record RotateResponse := MkRotateResponse {
  rp_NodeName : string;
  rp_RotationId : string;
  rp_Ack : bool;
  rp_Error : string
}.

Inductive rotate_recv := RotateMsg (req : RotateRequest) | RotateEOF | RotateRecvErr.

(** How the call ends. *)
Inductive rotate_status :=
  | RotateOK
  | RotateStreamErr                    (* the stream's own error *)
  | RotateInvalidArgument (e : option rotation_error)
  | RotateFailedPrecondition (e : rotation_error)
  | RotateAborted (rotationID : string).

Definition unixMicrosOrZero (t : Z) : time :=
  if t =? 0 then 0 else t * 1000 + unixToInternal * Second.

Definition rotationTargetsFromRegistry (nodes : list RegisteredNode) : list Target :=
  (λ node, MkTarget (rn_Name node) (rn_Roles node) (rn_OverlayIP node)) <$> nodes.

(** The responses that went out, and whether all did; [sent i] tells the outcome of
    the [i]-th [Send]. *)
Fixpoint stream_results (sent : nat → bool) (i : nat) (rotationID : string) (results : list Result)
    : list RotateResponse * bool :=
  match results with
  | [] => ([], true)
  | result :: results =>
      if sent i then
        let '(out, ok) := stream_results sent (S i) rotationID results in
        (MkRotateResponse (tg_Name (re_Target result)) rotationID (re_Ack result) (re_Error result) :: out, ok)
      else ([], false)
  end.
Definition streamRotationResults (sent : nat → bool) (exec : Execution) : list RotateResponse * bool :=
  stream_results sent 0 (pl_RotationID (ex_Plan exec)) (ex_Results exec).

(** The server with its [rotation] field. *)
Record RotationServer := MkRotationServer {
  rx_server : Server;
  rx_rotation : option (Orchestrator MemoryApplier)
}.
Definition NewRotationServer (s : Server) : RotationServer :=
  MkRotationServer s (Some (NewOrchestrator NewMemoryApplier 0)).

Section rotate.
Context (clock : nat → string → time) (sorter : list Target → list Target).

(** [s.audit.Append] with the actor "operator". *)
Definition audit_operator (eventType : string) (d : detail) (s : Server) : Server :=
  let '(now, s) := Now clock "" s in
  MkServer (sv_registry s) (sv_ledger s) (Append now (MkEvent 0 eventType "" d "operator") (sv_audit s))
    (sv_peerListBcast s) (sv_ownershipBcast s) (sv_ticks s).

(** [ctx] is the stream's context at each apply. *)
Definition RotateAWGParamsMeshWide (recv : rotate_recv) (ctx : nat → option string) (sent : nat → bool)
    (x : RotationServer) : list RotateResponse * rotate_status * RotationServer :=
  match recv with
  | RotateEOF => ([], RotateInvalidArgument None, x)
  | RotateRecvErr => ([], RotateStreamErr, x)
  | RotateMsg req =>
      let o := match rx_rotation x with Some o => o | None => NewOrchestrator NewMemoryApplier 0 end in
      let s := rx_server x in
      let rotationReq :=
        MkRequest (ro_Tier req) (ro_NewParams req) (unixMicrosOrZero (ro_ApplyAtUnixMicros req))
          (ro_RotationId req) "control-plane" (rotationTargetsFromRegistry (registry_List (sv_registry s))) in
      let count := Z.of_nat (length (MeshInternalTargets sorter (rr_Targets rotationReq))) in
      let s := audit_operator "rotate-start" (DRotateStart (ro_Tier req) (ro_RotationId req) count) s in
      let '(now, s) := Now clock "plan" s in
      let '(createdAt, s) := Now clock "record" s in
      let '(exec, execErr, o) := Execute sorter (Some ctx) now createdAt rotationReq o in
      let '(out, ok) := streamRotationResults sent exec in
      if negb ok then (out, RotateStreamErr, MkRotationServer s (Some o)) else
      let s := audit_operator "rotate-result"
                 (DRotateResult (pl_RotationID (ex_Plan exec)) (ex_Status exec) (Z.of_nat (length (ex_Results exec)))) s in
      (out,
       match execErr with
       | None => RotateOK
       | Some ErrNoRotationTargets => RotateFailedPrecondition ErrNoRotationTargets
       | Some (ErrPartialApply _) => RotateAborted (pl_RotationID (ex_Plan exec))
       | Some e => RotateInvalidArgument (Some e)
       end,
       MkRotationServer s (Some o))
  end.
End rotate.

(** ** The targets of a well-formed registry *)

Lemma registry_List_names r : registry_wf r → NoDup (rn_Name <$> registry_List r).
Proof.
  intros [Hn _ _]. unfold registry_List. rewrite (sort_by_perm rn_Name).
  change (cloneRegisteredNode <$> (map_to_list (rg_byName r)).*2) with (id <$> (map_to_list (rg_byName r)).*2).
  rewrite list_fmap_id, <- list_fmap_compose.
  assert (rn_Name ∘ snd <$> map_to_list (rg_byName r) = (map_to_list (rg_byName r)).*1) as ->.
  { apply list_fmap_ext. intros i [k n] Hk. cbn. apply no_name.
    apply Hn. by apply elem_of_map_to_list, list_elem_of_lookup_2 with i. }
  apply NoDup_fst_map_to_list.
Qed.

Lemma registry_List_elem r n :
  n ∈ registry_List r ↔ ∃ name, rg_byName r !! name = Some n.
Proof.
  unfold registry_List. rewrite (sort_by_perm rn_Name), list_elem_of_fmap. unfold cloneRegisteredNode. split.
  - intros (y & -> & Hy). apply list_elem_of_fmap in Hy as ([k m] & -> & Hm).
    apply elem_of_map_to_list in Hm. eauto.
  - intros [name Hname]. exists n. split; [done|]. apply list_elem_of_fmap. exists (name, n).
    split; [done|]. by apply elem_of_map_to_list.
Qed.

Definition internal_nodes (r : Registry) : list RegisteredNode :=
  filter (λ n, isMeshInternal (rn_Roles n) = true) (registry_List r).

Lemma targets_of_filter l :
  filter (λ t, isMeshInternal (tg_Roles t) = true) (rotationTargetsFromRegistry l) =
  rotationTargetsFromRegistry (filter (λ n, isMeshInternal (rn_Roles n) = true) l).
Proof.
  induction l as [|n l IH]; [done|]. unfold rotationTargetsFromRegistry in *.
  rewrite fmap_cons, !filter_cons. cbn [tg_Roles]. case_decide; [|done]. by rewrite fmap_cons, IH.
Qed.

Lemma StronglySorted_filter {A} (R : A → A → Prop) (P : A → Prop) `{∀ x, Decision (P x)} l :
  StronglySorted R l → StronglySorted R (filter P l).
Proof.
  induction 1 as [|x l Hs IH Hx]; [constructor|]. rewrite filter_cons. case_decide; [|done].
  constructor; [done|]. apply Forall_forall. intros y [_ Hy]%list_elem_of_filter.
  rewrite Forall_forall in Hx. auto.
Qed.

Lemma rotation_targets_sorted l :
  StronglySorted (key_le rn_Name) l → StronglySorted (key_le tg_Name) (rotationTargetsFromRegistry l).
Proof.
  induction 1 as [|n l _ IH Hx]; [constructor|]. cbn. constructor; [done|]. by apply Forall_fmap.
Qed.

(** Whatever sorts them, the targets are the internal nodes in registry order. *)
Lemma internal_targets sorter r :
  SortSliceBy tg_Name sorter → registry_wf r →
  MeshInternalTargets sorter (rotationTargetsFromRegistry (registry_List r)) =
  rotationTargetsFromRegistry (internal_nodes r).
Proof.
  intros Hs Hwf. unfold MeshInternalTargets. rewrite mesh_internal_filter, targets_of_filter.
  fold (internal_nodes r).
  assert (NoDup (tg_Name <$> rotationTargetsFromRegistry (internal_nodes r))) as Hnd.
  { unfold rotationTargetsFromRegistry. rewrite <- list_fmap_compose. unfold internal_nodes.
    by apply NoDup_fmap_filter, registry_List_names. }
  apply (sorted_perm_unique tg_Name).
  - by rewrite slice_by_perm.
  - apply slice_by_perm.
  - apply slice_by_sorted.
  - apply rotation_targets_sorted, StronglySorted_filter, sort_by_sorted.
Qed.

Lemma stream_all id results : ∀ i,
  stream_results (λ _, true) i id results =
  ((λ r, MkRotateResponse (tg_Name (re_Target r)) id (re_Ack r) (re_Error r)) <$> results, true).
Proof. induction results as [|r results IH]; intros i; [done|]. cbn. by rewrite IH. Qed.

(** The state the handler leaves alone. *)
Definition same_mesh (s s' : Server) : Prop :=
  sv_registry s' = sv_registry s ∧ sv_ledger s' = sv_ledger s ∧
  sv_peerListBcast s' = sv_peerListBcast s ∧ sv_ownershipBcast s' = sv_ownershipBcast s.

(** A valid rotation request on a live stream gets exactly one response per
    registered mesh-internal node, in name order, and none for clients. The call
    ends in success exactly when every node acknowledged, else it is aborted. A
    node that acknowledged stores the plan under the response's rotation id, any
    other name keeps what it had. Registry, ledger and subscriptions are
    untouched, and exactly a "rotate-start" and a "rotate-result" event are
    audited. *)
Theorem rotate_rpc clock sorter req ctx s o :
  SortSliceBy tg_Name sorter → registry_wf (sv_registry s) → 0 ≤ or_lead o →
  is_ok (NormalizeTier (ro_Tier req)) = true → is_Some (ro_NewParams req) →
  unixMicrosOrZero (ro_ApplyAtUnixMicros req) = 0 ∨
    (∀ k l, clock k l ≤ unixMicrosOrZero (ro_ApplyAtUnixMicros req)) →
  internal_nodes (sv_registry s) ≠ [] →
  let '(out, st, x') :=
    RotateAWGParamsMeshWide clock sorter (RotateMsg req) ctx (λ _, true) (MkRotationServer s (Some o)) in
  rp_NodeName <$> out = rn_Name <$> internal_nodes (sv_registry s) ∧
  (st = RotateOK ↔ Forall (λ r, rp_Ack r = true) out) ∧
  (st ≠ RotateOK → ∃ id, st = RotateAborted id) ∧
  (∃ plan o', rx_rotation x' = Some o' ∧ Forall (λ r, rp_RotationId r = pl_RotationID plan) out ∧
     ∀ n, ma_applied (or_applier o') !! n =
       if existsb (λ r, rp_Ack r && bool_decide (rp_NodeName r = n)) out then Some plan
       else ma_applied (or_applier o) !! n) ∧
  same_mesh s (rx_server x') ∧
  (∃ t1 t2 d1 d2, sv_audit (rx_server x') =
     Append t2 (MkEvent 0 "rotate-result" "" d2 "operator")
       (Append t1 (MkEvent 0 "rotate-start" "" d1 "operator") (sv_audit s))).
Proof.
  intros Hs Hwf Hl Ht Hp Hat Hint. unfold RotateAWGParamsMeshWide. cbn [rx_rotation rx_server].
  set (rreq := MkRequest _ _ _ _ _ _).
  destruct (Now clock "plan" _) as [now s2] eqn:Hnow. destruct (Now clock "record" s2) as [created s3] eqn:Hrec.
  assert (is_ok (make_plan sorter o now rreq) = true) as Hok.
  { apply make_plan_accepts; [done..|]. split_and!; [done..| |].
    - destruct (internal_nodes (sv_registry s)) as [|n l] eqn:Hi; [done|].
      assert (n ∈ internal_nodes (sv_registry s)) as Hn by (rewrite Hi; set_solver).
      apply list_elem_of_filter in Hn as [Hn1 Hn2]. apply Exists_exists.
      exists (MkTarget (rn_Name n) (rn_Roles n) (rn_OverlayIP n)). split; [|done].
      by apply (list_elem_of_fmap_2 (λ node, MkTarget (rn_Name node) (rn_Roles node) (rn_OverlayIP node))).
    - destruct Hat as [?|Hat]; [by left|right]. unfold Now in Hnow. injection Hnow as <- _. apply Hat. }
  destruct (make_plan sorter o now rreq) as [plan|] eqn:Hplan; [|done].
  unfold Execute. rewrite Hplan.
  assert (pl_Targets plan = rotationTargetsFromRegistry (internal_nodes (sv_registry s))) as Htg.
  { unfold make_plan in Hplan. inv_res. cbn [pl_Targets]. rewrite cloneTargets_id. cbn [rr_Targets rreq].
    by apply internal_targets. }
  destruct (memory_loop ctx plan (pl_Targets plan) 0 [] RotationStatusSucceeded (or_applier o))
    as (new & m' & -> & Hn & Hf & Hack & Hst). cbn [app].
  unfold streamRotationResults. cbn [ex_Plan ex_Results]. rewrite stream_all, cloneResults_id, clonePlan_id. cbn [negb].
  cbn [rx_rotation rx_server]. split_and!.
  - rewrite <- list_fmap_compose. unfold compose. cbn [rp_NodeName].
    transitivity (tg_Name <$> (re_Target <$> new)); [by rewrite <- list_fmap_compose|].
    rewrite Hn, Htg. unfold rotationTargetsFromRegistry. by rewrite <- list_fmap_compose.
  - rewrite Forall_fmap. unfold compose. cbn [rp_Ack]. rewrite <- forallb_ack. by destruct (forallb re_Ack new).
  - destruct (forallb re_Ack new); [done|]. eauto.
  - exists plan. eexists. split; [done|]. split.
    + apply Forall_fmap, Forall_forall. done.
    + intros n. cbn [or_applier]. rewrite Hst.
      assert (∀ l : list Result, existsb (λ r, rp_Ack r && bool_decide (rp_NodeName r = n))
                ((λ r, MkRotateResponse (tg_Name (re_Target r)) (pl_RotationID plan) (re_Ack r) (re_Error r)) <$> l)
              = existsb (λ r, re_Ack r && bool_decide (tg_Name (re_Target r) = n)) l) as ->; [|done].
      intros l. induction l as [|r l IH]; [done|]. cbn. by rewrite IH.
  - unfold Now, audit_operator in *. injection Hnow as _ <-. injection Hrec as _ <-. done.
  - unfold Now, audit_operator in *. injection Hnow as _ <-. injection Hrec as _ <-. cbn. eauto 10.
Qed.

Definition two_masters : Registry :=
  run_reg [RRegister 10 (demo_node "m2" "10.0.0.2" "C2"); RRegister 11 (demo_node "m1" "10.0.0.1" "C1")] NewRegistry.
Definition rotate_server : Server := NewServer two_masters NewLedger (NewAuditLog DEmpty 16).
Definition rotate_request : RotateRequest :=
  MkRotateRequest "2" (Some (MkAWGParamsV2 4 40 70 15 16 1 2 3 4 "" "" "" "" "")) 0 "r-1".

Lemma rotate_rpc_witness :
  let '(out, st, _) :=
    RotateAWGParamsMeshWide (λ k _, Z.of_nat k + 100) (sort_by tg_Name) (RotateMsg rotate_request) (λ _, None)
      (λ _, true) (NewRotationServer rotate_server) in
  rp_NodeName <$> out = ["m1"; "m2"] ∧ st = RotateOK.
Proof.
  pose proof (rotate_rpc (λ k _, Z.of_nat k + 100) (sort_by tg_Name) rotate_request (λ _, None) rotate_server
                (NewOrchestrator NewMemoryApplier 0) _ (run_reg_wf _ _ NewRegistry_wf)
                ltac:(vm_compute; discriminate) eq_refl ltac:(eexists; reflexivity) ltac:(left; reflexivity)
                ltac:(vm_compute; discriminate)) as H.
  change (MkRotationServer rotate_server (Some (NewOrchestrator NewMemoryApplier 0)))
    with (NewRotationServer rotate_server) in H.
  destruct (RotateAWGParamsMeshWide _ _ _ _ _ _) as [[out st] x'] eqn:Hr. destruct H as (-> & Hst & _).
  split; [vm_compute; reflexivity|]. apply Hst.
  vm_compute in Hr. injection Hr as <- <- <-. repeat constructor.
Defined.

(** When a response cannot be sent the handler returns at once: the plan is
    applied and recorded in the history, yet no "rotate-result" is audited. *)
Lemma rotate_send_failure_unaudited :
  let '(out, st, x') :=
    RotateAWGParamsMeshWide (λ k _, Z.of_nat k + 100) (sort_by tg_Name) (RotateMsg rotate_request) (λ _, None)
      (λ _, false) (NewRotationServer rotate_server) in
  out = [] ∧ st = RotateStreamErr ∧
  (∃ o, rx_rotation x' = Some o ∧ length (or_history o) = 1%nat ∧ is_Some (ma_applied (or_applier o) !! "m1")) ∧
  Len (sv_audit (rx_server x')) = 1%nat.
Proof. vm_compute. split_and!; eauto 10. Qed.
