(* ===== verification/UpgradePlan.v ===== *)
(** * Upgrade plans ([src/pkg/upgrade/plan.go], [src/cmd/mesh-ctl/cmd/upgrade.go])

    The order in which nodes are upgraded: the v1 plan (endpoints by region, then
    masters, or an operator's order) and the v2 phased plan (masters, mesh roles,
    clients), with the pause/resume state of the latter. *)

From S2P Require Import Prelude GoStrings GoNet Role.
From S2P Require Import Ranges TopologyV2 Topology.

(** ** plan.go *)

Inductive UpgradeStepStatus :=
  | StatusPlanned | StatusRunning | StatusDone | StatusFailed | StatusRolledBack | StatusSkipped.
#[global] Instance UpgradeStepStatus_eq_dec : EqDecision UpgradeStepStatus.
Proof. solve_decision. Defined.

Record NodeUpgradeStep := MkStep {
  st_Name : string;
  st_Role : string;
  st_Region : string;
  st_OldImage : string;
  st_NewImage : string;
  st_Status : UpgradeStepStatus
}.

Record UpgradePlan := MkUpgradePlan { up_Version : string; up_Nodes : list NodeUpgradeStep }.

Inductive plan_error :=
  | ErrTopologyRequired
  | ErrVersionRequired
  | ErrOrderUnknown (name : string)
  | ErrOrderDuplicate (name : string)
  | ErrOrderEmptyName.

Definition defaultFallbackImage : string := "ghcr.io/coonfuuseed-paandaa/awg-mesh-node".

Definition override_step (known : gset string) (_ : nat) (seen : gset string) (name : string)
    : res plan_error (gset string) :=
  if negb (bool_decide (name ∈ known)) then Err (ErrOrderUnknown name) else
  if bool_decide (name ∈ seen) then Err (ErrOrderDuplicate name) else
  Ok ({[name]} ∪ seen).
Definition validateAndReturnOverride (override : list string) (known : gset string) : res plan_error (list string) :=
  let! _ := fold_res (override_step known) ∅ override in Ok override.

(** The comparison of [defaultOrder]: by region, then by name. *)
Definition ep_le (a b : string * string) : Prop :=
  (a.2 ≠ b.2 ∧ String.le a.2 b.2) ∨ (a.2 = b.2 ∧ String.le a.1 b.1).
#[global] Instance ep_le_dec a b : Decision (ep_le a b).
Proof. unfold ep_le. apply _. Defined.
#[global] Instance ep_le_total : Total ep_le.
Proof.
  intros [n r] [n' r']. unfold ep_le. simpl. destruct (decide (r = r')) as [->|Hr].
  - destruct (total String.le n n'); auto.
  - destruct (total String.le r r'); [left|right]; left; auto.
Qed.
#[global] Instance ep_le_trans : Transitive ep_le.
Proof.
  intros [n r] [n' r'] [n'' r'']. unfold ep_le. simpl.
  intros [[H1 H2]|[-> H2]] [[H3 H4]|[-> H4]]; [|left; auto|left; auto|right; split; [done|by etransitivity]].
  left. split; [|by etransitivity]. intros ->. apply H1. by apply (anti_symm String.le).
Qed.

(** The entries are (name, region). *)
Definition defaultOrder (topo : Topology) : list string :=
  let eps := merge_sort ep_le ((λ e, (en_Name e, en_Region e)) <$> tp_Endpoints topo) in
  let masters := sort_by id (mn_Name <$> tp_Masters topo) in
  eps.*1 ++ masters.

Definition known_names (topo : Topology) : gset string :=
  list_to_set (mn_Name <$> tp_Masters topo) ∪ list_to_set (en_Name <$> tp_Endpoints topo).

Definition ComputeOrder (topo : option Topology) (override : list string) : res plan_error (list string) :=
  match topo with
  | None => Err ErrTopologyRequired
  | Some topo =>
      if bool_decide (0 < length override)%nat then validateAndReturnOverride override (known_names topo)
      else Ok (defaultOrder topo)
  end.

(** [strings.LastIndex] of one byte; -1 when absent. *)
Definition last_index (c : ascii) (l : list ascii) : Z :=
  match cut_last_byte c l with Some (before, _) => Z.of_nat (length before) | None => -1 end.

Definition stripImageTag (ref : string) : string :=
  match cut_byte "@" (to_bytes ref) with
  | Some (before, _) => of_bytes before
  | None =>
      let lastSlash := last_index "/" (to_bytes ref) in
      let lastColon := last_index ":" (to_bytes ref) in
      if lastSlash <? lastColon then of_bytes (take (Z.to_nat lastColon) (to_bytes ref)) else ref
  end.

(** A map built by a loop over a slice keeps the last value of a key. *)
Definition last_by {A} (key : A → string) (name : string) (l : list A) : option A :=
  List.find (λ x, bool_decide (key x = name)) (reverse l).

Definition plan_step (topo : Topology) (newImage name : string) : NodeUpgradeStep :=
  match last_by mn_Name name (tp_Masters topo) with
  | Some _ => MkStep name "master" "" "UNKNOWN" newImage StatusPlanned
  | None =>
      match last_by en_Name name (tp_Endpoints topo) with
      | Some e => MkStep name "endpoint" (en_Region e) "UNKNOWN" newImage StatusPlanned
      | None => MkStep name "" "" "UNKNOWN" newImage StatusPlanned
      end
  end.

Definition new_image (topo : Topology) (version : string) : string :=
  let baseImage := id_Node (tp_Defaults topo) in
  let baseImage := if bool_decide (baseImage = "") then defaultFallbackImage else baseImage in
  stripImageTag baseImage +:+ ":" +:+ version.

Definition ComputePlan (topo : option Topology) (version : string) (manualOrder : list string)
    : res plan_error UpgradePlan :=
  match topo with
  | None => Err ErrTopologyRequired
  | Some t =>
      if bool_decide (TrimSpace version = "") then Err ErrVersionRequired else
      let! order := ComputeOrder topo manualOrder in
      Ok (MkUpgradePlan version (plan_step t (new_image t version) <$> order))
  end.

(** ** cmd/mesh-ctl/cmd/upgrade.go *)

Record meshUpgradePlanEntry := MkPlanEntry {
  me_Phase : Z;
  me_PhaseName : string;
  me_NodeName : string;
  me_Roles : list string;
  me_TargetVersion : string;
  me_Parallel : bool;
  me_Status : string
}.

Definition makeUpgradePlanEntry (phase : Z) (phaseName : string) (node : NodeV2) (version : string) (parallel : bool)
    : meshUpgradePlanEntry :=
  MkPlanEntry phase phaseName (n2_Name node) (n2_Roles node) version parallel "planned".

Definition hasUpgradeRole (node : NodeV2) (want : Role) : bool := bool_decide (want ∈ n2_Roles node).

Definition manual_step (topo : TopologyV2) (version : string) (i : nat)
    (st : list meshUpgradePlanEntry * gset string) (name : string)
    : res plan_error (list meshUpgradePlanEntry * gset string) :=
  match last_by n2_Name name (t2_Nodes topo) with
  | None => Err (ErrOrderUnknown name)
  | Some node =>
      if bool_decide (name ∈ st.2) then Err (ErrOrderDuplicate name) else
      Ok (st.1 ++ [makeUpgradePlanEntry (Z.of_nat i + 1) "manual" node version false], {[name]} ∪ st.2)
  end.

(** The cases of the [switch]: 1 masters, 2 mesh roles, 3 clients. *)
Definition node_phase (node : NodeV2) : Z :=
  if hasUpgradeRole node RoleMaster then 1 else if hasUpgradeRole node RoleClient then 3 else 2.

Definition buildMeshUpgradePlan (sorter : list NodeV2 → list NodeV2) (topo : option TopologyV2) (version : string)
    (manualOrder : list string) : res plan_error (list meshUpgradePlanEntry) :=
  match topo with
  | None => Err ErrTopologyRequired
  | Some topo =>
      if bool_decide (0 < length manualOrder)%nat then
        let! st := fold_res (manual_step topo version) ([], ∅) manualOrder in Ok st.1
      else
        let nodes := sorter (t2_Nodes topo) in
        let masters := filter (λ n, node_phase n = 1) nodes in
        let clients := filter (λ n, node_phase n = 3) nodes in
        let meshRoles := filter (λ n, node_phase n = 2) nodes in
        Ok (((λ n, makeUpgradePlanEntry 1 "masters" n version false) <$> masters) ++
            ((λ n, makeUpgradePlanEntry 2 "mesh-roles" n version true) <$> meshRoles) ++
            ((λ n, makeUpgradePlanEntry 3 "clients" n version true) <$> clients))
  end.

Definition order_step (_ : nat) (order : list string) (part : list ascii) : res plan_error (list string) :=
  let name := TrimSpace (of_bytes part) in
  if bool_decide (name = "") then Err ErrOrderEmptyName else Ok (order ++ [name]).
Definition parseUpgradeOrder (raw : string) : res plan_error (list string) :=
  let trimmed := TrimSpace raw in
  if bool_decide (trimmed = "") then Ok [] else
  fold_res order_step [] (split_byte "," (to_bytes trimmed)).

(** The persisted state; [None] when the file does not exist. *)
Record meshUpgradeState := MkUpgradeState {
  us_Version : string;
  us_Status : string;
  us_Paused : bool;
  us_Message : string;
  us_Plan : list meshUpgradePlanEntry
}.
Definition upgradeStatusRunning : string := "running".
Definition upgradeStatusPaused : string := "paused".
Definition upgradeStatusBlocked : string := "blocked".

Inductive state_error := ErrNoUpgradeState | ErrUpgradeBlocked (message : string).

Definition runUpgradePauseCommand (state : option meshUpgradeState) : res state_error meshUpgradeState :=
  match state with
  | None => Err ErrNoUpgradeState
  | Some s =>
      if bool_decide (us_Status s = upgradeStatusBlocked) then Err (ErrUpgradeBlocked (us_Message s)) else
      Ok (MkUpgradeState (us_Version s) upgradeStatusPaused true (us_Message s) (us_Plan s))
  end.
Definition runUpgradeResumeCommand (state : option meshUpgradeState) : res state_error meshUpgradeState :=
  match state with
  | None => Err ErrNoUpgradeState
  | Some s =>
      if bool_decide (us_Status s = upgradeStatusBlocked) then Err (ErrUpgradeBlocked (us_Message s)) else
      Ok (MkUpgradeState (us_Version s) upgradeStatusRunning false (us_Message s) (us_Plan s))
  end.

(** What [runUpgradeCommand] does: print the plan of a dry run, or persist a blocked
    state and fail. [load] is the result of [loadTopologyV2]. *)
Inductive run_outcome :=
  | RunError (e : plan_error)
  | RunLoadError
  | RunDry (plan : list meshUpgradePlanEntry)
  | RunBlocked (state : meshUpgradeState).
Definition blocked_message : string :=
  "v2 upgrade execution is not supported until v2 deploy metadata and executor are available".
Definition runUpgradeCommand (sorter : list NodeV2 → list NodeV2) (load : option TopologyV2) (version order : string)
    (dryRun : bool) : run_outcome :=
  let version := TrimSpace version in
  if bool_decide (version = "") then RunError ErrVersionRequired else
  match load with
  | None => RunLoadError
  | Some topo =>
      match (let! manualOrder := parseUpgradeOrder order in buildMeshUpgradePlan sorter (Some topo) version manualOrder) with
      | Err e => RunError e
      | Ok plan =>
          if dryRun then RunDry plan
          else RunBlocked (MkUpgradeState version upgradeStatusBlocked false blocked_message plan)
      end
  end.

(** ** Orders *)

Lemma override_loop known override : ∀ i seen,
  is_ok (fold_res_from (override_step known) i seen override) = true ↔
  NoDup override ∧ Forall (λ n, n ∈ known ∧ n ∉ seen) override.
Proof.
  induction override as [|n l IH]; intros i seen; cbn [fold_res_from].
  { split; [intros _; split; constructor|done]. }
  unfold override_step at 1. rewrite NoDup_cons, Forall_cons.
  destruct (bool_decide (n ∈ known)) eqn:Hk; bool_to_prop; cbn [negb res_bind is_ok]; [|naive_solver].
  destruct (bool_decide (n ∈ seen)) eqn:Hs; bool_to_prop; cbn [res_bind is_ok]; [naive_solver|].
  rewrite IH, !Forall_forall. set_solver.
Qed.

Lemma default_order_spec topo :
  ∃ eps masters, defaultOrder topo = eps.*1 ++ masters ∧
    eps ≡ₚ ((λ e, (en_Name e, en_Region e)) <$> tp_Endpoints topo) ∧ StronglySorted ep_le eps ∧
    masters ≡ₚ (mn_Name <$> tp_Masters topo) ∧ StronglySorted String.le masters.
Proof.
  eexists _, _. split; [reflexivity|]. split_and!.
  - apply merge_sort_Permutation.
  - apply StronglySorted_merge_sort; apply _.
  - apply sort_by_perm.
  - apply (sort_by_sorted (A := string) id).
Qed.

(** The upgrade order. An operator's order is taken verbatim exactly when it
    repeats no name and names only known nodes; without one, every endpoint comes
    before every master, endpoints sorted by region and then name, masters by
    name, and nobody is left out or duplicated. *)
Theorem ComputeOrder_spec topo override :
  (∀ order, override ≠ [] →
     ComputeOrder (Some topo) override = Ok order ↔
     order = override ∧ NoDup override ∧
     Forall (λ n, n ∈ (mn_Name <$> tp_Masters topo) ++ (en_Name <$> tp_Endpoints topo)) override) ∧
  (∃ eps masters, ComputeOrder (Some topo) [] = Ok (eps.*1 ++ masters) ∧
     eps ≡ₚ ((λ e, (en_Name e, en_Region e)) <$> tp_Endpoints topo) ∧ StronglySorted ep_le eps ∧
     masters ≡ₚ (mn_Name <$> tp_Masters topo) ∧ StronglySorted String.le masters).
Proof.
  split.
  - intros order Hne. unfold ComputeOrder, validateAndReturnOverride.
    rewrite bool_decide_eq_true_2 by (destruct override; [done|simpl; lia]).
    pose proof (override_loop (known_names topo) override 0 ∅) as Hl. unfold fold_res.
    assert (∀ n, n ∈ known_names topo ↔ n ∈ (mn_Name <$> tp_Masters topo) ++ (en_Name <$> tp_Endpoints topo)) as Hk.
    { intros n. unfold known_names. rewrite elem_of_union, !elem_of_list_to_set, elem_of_app. done. }
    rewrite !Forall_forall in *. destruct (fold_res_from _ _ _ _) as [s|e]; cbn [is_ok res_bind] in *.
    + destruct Hl as [Hl _]. destruct (Hl eq_refl) as [Hnd Hf]. split; [|by intros (-> & _)].
      intros [= <-]. split_and!; [done..|]. intros n Hn. apply Hk. by apply Hf.
    + split; [done|]. intros (_ & Hnd & Hf). destruct Hl as [_ Hl]. discriminate Hl. split; [done|].
      intros n Hn. split; [by apply Hk, Hf|set_solver].
  - destruct (default_order_spec topo) as (eps & masters & He & H). exists eps, masters. by rewrite <- He.
Qed.

(** ** The phased plan *)

Definition phase_entry (version : string) (n : NodeV2) : meshUpgradePlanEntry :=
  let phase := node_phase n in
  makeUpgradePlanEntry phase (if phase =? 1 then "masters" else if phase =? 2 then "mesh-roles" else "clients")
    n version (negb (phase =? 1)).

(** By phase, then by name. *)
Definition plan_le (a b : NodeV2) : Prop :=
  node_phase a < node_phase b ∨ (node_phase a = node_phase b ∧ String.le (n2_Name a) (n2_Name b)).

Lemma node_phase_cases n : node_phase n = 1 ∨ node_phase n = 2 ∨ node_phase n = 3.
Proof. unfold node_phase. destruct (hasUpgradeRole n RoleMaster), (hasUpgradeRole n RoleClient); auto. Qed.

Lemma phase_partition (l : list NodeV2) :
  filter (λ n, node_phase n = 1) l ++ filter (λ n, node_phase n = 2) l ++ filter (λ n, node_phase n = 3) l ≡ₚ l.
Proof.
  induction l as [|n l IH]; [done|]. rewrite !filter_cons.
  destruct (node_phase_cases n) as [H|[H|H]]; rewrite !H; repeat case_decide; try lia; cbn [app].
  - by rewrite IH.
  - by rewrite <- Permutation_middle, IH.
  - rewrite app_assoc, <- Permutation_middle. by rewrite <- app_assoc, IH.
Qed.

Lemma phase_filter_sorted k (l : list NodeV2) :
  StronglySorted (key_le n2_Name) l → StronglySorted plan_le (filter (λ n, node_phase n = k) l).
Proof.
  induction 1 as [|n l _ IH Hn]; [constructor|]. rewrite filter_cons. case_decide as Hk; [|done].
  constructor; [done|]. apply Forall_forall. intros m [Hm Hin]%list_elem_of_filter.
  rewrite Forall_forall in Hn. right. split; [congruence|]. by apply Hn.
Qed.

Lemma StronglySorted_app_2 {A} (R : A → A → Prop) l k :
  StronglySorted R l → StronglySorted R k → (∀ x y, x ∈ l → y ∈ k → R x y) → StronglySorted R (l ++ k).
Proof.
  induction 1 as [|x l Hs IH Hx]; intros Hk Hc; [done|]. cbn. constructor.
  - apply IH; [done|]. set_solver.
  - apply Forall_app. split; [done|]. apply Forall_forall. set_solver.
Qed.

Lemma fmap_phase version k f (l : list NodeV2) :
  (∀ n, node_phase n = k → f n = phase_entry version n) →
  f <$> filter (λ n, node_phase n = k) l = phase_entry version <$> filter (λ n, node_phase n = k) l.
Proof.
  intros Hf. apply list_fmap_ext. intros i n Hn. apply Hf.
  by apply list_elem_of_lookup_2, list_elem_of_filter in Hn as [? _].
Qed.

(** Without a manual order the v2 plan holds one entry per node of the topology,
    ordered by phase - masters first and one at a time, then the other mesh roles,
    clients last - and by name within a phase. *)
Theorem mesh_plan_phases sorter topo version :
  SortSliceBy n2_Name sorter →
  ∃ nodes, buildMeshUpgradePlan sorter (Some topo) version [] = Ok (phase_entry version <$> nodes) ∧
    nodes ≡ₚ t2_Nodes topo ∧ StronglySorted plan_le nodes.
Proof.
  intros Hs. set (s := sorter (t2_Nodes topo)).
  exists (filter (λ n, node_phase n = 1) s ++ filter (λ n, node_phase n = 2) s ++ filter (λ n, node_phase n = 3) s).
  split_and!.
  - unfold buildMeshUpgradePlan. cbn [length]. rewrite bool_decide_eq_false_2 by lia. fold s.
    rewrite !fmap_app. f_equal. f_equal; [|f_equal]; apply fmap_phase; intros n Hn;
      unfold phase_entry; by rewrite Hn.
  - rewrite phase_partition. apply slice_by_perm.
  - assert (StronglySorted (key_le n2_Name) s) as Hsort by apply slice_by_sorted.
    repeat apply StronglySorted_app_2; try by apply phase_filter_sorted.
    + intros x y Hx Hy. apply list_elem_of_filter in Hx as [Hx _], Hy as [Hy _]. left. lia.
    + intros x y Hx Hy. apply list_elem_of_filter in Hx as [Hx _]. left.
      apply elem_of_app in Hy as [Hy|Hy]; apply list_elem_of_filter in Hy as [Hy _]; lia.
Qed.

Lemma mesh_plan_phases_witness :
  ∃ plan, buildMeshUpgradePlan (sort_by n2_Name) (Some alias_topology) "v2.1" [] = Ok plan ∧
    me_NodeName <$> plan = ["a"; "b"].
Proof.
  destruct (mesh_plan_phases (sort_by n2_Name) alias_topology "v2.1" _) as (nodes & H & _).
  eexists. split; [exact H|]. apply (f_equal (λ m, match m with Ok p => me_NodeName <$> p | Err _ => [] end)) in H.
  cbv beta iota in H. rewrite <- H. vm_compute. reflexivity.
Defined.

(** Every state the commands persist is blocked, so pausing and resuming are
    refused until an executor exists. *)
Lemma run_state_blocked sorter load version order dryRun state :
  runUpgradeCommand sorter load version order dryRun = RunBlocked state →
  is_ok (runUpgradePauseCommand (Some state)) = false ∧ is_ok (runUpgradeResumeCommand (Some state)) = false.
Proof.
  unfold runUpgradeCommand. cbv zeta. intros H. case_bool_decide; [done|]. destruct load; [|done].
  destruct (res_bind _ _); [|done]. destruct dryRun; [done|]. injection H as <-. done.
Qed.

(** ** Image tags *)

Lemma cut_byte_none c l : c ∉ l → cut_byte c l = None.
Proof.
  induction l as [|a l IH]; intros H; [done|]. apply not_elem_of_cons in H as [H1 H2]. cbn [cut_byte].
  rewrite (bool_decide_eq_false_2 (a = c)) by done. by rewrite IH.
Qed.

Lemma last_index_app c l r : c ∉ r → last_index c (l ++ c :: r) = Z.of_nat (length l).
Proof.
  intros H. unfold last_index, cut_last_byte.
  assert (reverse (l ++ c :: r) = reverse r ++ c :: reverse l) as ->
    by (rewrite reverse_app, reverse_cons, <- app_assoc; done).
  rewrite cut_byte_app by (by rewrite elem_of_reverse). unfold fmap, option_fmap, option_map.
  by rewrite reverse_involutive.
Qed.

Lemma last_occurrence (c : ascii) l : c ∈ l → ∃ a b, l = a ++ c :: b ∧ c ∉ b.
Proof.
  induction l as [|x l IH]; intros Hin; [set_solver|]. destruct (decide (c ∈ l)) as [Hl|Hl].
  - destruct (IH Hl) as (a & b & -> & ?). by exists (x :: a), b.
  - apply elem_of_cons in Hin as [<-|?]; [|done]. by exists [], l.
Qed.

(** Retagging a tagged image replaces the tag: upgrades do not stack tags. *)
Lemma stripImageTag_retag ref version :
  "@"%char ∉ to_bytes ref → "@"%char ∉ to_bytes version → "/"%char ∉ to_bytes version → ":"%char ∉ to_bytes version →
  stripImageTag (ref +:+ ":" +:+ version) = ref.
Proof.
  intros H1 H2 H3 H4. unfold stripImageTag. rewrite !to_bytes_app. change (to_bytes ":") with [":"%char]. cbn [app].
  rewrite cut_byte_none by set_solver. rewrite last_index_app by done.
  assert (last_index "/" (to_bytes ref ++ ":"%char :: to_bytes version) < Z.of_nat (length (to_bytes ref))) as Hlt.
  { unfold last_index, cut_last_byte.
    destruct (decide ("/"%char ∈ to_bytes ref)) as [Hin|Hin].
    - destruct (last_occurrence _ _ Hin) as (a & b & -> & Hb).
      pose proof (last_index_app "/" a (b ++ ":"%char :: to_bytes version)) as Hli.
      unfold last_index, cut_last_byte in Hli. rewrite <- app_assoc. cbn [app].
      rewrite Hli by set_solver. rewrite length_app. simpl. lia.
    - rewrite cut_byte_none; [unfold fmap, option_fmap, option_map; lia|]. rewrite elem_of_reverse. set_solver. }
  rewrite (proj2 (Z.ltb_lt _ _) Hlt), Nat2Z.id, take_app_length. apply of_to_bytes.
Qed.
