(* ===== verification/UpgradeDriver.v ===== *)
(** * The per-node upgrade driver ([src/pkg/upgrade/driver.go], [rollback.go])

    [UpgradeNode] runs prepare, deploy, wait_ready, init and verify over a world of
    files, remote calls and log entries; a failed verification triggers the
    rollback. What the driver calls outside itself is a record of answers [Env]:
    each is indexed by the moment it is asked, so that it may differ between
    attempts. Error texts are kept as what they are formatted from. The injected
    renderer writes its output file itself; here its answer is the text, which is
    written when it succeeds, and a failing renderer leaves the file as it was. *)

From S2P Require Import Prelude GoStrings GoNet GoPath Role.
From S2P Require Import Ranges TopologyV2 Topology UpgradePlan.

(** ** Configuration *)

Record SSHOpts := MkSSHOpts {
  so_Enabled : bool;
  so_User : string;
  so_Port : Z;
  so_KeyPath : string;
  so_AcceptNewHosts : bool
}.

Record PairProbeResult := MkProbe { pp_MasterName : string; pp_EndpointName : string; pp_Reason : string }.

Record UpgradeLogEntry := MkLogEntry {
  ul_Version : string;
  ul_NodeName : string;
  ul_Phase : string;
  ul_Status : string;
  ul_Reason : string
}.

(** Durations are in nanoseconds; the injected functions are in [Env]. *)
Record DriverConfig := MkDriverConfig {
  dv_ConfigDir : string;
  dv_Topology : Topology;
  dv_ProbeTimeout : Z;
  dv_DowntimeBudget : Z;
  dv_DeployWait : Z;
  dv_Version : string;
  dv_Logger : bool;                    (* whether a logger is configured *)
  dv_SSHOpts : SSHOpts;
  dv_RemoteComposeDir : string
}.

Definition NewDriver (cfg : DriverConfig) : DriverConfig :=
  let second := 1000000000 in
  MkDriverConfig (dv_ConfigDir cfg) (dv_Topology cfg)
    (if dv_ProbeTimeout cfg <=? 0 then 5 * second else dv_ProbeTimeout cfg)
    (if dv_DowntimeBudget cfg <=? 0 then 60 * second else dv_DowntimeBudget cfg)
    (if dv_DeployWait cfg <=? 0 then 120 * second else dv_DeployWait cfg)
    (dv_Version cfg) (dv_Logger cfg) (dv_SSHOpts cfg) (dv_RemoteComposeDir cfg).

(** ** The world *)

(** A remote call: the address, the user, the uploaded file if any, the command. *)
Record ssh_call := MkSSH {
  sc_addr : string;
  sc_user : string;
  sc_upload : option (string * string);       (* local path, remote path *)
  sc_cmd : string
}.

Record World := MkWorld {
  wd_files : gmap string string;
  wd_ssh : list ssh_call;
  wd_log : list UpgradeLogEntry;
  wd_tick : nat                        (* questions asked so far *)
}.

(** One poll of [waitReady]. *)
Inductive poll := PollReady | PollNotReady | PollCancelled.

Record Env := MkEnv {
  ev_read_denied : nat → bool;                              (* a read fails although the file exists *)
  ev_write_err : nat → option string;
  ev_render : option (nat → string → string → string → res string string);  (* node, role, image: the text *)
  ev_ssh_deploy : option (nat → ssh_call → option string);
  ev_ssh_upload : option (nat → ssh_call → option string);
  ev_polls : nat → list poll;                               (* the polls before the deadline *)
  ev_connect : nat → option string;                         (* the gRPC client and the CA file *)
  ev_init : nat → EndpointNode → option string;             (* CA key, node certificate, Init RPC *)
  ev_prober : option (nat → list PairProbeResult);
  ev_reconcile : option (nat → option string)
}.

Inductive driver_error :=
  | EPhase (node phase : string) (e : driver_error)
  | EVerifyRolledBack (node : string) (e : driver_error)
  | EVerifyRollbackFailed (node : string) (e rb : driver_error)
  | ESnapshot (path err : string)
  | ERenderNotConfigured
  | ERender (err : string)
  | ESSHNotConfigured
  | EImageRef (ref : string)
  | ENoHost (node : string)
  | ESSH (err : string)
  | ENoGRPCAddr (node : string)
  | ENoToken (node : string)
  | ENotReady (node : string)
  | ECancelled
  | EEndpointMissing (node : string)
  | EInit (err : string)
  | EVerify (node : string) (broken : list PairProbeResult)
  | EReadBackup (path : string)
  | ERestore (path err : string)
  | EReconcile (err : string).

Definition DW (A : Type) : Type := World → A * World.
Definition dret {A} (a : A) : DW A := λ w, (a, w).
Definition dbind {A B} (m : DW A) (k : A → DW B) : DW B := λ w, let '(a, w) := m w in k a w.
Definition dfail {A} (e : driver_error) : DW (res driver_error A) := dret (Err e).
(** Sequencing that stops at an error. *)
Definition dtry {A B} (m : DW (res driver_error A)) (k : A → DW (res driver_error B)) : DW (res driver_error B) :=
  dbind m (λ r, match r with Ok a => k a | Err e => dret (Err e) end).
Notation "'let^' x := m 'in' k" := (dbind m (λ x, k))
  (at level 10, x pattern, m at level 100, k at level 200).
Notation "'try^' x := m 'in' k" := (dtry m (λ x, k))
  (at level 10, x pattern, m at level 100, k at level 200).

Definition tick : DW nat := λ w, (wd_tick w, MkWorld (wd_files w) (wd_ssh w) (wd_log w) (S (wd_tick w))).
Definition put_file (p text : string) : DW () := λ w,
  ((), MkWorld (<[p := text]> (wd_files w)) (wd_ssh w) (wd_log w) (wd_tick w)).
Definition get_file (p : string) : DW (option string) := λ w, (wd_files w !! p, w).
Definition put_ssh (c : ssh_call) : DW () := λ w,
  ((), MkWorld (wd_files w) (wd_ssh w ++ [c]) (wd_log w) (wd_tick w)).

(** ** Paths and names *)

Definition nodeDir (configDir name : string) : string := path_Join [configDir; "nodes"; name].
Definition caPath (configDir : string) : string := path_Join [configDir; "ca.crt"].
Definition backupComposePath (cfg : DriverConfig) (name : string) : string :=
  path_Join [nodeDir (dv_ConfigDir cfg) name; name +:+ "-docker-compose.yml.bak"].
Definition liveComposePath (cfg : DriverConfig) (name : string) : string :=
  path_Join [nodeDir (dv_ConfigDir cfg) name; name +:+ "-docker-compose.yml"].
Definition DefaultRemoteComposeDir : string := "/etc/docker/compose".
Definition remoteComposePath (remoteDir name : string) : string :=
  path_Join [if bool_decide (remoteDir = "") then DefaultRemoteComposeDir else remoteDir;
             name +:+ "-docker-compose.yml"].
Definition remoteBackupComposePath (remoteDir name : string) : string :=
  path_Join [if bool_decide (remoteDir = "") then DefaultRemoteComposeDir else remoteDir;
             name +:+ "-docker-compose.yml.bak"].

Definition grpcAddrFor (cfg : DriverConfig) (step : NodeUpgradeStep) : string :=
  match FindMaster (dv_Topology cfg) (st_Name step) with
  | Some m => master_GRPCAddr m
  | None => match FindEndpoint (dv_Topology cfg) (st_Name step) with
            | Some e => endpoint_GRPCAddr e
            | None => ""
            end
  end.

(** The host both SSH paths look up. *)
Definition node_host (cfg : DriverConfig) (name : string) : string :=
  match FindMaster (dv_Topology cfg) name with
  | Some m => mn_Host m
  | None => match FindEndpoint (dv_Topology cfg) name with Some e => en_Host e | None => "" end
  end.

(** The reference is scanned by rune; every accepted rune is one ASCII byte. *)
Definition isImageRefChar (r : ascii) : bool :=
  is_lower r || is_upper r || is_digit r || bool_decide (r = "."%char) || bool_decide (r = "-"%char) ||
  bool_decide (r = "_"%char) || bool_decide (r = "/"%char) || bool_decide (r = ":"%char) || bool_decide (r = "@"%char).
Definition validateImageRef (ref : string) : bool :=
  negb (bool_decide (ref = "")) && forallb isImageRefChar (to_bytes ref).

Definition quote : ascii := chr 39.
Definition backslash : ascii := chr 92.
(** [strings.ReplaceAll(s, "'", `'\''`)] *)
Definition escape_quotes (l : list ascii) : list ascii :=
  mjoin ((λ c, if bool_decide (c = quote) then [quote; backslash; quote; quote] else [c]) <$> l).
Definition shellQuote (s : string) : string :=
  of_bytes ([quote] ++ escape_quotes (to_bytes s) ++ [quote]).

Section driver.
Context (env : Env) (cfg : DriverConfig).

(** [os.ReadFile]: the outer [None] is an error other than "not found". *)
Definition ReadFile (p : string) : DW (option (option string)) :=
  let^ t := tick in
  let^ f := get_file p in
  dret (match f with
        | None => Some None
        | Some text => if ev_read_denied env t then None else Some (Some text)
        end).
Definition WriteFile (p text : string) : DW (option string) :=
  let^ t := tick in
  match ev_write_err env t with
  | Some e => dret (Some e)
  | None => let^ _ := put_file p text in dret None
  end.

(** A missing logger and a failed write are both ignored by the callers. *)
Definition appendLog (step : NodeUpgradeStep) (phase status reason : string) : DW () := λ w,
  ((), if dv_Logger cfg
       then MkWorld (wd_files w) (wd_ssh w)
              (wd_log w ++ [MkLogEntry (dv_Version cfg) (st_Name step) phase status reason]) (wd_tick w)
       else w).

(** [text] formats an error for the log. *)
Context (text : driver_error → string).

Definition phaseWithLog (step : NodeUpgradeStep) (phase : string) (fn : DW (res driver_error ()))
    : DW (res driver_error ()) :=
  let^ _ := appendLog step phase "running" "" in
  let^ r := fn in
  let^ _ := (match r with
             | Err e => appendLog step phase "failed" (text e)
             | Ok _ => appendLog step phase "ok" ""
             end) in
  dret r.

Definition phasePrepare (step : NodeUpgradeStep) : DW (res driver_error ()) :=
  let currentCompose := liveComposePath cfg (st_Name step) in
  let backupCompose := backupComposePath cfg (st_Name step) in
  let upgradeCompose := liveComposePath cfg (st_Name step) in
  let^ existing := ReadFile currentCompose in
  try^ _ := (match existing with
             | Some (Some old) =>
                 let^ e := WriteFile backupCompose old in
                 dret (match e with Some err => Err (ESnapshot backupCompose err) | None => Ok () end)
             | _ => dret (Ok ())
             end) in
  match ev_render env with
  | None => dfail ERenderNotConfigured
  | Some render =>
      let^ t := tick in
      match render t (st_Name step) (st_Role step) (st_NewImage step) with
      | Err err => dfail (ERender err)
      | Ok newCompose => let^ _ := put_file upgradeCompose newCompose in dret (Ok ())
      end
  end.

(** One call of the injected uploader or deployer. *)
Definition ssh_run (f : nat → ssh_call → option string) (c : ssh_call) : DW (res driver_error ()) :=
  let^ t := tick in
  let^ _ := put_ssh c in
  dret (match f t c with Some err => Err (ESSH err) | None => Ok () end).

Definition ssh_addr (host : string) : string :=
  host +:+ ":" +:+ Itoa (if so_Port (dv_SSHOpts cfg) =? 0 then 22 else so_Port (dv_SSHOpts cfg)).
Definition ssh_user : string :=
  if bool_decide (so_User (dv_SSHOpts cfg) = "") then "root" else so_User (dv_SSHOpts cfg).

Definition sshDeploy (step : NodeUpgradeStep) (composePath : string) : DW (res driver_error ()) :=
  match ev_ssh_deploy env, ev_ssh_upload env with
  | None, None => dfail ESSHNotConfigured
  | deploy, upload =>
      if negb (validateImageRef (st_NewImage step)) then dfail (EImageRef (st_NewImage step)) else
      let host := node_host cfg (st_Name step) in
      if bool_decide (host = "") then dfail (ENoHost (st_Name step)) else
      let rPath := remoteComposePath (dv_RemoteComposeDir cfg) (st_Name step) in
      let remoteCmd :=
        "docker image rm " +:+ shellQuote (st_NewImage step) +:+ " 2>/dev/null || true" +:+
        " && docker pull " +:+ shellQuote (st_NewImage step) +:+
        " && docker compose -f " +:+ shellQuote rPath +:+ " up -d" in
      match upload, deploy with
      | Some f, _ => ssh_run f (MkSSH (ssh_addr host) ssh_user (Some (composePath, rPath)) remoteCmd)
      | None, Some f => ssh_run f (MkSSH (ssh_addr host) ssh_user None remoteCmd)
      | None, None => dfail ESSHNotConfigured
      end
  end.

Definition phaseDeploy (step : NodeUpgradeStep) (composePath : string) : DW (res driver_error ()) :=
  if so_Enabled (dv_SSHOpts cfg) then sshDeploy step composePath else dret (Ok ()).

Definition loadToken (nd : string) : DW (option string) :=
  let^ data := ReadFile (nd +:+ "/token") in
  dret (match data with Some (Some t) => Some (TrimSpace t) | _ => None end).

Fixpoint poll_loop (name : string) (polls : list poll) : res driver_error () :=
  match polls with
  | [] => Err (ENotReady name)
  | PollCancelled :: _ => Err ECancelled
  | PollReady :: _ => Ok ()
  | PollNotReady :: polls => poll_loop name polls
  end.

Definition waitReady (step : NodeUpgradeStep) : DW (res driver_error ()) :=
  if bool_decide (grpcAddrFor cfg step = "") then dfail (ENoGRPCAddr (st_Name step)) else
  let^ token := loadToken (nodeDir (dv_ConfigDir cfg) (st_Name step)) in
  match token with
  | None => dfail (ENoToken (st_Name step))
  | Some _ => let^ t := tick in dret (poll_loop (st_Name step) (ev_polls env t))
  end.

Definition phaseInit (step : NodeUpgradeStep) : DW (res driver_error ()) :=
  if bool_decide (st_Role step ≠ "endpoint") then dret (Ok ()) else
  if bool_decide (grpcAddrFor cfg step = "") then dfail (ENoGRPCAddr (st_Name step)) else
  let^ token := loadToken (nodeDir (dv_ConfigDir cfg) (st_Name step)) in
  match token with
  | None => dfail (ENoToken (st_Name step))
  | Some _ =>
      let^ t := tick in
      match ev_connect env t with
      | Some err => dfail (EInit err)
      | None =>
          match FindEndpoint (dv_Topology cfg) (st_Name step) with
          | None => dfail (EEndpointMissing (st_Name step))
          | Some ep =>
              let^ t := tick in
              dret (match ev_init env t ep with Some err => Err (EInit err) | None => Ok () end)
          end
      end
  end.

Definition verifyMaxAttempts : nat := 3.
Definition broken_pairs (name : string) (results : list PairProbeResult) : list PairProbeResult :=
  filter (λ r, pp_Reason r ≠ "" ∧ (pp_MasterName r = name ∨ pp_EndpointName r = name)) results.
Fixpoint verify_loop (prober : nat → list PairProbeResult) (name : string) (attempts : nat)
    (lastErr : res driver_error ()) : DW (res driver_error ()) :=
  match attempts with
  | O => dret lastErr
  | S attempts =>
      let^ t := tick in
      let broken := broken_pairs name (prober t) in
      if bool_decide (length broken = 0%nat) then dret (Ok ())
      else verify_loop prober name attempts (Err (EVerify name broken))
  end.
Definition phaseVerify (step : NodeUpgradeStep) : DW (res driver_error ()) :=
  match ev_prober env with
  | None => dret (Ok ())
  | Some prober => verify_loop prober (st_Name step) verifyMaxAttempts (Ok ())
  end.

(** ** rollback.go *)

Definition sshRollback (step : NodeUpgradeStep) (composePath : string) : DW (res driver_error ()) :=
  match ev_ssh_deploy env with
  | None => dfail ESSHNotConfigured
  | Some deploy =>
      let host := node_host cfg (st_Name step) in
      if bool_decide (host = "") then dfail (ENoHost (st_Name step)) else
      let rPath := remoteBackupComposePath (dv_RemoteComposeDir cfg) (st_Name step) in
      let remoteCmd := "docker compose -f " +:+ shellQuote rPath +:+ " up -d" in
      match ev_ssh_upload env with
      | Some f => ssh_run f (MkSSH (ssh_addr host) ssh_user (Some (composePath, rPath)) remoteCmd)
      | None => ssh_run deploy (MkSSH (ssh_addr host) ssh_user None remoteCmd)
      end
  end.

Definition rollbackNode (step : NodeUpgradeStep) : DW (res driver_error ()) :=
  let backupPath := backupComposePath cfg (st_Name step) in
  let livePath := liveComposePath cfg (st_Name step) in
  let^ backup := ReadFile backupPath in
  try^ _ := (match backup with
             | None => dfail (EReadBackup backupPath)
             | Some None => dret (Ok ())              (* a warning, and on *)
             | Some (Some old) =>
                 let^ e := WriteFile livePath old in
                 dret (match e with Some err => Err (ERestore livePath err) | None => Ok () end)
             end) in
  try^ _ := (if so_Enabled (dv_SSHOpts cfg) then sshRollback step livePath else dret (Ok ())) in
  try^ _ := waitReady step in
  match ev_reconcile env with
  | None => dret (Ok ())
  | Some f =>
      let^ t := tick in
      dret (match f t with Some err => Err (EReconcile err) | None => Ok () end)
  end.

(** ** UpgradeNode *)

(** A phase before verify: its failure ends the upgrade. *)
Definition run_phase (step : NodeUpgradeStep) (phase : string) (fn : DW (res driver_error ()))
    (k : DW (res driver_error () * UpgradeStepStatus)) : DW (res driver_error () * UpgradeStepStatus) :=
  let^ r := phaseWithLog step phase fn in
  match r with
  | Err e => dret (Err (EPhase (st_Name step) phase e), StatusFailed)
  | Ok _ => k
  end.

Definition verify_or_rollback (step : NodeUpgradeStep) : DW (res driver_error () * UpgradeStepStatus) :=
  let^ r := phaseWithLog step "verify" (phaseVerify step) in
  match r with
  | Ok _ => dret (Ok (), StatusDone)
  | Err verifyErr =>
      let^ _ := appendLog step "rollback" "running" "" in
      let^ rb := rollbackNode step in
      match rb with
      | Err rbErr =>
          let^ _ := appendLog step "rollback" "failed" (text rbErr) in
          dret (Err (EVerifyRollbackFailed (st_Name step) verifyErr rbErr), StatusFailed)
      | Ok _ =>
          let^ _ := appendLog step "rollback" "ok" "" in
          dret (Err (EVerifyRolledBack (st_Name step) verifyErr), StatusRolledBack)
      end
  end.

(** The error, if any, and the status the step ends with. *)
Definition UpgradeNode (step : NodeUpgradeStep) : DW (res driver_error () * UpgradeStepStatus) :=
  let composePath := liveComposePath cfg (st_Name step) in
  run_phase step "prepare" (phasePrepare step)
    (run_phase step "deploy" (phaseDeploy step composePath)
      (run_phase step "wait_ready" (waitReady step)
        (run_phase step "init" (phaseInit step)
          (verify_or_rollback step)))).
End driver.

(** ** The two compose files of a node are different files *)

Lemma live_backup_differ cfg name : liveComposePath cfg name ≠ backupComposePath cfg name.
Proof.
  intros H. unfold liveComposePath, backupComposePath in H. apply (f_equal to_bytes) in H.
  destruct (path_Join_suffix (nodeDir (dv_ConfigDir cfg) name) name "-docker-compose.yml") as [q Hq];
    [by apply (bool_decide_unpack _); vm_compute|vm_compute; lia|].
  destruct (path_Join_suffix (nodeDir (dv_ConfigDir cfg) name) name "-docker-compose.yml.bak") as [q' Hq'];
    [by apply (bool_decide_unpack _); vm_compute|vm_compute; lia|].
  rewrite Hq, Hq' in H. apply (f_equal last) in H.
  change (to_bytes "-docker-compose.yml") with (to_bytes "-docker-compose.ym" ++ ["l"%char]) in H.
  change (to_bytes "-docker-compose.yml.bak") with (to_bytes "-docker-compose.yml.ba" ++ ["k"%char]) in H.
  rewrite !app_assoc, !last_snoc in H. discriminate H.
Qed.

(** ** Quoting for the remote shell *)

(** How a POSIX shell reads one word made of quoted text, escapes and plain
    characters; [None] is an unterminated quote or a character with a meaning of
    its own. The result is the word and what follows it. *)
Definition sh_plain (c : ascii) : bool := isImageRefChar c || bool_decide (c = ","%char) || bool_decide (c = "+"%char).
Definition word_cons (c : ascii) (r : option (list ascii * list ascii)) : option (list ascii * list ascii) :=
  '(word, rest) ← r; Some (c :: word, rest).
Fixpoint sh_read (quoted : bool) (l : list ascii) : option (list ascii * list ascii) :=
  match l with
  | [] => if quoted then None else Some ([], [])
  | c :: l' =>
      if quoted then (if bool_decide (c = quote) then sh_read false l' else word_cons c (sh_read true l'))
      else if bool_decide (c = quote) then sh_read true l'
      else if bool_decide (c = backslash) then
        match l' with
        | [] => None
        | d :: l' => word_cons d (sh_read false l')
        end
      else if bool_decide (c = " "%char) then Some ([], l)
      else if sh_plain c then word_cons c (sh_read false l') else None
  end.
Definition word_app (p : list ascii) (r : option (list ascii * list ascii)) : option (list ascii * list ascii) :=
  '(word, rest) ← r; Some (p ++ word, rest).

Lemma word_cons_app c p r : word_cons c (word_app p r) = word_app (c :: p) r.
Proof. by destruct r as [[]|]. Qed.

Lemma sh_read_escaped l rest : sh_read true (escape_quotes l ++ quote :: rest) = word_app l (sh_read false rest).
Proof.
  induction l as [|c l IH].
  - change (escape_quotes [] ++ quote :: rest) with (quote :: rest). cbn [sh_read].
    rewrite bool_decide_eq_true_2 by done. by destruct (sh_read false rest) as [[]|].
  - rewrite <- word_cons_app, <- IH. unfold escape_quotes. cbn [fmap list_fmap mjoin list_join].
    fold (escape_quotes l). rewrite <- app_assoc.
    destruct (decide (c = quote)) as [->|Hc].
    + rewrite (bool_decide_eq_true_2 (quote = quote)) by done. reflexivity.
    + rewrite (bool_decide_eq_false_2 (c = quote)) by done. cbn [app sh_read].
      by rewrite (bool_decide_eq_false_2 (c = quote)).
Qed.

(** Quoting is safe: whatever bytes a node name, a path or an image reference
    holds, the shell reads [shellQuote s] as exactly the text [s] and continues
    with what follows; nothing in it is interpreted. *)
Theorem shellQuote_safe s rest :
  sh_read false (to_bytes (shellQuote s) ++ rest) = word_app (to_bytes s) (sh_read false rest).
Proof.
  unfold shellQuote. rewrite to_of_bytes, <- !app_assoc. cbn [app sh_read].
  rewrite (bool_decide_eq_true_2 (quote = quote)) by done. apply sh_read_escaped.
Qed.

(** ** Frames: what a computation leaves alone *)

Definition keeps {A B} (f : World → B) (m : DW A) : Prop := ∀ w, f (m w).2 = f w.

Lemma dkeeps_ret {A B} (f : World → B) (a : A) : keeps f (dret a).
Proof. done. Qed.
Lemma dkeeps_bind {A B C} (f : World → C) (m : DW A) (k : A → DW B) :
  keeps f m → (∀ a, keeps f (k a)) → keeps f (dbind m k).
Proof.
  intros Hm Hk w. unfold dbind. specialize (Hm w). destruct (m w) as [a w']. rewrite Hk. apply Hm.
Qed.
Lemma keeps_try {A B C} (f : World → C) (m : DW (res driver_error A)) (k : A → DW (res driver_error B)) :
  keeps f m → (∀ a, keeps f (k a)) → keeps f (dtry m k).
Proof. intros Hm Hk. apply dkeeps_bind; [done|]. intros [a|e]; [apply Hk|apply dkeeps_ret]. Qed.
Lemma keeps_tick {B} (f : World → B) :
  (∀ fs ss l t, f (MkWorld fs ss l (S t)) = f (MkWorld fs ss l t)) → keeps f tick.
Proof. intros Hf []. apply Hf. Qed.
Lemma keeps_get {B} (f : World → B) p : keeps f (get_file p).
Proof. done. Qed.
Lemma keeps_log_put p text : keeps wd_log (put_file p text).
Proof. done. Qed.
Lemma keeps_log_ssh c : keeps wd_log (put_ssh c).
Proof. done. Qed.
Lemma keeps_files_ssh c : keeps wd_files (put_ssh c).
Proof. done. Qed.
Lemma keeps_files_log cfg step phase st reason : keeps wd_files (appendLog cfg step phase st reason).
Proof. intros w. unfold appendLog. by destruct (dv_Logger cfg). Qed.

Create HintDb frame.
#[export] Hint Resolve dkeeps_ret keeps_get keeps_log_put keeps_log_ssh keeps_files_ssh keeps_files_log : frame.
#[export] Hint Extern 1 (keeps _ tick) => apply keeps_tick; done : frame.
(** Follow the structure of a computation. *)
Ltac frame :=
  repeat first
    [ progress eauto with frame
    | apply dkeeps_bind; [|intros ?]
    | apply keeps_try; [|intros ?]
    | match goal with |- keeps _ (match ?x with _ => _ end) => destruct x end
    | match goal with |- keeps _ (if ?x then _ else _) => destruct x end ].

Section frames.
Context (env : Env) (cfg : DriverConfig).

Lemma ReadFile_keeps {B} (f : World → B) p :
  (∀ fs ss l t, f (MkWorld fs ss l (S t)) = f (MkWorld fs ss l t)) → keeps f (ReadFile env p).
Proof. intros Hf. unfold ReadFile. apply dkeeps_bind; [by apply keeps_tick|]. intros t. by frame. Qed.
Lemma WriteFile_log p text : keeps wd_log (WriteFile env p text).
Proof. unfold WriteFile. frame. Qed.
Lemma ssh_run_log f c : keeps wd_log (ssh_run f c).
Proof. unfold ssh_run. frame. Qed.
Lemma ssh_run_files f c : keeps wd_files (ssh_run f c).
Proof. unfold ssh_run. frame. Qed.
Hint Resolve WriteFile_log ssh_run_log ssh_run_files : frame.
Hint Extern 1 (keeps _ (ReadFile _ _)) => apply ReadFile_keeps; done : frame.

Lemma loadToken_log nd : keeps wd_log (loadToken env nd).
Proof. unfold loadToken. frame. Qed.
Lemma loadToken_files nd : keeps wd_files (loadToken env nd).
Proof. unfold loadToken. frame. Qed.
Hint Resolve loadToken_log loadToken_files : frame.

Lemma waitReady_log step : keeps wd_log (waitReady env cfg step).
Proof. unfold waitReady, dfail. frame. Qed.
Lemma waitReady_files step : keeps wd_files (waitReady env cfg step).
Proof. unfold waitReady, dfail. frame. Qed.
Hint Resolve waitReady_log waitReady_files : frame.

Lemma phasePrepare_log step : keeps wd_log (phasePrepare env cfg step).
Proof. unfold phasePrepare, dfail. frame. Qed.
Lemma phaseDeploy_log step p : keeps wd_log (phaseDeploy env cfg step p).
Proof. unfold phaseDeploy, sshDeploy, dfail. frame. Qed.
Lemma phaseDeploy_files step p : keeps wd_files (phaseDeploy env cfg step p).
Proof. unfold phaseDeploy, sshDeploy, dfail. frame. Qed.
Lemma phaseInit_log step : keeps wd_log (phaseInit env cfg step).
Proof. unfold phaseInit, dfail. frame. Qed.
Lemma phaseInit_files step : keeps wd_files (phaseInit env cfg step).
Proof. unfold phaseInit, dfail. frame. Qed.

Lemma verify_loop_log prober name n : ∀ e, keeps wd_log (verify_loop prober name n e).
Proof. induction n as [|n IH]; intros e; cbn [verify_loop]; frame. Qed.
Lemma verify_loop_files prober name n : ∀ e, keeps wd_files (verify_loop prober name n e).
Proof. induction n as [|n IH]; intros e; cbn [verify_loop]; frame. Qed.
Hint Resolve verify_loop_log verify_loop_files : frame.
Lemma phaseVerify_log step : keeps wd_log (phaseVerify env step).
Proof. unfold phaseVerify. frame. Qed.
Lemma phaseVerify_files step : keeps wd_files (phaseVerify env step).
Proof. unfold phaseVerify. frame. Qed.

Lemma sshRollback_log step p : keeps wd_log (sshRollback env cfg step p).
Proof. unfold sshRollback, dfail. frame. Qed.
Lemma sshRollback_files step p : keeps wd_files (sshRollback env cfg step p).
Proof. unfold sshRollback, dfail. frame. Qed.
Hint Resolve sshRollback_log sshRollback_files : frame.
Lemma rollbackNode_log step : keeps wd_log (rollbackNode env cfg step).
Proof. unfold rollbackNode, dfail. frame. Qed.
End frames.
#[export] Hint Resolve phasePrepare_log phaseDeploy_log phaseDeploy_files waitReady_log waitReady_files phaseInit_log
  phaseInit_files phaseVerify_log phaseVerify_files sshRollback_files rollbackNode_log : frame.

(** ** What one upgrade does *)

Definition phases : list string := ["prepare"; "deploy"; "wait_ready"; "init"; "verify"].
(** The log of an upgrade in which the first [k] phases succeed and, unless all
    five do, the next one fails; [rb] tells how the rollback ended, if it ran. *)
Definition trace (k : nat) (rb : option bool) : list (string * string) :=
  mjoin ((λ p, [(p, "running"); (p, "ok")]) <$> take k phases) ++
  (match phases !! k with Some p => [(p, "running"); (p, "failed")] | None => [] end) ++
  (match rb with
   | None => []
   | Some ok => [("rollback", "running"); ("rollback", if ok : bool then "ok" else "failed")]
   end).
Definition events (w : World) : list (string * string) := (λ e, (ul_Phase e, ul_Status e)) <$> wd_log w.

Section upgrade.
Context (env : Env) (cfg : DriverConfig) (text : driver_error → string) (step : NodeUpgradeStep).
Notation live := (liveComposePath cfg (st_Name step)).
Notation backup := (backupComposePath cfg (st_Name step)).

Lemma events_keeps {A} (m : DW A) w : keeps wd_log m → events (m w).2 = events w.
Proof. intros Hm. unfold events. by rewrite Hm. Qed.

Section logged.
Hypothesis Hlog : dv_Logger cfg = true.

Lemma appendLog_events phase st reason w :
  events (appendLog cfg step phase st reason w).2 = events w ++ [(phase, st)].
Proof. unfold appendLog, events. rewrite Hlog. simpl. by rewrite fmap_app. Qed.

Lemma phaseWithLog_events phase fn w :
  keeps wd_log fn →
  let '(r, w') := phaseWithLog cfg text step phase fn w in
  events w' = events w ++ [(phase, "running"); (phase, if is_ok r then "ok" else "failed")].
Proof.
  intros Hf. unfold phaseWithLog, dbind. pose proof (appendLog_events phase "running" "" w) as H0.
  destruct (appendLog cfg step phase "running" "" w) as [[] w0]. pose proof (events_keeps fn w0 Hf) as H1.
  destruct (fn w0) as [[a|e] w1]; cbn [snd fst dret] in *.
  - pose proof (appendLog_events phase "ok" "" w1) as H2. destruct (appendLog _ _ _ _ _ w1) as [[] w2].
    cbn in *. rewrite H2, H1, H0, <- app_assoc. done.
  - pose proof (appendLog_events phase "failed" (text e) w1) as H2. destruct (appendLog _ _ _ _ _ w1) as [[] w2].
    cbn in *. rewrite H2, H1, H0, <- app_assoc. done.
Qed.

(** A phase either ends the upgrade, or the rest runs in the world it leaves. *)
Lemma run_phase_events phase fn k w :
  keeps wd_log fn →
  (∃ e w1, run_phase cfg text step phase fn k w = ((Err e, StatusFailed), w1) ∧
     events w1 = events w ++ [(phase, "running"); (phase, "failed")]) ∨
  (∃ w1, run_phase cfg text step phase fn k w = k w1 ∧
     events w1 = events w ++ [(phase, "running"); (phase, "ok")]).
Proof.
  intros Hf. unfold run_phase, dbind. pose proof (phaseWithLog_events phase fn w Hf) as H.
  destruct (phaseWithLog cfg text step phase fn w) as [[a|e] w1]; cbn [is_ok] in H.
  - right. eauto.
  - left. eexists _, w1. split; [reflexivity|done].
Qed.

Lemma verify_events w :
  let '((r, st), w') := verify_or_rollback env cfg text step w in
  (r = Ok () ∧ st = StatusDone ∧ events w' = events w ++ [("verify", "running"); ("verify", "ok")]) ∨
  (∃ e ok, r = Err e ∧ st = (if ok : bool then StatusRolledBack else StatusFailed) ∧
     events w' = events w ++ [("verify", "running"); ("verify", "failed"); ("rollback", "running");
                              ("rollback", if ok then "ok" else "failed")]).
Proof.
  unfold verify_or_rollback, dbind at 1.
  pose proof (phaseWithLog_events "verify" (phaseVerify env step) w ltac:(auto with frame)) as H.
  destruct (phaseWithLog cfg text step "verify" _ w) as [[[]|e] w1]; cbn [is_ok] in H; [by left|].
  unfold dbind at 1. pose proof (appendLog_events "rollback" "running" "" w1) as H1.
  destruct (appendLog cfg step "rollback" "running" "" w1) as [[] w2]. cbn [snd] in H1.
  unfold dbind at 1. pose proof (events_keeps (rollbackNode env cfg step) w2 ltac:(auto with frame)) as H2.
  destruct (rollbackNode env cfg step w2) as [[a|rb] w3]; cbn [snd] in H2; unfold dbind.
  - pose proof (appendLog_events "rollback" "ok" "" w3) as H3.
    destruct (appendLog _ _ _ _ _ w3) as [[] w4]. cbn in *. right. exists (EVerifyRolledBack (st_Name step) e), true.
    rewrite H3, H2, H1, H, <- !app_assoc. done.
  - pose proof (appendLog_events "rollback" "failed" (text rb) w3) as H3.
    destruct (appendLog _ _ _ _ _ w3) as [[] w4]. cbn in *. right.
    exists (EVerifyRollbackFailed (st_Name step) e rb), false. rewrite H3, H2, H1, H, <- !app_assoc. done.
Qed.

Lemma upgrade_events w :
  let '((r, st), w') := UpgradeNode env cfg text step w in
  ∃ k rb, events w' = events w ++ trace k rb ∧
    match st with
    | StatusDone => r = Ok () ∧ k = 5%nat ∧ rb = None
    | StatusRolledBack => is_ok r = false ∧ k = 4%nat ∧ rb = Some true
    | StatusFailed => is_ok r = false ∧ ((k < 4)%nat ∧ rb = None ∨ k = 4%nat ∧ rb = Some false)
    | _ => False
    end.
Proof.
  unfold UpgradeNode.
  match goal with |- context [run_phase cfg text step "prepare" ?f ?k w] =>
    destruct (run_phase_events "prepare" f k w ltac:(auto with frame)) as [(e & w1 & -> & H1)|(w1 & -> & H1)] end.
  { exists 0%nat, None. split; [done|]. split; [done|left; split; [lia|done]]. }
  match goal with |- context [run_phase cfg text step "deploy" ?f ?k w1] =>
    destruct (run_phase_events "deploy" f k w1 ltac:(auto with frame)) as [(e & w2 & -> & H2)|(w2 & -> & H2)] end.
  { exists 1%nat, None. rewrite H2, H1, <- app_assoc. split; [done|]. split; [done|left; split; [lia|done]]. }
  match goal with |- context [run_phase cfg text step "wait_ready" ?f ?k w2] =>
    destruct (run_phase_events "wait_ready" f k w2 ltac:(auto with frame)) as [(e & w3 & -> & H3)|(w3 & -> & H3)] end.
  { exists 2%nat, None. rewrite H3, H2, H1, <- !app_assoc. split; [done|]. split; [done|left; split; [lia|done]]. }
  match goal with |- context [run_phase cfg text step "init" ?f ?k w3] =>
    destruct (run_phase_events "init" f k w3 ltac:(auto with frame)) as [(e & w4 & -> & H4)|(w4 & -> & H4)] end.
  { exists 3%nat, None. rewrite H4, H3, H2, H1, <- !app_assoc. split; [done|]. split; [done|left; split; [lia|done]]. }
  pose proof (verify_events w4) as H5.
  destruct (verify_or_rollback env cfg text step w4) as [[r st] w5]. rewrite H4, H3, H2, H1, <- !app_assoc in H5.
  destruct H5 as [(-> & -> & H5)|(e & ok & -> & -> & H5)].
  - exists 5%nat, None. done.
  - exists 4%nat, (Some ok). rewrite H5, <- !app_assoc. destruct ok; (split; [reflexivity|]); [done|]. split; [done|by right].
Qed.
End logged.

(** ** The compose files *)

Section files.
Hypothesis Hread : ∀ t, ev_read_denied env t = false.

Lemma ReadFile_live p w : (ReadFile env p w).1 = Some (wd_files w !! p).
Proof. unfold ReadFile, dbind, tick, get_file, dret. simpl. rewrite Hread. by destruct (wd_files w !! p). Qed.

(** A file that was written holds the new text; the others are kept. *)
Lemma WriteFile_ok p s w w' :
  WriteFile env p s w = (None, w') → wd_files w' = <[p := s]> (wd_files w).
Proof. unfold WriteFile, dbind, tick, put_file, dret. destruct (ev_write_err env (wd_tick w)); [done|]. by intros [= <-]. Qed.

(** After prepare the backup holds the old file and the live one the rendered text. *)
Lemma phasePrepare_ok w w' old :
  wd_files w !! live = Some old → phasePrepare env cfg step w = (Ok (), w') →
  wd_files w' !! backup = Some old ∧
  ∃ render t new, ev_render env = Some render ∧
    render t (st_Name step) (st_Role step) (st_NewImage step) = Ok new ∧ wd_files w' !! live = Some new.
Proof.
  intros Hold H. unfold phasePrepare, dbind at 1 in H.
  pose proof (ReadFile_live live w) as Hr.
  pose proof (ReadFile_keeps env wd_files live (λ _ _ _ _, eq_refl) w) as Hk.
  destruct (ReadFile env live w) as [existing w1]. cbn [fst snd] in *. rewrite Hold in Hr. subst existing.
  unfold dtry, dbind at 1 2 in H. destruct (WriteFile env backup old w1) as [[err|] w2] eqn:Hw; [done|].
  apply WriteFile_ok in Hw. cbn [dret] in H. rewrite Hk in Hw.
  destruct (ev_render env) as [render|]; [|done]. unfold dbind, tick in H. cbn in H.
  destruct (render _ _ _ _) as [new|err] eqn:Hren; [|done]. unfold put_file, dret in H. injection H as <-.
  cbn [wd_files]. rewrite Hw. split.
  - rewrite lookup_insert_ne by apply live_backup_differ. by rewrite lookup_insert_eq.
  - eexists render, _, new. split_and!; [done|exact Hren|]. by rewrite lookup_insert_eq.
Qed.

Lemma rollbackNode_ok w w' old :
  wd_files w !! backup = Some old → rollbackNode env cfg step w = (Ok (), w') →
  wd_files w' !! live = Some old.
Proof.
  intros Hold H. unfold rollbackNode, dbind at 1 in H.
  pose proof (ReadFile_live backup w) as Hr. destruct (ReadFile env backup w) as [b w1]. cbn [fst] in Hr.
  rewrite Hold in Hr. subst b. unfold dtry in H at 1. unfold dbind at 1 2 in H.
  destruct (WriteFile env live old w1) as [[err|] w2] eqn:Hw; [done|]. apply WriteFile_ok in Hw. cbn [dret] in H.
  match type of H with ?m w2 = _ => assert (keeps wd_files m) as Hk by frame end.
  specialize (Hk w2). rewrite H in Hk. cbn [snd] in Hk. by rewrite Hk, Hw, lookup_insert_eq.
Qed.

Lemma phaseWithLog_files phase fn w :
  let '(r, w') := phaseWithLog cfg text step phase fn w in
  ∃ w0 w1, fn w0 = (r, w1) ∧ wd_files w0 = wd_files w ∧ wd_files w' = wd_files w1.
Proof.
  unfold phaseWithLog, dbind.
  pose proof (keeps_files_log cfg step phase "running" "" w) as H0.
  destruct (appendLog cfg step phase "running" "" w) as [[] w0]. destruct (fn w0) as [[a|e] w1] eqn:Hf.
  - pose proof (keeps_files_log cfg step phase "ok" "" w1) as H1. destruct (appendLog _ _ _ _ _ w1) as [[] w2].
    cbn in *. eauto 10.
  - pose proof (keeps_files_log cfg step phase "failed" (text e) w1) as H1. destruct (appendLog _ _ _ _ _ w1) as [[] w2].
    cbn in *. eauto 10.
Qed.

(** A phase that does not touch the files. *)
Lemma run_phase_files phase fn k w r st w' :
  keeps wd_files fn → run_phase cfg text step phase fn k w = ((r, st), w') → st ≠ StatusFailed →
  ∃ w1, wd_files w1 = wd_files w ∧ k w1 = ((r, st), w').
Proof.
  intros Hk H Hst. unfold run_phase, dbind in H. pose proof (phaseWithLog_files phase fn w) as Hf.
  destruct (phaseWithLog cfg text step phase fn w) as [[a|e] w1]; [|by injection H as <- <- <-].
  destruct Hf as (w0 & w2 & Hfn & H0 & H2). exists w1. split; [|done].
  rewrite H2, <- H0. specialize (Hk w0). by rewrite Hfn in Hk.
Qed.

Lemma verify_or_rollback_files w r st w' old :
  wd_files w !! backup = Some old → verify_or_rollback env cfg text step w = ((r, st), w') →
  (st = StatusRolledBack → wd_files w' !! live = Some old) ∧ (st = StatusDone → wd_files w' = wd_files w).
Proof.
  intros Hb H. unfold verify_or_rollback, dbind at 1 in H.
  pose proof (phaseWithLog_files "verify" (phaseVerify env step) w) as Hv.
  destruct (phaseWithLog _ _ _ _ _ w) as [[[]|e] w6];
    destruct Hv as (w7 & w8 & Hvf & F7 & F8); pose proof (phaseVerify_files env step w7) as Hk;
    rewrite Hvf in Hk; cbn [snd] in Hk.
  - injection H as <- <- <-. split; [done|]. intros _. congruence.
  - rewrite <- F7, <- Hk, <- F8 in Hb. unfold dbind at 1 in H.
    pose proof (keeps_files_log cfg step "rollback" "running" "" w6) as Ha.
    destruct (appendLog _ _ _ _ _ w6) as [[] w9]. cbn [snd] in Ha. rewrite <- Ha in Hb. unfold dbind at 1 in H.
    destruct (rollbackNode env cfg step w9) as [[[]|rb] w10] eqn:Hrb; unfold dbind in H.
    + apply (rollbackNode_ok _ _ old Hb) in Hrb.
      pose proof (keeps_files_log cfg step "rollback" "ok" "" w10) as Hz.
      destruct (appendLog _ _ _ _ _ w10) as [[] w11]. cbn in *. injection H as <- <- <-. split; [|done].
      intros _. by rewrite Hz.
    + destruct (appendLog _ _ _ _ _ w10) as [[] w11]. cbn in *. by injection H as <- <- <-.
Qed.

Lemma upgrade_files w r st w' old :
  wd_files w !! live = Some old → UpgradeNode env cfg text step w = ((r, st), w') → st ≠ StatusFailed →
  (st = StatusRolledBack → wd_files w' !! live = Some old) ∧
  (st = StatusDone →
     wd_files w' !! backup = Some old ∧
     ∃ render t new, ev_render env = Some render ∧
       render t (st_Name step) (st_Role step) (st_NewImage step) = Ok new ∧ wd_files w' !! live = Some new).
Proof.
  intros Hold H Hst. unfold UpgradeNode in H. unfold run_phase at 1 in H. unfold dbind at 1 in H.
  pose proof (phaseWithLog_files "prepare" (phasePrepare env cfg step) w) as Hp.
  destruct (phaseWithLog _ _ _ _ _ w) as [[[]|e] w1]; [|by injection H as <- <- <-].
  destruct Hp as (w0 & w2 & Hprep & H0 & H2).
  apply (phasePrepare_ok w0 w2 old) in Hprep as [Hb Hl]; [|by rewrite H0].
  rewrite <- H2 in Hb, Hl.
  apply run_phase_files in H as (w3 & F3 & H); [|auto with frame|done].
  apply run_phase_files in H as (w4 & F4 & H); [|auto with frame|done].
  apply run_phase_files in H as (w5 & F5 & H); [|auto with frame|done].
  rewrite <- F3, <- F4, <- F5 in Hb, Hl.
  apply (verify_or_rollback_files _ _ _ _ old Hb) in H as [Hr Hd]. split; [done|].
  intros Hdone. by rewrite (Hd Hdone).
Qed.
End files.
End upgrade.

(** The upgrade of one node, as its log shows it: the phases prepare, deploy,
    wait_ready, init and verify run in this order, each only after the ones before
    it succeeded; every started phase is closed by "ok" or "failed"; the call
    returns no error exactly when the step ends "done"; the rollback runs exactly
    when verification failed, and the step then ends "rolled_back" or, when the
    rollback itself fails, "failed". *)
Theorem UpgradeNode_outcome env cfg text step w :
  dv_Logger cfg = true →
  let '((r, st), w') := UpgradeNode env cfg text step w in
  ∃ k rb, events w' = events w ++ trace k rb ∧
    match st with
    | StatusDone => r = Ok () ∧ k = 5%nat ∧ rb = None
    | StatusRolledBack => is_ok r = false ∧ k = 4%nat ∧ rb = Some true
    | StatusFailed => is_ok r = false ∧ ((k < 4)%nat ∧ rb = None ∨ k = 4%nat ∧ rb = Some false)
    | _ => False
    end.
Proof. intros Hlog. by apply upgrade_events. Qed.

(** C37. Within one upgrade the compose file is safe: if the node had one and reads
    do not fail, a step that ends "rolled_back" leaves exactly the old text in
    place, and one that ends "done" leaves the rendered text with the old one as
    backup. *)
Theorem rollback_restores env cfg text step w r st w' old :
  (∀ t, ev_read_denied env t = false) →
  wd_files w !! liveComposePath cfg (st_Name step) = Some old →
  UpgradeNode env cfg text step w = ((r, st), w') →
  (st = StatusRolledBack → wd_files w' !! liveComposePath cfg (st_Name step) = Some old) ∧
  (st = StatusDone →
     wd_files w' !! backupComposePath cfg (st_Name step) = Some old ∧
     ∃ render t new, ev_render env = Some render ∧
       render t (st_Name step) (st_Role step) (st_NewImage step) = Ok new ∧
       wd_files w' !! liveComposePath cfg (st_Name step) = Some new).
Proof.
  intros Hread Hold H.
  destruct (decide (st = StatusFailed)) as [->|Hst]; [done|]. by apply (upgrade_files env cfg text step Hread w r st w' old).
Qed.

(** ** Concrete upgrades *)

Definition demo_cfg : DriverConfig :=
  NewDriver (MkDriverConfig "/cfg" (demo_topology [demo_master "m1"]) 0 0 0 "v2" true (MkSSHOpts true "" 0 "" false) "").
Definition demo_step : NodeUpgradeStep := MkStep "m1" "master" "" "UNKNOWN" "img:v2" StatusPlanned.
Definition demo_world : World :=
  MkWorld {[ liveComposePath demo_cfg "m1" := "old"; "/cfg/nodes/m1/token" := "t" ]} [] [] 0.
(** The data plane never recovers; [deploy] answers the remote calls. *)
Definition demo_env (deploy : nat → ssh_call → option string) : Env :=
  MkEnv (λ _, false) (λ _, None) (Some (λ _ _ _ image, Ok ("image: " +:+ image))) (Some deploy) None
    (λ _, [PollReady]) (λ _, None) (λ _ _, None) (Some (λ _, [MkProbe "m1" "e1" "no handshake"])) None.

Lemma UpgradeNode_outcome_witness :
  let '((r, st), w') := UpgradeNode (demo_env (λ _ _, None)) demo_cfg (λ _, "") demo_step demo_world in
  st = StatusRolledBack ∧ events w' = trace 4 (Some true).
Proof.
  pose proof (UpgradeNode_outcome (demo_env (λ _ _, None)) demo_cfg (λ _, "") demo_step demo_world eq_refl) as H.
  destruct (UpgradeNode _ _ _ _ _) as [[r st] w'] eqn:E. destruct H as (k & rb & He & Hst).
  assert (st = StatusRolledBack) as -> by (change st with (r, st, w').1.2; rewrite <- E; vm_compute; reflexivity).
  clear E. destruct Hst as (_ & -> & ->). split; [reflexivity|]. rewrite He. reflexivity.
Defined.

Lemma rollback_restores_witness :
  ∃ r w', UpgradeNode (demo_env (λ _ _, None)) demo_cfg (λ _, "") demo_step demo_world = ((r, StatusRolledBack), w') ∧
    wd_files w' !! liveComposePath demo_cfg "m1" = Some "old".
Proof.
  destruct (UpgradeNode (demo_env (λ _ _, None)) demo_cfg (λ _, "") demo_step demo_world) as [[r st] w'] eqn:E.
  assert (st = StatusRolledBack) as -> by (change st with (r, st, w').1.2; rewrite <- E; vm_compute; reflexivity).
  exists r, w'. split; [exact eq_refl|].
  apply (rollback_restores (demo_env (λ _ _, None)) demo_cfg (λ _, "") demo_step demo_world r StatusRolledBack w' "old");
    [reflexivity|vm_compute; reflexivity|exact E|reflexivity].
Defined.

(** Across attempts the backup is not safe: when a first attempt fails after
    prepare (here at deploy), no rollback runs and the new compose file stays in
    place; a second attempt then snapshots that file over the backup, so a
    rollback of the second attempt "restores" the new version and the original
    compose file is gone. *)
Theorem retry_loses_backup :
  let flaky := λ t _, if bool_decide (t < 5)%nat then Some "connection refused" else None in
  let '((r1, st1), w1) := UpgradeNode (demo_env flaky) demo_cfg (λ _, "") demo_step demo_world in
  let '((r2, st2), w2) := UpgradeNode (demo_env flaky) demo_cfg (λ _, "") demo_step w1 in
  wd_files demo_world !! liveComposePath demo_cfg "m1" = Some "old" ∧
  st1 = StatusFailed ∧ st2 = StatusRolledBack ∧
  wd_files w2 !! liveComposePath demo_cfg "m1" = Some "image: img:v2" ∧
  wd_files w2 !! backupComposePath demo_cfg "m1" = Some "image: img:v2".
Proof. vm_compute. split_and!; reflexivity. Qed.
