(* ===== verification/WgTypes.v ===== *)
(** * WireGuard keys, names and configuration types

    Models src/pkg/wg/types.go, keygen.go and interface_name.go: the configuration
    and state records of a device, 32-byte keys with their base-64 and hexadecimal
    text, the clamping of private keys, and the check of interface names. *)

From S2P Require Import Prelude GoStrings GoNet GoText.

(** ** Keys

    Go's [Key] is an array of 32 bytes; here it is a byte list, and [key_ok] says it has
    that length. *)
Notation Key := (list ascii) (only parsing).
Definition key_size : nat := 32.
Definition key_ok (k : Key) : Prop := length k = key_size.
Definition zero_byte : ascii := "000"%char.
(** [Key{}] *)
Definition zero_key : Key := replicate key_size zero_byte.

Inductive key_error :=
  | ErrKeyBase64
  | ErrKeyHex
  | ErrKeyLength (got : nat)
  | ErrKeyRandom.

(** [var key Key; copy(key[:], b)]: as many bytes as both have, the rest stays zero. *)
Definition copy_key (b : list ascii) : Key := take key_size b ++ drop (length b) zero_key.
Definition NewKey (b : list ascii) : res key_error Key :=
  if negb (bool_decide (length b = key_size)) then Err (ErrKeyLength (length b)) else Ok (copy_key b).

Definition ParseKey (s : string) : res key_error Key :=
  match b64_decode s with
  | None => Err ErrKeyBase64
  | Some decoded => NewKey decoded
  end.

Definition key_String (k : Key) : string := b64_encode k.

Definition IsZero (k : Key) : bool := forallb (λ b, bool_decide (b = zero_byte)) k.

Definition MarshalText (k : Key) : list ascii := to_bytes (key_String k).
(** The receiver keeps its value when the text is rejected. *)
Definition UnmarshalText (k : Key) (b : list ascii) : res key_error unit * Key :=
  match ParseKey (of_bytes b) with
  | Err e => (Err e, k)
  | Ok parsed => (Ok (), parsed)
  end.

(** Hexadecimal text, as on the UAPI socket (uapi.go). *)
Definition hexKey (k : Key) : string := hex_encode k.
Definition parseHexKey (s : string) : res key_error Key :=
  match hex_decode (TrimSpace s) with
  | None => Err ErrKeyHex
  | Some raw => NewKey raw
  end.

(** [crypto/rand.Read] fills the buffer or fails: its outcome is an argument. *)
Definition GenerateKey (randRead : option (list ascii)) : res key_error Key :=
  match randRead with
  | None => Err ErrKeyRandom
  | Some key => Ok key
  end.

Definition and_byte (m : Z) (a : ascii) : ascii := chr (Z.land (code a) m).
Definition or_byte (m : Z) (a : ascii) : ascii := chr (Z.lor (code a) m).

(** Clears the low three bits of the first byte and the top bit of the last,
    and sets the bit below it. *)
Definition clamp (key : list ascii) : list ascii :=
  alter (or_byte 64) 31%nat (alter (and_byte 127) 31%nat (alter (and_byte 248) 0%nat key)).
Definition GeneratePrivateKey (randRead : option (list ascii)) : res key_error Key :=
  match GenerateKey randRead with
  | Err e => Err e
  | Ok key => Ok (clamp key)
  end.

(** ** Devices and their configuration *)

Record Peer := MkPeer {
  pr_PublicKey : Key;
  pr_PresharedKey : Key;
  pr_Endpoint : option UDPAddr;
  pr_PersistentKeepaliveInterval : Z;   (* nanoseconds *)
  pr_LastHandshakeTime : Z;             (* nanoseconds since Go's zero time *)
  pr_ReceiveBytes : Z;
  pr_TransmitBytes : Z;
  pr_AllowedIPs : list IPNet;
  pr_ProtocolVersion : Z
}.

Record Device := MkDevice {
  dv_Name : string;
  dv_PrivateKey : Key;
  dv_PublicKey : Key;
  dv_ListenPort : Z;
  dv_FirewallMark : Z;
  dv_IsAmnezia : bool;
  dv_Peers : list Peer
}.

Record PeerConfig := MkPeerConfig {
  pc_PublicKey : Key;
  pc_Remove : bool;
  pc_UpdateOnly : bool;
  pc_PresharedKey : option Key;
  pc_Endpoint : option UDPAddr;
  pc_PersistentKeepaliveInterval : option Z;
  pc_ReplaceAllowedIPs : bool;
  pc_AllowedIPs : list IPNet
}.

Record Config := MkConfig {
  cf_PrivateKey : option Key;
  cf_ListenPort : option Z;
  cf_FirewallMark : option Z;
  cf_ReplacePeers : bool;
  cf_Peers : list PeerConfig;
  cf_Jc : option Z; cf_Jmin : option Z; cf_Jmax : option Z;
  cf_S1 : option Z; cf_S2 : option Z; cf_S3 : option Z; cf_S4 : option Z;
  cf_H1 : option string; cf_H2 : option string; cf_H3 : option string; cf_H4 : option string;
  cf_I1 : option string; cf_I2 : option string; cf_I3 : option string; cf_I4 : option string;
  cf_I5 : option string
}.

(** The zero values [Config{}] and [PeerConfig{}]. *)
Definition Config0 : Config :=
  MkConfig None None None false [] None None None None None None None
    None None None None None None None None None.
Definition PeerConfig0 : PeerConfig := MkPeerConfig zero_key false false None None None false [].

Definition IntPtr (v : Z) : option Z := Some v.
Definition StrPtr (v : string) : option string := Some v.

(** ** Interface names *)

Definition maxInterfaceNameLength : nat := 15.

Inductive name_error :=
  | ErrNameRequired
  | ErrNameTooLong (name : string)
  | ErrNameDotDot (name : string)
  | ErrNameChar (name : string).

Fixpoint dot_dot (l : list ascii) : bool :=
  match l with
  | a :: l1 =>
      match l1 with
      | b :: _ => (bool_decide (a = "."%char) && bool_decide (b = "."%char)) || dot_dot l1
      | [] => false
      end
  | [] => false
  end.
Definition containsDotDot (s : string) : bool := dot_dot (to_bytes s).

Definition name_char (a : ascii) : bool :=
  is_upper a || is_lower a || is_digit a || bool_decide (a = "_"%char) || bool_decide (a = "."%char)
  || bool_decide (a = "-"%char).

(** The loop over runes stops at the first character outside the set; a byte above
    127 belongs to no allowed rune. *)
Definition ValidateInterfaceName (name : string) : res name_error unit :=
  if bool_decide (name = "") then Err ErrNameRequired
  else if bool_decide (maxInterfaceNameLength < length (to_bytes name))%nat then Err (ErrNameTooLong name)
  else if containsDotDot name then Err (ErrNameDotDot name)
  else if forallb name_char (to_bytes name) then Ok () else Err (ErrNameChar name).

(** ** Key text *)

Lemma copy_key_id b : length b = key_size → copy_key b = b.
Proof.
  intros H. unfold copy_key. rewrite take_ge by lia. rewrite drop_ge by (rewrite H; done). apply app_nil_r.
Qed.
Lemma NewKey_ok b k : NewKey b = Ok k ↔ b = k ∧ key_ok k.
Proof.
  unfold NewKey, key_ok. case_bool_decide as H; simpl; [rewrite (copy_key_id b H)|]; split; naive_solver.
Qed.

Lemma ParseKey_String k : key_ok k → ParseKey (key_String k) = Ok k.
Proof. intros H. unfold ParseKey, key_String. rewrite b64_decode_encode. by apply NewKey_ok. Qed.

Lemma parseHexKey_hexKey k : key_ok k → parseHexKey (hexKey k) = Ok k.
Proof.
  intros H. unfold parseHexKey, hexKey. rewrite TrimSpace_plain.
  - rewrite hex_decode_encode. by apply NewKey_ok.
  - eapply Forall_impl; [apply hex_encode_chars|]. apply hex_char_plain.
Qed.

Lemma ParseKey_key_ok s k : ParseKey s = Ok k → key_ok k.
Proof. unfold ParseKey. destruct (b64_decode s); [|discriminate]. by intros [_ ?]%NewKey_ok. Qed.
Lemma parseHexKey_key_ok s k : parseHexKey s = Ok k → key_ok k.
Proof. unfold parseHexKey. destruct (hex_decode _); [|discriminate]. by intros [_ ?]%NewKey_ok. Qed.

Lemma clamp_length k : length (clamp k) = length k.
Proof. unfold clamp. by rewrite !length_alter. Qed.

(** A key is read from its text exactly: the base-64 text accepted for a key is
    the text that decodes to its 32 bytes, and so is its hexadecimal text on the UAPI
    socket, blanks around it apart; text that decodes to another length is rejected
    with that length and leaves the key it was unmarshalled into unchanged. The text
    written for a key is accepted for it, through [ParseKey], the text marshaller and
    the socket's hexadecimal form, and no other key has the same text. *)
Theorem key_text_roundtrip k :
  length k = 32%nat →
  (∀ s, ParseKey s = Ok k ↔ b64_decode s = Some k) ∧
  (∀ s, parseHexKey s = Ok k ↔ hex_decode (TrimSpace s) = Some k) ∧
  (∀ s raw, b64_decode s = Some raw → length raw ≠ 32%nat →
    UnmarshalText k (to_bytes s) = (Err (ErrKeyLength (length raw)), k)) ∧
  ParseKey (key_String k) = Ok k ∧ parseHexKey (hexKey k) = Ok k ∧
  (∀ k0, UnmarshalText k0 (MarshalText k) = (Ok (), k)) ∧
  (∀ k', length k' = 32%nat → key_String k' = key_String k ∨ hexKey k' = hexKey k → k' = k).
Proof.
  intros H. pose proof (ParseKey_String k H) as H1. pose proof (parseHexKey_hexKey k H) as H2.
  split_and!; [| | |done|done| |].
  - intros s. unfold ParseKey. destruct (b64_decode s); [rewrite NewKey_ok|]; naive_solver.
  - intros s. unfold parseHexKey. destruct (hex_decode _); [rewrite NewKey_ok|]; naive_solver.
  - intros s raw Es Hl. unfold UnmarshalText, ParseKey, NewKey. rewrite of_to_bytes, Es. by rewrite bool_decide_eq_false_2.
  - intros k0. unfold UnmarshalText, MarshalText. by rewrite of_to_bytes, H1.
  - intros k' H' [E|E].
    + pose proof (ParseKey_String k' H') as H3. rewrite E in H3. congruence.
    + pose proof (parseHexKey_hexKey k' H') as H3. rewrite E in H3. congruence.
Qed.

Definition sample_key : Key := chr <$> seqZ 1 32.

Lemma key_text_roundtrip_witness :
  ParseKey (key_String sample_key) = Ok sample_key ∧ parseHexKey (hexKey sample_key) = Ok sample_key ∧
  UnmarshalText sample_key (to_bytes (b64_encode (take 31 sample_key))) = (Err (ErrKeyLength 31), sample_key).
Proof.
  destruct (key_text_roundtrip sample_key) as (_ & _ & Hbad & H1 & H2 & _ & _); [reflexivity|].
  split; [exact H1|split; [exact H2|]]. apply (Hbad _ (take 31 sample_key)); [reflexivity|discriminate].
Defined.

(** ** Clamping *)

Lemma land_248 c : 0 ≤ c < 256 → Z.land c 248 = c - c mod 8.
Proof.
  intros H. assert (Forall (λ c, Z.land c 248 = c - c mod 8) (seqZ 0 256)) as Hall
    by (apply (bool_decide_unpack _); vm_compute; exact I).
  rewrite Forall_forall in Hall. apply Hall, elem_of_seqZ. lia.
Qed.
Lemma lor_64 c : 0 ≤ c < 256 → Z.lor (Z.land c 127) 64 = 64 + c mod 64 ∧ 0 ≤ Z.land c 127 < 256.
Proof.
  intros H. assert (Forall (λ c, Z.lor (Z.land c 127) 64 = 64 + c mod 64 ∧ 0 ≤ Z.land c 127 < 256) (seqZ 0 256)) as Hall
    by (apply (bool_decide_unpack _); vm_compute; exact I).
  rewrite Forall_forall in Hall. apply Hall, elem_of_seqZ. lia.
Qed.

Lemma clamp_first_code a : code (and_byte 248 a) = code a - code a mod 8.
Proof.
  pose proof (code_range a). unfold and_byte. rewrite land_248 by done. apply code_chr.
  pose proof (Z.mod_le (code a) 8). pose proof (Z.mod_pos_bound (code a) 8). lia.
Qed.
Lemma clamp_last_code b : code (or_byte 64 (and_byte 127 b)) = 64 + code b mod 64.
Proof.
  pose proof (code_range b) as H. destruct (lor_64 (code b) H) as [E Hr].
  unfold or_byte, and_byte. rewrite (code_chr (Z.land _ _)), E by done. apply code_chr.
  pose proof (Z.mod_pos_bound (code b) 64). lia.
Qed.

Lemma clamp_lookup k i : clamp k !! i =
  if decide (i = 31%nat) then or_byte 64 <$> (and_byte 127 <$> k !! i)
  else if decide (i = 0%nat) then and_byte 248 <$> k !! i else k !! i.
Proof.
  unfold clamp. destruct (decide (i = 31%nat)) as [->|].
  - rewrite !list_lookup_alter_eq. by rewrite list_lookup_alter_ne by done.
  - rewrite !(list_lookup_alter_ne _ _ 31) by done.
    destruct (decide (i = 0%nat)) as [->|]; [by rewrite list_lookup_alter_eq|by rewrite list_lookup_alter_ne].
Qed.

Lemma clamp_idem k : clamp (clamp k) = clamp k.
Proof.
  apply list_eq. intros i. rewrite (clamp_lookup (clamp k)), clamp_lookup.
  destruct (decide (i = 31%nat)) as [->|].
  - destruct (k !! 31%nat) as [b|]; [|done]. cbn. f_equal. apply (inj code). rewrite !clamp_last_code.
    rewrite Z.add_mod, Z_mod_same_full, Z.add_0_l, !Z.mod_mod by lia. done.
  - destruct (decide (i = 0%nat)) as [->|]; [|done]. destruct (k !! 0%nat) as [a|]; [|done]. cbn. f_equal.
    apply (inj code). rewrite !clamp_first_code.
    replace ((code a - code a mod 8) mod 8) with 0; [lia|]. Z.to_euclidean_division_equations. lia.
Qed.

Lemma clamp_nonzero r : length r = key_size → IsZero (clamp r) = false.
Proof.
  intros Hr. destruct (lookup_lt_is_Some_2 r 31%nat) as [b Hb]; [rewrite Hr; unfold key_size; lia|].
  assert (clamp r !! 31%nat = Some (or_byte 64 (and_byte 127 b))) as H31
    by (rewrite clamp_lookup, decide_True, Hb by done; done).
  unfold IsZero. apply not_true_is_false. intros Hz. rewrite forallb_forall in Hz.
  specialize (Hz _ (proj1 (list_elem_of_In _ _) (list_elem_of_lookup_2 _ _ _ H31))). bool_to_prop.
  apply (f_equal code) in Hz. rewrite clamp_last_code in Hz. change (code zero_byte) with 0 in Hz.
  pose proof (Z.mod_pos_bound (code b) 64). lia.
Qed.

(** A generated private key is clamped for Curve25519: the first byte is the
    random one with its low three bits cleared, the last is the random one with its
    top bit cleared and the next set, every other byte is the random one; clamping a
    clamped key changes nothing, and a clamped key is never zero. *)
Theorem private_key_clamped r k :
  length r = key_size → GeneratePrivateKey (Some r) = Ok k →
  (∃ a a0, k !! 0%nat = Some a ∧ r !! 0%nat = Some a0 ∧ code a = code a0 - code a0 mod 8) ∧
  (∃ b b0, k !! 31%nat = Some b ∧ r !! 31%nat = Some b0 ∧ code b = 64 + code b0 mod 64) ∧
  (∀ i, (0 < i < 31)%nat → k !! i = r !! i) ∧
  clamp k = k ∧ IsZero k = false.
Proof.
  intros Hr [= <-].
  destruct (lookup_lt_is_Some_2 r 0%nat) as [a Ha]; [rewrite Hr; unfold key_size; lia|].
  destruct (lookup_lt_is_Some_2 r 31%nat) as [b Hb]; [rewrite Hr; unfold key_size; lia|].
  assert (clamp r !! 31%nat = Some (or_byte 64 (and_byte 127 b))) as H31
    by (rewrite clamp_lookup, decide_True, Hb by done; done).
  split_and!.
  - exists (and_byte 248 a), a. rewrite clamp_lookup, decide_False, decide_True, Ha by done.
    split_and!; [done|done|apply clamp_first_code].
  - eexists _, b. split_and!; [exact H31|done|apply clamp_last_code].
  - intros i Hi. by rewrite clamp_lookup, !decide_False by lia.
  - apply clamp_idem.
  - by apply clamp_nonzero.
Qed.

Lemma private_key_clamped_witness :
  GeneratePrivateKey (Some sample_key) = Ok (clamp sample_key) ∧ clamp (clamp sample_key) = clamp sample_key ∧
  IsZero (clamp sample_key) = false.
Proof.
  split; [reflexivity|].
  destruct (private_key_clamped sample_key (clamp sample_key)) as (_ & _ & _ & H); [reflexivity|reflexivity|exact H].
Defined.

(** ** Interface names *)

Lemma dot_dot_spec l : dot_dot l = true ↔ ∃ p q, l = p ++ "."%char :: "."%char :: q.
Proof.
  induction l as [|a l IH]; [by split; [|intros ([] & q & ?)]|]. cbn [dot_dot]. destruct l as [|b l].
  - split; [done|]. intros ([|x [|y p]] & q & H); discriminate H.
  - rewrite orb_true_iff, andb_true_iff, !bool_decide_eq_true, IH. split.
    + intros [[-> ->]|(p & q & E)]; [by exists [], l|]. exists (a :: p), q. by rewrite E.
    + intros ([|x p] & q & E); [left; by injection E as -> -> _|right]. injection E as -> E. eauto.
Qed.

(** An interface name is accepted exactly when it is not empty, has at most 15
    bytes, consists of letters, digits, underscore, dot and dash, and holds no two
    consecutive dots; so an accepted name is one component of the path of its
    control socket: it contains no slash and no NUL, and is not a parent reference. *)
Theorem interface_name_spec name :
  (ValidateInterfaceName name = Ok () ↔
    name ≠ "" ∧ (length (to_bytes name) ≤ 15)%nat ∧ Forall (λ a, name_char a = true) (to_bytes name) ∧
    ¬ ∃ p q, to_bytes name = p ++ "."%char :: "."%char :: q) ∧
  (ValidateInterfaceName name = Ok () →
    "/"%char ∉ to_bytes name ∧ zero_byte ∉ to_bytes name ∧ name ≠ "..").
Proof.
  assert (ValidateInterfaceName name = Ok () ↔
    name ≠ "" ∧ (length (to_bytes name) ≤ 15)%nat ∧ Forall (λ a, name_char a = true) (to_bytes name) ∧
    ¬ ∃ p q, to_bytes name = p ++ "."%char :: "."%char :: q) as Hs.
  { unfold ValidateInterfaceName, maxInterfaceNameLength, containsDotDot. rewrite <- dot_dot_spec.
    rewrite not_true_iff_false, Forall_forall.
    assert (forallb name_char (to_bytes name) = true ↔ ∀ x, x ∈ to_bytes name → name_char x = true) as Hf
      by (rewrite forallb_forall; by setoid_rewrite list_elem_of_In).
    repeat case_bool_decide; [split; [discriminate|by intros (? & _)]|split; [discriminate|]; intros (_ & ? & _); lia|].
    destruct (dot_dot (to_bytes name)); [split; [discriminate|by intros (_ & _ & _ & ?)]|].
    destruct (forallb name_char (to_bytes name)).
    - split; [|done]. intros _. split_and!; [done|lia|by apply Hf|done].
    - split; [discriminate|]. intros (_ & _ & H' & _). by apply Hf in H'. }
  split; [exact Hs|]. intros (Hne & _ & Hf & Hdd)%Hs. rewrite Forall_forall in Hf. split_and!.
  - intros H. by specialize (Hf _ H).
  - intros H. by specialize (Hf _ H).
  - intros ->. apply Hdd. by exists [], [].
Qed.
