(* ===== verification/UAPI.v ===== *)
(** * The UAPI client

    Models src/pkg/wg/uapi.go: the textual control protocol of a WireGuard or
    AmneziaWG device. [writeConfig] renders a configuration change onto the socket,
    [parseDevice] reads the state of a device back, [readErrno] the outcome of a
    change. The socket is a writer that may fail at any call and the text the
    device answers with; resolving an endpoint is a parameter. *)

From S2P Require Import Prelude GoStrings GoNet GoText WgTypes.

Inductive uapi_error :=
  | ErrUAPIName (e : name_error)
  | ErrUAPIDial
  | ErrUAPIWrite (key : string)
  | ErrUAPIPeerKey (index : nat)
  | ErrUAPIErrnoText (line : string)
  | ErrUAPIErrno (errno : Z)
  | ErrUAPILine (line : string)
  | ErrUAPIValue (key value : string)
  | ErrUAPIKey (key : string) (e : key_error)
  | ErrUAPIScan
  | ErrUAPINoErrno.

(** ** Writing

    [io.Writer]: what has been written and, when the connection breaks, after how
    many calls. *)
Record writer := MkWriter { wr_out : string; wr_left : option nat }.

Definition W (A : Type) : Type := writer → res uapi_error A * writer.
Definition w_ret {A} (a : A) : W A := λ w, (Ok a, w).
Definition w_bind {A B} (m : W A) (k : A → W B) : W B := λ w,
  match m w with
  | (Ok a, w') => k a w'
  | (Err e, w') => (Err e, w')
  end.
Notation "'do!' m ; k" := (w_bind m (λ _, k)) (at level 10, m at level 100, k at level 200).

Definition WriteString (label s : string) : W unit := λ w,
  match wr_left w with
  | Some 0%nat => (Err (ErrUAPIWrite label), w)
  | Some (S n) => (Ok (), MkWriter (wr_out w +:+ s) (Some n))
  | None => (Ok (), MkWriter (wr_out w +:+ s) None)
  end.

Definition newline : string := String "010" "".

Definition writeKV (key value : string) : W unit := WriteString key (key +:+ "=" +:+ value +:+ newline).

(** [if v != nil { writeKV(...) }] *)
Definition write_opt (key : string) (v : option string) : W unit :=
  match v with None => w_ret () | Some value => writeKV key value end.
Definition write_flag (key : string) (b : bool) : W unit :=
  if b then writeKV key "true" else w_ret ().
(** A loop over the fields of a table. *)
Fixpoint write_fields (l : list (string * option string)) : W unit :=
  match l with
  | [] => w_ret ()
  | (key, v) :: l => do! write_opt key v; write_fields l
  end.

Definition awg_ints (cfg : Config) : list (string * option string) :=
  [("jc", Itoa <$> cf_Jc cfg); ("jmin", Itoa <$> cf_Jmin cfg); ("jmax", Itoa <$> cf_Jmax cfg);
   ("s1", Itoa <$> cf_S1 cfg); ("s2", Itoa <$> cf_S2 cfg)].
Definition awg_strings (cfg : Config) : list (string * option string) :=
  [("h1", cf_H1 cfg); ("h2", cf_H2 cfg); ("h3", cf_H3 cfg); ("h4", cf_H4 cfg);
   ("i1", cf_I1 cfg); ("i2", cf_I2 cfg); ("i3", cf_I3 cfg); ("i4", cf_I4 cfg); ("i5", cf_I5 cfg)].

Definition write_peer (i : nat) (peer : PeerConfig) : W unit :=
  if IsZero (pc_PublicKey peer) then λ w, (Err (ErrUAPIPeerKey i), w) else
  do! writeKV "public_key" (hexKey (pc_PublicKey peer));
  do! write_flag "remove" (pc_Remove peer);
  do! write_flag "update_only" (pc_UpdateOnly peer);
  do! write_opt "preshared_key" (hexKey <$> pc_PresharedKey peer);
  do! write_opt "endpoint" (udp_string <$> pc_Endpoint peer);
  do! write_opt "persistent_keepalive_interval" (Itoa ∘ int_seconds <$> pc_PersistentKeepaliveInterval peer);
  do! write_flag "replace_allowed_ips" (pc_ReplaceAllowedIPs peer);
  write_fields ((λ n, ("allowed_ip", Some (net_string n))) <$> pc_AllowedIPs peer).

Fixpoint write_peers (i : nat) (peers : list PeerConfig) : W unit :=
  match peers with
  | [] => w_ret ()
  | peer :: peers => do! write_peer i peer; write_peers (S i) peers
  end.

Definition writeConfig (cfg : Config) : W unit :=
  do! write_opt "private_key" (hexKey <$> cf_PrivateKey cfg);
  do! write_opt "listen_port" (Itoa <$> cf_ListenPort cfg);
  do! write_opt "fwmark" (Itoa <$> cf_FirewallMark cfg);
  do! write_flag "replace_peers" (cf_ReplacePeers cfg);
  do! write_fields (awg_ints cfg);
  do! write_fields (awg_strings cfg);
  write_peers 0 (cf_Peers cfg).

(** ** Reading *)

(** The errno line: [None] when the text is no number. *)
Definition errno_of (errnoText line : string) : res uapi_error unit :=
  match Atoi errnoText with
  | None => Err (ErrUAPIErrnoText line)
  | Some errno => if negb (errno =? 0) then Err (ErrUAPIErrno errno) else Ok ()
  end.

Fixpoint errno_loop (lines : list string) : option (res uapi_error unit) :=
  match lines with
  | [] => None
  | l :: lines =>
      let line := TrimSpace l in
      if bool_decide (line = "") then errno_loop lines else
      match CutPrefix line "errno=" with
      | None => errno_loop lines
      | Some errnoText => Some (errno_of errnoText line)
      end
  end.

(** What the scanner reports after its last line: a line that is too long, or the
    read error [rerr]. *)
Definition scan_failed (e : scan_end) (rerr : bool) : bool :=
  match e with ScanTooLong => true | ScanEOF => rerr end.

Definition readErrno (text : string) (rerr : bool) : res uapi_error unit :=
  let '(lines, e) := ScanLines text in
  match errno_loop lines with
  | Some r => r
  | None => if scan_failed e rerr then Err ErrUAPIScan else Err ErrUAPINoErrno
  end.

(** The state of the loop of [parseDevice]. *)
Record pstate := MkPstate {
  ps_device : Device;
  ps_currentPeer : option Peer;
  ps_handshakeSec : Z;
  ps_handshakeNSec : Z
}.
Definition Device0 : Device := MkDevice "" zero_key zero_key 0 0 false [].
Definition pstate0 : pstate := MkPstate Device0 None 0 0.

Definition set_peers (f : list Peer → list Peer) (d : Device) : Device :=
  MkDevice (dv_Name d) (dv_PrivateKey d) (dv_PublicKey d) (dv_ListenPort d) (dv_FirewallMark d)
    (dv_IsAmnezia d) (f (dv_Peers d)).

Definition with_handshake (sec nsec : Z) (p : Peer) : Peer :=
  if negb (sec =? 0) || negb (nsec =? 0) then
    MkPeer (pr_PublicKey p) (pr_PresharedKey p) (pr_Endpoint p) (pr_PersistentKeepaliveInterval p)
      (time_Unix sec nsec) (pr_ReceiveBytes p) (pr_TransmitBytes p) (pr_AllowedIPs p) (pr_ProtocolVersion p)
  else p.

Definition commitPeer (st : pstate) : pstate :=
  match ps_currentPeer st with
  | None => st
  | Some p =>
      let p := with_handshake (ps_handshakeSec st) (ps_handshakeNSec st) p in
      MkPstate (set_peers (λ l, l ++ [p]) (ps_device st)) None 0 0
  end.

Definition new_peer (k : Key) : Peer := MkPeer k zero_key None 0 0 0 0 [] 0.

Inductive turn := Continue (st : pstate) | Done (r : res uapi_error Device).

Section Device.
(** [net.ResolveUDPAddr("udp", _)] and the Curve25519 base point multiplication of
    [Key.PublicKey]. *)
Context (ResolveUDPAddr : string → option UDPAddr) (PublicKey : Key → Key).

Definition awg_keys : list string :=
  ["jc"; "jmin"; "jmax"; "s1"; "s2"; "s3"; "s4"; "h1"; "h2"; "h3"; "h4"; "i1"; "i2"; "i3"; "i4"; "i5"].

(** A key of a peer: ignored before the first peer, otherwise it updates the open one. *)
Definition on_peer (st : pstate) (f : Peer → option Peer) (e : uapi_error) : turn :=
  match ps_currentPeer st with
  | None => Continue st
  | Some p =>
      match f p with
      | None => Done (Err e)
      | Some p => Continue (MkPstate (ps_device st) (Some p) (ps_handshakeSec st) (ps_handshakeNSec st))
      end
  end.
(** The two handshake keys, which update the loop's own variables. *)
Definition on_handshake (st : pstate) (v : option Z) (f : Z → pstate) (e : uapi_error) : turn :=
  match ps_currentPeer st with
  | None => Continue st
  | Some _ => match v with None => Done (Err e) | Some v => Continue (f v) end
  end.
Definition on_device (st : pstate) (f : Device → Device) : turn :=
  Continue (MkPstate (f (ps_device st)) (ps_currentPeer st) (ps_handshakeSec st) (ps_handshakeNSec st)).

Definition parse_kv (st : pstate) (key value : string) : turn :=
  let bad := ErrUAPIValue key value in
  if bool_decide (key = "private_key") then
    match parseHexKey value with
    | Err e => Done (Err (ErrUAPIKey key e))
    | Ok parsed => on_device st (λ d, MkDevice (dv_Name d) parsed (dv_PublicKey d) (dv_ListenPort d)
        (dv_FirewallMark d) (dv_IsAmnezia d) (dv_Peers d))
    end
  else if bool_decide (key = "public_key") then
    match parseHexKey value with
    | Err e => Done (Err (ErrUAPIKey key e))
    | Ok parsed =>
        let st := commitPeer st in
        Continue (MkPstate (ps_device st) (Some (new_peer parsed)) (ps_handshakeSec st) (ps_handshakeNSec st))
    end
  else if bool_decide (key = "listen_port") then
    match Atoi value with
    | None => Done (Err bad)
    | Some port => on_device st (λ d, MkDevice (dv_Name d) (dv_PrivateKey d) (dv_PublicKey d) port
        (dv_FirewallMark d) (dv_IsAmnezia d) (dv_Peers d))
    end
  else if bool_decide (key = "fwmark") then
    match Atoi value with
    | None => Done (Err bad)
    | Some mark => on_device st (λ d, MkDevice (dv_Name d) (dv_PrivateKey d) (dv_PublicKey d) (dv_ListenPort d)
        mark (dv_IsAmnezia d) (dv_Peers d))
    end
  else if bool_decide (key = "protocol_version") then
    on_peer st (λ p, v ← Atoi value; Some (MkPeer (pr_PublicKey p) (pr_PresharedKey p) (pr_Endpoint p)
      (pr_PersistentKeepaliveInterval p) (pr_LastHandshakeTime p) (pr_ReceiveBytes p) (pr_TransmitBytes p)
      (pr_AllowedIPs p) v)) bad
  else if bool_decide (key = "endpoint") then
    on_peer st (λ p, a ← ResolveUDPAddr value; Some (MkPeer (pr_PublicKey p) (pr_PresharedKey p) (Some a)
      (pr_PersistentKeepaliveInterval p) (pr_LastHandshakeTime p) (pr_ReceiveBytes p) (pr_TransmitBytes p)
      (pr_AllowedIPs p) (pr_ProtocolVersion p))) bad
  else if bool_decide (key = "persistent_keepalive_interval") then
    on_peer st (λ p, s ← Atoi value; Some (MkPeer (pr_PublicKey p) (pr_PresharedKey p) (pr_Endpoint p)
      (wrap_int64 (s * 1000000000)) (pr_LastHandshakeTime p) (pr_ReceiveBytes p) (pr_TransmitBytes p)
      (pr_AllowedIPs p) (pr_ProtocolVersion p))) bad
  else if bool_decide (key = "last_handshake_time_sec") then
    on_handshake st (ParseInt64 value)
      (λ sec, MkPstate (ps_device st) (ps_currentPeer st) sec (ps_handshakeNSec st)) bad
  else if bool_decide (key = "last_handshake_time_nsec") then
    on_handshake st (ParseInt64 value)
      (λ nsec, MkPstate (ps_device st) (ps_currentPeer st) (ps_handshakeSec st) nsec) bad
  else if bool_decide (key = "rx_bytes") then
    on_peer st (λ p, b ← ParseInt64 value; Some (MkPeer (pr_PublicKey p) (pr_PresharedKey p) (pr_Endpoint p)
      (pr_PersistentKeepaliveInterval p) (pr_LastHandshakeTime p) b (pr_TransmitBytes p)
      (pr_AllowedIPs p) (pr_ProtocolVersion p))) bad
  else if bool_decide (key = "tx_bytes") then
    on_peer st (λ p, b ← ParseInt64 value; Some (MkPeer (pr_PublicKey p) (pr_PresharedKey p) (pr_Endpoint p)
      (pr_PersistentKeepaliveInterval p) (pr_LastHandshakeTime p) (pr_ReceiveBytes p) b
      (pr_AllowedIPs p) (pr_ProtocolVersion p))) bad
  else if bool_decide (key = "allowed_ip") then
    on_peer st (λ p, '(_, n) ← ParseCIDR value; Some (MkPeer (pr_PublicKey p) (pr_PresharedKey p) (pr_Endpoint p)
      (pr_PersistentKeepaliveInterval p) (pr_LastHandshakeTime p) (pr_ReceiveBytes p) (pr_TransmitBytes p)
      (pr_AllowedIPs p ++ [n]) (pr_ProtocolVersion p))) bad
  else if bool_decide (key = "preshared_key") then
    match ps_currentPeer st with
    | None => Continue st
    | Some p =>
        match parseHexKey value with
        | Err e => Done (Err (ErrUAPIKey key e))
        | Ok psk => on_peer st (λ p, Some (MkPeer (pr_PublicKey p) psk (pr_Endpoint p)
            (pr_PersistentKeepaliveInterval p) (pr_LastHandshakeTime p) (pr_ReceiveBytes p) (pr_TransmitBytes p)
            (pr_AllowedIPs p) (pr_ProtocolVersion p))) bad
        end
    end
  else if bool_decide (key ∈ awg_keys) then
    on_device st (λ d, MkDevice (dv_Name d) (dv_PrivateKey d) (dv_PublicKey d) (dv_ListenPort d)
      (dv_FirewallMark d) true (dv_Peers d))
  else Continue st.

(** The device after a final [errno=0]. *)
Definition finish (st : pstate) : Device :=
  let d := ps_device (commitPeer st) in
  if negb (IsZero (dv_PrivateKey d)) then
    MkDevice (dv_Name d) (dv_PrivateKey d) (PublicKey (dv_PrivateKey d)) (dv_ListenPort d) (dv_FirewallMark d)
      (dv_IsAmnezia d) (dv_Peers d)
  else d.

Definition parse_line (st : pstate) (l : string) : turn :=
  let line := TrimSpace l in
  if bool_decide (line = "") then Continue st else
  match CutPrefix line "errno=" with
  | Some errnoText =>
      match errno_of errnoText line with
      | Err e => Done (Err e)
      | Ok _ => Done (Ok (finish st))
      end
  | None =>
      match Cut line "=" with
      | None => Done (Err (ErrUAPILine line))
      | Some (key, value) => parse_kv st key value
      end
  end.

Fixpoint parse_lines (st : pstate) (lines : list string) : turn :=
  match lines with
  | [] => Continue st
  | l :: lines => match parse_line st l with Continue st => parse_lines st lines | d => d end
  end.

Definition parseDevice (text : string) (rerr : bool) : res uapi_error Device :=
  let '(lines, e) := ScanLines text in
  match parse_lines pstate0 lines with
  | Done r => r
  | Continue _ => if scan_failed e rerr then Err ErrUAPIScan else Err ErrUAPINoErrno
  end.

(** ** The client

    A connection: the writer, what the device answers, and whether reading it ends
    in an error; [None] when dialling the socket fails. *)
Record conn := MkConn { cn_writer : writer; cn_answer : string; cn_rerr : bool }.

Definition ConfigureDevice (dial : option conn) (name : string) (cfg : Config) : res uapi_error unit * string :=
  match ValidateInterfaceName name with
  | Err e => (Err (ErrUAPIName e), "")
  | Ok _ =>
      match dial with
      | None => (Err ErrUAPIDial, "")
      | Some c =>
          let '(r, w) :=
            (do! WriteString "set" ("set=1" +:+ newline);
             do! writeConfig cfg;
             WriteString "end" newline) (cn_writer c) in
          (match r with
           | Err e => Err e
           | Ok _ => readErrno (cn_answer c) (cn_rerr c)
           end, wr_out w)
      end
  end.

Definition GetDevice (dial : option conn) (name : string) : res uapi_error Device :=
  match ValidateInterfaceName name with
  | Err e => Err (ErrUAPIName e)
  | Ok _ =>
      match dial with
      | None => Err ErrUAPIDial
      | Some c =>
          match WriteString "get" ("get=1" +:+ newline +:+ newline) (cn_writer c) with
          | (Err e, _) => Err e
          | (Ok _, _) =>
              match parseDevice (cn_answer c) (cn_rerr c) with
              | Err e => Err e
              | Ok d => Ok (MkDevice name (dv_PrivateKey d) (dv_PublicKey d) (dv_ListenPort d)
                              (dv_FirewallMark d) (dv_IsAmnezia d) (dv_Peers d))
              end
          end
      end
  end.
End Device.
