(* ===== verification/UAPIProofs.v ===== *)
(** * The UAPI client: theorems

    A get response is read completely and in order; a set request carries exactly
    the fields of the configuration. *)

From S2P Require Import Prelude GoStrings GoNet GoText WgTypes UAPI.

(** ** Lines of key and value *)

Definition kv_line (kv : string * string) : string := kv.1 +:+ "=" +:+ kv.2.

(** A value that fits on a line: no line break, no blanks around it, not huge. *)
Definition value_ok (v : string) : Prop :=
  "010"%char ∉ to_bytes v ∧ "013"%char ∉ to_bytes v ∧ TrimSpace v = v ∧
  Z.of_nat (length (to_bytes v)) < 60000.

#[global] Instance value_ok_dec v : Decision (value_ok v).
Proof. unfold value_ok. apply _. Defined.

Definition key_char (a : ascii) : bool := is_lower a || is_digit a || bool_decide (a = "_"%char).
(** Keys of the protocol: short, lower case, and not the errno key. *)
Definition key_name (k : string) : Prop :=
  k ≠ "" ∧ Forall (λ a, key_char a = true) (to_bytes k) ∧ (length (to_bytes k) < 100)%nat ∧ k ≠ "errno".
#[global] Instance key_name_dec k : Decision (key_name k).
Proof. unfold key_name. apply _. Defined.

Lemma key_char_plain a : key_char a = true → plain a = true ∧ a ≠ "="%char ∧ a ≠ "010"%char ∧ a ≠ "013"%char.
Proof.
  intros H. unfold key_char, plain, space1, is_lower, is_digit in *. split.
  - destruct (bool_decide (a = "_"%char)) eqn:E; bool_to_prop; [by subst|]. lia.
  - split_and!; intros ->; discriminate H.
Qed.

Lemma key_name_free k c : key_name k → c = "="%char ∨ c = "010"%char ∨ c = "013"%char → c ∉ to_bytes k.
Proof.
  intros (_ & Hf & _) Hc Hin. rewrite Forall_forall in Hf. specialize (Hf _ Hin).
  apply key_char_plain in Hf. naive_solver.
Qed.

Lemma kv_line_ok k v : key_name k → value_ok v → line_ok (kv_line (k, v)).
Proof.
  intros Hk (Hn & Hr & _ & Hl). unfold line_ok, kv_line. cbn [fst snd]. rewrite !to_bytes_app.
  change (to_bytes "=") with ["="%char]. rewrite !not_elem_of_app, !length_app.
  split_and!; try done; try (apply key_name_free; auto); try (by intros ?%list_elem_of_singleton).
  destruct Hk as (_ & _ & Hk & _). cbn [length]. pose proof max_token_Z. lia.
Qed.

Lemma kv_line_trim k v : key_name k → TrimSpace v = v → TrimSpace (kv_line (k, v)) = kv_line (k, v).
Proof.
  intros (Hne & Hf & _) Hv. unfold kv_line. cbn [fst snd].
  destruct (to_bytes k) as [|a l] eqn:Ek; [destruct k; done|].
  apply Forall_cons in Hf as [Ha Hf]. apply key_char_plain in Ha as [Ha _].
  assert (k = of_bytes (a :: l)) as -> by (rewrite <- Ek; symmetry; apply of_to_bytes).
  destruct (decide (v = "")) as [->|Hvne].
  - apply TrimSpace_fixed; rewrite !to_bytes_app, to_of_bytes; [by apply plain_starts|].
    rewrite reverse_app. by apply plain_ends.
  - assert (∀ s, of_bytes (a :: l) +:+ "=" +:+ s = of_bytes (a :: l ++ ["="%char]) +:+ s) as E.
    { intros s. apply to_bytes_inj. rewrite !to_bytes_app, !to_of_bytes. cbn. by rewrite <- app_assoc. }
    rewrite E. by apply TrimSpace_line.
Qed.

Lemma kv_line_nonempty k v : key_name k → kv_line (k, v) ≠ "".
Proof. intros (Hne & _) H. unfold kv_line in H. cbn in H. by destruct k. Qed.

Lemma kv_line_cut k v : key_name k → Cut (kv_line (k, v)) "=" = Some (k, v).
Proof. intros Hk. unfold kv_line. cbn [fst snd]. apply (Cut_app k "=" v). apply key_name_free; auto. Qed.

Lemma kv_line_not_errno k v : key_name k → CutPrefix (kv_line (k, v)) "errno=" = None.
Proof.
  intros Hk. unfold CutPrefix, HasPrefix. destruct (is_prefix _ _) eqn:E; [|done]. exfalso.
  apply is_prefix_spec in E as [r E].
  assert (kv_line (k, v) = "errno" +:+ String "=" (of_bytes r)) as E'.
  { apply to_bytes_inj. rewrite E, to_bytes_app. cbn. by rewrite to_of_bytes. }
  assert (Cut (kv_line (k, v)) "=" = Some ("errno", of_bytes r)) as Hc
    by (rewrite E'; apply Cut_app; apply (bool_decide_unpack _); vm_compute; exact I).
  rewrite kv_line_cut in Hc by done. destruct Hk as (_ & _ & _ & Hk). congruence.
Qed.

(** Scanning lines with something behind them. *)
Lemma ScanLines_app ls rest : Forall line_ok ls →
  ScanLines (unlines ls +:+ rest) = (ls ++ (ScanLines rest).1, (ScanLines rest).2).
Proof.
  unfold ScanLines. induction 1 as [|l ls (Hn & Hr & Hlen) _ IH].
  - cbn. by destruct (scan_fit _).
  - cbn [unlines foldr]. fold (unlines ls).
    assert (to_bytes ((l +:+ String "010" (unlines ls)) +:+ rest) =
            to_bytes l ++ "010"%char :: to_bytes (unlines ls +:+ rest)) as E.
    { rewrite !to_bytes_app. cbn. by rewrite <- app_assoc. }
    rewrite E, scan_raw_line by done. cbn [scan_fit]. change (reverse [] ++ ?x) with x.
    rewrite (bool_decide_eq_false_2 (max_token ≤ _)%nat) by lia. rewrite IH.
    by rewrite drop_cr_none, of_to_bytes.
Qed.

(** ** Get responses

    A response as the UAPI defines it: keys of the device, then per peer its public
    key followed by the peer's keys in any order, then [errno=0]. *)

Inductive dattr :=
  | DPrivateKey (k : Key)
  | DListenPort (v : Z)
  | DFirewallMark (v : Z)
  | DAwg (key value : string).

Inductive attr :=
  | APresharedKey (k : Key)
  | AProtocolVersion (v : Z)
  | AEndpoint (a : UDPAddr)
  | AKeepalive (s : Z)
  | AHandshakeSec (v : Z)
  | AHandshakeNSec (v : Z)
  | AReceiveBytes (v : Z)
  | ATransmitBytes (v : Z)
  | AAllowedIP (n : IPNet).

Definition dattr_kv (a : dattr) : string * string :=
  match a with
  | DPrivateKey k => ("private_key", hexKey k)
  | DListenPort v => ("listen_port", Itoa v)
  | DFirewallMark v => ("fwmark", Itoa v)
  | DAwg key value => (key, value)
  end.
Definition attr_kv (a : attr) : string * string :=
  match a with
  | APresharedKey k => ("preshared_key", hexKey k)
  | AProtocolVersion v => ("protocol_version", Itoa v)
  | AEndpoint a => ("endpoint", udp_string a)
  | AKeepalive s => ("persistent_keepalive_interval", Itoa s)
  | AHandshakeSec v => ("last_handshake_time_sec", Itoa v)
  | AHandshakeNSec v => ("last_handshake_time_nsec", Itoa v)
  | AReceiveBytes v => ("rx_bytes", Itoa v)
  | ATransmitBytes v => ("tx_bytes", Itoa v)
  | AAllowedIP n => ("allowed_ip", net_string n)
  end.

Record peer_block := MkBlock { pb_key : Key; pb_attrs : list attr }.

Definition block_kvs (b : peer_block) : list (string * string) :=
  ("public_key", hexKey (pb_key b)) :: (attr_kv <$> pb_attrs b).
Definition response_lines (ds : list dattr) (bs : list peer_block) : list string :=
  (kv_line ∘ dattr_kv <$> ds) ++ (kv_line <$> mjoin (block_kvs <$> bs)) ++ ["errno=0"].

(** What the response says. *)
Definition apply_dattr (d : Device) (a : dattr) : Device :=
  match a with
  | DPrivateKey k => MkDevice (dv_Name d) k (dv_PublicKey d) (dv_ListenPort d) (dv_FirewallMark d) (dv_IsAmnezia d) (dv_Peers d)
  | DListenPort v => MkDevice (dv_Name d) (dv_PrivateKey d) (dv_PublicKey d) v (dv_FirewallMark d) (dv_IsAmnezia d) (dv_Peers d)
  | DFirewallMark v => MkDevice (dv_Name d) (dv_PrivateKey d) (dv_PublicKey d) (dv_ListenPort d) v (dv_IsAmnezia d) (dv_Peers d)
  | DAwg _ _ => MkDevice (dv_Name d) (dv_PrivateKey d) (dv_PublicKey d) (dv_ListenPort d) (dv_FirewallMark d) true (dv_Peers d)
  end.
Definition apply_attr (p : Peer) (a : attr) : Peer :=
  match a with
  | APresharedKey k => MkPeer (pr_PublicKey p) k (pr_Endpoint p) (pr_PersistentKeepaliveInterval p)
      (pr_LastHandshakeTime p) (pr_ReceiveBytes p) (pr_TransmitBytes p) (pr_AllowedIPs p) (pr_ProtocolVersion p)
  | AProtocolVersion v => MkPeer (pr_PublicKey p) (pr_PresharedKey p) (pr_Endpoint p) (pr_PersistentKeepaliveInterval p)
      (pr_LastHandshakeTime p) (pr_ReceiveBytes p) (pr_TransmitBytes p) (pr_AllowedIPs p) v
  | AEndpoint a => MkPeer (pr_PublicKey p) (pr_PresharedKey p) (Some a) (pr_PersistentKeepaliveInterval p)
      (pr_LastHandshakeTime p) (pr_ReceiveBytes p) (pr_TransmitBytes p) (pr_AllowedIPs p) (pr_ProtocolVersion p)
  | AKeepalive s => MkPeer (pr_PublicKey p) (pr_PresharedKey p) (pr_Endpoint p) (s * 1000000000)
      (pr_LastHandshakeTime p) (pr_ReceiveBytes p) (pr_TransmitBytes p) (pr_AllowedIPs p) (pr_ProtocolVersion p)
  | AHandshakeSec _ | AHandshakeNSec _ => p
  | AReceiveBytes v => MkPeer (pr_PublicKey p) (pr_PresharedKey p) (pr_Endpoint p) (pr_PersistentKeepaliveInterval p)
      (pr_LastHandshakeTime p) v (pr_TransmitBytes p) (pr_AllowedIPs p) (pr_ProtocolVersion p)
  | ATransmitBytes v => MkPeer (pr_PublicKey p) (pr_PresharedKey p) (pr_Endpoint p) (pr_PersistentKeepaliveInterval p)
      (pr_LastHandshakeTime p) (pr_ReceiveBytes p) v (pr_AllowedIPs p) (pr_ProtocolVersion p)
  | AAllowedIP n => MkPeer (pr_PublicKey p) (pr_PresharedKey p) (pr_Endpoint p) (pr_PersistentKeepaliveInterval p)
      (pr_LastHandshakeTime p) (pr_ReceiveBytes p) (pr_TransmitBytes p) (pr_AllowedIPs p ++ [n]) (pr_ProtocolVersion p)
  end.
(** The last handshake second and nanosecond of a block, 0 when it has none. *)
Definition handshake_sec (s : Z) (a : attr) : Z := match a with AHandshakeSec v => v | _ => s end.
Definition handshake_nsec (s : Z) (a : attr) : Z := match a with AHandshakeNSec v => v | _ => s end.

Definition block_peer (b : peer_block) : Peer :=
  with_handshake (foldl handshake_sec 0 (pb_attrs b)) (foldl handshake_nsec 0 (pb_attrs b))
    (foldl apply_attr (new_peer (pb_key b)) (pb_attrs b)).

Definition int64 (v : Z) : Prop := - 2 ^ 63 ≤ v < 2 ^ 63.

Section Responses.
Context (ResolveUDPAddr : string → option UDPAddr) (PublicKey : Key → Key).

(** The values a device can report: keys of 32 bytes, 64-bit integers, keepalives of
    16 bits, endpoints and networks whose text reads back. *)
Definition dattr_ok (a : dattr) : Prop :=
  match a with
  | DPrivateKey k => key_ok k
  | DListenPort v | DFirewallMark v => int64 v
  | DAwg key value => key ∈ awg_keys ∧ value_ok value
  end.
Definition attr_ok (a : attr) : Prop :=
  match a with
  | APresharedKey k => key_ok k
  | AProtocolVersion v | AHandshakeSec v | AHandshakeNSec v | AReceiveBytes v | ATransmitBytes v => int64 v
  | AEndpoint a => ResolveUDPAddr (udp_string a) = Some a ∧ value_ok (udp_string a)
  | AKeepalive s => 0 ≤ s < 65536
  | AAllowedIP n => (∃ ip, ParseCIDR (net_string n) = Some (ip, n)) ∧ value_ok (net_string n)
  end.
#[global] Instance dattr_ok_dec a : Decision (dattr_ok a).
Proof. destruct a; cbn; unfold key_ok, int64; apply _. Defined.
Definition block_ok (b : peer_block) : Prop := key_ok (pb_key b) ∧ Forall attr_ok (pb_attrs b).

Lemma plain_value_ok v :
  Forall (λ a, plain a = true) (to_bytes v) → Z.of_nat (length (to_bytes v)) < 60000 → value_ok v.
Proof.
  intros Hf Hl. unfold value_ok. split_and!; [| |by apply TrimSpace_plain|done];
    intros Hin; rewrite Forall_forall in Hf; by specialize (Hf _ Hin).
Qed.

Lemma int_value_ok v : int64 v → value_ok (Itoa v).
Proof.
  intros Hv. apply plain_value_ok.
  - eapply Forall_impl; [apply Itoa_chars|]. intros a Ha. unfold int_char, is_digit, plain, space1 in *.
    destruct (bool_decide (a = "-"%char)) eqn:E; bool_to_prop; [by subst|lia].
  - pose proof (Itoa_length v Hv). lia.
Qed.

Lemma hex_value_ok k : key_ok k → value_ok (hexKey k).
Proof.
  intros Hk. apply plain_value_ok.
  - eapply Forall_impl; [apply hex_encode_chars|]. apply hex_char_plain.
  - unfold hexKey. rewrite hex_encode_length, Hk. unfold key_size. lia.
Qed.

(** IPv4 endpoints and networks qualify, with any resolver that knows literals. *)
Lemma net4_attr_ok n : net4_ok n → attr_ok (AAllowedIP n).
Proof.
  intros Hn. split; [eexists; by apply ParseCIDR_net4|]. apply plain_value_ok.
  - eapply Forall_impl; [by apply net4_chars|]. intros a Ha. unfold quad_char, plain, space1, is_digit in *.
    destruct (bool_decide (a = "."%char)) eqn:E1, (bool_decide (a = "/"%char)) eqn:E2; bool_to_prop; subst; try done; lia.
  - destruct n as [v4 v b]. destruct Hn as (Hv4 & _ & Hb & _). cbn in *. subst.
    unfold net_string, network_number. cbn [net_v4 net_ip net_bits]. rewrite !to_bytes_app, !length_app.
    destruct (addr4_bytes v) as (x & y & z & w & _ & Hx & Hy & Hz & Hw & ->).
    rewrite !length_app. cbn [length]. rewrite !length_app. cbn [length]. rewrite !length_app. cbn [length].
    pose proof (Itoa_length_nonneg x). pose proof (Itoa_length_nonneg y). pose proof (Itoa_length_nonneg z).
    pose proof (Itoa_length_nonneg w). pose proof (Itoa_length_nonneg b). cbn [String.list_ascii_of_string length]. lia.
Qed.

Lemma dattr_kv_ok a : dattr_ok a → key_name (dattr_kv a).1 ∧ value_ok (dattr_kv a).2.
Proof.
  destruct a; cbn [dattr_ok dattr_kv fst snd]; intros H;
    try (split; [by apply (bool_decide_unpack _)|auto using hex_value_ok, int_value_ok]).
  destruct H as [Hk Hv]. split; [|done].
  assert (Forall key_name awg_keys) as Hall by (apply (bool_decide_unpack _); vm_compute; exact I).
  rewrite Forall_forall in Hall. auto.
Qed.

Lemma attr_kv_ok a : attr_ok a → key_name (attr_kv a).1 ∧ value_ok (attr_kv a).2.
Proof.
  destruct a; cbn [attr_ok attr_kv fst snd]; intros H; (split; [by apply (bool_decide_unpack _)|]);
    try (by destruct H); auto using hex_value_ok, int_value_ok.
  apply int_value_ok. unfold int64. lia.
Qed.

(** ** One line *)

Lemma parse_line_kv st kv : key_name kv.1 → value_ok kv.2 →
  parse_line ResolveUDPAddr PublicKey st (kv_line kv) = parse_kv ResolveUDPAddr st kv.1 kv.2.
Proof.
  destruct kv as [k v]. cbn [fst snd]. intros Hk (_ & _ & Hv & _). unfold parse_line.
  rewrite kv_line_trim by done.
  rewrite (bool_decide_eq_false_2 (kv_line (k, v) = "")) by (by apply kv_line_nonempty).
  by rewrite kv_line_not_errno, kv_line_cut by done.
Qed.

Lemma parse_attr d p s n a : attr_ok a →
  parse_line ResolveUDPAddr PublicKey (MkPstate d (Some p) s n) (kv_line (attr_kv a)) =
  Continue (MkPstate d (Some (apply_attr p a)) (handshake_sec s a) (handshake_nsec n a)).
Proof.
  intros Ha. destruct (attr_kv_ok a Ha) as [Hk Hv]. rewrite parse_line_kv by done. clear Hk Hv.
  destruct a; cbn [attr_kv fst snd attr_ok] in *; unfold parse_kv; key_steps;
    unfold on_peer, on_handshake, ParseInt64; cbn [ps_currentPeer ps_device ps_handshakeSec ps_handshakeNSec].
  - by rewrite parseHexKey_hexKey.
  - by rewrite Atoi_Itoa.
  - destruct Ha as [-> _]. done.
  - rewrite Atoi_Itoa by lia. cbn [mbind option_bind]. by rewrite wrap_int64_id by lia.
  - by rewrite Atoi_Itoa.
  - by rewrite Atoi_Itoa.
  - by rewrite Atoi_Itoa.
  - by rewrite Atoi_Itoa.
  - destruct Ha as [[ip ->] _]. done.
Qed.

Lemma parse_attrs d s n l : Forall attr_ok l → ∀ p,
  parse_lines ResolveUDPAddr PublicKey (MkPstate d (Some p) s n) (kv_line <$> (attr_kv <$> l)) =
  Continue (MkPstate d (Some (foldl apply_attr p l)) (foldl handshake_sec s l) (foldl handshake_nsec n l)).
Proof.
  intros Hl. revert s n. induction Hl as [|a l Ha _ IH]; intros s n p; [done|].
  cbn [fmap list_fmap parse_lines]. rewrite parse_attr by done. apply IH.
Qed.

Lemma parse_dattr st a : dattr_ok a →
  parse_line ResolveUDPAddr PublicKey st (kv_line (dattr_kv a)) = on_device st (λ d, apply_dattr d a).
Proof.
  intros Ha. destruct (dattr_kv_ok a Ha) as [Hk Hv]. rewrite parse_line_kv by done. clear Hk Hv.
  destruct a as [k|v|v|key value]; cbn [dattr_kv fst snd dattr_ok] in *.
  - unfold parse_kv; key_steps. by rewrite parseHexKey_hexKey.
  - unfold parse_kv; key_steps. by rewrite Atoi_Itoa.
  - unfold parse_kv; key_steps. by rewrite Atoi_Itoa.
  - destruct Ha as [Hk _]. unfold awg_keys in Hk. repeat (apply elem_of_cons in Hk as [->|Hk]);
      [..|by apply not_elem_of_nil in Hk];
      unfold parse_kv; key_steps; rewrite (bool_decide_eq_true_2 (_ ∈ awg_keys));
      [reflexivity|by apply (bool_decide_unpack _)|..]; try reflexivity; try (by apply (bool_decide_unpack _)).
Qed.

Lemma parse_dattrs l : Forall dattr_ok l → ∀ d,
  parse_lines ResolveUDPAddr PublicKey (MkPstate d None 0 0) (kv_line ∘ dattr_kv <$> l) =
  Continue (MkPstate (foldl apply_dattr d l) None 0 0).
Proof.
  induction 1 as [|a l Ha _ IH]; intros d; [done|]. cbn [fmap list_fmap parse_lines compose].
  rewrite parse_dattr by done. apply IH.
Qed.

Lemma parse_lines_app a b st : parse_lines ResolveUDPAddr PublicKey st (a ++ b) =
  match parse_lines ResolveUDPAddr PublicKey st a with
  | Continue st => parse_lines ResolveUDPAddr PublicKey st b
  | d => d
  end.
Proof.
  revert st. induction a as [|l a IH]; intros st; [done|]. cbn [app parse_lines].
  destruct (parse_line ResolveUDPAddr PublicKey st l); [apply IH|done].
Qed.

(** ** Peers *)

(** The handshake variables are zero between peers. *)
Definition pstate_ok (st : pstate) : Prop :=
  ps_currentPeer st = None → ps_handshakeSec st = 0 ∧ ps_handshakeNSec st = 0.

Lemma commitPeer_ok st : pstate_ok st → commitPeer st = MkPstate (ps_device (commitPeer st)) None 0 0.
Proof.
  unfold pstate_ok, commitPeer. destruct st as [d [p|] s n]; cbn; [done|]. intros H. by destruct H as [-> ->].
Qed.

Lemma parse_block st b : pstate_ok st → block_ok b → ∃ st',
  parse_lines ResolveUDPAddr PublicKey st (kv_line <$> block_kvs b) = Continue st' ∧ pstate_ok st' ∧
  ps_device (commitPeer st') = set_peers (λ l, l ++ [block_peer b]) (ps_device (commitPeer st)).
Proof.
  intros Hst [Hk Ha]. unfold block_kvs. cbn [fmap list_fmap parse_lines].
  rewrite parse_line_kv by (cbn [fst snd]; auto using hex_value_ok; by apply (bool_decide_unpack _)).
  cbn [fst snd]. unfold parse_kv; key_steps. rewrite parseHexKey_hexKey by done.
  rewrite (commitPeer_ok st Hst). cbn [ps_device ps_handshakeSec ps_handshakeNSec].
  rewrite parse_attrs by done. eexists. split_and!; [done|done|]. unfold commitPeer at 1. done.
Qed.

Lemma parse_blocks bs : Forall block_ok bs → ∀ st, pstate_ok st → ∃ st',
  parse_lines ResolveUDPAddr PublicKey st (kv_line <$> mjoin (block_kvs <$> bs)) = Continue st' ∧
  ps_device (commitPeer st') = set_peers (λ l, l ++ (block_peer <$> bs)) (ps_device (commitPeer st)).
Proof.
  induction 1 as [|b bs Hb _ IH]; intros st Hst.
  - exists st. split; [done|]. unfold set_peers. cbn [fmap list_fmap]. rewrite app_nil_r. by destruct (ps_device (commitPeer st)).
  - rewrite fmap_cons. change (mjoin (block_kvs b :: ?x)) with (block_kvs b ++ mjoin x).
    rewrite fmap_app, parse_lines_app. destruct (parse_block st b Hst Hb) as (st1 & -> & Hst1 & E1).
    destruct (IH st1 Hst1) as (st2 & -> & E2). exists st2. split; [done|].
    rewrite E2, E1. unfold set_peers. cbn. by rewrite <- app_assoc.
Qed.

(** The device a response describes. *)
Definition described (ds : list dattr) (bs : list peer_block) : Device :=
  let d := foldl apply_dattr Device0 ds in
  MkDevice "" (dv_PrivateKey d) (if IsZero (dv_PrivateKey d) then zero_key else PublicKey (dv_PrivateKey d))
    (dv_ListenPort d) (dv_FirewallMark d) (dv_IsAmnezia d) (block_peer <$> bs).

Lemma dattrs_fixed ds d : dv_Name (foldl apply_dattr d ds) = dv_Name d ∧
  dv_PublicKey (foldl apply_dattr d ds) = dv_PublicKey d ∧ dv_Peers (foldl apply_dattr d ds) = dv_Peers d.
Proof.
  revert d. induction ds as [|a ds IH]; intros d; [done|]. cbn [foldl].
  destruct (IH (apply_dattr d a)) as (-> & -> & ->). by destruct a.
Qed.

Lemma response_lines_ok ds bs : Forall dattr_ok ds → Forall block_ok bs → Forall line_ok (response_lines ds bs).
Proof.
  intros Hd Hb. unfold response_lines. apply Forall_app. split; [|apply Forall_app; split].
  - apply Forall_fmap. eapply Forall_impl; [done|]. intros a Ha. cbn.
    destruct (dattr_kv_ok a Ha). destruct (dattr_kv a). by apply kv_line_ok.
  - apply Forall_fmap, Forall_forall. intros kv Hkv.
    apply list_elem_of_join in Hkv as (g & Hkv & Hg). apply list_elem_of_fmap in Hg as (b & -> & Hin).
    rewrite Forall_forall in Hb. destruct (Hb b Hin) as [Hk Ha]. unfold block_kvs in Hkv.
    apply elem_of_cons in Hkv as [->|Hkv].
    + cbn. apply kv_line_ok; [by apply (bool_decide_unpack _)|by apply hex_value_ok].
    + apply list_elem_of_fmap in Hkv as (a & -> & Hin'). rewrite Forall_forall in Ha. specialize (Ha a Hin').
      destruct (attr_kv_ok a Ha). cbn. destruct (attr_kv a). by apply kv_line_ok.
  - apply Forall_singleton. unfold line_ok. split_and!; [by apply (bool_decide_unpack _)|by apply (bool_decide_unpack _)|].
    pose proof max_token_Z. change (length (to_bytes "errno=0")) with 7%nat. lia.
Qed.

Lemma parseDevice_run ds bs rest rerr :
  Forall dattr_ok ds → Forall block_ok bs →
  parseDevice ResolveUDPAddr PublicKey (unlines (response_lines ds bs) +:+ rest) rerr = Ok (described ds bs).
Proof.
  intros Hd Hb. unfold parseDevice. rewrite ScanLines_app by (by apply response_lines_ok).
  unfold response_lines. rewrite <- !app_assoc, parse_lines_app. unfold pstate0.
  rewrite parse_dattrs by done. rewrite parse_lines_app.
  destruct (parse_blocks bs Hb (MkPstate (foldl apply_dattr Device0 ds) None 0 0)) as (st & -> & E); [done|].
  cbn [app parse_lines]. change (parse_line ResolveUDPAddr PublicKey st "errno=0") with (Done (Ok (finish PublicKey st))).
  cbv iota beta. f_equal. unfold finish. rewrite E. unfold described, set_peers, commitPeer.
  cbn [ps_currentPeer ps_device dv_Name dv_PrivateKey dv_PublicKey dv_ListenPort dv_FirewallMark dv_IsAmnezia dv_Peers].
  destruct (dattrs_fixed ds Device0) as (-> & -> & ->).
  by destruct (IsZero (dv_PrivateKey (foldl apply_dattr Device0 ds))).
Qed.
End Responses.

(** C17. A device response is read completely: for every sequence of device keys and
    every sequence of peers, each a public key followed by its keys in any order, and
    whatever follows the final [errno=0], [parseDevice] returns every peer, in order,
    with the values reported for it, the device's own values, and the public key
    derived from the private key. In particular a device with one peer has one peer. *)
Theorem get_response_complete ResolveUDPAddr PublicKey ds bs rest rerr :
  Forall dattr_ok ds → Forall (block_ok ResolveUDPAddr) bs →
  parseDevice ResolveUDPAddr PublicKey (unlines (response_lines ds bs) +:+ rest) rerr =
    Ok (described PublicKey ds bs) ∧
  dv_Peers (described PublicKey ds bs) = block_peer <$> bs ∧
  (pr_PublicKey <$> dv_Peers (described PublicKey ds bs)) = pb_key <$> bs.
Proof.
  intros Hd Hb. split_and!; [by apply parseDevice_run|done|]. cbn. rewrite <- list_fmap_compose.
  apply list_fmap_ext. intros i b _. cbn. unfold block_peer.
  assert (∀ l p, pr_PublicKey (foldl apply_attr p l) = pr_PublicKey p) as Hk.
  { induction l as [|a l IH]; intros p; [done|]. cbn. rewrite IH. by destruct a. }
  unfold with_handshake. destruct (_ || _); cbn; apply Hk.
Qed.

Definition sample_response : list dattr * list peer_block :=
  ([DPrivateKey sample_key; DListenPort 51820; DAwg "jc" "4"],
   [MkBlock (clamp sample_key) [AEndpoint (udp4 3232235777 51820); AHandshakeSec 1700000000; ATransmitBytes 7;
      AKeepalive 25; AAllowedIP (host_net 167772161)]]).

Lemma get_response_complete_witness :
  parseDevice resolve_literal (λ k, k)
    (unlines (response_lines sample_response.1 sample_response.2) +:+ "") false =
  Ok (described (λ k, k) sample_response.1 sample_response.2).
Proof.
  apply (get_response_complete resolve_literal (λ k, k) sample_response.1 sample_response.2 "" false).
  - apply (bool_decide_unpack _). by vm_compute.
  - apply Forall_singleton. split; [done|]. repeat (apply Forall_cons; split); cbn [attr_ok]; try done.
    + split; [by apply (resolve_udp4 3232235777 51820)|]. apply (bool_decide_unpack _). by vm_compute.
    + by apply (net4_attr_ok resolve_literal).
Defined.

(** ** Set requests *)

Definition opt_kv (key : string) (v : option string) : list (string * string) :=
  match v with Some x => [(key, x)] | None => [] end.
Definition flag_kv (key : string) (b : bool) : list (string * string) := if b then [(key, "true")] else [].

(** The key-value pairs a configuration stands for. *)
Definition device_kvs (cfg : Config) : list (string * string) :=
  opt_kv "private_key" (hexKey <$> cf_PrivateKey cfg) ++ opt_kv "listen_port" (Itoa <$> cf_ListenPort cfg) ++
  opt_kv "fwmark" (Itoa <$> cf_FirewallMark cfg) ++ flag_kv "replace_peers" (cf_ReplacePeers cfg) ++
  mjoin ((λ '(k, v), opt_kv k v) <$> awg_ints cfg) ++ mjoin ((λ '(k, v), opt_kv k v) <$> awg_strings cfg).
Definition peer_kvs (p : PeerConfig) : list (string * string) :=
  [("public_key", hexKey (pc_PublicKey p))] ++ flag_kv "remove" (pc_Remove p) ++ flag_kv "update_only" (pc_UpdateOnly p) ++
  opt_kv "preshared_key" (hexKey <$> pc_PresharedKey p) ++ opt_kv "endpoint" (udp_string <$> pc_Endpoint p) ++
  opt_kv "persistent_keepalive_interval" (Itoa ∘ int_seconds <$> pc_PersistentKeepaliveInterval p) ++
  flag_kv "replace_allowed_ips" (pc_ReplaceAllowedIPs p) ++ ((λ n, ("allowed_ip", net_string n)) <$> pc_AllowedIPs p).
Definition config_kvs (cfg : Config) : list (string * string) :=
  device_kvs cfg ++ mjoin (peer_kvs <$> cf_Peers cfg).

(** Writes the pairs in order and ends with [fin]. *)
Fixpoint emit (l : list (string * string)) (fin : res uapi_error unit) : W unit :=
  match l with
  | [] => λ w, (fin, w)
  | (k, v) :: l => do! writeKV k v; emit l fin
  end.

(** Two writers that do the same. *)
Record weq {A} (m n : W A) : Prop := MkWeq { weq_run : ∀ w, m w = n w }.
Arguments MkWeq {A m n}.
Arguments weq_run {A m n}.
#[global] Instance weq_equiv {A} : Equivalence (@weq A).
Proof. split; [done|intros ?? [H]; by split|intros ??? [H1] [H2]; split; intros w; by rewrite H1]. Qed.
#[global] Instance w_bind_proper {A B} : Proper (weq ==> pointwise_relation A weq ==> weq) (@w_bind A B).
Proof.
  intros m m' [Hm] k k' Hk. split. intros w. unfold w_bind. rewrite Hm.
  destruct (m' w) as [[a|e] w']; [apply Hk|done].
Qed.

Lemma w_bind_assoc {A B C} (m : W A) (k : A → W B) (h : B → W C) :
  weq (w_bind (w_bind m k) h) (w_bind m (λ a, w_bind (k a) h)).
Proof. split. intros w. unfold w_bind. by destruct (m w) as [[a|e] w']. Qed.

Lemma emit_app a b fin : weq (do! emit a (Ok ()); emit b fin) (emit (a ++ b) fin).
Proof.
  induction a as [|[k v] a IH]; [done|]. cbn [emit app]. rewrite w_bind_assoc. apply w_bind_proper; [done|].
  intros []. exact IH.
Qed.

Lemma emit_err a e (k : W unit) : weq (do! emit a (Err e); k) (emit a (Err e)).
Proof.
  induction a as [|[key v] a IH]; [done|]. cbn [emit]. rewrite w_bind_assoc. apply w_bind_proper; [done|].
  intros []. exact IH.
Qed.

Lemma write_opt_emit key v : weq (write_opt key v) (emit (opt_kv key v) (Ok ())).
Proof.
  destruct v as [v|]; cbn; [|done]. split. intros w. unfold w_bind. by destruct (writeKV key v w) as [[[]|e] w'].
Qed.
Lemma write_flag_emit key b : weq (write_flag key b) (emit (flag_kv key b) (Ok ())).
Proof. destruct b; [apply (write_opt_emit key (Some "true"))|done]. Qed.
Lemma write_fields_emit l : weq (write_fields l) (emit (mjoin ((λ '(k, v), opt_kv k v) <$> l)) (Ok ())).
Proof.
  induction l as [|[k v] l IH]; [done|]. cbn [write_fields]. setoid_rewrite write_opt_emit. setoid_rewrite IH. apply emit_app.
Qed.

Lemma write_peer_emit i p : weq (write_peer i p)
  (if IsZero (pc_PublicKey p) then emit [] (Err (ErrUAPIPeerKey i)) else emit (peer_kvs p) (Ok ())).
Proof.
  unfold write_peer, peer_kvs. destruct (IsZero (pc_PublicKey p)); [done|].
  setoid_rewrite (write_opt_emit "public_key" (Some (hexKey (pc_PublicKey p))) : weq (writeKV _ _) _).
  setoid_rewrite write_flag_emit. setoid_rewrite write_opt_emit. setoid_rewrite write_fields_emit.
  assert (mjoin ((λ '(k, v), opt_kv k v) <$> ((λ n, ("allowed_ip", Some (net_string n))) <$> pc_AllowedIPs p)) =
          (λ n, ("allowed_ip", net_string n)) <$> pc_AllowedIPs p) as ->
    by (induction (pc_AllowedIPs p) as [|n l IH]; [done|]; cbn; f_equal; exact IH).
  repeat setoid_rewrite emit_app. done.
Qed.

(** The peers before the first one without a public key, and its position. *)
Fixpoint valid_peers (i : nat) (ps : list PeerConfig) : list PeerConfig * res uapi_error unit :=
  match ps with
  | [] => ([], Ok ())
  | p :: ps =>
      if IsZero (pc_PublicKey p) then ([], Err (ErrUAPIPeerKey i))
      else let '(l, fin) := valid_peers (S i) ps in (p :: l, fin)
  end.

Lemma write_peers_emit ps : ∀ i, weq (write_peers i ps)
  (emit (mjoin (peer_kvs <$> (valid_peers i ps).1)) (valid_peers i ps).2).
Proof.
  induction ps as [|p ps IH]; intros i; [done|]. cbn [write_peers valid_peers].
  setoid_rewrite write_peer_emit. destruct (IsZero (pc_PublicKey p)); [apply emit_err|].
  setoid_rewrite IH. destruct (valid_peers (S i) ps) as [l fin]. cbn [fst snd]. apply emit_app.
Qed.

(** What is written, as one sequence of pairs and an outcome. *)
Lemma writeConfig_emit cfg : weq (writeConfig cfg)
  (emit (device_kvs cfg ++ mjoin (peer_kvs <$> (valid_peers 0 (cf_Peers cfg)).1)) (valid_peers 0 (cf_Peers cfg)).2).
Proof.
  unfold writeConfig, device_kvs. setoid_rewrite write_opt_emit. setoid_rewrite write_flag_emit.
  setoid_rewrite write_fields_emit. setoid_rewrite write_peers_emit. repeat setoid_rewrite emit_app. by rewrite <- !app_assoc.
Qed.

(** The keys [writeConfig] may send. *)
Definition set_keys : list string :=
  ["private_key"; "listen_port"; "fwmark"; "replace_peers"; "jc"; "jmin"; "jmax"; "s1"; "s2";
   "h1"; "h2"; "h3"; "h4"; "i1"; "i2"; "i3"; "i4"; "i5"; "public_key"; "remove"; "update_only";
   "preshared_key"; "endpoint"; "persistent_keepalive_interval"; "replace_allowed_ips"; "allowed_ip"].

Lemma opt_kv_key k v kv : kv ∈ opt_kv k v → kv.1 = k.
Proof. destruct v; cbn; [by intros ->%list_elem_of_singleton|by intros ?%not_elem_of_nil]. Qed.
Lemma flag_kv_key k b kv : kv ∈ flag_kv k b → kv.1 = k.
Proof. destruct b; cbn; [by intros ->%list_elem_of_singleton|by intros ?%not_elem_of_nil]. Qed.
Lemma fields_key (l : list (string * option string)) kv :
  kv ∈ mjoin ((λ '(k, v), opt_kv k v) <$> l) → kv.1 ∈ l.*1.
Proof.
  intros (g & Hkv & ([k v] & -> & Hin)%list_elem_of_fmap)%list_elem_of_join.
  apply opt_kv_key in Hkv as ->. apply list_elem_of_fmap. by exists (k, v).
Qed.

Lemma config_keys cfg kv : kv ∈ config_kvs cfg → kv.1 ∈ set_keys.
Proof.
  assert (∀ l k, bool_decide (l ⊆ set_keys) = true → k ∈ l → k ∈ set_keys) as Hsub
    by (intros l k H; apply bool_decide_eq_true in H; apply H).
  unfold config_kvs, device_kvs. rewrite !elem_of_app.
  intros [[Hkv|[Hkv|[Hkv|[Hkv|[Hkv|Hkv]]]]]|Hkv];
    try (apply opt_kv_key in Hkv as ->; by apply (bool_decide_unpack _));
    try (apply flag_kv_key in Hkv as ->; by apply (bool_decide_unpack _));
    try (apply fields_key in Hkv; eapply Hsub; [|exact Hkv]; by vm_compute).
  apply list_elem_of_join in Hkv as (g & Hkv & Hg). apply list_elem_of_fmap in Hg as (p & -> & _).
  unfold peer_kvs in Hkv. rewrite !elem_of_app in Hkv.
  destruct Hkv as [Hkv|[Hkv|[Hkv|[Hkv|[Hkv|[Hkv|[Hkv|Hkv]]]]]]];
    try (apply opt_kv_key in Hkv as ->; by apply (bool_decide_unpack _));
    try (apply flag_kv_key in Hkv as ->; by apply (bool_decide_unpack _)).
  - apply list_elem_of_singleton in Hkv as ->. by apply (bool_decide_unpack _).
  - apply list_elem_of_fmap in Hkv as (n & -> & _). by apply (bool_decide_unpack _).
Qed.

Lemma emit_run l fin : ∀ out,
  emit l fin (MkWriter out None) = (fin, MkWriter (out +:+ unlines (kv_line <$> l)) None).
Proof.
  induction l as [|[k v] l IH]; intros out; cbn [emit fmap list_fmap].
  - f_equal. f_equal. apply to_bytes_inj. rewrite to_bytes_app. cbn. by rewrite app_nil_r.
  - unfold w_bind, writeKV, WriteString. cbn [wr_left wr_out]. rewrite IH. f_equal. f_equal.
    apply to_bytes_inj. unfold kv_line, newline. cbn [unlines foldr fst snd].
    rewrite !to_bytes_app. cbn. rewrite <- !app_assoc. f_equal. f_equal. cbn. f_equal. by rewrite <- !app_assoc.
Qed.

(** A broken connection: only the first lines got out. *)
Lemma emit_broken l fin : ∀ n out, (n < length l)%nat → ∃ k,
  emit l fin (MkWriter out (Some n)) = (Err (ErrUAPIWrite k), MkWriter (out +:+ unlines (kv_line <$> take n l)) (Some 0%nat)).
Proof.
  induction l as [|[k v] l IH]; intros n out Hn; cbn [length] in Hn; [lia|]. cbn [emit]. destruct n as [|n].
  - exists k. unfold w_bind, writeKV, WriteString. cbn. f_equal. f_equal. apply to_bytes_inj.
    rewrite to_bytes_app. cbn. by rewrite app_nil_r.
  - unfold w_bind, writeKV, WriteString. cbn [wr_left wr_out]. destruct (IH n (out +:+ k +:+ "=" +:+ v +:+ newline)) as [k' ->]; [lia|].
    exists k'. f_equal. f_equal. apply to_bytes_inj. unfold kv_line, newline. cbn [unlines foldr fst snd take fmap list_fmap].
    rewrite !to_bytes_app. cbn. rewrite <- !app_assoc. f_equal. f_equal. cbn. f_equal. by rewrite <- !app_assoc.
Qed.

(** How a device reads a request: lines up to the empty one, each split at its first
    equals sign. *)
Fixpoint until_empty (ls : list string) : list string :=
  match ls with
  | [] => []
  | l :: ls => if bool_decide (l = "") then [] else l :: until_empty ls
  end.
Definition request_kvs (text : string) : list (option (string * string)) :=
  (λ l, Cut l "=") <$> until_empty (ScanLines text).1.

Lemma until_empty_app a b : Forall (λ l, l ≠ "") a → until_empty (a ++ "" :: b) = a.
Proof.
  induction 1 as [|l a Hl _ IH]; [done|]. cbn [app until_empty]. rewrite bool_decide_eq_false_2 by done. by rewrite IH.
Qed.

Lemma request_read kvs :
  Forall (λ kv, key_name kv.1) kvs → Forall line_ok (kv_line <$> kvs) →
  request_kvs (unlines (kv_line <$> kvs) +:+ newline) = Some <$> kvs.
Proof.
  intros Hk Hl. unfold request_kvs. rewrite ScanLines_app by done.
  change (ScanLines newline).1 with [""]. cbn [fst].
  rewrite until_empty_app.
  - rewrite <- list_fmap_compose. apply list_fmap_ext. intros i [k v] Hi. cbn.
    apply kv_line_cut. rewrite Forall_forall in Hk. by apply (Hk (k, v)), list_elem_of_lookup_2 with i.
  - apply Forall_fmap. eapply Forall_impl; [done|]. intros [k v] Hkv. by apply kv_line_nonempty.
Qed.

Lemma set_keys_names : Forall key_name set_keys.
Proof. apply (bool_decide_unpack _). by vm_compute. Qed.

(** A configuration all of whose peers have a public key. *)
Definition peers_keyed (cfg : Config) : Prop := Forall (λ p, IsZero (pc_PublicKey p) = false) (cf_Peers cfg).

Lemma valid_peers_all ps : Forall (λ p, IsZero (pc_PublicKey p) = false) ps → ∀ i, valid_peers i ps = (ps, Ok ()).
Proof. induction 1 as [|p ps Hp _ IH]; intros i; [done|]. cbn. by rewrite Hp, IH. Qed.

Lemma ConfigureDevice_request name cfg answer rerr :
  ValidateInterfaceName name = Ok () → peers_keyed cfg →
  ConfigureDevice (Some (MkConn (MkWriter "" None) answer rerr)) name cfg =
    (readErrno answer rerr, unlines (kv_line <$> ("set", "1") :: config_kvs cfg) +:+ newline).
Proof.
  intros Hn Hp. unfold ConfigureDevice. rewrite Hn. unfold w_bind at 1. cbn [cn_writer WriteString wr_left wr_out].
  unfold w_bind. rewrite (weq_run (writeConfig_emit cfg)), (valid_peers_all _ Hp), emit_run. cbn [fst snd].
  unfold WriteString. cbn [wr_left wr_out]. f_equal.
Qed.

(** A set request carries exactly the configuration: for a valid interface name,
    peers with public keys and values without line breaks, the text on the socket,
    read line by line up to the empty line, is [set=1] followed by one pair per field
    that is set, the device's first and each peer's after its public key, in a fixed
    order; the driver's unsupported [s3] and [s4] are never sent, and the result is the
    device's errno. *)
Theorem set_request_exact name cfg answer rerr :
  ValidateInterfaceName name = Ok () → peers_keyed cfg → Forall line_ok (kv_line <$> config_kvs cfg) →
  let '(r, text) := ConfigureDevice (Some (MkConn (MkWriter "" None) answer rerr)) name cfg in
  r = readErrno answer rerr ∧ request_kvs text = Some <$> ("set", "1") :: config_kvs cfg ∧
  ∀ kv, kv ∈ config_kvs cfg → kv.1 ∈ set_keys ∧ kv.1 ≠ "s3" ∧ kv.1 ≠ "s4".
Proof.
  intros Hn Hp Hl. rewrite ConfigureDevice_request by done. split_and!; [done|apply request_read|].
  - constructor; [by apply (bool_decide_unpack _)|]. apply Forall_forall. intros kv Hkv%config_keys.
    pose proof set_keys_names as Hs. rewrite Forall_forall in Hs. auto.
  - rewrite fmap_cons. constructor; [|done]. apply kv_line_ok; apply (bool_decide_unpack _); by vm_compute.
  - intros kv Hkv%config_keys. split; [done|].
    assert (Forall (λ k, k ≠ "s3" ∧ k ≠ "s4") set_keys) as Hs by (apply (bool_decide_unpack _); by vm_compute).
    rewrite Forall_forall in Hs. by apply Hs.
Qed.

Definition sample_config : Config :=
  MkConfig (Some sample_key) (Some 51821) None true
    [MkPeerConfig (clamp sample_key) false false None (Some (udp4 3232235777 51820)) (Some 25000000000) true
       [host_net 167772161]]
    (Some 4) (Some 80) (Some 200) (Some 20) (Some 30) (Some 40) (Some 7)
    (Some "150000001") None None None (Some "<b 0d0a>") None None None None.

Lemma set_request_exact_witness :
  let '(r, text) := ConfigureDevice (Some (MkConn (MkWriter "" None) ("errno=0" +:+ newline) false)) "wg-mesh" sample_config in
  r = Ok () ∧ request_kvs text = Some <$> ("set", "1") :: config_kvs sample_config.
Proof.
  pose proof (set_request_exact "wg-mesh" sample_config ("errno=0" +:+ newline) false) as H.
  destruct (ConfigureDevice _ _ _) as [r text]. destruct H as (-> & H & _); [reflexivity| | |split; [reflexivity|exact H]].
  - apply (bool_decide_unpack _). by vm_compute.
  - unfold line_ok. apply (bool_decide_unpack _). by vm_compute.
Defined.

(** A request that cannot be completed is an error and is not terminated: when a
    peer has the zero key, the error names the first such peer and nothing of it or of
    later peers is written; when the connection breaks after [n] of the lines, the
    error is a write error and exactly those lines were sent. In both cases the empty
    line that makes the device apply the request is missing. *)
Theorem set_request_errors name cfg answer rerr :
  ValidateInterfaceName name = Ok () →
  (∀ before p after, cf_Peers cfg = before ++ p :: after →
    Forall (λ p, IsZero (pc_PublicKey p) = false) before → IsZero (pc_PublicKey p) = true →
    ConfigureDevice (Some (MkConn (MkWriter "" None) answer rerr)) name cfg =
      (Err (ErrUAPIPeerKey (length before)),
       unlines (kv_line <$> ("set", "1") :: device_kvs cfg ++ mjoin (peer_kvs <$> before)))) ∧
  (peers_keyed cfg → ∀ n, (n < length (config_kvs cfg))%nat → ∃ key,
    ConfigureDevice (Some (MkConn (MkWriter "" (Some (S n))) answer rerr)) name cfg =
      (Err (ErrUAPIWrite key), unlines (kv_line <$> ("set", "1") :: take n (config_kvs cfg)))).
Proof.
  intros Hn. split.
  - intros before p after Hps Hb Hz. unfold ConfigureDevice. rewrite Hn. unfold w_bind at 1.
    cbn [cn_writer WriteString wr_left wr_out]. unfold w_bind. rewrite (weq_run (writeConfig_emit cfg)).
    assert (∀ i, valid_peers i (cf_Peers cfg) = (before, Err (ErrUAPIPeerKey (i + length before)))) as Hv.
    { rewrite Hps. clear Hps Hn. induction Hb as [|q before Hq _ IH]; intros i; cbn [app valid_peers length].
      - rewrite Hz. by rewrite Nat.add_0_r.
      - rewrite Hq, IH. do 3 f_equal. lia. }
    rewrite Hv, emit_run. done.
  - intros Hp n Hlt. unfold ConfigureDevice. rewrite Hn. unfold w_bind at 1.
    cbn [cn_writer WriteString wr_left wr_out]. unfold w_bind.
    rewrite (weq_run (writeConfig_emit cfg)), (valid_peers_all _ Hp). cbn [fst snd].
    fold (config_kvs cfg). destruct (emit_broken (config_kvs cfg) (Ok ()) n ("" +:+ "set=1" +:+ newline) Hlt) as [key Hk].
    exists key. rewrite Hk. done.
Qed.

Lemma set_request_errors_witness :
  ConfigureDevice (Some (MkConn (MkWriter "" None) "" false)) "wg-mesh"
    (MkConfig None (Some 51821) None true [PeerConfig0] None None None None None None None None None None None None None None None None) =
  (Err (ErrUAPIPeerKey 0), unlines ["set=1"; "listen_port=51821"; "replace_peers=true"]).
Proof.
  apply (proj1 (set_request_errors "wg-mesh"
    (MkConfig None (Some 51821) None true [PeerConfig0] None None None None None None None None None None None None None None None None)
    "" false eq_refl) [] PeerConfig0 []); [reflexivity|constructor|reflexivity].
Defined.

(** Values are not checked for line breaks: an I-parameter [a], a line feed and
    [b] reaches the device as the pair [i1=a] followed by the directive [b], which the
    configuration does not contain. *)
Theorem newline_injects_directive name a b answer rerr :
  ValidateInterfaceName name = Ok () → line_ok (kv_line ("i1", a)) → line_ok b → b ≠ "" →
  let cfg := MkConfig None None None false [] None None None None None None None None None None None
               (Some (a +:+ newline +:+ b)) None None None None in
  request_kvs (snd (ConfigureDevice (Some (MkConn (MkWriter "" None) answer rerr)) name cfg)) =
    [Some ("set", "1"); Some ("i1", a); Cut b "="].
Proof.
  intros Hn Ha Hb Hne cfg. rewrite (ConfigureDevice_request name cfg) by (done || constructor). cbn [snd].
  unfold request_kvs.
  assert (unlines (kv_line <$> ("set", "1") :: config_kvs cfg) +:+ newline =
          unlines ["set=1"; kv_line ("i1", a); b] +:+ newline) as ->.
  { f_equal. apply to_bytes_inj. unfold cfg, config_kvs, device_kvs, kv_line, newline. cbn. rewrite !to_bytes_app. cbn. do 6 f_equal.
    change (String "010" (b +:+ ?x)) with (String "010" "" +:+ b +:+ x). rewrite !to_bytes_app, <- !app_assoc. done. }
  rewrite ScanLines_app.
  - change (ScanLines newline).1 with [""]. cbn [fst]. rewrite until_empty_app.
    + cbn. f_equal. f_equal. apply kv_line_cut. by apply (bool_decide_unpack _).
    + repeat constructor; try done.
  - apply Forall_cons; split; [apply (kv_line_ok "set" "1"); apply (bool_decide_unpack _); by vm_compute|].
    apply Forall_cons; split; [exact Ha|]. apply Forall_cons; split; [exact Hb|constructor].
Qed.

Lemma newline_injects_directive_witness :
  request_kvs (snd (ConfigureDevice (Some (MkConn (MkWriter "" None) "" false)) "wg-mesh"
    (MkConfig None None None false [] None None None None None None None None None None None
       (Some ("<b 00>" +:+ newline +:+ "replace_peers=true")) None None None None))) =
  [Some ("set", "1"); Some ("i1", "<b 00>"); Some ("replace_peers", "true")].
Proof.
  apply (newline_injects_directive "wg-mesh" "<b 00>" "replace_peers=true" "" false);
    [reflexivity|unfold line_ok; apply (bool_decide_unpack _); by vm_compute|unfold line_ok; apply (bool_decide_unpack _); by vm_compute|discriminate].
Defined.
