(* ===== verification/WgConfig.v ===== *)
(** * WireGuard configuration files

    Models src/pkg/wg/config.go: the INI text of a device and its peers,
    [GenerateConfig] and [ParseConfigFile], and the round trip between them. *)

From S2P Require Import Prelude GoStrings GoNet GoText WgTypes UAPIProofs.

(** ** Writing *)

Definition setting (key value : string) : string := key +:+ " = " +:+ value.

(** [appendIntSetting] and [appendStringSetting]: the lines they add. *)
Definition appendIntSetting (key : string) (value : option Z) : list string :=
  match value with None => [] | Some v => [setting key (Itoa v)] end.
Definition appendStringSetting (key : string) (value : option string) : list string :=
  match value with None => [] | Some v => [setting key v] end.

Definition interface_lines (cfg : Config) : list string :=
  match cf_PrivateKey cfg with None => [] | Some k => [setting "PrivateKey" (key_String k)] end ++
  match cf_ListenPort cfg with None => [] | Some p => [setting "ListenPort" (Itoa p)] end ++
  appendIntSetting "Jc" (cf_Jc cfg) ++ appendIntSetting "Jmin" (cf_Jmin cfg) ++ appendIntSetting "Jmax" (cf_Jmax cfg) ++
  appendIntSetting "S1" (cf_S1 cfg) ++ appendIntSetting "S2" (cf_S2 cfg) ++
  appendIntSetting "S3" (cf_S3 cfg) ++ appendIntSetting "S4" (cf_S4 cfg) ++
  appendStringSetting "H1" (cf_H1 cfg) ++ appendStringSetting "H2" (cf_H2 cfg) ++
  appendStringSetting "H3" (cf_H3 cfg) ++ appendStringSetting "H4" (cf_H4 cfg) ++
  appendStringSetting "I1" (cf_I1 cfg) ++ appendStringSetting "I2" (cf_I2 cfg) ++
  appendStringSetting "I3" (cf_I3 cfg) ++ appendStringSetting "I4" (cf_I4 cfg) ++
  appendStringSetting "I5" (cf_I5 cfg).

Definition peer_lines (peer : PeerConfig) : list string :=
  [""; "[Peer]"; setting "PublicKey" (key_String (pc_PublicKey peer))] ++
  match pc_PresharedKey peer with None => [] | Some k => [setting "PresharedKey" (key_String k)] end ++
  match pc_Endpoint peer with None => [] | Some a => [setting "Endpoint" (udp_string a)] end ++
  match pc_PersistentKeepaliveInterval peer with
  | None => []
  | Some d => [setting "PersistentKeepalive" (Itoa (int_seconds d))]
  end ++
  (if bool_decide (pc_AllowedIPs peer = []) then []
   else [setting "AllowedIPs" (join ", " (net_string <$> pc_AllowedIPs peer))]).

Definition GenerateConfig (cfg : Config) (peers : list PeerConfig) : string :=
  unlines ("[Interface]" :: interface_lines cfg ++ mjoin (peer_lines <$> peers)).

(** ** Reading *)

Inductive ini_error :=
  | ErrIniPath
  | ErrIniOpen
  | ErrIniLine (line : string)
  | ErrIniPeerSection (key : string)
  | ErrIniSection (key : string)
  | ErrIniKey (field : string) (e : key_error)
  | ErrIniInt (field : string)
  | ErrIniEndpoint
  | ErrIniAllowedIP (item : string)
  | ErrIniScan.

Definition parseIntField (value field : string) (target : Z → Config) : res ini_error Config :=
  match Atoi value with
  | None => Err (ErrIniInt field)
  | Some parsed => Ok (target parsed)
  end.

Definition parseInterfaceKV (cfg : Config) (key value : string) : res ini_error Config :=
  let '(MkConfig pk lp fm rp ps jc jmin jmax s1 s2 s3 s4 h1 h2 h3 h4 i1 i2 i3 i4 i5) := cfg in
  if bool_decide (key = "privatekey") then
    match ParseKey value with
    | Err e => Err (ErrIniKey "PrivateKey" e)
    | Ok k => Ok (MkConfig (Some k) lp fm rp ps jc jmin jmax s1 s2 s3 s4 h1 h2 h3 h4 i1 i2 i3 i4 i5)
    end
  else if bool_decide (key = "listenport") then
    parseIntField value "ListenPort" (λ v, MkConfig pk (Some v) fm rp ps jc jmin jmax s1 s2 s3 s4 h1 h2 h3 h4 i1 i2 i3 i4 i5)
  else if bool_decide (key = "fwmark") then
    parseIntField value "FwMark" (λ v, MkConfig pk lp (Some v) rp ps jc jmin jmax s1 s2 s3 s4 h1 h2 h3 h4 i1 i2 i3 i4 i5)
  else if bool_decide (key = "jc") then
    parseIntField value "Jc" (λ v, MkConfig pk lp fm rp ps (Some v) jmin jmax s1 s2 s3 s4 h1 h2 h3 h4 i1 i2 i3 i4 i5)
  else if bool_decide (key = "jmin") then
    parseIntField value "Jmin" (λ v, MkConfig pk lp fm rp ps jc (Some v) jmax s1 s2 s3 s4 h1 h2 h3 h4 i1 i2 i3 i4 i5)
  else if bool_decide (key = "jmax") then
    parseIntField value "Jmax" (λ v, MkConfig pk lp fm rp ps jc jmin (Some v) s1 s2 s3 s4 h1 h2 h3 h4 i1 i2 i3 i4 i5)
  else if bool_decide (key = "s1") then
    parseIntField value "S1" (λ v, MkConfig pk lp fm rp ps jc jmin jmax (Some v) s2 s3 s4 h1 h2 h3 h4 i1 i2 i3 i4 i5)
  else if bool_decide (key = "s2") then
    parseIntField value "S2" (λ v, MkConfig pk lp fm rp ps jc jmin jmax s1 (Some v) s3 s4 h1 h2 h3 h4 i1 i2 i3 i4 i5)
  else if bool_decide (key = "s3") then
    parseIntField value "S3" (λ v, MkConfig pk lp fm rp ps jc jmin jmax s1 s2 (Some v) s4 h1 h2 h3 h4 i1 i2 i3 i4 i5)
  else if bool_decide (key = "s4") then
    parseIntField value "S4" (λ v, MkConfig pk lp fm rp ps jc jmin jmax s1 s2 s3 (Some v) h1 h2 h3 h4 i1 i2 i3 i4 i5)
  else if bool_decide (key = "h1") then
    Ok (MkConfig pk lp fm rp ps jc jmin jmax s1 s2 s3 s4 (StrPtr value) h2 h3 h4 i1 i2 i3 i4 i5)
  else if bool_decide (key = "h2") then
    Ok (MkConfig pk lp fm rp ps jc jmin jmax s1 s2 s3 s4 h1 (StrPtr value) h3 h4 i1 i2 i3 i4 i5)
  else if bool_decide (key = "h3") then
    Ok (MkConfig pk lp fm rp ps jc jmin jmax s1 s2 s3 s4 h1 h2 (StrPtr value) h4 i1 i2 i3 i4 i5)
  else if bool_decide (key = "h4") then
    Ok (MkConfig pk lp fm rp ps jc jmin jmax s1 s2 s3 s4 h1 h2 h3 (StrPtr value) i1 i2 i3 i4 i5)
  else if bool_decide (key = "i1") then
    Ok (MkConfig pk lp fm rp ps jc jmin jmax s1 s2 s3 s4 h1 h2 h3 h4 (StrPtr value) i2 i3 i4 i5)
  else if bool_decide (key = "i2") then
    Ok (MkConfig pk lp fm rp ps jc jmin jmax s1 s2 s3 s4 h1 h2 h3 h4 i1 (StrPtr value) i3 i4 i5)
  else if bool_decide (key = "i3") then
    Ok (MkConfig pk lp fm rp ps jc jmin jmax s1 s2 s3 s4 h1 h2 h3 h4 i1 i2 (StrPtr value) i4 i5)
  else if bool_decide (key = "i4") then
    Ok (MkConfig pk lp fm rp ps jc jmin jmax s1 s2 s3 s4 h1 h2 h3 h4 i1 i2 i3 (StrPtr value) i5)
  else if bool_decide (key = "i5") then
    Ok (MkConfig pk lp fm rp ps jc jmin jmax s1 s2 s3 s4 h1 h2 h3 h4 i1 i2 i3 i4 (StrPtr value))
  else Ok cfg.

(** The items of an [AllowedIPs] value; empty ones are skipped. *)
Fixpoint parse_cidrs (items : list string) : res ini_error (list IPNet) :=
  match items with
  | [] => Ok []
  | cidr :: items =>
      let trimmed := TrimSpace cidr in
      if bool_decide (trimmed = "") then parse_cidrs items else
      match ParseCIDR trimmed with
      | None => Err (ErrIniAllowedIP trimmed)
      | Some (_, ipNet) => let! rest := parse_cidrs items in Ok (ipNet :: rest)
      end
  end.

Section Parse.
Context (ResolveUDPAddr : string → option UDPAddr).

Definition parsePeerKV (peer : PeerConfig) (key value : string) : res ini_error PeerConfig :=
  let '(MkPeerConfig pk rm uo psk ep ka ra ips) := peer in
  if bool_decide (key = "publickey") then
    match ParseKey value with
    | Err e => Err (ErrIniKey "PublicKey" e)
    | Ok k => Ok (MkPeerConfig k rm uo psk ep ka ra ips)
    end
  else if bool_decide (key = "presharedkey") then
    match ParseKey value with
    | Err e => Err (ErrIniKey "PresharedKey" e)
    | Ok k => Ok (MkPeerConfig pk rm uo (Some k) ep ka ra ips)
    end
  else if bool_decide (key = "endpoint") then
    match ResolveUDPAddr value with
    | None => Err ErrIniEndpoint
    | Some a => Ok (MkPeerConfig pk rm uo psk (Some a) ka ra ips)
    end
  else if bool_decide (key = "persistentkeepalive") then
    match Atoi value with
    | None => Err (ErrIniInt "PersistentKeepalive")
    | Some seconds => Ok (MkPeerConfig pk rm uo psk ep (Some (wrap_int64 (seconds * 1000000000))) ra ips)
    end
  else if bool_decide (key = "allowedips") then
    let! allowedIPs := parse_cidrs (of_bytes <$> split_byte "," (to_bytes value)) in
    Ok (MkPeerConfig pk rm uo psk ep ka ra allowedIPs)
  else Ok peer.

Record istate := MkIstate {
  is_cfg : Config;
  is_peers : list PeerConfig;
  is_section : string;
  is_currentPeer : option PeerConfig
}.

Definition flushPeer (st : istate) : istate :=
  match is_currentPeer st with
  | None => st
  | Some p => MkIstate (is_cfg st) (is_peers st ++ [p]) (is_section st) None
  end.

(** The text between the brackets of a section line. *)
Definition section_name (line : string) : string :=
  let l := to_bytes line in
  ToLower (TrimSpace (of_bytes (take (length l - 2) (drop 1 l)))).

Definition ini_line (st : istate) (l : string) : res ini_error istate :=
  let line := TrimSpace l in
  if bool_decide (line = "") || HasPrefix line "#" || HasPrefix line ";" then Ok st
  else if HasPrefix line "[" && HasSuffix line "]" then
    let section := section_name line in
    (* flushed for every section; a peer section then opens a new peer *)
    let st := flushPeer st in
    let st := MkIstate (is_cfg st) (is_peers st) section (is_currentPeer st) in
    Ok (if bool_decide (section = "peer")
        then MkIstate (is_cfg st) (is_peers st) (is_section st) (Some PeerConfig0) else st)
  else
    match Cut line "=" with
    | None => Err (ErrIniLine line)
    | Some (key, value) =>
        let key := ToLower (TrimSpace key) in
        let value := TrimSpace value in
        if bool_decide (is_section st = "interface") then
          let! cfg := parseInterfaceKV (is_cfg st) key value in
          Ok (MkIstate cfg (is_peers st) (is_section st) (is_currentPeer st))
        else if bool_decide (is_section st = "peer") then
          match is_currentPeer st with
          | None => Err (ErrIniPeerSection key)
          | Some p =>
              let! p := parsePeerKV p key value in
              Ok (MkIstate (is_cfg st) (is_peers st) (is_section st) (Some p))
          end
        else Err (ErrIniSection key)
    end.

Fixpoint ini_lines (st : istate) (lines : list string) : res ini_error istate :=
  match lines with
  | [] => Ok st
  | l :: lines => let! st := ini_line st l in ini_lines st lines
  end.

Definition set_cfg_peers (cfg : Config) (ps : list PeerConfig) : Config :=
  let '(MkConfig pk lp fm rp _ jc jmin jmax s1 s2 s3 s4 h1 h2 h3 h4 i1 i2 i3 i4 i5) := cfg in
  MkConfig pk lp fm rp ps jc jmin jmax s1 s2 s3 s4 h1 h2 h3 h4 i1 i2 i3 i4 i5.

(** The file: its text and whether reading it ends in an error; [None] when it cannot
    be opened. *)
Definition ParseConfigFile (path : string) (file : option (string * bool))
    : res ini_error (Config * list PeerConfig) :=
  if bool_decide (TrimSpace path = "") then Err ErrIniPath else
  match file with
  | None => Err ErrIniOpen
  | Some (text, rerr) =>
      let '(lines, e) := ScanLines text in
      let! st := ini_lines (MkIstate Config0 [] "" None) lines in
      if match e with ScanTooLong => true | ScanEOF => rerr end then Err ErrIniScan else
      let st := flushPeer st in
      Ok (set_cfg_peers (is_cfg st) (is_peers st), is_peers st)
  end.
End Parse.

(** ** Setting lines *)

Definition ini_char (a : ascii) : bool := is_upper a || is_lower a || is_digit a.
Definition ini_key (k : string) : Prop :=
  k ≠ "" ∧ Forall (λ a, ini_char a = true) (to_bytes k) ∧ (length (to_bytes k) < 100)%nat.
#[global] Instance ini_key_dec k : Decision (ini_key k).
Proof. unfold ini_key. apply _. Defined.

Lemma ini_char_plain a : ini_char a = true → plain a = true ∧
  a ≠ "="%char ∧ a ≠ "["%char ∧ a ≠ "#"%char ∧ a ≠ ";"%char ∧ a ≠ "010"%char ∧ a ≠ "013"%char.
Proof.
  intros H. unfold ini_char, plain, space1, is_upper, is_lower, is_digit in *.
  split; [lia|]. split_and!; intros ->; discriminate H.
Qed.

Lemma ini_key_free k c : ini_key k → ini_char c = false → c ∉ to_bytes k.
Proof. intros (_ & Hf & _) Hc Hin. rewrite Forall_forall in Hf. specialize (Hf _ Hin). congruence. Qed.

Lemma ini_key_trim k : ini_key k → TrimSpace k = k.
Proof. intros (_ & Hf & _). apply TrimSpace_plain. eapply Forall_impl; [done|]. intros a Ha. by apply ini_char_plain. Qed.

Lemma setting_line_ok k v : ini_key k → value_ok v → line_ok (setting k v).
Proof.
  intros Hk (Hn & Hr & _ & Hl). unfold line_ok, setting. rewrite !to_bytes_app.
  rewrite !not_elem_of_app, !length_app. change (length (to_bytes " = ")) with 3%nat.
  split_and!; try done; try (by apply ini_key_free); try (by apply (bool_decide_unpack _)).
  destruct Hk as (_ & _ & Hk). pose proof max_token_Z. lia.
Qed.

(** What the loop sees of a setting line: its first byte is no bracket or comment
    sign, and cutting at the equals sign and trimming gives key and value. *)
Lemma setting_read k v : ini_key k → TrimSpace v = v → ∃ a rest key value,
  TrimSpace (setting k v) = String a rest ∧ a ≠ "["%char ∧ a ≠ "#"%char ∧ a ≠ ";"%char ∧
  Cut (String a rest) "=" = Some (key, value) ∧ TrimSpace key = k ∧ TrimSpace value = v.
Proof.
  intros Hk Hv. pose proof Hk as (Hne & Hf & _). pose proof (ini_key_free k "=" Hk eq_refl) as Heq.
  pose proof (ini_key_trim k Hk) as Hkt.
  destruct k as [|a k']; [done|]. apply Forall_cons in Hf as [Ha _].
  destruct (ini_char_plain a Ha) as (Hp & _ & H1 & H2 & H3 & _).
  assert ("="%char ∉ to_bytes (String a k' +:+ " ")) as Hfree.
  { rewrite to_bytes_app, not_elem_of_app. split; [done|]. by apply (bool_decide_unpack _). }
  destruct (decide (v = "")) as [->|Hvne].
  - exists a, (k' +:+ " ="), (String a k' +:+ " "), "". split_and!; try done.
    + assert (setting (String a k') "" = (String a k' +:+ " =") +:+ " ") as ->
        by (apply to_bytes_inj; unfold setting; rewrite !to_bytes_app, <- !app_assoc; done).
      rewrite TrimSpace_trailing; [done|]. apply TrimSpace_fixed; rewrite !to_bytes_app; [by apply plain_starts|].
      rewrite reverse_app. by apply plain_ends.
    + assert (String a (k' +:+ " =") = (String a k' +:+ " ") +:+ String "=" "") as ->
        by (apply to_bytes_inj; rewrite !to_bytes_app; cbn; by rewrite !to_bytes_app, <- app_assoc).
      by apply Cut_app.
    + by apply TrimSpace_trailing.
  - exists a, (k' +:+ " = " +:+ v), (String a k' +:+ " "), (String " " v). split_and!; try done.
    + assert (∀ s, String a k' +:+ " = " +:+ s = of_bytes (a :: (to_bytes k' ++ [" "; "="]%char) ++ [" "%char]) +:+ s) as E.
      { intros s. apply to_bytes_inj. rewrite !to_bytes_app, !to_of_bytes. cbn. by rewrite <- !app_assoc. }
      unfold setting. rewrite E, TrimSpace_line by done. by rewrite <- E.
    + assert (String a (k' +:+ " = " +:+ v) = (String a k' +:+ " ") +:+ String "=" (String " " v)) as ->
        by (apply to_bytes_inj; rewrite !to_bytes_app; cbn; by rewrite !to_bytes_app, <- !app_assoc).
      by apply Cut_app.
    + by apply TrimSpace_trailing.
Qed.

Lemma is_prefix_byte c a l : is_prefix [c] (a :: l) = bool_decide (c = a).
Proof. cbn. by rewrite andb_true_r. Qed.

Section RoundTrip.
Context (ResolveUDPAddr : string → option UDPAddr).

Lemma ini_line_setting st k v : ini_key k → TrimSpace v = v →
  ini_line ResolveUDPAddr st (setting k v) =
    if bool_decide (is_section st = "interface") then
      let! cfg := parseInterfaceKV (is_cfg st) (ToLower k) v in
      Ok (MkIstate cfg (is_peers st) (is_section st) (is_currentPeer st))
    else if bool_decide (is_section st = "peer") then
      match is_currentPeer st with
      | None => Err (ErrIniPeerSection (ToLower k))
      | Some p =>
          let! p := parsePeerKV ResolveUDPAddr p (ToLower k) v in
          Ok (MkIstate (is_cfg st) (is_peers st) (is_section st) (Some p))
      end
    else Err (ErrIniSection (ToLower k)).
Proof.
  intros Hk Hv. destruct (setting_read k v Hk Hv) as (a & rest & key & value & E & H1 & H2 & H3 & Hc & Ek & Ev).
  unfold ini_line. rewrite E. unfold HasPrefix. cbn [String.list_ascii_of_string].
  change (to_bytes "#") with ["#"%char]. change (to_bytes ";") with [";"%char]. change (to_bytes "[") with ["["%char].
  rewrite !is_prefix_byte. rewrite (bool_decide_eq_false_2 (String a rest = "")) by done.
  rewrite (bool_decide_eq_false_2 ("#"%char = a)), (bool_decide_eq_false_2 (";"%char = a)),
    (bool_decide_eq_false_2 ("["%char = a)) by congruence. cbn [orb andb].
  by rewrite Hc, Ek, Ev.
Qed.

Lemma ini_lines_app a b st :
  ini_lines ResolveUDPAddr st (a ++ b) = let! st := ini_lines ResolveUDPAddr st a in ini_lines ResolveUDPAddr st b.
Proof.
  revert st. induction a as [|l a IH]; intros st; [done|]. cbn [app ini_lines].
  destruct (ini_line ResolveUDPAddr st l); [apply IH|done].
Qed.

(** One optional field of the interface section: [target] is the configuration as a
    function of it. *)
Lemma int_setting key v (target : option Z → Config) ps cur rest :
  ini_key key → from_option int64 True v →
  (∀ value, parseInterfaceKV (target None) (ToLower key) value = parseIntField value key (λ z, target (Some z))) →
  ini_lines ResolveUDPAddr (MkIstate (target None) ps "interface" cur) (appendIntSetting key v ++ rest) =
  ini_lines ResolveUDPAddr (MkIstate (target v) ps "interface" cur) rest.
Proof.
  intros Hk Hv Hp. destruct v as [z|]; [|done]. cbn [appendIntSetting app ini_lines from_option] in *.
  rewrite ini_line_setting by (done || by apply int_value_ok). cbn [is_section is_cfg].
  rewrite (bool_decide_eq_true_2 ("interface" = "interface")) by done.
  rewrite Hp. unfold parseIntField. by rewrite Atoi_Itoa.
Qed.

Lemma str_setting key v (target : option string → Config) ps cur rest :
  ini_key key → from_option value_ok True v →
  (∀ value, parseInterfaceKV (target None) (ToLower key) value = Ok (target (Some value))) →
  ini_lines ResolveUDPAddr (MkIstate (target None) ps "interface" cur) (appendStringSetting key v ++ rest) =
  ini_lines ResolveUDPAddr (MkIstate (target v) ps "interface" cur) rest.
Proof.
  intros Hk Hv Hp. destruct v as [s|]; [|done]. cbn [appendStringSetting app ini_lines from_option] in *.
  rewrite ini_line_setting by (done || by apply Hv). cbn [is_section is_cfg].
  rewrite (bool_decide_eq_true_2 ("interface" = "interface")) by done. by rewrite Hp.
Qed.


Lemma key_String_length k : key_ok k → length (to_bytes (key_String k)) = 44%nat.
Proof.
  intros Hk. unfold key_String, b64_encode. rewrite to_of_bytes. unfold key_ok, key_size in Hk.
  assert (∀ l, length (b64_encode_bytes l) = (4 * ((length l + 2) / 3))%nat) as ->; [|by rewrite Hk].
  induction l as [|a|a b|a b c l IH] using b64_encode_ind; cbn [b64_encode_bytes length]; try done.
  rewrite IH. replace (S (S (S (length l))) + 2)%nat with (length l + 2 + 1 * 3)%nat by lia.
  rewrite Nat.div_add by lia. lia.
Qed.

Lemma key_value_ok k : key_ok k → value_ok (key_String k).
Proof.
  intros Hk. apply plain_value_ok.
  - unfold key_String, b64_encode. rewrite to_of_bytes. eapply Forall_impl; [apply b64_encode_chars|].
    intros a [Ha _]. by apply b64_text_plain.
  - rewrite key_String_length by done. lia.
Qed.

(** The values a configuration file can hold: keys of 32 bytes, [int]s, texts that
    fit on a line. *)
Definition cfg_ok (cfg : Config) : Prop :=
  from_option key_ok True (cf_PrivateKey cfg) ∧
  Forall (from_option int64 True) [cf_ListenPort cfg; cf_Jc cfg; cf_Jmin cfg; cf_Jmax cfg; cf_S1 cfg; cf_S2 cfg; cf_S3 cfg; cf_S4 cfg] ∧
  Forall (from_option value_ok True)
    [cf_H1 cfg; cf_H2 cfg; cf_H3 cfg; cf_H4 cfg; cf_I1 cfg; cf_I2 cfg; cf_I3 cfg; cf_I4 cfg; cf_I5 cfg].

(** What the file keeps of the interface: all but the firewall mark, the
    replace-peers flag and the peers. *)
Definition kept_cfg (cfg : Config) (ps : list PeerConfig) : Config :=
  let '(MkConfig pk lp _ _ _ jc jmin jmax s1 s2 s3 s4 h1 h2 h3 h4 i1 i2 i3 i4 i5) := cfg in
  MkConfig pk lp None false ps jc jmin jmax s1 s2 s3 s4 h1 h2 h3 h4 i1 i2 i3 i4 i5.

Ltac fields := first [ by apply (bool_decide_unpack _) | assumption | by intros ].

Lemma interface_run cfg rest : cfg_ok cfg →
  ini_lines ResolveUDPAddr (MkIstate Config0 [] "interface" None) (interface_lines cfg ++ rest) =
  ini_lines ResolveUDPAddr (MkIstate (kept_cfg cfg []) [] "interface" None) rest.
Proof.
  destruct cfg as [pk lp fm rp ps jc jmin jmax s1 s2 s3 s4 h1 h2 h3 h4 i1 i2 i3 i4 i5].
  unfold cfg_ok. cbn [cf_PrivateKey cf_ListenPort cf_Jc cf_Jmin cf_Jmax cf_S1 cf_S2 cf_S3 cf_S4 cf_H1 cf_H2 cf_H3 cf_H4 cf_I1 cf_I2 cf_I3 cf_I4 cf_I5].
  intros (Hpk & Hi & Hs). rewrite !Forall_cons in Hi. rewrite !Forall_cons in Hs. destruct_and?.
  unfold interface_lines. cbn [cf_PrivateKey cf_ListenPort cf_Jc cf_Jmin cf_Jmax cf_S1 cf_S2 cf_S3 cf_S4 cf_H1 cf_H2 cf_H3 cf_H4 cf_I1 cf_I2 cf_I3 cf_I4 cf_I5].
  rewrite <- !app_assoc.
  assert (∀ l, ini_lines ResolveUDPAddr (MkIstate Config0 [] "interface" None)
      (match pk with None => [] | Some k => [setting "PrivateKey" (key_String k)] end ++ l) =
    ini_lines ResolveUDPAddr (MkIstate (MkConfig pk None None false [] None None None None None None None None None None None None None None None None) [] "interface" None) l) as ->.
  { intros l. destruct pk as [k|]; [|done]. cbn [app ini_lines from_option] in *.
    rewrite ini_line_setting by (fields || by apply key_value_ok). cbn [is_section is_cfg].
    rewrite (bool_decide_eq_true_2 ("interface" = "interface")) by done.
    change (ToLower "PrivateKey") with "privatekey". unfold parseInterfaceKV, Config0.
    rewrite (bool_decide_eq_true_2 ("privatekey" = "privatekey")) by done. by rewrite ParseKey_String. }
  change (match lp with None => [] | Some p => [setting "ListenPort" (Itoa p)] end) with (appendIntSetting "ListenPort" lp).
  rewrite (int_setting "ListenPort" lp (λ o, MkConfig pk o None false [] None None None None None None None None None None None None None None None None)) by fields.
  rewrite (int_setting "Jc" jc (λ o, MkConfig pk lp None false [] o None None None None None None None None None None None None None None None)) by fields.
  rewrite (int_setting "Jmin" jmin (λ o, MkConfig pk lp None false [] jc o None None None None None None None None None None None None None None)) by fields.
  rewrite (int_setting "Jmax" jmax (λ o, MkConfig pk lp None false [] jc jmin o None None None None None None None None None None None None None)) by fields.
  rewrite (int_setting "S1" s1 (λ o, MkConfig pk lp None false [] jc jmin jmax o None None None None None None None None None None None None)) by fields.
  rewrite (int_setting "S2" s2 (λ o, MkConfig pk lp None false [] jc jmin jmax s1 o None None None None None None None None None None None)) by fields.
  rewrite (int_setting "S3" s3 (λ o, MkConfig pk lp None false [] jc jmin jmax s1 s2 o None None None None None None None None None None)) by fields.
  rewrite (int_setting "S4" s4 (λ o, MkConfig pk lp None false [] jc jmin jmax s1 s2 s3 o None None None None None None None None None)) by fields.
  rewrite (str_setting "H1" h1 (λ o, MkConfig pk lp None false [] jc jmin jmax s1 s2 s3 s4 o None None None None None None None None)) by fields.
  rewrite (str_setting "H2" h2 (λ o, MkConfig pk lp None false [] jc jmin jmax s1 s2 s3 s4 h1 o None None None None None None None)) by fields.
  rewrite (str_setting "H3" h3 (λ o, MkConfig pk lp None false [] jc jmin jmax s1 s2 s3 s4 h1 h2 o None None None None None None)) by fields.
  rewrite (str_setting "H4" h4 (λ o, MkConfig pk lp None false [] jc jmin jmax s1 s2 s3 s4 h1 h2 h3 o None None None None None)) by fields.
  rewrite (str_setting "I1" i1 (λ o, MkConfig pk lp None false [] jc jmin jmax s1 s2 s3 s4 h1 h2 h3 h4 o None None None None)) by fields.
  rewrite (str_setting "I2" i2 (λ o, MkConfig pk lp None false [] jc jmin jmax s1 s2 s3 s4 h1 h2 h3 h4 i1 o None None None)) by fields.
  rewrite (str_setting "I3" i3 (λ o, MkConfig pk lp None false [] jc jmin jmax s1 s2 s3 s4 h1 h2 h3 h4 i1 i2 o None None)) by fields.
  rewrite (str_setting "I4" i4 (λ o, MkConfig pk lp None false [] jc jmin jmax s1 s2 s3 s4 h1 h2 h3 h4 i1 i2 i3 o None)) by fields.
  rewrite (str_setting "I5" i5 (λ o, MkConfig pk lp None false [] jc jmin jmax s1 s2 s3 s4 h1 h2 h3 h4 i1 i2 i3 i4 o)) by fields.
  done.
Qed.
(** ** Peers *)

(** A network whose text can be an item of a list. *)
Definition net_item_ok (n : IPNet) : Prop :=
  (∃ ip, ParseCIDR (net_string n) = Some (ip, n)) ∧ TrimSpace (net_string n) = net_string n ∧
  ","%char ∉ to_bytes (net_string n).

Lemma parse_cidr_item n s l : net_item_ok n → TrimSpace s = net_string n →
  parse_cidrs (s :: l) = let! rest := parse_cidrs l in Ok (n :: rest).
Proof.
  intros ([ip Hp] & _) Hs. cbn [parse_cidrs]. rewrite Hs, Hp.
  rewrite (bool_decide_eq_false_2 (net_string n = "")); [done|]. intros E. by rewrite E in Hp.
Qed.

Lemma parse_cidrs_join ns : Forall net_item_ok ns → ns ≠ [] →
  parse_cidrs (of_bytes <$> split_byte "," (to_bytes (join ", " (net_string <$> ns)))) = Ok ns.
Proof.
  intros Hn Hne. destruct Hn as [|n ns Hn Hns]; [done|]. clear Hne.
  assert (∀ s, TrimSpace s = net_string n → ","%char ∉ to_bytes s →
    parse_cidrs (of_bytes <$> split_byte "," (to_bytes (s +:+ (match ns with [] => "" | _ => ", " +:+ join ", " (net_string <$> ns) end)))) = Ok (n :: ns)) as H.
  { revert n Hn. induction Hns as [|m ns Hm Hns IH]; intros n Hn s Hs Hc; rewrite to_bytes_app.
    - cbn [String.list_ascii_of_string]. rewrite app_nil_r, split_byte_none by done. cbn [fmap list_fmap].
      rewrite of_to_bytes. by rewrite (parse_cidr_item n) by done.
    - rewrite to_bytes_app. change (to_bytes ", ") with [","%char; " "%char]. cbn [app].
      rewrite split_byte_app by done. rewrite fmap_cons, of_to_bytes, (parse_cidr_item n) by done.
      specialize (IH m Hm (String " " (net_string m))).
      destruct Hm as (Hm1 & Hm2 & Hm3).
      assert (" "%char :: to_bytes (join ", " (net_string <$> m :: ns)) =
        to_bytes (String " " (net_string m) +:+ (match ns with [] => "" | _ => ", " +:+ join ", " (net_string <$> ns) end))) as ->.
      { rewrite to_bytes_app. cbn [String.list_ascii_of_string app]. f_equal. destruct ns as [|m' ns'].
        - cbn. by rewrite app_nil_r.
        - rewrite !fmap_cons. unfold join. cbn [String.concat]. by rewrite to_bytes_app. }
      rewrite IH; [done|by rewrite TrimSpace_leading|].
      cbn [String.list_ascii_of_string]. apply not_elem_of_cons. by split. }
  specialize (H (net_string n)). destruct Hn as (Hn1 & Hn2 & Hn3).
  replace (join ", " (net_string <$> n :: ns)) with
    (net_string n +:+ (match ns with [] => "" | _ => ", " +:+ join ", " (net_string <$> ns) end)); [by apply H|].
  destruct ns as [|m ns]; [|reflexivity]. cbn. apply to_bytes_inj. rewrite to_bytes_app. cbn. apply app_nil_r.
Qed.

Definition peer_ok (p : PeerConfig) : Prop :=
  key_ok (pc_PublicKey p) ∧ from_option key_ok True (pc_PresharedKey p) ∧
  from_option (λ a, ResolveUDPAddr (udp_string a) = Some a ∧ value_ok (udp_string a)) True (pc_Endpoint p) ∧
  from_option (λ d, ∃ k, d = k * 1000000000 ∧ 0 ≤ k < 2 ^ 33) True (pc_PersistentKeepaliveInterval p) ∧
  Forall net_item_ok (pc_AllowedIPs p) ∧ value_ok (join ", " (net_string <$> pc_AllowedIPs p)).

(** What the file keeps of a peer: all but the three update flags. *)
Definition kept_peer (p : PeerConfig) : PeerConfig :=
  MkPeerConfig (pc_PublicKey p) false false (pc_PresharedKey p) (pc_Endpoint p)
    (pc_PersistentKeepaliveInterval p) false (pc_AllowedIPs p).

(** One optional setting of a peer. *)
Lemma peer_setting cfg ps p lines (q : PeerConfig) rest :
  (lines = [] ∧ q = p ∨ ∃ k v, lines = [setting k v] ∧ ini_key k ∧ TrimSpace v = v ∧
     parsePeerKV ResolveUDPAddr p (ToLower k) v = Ok q) →
  ini_lines ResolveUDPAddr (MkIstate cfg ps "peer" (Some p)) (lines ++ rest) =
  ini_lines ResolveUDPAddr (MkIstate cfg ps "peer" (Some q)) rest.
Proof.
  intros [[-> ->]|(k & v & -> & Hk & Hv & Hp)]; [done|]. cbn [app ini_lines].
  rewrite ini_line_setting by done. cbn [is_section is_cfg is_peers is_currentPeer].
  rewrite (bool_decide_eq_false_2 ("peer" = "interface")) by discriminate.
  rewrite (bool_decide_eq_true_2 ("peer" = "peer")) by done. by rewrite Hp.
Qed.

(** The case of a setting that is present: its key is a key, and the parser takes the
    branch of that key. *)
Ltac peer_field k := right; exists k; eexists; split_and!; [reflexivity|by apply (bool_decide_unpack _)| |
  unfold parsePeerKV; let x := eval vm_compute in (ToLower k) in change (ToLower k) with x; key_steps].

Lemma peer_run st p rest : peer_ok p →
  ini_lines ResolveUDPAddr st (peer_lines p ++ rest) =
  ini_lines ResolveUDPAddr
    (MkIstate (is_cfg st) (is_peers (flushPeer st)) "peer" (Some (kept_peer p))) rest.
Proof.
  destruct p as [pk rm uo psk ep ka ra ips].
  unfold peer_ok, peer_lines, kept_peer.
  cbn [pc_PublicKey pc_PresharedKey pc_Endpoint pc_PersistentKeepaliveInterval pc_AllowedIPs].
  intros (Hpk & Hpsk & Hep & Hka & Hn & Hj). rewrite <- !app_assoc.
  assert (is_cfg (flushPeer st) = is_cfg st) as Hcfg by (unfold flushPeer; by destruct (is_currentPeer st)).
  assert (∀ l, ini_lines ResolveUDPAddr st ([""; "[Peer]"; setting "PublicKey" (key_String pk)] ++ l) =
    ini_lines ResolveUDPAddr (MkIstate (is_cfg (flushPeer st)) (is_peers (flushPeer st)) "peer" (Some PeerConfig0))
      ([setting "PublicKey" (key_String pk)] ++ l)) as -> by reflexivity.
  rewrite Hcfg.
  rewrite (peer_setting _ _ _ [setting "PublicKey" (key_String pk)] (MkPeerConfig pk false false None None None false []));
    [|peer_field "PublicKey"; [by apply key_value_ok|by rewrite ParseKey_String]].
  rewrite (peer_setting _ _ _ _ (MkPeerConfig pk false false psk None None false []));
    [|destruct psk as [k|]; [peer_field "PresharedKey"; [by apply key_value_ok|by rewrite ParseKey_String]|by left]].
  rewrite (peer_setting _ _ _ _ (MkPeerConfig pk false false psk ep None false []));
    [|destruct ep as [a|]; [cbn [from_option] in Hep; peer_field "Endpoint"; [by apply Hep|by rewrite (proj1 Hep)]|by left]].
  rewrite (peer_setting _ _ _ _ (MkPeerConfig pk false false psk ep ka false [])).
  2:{ destruct ka as [d|]; [|by left]. destruct Hka as (k & -> & Hk). rewrite int_seconds_whole by lia.
      peer_field "PersistentKeepalive"; [apply int_value_ok; unfold int64; lia|]. rewrite Atoi_Itoa by lia.
      by rewrite wrap_int64_id by lia. }
  rewrite (peer_setting _ _ _ _ (MkPeerConfig pk false false psk ep ka false ips)); [done|].
  case_bool_decide as Hips; [left; by subst|]. peer_field "AllowedIPs"; [by apply Hj|].
  by rewrite parse_cidrs_join.
Qed.

Lemma peers_run ps : Forall peer_ok ps → ∀ st,
  ∃ st', ini_lines ResolveUDPAddr st (mjoin (peer_lines <$> ps)) = Ok st' ∧
    is_cfg (flushPeer st') = is_cfg st ∧ is_peers (flushPeer st') = is_peers (flushPeer st) ++ (kept_peer <$> ps).
Proof.
  induction 1 as [|p ps Hp _ IH]; intros st.
  - exists st. split_and!; [done|unfold flushPeer; by destruct (is_currentPeer st)|]. cbn. by rewrite app_nil_r.
  - rewrite fmap_cons. change (mjoin (?a :: ?l)) with (a ++ mjoin l). rewrite peer_run by done.
    destruct (IH (MkIstate (is_cfg st) (is_peers (flushPeer st)) "peer" (Some (kept_peer p)))) as (st' & E & H1 & H2).
    exists st'. rewrite E, H1, H2. split_and!; [done|done|]. cbn. by rewrite <- app_assoc.
Qed.
(** ** The whole file *)

Lemma int_lines_ok k v : ini_key k → from_option int64 True v → Forall line_ok (appendIntSetting k v).
Proof. intros Hk Hv. destruct v; constructor; [|constructor]. by apply setting_line_ok, int_value_ok. Qed.
Lemma str_lines_ok k v : ini_key k → from_option value_ok True v → Forall line_ok (appendStringSetting k v).
Proof. intros Hk Hv. destruct v; constructor; [|constructor]. by apply setting_line_ok. Qed.

Lemma interface_lines_ok cfg : cfg_ok cfg → Forall line_ok (interface_lines cfg).
Proof.
  intros (Hpk & Hi & Hs). rewrite !Forall_cons in Hi. rewrite !Forall_cons in Hs. destruct_and?.
  unfold interface_lines. change (match cf_ListenPort cfg with None => [] | Some p => [setting "ListenPort" (Itoa p)] end)
    with (appendIntSetting "ListenPort" (cf_ListenPort cfg)).
  repeat (apply Forall_app; split);
    try (apply int_lines_ok; [by apply (bool_decide_unpack _)|assumption]);
    try (apply str_lines_ok; [by apply (bool_decide_unpack _)|assumption]).
  destruct (cf_PrivateKey cfg); constructor; [|constructor].
  apply setting_line_ok; [by apply (bool_decide_unpack _)|by apply key_value_ok].
Qed.

Lemma peer_lines_ok p : peer_ok p → Forall line_ok (peer_lines p).
Proof.
  intros (Hpk & Hpsk & Hep & Hka & _ & Hj). unfold peer_lines. repeat (apply Forall_app; split).
  - apply Forall_cons; split; [split_and!; [by apply not_elem_of_nil|by apply not_elem_of_nil|pose proof max_token_Z; cbn; lia]|].
    apply Forall_cons; split; [split_and!; [by apply (bool_decide_unpack _)|by apply (bool_decide_unpack _)|]|].
    + pose proof max_token_Z. change (length (to_bytes "[Peer]")) with 6%nat. lia.
    + apply Forall_singleton, setting_line_ok; [by apply (bool_decide_unpack _)|by apply key_value_ok].
  - destruct (pc_PresharedKey p); constructor; [|constructor].
    apply setting_line_ok; [by apply (bool_decide_unpack _)|by apply key_value_ok].
  - destruct (pc_Endpoint p); constructor; [|constructor].
    apply setting_line_ok; [by apply (bool_decide_unpack _)|apply Hep].
  - destruct (pc_PersistentKeepaliveInterval p); constructor; [|constructor].
    destruct Hka as (k & -> & Hk). rewrite int_seconds_whole by lia.
    apply setting_line_ok; [by apply (bool_decide_unpack _)|apply int_value_ok; unfold int64; lia].
  - case_bool_decide; constructor; [|constructor].
    apply setting_line_ok; [by apply (bool_decide_unpack _)|done].
Qed.

Lemma GenerateConfig_run path cfg ps :
  TrimSpace path ≠ "" → cfg_ok cfg → Forall peer_ok ps →
  ParseConfigFile ResolveUDPAddr path (Some (GenerateConfig cfg ps, false)) =
    Ok (kept_cfg cfg (kept_peer <$> ps), kept_peer <$> ps).
Proof.
  intros Hpath Hc Hp. unfold ParseConfigFile. rewrite bool_decide_eq_false_2 by done.
  unfold GenerateConfig. rewrite ScanLines_unlines.
  - change (ini_lines ResolveUDPAddr (MkIstate Config0 [] "" None) ("[Interface]" :: ?l)) with
      (ini_lines ResolveUDPAddr (MkIstate Config0 [] "interface" None) l).
    rewrite interface_run by done.
    destruct (peers_run ps Hp (MkIstate (kept_cfg cfg []) [] "interface" None)) as (st & -> & E1 & E2).
    cbn [res_bind]. rewrite E1, E2. by destruct cfg.
  - apply Forall_cons; split.
    + split_and!; [by apply (bool_decide_unpack _)|by apply (bool_decide_unpack _)|].
      pose proof max_token_Z. change (length (to_bytes "[Interface]")) with 11%nat. lia.
    + apply Forall_app; split; [by apply interface_lines_ok|]. apply Forall_forall. intros l Hl.
      apply list_elem_of_join in Hl as (g & Hl & Hg). apply list_elem_of_fmap in Hg as (p & -> & Hin).
      rewrite Forall_forall in Hp. pose proof (peer_lines_ok p (Hp p Hin)) as Hf. rewrite Forall_forall in Hf. auto.
Qed.
End RoundTrip.

(** C18. A configuration file round trips: for keys of 32 bytes, integers of 64 bits,
    texts that fit on a line, endpoints and networks whose text reads back and
    keepalives in whole seconds, parsing the generated file returns the
    configuration and its peers, in order - less what the format does not carry: the
    firewall mark, the replace-peers flag and the three update flags of a peer. *)
Theorem config_file_roundtrip ResolveUDPAddr path cfg ps :
  TrimSpace path ≠ "" → cfg_ok cfg → Forall (peer_ok ResolveUDPAddr) ps →
  ParseConfigFile ResolveUDPAddr path (Some (GenerateConfig cfg ps, false)) =
    Ok (kept_cfg cfg (kept_peer <$> ps), kept_peer <$> ps).
Proof. apply GenerateConfig_run. Qed.

Lemma config_file_roundtrip_witness :
  ParseConfigFile resolve_literal "/etc/wg.conf" (Some (GenerateConfig sample_config (cf_Peers sample_config), false)) =
    Ok (kept_cfg sample_config (kept_peer <$> cf_Peers sample_config), kept_peer <$> cf_Peers sample_config).
Proof.
  apply (config_file_roundtrip resolve_literal "/etc/wg.conf" sample_config (cf_Peers sample_config)).
  - by vm_compute.
  - unfold cfg_ok. split_and!; [reflexivity|..]; repeat (apply Forall_cons; split); cbn [from_option]; try exact I;
      try (unfold int64; cbn; lia); try (apply (bool_decide_unpack _); by vm_compute); constructor.
  - apply Forall_singleton. unfold peer_ok. split_and!; [reflexivity|exact I| | | |].
    + split; [by apply (resolve_udp4 3232235777 51820)|]. apply (bool_decide_unpack _). by vm_compute.
    + exists 25. split; [reflexivity|lia].
    + apply Forall_singleton. split_and!; [eexists; by apply (ParseCIDR_net4 (host_net 167772161))|by vm_compute|].
      apply (bool_decide_unpack _). by vm_compute.
    + apply (bool_decide_unpack _). by vm_compute.
Defined.
