(* ===== verification/DualListener.v ===== *)
(** * The master's two listeners

    Models src/pkg/wg/dual_listener.go: a master serves clients over vanilla
    WireGuard and the mesh over AmneziaWG, each over a [Transport]. Transports are
    operating-system devices; here they are numbered, and the world records which
    are open and what was done to them. What the environment decides - whether a
    factory, a configuration or a close succeeds - is an argument of each call. The
    requests made to a device are recorded in order; what a device makes of them, and
    in particular of two requests for one public key, is the device's affair: the
    class [MasterAgent.MeshDevice] states what is relied on. *)

From S2P Require Import Prelude GoStrings GoNet GoText WgTypes.

Inductive Protocol := ProtocolVanilla | ProtocolAmneziaWG.
#[global] Instance Protocol_eq_dec : EqDecision Protocol.
Proof. solve_decision. Defined.

(** ** Transports *)

Inductive event :=
  | EvCreate (id : nat) (name : string) (p : Protocol)
  | EvConfigure (id : nat) (cfg : Config)
  | EvAddPeer (id : nat) (peer : PeerConfig)
  | EvClose (id : nat).

Record world := MkWorld { w_open : gset nat; w_next : nat; w_log : list event }.

(** What a factory does: fail, return a nil transport, or return a transport of some
    protocol. *)
Inductive factory_outcome := FactoryFails | FactoryNil | FactoryMakes (p : Protocol).

Definition create (o : factory_outcome) (name : string) (w : world) : res unit (option (nat * Protocol)) * world :=
  match o with
  | FactoryFails => (Err (), w)
  | FactoryNil => (Ok None, w)
  | FactoryMakes p =>
      (Ok (Some (w_next w, p)),
       MkWorld ({[ w_next w ]} ∪ w_open w) (S (w_next w)) (w_log w ++ [EvCreate (w_next w) name p]))
  end.
(** Closing releases the device whether or not it reports an error. *)
Definition close (id : nat) (w : world) : world :=
  MkWorld (w_open w ∖ {[ id ]}) (w_next w) (w_log w ++ [EvClose id]).
Definition configure (id : nat) (cfg : Config) (w : world) : world :=
  MkWorld (w_open w) (w_next w) (w_log w ++ [EvConfigure id cfg]).
Definition add_peer (id : nat) (peer : PeerConfig) (w : world) : world :=
  MkWorld (w_open w) (w_next w) (w_log w ++ [EvAddPeer id peer]).

(** ** Configuration *)

Definition DefaultClientInterfaceName : string := "wg-clients".
Definition DefaultMeshInterfaceName : string := "wg-mesh".
Definition DefaultClientListenPort : Z := 51820.
Definition DefaultMeshListenPort : Z := 51821.

(** The factories of [DualListenerConfig] appear as whether they are set. *)
Record DualListenerConfig := MkDLConfig {
  dc_ClientInterfaceName : string;
  dc_MeshInterfaceName : string;
  dc_ClientListenPort : Z;
  dc_MeshListenPort : Z;
  dc_ClientPrivateKey : option Key;
  dc_MeshPrivateKey : option Key;
  dc_ClientPeers : list PeerConfig;
  dc_VanillaFactory : bool;
  dc_AWGFactory : bool
}.

Definition DefaultDualListenerConfig : DualListenerConfig :=
  MkDLConfig DefaultClientInterfaceName DefaultMeshInterfaceName DefaultClientListenPort DefaultMeshListenPort
    None None [] true true.

Inductive dual_error :=
  | ErrDualNoVanilla | ErrDualNoAWG
  | ErrDualClientName (e : name_error) | ErrDualMeshName (e : name_error)
  | ErrDualSameName (name : string)
  | ErrDualClientPort (port : Z) | ErrDualMeshPort (port : Z)
  | ErrDualSamePort (port : Z)
  | ErrDualContext
  | ErrDualCreate (name : string) | ErrDualNilTransport (name : string)
  | ErrDualProtocol (name : string) (got : Protocol)
  | ErrDualZeroKey | ErrDualKey (e : key_error)
  | ErrDualConfigure (name : string)
  | ErrDualNotStarted | ErrDualStats | ErrDualAddPeer
  | ErrDualClose (names : list string).

Definition normalizeDualListenerConfig (cfg : DualListenerConfig) : DualListenerConfig :=
  let '(MkDLConfig cn mn cp mp ck mk ps vf af) := cfg in
  MkDLConfig (if bool_decide (cn = "") then DefaultClientInterfaceName else cn)
    (if bool_decide (mn = "") then DefaultMeshInterfaceName else mn)
    (if cp =? 0 then DefaultClientListenPort else cp)
    (if mp =? 0 then DefaultMeshListenPort else mp) ck mk ps vf af.

Definition validateListenPort (port : Z) : bool := negb ((port <? 1) || (65535 <? port)).

Definition validateDualListenerConfig (cfg : DualListenerConfig) : res dual_error unit :=
  check! dc_VanillaFactory cfg else ErrDualNoVanilla;
  check! dc_AWGFactory cfg else ErrDualNoAWG;
  let! _ := wrap_err ErrDualClientName (ValidateInterfaceName (dc_ClientInterfaceName cfg)) in
  let! _ := wrap_err ErrDualMeshName (ValidateInterfaceName (dc_MeshInterfaceName cfg)) in
  if bool_decide (dc_ClientInterfaceName cfg = dc_MeshInterfaceName cfg)
  then Err (ErrDualSameName (dc_ClientInterfaceName cfg)) else
  check! validateListenPort (dc_ClientListenPort cfg) else ErrDualClientPort (dc_ClientListenPort cfg);
  check! validateListenPort (dc_MeshListenPort cfg) else ErrDualMeshPort (dc_MeshListenPort cfg);
  if dc_ClientListenPort cfg =? dc_MeshListenPort cfg then Err (ErrDualSamePort (dc_ClientListenPort cfg)) else
  Ok ().

(** A given key must not be zero; otherwise one is generated. *)
Definition listenerPrivateKey (key : option Key) (rand : option (list ascii)) : res dual_error Key :=
  match key with
  | Some k => if IsZero k then Err ErrDualZeroKey else Ok k
  | None => wrap_err ErrDualKey (GeneratePrivateKey rand)
  end.

Definition clientListenerConfig (cfg : DualListenerConfig) (rand : option (list ascii)) : res dual_error Config :=
  let! privateKey := listenerPrivateKey (dc_ClientPrivateKey cfg) rand in
  Ok (MkConfig (Some privateKey) (IntPtr (dc_ClientListenPort cfg)) None true (dc_ClientPeers cfg)
        None None None None None None None None None None None None None None None None).

(** Empty: framing parameters must be mesh-wide. *)
Definition meshBootstrapConfig : Config := Config0.

Definition meshListenerConfig (cfg : DualListenerConfig) (rand : option (list ascii)) : res dual_error Config :=
  let! privateKey := listenerPrivateKey (dc_MeshPrivateKey cfg) rand in
  let '(MkConfig _ _ fm _ ps jc jmin jmax s1 s2 s3 s4 h1 h2 h3 h4 i1 i2 i3 i4 i5) := meshBootstrapConfig in
  Ok (MkConfig (Some privateKey) (IntPtr (dc_MeshListenPort cfg)) fm true ps
        jc jmin jmax s1 s2 s3 s4 h1 h2 h3 h4 i1 i2 i3 i4 i5).

(** ** The listener *)

Record DualListener := MkDL {
  dl_cfg : DualListenerConfig;
  dl_client : option nat;
  dl_mesh : option nat;
  dl_started : bool
}.

Definition NewDualListener (cfg : DualListenerConfig) : res dual_error DualListener :=
  let normalized := normalizeDualListenerConfig cfg in
  let! _ := validateDualListenerConfig normalized in
  Ok (MkDL normalized None None false).

(** What the environment decides during one [Start]: the context, the two factories,
    the two configurations, and the random bytes of generated keys. *)
Record start_env := MkStartEnv {
  se_cancelled : bool;
  se_vanilla : factory_outcome; se_configure_client : bool; se_client_rand : option (list ascii);
  se_awg : factory_outcome; se_configure_mesh : bool; se_mesh_rand : option (list ascii)
}.

Definition open_client (cfg : DualListenerConfig) (e : start_env) (w : world) : res dual_error nat * world :=
  let name := dc_ClientInterfaceName cfg in
  match create (se_vanilla e) name w with
  | (Err _, w) => (Err (ErrDualCreate name), w)
  | (Ok None, w) => (Err (ErrDualNilTransport name), w)
  | (Ok (Some (client, p)), w) =>
      if negb (bool_decide (p = ProtocolVanilla)) then (Err (ErrDualProtocol name p), close client w) else
      match clientListenerConfig cfg (se_client_rand e) with
      | Err err => (Err err, close client w)
      | Ok clientCfg =>
          if negb (se_configure_client e) then (Err (ErrDualConfigure name), close client w)
          else (Ok client, configure client clientCfg w)
      end
  end.

Definition open_mesh (cfg : DualListenerConfig) (e : start_env) (client : nat) (w : world) : res dual_error nat * world :=
  let name := dc_MeshInterfaceName cfg in
  match create (se_awg e) name w with
  | (Err _, w) => (Err (ErrDualCreate name), close client w)
  | (Ok None, w) => (Err (ErrDualNilTransport name), close client w)
  | (Ok (Some (mesh, p)), w) =>
      if negb (bool_decide (p = ProtocolAmneziaWG))
      then (Err (ErrDualProtocol name p), close client (close mesh w)) else
      match meshListenerConfig cfg (se_mesh_rand e) with
      | Err err => (Err err, close client (close mesh w))
      | Ok meshCfg =>
          if negb (se_configure_mesh e) then (Err (ErrDualConfigure name), close client (close mesh w))
          else (Ok mesh, configure mesh meshCfg w)
      end
  end.

Definition Start (e : start_env) (l : DualListener) (w : world) : res dual_error unit * DualListener * world :=
  if se_cancelled e then (Err ErrDualContext, l, w)
  else if dl_started l then (Ok (), l, w)
  else
    match open_client (dl_cfg l) e w with
    | (Err err, w) => (Err err, l, w)
    | (Ok client, w) =>
        match open_mesh (dl_cfg l) e client w with
        | (Err err, w) => (Err err, l, w)
        | (Ok mesh, w) => (Ok (), MkDL (dl_cfg l) (Some client) (Some mesh) true, w)
        end
    end.

(** [Close] with the outcomes of closing the mesh and the client transport. *)
Definition Close (mesh_ok client_ok : bool) (l : DualListener) (w : world) : res dual_error unit * DualListener * world :=
  let w := match dl_mesh l with Some m => close m w | None => w end in
  let errs := match dl_mesh l with Some _ => if mesh_ok then [] else [dc_MeshInterfaceName (dl_cfg l)] | None => [] end in
  let w := match dl_client l with Some c => close c w | None => w end in
  let errs := errs ++ match dl_client l with Some _ => if client_ok then [] else [dc_ClientInterfaceName (dl_cfg l)] | None => [] end in
  (if bool_decide (errs = []) then Ok () else Err (ErrDualClose errs), MkDL (dl_cfg l) None None false, w).

Definition MeshPublicKey (stats : option Device) (l : DualListener) : res dual_error Key :=
  match dl_mesh l with
  | None => Err ErrDualNotStarted
  | Some _ => match stats with None => Err ErrDualStats | Some dev => Ok (dv_PublicKey dev) end
  end.

Definition AddMeshPeer (ok : bool) (peer : PeerConfig) (l : DualListener) (w : world) : res dual_error unit * world :=
  match dl_mesh l with
  | None => (Err ErrDualNotStarted, w)
  | Some m => (if ok then Ok () else Err ErrDualAddPeer, add_peer m peer w)
  end.

Record DualListenerSnapshot := MkDLSnapshot {
  sn_ClientInterfaceName : string; sn_MeshInterfaceName : string;
  sn_ClientListenPort : Z; sn_MeshListenPort : Z;
  sn_ClientProtocol : Protocol; sn_MeshProtocol : Protocol; sn_Started : bool
}.
Definition Snapshot (l : DualListener) : DualListenerSnapshot :=
  MkDLSnapshot (dc_ClientInterfaceName (dl_cfg l)) (dc_MeshInterfaceName (dl_cfg l))
    (dc_ClientListenPort (dl_cfg l)) (dc_MeshListenPort (dl_cfg l)) ProtocolVanilla ProtocolAmneziaWG (dl_started l).

(** ** Runs *)

Inductive dl_step : DualListener * world → DualListener * world → Prop :=
  | step_Start e l w : dl_step (l, w) (snd (fst (Start e l w)), snd (Start e l w))
  | step_Close a b l w : dl_step (l, w) (snd (fst (Close a b l w)), snd (Close a b l w))
  | step_AddMeshPeer ok peer l w : dl_step (l, w) (l, snd (AddMeshPeer ok peer l w)).

(** The transports the listener holds. *)
Definition held (l : DualListener) : gset nat :=
  match dl_client l with Some c => {[ c ]} | None => ∅ end ∪ match dl_mesh l with Some m => {[ m ]} | None => ∅ end.

(** Transports open in the world are numbered below the next one. *)
Definition world_ok (w : world) : Prop := ∀ id, id ∈ w_open w → (id < w_next w)%nat.

(** The invariant over a world in which [base] was open before. *)
Definition dl_inv (base : gset nat) (cfg : DualListenerConfig) (s : DualListener * world) : Prop :=
  let '(l, w) := s in
  dl_cfg l = cfg ∧ world_ok w ∧ w_open w = base ∪ held l ∧ held l ## base ∧
  if dl_started l then ∃ c m, dl_client l = Some c ∧ dl_mesh l = Some m ∧ c ≠ m
  else dl_client l = None ∧ dl_mesh l = None.

Lemma create_spec o name w r w' : world_ok w → create o name w = (r, w') → world_ok w' ∧
  match r with
  | Ok (Some (id, p)) => o = FactoryMakes p ∧ id = w_next w ∧ id ∉ w_open w ∧ w_open w' = {[ id ]} ∪ w_open w ∧
      w_log w' = w_log w ++ [EvCreate id name p]
  | _ => w' = w
  end.
Proof.
  intros Hw H. destruct o as [| |p]; simplify_eq/=; [done|done|]. split.
  - intros id Hid. cbn in *. apply elem_of_union in Hid as [->%elem_of_singleton|Hid]; [lia|]. specialize (Hw id Hid). lia.
  - split_and!; try done. intros Hin. specialize (Hw _ Hin). lia.
Qed.

Lemma close_ok id w : world_ok w → world_ok (close id w).
Proof. intros Hw i Hi. cbn in *. apply Hw. set_solver. Qed.

(** Opening the client transport: either one new open transport, or none. *)
Lemma open_client_spec cfg e w r w' : world_ok w → open_client cfg e w = (r, w') → world_ok w' ∧
  match r with
  | Err _ => w_open w' = w_open w
  | Ok c => c ∉ w_open w ∧ w_open w' = {[ c ]} ∪ w_open w ∧ ∃ ccfg,
      clientListenerConfig cfg (se_client_rand e) = Ok ccfg ∧
      w_log w' = w_log w ++ [EvCreate c (dc_ClientInterfaceName cfg) ProtocolVanilla; EvConfigure c ccfg]
  end.
Proof.
  intros Hw H. unfold open_client in H. destruct (create _ _ w) as [rc w1] eqn:E.
  apply create_spec in E as [Hw1 E]; [|done].
  destruct rc as [[[id p]|]|u]; [|by simplify_eq..].
  destruct E as (_ & -> & Hid & Ho & Hl).
  assert (w_open (close (w_next w) w1) = w_open w) as Hc by (cbn; rewrite Ho; set_solver).
  destruct (bool_decide (p = ProtocolVanilla)) eqn:Hp; cbn [negb] in H; [|simplify_eq; auto using close_ok].
  bool_to_prop. subst p. destruct (clientListenerConfig cfg _) as [ccfg|err] eqn:Ecfg; [|simplify_eq; auto using close_ok].
  destruct (se_configure_client e); cbn [negb] in H; [|simplify_eq; auto using close_ok].
  simplify_eq. split; [done|]. split_and!; [done|done|]. exists ccfg. split; [done|].
  cbn. rewrite Hl. by rewrite <- app_assoc.
Qed.

Lemma open_mesh_spec cfg e client w r w' : world_ok w → client ∈ w_open w →
  open_mesh cfg e client w = (r, w') → world_ok w' ∧
  match r with
  | Err _ => w_open w' = w_open w ∖ {[ client ]}
  | Ok m => m ∉ w_open w ∧ w_open w' = {[ m ]} ∪ w_open w ∧ ∃ mcfg,
      meshListenerConfig cfg (se_mesh_rand e) = Ok mcfg ∧
      w_log w' = w_log w ++ [EvCreate m (dc_MeshInterfaceName cfg) ProtocolAmneziaWG; EvConfigure m mcfg]
  end.
Proof.
  intros Hw Hcl H. unfold open_mesh in H. destruct (create _ _ w) as [rc w1] eqn:E.
  apply create_spec in E as [Hw1 E]; [|done].
  destruct rc as [[[id p]|]|u]; [|simplify_eq; auto using close_ok..].
  destruct E as (_ & -> & Hid & Ho & Hl).
  assert (w_open (close client (close (w_next w) w1)) = w_open w ∖ {[ client ]}) as Hc by (cbn; rewrite Ho; set_solver).
  destruct (bool_decide (p = ProtocolAmneziaWG)) eqn:Hp; cbn [negb] in H; [|simplify_eq; auto using close_ok].
  bool_to_prop. subst p. destruct (meshListenerConfig cfg _) as [mcfg|err] eqn:Ecfg; [|simplify_eq; auto using close_ok].
  destruct (se_configure_mesh e); cbn [negb] in H; [|simplify_eq; auto using close_ok].
  simplify_eq. split; [done|]. split_and!; [done|done|]. exists mcfg. split; [done|].
  cbn. rewrite Hl. by rewrite <- app_assoc.
Qed.

Lemma Start_spec e l w r l' w' : world_ok w → Start e l w = (r, l', w') → world_ok w' ∧
  match r with
  | Err _ => l' = l ∧ w_open w' = w_open w
  | Ok _ =>
      if dl_started l then l' = l ∧ w' = w else
      ∃ c m ccfg mcfg, l' = MkDL (dl_cfg l) (Some c) (Some m) true ∧ c ≠ m ∧ c ∉ w_open w ∧ m ∉ w_open w ∧
        w_open w' = {[ c; m ]} ∪ w_open w ∧
        clientListenerConfig (dl_cfg l) (se_client_rand e) = Ok ccfg ∧
        meshListenerConfig (dl_cfg l) (se_mesh_rand e) = Ok mcfg ∧
        w_log w' = w_log w ++ [EvCreate c (dc_ClientInterfaceName (dl_cfg l)) ProtocolVanilla; EvConfigure c ccfg;
                               EvCreate m (dc_MeshInterfaceName (dl_cfg l)) ProtocolAmneziaWG; EvConfigure m mcfg]
  end.
Proof.
  intros Hw H. unfold Start in H. destruct (se_cancelled e); [by simplify_eq|].
  destruct (dl_started l); [by simplify_eq|].
  destruct (open_client (dl_cfg l) e w) as [rc w1] eqn:Ec. apply open_client_spec in Ec as [Hw1 Ec]; [|done].
  destruct rc as [c|err]; [|by simplify_eq]. destruct Ec as (Hc & Ho & ccfg & Eccfg & Hl).
  destruct (open_mesh (dl_cfg l) e c w1) as [rm w2] eqn:Em.
  apply open_mesh_spec in Em as [Hw2 Em]; [|done|rewrite Ho; set_solver].
  destruct rm as [m|err]; simplify_eq; (split; [done|]); [|split; [done|]; rewrite Em, Ho; set_solver].
  destruct Em as (Hm & Ho2 & mcfg & Emcfg & Hl2). rewrite Ho in Hm.
  exists c, m, ccfg, mcfg. split_and!; try done; [set_solver..|]. rewrite Hl2, Hl. by rewrite <- app_assoc.
Qed.

Lemma Close_open a b l w : w_open (snd (Close a b l w)) = w_open w ∖ held l ∧ w_next (snd (Close a b l w)) = w_next w.
Proof. unfold Close, held. cbn. destruct (dl_client l), (dl_mesh l); cbn; split; try done; set_solver. Qed.

Lemma dl_inv_step base cfg s s' : dl_inv base cfg s → dl_step s s' → dl_inv base cfg s'.
Proof.
  intros Hi Hs. destruct Hs as [e l w|a b l w|ok peer l w]; destruct Hi as (Hcfg & Hw & Ho & Hd & Hst).
  - destruct (Start e l w) as [[r l'] w'] eqn:E. cbn. apply Start_spec in E as [Hw' E]; [|done].
    destruct r as [u|err]; [|destruct E as [-> E]; split_and!; [done..|by rewrite E|done|done]].
    destruct (dl_started l) eqn:Est; [destruct E as [-> ->]; rewrite Est; split_and!; done|].
    destruct Hst as [Hc Hm]. assert (held l = ∅) as Hh by (unfold held; by rewrite Hc, Hm).
    destruct E as (c & m & ccfg & mcfg & -> & Hne & Hnc & Hnm & Ho' & _). rewrite Ho, Hh in *.
    split_and!; [done|done|unfold held; cbn; rewrite Ho'; set_solver|unfold held; cbn; set_solver|]. cbn. eauto.
  - destruct (Close_open a b l w) as [E1 E2]. split_and!; [done| |rewrite E1, Ho; unfold held at 2; cbn; set_solver|unfold held; cbn; set_solver|done].
    intros id Hid. rewrite E1 in Hid. rewrite E2. apply Hw. set_solver.
  - unfold AddMeshPeer. destruct (dl_mesh l) as [m|] eqn:Em; split_and!; try done; by rewrite Em.
Qed.

(** No transport leaks: from a validated configuration, after any sequence of
    starts, closes and peer additions, with factories, configurations and closes
    failing at any point, the open transports are exactly those open before and the
    two the listener holds - both or neither, and distinct. *)
Theorem dual_listener_no_leak cfg l0 w0 l w :
  NewDualListener cfg = Ok l0 → world_ok w0 → rtc dl_step (l0, w0) (l, w) →
  w_open w = w_open w0 ∪ held l ∧ held l ## w_open w0 ∧
  (if dl_started l then ∃ c m, dl_client l = Some c ∧ dl_mesh l = Some m ∧ c ≠ m
   else dl_client l = None ∧ dl_mesh l = None).
Proof.
  intros Hn Hw Hr. unfold NewDualListener in Hn. inv_res.
  assert (dl_inv (w_open w0) (normalizeDualListenerConfig cfg) (l, w)) as (_ & _ & Ho & Hd & Hst); [|done].
  assert (dl_inv (w_open w0) (normalizeDualListenerConfig cfg)
    (MkDL (normalizeDualListenerConfig cfg) None None false, w0)) as Hinit.
  { split_and!; [done|done|unfold held; cbn; set_solver|unfold held; cbn; set_solver|done]. }
  revert Hinit Hr. generalize (MkDL (normalizeDualListenerConfig cfg) None None false, w0) (l, w).
  intros s s' Hi Hr. induction Hr as [|s1 s2 s3 Hs _ IH]; [done|]. apply IH. by eapply dl_inv_step.
Qed.

Definition all_ok : start_env :=
  MkStartEnv false (FactoryMakes ProtocolVanilla) true (Some sample_key) (FactoryMakes ProtocolAmneziaWG) true (Some sample_key).
Definition mesh_fails : start_env :=
  MkStartEnv false (FactoryMakes ProtocolVanilla) true (Some sample_key) FactoryFails true (Some sample_key).
Definition world0 : world := MkWorld ∅ 0 [].
Definition default_listener : DualListener := MkDL DefaultDualListenerConfig None None false.

Lemma dual_listener_no_leak_witness :
  let s1 := Start mesh_fails default_listener world0 in
  let s2 := Start all_ok (snd (fst s1)) (snd s1) in
  w_open (snd s2) = ∅ ∪ held (snd (fst s2)) ∧ dl_started (snd (fst s2)) = true.
Proof.
  split; [|reflexivity].
  eapply (dual_listener_no_leak DefaultDualListenerConfig default_listener world0); [reflexivity|done|].
  eapply rtc_l; [apply (step_Start mesh_fails)|]. eapply rtc_l; [apply (step_Start all_ok)|]. apply rtc_refl.
Defined.

Lemma listenerPrivateKey_nonzero key rand k :
  (∀ bs, rand = Some bs → length bs = key_size) → listenerPrivateKey key rand = Ok k → IsZero k = false.
Proof.
  intros Hr H. unfold listenerPrivateKey in H. destruct key as [k'|].
  - destruct (IsZero k') eqn:E; [discriminate|]. by injection H as <-.
  - inv_res. unfold GeneratePrivateKey, GenerateKey in H. destruct rand as [bs|]; [|discriminate].
    injection H as <-. by apply clamp_nonzero, Hr.
Qed.

(** Starting a stopped listener is all or nothing: on success two transports exist,
    created in order under the configured, distinct names - vanilla for clients,
    AmneziaWG for the mesh - each configured once with a non-zero private key, its own
    port in 1..65535 and replaced peers, and nothing was closed; on failure the
    listener is unchanged and no transport created by the attempt stays open. *)
Theorem Start_all_or_nothing cfg l e w r l' w' :
  NewDualListener cfg = Ok l → world_ok w → (∀ bs, se_client_rand e = Some bs → length bs = key_size) →
  (∀ bs, se_mesh_rand e = Some bs → length bs = key_size) →
  Start e l w = (r, l', w') →
  match r with
  | Err _ => l' = l ∧ w_open w' = w_open w
  | Ok _ => ∃ c m ccfg mcfg ck mk,
      dl_client l' = Some c ∧ dl_mesh l' = Some m ∧ dl_started l' = true ∧
      w_open w' = {[ c; m ]} ∪ w_open w ∧
      w_log w' = w_log w ++ [EvCreate c (dc_ClientInterfaceName (dl_cfg l)) ProtocolVanilla; EvConfigure c ccfg;
                             EvCreate m (dc_MeshInterfaceName (dl_cfg l)) ProtocolAmneziaWG; EvConfigure m mcfg] ∧
      dc_ClientInterfaceName (dl_cfg l) ≠ dc_MeshInterfaceName (dl_cfg l) ∧
      cf_PrivateKey ccfg = Some ck ∧ IsZero ck = false ∧ cf_PrivateKey mcfg = Some mk ∧ IsZero mk = false ∧
      cf_ListenPort ccfg = Some (dc_ClientListenPort (dl_cfg l)) ∧ cf_ListenPort mcfg = Some (dc_MeshListenPort (dl_cfg l)) ∧
      1 ≤ dc_ClientListenPort (dl_cfg l) ≤ 65535 ∧ 1 ≤ dc_MeshListenPort (dl_cfg l) ≤ 65535 ∧
      dc_ClientListenPort (dl_cfg l) ≠ dc_MeshListenPort (dl_cfg l) ∧
      cf_ReplacePeers ccfg = true ∧ cf_ReplacePeers mcfg = true ∧ cf_Peers ccfg = dc_ClientPeers (dl_cfg l)
  end.
Proof.
  intros Hn Hw Hrc Hrm H. unfold NewDualListener in Hn. inv_res. set (ncfg := normalizeDualListenerConfig cfg) in *.
  apply Start_spec in H as [_ H]; [|done]. destruct r as [u|err]; [|done]. cbn [dl_started dl_cfg] in H.
  destruct H as (c & m & ccfg & mcfg & -> & Hne & Hnc & Hnm & Ho & Ec & Em & Hl). cbn [dl_client dl_mesh dl_started dl_cfg].
  unfold clientListenerConfig in Ec. unfold meshListenerConfig, meshBootstrapConfig, Config0 in Em.
  unfold validateDualListenerConfig, validateListenPort in Ha. inv_res. bool_to_prop.
  apply listenerPrivateKey_nonzero in Ha0, Ha1; [|done..].
  eexists c, m, _, _, a1, a0. split_and!; [done|done|done|done|exact Hl|done|reflexivity|done|reflexivity|done|reflexivity|reflexivity|lia|lia|lia|lia|lia|done|done|done].
Qed.

Lemma Start_all_or_nothing_witness :
  let '(r, l', w') := Start mesh_fails default_listener world0 in
  r = Err (ErrDualCreate "wg-mesh") ∧ l' = default_listener ∧ w_open w' = ∅.
Proof.
  pose proof (Start_all_or_nothing DefaultDualListenerConfig default_listener mesh_fails world0) as H.
  assert (fst (fst (Start mesh_fails default_listener world0)) = Err (ErrDualCreate "wg-mesh")) as Hr by reflexivity.
  destruct (Start mesh_fails default_listener world0) as [[r l'] w']. cbn [fst] in Hr. subst r.
  split; [reflexivity|]. apply (H (Err (ErrDualCreate "wg-mesh")) l' w'); [reflexivity|done|..|reflexivity];
    intros bs [= <-]; reflexivity.
Defined.
