(* ===== verification/ISpec.v ===== *)
(** * I-spec templates

    Models src/pkg/awggen/ispec.go: the language of packet templates ([<b hex>],
    [<r n>], [<rc n>], [<rd min max>], [<t NAME>] and literal words), its tokenizer,
    parser, validator and interpreter. Templates may refer to templates, to a depth
    of 8 and never to one being expanded.

    The random sources are a parameter: [IntN] of math/rand and [Read] of
    crypto/rand over an abstract generator state, with the law that a draw lies in
    its range and a read fills its buffer. The Go runtime panics when [IntN] gets a
    bound that is not positive and when a slice is too long for it; both are error
    values here. *)

From S2P Require Import Prelude GoStrings GoNet GoText.

(** ** Random sources *)

Record rand_source (G : Type) := MkRand {
  rs_IntN : Z → G → Z * G;
  rs_Read : nat → G → option (list ascii) * G;
  rs_maxSlice : Z                (* the longest byte slice the runtime can make *)
}.
Arguments MkRand {G}.
Arguments rs_IntN {G}.
Arguments rs_Read {G}.
Arguments rs_maxSlice {G}.

Class RandLaws {G} (rs : rand_source G) : Prop := {
  IntN_range : ∀ n g, 0 < n → 0 ≤ fst (rs_IntN rs n g) < n;
  Read_length : ∀ n g l, fst (rs_Read rs n g) = Some l → length l = n;
  maxSlice_int : 0 ≤ rs_maxSlice rs < 2 ^ 63 - 1
}.

(** ** Operations *)

Inductive iSpecOperation :=
  | OpLiteral (l : string)
  | OpBinary (b : list ascii)
  | OpRandom (length : Z)
  | OpCRandom (length : Z)
  | OpDigits (minLength maxLength : Z)
  | OpType (templateType : string).

Inductive ispec_error :=
  | ErrISpecDepth
  | ErrISpecRecursive (t : string)
  | ErrISpecUnknown (t : string)
  | ErrISpecUnterminated (position : nat)
  | ErrISpecRaw (c : ascii) (position : nat)
  | ErrISpecEmptyTag
  | ErrISpecTag (name : string)
  | ErrISpecArgs (name : string)
  | ErrISpecHex
  | ErrISpecLength (name : string)
  | ErrISpecOrder
  | ErrISpecRand
  | ErrISpecPanic
  | ErrISpecFuel.

Definition maxTemplateExpansionDepth : nat := 8.

Definition protocolTemplateExpansions : gmap string string := list_to_map [
  ("TLS_CLIENT_HELLO", "<b 160301> <r 2> <b 0100> <r 4> <b 0303> <rc 32>");
  ("TLS_SERVER_HELLO", "<b 160303> <r 2> <b 0200> <r 4> <b 0303> <rc 32>");
  ("TLS_EXTENSIONS", "<b 000a0006001700180019> <b 000d000400020403> <b 002b0003020304>");
  ("TLS_SERVER_EXTENSIONS", "<b 002b00020304> <b 00330002001d>");
  ("QUIC_INITIAL", "<b c30000000108> <rc 8> <b 00> <r 20>");
  ("QUIC_TRANSPORT_PARAMS", "<b 00390020> <rc 32>");
  ("DNS_QUERY", "<rc 2> <b 01000001000000000000>");
  ("DNS_RESPONSE", "<rc 2> <b 81800001000100000000>");
  ("HTTP_GET", "<b 474554202f20485454502f312e31> <b 0d0a>");
  ("DTLS_CLIENT_HELLO", "<b 16fefd> <r 2> <b 0100> <r 4> <b fefd> <rc 32>");
  ("DTLS_EXTENSIONS", "<b 000f000101> <b 000a00080006001700180019>");
  ("STUN_BINDING", "<b 00010000> <b 2112a442> <rc 12>");
  ("NTP_QUERY", "<b 1b00000000000000000000000000000000000000000000000000000000000000>")].

(** ** Tokens *)

(** [unicode.IsSpace] of a byte taken as a code point: the ASCII blanks, 0x85 and 0xA0. *)
Definition byte_space (a : ascii) : bool := space1 a || (code a =? 0x85) || (code a =? 0xA0).

Fixpoint skip_space (l : list ascii) : list ascii :=
  match l with
  | [] => []
  | a :: l' => if byte_space a then skip_space l' else l
  end.

(** A word without tags, up to a blank: the word and the rest. *)
Fixpoint take_raw (total : nat) (l : list ascii) : res ispec_error (list ascii * list ascii) :=
  match l with
  | [] => Ok ([], [])
  | a :: l' =>
      if byte_space a then Ok ([], l)
      else if bool_decide (a = "<"%char) || bool_decide (a = ">"%char) then Err (ErrISpecRaw a (total - length l))
      else let! (w, rest) := take_raw total l' in Ok (a :: w, rest)
  end.

(** The loop of [tokenizeISpec] on the bytes after the cursor; every turn advances. *)
Fixpoint tokenize (fuel total : nat) (l : list ascii) : res ispec_error (list string) :=
  match fuel with
  | O => Err ErrISpecFuel
  | S fuel =>
      match skip_space l with
      | [] => Ok []
      | (a :: _) as l =>
          if bool_decide (a = "<"%char) then
            match cut_byte ">" l with
            | None => Err (ErrISpecUnterminated (total - length l))
            | Some (tag, rest) =>
                let! ts := tokenize fuel total rest in Ok (of_bytes (tag ++ [">"%char]) :: ts)
            end
          else
            let! (w, rest) := take_raw total l in
            let! ts := tokenize fuel total rest in Ok (of_bytes w :: ts)
      end
  end.
Definition tokenizeISpec (spec : string) : res ispec_error (list string) :=
  let l := to_bytes spec in tokenize (S (length l)) (length l) l.

Definition parseISpecLength (value name : string) : res ispec_error Z :=
  match Atoi value with
  | None => Err (ErrISpecLength name)
  | Some parsed => if parsed <? 0 then Err (ErrISpecLength name) else Ok parsed
  end.

Definition parseBinaryTag (parts : list string) : res ispec_error iSpecOperation :=
  match parts with
  | [_; arg] => match hex_decode arg with None => Err ErrISpecHex | Some b => Ok (OpBinary b) end
  | _ => Err (ErrISpecArgs "b")
  end.
Definition parseRandomTag (parts : list string) (kind : Z → iSpecOperation) : res ispec_error iSpecOperation :=
  match parts with
  | [name; arg] => let! n := parseISpecLength arg name in Ok (kind n)
  | _ => Err (ErrISpecArgs (default "" (head parts)))
  end.
Definition parseRandomDigitsTag (parts : list string) : res ispec_error iSpecOperation :=
  match parts with
  | [name; a; b] =>
      let! minLength := parseISpecLength a name in
      let! maxLength := parseISpecLength b name in
      if maxLength <? minLength then Err ErrISpecOrder else Ok (OpDigits minLength maxLength)
  | _ => Err (ErrISpecArgs "rd")
  end.

Section Templates.
(** The table of templates, [protocolTemplateExpansions] in the program. *)
Context (templates : gmap string string).

Definition parseTemplateTag (parts : list string) : res ispec_error iSpecOperation :=
  match parts with
  | [_; arg] =>
      let templateType := ToUpper arg in
      match templates !! templateType with
      | None => Err (ErrISpecUnknown templateType)
      | Some _ => Ok (OpType templateType)
      end
  | _ => Err (ErrISpecArgs "t")
  end.

Definition parseISpecTag (token : string) : res ispec_error iSpecOperation :=
  let l := to_bytes token in
  let inner := TrimSpace (of_bytes (take (length l - 2) (drop 1 l))) in
  match Fields inner with
  | [] => Err ErrISpecEmptyTag
  | (name :: _) as parts =>
      if bool_decide (name = "b") then parseBinaryTag parts
      else if bool_decide (name = "r") then parseRandomTag parts OpRandom
      else if bool_decide (name = "rc") then parseRandomTag parts OpCRandom
      else if bool_decide (name = "rd") then parseRandomDigitsTag parts
      else if bool_decide (name = "t") then parseTemplateTag parts
      else Err (ErrISpecTag name)
  end.

Definition parseISpecToken (token : string) : res ispec_error iSpecOperation :=
  if HasPrefix token "<" && HasSuffix token ">" then parseISpecTag token else Ok (OpLiteral token).

Fixpoint parse_tokens (tokens : list string) : res ispec_error (list iSpecOperation) :=
  match tokens with
  | [] => Ok []
  | t :: tokens => let! op := parseISpecToken t in let! ops := parse_tokens tokens in Ok (op :: ops)
  end.
Definition parseISpecOperations (spec : string) : res ispec_error (list iSpecOperation) :=
  let! tokens := tokenizeISpec spec in parse_tokens tokens.

(** ** Validation

    [depth] counts the templates entered, as in the source, and is tested against the
    maximum there; [fuel] bounds the recursion of the model alone and has an error of
    its own, which [ISpec_validation_exact] shows is never met. The set of templates
    being expanded is passed down; the source removes what it added on every way out. *)
Section Loop.
Context (validate : string → gset string → res ispec_error unit) (stack : gset string).
Fixpoint validate_ops (ops : list iSpecOperation) : res ispec_error unit :=
  match ops with
  | [] => Ok ()
  | OpType t :: ops =>
      if bool_decide (t ∈ stack) then Err (ErrISpecRecursive t) else
      match templates !! t with
      | None => Err (ErrISpecUnknown t)
      | Some template => let! _ := validate template ({[ t ]} ∪ stack) in validate_ops ops
      end
  | _ :: ops => validate_ops ops
  end.
End Loop.

Fixpoint validateISpecRecursive (fuel : nat) (spec : string) (depth : nat) (stack : gset string) : res ispec_error unit :=
  match fuel with
  | O => Err ErrISpecFuel
  | S fuel =>
      if (maxTemplateExpansionDepth <? depth)%nat then Err ErrISpecDepth else
      let! ops := parseISpecOperations spec in
      validate_ops (λ spec stack, validateISpecRecursive fuel spec (S depth) stack) stack ops
  end.
Lemma validate_step fuel spec depth stack : validateISpecRecursive (S fuel) spec depth stack =
  if (maxTemplateExpansionDepth <? depth)%nat then Err ErrISpecDepth else
  let! ops := parseISpecOperations spec in
  validate_ops (λ spec stack, validateISpecRecursive fuel spec (S depth) stack) stack ops.
Proof. done. Qed.
(** Calls nest at most to depth 9, where the depth test stops them. *)
Definition ispec_fuel : nat := maxTemplateExpansionDepth + 2.
Definition ValidateISpec (spec : string) : res ispec_error unit :=
  validateISpecRecursive ispec_fuel spec 0 ∅.

(** ** Execution *)
Section Execute.
Context {G : Type} (rs : rand_source G).

Definition M (A : Type) : Type := G → res ispec_error (A * G).

(** [make([]byte, n)] and the draws into it. *)
Definition make_bytes (n : Z) : res ispec_error unit :=
  if (n <? 0) || (rs_maxSlice rs <? n) then Err ErrISpecPanic else Ok ().
Definition IntN (n : Z) : M Z := λ g, if n <=? 0 then Err ErrISpecPanic else Ok (rs_IntN rs n g).

Fixpoint draw_bytes (bound base : Z) (n : nat) (g : G) : res ispec_error (list ascii * G) :=
  match n with
  | O => Ok ([], g)
  | S n =>
      let! (v, g) := IntN bound g in
      let! (l, g) := draw_bytes bound base n g in
      Ok (chr (base + v) :: l, g)
  end.
Definition randomBytes (length : Z) : M (list ascii) := λ g,
  let! _ := make_bytes length in draw_bytes 256 0 (Z.to_nat length) g.
Definition cryptoRandomBytes (length : Z) : M (list ascii) := λ g,
  let! _ := make_bytes length in
  if length =? 0 then Ok ([], g) else
  match rs_Read rs (Z.to_nat length) g with
  | (None, _) => Err ErrISpecRand
  | (Some l, g) => Ok (l, g)
  end.
Definition randomDigitBytes (minLength maxLength : Z) : M (list ascii) := λ g,
  let! (d, g) := IntN (wrap_int64 (maxLength - minLength + 1)) g in
  let length := minLength + d in
  let! _ := make_bytes length in draw_bytes 10 48 (Z.to_nat length) g.

Section Ops.
Context (execute : list iSpecOperation → nat → gset string → M (list ascii)) (depth : nat) (stack : gset string).

Definition expandProtocolTemplate (templateType : string) (depth : nat) : M (list ascii) := λ g,
  if bool_decide (templateType ∈ stack) then Err (ErrISpecRecursive templateType) else
  match templates !! templateType with
  | None => Err (ErrISpecUnknown templateType)
  | Some templateSpec =>
      let! ops := parseISpecOperations templateSpec in execute ops depth ({[ templateType ]} ∪ stack) g
  end.

Definition executeISpecOperation (op : iSpecOperation) : M (list ascii) :=
  match op with
  | OpLiteral l => λ g, Ok (to_bytes l, g)
  | OpBinary b => λ g, Ok (b, g)
  | OpRandom n => randomBytes n
  | OpCRandom n => cryptoRandomBytes n
  | OpDigits a b => randomDigitBytes a b
  | OpType t => expandProtocolTemplate t (S depth)
  end.

Fixpoint execute_ops (ops : list iSpecOperation) (output : list ascii) (g : G) : res ispec_error (list ascii * G) :=
  match ops with
  | [] => Ok (output, g)
  | op :: ops =>
      let! (payload, g) := executeISpecOperation op g in execute_ops ops (output ++ payload) g
  end.
End Ops.

Fixpoint executeISpecOperations (fuel : nat) (ops : list iSpecOperation) (depth : nat) (stack : gset string) : M (list ascii) :=
  match fuel with
  | O => λ _, Err ErrISpecFuel
  | S fuel => λ g,
      if (maxTemplateExpansionDepth <? depth)%nat then Err ErrISpecDepth else
      execute_ops (executeISpecOperations fuel) depth stack ops [] g
  end.

Definition ParseISpec (spec : string) : M (list ascii) := λ g,
  let! ops := parseISpecOperations spec in
  executeISpecOperations ispec_fuel ops 0 ∅ g.
End Execute.
End Templates.

(** ** Families (src/pkg/awggen/families.go) *)

Record ProtocolFamily := MkFamily {
  fm_Name : string; fm_Description : string;
  fm_I1 : string; fm_I2 : string; fm_I3 : string; fm_I4 : string; fm_I5 : string
}.

Definition protocolFamilies : list ProtocolFamily := [
  MkFamily "TLSClientHello" "TLS 1.2/1.3 client hello fingerprint with common extension blocks"
    "<b 160301> <r 2> <b 0100> <r 4> <b 0303> <rc 32>" "<b 00> <r 32> <b 00>"
    "<b 001e> <b 130113021303c02fc02bc030c02c009f009ecca9cca8>" "<t TLS_EXTENSIONS>" "<rd 4 8>";
  MkFamily "TLSServerHello" "TLS server hello fingerprint with negotiated suite and extensions"
    "<b 160303> <r 2> <b 0200> <r 4> <b 0303> <rc 32>" "<b 00> <r 32> <b 1301>"
    "<b 00> <b 0000>" "<t TLS_SERVER_EXTENSIONS>" "<rd 3 6>";
  MkFamily "QUICInitial" "QUIC v1 initial packet style with transport parameter block"
    "<t QUIC_INITIAL>" "<b c3> <rc 8> <b 08>" "<b 00> <r 20>" "<t QUIC_TRANSPORT_PARAMS>" "<rd 6 10>";
  MkFamily "DNSQuery" "UDP DNS query framing with random transaction identifiers"
    "<t DNS_QUERY>" "<rc 2> <b 0100> <b 0001> <b 0000> <b 0000> <b 0000>"
    "<b 076578616d706c65> <b 03636f6d00>" "<b 0001> <b 0001>" "<rd 4 6>";
  MkFamily "DNSResponse" "UDP DNS response framing with answer section"
    "<t DNS_RESPONSE>" "<rc 2> <b 8180> <b 0001> <b 0001> <b 0000> <b 0000>"
    "<b 076578616d706c65> <b 03636f6d00> <b 0001> <b 0001>"
    "<b c00c> <b 0001> <b 0001> <b 0000012c> <b 0004> <r 4>" "<rd 4 6>";
  MkFamily "HTTPGet" "HTTP/1.1 GET style request framing"
    "<t HTTP_GET>" "<b 486f73743a206578616d706c652e636f6d>"
    "<b 557365722d4167656e743a204d6f7a696c6c612f352e30>" "<b 4163636570743a202a2f2a> <b 0d0a>" "<b 0d0a>";
  MkFamily "DTLSClientHello" "DTLS client hello framing over datagram transport"
    "<t DTLS_CLIENT_HELLO>" "<b 16fefd> <r 2> <b 0100> <r 4> <b fefd> <rc 32>"
    "<b 00> <r 32> <b 00>" "<t DTLS_EXTENSIONS>" "<rd 4 8>";
  MkFamily "STUNBinding" "STUN binding request with ICE-style attributes"
    "<t STUN_BINDING>" "<b 00010008> <b 2112a442> <rc 12>" "<b 80220010> <rc 16>"
    "<b 00060006> <b 757365720000>" "<rd 5 9>";
  MkFamily "NTPQuery" "NTP client query packet pattern"
    "<t NTP_QUERY>" "<b 1b> <b 00000000> <b 00000000>" "<b 00000000> <b 00000000>" "<rc 8>" "<rd 2 4>"].

Inductive family_error := ErrFamilyRequired | ErrFamilyUnknown (name : string) | ErrFamilyMissing
  | ErrFamilyTemplate (index : nat) (e : ispec_error).

Definition GetFamily (name : string) : res family_error ProtocolFamily :=
  let normalized := TrimSpace name in
  if bool_decide (normalized = "") then Err ErrFamilyRequired else
  match list_find (λ f, EqualFold normalized (fm_Name f) = true) protocolFamilies with
  | Some (_, f) => Ok f
  | None => Err (ErrFamilyUnknown name)
  end.
Definition ListFamilies : list ProtocolFamily := protocolFamilies.
Definition RandomFamily {G} (rs : rand_source G) (g : G) : option ProtocolFamily * G :=
  match protocolFamilies with
  | [] => (None, g)
  | _ => let '(i, g) := rs_IntN rs (Z.of_nat (length protocolFamilies)) g in (protocolFamilies !! Z.to_nat i, g)
  end.

(** The loop of [GenerateISpec] over the five templates; blank ones are skipped. *)
Fixpoint check_templates (index : nat) (values : list string) : res family_error unit :=
  match values with
  | [] => Ok ()
  | value :: values =>
      if bool_decide (TrimSpace value = "") then check_templates (S index) values else
      match ValidateISpec protocolTemplateExpansions value with
      | Err e => Err (ErrFamilyTemplate (S index) e)
      | Ok _ => check_templates (S index) values
      end
  end.
Definition GenerateISpec (family : option ProtocolFamily) : res family_error (list string) :=
  match family with
  | None => Err ErrFamilyMissing
  | Some f =>
      let values := [fm_I1 f; fm_I2 f; fm_I3 f; fm_I4 f; fm_I5 f] in
      let! _ := check_templates 0 values in Ok values
  end.

(** ** The tokenizer terminates *)

Lemma skip_space_length l : (length (skip_space l) ≤ length l)%nat.
Proof. induction l as [|a l IH]; cbn; [lia|]. destruct (byte_space a); cbn; lia. Qed.
Lemma skip_space_head l a l' : skip_space l = a :: l' → byte_space a = false.
Proof.
  induction l as [|b l IH]; cbn; [done|]. destruct (byte_space b) eqn:E; [done|]. by intros [= <- <-].
Qed.

Lemma take_raw_spec total l w rest : take_raw total l = Ok (w, rest) → l = w ++ rest ∧
  match l with a :: _ => byte_space a = false → (length rest < length l)%nat | [] => True end.
Proof.
  revert w rest. induction l as [|a l IH]; intros w rest H; cbn in H; [by simplify_eq|].
  destruct (byte_space a) eqn:Es; [simplify_eq; by split|].
  destruct (_ || _); [discriminate|]. inv_res. destruct a0 as [w' rest']. inv_res. simplify_eq.
  destruct (IH _ _ Ha) as [-> Hl]. split; [done|]. intros _. cbn. rewrite length_app. lia.
Qed.
(** The two errors the source has no message for: the model's fuel and a panic. *)
Definition internal (e : ispec_error) : Prop := e = ErrISpecFuel ∨ e = ErrISpecPanic.

Lemma take_raw_error total l e : internal e → take_raw total l ≠ Err e.
Proof.
  intros [->| ->]; (induction l as [|a l IH]; cbn; [done|]; destruct (byte_space a); [done|]; destruct (_ || _); [done|];
    destruct (take_raw total l) as [[w rest]|e']; cbn in *; congruence).
Qed.

Lemma cut_byte_length c l x y : cut_byte c l = Some (x, y) → (length y < length l)%nat.
Proof.
  revert x y. induction l as [|a l IH]; intros x y H; cbn in H; [done|]. case_bool_decide; [simplify_eq/=; lia|].
  destruct (cut_byte c l) as [[x' y']|]; simplify_eq/=. specialize (IH _ _ eq_refl). lia.
Qed.

Lemma tokenize_total fuel total l e : (length l < fuel)%nat → internal e → tokenize fuel total l ≠ Err e.
Proof.
  intros Hl He. revert l Hl. induction fuel as [|fuel IH]; intros l Hl; [lia|]. cbn [tokenize].
  pose proof (skip_space_length l) as Hs. pose proof (skip_space_head l) as Hh.
  destruct (skip_space l) as [|a l']; [done|]. case_bool_decide.
  - destruct (cut_byte ">" (a :: l')) as [[tag rest]|] eqn:Ec; [|destruct He; congruence].
    apply cut_byte_length in Ec. specialize (IH rest ltac:(lia)).
    destruct (tokenize fuel total rest); cbn; congruence.
  - pose proof (take_raw_error total (a :: l') e He) as Hn.
    destruct (take_raw total (a :: l')) as [[w rest]|e'] eqn:Et; cbn [res_bind]; [|congruence].
    apply take_raw_spec in Et as [_ Hlt]. specialize (Hlt (Hh _ _ eq_refl)).
    specialize (IH rest ltac:(lia)). destruct (tokenize fuel total rest); cbn; congruence.
Qed.

Lemma parse_length_error v n e : internal e → parseISpecLength v n ≠ Err e.
Proof. intros [->| ->]; unfold parseISpecLength; destruct (Atoi v); [destruct (_ <? _)| |destruct (_ <? _)|]; done. Qed.

Lemma parse_token_error templates t e : internal e → parseISpecToken templates t ≠ Err e.
Proof.
  intros He. pose proof (λ v n, parse_length_error v n e He) as Hlen.
  unfold parseISpecToken, parseISpecTag. destruct (_ && _); [|done].
  destruct (Fields _) as [|name parts]; [by destruct He as [->| ->]|].
  unfold parseBinaryTag, parseRandomTag, parseRandomDigitsTag, parseTemplateTag.
  repeat case_match; try (by destruct He as [->| ->]);
    repeat match goal with |- res_bind ?m _ ≠ _ => let E := fresh in destruct m eqn:E; cbn [res_bind]; [|intros [= ->]; by eapply Hlen] end;
    try done; case_match; by destruct He as [->| ->].
Qed.

Lemma parse_error templates spec e : internal e → parseISpecOperations templates spec ≠ Err e.
Proof.
  intros He. unfold parseISpecOperations, tokenizeISpec.
  pose proof (tokenize_total (S (length (to_bytes spec))) (length (to_bytes spec)) (to_bytes spec) e ltac:(lia) He) as Ht.
  destruct (tokenize _ _ _) as [tokens|e']; cbn [res_bind]; [|congruence]. clear Ht.
  induction tokens as [|t tokens IH]; cbn; [done|]. pose proof (parse_token_error templates t e He).
  destruct (parseISpecToken templates t); cbn; [|congruence].
  destruct (parse_tokens templates tokens); cbn; congruence.
Qed.
Lemma parse_no_fuel templates spec : parseISpecOperations templates spec ≠ Err ErrISpecFuel.
Proof. apply parse_error. by left. Qed.
Lemma parse_no_panic templates spec : parseISpecOperations templates spec ≠ Err ErrISpecPanic.
Proof. apply parse_error. by right. Qed.

(** ** Well-formed operations *)

(** What the parser guarantees of an operation. *)
Definition op_wf (op : iSpecOperation) : Prop :=
  match op with
  | OpRandom n | OpCRandom n => 0 ≤ n
  | OpDigits a b => 0 ≤ a ≤ b
  | _ => True
  end.
(** The runtime can make the slices the operation asks for. *)
Definition op_fits (maxSlice : Z) (op : iSpecOperation) : Prop :=
  match op with
  | OpRandom n | OpCRandom n => n ≤ maxSlice
  | OpDigits _ b => b ≤ maxSlice
  | _ => True
  end.
#[global] Instance op_fits_dec m op : Decision (op_fits m op).
Proof. destruct op; cbn; apply _. Defined.

Lemma parseISpecLength_nonneg v n z : parseISpecLength v n = Ok z → 0 ≤ z.
Proof. unfold parseISpecLength. destruct (Atoi v); [|discriminate]. destruct (Z.ltb_spec z0 0); [discriminate|]. intros [= <-]. lia. Qed.

Lemma parse_op_wf templates t op : parseISpecToken templates t = Ok op → op_wf op.
Proof.
  unfold parseISpecToken, parseISpecTag. destruct (_ && _); [|by intros [= <-]].
  destruct (Fields _) as [|name parts]; [discriminate|].
  unfold parseBinaryTag, parseRandomTag, parseRandomDigitsTag, parseTemplateTag. intros H.
  repeat (case_match; try discriminate); inv_res; cbn; try done;
    repeat match goal with H : parseISpecLength _ _ = Ok _ |- _ => apply parseISpecLength_nonneg in H end; try done; lia.
Qed.

Lemma parse_ops_wf templates spec ops : parseISpecOperations templates spec = Ok ops → Forall op_wf ops.
Proof.
  unfold parseISpecOperations. intros H. inv_res. clear Ha. revert ops H.
  induction a as [|t tokens IH]; intros ops H; cbn in H; inv_res; [constructor|].
  constructor; [by eapply parse_op_wf|by apply IH].
Qed.

(** A parsed template reference names a template of the table. *)
Lemma parse_op_known templates t name : parseISpecToken templates t = Ok (OpType name) → templates !! name ≠ None.
Proof.
  unfold parseISpecToken, parseISpecTag. destruct (_ && _); [|discriminate].
  destruct (Fields _) as [|n parts]; [discriminate|].
  unfold parseBinaryTag, parseRandomTag, parseRandomDigitsTag, parseTemplateTag. intros H.
  repeat (case_match; try discriminate); inv_res; try discriminate; simplify_eq; congruence.
Qed.
Lemma parse_ops_known templates spec ops name :
  parseISpecOperations templates spec = Ok ops → OpType name ∈ ops → templates !! name ≠ None.
Proof.
  unfold parseISpecOperations. intros H. inv_res. clear Ha. revert ops H.
  induction a as [|t tokens IH]; intros ops H Hin; cbn in H; inv_res; [by apply elem_of_nil in Hin|].
  apply elem_of_cons in Hin as [<-|Hin]; [by eapply parse_op_known|by eapply IH].
Qed.

Section Equivalence.
Context (templates : gmap string string) {G : Type} (rs : rand_source G) `{!RandLaws rs}.

(** The lengths of every template fit the runtime. *)
Definition table_fits : Prop := ∀ t s ops,
  templates !! t = Some s → parseISpecOperations templates s = Ok ops → Forall (op_fits (rs_maxSlice rs)) ops.

Lemma draw_bytes_run bound base n g : 0 < bound → ∃ l g', draw_bytes rs bound base n g = Ok (l, g') ∧ length l = n.
Proof.
  intros Hb. revert g. induction n as [|n IH]; intros g; cbn [draw_bytes]; [by exists [], g|].
  unfold IntN at 1. destruct (Z.leb_spec bound 0); [lia|]. destruct (rs_IntN rs bound g) as [v g1]. cbn [res_bind].
  destruct (IH g1) as (l & g2 & -> & Hl). cbn. eexists _, _. split; [done|]. cbn. by rewrite Hl.
Qed.

Lemma make_bytes_ok n : 0 ≤ n ≤ rs_maxSlice rs → make_bytes rs n = Ok ().
Proof. intros H. unfold make_bytes. by replace ((n <? 0) || (rs_maxSlice rs <? n)) with false by lia. Qed.

(** The bytes an operation other than a template yields: at least and at most. *)
Definition op_length (op : iSpecOperation) : Z * Z :=
  match op with
  | OpLiteral l => (Z.of_nat (length (to_bytes l)), Z.of_nat (length (to_bytes l)))
  | OpBinary b => (Z.of_nat (length b), Z.of_nat (length b))
  | OpRandom n | OpCRandom n => (n, n)
  | OpDigits a b => (a, b)
  | OpType _ => (0, 0)
  end.
Definition is_type (op : iSpecOperation) : bool := match op with OpType _ => true | _ => false end.

(** A flat operation succeeds when its lengths fit and the entropy source works. *)
Lemma execute_flat execute depth stack op g :
  (∀ n g, ∃ l, fst (rs_Read rs n g) = Some l) →
  is_type op = false → op_wf op → op_fits (rs_maxSlice rs) op → ∃ l g',
  executeISpecOperation templates rs execute depth stack op g = Ok (l, g') ∧
  (op_length op).1 ≤ Z.of_nat (length l) ≤ (op_length op).2.
Proof.
  intros Hread Ht Hwf Hfit. destruct op as [l|b|n|n|a b|t]; cbn in Ht; [| | | | |discriminate];
    cbn [executeISpecOperation op_wf op_fits op_length fst snd] in *.
  - eexists _, _. split; [done|lia].
  - eexists _, _. split; [done|lia].
  - unfold randomBytes. rewrite make_bytes_ok by lia. cbn [res_bind].
    destruct (draw_bytes_run 256 0 (Z.to_nat n) g) as (l & g' & -> & Hl); [lia|]. eexists _, _. split; [done|lia].
  - unfold cryptoRandomBytes. rewrite make_bytes_ok by lia. cbn [res_bind].
    destruct (Z.eqb_spec n 0) as [->|]; [eexists _, _; split; [done|cbn; lia]|].
    destruct (Hread (Z.to_nat n) g) as [l Hl]. pose proof (Read_length _ _ _ Hl) as Hlen.
    destruct (rs_Read rs (Z.to_nat n) g) as [o g']. cbn in Hl. subst o. eexists _, _. split; [done|lia].
  - unfold randomDigitBytes, IntN. pose proof maxSlice_int. rewrite wrap_int64_id by lia.
    destruct (Z.leb_spec (b - a + 1) 0); [lia|].
    pose proof (IntN_range (b - a + 1) g ltac:(lia)) as Hr.
    destruct (rs_IntN rs (b - a + 1) g) as [d g1]. cbn [res_bind fst] in *.
    rewrite make_bytes_ok by lia. cbn [res_bind].
    destruct (draw_bytes_run 10 48 (Z.to_nat (a + d)) g1) as (l & g' & -> & Hl); [lia|]. eexists _, _. split; [done|lia].
Qed.

(** An accumulating loop succeeds exactly when it does from the empty output. *)
Lemma execute_ops_acc execute depth stack ops : ∀ out g,
  execute_ops templates rs execute depth stack ops out g =
  let! (l, g) := execute_ops templates rs execute depth stack ops [] g in Ok (out ++ l, g).
Proof.
  induction ops as [|op ops IH]; intros out g; cbn [execute_ops].
  - cbn. by rewrite app_nil_r.
  - destruct (executeISpecOperation templates rs execute depth stack op g) as [[l g1]|e]; cbn [res_bind]; [|done].
    rewrite (IH (out ++ l)), (IH ([] ++ l)). destruct (execute_ops _ _ _ _ _ _ [] g1) as [[l' g2]|e]; cbn; [|done].
    by rewrite <- app_assoc.
Qed.

Definition runs (r : res ispec_error (list ascii * G)) : Prop := ∃ l g, r = Ok (l, g).

Lemma execute_ops_runs_cons execute depth stack op ops g :
  runs (execute_ops templates rs execute depth stack (op :: ops) [] g) ↔
  ∃ l g1, executeISpecOperation templates rs execute depth stack op g = Ok (l, g1) ∧
    runs (execute_ops templates rs execute depth stack ops [] g1).
Proof.
  cbn [execute_ops]. destruct (executeISpecOperation _ _ _ _ _ _ _) as [[l g1]|e]; cbn [res_bind].
  - rewrite execute_ops_acc. unfold runs. split.
    + intros (l' & g' & H). inv_res. destruct a as [l2 g2]. eexists _, _. split; [done|]. eauto.
    + intros (l2 & g2 & [= <- <-] & l3 & g3 & ->). cbn. eauto.
  - split; [intros (? & ? & ?); discriminate|intros (? & ? & ? & _); discriminate].
Qed.

(** Validation of the operations found at a depth decides whether they run there,
    for any fuel. *)
Lemma validate_execute (Hread : ∀ n g, ∃ l, fst (rs_Read rs n g) = Some l) (Htab : table_fits) fuel : ∀ ops depth stack g,
  (depth ≤ maxTemplateExpansionDepth)%nat → Forall op_wf ops → Forall (op_fits (rs_maxSlice rs)) ops →
  validate_ops templates (λ s st, validateISpecRecursive templates fuel s (S depth) st) stack ops = Ok () ↔
  runs (executeISpecOperations templates rs (S fuel) ops depth stack g).
Proof.
  induction fuel as [fuel IHf] using lt_wf_ind. intros ops depth stack g Hd Hwf Hfit.
  cbn [executeISpecOperations]. destruct (Nat.ltb_spec maxTemplateExpansionDepth depth); [lia|].
  revert g. induction ops as [|op ops IH]; intros g.
  { split; [|done]. intros _. by exists [], g. }
  apply Forall_cons in Hwf as [Hw Hwf], Hfit as [Hf Hfit]. specialize (IH Hwf Hfit).
  rewrite execute_ops_runs_cons. destruct (is_type op) eqn:Ht.
  - destruct op as [| | | | |t]; try discriminate. cbn [validate_ops executeISpecOperation]. unfold expandProtocolTemplate.
    case_bool_decide; [split; [discriminate|intros (? & ? & ? & _); discriminate]|].
    destruct (templates !! t) as [s|] eqn:Es; [|split; [discriminate|intros (? & ? & ? & _); discriminate]].
    assert (∀ (r : res ispec_error unit) e, r = Err e →
      (∀ sops g, parseISpecOperations templates s = Ok sops →
        executeISpecOperations templates rs fuel sops (S depth) ({[t]} ∪ stack) g = Err e) →
      (let! _ := r in validate_ops templates (λ s st, validateISpecRecursive templates fuel s (S depth) st) stack ops) = Ok () ↔
      ∃ l g1, (let! sops := parseISpecOperations templates s in
        executeISpecOperations templates rs fuel sops (S depth) ({[t]} ∪ stack) g) = Ok (l, g1) ∧
        runs (execute_ops templates rs (executeISpecOperations templates rs fuel) depth stack ops [] g1)) as Hboth.
    { intros r e -> He. split; [discriminate|]. intros (l & g1 & H' & _).
      apply res_bind_ok in H' as (sops & Hp & H'). by rewrite (He sops g Hp) in H'. }
    destruct fuel as [|fuel]; [by eapply Hboth|].
    destruct (Nat.ltb_spec maxTemplateExpansionDepth (S depth)) as [Hmax|Hmax].
    { apply Nat.ltb_lt in Hmax. eapply Hboth; [cbn [validateISpecRecursive]; by rewrite Hmax|].
      intros sops g' _. cbn [executeISpecOperations]. by rewrite Hmax. }
    clear Hboth. specialize (IHf fuel ltac:(lia)). cbn [validateISpecRecursive] in *.
    destruct (Nat.ltb_spec maxTemplateExpansionDepth (S depth)); [lia|].
    destruct (parseISpecOperations templates s) as [sops|e] eqn:Ep; cbn [res_bind];
      [|split; [discriminate|intros (? & ? & ? & _); discriminate]].
    specialize (IHf sops (S depth) ({[t]} ∪ stack)).
    pose proof (parse_ops_wf _ _ _ Ep) as Hswf. pose proof (Htab _ _ _ Es Ep) as Hsfit. split.
    + intros Hv. apply res_bind_ok in Hv as ([] & Hv1 & Hv2). apply (IHf g Hmax Hswf Hsfit) in Hv1 as (l & g1 & Hv1).
      exists l, g1. split; [done|]. by apply IH.
    + intros (l & g1 & Hv1 & Hv2).
      assert (runs (executeISpecOperations templates rs (S fuel) sops (S depth) ({[t]} ∪ stack) g)) as Hr
        by (by exists l, g1). apply (IHf g Hmax Hswf Hsfit) in Hr. rewrite Hr. by apply (IH g1).
  - destruct (execute_flat (executeISpecOperations templates rs fuel) depth stack op g Hread Ht Hw Hf) as (l & g1 & E & _).
    assert (validate_ops templates (λ s st, validateISpecRecursive templates fuel s (S depth) st) stack (op :: ops) =
            validate_ops templates (λ s st, validateISpecRecursive templates fuel s (S depth) st) stack ops) as -> by (by destruct op).
    rewrite (IH g1). split; [eauto|]. intros (l' & g' & E' & H'). rewrite E in E'. by injection E' as <- <-.
Qed.

Lemma ISpec_equivalence_run spec g :
  (∀ n g, ∃ l, fst (rs_Read rs n g) = Some l) → table_fits →
  (∀ ops, parseISpecOperations templates spec = Ok ops → Forall (op_fits (rs_maxSlice rs)) ops) →
  ValidateISpec templates spec = Ok () ↔ runs (ParseISpec templates rs spec g).
Proof.
  intros Hread Htab Hfit. unfold ValidateISpec, ParseISpec.
  change ispec_fuel with (S (S maxTemplateExpansionDepth)). rewrite validate_step.
  change (maxTemplateExpansionDepth <? 0)%nat with false. cbn match.
  destruct (parseISpecOperations templates spec) as [ops|e] eqn:Ep; cbn [res_bind].
  - apply validate_execute; [done..|lia|by eapply parse_ops_wf|by apply Hfit].
  - split; [discriminate|]. intros (? & ? & ?). discriminate.
Qed.
End Equivalence.

(** ** Length of the output *)

Section Lengths.
Context (templates : gmap string string) {G : Type} (rs : rand_source G) `{!RandLaws rs}.

Definition add_bounds (a b : Z * Z) : Z * Z := (a.1 + b.1, a.2 + b.2).
(** At least and at most how many bytes the operations yield, templates expanded. *)
Fixpoint ops_bounds (fuel : nat) (ops : list iSpecOperation) : Z * Z :=
  match fuel with
  | O => (0, 0)
  | S fuel =>
      foldr (λ op acc, add_bounds
        (match op with
         | OpType t =>
             match templates !! t with
             | Some s => match parseISpecOperations templates s with Ok sops => ops_bounds fuel sops | Err _ => (0, 0) end
             | None => (0, 0)
             end
         | _ => op_length op
         end) acc) (0, 0) ops
  end.

Lemma draw_bytes_length bound base n g l g' : draw_bytes rs bound base n g = Ok (l, g') → length l = n.
Proof.
  revert g l g'. induction n as [|n IH]; intros g l g' H; cbn [draw_bytes] in H; [by simplify_eq|].
  inv_res. destruct a as [v g1]. inv_res. destruct a as [l1 g2]. inv_res. simplify_eq. cbn. by erewrite IH.
Qed.

Lemma make_bytes_inv n u : make_bytes rs n = Ok u → 0 ≤ n ≤ rs_maxSlice rs.
Proof. unfold make_bytes. destruct (_ || _) eqn:E; [discriminate|]. intros _. apply orb_false_iff in E. lia. Qed.

Lemma flat_length execute depth stack op g l g' : is_type op = false → op_wf op → op_fits (rs_maxSlice rs) op →
  executeISpecOperation templates rs execute depth stack op g = Ok (l, g') →
  (op_length op).1 ≤ Z.of_nat (length l) ≤ (op_length op).2.
Proof.
  intros Ht Hwf Hfit H. destruct op as [s|b|n|n|a b|t]; cbn in Ht; [| | | | |discriminate];
    cbn [executeISpecOperation op_wf op_fits op_length fst snd] in *.
  - simplify_eq. lia.
  - simplify_eq. lia.
  - unfold randomBytes in H. inv_res. apply draw_bytes_length in H. lia.
  - unfold cryptoRandomBytes in H. inv_res. destruct (Z.eqb_spec n 0) as [->|]; [simplify_eq/=; lia|].
    destruct (rs_Read rs (Z.to_nat n) g) as [[l1|] g1] eqn:E; [|discriminate]. simplify_eq.
    assert (fst (rs_Read rs (Z.to_nat n) g) = Some l) as Hl by (by rewrite E). apply Read_length in Hl. lia.
  - unfold randomDigitBytes, IntN in H. pose proof maxSlice_int. rewrite wrap_int64_id in H by lia.
    destruct (Z.leb_spec (b - a + 1) 0); [lia|].
    pose proof (IntN_range (b - a + 1) g ltac:(lia)) as Hr. cbn [res_bind] in H.
    destruct (rs_IntN rs (b - a + 1) g) as [d g1]. cbn [fst] in Hr. inv_res.
    apply draw_bytes_length in H. lia.
Qed.

Lemma execute_length (Htab : table_fits templates rs) fuel : ∀ ops depth stack g l g',
  Forall op_wf ops → Forall (op_fits (rs_maxSlice rs)) ops →
  executeISpecOperations templates rs fuel ops depth stack g = Ok (l, g') →
  (ops_bounds fuel ops).1 ≤ Z.of_nat (length l) ≤ (ops_bounds fuel ops).2.
Proof.
  induction fuel as [|fuel IHf]; intros ops depth stack g l g' Hwf Hfit H; [discriminate H|].
  cbn [executeISpecOperations] in H. destruct (_ <? _)%nat; [discriminate|]. revert g l H.
  induction ops as [|op ops IH]; intros g l H; [cbn in H; simplify_eq; cbn; lia|].
  apply Forall_cons in Hwf as [Hw Hwf], Hfit as [Hf Hfit]. specialize (IH Hwf Hfit).
  cbn [execute_ops] in H. apply res_bind_ok in H as ([l1 g1] & E1 & H). rewrite execute_ops_acc in H.
  apply res_bind_ok in H as ([l2 g2] & E2 & [= <- <-]). apply IH in E2. rewrite length_app.
  cbn [ops_bounds foldr] in *. set (rest := foldr _ (0, 0) ops) in *. unfold add_bounds. cbn [fst snd].
  destruct (is_type op) eqn:Ht.
  - destruct op as [| | | | |t]; try discriminate. cbn [executeISpecOperation] in E1. unfold expandProtocolTemplate in E1.
    case_bool_decide; [discriminate|]. destruct (templates !! t) as [s|] eqn:Es; [|discriminate].
    destruct (parseISpecOperations templates s) as [sops|e] eqn:Ep; [|discriminate]. cbn [res_bind] in E1.
    apply IHf in E1; [lia|by eapply parse_ops_wf|by eapply Htab].
  - apply flat_length in E1; [|done..]. destruct op; try discriminate; lia.
Qed.
End Lengths.

(** ** What validation accepts

    [reaches s path body]: starting from the specification [s], following references
    to the templates of [path] one after another leads to the text [body]. *)

Section Reach.
Context (templates : gmap string string).

Inductive reaches : string → list string → string → Prop :=
  | reaches_nil s : reaches s [] s
  | reaches_cons s ops t s' path body :
      parseISpecOperations templates s = Ok ops → OpType t ∈ ops → templates !! t = Some s' →
      reaches s' path body → reaches s (t :: path) body.

(** Every chain of references from [s], met at [depth] while [stack] is being
    expanded, repeats no template, stays within the depth and leads to text that
    parses. *)
Definition chains_ok (s : string) (depth : nat) (stack : gset string) : Prop :=
  ∀ path body, reaches s path body →
    NoDup path ∧ (∀ t, t ∈ path → t ∉ stack) ∧ (depth + length path ≤ maxTemplateExpansionDepth)%nat ∧
    ∃ ops, parseISpecOperations templates body = Ok ops.

Lemma chains_ok_step s ops depth stack : parseISpecOperations templates s = Ok ops →
  chains_ok s depth stack ↔ (depth ≤ maxTemplateExpansionDepth)%nat ∧
    ∀ t, OpType t ∈ ops → t ∉ stack ∧ ∀ s', templates !! t = Some s' → chains_ok s' (S depth) ({[ t ]} ∪ stack).
Proof.
  intros Hp. split.
  - intros H. split; [destruct (H [] s) as (_ & _ & Hl & _); [constructor|cbn in Hl; lia]|].
    assert (∀ t s' path body, OpType t ∈ ops → templates !! t = Some s' → reaches s' path body → reaches s (t :: path) body)
      as Hcons by (intros; by econstructor).
    intros t Ht. split.
    + destruct (templates !! t) as [s'|] eqn:Es.
      * destruct (H [t] s') as (_ & Hn & _); [eapply Hcons; [done..|constructor]|]. apply Hn. by left.
      * exfalso. by eapply parse_ops_known.
    + intros s' Es path body Hr. destruct (H (t :: path) body) as (Hnd & Hn & Hl & Hb); [by eapply Hcons|].
      apply NoDup_cons in Hnd as [Hnt Hnd]. split_and!; [done| |cbn in Hl; lia|done].
      intros t' Ht'. apply not_elem_of_union. split; [|apply Hn; by right].
      rewrite elem_of_singleton. intros ->. done.
  - intros [Hd H] path body Hr. destruct Hr as [|s ops' t s' path body Hp' Ht Es Hr].
    + split_and!; [constructor|by intros t ?%elem_of_nil|cbn; lia|by eexists].
    + rewrite Hp in Hp'. injection Hp' as <-. destruct (H t Ht) as [Hn Hc].
      destruct (Hc s' Es path body Hr) as (Hnd & Hns & Hl & Hb). split_and!; [| |cbn; lia|done].
      * apply NoDup_cons. split; [|done]. intros Hin. apply (Hns t Hin). set_solver.
      * intros t' [->|Ht']%elem_of_cons; [done|]. specialize (Hns t' Ht'). set_solver.
Qed.

(** The loop over the operations calls the recursion on each template once. *)
Lemma validate_ops_ok v stack ops : (∀ t, OpType t ∈ ops → is_Some (templates !! t)) →
  validate_ops templates v stack ops = Ok () ↔
  ∀ t, OpType t ∈ ops → t ∉ stack ∧ ∀ s', templates !! t = Some s' → v s' ({[ t ]} ∪ stack) = Ok ().
Proof.
  intros Hk. induction ops as [|op ops IH].
  { split; [intros _ t []%elem_of_nil|done]. }
  specialize (IH (λ t H, Hk t (list_elem_of_further _ _ _ H))).
  assert (∀ P : string → Prop, is_type op = false →
    (∀ t, OpType t ∈ op :: ops → P t) ↔ (∀ t, OpType t ∈ ops → P t)) as Hflat.
  { intros P Ho. split; intros H t Ht; apply H; [by right|]. apply elem_of_cons in Ht as [<-|]; [discriminate Ho|done]. }
  destruct op as [| | | | |t]; cbn [validate_ops]; try (rewrite IH; symmetry; by apply Hflat).
  destruct (Hk t) as [s' Es]; [by left|]. rewrite Es. case_bool_decide as Hin.
  - split; [discriminate|]. intros H. by destruct (H t) as [? _]; [left|].
  - split.
    + intros H. apply res_bind_ok in H as ([] & Hv & H). rewrite IH in H.
      intros t' [[= ->]|Ht']%elem_of_cons; [|by apply H]. split; [done|]. intros s2. rewrite Es. by intros [= <-].
    + intros H. destruct (H t) as [_ Hv]; [by left|]. rewrite (Hv s' Es). cbn [res_bind]. apply IH.
      intros t' Ht'. apply H. by right.
Qed.

Lemma validate_exact fuel : ∀ spec depth stack, (ispec_fuel ≤ fuel + depth)%nat → (0 < fuel)%nat →
  validateISpecRecursive templates fuel spec depth stack = Ok () ↔ chains_ok spec depth stack.
Proof.
  induction fuel as [|fuel IH]; intros spec depth stack Hf Hpos; [lia|]. cbn [validateISpecRecursive].
  destruct (Nat.ltb_spec maxTemplateExpansionDepth depth) as [Hd|Hd].
  { split; [discriminate|]. intros H. destruct (H [] spec) as (_ & _ & Hl & _); [constructor|]. cbn in Hl. lia. }
  destruct (parseISpecOperations templates spec) as [ops|e] eqn:Ep; cbn [res_bind].
  - rewrite (chains_ok_step _ _ _ _ Ep), validate_ops_ok by (intros t Ht; apply not_eq_None_Some; by eapply parse_ops_known).
    unfold ispec_fuel in *. split.
    + intros H. split; [done|]. intros t Ht. destruct (H t Ht) as [Hn Hv]. split; [done|].
      intros s' Es. apply IH; [lia..|by apply Hv].
    + intros [_ H] t Ht. destruct (H t Ht) as [Hn Hv]. split; [done|]. intros s' Es. apply IH; [lia..|by apply Hv].
  - split; [discriminate|]. intros H. destruct (H [] spec) as (_ & _ & _ & ops & Ho); [constructor|]. congruence.
Qed.
End Reach.

(** ** Fuel is never exhausted and nothing panics *)

Section NoFuel.
Context (templates : gmap string string) {G : Type} (rs : rand_source G).

Lemma validate_no_fuel fuel : ∀ spec depth stack, (ispec_fuel ≤ fuel + depth)%nat → (0 < fuel)%nat →
  validateISpecRecursive templates fuel spec depth stack ≠ Err ErrISpecFuel.
Proof.
  induction fuel as [|fuel IH]; intros spec depth stack Hf Hpos; [lia|]. cbn [validateISpecRecursive].
  destruct (Nat.ltb_spec maxTemplateExpansionDepth depth); [done|].
  pose proof (parse_no_fuel templates spec) as Hp.
  destruct (parseISpecOperations templates spec) as [ops|e]; cbn [res_bind]; [|congruence]. clear Hp.
  induction ops as [|op ops IHo]; [done|]. destruct op; cbn [validate_ops]; try exact IHo.
  case_bool_decide; [done|]. destruct (templates !! templateType) as [s|]; [|done].
  unfold ispec_fuel in *. specialize (IH s (S depth) ({[templateType]} ∪ stack) ltac:(lia) ltac:(lia)).
  destruct (validateISpecRecursive _ _ _ _ _); cbn [res_bind]; [exact IHo|congruence].
Qed.

Lemma draw_error bound base n g e : 0 < bound → draw_bytes rs bound base n g ≠ Err e.
Proof.
  intros Hb. revert g. induction n as [|n IH]; intros g; cbn [draw_bytes]; [done|]. unfold IntN at 1.
  destruct (Z.leb_spec bound 0); [lia|]. destruct (rs_IntN rs bound g) as [v g1]. cbn [res_bind]. specialize (IH g1).
  destruct (draw_bytes rs bound base n g1) as [[l g2]|e']; cbn; congruence.
Qed.

(** An operation that is not a template fails only by entropy or by a panic, and
    does not panic when the lengths fit. *)
Lemma flat_error execute depth stack op g e : is_type op = false →
  executeISpecOperation templates rs execute depth stack op g = Err e →
  e = ErrISpecRand ∨ e = ErrISpecPanic ∧ ~ (RandLaws rs ∧ op_wf op ∧ op_fits (rs_maxSlice rs) op).
Proof.
  intros Ht H. destruct op as [l|b|n|n|a b|t]; cbn in Ht; [| | | | |discriminate]; cbn [executeISpecOperation] in H;
    [done..| | |].
  - unfold randomBytes, make_bytes in H. destruct (_ || _) eqn:E; cbn [res_bind] in H; [|by apply draw_error in H].
    right. split; [congruence|]. intros (_ & Hw & Hf). cbn in Hw, Hf. lia.
  - unfold cryptoRandomBytes, make_bytes in H. destruct (_ || _) eqn:E; cbn [res_bind] in H.
    { right. split; [congruence|]. intros (_ & Hw & Hf). cbn in Hw, Hf. lia. }
    destruct (_ =? _); [done|]. destruct (rs_Read rs (Z.to_nat n) g) as [[]]; [done|]. left. congruence.
  - unfold randomDigitBytes, IntN, make_bytes in H. destruct (_ <=? 0) eqn:E; cbn [res_bind] in H.
    { right. split; [congruence|]. intros (HL & Hw & Hf). cbn in Hw, Hf. pose proof maxSlice_int.
      rewrite wrap_int64_id in E by lia. lia. }
    pose proof (λ HL : RandLaws rs, IntN_range (wrap_int64 (b - a + 1)) g ltac:(lia)) as Hr.
    destruct (rs_IntN rs _ g) as [d g1]. cbn [fst] in Hr. destruct (_ || _) eqn:E'; cbn [res_bind] in H; [|by apply draw_error in H].
    right. split; [congruence|]. intros (HL & Hw & Hf). cbn in Hw, Hf. specialize (Hr HL). pose proof maxSlice_int.
    rewrite wrap_int64_id in Hr by lia. lia.
Qed.

(** The errors of an execution: never the fuel, and no panic when all lengths fit. *)
Lemma execute_error fuel : ∀ ops depth stack g e, (ispec_fuel ≤ fuel + depth)%nat → (0 < fuel)%nat →
  executeISpecOperations templates rs fuel ops depth stack g = Err e →
  e ≠ ErrISpecFuel ∧ (RandLaws rs → table_fits templates rs → Forall op_wf ops →
    Forall (op_fits (rs_maxSlice rs)) ops → e ≠ ErrISpecPanic).
Proof.
  induction fuel as [|fuel IH]; intros ops depth stack g e Hf Hpos H; [lia|]. cbn [executeISpecOperations] in H.
  destruct (Nat.ltb_spec maxTemplateExpansionDepth depth); [by split; congruence|].
  revert H. generalize (@nil ascii) as out. revert g. induction ops as [|op ops IHo]; intros g out H; [done|].
  cbn [execute_ops] in H. destruct (executeISpecOperation _ _ _ _ _ _ _) as [[l g1]|e'] eqn:Eop; cbn [res_bind] in H.
  { destruct (IHo _ _ H) as [H1 H2]. split; [done|]. intros HL HT [_ ?]%Forall_cons [_ ?]%Forall_cons. by apply H2. }
  injection H as ->. destruct (is_type op) eqn:Ht.
  2:{ destruct (flat_error _ _ _ _ _ _ Ht Eop) as [->|[-> Hn]]; [by split|]. split; [done|].
      intros HL HT [? _]%Forall_cons [? _]%Forall_cons. exfalso. by apply Hn. }
  destruct op as [| | | | |t]; try discriminate. cbn [executeISpecOperation] in Eop. unfold expandProtocolTemplate in Eop.
  case_bool_decide; [by split; congruence|].
  destruct (templates !! t) as [s|] eqn:Es; [|split; [congruence|intros; congruence]].
  pose proof (parse_no_fuel templates s) as Hp. pose proof (parse_no_panic templates s) as Hq.
  destruct (parseISpecOperations templates s) as [sops|e'] eqn:Ep; cbn [res_bind] in Eop; [|split; [congruence|intros; congruence]].
  unfold ispec_fuel in *. apply IH in Eop as [H1 H2]; [|lia..]. split; [done|]. intros HL HT _ _.
  apply H2; [done..|by eapply parse_ops_wf|by eapply HT].
Qed.
End NoFuel.

(** C29. Validation accepts exactly the specifications whose references are sound, and
    ends for every text and every template table: [ValidateISpec] succeeds if and only
    if every chain of template references starting at the specification names no
    template twice, has at most 8 templates and leads to text that parses. The model's
    fuel is never used up, however much more is given; neither is it by [ParseISpec],
    which does not panic either when the lengths asked for can be allocated and the
    random source keeps its laws. *)
Theorem ISpec_validation_exact templates spec :
  (ValidateISpec templates spec = Ok () ↔ ∀ path body, reaches templates spec path body →
    NoDup path ∧ (length path ≤ 8)%nat ∧ ∃ ops, parseISpecOperations templates body = Ok ops) ∧
  (∀ k, validateISpecRecursive templates (ispec_fuel + k) spec 0 ∅ ≠ Err ErrISpecFuel) ∧
  ∀ G (rs : rand_source G) g, ParseISpec templates rs spec g ≠ Err ErrISpecFuel ∧
    (RandLaws rs → table_fits templates rs →
     (∀ ops, parseISpecOperations templates spec = Ok ops → Forall (op_fits (rs_maxSlice rs)) ops) →
     ParseISpec templates rs spec g ≠ Err ErrISpecPanic).
Proof.
  split_and!.
  - unfold ValidateISpec. rewrite validate_exact by (unfold ispec_fuel; lia). unfold chains_ok. split.
    + intros H path body Hr. destruct (H path body Hr) as (? & _ & Hl & ?). by split_and!.
    + intros H path body Hr. destruct (H path body Hr) as (? & Hl & ?). split_and!; [done|set_solver|done..].
  - intros k. apply validate_no_fuel; unfold ispec_fuel; lia.
  - intros G rs g. unfold ParseISpec. pose proof (parse_no_fuel templates spec). pose proof (parse_no_panic templates spec).
    destruct (parseISpecOperations templates spec) as [ops|e] eqn:Ep; cbn [res_bind]; [|split; [congruence|intros; congruence]].
    split; [|intros HL HT HF]; intros E; apply execute_error in E as [H1 H2]; try (unfold ispec_fuel; lia); [done|].
    apply H2; [done..|by eapply parse_ops_wf|by apply HF|done].
Qed.

(** Two templates that refer to each other are rejected, not expanded forever. *)
Example mutual_recursion_rejected :
  ValidateISpec (list_to_map [("A", "<t b>"); ("B", "<t a>")]) "x <t A>" = Err (ErrISpecRecursive "A").
Proof. by vm_compute. Qed.

(** C30. Validation decides interpretation: for every template table and every
    specification whose lengths the runtime can allocate, with a working entropy
    source, [ValidateISpec] accepts exactly the specifications [ParseISpec] turns into
    bytes, whatever the random values are. *)
Theorem ISpec_validates_iff_executes templates {G} (rs : rand_source G) spec g :
  RandLaws rs → (∀ n g, ∃ l, fst (rs_Read rs n g) = Some l) → table_fits templates rs →
  (∀ ops, parseISpecOperations templates spec = Ok ops → Forall (op_fits (rs_maxSlice rs)) ops) →
  ValidateISpec templates spec = Ok () ↔ ∃ out g', ParseISpec templates rs spec g = Ok (out, g').
Proof. intros HL Hr Ht Hs. by apply ISpec_equivalence_run. Qed.

(** A counter as random source. *)
Definition counter_rand : rand_source N :=
  MkRand (λ n g, (Z.of_N g mod n, (g + 1)%N)) (λ n g, (Some (replicate n "*"%char), g)) 1000000.
#[global] Instance counter_laws : RandLaws counter_rand.
Proof.
  split; cbn.
  - intros n g Hn. apply Z.mod_pos_bound. lia.
  - intros n g l [= <-]. apply length_replicate.
  - lia.
Qed.
(** The built-in templates ask for at most 32 bytes at a time. *)
Definition spec_fits (n : Z) (s : string) : bool :=
  match parseISpecOperations protocolTemplateExpansions s with
  | Ok ops => bool_decide (Forall (op_fits n) ops)
  | Err _ => false
  end.
Lemma builtin_table_ok t s : protocolTemplateExpansions !! t = Some s → spec_fits 32 s = true.
Proof.
  intros Ht. assert (forallb (λ kv, spec_fits 32 kv.2) (map_to_list protocolTemplateExpansions) = true) as Hb by (by vm_compute).
  rewrite forallb_forall in Hb. apply elem_of_map_to_list, list_elem_of_In in Ht. exact (Hb (t, s) Ht).
Qed.

Lemma op_fits_mono a b op : a ≤ b → op_fits a op → op_fits b op.
Proof. destruct op; cbn; lia. Qed.

Lemma builtin_fits {G} (rs : rand_source G) : 32 ≤ rs_maxSlice rs → table_fits protocolTemplateExpansions rs.
Proof.
  intros Hm t s ops Ht Hp. pose proof (builtin_table_ok t s Ht) as H. unfold spec_fits in H. rewrite Hp in H.
  bool_to_prop. eapply Forall_impl; [exact H|]. intros op. by apply op_fits_mono.
Qed.

Lemma ISpec_validates_iff_executes_witness :
  ValidateISpec protocolTemplateExpansions "GET <t dns_query> <rd 2 4>" = Ok () ∧
  ∃ out g', ParseISpec protocolTemplateExpansions counter_rand "GET <t dns_query> <rd 2 4>" 0%N = Ok (out, g').
Proof.
  assert (ValidateISpec protocolTemplateExpansions "GET <t dns_query> <rd 2 4>" = Ok ()) as Hv by (by vm_compute).
  split; [exact Hv|]. revert Hv.
  apply (ISpec_validates_iff_executes protocolTemplateExpansions counter_rand "GET <t dns_query> <rd 2 4>" 0%N).
  - apply _.
  - intros n g. cbn. eauto.
  - apply builtin_fits. cbn. lia.
  - intros ops Hops.
    assert (parseISpecOperations protocolTemplateExpansions "GET <t dns_query> <rd 2 4>" =
      Ok [OpLiteral "GET"; OpType "DNS_QUERY"; OpDigits 2 4]) as E by (by vm_compute).
    rewrite E in Hops. injection Hops as <-. repeat constructor; cbn; lia.
Defined.

(** ** The built-in families *)

Definition family_templates (f : ProtocolFamily) : list string := [fm_I1 f; fm_I2 f; fm_I3 f; fm_I4 f; fm_I5 f].

(** A template that is valid, fits, and yields 1 to 64 bytes. *)
Definition template_good (s : string) : bool :=
  match parseISpecOperations protocolTemplateExpansions s with
  | Ok ops =>
      let b := ops_bounds protocolTemplateExpansions ispec_fuel ops in
      is_ok (ValidateISpec protocolTemplateExpansions s) && bool_decide (Forall (op_fits 32) ops) &&
      (1 <=? b.1) && (b.2 <=? 64)
  | Err _ => false
  end.
Lemma families_good : forallb (λ f, is_ok (GenerateISpec (Some f)) && forallb template_good (family_templates f)) protocolFamilies = true.
Proof. by vm_compute. Qed.

Lemma template_good_runs {G} (rs : rand_source G) s g :
  RandLaws rs → (∀ n g, ∃ l, fst (rs_Read rs n g) = Some l) → 32 ≤ rs_maxSlice rs →
  template_good s = true → ∃ l g', ParseISpec protocolTemplateExpansions rs s g = Ok (l, g') ∧
    1 ≤ Z.of_nat (length l) ≤ 64.
Proof.
  intros HL Hr Hm Hg. unfold template_good in Hg.
  destruct (parseISpecOperations protocolTemplateExpansions s) as [ops|e] eqn:Ep; [|discriminate].
  bool_to_prop. pose proof (builtin_fits rs Hm) as Htab.
  assert (Forall (op_fits (rs_maxSlice rs)) ops) as Hfit
    by (eapply Forall_impl; [done|]; intros op; by apply op_fits_mono).
  assert (ValidateISpec protocolTemplateExpansions s = Ok ()) as Hv
    by (destruct (ValidateISpec protocolTemplateExpansions s) as [[]|]; done).
  apply (ISpec_equivalence_run _ rs s g) in Hv as (l & g' & E); [|done|done|].
  2:{ intros ops' H'. rewrite Ep in H'. by injection H' as <-. }
  exists l, g'. split; [done|]. unfold ParseISpec in E. rewrite Ep in E. cbn [res_bind] in E.
  apply (execute_length _ rs Htab) in E; [|by eapply parse_ops_wf|done]. lia.
Qed.

Lemma GenerateISpec_values f v : GenerateISpec (Some f) = Ok v → v = family_templates f.
Proof. unfold GenerateISpec. intros H. inv_res. done. Qed.

(** Every built-in family is usable: its name resolves to it in any letter case and
    with blanks around it, [GenerateISpec] accepts it and returns its five templates,
    and each of them, interpreted with any working random source, yields between 1 and
    64 bytes. *)
Theorem families_usable {G} (rs : rand_source G) f g :
  RandLaws rs → (∀ n g, ∃ l, fst (rs_Read rs n g) = Some l) → 32 ≤ rs_maxSlice rs → f ∈ ListFamilies →
  GetFamily (" " +:+ ToUpper (fm_Name f) +:+ " ") = Ok f ∧
  GenerateISpec (Some f) = Ok (family_templates f) ∧
  ∀ s, s ∈ family_templates f → ∃ l g', ParseISpec protocolTemplateExpansions rs s g = Ok (l, g') ∧
    1 ≤ Z.of_nat (length l) ≤ 64.
Proof.
  intros HL Hr Hm Hf. pose proof families_good as Hg. rewrite forallb_forall in Hg.
  specialize (Hg f (proj1 (list_elem_of_In _ _) Hf)). apply andb_true_iff in Hg as [H1 H2]. split_and!.
  - unfold ListFamilies, protocolFamilies in Hf.
    repeat (apply elem_of_cons in Hf as [->|Hf]; [by vm_compute|]). by apply not_elem_of_nil in Hf.
  - destruct (GenerateISpec (Some f)) as [v|e] eqn:E; [|discriminate]. by rewrite (GenerateISpec_values _ _ E).
  - intros s Hs. rewrite forallb_forall in H2. specialize (H2 s (proj1 (list_elem_of_In _ _) Hs)).
    by apply template_good_runs.
Qed.

Definition stun_family : ProtocolFamily := default (MkFamily "" "" "" "" "" "" "") (protocolFamilies !! 7%nat).

Lemma families_usable_witness :
  GetFamily (" " +:+ ToUpper (fm_Name stun_family) +:+ " ") = Ok stun_family ∧
  GenerateISpec (Some stun_family) = Ok (family_templates stun_family).
Proof.
  destruct (families_usable counter_rand stun_family 0%N) as (H1 & H2 & _);
    [apply _|intros n g; cbn; eauto|cbn; lia|by apply list_elem_of_lookup_2 with 7%nat|].
  split; [exact H1|exact H2].
Defined.

(** A specification that validates can still crash the interpreter: the bound of
    the random length of [<rd 0 9223372036854775807>] overflows [int], and drawing
    from a bound that is not positive panics, whatever the random source. *)
Theorem rd_overflow_panics templates {G} (rs : rand_source G) g :
  ValidateISpec templates "<rd 0 9223372036854775807>" = Ok () ∧
  ParseISpec templates rs "<rd 0 9223372036854775807>" g = Err ErrISpecPanic.
Proof.
  assert (parseISpecOperations templates "<rd 0 9223372036854775807>" = Ok [OpDigits 0 9223372036854775807]) as E
    by (by vm_compute).
  unfold ValidateISpec, ParseISpec. cbn [validateISpecRecursive]. rewrite E. split; reflexivity.
Qed.

(** Literal words are split at bytes, not at characters: in a word written in UTF-8
    the bytes 0x85 and 0xA0 count as blanks wherever they occur, so the letter U+00E0
    (bytes C3 A0) is sent as the single byte C3. *)
Theorem literal_byte_dropped templates {G} (rs : rand_source G) g :
  ParseISpec templates rs (of_bytes [chr 0xC3; chr 0xA0]) g = Ok ([chr 0xC3], g).
Proof. reflexivity. Qed.
