(* ===== verification/AwgParams.v ===== *)
(** * AWG parameter generation

    Models src/pkg/awggen/generator.go, presets.go and mtu.go: random obfuscation
    parameters drawn from the ranges of a preset, with the rules that keep packet
    sizes and headers distinguishable, their conversion to device configuration and
    to protobuf, and the MTU checks. The random source is that of [ISpec]. *)

From S2P Require Import Prelude GoStrings GoNet GoText WgTypes ISpec.

(** ** Presets *)

Record Preset := MkPreset {
  ps_Name : string;
  ps_JcRange : Z * Z; ps_JminRange : Z * Z; ps_JmaxExtraRange : Z * Z;
  ps_S1Range : Z * Z; ps_S2Range : Z * Z; ps_S3Range : Z * Z; ps_S4Range : Z * Z;
  ps_HMin : Z; ps_HMax : Z;
  ps_ISpecEnabled : bool
}.

Definition presets : list Preset := [
  MkPreset "Aggressive" (4, 8) (80, 130) (80, 200) (20, 63) (20, 63) (20, 63) (5, 15) 150000000 2000000000 true;
  MkPreset "Balanced" (3, 6) (64, 113) (50, 149) (15, 50) (15, 50) (15, 50) (1, 10) 400000000 1600000000 true;
  MkPreset "Minimal" (1, 3) (40, 80) (20, 80) (5, 20) (5, 20) (5, 20) (1, 5) 800000000 1200000000 false].

Inductive gen_error :=
  | ErrPresetNameRequired | ErrPresetUnknown (name : string) | ErrPresetRequired
  | ErrPresetRange (field : string) (lo hi : Z)
  | ErrPresetH (lo hi : Z) | ErrPresetHWidth (lo hi : Z)
  | ErrRange (lo hi : Z)
  | ErrPadding
  | ErrCaptureEmpty
  | ErrGenISpec (e : family_error)
  | ErrGenPanic.

Definition GetPreset (name : string) : res gen_error Preset :=
  let normalized := TrimSpace name in
  if bool_decide (normalized = "") then Err ErrPresetNameRequired else
  match list_find (λ p, EqualFold normalized (ps_Name p) = true) presets with
  | Some (_, p) => Ok p
  | None => Err (ErrPresetUnknown name)
  end.
Definition ListPresets : list Preset := presets.

(** ** Validation of a preset *)

Definition headerSegmentCount : Z := 4.

Definition validateRange (value : Z * Z) (field : string) : res gen_error unit :=
  if value.2 <? value.1 then Err (ErrPresetRange field value.1 value.2) else Ok ().

Definition validatePresetRanges (p : Preset) : res gen_error unit :=
  let! _ := validateRange (ps_JcRange p) "JcRange" in
  let! _ := validateRange (ps_JminRange p) "JminRange" in
  let! _ := validateRange (ps_JmaxExtraRange p) "JmaxExtraRange" in
  let! _ := validateRange (ps_S1Range p) "S1Range" in
  let! _ := validateRange (ps_S2Range p) "S2Range" in
  let! _ := validateRange (ps_S3Range p) "S3Range" in
  let! _ := validateRange (ps_S4Range p) "S4Range" in
  if ps_HMax p <? ps_HMin p then Err (ErrPresetH (ps_HMin p) (ps_HMax p)) else
  if wrap_int64 (ps_HMax p - ps_HMin p + 1) <? headerSegmentCount then Err (ErrPresetHWidth (ps_HMin p) (ps_HMax p)) else
  Ok ().

(** ** Generation *)

Record Params := MkParams {
  pa_Jc : Z; pa_Jmin : Z; pa_Jmax : Z;
  pa_S1 : Z; pa_S2 : Z; pa_S3 : Z; pa_S4 : Z;
  pa_H1 : Z; pa_H2 : Z; pa_H3 : Z; pa_H4 : Z;
  pa_I1 : string; pa_I2 : string; pa_I3 : string; pa_I4 : string; pa_I5 : string
}.

Section Generate.
Context {G : Type} (rs : rand_source G).

Definition R (A : Type) : Type := G → res gen_error (A * G).

(** [minimum + rand.IntN(maximum-minimum+1)], for [int] and [int64] alike. *)
Definition randomIntInRange (minimum maximum : Z) : R Z := λ g,
  if maximum <? minimum then Err (ErrRange minimum maximum) else
  let n := wrap_int64 (maximum - minimum + 1) in
  if n <=? 0 then Err ErrGenPanic else
  let '(v, g) := rs_IntN rs n g in Ok (wrap_int64 (minimum + v), g).
Definition randomInt64InRange : Z → Z → R Z := randomIntInRange.

(** [allUnique]: a set of the values seen. *)
Fixpoint all_unique (seen : gset Z) (values : list Z) : bool :=
  match values with
  | [] => true
  | v :: values => if bool_decide (v ∈ seen) then false else all_unique ({[ v ]} ∪ seen) values
  end.
Definition allUnique (values : list Z) : bool := all_unique ∅ values.

Definition violatesPacketSizeRules (s1 s2 s3 : Z) : bool :=
  if wrap_int64 (s1 + 148) =? wrap_int64 (s2 + 92) then true
  else if wrap_int64 (s3 + 64) =? wrap_int64 (s1 + 148) then true
  else wrap_int64 (s3 + 64) =? wrap_int64 (s2 + 92).

Definition maxPaddingGenerationAttempts : nat := Z.to_nat 4096.
Definition maxS4GenerationAttempts : nat := Z.to_nat 1024.

Fixpoint s4_loop (attempts : nat) (range : Z * Z) (s1 s2 s3 : Z) (g : G) : res gen_error (option Z * G) :=
  match attempts with
  | O => Ok (None, g)
  | S attempts =>
      let! (s4, g) := randomIntInRange range.1 range.2 g in
      if negb (s4 =? s1) && negb (s4 =? s2) && negb (s4 =? s3) then Ok (Some s4, g)
      else s4_loop attempts range s1 s2 s3 g
  end.
Definition generateUniqueS4 (range : Z * Z) (s1 s2 s3 : Z) : R (option Z) :=
  s4_loop maxS4GenerationAttempts range s1 s2 s3.

Fixpoint padding_loop (attempts : nat) (p : Preset) (g : G) : res gen_error (Z * Z * Z * Z * G) :=
  match attempts with
  | O => Err ErrPadding
  | S attempts =>
      let! (s1, g) := randomIntInRange (ps_S1Range p).1 (ps_S1Range p).2 g in
      let! (s2, g) := randomIntInRange (ps_S2Range p).1 (ps_S2Range p).2 g in
      let! (s3, g) := randomIntInRange (ps_S3Range p).1 (ps_S3Range p).2 g in
      if negb (allUnique [s1; s2; s3]) || violatesPacketSizeRules s1 s2 s3 then padding_loop attempts p g else
      let! (s4, g) := generateUniqueS4 (ps_S4Range p) s1 s2 s3 g in
      match s4 with
      | None => padding_loop attempts p g
      | Some s4 => Ok (s1, s2, s3, s4, g)
      end
  end.
Definition generatePaddingValues (p : Preset) : G → res gen_error (Z * Z * Z * Z * G) :=
  padding_loop maxPaddingGenerationAttempts p.

(** Four consecutive segments of the header range. *)
Fixpoint split_loop (n : nat) (index baseWidth remainder rangeStart : Z) : list (Z * Z) :=
  match n with
  | O => []
  | S n =>
      let currentWidth := if index <? remainder then baseWidth + 1 else baseWidth in
      let rangeEnd := wrap_int64 (rangeStart + currentWidth - 1) in
      (rangeStart, rangeEnd) :: split_loop n (index + 1) baseWidth remainder (wrap_int64 (rangeEnd + 1))
  end.
Definition splitHeaderRange (hMin hMax : Z) : list (Z * Z) :=
  let totalWidth := wrap_int64 (hMax - hMin + 1) in
  split_loop 4 0 (Z.quot totalWidth headerSegmentCount) (Z.rem totalWidth headerSegmentCount) hMin.

Fixpoint draw_segments (segments : list (Z * Z)) (g : G) : res gen_error (list Z * G) :=
  match segments with
  | [] => Ok ([], g)
  | s :: segments =>
      let! (v, g) := randomInt64InRange s.1 s.2 g in
      let! (l, g) := draw_segments segments g in Ok (v :: l, g)
  end.

(** [randomized[i], randomized[j] = randomized[j], randomized[i]] *)
Definition swap (i j : nat) (l : list Z) : list Z :=
  match l !! i, l !! j with
  | Some x, Some y => <[i := y]> (<[j := x]> l)
  | _, _ => l
  end.
(** [rand.Shuffle]: from the last index down, swap with a random one up to it. *)
Fixpoint shuffle (i : nat) (l : list Z) (g : G) : list Z * G :=
  match i with
  | O => (l, g)
  | S i' => let '(j, g) := rs_IntN rs (Z.of_nat i + 1) g in shuffle i' (swap i (Z.to_nat j) l) g
  end.
Definition generateHeaderValues (hMin hMax : Z) : R (list Z) := λ g,
  let! (randomized, g) := draw_segments (splitHeaderRange hMin hMax) g in
  Ok (shuffle (length randomized - 1) randomized g).

Definition generateNumericParams (p : Preset) : R Params := λ g,
  let! (jc, g) := randomIntInRange (ps_JcRange p).1 (ps_JcRange p).2 g in
  let! (jmin, g) := randomIntInRange (ps_JminRange p).1 (ps_JminRange p).2 g in
  let! (jmaxExtra, g) := randomIntInRange (ps_JmaxExtraRange p).1 (ps_JmaxExtraRange p).2 g in
  let! (s1, s2, s3, s4, g) := generatePaddingValues p g in
  let! (headers, g) := generateHeaderValues (ps_HMin p) (ps_HMax p) g in
  Ok (MkParams jc jmin (wrap_int64 (jmin + jmaxExtra)) s1 s2 s3 s4
        (nth 0 headers 0) (nth 1 headers 0) (nth 2 headers 0) (nth 3 headers 0) "" "" "" "" "", g).

Definition with_ispec (p : Params) (i1 i2 i3 i4 i5 : string) : Params :=
  MkParams (pa_Jc p) (pa_Jmin p) (pa_Jmax p) (pa_S1 p) (pa_S2 p) (pa_S3 p) (pa_S4 p)
    (pa_H1 p) (pa_H2 p) (pa_H3 p) (pa_H4 p) i1 i2 i3 i4 i5.

Definition GenerateParams (preset : option Preset) (family : option ProtocolFamily) : R Params := λ g,
  match preset with
  | None => Err ErrPresetRequired
  | Some p =>
      let! _ := validatePresetRanges p in
      let! (params, g) := generateNumericParams p g in
      match family with
      | Some _ =>
          if ps_ISpecEnabled p then
            let! iSpec := wrap_err ErrGenISpec (GenerateISpec family) in
            Ok (with_ispec params (nth 0 iSpec "") (nth 1 iSpec "") (nth 2 iSpec "") (nth 3 iSpec "") (nth 4 iSpec ""), g)
          else Ok (params, g)
      | None => Ok (params, g)
      end
  end.

Definition GenerateParamsFromCapture (preset : option Preset) (captureData : list ascii) : R Params := λ g,
  match preset with
  | None => Err ErrPresetRequired
  | Some p =>
      if bool_decide (captureData = []) then Err ErrCaptureEmpty else
      let! _ := validatePresetRanges p in
      let! (params, g) := generateNumericParams p g in
      Ok (with_ispec params (of_bytes captureData) "" "" "" "", g)
  end.
End Generate.

(** ** Conversions *)

Definition ToConfig (p : option Params) : Config :=
  match p with
  | None => Config0
  | Some p =>
      MkConfig None None None false []
        (IntPtr (pa_Jc p)) (IntPtr (pa_Jmin p)) (IntPtr (pa_Jmax p))
        (IntPtr (pa_S1 p)) (IntPtr (pa_S2 p)) (IntPtr (pa_S3 p)) (IntPtr (pa_S4 p))
        (StrPtr (Itoa (pa_H1 p))) (StrPtr (Itoa (pa_H2 p))) (StrPtr (Itoa (pa_H3 p))) (StrPtr (Itoa (pa_H4 p)))
        (StrPtr (pa_I1 p)) (StrPtr (pa_I2 p)) (StrPtr (pa_I3 p)) (StrPtr (pa_I4 p)) (StrPtr (pa_I5 p))
  end.

(** [int32(v)] and [uint32(v)] *)
Definition wrap_int32 (z : Z) : Z := (z + 2 ^ 31) mod 2 ^ 32 - 2 ^ 31.
Definition wrap_uint32 (z : Z) : Z := z mod 2 ^ 32.
Lemma wrap_int32_id z : - 2 ^ 31 ≤ z < 2 ^ 31 → wrap_int32 z = z.
Proof. intros H. unfold wrap_int32. rewrite Z.mod_small; lia. Qed.
Lemma wrap_uint32_id z : 0 ≤ z < 2 ^ 32 → wrap_uint32 z = z.
Proof. intros H. unfold wrap_uint32. by rewrite Z.mod_small. Qed.

(** [proto.AwgParams] has the fields of [Params] with 32-bit integers. *)
Definition ToProto (p : option Params) : Params :=
  match p with
  | None => MkParams 0 0 0 0 0 0 0 0 0 0 0 "" "" "" "" ""
  | Some p =>
      MkParams (wrap_int32 (pa_Jc p)) (wrap_int32 (pa_Jmin p)) (wrap_int32 (pa_Jmax p))
        (wrap_int32 (pa_S1 p)) (wrap_int32 (pa_S2 p)) (wrap_int32 (pa_S3 p)) (wrap_int32 (pa_S4 p))
        (wrap_int32 (pa_H1 p)) (wrap_int32 (pa_H2 p)) (wrap_int32 (pa_H3 p)) (wrap_int32 (pa_H4 p))
        (pa_I1 p) (pa_I2 p) (pa_I3 p) (pa_I4 p) (pa_I5 p)
  end.

(** ** MTU (mtu.go) *)

Inductive mtu_error :=
  | ErrMTUParams | ErrMTUPhysical (mtu : Z) | ErrMTUOverhead (overhead : Z) | ErrMTUNegative (s3 s4 : Z)
  | ErrMTUExceeded (s3 s4 overhead mtu : Z) | ErrMTUCookie (s3 overhead mtu : Z).

Definition ValidateMTU (params : option Params) (physicalMTU awgOverhead : Z) : res mtu_error unit :=
  match params with
  | None => Err ErrMTUParams
  | Some p =>
      if physicalMTU <=? 0 then Err (ErrMTUPhysical physicalMTU) else
      if awgOverhead <? 0 then Err (ErrMTUOverhead awgOverhead) else
      if (pa_S3 p <? 0) || (pa_S4 p <? 0) then Err (ErrMTUNegative (pa_S3 p) (pa_S4 p)) else
      if physicalMTU <? wrap_int64 (pa_S3 p + pa_S4 p + awgOverhead)
      then Err (ErrMTUExceeded (pa_S3 p) (pa_S4 p) awgOverhead physicalMTU) else
      if physicalMTU <? wrap_int64 (pa_S3 p + 64 + awgOverhead) then Err (ErrMTUCookie (pa_S3 p) awgOverhead physicalMTU) else
      Ok ()
  end.
Definition EffectiveMTU (physicalMTU awgOverhead : Z) : Z := wrap_int64 (physicalMTU - awgOverhead).
Definition MaxS4ForMTU (physicalMTU awgOverhead : Z) : Z := wrap_int64 (EffectiveMTU physicalMTU awgOverhead - 64).

(** ** The header range *)

(** The start of the [i]-th of four segments. *)
Definition segment_start (hMin hMax i : Z) : Z :=
  let w := hMax - hMin + 1 in hMin + i * (w / 4) + Z.min i (w mod 4).

Lemma splitHeaderRange_eq hMin hMax :
  - 2 ^ 63 ≤ hMin → hMax < 2 ^ 63 → 4 ≤ hMax - hMin + 1 < 2 ^ 63 →
  splitHeaderRange hMin hMax =
    (λ i, (segment_start hMin hMax i, segment_start hMin hMax (i + 1) - 1)) <$> [0; 1; 2; 3].
Proof.
  intros Hlo Hhi Hw. unfold splitHeaderRange, headerSegmentCount.
  rewrite (wrap_int64_id (hMax - hMin + 1)) by lia.
  rewrite Z.quot_div_nonneg, Z.rem_mod_nonneg by lia.
  unfold segment_start. set (w := hMax - hMin + 1) in *.
  pose proof (Z.div_mod w 4 ltac:(lia)) as Hdm. pose proof (Z.mod_pos_bound w 4 ltac:(lia)) as Hm.
  set (b := w / 4) in *. set (r := w mod 4) in *.
  assert (∀ i x, 0 ≤ i ≤ 3 → x = hMin + i * b + Z.min i r →
    wrap_int64 (x + (if i <? r then b + 1 else b) - 1) = hMin + (i + 1) * b + Z.min (i + 1) r - 1) as Hstep.
  { intros i x Hi ->. destruct (Z.ltb_spec i r); rewrite wrap_int64_id by nia; nia. }
  cbn [split_loop fmap list_fmap].
  rewrite (Hstep 0) by lia. change (0 + 1) with 1.
  rewrite (wrap_int64_id (hMin + 1 * b + Z.min 1 r - 1 + 1)), Z.sub_add by nia.
  rewrite (Hstep 1) by lia. change (1 + 1) with 2.
  rewrite (wrap_int64_id (hMin + 2 * b + Z.min 2 r - 1 + 1)), Z.sub_add by nia.
  rewrite (Hstep 2) by lia. change (2 + 1) with 3.
  rewrite (wrap_int64_id (hMin + 3 * b + Z.min 3 r - 1 + 1)), Z.sub_add by nia.
  rewrite (Hstep 3) by lia. change (3 + 1) with 4.
  by replace (hMin + 0 * b + Z.min 0 r) with hMin by lia.
Qed.

Lemma segment_start_facts hMin hMax : 4 ≤ hMax - hMin + 1 →
  segment_start hMin hMax 0 = hMin ∧ segment_start hMin hMax 4 = hMax + 1 ∧
  ∀ i, 0 ≤ i ≤ 3 → let k := segment_start hMin hMax (i + 1) - segment_start hMin hMax i in
    1 ≤ k ∧ (hMax - hMin + 1) / 4 ≤ k ≤ (hMax - hMin + 1) / 4 + 1.
Proof.
  intros Hw. unfold segment_start. set (w := hMax - hMin + 1) in *.
  pose proof (Z.div_mod w 4 ltac:(lia)) as Hdm. pose proof (Z.mod_pos_bound w 4 ltac:(lia)) as Hm.
  assert (1 ≤ w / 4) by (apply Z.div_le_lower_bound; lia). cbn zeta. split_and!; [lia|lia|]. intros i Hi. lia.
Qed.

(** What the preset check accepts. *)
Lemma validatePresetRanges_ok p :
  - 2 ^ 63 ≤ ps_HMin p → ps_HMax p < 2 ^ 63 → validatePresetRanges p = Ok () →
  ((ps_JcRange p).1 ≤ (ps_JcRange p).2 ∧ (ps_JminRange p).1 ≤ (ps_JminRange p).2 ∧
   (ps_JmaxExtraRange p).1 ≤ (ps_JmaxExtraRange p).2) ∧
  ((ps_S1Range p).1 ≤ (ps_S1Range p).2 ∧ (ps_S2Range p).1 ≤ (ps_S2Range p).2 ∧
   (ps_S3Range p).1 ≤ (ps_S3Range p).2 ∧ (ps_S4Range p).1 ≤ (ps_S4Range p).2) ∧
  4 ≤ ps_HMax p - ps_HMin p + 1 < 2 ^ 63.
Proof.
  intros Hlo Hhi H. unfold validatePresetRanges, validateRange, headerSegmentCount in H. inv_res.
  split_and!; try lia; (assert (ps_HMax p - ps_HMin p + 1 < 2 ^ 63) as Hlt;
    [destruct (decide (ps_HMax p - ps_HMin p + 1 < 2 ^ 63)); [done|];
     exfalso; unfold wrap_int64 in *;
     assert ((ps_HMax p - ps_HMin p + 1 + 2 ^ 63) mod 2 ^ 64 = ps_HMax p - ps_HMin p + 1 - 2 ^ 63) as E
       by (symmetry; apply (Z.mod_unique_pos _ _ 1); lia); lia
    |rewrite wrap_int64_id in * by lia; lia]).
Qed.

(** The header range is split into four segments that partition it: they follow one
    another without gap or overlap from [HMin] to [HMax], none is empty, and their
    sizes differ by at most one - for every range the preset check accepts, including
    those at the ends of [int64], where it rejects widths that overflow. *)
Theorem header_segments_partition p :
  - 2 ^ 63 ≤ ps_HMin p → ps_HMax p < 2 ^ 63 → validatePresetRanges p = Ok () →
  ∃ a b c d, splitHeaderRange (ps_HMin p) (ps_HMax p) =
      [(ps_HMin p, a - 1); (a, b - 1); (b, c - 1); (c, d)] ∧ d = ps_HMax p ∧
    ps_HMin p < a < b ∧ b < c ≤ d ∧
    Forall (λ n, (ps_HMax p - ps_HMin p + 1) / 4 ≤ n ≤ (ps_HMax p - ps_HMin p + 1) / 4 + 1)
      [a - ps_HMin p; b - a; c - b; d + 1 - c].
Proof.
  intros Hlo Hhi Hv. apply validatePresetRanges_ok in Hv as (_ & _ & Hw); [|done..].
  rewrite splitHeaderRange_eq by lia.
  destruct (segment_start_facts (ps_HMin p) (ps_HMax p)) as (H0 & H4 & Hs); [lia|].
  pose proof (Hs 0 ltac:(lia)) as S0. pose proof (Hs 1 ltac:(lia)) as S1.
  pose proof (Hs 2 ltac:(lia)) as S2. pose proof (Hs 3 ltac:(lia)) as S3. clear Hs.
  change (0 + 1) with 1 in *. change (1 + 1) with 2 in *. change (2 + 1) with 3 in *. change (3 + 1) with 4 in *.
  cbn zeta in *. rewrite H0 in *. rewrite H4 in *.
  eexists _, _, _, _. cbn [fmap list_fmap]. change (0 + 1) with 1. change (1 + 1) with 2. change (2 + 1) with 3. change (3 + 1) with 4.
  rewrite H0, H4. split; [reflexivity|]. split_and!; try lia. repeat constructor; lia.
Qed.

Definition balanced : Preset :=
  MkPreset "Balanced" (3, 6) (64, 113) (50, 149) (15, 50) (15, 50) (15, 50) (1, 10) 400000000 1600000000 true.

Lemma header_segments_partition_witness :
  ∃ a b c d, splitHeaderRange (ps_HMin balanced) (ps_HMax balanced) =
      [(400000000, a - 1); (a, b - 1); (b, c - 1); (c, d)] ∧ d = 1600000000 ∧ 400000000 < a < b ∧ b < c ≤ d.
Proof.
  destruct (header_segments_partition balanced) as (a & b & c & d & H1 & H2 & H3 & H4 & _);
    [cbn; lia|cbn; lia|reflexivity|]. exists a, b, c, d. split_and!; [exact H1|exact H2|apply H3..|apply H4|apply H4].
Defined.

(** ** Shuffling *)

Lemma insert_delete_perm {A} (l : list A) i (x y : A) : l !! i = Some x → <[i := y]> l ≡ₚ y :: delete i l.
Proof.
  intros H. rewrite <- (take_drop_middle l i x H) at 1.
  assert (i = length (take i l)) as Hi by (rewrite length_take; apply lookup_lt_Some in H; lia).
  rewrite Hi at 1. rewrite insert_app_r_alt by lia. rewrite Nat.sub_diag. cbn [list_insert insert].
  rewrite <- Permutation_middle. rewrite delete_take_drop. done.
Qed.

Lemma swap_perm i j (l : list Z) : swap i j l ≡ₚ l.
Proof.
  unfold swap. destruct (l !! i) as [x|] eqn:Hi; [|done]. destruct (l !! j) as [y|] eqn:Hj; [|done].
  destruct (decide (i = j)) as [->|Hne].
  - simplify_eq. by rewrite list_insert_insert_eq, list_insert_id.
  - assert (<[j := x]> l !! i = Some x) as Hi' by (by rewrite list_lookup_insert_ne).
    rewrite (insert_delete_perm _ i x y Hi').
    assert (x :: delete i (<[j := x]> l) ≡ₚ x :: delete j l) as Hd.
    { rewrite <- (insert_delete_perm _ i x x Hi'), list_insert_id by done. by apply insert_delete_perm with y. }
    apply Permutation_cons_inv in Hd. rewrite Hd. rewrite <- (insert_delete_perm l j y y Hj). by rewrite list_insert_id.
Qed.

Section Generated.
Context {G : Type} (rs : rand_source G) `{!RandLaws rs}.

Lemma shuffle_perm i : ∀ l g, fst (shuffle rs i l g) ≡ₚ l.
Proof.
  induction i as [|i IH]; intros l g; [done|]. cbn [shuffle]. destruct (rs_IntN rs _ g) as [j g'].
  rewrite IH. apply swap_perm.
Qed.

(** Ranges whose arithmetic stays within [int]. *)
Definition small (r : Z * Z) : Prop := - 2 ^ 62 < r.1 ∧ r.2 < 2 ^ 62.

Lemma randomIntInRange_ok lo hi g : - 2 ^ 63 ≤ lo → lo ≤ hi → hi < 2 ^ 63 → hi - lo + 1 < 2 ^ 63 →
  ∃ v g', randomIntInRange rs lo hi g = Ok (v, g') ∧ lo ≤ v ≤ hi.
Proof.
  intros H1 H2 H3 H4. unfold randomIntInRange. destruct (Z.ltb_spec hi lo); [lia|].
  rewrite (wrap_int64_id (hi - lo + 1)) by lia. destruct (Z.leb_spec (hi - lo + 1) 0); [lia|].
  pose proof (IntN_range (hi - lo + 1) g ltac:(lia)) as Hr. destruct (rs_IntN rs _ g) as [v g']. cbn [fst] in Hr.
  exists (lo + v), g'. rewrite wrap_int64_id by lia. split; [done|lia].
Qed.

Lemma random_small r g : small r → r.1 ≤ r.2 → ∃ v g', randomIntInRange rs r.1 r.2 g = Ok (v, g') ∧ r.1 ≤ v ≤ r.2.
Proof. intros [H1 H2] H. apply randomIntInRange_ok; lia. Qed.

Lemma allUnique_3 a b c : allUnique [a; b; c] = true ↔ a ≠ b ∧ a ≠ c ∧ b ≠ c.
Proof.
  unfold allUnique. cbn [all_unique]. rewrite (bool_decide_eq_false_2 (a ∈ ∅)) by set_solver.
  destruct (decide (a = b)) as [->|]; [rewrite (bool_decide_eq_true_2 (b ∈ {[b]} ∪ ∅)) by set_solver; naive_solver|].
  rewrite (bool_decide_eq_false_2 (b ∈ {[a]} ∪ ∅)) by set_solver. case_bool_decide; set_solver.
Qed.

Lemma s4_loop_spec n r s1 s2 s3 : small r → r.1 ≤ r.2 → ∀ g, ∃ o g',
  s4_loop rs n r s1 s2 s3 g = Ok (o, g') ∧
  ∀ s4, o = Some s4 → r.1 ≤ s4 ≤ r.2 ∧ s4 ≠ s1 ∧ s4 ≠ s2 ∧ s4 ≠ s3.
Proof.
  intros Hs Hr. induction n as [|n IH]; intros g; cbn [s4_loop]; [by exists None, g|].
  destruct (random_small r g Hs Hr) as (v & g1 & -> & Hv). cbn [res_bind].
  destruct (negb (v =? s1) && negb (v =? s2) && negb (v =? s3)) eqn:E; [|apply IH].
  exists (Some v), g1. split; [done|]. intros s4 [= <-]. lia.
Qed.

Definition no_size_clash (s1 s2 s3 : Z) : Prop :=
  s1 + 148 ≠ s2 + 92 ∧ s3 + 64 ≠ s1 + 148 ∧ s3 + 64 ≠ s2 + 92.

Definition in_range (r : Z * Z) (v : Z) : Prop := r.1 ≤ v ≤ r.2.

Definition padding_ok (p : Preset) (s1 s2 s3 s4 : Z) : Prop :=
  in_range (ps_S1Range p) s1 ∧ in_range (ps_S2Range p) s2 ∧ in_range (ps_S3Range p) s3 ∧ in_range (ps_S4Range p) s4 ∧
  NoDup [s1; s2; s3; s4] ∧ no_size_clash s1 s2 s3.

Definition preset_small (p : Preset) : Prop :=
  Forall small [ps_JcRange p; ps_JminRange p; ps_JmaxExtraRange p; ps_S1Range p; ps_S2Range p; ps_S3Range p; ps_S4Range p]
  ∧ - 2 ^ 63 ≤ ps_HMin p ∧ ps_HMax p < 2 ^ 63.

Lemma padding_loop_spec n p : preset_small p → validatePresetRanges p = Ok () → ∀ g,
  (∃ s1 s2 s3 s4 g', padding_loop rs n p g = Ok (s1, s2, s3, s4, g') ∧ padding_ok p s1 s2 s3 s4) ∨
  padding_loop rs n p g = Err ErrPadding.
Proof.
  intros (Hs & Hlo & Hhi) Hv. rewrite !Forall_cons in Hs. destruct Hs as (_ & _ & _ & B1 & B2 & B3 & B4 & _).
  apply validatePresetRanges_ok in Hv as (_ & (R1 & R2 & R3 & R4) & _); [|done..].
  induction n as [|n IH]; intros g; cbn [padding_loop]; [by right|].
  destruct (random_small (ps_S1Range p) g) as (s1 & g1 & -> & H1); [done..|]. cbn [res_bind].
  destruct (random_small (ps_S2Range p) g1) as (s2 & g2 & -> & H2); [done..|]. cbn [res_bind].
  destruct (random_small (ps_S3Range p) g2) as (s3 & g3 & -> & H3); [done..|]. cbn [res_bind].
  destruct (allUnique [s1; s2; s3]) eqn:Hu; cbn [negb orb]; [|apply IH].
  destruct (violatesPacketSizeRules s1 s2 s3) eqn:Hc; [apply IH|].
  destruct (s4_loop_spec maxS4GenerationAttempts (ps_S4Range p) s1 s2 s3) with g3 as (o & g4 & E & Ho); [done..|].
  unfold generateUniqueS4. rewrite E. cbn [res_bind]. destruct o as [s4|]; [|apply IH].
  left. exists s1, s2, s3, s4, g4. split; [done|]. destruct (Ho s4 eq_refl) as (? & ? & ? & ?).
  apply allUnique_3 in Hu as (? & ? & ?). unfold padding_ok, in_range, small in *. split_and!; try lia.
  - rewrite !NoDup_cons, !not_elem_of_cons. split_and!; try done; try apply not_elem_of_nil; try apply NoDup_nil_2.
  - unfold violatesPacketSizeRules in Hc. rewrite !wrap_int64_id in Hc by lia. unfold no_size_clash.
    destruct (Z.eqb_spec (s1 + 148) (s2 + 92)); [discriminate|]. destruct (Z.eqb_spec (s3 + 64) (s1 + 148)); [discriminate|]. lia.
Qed.

Lemma generateHeaderValues_spec p g : preset_small p → validatePresetRanges p = Ok () →
  ∃ hs g', generateHeaderValues rs (ps_HMin p) (ps_HMax p) g = Ok (hs, g') ∧ length hs = 4%nat ∧ NoDup hs ∧
    Forall (λ h, ps_HMin p ≤ h ≤ ps_HMax p) hs.
Proof.
  intros (_ & Hlo & Hhi) Hv. apply validatePresetRanges_ok in Hv as (_ & _ & Hw); [|done..].
  unfold generateHeaderValues. rewrite splitHeaderRange_eq by lia.
  destruct (segment_start_facts (ps_HMin p) (ps_HMax p)) as (H0 & H4 & Hs); [lia|].
  pose proof (Hs 0 ltac:(lia)) as (S0 & _). pose proof (Hs 1 ltac:(lia)) as (S1 & _).
  pose proof (Hs 2 ltac:(lia)) as (S2 & _). pose proof (Hs 3 ltac:(lia)) as (S3 & _). clear Hs.
  cbn [fmap list_fmap]. change (0 + 1) with 1 in *. change (1 + 1) with 2 in *. change (2 + 1) with 3 in *. change (3 + 1) with 4 in *.
  set (a := segment_start (ps_HMin p) (ps_HMax p) 0) in *. set (b := segment_start (ps_HMin p) (ps_HMax p) 1) in *.
  set (c := segment_start (ps_HMin p) (ps_HMax p) 2) in *. set (d := segment_start (ps_HMin p) (ps_HMax p) 3) in *.
  set (e := segment_start (ps_HMin p) (ps_HMax p) 4) in *. clearbody a b c d e.
  unfold draw_segments, randomInt64InRange. cbn [fst snd].
  destruct (randomIntInRange_ok a (b - 1) g) as (v0 & g0 & -> & V0); [lia..|]. cbn [res_bind].
  destruct (randomIntInRange_ok b (c - 1) g0) as (v1 & g1 & -> & V1); [lia..|]. cbn [res_bind].
  destruct (randomIntInRange_ok c (d - 1) g1) as (v2 & g2 & -> & V2); [lia..|]. cbn [res_bind].
  destruct (randomIntInRange_ok d (e - 1) g2) as (v3 & g3 & -> & V3); [lia..|]. cbn [res_bind length Nat.sub].
  pose proof (shuffle_perm 3 [v0; v1; v2; v3] g3) as Hp. destruct (shuffle rs 3 [v0; v1; v2; v3] g3) as [hs g4]. cbn [fst] in Hp.
  exists hs, g4. split_and!; [done|by rewrite Hp| |].
  - rewrite Hp, !NoDup_cons, !not_elem_of_cons. split_and!; try lia; try apply not_elem_of_nil; try apply NoDup_nil_2.
  - rewrite Hp. repeat constructor; lia.
Qed.
End Generated.

(** ** Generated parameters *)

Definition headers (p : Params) : list Z := [pa_H1 p; pa_H2 p; pa_H3 p; pa_H4 p].
Definition ispecs (p : Params) : list string := [pa_I1 p; pa_I2 p; pa_I3 p; pa_I4 p; pa_I5 p].

(** The numeric rules of generated parameters. *)
Definition params_ok (q : Preset) (p : Params) : Prop :=
  in_range (ps_JcRange q) (pa_Jc p) ∧ in_range (ps_JminRange q) (pa_Jmin p) ∧
  in_range (ps_JmaxExtraRange q) (pa_Jmax p - pa_Jmin p) ∧
  padding_ok q (pa_S1 p) (pa_S2 p) (pa_S3 p) (pa_S4 p) ∧
  NoDup (headers p) ∧ Forall (λ h, ps_HMin q ≤ h ≤ ps_HMax q) (headers p).

Section Outcome.
Context {G : Type} (rs : rand_source G) `{!RandLaws rs}.

Lemma generateNumericParams_spec q g : preset_small q → validatePresetRanges q = Ok () →
  (∃ p g', generateNumericParams rs q g = Ok (p, g') ∧ params_ok q p ∧ ispecs p = [""; ""; ""; ""; ""]) ∨
  generateNumericParams rs q g = Err ErrPadding.
Proof.
  intros Hq Hv. pose proof Hq as (Hs & Hlo & Hhi). rewrite !Forall_cons in Hs. destruct Hs as (B1 & B2 & B3 & _).
  pose proof Hv as Hv'. apply validatePresetRanges_ok in Hv' as ((J1 & J2 & J3) & _); [|done..].
  unfold generateNumericParams.
  destruct (random_small rs (ps_JcRange q) g) as (jc & g1 & -> & H1); [done..|]. cbn [res_bind].
  destruct (random_small rs (ps_JminRange q) g1) as (jmin & g2 & -> & H2); [done..|]. cbn [res_bind].
  destruct (random_small rs (ps_JmaxExtraRange q) g2) as (jx & g3 & -> & H3); [done..|]. cbn [res_bind].
  unfold generatePaddingValues.
  destruct (padding_loop_spec rs maxPaddingGenerationAttempts q Hq Hv g3) as [(s1 & s2 & s3 & s4 & g4 & -> & Hp)| ->]; [|by right].
  cbn [res_bind]. destruct (generateHeaderValues_spec rs q g4 Hq Hv) as (hs & g5 & -> & Hl & Hnd & Hf). cbn [res_bind].
  destruct hs as [|h1 [|h2 [|h3 [|h4 [|]]]]]; try discriminate Hl. left. eexists _, _. split; [reflexivity|].
  unfold params_ok, headers, in_range, small in *. cbn [nth pa_Jc pa_Jmin pa_Jmax pa_S1 pa_S2 pa_S3 pa_S4 pa_H1 pa_H2 pa_H3 pa_H4].
  rewrite wrap_int64_id by lia. split_and!; try done; lia.
Qed.

Lemma GenerateParams_run q family g : preset_small q → validatePresetRanges q = Ok () →
  match GenerateParams rs (Some q) family g with
  | Ok (p, _) => params_ok q p ∧
      ispecs p = match family with
                 | Some f => if ps_ISpecEnabled q then family_templates f else [""; ""; ""; ""; ""]
                 | None => [""; ""; ""; ""; ""]
                 end
  | Err ErrPadding => True
  | Err (ErrGenISpec e) => ∃ f, family = Some f ∧ GenerateISpec (Some f) = Err e
  | Err _ => False
  end.
Proof.
  intros Hq Hv. unfold GenerateParams. rewrite Hv. cbn [res_bind].
  destruct (generateNumericParams_spec q g Hq Hv) as [(p & g' & -> & Hp & Hi)| ->]; [|done]. cbn [res_bind].
  destruct family as [f|]; [|done]. destruct (ps_ISpecEnabled q); [|done].
  destruct (GenerateISpec (Some f)) as [v|e] eqn:E; cbn [wrap_err res_bind]; [|by exists f].
  apply GenerateISpec_values in E as ->. split; [exact Hp|done].
Qed.
End Outcome.

(** What [GenerateParams] returns, for every valid preset, every family and every
    random source: parameters inside the preset's ranges with Jmax above Jmin by the
    preset's extra, four pairwise distinct paddings no two of which make different
    packet types equally long, four pairwise distinct headers in range, and the
    family's templates exactly when the preset enables them; or the error that no
    acceptable padding was drawn in the allowed attempts; or an invalid family. It
    never panics and never fails on a range. *)
Theorem GenerateParams_outcome {G} (rs : rand_source G) q family g :
  RandLaws rs → preset_small q → validatePresetRanges q = Ok () →
  match GenerateParams rs (Some q) family g with
  | Ok (p, _) => params_ok q p ∧
      ispecs p = match family with
                 | Some f => if ps_ISpecEnabled q then family_templates f else [""; ""; ""; ""; ""]
                 | None => [""; ""; ""; ""; ""]
                 end
  | Err ErrPadding => True
  | Err (ErrGenISpec e) => ∃ f, family = Some f ∧ GenerateISpec (Some f) = Err e
  | Err _ => False
  end.
Proof. intros HL. by apply GenerateParams_run. Qed.

Lemma GenerateParams_outcome_witness : ∃ p g',
  GenerateParams counter_rand (Some balanced) (Some stun_family) 7%N = Ok (p, g') ∧ params_ok balanced p ∧
  ispecs p = family_templates stun_family.
Proof.
  pose proof (GenerateParams_outcome counter_rand balanced (Some stun_family) 7%N) as H.
  assert (is_ok (GenerateParams counter_rand (Some balanced) (Some stun_family) 7%N) = true) as Hok by (by vm_compute).
  destruct (GenerateParams counter_rand (Some balanced) (Some stun_family) 7%N) as [[p g']|e]; [|discriminate Hok].
  exists p, g'. split; [reflexivity|]. apply H; [apply _| |reflexivity].
  unfold preset_small, small. cbn. repeat constructor; cbn; lia.
Defined.

Lemma builtin_presets_ok q : q ∈ ListPresets →
  preset_small q ∧ validatePresetRanges q = Ok () ∧
  Forall (λ r, 0 ≤ r.1 ∧ r.2 ≤ 255) [ps_JcRange q; ps_JminRange q; ps_JmaxExtraRange q; ps_S1Range q; ps_S2Range q; ps_S3Range q; ps_S4Range q] ∧
  0 < ps_HMin q ∧ ps_HMax q < 2 ^ 31 ∧ (ps_S3Range q).2 ≤ 63 ∧ (ps_S4Range q).2 ≤ 15.
Proof.
  unfold ListPresets, presets. intros H. unfold preset_small, small.
  repeat (apply elem_of_cons in H as [->|H]; [split_and!; cbn; try done; try lia; repeat constructor; cbn; lia|]).
  by apply not_elem_of_nil in H.
Qed.

(** Parameters from a built-in preset survive the wire: their 32-bit protobuf form
    is field by field the same numbers, the header texts of the device configuration
    read back as the headers, and the paddings pass the MTU check of a physical MTU of
    at least 1280 with an overhead of up to 80 bytes. *)
Theorem builtin_params_fit {G} (rs : rand_source G) q family g p g' mtu overhead :
  RandLaws rs → q ∈ ListPresets → GenerateParams rs (Some q) family g = Ok (p, g') →
  1280 ≤ mtu < 2 ^ 31 → 0 ≤ overhead ≤ 80 →
  ToProto (Some p) = p ∧
  omap (λ o, o ≫= Atoi) [cf_H1 (ToConfig (Some p)); cf_H2 (ToConfig (Some p)); cf_H3 (ToConfig (Some p)); cf_H4 (ToConfig (Some p))]
    = headers p ∧
  ValidateMTU (Some p) mtu overhead = Ok ().
Proof.
  intros HL Hq Hg Hm Ho. destruct (builtin_presets_ok q Hq) as (Hsm & Hv & Hf & Hlo & Hhi & Hs3 & Hs4).
  pose proof (GenerateParams_run rs q family g Hsm Hv) as H. rewrite Hg in H.
  destruct H as [(Hjc & Hjm & Hjx & (H1 & H2 & H3 & H4 & _) & _ & Hh) _].
  rewrite !Forall_cons in Hf. destruct Hf as (F1 & F2 & F3 & F4 & F5 & F6 & F7 & _).
  unfold headers in Hh. rewrite !Forall_cons in Hh. destruct Hh as (K1 & K2 & K3 & K4 & _). unfold in_range in *.
  destruct p as [jc jmin jmax s1 s2 s3 s4 h1 h2 h3 h4 i1 i2 i3 i4 i5].
  cbn [pa_Jc pa_Jmin pa_Jmax pa_S1 pa_S2 pa_S3 pa_S4 pa_H1 pa_H2 pa_H3 pa_H4] in *. split_and!.
  - cbn [ToProto pa_Jc pa_Jmin pa_Jmax pa_S1 pa_S2 pa_S3 pa_S4 pa_H1 pa_H2 pa_H3 pa_H4].
    rewrite !wrap_int32_id by lia. done.
  - cbn [ToConfig cf_H1 cf_H2 cf_H3 cf_H4 pa_H1 pa_H2 pa_H3 pa_H4 StrPtr omap list_omap mbind option_bind].
    rewrite !Atoi_Itoa by lia. done.
  - cbn [ValidateMTU pa_S3 pa_S4]. rewrite !wrap_int64_id by lia.
    destruct (Z.leb_spec mtu 0); [lia|]. destruct (Z.ltb_spec overhead 0); [lia|].
    destruct (Z.ltb_spec s3 0); [lia|]. destruct (Z.ltb_spec s4 0); [lia|]. cbn [orb].
    destruct (Z.ltb_spec mtu (s3 + s4 + overhead)); [lia|]. destruct (Z.ltb_spec mtu (s3 + 64 + overhead)); [lia|]. done.
Qed.

Lemma builtin_params_fit_witness : ∃ p g',
  GenerateParams counter_rand (Some balanced) None 7%N = Ok (p, g') ∧ ToProto (Some p) = p ∧ ValidateMTU (Some p) 1280 80 = Ok ().
Proof.
  assert (is_ok (GenerateParams counter_rand (Some balanced) None 7%N) = true) as Hok by (by vm_compute).
  destruct (GenerateParams counter_rand (Some balanced) None 7%N) as [[p g']|e] eqn:E; [|discriminate Hok].
  exists p, g'. split; [reflexivity|].
  destruct (builtin_params_fit counter_rand balanced None 7%N p g' 1280 80) as (H1 & _ & H2);
    [apply _|by apply list_elem_of_lookup_2 with 1%nat|exact E|lia|lia|split; [exact H1|exact H2]].
Defined.

(** ** MTU *)

(** [MaxS4ForMTU] is not a bound the MTU check honours: with the returned value as
    S4, every S3 above 64 is rejected, because the check adds S3 and S4 while the bound
    leaves exactly 64 bytes. *)
Theorem MaxS4_ignores_S3 p mtu overhead :
  0 < mtu < 2 ^ 62 → 0 ≤ overhead → overhead + 64 ≤ mtu → 64 < pa_S3 p < 2 ^ 62 →
  pa_S4 p = MaxS4ForMTU mtu overhead →
  ValidateMTU (Some p) mtu overhead = Err (ErrMTUExceeded (pa_S3 p) (pa_S4 p) overhead mtu).
Proof.
  intros Hm Ho Hle Hs3 Hs4. unfold MaxS4ForMTU, EffectiveMTU in Hs4. rewrite !wrap_int64_id in Hs4 by (rewrite ?wrap_int64_id; lia).
  cbn [ValidateMTU]. rewrite Hs4. destruct (Z.leb_spec mtu 0); [lia|]. destruct (Z.ltb_spec overhead 0); [lia|].
  destruct (Z.ltb_spec (pa_S3 p) 0); [lia|]. destruct (Z.ltb_spec (mtu - overhead - 64) 0); [lia|]. cbn [orb].
  rewrite (wrap_int64_id (pa_S3 p + _ + _)) by lia.
  destruct (Z.ltb_spec mtu (pa_S3 p + (mtu - overhead - 64) + overhead)); [done|lia].
Qed.

Lemma MaxS4_ignores_S3_witness :
  ValidateMTU (Some (MkParams 4 80 160 20 30 65 (MaxS4ForMTU 1420 80) 1 2 3 4 "" "" "" "" "")) 1420 80 =
  Err (ErrMTUExceeded 65 1276 80 1420).
Proof.
  apply (MaxS4_ignores_S3 (MkParams 4 80 160 20 30 65 (MaxS4ForMTU 1420 80) 1 2 3 4 "" "" "" "" "") 1420 80); cbn; try lia.
Defined.
