(* ===== verification/RotateTiers.v ===== *)
(** * Rotation tiers ([src/pkg/rotation/tier1.go], [tier2.go], [tier3.go], [adaptive.go])

    The three requests an administrator sends to the agents of the masters, and
    the heuristic that proposes one. An agent is what it answers, its code being
    behind gRPC; texts that a library formats (durations, floats) are kept as the
    values they are formatted from. Tier 2 starts one goroutine per master: the
    order in which Go walks the map and the order in which the answers arrive are
    arguments. *)

From Stdlib Require Import SpecFloat.
From S2P Require Import Prelude GoStrings GoNet GoText CertLifecycle Rotation WgTypes AwgParams.

(** [proto.RotateParamsRequest] *)
Record RotateParamsRequest := MkRotateParams {
  rq_TunnelName : string; rq_Tier : Z; rq_NewParams : Params; rq_NewPublicKey : list ascii
}.

Inductive rotate_reply := RotateFails (err : string) | RotateNil | RotateAnswers (success : bool) (message : string).
Inductive health_reply := HealthFails (err : string) | HealthNil | HealthIs (healthy : bool).

(** [proto.AwgAgentClient] *)
Record agent := MkAgent { ag_GetHealth : health_reply; ag_RotateParams : RotateParamsRequest → rotate_reply }.

Inductive tier_error :=
  | ErrTierContext
  | ErrTierClient
  | ErrTierTunnel
  | ErrTierParams
  | ErrTierKey
  | ErrTierNoClients
  | ErrTierRPC (tunnel err : string)
  | ErrTierEmpty (tunnel : string)
  | ErrTierRefused (tunnel message : string)
  | ErrPreflight (unhealthy : string)
  | ErrTier2Partial (failures : string).

(** The three ways one call fails. *)
Definition call_error (tunnel : string) (r : rotate_reply) : res tier_error unit :=
  match r with
  | RotateFails err => Err (ErrTierRPC tunnel err)
  | RotateNil => Err (ErrTierEmpty tunnel)
  | RotateAnswers false message => Err (ErrTierRefused tunnel message)
  | RotateAnswers true _ => Ok ()
  end.

Definition zero_params : Params := MkParams 0 0 0 0 0 0 0 0 0 0 0 "" "" "" "" "".

(** ** Tier 1 *)

Definition validateTier1Inputs (ctx : bool) (client : option agent) (tunnelName : string) (params : option Params)
    : res tier_error unit :=
  if negb ctx then Err ErrTierContext else
  if bool_decide (client = None) then Err ErrTierClient else
  if bool_decide (TrimSpace tunnelName = "") then Err ErrTierTunnel else
  if bool_decide (params = None) then Err ErrTierParams else
  Ok ().

(** Only the junk-packet and signature parameters are sent; the rest stay zero. *)
Definition tier1_request (tunnelName : string) (p : Params) : RotateParamsRequest :=
  MkRotateParams tunnelName 1
    (MkParams (wrap_int32 (pa_Jc p)) (wrap_int32 (pa_Jmin p)) (wrap_int32 (pa_Jmax p)) 0 0 0 0 0 0 0 0
       (pa_I1 p) (pa_I2 p) (pa_I3 p) (pa_I4 p) (pa_I5 p)) [].

(** The outcome and the request sent, if one was. *)
Definition Tier1_Execute (ctx : bool) (client : option agent) (tunnelName : string) (params : option Params)
    : res tier_error unit * option RotateParamsRequest :=
  match validateTier1Inputs ctx client tunnelName params, client, params with
  | Err e, _, _ => (Err e, None)
  | Ok _, Some c, Some p =>
      let req := tier1_request tunnelName p in (call_error tunnelName (ag_RotateParams c req), Some req)
  | Ok _, None, _ => (Err ErrTierClient, None)
  | Ok _, _, None => (Err ErrTierParams, None)
  end.

(** ** Tier 2 *)

Notation clients := (gmap string (option agent)) (only parsing).

Definition validateTier2Inputs (ctx : bool) (cs : clients) (tunnelName : string) (params : option Params)
    : res tier_error unit :=
  if negb ctx then Err ErrTierContext else
  if bool_decide (TrimSpace tunnelName = "") then Err ErrTierTunnel else
  if bool_decide (params = None) then Err ErrTierParams else
  if bool_decide (cs = ∅) then Err ErrTierNoClients else
  Ok ().

Definition buildTier2RotateRequest (tunnelName : string) (p : Params) : RotateParamsRequest :=
  MkRotateParams tunnelName 2
    (MkParams 0 0 0 (wrap_int32 (pa_S1 p)) (wrap_int32 (pa_S2 p)) (wrap_int32 (pa_S3 p)) (wrap_int32 (pa_S4 p))
       (wrap_int32 (pa_H1 p)) (wrap_int32 (pa_H2 p)) (wrap_int32 (pa_H3 p)) (wrap_int32 (pa_H4 p)) "" "" "" "" "") [].

(** [sort.Strings] *)
Definition sort_Strings (l : list string) : list string := sort_by id l.
(** The sorted failure lines joined, when there are any. *)
Definition failure_text (sep : string) (l : list string) : option string :=
  match l with [] => None | _ => Some (join sep (sort_Strings l)) end.

(** One line of the unhealthy masters, [None] for a healthy one. *)
Definition unhealthy (x : string * option agent) : option string :=
  match x with
  | (name, None) => Some (name +:+ ": client is nil")
  | (name, Some c) =>
      match ag_GetHealth c with
      | HealthFails err => Some (name +:+ ": " +:+ err)
      | HealthNil | HealthIs false => Some (name +:+ ": unhealthy")
      | HealthIs true => None
      end
  end.
Definition preflight (walk : list (string * option agent)) : res tier_error unit :=
  match failure_text ", " (omap unhealthy walk) with
  | None => Ok ()
  | Some text => Err (ErrPreflight text)
  end.

(** The goroutine of one master: what it puts on the channel, as the failure line
    it becomes. [preflight] has refused nil clients. *)
Definition rotate_one (req : RotateParamsRequest) (x : string * option agent) : option string :=
  match x with
  | (name, None) => None
  | (name, Some c) =>
      match ag_RotateParams c req with
      | RotateFails err => Some (name +:+ ": rpc error: " +:+ err)
      | RotateNil => Some (name +:+ ": empty response")
      | RotateAnswers false message => Some (name +:+ ": rpc returned failure: " +:+ message)
      | RotateAnswers true _ => None
      end
  end.

(** [walk] is the order of the preflight, [arrive] that of the answers. *)
Definition Tier2_Execute (walk arrive : list (string * option agent)) (ctx : bool) (cs : clients)
    (tunnelName : string) (params : option Params) : res tier_error unit * list (string * RotateParamsRequest) :=
  match validateTier2Inputs ctx cs tunnelName params, params with
  | Err e, _ => (Err e, [])
  | Ok _, None => (Err ErrTierParams, [])
  | Ok _, Some p =>
      match preflight walk with
      | Err e => (Err e, [])
      | Ok _ =>
          let req := buildTier2RotateRequest tunnelName p in
          let sent := (λ x : string * option agent, (x.1, req)) <$> arrive in
          match failure_text "; " (omap (rotate_one req) arrive) with
          | None => (Ok (), sent)
          | Some text => (Err (ErrTier2Partial text), sent)
          end
      end
  end.

(** ** Tier 3 *)

Definition validateTier3Inputs (ctx : bool) (client : option agent) (tunnelName : string) (params : option Params)
    (newPublicKey : Key) : res tier_error unit :=
  if negb ctx then Err ErrTierContext else
  if bool_decide (client = None) then Err ErrTierClient else
  if bool_decide (TrimSpace tunnelName = "") then Err ErrTierTunnel else
  if bool_decide (params = None) then Err ErrTierParams else
  if WgTypes.IsZero newPublicKey then Err ErrTierKey else
  Ok ().

Definition Tier3_Execute (ctx : bool) (client : option agent) (tunnelName : string) (params : option Params)
    (newPublicKey : Key) : res tier_error unit * option RotateParamsRequest :=
  match validateTier3Inputs ctx client tunnelName params newPublicKey, client with
  | Err e, _ => (Err e, None)
  | Ok _, Some c =>
      let req := MkRotateParams tunnelName 3 (ToProto params) newPublicKey in
      (call_error tunnelName (ag_RotateParams c req), Some req)
  | Ok _, None => (Err ErrTierClient, None)
  end.

(** ** The adaptive trigger *)

Notation float := spec_float (only parsing).
Definition fsub : float → float → float := SFsub 53 1024.
Definition fmul : float → float → float := SFmul 53 1024.
Definition fdiv : float → float → float := SFdiv 53 1024.

(** The constants 0.30 and 2.0: the nearest [float64]. *)
Definition DefaultThroughputDropThreshold : float := fdiv (float64 3) (float64 10).
Definition DefaultRTTSpikeMultiplier : float := float64 2.
Definition DefaultAdaptiveWindow : Z := 30 * Second.
Definition DefaultRetryStormThreshold : Z := 10.

(** [time.Duration(f)]: truncation; outside the range the language leaves the
    result to the implementation, and amd64 gives the least integer. *)
Definition duration_of (f : float) : Z :=
  match f with
  | S754_infinity _ | S754_nan => - 2 ^ 63
  | _ => let z := float_trunc f in if (- 2 ^ 63 <=? z) && (z <? 2 ^ 63) then z else - 2 ^ 63
  end.

Record MetricSample := MkSample {
  ms_NodeName : string; ms_Window : Z;
  ms_BaselineThroughputMbps : float; ms_CurrentThroughputMbps : float;
  ms_HandshakeRetries : Z; ms_BaselineRTT : Z; ms_CurrentRTT : Z
}.

Inductive reason := NoReason | ThroughputDrop (drop : float) | RetryStorm (retries : Z) | RTTSpike (rtt : Z).
Record AdaptiveDecision := MkDecision {
  ad_Trigger : bool; ad_Tier : string; ad_NodeName : string; ad_Reason : reason; ad_DropRatio : float
}.
Definition no_decision : AdaptiveDecision := MkDecision false "" "" NoReason (S754_zero false).

Record AdaptiveConfig := MkAdaptive {
  ac_ThroughputDropThreshold : float; ac_MinWindow : Z; ac_RetryStormThreshold : Z; ac_RTTSpikeMultiplier : float
}.
Definition AdaptiveConfig0 : AdaptiveConfig := MkAdaptive (S754_zero false) 0 0 (S754_zero false).

Definition NewAdaptiveDetector (cfg : AdaptiveConfig) : AdaptiveConfig :=
  MkAdaptive
    (if SFleb (ac_ThroughputDropThreshold cfg) (S754_zero false) then DefaultThroughputDropThreshold
     else ac_ThroughputDropThreshold cfg)
    (if ac_MinWindow cfg <=? 0 then DefaultAdaptiveWindow else ac_MinWindow cfg)
    (if ac_RetryStormThreshold cfg <=? 0 then DefaultRetryStormThreshold else ac_RetryStormThreshold cfg)
    (if SFleb (ac_RTTSpikeMultiplier cfg) (S754_zero false) then DefaultRTTSpikeMultiplier
     else ac_RTTSpikeMultiplier cfg).

(** The body of the loop: [None] is [continue]. *)
Definition sample_decision (d : AdaptiveConfig) (s : MetricSample) : option AdaptiveDecision :=
  if ms_Window s <? ac_MinWindow d then None else
  let drop := fdiv (fsub (ms_BaselineThroughputMbps s) (ms_CurrentThroughputMbps s)) (ms_BaselineThroughputMbps s) in
  if (SFltb (S754_zero false) (ms_BaselineThroughputMbps s) && SFleb (S754_zero false) (ms_CurrentThroughputMbps s))
     && SFleb (ac_ThroughputDropThreshold d) drop
  then Some (MkDecision true Tier1 (ms_NodeName s) (ThroughputDrop drop) drop) else
  if ac_RetryStormThreshold d <=? ms_HandshakeRetries s
  then Some (MkDecision true Tier1 (ms_NodeName s) (RetryStorm (ms_HandshakeRetries s)) (S754_zero false)) else
  if (0 <? ms_BaselineRTT s) &&
     (duration_of (fmul (float64 (ms_BaselineRTT s)) (ac_RTTSpikeMultiplier d)) <=? ms_CurrentRTT s)
  then Some (MkDecision true Tier1 (ms_NodeName s) (RTTSpike (ms_CurrentRTT s)) (S754_zero false)) else
  None.

Fixpoint first_decision (d : AdaptiveConfig) (samples : list MetricSample) : AdaptiveDecision :=
  match samples with
  | [] => no_decision
  | s :: samples => match sample_decision d s with Some r => r | None => first_decision d samples end
  end.

(** A nil detector is the default one. *)
Definition Evaluate (sorter : list MetricSample → list MetricSample) (d : option AdaptiveConfig)
    (samples : list MetricSample) : AdaptiveDecision :=
  let d := match d with None => NewAdaptiveDetector AdaptiveConfig0 | Some d => d end in
  first_decision d (sorter samples).

(** ** Tier 2: the outcome does not depend on the schedule *)

Lemma sort_Strings_perm l1 l2 : l1 ≡ₚ l2 → sort_Strings l1 = sort_Strings l2.
Proof.
  intros H. unfold sort_Strings. apply (StronglySorted_unique (key_le id)); [apply sort_by_sorted..|].
  by rewrite !sort_by_perm.
Qed.
Lemma failure_text_perm sep l1 l2 : l1 ≡ₚ l2 → failure_text sep l1 = failure_text sep l2.
Proof.
  intros H. unfold failure_text. rewrite (sort_Strings_perm _ _ H).
  destruct l1, l2; [done|by apply Permutation_nil_cons in H|by apply symmetry, Permutation_nil_cons in H|done].
Qed.
Lemma failure_text_None {A} sep (f : A → option string) l :
  failure_text sep (omap f l) = None ↔ ∀ x, x ∈ l → f x = None.
Proof.
  trans (omap f l = []); [by unfold failure_text; destruct (omap f l)|]. split.
  - intros H x Hx. destruct (f x) as [y|] eqn:Hf; [|done].
    assert (y ∈ omap f l) as Hy by (apply list_elem_of_omap; eauto). rewrite H in Hy. by apply elem_of_nil in Hy.
  - intros H. apply elem_of_nil_inv. intros y Hy. apply list_elem_of_omap in Hy as (x & Hx & Hf).
    by rewrite H in Hf.
Qed.

Definition healthy (c : option agent) : Prop := ∃ a, c = Some a ∧ ag_GetHealth a = HealthIs true.
Definition accepts (req : RotateParamsRequest) (c : option agent) : Prop :=
  ∃ a message, c = Some a ∧ ag_RotateParams a req = RotateAnswers true message.

Lemma unhealthy_None name c : unhealthy (name, c) = None ↔ healthy c.
Proof.
  unfold unhealthy, healthy. destruct c as [a|]; [|split; [done|by intros (? & ? & _)]].
  destruct (ag_GetHealth a) as [| |[]] eqn:H; (split; [intros ?; simplify_eq; eauto|intros (b & ? & ?); congruence]).
Qed.
Lemma rotate_one_None req name c : healthy c → rotate_one req (name, c) = None ↔ accepts req c.
Proof.
  intros (a & -> & _). unfold rotate_one, accepts.
  destruct (ag_RotateParams a req) as [| |[]] eqn:H;
    (split; [intros ?; simplify_eq; eauto|intros (b & m & ? & ?); congruence]).
Qed.

Section tier2.
Context (cs : clients).

Lemma preflight_ok walk :
  walk ≡ₚ map_to_list cs → preflight walk = Ok () ↔ ∀ name c, cs !! name = Some c → healthy c.
Proof.
  intros Hw. unfold preflight. trans (failure_text ", " (omap unhealthy walk) = None).
  { by destruct (failure_text _ _). }
  rewrite failure_text_None. split.
  - intros H name c Hc. apply (unhealthy_None name), H. rewrite Hw. by apply elem_of_map_to_list.
  - intros H [name c] Hx. rewrite Hw, elem_of_map_to_list in Hx. apply unhealthy_None; eauto.
Qed.
Lemma preflight_perm w1 w2 : w1 ≡ₚ w2 → preflight w1 = preflight w2.
Proof. intros H. unfold preflight. by rewrite (failure_text_perm _ _ (omap unhealthy w2)) by by rewrite H. Qed.

Lemma failures_perm req a1 a2 : a1 ≡ₚ a2 →
  failure_text "; " (omap (rotate_one req) a1) = failure_text "; " (omap (rotate_one req) a2).
Proof. intros H. apply failure_text_perm. by rewrite H. Qed.
End tier2.

(** A tier-2 rotation is coordinated: its outcome does not depend on the order in
    which the masters are walked or answer; no master is sent anything unless all of
    them report healthy; when they do, each is sent the request exactly once, with
    the padding and header parameters and nothing else; and it succeeds exactly when
    the inputs are valid, every master is healthy and every master accepts. *)
Theorem tier2_coordinated ctx cs tunnel p walk arrive walk' arrive' :
  walk ≡ₚ map_to_list cs → arrive ≡ₚ map_to_list cs → walk' ≡ₚ map_to_list cs → arrive' ≡ₚ map_to_list cs →
  let req := buildTier2RotateRequest tunnel p in
  let '(r, sent) := Tier2_Execute walk arrive ctx cs tunnel (Some p) in
  r = (Tier2_Execute walk' arrive' ctx cs tunnel (Some p)).1 ∧
  (sent = [] ∨ (∀ name c, cs !! name = Some c → healthy c) ∧
     sent ≡ₚ (λ x : string * option agent, (x.1, req)) <$> map_to_list cs) ∧
  (r = Ok () ↔ validateTier2Inputs ctx cs tunnel (Some p) = Ok () ∧
     ∀ name c, cs !! name = Some c → healthy c ∧ accepts req c).
Proof.
  intros Hw Ha Hw' Ha' req. unfold Tier2_Execute.
  destruct (validateTier2Inputs ctx cs tunnel (Some p)) as [[]|e]; [|split_and!; [done|by left|naive_solver]].
  rewrite (preflight_perm walk' walk) by by rewrite Hw, Hw'. pose proof (preflight_ok cs walk Hw) as Hp.
  destruct (preflight walk) as [[]|e].
  2: { split_and!; [done|by left|]. split; [done|]. intros [_ H]. apply Hp. intros name c Hc. apply (H name c Hc). }
  destruct Hp as [Hp _]. specialize (Hp eq_refl). fold req.
  rewrite (failures_perm req arrive' arrive) by by rewrite Ha, Ha'.
  assert (failure_text "; " (omap (rotate_one req) arrive) = None ↔
          ∀ name c, cs !! name = Some c → healthy c ∧ accepts req c) as Hf.
  { rewrite failure_text_None. split.
    - intros H name c Hc. split; [by eapply Hp|]. apply (rotate_one_None req name c); [by eapply Hp|].
      apply H. rewrite Ha. by apply elem_of_map_to_list.
    - intros H [name c] Hx. rewrite Ha, elem_of_map_to_list in Hx. destruct (H _ _ Hx). by apply rotate_one_None. }
  destruct (failure_text _ _); (split_and!; [done|right; split; [done|by rewrite Ha]|naive_solver]).
Qed.

Definition good_agent : agent := MkAgent (HealthIs true) (λ _, RotateAnswers true "").
Definition refusing_agent : agent := MkAgent (HealthIs true) (λ _, RotateAnswers false "busy").
Definition three_masters : clients :=
  <["m1" := Some good_agent]> (<["m2" := Some refusing_agent]> (<["m3" := Some refusing_agent]> ∅)).

Lemma tier2_coordinated_witness :
  (Tier2_Execute (map_to_list three_masters) (reverse (map_to_list three_masters)) true three_masters "de-1"
     (Some zero_params)).1 = Err (ErrTier2Partial "m2: rpc returned failure: busy; m3: rpc returned failure: busy") ∧
  (Tier2_Execute (map_to_list three_masters) (map_to_list three_masters) true three_masters "de-1"
     (Some zero_params)).1 = Err (ErrTier2Partial "m2: rpc returned failure: busy; m3: rpc returned failure: busy").
Proof.
  pose proof (tier2_coordinated true three_masters "de-1" zero_params
    (map_to_list three_masters) (reverse (map_to_list three_masters))
    (map_to_list three_masters) (map_to_list three_masters)
    (reflexivity _) (reverse_Permutation _) (reflexivity _) (reflexivity _)) as H.
  cbv zeta in H. destruct (Tier2_Execute _ (reverse _) _ _ _ _) as [r sent] eqn:E. destruct H as [H _].
  assert (r = Err (ErrTier2Partial "m2: rpc returned failure: busy; m3: rpc returned failure: busy")) as Hr.
  { apply (f_equal fst) in E. cbn [fst] in E. rewrite <- E. by vm_compute. }
  split; [exact Hr|]. by rewrite <- H.
Defined.

(** ** The adaptive trigger *)

Lemma first_decision_spec d l :
  StronglySorted (key_le ms_NodeName) l →
  (first_decision d l = no_decision ∧ ∀ s, s ∈ l → sample_decision d s = None) ∨
  (∃ s, s ∈ l ∧ sample_decision d s = Some (first_decision d l) ∧
     ∀ s', s' ∈ l → sample_decision d s' ≠ None → s' = s ∨ key_le ms_NodeName s s').
Proof.
  induction 1 as [|s l Hl IH Hs]; cbn [first_decision]; [left; split; [done|by intros s ?%elem_of_nil]|].
  destruct (sample_decision d s) as [r|] eqn:E.
  - right. exists s. split_and!; [by left|done|]. intros s' [->|Hin]%elem_of_cons _; [by left|right].
    rewrite Forall_forall in Hs. auto.
  - destruct IH as [[-> Hn]|(s0 & Hin & Hd & Hmin)].
    + left. split; [done|]. intros s' [->|?]%elem_of_cons; auto.
    + right. exists s0. split_and!; [by right|done|]. intros s' [->|?]%elem_of_cons Hne; [done|auto].
Qed.

Lemma sample_decision_node d s r :
  sample_decision d s = Some r → ad_Trigger r = true ∧ ad_Tier r = Tier1 ∧ ad_NodeName r = ms_NodeName s.
Proof. unfold sample_decision. cbv zeta. intros H. repeat case_match; by simplify_eq. Qed.

(** The adaptive trigger is deterministic whatever the order of the samples and of
    the sort: it stays silent exactly when no sample crosses a threshold over a long
    enough window, and otherwise proposes a tier-1 rotation of the node whose name is
    the first, among those with such a sample, in byte order. *)
Theorem adaptive_decision sorter d samples :
  SortSliceBy ms_NodeName sorter →
  let det := match d with None => NewAdaptiveDetector AdaptiveConfig0 | Some d => d end in
  let r := Evaluate sorter d samples in
  (ad_Trigger r = false ↔ ∀ s, s ∈ samples → sample_decision det s = None) ∧
  (ad_Trigger r = true → ad_Tier r = Tier1 ∧ ∃ s, s ∈ samples ∧ sample_decision det s = Some r ∧
     ad_NodeName r = ms_NodeName s ∧
     ∀ s', s' ∈ samples → sample_decision det s' ≠ None → String.le (ms_NodeName s) (ms_NodeName s')).
Proof.
  intros Hsort det r. unfold r, Evaluate. fold det.
  destruct (first_decision_spec det (sorter samples) (slice_by_sorted samples)) as [[-> Hn]|(s & Hin & Hd & Hmin)].
  - split; [|done]. split; [|done]. intros _ s Hs. apply Hn. by rewrite slice_by_perm.
  - destruct (sample_decision_node _ _ _ Hd) as (Ht & Htier & Hname). rewrite slice_by_perm in Hin. split.
    + split; [congruence|]. intros H. by rewrite (H s Hin) in Hd.
    + intros _. split; [done|]. exists s. split_and!; [done..|]. intros s' Hs' Hne.
      destruct (Hmin s') as [->|H]; [by rewrite slice_by_perm|done|reflexivity|exact H].
Qed.

Definition slow_node (name : string) (current : Z) : MetricSample :=
  MkSample name DefaultAdaptiveWindow (float64 100) (float64 current) 0 0 0.

(** A drop of exactly 30 % fires; 29 % does not. *)
Lemma adaptive_decision_witness :
  let r := Evaluate (sort_by ms_NodeName) None [slow_node "us" 10; slow_node "de" 71; slow_node "fr" 70] in
  ad_NodeName r = "fr" ∧ ad_Tier r = Tier1.
Proof.
  intros r. destruct (adaptive_decision (sort_by ms_NodeName) None
    [slow_node "us" 10; slow_node "de" 71; slow_node "fr" 70] _) as [_ H].
  destruct H as [Ht _]; [by vm_compute|]. split; [by vm_compute|exact Ht].
Defined.
