(* ===== verification/AdminState.v ===== *)
(** * The administrator's key file ([src/cmd/mesh-ctl/internal/adminstate/state.go])

    One file per node holds the public key the administrator believes the node
    has. [SetPubkey] replaces it through a temporary file and a rename. The disk
    remembers every state it went through, one per system call and one per byte
    written, so that a crash or a concurrent reader is any of those states. What
    the operating system answers is an argument. *)

From S2P Require Import Prelude GoStrings GoNet GoPath GoText.

Notation files := (gmap string string) (only parsing).

Record disk := MkDisk { dk_files : files; dk_seen : list files }.

(** One change of the file system. *)
Definition mutate (f : files → files) (d : disk) : disk :=
  MkDisk (f (dk_files d)) (dk_seen d ++ [f (dk_files d)]).

Record Store := MkStore { so_configDir : string }.
Definition NewStore (configDir : string) : Store := MkStore configDir.

Definition pubkeyFilename : string := "pubkey".
Definition nodePath (s : Store) (node : string) : string := path_Join [so_configDir s; "nodes"; node].
Definition pubkeyPath (s : Store) (node : string) : string := path_Join [nodePath s node; pubkeyFilename].

Inductive store_error :=
  | ErrReadPubkey (node : string)
  | ErrNodeDir (node : string)
  | ErrLock (node : string)
  | ErrCallback (node still cause : string)
  | ErrEmptyPubkey (node : string)
  | ErrOpenTmp (node : string)
  | ErrWriteTmp (node : string)
  | ErrSyncTmp (node : string)
  | ErrCloseTmp (node : string)
  | ErrRename (node : string).

(** What the operating system answers: [true] is success. A failed write has
    written the first [n] bytes. *)
Record answers := MkAnswers {
  as_mkdir : bool; as_lock : bool; as_read : bool; as_open : bool; as_write : option nat;
  as_sync : bool; as_close : bool; as_rename : bool; as_remove : bool
}.
Definition all_well : answers := MkAnswers true true true true None true true true true.

(** A missing file is the empty key; [readable] is false on any other error. *)
Definition GetPubkey (readable : bool) (s : Store) (node : string) (d : disk) : res store_error string :=
  if negb readable then Err (ErrReadPubkey node) else
  match dk_files d !! pubkeyPath s node with
  | None => Ok ""
  | Some data => Ok (TrimSpace data)
  end.

(** The first 8 bytes and an ellipsis. *)
Definition truncKey (key : string) : string :=
  if bool_decide (length (to_bytes key) ≤ 8)%nat then key
  else of_bytes (take 8 (to_bytes key)) +:+ of_bytes (chr <$> [0xE2; 0x80; 0xA6]).

(** [f.WriteString]: the file grows byte by byte, up to [n] bytes. *)
Fixpoint write_bytes (path : string) (sofar todo : list ascii) (n : nat) (d : disk) {struct n} : disk :=
  match n, todo with
  | S n, a :: todo => write_bytes path (sofar ++ [a]) todo n (mutate <[path := of_bytes (sofar ++ [a])]> d)
  | _, _ => d
  end.

Definition remove_tmp (o : answers) (tmpPath : string) (d : disk) : disk :=
  if as_remove o then mutate (delete tmpPath) d else d.

(** From the temporary file to the rename. *)
Definition write_atomically (o : answers) (node path newKey : string) (d : disk) : res store_error string * disk :=
  let tmpPath := path +:+ ".tmp" in
  let text := to_bytes (newKey +:+ String "010" "") in
  if negb (as_open o) then (Err (ErrOpenTmp node), d) else
  let d := mutate <[tmpPath := ""]> d in
  match as_write o with
  | Some n => (Err (ErrWriteTmp node), remove_tmp o tmpPath (write_bytes tmpPath [] text n d))
  | None =>
      let d := write_bytes tmpPath [] text (length text) d in
      if negb (as_sync o) then (Err (ErrSyncTmp node), remove_tmp o tmpPath d) else
      if negb (as_close o) then (Err (ErrCloseTmp node), remove_tmp o tmpPath d) else
      if negb (as_rename o) then (Err (ErrRename node), remove_tmp o tmpPath d) else
      match dk_files d !! tmpPath with
      | Some data => (Ok newKey, mutate (λ m, <[path := data]> (delete tmpPath m)) d)
      | None => (Err (ErrRename node), remove_tmp o tmpPath d)
      end
  end.

Definition SetPubkey (o : answers) (s : Store) (node : string) (cb : string → res string string) (d : disk)
    : res store_error string * disk :=
  if negb (as_mkdir o) then (Err (ErrNodeDir node), d) else
  if negb (as_lock o) then (Err (ErrLock node), d) else
  match GetPubkey (as_read o) s node d with
  | Err e => (Err e, d)
  | Ok oldKey =>
      match cb oldKey with
      | Err cause => (Err (ErrCallback node (truncKey oldKey) cause), d)
      | Ok newKey =>
          if bool_decide (newKey = "") then (Err (ErrEmptyPubkey node), d)
          else write_atomically o node (pubkeyPath s node) newKey d
      end
  end.

(** ** Every state of the disk holds the old key or the new one *)

(** [d'] was reached from [d] through states that all satisfy [P]. *)
Definition reached (P : files → Prop) (d d' : disk) : Prop :=
  ∃ steps, dk_seen d' = dk_seen d ++ steps ∧ Forall P steps ∧ dk_files d' = default (dk_files d) (last steps).

Lemma reached_refl P d : reached P d d.
Proof. exists []. by rewrite app_nil_r. Qed.

Lemma reached_step (P : files → Prop) f d d' : reached P d d' → P (f (dk_files d')) → reached P d (mutate f d').
Proof.
  intros (steps & Hs & Hp & Hf) HP. exists (steps ++ [f (dk_files d')]). cbn [mutate dk_seen dk_files].
  rewrite Hs, app_assoc, last_snoc, Forall_app, Forall_singleton. done.
Qed.

Lemma write_bytes_end path n : ∀ sofar todo d,
  dk_files d !! path = Some (of_bytes sofar) →
  dk_files (write_bytes path sofar todo n d) = <[path := of_bytes (sofar ++ take n todo)]> (dk_files d).
Proof.
  induction n as [|n IH]; intros sofar todo d Hd; [|destruct todo as [|a todo]]; cbn [write_bytes take].
  1,2: rewrite app_nil_r, insert_id; done.
  rewrite IH by (cbn; by rewrite lookup_insert_eq). cbn [mutate dk_files].
  rewrite insert_insert_eq, <- app_assoc. done.
Qed.

Lemma write_bytes_reached (P : files → Prop) path d0 n :
  (∀ text m, P m → P (<[path := text]> m)) →
  ∀ sofar todo d, P (dk_files d) → reached P d0 d → reached P d0 (write_bytes path sofar todo n d).
Proof.
  intros Hins. induction n as [|n IH]; intros sofar todo d Hp Hd; [|destruct todo as [|a todo]]; cbn [write_bytes];
    [done..|]. apply IH; [by apply Hins|]. apply reached_step; auto.
Qed.

Lemma tmp_differs path : path +:+ ".tmp" ≠ path.
Proof.
  intros H. apply (f_equal to_bytes), (f_equal length) in H. rewrite to_bytes_app, length_app in H.
  change (length (to_bytes ".tmp")) with 4%nat in H. lia.
Qed.

Section atomic.
Context (o : answers) (node path newKey : string).
Notation tmpPath := (path +:+ ".tmp").

(** The file is as it was, or complete and new; nothing else but the temporary
    file changes. *)
Definition old_or_new (m0 m : files) : Prop :=
  (m !! path = m0 !! path ∨ m !! path = Some (newKey +:+ String "010" "")) ∧
  ∀ p, p ≠ path → p ≠ tmpPath → m !! p = m0 !! p.
Definition untouched (m0 m : files) : Prop := ∀ p, p ≠ tmpPath → m !! p = m0 !! p.

Lemma untouched_old m0 m : untouched m0 m → old_or_new m0 m.
Proof. intros H. split; [left; apply H; apply not_eq_sym, tmp_differs|auto]. Qed.
Lemma untouched_tmp m0 m text : untouched m0 m → untouched m0 (<[tmpPath := text]> m).
Proof. intros H p Hp. rewrite lookup_insert_ne by done. by apply H. Qed.
Lemma untouched_delete m0 m : untouched m0 m → untouched m0 (delete tmpPath m).
Proof. intros H p Hp. rewrite lookup_delete_ne by done. by apply H. Qed.
Lemma untouched_refl m0 : untouched m0 m0.
Proof. done. Qed.
Hint Resolve untouched_tmp untouched_delete untouched_refl untouched_old reached_refl : core.

Lemma remove_tmp_reached d0 d :
  reached (untouched (dk_files d0)) d0 d → untouched (dk_files d0) (dk_files d) →
  reached (untouched (dk_files d0)) d0 (remove_tmp o tmpPath d) ∧
  untouched (dk_files d0) (dk_files (remove_tmp o tmpPath d)).
Proof. intros Hr Hu. unfold remove_tmp. destruct (as_remove o); [split|done]; [apply reached_step|]; cbn; auto. Qed.

Lemma reached_weaken (P Q : files → Prop) d d' : (∀ m, P m → Q m) → reached P d d' → reached Q d d'.
Proof. intros H (steps & ? & Hs & ?). exists steps. split_and!; [done|by eapply Forall_impl|done]. Qed.

Lemma write_atomically_spec d :
  let '(r, d') := write_atomically o node path newKey d in
  reached (old_or_new (dk_files d)) d d' ∧
  match r with
  | Ok k => k = newKey ∧ dk_files d' !! path = Some (newKey +:+ String "010" "")
  | Err _ => untouched (dk_files d) (dk_files d')
  end.
Proof.
  unfold write_atomically. destruct (as_open o); cbn [negb]; [|auto].
  set (d1 := mutate <[tmpPath := ""]> d). set (text := to_bytes (newKey +:+ _)).
  assert (dk_files d1 = <[tmpPath := ""]> (dk_files d)) as Hd1 by done.
  assert (∀ n, let d' := write_bytes tmpPath [] text n d1 in
      reached (untouched (dk_files d)) d d' ∧ untouched (dk_files d) (dk_files d') ∧
      dk_files d' !! tmpPath = Some (of_bytes (take n text))) as Hw.
  { intros n d'. assert (dk_files d' = <[tmpPath := of_bytes (take n text)]> (dk_files d1)) as Hf.
    { unfold d'. rewrite write_bytes_end; [done|]. by rewrite Hd1, lookup_insert_eq. }
    rewrite Hf, lookup_insert_eq, Hd1. split_and!; auto.
    apply write_bytes_reached; auto; [by rewrite Hd1; auto|]. apply reached_step; auto. }
  assert (∀ n (e : store_error), let d' := remove_tmp o tmpPath (write_bytes tmpPath [] text n d1) in
      reached (old_or_new (dk_files d)) d d' ∧ untouched (dk_files d) (dk_files d')) as Hfail.
  { intros n _. destruct (Hw n) as (H1 & H2 & _). destruct (remove_tmp_reached d _ H1 H2) as [H3 H4].
    split; [|done]. by eapply reached_weaken; [|exact H3]; auto. }
  destruct (as_write o) as [n|]; [apply Hfail; exact (ErrWriteTmp node)|].
  destruct (as_sync o); cbn [negb]; [|apply Hfail; exact (ErrSyncTmp node)].
  destruct (as_close o); cbn [negb]; [|apply Hfail; exact (ErrCloseTmp node)].
  destruct (as_rename o); cbn [negb]; [|apply Hfail; exact (ErrRename node)].
  destruct (Hw (length text)) as (H1 & H2 & H3). rewrite firstn_all in H3.
  replace (of_bytes text) with (newKey +:+ String "010" "") in H3 by (symmetry; apply of_to_bytes).
  rewrite H3. split.
  - apply reached_step; [by eapply reached_weaken; [|exact H1]; auto|]. split; [right; apply lookup_insert_eq|].
    intros p Hp Ht. rewrite lookup_insert_ne by done. rewrite lookup_delete_ne by done. by apply H2.
  - cbn [mutate dk_files]. by rewrite lookup_insert_eq.
Qed.
End atomic.

Lemma SetPubkey_run o s node cb d :
  let path := pubkeyPath s node in
  let '(r, d') := SetPubkey o s node cb d in
  (∃ newKey, reached (old_or_new path newKey (dk_files d)) d d' ∧
     (∀ k, r = Ok k → k = newKey ∧ k ≠ "" ∧ ∃ old, GetPubkey true s node d = Ok old ∧ cb old = Ok newKey)) ∧
  match r with
  | Ok k => dk_files d' !! path = Some (k +:+ String "010" "")
  | Err _ => dk_files d' !! path = dk_files d !! path
  end.
Proof.
  intros path. unfold SetPubkey.
  destruct (as_mkdir o); cbn [negb]; [|split; [exists ""; split; [apply reached_refl|done]|done]].
  destruct (as_lock o); cbn [negb]; [|split; [exists ""; split; [apply reached_refl|done]|done]].
  destruct (GetPubkey _ _ _ _) as [old|e] eqn:Hg; [|split; [exists ""; split; [apply reached_refl|done]|done]].
  destruct (cb old) as [newKey|cause] eqn:Hcb; [|split; [exists ""; split; [apply reached_refl|done]|done]].
  case_bool_decide as Hne; [split; [exists ""; split; [apply reached_refl|done]|done]|].
  pose proof (write_atomically_spec o node path newKey d) as H. fold path.
  destruct (write_atomically _ _ _ _ _) as [r d']. destruct H as [H1 H2]. split.
  - exists newKey. split; [done|]. intros k ->. destruct H2 as [-> _]. split_and!; [done..|].
    exists old. split; [|done]. unfold GetPubkey in Hg |- *. by destruct (as_read o).
  - destruct r as [k|e]; [by destruct H2 as [-> ?]|]. apply H2. apply not_eq_sym, tmp_differs.
Qed.

(** The key file is replaced atomically: whatever the operating system
    answers and wherever the program is interrupted, every state of the disk holds
    for the node either the previous file or the complete new key, and every other
    file but the temporary one is untouched; on success the file reads back as the
    key the callback chose for the previous one, and on any error it is as before. *)
Theorem SetPubkey_atomic o s node cb d :
  let path := pubkeyPath s node in
  let '(r, d') := SetPubkey o s node cb d in
  (∃ newKey, ∀ m, m ∈ dk_seen d' → m ∈ dk_seen d ∨
     (m !! path = dk_files d !! path ∨ m !! path = Some (newKey +:+ String "010" "")) ∧
     (∀ p, p ≠ path → p ≠ path +:+ ".tmp" → m !! p = dk_files d !! p)) ∧
  match r with
  | Ok k => k ≠ "" ∧ (∃ old, GetPubkey true s node d = Ok old ∧ cb old = Ok k) ∧
            GetPubkey true s node d' = Ok (TrimSpace (k +:+ String "010" ""))
  | Err _ => GetPubkey true s node d' = GetPubkey true s node d
  end.
Proof.
  intros path. pose proof (SetPubkey_run o s node cb d) as H. cbv zeta in H. fold path in H.
  destruct (SetPubkey o s node cb d) as [r d']. destruct H as [(newKey & (steps & Hs & Hp & _) & Hk) Hr]. split.
  - exists newKey. intros m Hm. rewrite Hs in Hm. apply elem_of_app in Hm as [?|Hm]; [by left|right].
    rewrite Forall_forall in Hp. apply (Hp m Hm).
  - destruct r as [k|e]; unfold GetPubkey; fold path; rewrite Hr; [|done].
    destruct (Hk k eq_refl) as (-> & ? & ?). done.
Qed.
