(* ===== verification/RotateCmd.v ===== *)
(** * The rotate command ([src/cmd/mesh-ctl/cmd/rotate.go], [onboarding.go])

    What an administrator runs: options, the masters concerned, the parameters, and
    the execution of each tier. Connecting, the agents' answers and the stream to
    the coordination target are arguments. Tier 3, the rotation of a key shared by
    the endpoint, its masters and the administrator's key file, is a state machine
    over a [cluster]: each remote call takes time, may take effect or not, and is cut
    off by the deadline of the command's context, which the rollback shares. *)

From S2P Require Import Prelude GoStrings GoNet GoPath GoText Role.
From S2P Require Import Ranges TopologyV2 Topology Ledger Registry CertLifecycle Rotation RotationService.
From S2P Require Import WgTypes ISpec AwgParams RotateTiers AdminState.

Definition defaultRotatePreset : string := "Balanced".
Definition defaultRotateAgentPort : Z := 9090.
Definition rotateTimeout : Z := 30 * Second.

(** [stdout] is left out: output is returned. *)
Record rotateOptions := MkRotateOptions {
  op_tier : Z; op_endpoint : string; op_preset : string; op_familyName : string; op_meshWide : bool;
  op_controlPlane : string; op_configDir : string; op_applyDelay : Z
}.

Inductive option_error :=
  | ErrPresetFlag | ErrTierFlag | ErrEndpointWithMeshWide | ErrControlPlaneMissing | ErrApplyDelay
  | ErrEndpointMissing | ErrControlPlaneAlone.

Definition validateRotateOptions (o : rotateOptions) : res option_error rotateOptions :=
  let endpoint := TrimSpace (op_endpoint o) in
  let preset := TrimSpace (op_preset o) in
  if bool_decide (preset = "") then Err ErrPresetFlag else
  let family := TrimSpace (op_familyName o) in
  let controlPlane := TrimSpace (op_controlPlane o) in
  if (op_tier o <? 1) || (3 <? op_tier o) then Err ErrTierFlag else
  let validated := MkRotateOptions (op_tier o) endpoint preset family (op_meshWide o) controlPlane (op_configDir o) (op_applyDelay o) in
  if op_meshWide o then
    if negb (bool_decide (endpoint = "")) then Err ErrEndpointWithMeshWide else
    if bool_decide (controlPlane = "") then Err ErrControlPlaneMissing else
    if op_applyDelay o <=? 0 then Err ErrApplyDelay else
    Ok validated
  else
    if bool_decide (endpoint = "") then Err ErrEndpointMissing else
    if negb (bool_decide (controlPlane = "")) then Err ErrControlPlaneAlone else
    Ok validated.

Definition rotateCommandTimeout (o : rotateOptions) : Z :=
  if op_meshWide o then wrap_int64 (rotateTimeout + op_applyDelay o) else rotateTimeout.

Inductive resolve_error := ErrTopologyRequired | ErrEndpointNotFound (name : string) | ErrNoMasters (name : string).

Definition containsName (l : list string) (needle : string) : bool := bool_decide (needle ∈ l).

Definition resolveRotationMasters (topo : option Topology) (endpointName : string)
    : res resolve_error (EndpointNode * list MasterNode) :=
  match topo with
  | None => Err ErrTopologyRequired
  | Some topo =>
      match FindEndpoint topo endpointName with
      | None => Err (ErrEndpointNotFound endpointName)
      | Some endpoint =>
          let masters := filter (λ m, containsName (mn_Endpoints m) (en_Name endpoint) = true) (tp_Masters topo) in
          if bool_decide (masters = []) then Err (ErrNoMasters (en_Name endpoint)) else Ok (endpoint, masters)
      end
  end.

(** ** Parameters *)

Inductive params_error := ErrLoadPreset (e : gen_error) | ErrLoadFamily (e : family_error) | ErrGenerate (e : gen_error).

Definition buildRotationParams {G} (rs : rand_source G) (presetName familyName : string) (g : G)
    : res params_error (Params * G) :=
  let! preset := wrap_err ErrLoadPreset (GetPreset presetName) in
  let! family := (if bool_decide (familyName = "") then Ok None
                  else wrap_err ErrLoadFamily (let! f := GetFamily familyName in Ok (Some f))) in
  wrap_err ErrGenerate (GenerateParams rs (Some preset) family g).

(** [S3] and [S4] have no field in the coordination protocol. *)
Definition controlPlaneParamsFromAWG (p : option Params) : option AWGParamsV2 :=
  match p with
  | None => None
  | Some p => Some (MkAWGParamsV2 (wrap_int32 (pa_Jc p)) (wrap_int32 (pa_Jmin p)) (wrap_int32 (pa_Jmax p))
      (wrap_int32 (pa_S1 p)) (wrap_int32 (pa_S2 p))
      (wrap_uint32 (pa_H1 p)) (wrap_uint32 (pa_H2 p)) (wrap_uint32 (pa_H3 p)) (wrap_uint32 (pa_H4 p))
      (pa_I1 p) (pa_I2 p) (pa_I3 p) (pa_I4 p) (pa_I5 p))
  end.

(** ** Mesh-wide rotation *)

(** What [stream.Recv] answers, in order: responses, then the end or an error. *)
Inductive recv_end := RecvEOF | RecvErr (err : string).

Definition collectMeshWideRotationResponses (responses : list RotateResponse) (last : recv_end)
    : list RotateResponse * option string :=
  (responses, match last with RecvEOF => None | RecvErr err => Some err end).

(** The rows of the table; [tabwriter] aligns them. *)
Definition meshWideRows (results : list RotateResponse) : list (list string) :=
  ["NODE"; "ACK"; "ERROR"] ::
  ((λ r, [rp_NodeName r; if rp_Ack r then "true" else "false"; if bool_decide (rp_Error r = "") then "-" else rp_Error r])
     <$> results).

Inductive mesh_error :=
  | ErrMeshParams (e : params_error)
  | ErrMeshTier (e : rotation_error)
  | ErrMeshConnect (target : string)
  | ErrMeshOpen
  | ErrMeshSend
  | ErrMeshCloseSend
  | ErrMeshPrint
  | ErrMeshFailed (err : string).

(** What the coordination target and the terminal answer. *)
Record mesh_answers := MkMeshAnswers {
  ma_connect : bool; ma_open : bool; ma_send : bool; ma_closeSend : bool;
  ma_recv : list RotateResponse; ma_last : recv_end; ma_print : bool
}.

(** The outcome, the request sent (if the send was attempted) and the rows printed. *)
Definition executeMeshWideRotation {G} (rs : rand_source G) (a : mesh_answers) (now : time) (o : rotateOptions) (g : G)
    : res mesh_error unit * option RotateRequest * list (list string) :=
  match buildRotationParams rs (op_preset o) (op_familyName o) g with
  | Err e => (Err (ErrMeshParams e), None, [])
  | Ok (params, _) =>
  match NormalizeTier (Itoa (op_tier o)) with
  | Err e => (Err (ErrMeshTier e), None, [])
  | Ok tier =>
  if negb (ma_connect a) then (Err (ErrMeshConnect (op_controlPlane o)), None, []) else
  if negb (ma_open a) then (Err ErrMeshOpen, None, []) else
  let req := MkRotateRequest tier (controlPlaneParamsFromAWG (Some params)) (UnixMicro (now + op_applyDelay o)) "" in
  if negb (ma_send a) then (Err ErrMeshSend, Some req, []) else
  if negb (ma_closeSend a) then (Err ErrMeshCloseSend, Some req, []) else
  let '(results, recvErr) := collectMeshWideRotationResponses (ma_recv a) (ma_last a) in
  let rows := match results with [] => [] | _ => meshWideRows results end in
  if negb (bool_decide (results = [])) && negb (ma_print a) then (Err ErrMeshPrint, Some req, []) else
  match recvErr with
  | Some err => (Err (ErrMeshFailed err), Some req, rows)
  | None => (Ok (), Some req, rows)
  end
  end
  end.

(** ** Connecting to agents *)

Definition loadToken (m : gmap string string) (nd : string) : option string :=
  TrimSpace <$> (m !! path_Join [nd; "token"]).
Definition nodeDir (configDir name : string) : string := path_Join [configDir; "nodes"; name].
Definition caPath (configDir : string) : string := path_Join [configDir; "ca.crt"].

Record ClientConfig := MkClientConfig { cc_Target : string; cc_CACertPath : string; cc_Token : string }.

Definition masterGRPCTarget (master : MasterNode) : string :=
  JoinHostPort (mn_Host master) (Itoa (if mn_GRPCPort master =? 0 then defaultRotateAgentPort else mn_GRPCPort master)).

Inductive connect_error := ErrLoadToken (name : string) | ErrDial (name err : string).

Section connect.
(** [grpcclient.NewClient] *)
Context {A : Type} (newClient : ClientConfig → res string A) (configDir : string) (m : gmap string string).

Definition connectMasterAgent (master : MasterNode) : res connect_error A :=
  match loadToken m (nodeDir configDir (mn_Name master)) with
  | None => Err (ErrLoadToken (mn_Name master))
  | Some token =>
      wrap_err (ErrDial (mn_Name master))
        (newClient (MkClientConfig (masterGRPCTarget master) (caPath configDir) token))
  end.
Definition connectEndpointAgent (endpoint : EndpointNode) : res connect_error A :=
  match loadToken m (nodeDir configDir (en_Name endpoint)) with
  | None => Err (ErrLoadToken (en_Name endpoint))
  | Some token =>
      wrap_err (ErrDial (en_Name endpoint))
        (newClient (MkClientConfig (endpoint_GRPCAddr endpoint) (caPath configDir) token))
  end.
End connect.

(** ** Tiers 1 and 2 *)

Inductive master_failure := FailConnect (e : connect_error) | FailTier (e : tier_error).
(** The failures of a run by master, in topology order; the source sorts the
    formatted lines. *)
Inductive tier_cmd_error :=
  | ErrTier1Failed (failures : list (string * master_failure))
  | ErrTier2Connect (failures : list (string * connect_error))
  | ErrTier2Execute (e : tier_error).

Section tiers.
Context (newClient : ClientConfig → res string agent) (configDir : string) (m : gmap string string).

(** The failures, and the requests sent by master. *)
Fixpoint tier1_loop (tunnel : string) (params : option Params) (masters : list MasterNode)
    : list (string * master_failure) * list (string * RotateParamsRequest) :=
  match masters with
  | [] => ([], [])
  | master :: masters =>
      let '(failures, sent) := tier1_loop tunnel params masters in
      match connectMasterAgent newClient configDir m master with
      | Err e => ((mn_Name master, FailConnect e) :: failures, sent)
      | Ok client =>
          let '(r, req) := Tier1_Execute true (Some client) tunnel params in
          (match r with Err e => (mn_Name master, FailTier e) :: failures | Ok _ => failures end,
           match req with Some req => (mn_Name master, req) :: sent | None => sent end)
      end
  end.
Definition executeTier1Rotation (endpoint : EndpointNode) (masters : list MasterNode) (params : option Params)
    : res tier_cmd_error unit * list (string * RotateParamsRequest) :=
  let '(failures, sent) := tier1_loop (en_Name endpoint) params masters in
  (match failures with [] => Ok () | _ => Err (ErrTier1Failed failures) end, sent).

(** Every master is connected before anything is sent. *)
Fixpoint connect_all (masters : list MasterNode) (agents : gmap string (option agent))
    (failures : list (string * connect_error)) : gmap string (option agent) * list (string * connect_error) :=
  match masters with
  | [] => (agents, failures)
  | master :: masters =>
      match connectMasterAgent newClient configDir m master with
      | Err e => connect_all masters agents (failures ++ [(mn_Name master, e)])
      | Ok client => connect_all masters (<[mn_Name master := Some client]> agents) failures
      end
  end.
(** [shuffle] is the order in which Go walks the map and in which the answers
    arrive. *)
Definition executeTier2Rotation (shuffle : list (string * option agent) → list (string * option agent))
    (endpoint : EndpointNode) (masters : list MasterNode) (params : option Params)
    : res tier_cmd_error unit * list (string * RotateParamsRequest) :=
  let '(agents, failures) := connect_all masters ∅ [] in
  if negb (bool_decide (length failures = 0%nat)) then (Err (ErrTier2Connect failures), []) else
  let all := map_to_list agents in
  let '(r, sent) := Tier2_Execute (shuffle all) (shuffle all) true agents (en_Name endpoint) params in
  (wrap_err ErrTier2Execute r, sent).
End tiers.

(** The names in the order in which the connections are closed. *)
Definition closeMasterClients {A} (clients : gmap string A) : list string := sort_Strings (map_to_list clients).*1.

(** ** Tier 3: the key of an endpoint *)

(** The world a tier-3 rotation acts on: the disk with the administrator's key
    file, the private key of the endpoint's tunnel, the public key each master has
    for it, and the time. *)
Record cluster := MkCluster {
  cl_disk : disk; cl_endpoint : Key; cl_masters : gmap string Key; cl_now : Z
}.
Definition put_endpoint (k : Key) (w : cluster) : cluster := MkCluster (cl_disk w) k (cl_masters w) (cl_now w).
Definition put_master (name : string) (k : Key) (w : cluster) : cluster :=
  MkCluster (cl_disk w) (cl_endpoint w) (<[name := k]> (cl_masters w)) (cl_now w).
Definition put_disk (d : disk) (w : cluster) : cluster := MkCluster d (cl_endpoint w) (cl_masters w) (cl_now w).
Definition at_time (t : Z) (w : cluster) : cluster := MkCluster (cl_disk w) (cl_endpoint w) (cl_masters w) t.

(** One connection and the remote call on it: whether the client can be made, how
    long the call takes, whether the agent applies it, and the error it answers. *)
Record call := MkCall { ca_connect : option string; ca_takes : Z; ca_applies : bool; ca_error : option string }.

(** An agent that answers success has done the work, and time moves forward. *)
Definition honest (c : call) : Prop := 0 ≤ ca_takes c ∧ (ca_error c = None → ca_applies c = true).

Section tier3.
(** Curve25519, the command's configuration directory and the end of its context. *)
Context (PublicKey : Key → Key) (configDir : string) (deadline : Z).

(** A unary call under a context: past the deadline it fails without being sent; a
    call that would end later is abandoned at the deadline, applied or not. *)
Definition rpc (c : call) (effect : cluster → cluster) (w : cluster) : option string * cluster :=
  if deadline <=? cl_now w then (Some "context deadline exceeded", w) else
  let w' := if ca_applies c then effect w else w in
  let t := cl_now w + ca_takes c in
  if deadline <=? t then (Some "context deadline exceeded", at_time deadline w')
  else (ca_error c, at_time t w').

(** [connectMasterAgent] with the answer of [NewClient] for this connection. *)
Definition dial_master (c : call) (master : MasterNode) (w : cluster) : res connect_error unit :=
  connectMasterAgent (λ _, match ca_connect c with None => Ok () | Some err => Err err end) configDir
    (dk_files (cl_disk w)) master.
Definition dial_endpoint (c : call) (endpoint : EndpointNode) (w : cluster) : res connect_error unit :=
  connectEndpointAgent (λ _, match ca_connect c with None => Ok () | Some err => Err err end) configDir
    (dk_files (cl_disk w)) endpoint.

Inductive t3_detail := NoDetail | DetailConnect (e : connect_error) | DetailRPC (err : string)
  | DetailRevertConnect (e : connect_error) | DetailRevertRPC (err : string) | DetailInternal.
Record tier3MasterResult := MkT3Result { t3_name : string; t3_status : string; t3_detail_of : t3_detail }.

(** [UpdateTunnelPeer] sets the endpoint's key on a master. *)
Definition UpdateTunnelPeer (c : call) (master : MasterNode) (k : Key) : cluster → option string * cluster :=
  rpc c (put_master (mn_Name master) k).

(** Step 3: results in order, and the masters updated. *)
Fixpoint fan_out (fan : nat → call) (publicKey : Key) (i : nat) (masters : list MasterNode) (w : cluster)
    : list tier3MasterResult * list MasterNode * cluster :=
  match masters with
  | [] => ([], [], w)
  | master :: masters =>
      match dial_master (fan i) master w with
      | Err e =>
          let '(results, rotated, w) := fan_out fan publicKey (S i) masters w in
          (MkT3Result (mn_Name master) "FAILED" (DetailConnect e) :: results, rotated, w)
      | Ok _ =>
          let '(rpcErr, w) := UpdateTunnelPeer (fan i) master publicKey w in
          let '(results, rotated, w) := fan_out fan publicKey (S i) masters w in
          match rpcErr with
          | Some err => (MkT3Result (mn_Name master) "FAILED" (DetailRPC err) :: results, rotated, w)
          | None => (MkT3Result (mn_Name master) "ROTATED" NoDetail :: results, master :: rotated, w)
          end
      end
  end.

(** One turn of the rollback. *)
Definition revert_one (c : call) (oldKey : Key) (rotated : list MasterNode) (r : tier3MasterResult) (w : cluster)
    : tier3MasterResult * cluster :=
  if negb (bool_decide (t3_status r = "ROTATED")) then (r, w) else
  match List.find (λ m, bool_decide (mn_Name m = t3_name r)) rotated with
  | None => (MkT3Result (t3_name r) "REVERT_FAILED" DetailInternal, w)
  | Some master =>
      match dial_master c master w with
      | Err e => (MkT3Result (t3_name r) "REVERT_FAILED" (DetailRevertConnect e), w)
      | Ok _ =>
          match UpdateTunnelPeer c master oldKey w with
          | (Some err, w) => (MkT3Result (t3_name r) "REVERT_FAILED" (DetailRevertRPC err), w)
          | (None, w) => (MkT3Result (t3_name r) "REVERTED" NoDetail, w)
          end
      end
  end.
Fixpoint revert_all (revert : nat → call) (oldKey : Key) (rotated : list MasterNode) (i : nat)
    (results : list tier3MasterResult) (w : cluster) : list tier3MasterResult * cluster :=
  match results with
  | [] => ([], w)
  | r :: results =>
      let '(r, w) := revert_one (revert i) oldKey rotated r w in
      let '(results, w) := revert_all revert oldKey rotated (S i) results w in
      (r :: results, w)
  end.

Definition counts_as_failed (r : tier3MasterResult) : bool :=
  bool_decide (t3_status r = "FAILED") || bool_decide (t3_status r = "REVERT_FAILED").

Inductive t3_error :=
  | ErrT3Read (e : store_error)
  | ErrT3NotInitialised (name : string)
  | ErrT3Corrupt (name : string)
  | ErrT3KeyLength (name : string) (got : nat)
  | ErrT3Generate (e : key_error)
  | ErrT3Connect (e : connect_error)
  | ErrT3Keypair (name err : string)
  | ErrT3Mismatch (name : string)
  | ErrT3Partial (failCount : nat)
  | ErrT3Commit (e : store_error).

(** What the surroundings answer to one run. *)
Record t3_env := MkT3Env {
  te_readable : bool;
  te_rand : option (list ascii);
  te_endpoint : call;
  te_reply : list ascii;             (* [NewPublicKey] of the endpoint's answer *)
  te_fan : nat → call;
  te_revert : nat → call;
  te_commit : answers
}.

(** Steps 3 and 4: the masters, then the key file. *)
Definition rotate_masters (e : t3_env) (endpoint : EndpointNode) (masters : list MasterNode) (oldKey publicKey : Key)
    (w : cluster) : res t3_error unit * list tier3MasterResult * cluster :=
  let '(results, rotated, w) := fan_out (te_fan e) publicKey 0 masters w in
  if existsb (λ r, bool_decide (t3_status r = "FAILED")) results then
    let '(results, w) := revert_all (te_revert e) oldKey rotated 0 results w in
    (Err (ErrT3Partial (length (filter (λ r, counts_as_failed r = true) results))), results, w)
  else
    match SetPubkey (te_commit e) (NewStore configDir) (en_Name endpoint) (λ _, Ok (hex_encode publicKey)) (cl_disk w) with
    | (Err err, d) => (Err (ErrT3Commit err), results, put_disk d w)
    | (Ok _, d) => (Ok (), results, put_disk d w)
    end.

Definition executeTier3Rotation (e : t3_env) (endpoint : EndpointNode) (masters : list MasterNode) (w : cluster)
    : res t3_error unit * list tier3MasterResult * cluster :=
  match GetPubkey (te_readable e) (NewStore configDir) (en_Name endpoint) (cl_disk w) with
  | Err err => (Err (ErrT3Read err), [], w)
  | Ok oldPubKeyStr =>
  if bool_decide (TrimSpace oldPubKeyStr = "") then (Err (ErrT3NotInitialised (en_Name endpoint)), [], w) else
  match hex_decode (TrimSpace oldPubKeyStr) with
  | None => (Err (ErrT3Corrupt (en_Name endpoint)), [], w)
  | Some oldKey =>
  if negb (bool_decide (length oldKey = 32%nat)) then (Err (ErrT3KeyLength (en_Name endpoint) (length oldKey)), [], w) else
  match GeneratePrivateKey (te_rand e) with
  | Err err => (Err (ErrT3Generate err), [], w)
  | Ok privateKey =>
  let publicKey := PublicKey privateKey in
  match dial_endpoint (te_endpoint e) endpoint w with
  | Err err => (Err (ErrT3Connect err), [], w)
  | Ok _ =>
  match rpc (te_endpoint e) (put_endpoint privateKey) w with
  | (Some err, w) => (Err (ErrT3Keypair (en_Name endpoint) err), [], w)
  | (None, w) =>
  if negb (bool_decide (te_reply e = publicKey)) then (Err (ErrT3Mismatch (en_Name endpoint)), [], w) else
  rotate_masters e endpoint masters oldKey publicKey w
  end end end end end.

(** [printTier3Table]: the rows. *)
Definition tier3Rows (results : list tier3MasterResult) : list (string * string * t3_detail) :=
  (λ r, (t3_name r, t3_status r, t3_detail_of r)) <$> results.
End tier3.

(** ** The command *)

Inductive rotate_cmd_error :=
  | CmdOptions (e : option_error)
  | CmdMeshWide (e : mesh_error)
  | CmdLoadTopology
  | CmdResolve (e : resolve_error)
  | CmdParams (e : params_error)
  | CmdTier (e : tier_cmd_error)
  | CmdTier3 (e : t3_error)
  | CmdInvalidTier (tier : Z).

(** Everything a run is answered. [ce_topology] is [LoadTopology]'s result. *)
Record cmd_env := MkCmdEnv {
  ce_mesh : mesh_answers;
  ce_topology : option Topology;
  ce_newClient : ClientConfig → res string agent;
  ce_shuffle : list (string * option agent) → list (string * option agent);
  ce_tier3 : t3_env
}.

Definition runRotateCommand {G} (rs : rand_source G) (PublicKey : Key → Key) (e : cmd_env) (options : rotateOptions)
    (g : G) (w : cluster) : res rotate_cmd_error unit * cluster :=
  match validateRotateOptions options with
  | Err err => (Err (CmdOptions err), w)
  | Ok o =>
  let deadline := cl_now w + rotateCommandTimeout o in
  if op_meshWide o then (wrap_err CmdMeshWide (executeMeshWideRotation rs (ce_mesh e) (cl_now w) o g).1.1, w) else
  match ce_topology e with
  | None => (Err CmdLoadTopology, w)
  | Some topo =>
  match resolveRotationMasters (Some topo) (op_endpoint o) with
  | Err err => (Err (CmdResolve err), w)
  | Ok (endpoint, masters) =>
  if op_tier o =? 1 then
    match buildRotationParams rs (op_preset o) (op_familyName o) g with
    | Err err => (Err (CmdParams err), w)
    | Ok (params, _) =>
        (wrap_err CmdTier (executeTier1Rotation (ce_newClient e) (op_configDir o) (dk_files (cl_disk w)) endpoint masters (Some params)).1, w)
    end else
  if op_tier o =? 2 then
    match buildRotationParams rs (op_preset o) (op_familyName o) g with
    | Err err => (Err (CmdParams err), w)
    | Ok (params, _) =>
        (wrap_err CmdTier (executeTier2Rotation (ce_newClient e) (op_configDir o) (dk_files (cl_disk w)) (ce_shuffle e) endpoint masters (Some params)).1, w)
    end else
  if op_tier o =? 3 then
    let '(r, _, w) := executeTier3Rotation PublicKey (op_configDir o) deadline (ce_tier3 e) endpoint masters w in
    (wrap_err CmdTier3 r, w)
  else (Err (CmdInvalidTier (op_tier o)), w)
  end end end.

(** ** What one remote call can do *)

Section calls.
Context (PublicKey : Key → Key) (configDir : string) (deadline : Z).
Notation Update := (UpdateTunnelPeer deadline).

(** Nothing but the time and the key of some masters, each old or [k]. *)
Record spread (k : Key) (w w' : cluster) : Prop := MkSpread {
  sp_disk : cl_disk w' = cl_disk w;
  sp_endpoint : cl_endpoint w' = cl_endpoint w;
  sp_time : cl_now w ≤ cl_now w';
  sp_keys : ∀ n, cl_masters w' !! n = cl_masters w !! n ∨ cl_masters w' !! n = Some k
}.
#[global] Instance spread_refl k : Reflexive (spread k).
Proof. intros w. split; auto; lia. Qed.
#[global] Instance spread_trans k : Transitive (spread k).
Proof.
  intros w1 w2 w3 [H1 H2 H3 H4] [H5 H6 H7 H8]. split; [congruence..|lia|].
  intros n. destruct (H8 n) as [->|]; auto.
Qed.
Lemma spread_keeps k w w' n : spread k w w' → cl_masters w !! n = Some k → cl_masters w' !! n = Some k.
Proof. intros Hs Hn. destruct (sp_keys _ _ _ Hs n) as [->|]; auto. Qed.

Lemma update_spread c m k w : honest c → spread k w (Update c m k w).2.
Proof.
  intros [Ht _]. unfold UpdateTunnelPeer, rpc. case_match eqn:E1; [done|]. apply Z.leb_gt in E1.
  assert (∀ w', w' = (if ca_applies c then put_master (mn_Name m) k w else w) →
    ∀ t, cl_now w ≤ t → spread k w (at_time t w')) as H.
  { intros w' -> t Hle. destruct (ca_applies c); split; cbn; auto.
    intros n. destruct (decide (mn_Name m = n)) as [<-|]; [rewrite lookup_insert_eq|rewrite lookup_insert_ne]; auto. }
  destruct (deadline <=? cl_now w + ca_takes c); cbn [snd]; apply H; auto; lia.
Qed.
Lemma update_ok c m k w w' : honest c → Update c m k w = (None, w') → cl_masters w' !! mn_Name m = Some k.
Proof.
  intros [_ Hh]. unfold UpdateTunnelPeer, rpc. do 2 (case_match; [done|]). intros [= He <-].
  rewrite Hh by done. cbn. by rewrite lookup_insert_eq.
Qed.
Lemma update_late c m k w : deadline ≤ cl_now w → Update c m k w = (Some "context deadline exceeded", w).
Proof. intros H. unfold UpdateTunnelPeer, rpc. by rewrite (proj2 (Z.leb_le _ _)). Qed.
Lemma update_slow c m k w :
  0 ≤ ca_takes c → deadline ≤ cl_now w + ca_takes c → deadline ≤ cl_now (Update c m k w).2.
Proof.
  intros Hp H. unfold UpdateTunnelPeer, rpc. case_match eqn:E; [by apply Z.leb_le in E|].
  by rewrite (proj2 (Z.leb_le _ _)) by done.
Qed.
End calls.

(** ** The fan-out and the rollback *)

Section fan.
Context (PublicKey : Key → Key) (configDir : string) (deadline : Z).
Notation fan_out := (fan_out configDir deadline).
Notation revert_all := (revert_all configDir deadline).

(** A row of the table after the fan-out, in the world it leads to. *)
Definition fan_row (k : Key) (w' : cluster) (r : tier3MasterResult) : Prop :=
  t3_status r = "FAILED" ∨ t3_status r = "ROTATED" ∧ cl_masters w' !! t3_name r = Some k.

Lemma fan_row_later k w w' r : spread k w w' → fan_row k w r → fan_row k w' r.
Proof. intros Hs [?|[? ?]]; [by left|right]. split; [done|]. by eapply spread_keeps. Qed.

Lemma fan_out_spec fan k : (∀ i, honest (fan i)) → ∀ masters i w,
  let '(results, rotated, w') := fan_out fan k i masters w in
  spread k w w' ∧ t3_name <$> results = mn_Name <$> masters ∧ Forall (fan_row k w') results ∧
  (∀ n, n ∉ mn_Name <$> masters → cl_masters w' !! n = cl_masters w !! n).
Proof.
  intros Hf. induction masters as [|m masters IH]; intros i w; cbn [RotateCmd.fan_out]; [by split_and!|].
  destruct (dial_master _ _ _ _) as [_u|e].
  - destruct (UpdateTunnelPeer deadline (fan i) m k w) as [err w1] eqn:Hu.
    pose proof (update_spread deadline (fan i) m k w (Hf i)) as Hs. rewrite Hu in Hs. cbn [snd] in Hs.
    specialize (IH (S i) w1). destruct (fan_out fan k (S i) masters w1) as [[results rotated] w2].
    destruct IH as (H1 & H2 & H3 & H4).
    assert (∀ n, n ∉ mn_Name <$> m :: masters → cl_masters w2 !! n = cl_masters w !! n) as H5.
    { intros n [Hn Hns]%not_elem_of_cons. rewrite H4 by done. unfold UpdateTunnelPeer, rpc in Hu.
      repeat case_match; simplify_eq; cbn; try rewrite lookup_insert_ne by done; done. }
    destruct err as [err|]; (split_and!; [by etrans|by rewrite !fmap_cons, H2|constructor; [|done]|done]); [by left|].
    right. split; [done|]. eapply spread_keeps; [done|]. by eapply update_ok.
  - specialize (IH (S i) w). destruct (fan_out fan k (S i) masters w) as [[results rotated] w2].
    destruct IH as (H1 & H2 & H3 & H4). split_and!; [done|by rewrite !fmap_cons, H2|constructor; [by left|done]|].
    intros n [_ Hns]%not_elem_of_cons. auto.
Qed.

(** A row after the rollback. *)
Definition final_row (old : Key) (w' : cluster) (r : tier3MasterResult) : Prop :=
  t3_status r = "FAILED" ∨ t3_status r = "REVERT_FAILED" ∨
  t3_status r = "REVERTED" ∧ cl_masters w' !! t3_name r = Some old.

Lemma revert_one_spec c old rotated r w :
  honest c → let '(r', w') := revert_one configDir deadline c old rotated r w in
  spread old w w' ∧ t3_name r' = t3_name r ∧
  (∀ n, n ≠ t3_name r → cl_masters w' !! n = cl_masters w !! n) ∧
  (t3_status r = "ROTATED" → final_row old w' r') ∧ (t3_status r ≠ "ROTATED" → r' = r).
Proof.
  intros Hc. unfold revert_one. case_bool_decide as Hst; cbn [negb]; [|by split_and!].
  destruct (List.find _ rotated) as [m|] eqn:Hfind; [|split_and!; [done..|by right; left|done]].
  apply find_some in Hfind as [_ Hn]. apply bool_decide_eq_true in Hn.
  destruct (dial_master _ _ _ _); [|split_and!; [done..|by right; left|done]].
  pose proof (update_spread deadline c m old w Hc) as Hs.
  destruct (UpdateTunnelPeer deadline c m old w) as [err w1] eqn:Hu. cbn [snd] in Hs.
  assert (∀ n, n ≠ t3_name r → cl_masters w1 !! n = cl_masters w !! n) as Hother.
  { intros n Hne. unfold UpdateTunnelPeer, rpc in Hu.
    repeat case_match; simplify_eq; cbn; try rewrite lookup_insert_ne by congruence; done. }
  destruct err as [err|]; (split_and!; [done..| |done]); intros _; right; [by left|right].
  split; [done|]. cbn. rewrite <- Hn. by eapply update_ok.
Qed.

Lemma final_row_later old w w' r : spread old w w' → final_row old w r → final_row old w' r.
Proof. intros Hs [?|[?|[? ?]]]; [by left|by right; left|right; right]. split; [done|]. by eapply spread_keeps. Qed.

Lemma revert_all_spec revert old rotated : (∀ i, honest (revert i)) → ∀ results i w,
  Forall (λ r, t3_status r = "FAILED" ∨ t3_status r = "ROTATED") results →
  let '(results', w') := revert_all revert old rotated i results w in
  spread old w w' ∧ t3_name <$> results' = t3_name <$> results ∧ Forall (final_row old w') results' ∧
  (∀ n, n ∉ t3_name <$> results → cl_masters w' !! n = cl_masters w !! n).
Proof.
  intros Hr. induction results as [|r results IH]; intros i w Hrows; cbn [RotateCmd.revert_all]; [by split_and!|].
  apply Forall_cons in Hrows as [Hrow Hrows].
  pose proof (revert_one_spec (revert i) old rotated r w (Hr i)) as H.
  destruct (revert_one _ _ _ _ _ r w) as [r1 w1] eqn:E. destruct H as (H1 & H2 & H3 & H4 & H5).
  specialize (IH (S i) w1 Hrows). destruct (revert_all revert old rotated (S i) results w1) as [rs w2].
  destruct IH as (H6 & H7 & H8 & H9). split_and!.
  - by etrans.
  - by rewrite !fmap_cons, H2, H7.
  - constructor; [|done]. eapply final_row_later; [done|]. destruct Hrow as [Hrow|Hrow]; [|auto].
    rewrite H5 by congruence. by left.
  - intros n [Hn Hns]%not_elem_of_cons. rewrite H9 by done. by apply H3.
Qed.
End fan.

(** ** Tier 3: what a run leaves behind *)

(** The key file as the administrator reads it back. *)
Definition admin_key (configDir name : string) (w : cluster) : res store_error string :=
  GetPubkey true (NewStore configDir) name (cl_disk w).

(** How a run ended, in the world [w0] it started from and the world [w] it left. *)
Definition t3_outcome (configDir : string) (endpoint : EndpointNode) (masters : list MasterNode)
    (privateKey publicKey oldKey : Key) (w0 : cluster) (r : res t3_error unit) (rows : list tier3MasterResult)
    (w : cluster) : Prop :=
  match r with
  | Ok _ =>
      cl_endpoint w = privateKey ∧ (∀ m, m ∈ masters → cl_masters w !! mn_Name m = Some publicKey) ∧
      admin_key configDir (en_Name endpoint) w = Ok (hex_encode publicKey) ∧
      t3_name <$> rows = mn_Name <$> masters
  | Err (ErrT3Partial n) =>
      admin_key configDir (en_Name endpoint) w = admin_key configDir (en_Name endpoint) w0 ∧
      t3_name <$> rows = mn_Name <$> masters ∧ Forall (final_row oldKey w) rows ∧
      n = length (filter (λ r, counts_as_failed r = true) rows) ∧ (0 < n)%nat ∧
      (∀ i, cl_masters w !! i = cl_masters w0 !! i ∨ cl_masters w !! i = Some publicKey ∨ cl_masters w !! i = Some oldKey)
  | Err (ErrT3Commit _) =>
      admin_key configDir (en_Name endpoint) w = admin_key configDir (en_Name endpoint) w0 ∧
      (∀ m, m ∈ masters → cl_masters w !! mn_Name m = Some publicKey) ∧ t3_name <$> rows = mn_Name <$> masters
  | Err _ =>
      cl_disk w = cl_disk w0 ∧ cl_masters w = cl_masters w0 ∧ rows = []
  end.

Section outcome.
Context (PublicKey : Key → Key) (configDir : string) (deadline : Z).

Lemma fan_all_rotated k w masters results :
  existsb (λ r, bool_decide (t3_status r = "FAILED")) results = false →
  Forall (fan_row k w) results → t3_name <$> results = mn_Name <$> masters →
  ∀ m, m ∈ masters → cl_masters w !! mn_Name m = Some k.
Proof.
  intros Hex Hrows Hn m Hm. assert (mn_Name m ∈ t3_name <$> results) as Hin
    by (rewrite Hn; apply list_elem_of_fmap; eauto).
  apply list_elem_of_fmap in Hin as (r & Hname & Hr). rewrite Forall_forall in Hrows.
  destruct (Hrows r Hr) as [Hf|[_ Hk]]; [|by rewrite Hname].
  assert (existsb (λ r, bool_decide (t3_status r = "FAILED")) results = true) as Ht; [|congruence].
  apply existsb_exists. exists r. split; [by apply list_elem_of_In|by apply bool_decide_eq_true].
Qed.

Lemma failed_survives revert old rotated : ∀ results i w,
  existsb (λ r, bool_decide (t3_status r = "FAILED")) results = true →
  (0 < length (filter (λ r, counts_as_failed r = true) (revert_all configDir deadline revert old rotated i results w).1))%nat.
Proof.
  induction results as [|r results IH]; intros i w H; [done|]. cbn [revert_all existsb] in *.
  destruct (revert_one _ _ _ _ _ r w) as [r1 w1] eqn:E.
  specialize (IH (S i) w1). destruct (revert_all _ _ _ _ _ (S i) results w1) as [rs w2] eqn:E2. cbn [fst] in *.
  rewrite filter_cons. apply orb_true_iff in H as [H|H].
  - apply bool_decide_eq_true in H. unfold revert_one in E.
    rewrite (bool_decide_eq_false_2 (t3_status r = "ROTATED")) in E by congruence. cbn [negb] in E. simplify_eq.
    rewrite decide_True; [cbn; lia|]. unfold counts_as_failed. by rewrite (bool_decide_eq_true_2 _ H).
  - specialize (IH H). case_decide; cbn; lia.
Qed.

Lemma rotate_masters_spec e endpoint masters old k w :
  (∀ i, honest (te_fan e i)) → (∀ i, honest (te_revert e i)) →
  let '(r, rows, w') := rotate_masters configDir deadline e endpoint masters old k w in
  t3_outcome configDir endpoint masters (cl_endpoint w) k old w r rows w'.
Proof.
  intros Hf Hr. unfold rotate_masters. pose proof (fan_out_spec configDir deadline (te_fan e) k Hf masters 0 w) as H.
  destruct (fan_out _ _ _ _ _ _ _) as [[results rotated] w1]. destruct H as (Hs & Hn & Hrows & _).
  destruct (existsb _ results) eqn:Hex.
  - pose proof (revert_all_spec configDir deadline (te_revert e) old rotated Hr results 0 w1) as H.
    pose proof (failed_survives (te_revert e) old rotated results 0 w1 Hex) as Hpos.
    destruct (revert_all _ _ _ _ _ _ _ _) as [rows w2]. cbn [fst] in Hpos. destruct H as (Hs2 & Hn2 & Hfin & _).
    { eapply Forall_impl; [exact Hrows|]. intros r0 [?|[? _]]; auto. }
    cbn [t3_outcome]. unfold admin_key. rewrite (sp_disk _ _ _ Hs2), (sp_disk _ _ _ Hs).
    split_and!; [done|by rewrite Hn2|done..|]. intros i.
    destruct (sp_keys _ _ _ Hs2 i) as [->|]; [|auto]. destruct (sp_keys _ _ _ Hs i) as [->|]; auto.
  - pose proof (SetPubkey_run (te_commit e) (NewStore configDir) (en_Name endpoint) (λ _, Ok (hex_encode k)) (cl_disk w1)) as H.
    cbv zeta in H. destruct (SetPubkey _ _ _ _ _) as [r d]. destruct H as [(newKey & _ & Hnew) Hfile].
    pose proof (fan_all_rotated k w1 masters results Hex Hrows Hn) as Hall.
    destruct r as [key|err]; cbn [t3_outcome]; unfold admin_key, put_disk, GetPubkey; cbn [cl_disk cl_masters cl_endpoint negb].
    + destruct (Hnew key eq_refl) as (-> & _ & old' & _ & [= <-]). rewrite Hfile, hex_encode_line.
      split_and!; [apply (sp_endpoint _ _ _ Hs)|done|done|done].
    + by rewrite Hfile, (sp_disk _ _ _ Hs).
Qed.

Lemma tier3_run e endpoint masters w privateKey :
  honest (te_endpoint e) → (∀ i, honest (te_fan e i)) → (∀ i, honest (te_revert e i)) →
  GeneratePrivateKey (te_rand e) = Ok privateKey →
  let '(r, rows, w') := executeTier3Rotation PublicKey configDir deadline e endpoint masters w in
  ∃ oldKey, t3_outcome configDir endpoint masters privateKey (PublicKey privateKey) oldKey w r rows w' ∧
    (r = Ok () ∨ (∃ n, r = Err (ErrT3Partial n)) → length oldKey = 32%nat ∧
       admin_key configDir (en_Name endpoint) w ≠ Err (ErrReadPubkey (en_Name endpoint)) ∧
       ∃ s, admin_key configDir (en_Name endpoint) w = Ok s ∧ hex_decode (TrimSpace s) = Some oldKey).
Proof.
  intros He Hf Hr Hk. unfold executeTier3Rotation.
  destruct (GetPubkey _ _ _ _) as [s|err] eqn:Hg; [|exists []; split; [done|naive_solver]].
  case_bool_decide as Hempty; [exists []; split; [done|naive_solver]|].
  destruct (hex_decode _) as [old|] eqn:Hhex; [|exists []; split; [done|naive_solver]].
  case_bool_decide as Hlen; cbn [negb]; [|exists []; split; [done|naive_solver]]. rewrite Hk.
  destruct (dial_endpoint _ _ _ _); [|exists []; split; [done|naive_solver]].
  destruct (rpc deadline (te_endpoint e) (put_endpoint privateKey) w) as [[err|] w1] eqn:Hrpc.
  { exists []. split; [|naive_solver]. unfold rpc in Hrpc. repeat case_match; by simplify_eq. }
  assert (cl_disk w1 = cl_disk w ∧ cl_masters w1 = cl_masters w ∧ cl_endpoint w1 = privateKey) as (Hd & Hm & Hend).
  { destruct He as [_ He]. unfold rpc in Hrpc. do 2 (case_match; [done|]). injection Hrpc as Herr <-.
    by rewrite (He Herr). }
  case_bool_decide; cbn [negb]; [|exists []; split; [done|naive_solver]].
  pose proof (rotate_masters_spec e endpoint masters old (PublicKey privateKey) w1 Hf Hr) as H0.
  destruct (rotate_masters _ _ _ _ _ _ _ _) as [[r rows] w2]. exists old. split.
  - unfold t3_outcome, admin_key in *. rewrite Hd, Hm, Hend in H0. exact H0.
  - intros _. unfold admin_key. unfold GetPubkey in Hg |- *. destruct (te_readable e); [|done]. cbn [negb] in *.
    split_and!; [done| |by exists s]. by destruct (_ !! _).
Qed.
End outcome.

(** C6. Outcome of a tier-3 key rotation, whatever each agent and the disk answer and
    wherever the deadline falls. On success the endpoint holds the new private key,
    every master its public key, and the administrator's key file reads back as that
    key. When some master could not be updated the run reports it: the key file is
    unchanged, the table has one row per master in order, every row marked REVERTED
    is a master that holds the key of the key file again, the number reported counts
    the others, and no master holds anything but its previous key, the new one or
    that of the key file. If only the final commit fails, all masters have the new
    key and the file is unchanged; on every earlier error neither the masters nor
    the disk were touched. *)
Theorem tier3_rotation PublicKey configDir deadline e endpoint masters w privateKey :
  honest (te_endpoint e) → (∀ i, honest (te_fan e i)) → (∀ i, honest (te_revert e i)) →
  GeneratePrivateKey (te_rand e) = Ok privateKey →
  let '(r, rows, w') := executeTier3Rotation PublicKey configDir deadline e endpoint masters w in
  ∃ oldKey, t3_outcome configDir endpoint masters privateKey (PublicKey privateKey) oldKey w r rows w' ∧
    (r = Ok () ∨ (∃ n, r = Err (ErrT3Partial n)) →
       ∃ s, admin_key configDir (en_Name endpoint) w = Ok s ∧ parseHexKey s = Ok oldKey).
Proof.
  intros He Hf Hr Hk. pose proof (tier3_run PublicKey configDir deadline e endpoint masters w privateKey He Hf Hr Hk) as H.
  destruct (executeTier3Rotation _ _ _ _ _ _ _) as [[r rows] w']. destruct H as (old & Ho & H).
  exists old. split; [done|]. intros Hcase. destruct (H Hcase) as (Hlen & _ & s & Hs & Hhex).
  exists s. split; [done|]. unfold parseHexKey. rewrite Hhex. by apply NewKey_ok.
Qed.

(** *** A run with three masters *)

Definition ok_call : call := MkCall None 1 true None.
Definition down_call : call := MkCall None 1 false (Some "unavailable").
Definition hanging_call : call := MkCall None (60 * Second) false (Some "unavailable").
Definition sample_endpoint : EndpointNode := MkEndpointNode "de-1" "203.0.113.7" "" "10.99.0.7" 51820 0 "eu".
Definition sample_master (name : string) : MasterNode := MkMasterNode name "198.51.100.1" "" "10.99.0.1" 51820 0 ["de-1"] false.
Definition sample_masters : list MasterNode := sample_master <$> ["m1"; "m2"; "m3"].
Definition old_key : Key := replicate 32 "001"%char.
Definition sample_disk : disk :=
  MkDisk (<["/c/nodes/de-1/pubkey" := hex_encode old_key +:+ String "010" ""]>
    (list_to_map ((λ n, ("/c/nodes/" +:+ n +:+ "/token", "t")) <$> ["de-1"; "m1"; "m2"; "m3"]))) [].
Definition sample_cluster : cluster :=
  MkCluster sample_disk old_key (list_to_map ((λ m, (mn_Name m, old_key)) <$> sample_masters)) 0.
(** Any function stands for Curve25519 here. *)
Definition flip_key (k : Key) : Key := reverse k.
Definition sample_env (fan : nat → call) : t3_env :=
  MkT3Env true (Some sample_key) ok_call (flip_key (clamp sample_key)) fan (λ _, ok_call) all_well.

Lemma tier3_rotation_witness :
  (** all answer *)
  (let '(r, rows, w) := executeTier3Rotation flip_key "/c" rotateTimeout (sample_env (λ _, ok_call)) sample_endpoint
     sample_masters sample_cluster in
   r = Ok () ∧ cl_masters w !! "m3" = Some (flip_key (clamp sample_key))) ∧
  (** the second master is down *)
  (let '(r, rows, w) := executeTier3Rotation flip_key "/c" rotateTimeout
     (sample_env (λ i, if bool_decide (i = 1%nat) then down_call else ok_call)) sample_endpoint sample_masters sample_cluster in
   r = Err (ErrT3Partial 1) ∧ t3_status <$> rows = ["REVERTED"; "FAILED"; "REVERTED"] ∧
   cl_masters w !! "m1" = Some old_key).
Proof.
  split.
  - pose proof (tier3_rotation flip_key "/c" rotateTimeout (sample_env (λ _, ok_call)) sample_endpoint sample_masters
      sample_cluster (clamp sample_key)) as H.
    destruct (executeTier3Rotation _ _ _ (sample_env (λ _, ok_call)) _ _ _) as [[r rows] w] eqn:E.
    assert (r = Ok ()) as -> by (apply (f_equal (λ x, x.1.1)) in E; cbn [fst] in E; rewrite <- E; by vm_compute).
    destruct H as (old & (_ & Hall & _) & _); [split; cbn; [lia|done]|intros i; split; cbn; [lia|done]..|done|].
    split; [done|]. apply (Hall (sample_master "m3")). apply list_elem_of_fmap. exists "m3". split; [done|].
    by apply (bool_decide_unpack _); vm_compute.
  - by vm_compute.
Defined.

(** ** The rollback shares the deadline *)

Section late.
Context (configDir : string) (deadline : Z).

Lemma dial_master_disk c m w w' : cl_disk w' = cl_disk w → dial_master configDir c m w' = dial_master configDir c m w.
Proof. unfold dial_master. by intros ->. Qed.

Lemma fan_out_late fan k : (∀ i, honest (fan i)) → ∀ masters i w j m,
  masters !! j = Some m → dial_master configDir (fan (i + j)%nat) m w = Ok () →
  deadline ≤ cl_now w + ca_takes (fan (i + j)%nat) →
  let '(results, _, w') := fan_out configDir deadline fan k i masters w in
  deadline ≤ cl_now w' ∧ existsb (λ r, bool_decide (t3_status r = "FAILED")) results = true.
Proof.
  intros Hf. induction masters as [|m0 masters IH]; intros i w [|j] m Hm Hd Hslow; [done..| |]; cbn [fan_out].
  - injection Hm as ->. rewrite Nat.add_0_r in *. rewrite Hd.
    pose proof (update_slow deadline (fan i) m k w (proj1 (Hf i)) Hslow) as Hlate.
    destruct (UpdateTunnelPeer deadline (fan i) m k w) as [err w1] eqn:Hu. cbn [snd] in Hlate.
    pose proof (fan_out_spec configDir deadline fan k Hf masters (S i) w1) as Hs.
    destruct (fan_out _ _ _ _ (S i) masters w1) as [[results rotated] w2]. destruct Hs as (Hs & _).
    pose proof (sp_time _ _ _ Hs). destruct err as [err|]; [split; [lia|done]|].
    unfold UpdateTunnelPeer, rpc in Hu. do 2 (case_match; [done|]). simplify_eq. cbn in *.
    rewrite Z.leb_gt in *. lia.
  - rewrite Nat.add_succ_r in *. change (S (i + j)) with (S i + j)%nat in *. cbn in Hm.
    destruct (dial_master _ (fan i) m0 w) as [_u|e].
    + pose proof (update_spread deadline (fan i) m0 k w (Hf i)) as Hs.
      destruct (UpdateTunnelPeer deadline (fan i) m0 k w) as [err w1]. cbn [snd] in Hs.
      specialize (IH (S i) w1 j m Hm). destruct (fan_out _ _ _ _ (S i) masters w1) as [[results rotated] w2].
      destruct IH as [H1 H2]; [by rewrite (dial_master_disk _ _ w) by apply (sp_disk _ _ _ Hs)
        |pose proof (sp_time _ _ _ Hs); lia|].
      destruct err; split; auto.
    + specialize (IH (S i) w j m Hm Hd Hslow). destruct (fan_out _ _ _ _ (S i) masters w) as [[results rotated] w2].
      destruct IH. split; auto.
Qed.

Lemma revert_all_late revert old rotated : ∀ results i w,
  deadline ≤ cl_now w → Forall (λ r, t3_status r = "FAILED" ∨ t3_status r = "ROTATED") results →
  let '(rows, w') := revert_all configDir deadline revert old rotated i results w in
  w' = w ∧ length rows = length results ∧ Forall (λ r, counts_as_failed r = true) rows.
Proof.
  induction results as [|r results IH]; intros i w Hl Hst; cbn [revert_all]; [done|].
  apply Forall_cons in Hst as [Hr Hst].
  assert (∃ r1, revert_one configDir deadline (revert i) old rotated r w = (r1, w) ∧ counts_as_failed r1 = true) as (r1 & -> & H1).
  { unfold revert_one. case_bool_decide as Hrot; cbn [negb].
    - destruct (List.find _ _); [|by eexists]. destruct (dial_master _ _ _ _); [|by eexists].
      rewrite update_late by done. by eexists.
    - exists r. split; [done|]. unfold counts_as_failed. destruct Hr as [->|]; done. }
  specialize (IH (S i) w Hl Hst). destruct (revert_all _ _ _ _ _ (S i) results w) as [rows w2].
  destruct IH as (-> & Hlen & Hc). cbn. auto.
Qed.

Lemma hang_run e endpoint masters old k w j m :
  (∀ i, honest (te_fan e i)) →
  masters !! j = Some m → dial_master configDir (te_fan e j) m w = Ok () →
  deadline ≤ cl_now w + ca_takes (te_fan e j) →
  let '(results, _, w1) := fan_out configDir deadline (te_fan e) k 0 masters w in
  let '(r, rows, w') := rotate_masters configDir deadline e endpoint masters old k w in
  r = Err (ErrT3Partial (length masters)) ∧ w' = w1 ∧ cl_disk w' = cl_disk w ∧
  Forall (λ row, t3_status row = "ROTATED" → cl_masters w' !! t3_name row = Some k) results.
Proof.
  intros Hf Hm Hd Hslow. unfold rotate_masters.
  pose proof (fan_out_late (te_fan e) k Hf masters 0 w j m Hm Hd Hslow) as Hl.
  pose proof (fan_out_spec configDir deadline (te_fan e) k Hf masters 0 w) as Hs.
  destruct (fan_out _ _ _ _ 0 masters w) as [[results rotated] w1]. destruct Hl as [Hl Hex], Hs as (Hsp & Hn & Hrows & _).
  rewrite Hex. pose proof (revert_all_late (te_revert e) old rotated results 0 w1 Hl) as H.
  destruct (revert_all _ _ _ _ _ _ _ _) as [rows w2]. destruct H as (-> & Hlen & Hc).
  { eapply Forall_impl; [exact Hrows|]. intros r0 [?|[? _]]; auto. }
  assert (filter (λ r, counts_as_failed r = true) rows = rows) as ->.
  { clear -Hc. induction Hc as [|r rows Hr _ IH]; [done|]. rewrite filter_cons, decide_True, IH; done. }
  split_and!; [|done|apply (sp_disk _ _ _ Hsp)|].
  - do 2 f_equal. rewrite Hlen, <- (length_fmap t3_name), Hn. apply length_fmap.
  - eapply Forall_impl; [exact Hrows|]. intros r0 [?|[_ ?]] ?; [congruence|done].
Qed.
End late.

(** One master that hangs until the command's deadline makes the rollback
    impossible: the reverting calls run under the same, then expired, context, so
    none of them is sent; every master is reported failed, and each master that had
    been updated keeps the new key while the key file keeps the old one. *)
Theorem tier3_hang_blocks_rollback configDir deadline e endpoint masters old k w j m :
  (∀ i, honest (te_fan e i)) →
  masters !! j = Some m → dial_master configDir (te_fan e j) m w = Ok () →
  deadline ≤ cl_now w + ca_takes (te_fan e j) →
  let '(results, _, w1) := fan_out configDir deadline (te_fan e) k 0 masters w in
  let '(r, rows, w') := rotate_masters configDir deadline e endpoint masters old k w in
  r = Err (ErrT3Partial (length masters)) ∧ w' = w1 ∧ cl_disk w' = cl_disk w ∧
  Forall (λ row, t3_status row = "ROTATED" → cl_masters w' !! t3_name row = Some k) results.
Proof. apply hang_run. Qed.

Definition third_hangs (i : nat) : call := if bool_decide (i = 2%nat) then hanging_call else ok_call.

Lemma tier3_hang_blocks_rollback_witness :
  let '(r, rows, w) := rotate_masters "/c" rotateTimeout (sample_env third_hangs) sample_endpoint sample_masters old_key
    (flip_key (clamp sample_key)) sample_cluster in
  r = Err (ErrT3Partial 3) ∧ cl_masters w !! "m1" = Some (flip_key (clamp sample_key)) ∧
  t3_status <$> rows = ["REVERT_FAILED"; "REVERT_FAILED"; "FAILED"].
Proof.
  pose proof (tier3_hang_blocks_rollback "/c" rotateTimeout (sample_env third_hangs) sample_endpoint sample_masters old_key
    (flip_key (clamp sample_key)) sample_cluster 2 (sample_master "m3")) as H.
  destruct (fan_out _ _ _ _ _ _ _) as [[results rotated] w1] eqn:E1.
  destruct (rotate_masters _ _ _ _ _ _ _ _) as [[r rows] w'] eqn:E2.
  destruct H as (Hr & _); [|done|by vm_compute|by vm_compute|].
  { intros i. unfold sample_env, third_hangs. cbn [te_fan]. case_bool_decide; (split; [apply Z.leb_le; by vm_compute|by intros ?]). }
  split; [exact Hr|]. assert (rows = (rotate_masters "/c" rotateTimeout (sample_env third_hangs) sample_endpoint
    sample_masters old_key (flip_key (clamp sample_key)) sample_cluster).1.2 ∧
    w' = (rotate_masters "/c" rotateTimeout (sample_env third_hangs) sample_endpoint
    sample_masters old_key (flip_key (clamp sample_key)) sample_cluster).2) as [-> ->] by (by rewrite E2).
  by vm_compute.
Defined.

(** A call that took effect but whose answer was lost: the master is reported as
    FAILED, which the table's legend explains as never rotated, is not reverted, and
    holds the new key. *)
Lemma tier3_failed_but_rotated :
  let lost := MkCall None 1 true (Some "connection reset") in
  let '(r, rows, w) := rotate_masters "/c" rotateTimeout
    (sample_env (λ i, if bool_decide (i = 1%nat) then lost else ok_call)) sample_endpoint sample_masters old_key
    (flip_key (clamp sample_key)) sample_cluster in
  t3_status <$> rows = ["REVERTED"; "FAILED"; "REVERTED"] ∧ cl_masters w !! "m2" = Some (flip_key (clamp sample_key)).
Proof. by vm_compute. Qed.
