(* ===== verification/Nft.v ===== *)
(** * nftables: rules, transactions and what rules do

    What the sources use of the Go library [github.com/google/nftables] and of the
    kernel behind it: expressions are built as values, changes are queued on a
    connection and [Flush] commits them as one transaction, rules are listed and
    deleted by handle. The kernel's answers (whether a flush or a listing works, and
    whether the library forgets a batch that failed) are arguments. [run_rule] is the
    documented meaning of the expressions on a packet: a rule loads header fields
    into registers, compares, and stops at the first comparison that fails. One
    simplification: adding a chain that exists is accepted whatever its attributes,
    where the kernel refuses different ones; the sources always add their chains with
    the same attributes. *)

From S2P Require Import Prelude GoStrings GoNet GoText.

(** ** Expressions *)

Inductive meta_key := MetaKeyOIFNAME | MetaKeyL4PROTO | MetaKeyMARK.
Inductive ct_key := CtKeySTATE | CtKeyMARK.
Inductive payload_base := PayloadBaseNetworkHeader | PayloadBaseTransportHeader.
#[global] Instance meta_key_dec : EqDecision meta_key.
Proof. solve_decision. Defined.
#[global] Instance ct_key_dec : EqDecision ct_key.
Proof. solve_decision. Defined.
#[global] Instance payload_base_dec : EqDecision payload_base.
Proof. solve_decision. Defined.

(** Bytes are integers from 0 to 255. [source] says that the register is written
    to the key, not loaded from it. *)
Inductive expr :=
  | Meta (key : meta_key) (source : bool) (reg : Z)
  | Cmp (eq : bool) (reg : Z) (data : list Z)
  | Payload (reg : Z) (base : payload_base) (offset len : nat)
  | Bitwise (src dst : Z) (len : nat) (mask xor : list Z)
  | Immediate (reg : Z) (data : list Z)
  | Ct (key : ct_key) (source : bool) (reg : Z)
  | ExthdrLoad (dst : Z) (type offset len : Z)      (* a TCP option into a register *)
  | ExthdrStore (src : Z) (type offset len : Z)     (* a register into a TCP option *)
  | RtTCPMSS (reg : Z)
  | Masq.
#[global] Instance expr_dec : EqDecision expr.
Proof. solve_decision. Defined.

(** [encodeUint32]: little-endian (dscp.go). *)
Definition encodeUint32 (v : Z) : list Z :=
  [Z.land v 255; Z.land (Z.shiftr v 8) 255; Z.land (Z.shiftr v 16) 255; Z.land (Z.shiftr v 24) 255].
Definition decodeUint32 (l : list Z) : Z := be_val (reverse l).

(** ** Tables, chains, rules *)

Inductive hook := HookPrerouting | HookForward | HookPostrouting.
Inductive chain_type := ChainTypeFilter | ChainTypeNAT.
Record chain := MkChain { ch_Name : string; ch_Type : chain_type; ch_Hook : hook; ch_Priority : Z }.

Record rule := MkRule { ru_Handle : nat; ru_Exprs : list expr }.
#[global] Instance rule_dec : EqDecision rule.
Proof. solve_decision. Defined.

(** A chain in the kernel: its declaration and its rules in order. *)
Record kchain := MkKchain { kc_chain : chain; kc_rules : list rule }.
(** The IPv4 tables by name, each with its chains in order of creation; handles
    are never used twice. *)
Record kernel := MkKernel { ke_tables : gmap string (list kchain); ke_next : nat }.

Definition named (n : string) (c : kchain) : bool := bool_decide (ch_Name (kc_chain c) = n).

Inductive msg :=
  | AddTable (table : string)
  | AddChain (table : string) (c : chain)
  | AddRule (table chain : string) (es : list expr)
  | DelTable (table : string)
  | DelRule (table chain : string) (handle : nat).

(** Adding a table or a chain that exists changes nothing; a message about
    something that does not exist fails. *)
Definition apply_msg (m : msg) (k : kernel) : option kernel :=
  match m with
  | AddTable t =>
      match ke_tables k !! t with
      | Some _ => Some k
      | None => Some (MkKernel (<[t := []]> (ke_tables k)) (ke_next k))
      end
  | AddChain t c =>
      match ke_tables k !! t with
      | None => None
      | Some cs =>
          if existsb (named (ch_Name c)) cs then Some k
          else Some (MkKernel (<[t := cs ++ [MkKchain c []]]> (ke_tables k)) (ke_next k))
      end
  | AddRule t n es =>
      match ke_tables k !! t with
      | None => None
      | Some cs =>
          if existsb (named n) cs then
            Some (MkKernel (<[t := (λ c, if named n c then MkKchain (kc_chain c) (kc_rules c ++ [MkRule (ke_next k) es]) else c)
                                     <$> cs]> (ke_tables k)) (S (ke_next k)))
          else None
      end
  | DelTable t =>
      match ke_tables k !! t with
      | None => None
      | Some _ => Some (MkKernel (delete t (ke_tables k)) (ke_next k))
      end
  | DelRule t n h =>
      match ke_tables k !! t with
      | None => None
      | Some cs =>
          Some (MkKernel (<[t := (λ c, if named n c
                                       then MkKchain (kc_chain c) (filter (λ r, ru_Handle r ≠ h) (kc_rules c)) else c)
                                   <$> cs]> (ke_tables k)) (ke_next k))
      end
  end.

(** A batch is a transaction. *)
Fixpoint commit (ms : list msg) (k : kernel) : option kernel :=
  match ms with
  | [] => Some k
  | m :: ms => k ← apply_msg m k; commit ms k
  end.

Inductive errno := ENOENT | EOTHER.

(** What a flush leaves queued when it failed is the library's business: [keeps]. *)
Definition Flush (keeps ok : bool) (pending : list msg) (k : kernel) : res errno unit * list msg * kernel :=
  if negb ok then (Err EOTHER, if keeps then pending else [], k) else
  match commit pending k with
  | Some k => (Ok (), [], k)
  | None => (Err ENOENT, if keeps then pending else [], k)
  end.

(** The rules of a chain; [None] for the errors. *)
Definition GetRules (ok : bool) (table chain : string) (k : kernel) : option (list rule) :=
  if negb ok then None else
  cs ← ke_tables k !! table; kc_rules <$> List.find (named chain) cs.

(** ** Meaning *)

Record packet := MkPacket {
  pk_network : list Z;        (* IPv4 header *)
  pk_transport : list Z;      (* transport header *)
  pk_l4proto : Z;
  pk_oifname : list Z;        (* 16 bytes, padded with zeros *)
  pk_mark : Z;
  pk_ctstate : Z;             (* INVALID 1, ESTABLISHED 2, RELATED 4, NEW 8 *)
  pk_ctmark : Z;
  pk_mss : option Z;          (* the MSS option of a TCP segment *)
  pk_pathmss : Z;             (* the MSS that fits the path *)
  pk_masqueraded : bool
}.

Notation regs := (Z → list Z) (only parsing).
Definition set_reg (r : Z) (v : list Z) (g : regs) : regs := λ x, if x =? r then v else g x.

Definition with_mark (v : Z) (p : packet) : packet :=
  MkPacket (pk_network p) (pk_transport p) (pk_l4proto p) (pk_oifname p) v (pk_ctstate p) (pk_ctmark p)
    (pk_mss p) (pk_pathmss p) (pk_masqueraded p).
Definition with_ctmark (v : Z) (p : packet) : packet :=
  MkPacket (pk_network p) (pk_transport p) (pk_l4proto p) (pk_oifname p) (pk_mark p) (pk_ctstate p) v
    (pk_mss p) (pk_pathmss p) (pk_masqueraded p).
Definition with_mss (v : option Z) (p : packet) : packet :=
  MkPacket (pk_network p) (pk_transport p) (pk_l4proto p) (pk_oifname p) (pk_mark p) (pk_ctstate p) (pk_ctmark p)
    v (pk_pathmss p) (pk_masqueraded p).
Definition masqueraded (p : packet) : packet :=
  MkPacket (pk_network p) (pk_transport p) (pk_l4proto p) (pk_oifname p) (pk_mark p) (pk_ctstate p) (pk_ctmark p)
    (pk_mss p) (pk_pathmss p) true.

Definition header (b : payload_base) (p : packet) : list Z :=
  match b with PayloadBaseNetworkHeader => pk_network p | PayloadBaseTransportHeader => pk_transport p end.

(** One expression: [None] when the rule stops matching. Values of 32 bits are in
    native (little-endian) order, the TCP option in network order; the kernel never
    raises an MSS. *)
Definition run_expr (e : expr) (g : regs) (p : packet) : option (regs * packet) :=
  match e with
  | Meta MetaKeyOIFNAME _ r => Some (set_reg r (pk_oifname p) g, p)
  | Meta MetaKeyL4PROTO _ r => Some (set_reg r [pk_l4proto p] g, p)
  | Meta MetaKeyMARK false r => Some (set_reg r (encodeUint32 (pk_mark p)) g, p)
  | Meta MetaKeyMARK true r => Some (g, with_mark (decodeUint32 (g r)) p)
  | Cmp eq r data => if Bool.eqb (bool_decide (g r = data)) eq then Some (g, p) else None
  | Payload r b off len =>
      let bytes := take len (drop off (header b p)) in
      if bool_decide (length bytes = len) then Some (set_reg r bytes g, p) else None
  | Bitwise src dst len mask xor =>
      Some (set_reg dst (zip_with Z.lxor (zip_with Z.land (take len (g src)) mask) xor) g, p)
  | Immediate r data => Some (set_reg r data g, p)
  | Ct CtKeySTATE _ r => Some (set_reg r (encodeUint32 (pk_ctstate p)) g, p)
  | Ct CtKeyMARK false r => Some (set_reg r (encodeUint32 (pk_ctmark p)) g, p)
  | Ct CtKeyMARK true r => Some (g, with_ctmark (decodeUint32 (g r)) p)
  | ExthdrLoad dst _ _ _ => mss ← pk_mss p; Some (set_reg dst (octets 2 mss) g, p)
  | ExthdrStore src _ _ _ => mss ← pk_mss p; Some (g, with_mss (Some (Z.min mss (be_val (g src)))) p)
  | RtTCPMSS r => Some (set_reg r (octets 2 (pk_pathmss p)) g, p)
  | Masq => Some (g, masqueraded p)
  end.

Fixpoint run_exprs (es : list expr) (g : regs) (p : packet) : option packet :=
  match es with
  | [] => Some p
  | e :: es => '(g, p) ← run_expr e g p; run_exprs es g p
  end.
Definition no_regs : regs := λ _, [].

(** A rule leaves a packet it does not match alone. The effects of a rule whose
    later comparison fails do not occur in the rules of the sources: every
    comparison comes before the first effect. *)
Definition run_rule (es : list expr) (p : packet) : packet := default p (run_exprs es no_regs p).
Definition run_rules (rs : list rule) (p : packet) : packet := foldl (λ p r, run_rule (ru_Exprs r) p) p rs.

(** ** The 32-bit encoding *)

Lemma encode_decode v : 0 ≤ v < 2 ^ 32 → decodeUint32 (encodeUint32 v) = v.
Proof.
  intros H. assert (encodeUint32 v = reverse (octets 4 v)) as ->.
  { unfold encodeUint32, octets. cbn [reverse]. rewrite !(Z.land_ones _ 8) by lia.
    rewrite !Z.shiftr_div_pow2 by lia. change (Z.of_nat 3) with 3. change (Z.of_nat 2) with 2.
    change (Z.of_nat 1) with 1. change (Z.of_nat 0) with 0. rewrite Z.pow_0_r, Z.div_1_r. reflexivity. }
  unfold decodeUint32. rewrite reverse_involutive, be_val_octets. apply Z.mod_small. exact H.
Qed.

Lemma encode_length v : length (encodeUint32 v) = 4%nat.
Proof. done. Qed.

Lemma set_reg_eq r v g : set_reg r v g r = v.
Proof. unfold set_reg. by rewrite Z.eqb_refl. Qed.
Lemma set_reg_ne r r' v g : r' ≠ r → set_reg r v g r' = g r'.
Proof. unfold set_reg. intros H. by rewrite (proj2 (Z.eqb_neq _ _) H). Qed.
#[export] Hint Rewrite set_reg_eq : nft.

(** ** The rules of a chain after each message *)

Definition rules_of (k : kernel) (t n : string) : list rule := default [] (GetRules true t n k).
Definition has_chain (k : kernel) (t n : string) : Prop :=
  ∃ cs, ke_tables k !! t = Some cs ∧ existsb (named n) cs = true.

Lemma has_chain_em k t n : has_chain k t n ∨ ¬ has_chain k t n.
Proof.
  unfold has_chain. destruct (ke_tables k !! t) as [cs'|]; [|right; intros (? & ? & ?); congruence].
  destruct (existsb (named n) cs') eqn:X; [left; eauto|right; intros (? & ? & ?); congruence].
Qed.

Lemma rules_of_eq k t n :
  rules_of k t n = default [] (cs ← ke_tables k !! t; kc_rules <$> List.find (named n) cs).
Proof. done. Qed.

Lemma named_ne n n' c : named n c = true → n' ≠ n → named n' c = false.
Proof. unfold named. intros H%bool_decide_eq_true Hn. apply bool_decide_eq_false. congruence. Qed.

Lemma find_fmap (f : kchain → kchain) n cs :
  (∀ c, named n (f c) = named n c) → List.find (named n) (f <$> cs) = f <$> List.find (named n) cs.
Proof. intros Hf. induction cs as [|c cs IH]; [done|]. simpl. rewrite Hf. by destruct (named n c). Qed.
Lemma find_named n cs c : List.find (named n) cs = Some c → named n c = true.
Proof. intros H. by apply find_some in H as [_ ?]. Qed.
Lemma find_existsb n cs : existsb (named n) cs = bool_decide (is_Some (List.find (named n) cs)).
Proof.
  induction cs as [|c cs IH]; cbn [existsb List.find]; [done|]. destruct (named n c); cbn [orb]; [|done].
  symmetry. apply bool_decide_eq_true_2. eauto.
Qed.
Lemma find_snoc n cs c :
  List.find (named n) (cs ++ [c]) =
    match List.find (named n) cs with Some x => Some x | None => if named n c then Some c else None end.
Proof. induction cs as [|x cs IH]; simpl; [done|]. by destruct (named n x). Qed.

(** A function on the chains named [n] that keeps the declarations. *)
Definition on_chain (n : string) (f : list rule → list rule) (c : kchain) : kchain :=
  if named n c then MkKchain (kc_chain c) (f (kc_rules c)) else c.
Lemma named_on_chain n n' f c : named n' (on_chain n f c) = named n' c.
Proof. unfold on_chain. by destruct (named n c). Qed.

Lemma rules_on_chain n f n' cs :
  kc_rules <$> List.find (named n') (on_chain n f <$> cs) =
  (if bool_decide (n' = n) then f else id) <$> (kc_rules <$> List.find (named n') cs).
Proof.
  rewrite find_fmap by (intros; apply named_on_chain). destruct (List.find (named n') cs) as [c|] eqn:E; [|done].
  simpl. apply find_named in E. unfold on_chain. case_bool_decide as Hn; [subst; by rewrite E|].
  by rewrite (named_ne n' n c E) by congruence.
Qed.

Lemma AddTable_spec t k : ∃ k', apply_msg (AddTable t) k = Some k' ∧ is_Some (ke_tables k' !! t) ∧
  (∀ t', is_Some (ke_tables k !! t') → is_Some (ke_tables k' !! t')) ∧
  (∀ t' n, rules_of k' t' n = rules_of k t' n) ∧ ke_next k' = ke_next k.
Proof.
  unfold apply_msg. destruct (ke_tables k !! t) as [cs|] eqn:E; [exists k; split_and!; eauto|].
  eexists. split; [done|]. cbn [ke_tables ke_next]. split_and!; [rewrite lookup_insert_eq; eauto| | |done].
  - intros t' Ht'. destruct (decide (t = t')) as [<-|]; [rewrite lookup_insert_eq; eauto|by rewrite lookup_insert_ne].
  - intros t' n. rewrite !rules_of_eq. cbn [ke_tables].
    destruct (decide (t = t')) as [<-|]; [by rewrite lookup_insert_eq, E|by rewrite lookup_insert_ne].
Qed.

Lemma AddChain_spec t c k : is_Some (ke_tables k !! t) → ∃ k', apply_msg (AddChain t c) k = Some k' ∧
  has_chain k' t (ch_Name c) ∧ (∀ t' n, has_chain k t' n → has_chain k' t' n) ∧
  (∀ t' n, rules_of k' t' n = rules_of k t' n) ∧ ke_next k' = ke_next k.
Proof.
  intros [cs E]. unfold apply_msg. rewrite E. destruct (existsb (named (ch_Name c)) cs) eqn:Hex.
  { exists k. split_and!; eauto. by exists cs. }
  eexists. split; [done|]. cbn [ke_tables ke_next]. split_and!; [| | |done].
  - exists (cs ++ [MkKchain c []]). cbn [ke_tables]. rewrite lookup_insert_eq, existsb_app. split; [done|].
    simpl. unfold named at 2. cbn. rewrite (bool_decide_eq_true_2 (ch_Name c = ch_Name c)) by done. by rewrite orb_true_r.
  - intros t' n (cs' & Hcs & Hn). destruct (decide (t = t')) as [<-|].
    + exists (cs ++ [MkKchain c []]). cbn [ke_tables]. rewrite lookup_insert_eq, existsb_app.
      split; [done|]. assert (cs' = cs) as -> by congruence. by rewrite Hn.
    + exists cs'. cbn [ke_tables]. by rewrite lookup_insert_ne.
  - intros t' n. rewrite !rules_of_eq. cbn [ke_tables].
    destruct (decide (t = t')) as [<-|]; [rewrite lookup_insert_eq, E|by rewrite lookup_insert_ne].
    cbn [mbind option_bind]. rewrite find_snoc. destruct (List.find (named n) cs); [done|].
    by destruct (named n _).
Qed.

(** Rewriting the chains of one table chain by chain. *)
Lemma on_chain_spec t n f k cs next : ke_tables k !! t = Some cs →
  let k' := MkKernel (<[t := on_chain n f <$> cs]> (ke_tables k)) next in
  (∀ t' n', has_chain k t' n' → has_chain k' t' n') ∧
  (∀ t' n', has_chain k t' n' → rules_of k' t' n' = (if bool_decide (t' = t ∧ n' = n) then f else id) (rules_of k t' n')) ∧
  (∀ t' n', ¬ has_chain k t' n' → rules_of k' t' n' = [] ∧ rules_of k t' n' = []).
Proof.
  intros E k'. assert (∀ t' n', (default [] (cs ← ke_tables k' !! t'; kc_rules <$> List.find (named n') cs)) =
    default [] ((if bool_decide (t' = t ∧ n' = n) then f else id) <$>
      (cs ← ke_tables k !! t'; kc_rules <$> List.find (named n') cs))) as Hr.
  { intros t' n'. unfold k'. cbn [ke_tables]. destruct (decide (t' = t)) as [->|Ht].
    - rewrite lookup_insert_eq, E. cbn [mbind option_bind]. rewrite rules_on_chain.
      destruct (decide (n' = n)) as [->|]; [by rewrite !bool_decide_eq_true_2|].
      rewrite !bool_decide_eq_false_2 by tauto. done.
    - rewrite lookup_insert_ne by done. rewrite bool_decide_eq_false_2 by tauto. by rewrite option_fmap_id. }
  split_and!.
  - intros t' n' (cs' & Hcs & Hn). unfold k', has_chain. cbn [ke_tables]. destruct (decide (t = t')) as [<-|].
    + rewrite lookup_insert_eq. exists (on_chain n f <$> cs). split; [done|]. assert (cs' = cs) as -> by congruence.
      rewrite find_existsb in *. rewrite find_fmap by (intros; apply named_on_chain).
      apply bool_decide_eq_true. apply bool_decide_eq_true in Hn as [c ->]. eauto.
    + rewrite lookup_insert_ne by done. eauto.
  - intros t' n' (cs' & Hcs & Hn). rewrite !rules_of_eq, Hr, Hcs. cbn [mbind option_bind].
    rewrite find_existsb in Hn. apply bool_decide_eq_true in Hn as [c ->]. done.
  - intros t' n' Hno. rewrite !rules_of_eq, Hr. destruct (ke_tables k !! t') as [cs'|] eqn:E'; [|done]. cbn [mbind option_bind].
    destruct (List.find (named n') cs') as [c|] eqn:F; [|done]. exfalso. apply Hno. exists cs'. split; [done|].
    rewrite find_existsb, F. by apply bool_decide_eq_true_2.
Qed.

Lemma AddRule_spec t n es k : has_chain k t n → ∃ k', apply_msg (AddRule t n es) k = Some k' ∧
  (∀ t' n', has_chain k t' n' → has_chain k' t' n') ∧
  (∀ t' n', rules_of k' t' n' = rules_of k t' n' ++ (if bool_decide (t' = t ∧ n' = n) then [MkRule (ke_next k) es] else [])) ∧
  ke_next k' = S (ke_next k).
Proof.
  intros Hc. pose proof Hc as (cs & E & Hex). unfold apply_msg. rewrite E, Hex. eexists. split; [done|].
  destruct (on_chain_spec t n (λ rs, rs ++ [MkRule (ke_next k) es]) k cs (S (ke_next k)) E) as (H1 & H2 & H3).
  split_and!; [exact H1| |done]. intros t' n'.
  destruct (has_chain_em k t' n') as [Hh|Hh].
  - etrans; [exact (H2 _ _ Hh)|]. case_bool_decide; [done|]. by rewrite app_nil_r.
  - destruct (H3 _ _ Hh) as [H4 ->]. etrans; [exact H4|]. rewrite bool_decide_eq_false_2; [done|]. by intros [-> ->].
Qed.

Lemma DelRule_spec t n h k : is_Some (ke_tables k !! t) → ∃ k', apply_msg (DelRule t n h) k = Some k' ∧
  (∀ t' n', has_chain k t' n' → has_chain k' t' n') ∧ is_Some (ke_tables k' !! t) ∧
  (∀ t' n', rules_of k' t' n' =
     if bool_decide (t' = t ∧ n' = n) then filter (λ r, ru_Handle r ≠ h) (rules_of k t' n') else rules_of k t' n') ∧
  ke_next k' = ke_next k.
Proof.
  intros [cs E]. unfold apply_msg. rewrite E. eexists. split; [done|].
  destruct (on_chain_spec t n (filter (λ r, ru_Handle r ≠ h)) k cs (ke_next k) E) as (H1 & H2 & H3).
  split_and!; [exact H1|cbn [ke_tables]; rewrite lookup_insert_eq; eauto| |done]. intros t' n'.
  destruct (has_chain_em k t' n') as [Hh|Hh].
  - etrans; [exact (H2 _ _ Hh)|]. by case_bool_decide.
  - destruct (H3 _ _ Hh) as [H4 ->]. etrans; [exact H4|]. by case_bool_decide.
Qed.

(** Deleting several rules of a chain by handle. *)
Lemma commit_dels t n hs : ∀ k, is_Some (ke_tables k !! t) → ∃ k',
  commit (DelRule t n <$> hs) k = Some k' ∧ is_Some (ke_tables k' !! t) ∧
  (∀ t' n', rules_of k' t' n' =
     if bool_decide (t' = t ∧ n' = n) then filter (λ r, ru_Handle r ∉ hs) (rules_of k t' n') else rules_of k t' n') ∧
  ke_next k' = ke_next k.
Proof.
  induction hs as [|h hs IH]; intros k Hk.
  - exists k. split_and!; [done..| |done]. intros t' n'. case_bool_decide; [|done].
    symmetry. induction (rules_of k t' n') as [|r rs IHr]; [done|]. rewrite filter_cons, decide_True, IHr; [done|].
    apply not_elem_of_nil.
  - destruct (DelRule_spec t n h k Hk) as (k1 & H1 & _ & Hs & Hr & Hn).
    destruct (IH k1 Hs) as (k2 & H2 & Hs2 & Hr2 & Hn2). exists k2. cbn [fmap list_fmap commit mbind option_bind].
    rewrite H1. split_and!; [done..| |congruence]. intros t' n'. rewrite Hr2, Hr. case_bool_decide; [|done].
    rewrite list_filter_filter. apply list_filter_iff. intros r. rewrite not_elem_of_cons. tauto.
Qed.

(** Handles tell rules apart, and new ones are fresh. *)
Definition handles_ok (k : kernel) : Prop := ∀ t n,
  NoDup (ru_Handle <$> rules_of k t n) ∧ Forall (λ r, (ru_Handle r < ke_next k)%nat) (rules_of k t n).

Lemma filter_handles (P : rule → Prop) `{!∀ r, Decision (P r)} rs :
  NoDup (ru_Handle <$> rs) →
  filter (λ r, ru_Handle r ∉ ru_Handle <$> filter P rs) rs = filter (λ r, ¬ P r) rs.
Proof.
  intros Hnd. set (hs := ru_Handle <$> filter P rs).
  assert (∀ r, r ∈ rs → (ru_Handle r ∉ hs ↔ ¬ P r)) as Hiff.
  { intros r Hr. split.
    - intros Hn HP. apply Hn. apply list_elem_of_fmap. exists r. split; [done|]. by apply list_elem_of_filter.
    - intros HP (r' & Heq & [HP' Hr']%list_elem_of_filter)%list_elem_of_fmap. apply HP.
      assert (r = r') as ->; [|done]. clear -Hnd Hr Hr' Heq.
      induction rs as [|x rs IH]; [by apply elem_of_nil in Hr|]. apply NoDup_cons in Hnd as [Hx Hnd].
      apply elem_of_cons in Hr as [->|Hr], Hr' as [->|Hr']; [done| | |auto].
      + exfalso. apply Hx. rewrite Heq. apply list_elem_of_fmap. eauto.
      + exfalso. apply Hx. rewrite <- Heq. apply list_elem_of_fmap. eauto. }
  clearbody hs. clear Hnd. induction rs as [|r rs IH]; [done|]. rewrite !filter_cons.
  rewrite IH by (intros r' Hr'; apply Hiff; by right).
  destruct (decide (P r)) as [HP|HP].
  - rewrite decide_False, decide_False; [done|tauto|]. rewrite (Hiff r) by left. tauto.
  - rewrite decide_True, decide_True; [done|done|]. rewrite (Hiff r) by left. done.
Qed.

Lemma handles_ok_AddRule t n es k k' : handles_ok k → has_chain k t n → apply_msg (AddRule t n es) k = Some k' → handles_ok k'.
Proof.
  intros Hk Hc Happ. destruct (AddRule_spec t n es k Hc) as (k1 & H1 & _ & Hr & Hn). assert (k1 = k') as -> by congruence.
  intros t' n'. destruct (Hk t' n') as [Hnd Hlt]. rewrite Hr, Hn. split.
  - rewrite fmap_app. case_bool_decide; [|by rewrite app_nil_r]. apply NoDup_app. split_and!; [done| |apply NoDup_singleton].
    intros h (r & -> & Hin)%list_elem_of_fmap Hs. cbn in Hs. apply list_elem_of_singleton in Hs.
    rewrite Forall_forall in Hlt. specialize (Hlt r Hin). lia.
  - apply Forall_app. split; [eapply Forall_impl; [exact Hlt|]; cbn; lia|]. case_bool_decide; [|done].
    apply Forall_singleton. cbn. lia.
Qed.
Lemma handles_ok_same k k' : handles_ok k → (∀ t n, rules_of k' t n = rules_of k t n) → ke_next k' = ke_next k → handles_ok k'.
Proof. intros H Hr Hn t n. rewrite Hr, Hn. apply H. Qed.
