(* ===== verification/Firewall.v ===== *)
(** * The nftables firewall ([src/pkg/routing/nftables.go]) and the egress
    masquerade ([src/pkg/nftables/masquerade.go])

    [NftablesFirewall] keeps a connection with queued messages and remembers whether
    it created its table; the kernel is the other half of the state. The masquerade
    installer is written against the interface [NATFirewall], which the firewall
    implements. *)

From S2P Require Import Prelude GoStrings GoNet GoText Nft.

Record NftablesFirewall := MkFirewall { fw_table : bool; fw_pending : list msg }.
Definition NewNftablesFirewall : NftablesFirewall := MkFirewall false [].

(** The firewall object and the kernel. *)
Record fworld := MkFworld { fo_fw : NftablesFirewall; fo_kernel : kernel }.

Definition awg_mesh : string := "awg_mesh".

Inductive fw_error :=
  | ErrEnsureChain (chain : string) (e : errno)
  | ErrSetupNAT (iface : string) (e : errno)
  | ErrClampMSS (e : errno)
  | ErrParseCIDR (cidr : string)
  | ErrCIDRNotIPv4 (cidr : string)
  | ErrEnableSticky (cidr : string) (e : errno)
  | ErrDeleteSticky (cidr chain : string)
  | ErrDisableSticky (cidr : string) (e : errno)
  | ErrTeardown (e : errno)
  | ErrIptables.

(** What the kernel answers to one operation: the two flushes, the listing of each
    chain, the queueing of a deletion. *)
Record fw_answers := MkFwAnswers {
  fa_flush1 : bool; fa_flush2 : bool; fa_list : string → bool; fa_del : bool
}.
Definition fw_well : fw_answers := MkFwAnswers true true (λ _, true) true.

Section firewall.
(** Whether the library keeps a batch whose flush failed. *)
Context (keeps : bool).

Definition queue (ms : list msg) (f : NftablesFirewall) : NftablesFirewall := MkFirewall (fw_table f) (fw_pending f ++ ms).

Definition ensureTable (f : NftablesFirewall) : NftablesFirewall :=
  if fw_table f then f else MkFirewall true (fw_pending f ++ [AddTable awg_mesh]).

Definition flush (ok : bool) (w : fworld) : res errno unit * fworld :=
  let '(r, pending, k) := Flush keeps ok (fw_pending (fo_fw w)) (fo_kernel w) in
  (r, MkFworld (MkFirewall (fw_table (fo_fw w)) pending) k).

(** ** Source NAT *)

Definition nat_postrouting : chain := MkChain "nat_postrouting" ChainTypeNAT HookPostrouting 100.

(** [copy] into 16 zero bytes. *)
Definition ifaceBytes (iface : string) : list Z :=
  take 16 ((code <$> to_bytes iface) ++ replicate 16 0).

Definition masq_exprs (data : list Z) : list expr := [Meta MetaKeyOIFNAME false 1; Cmp true 1 data; Masq].

Definition ruleMatchesMasqOnIface (es : list expr) (data : list Z) : bool :=
  match es with
  | Meta key _ _ :: Cmp eq _ d :: Masq :: _ => bool_decide (key = MetaKeyOIFNAME) && eq && bool_decide (d = data)
  | _ => false
  end.

(** The operations that add one rule unless it is there: create the chain, list
    it, add. *)
Definition add_unless (a : fw_answers) (c : chain) (matches : list expr → bool) (es : list expr)
    (e1 e2 : errno → fw_error) (w : fworld) : res fw_error unit * fworld :=
  let f := queue [AddChain awg_mesh c] (ensureTable (fo_fw w)) in
  match flush (fa_flush1 a) (MkFworld f (fo_kernel w)) with
  | (Err e, w) => (Err (e1 e), w)
  | (Ok _, w) =>
      let existing := match GetRules (fa_list a (ch_Name c)) awg_mesh (ch_Name c) (fo_kernel w) with
                      | Some rules => existsb (λ r, matches (ru_Exprs r)) rules
                      | None => false
                      end in
      if existing then (Ok (), w) else
      let f := queue [AddRule awg_mesh (ch_Name c) es] (fo_fw w) in
      match flush (fa_flush2 a) (MkFworld f (fo_kernel w)) with
      | (Err e, w) => (Err (e2 e), w)
      | (Ok _, w) => (Ok (), w)
      end
  end.

Definition SetupNAT (a : fw_answers) (iface : string) (w : fworld) : res fw_error unit * fworld :=
  add_unless a nat_postrouting (λ es, ruleMatchesMasqOnIface es (ifaceBytes iface)) (masq_exprs (ifaceBytes iface))
    (ErrEnsureChain "nat_postrouting") (ErrSetupNAT iface) w.

(** ** MSS clamping *)

Definition forward_mss : chain := MkChain "forward_mss" ChainTypeFilter HookForward 0.
Definition IPPROTO_TCP : Z := 6.

Definition is_rt (e : expr) : bool := match e with RtTCPMSS _ => true | _ => false end.
Definition ruleMatchesMSSClamp (es : list expr) : bool :=
  match es with
  | Meta key _ _ :: Cmp eq _ data :: rest =>
      bool_decide (rest ≠ []) && bool_decide (key = MetaKeyL4PROTO) && eq && bool_decide (data = [IPPROTO_TCP]) && existsb is_rt rest
  | _ => false
  end.

Definition clamp_exprs : list expr := [
  Meta MetaKeyL4PROTO false 1;
  Cmp true 1 [IPPROTO_TCP];
  Payload 1 PayloadBaseTransportHeader 13 1;
  Bitwise 1 1 1 [0x06] [0];
  Cmp true 1 [0x02];
  ExthdrLoad 1 2 2 2;
  RtTCPMSS 1;
  ExthdrStore 1 2 2 2
].

Definition ClampMSSToPMTU (a : fw_answers) (w : fworld) : res fw_error unit * fworld :=
  add_unless a forward_mss ruleMatchesMSSClamp clamp_exprs (ErrEnsureChain "forward_mss") ErrClampMSS w.

(** ** Sticky ECMP *)

Definition mask_bytes (n : IPNet) : list Z :=
  if net_v4 n then octets 4 (2 ^ 32 - 2 ^ (32 - net_bits n)) else octets 16 (2 ^ 128 - 2 ^ (128 - net_bits n)).
(** [ipNet.IP.To4()], empty when nil. *)
Definition net_to4 (n : IPNet) : option (list Z) :=
  if net_v4 n then Some (octets 4 (net_ip n)) else octets 4 <$> To4 (net_ip n).

Definition cidrFilterExprs (n : IPNet) : list expr := [
  Payload 2 PayloadBaseNetworkHeader 16 4;
  Bitwise 2 2 4 (mask_bytes n) [0; 0; 0; 0];
  Cmp true 2 (default [] (net_to4 n))
].

Definition mangle_prerouting : chain := MkChain "mangle_prerouting" ChainTypeFilter HookPrerouting (-150).
Definition mangle_postrouting : chain := MkChain "mangle_postrouting" ChainTypeFilter HookPostrouting (-150).

(** For established or related connections, the connection's mark to the packet. *)
Definition restore_exprs : list expr := [
  Ct CtKeySTATE false 1;
  Bitwise 1 1 4 [0x06; 0; 0; 0] [0; 0; 0; 0];
  Cmp false 1 [0; 0; 0; 0];
  Ct CtKeyMARK false 1;
  Meta MetaKeyMARK true 1
].
(** For new connections, the packet's mark to the connection. *)
Definition save_exprs : list expr := [
  Ct CtKeySTATE false 1;
  Bitwise 1 1 4 [0x08; 0; 0; 0] [0; 0; 0; 0];
  Cmp false 1 [0; 0; 0; 0];
  Meta MetaKeyMARK false 1;
  Ct CtKeyMARK true 1
].

Definition EnableStickyECMP (a : fw_answers) (balancerCIDR : string) (w : fworld) : res fw_error unit * fworld :=
  match ParseCIDR balancerCIDR with
  | None => (Err (ErrParseCIDR balancerCIDR), w)
  | Some (_, n) =>
      if bool_decide (net_to4 n = None) || negb (net_v4 n) then (Err (ErrCIDRNotIPv4 balancerCIDR), w) else
      let f := queue [AddChain awg_mesh mangle_prerouting;
                      AddRule awg_mesh "mangle_prerouting" (cidrFilterExprs n ++ restore_exprs);
                      AddChain awg_mesh mangle_postrouting;
                      AddRule awg_mesh "mangle_postrouting" (cidrFilterExprs n ++ save_exprs)]
                 (ensureTable (fo_fw w)) in
      match flush (fa_flush1 a) (MkFworld f (fo_kernel w)) with
      | (Err e, w) => (Err (ErrEnableSticky balancerCIDR e), w)
      | (Ok _, w) => (Ok (), w)
      end
  end.

Definition ruleMatchesCIDR (es : list expr) (n : IPNet) : bool :=
  match es with
  | Payload _ base offset len :: Bitwise _ _ _ mask _ :: Cmp eq _ data :: _ =>
      bool_decide (base = PayloadBaseNetworkHeader) && bool_decide (offset = 16%nat) && bool_decide (len = 4%nat) &&
      bool_decide (mask = mask_bytes n) && eq && bool_decide (data = default [] (net_to4 n))
  | _ => false
  end.

(** The deletions queued for one chain; a chain that cannot be listed is skipped. *)
Definition del_matching (a : fw_answers) (n : IPNet) (chain : string) (k : kernel) : list msg :=
  match GetRules (fa_list a chain) awg_mesh chain k with
  | None => []
  | Some rules => (λ r, DelRule awg_mesh chain (ru_Handle r)) <$> filter (λ r, ruleMatchesCIDR (ru_Exprs r) n = true) rules
  end.

Definition DisableStickyECMP (a : fw_answers) (cidr : string) (w : fworld) : res fw_error unit * fworld :=
  match ParseCIDR cidr with
  | None => (Err (ErrParseCIDR cidr), w)
  | Some (_, n) =>
      if negb (fw_table (fo_fw w)) then (Ok (), w) else
      let pre := del_matching a n "mangle_prerouting" (fo_kernel w) in
      let post := del_matching a n "mangle_postrouting" (fo_kernel w) in
      if negb (fa_del a) && negb (bool_decide (length pre = 0%nat))
      then (Err (ErrDeleteSticky cidr "mangle_prerouting"), w) else
      if negb (fa_del a) && negb (bool_decide (length post = 0%nat))
      then (Err (ErrDeleteSticky cidr "mangle_postrouting"), w) else
      match flush (fa_flush1 a) (MkFworld (queue (pre ++ post) (fo_fw w)) (fo_kernel w)) with
      | (Err e, w) => (Err (ErrDisableSticky cidr e), w)
      | (Ok _, w) => (Ok (), w)
      end
  end.

Definition TeardownNAT (a : fw_answers) (w : fworld) : res fw_error unit * fworld :=
  if negb (fw_table (fo_fw w)) then (Ok (), w) else
  match flush (fa_flush1 a) (MkFworld (queue [DelTable awg_mesh] (fo_fw w)) (fo_kernel w)) with
  | (Err e, w) => (Err (ErrTeardown e), w)
  | (Ok _, w) => (Ok (), MkFworld (MkFirewall false (fw_pending (fo_fw w))) (fo_kernel w))
  end.

(** [iptables -C] then [-I]: whether the rule is there, and whether the insertion
    works; the rule as a fact of the host. *)
Definition EnableWGCrossTunnelForward (inserted present : bool) : res fw_error unit * bool :=
  if present then (Ok (), true) else if inserted then (Ok (), true) else (Err ErrIptables, false).
End firewall.

(** ** A firewall in step with the kernel *)

(** Nothing queued, and the table it remembers exists. *)
Record fw_ok (w : fworld) : Prop := MkFwOk {
  fk_pending : fw_pending (fo_fw w) = [];
  fk_table : fw_table (fo_fw w) = true → is_Some (ke_tables (fo_kernel w) !! awg_mesh)
}.

Lemma flush_commits keeps f k k' :
  commit (fw_pending f) k = Some k' → flush keeps true (MkFworld f k) = (Ok (), MkFworld (MkFirewall (fw_table f) []) k').
Proof. intros H. unfold flush, Flush. cbn [fo_fw fo_kernel negb]. by rewrite H. Qed.

Lemma commit_app a b k : commit (a ++ b) k = (k ← commit a k; commit b k).
Proof. revert k. induction a as [|m a IH]; intros k; [done|]. cbn. destruct (apply_msg m k); cbn; [apply IH|done]. Qed.

(** The table and one chain are made sure of. *)
Lemma ensure_spec w : fw_ok w → ∃ k,
  commit (fw_pending (ensureTable (fo_fw w))) (fo_kernel w) = Some k ∧ is_Some (ke_tables k !! awg_mesh) ∧
  fw_table (ensureTable (fo_fw w)) = true ∧ (∀ t n, rules_of k t n = rules_of (fo_kernel w) t n) ∧
  ke_next k = ke_next (fo_kernel w).
Proof.
  intros [Hp Ht]. unfold ensureTable. destruct (fw_table (fo_fw w)) eqn:E.
  - exists (fo_kernel w). rewrite Hp. split_and!; auto.
  - destruct (AddTable_spec awg_mesh (fo_kernel w)) as (k & Hk & Hsome & _ & Hr & Hn). exists k. cbn [fw_pending fw_table].
    rewrite Hp. cbn [app commit mbind option_bind]. by rewrite Hk.
Qed.

Section add_unless.
Context (keeps : bool) (c : chain) (matches : list expr → bool) (es : list expr) (e1 e2 : errno → fw_error).
Notation add := (add_unless keeps fw_well c matches es e1 e2).

Lemma add_unless_spec w : fw_ok w →
  let old := rules_of (fo_kernel w) awg_mesh (ch_Name c) in
  ∃ w', add w = (Ok (), w') ∧ fw_ok w' ∧ fw_table (fo_fw w') = true ∧
    has_chain (fo_kernel w') awg_mesh (ch_Name c) ∧
    rules_of (fo_kernel w') awg_mesh (ch_Name c) =
      (if existsb (λ r, matches (ru_Exprs r)) old then old else old ++ [MkRule (ke_next (fo_kernel w)) es]) ∧
    (∀ t n, (t, n) ≠ (awg_mesh, ch_Name c) → rules_of (fo_kernel w') t n = rules_of (fo_kernel w) t n).
Proof.
  intros Hw old. destruct (ensure_spec w Hw) as (k1 & Hk1 & Hs & Ht & Hr1 & Hn1).
  destruct (AddChain_spec awg_mesh c k1 Hs) as (k2 & Hk2 & Hc & _ & Hr2 & Hn2).
  unfold add_unless. cbn [fa_flush1 fa_flush2 fw_well fa_list].
  rewrite (flush_commits keeps _ _ k2).
  2: { unfold queue. cbn [fw_pending]. rewrite commit_app, Hk1. cbn [mbind option_bind commit]. by rewrite Hk2. }
  cbn [fo_kernel fo_fw queue fw_table fw_pending]. rewrite Ht.
  assert (∃ rs, GetRules true awg_mesh (ch_Name c) k2 = Some rs ∧ rs = old) as (rs & Hg & ->).
  { assert (rules_of k2 awg_mesh (ch_Name c) = old) as Ho by (rewrite Hr2; apply Hr1).
    destruct Hc as (cs & E & Hex). unfold rules_of in Ho. unfold GetRules in *. cbn [negb] in *. rewrite E in *.
    rewrite find_existsb in Hex. apply bool_decide_eq_true in Hex as [x Hx].
    cbn [mbind option_bind] in *. rewrite Hx in *. eexists. by split; [|exact Ho]. }
  rewrite Hg. destruct (existsb _ old) eqn:Hex.
  - eexists. split_and!; [done|split; [done|]|done|done| |].
    + intros _. cbn [fo_kernel]. destruct Hc as (cs & E & _). eauto.
    + cbn [fo_kernel]. rewrite Hr2. apply Hr1.
    + intros t n _. cbn [fo_kernel]. by rewrite Hr2.
  - destruct (AddRule_spec awg_mesh (ch_Name c) es k2 Hc) as (k3 & Hk3 & Hc3 & Hr3 & _).
    rewrite (flush_commits keeps _ _ k3) by (unfold queue; cbn [fw_pending app fw_table]; cbn [commit]; rewrite Hk3; done).
    pose proof (Hc3 _ _ Hc) as Hc'. eexists. split_and!; [done|split; [done|]|done|done| |]; cbn [fo_kernel].
    + intros _. destruct Hc' as (cs & E & _). eauto.
    + rewrite Hr3, bool_decide_eq_true_2, Hr2, Hr1, Hn2, Hn1 by done. done.
    + intros t n Hne. rewrite Hr3, bool_decide_eq_false_2, app_nil_r, Hr2, Hr1; [done|]. intros [-> ->]. done.
Qed.

(** Adding a rule that is recognised afterwards changes nothing the second time. *)
Lemma add_unless_again w w' : fw_ok w → matches es = true → add w = (Ok (), w') → add w' = (Ok (), w').
Proof.
  intros Hw Hm Hadd. destruct (add_unless_spec w Hw) as (w1 & H1 & Hok & Ht & Hc & Hr & _).
  assert (w1 = w') as -> by congruence.
  assert (existsb (λ r, matches (ru_Exprs r)) (rules_of (fo_kernel w') awg_mesh (ch_Name c)) = true) as Hex.
  { rewrite Hr. destruct (existsb _ (rules_of (fo_kernel w) _ _)) eqn:E; [done|]. rewrite existsb_app. simpl.
    by rewrite Hm, orb_true_r. }
  unfold add_unless. cbn [fa_flush1 fa_flush2 fw_well fa_list]. unfold ensureTable. rewrite Ht.
  destruct Hc as (cs & E & Hn). rewrite (flush_commits keeps _ _ (fo_kernel w')).
  2: { unfold queue. cbn [fw_pending]. rewrite (fk_pending w' Hok). cbn [app commit mbind option_bind apply_msg].
       by rewrite E, Hn. }
  cbn [fo_kernel fo_fw]. unfold rules_of, GetRules in *. cbn [negb] in *. rewrite E in *. cbn [mbind option_bind] in *.
  rewrite find_existsb in Hn. apply bool_decide_eq_true in Hn as [x Hx]. rewrite Hx in *. cbn [fmap option_fmap option_map default from_option] in *.
  unfold id in Hex. rewrite Hex. do 2 f_equal. destruct w' as [[tb pd] k]. cbn in *. destruct Hok as [Hp _]. cbn in Hp. by subst.
Qed.
End add_unless.

(** ** Masquerading is a set of interfaces *)

(** The interface names of the masquerade rules. *)
Definition masq_iface (r : rule) : option (list Z) :=
  match ru_Exprs r with Meta _ _ _ :: Cmp _ _ d :: _ => Some d | _ => None end.
Definition nat_rules (k : kernel) : list rule := rules_of k awg_mesh "nat_postrouting".
Definition nat_ifaces (k : kernel) : list (list Z) := omap masq_iface (nat_rules k).
(** Every rule of the chain was installed by [SetupNAT]. *)
Definition nat_wf (k : kernel) : Prop := Forall (λ r, ∃ d, ru_Exprs r = masq_exprs d) (nat_rules k).

Lemma masq_rule_runs d p :
  run_rule (masq_exprs d) p = if bool_decide (pk_oifname p = d) then masqueraded p else p.
Proof.
  unfold run_rule, masq_exprs. cbn [run_exprs run_expr mbind option_bind]. rewrite set_reg_eq.
  by destruct (bool_decide (pk_oifname p = d)).
Qed.

Lemma masq_matches d d' : ruleMatchesMasqOnIface (masq_exprs d) d' = bool_decide (d = d').
Proof. unfold ruleMatchesMasqOnIface, masq_exprs. by rewrite (bool_decide_eq_true_2 (MetaKeyOIFNAME = _)). Qed.

Lemma nat_rules_run rs p :
  Forall (λ r, ∃ d, ru_Exprs r = masq_exprs d) rs →
  pk_masqueraded (run_rules rs p) = pk_masqueraded p || bool_decide (pk_oifname p ∈ omap masq_iface rs).
Proof.
  intros Hrs. revert p. induction Hrs as [|r rs [d Hd] _ IH]; intros p.
  - cbn. rewrite bool_decide_eq_false_2 by apply not_elem_of_nil. by rewrite orb_false_r.
  - cbn [run_rules foldl]. change (foldl _ ?x rs) with (run_rules rs x). rewrite IH, Hd, masq_rule_runs.
    assert (omap masq_iface (r :: rs) = d :: omap masq_iface rs) as ->
      by (cbn [omap list_omap]; unfold masq_iface at 1; by rewrite Hd).
    case_bool_decide as Ho; cbn [masqueraded pk_masqueraded pk_oifname orb].
    + rewrite (bool_decide_eq_true_2 (pk_oifname p ∈ d :: _)) by (rewrite Ho; left). by rewrite orb_true_r.
    + f_equal. apply bool_decide_ext. rewrite elem_of_cons. tauto.
Qed.

Lemma nat_existing rs d : Forall (λ r, ∃ d, ru_Exprs r = masq_exprs d) rs →
  existsb (λ r, ruleMatchesMasqOnIface (ru_Exprs r) d) rs = bool_decide (d ∈ omap masq_iface rs).
Proof.
  induction 1 as [|r rs [d' Hd] _ IH]; [by rewrite bool_decide_eq_false_2 by apply not_elem_of_nil|].
  cbn [existsb]. rewrite IH, Hd, masq_matches.
  assert (omap masq_iface (r :: rs) = d' :: omap masq_iface rs) as ->
    by (cbn [omap list_omap]; unfold masq_iface at 1; by rewrite Hd).
  destruct (decide (d' = d)) as [->|Hne].
  - rewrite bool_decide_eq_true_2 by done. symmetry. apply bool_decide_eq_true_2. by left.
  - rewrite (bool_decide_eq_false_2 (d' = d)) by done. cbn [orb]. apply bool_decide_ext. rewrite elem_of_cons.
    split; [auto|]. intros [->|?]; [done|done].
Qed.

Section nat.
Context (keeps : bool).

Lemma SetupNAT_run iface w : fw_ok w → nat_wf (fo_kernel w) →
  let d := ifaceBytes iface in
  ∃ w', SetupNAT keeps fw_well iface w = (Ok (), w') ∧ fw_ok w' ∧ nat_wf (fo_kernel w') ∧
    nat_ifaces (fo_kernel w') =
      (if bool_decide (d ∈ nat_ifaces (fo_kernel w)) then nat_ifaces (fo_kernel w) else nat_ifaces (fo_kernel w) ++ [d]) ∧
    SetupNAT keeps fw_well iface w' = (Ok (), w') ∧
    (∀ t n, (t, n) ≠ (awg_mesh, "nat_postrouting") → rules_of (fo_kernel w') t n = rules_of (fo_kernel w) t n).
Proof.
  intros Hw Hwf d. destruct (add_unless_spec keeps nat_postrouting (λ es, ruleMatchesMasqOnIface es d) (masq_exprs d)
    (ErrEnsureChain "nat_postrouting") (ErrSetupNAT iface) w Hw) as (w' & Hadd & Hok & _ & _ & Hr & Hother).
  exists w'. split_and!; [exact Hadd|done| | | |exact Hother].
  - unfold nat_wf, nat_rules. cbn [nat_postrouting ch_Name] in Hr. rewrite Hr. case_match; [exact Hwf|].
    apply Forall_app. split; [exact Hwf|]. apply Forall_singleton. eauto.
  - unfold nat_ifaces, nat_rules at 1. cbn [nat_postrouting ch_Name] in Hr. rewrite Hr. rewrite nat_existing by exact Hwf.
    change (rules_of (fo_kernel w) awg_mesh "nat_postrouting") with (nat_rules (fo_kernel w)).
    case_bool_decide; [done|]. by rewrite omap_app.
  - apply (add_unless_again keeps _ _ _ _ _ w); [done| |exact Hadd]. rewrite masq_matches. by apply bool_decide_eq_true_2.
Qed.
End nat.

(** C32. Source NAT behaves as a set of interfaces: on a working kernel [SetupNAT]
    adds the interface if it is not there and leaves everything else, of this table
    and of others, alone; calling it again changes nothing at all, so no rule is
    ever duplicated; and the rules masquerade exactly the packets that leave through
    an interface of the set. *)
Theorem SetupNAT_set keeps iface w :
  fw_ok w → nat_wf (fo_kernel w) → NoDup (nat_ifaces (fo_kernel w)) →
  ∃ w', SetupNAT keeps fw_well iface w = (Ok (), w') ∧ fw_ok w' ∧ nat_wf (fo_kernel w') ∧
    NoDup (nat_ifaces (fo_kernel w')) ∧
    (∀ d, d ∈ nat_ifaces (fo_kernel w') ↔ d ∈ nat_ifaces (fo_kernel w) ∨ d = ifaceBytes iface) ∧
    SetupNAT keeps fw_well iface w' = (Ok (), w') ∧
    (∀ p, pk_masqueraded (run_rules (nat_rules (fo_kernel w')) p) =
          pk_masqueraded p || bool_decide (pk_oifname p ∈ nat_ifaces (fo_kernel w'))) ∧
    (∀ t n, (t, n) ≠ (awg_mesh, "nat_postrouting") → rules_of (fo_kernel w') t n = rules_of (fo_kernel w) t n).
Proof.
  intros Hw Hwf Hnd. destruct (SetupNAT_run keeps iface w Hw Hwf) as (w' & H1 & H2 & H3 & H4 & H5 & H6).
  exists w'. split_and!; [done..| | |done| |done].
  - rewrite H4. case_bool_decide as Hin; [done|]. apply NoDup_app. split_and!; [done| |apply NoDup_singleton].
    intros x Hx ->%list_elem_of_singleton. done.
  - intros d. rewrite H4. case_bool_decide as Hin; [naive_solver|]. by rewrite elem_of_app, list_elem_of_singleton.
  - intros p. by apply nat_rules_run.
Qed.

Definition kernel0 : kernel := MkKernel ∅ 0.
Definition fworld0 : fworld := MkFworld NewNftablesFirewall kernel0.
Definition leaving (iface : string) : packet := MkPacket [] [] 17 (ifaceBytes iface) 0 8 0 None 1400 false.

Lemma SetupNAT_set_witness :
  ∃ w, SetupNAT false fw_well "eth0" fworld0 = (Ok (), w) ∧
    pk_masqueraded (run_rules (nat_rules (fo_kernel w)) (leaving "eth0")) = true ∧
    pk_masqueraded (run_rules (nat_rules (fo_kernel w)) (leaving "eth1")) = false.
Proof.
  destruct (SetupNAT_set false "eth0" fworld0) as (w & H1 & _ & _ & _ & _ & _ & Hrun & _);
    [by split|by constructor|by constructor|].
  exists w. split; [exact H1|]. injection H1 as <-. split; by vm_compute.
Defined.

(** ** The CIDR filter *)

Lemma octets_land n a b : zip_with Z.land (octets n a) (octets n b) = octets n (Z.land a b).
Proof.
  induction n as [|n IH]; [done|]. cbn [octets zip_with]. rewrite IH. f_equal. change 256 with (2 ^ 8).
  rewrite <- Z.pow_mul_r, <- !Z.land_ones, <- !Z.shiftr_div_pow2, Z.shiftr_land by lia.
  rewrite Z.land_assoc, <- (Z.land_assoc (Z.shiftr a _)), (Z.land_comm (Z.ones 8)), Z.land_assoc, <- Z.land_assoc, Z.land_diag.
  done.
Qed.

Lemma octets_lxor_zero n a : zip_with Z.lxor (octets n a) (replicate n 0) = octets n a.
Proof. induction n as [|n IH]; [done|]. cbn [octets replicate zip_with]. by rewrite IH, Z.lxor_0_r. Qed.

Lemma octets_inj n a b : 0 ≤ a < 256 ^ Z.of_nat n → 0 ≤ b < 256 ^ Z.of_nat n → octets n a = octets n b → a = b.
Proof.
  intros Ha Hb H. apply (f_equal be_val) in H. rewrite !be_val_octets in H. by rewrite !Z.mod_small in H.
Qed.

(** Masking with the mask of a prefix clears the host bits. *)
Lemma land_mask v h : 0 ≤ v < 2 ^ 32 → 0 ≤ h ≤ 32 → Z.land v (2 ^ 32 - 2 ^ h) = clear_low v h.
Proof.
  intros Hv Hh. assert (2 ^ 32 - 2 ^ h = Z.shiftl (Z.ones (32 - h)) h) as ->.
  { rewrite Z.shiftl_mul_pow2, Z.ones_equiv by lia. rewrite <- Z.sub_1_r, Z.mul_sub_distr_r, <- Z.pow_add_r by lia.
    replace (32 - h + h) with 32 by lia. lia. }
  unfold clear_low. apply Z.bits_inj'. intros i Hi. rewrite Z.land_spec, !Z.shiftl_spec by lia.
  destruct (Z.lt_ge_cases i h).
  - rewrite !(Z.testbit_neg_r _ (i - h)) by lia. by rewrite andb_false_r.
  - rewrite Z.shiftr_spec by lia. replace (i - h + h) with i by lia.
    destruct (Z.lt_ge_cases i 32).
    + rewrite Z.ones_spec_low by lia. by rewrite andb_true_r.
    + rewrite Z.ones_spec_high, andb_false_r by lia. destruct (decide (v = 0)) as [->|]; [by rewrite Z.testbit_0_l|].
      symmetry. apply Z.bits_above_log2; [lia|]. assert (Z.log2 v < 32) by (apply Z.log2_lt_pow2; lia). lia.
Qed.

(** A packet with an IPv4 header whose destination is [d]. *)
Definition dst_is (d : Z) (p : packet) : Prop := take 4 (drop 16 (pk_network p)) = octets 4 d.

Lemma cidr_filter n es d p : net4_ok n → 0 ≤ d < 2 ^ 32 → dst_is d p →
  (∀ g1 g2, run_exprs es g1 p = run_exprs es g2 p) →
  run_rule (cidrFilterExprs n ++ es) p = if bool_decide (clear_low d (32 - net_bits n) = net_ip n) then run_rule es p else p.
Proof.
  intros (Hv4 & Hip & Hb & Hm) Hd Hdst Hes. unfold run_rule, cidrFilterExprs, mask_bytes, net_to4. rewrite Hv4.
  cbn [app run_exprs run_expr header]. unfold dst_is in Hdst. rewrite Hdst, length_octets.
  rewrite (bool_decide_eq_true_2 (4%nat = 4%nat)) by done. cbn [mbind option_bind]. rewrite !set_reg_eq.
  rewrite (firstn_all2 (octets 4 d)) by (rewrite length_octets; lia).
  rewrite octets_land, land_mask by lia. change [0; 0; 0; 0] with (replicate 4 0). rewrite octets_lxor_zero.
  cbn [default from_option id].
  assert (bool_decide (octets 4 (clear_low d (32 - net_bits n)) = octets 4 (net_ip n)) =
          bool_decide (clear_low d (32 - net_bits n) = net_ip n)) as ->.
  { apply bool_decide_ext. split; [|by intros ->]. apply octets_inj; change (256 ^ Z.of_nat 4) with (2 ^ 32); [|lia].
    pose proof (clear_low_range d (32 - net_bits n)). split; [|lia].
    rewrite clear_low_div by lia. apply Z.mul_nonneg_nonneg; [apply Z.pow_nonneg; lia|].
    apply Z.div_pos; [lia|]. apply Z.pow_pos_nonneg; lia. }
  case_bool_decide; cbn [Bool.eqb mbind option_bind]; [|done]. by rewrite (Hes _ no_regs).
Qed.

Lemma state_bits s m : 0 ≤ m < 256 →
  zip_with Z.lxor (zip_with Z.land (take 4 (encodeUint32 s)) [m; 0; 0; 0]) [0; 0; 0; 0] = [Z.land s m; 0; 0; 0].
Proof.
  intros Hm. unfold encodeUint32. cbn [take zip_with]. rewrite !Z.land_0_r, !Z.lxor_0_r.
  rewrite <- Z.land_assoc, (Z.land_comm 255). change 255 with (Z.ones 8). rewrite Z.land_ones, Z.mod_small by lia. done.
Qed.

Lemma restore_runs es g p : 0 ≤ pk_ctmark p < 2 ^ 32 →
  es = restore_exprs →
  run_exprs es g p = if Z.land (pk_ctstate p) 6 =? 0 then None else Some (with_mark (pk_ctmark p) p).
Proof.
  intros Hc ->. unfold restore_exprs. cbn [run_exprs run_expr mbind option_bind]. rewrite !set_reg_eq, state_bits by lia.
  destruct (Z.land (pk_ctstate p) 6 =? 0) eqn:E.
  - apply Z.eqb_eq in E. rewrite E. by rewrite bool_decide_eq_true_2.
  - apply Z.eqb_neq in E. rewrite bool_decide_eq_false_2 by congruence. cbn [Bool.eqb mbind option_bind].
    rewrite set_reg_eq, encode_decode by lia. done.
Qed.
Lemma save_runs es g p : 0 ≤ pk_mark p < 2 ^ 32 →
  es = save_exprs →
  run_exprs es g p = if Z.land (pk_ctstate p) 8 =? 0 then None else Some (with_ctmark (pk_mark p) p).
Proof.
  intros Hc ->. unfold save_exprs. cbn [run_exprs run_expr mbind option_bind]. rewrite !set_reg_eq, state_bits by lia.
  destruct (Z.land (pk_ctstate p) 8 =? 0) eqn:E.
  - apply Z.eqb_eq in E. rewrite E. by rewrite bool_decide_eq_true_2.
  - apply Z.eqb_neq in E. rewrite bool_decide_eq_false_2 by congruence. cbn [Bool.eqb mbind option_bind].
    rewrite set_reg_eq, encode_decode by lia. done.
Qed.

(** A connection to the balancer keeps its mark: the first packet stores it, the
    later ones get it back; packets to other destinations pass unchanged. *)
Lemma sticky_rules_run n d p : net4_ok n → 0 ≤ d < 2 ^ 32 → dst_is d p → 0 ≤ pk_mark p < 2 ^ 32 → 0 ≤ pk_ctmark p < 2 ^ 32 →
  let inside := bool_decide (clear_low d (32 - net_bits n) = net_ip n) in
  run_rule (cidrFilterExprs n ++ restore_exprs) p =
    (if inside && negb (Z.land (pk_ctstate p) 6 =? 0) then with_mark (pk_ctmark p) p else p) ∧
  run_rule (cidrFilterExprs n ++ save_exprs) p =
    (if inside && negb (Z.land (pk_ctstate p) 8 =? 0) then with_ctmark (pk_mark p) p else p).
Proof.
  intros Hn Hd Hdst Hm Hc inside. split.
  - rewrite (cidr_filter n restore_exprs d p) by (auto; intros; by rewrite !restore_runs). fold inside.
    destruct inside; [|done]. unfold run_rule. rewrite restore_runs by done. by destruct (_ =? 0).
  - rewrite (cidr_filter n save_exprs d p) by (auto; intros; by rewrite !save_runs). fold inside.
    destruct inside; [|done]. unfold run_rule. rewrite save_runs by done. by destruct (_ =? 0).
Qed.

(** ** Enabling and disabling *)

Lemma mask_inj b b' : 0 ≤ b ≤ 32 → 0 ≤ b' ≤ 32 →
  octets 4 (2 ^ 32 - 2 ^ (32 - b)) = octets 4 (2 ^ 32 - 2 ^ (32 - b')) → b = b'.
Proof.
  intros Hb Hb' H. assert (∀ x, 0 ≤ x ≤ 32 → 0 ≤ 2 ^ 32 - 2 ^ (32 - x) < 256 ^ Z.of_nat 4) as Hr.
  { intros x Hx. change (256 ^ Z.of_nat 4) with (2 ^ 32). assert (0 < 2 ^ (32 - x)) by (apply Z.pow_pos_nonneg; lia).
    assert (2 ^ (32 - x) ≤ 2 ^ 32) by (apply Z.pow_le_mono_r; lia). lia. }
  apply octets_inj in H; [|auto..]. assert (2 ^ (32 - b) = 2 ^ (32 - b')) as E by lia.
  apply Z.pow_inj_r in E; lia.
Qed.

Lemma matches_own n n' es : net4_ok n → net4_ok n' →
  ruleMatchesCIDR (cidrFilterExprs n' ++ es) n = bool_decide (n' = n).
Proof.
  intros (H1 & H2 & H3 & H4) (H1' & H2' & H3' & H4'). unfold cidrFilterExprs, ruleMatchesCIDR, mask_bytes, net_to4.
  cbn [app]. rewrite H1, H1'. cbn [default from_option id].
  rewrite !(bool_decide_eq_true_2 (PayloadBaseNetworkHeader = _)), !(bool_decide_eq_true_2 (16%nat = _)),
    !(bool_decide_eq_true_2 (4%nat = _)), andb_true_r by done. cbn [andb].
  destruct n as [v b l], n' as [v' b' l']. cbn [net_v4 net_ip net_bits] in *. subst v v'.
  case_bool_decide as Hm; cbn [andb].
  - apply mask_inj in Hm; [|lia..]. subst l'. apply bool_decide_ext. split; [|by intros [= ->]].
    intros E. apply octets_inj in E; [by subst|change (256 ^ Z.of_nat 4) with (2 ^ 32); lia..].
  - symmetry. apply bool_decide_eq_false. intros [= _ <-]. done.
Qed.

Lemma digits_val_nonneg l : ∀ acc v, 0 ≤ acc → digits_val acc l = Some v → 0 ≤ v.
Proof.
  induction l as [|a l IH]; intros acc v Ha H; cbn in H; [by simplify_eq|].
  destruct (is_digit a) eqn:E; [|done]. apply is_digit_range in E. eapply IH; [|exact H]. lia.
Qed.

Lemma ParseCIDR_net4_ok s ip n : ParseCIDR s = Some (ip, n) → net_v4 n = true → net4_ok n.
Proof.
  unfold ParseCIDR. intros H Hv. destruct (cut_byte "/" (to_bytes s)) as [[x y]|]; [|done]. cbn [mbind option_bind] in H.
  destruct (ParseAddr (of_bytes x)) as [a|] eqn:Ha; [|done]. cbn [mbind option_bind] in H.
  destruct (negb _); [done|]. destruct (dtoi_all y) as [b|] eqn:Hb; [|done]. cbn [mbind option_bind] in H.
  assert (0 ≤ b) as Hb0.
  { unfold dtoi_all in Hb. destruct y; [done|]. destruct (digits_val _ _) as [v|] eqn:E; [|done].
    cbn [mbind option_bind] in Hb. destruct (v <? 0xFFFFFF); [|done]. injection Hb as <-.
    by eapply digits_val_nonneg in E. }
  destruct (addr_bits a <? b) eqn:Hw; [done|]. apply Z.ltb_ge in Hw. destruct (ParseAddr_wf _ _ Ha) as [Hwf Hval].
  destruct a as [|v|v z]; injection H as <- <-; cbn in *; try done.
  unfold addr_wf in Hwf. cbn [addr_val addr_bits] in Hwf, Hw.
  pose proof (clear_low_range v (32 - b)) as Hr. split_and!; cbn [net_v4 net_ip net_bits]; [done| |lia|lia|lia|].
  - rewrite clear_low_div by lia. apply Z.mul_nonneg_nonneg; [apply Z.pow_nonneg; lia|].
    apply Z.div_pos; [lia|]. apply Z.pow_pos_nonneg; lia.
  - apply clear_low_idem. lia.
Qed.

Section sticky.
Context (keeps : bool).

(** The two chains of sticky ECMP; any other keeps its rules. *)
Definition sticky_chain (n : string) : bool := bool_decide (n = "mangle_prerouting") || bool_decide (n = "mangle_postrouting").
Definition sticky_exprs (n : IPNet) (chain : string) : list expr :=
  cidrFilterExprs n ++ (if bool_decide (chain = "mangle_prerouting") then restore_exprs else save_exprs).

Lemma Enable_run cidr ip n w : fw_ok w → handles_ok (fo_kernel w) → ParseCIDR cidr = Some (ip, n) → net_v4 n = true →
  ∃ w', EnableStickyECMP keeps fw_well cidr w = (Ok (), w') ∧ fw_ok w' ∧ fw_table (fo_fw w') = true ∧
    handles_ok (fo_kernel w') ∧
    (∀ c, sticky_chain c = true → ∃ h, rules_of (fo_kernel w') awg_mesh c =
        rules_of (fo_kernel w) awg_mesh c ++ [MkRule h (sticky_exprs n c)]) ∧
    (∀ t c, ¬ (t = awg_mesh ∧ sticky_chain c = true) → rules_of (fo_kernel w') t c = rules_of (fo_kernel w) t c).
Proof.
  intros Hw Hh Hp Hv4. unfold EnableStickyECMP. rewrite Hp, Hv4.
  rewrite (bool_decide_eq_false_2 (net_to4 n = None)) by (unfold net_to4; by rewrite Hv4).
  cbn [negb orb fw_well fa_flush1].
  destruct (ensure_spec w Hw) as (k1 & Hk1 & Hs & Ht & Hr1 & Hn1).
  destruct (AddChain_spec awg_mesh mangle_prerouting k1 Hs) as (k2 & Hk2 & Hc2 & _ & Hr2 & Hn2).
  destruct (AddRule_spec awg_mesh "mangle_prerouting" (cidrFilterExprs n ++ restore_exprs) k2 Hc2) as (k3 & Hk3 & Hm3 & Hr3 & Hn3).
  assert (is_Some (ke_tables k3 !! awg_mesh)) as Hs3 by (destruct (Hm3 _ _ Hc2) as (cs & ? & _); eauto).
  destruct (AddChain_spec awg_mesh mangle_postrouting k3 Hs3) as (k4 & Hk4 & Hc4 & Hm4 & Hr4 & Hn4).
  destruct (AddRule_spec awg_mesh "mangle_postrouting" (cidrFilterExprs n ++ save_exprs) k4 Hc4) as (k5 & Hk5 & Hm5 & Hr5 & Hn5).
  rewrite (flush_commits keeps _ _ k5).
  2: { unfold queue. cbn [fw_pending]. rewrite commit_app, Hk1. cbn [mbind option_bind commit]. rewrite Hk2.
       cbn [mbind option_bind]. rewrite Hk3. cbn [mbind option_bind]. rewrite Hk4. cbn [mbind option_bind].
       by rewrite Hk5. }
  assert (handles_ok k5) as Hh5.
  { eapply handles_ok_AddRule; [|exact Hc4|exact Hk5]. eapply handles_ok_same; [|exact Hr4|exact Hn4].
    eapply handles_ok_AddRule; [|exact Hc2|exact Hk3]. eapply handles_ok_same; [|exact Hr2|exact Hn2].
    by eapply handles_ok_same; [|exact Hr1|exact Hn1]. }
  eexists. split_and!; [done|split; [done|]|exact Ht|exact Hh5| |]; cbn [fo_kernel].
  - intros _. destruct (Hm5 _ _ Hc4) as (cs & ? & _). eauto.
  - intros c Hc. unfold sticky_chain in Hc. rewrite Hr5, Hr4, Hr3, Hr2, Hr1.
    apply orb_true_iff in Hc as [->%bool_decide_eq_true| ->%bool_decide_eq_true].
    + exists (ke_next k2). rewrite app_nil_r. done.
    + exists (ke_next k4). rewrite app_nil_r. done.
  - intros t c Hc. rewrite Hr5, Hr4, Hr3, Hr2, Hr1. unfold sticky_chain in Hc.
    rewrite !bool_decide_eq_false_2, !app_nil_r; [done|..];
      (intros [-> ->]; apply Hc; split; [done|]; apply orb_true_iff; rewrite !bool_decide_eq_true; auto).
Qed.

Lemma del_matching_spec n c k : handles_ok k → is_Some (ke_tables k !! awg_mesh) →
  ∃ hs, del_matching fw_well n c k = DelRule awg_mesh c <$> hs ∧
    filter (λ r, ru_Handle r ∉ hs) (rules_of k awg_mesh c) =
    filter (λ r, ¬ ruleMatchesCIDR (ru_Exprs r) n = true) (rules_of k awg_mesh c).
Proof.
  intros Hh [cs E]. unfold del_matching. cbn [fw_well fa_list].
  exists (ru_Handle <$> filter (λ r, ruleMatchesCIDR (ru_Exprs r) n = true) (rules_of k awg_mesh c)). split.
  - unfold rules_of. destruct (GetRules true awg_mesh c k); [|done]. cbn [default from_option id].
    by rewrite <- list_fmap_compose.
  - apply (filter_handles (λ r, ruleMatchesCIDR (ru_Exprs r) n = true)). apply Hh.
Qed.

Lemma Disable_run cidr ip n w : fw_ok w → fw_table (fo_fw w) = true → handles_ok (fo_kernel w) →
  ParseCIDR cidr = Some (ip, n) →
  ∃ w', DisableStickyECMP keeps fw_well cidr w = (Ok (), w') ∧ fw_ok w' ∧
    (∀ c, sticky_chain c = true → rules_of (fo_kernel w') awg_mesh c =
        filter (λ r, ¬ ruleMatchesCIDR (ru_Exprs r) n = true) (rules_of (fo_kernel w) awg_mesh c)) ∧
    (∀ t c, ¬ (t = awg_mesh ∧ sticky_chain c = true) → rules_of (fo_kernel w') t c = rules_of (fo_kernel w) t c).
Proof.
  intros Hw Ht Hh Hp. unfold DisableStickyECMP. rewrite Hp, Ht. cbn [negb]. pose proof (fk_table w Hw Ht) as Hs.
  destruct (del_matching_spec n "mangle_prerouting" (fo_kernel w) Hh Hs) as (hs1 & Hd1 & Hf1).
  destruct (del_matching_spec n "mangle_postrouting" (fo_kernel w) Hh Hs) as (hs2 & Hd2 & Hf2).
  cbn [fw_well fa_del negb andb fa_flush1]. change (MkFwAnswers _ _ _ _) with fw_well. rewrite Hd1, Hd2.
  destruct (commit_dels awg_mesh "mangle_prerouting" hs1 (fo_kernel w) Hs) as (k1 & Hk1 & Hs1 & Hr1 & _).
  destruct (commit_dels awg_mesh "mangle_postrouting" hs2 k1 Hs1) as (k2 & Hk2 & Hs2 & Hr2 & _).
  rewrite (flush_commits keeps _ _ k2).
  2: { unfold queue. cbn [fw_pending]. rewrite (fk_pending w Hw). cbn [app]. rewrite commit_app, Hk1. cbn [mbind option_bind]. done. }
  eexists. split_and!; [done|by split| |]; cbn [fo_kernel].
  - intros c Hc. unfold sticky_chain in Hc. rewrite Hr2, Hr1.
    apply orb_true_iff in Hc as [->%bool_decide_eq_true| ->%bool_decide_eq_true].
    + rewrite bool_decide_eq_false_2 by (intros [_ ?]; done). by rewrite bool_decide_eq_true_2.
    + rewrite bool_decide_eq_true_2 by done. by rewrite bool_decide_eq_false_2 by (intros [_ ?]; done).
  - intros t c Hc. unfold sticky_chain in Hc. rewrite Hr2, Hr1.
    rewrite !bool_decide_eq_false_2; [done|..];
      (intros [-> ->]; apply Hc; split; [done|]; apply orb_true_iff; rewrite !bool_decide_eq_true; auto).
Qed.
End sticky.

(** Sticky ECMP for a network can be enabled and disabled without disturbing
    anything else. On a working kernel enabling adds one rule to each of two chains;
    they store the mark of a new connection and restore it on its later packets,
    for destinations inside the network and no others; disabling removes every rule
    of this network, however often it was enabled, and keeps every other rule, those
    of other networks included. *)
Theorem sticky_roundtrip keeps cidr ip n w :
  fw_ok w → handles_ok (fo_kernel w) → ParseCIDR cidr = Some (ip, n) → net_v4 n = true →
  ∃ w1 w2, EnableStickyECMP keeps fw_well cidr w = (Ok (), w1) ∧
    DisableStickyECMP keeps fw_well cidr w1 = (Ok (), w2) ∧ fw_ok w2 ∧
    (∀ c, sticky_chain c = true →
       (∃ h, rules_of (fo_kernel w1) awg_mesh c = rules_of (fo_kernel w) awg_mesh c ++ [MkRule h (sticky_exprs n c)]) ∧
       (∀ r, r ∈ rules_of (fo_kernel w2) awg_mesh c ↔
             r ∈ rules_of (fo_kernel w) awg_mesh c ∧ ruleMatchesCIDR (ru_Exprs r) n = false) ∧
       (∀ n' es, net4_ok n' → n' ≠ n → ruleMatchesCIDR (cidrFilterExprs n' ++ es) n = false)) ∧
    (∀ t c, ¬ (t = awg_mesh ∧ sticky_chain c = true) → rules_of (fo_kernel w2) t c = rules_of (fo_kernel w) t c) ∧
    (∀ d p, 0 ≤ d < 2 ^ 32 → dst_is d p → 0 ≤ pk_mark p < 2 ^ 32 → 0 ≤ pk_ctmark p < 2 ^ 32 →
       let inside := bool_decide (clear_low d (32 - net_bits n) = net_ip n) in
       run_rule (sticky_exprs n "mangle_prerouting") p =
         (if inside && negb (Z.land (pk_ctstate p) 6 =? 0) then with_mark (pk_ctmark p) p else p) ∧
       run_rule (sticky_exprs n "mangle_postrouting") p =
         (if inside && negb (Z.land (pk_ctstate p) 8 =? 0) then with_ctmark (pk_mark p) p else p)).
Proof.
  intros Hw Hh Hp Hv4. pose proof (ParseCIDR_net4_ok _ _ _ Hp Hv4) as Hn.
  destruct (Enable_run keeps cidr ip n w Hw Hh Hp Hv4) as (w1 & H1 & Hw1 & Ht1 & Hh1 & Hs1 & Ho1).
  destruct (Disable_run keeps cidr ip n w1 Hw1 Ht1 Hh1 Hp) as (w2 & H2 & Hw2 & Hs2 & Ho2).
  exists w1, w2. split_and!; [done..| | |].
  - intros c Hc. destruct (Hs1 c Hc) as [h Hr]. split_and!; [by exists h| |].
    + intros r. rewrite (Hs2 c Hc), Hr, list_elem_of_filter, elem_of_app, list_elem_of_singleton, not_true_iff_false.
      split; [|tauto]. intros [Hm [Hin| ->]]; [done|]. cbn [ru_Exprs] in Hm. unfold sticky_exprs in Hm.
      rewrite matches_own in Hm by done. by rewrite bool_decide_eq_true_2 in Hm.
    + intros n' es Hn' Hne. rewrite matches_own by done. by apply bool_decide_eq_false_2.
  - intros t c Hc. rewrite Ho2 by done. by apply Ho1.
  - intros d p Hd Hdst Hm Hc. exact (sticky_rules_run n d p Hn Hd Hdst Hm Hc).
Qed.

Lemma handles_ok_empty : handles_ok kernel0.
Proof. intros t n. split; constructor. Qed.

Lemma sticky_roundtrip_witness :
  ∃ w1 w2, EnableStickyECMP false fw_well "10.99.128.0/17" fworld0 = (Ok (), w1) ∧
    DisableStickyECMP false fw_well "10.99.128.0/17" w1 = (Ok (), w2) ∧
    length (rules_of (fo_kernel w1) awg_mesh "mangle_prerouting") = 1%nat ∧
    rules_of (fo_kernel w2) awg_mesh "mangle_prerouting" = [].
Proof.
  destruct (sticky_roundtrip false "10.99.128.0/17" (v4_mapped 174292992) (MkIPNet true 174292992 17) fworld0)
    as (w1 & w2 & H1 & H2 & _); [by split|exact handles_ok_empty|by vm_compute|done|].
  exists w1, w2. split; [exact H1|]. split; [exact H2|]. injection H1 as <-. split; [by vm_compute|].
  vm_compute in H2. injection H2 as <-. by vm_compute.
Defined.

(** ** A table that is remembered but was never created *)

Inductive fw_op := OpNAT (iface : string) | OpMSS | OpSticky (cidr : string) | OpTeardown.
Definition run_fw_op (keeps : bool) (a : fw_answers) (o : fw_op) (w : fworld) : res fw_error unit * fworld :=
  match o with
  | OpNAT iface => SetupNAT keeps a iface w
  | OpMSS => ClampMSSToPMTU keeps a w
  | OpSticky cidr => EnableStickyECMP keeps a cidr w
  | OpTeardown => TeardownNAT keeps a w
  end.
Fixpoint run_fw_ops (keeps : bool) (ops : list (fw_answers * fw_op)) (w : fworld) : list (res fw_error unit) * fworld :=
  match ops with
  | [] => ([], w)
  | (a, o) :: ops =>
      let '(r, w) := run_fw_op keeps a o w in
      let '(rs, w) := run_fw_ops keeps ops w in (r :: rs, w)
  end.

(** The firewall remembers its table, the kernel has none, nothing is queued. *)
Definition table_lost (w : fworld) : Prop :=
  fo_fw w = MkFirewall true [] ∧ ke_tables (fo_kernel w) !! awg_mesh = None.

Lemma lost_flush ok m ms k : ke_tables k !! awg_mesh = None →
  (∃ c, m = AddChain awg_mesh c) ∨ m = DelTable awg_mesh →
  ∃ e, flush false ok (MkFworld (MkFirewall true (m :: ms)) k) = (Err e, MkFworld (MkFirewall true []) k).
Proof.
  intros Hk Hm. unfold flush, Flush. cbn [fo_fw fo_kernel fw_pending fw_table]. destruct ok; cbn [negb]; [|eauto].
  assert (apply_msg m k = None) as Hn by (destruct Hm as [[c ->]| ->]; cbn; by rewrite Hk).
  cbn [commit]. rewrite Hn. cbn. eauto.
Qed.

Lemma lost_step a o w : table_lost w → ∃ e, run_fw_op false a o w = (Err e, w).
Proof.
  intros [Hf Hk]. destruct w as [f k]. cbn in Hf, Hk. subst f.
  assert (∀ a c mt es e1 e2, ∃ e, add_unless false a c mt es e1 e2 (MkFworld (MkFirewall true []) k) =
    (Err e, MkFworld (MkFirewall true []) k)) as Hadd.
  { intros. unfold add_unless. unfold ensureTable, queue; cbn [fo_fw fw_table fw_pending app fo_kernel].
    destruct (lost_flush (fa_flush1 a0) (AddChain awg_mesh c) [] k Hk) as [e ->]; eauto. }
  destruct o as [iface| |cidr|]; cbn [run_fw_op]; [apply Hadd..| |].
  - unfold EnableStickyECMP. destruct (ParseCIDR cidr) as [[ip n]|]; [|eauto]. destruct (_ || _); [eauto|].
    unfold ensureTable, queue; cbn [fo_fw fw_table fw_pending app fo_kernel].
    destruct (lost_flush (fa_flush1 a) (AddChain awg_mesh mangle_prerouting)
      [AddRule awg_mesh "mangle_prerouting" (cidrFilterExprs n ++ restore_exprs); AddChain awg_mesh mangle_postrouting;
       AddRule awg_mesh "mangle_postrouting" (cidrFilterExprs n ++ save_exprs)] k Hk) as [e ->]; eauto.
  - unfold TeardownNAT. unfold queue; cbn [fo_fw fw_table negb fw_pending app fo_kernel].
    destruct (lost_flush (fa_flush1 a) (DelTable awg_mesh) [] k Hk) as [e ->]; eauto.
Qed.

Lemma lost_run ops : ∀ w, table_lost w →
  let '(rs, w') := run_fw_ops false ops w in w' = w ∧ Forall (λ r, ∃ e, r = Err e) rs.
Proof.
  induction ops as [|[a o] ops IH]; intros w Hl; cbn [run_fw_ops]; [done|].
  destruct (lost_step a o w Hl) as [e ->]. specialize (IH w Hl). destruct (run_fw_ops false ops w) as [rs w'].
  destruct IH as [-> IH]. split; [done|]. constructor; eauto.
Qed.

(** One failed transaction disables the firewall for good. The firewall marks
    its table as created before the kernel has confirmed it; with a library that
    forgets a failed batch, if the very first flush fails then every later
    operation fails as well, however the kernel behaves from then on, and no rule is
    ever installed. *)
Theorem failed_flush_is_permanent iface a ops :
  fa_flush1 a = false →
  let '(r, w) := SetupNAT false a iface fworld0 in
  (∃ e, r = Err e) ∧
  let '(rs, w') := run_fw_ops false ops w in
  w' = w ∧ fo_kernel w' = kernel0 ∧ Forall (λ r, ∃ e, r = Err e) rs.
Proof.
  intros Ha. unfold SetupNAT, add_unless. rewrite Ha.
  change (flush false false _) with (@Err errno unit EOTHER, MkFworld (MkFirewall true []) kernel0).
  split; [eauto|]. pose proof (lost_run ops (MkFworld (MkFirewall true []) kernel0)) as H.
  destruct (run_fw_ops _ _ _) as [rs w']. destruct H as [-> H]; [by split|]. by split_and!.
Qed.

Lemma failed_flush_is_permanent_witness :
  fa_flush1 (MkFwAnswers false true (λ _, true) true) = false ∧
  ∃ e, (run_fw_ops false [(fw_well, OpNAT "eth0")] (SetupNAT false (MkFwAnswers false true (λ _, true) true) "eth0" fworld0).2).1
    = [Err e].
Proof.
  split; [done|]. pose proof (failed_flush_is_permanent "eth0" (MkFwAnswers false true (λ _, true) true)
    [(fw_well, OpNAT "eth0")] eq_refl) as H.
  destruct (SetupNAT _ _ _ _) as [r w]. destruct H as [_ H]. cbn [snd].
  destruct (run_fw_ops _ _ _) as [rs w'] eqn:E. destruct H as (_ & _ & Hf). cbn [fst].
  cbn in E. destruct (SetupNAT false fw_well "eth0" w) as [r1 w1]. injection E as <- <-.
  apply Forall_singleton in Hf as [e ->]. by exists e.
Defined.
