(* ===== verification/Masquerade.v ===== *)
(** * The egress boundary ([src/pkg/nftables/masquerade.go], [src/pkg/node/egress_v2.go])

    The installer and the egress runtime are written against an interface, here the
    class [NATFirewall] with the laws a client relies on; the nftables firewall is an
    instance. *)

From S2P Require Import Prelude GoStrings GoNet GoText Nft Firewall.

(** ** The interface *)

(** [SetupNAT] in answer to the environment [A]. [nat_guards f iface] says that
    traffic leaving through the interface is masqueraded. *)
Class NATFirewall (F A : Type) := {
  nat_SetupNAT : A → string → F → res fw_error unit * F;
  nat_inv : F → Prop;
  nat_guards : F → string → Prop;
  nat_inv_kept : ∀ a iface f, nat_inv f → nat_inv (nat_SetupNAT a iface f).2;
  nat_installs : ∀ a iface f f', nat_inv f → nat_SetupNAT a iface f = (Ok (), f') → nat_guards f' iface;
  nat_keeps : ∀ a iface f j, nat_inv f → nat_guards f j → nat_guards (nat_SetupNAT a iface f).2 j
}.

(** ** Planning *)

Definition defaultTableName : string := "awg_mesh".
Definition defaultPostroutingName : string := "nat_postrouting".

Record MasqueradePlan := MkMasqPlan { mp_InternetInterface : string; mp_Table : string; mp_Chain : string; mp_Operation : string }.
Definition MasqueradePlan0 : MasqueradePlan := MkMasqPlan "" "" "" "".

Inductive masq_error :=
  | ErrInternetRequired
  | ErrInternetTooLong (iface : string)
  | ErrInternetChars (iface : string)
  | ErrInternetMesh (iface : string)
  | ErrInstallerNil
  | ErrMasqContext
  | ErrMasqApply (iface : string) (e : fw_error).

Definition isMeshInterfaceName (name : string) : bool :=
  let lower := ToLower name in
  bool_decide (lower = "wg") || HasPrefix lower "wg-" || HasPrefix lower "wg_" || HasPrefix lower "awg" || HasPrefix lower "tun".

(** [strings.ContainsAny(s, " /\t\r\n")] *)
Definition bad_iface_char (a : ascii) : bool := bool_decide (a ∈ [" "; "/"; "009"; "013"; "010"]%char).

Definition normalizeInternetInterface (name : string) : res masq_error string :=
  let iface := TrimSpace name in
  if bool_decide (iface = "") then Err ErrInternetRequired else
  if bool_decide (15 < length (to_bytes iface))%nat then Err (ErrInternetTooLong iface) else
  if existsb bad_iface_char (to_bytes iface) then Err (ErrInternetChars iface) else
  if isMeshInterfaceName iface then Err (ErrInternetMesh iface) else
  Ok iface.

Definition Plan (internetInterface : string) : res masq_error MasqueradePlan :=
  let! iface := normalizeInternetInterface internetInterface in
  Ok (MkMasqPlan iface defaultTableName defaultPostroutingName ("oifname " +:+ iface +:+ " masquerade")).

Section installer.
Context {F A : Type} `{!NATFirewall F A}.

(** A nil installer is [None]; the context's error is read before and after the
    installation. *)
Definition Apply (ctx1 ctx2 : bool) (a : A) (internetInterface : string) (i : option F)
    : res masq_error MasqueradePlan * option F :=
  match i with
  | None => (Err ErrInstallerNil, None)
  | Some f =>
      if negb ctx1 then (Err ErrMasqContext, Some f) else
      match Plan internetInterface with
      | Err e => (Err e, Some f)
      | Ok plan =>
          match nat_SetupNAT a (mp_InternetInterface plan) f with
          | (Err e, f) => (Err (ErrMasqApply (mp_InternetInterface plan) e), Some f)
          | (Ok _, f) => if negb ctx2 then (Err ErrMasqContext, Some f) else (Ok plan, Some f)
          end
      end
  end.

(** ** The egress runtime *)

Record Egress := MkEgress {
  eg_Name : string; eg_OverlayIP : string; eg_InternetInterface : string; eg_plan : MasqueradePlan; eg_started : bool
}.

Inductive egress_error :=
  | ErrEgressName
  | ErrEgressOverlay
  | ErrEgressOverlayParse (ip : string)
  | ErrEgressNil
  | ErrEgressMasq (e : masq_error)
  | ErrEgressAgent (err : string).

Definition NewEgress (name overlayIP internetInterface : string) : res egress_error Egress :=
  if bool_decide (TrimSpace name = "") then Err ErrEgressName else
  if bool_decide (TrimSpace overlayIP = "") then Err ErrEgressOverlay else
  match ParseAddr overlayIP with
  | None => Err (ErrEgressOverlayParse overlayIP)
  | Some _ =>
      match Plan internetInterface with
      | Err e => Err (ErrEgressMasq e)
      | Ok plan => Ok (MkEgress name overlayIP (mp_InternetInterface plan) plan false)
      end
  end.

(** [Run]: the boundary first, then the agent ([None] when there is none, and the
    call waits for the context). Also returned: whether the agent was started. *)
Definition egress_Run (ctx1 ctx2 : bool) (a : A) (agent : option (res string unit)) (e : Egress) (i : option F)
    : res egress_error unit * bool * Egress * option F :=
  match Apply ctx1 ctx2 a (eg_InternetInterface e) i with
  | (Err err, i) => (Err (ErrEgressMasq err), false, e, i)
  | (Ok plan, i) =>
      let e := MkEgress (eg_Name e) (eg_OverlayIP e) (eg_InternetInterface e) plan true in
      match agent with
      | Some (Err err) => (Err (ErrEgressAgent err), true, e, i)
      | Some (Ok _) => (Ok (), true, e, i)
      | None => (Ok (), false, e, i)
      end
  end.

Record EgressStatus := MkEgressStatus {
  es_Name : string; es_OverlayIP : string; es_InternetInterface : string; es_Masquerade : MasqueradePlan; es_Started : bool
}.
Definition egress_Status (e : option Egress) : EgressStatus :=
  match e with
  | None => MkEgressStatus "" "" "" MasqueradePlan0 false
  | Some e => MkEgressStatus (eg_Name e) (eg_OverlayIP e) (eg_InternetInterface e) (eg_plan e) (eg_started e)
  end.
End installer.

(** ** What a client gets from the interface *)

Lemma normalize_ok name iface : normalizeInternetInterface name = Ok iface →
  iface = TrimSpace name ∧ iface ≠ "" ∧ (length (to_bytes iface) ≤ 15)%nat ∧
  existsb bad_iface_char (to_bytes iface) = false ∧ isMeshInterfaceName iface = false.
Proof.
  unfold normalizeInternetInterface. cbv zeta. intros H. inv_res. bool_to_prop. split_and!; auto; lia.
Qed.

(** Planning a planned interface gives the same plan. *)
Lemma Plan_again name plan : Plan name = Ok plan → Plan (mp_InternetInterface plan) = Ok plan.
Proof.
  unfold Plan. intros H. inv_res. cbn [mp_InternetInterface]. assert (normalizeInternetInterface a = Ok a) as ->; [|done].
  destruct (normalize_ok _ _ Ha) as (-> & H1 & H2 & H3 & H4). unfold normalizeInternetInterface. cbv zeta.
  rewrite TrimSpace_idem. rewrite bool_decide_eq_false_2 by done. rewrite bool_decide_eq_false_2 by lia. by rewrite H3, H4.
Qed.

Section client.
Context {F A : Type} `{!NATFirewall F A}.

Lemma Apply_guards ctx1 ctx2 a name f plan i' : nat_inv f →
  Apply ctx1 ctx2 a name (Some f) = (Ok plan, i') →
  Plan name = Ok plan ∧ ∃ f', i' = Some f' ∧ nat_inv f' ∧ nat_guards f' (mp_InternetInterface plan).
Proof.
  intros Hinv H. unfold Apply in H. destruct ctx1; [|done]. cbn [negb] in H. destruct (Plan name) as [p|e]; [|done].
  pose proof (nat_inv_kept a (mp_InternetInterface p) f Hinv) as Hk.
  destruct (nat_SetupNAT a (mp_InternetInterface p) f) as [[[]|e] f'] eqn:E; [|done].
  destruct ctx2; [|done]. injection H as <- <-. split; [done|]. exists f'. split_and!; [done|done|].
  exact (nat_installs a _ f f' Hinv E).
Qed.

Lemma egress_run_spec name overlay internet e ctx1 ctx2 a agent f : nat_inv f →
  NewEgress name overlay internet = Ok e →
  let '(r, ran, e', i') := egress_Run ctx1 ctx2 a agent e (Some f) in
  (ran = true ∨ r = Ok () → eg_started e' = true) ∧
  (eg_started e' = true → ∃ f', i' = Some f' ∧ nat_guards f' (eg_InternetInterface e') ∧ eg_plan e' = eg_plan e) ∧
  (∀ j, nat_guards f j → ∃ f', i' = Some f' ∧ nat_guards f' j) ∧
  isMeshInterfaceName (eg_InternetInterface e') = false ∧ (length (to_bytes (eg_InternetInterface e')) ≤ 15)%nat.
Proof.
  intros Hinv Hnew. unfold NewEgress in Hnew. do 2 (case_bool_decide; [done|]). destruct (ParseAddr overlay); [|done].
  destruct (Plan internet) as [plan|err] eqn:Hplan; [|done]. injection Hnew as <-. cbn [eg_InternetInterface].
  assert (isMeshInterfaceName (mp_InternetInterface plan) = false ∧ (length (to_bytes (mp_InternetInterface plan)) ≤ 15)%nat) as [Hm Hl].
  { unfold Plan in Hplan. inv_res. destruct (normalize_ok _ _ Ha) as (_ & _ & ? & _ & ?). done. }
  unfold egress_Run. cbn [eg_InternetInterface].
  assert (∀ j, nat_guards f j → ∃ f', (Apply ctx1 ctx2 a (mp_InternetInterface plan) (Some f)).2 = Some f' ∧ nat_guards f' j) as Hkeep.
  { intros j Hj. unfold Apply. destruct ctx1; cbn [negb]; [|eauto]. rewrite (Plan_again _ _ Hplan).
    pose proof (nat_keeps a (mp_InternetInterface plan) f j Hinv Hj) as Hk.
    destruct (nat_SetupNAT a (mp_InternetInterface plan) f) as [[[]|err] f']; cbn in Hk; [destruct ctx2|]; cbn; eauto. }
  destruct (Apply ctx1 ctx2 a (mp_InternetInterface plan) (Some f)) as [[p|err] i'] eqn:Happ; cbn [snd] in Hkeep.
  - destruct (Apply_guards _ _ _ _ _ _ _ Hinv Happ) as (Hp & f' & -> & _ & Hg).
    rewrite (Plan_again _ _ Hplan) in Hp. injection Hp as <-.
    destruct agent as [[[]|err]|]; cbn; split_and!; eauto.
  - cbn. split_and!; [intros [?|?]; done|done|done|done|done].
Qed.
End client.

(** ** The firewall implements the interface *)

Definition is_add (m : msg) : bool := match m with AddTable _ | AddChain _ _ | AddRule _ _ _ => true | _ => false end.

Lemma commit_adds ms : ∀ k k', Forall (λ m, is_add m = true) ms → commit ms k = Some k' →
  ∀ t n r, r ∈ rules_of k t n → r ∈ rules_of k' t n.
Proof.
  induction ms as [|m ms IH]; intros k k' Ha Hc t n r Hr; [by injection Hc as <-|].
  apply Forall_cons in Ha as [Hm Ha]. cbn [commit] in Hc. destruct (apply_msg m k) as [k1|] eqn:E; [|done].
  cbn [mbind option_bind] in Hc. eapply IH; [done|done|]. destruct m as [t0|t0 c|t0 n0 es|t0|t0 n0 h]; try done.
  - destruct (AddTable_spec t0 k) as (k2 & H2 & _ & _ & Hr2 & _). assert (k2 = k1) as -> by congruence. by rewrite Hr2.
  - assert (is_Some (ke_tables k !! t0)) as Hs by (cbn in E; destruct (ke_tables k !! t0); [eauto|done]).
    destruct (AddChain_spec t0 c k Hs) as (k2 & H2 & _ & _ & Hr2 & _). assert (k2 = k1) as -> by congruence. by rewrite Hr2.
  - assert (has_chain k t0 n0) as Hs.
    { cbn in E. destruct (ke_tables k !! t0) as [cs|] eqn:Ek; [|done]. destruct (existsb (named n0) cs) eqn:Ex; [|done].
      by exists cs. }
    destruct (AddRule_spec t0 n0 es k Hs) as (k2 & H2 & _ & Hr2 & _). assert (k2 = k1) as -> by congruence.
    rewrite Hr2. apply elem_of_app. by left.
Qed.

(** Only additions are queued, as after any history of additions. *)
Definition fw_adds (w : fworld) : Prop := Forall (λ m, is_add m = true) (fw_pending (fo_fw w)).
Definition fw_guards (w : fworld) (iface : string) : Prop :=
  ∃ r, r ∈ nat_rules (fo_kernel w) ∧ ruleMatchesMasqOnIface (ru_Exprs r) (ifaceBytes iface) = true.

Section instance.
Context (keeps : bool).

Lemma flush_adds ok w : fw_adds w → fw_adds (flush keeps ok w).2 ∧
  (∀ t n r, r ∈ rules_of (fo_kernel w) t n → r ∈ rules_of (fo_kernel (flush keeps ok w).2) t n).
Proof.
  intros Ha. unfold flush, Flush. destruct ok; cbn [negb].
  - destruct (commit (fw_pending (fo_fw w)) (fo_kernel w)) as [k|] eqn:E; cbn [snd].
    + split; [constructor|]. cbn [fo_kernel]. by eapply commit_adds.
    + split; [|done]. unfold fw_adds. cbn. by destruct keeps; [|constructor].
  - cbn [snd]. split; [|done]. unfold fw_adds. cbn. by destruct keeps; [|constructor].
Qed.

Lemma SetupNAT_adds a iface w : fw_adds w → fw_adds (SetupNAT keeps a iface w).2 ∧
  (∀ t n r, r ∈ rules_of (fo_kernel w) t n → r ∈ rules_of (fo_kernel (SetupNAT keeps a iface w).2) t n).
Proof.
  intros Ha. unfold SetupNAT, add_unless. cbv zeta.
  set (f1 := queue _ _). assert (fw_adds (MkFworld f1 (fo_kernel w))) as H1.
  { unfold fw_adds, f1, queue, ensureTable. cbn [fo_fw fw_pending]. apply Forall_app. split; [|by repeat constructor].
    destruct (fw_table (fo_fw w)); [exact Ha|]. cbn [fw_pending]. apply Forall_app. split; [exact Ha|by repeat constructor]. }
  destruct (flush_adds (fa_flush1 a) _ H1) as [H2 H3]. cbn [fo_kernel] in H3.
  destruct (flush keeps (fa_flush1 a) (MkFworld f1 (fo_kernel w))) as [[[]|e] w1]; cbn [snd] in *; [|done].
  destruct (match GetRules _ _ _ _ with Some _ => _ | None => _ end); [done|].
  set (f2 := queue _ _). assert (fw_adds (MkFworld f2 (fo_kernel w1))) as H4.
  { unfold fw_adds, f2, queue. cbn [fo_fw fw_pending]. apply Forall_app. split; [exact H2|by repeat constructor]. }
  destruct (flush_adds (fa_flush2 a) _ H4) as [H5 H6]. cbn [fo_kernel] in H6.
  destruct (flush keeps (fa_flush2 a) (MkFworld f2 (fo_kernel w1))) as [[[]|e] w2]; cbn [snd] in *; auto.
Qed.

Lemma SetupNAT_guards a iface w w' : fw_adds w → SetupNAT keeps a iface w = (Ok (), w') → fw_guards w' iface.
Proof.
  intros Ha H. unfold SetupNAT, add_unless in H. cbv zeta in H.
  set (f1 := queue _ _) in H. destruct (flush keeps (fa_flush1 a) (MkFworld f1 (fo_kernel w))) as [[[]|e] w1] eqn:E1; [|done].
  destruct (GetRules (fa_list a _) awg_mesh _ (fo_kernel w1)) as [rules|] eqn:Eg; [destruct (existsb _ rules) eqn:Ex|]; cbv iota beta in H.
  1: { injection H as <-. apply existsb_exists in Ex as (r & Hr & Hm). exists r. split; [|done].
       unfold nat_rules, rules_of. unfold GetRules in Eg. destruct (fa_list a _); [|done]. cbn [negb] in Eg.
       unfold GetRules. cbn [negb]. cbn [ch_Name nat_postrouting] in Eg. rewrite Eg. by apply list_elem_of_In. }
  all: set (f2 := queue _ _) in H;
    destruct (flush keeps (fa_flush2 a) (MkFworld f2 (fo_kernel w1))) as [[[]|e] w2] eqn:E2; [|done]; injection H as <-;
    unfold flush, Flush in E1, E2; cbn [fo_fw fo_kernel] in E1, E2;
    destruct (fa_flush1 a); [|done]; destruct (fa_flush2 a); [|done]; cbn [negb] in E1, E2;
    destruct (commit (fw_pending f1) (fo_kernel w)) as [k1|]; [|done]; injection E1 as <-;
    unfold f2, queue in E2; cbn [fo_fw fw_pending fo_kernel app commit] in E2;
    destruct (apply_msg (AddRule awg_mesh (ch_Name nat_postrouting) (masq_exprs (ifaceBytes iface))) k1) as [k2|] eqn:E3; [|done];
    cbn [mbind option_bind] in E2; injection E2 as <-;
    (assert (has_chain k1 awg_mesh "nat_postrouting") as Hs;
     [cbn in E3; destruct (ke_tables k1 !! awg_mesh) as [cs|] eqn:Ek; [|done];
      destruct (existsb (named "nat_postrouting") cs) eqn:Ex'; [by exists cs|done]|]);
    destruct (AddRule_spec awg_mesh "nat_postrouting" (masq_exprs (ifaceBytes iface)) k1 Hs) as (k3 & H3 & _ & Hr & _);
    assert (k3 = k2) as -> by (cbn [ch_Name nat_postrouting] in E3; congruence);
    exists (MkRule (ke_next k1) (masq_exprs (ifaceBytes iface))); (split; [|cbn [ru_Exprs]; rewrite masq_matches; by apply bool_decide_eq_true_2]);
    unfold nat_rules; cbn [fo_kernel]; rewrite Hr, bool_decide_eq_true_2 by done; apply elem_of_app; right; by left.
Qed.
End instance.

#[global, refine] Instance nftables_NATFirewall : NATFirewall fworld (bool * fw_answers) := {
  nat_SetupNAT := λ a iface w, SetupNAT a.1 a.2 iface w;
  nat_inv := fw_adds;
  nat_guards := fw_guards
}.
Proof.
  - intros [k a] iface w Hw. by apply SetupNAT_adds.
  - intros [k a] iface w w' Hw H. by eapply SetupNAT_guards.
  - intros [k a] iface w j Hw (r & Hr & Hm). exists r. split; [|done]. by apply SetupNAT_adds.
Defined.

(** An egress node never carries traffic unprotected. Whatever the kernel
    answers, if the agent of an egress built by [NewEgress] was started or [Run]
    succeeded, then the kernel has a rule that masquerades the configured internet
    interface - a name of at most 15 bytes that is not a mesh interface - and the
    status reports the plan; and every interface that was masqueraded before stays
    so. Proved for any implementation of the firewall interface. *)
Theorem egress_nat_before_agent {F A} `{!NATFirewall F A} name overlay internet e ctx1 ctx2 (a : A) agent (f : F) :
  nat_inv f → NewEgress name overlay internet = Ok e →
  let '(r, ran, e', i') := egress_Run ctx1 ctx2 a agent e (Some f) in
  (ran = true ∨ r = Ok () → eg_started e' = true) ∧
  (eg_started e' = true → ∃ f', i' = Some f' ∧ nat_guards f' (eg_InternetInterface e') ∧ eg_plan e' = eg_plan e) ∧
  (∀ j, nat_guards f j → ∃ f', i' = Some f' ∧ nat_guards f' j) ∧
  isMeshInterfaceName (eg_InternetInterface e') = false ∧ (length (to_bytes (eg_InternetInterface e')) ≤ 15)%nat.
Proof. apply egress_run_spec. Qed.

(** With the nftables firewall on an empty kernel. *)
Lemma egress_nat_before_agent_witness :
  ∃ e e' w, NewEgress "eg-1" "10.99.0.9" " eth0 " = Ok e ∧
    egress_Run true true (false, fw_well) (Some (Ok ())) e (Some fworld0) = (Ok (), true, e', Some w) ∧
    fw_guards w "eth0".
Proof.
  destruct (NewEgress "eg-1" "10.99.0.9" " eth0 ") as [e|err] eqn:He; [|by vm_compute in He].
  pose proof (egress_nat_before_agent "eg-1" "10.99.0.9" " eth0 " e true true (false, fw_well) (Some (Ok ())) fworld0
    (Forall_nil_2 _) He) as H.
  destruct (egress_Run _ _ _ _ _ _) as [[[r ran] e'] i'] eqn:E. destruct H as (_ & Hg & _).
  vm_compute in He. injection He as <-. vm_compute in E. injection E as <- <- <- <-.
  destruct (Hg eq_refl) as (f' & [= <-] & Hf & _). do 3 eexists. split; [done|]. split; [by vm_compute|exact Hf].
Defined.
