(* ===== verification/Dscp.v ===== *)
(** * DSCP policy routing ([src/pkg/routing/dscp.go])

    Packets are classified by the DSCP field of their IPv4 header: an nftables rule
    turns the field into a firewall mark, an ip rule sends marked packets to a table
    of their own. The host is the nftables kernel state, the ip rules, the default
    route of each table and the table-name file. *)

From S2P Require Import Prelude GoStrings GoNet GoText Nft Firewall.

Record DSCPPolicy := MkPolicy { dp_DSCP : Z; dp_Fwmark : Z; dp_TableID : Z; dp_Gateway : string; dp_Device : string }.

(** [netlink.Rule], as far as it is used. *)
Record iprule := MkIprule { ir_Mark : Z; ir_Table : Z; ir_Priority : Z }.
#[global] Instance iprule_dec : EqDecision iprule.
Proof. solve_decision. Defined.

Record host := MkHost {
  ho_nft : kernel;
  ho_rules : list iprule;
  ho_routes : gmap Z (Z * Z);        (* default route of a table: gateway and link *)
  ho_names : option string           (* the table-name file *)
}.

Definition dscpPriorityBase : Z := 100.
Definition dscpMarkMin : Z := 1.
Definition dscpMarkMax : Z := 63.

Inductive dscp_error :=
  | ErrDSCPConn
  | ErrDSCPRange (dscp : Z)
  | ErrDSCPMark (mark dscp : Z)
  | ErrDSCPTable (table expected : Z)
  | ErrDSCPDuplicate (dscp : Z)
  | ErrDSCPFlush (e : errno)
  | ErrDSCPRule (mark table : Z)
  | ErrDSCPGateway (gateway : string) (dscp : Z)
  | ErrDSCPLink (device : string) (dscp : Z)
  | ErrDSCPRoute (gateway device : string) (table : Z)
  | ErrDSCPListRules.

(** What the host answers: the nftables connection, writing and renaming the name
    file, the flush, each ip rule, each route, the links, the listing of ip rules and
    each deletion. *)
Record dscp_answers := MkDscpAnswers {
  da_conn : bool; da_write : bool; da_rename : bool; da_flush : bool; da_rule : nat → bool; da_route : nat → bool;
  da_link : string → option Z; da_list : bool; da_del : iprule → bool
}.
Definition dscp_well : dscp_answers :=
  MkDscpAnswers true true true true (λ _, true) (λ _, true) (λ _, Some 7) true (λ _, true).

(** ** Setup *)

Definition awg_dscp : string := "awg_dscp".
Definition dscp_mark : chain := MkChain "dscp_mark" ChainTypeFilter HookPrerouting (-150).
Definition connmark_restore : chain := MkChain "connmark_restore" ChainTypeFilter HookPrerouting (-150).
Definition connmark_save : chain := MkChain "connmark_save" ChainTypeFilter HookPostrouting (-150).

(** The rule of a policy: the upper six bits of the second byte of the header. *)
Definition dscp_exprs (p : DSCPPolicy) : list expr := [
  Payload 1 PayloadBaseNetworkHeader 1 1;
  Bitwise 1 1 1 [0xFC] [0];
  Cmp true 1 [Z.shiftl (dp_DSCP p) 2 mod 256];
  Immediate 1 (encodeUint32 (dp_Fwmark p mod 2 ^ 32));
  Meta MetaKeyMARK true 1
].

(** The loop over the policies: validated, and their rules queued. *)
Definition policy_step (s : gset Z * list msg) (p : DSCPPolicy) : res dscp_error (gset Z * list msg) :=
  if (dp_DSCP p <? 1) || (63 <? dp_DSCP p) then Err (ErrDSCPRange (dp_DSCP p)) else
  if negb (dp_Fwmark p =? dp_DSCP p) then Err (ErrDSCPMark (dp_Fwmark p) (dp_DSCP p)) else
  let expected := dscpPriorityBase + dp_DSCP p in
  if negb (dp_TableID p =? expected) then Err (ErrDSCPTable (dp_TableID p) expected) else
  if bool_decide (dp_DSCP p ∈ s.1) then Err (ErrDSCPDuplicate (dp_DSCP p)) else
  Ok ({[dp_DSCP p]} ∪ s.1, s.2 ++ [AddRule awg_dscp "dscp_mark" (dscp_exprs p)]).

Definition dscp_line (p : DSCPPolicy) : string :=
  Itoa (dscpPriorityBase + dp_DSCP p) +:+ " awg-dscp-" +:+ Itoa (dp_DSCP p).
#[global] Instance dscp_le_dec (p q : DSCPPolicy) : Decision (dp_DSCP p ≤ dp_DSCP q).
Proof. apply _. Defined.
(** The content, sorted by DSCP, through a temporary file; a failure is logged. *)
Definition writeRtTables (a : dscp_answers) (policies : list DSCPPolicy) (h : host) : host :=
  let sorted := merge_sort (λ p q, dp_DSCP p ≤ dp_DSCP q) policies in
  if da_write a && da_rename a
  then MkHost (ho_nft h) (ho_rules h) (ho_routes h) (Some (unlines (dscp_line <$> sorted)))
  else h.

(** [netlink.RuleAdd]: a rule that exists is EEXIST, which is ignored. *)
Definition add_rule (a : dscp_answers) (i : nat) (r : iprule) (h : host) : option host :=
  if bool_decide (r ∈ ho_rules h) then Some h else
  if da_rule a i then Some (MkHost (ho_nft h) (ho_rules h ++ [r]) (ho_routes h) (ho_names h)) else None.

(** Rules and routes, policy by policy; what was done stays on an error. *)
Definition install_one (a : dscp_answers) (i : nat) (p : DSCPPolicy) (h : host) : res dscp_error unit * host :=
  match add_rule a i (MkIprule (dp_Fwmark p mod 2 ^ 32) (dp_TableID p) (100 + dp_DSCP p)) h with
  | None => (Err (ErrDSCPRule (dp_Fwmark p) (dp_TableID p)), h)
  | Some h =>
      if bool_decide (dp_Gateway p = "") || bool_decide (dp_Device p = "") then (Ok (), h) else
      match ParseIP (dp_Gateway p) with
      | None => (Err (ErrDSCPGateway (dp_Gateway p) (dp_DSCP p)), h)
      | Some gw =>
          match da_link a (dp_Device p) with
          | None => (Err (ErrDSCPLink (dp_Device p) (dp_DSCP p)), h)
          | Some idx =>
              if da_route a i
              then (Ok (), MkHost (ho_nft h) (ho_rules h) (<[dp_TableID p := (gw, idx)]> (ho_routes h)) (ho_names h))
              else (Err (ErrDSCPRoute (dp_Gateway p) (dp_Device p) (dp_TableID p)), h)
          end
      end
  end.
Fixpoint install_policies (a : dscp_answers) (i : nat) (policies : list DSCPPolicy) (h : host) : res dscp_error unit * host :=
  match policies with
  | [] => (Ok (), h)
  | p :: policies =>
      match install_one a i p h with
      | (Err e, h) => (Err e, h)
      | (Ok _, h) => install_policies a (S i) policies h
      end
  end.

Definition dscp_batch (rules : list msg) : list msg :=
  [AddTable awg_dscp; AddChain awg_dscp dscp_mark] ++ rules ++
  [AddChain awg_dscp connmark_restore; AddRule awg_dscp "connmark_restore" restore_exprs;
   AddChain awg_dscp connmark_save; AddRule awg_dscp "connmark_save" save_exprs].

Definition SetupDSCPPolicyRouting (a : dscp_answers) (policies : list DSCPPolicy) (h : host) : res dscp_error unit * host :=
  match policies with
  | [] => (Ok (), h)
  | _ =>
      if negb (da_conn a) then (Err ErrDSCPConn, h) else
      match fold_res (λ _ s p, policy_step s p) (∅, []) policies with
      | Err e => (Err e, h)
      | Ok (_, rules) =>
          let h := writeRtTables a policies h in
          match Flush false (da_flush a) (dscp_batch rules) (ho_nft h) with
          | (Err e, _, _) => (Err (ErrDSCPFlush e), h)
          | (Ok _, _, k) => install_policies a 0 policies (MkHost k (ho_rules h) (ho_routes h) (ho_names h))
          end
      end
  end.

(** ** Teardown *)

Definition shouldCleanupDSCPRule (r : iprule) : bool :=
  if (ir_Mark r <? dscpMarkMin) || (dscpMarkMax <? ir_Mark r) then false else
  let expected := dscpPriorityBase + ir_Mark r in
  (ir_Priority r =? expected) && (ir_Table r =? expected).

Definition TeardownDSCPPolicyRouting (a : dscp_answers) (h : host) : res dscp_error unit * host :=
  if negb (da_conn a) then (Err ErrDSCPConn, h) else
  let '(r, _, k) := Flush false (da_flush a) [DelTable awg_dscp] (ho_nft h) in
  let teardownErr := match r with Ok _ | Err ENOENT => Ok () | Err e => Err (ErrDSCPFlush e) end in
  let h := MkHost k (ho_rules h) (ho_routes h) (ho_names h) in
  if negb (da_list a) then (Err ErrDSCPListRules, h) else
  (teardownErr,
   MkHost k (filter (λ r, ¬ (shouldCleanupDSCPRule r = true ∧ da_del a r = true)) (ho_rules h)) (ho_routes h) (ho_names h)).

(** ** Validation *)

Definition policy_ok (p : DSCPPolicy) : Prop :=
  1 ≤ dp_DSCP p ≤ 63 ∧ dp_Fwmark p = dp_DSCP p ∧ dp_TableID p = 100 + dp_DSCP p.
Definition policies_ok (l : list DSCPPolicy) : Prop := Forall policy_ok l ∧ NoDup (dp_DSCP <$> l).

Lemma policy_step_spec s p :
  match policy_step s p with
  | Ok s' => policy_ok p ∧ dp_DSCP p ∉ s.1 ∧
             s' = ({[dp_DSCP p]} ∪ s.1, s.2 ++ [AddRule awg_dscp "dscp_mark" (dscp_exprs p)])
  | Err _ => ¬ (policy_ok p ∧ dp_DSCP p ∉ s.1)
  end.
Proof.
  unfold policy_step, policy_ok, dscpPriorityBase. destruct (_ || _) eqn:E1; [apply orb_true_iff in E1; lia|].
  apply orb_false_iff in E1 as [E1 E2]. destruct (negb (_ =? dp_DSCP p)) eqn:E3; [lia|].
  destruct (negb (_ =? 100 + _)) eqn:E4; [lia|]. case_bool_decide; [tauto|]. split_and!; try done; lia.
Qed.

Lemma validate_policies policies : ∀ i s,
  match fold_res_from (λ _ s p, policy_step s p) i s policies with
  | Ok s' => Forall policy_ok policies ∧ NoDup (dp_DSCP <$> policies) ∧ (∀ d, d ∈ dp_DSCP <$> policies → d ∉ s.1) ∧
             s'.2 = s.2 ++ ((λ p, AddRule awg_dscp "dscp_mark" (dscp_exprs p)) <$> policies)
  | Err _ => ¬ (Forall policy_ok policies ∧ NoDup (dp_DSCP <$> policies) ∧ (∀ d, d ∈ dp_DSCP <$> policies → d ∉ s.1))
  end.
Proof.
  induction policies as [|p policies IH]; intros i s; cbn [fold_res_from].
  { split_and!; [by constructor|by constructor|by intros d ?%elem_of_nil|by rewrite app_nil_r]. }
  pose proof (policy_step_spec s p) as Hp. destruct (policy_step s p) as [s1|e]; cbn [res_bind].
  - destruct Hp as (Hok & Hnew & ->). specialize (IH (S i) ({[dp_DSCP p]} ∪ s.1, s.2 ++ [AddRule awg_dscp "dscp_mark" (dscp_exprs p)])).
    destruct (fold_res_from _ _ _ policies) as [s'|e]; cbn [fst snd] in IH.
    + destruct IH as (H1 & H2 & H3 & H4). split_and!; [by constructor| | |].
      * rewrite fmap_cons. constructor; [|done]. intros Hin. specialize (H3 _ Hin). set_solver.
      * rewrite fmap_cons. intros d [->|Hd]%elem_of_cons; [done|]. specialize (H3 _ Hd). set_solver.
      * rewrite H4, <- app_assoc. done.
    + intros (H1 & H2 & H3). apply IH. apply Forall_cons in H1 as [_ H1]. rewrite fmap_cons in H2, H3.
      apply NoDup_cons in H2 as [Hni H2]. split_and!; [done|done|]. intros d Hd.
      apply not_elem_of_union. split; [rewrite elem_of_singleton; intros ->; done|]. apply H3. by right.
  - intros (H1 & H2 & H3). apply Hp. apply Forall_cons in H1 as [? _]. split; [done|]. apply H3. rewrite fmap_cons. left.
Qed.

Lemma validate_spec policies :
  match fold_res (λ _ s p, policy_step s p) (∅, []) policies with
  | Ok s' => policies_ok policies ∧ s'.2 = (λ p, AddRule awg_dscp "dscp_mark" (dscp_exprs p)) <$> policies
  | Err _ => ¬ policies_ok policies
  end.
Proof.
  pose proof (validate_policies policies 0 (∅, [])) as H. unfold fold_res, policies_ok.
  destruct (fold_res_from _ _ _ _); [split_and!; tauto|]. intros [H1 H2]. apply H. split_and!; [done|done|].
  intros d _. apply not_elem_of_empty.
Qed.

(** ** What the rules do *)

Lemma tos_mask t : 0 ≤ t < 256 → Z.land t 0xFC = 4 * (t / 4).
Proof.
  assert (Forall (λ t, Z.land t 0xFC = 4 * (t / 4)) (seqZ 0 256)) as H by (apply (bool_decide_unpack _); by vm_compute).
  intros Ht. rewrite Forall_forall in H. apply H. apply elem_of_seqZ. lia.
Qed.

(** The second byte of the IPv4 header. *)
Definition tos_is (tos : Z) (pk : packet) : Prop := pk_network pk !! 1%nat = Some tos.

Lemma dscp_rule_runs p tos pk : policy_ok p → 0 ≤ tos < 256 → tos_is tos pk →
  run_rule (dscp_exprs p) pk = if bool_decide (dp_DSCP p = tos / 4) then with_mark (tos / 4) pk else pk.
Proof.
  intros (Hd & Hm & _) Ht Hh. unfold run_rule, dscp_exprs. cbn [run_exprs run_expr header].
  assert (take 1 (drop 1 (pk_network pk)) = [tos]) as ->.
  { unfold tos_is in Hh. destruct (pk_network pk) as [|a [|b l]]; cbn in Hh; try discriminate Hh. by injection Hh as ->. }
  rewrite (bool_decide_eq_true_2 (length [tos] = 1%nat)) by done. cbn [mbind option_bind]. rewrite !set_reg_eq.
  cbn [take zip_with]. rewrite Z.lxor_0_r, tos_mask by done. rewrite Z.shiftl_mul_pow2 by lia. change (2 ^ 2) with 4.
  rewrite (Z.mod_small (dp_DSCP p * 4)) by lia.
  destruct (decide (dp_DSCP p = tos / 4)) as [E|E].
  - rewrite (bool_decide_eq_true_2 (dp_DSCP p = tos / 4)) by done.
    rewrite (bool_decide_eq_true_2 ([_] = [_])) by (f_equal; lia). cbn [Bool.eqb mbind option_bind default from_option id].
    rewrite set_reg_eq, encode_decode, Z.mod_small by (rewrite ?Z.mod_small; lia). by rewrite Hm, E.
  - rewrite (bool_decide_eq_false_2 (dp_DSCP p = tos / 4)) by done.
    rewrite (bool_decide_eq_false_2 ([_] = [_])) by (intros [= H]; lia). done.
Qed.

Lemma dscp_rules_run ps : Forall policy_ok ps → ∀ rs tos pk, ru_Exprs <$> rs = dscp_exprs <$> ps → 0 ≤ tos < 256 →
  tos_is tos pk →
  run_rules rs pk = if bool_decide (tos / 4 ∈ dp_DSCP <$> ps) then with_mark (tos / 4) pk else pk.
Proof.
  induction 1 as [|p ps Hp _ IH]; intros rs tos pk Hrs Ht Htos.
  { destruct rs; [|done]. by rewrite bool_decide_eq_false_2 by apply not_elem_of_nil. }
  destruct rs as [|r rs]; [done|]. rewrite !fmap_cons in Hrs. injection Hrs as Hr Hrs. cbn [run_rules foldl].
  change (foldl _ ?x rs) with (run_rules rs x). rewrite Hr, (dscp_rule_runs p tos pk) by done. rewrite fmap_cons.
  case_bool_decide as E.
  - rewrite (IH rs tos (with_mark (tos / 4) pk)) by done.
    rewrite (bool_decide_eq_true_2 (_ ∈ dp_DSCP p :: _)) by (rewrite <- E; left). by case_bool_decide.
  - rewrite (IH rs tos pk) by done.
    destruct (decide (tos / 4 ∈ dp_DSCP <$> ps)) as [Hin|Hin].
    + by rewrite !bool_decide_eq_true_2 by (try right; done).
    + rewrite !bool_decide_eq_false_2; [done| |done]. rewrite elem_of_cons. intros [?|?]; congruence.
Qed.

(** ** The batch *)

Lemma commit_policies ps : ∀ k, has_chain k awg_dscp "dscp_mark" → ∃ k',
  commit ((λ p, AddRule awg_dscp "dscp_mark" (dscp_exprs p)) <$> ps) k = Some k' ∧
  (∀ t n, has_chain k t n → has_chain k' t n) ∧
  ru_Exprs <$> rules_of k' awg_dscp "dscp_mark" = (ru_Exprs <$> rules_of k awg_dscp "dscp_mark") ++ (dscp_exprs <$> ps) ∧
  (∀ t n, ¬ (t = awg_dscp ∧ n = "dscp_mark") → rules_of k' t n = rules_of k t n).
Proof.
  induction ps as [|p ps IH]; intros k Hk.
  { exists k. split_and!; [done|done|by rewrite app_nil_r|done]. }
  destruct (AddRule_spec awg_dscp "dscp_mark" (dscp_exprs p) k Hk) as (k1 & H1 & Hc1 & Hr1 & _).
  destruct (IH k1 (Hc1 _ _ Hk)) as (k2 & H2 & Hc2 & Hr2 & Ho2). exists k2. cbn [fmap list_fmap commit]. rewrite H1.
  split_and!; [exact H2|auto| |].
  - rewrite Hr2, Hr1, bool_decide_eq_true_2 by done. rewrite fmap_app, <- app_assoc. done.
  - intros t n Hn. rewrite Ho2, Hr1, bool_decide_eq_false_2, app_nil_r by done. done.
Qed.

Lemma batch_commits ps k : ke_tables k !! awg_dscp = None → ∃ k',
  commit (dscp_batch ((λ p, AddRule awg_dscp "dscp_mark" (dscp_exprs p)) <$> ps)) k = Some k' ∧
  is_Some (ke_tables k' !! awg_dscp) ∧
  ru_Exprs <$> rules_of k' awg_dscp "dscp_mark" = dscp_exprs <$> ps ∧
  (∀ t n, t ≠ awg_dscp → rules_of k' t n = rules_of k t n).
Proof.
  intros Hk. unfold dscp_batch. rewrite commit_app. cbn [commit mbind option_bind].
  destruct (AddTable_spec awg_dscp k) as (k1 & -> & Hs1 & _ & Hr1 & _). cbn [mbind option_bind].
  destruct (AddChain_spec awg_dscp dscp_mark k1 Hs1) as (k2 & -> & Hc2 & _ & Hr2 & _). cbn [mbind option_bind].
  rewrite commit_app. destruct (commit_policies ps k2 Hc2) as (k3 & -> & Hc3 & Hr3 & Ho3). cbn [mbind option_bind commit].
  assert (is_Some (ke_tables k3 !! awg_dscp)) as Hs3 by (destruct (Hc3 _ _ Hc2) as (cs & ? & _); eauto).
  destruct (AddChain_spec awg_dscp connmark_restore k3 Hs3) as (k4 & -> & Hc4 & Hm4 & Hr4 & _). cbn [mbind option_bind].
  destruct (AddRule_spec awg_dscp "connmark_restore" restore_exprs k4 Hc4) as (k5 & -> & Hm5 & Hr5 & _). cbn [mbind option_bind].
  assert (is_Some (ke_tables k5 !! awg_dscp)) as Hs5 by (destruct (Hm5 _ _ Hc4) as (cs & ? & _); eauto).
  destruct (AddChain_spec awg_dscp connmark_save k5 Hs5) as (k6 & -> & Hc6 & Hm6 & Hr6 & _). cbn [mbind option_bind].
  destruct (AddRule_spec awg_dscp "connmark_save" save_exprs k6 Hc6) as (k7 & -> & Hm7 & Hr7 & _). cbn [mbind option_bind].
  exists k7. split_and!; [done| | |].
  - destruct (Hm7 _ _ Hc6) as (cs & ? & _). eauto.
  - rewrite Hr7, Hr6, Hr5, Hr4. rewrite !bool_decide_eq_false_2, !app_nil_r by (intros [_ ?]; done).
    rewrite Hr3, Hr2, Hr1. unfold rules_of at 1, GetRules. cbn [negb]. by rewrite Hk.
  - intros t n Ht. rewrite Hr7, Hr6, Hr5, Hr4. rewrite !bool_decide_eq_false_2, !app_nil_r by (intros [? _]; done).
    rewrite Ho3 by (intros [? _]; done). by rewrite Hr2, Hr1.
Qed.

(** ** The whole setup *)

Lemma add_rule_nft a i r h h' : add_rule a i r h = Some h' → ho_nft h' = ho_nft h.
Proof. unfold add_rule. intros H. repeat case_match; by simplify_eq. Qed.
Lemma install_one_nft a i p h : ho_nft (install_one a i p h).2 = ho_nft h.
Proof.
  unfold install_one. destruct (add_rule _ _ _ _) as [h1|] eqn:E; [|done]. apply add_rule_nft in E.
  repeat case_match; done.
Qed.
Lemma install_policies_nft a ps : ∀ i h, ho_nft (install_policies a i ps h).2 = ho_nft h.
Proof.
  induction ps as [|p ps IH]; intros i h; [done|]. cbn [install_policies]. pose proof (install_one_nft a i p h) as H.
  destruct (install_one a i p h) as [[[]|e] h1]; cbn in H; [by rewrite IH|done].
Qed.
Lemma writeRtTables_nft a ps h : ho_nft (writeRtTables a ps h) = ho_nft h ∧ ho_rules (writeRtTables a ps h) = ho_rules h.
Proof. unfold writeRtTables. by destruct (_ && _). Qed.

(** DSCP classification. A list of policies that is not valid - a code point
    outside 1..63 or repeated, a mark or table that does not follow from it - is
    rejected before anything on the host changes. For a valid list, whatever happens
    to the ip rules and routes afterwards, once the nftables transaction is committed
    a packet's mark becomes its DSCP field if some policy names that code point, and
    every other packet keeps its mark, while the rules of all other tables stay. *)
Theorem dscp_setup_marks a policies h :
  policies ≠ [] → da_conn a = true → da_flush a = true → ke_tables (ho_nft h) !! awg_dscp = None →
  let '(r, h') := SetupDSCPPolicyRouting a policies h in
  (¬ policies_ok policies → h' = h ∧ ∃ e, r = Err e) ∧
  (policies_ok policies →
     (∀ tos pk, 0 ≤ tos < 256 → tos_is tos pk →
        run_rules (rules_of (ho_nft h') awg_dscp "dscp_mark") pk =
        if bool_decide (tos / 4 ∈ dp_DSCP <$> policies) then with_mark (tos / 4) pk else pk) ∧
     (∀ t n, t ≠ awg_dscp → rules_of (ho_nft h') t n = rules_of (ho_nft h) t n)).
Proof.
  intros Hne Hconn Hflush Hk. unfold SetupDSCPPolicyRouting. destruct policies as [|p0 ps0]; [done|]. set (ps := p0 :: ps0) in *.
  clearbody ps. rewrite Hconn. cbn [negb]. pose proof (validate_spec ps) as Hv.
  destruct (fold_res _ _ ps) as [[seen rules]|e].
  - cbn [snd] in Hv. destruct Hv as [Hok ->]. destruct (writeRtTables_nft a ps h) as [Hn Hr]. cbv zeta.
    rewrite Hflush, Hn. destruct (batch_commits ps (ho_nft h) Hk) as (k & Hc & _ & Hrules & Hother).
    unfold Flush. cbn [negb]. rewrite Hc.
    pose proof (install_policies_nft a ps 0 (MkHost k (ho_rules (writeRtTables a ps h)) (ho_routes (writeRtTables a ps h))
      (ho_names (writeRtTables a ps h)))) as Hnft.
    destruct (install_policies _ _ _ _) as [r h']. cbn [snd ho_nft] in Hnft. split; [done|]. intros _. rewrite Hnft.
    split; [|done]. intros tos pk Ht Htos. apply (dscp_rules_run ps (proj1 Hok)); [exact Hrules|exact Ht|exact Htos].
  - split; [eauto|done].
Qed.

Definition two_policies : list DSCPPolicy :=
  [MkPolicy 46 46 146 "10.99.0.2" "wg-de"; MkPolicy 10 10 110 "" ""].
Lemma two_policies_ok : policies_ok two_policies.
Proof. unfold policies_ok, policy_ok. apply (bool_decide_unpack _). by vm_compute. Qed.
Definition host0 : host := MkHost kernel0 [MkIprule 200 1000 1000] ∅ None.
Definition packet_with (tos : Z) : packet := MkPacket [69; tos; 0; 20] [] 17 [] 5 8 0 None 1400 false.

Lemma dscp_setup_marks_witness :
  (run_rules (rules_of (ho_nft (SetupDSCPPolicyRouting dscp_well two_policies host0).2) awg_dscp "dscp_mark") (packet_with 185)).(pk_mark) = 46 ∧
  (run_rules (rules_of (ho_nft (SetupDSCPPolicyRouting dscp_well two_policies host0).2) awg_dscp "dscp_mark") (packet_with 0)).(pk_mark) = 5.
Proof.
  pose proof (dscp_setup_marks dscp_well two_policies host0 ltac:(done) eq_refl eq_refl eq_refl) as H.
  destruct (SetupDSCPPolicyRouting dscp_well two_policies host0) as [r h']. cbn [snd]. destruct H as [_ H].
  destruct (H two_policies_ok) as [Hm _]. clear H.
  split; [rewrite (Hm 185 (packet_with 185)) by done|rewrite (Hm 0 (packet_with 0)) by done]; by vm_compute.
Defined.

(** ** Setup, then teardown *)

(** The route of the policy, if it asks for one, can be installed. *)
Definition routable (p : DSCPPolicy) : Prop := dp_Gateway p = "" ∨ dp_Device p = "" ∨ is_Some (ParseIP (dp_Gateway p)).
Definition policy_rule (p : DSCPPolicy) : iprule := MkIprule (dp_DSCP p) (100 + dp_DSCP p) (100 + dp_DSCP p).

Lemma policy_rule_cleaned p : policy_ok p → shouldCleanupDSCPRule (policy_rule p) = true.
Proof.
  intros (Hd & _). unfold shouldCleanupDSCPRule, policy_rule, dscpMarkMin, dscpMarkMax, dscpPriorityBase. cbn.
  assert ((dp_DSCP p <? 1) = false ∧ (63 <? dp_DSCP p) = false) as [-> ->] by (split; lia). cbn [orb].
  by rewrite Z.eqb_refl.
Qed.

(** The rules teardown keeps when the host cooperates. *)
Lemma teardown_filter (l : list iprule) :
  filter (λ r, ¬ (shouldCleanupDSCPRule r = true ∧ true = true)) l =
  filter (λ r, ¬ (1 ≤ ir_Mark r ≤ 63 ∧ ir_Priority r = 100 + ir_Mark r ∧ ir_Table r = 100 + ir_Mark r)) l.
Proof.
  apply list_filter_iff. intros r. unfold shouldCleanupDSCPRule, dscpMarkMin, dscpMarkMax, dscpPriorityBase.
  destruct (_ || _) eqn:E; [split; [intros _|]; intros; [lia|intros [? _]; done]|].
  rewrite andb_true_iff, !Z.eqb_eq. apply orb_false_iff in E. split; intros H; contradict H; lia.
Qed.

(** The default route the policy asks for on a host whose links all have index 7. *)
Definition policy_route (p : DSCPPolicy) : option (Z * Z) :=
  if bool_decide (dp_Gateway p = "") || bool_decide (dp_Device p = "") then None
  else (λ gw, (gw, 7)) <$> ParseIP (dp_Gateway p).

Lemma install_one_well i p h : policy_ok p → routable p → ∃ rules,
  install_one dscp_well i p h = (Ok (), MkHost (ho_nft h) rules
    (from_option (λ r, <[100 + dp_DSCP p := r]> (ho_routes h)) (ho_routes h) (policy_route p)) (ho_names h)) ∧
  (rules = ho_rules h ∧ policy_rule p ∈ ho_rules h ∨ rules = ho_rules h ++ [policy_rule p]).
Proof.
  intros (Hd & Hm & Ht) Hr. unfold install_one, add_rule, policy_route. rewrite Hm, Ht, (Z.mod_small (dp_DSCP p)) by lia.
  change (MkIprule (dp_DSCP p) (100 + dp_DSCP p) (100 + dp_DSCP p)) with (policy_rule p).
  assert (∃ rules, (if bool_decide (policy_rule p ∈ ho_rules h) then Some h else if da_rule dscp_well i
      then Some (MkHost (ho_nft h) (ho_rules h ++ [policy_rule p]) (ho_routes h) (ho_names h)) else None)
      = Some (MkHost (ho_nft h) rules (ho_routes h) (ho_names h)) ∧
    (rules = ho_rules h ∧ policy_rule p ∈ ho_rules h ∨ rules = ho_rules h ++ [policy_rule p])) as (rules & -> & Hrules).
  { case_bool_decide; [exists (ho_rules h); split; [by destruct h|by left]|eexists; split; [done|by right]]. }
  exists rules. split; [|done]. unfold routable in Hr. do 2 case_bool_decide; cbn [orb]; [done..|].
  destruct Hr as [?|[?|[gw ->]]]; done.
Qed.

Lemma install_well ps : ∀ i h, Forall policy_ok ps → NoDup (dp_DSCP <$> ps) → Forall routable ps → ∃ h',
  install_policies dscp_well i ps h = (Ok (), h') ∧ ho_nft h' = ho_nft h ∧ ho_names h' = ho_names h ∧
  (∀ p, p ∈ ps → policy_rule p ∈ ho_rules h') ∧
  (∃ new, ho_rules h' = ho_rules h ++ new ∧ ∀ r, r ∈ new → ∃ p, p ∈ ps ∧ r = policy_rule p) ∧
  (∀ p r, p ∈ ps → policy_route p = Some r → ho_routes h' !! (100 + dp_DSCP p) = Some r) ∧
  (∀ t, (∀ p, p ∈ ps → policy_route p = None ∨ t ≠ 100 + dp_DSCP p) → ho_routes h' !! t = ho_routes h !! t).
Proof.
  induction ps as [|p ps IH]; intros i h Hok Hnd Hrt.
  { exists h. split_and!; [done..|by intros p ?%elem_of_nil| |by intros p r ?%elem_of_nil|done].
    exists []. split; [by rewrite app_nil_r|by intros r ?%elem_of_nil]. }
  apply Forall_cons in Hok as [Hp Hok]. apply Forall_cons in Hrt as [Hrp Hrt].
  rewrite fmap_cons in Hnd. apply NoDup_cons in Hnd as [Hni Hnd].
  destruct (install_one_well i p h Hp Hrp) as (rules & H1 & Hrules).
  set (h1 := MkHost _ rules _ _) in H1.
  destruct (IH (S i) h1 Hok Hnd Hrt) as (h2 & H2 & Hn2 & Hf2 & Hin2 & (new & Hnew & Hfrom) & Hr2 & Ho2).
  exists h2. cbn [install_policies]. rewrite H1. cbn [h1 ho_nft ho_rules ho_routes ho_names] in *.
  split_and!; [done..| | | |].
  - intros q [->|Hq]%elem_of_cons; [|auto]. rewrite Hnew. apply elem_of_app. left.
    destruct Hrules as [[-> ?]| ->]; [done|apply elem_of_app; right; by left].
  - destruct Hrules as [[-> _]| ->].
    + exists new. split; [done|]. intros r Hr. destruct (Hfrom r Hr) as (q & Hq & ->). exists q. split; [by right|done].
    + exists (policy_rule p :: new). split; [by rewrite Hnew, <- app_assoc|]. intros r [->|Hr]%elem_of_cons; [exists p; by split; [left|]|].
      destruct (Hfrom r Hr) as (q & Hq & ->). exists q. split; [by right|done].
  - intros q r [->|Hq]%elem_of_cons Hqr; [|by apply Hr2]. rewrite Ho2.
    + rewrite Hqr. cbn. apply lookup_insert_eq.
    + intros q' Hq'. right. intros E. apply Hni. replace (dp_DSCP p) with (dp_DSCP q') by lia. by apply list_elem_of_fmap_2.
  - intros t Ht. rewrite Ho2 by (intros q Hq; apply Ht; by right).
    destruct (Ht p ltac:(by left)) as [-> |Hne]; [done|]. destruct (policy_route p); cbn; [by rewrite lookup_insert_ne|done].
Qed.



(** Teardown leaves the default routes of the policies' tables in place: they are not
    undone with the rest. *)
Example teardown_leaves_routes :
  match SetupDSCPPolicyRouting dscp_well two_policies host0 with
  | (Ok _, h1) => ho_routes (TeardownDSCPPolicyRouting dscp_well h1).2 !! 146 = policy_route (MkPolicy 46 46 146 "10.99.0.2" "wg-de")
  | _ => False
  end ∧ ho_routes host0 !! 146 = None.
Proof. by vm_compute. Qed.
