(* ===== verification/Netlink.v ===== *)
(** * Routes, addresses and links ([src/pkg/routing/netlink.go], [types.go], [sysctl.go])

    The router talks to the kernel through netlink; the kernel's IPv4 routes,
    interface addresses and link states are the state, with the documented meaning of
    the requests: adding a route to a destination that has one fails, replacing
    overwrites it, deleting a missing one fails with ESRCH. Whether the kernel refuses
    a request for another reason is an argument. *)

From S2P Require Import Prelude GoStrings GoNet GoText.

Record RouteEntry := MkRouteEntry { re_Destination : string; re_Via : string; re_Device : string }.
Record NextHop := MkNextHop { nh_Via : string; nh_Dev : string; nh_Weight : Z }.

(** [netlink.NexthopInfo] and [netlink.Route]; a nil destination is the default
    route. *)
Record NexthopInfo := MkNexthop { ni_LinkIndex : Z; ni_Hops : Z; ni_Gw : Z }.
Record Route := MkRoute {
  rt_Dst : option IPNet; rt_Gw : option Z; rt_LinkIndex : Z; rt_ScopeLink : bool; rt_Src : option Z;
  rt_MultiPath : list NexthopInfo
}.

Record net_state := MkNetState {
  ns_links : gmap string Z;                 (* interface name to index *)
  ns_routes : list Route;                   (* one per destination *)
  ns_addrs : gmap string (list IPNet);
  ns_up : gset string
}.

Inductive net_error :=
  | ErrLink (dev : string)
  | ErrRouteAdd (dest : option IPNet) (dev : string)
  | ErrRouteReplace (dest : option IPNet) (dev : string)
  | ErrRouteDel (dest : option IPNet)
  | ErrNoNexthop (dest : option IPNet)
  | ErrNexthopDev (dev : string)
  | ErrNexthopIP (via : string)
  | ErrNexthopIPv6 (via : string)
  | ErrECMP (dest : option IPNet) (n : nat)
  | ErrRouteList
  | ErrAddrAdd (dev : string)
  | ErrAddrList (dev : string)
  | ErrLinkUp (dev : string).

Definition to_dst (d : option IPNet) (r : Route) : bool := bool_decide (rt_Dst r = d).
Definition set_routes (rs : list Route) (s : net_state) : net_state := MkNetState (ns_links s) rs (ns_addrs s) (ns_up s).

(** The kernel's side. *)
Definition kernel_replace (r : Route) (s : net_state) : net_state :=
  set_routes (filter (λ x, to_dst (rt_Dst r) x = false) (ns_routes s) ++ [r]) s.
Definition route_to (d : option IPNet) (s : net_state) : option Route := List.find (to_dst d) (ns_routes s).

Definition LinkByName (dev : string) (s : net_state) : option Z := ns_links s !! dev.

(** ** Routes *)

Definition RouteAdd (ok : bool) (dest : option IPNet) (via : option Z) (dev : string) (s : net_state)
    : res net_error unit * net_state :=
  match LinkByName dev s with
  | None => (Err (ErrLink dev), s)
  | Some idx =>
      if negb ok || existsb (to_dst dest) (ns_routes s) then (Err (ErrRouteAdd dest dev), s)
      else (Ok (), set_routes (ns_routes s ++ [MkRoute dest via idx false None []]) s)
  end.

Definition RouteReplace (ok : bool) (dest : option IPNet) (via : option Z) (dev : string) (s : net_state)
    : res net_error unit * net_state :=
  match LinkByName dev s with
  | None => (Err (ErrLink dev), s)
  | Some idx =>
      if negb ok then (Err (ErrRouteReplace dest dev), s)
      else (Ok (), kernel_replace (MkRoute dest via idx false None []) s)
  end.

Definition RouteReplaceLinkWithSrc (ok : bool) (dest : option IPNet) (dev : string) (src : option Z) (s : net_state)
    : res net_error unit * net_state :=
  match LinkByName dev s with
  | None => (Err (ErrLink dev), s)
  | Some idx =>
      if negb ok then (Err (ErrRouteReplace dest dev), s)
      else (Ok (), kernel_replace (MkRoute dest None idx true src []) s)
  end.
Definition RouteReplaceLink (ok : bool) (dest : option IPNet) (dev : string) : net_state → res net_error unit * net_state :=
  RouteReplaceLinkWithSrc ok dest dev None.

Inductive del_errno := ESRCH | EDELOTHER.
Definition isMissingRouteDeleteError (e : del_errno) : bool := match e with ESRCH => true | _ => false end.

Definition kernel_delete (ok : bool) (d : option IPNet) (s : net_state) : res del_errno unit * net_state :=
  if negb ok then (Err EDELOTHER, s) else
  if existsb (to_dst d) (ns_routes s)
  then (Ok (), set_routes (filter (λ x, to_dst d x = false) (ns_routes s)) s)
  else (Err ESRCH, s).
Definition RouteDelete (ok : bool) (dest : option IPNet) (s : net_state) : res net_error unit * net_state :=
  match kernel_delete ok dest s with
  | (Err e, s) => if isMissingRouteDeleteError e then (Ok (), s) else (Err (ErrRouteDel dest), s)
  | (Ok _, s) => (Ok (), s)
  end.
Definition RemoveECMPRoute := RouteDelete.

(** The next hops of a multipath route; netlink counts [weight - 1] hops. *)
Definition nexthop_info (s : net_state) (nh : NextHop) : res net_error NexthopInfo :=
  match LinkByName (nh_Dev nh) s with
  | None => Err (ErrNexthopDev (nh_Dev nh))
  | Some idx =>
      match ParseIP (nh_Via nh) with
      | None => Err (ErrNexthopIP (nh_Via nh))
      | Some gw =>
          match To4 gw with
          | None => Err (ErrNexthopIPv6 (nh_Via nh))
          | Some gw =>
              let weight := if nh_Weight nh <? 1 then 1 else nh_Weight nh in
              Ok (MkNexthop idx (weight - 1) gw)
          end
      end
  end.
Fixpoint multipath (s : net_state) (nexthops : list NextHop) : res net_error (list NexthopInfo) :=
  match nexthops with
  | [] => Ok []
  | nh :: nexthops =>
      let! i := nexthop_info s nh in let! infos := multipath s nexthops in Ok (i :: infos)
  end.

(** [src] is the first optional source address. *)
Definition SetECMPRoute (ok : bool) (dest : option IPNet) (nexthops : list NextHop) (src : option Z) (s : net_state)
    : res net_error unit * net_state :=
  match nexthops with
  | [] => (Err (ErrNoNexthop dest), s)
  | _ =>
      match multipath s nexthops with
      | Err e => (Err e, s)
      | Ok paths =>
          if negb ok then (Err (ErrECMP dest (length nexthops)), s)
          else (Ok (), kernel_replace (MkRoute dest None 0 false (src ≫= To4) paths) s)
      end
  end.

Definition ListRoutes (ok : bool) (s : net_state) : res net_error (list RouteEntry) :=
  if negb ok then Err ErrRouteList else
  Ok ((λ r, MkRouteEntry
         (match rt_Dst r with None => "default" | Some d => net_string d end)
         (match rt_Gw r with None => "" | Some g => ip_string g end)
         (if 0 <? rt_LinkIndex r
          then default "" (fst <$> List.find (λ x, bool_decide (x.2 = rt_LinkIndex r)) (map_to_list (ns_links s)))
          else "")) <$> ns_routes s).

(** ** Addresses and links *)

(** An address that is already there is EEXIST, which is ignored. *)
Definition AddrAdd (ok : bool) (ifaceName : string) (addr : IPNet) (s : net_state) : res net_error unit * net_state :=
  match LinkByName ifaceName s with
  | None => (Err (ErrLink ifaceName), s)
  | Some _ =>
      let here := default [] (ns_addrs s !! ifaceName) in
      if bool_decide (addr ∈ here) then (Ok (), s) else
      if negb ok then (Err (ErrAddrAdd ifaceName), s)
      else (Ok (), MkNetState (ns_links s) (ns_routes s) (<[ifaceName := here ++ [addr]]> (ns_addrs s)) (ns_up s))
  end.
Definition ip_of (n : IPNet) : Z := if net_v4 n then v4_mapped (net_ip n) else net_ip n.
Definition AddrExists (ok : bool) (ifaceName : string) (addr : IPNet) (s : net_state) : res net_error bool :=
  match LinkByName ifaceName s with
  | None => Err (ErrLink ifaceName)
  | Some _ =>
      if negb ok then Err (ErrAddrList ifaceName)
      else Ok (existsb (λ a, ip_of a =? ip_of addr) (default [] (ns_addrs s !! ifaceName)))
  end.
Definition LinkSetUp (ok : bool) (ifaceName : string) (s : net_state) : res net_error unit * net_state :=
  match LinkByName ifaceName s with
  | None => (Err (ErrLink ifaceName), s)
  | Some _ =>
      if negb ok then (Err (ErrLinkUp ifaceName), s)
      else (Ok (), MkNetState (ns_links s) (ns_routes s) (ns_addrs s) ({[ifaceName]} ∪ ns_up s))
  end.
Definition LinkGetIndex (ifaceName : string) (s : net_state) : res net_error Z :=
  match LinkByName ifaceName s with None => Err (ErrLink ifaceName) | Some idx => Ok idx end.

(** ** Kernel parameters (sysctl.go) *)

Inductive sysctl_error := ErrSysctlRead (path : string) | ErrSysctlWrite (path value : string).
Definition writeSysctl (ok : bool) (path value : string) (m : gmap string string) : res sysctl_error unit * gmap string string :=
  match m !! path with
  | None => (Err (ErrSysctlRead path), m)
  | Some current =>
      if bool_decide (TrimSpace current = value) then (Ok (), m) else
      if ok then (Ok (), <[path := value]> m) else (Err (ErrSysctlWrite path value), m)
  end.
Definition EnableForwarding (ok : bool) : gmap string string → res sysctl_error unit * gmap string string :=
  writeSysctl ok "/proc/sys/net/ipv4/ip_forward" "1".
Definition EnableL4Hash (ok : bool) : gmap string string → res sysctl_error unit * gmap string string :=
  writeSysctl ok "/proc/sys/net/ipv4/fib_multipath_hash_policy" "1".

(** ** Properties *)

Lemma find_filter_other d d' l : d' ≠ d → List.find (to_dst d') (filter (λ x, to_dst d x = false) l) = List.find (to_dst d') l.
Proof.
  intros Hd. induction l as [|x l IH]; [done|]. rewrite filter_cons. cbn [List.find].
  destruct (to_dst d x) eqn:E; [rewrite decide_False by done|rewrite decide_True by done; cbn [List.find]; by rewrite IH].
  rewrite IH. unfold to_dst in *. apply bool_decide_eq_true in E. by rewrite bool_decide_eq_false_2 by congruence.
Qed.
Lemma find_filter_same d l : List.find (to_dst d) (filter (λ x, to_dst d x = false) l) = None.
Proof.
  induction l as [|x l IH]; [done|]. rewrite filter_cons. case_decide as H; [|done]. cbn [List.find]. by rewrite H.
Qed.
Lemma find_app_route d a b : List.find (to_dst d) (a ++ b) = match List.find (to_dst d) a with Some r => Some r | None => List.find (to_dst d) b end.
Proof. induction a as [|x a IH]; [done|]. cbn. by destruct (to_dst d x). Qed.

Lemma replace_same r s : route_to (rt_Dst r) (kernel_replace r s) = Some r.
Proof.
  unfold route_to, kernel_replace. cbn [set_routes ns_routes]. rewrite find_app_route, find_filter_same. cbn [List.find].
  unfold to_dst. by rewrite bool_decide_eq_true_2.
Qed.
Lemma replace_other r d s : d ≠ rt_Dst r → route_to d (kernel_replace r s) = route_to d s.
Proof.
  intros Hd. unfold route_to, kernel_replace. cbn [set_routes ns_routes]. rewrite find_app_route, find_filter_other by done.
  destruct (List.find _ _); [done|]. cbn [List.find]. unfold to_dst. by rewrite bool_decide_eq_false_2 by congruence.
Qed.

(** What one next hop of the request becomes. *)
Definition hop_matches (s : net_state) (nh : NextHop) (i : NexthopInfo) : Prop :=
  LinkByName (nh_Dev nh) s = Some (ni_LinkIndex i) ∧ (∃ ip, ParseIP (nh_Via nh) = Some ip ∧ To4 ip = Some (ni_Gw i)) ∧
  ni_Hops i + 1 = Z.max 1 (nh_Weight nh).

Lemma nexthop_info_ok s nh i : nexthop_info s nh = Ok i → hop_matches s nh i.
Proof.
  unfold nexthop_info, hop_matches. destruct (LinkByName _ _) as [idx|]; [|done]. destruct (ParseIP _) as [gw|]; [|done].
  destruct (To4 gw) as [g|] eqn:E; [|done]. intros [= <-]. cbn [ni_LinkIndex ni_Gw ni_Hops].
  split_and!; [done|eauto|]. destruct (nh_Weight nh <? 1) eqn:W; lia.
Qed.
Lemma multipath_ok s nhs : ∀ l, multipath s nhs = Ok l → Forall2 (hop_matches s) nhs l.
Proof.
  induction nhs as [|nh nhs IH]; intros l H; cbn [multipath] in H; inv_res; [constructor|].
  constructor; [by apply nexthop_info_ok|auto].
Qed.
Lemma multipath_complete s nhs : Forall (λ nh, ∃ i, hop_matches s nh i) nhs → ∃ l, multipath s nhs = Ok l.
Proof.
  induction 1 as [|nh nhs (i & Hl & (ip & Hp & H4) & _) _ (l & Hrest)]; [by exists []|]. cbn [multipath].
  unfold nexthop_info. rewrite Hl, Hp, H4, Hrest. cbn. eauto.
Qed.

(** An ECMP route is installed completely or not at all. It succeeds exactly when
    there is at least one next hop, the kernel accepts, and every next hop names an
    existing interface and an IPv4 gateway; then the route to the destination has
    these next hops in order, each with its weight (at least one), and no other
    destination is affected. On any error nothing changes, and removing the route
    afterwards - also twice - succeeds and leaves the other destinations alone. *)
Theorem ecmp_route_exact ok dest nexthops src s :
  let '(r, s') := SetECMPRoute ok dest nexthops src s in
  (r = Ok () ↔ nexthops ≠ [] ∧ ok = true ∧ Forall (λ nh, ∃ i, hop_matches s nh i) nexthops) ∧
  (r ≠ Ok () → s' = s) ∧
  (r = Ok () →
     (∃ rt, route_to dest s' = Some rt ∧ Forall2 (hop_matches s) nexthops (rt_MultiPath rt)) ∧
     (∀ d, d ≠ dest → route_to d s' = route_to d s)) ∧
  (let '(r1, s1) := RemoveECMPRoute true dest s' in
   r1 = Ok () ∧ route_to dest s1 = None ∧ (∀ d, d ≠ dest → route_to d s1 = route_to d s') ∧
   RemoveECMPRoute true dest s1 = (Ok (), s1)).
Proof.
  assert (∀ s', let '(r1, s1) := RemoveECMPRoute true dest s' in
   r1 = Ok () ∧ route_to dest s1 = None ∧ (∀ d, d ≠ dest → route_to d s1 = route_to d s') ∧
   RemoveECMPRoute true dest s1 = (Ok (), s1)) as Hdel.
  { intros s'. unfold RemoveECMPRoute, RouteDelete, kernel_delete. cbn [negb].
    assert (∀ l, existsb (to_dst dest) l = false ↔ List.find (to_dst dest) l = None) as Hex.
    { intros l. induction l as [|x l IH]; cbn; [done|]. by destruct (to_dst dest x). }
    destruct (existsb (to_dst dest) (ns_routes s')) eqn:E; cbn [isMissingRouteDeleteError].
    - unfold route_to. cbn [set_routes ns_routes]. split_and!; [done|apply find_filter_same| |].
      + intros d Hd. by apply find_filter_other.
      + by rewrite (proj2 (Hex _) (find_filter_same _ _)).
    - split_and!; [done|by apply Hex|done|]. by rewrite E. }
  unfold SetECMPRoute. destruct nexthops as [|nh nhs]; [split_and!; [naive_solver|done|done|apply Hdel]|].
  set (l := nh :: nhs). assert (l ≠ []) as Hl by done. clearbody l.
  destruct (multipath s l) as [paths|e] eqn:Hm.
  - pose proof (multipath_ok s l paths Hm) as H2. destruct ok; cbn [negb].
    + split_and!; [|done| |apply Hdel].
      * split; [intros _|done]. split_and!; [done|done|]. clear -H2. induction H2; constructor; eauto.
      * intros _. split; [exists (MkRoute dest None 0 false (src ≫= To4) paths); split; [apply (replace_same (MkRoute dest None 0 false (src ≫= To4) paths))|done]|].
        intros d Hd. by apply replace_other.
    + split_and!; [naive_solver|done|done|apply Hdel].
  - split_and!; [|done|done|apply Hdel]. split; [done|]. intros (_ & _ & Hf). apply multipath_complete in Hf as [? ?]. congruence.
Qed.
