(* ===== verification/Daemon.v ===== *)
(** * The control-plane daemon ([src/pkg/control_plane/daemon.go])

    Assembly: where the daemon may listen and whether it is secured, the names on
    its certificate, and the master's own registration. The file system, the
    resolver and the loading of the CA are arguments; serving, signals and the audit
    file are left out. *)

From S2P Require Import Prelude GoStrings GoNet GoPath GoText Role.
From S2P Require Import Ledger Registry AuditTrail Fanout PeerList CertLifecycle Server ServerProofs.

Record DaemonConfig := MkDaemonConfig {
  dc_ListenAddr : string; dc_StateDir : string; dc_CADir : string; dc_CertHosts : list string;
  dc_CertRotationDays : Z; dc_AuditCap : Z; dc_AllowInsecurePublicBind : bool
}.

Inductive daemon_error :=
  | ErrListenRequired
  | ErrStateRequired
  | ErrStat (path : string)
  | ErrListenInvalid (addr : string)
  | ErrInsecureBind (addr : string)
  | ErrResolve (host : string)
  | ErrMkdir
  | ErrIncompleteCA (dir : string)
  | ErrLoadCA (dir : string)
  | ErrLifecycle (e : cert_error)
  | ErrTLSConfig.

(** [os.Stat] *)
Inductive stat_answer := StatRegular | StatDir | StatMissing | StatFails.

(** What the surroundings answer: files, the resolver ([LookupIP]), [MkdirAll],
    [LoadCA] of a directory, and issuing the server certificate. *)
Record daemon_env := MkDaemonEnv {
  de_stat : string → stat_answer;
  de_lookup : string → option (list Z);
  de_mkdir : bool;
  de_loadCA : string → option CertIssuer;
  de_issue : bool
}.

(** ** Addresses *)

Definition ip_loopback (ip : Z) : bool := match To4 ip with Some v => v / 2 ^ 24 =? 127 | None => ip =? 1 end.
Definition ip_unspecified (ip : Z) : bool := match To4 ip with Some v => v =? 0 | None => ip =? 0 end.
Definition local_ip (ip : Z) : bool := ip_loopback ip && negb (ip_unspecified ip).

Section daemon.
Context (e : daemon_env).

Definition regularFileExists (path : string) : res daemon_error bool :=
  match de_stat e path with
  | StatRegular => Ok true
  | StatDir => Err (ErrStat path)
  | StatMissing => Ok false
  | StatFails => Err (ErrStat path)
  end.

(** Whether any, and whether all, of the CA's two files exist. *)
Definition caMaterialState (dir : string) : res daemon_error (bool * bool) :=
  let! certExists := regularFileExists (path_Join [dir; "ca.crt"]) in
  let! keyExists := regularFileExists (path_Join [dir; "ca.key"]) in
  Ok (certExists || keyExists, certExists && keyExists).

Definition ca_dir (cfg : DaemonConfig) : string :=
  if bool_decide (dc_CADir cfg = "") then dc_StateDir cfg else dc_CADir cfg.
Definition hasCompleteCAMaterial (cfg : DaemonConfig) : res daemon_error bool :=
  let! s := caMaterialState (ca_dir cfg) in Ok s.2.

Definition validateListenAddr (listenAddr : string) (allowInsecurePublicBind : bool) : res daemon_error unit :=
  if allowInsecurePublicBind then Ok () else
  match SplitHostPort listenAddr with
  | Err _ => Err (ErrListenInvalid listenAddr)
  | Ok (host, _) =>
      if bool_decide (host = "") then Err (ErrInsecureBind listenAddr) else
      if bool_decide (host = "localhost") then Ok () else
      match ParseIP host with
      | Some ip => if local_ip ip then Ok () else Err (ErrInsecureBind listenAddr)
      | None =>
          match de_lookup e host with
          | None | Some [] => Err (ErrResolve host)
          | Some resolved => if forallb local_ip resolved then Ok () else Err (ErrInsecureBind listenAddr)
          end
      end
  end.

(** ** The certificate's names *)

Definition normalizeCertHost (host : string) : string :=
  let trimmed := TrimSpace host in
  if bool_decide (trimmed = "") then "" else
  let trimmed := match SplitHostPort trimmed with Ok (splitHost, _) => splitHost | Err _ => trimmed end in
  trim_brackets trimmed.

Definition cert_host_step (st : gset string * list string) (host : string) : gset string * list string :=
  let normalized := normalizeCertHost host in
  if bool_decide (normalized = "") then st else
  if bool_decide (normalized ∈ st.1) then st else ({[normalized]} ∪ st.1, st.2 ++ [normalized]).
Definition appendCertHosts (hosts extraHosts : list string) : list string :=
  (foldl cert_host_step (∅, []) (hosts ++ extraHosts)).2.

Definition serverCertHosts (listenAddr : string) (extraHosts : list string) : list string :=
  let hosts := ["localhost"; "127.0.0.1"; "::1"] in
  match SplitHostPort listenAddr with
  | Err _ => appendCertHosts hosts extraHosts
  | Ok (host, _) =>
      if bool_decide (host = "") then appendCertHosts hosts extraHosts else
      match ParseIP host with
      | Some ip => if ip_unspecified ip then appendCertHosts hosts extraHosts else appendCertHosts (hosts ++ [host]) extraHosts
      | None => appendCertHosts (hosts ++ [host]) extraHosts
      end
  end.

(** ** Construction *)

(** The certificate hosts when the gRPC server demands client certificates; [None]
    when it serves in the clear. *)
Record Daemon := MkDaemon {
  dm_cfg : DaemonConfig; dm_tls : option (list string); dm_lifecycle : option CertLifecycle; dm_server : Server
}.

Definition configureDaemonCertLifecycle (cfg : DaemonConfig) : res daemon_error (option (list string) * option CertLifecycle) :=
  let! present := (if bool_decide (dc_CADir cfg = "") then
                     let! s := caMaterialState (dc_StateDir cfg) in
                     if negb s.1 then Ok false else
                     if negb s.2 then Err (ErrIncompleteCA (dc_StateDir cfg)) else Ok true
                   else Ok true) in
  if negb present then Ok (None, None) else
  match de_loadCA e (ca_dir cfg) with
  | None => Err (ErrLoadCA (ca_dir cfg))
  | Some issuer =>
      let! lifecycle := wrap_err ErrLifecycle (NewCertLifecycle (Some issuer) (MkCertLifecycleConfig (dc_CertRotationDays cfg) 0 0)) in
      if negb (de_issue e) then Err ErrTLSConfig
      else Ok (Some (serverCertHosts (dc_ListenAddr cfg) (dc_CertHosts cfg)), Some lifecycle)
  end.

Definition NewDaemon (cfg : DaemonConfig) : res daemon_error Daemon :=
  if bool_decide (dc_ListenAddr cfg = "") then Err ErrListenRequired else
  if bool_decide (dc_StateDir cfg = "") then Err ErrStateRequired else
  let! securedPublicBind := hasCompleteCAMaterial cfg in
  let! _ := validateListenAddr (dc_ListenAddr cfg) (dc_AllowInsecurePublicBind cfg || securedPublicBind) in
  if negb (de_mkdir e) then Err ErrMkdir else
  let server := NewServer Registry.NewRegistry NewLedger (NewAuditLog DEmpty (dc_AuditCap cfg)) in
  let! c := configureDaemonCertLifecycle cfg in
  Ok (MkDaemon cfg c.1 c.2 server).
End daemon.

(** ** The master's own registration *)

(** No observer, no audit event; the ledger as for a master that registers. *)
Definition SelfRegister (clock : nat → string → time) (node : RegisteredNode) : M (res server_error ()) :=
  let* now := Now clock "" in
  let* registered := on_registry (Register now node) in
  match registered with
  | Err e => ret (Err (ERegistry e))
  | Ok _ =>
      if is_master node then
        let* owned := ledger_reassign clock (rn_OverlayIP node) (rn_Name node) "self-register" in
        match owned with
        | Err e => ret (Err (ELedger e))
        | Ok _ => seedExistingRegisteredNodeOwnership clock
        end
      else ret (Ok ())
  end.

(** ** Properties *)

(** The hosts that resolve to this machine only. *)
Definition loopback_host (e : daemon_env) (host : string) : Prop :=
  host = "localhost" ∨ (∃ ip, ParseIP host = Some ip ∧ local_ip ip = true) ∨
  (ParseIP host = None ∧ ∃ ips, de_lookup e host = Some ips ∧ ips ≠ [] ∧ Forall (λ ip, local_ip ip = true) ips).

Lemma validateListenAddr_spec e addr :
  validateListenAddr e addr false = Ok () ↔ ∃ host port, SplitHostPort addr = Ok (host, port) ∧ host ≠ "" ∧ loopback_host e host.
Proof.
  unfold validateListenAddr, loopback_host. destruct (SplitHostPort addr) as [[host port]|err]; [|split; [done|intros (? & ? & ? & _); done]].
  case_bool_decide as H1.
  { split; [done|]. intros (h & p & [= <- <-] & Hne & _). done. }
  case_bool_decide as H2; [split; [intros _; exists host, port; auto|done]|].
  destruct (ParseIP host) as [ip|] eqn:Hip.
  - destruct (local_ip ip) eqn:Hl.
    + split; [intros _; exists host, port; split_and!; eauto|done].
    + split; [done|]. intros (h & p & [= <- <-] & _ & [?|[(ip' & ? & ?)|(? & _)]]); congruence.
  - destruct (de_lookup e host) as [[|i0 ips]|] eqn:Hlk.
    + split; [done|]. intros (h & p & [= <- <-] & _ & [?|[(ip' & ? & ?)|(_ & l & ? & ? & _)]]); congruence.
    + destruct (forallb local_ip (i0 :: ips)) eqn:Hf.
      * split; [intros _|done]. exists host, port. split_and!; [done|done|]. right; right. split; [done|].
        exists (i0 :: ips). split_and!; [done|done|]. apply Forall_forall. intros x Hx. rewrite forallb_forall in Hf.
        apply Hf. by apply list_elem_of_In.
      * split; [done|]. intros (h & p & [= <- <-] & _ & [?|[(ip' & ? & ?)|(_ & l & Hl & _ & Hall)]]); [congruence..|].
        assert (l = i0 :: ips) as -> by congruence. exfalso. apply not_true_iff_false in Hf. apply Hf.
        apply forallb_forall. intros x Hx. rewrite Forall_forall in Hall. apply Hall. by apply list_elem_of_In.
    + split; [done|]. intros (h & p & [= <- <-] & _ & [?|[(ip' & ? & ?)|(_ & l & ? & ? & _)]]); congruence.
Qed.

(** With both files of the CA in place the daemon is secured. *)
Lemma complete_CA_secures e cfg c :
  hasCompleteCAMaterial e cfg = Ok true → configureDaemonCertLifecycle e cfg = Ok c →
  ∃ l, c = (Some (serverCertHosts (dc_ListenAddr cfg) (dc_CertHosts cfg)), Some l).
Proof.
  unfold hasCompleteCAMaterial, configureDaemonCertLifecycle, ca_dir. intros H1 H2.
  apply res_bind_ok in H1 as ([any all] & Hs & H1). injection H1 as H1. cbn [snd] in H1. subst all.
  assert (any = true) as ->.
  { unfold caMaterialState in Hs. apply res_bind_ok in Hs as (c1 & _ & Hs). apply res_bind_ok in Hs as (k1 & _ & Hs).
    injection Hs as <- Hk. by destruct c1, k1. }
  case_bool_decide as Hd.
  - rewrite Hs in H2. cbn [res_bind fst snd negb] in H2. destruct (de_loadCA e _); [|done]. inv_res. bool_to_prop. eauto.
  - cbn [res_bind negb] in H2. destruct (de_loadCA e _); [|done]. inv_res. eauto.
Qed.

(** The control plane is never exposed unauthenticated by default. A daemon that
    was built without the explicit opt-in either demands client certificates signed
    by the mesh CA, its own certificate naming the loopback names, or listens on a
    host that resolves to loopback addresses only. *)
Theorem daemon_bind_secure e cfg d :
  NewDaemon e cfg = Ok d → dc_AllowInsecurePublicBind cfg = false →
  (∃ hosts l, dm_tls d = Some hosts ∧ dm_lifecycle d = Some l ∧ hosts = serverCertHosts (dc_ListenAddr cfg) (dc_CertHosts cfg)) ∨
  (∃ host port, SplitHostPort (dc_ListenAddr cfg) = Ok (host, port) ∧ host ≠ "" ∧ loopback_host e host).
Proof.
  unfold NewDaemon. intros H Ha. inv_res. rewrite Ha in *. cbn [orb] in *. rename a into secured, a1 into c.
  destruct secured.
  - destruct (complete_CA_secures e cfg c) as (l & ->); [done|done|]. left. cbn [dm_tls dm_lifecycle fst snd]. eauto.
  - right. destruct a0. by apply validateListenAddr_spec.
Qed.

Definition public_cfg : DaemonConfig := MkDaemonConfig "0.0.0.0:51820" "/state" "" ["cp.example"] 0 0 false.
Definition local_cfg : DaemonConfig := MkDaemonConfig "127.0.0.1:51820" "/state" "" [] 0 0 false.
Definition bare_env : daemon_env := MkDaemonEnv (λ _, StatMissing) (λ _, None) true (λ _, None) true.

(** Without CA material a public address is refused and a local one is served in
    the clear. *)
Lemma daemon_bind_secure_witness :
  NewDaemon bare_env public_cfg = Err (ErrInsecureBind "0.0.0.0:51820") ∧
  ∃ d, NewDaemon bare_env local_cfg = Ok d ∧ dm_tls d = None ∧
    ∃ host port, SplitHostPort "127.0.0.1:51820" = Ok (host, port) ∧ loopback_host bare_env host.
Proof.
  split; [by vm_compute|]. destruct (NewDaemon bare_env local_cfg) as [d|err] eqn:E; [|by vm_compute in E].
  exists d. pose proof (daemon_bind_secure bare_env local_cfg d E eq_refl) as H.
  vm_compute in E. injection E as <-. split; [done|]. split; [done|].
  destruct H as [(hosts & l & Hd & _)|(host & port & Hs & _ & Hl)]; [discriminate Hd|]. eauto.
Defined.

(** ** The certificate's names *)

Lemma cert_hosts_inv hosts : ∀ st, (∀ h, h ∈ st.1 ↔ h ∈ st.2) → NoDup st.2 → "" ∉ st.2 →
  let st' := foldl cert_host_step st hosts in
  (∀ h, h ∈ st'.1 ↔ h ∈ st'.2) ∧ NoDup st'.2 ∧ "" ∉ st'.2 ∧
  ∀ h, h ∈ st'.2 ↔ h ∈ st.2 ∨ h ≠ "" ∧ ∃ x, x ∈ hosts ∧ normalizeCertHost x = h.
Proof.
  induction hosts as [|x hosts IH]; intros st Hs Hnd Hne st'; subst st'; cbn [foldl].
  { split_and!; [done..|]. intros h. split; [auto|]. intros [?|(_ & x & Hx & _)]; [assumption|]. by apply elem_of_nil in Hx. }
  assert (∀ h, (∃ y, y ∈ x :: hosts ∧ normalizeCertHost y = h) ↔ normalizeCertHost x = h ∨ ∃ y, y ∈ hosts ∧ normalizeCertHost y = h) as Hx.
  { intros h. split; [intros (y & [->|Hy]%elem_of_cons & <-); eauto|].
    intros [<-|(y & Hy & <-)]; [exists x; split; [by left|done]|exists y; split; [by right|done]]. }
  assert (cert_host_step st x = if bool_decide (normalizeCertHost x = "") then st else
    if bool_decide (normalizeCertHost x ∈ st.1) then st else
    ({[normalizeCertHost x]} ∪ st.1, st.2 ++ [normalizeCertHost x])) as -> by done.
  destruct (decide (normalizeCertHost x = "")) as [E|E].
  { rewrite bool_decide_eq_true_2 by done. destruct (IH st Hs Hnd Hne) as (H1 & H2 & H3 & H4). split_and!; [done..|].
    intros h. rewrite H4, Hx. naive_solver. }
  rewrite (bool_decide_eq_false_2 _ E). destruct (decide (normalizeCertHost x ∈ st.1)) as [Hin|Hin].
  { rewrite bool_decide_eq_true_2 by done. destruct (IH st Hs Hnd Hne) as (H1 & H2 & H3 & H4). split_and!; [done..|].
    apply Hs in Hin. intros h. rewrite H4, Hx. naive_solver. }
  rewrite (bool_decide_eq_false_2 _ Hin).
  destruct (IH ({[normalizeCertHost x]} ∪ st.1, st.2 ++ [normalizeCertHost x])) as (H1 & H2 & H3 & H4); cbn [fst snd] in *.
  - intros h. rewrite elem_of_union, elem_of_singleton, elem_of_app, list_elem_of_singleton, Hs. tauto.
  - apply NoDup_app. split_and!; [done| |apply NoDup_singleton]. intros h Hh ->%list_elem_of_singleton. by apply Hin, Hs.
  - rewrite elem_of_app, list_elem_of_singleton. naive_solver.
  - split_and!; [exact H1|exact H2|exact H3|]. intros h. etrans; [exact (H4 h)|]. rewrite Hx, elem_of_app, list_elem_of_singleton. naive_solver.
Qed.

(** The names are distinct, none is empty, and they always include the loopback
    ones: a local client can verify the daemon. *)
Lemma serverCertHosts_spec listenAddr extra :
  let hosts := serverCertHosts listenAddr extra in
  NoDup hosts ∧ "" ∉ hosts ∧ (∀ h, h ∈ ["localhost"; "127.0.0.1"; "::1"] → h ∈ hosts) ∧
  ∀ x, x ∈ extra → normalizeCertHost x ≠ "" → normalizeCertHost x ∈ hosts.
Proof.
  assert (∀ base, (∀ h, h ∈ ["localhost"; "127.0.0.1"; "::1"] → h ∈ base) →
    let hosts := appendCertHosts base extra in
    NoDup hosts ∧ "" ∉ hosts ∧ (∀ h, h ∈ ["localhost"; "127.0.0.1"; "::1"] → h ∈ hosts) ∧
    ∀ x, x ∈ extra → normalizeCertHost x ≠ "" → normalizeCertHost x ∈ hosts) as H.
  { intros base Hb. unfold appendCertHosts.
    destruct (cert_hosts_inv (base ++ extra) (∅, [])) as (_ & H2 & H3 & H4); cbn [fst snd] in *.
    - intros h. set_solver.
    - constructor.
    - apply not_elem_of_nil.
    - split_and!; [done|done| |].
      + intros h Hh. apply H4. right. specialize (Hb h Hh).
        assert (normalizeCertHost h = h ∧ h ≠ "") as [Hn Hne].
        { rewrite !elem_of_cons, elem_of_nil in Hh. destruct Hh as [->|[->|[->|[]]]]; by vm_compute. }
        split; [done|]. exists h. split; [apply elem_of_app; by left|done].
      + intros x Hx Hne. apply H4. right. split; [done|]. exists x. split; [apply elem_of_app; by right|done]. }
  unfold serverCertHosts. assert (∀ h, h ∈ ["localhost"; "127.0.0.1"; "::1"] → h ∈ ["localhost"; "127.0.0.1"; "::1"]) as Hid by auto.
  destruct (SplitHostPort listenAddr) as [[host port]|err]; [|by apply H].
  assert (∀ h, h ∈ ["localhost"; "127.0.0.1"; "::1"] → h ∈ ["localhost"; "127.0.0.1"; "::1"] ++ [host]) as Hmore
    by (intros; apply elem_of_app; by left).
  case_bool_decide; [by apply H|]. destruct (ParseIP host) as [ip|]; [destruct (ip_unspecified ip)|]; by apply H.
Qed.

(** ** Self-registration keeps the server's invariant *)

Section self.
Context (clock : nat → string → time).
Hypothesis Hclock : ∀ n label, clock n label ≠ 0.

Lemma handles_SelfRegister node : handles (SelfRegister clock node).
Proof.
  unfold SelfRegister, seedExistingRegisteredNodeOwnership.
  repeat first
    [ apply handles_ret | apply handles_get_registry | apply handles_Now | apply handles_reassign
    | apply handles_on_registry; intros ???? | progress intros | case_match
    | match goal with |- handles (bind _ _) => apply handles_bind end ];
  eauto using handles_seed_all, Register_wf.
Qed.
End self.
