(* ===== verification/LinkConfig.v ===== *)
(** * The link configurator

    [LinkConfigurator] of src/pkg/clientd/peer_reload.go and
    [MasterLinkConfigurator] of src/pkg/node/master_v2.go are the same interface:
    what a node needs of the operating system once its WireGuard device is
    configured. The class states the operations and what their callers rely on; the
    netlink router of src/pkg/routing implements it. *)

From S2P Require Import Prelude GoStrings GoNet GoText Netlink.

(** [L] is the state behind the interface, [A] what the environment answers to one
    call. [routed l d dev src]: destination [d] goes out over [dev] with source
    address [src]. *)
Class LinkConfigurator (L A : Type) := {
  lc_AddrAdd : A → string → IPNet → L → res net_error unit * L;
  lc_LinkSetUp : A → string → L → res net_error unit * L;
  lc_RouteReplaceLinkWithSrc : A → IPNet → string → Z → L → res net_error unit * L;
  routed : L → IPNet → string → Z → Prop;
  addressed : L → string → IPNet → Prop;
  is_up : L → string → Prop;
  lc_AddrAdd_routes : ∀ a dev n l d dev' src, routed (lc_AddrAdd a dev n l).2 d dev' src ↔ routed l d dev' src;
  lc_AddrAdd_ok : ∀ a dev n l l', lc_AddrAdd a dev n l = (Ok (), l') → addressed l' dev n;
  lc_LinkSetUp_routes : ∀ a dev l d dev' src, routed (lc_LinkSetUp a dev l).2 d dev' src ↔ routed l d dev' src;
  lc_LinkSetUp_ok : ∀ a dev l l', lc_LinkSetUp a dev l = (Ok (), l') →
    is_up l' dev ∧ (∀ dev', is_up l dev' → is_up l' dev') ∧ ∀ dev' n, addressed l dev' n → addressed l' dev' n;
  lc_Route_ok : ∀ a d dev src l l', lc_RouteReplaceLinkWithSrc a d dev src l = (Ok (), l') → routed l' d dev src;
  lc_Route_other : ∀ a d dev src l d' dev' src', d' ≠ d →
    routed (lc_RouteReplaceLinkWithSrc a d dev src l).2 d' dev' src' ↔ routed l d' dev' src';
  lc_Route_err : ∀ a d dev src l l' e, lc_RouteReplaceLinkWithSrc a d dev src l = (Err e, l') → l' = l;
  lc_Route_links : ∀ a d dev src l dev' n,
    (addressed l dev' n → addressed (lc_RouteReplaceLinkWithSrc a d dev src l).2 dev' n) ∧
    (is_up l dev' → is_up (lc_RouteReplaceLinkWithSrc a d dev src l).2 dev')
}.

(** ** The netlink router *)

Definition net_routed (s : net_state) (d : IPNet) (dev : string) (src : Z) : Prop :=
  ∃ idx, LinkByName dev s = Some idx ∧ route_to (Some d) s = Some (MkRoute (Some d) None idx true (Some src) []).
Definition net_addressed (s : net_state) (dev : string) (n : IPNet) : Prop :=
  n ∈ default [] (ns_addrs s !! dev).

Lemma AddrAdd_cases ok dev n s : (AddrAdd ok dev n s).2 = s ∨ 
  (AddrAdd ok dev n s).2 = MkNetState (ns_links s) (ns_routes s)
    (<[dev := default [] (ns_addrs s !! dev) ++ [n]]> (ns_addrs s)) (ns_up s).
Proof. unfold AddrAdd. repeat case_match; simpl; auto. Qed.

Lemma net_routed_same s s' d dev src :
  ns_links s' = ns_links s → ns_routes s' = ns_routes s → net_routed s' d dev src ↔ net_routed s d dev src.
Proof. intros Hl Hr. unfold net_routed, LinkByName, route_to. by rewrite Hl, Hr. Qed.

#[global, refine] Instance netlink_LinkConfigurator : LinkConfigurator net_state bool := {
  lc_AddrAdd := AddrAdd;
  lc_LinkSetUp := LinkSetUp;
  lc_RouteReplaceLinkWithSrc ok d dev src := RouteReplaceLinkWithSrc ok (Some d) dev (Some src);
  routed := net_routed;
  addressed := net_addressed;
  is_up s dev := dev ∈ ns_up s
}.
Proof.
  - intros a dev n l d dev' src. destruct (AddrAdd_cases a dev n l) as [-> | ->]; [done|]. by apply net_routed_same.
  - intros a dev n l l'. unfold AddrAdd, net_addressed. destruct (LinkByName dev l); [|done].
    case_bool_decide as Hin; [by intros [= <-]|]. destruct a; intros [= <-]. simpl.
    rewrite lookup_insert_eq. simpl. set_solver.
  - intros a dev l d dev' src. unfold LinkSetUp. by destruct (LinkByName dev l), a.
  - intros a dev l l'. unfold LinkSetUp. destruct (LinkByName dev l), a; intros [= <-]. simpl. set_solver.
  - intros a d dev src l l'. unfold RouteReplaceLinkWithSrc. destruct (LinkByName dev l) as [idx|] eqn:E; [|done].
    destruct a; intros [= <-]. exists idx. split; [done|]. apply (replace_same (MkRoute (Some d) None idx true (Some src) [])).
  - intros a d dev src l d' dev' src' Hd. unfold RouteReplaceLinkWithSrc.
    destruct (LinkByName dev l) as [idx|], a; simpl; try done. unfold net_routed.
    rewrite replace_other by (simpl; congruence). done.
  - intros a d dev src l l' e. unfold RouteReplaceLinkWithSrc.
    destruct (LinkByName dev l) as [idx|], a; simpl; congruence.
  - intros a d dev src l dev' n. unfold RouteReplaceLinkWithSrc.
    destruct (LinkByName dev l) as [idx|], a; simpl; done.
Defined.
