(* ===== verification/PeerReload.v ===== *)
(** * Applying a peer snapshot ([src/pkg/clientd/peer_reload.go])

    A node turns the peer list of the control plane into WireGuard peers, replaces
    the peers of its device with them, and routes their networks to the device. The
    WireGuard transport is one of [DualListener]'s numbered devices; the operating
    system is behind the [LinkConfigurator] class; the resolver of host names is a
    parameter. *)

From S2P Require Import Prelude GoStrings GoNet GoText Role WgTypes DualListener Netlink LinkConfig.

(** ** The state of the client (agent.go) *)

Record ClientPeer := MkClientPeer {
  cp_PeerName : string;
  cp_PeerRole : Role;
  cp_PeerOverlayIP : string;
  cp_PeerPubkey : list ascii;
  cp_PeerEndpointHost : string;
  cp_AllowedIPs : list string;
  cp_PersistentKeepaliveSecs : Z;      (* int32 *)
  cp_Protocol : string
}.
Record ClientOwnership := MkClientOwnership {
  co_OverlayIP : string;
  co_OwningMaster : string;
  co_LastReassignedAtUnix : Z;
  co_Reason : string
}.
Record State := MkState {
  st_Peers : list ClientPeer;
  st_Ownership : list ClientOwnership;
  st_PeerListVersion : Z;
  st_OwnershipVersion : Z
}.

(** [wg.Protocol] is a string type; its two values. *)
Definition vanilla_text : string := "vanilla-wg".
Definition amnezia_text : string := "amneziawg".

(** ** Conversion *)

Inductive reload_error :=
  | ErrNonMasterPeerRejected (name : string) (r : Role)
  | ErrPeerPublicKeyRequired (name : string)
  | ErrPeerName
  | ErrPeerProtocol (p : string)
  | ErrPeerKey (name : string) (e : key_error)
  | ErrPeerAllowedIP (name value : string)
  | ErrPeerEndpoint (name : string)
  | ErrReloadContext
  | ErrNoTransport
  | ErrNewTransport                     (* the transport cannot be created, command.go *)
  | ErrConfigurePeers
  | ErrNoLink
  | ErrAssignOverlay (e : net_error)
  | ErrOverlayUp (e : net_error)
  | ErrPeerRoute (route dev : string) (e : net_error).

Section Convert.
Context (ResolveUDPAddr : string → option UDPAddr).

(** One allowed IP: a CIDR, or an address as a host network. *)
Definition allowed_ip (trimmed : string) : option IPNet :=
  match ParseCIDR trimmed with
  | Some (_, n) => Some n
  | None =>
      match ParseIP trimmed with
      | None => None
      | Some ip => Some match To4 ip with Some v => MkIPNet true v 32 | None => MkIPNet false ip 128 end
      end
  end.
(** The error carries the value that is neither. *)
Fixpoint parseAllowedIPs (values : list string) : res string (list IPNet) :=
  match values with
  | [] => Ok []
  | value :: values =>
      let trimmed := TrimSpace value in
      if bool_decide (trimmed = "") then parseAllowedIPs values else
      match allowed_ip trimmed with
      | None => Err value
      | Some n => let! out := parseAllowedIPs values in Ok (n :: out)
      end
  end.

Definition PeerEntryToWGConfig (peer : ClientPeer) : res reload_error PeerConfig :=
  if bool_decide (TrimSpace (cp_PeerName peer) = "") then Err ErrPeerName else
  let protocol := cp_Protocol peer in
  if bool_decide (protocol ≠ "") && bool_decide (protocol ≠ vanilla_text) && bool_decide (protocol ≠ amnezia_text)
  then Err (ErrPeerProtocol protocol) else
  if bool_decide (cp_PeerPubkey peer = []) then Err (ErrPeerPublicKeyRequired (cp_PeerName peer)) else
  let! key := wrap_err (ErrPeerKey (cp_PeerName peer)) (NewKey (cp_PeerPubkey peer)) in
  let! allowed := wrap_err (ErrPeerAllowedIP (cp_PeerName peer)) (parseAllowedIPs (cp_AllowedIPs peer)) in
  let! endpoint :=
    if bool_decide (TrimSpace (cp_PeerEndpointHost peer) ≠ "") then
      match ResolveUDPAddr (cp_PeerEndpointHost peer) with
      | None => Err (ErrPeerEndpoint (cp_PeerName peer))
      | Some addr => Ok (Some addr)
      end
    else Ok None in
  let keepalive :=
    if 0 <? cp_PersistentKeepaliveSecs peer then Some (cp_PersistentKeepaliveSecs peer * 1000000000) else None in
  Ok (MkPeerConfig key false false None endpoint keepalive true allowed).

Definition localHasClient (roles : list Role) : bool := bool_decide (RoleClient ∈ roles).

(** The first peer that says it is not a master. *)
Fixpoint reject_non_master (peers : list ClientPeer) : res reload_error unit :=
  match peers with
  | [] => Ok ()
  | peer :: peers =>
      if bool_decide (cp_PeerRole peer ≠ "") && bool_decide (cp_PeerRole peer ≠ RoleMaster)
      then Err (ErrNonMasterPeerRejected (cp_PeerName peer) (cp_PeerRole peer))
      else reject_non_master peers
  end.
(** Peers without a key are skipped, their names returned; another error ends it. *)
Fixpoint convert_peers (peers : list ClientPeer) : res reload_error (list PeerConfig * list string) :=
  match peers with
  | [] => Ok ([], [])
  | peer :: peers =>
      match PeerEntryToWGConfig peer with
      | Err (ErrPeerPublicKeyRequired _) =>
          let! r := convert_peers peers in Ok (r.1, cp_PeerName peer :: r.2)
      | Err e => Err e
      | Ok cfg => let! r := convert_peers peers in Ok (cfg :: r.1, r.2)
      end
  end.
Definition BuildPeerConfigs (localRoles : list Role) (peers : list ClientPeer)
    : res reload_error (list PeerConfig * list string) :=
  let! _ := if localHasClient localRoles then reject_non_master peers else Ok () in
  convert_peers peers.

(** ** Networks *)

(** Masks here always come from [net.CIDRMask], so [Mask.Size] is defined and the
    masked address is never nil. *)
Definition normalizeCIDR (n : IPNet) : IPNet :=
  MkIPNet (net_v4 n) (clear_low (net_ip n) ((if net_v4 n then 32 else 128) - net_bits n)) (net_bits n).

(** ** Applying *)

Context {L A : Type} `{!LinkConfigurator L A}.

Record TransportConfigurator := MkTC {
  tc_Transport : option (nat * string);     (* the device and its name *)
  tc_LocalRoles : list Role;
  tc_PrivateKey : option Key;
  tc_ListenPort : Z;
  tc_OverlayAddress : option IPNet;
  tc_LinkConfigurator : bool
}.

(** What the environment answers during one [Apply]: whether the context is done at
    the two checks, whether the device takes the configuration, and the links. *)
Record apply_env := MkApplyEnv {
  ae_cancelled : bool; ae_cancelled2 : bool; ae_configure : bool;
  ae_addr : A; ae_up : A; ae_route : nat → A
}.

(** The loop over the allowed IPs of all peers; [i] counts the routes installed. *)
Fixpoint install_routes (a : nat → A) (iface localOverlay : string) (src : Z) (i : nat) (seen : gset string)
    (nets : list IPNet) (l : L) {struct nets} : res reload_error unit * L :=
  match nets with
  | [] => (Ok (), l)
  | allowedIP :: nets =>
      let route := normalizeCIDR allowedIP in
      if bool_decide (net_string route = localOverlay) then install_routes a iface localOverlay src i seen nets l else
      if bool_decide (net_string route ∈ seen) then install_routes a iface localOverlay src i seen nets l else
      match lc_RouteReplaceLinkWithSrc (a i) route iface src l with
      | (Err e, l) => (Err (ErrPeerRoute (net_string route) iface e), l)
      | (Ok _, l) => install_routes a iface localOverlay src (S i) ({[net_string route]} ∪ seen) nets l
      end
  end.
Definition installPeerRoutes (a : nat → A) (c : TransportConfigurator) (iface : string) (peers : list PeerConfig) (l : L)
    : res reload_error unit * L :=
  match tc_OverlayAddress c with
  | None => (Ok (), l)
  | Some overlay =>
      if negb (tc_LinkConfigurator c) then (Ok (), l) else
      install_routes a iface (net_string (normalizeCIDR overlay)) (ip_of overlay) 0 ∅ (mjoin (pc_AllowedIPs <$> peers)) l
  end.

Definition peers_config (c : TransportConfigurator) (peers : list PeerConfig) : Config :=
  MkConfig (tc_PrivateKey c) (if 0 <? tc_ListenPort c then Some (tc_ListenPort c) else None) None true peers
    None None None None None None None None None None None None None None None None.

(** The links, once the device is configured. *)
Definition configure_links (e : apply_env) (c : TransportConfigurator) (name : string) (peers : list PeerConfig) (l : L)
    : res reload_error unit * L :=
  match tc_OverlayAddress c with
  | None => (Ok (), l)
  | Some overlay =>
      if negb (tc_LinkConfigurator c) then (Err ErrNoLink, l) else
      match lc_AddrAdd (ae_addr e) name overlay l with
      | (Err err, l) => (Err (ErrAssignOverlay err), l)
      | (Ok _, l) =>
          match lc_LinkSetUp (ae_up e) name l with
          | (Err err, l) => (Err (ErrOverlayUp err), l)
          | (Ok _, l) => installPeerRoutes (ae_route e) c name peers l
          end
      end
  end.

Definition Apply (e : apply_env) (c : TransportConfigurator) (state : State) (w : world) (l : L)
    : res reload_error unit * world * L :=
  if ae_cancelled e then (Err ErrReloadContext, w, l) else
  match tc_Transport c with
  | None => (Err ErrNoTransport, w, l)
  | Some (id, name) =>
      let localRoles := if bool_decide (tc_LocalRoles c = []) then [RoleClient] else tc_LocalRoles c in
      match BuildPeerConfigs localRoles (st_Peers state) with
      | Err err => (Err err, w, l)
      | Ok (peers, skipped) =>
          if ae_cancelled2 e then (Err ErrReloadContext, w, l) else
          if negb (ae_configure e) then (Err ErrConfigurePeers, w, l) else
          let w := configure id (peers_config c peers) w in
          let '(r, l) := configure_links e c name peers l in (r, w, l)
      end
  end.
End Convert.

Arguments apply_env : clear implicits.
Arguments MkApplyEnv {A}.

(** ** Which peers are configured *)

Definition has_key (p : ClientPeer) : Prop := cp_PeerPubkey p ≠ [].
#[global] Instance has_key_dec p : Decision (has_key p).
Proof. unfold has_key. apply _. Defined.

(** The batch goes through when every peer with a key converts and no peer without
    one is refused for its name or protocol. *)
Definition convertible (R : string → option UDPAddr) (p : ClientPeer) : Prop :=
  match PeerEntryToWGConfig R p with Ok _ | Err (ErrPeerPublicKeyRequired _) => True | _ => False end.

Lemma key_required R p name : PeerEntryToWGConfig R p = Err (ErrPeerPublicKeyRequired name) →
  ¬ has_key p ∧ name = cp_PeerName p.
Proof.
  unfold PeerEntryToWGConfig, has_key. intros H.
  destruct (bool_decide (TrimSpace _ = "")); [done|]. destruct (_ && _ && _); [done|].
  case_bool_decide as Hk; [injection H as <-; tauto|]. exfalso.
  destruct (NewKey _); [|done]. destruct (parseAllowedIPs _); [|done]. cbn in H. by repeat case_match.
Qed.
Lemma converted_has_key R p c : PeerEntryToWGConfig R p = Ok c → has_key p.
Proof.
  unfold PeerEntryToWGConfig, has_key. intros H Hk. rewrite (bool_decide_eq_true_2 _ Hk) in H. by repeat case_match.
Qed.

Lemma convert_peers_ok R peers cfgs skipped : convert_peers R peers = Ok (cfgs, skipped) →
  Forall2 (λ p c, PeerEntryToWGConfig R p = Ok c) (filter has_key peers) cfgs ∧
  skipped = cp_PeerName <$> filter (λ p, ¬ has_key p) peers.
Proof.
  revert cfgs skipped. induction peers as [|p peers IH]; intros cfgs skipped; cbn [convert_peers].
  { intros [= <- <-]. split; [constructor|done]. }
  destruct (PeerEntryToWGConfig R p) as [c|e] eqn:Hp.
  - apply converted_has_key in Hp as Hk. intros H. destruct (convert_peers R peers) as [[cs sk]|]; [|done].
    injection H as <- <-. destruct (IH _ _ eq_refl) as [H1 H2].
    rewrite !filter_cons, (decide_True (P := has_key p)), (decide_False (P := ¬ has_key p)) by tauto. split; [by constructor|done].
  - destruct e; try done. apply key_required in Hp as [Hk _]. intros H.
    destruct (convert_peers R peers) as [[cs sk]|]; [|done]. injection H as <- <-. destruct (IH _ _ eq_refl) as [H1 H2].
    rewrite !filter_cons, (decide_False (P := has_key p)), (decide_True (P := ¬ has_key p)) by done. split; [done|].
    cbn [fmap list_fmap]. by f_equal.
Qed.

Lemma convert_peers_total R peers : Forall (convertible R) peers → ∃ r, convert_peers R peers = Ok r.
Proof.
  induction 1 as [|p peers Hp _ [r IH]]; [by eexists|]. cbn [convert_peers]. unfold convertible in Hp. rewrite IH.
  destruct (PeerEntryToWGConfig R p) as [|[]]; try done; by eexists.
Qed.

(** One peer that does not convert refuses the whole list. *)
Lemma convert_peers_refuses R peers p : p ∈ peers → ¬ convertible R p → ∃ e, convert_peers R peers = Err e.
Proof.
  intros Hin Hp. induction peers as [|q peers IH]; [set_solver|]. cbn [convert_peers].
  apply elem_of_cons in Hin as [->|Hin].
  - unfold convertible in Hp. destruct (PeerEntryToWGConfig R q) as [|[]]; try tauto; by eexists.
  - destruct (IH Hin) as [e ->]. destruct (PeerEntryToWGConfig R q) as [|[]]; by eexists.
Qed.

Lemma reject_non_master_ok peers :
  Forall (λ p, cp_PeerRole p = "" ∨ cp_PeerRole p = RoleMaster) peers → reject_non_master peers = Ok ().
Proof.
  induction 1 as [|p peers Hp _ IH]; [done|]. cbn [reject_non_master].
  destruct Hp as [-> | ->]; rewrite IH; by repeat case_bool_decide.
Qed.

(** ** Routes *)

Section Routes.
Context {L A : Type} `{!LinkConfigurator L A}.

(** After the loop every network that is not the node's own has a route over the
    interface, under its text; routes to other networks are as before. *)
Lemma install_routes_spec (a : nat → A) iface own src i seen nets (l l' : L) :
  install_routes a iface own src i seen nets l = (Ok (), l') →
  (∀ n, n ∈ nets → net_string (normalizeCIDR n) ≠ own →
     net_string (normalizeCIDR n) ∈ seen ∨
     ∃ d, net_string d = net_string (normalizeCIDR n) ∧ d ∈ normalizeCIDR <$> nets ∧ routed l' d iface src) ∧
  (∀ d dev s, net_string d ∈ seen ∨ d ∉ normalizeCIDR <$> nets ∨ net_string d = own →
     routed l' d dev s ↔ routed l d dev s).
Proof.
  revert i seen l. induction nets as [|n nets IH]; intros i seen l; cbn [install_routes].
  { intros [= <-]. split; [set_solver|done]. }
  case_bool_decide as Hown.
  { intros H. destruct (IH _ _ _ H) as [IH1 IH2]. split.
    - intros m Hm Hne. apply elem_of_cons in Hm as [->|Hm]; [done|]. destruct (IH1 _ Hm Hne) as [?|(d & ? & ? & ?)]; [by left|right].
      exists d. split_and!; try done. by right.
    - intros d dev s Hd. apply IH2. set_solver. }
  case_bool_decide as Hseen.
  { intros H. destruct (IH _ _ _ H) as [IH1 IH2]. split.
    - intros m Hm Hne. apply elem_of_cons in Hm as [->|Hm]; [by left|]. destruct (IH1 _ Hm Hne) as [?|(d & ? & ? & ?)]; [by left|right].
      exists d. split_and!; try done. by right.
    - intros d dev s Hd. apply IH2. set_solver. }
  destruct (lc_RouteReplaceLinkWithSrc (a i) (normalizeCIDR n) iface src l) as [[[]|e] l1] eqn:Hr; [|done]. intros H.
  destruct (IH _ _ _ H) as [IH1 IH2].
  pose proof (lc_Route_ok _ _ _ _ _ _ Hr) as Hn.
  assert (routed l' (normalizeCIDR n) iface src) as Hn' by (apply IH2; [left; set_solver|done]). split.
  - intros m Hm Hne. apply elem_of_cons in Hm as [->|Hm].
    + right. exists (normalizeCIDR n). split_and!; [done| |done]. rewrite fmap_cons. by left.
    + destruct (IH1 _ Hm Hne) as [Hs|(d & ? & ? & ?)].
      * apply elem_of_union in Hs as [Hs%elem_of_singleton|?]; [|by left]. right. exists (normalizeCIDR n).
        split_and!; [by rewrite Hs| |done]. rewrite fmap_cons. by left.
      * right. exists d. split_and!; try done. by right.
  - intros d dev s Hd. assert (d ≠ normalizeCIDR n) as Hne.
    { intros ->. destruct Hd as [Hd|[Hd|Hd]]; [done| |done]. apply Hd. rewrite fmap_cons. by left. }
    rewrite IH2 by set_solver. replace l1 with (lc_RouteReplaceLinkWithSrc (a i) (normalizeCIDR n) iface src l).2 by (by rewrite Hr).
    by apply lc_Route_other.
Qed.

Lemma install_routes_links (a : nat → A) iface own src i seen nets (l : L) dev n :
  addressed l dev n → is_up l dev →
  let l' := (install_routes a iface own src i seen nets l).2 in addressed l' dev n ∧ is_up l' dev.
Proof.
  revert i seen l. induction nets as [|m nets IH]; intros i seen l Ha Hu; cbn [install_routes]; [done|].
  case_bool_decide; [by apply IH|]. case_bool_decide; [by apply IH|].
  pose proof (lc_Route_links (a i) (normalizeCIDR m) iface src l dev n) as [H1 H2].
  destruct (lc_RouteReplaceLinkWithSrc _ _ _ _ _) as [[[]|e] l1]; [apply IH|split]; auto.
Qed.

Definition peer_nets (peers : list PeerConfig) : list IPNet := mjoin (pc_AllowedIPs <$> peers).

(** What the links are after a successful [Apply]. *)
Definition links_applied (c : TransportConfigurator) (name : string) (peers : list PeerConfig) (l l' : L) : Prop :=
  match tc_OverlayAddress c with
  | None => l' = l
  | Some overlay =>
      addressed l' name overlay ∧ is_up l' name ∧
      (∀ n, n ∈ peer_nets peers → net_string (normalizeCIDR n) ≠ net_string (normalizeCIDR overlay) →
         ∃ d, net_string d = net_string (normalizeCIDR n) ∧ d ∈ normalizeCIDR <$> peer_nets peers ∧
              routed l' d name (ip_of overlay)) ∧
      (∀ d dev src, d ∉ normalizeCIDR <$> peer_nets peers ∨ net_string d = net_string (normalizeCIDR overlay) →
         routed l' d dev src ↔ routed l d dev src)
  end.

Lemma configure_links_ok (e : apply_env A) c name peers (l l' : L) :
  configure_links e c name peers l = (Ok (), l') → links_applied c name peers l l'.
Proof.
  unfold configure_links, links_applied, installPeerRoutes.
  destruct (tc_OverlayAddress c) as [overlay|]; [|by intros [= <-]]. destruct (tc_LinkConfigurator c); [|done]. cbn [negb].
  destruct (lc_AddrAdd _ _ _ _) as [[[]|err] l1] eqn:H1; [|done].
  destruct (lc_LinkSetUp _ _ l1) as [[[]|err] l2] eqn:H2; [|done]. intros H.
  pose proof (lc_AddrAdd_ok _ _ _ _ _ H1) as Ha. destruct (lc_LinkSetUp_ok _ _ _ _ H2) as (Hu & _ & Hk).
  destruct (install_routes_links (ae_route e) name (net_string (normalizeCIDR overlay)) (ip_of overlay) 0 ∅
    (peer_nets peers) l2 name overlay (Hk _ _ Ha) Hu) as [Ha' Hu'].
  unfold peer_nets in *. rewrite H in Ha', Hu'. destruct (install_routes_spec _ _ _ _ _ _ _ _ _ H) as [Hr Ho].
  split_and!; try done.
  - intros n Hn Hne. destruct (Hr n Hn Hne) as [?|?]; [set_solver|done].
  - intros d dev src Hd. rewrite Ho by tauto.
    replace l2 with (lc_LinkSetUp (ae_up e) name l1).2 by (by rewrite H2). rewrite lc_LinkSetUp_routes.
    replace l1 with (lc_AddrAdd (ae_addr e) name overlay l).2 by (by rewrite H1). apply lc_AddrAdd_routes.
Qed.

Lemma Apply_cases R (e : apply_env A) c state w (l : L) :
  let '(r, w', l') := Apply R e c state w l in
  (w' = w ∧ l' = l ∧ r ≠ Ok ()) ∨
  ∃ id name peers skipped, tc_Transport c = Some (id, name) ∧ convert_peers R (st_Peers state) = Ok (peers, skipped) ∧
    w' = configure id (peers_config c peers) w ∧ configure_links e c name peers l = (r, l').
Proof.
  unfold Apply. destruct (ae_cancelled e); [by left|]. destruct (tc_Transport c) as [[id name]|]; [|by left].
  unfold BuildPeerConfigs. set (roles := if bool_decide _ then _ else _).
  destruct (if localHasClient roles then _ else _) as [[]|err]; cbn [res_bind]; [|by left].
  destruct (convert_peers R (st_Peers state)) as [[peers sk]|err] eqn:Hc; [|by left].
  destruct (ae_cancelled2 e); [by left|]. destruct (ae_configure e); [|by left]. cbn [negb].
  destruct (configure_links e c name peers l) as [r l'] eqn:Hl. right. by exists id, name, peers, sk.
Qed.
End Routes.

(** Applying a peer snapshot: on success the device's peers were replaced in one
    configuration by exactly the converted peers with a key, in order; the overlay
    address is assigned and the interface up; every network of a peer other than the
    node's own has a route over the interface with the overlay address as its source,
    and no other route changed. An error before the configuration leaves device and
    links untouched. *)
Theorem reload_applied {L A} `{!LinkConfigurator L A} R (e : apply_env A) c state w (l : L) :
  let '(r, w', l') := Apply R e c state w l in
  match r with
  | Ok _ => ∃ id name peers, tc_Transport c = Some (id, name) ∧
      Forall2 (λ p cfg, PeerEntryToWGConfig R p = Ok cfg) (filter has_key (st_Peers state)) peers ∧
      w' = configure id (peers_config c peers) w ∧ links_applied c name peers l l'
  | Err _ => w' = w ∧ l' = l ∨
      ∃ id peers, w' = configure id (peers_config c peers) w ∧
        Forall2 (λ p cfg, PeerEntryToWGConfig R p = Ok cfg) (filter has_key (st_Peers state)) peers
  end.
Proof.
  pose proof (Apply_cases R e c state w l) as H. destruct (Apply R e c state w l) as [[r w'] l'].
  destruct H as [(-> & -> & Hr)|(id & name & peers & sk & Ht & Hc & -> & Hl)].
  - destruct r as [[]|]; [done|by left].
  - apply convert_peers_ok in Hc as [Hc _]. destruct r as [[]|err].
    + exists id, name, peers. split_and!; try done. by eapply configure_links_ok.
    + right. by exists id, peers.
Qed.
