(* ===== verification/CertUpdate.v ===== *)
(** * Replacing a node's credentials ([src/pkg/clientd/cert_update.go])

    A certificate update is validated, written next to the old files, and swapped in
    by renames with the old pair kept as backups until both are in place. Files are
    a map from cleaned path to content; whether the operating system carries out a
    request is an argument. *)

From S2P Require Import Prelude GoStrings GoNet GoPath.

Notation files := (gmap string string).
Definition file_at (m : files) (path : string) : option string := m !! path_Clean path.

(** [os.Remove] and [os.Rename]; renaming a missing file fails. *)
Definition os_Remove (ok : bool) (path : string) (m : files) : files := if ok then delete (path_Clean path) m else m.
Definition os_Rename (ok : bool) (src dst : string) (m : files) : option files :=
  content ← file_at m src;
  if ok then Some (<[path_Clean dst := content]> (delete (path_Clean src) m)) else None.

Inductive update_error :=
  | ErrUpdateNil | ErrUpdateNoCert | ErrUpdateNoKey | ErrUpdateExpired | ErrUpdatePair
  | ErrUpdatePaths | ErrUpdateSamePath
  | ErrUpdateKeyTemp | ErrUpdateCertTemp
  | ErrUpdateBackupKey
  | ErrUpdateBackupCert (rollback_failed : bool)
  | ErrUpdateReplaceKey (rollback_failed : bool)
  | ErrUpdateReplaceCert (rollback_failed : bool).

(** Writing a temporary file: [te_name] is the new name [os.CreateTemp] picked, and
    [te_partial] what a failed write leaves behind. *)
Record temp_env := MkTempEnv {
  te_mkdir : bool; te_name : option string; te_write : bool; te_partial : string;
  te_chmod : bool; te_close : bool; te_remove : bool
}.
Definition writeTempFile (e : temp_env) (data : string) (m : files) : option string * files :=
  if negb (te_mkdir e) then (None, m) else
  match te_name e with
  | None => (None, m)
  | Some tempPath =>
      if negb (te_write e) then (None, os_Remove (te_remove e) tempPath (<[path_Clean tempPath := te_partial e]> m)) else
      let m := <[path_Clean tempPath := data]> m in
      if negb (te_chmod e) then (None, os_Remove (te_remove e) tempPath m) else
      if negb (te_close e) then (None, os_Remove (te_remove e) tempPath m) else
      (Some tempPath, m)
  end.

Inductive stat_outcome := StatAnswers | StatFails | StatDirectory.
Record backup_env := MkBackupEnv { be_stat : stat_outcome; be_remove : bool; be_rename : bool }.
Definition bak (path : string) : string := path +:+ ".bak".

(** [None] is an error; otherwise whether there was a file to back up. *)
Definition backupExistingFile (e : backup_env) (path : string) (m : files) : option bool * files :=
  match be_stat e with
  | StatFails | StatDirectory => (None, m)
  | StatAnswers =>
      match file_at m path with
      | None => (Some false, m)
      | Some _ =>
          let m := os_Remove (be_remove e) (bak path) m in
          match os_Rename (be_rename e) path (bak path) m with
          | None => (None, m)
          | Some m => (Some true, m)
          end
      end
  end.

Record restore_env := MkRestoreEnv { re_remove : bool; re_rename : bool }.
Definition restoreFile (e : restore_env) (path : string) (hadBackup installed : bool) (m : files) : bool * files :=
  let m := if installed then os_Remove (re_remove e) path m else m in
  if negb hadBackup then (true, m) else
  match os_Rename (re_rename e) (bak path) path m with
  | None => (false, m)
  | Some m => (true, m)
  end.
(** Both files are tried whatever happens to the first; [true] when neither failed. *)
Definition restoreCertKeyPair (ce ke : restore_env) (certPath keyPath : string)
    (hadCert hadKey certInstalled keyInstalled : bool) (m : files) : bool * files :=
  let '(certOk, m) := restoreFile ce certPath hadCert certInstalled m in
  let '(keyOk, m) := restoreFile ke keyPath hadKey keyInstalled m in
  (certOk && keyOk, m).

Definition removeBackup (ok : bool) (path : string) (hadBackup : bool) (m : files) : files :=
  if hadBackup then os_Remove ok (bak path) m else m.
Definition removeIfSet (ok : bool) (path : option string) (m : files) : files :=
  match path with Some p => os_Remove ok p m | None => m end.

Record pair_env := MkPairEnv {
  pv_key_temp : temp_env; pv_cert_temp : temp_env;
  pv_key_backup : backup_env; pv_cert_backup : backup_env;
  pv_key_rename : bool; pv_cert_rename : bool;
  pv_restore_cert : restore_env; pv_restore_key : restore_env;
  pv_drop_key : bool; pv_drop_cert : bool;          (* removing the backups *)
  pv_clean_key : bool; pv_clean_cert : bool         (* the deferred removals *)
}.

(** The two renames, with the old pair backed up; the flags say which temporary files
    are still there for the deferred removals. *)
Definition rename_pair (e : pair_env) (certPath keyPath certTemp keyTemp : string) (hadCert hadKey : bool) (m : files)
    : res update_error unit * (bool * bool) * files :=
  match os_Rename (pv_key_rename e) keyTemp keyPath m with
  | None =>
      let '(ok, m) := restoreCertKeyPair (pv_restore_cert e) (pv_restore_key e) certPath keyPath hadCert hadKey false false m in
      (Err (ErrUpdateReplaceKey (negb ok)), (true, true), m)
  | Some m =>
      match os_Rename (pv_cert_rename e) certTemp certPath m with
      | None =>
          let '(ok, m) := restoreCertKeyPair (pv_restore_cert e) (pv_restore_key e) certPath keyPath hadCert hadKey false true m in
          (Err (ErrUpdateReplaceCert (negb ok)), (false, true), m)
      | Some m =>
          (Ok (), (false, false),
           removeBackup (pv_drop_key e) keyPath hadKey (removeBackup (pv_drop_cert e) certPath hadCert m))
      end
  end.

(** From the backups on, with both temporary files written. *)
Definition swap_pair (e : pair_env) (certPath keyPath certTemp keyTemp : string) (m : files)
    : res update_error unit * (bool * bool) * files :=
  match backupExistingFile (pv_key_backup e) keyPath m with
  | (None, m) => (Err ErrUpdateBackupKey, (true, true), m)
  | (Some hadKey, m) =>
      match backupExistingFile (pv_cert_backup e) certPath m with
      | (None, m) =>
          let '(ok, m) := restoreCertKeyPair (pv_restore_cert e) (pv_restore_key e) certPath keyPath false hadKey false false m in
          (Err (ErrUpdateBackupCert (negb ok)), (true, true), m)
      | (Some hadCert, m) => rename_pair e certPath keyPath certTemp keyTemp hadCert hadKey m
      end
  end.

Definition writeCertKeyPairAtomic (e : pair_env) (certPath keyPath certPEM keyPEM : string) (m : files)
    : res update_error unit * files :=
  if bool_decide (certPath = "") || bool_decide (keyPath = "") then (Err ErrUpdatePaths, m) else
  if bool_decide (path_Clean certPath = path_Clean keyPath) then (Err ErrUpdateSamePath, m) else
  match writeTempFile (pv_key_temp e) keyPEM m with
  | (None, m) => (Err ErrUpdateKeyTemp, m)
  | (Some keyTemp, m) =>
      match writeTempFile (pv_cert_temp e) certPEM m with
      | (None, m) => (Err ErrUpdateCertTemp, os_Remove (pv_clean_key e) keyTemp m)
      | (Some certTemp, m) =>
          let '(r, (keyLeft, certLeft), m) := swap_pair e certPath keyPath certTemp keyTemp m in
          let m := removeIfSet (pv_clean_cert e) (if certLeft then Some certTemp else None) m in
          (r, removeIfSet (pv_clean_key e) (if keyLeft then Some keyTemp else None) m)
      end
  end.

(** [pb.CertUpdate] *)
Record CertUpdate := MkCertUpdate { cu_CertPem : string; cu_KeyPem : string; cu_ValidUntilUnix : Z }.

(** [X509KeyPair] says whether certificate and key belong together; [now] is in
    nanoseconds since the Unix epoch. *)
Definition ApplyCertUpdate (X509KeyPair : string → string → bool) (now : Z) (e : pair_env) (certPath keyPath : string)
    (update : option CertUpdate) (m : files) : res update_error unit * files :=
  match update with
  | None => (Err ErrUpdateNil, m)
  | Some u =>
      if bool_decide (cu_CertPem u = "") then (Err ErrUpdateNoCert, m) else
      if bool_decide (cu_KeyPem u = "") then (Err ErrUpdateNoKey, m) else
      if negb (cu_ValidUntilUnix u =? 0) && negb (now <? cu_ValidUntilUnix u * 1000000000) then (Err ErrUpdateExpired, m) else
      if negb (X509KeyPair (cu_CertPem u) (cu_KeyPem u)) then (Err ErrUpdatePair, m) else
      writeCertKeyPairAtomic e certPath keyPath (cu_CertPem u) (cu_KeyPem u) m
  end.

(** ** The update is all or nothing *)

(** The paths of one update are different files, and a temporary file is new. *)
Record paths_ok (e : pair_env) (certPath keyPath : string) (m : files) : Prop := {
  po_distinct : NoDup [path_Clean certPath; path_Clean keyPath; path_Clean (bak certPath); path_Clean (bak keyPath)];
  po_key_temp : ∀ t, te_name (pv_key_temp e) = Some t → m !! path_Clean t = None ∧
    path_Clean t ∉ [path_Clean certPath; path_Clean keyPath; path_Clean (bak certPath); path_Clean (bak keyPath)];
  po_cert_temp : ∀ t, te_name (pv_cert_temp e) = Some t → m !! path_Clean t = None ∧
    path_Clean t ∉ [path_Clean certPath; path_Clean keyPath; path_Clean (bak certPath); path_Clean (bak keyPath)] ∧
    Some (path_Clean t) ≠ path_Clean <$> te_name (pv_key_temp e)
}.

Definition rollback_failed (err : update_error) : bool :=
  match err with ErrUpdateBackupCert b | ErrUpdateReplaceKey b | ErrUpdateReplaceCert b => b | _ => false end.

(** The old file is where it was, or under its backup name. *)
Definition recoverable (m m' : files) (path : string) : Prop :=
  ∀ old, file_at m path = Some old → file_at m' path = Some old ∨ file_at m' (bak path) = Some old.

Definition pair_outcome (e : pair_env) (certPath keyPath certPEM keyPEM : string) (m m' : files)
    (r : res update_error unit) : Prop :=
  match r with
  | Ok _ => file_at m' certPath = Some certPEM ∧ file_at m' keyPath = Some keyPEM
  | Err err =>
      recoverable m m' certPath ∧ recoverable m m' keyPath ∧
      (rollback_failed err = false →
       re_remove (pv_restore_key e) = true ∨ is_Some (file_at m keyPath) →
       file_at m' certPath = file_at m certPath ∧ file_at m' keyPath = file_at m keyPath)
  end.

(** What one operation does to a path [p] with backup name [pb], and to the rest. *)
Lemma backup_spec e path m r m' : path_Clean path ≠ path_Clean (bak path) → backupExistingFile e path m = (r, m') →
  (∀ q, q ≠ path_Clean path → q ≠ path_Clean (bak path) → m' !! q = m !! q) ∧
  match r with
  | None => file_at m' path = file_at m path
  | Some false => file_at m path = None ∧ file_at m' path = None
  | Some true => ∃ old, file_at m path = Some old ∧ file_at m' path = None ∧ file_at m' (bak path) = Some old
  end.
Proof.
  unfold backupExistingFile, os_Rename, os_Remove, file_at. intros Hne.
  destruct (be_stat e); [|by intros [= <- <-]..]. destruct (m !! path_Clean path) as [old|] eqn:Hm; [|by intros [= <- <-]].
  set (m1 := if be_remove e then _ else m).
  assert (∀ q, q ≠ path_Clean (bak path) → m1 !! q = m !! q) as Hm1
    by (intros q Hq; subst m1; destruct (be_remove e); [by rewrite lookup_delete_ne|done]).
  rewrite (Hm1 (path_Clean path)), Hm by done. cbn [mbind option_bind].
  destruct (be_rename e); intros [= <- <-].
  - split; [intros q H1 H2; simplify_map_eq; auto|]. exists old. by simplify_map_eq.
  - split; [auto|]. by rewrite Hm1.
Qed.

Lemma rename_spec ok src dst m m' : path_Clean src ≠ path_Clean dst → os_Rename ok src dst m = Some m' →
  file_at m' dst = file_at m src ∧ is_Some (file_at m src) ∧ file_at m' src = None ∧
  ∀ q, q ≠ path_Clean src → q ≠ path_Clean dst → m' !! q = m !! q.
Proof.
  unfold os_Rename, file_at. intros Hne. destruct (m !! path_Clean src) as [c|] eqn:Hm; [|done]. cbn [mbind option_bind].
  destruct ok; intros [= <-]. split_and!; [by simplify_map_eq..|]. intros q H1 H2. by simplify_map_eq.
Qed.

(** Restoring after the file at [path] was moved away ([installed]: and another one
    put there). *)
Lemma restore_spec e path had installed m ok m' : path_Clean path ≠ path_Clean (bak path) →
  restoreFile e path had installed m = (ok, m') →
  (∀ q, q ≠ path_Clean path → q ≠ path_Clean (bak path) → m' !! q = m !! q) ∧
  (had = false → ok = true ∧ file_at m' (bak path) = file_at m (bak path) ∧
     file_at m' path = if installed && re_remove e then None else file_at m path) ∧
  (had = true → ∀ old, file_at m (bak path) = Some old →
     file_at m' path = Some old ∨ (ok = false ∧ file_at m' (bak path) = Some old)).
Proof.
  unfold restoreFile, os_Rename, os_Remove, file_at. intros Hne.
  destruct had; cbn [negb].
  - set (m1 := if installed then _ else m).
    assert (∀ q, q ≠ path_Clean path → m1 !! q = m !! q) as Hm1
      by (intros q Hq; subst m1; destruct installed, (re_remove e); [by rewrite lookup_delete_ne|done..]).
    rewrite (Hm1 (path_Clean (bak path))) by done. destruct (m !! path_Clean (bak path)) as [old|] eqn:Hb; cbn [mbind option_bind].
    + destruct (re_rename e); intros [= <- <-]; (split; [intros q H1 H2; simplify_map_eq; auto|split; [done|]]); intros _ o [= <-].
      * left. by simplify_map_eq.
      * right. split; [done|]. by rewrite Hm1.
    + intros [= <- <-]. split; [intros q H1 H2; auto|]. split; [done|]. done.
  - intros [= <- <-]. split; [|split; [|done]].
    + intros q H1 H2. destruct installed, (re_remove e); by simplify_map_eq.
    + intros _. destruct installed, (re_remove e); cbn [andb]; by simplify_map_eq.
Qed.

(** The file of [m0] at [path] was backed up in [m], or ([had] is false) was left
    alone, or was absent and has been [installed] since. *)
Definition set_aside (m0 m : files) (path : string) (had installed : bool) : Prop :=
  if had then ∃ old, file_at m0 path = Some old ∧ file_at m (bak path) = Some old
  else file_at m0 path = if installed then None else file_at m path.

Lemma restored e path had installed m0 m ok m' : path_Clean path ≠ path_Clean (bak path) →
  set_aside m0 m path had installed → restoreFile e path had installed m = (ok, m') →
  recoverable m0 m' path ∧
  (ok = true → installed = false ∨ re_remove e = true ∨ is_Some (file_at m0 path) → file_at m' path = file_at m0 path).
Proof.
  intros Hne Hs H. destruct (restore_spec _ _ _ _ _ _ _ Hne H) as (_ & H1 & H2). destruct had; cbn in Hs.
  - destruct Hs as (old & Ho & Hb). destruct (H2 eq_refl _ Hb) as [Hr|[-> Hr]]; (split; [intros o Ho'; simplify_eq; auto|]).
    + intros _ _. congruence.
    + done.
  - destruct (H1 eq_refl) as (-> & Hb & Hp). split.
    + intros o Ho. rewrite Ho in Hs. destruct installed; [done|]. cbn in Hp. left. congruence.
    + intros _ Hc. rewrite Hp, Hs. destruct installed; [|done]. cbn.
      destruct Hc as [?|[->|Hc]]; [done|done|]. rewrite Hs in Hc. by destruct Hc.
Qed.

Section Swap.
Context (certPath keyPath certTemp keyTemp : string).
Hypothesis Hd : NoDup [path_Clean certPath; path_Clean keyPath; path_Clean (bak certPath); path_Clean (bak keyPath);
  path_Clean certTemp; path_Clean keyTemp].

(** Restoring both: what [pair_outcome] asks for on an error. *)
Lemma restored_pair ce ke hadCert hadKey keyInst m0 m ok m' :
  set_aside m0 m certPath hadCert false → set_aside m0 m keyPath hadKey keyInst →
  restoreCertKeyPair ce ke certPath keyPath hadCert hadKey false keyInst m = (ok, m') →
  recoverable m0 m' certPath ∧ recoverable m0 m' keyPath ∧
  (ok = true → keyInst = false ∨ re_remove ke = true ∨ is_Some (file_at m0 keyPath) →
   file_at m' certPath = file_at m0 certPath ∧ file_at m' keyPath = file_at m0 keyPath).
Proof using Hd.
  rewrite !NoDup_cons, !not_elem_of_cons in Hd. intros Hc Hk. unfold restoreCertKeyPair.
  destruct (restoreFile ce certPath _ _ m) as [okc m1] eqn:H1. destruct (restoreFile ke keyPath _ _ m1) as [okk m2] eqn:H2.
  intros [= <- <-].
  destruct (restored _ certPath _ _ m0 _ _ _ ltac:(naive_solver) Hc H1) as [Hc1 Hc2].
  destruct (restore_spec _ certPath _ _ _ _ _ ltac:(naive_solver) H1) as [F1 _].
  destruct (restore_spec _ keyPath _ _ _ _ _ ltac:(naive_solver) H2) as [F2 _].
  assert (set_aside m0 m1 keyPath hadKey keyInst) as Hk'.
  { unfold set_aside, file_at in *. rewrite !F1 by naive_solver. done. }
  destruct (restored _ keyPath _ _ m0 _ _ _ ltac:(naive_solver) Hk' H2) as [Hk1 Hk2].
  split_and!; [|done|].
  - intros old Ho. destruct (Hc1 old Ho); [left|right]; unfold file_at in *; rewrite F2 by naive_solver; done.
  - intros [-> ->]%andb_true_iff Hi. split; [|auto]. unfold file_at in *. rewrite F2 by naive_solver. auto.
Qed.

(** Removing the backups changes nothing else. *)
Lemma removeBackup_other ok path had m q : q ≠ path_Clean (bak path) → removeBackup ok path had m !! q = m !! q.
Proof. intros Hq. unfold removeBackup, os_Remove. destruct had, ok; rewrite ?lookup_delete_ne by done; done. Qed.

(** The two renames, once the old pair is set aside. *)
Lemma renames_outcome e certPEM keyPEM m m2 hadCert hadKey r kept m' :
  set_aside m m2 certPath hadCert false → (∀ i, set_aside m m2 keyPath hadKey i) →
  file_at m2 keyTemp = Some keyPEM → file_at m2 certTemp = Some certPEM →
  rename_pair e certPath keyPath certTemp keyTemp hadCert hadKey m2 = (r, kept, m') →
  pair_outcome e certPath keyPath certPEM keyPEM m m' r.
Proof using Hd.
  pose proof Hd as Hd'. rewrite !NoDup_cons, !not_elem_of_cons in Hd'. intros Hc Hk Htk Htc. unfold rename_pair.
  destruct (os_Rename (pv_key_rename e) keyTemp keyPath m2) as [m3|] eqn:H3; cycle 1.
  { destruct (restoreCertKeyPair _ _ _ _ _ _ _ _ m2) as [ok m3'] eqn:H3'. intros [= <- <- <-]. cbn.
    destruct (restored_pair _ _ _ _ _ m _ _ _ Hc (Hk false) H3') as (R1 & R2 & R3).
    split_and!; [done..|]. intros Hok%negb_false_iff _. auto. }
  destruct (rename_spec _ keyTemp keyPath _ _ ltac:(naive_solver) H3) as (E3 & _ & _ & F3).
  destruct (os_Rename (pv_cert_rename e) certTemp certPath m3) as [m4|] eqn:H4; cycle 1.
  { destruct (restoreCertKeyPair _ _ _ _ _ _ _ _ m3) as [ok m4'] eqn:H4'. intros [= <- <- <-]. cbn.
    assert (set_aside m m3 certPath hadCert false) as Hc3.
    { unfold set_aside, file_at in *. rewrite !F3 by naive_solver. done. }
    assert (set_aside m m3 keyPath hadKey true) as Hk3.
    { specialize (Hk true). unfold set_aside, file_at in *. rewrite !F3 by naive_solver. by destruct hadKey. }
    destruct (restored_pair _ _ _ _ _ m _ _ _ Hc3 Hk3 H4') as (R1 & R2 & R3).
    split_and!; [done..|]. intros Hok%negb_false_iff Hx. apply R3; [done|naive_solver]. }
  destruct (rename_spec _ certTemp certPath _ _ ltac:(naive_solver) H4) as (E4 & _ & _ & F4). intros [= <- <- <-]. cbn.
  unfold file_at in *. rewrite !removeBackup_other by naive_solver.
  rewrite E4, F3 by naive_solver. rewrite F4, E3 by naive_solver. done.
Qed.

Lemma swap_pair_outcome e certPEM keyPEM m r kept m' :
  file_at m keyTemp = Some keyPEM → file_at m certTemp = Some certPEM →
  swap_pair e certPath keyPath certTemp keyTemp m = (r, kept, m') →
  pair_outcome e certPath keyPath certPEM keyPEM m m' r.
Proof using Hd.
  pose proof Hd as Hd'. rewrite !NoDup_cons, !not_elem_of_cons in Hd'. intros Htk Htc. unfold swap_pair.
  destruct (backupExistingFile (pv_key_backup e) keyPath m) as [rk m1] eqn:H1.
  destruct (backup_spec _ keyPath _ _ _ ltac:(naive_solver) H1) as [F1 S1].
  destruct rk as [hadKey|]; cycle 1.
  { intros [= <- <- <-]. cbn. unfold recoverable, file_at in *. rewrite S1, F1 by naive_solver. auto. }
  destruct (backupExistingFile (pv_cert_backup e) certPath m1) as [rc m2] eqn:H2.
  destruct (backup_spec _ certPath _ _ _ ltac:(naive_solver) H2) as [F2 S2].
  assert (∀ i, set_aside m m2 keyPath hadKey i) as Hk.
  { intros i. unfold set_aside, file_at in *. rewrite !F2 by naive_solver. destruct hadKey; [naive_solver|].
    destruct S1 as [S1 S1']. destruct i; [done|]. by rewrite S1, S1'. }
  destruct rc as [hadCert|]; cycle 1.
  { destruct (restoreCertKeyPair _ _ _ _ _ _ _ _ m2) as [ok m3] eqn:H3. intros [= <- <- <-]. cbn.
    assert (set_aside m m2 certPath false false) as Hc.
    { unfold set_aside, file_at in *. rewrite S2, F1 by naive_solver. done. }
    destruct (restored_pair _ _ _ _ _ m _ _ _ Hc (Hk false) H3) as (R1 & R2 & R3).
    split_and!; [done..|]. intros Hok%negb_false_iff _. auto. }
  apply renames_outcome; [|done|unfold file_at in *; rewrite F2, F1 by naive_solver; done..].
  unfold set_aside, file_at in *. rewrite <- (F1 (path_Clean certPath)) by naive_solver. destruct hadCert; naive_solver congruence.
Qed.
End Swap.

Lemma writeTempFile_spec e data m r m' : writeTempFile e data m = (r, m') →
  (∀ q, (∀ t, te_name e = Some t → q ≠ path_Clean t) → m' !! q = m !! q) ∧
  ∀ t, r = Some t → te_name e = Some t ∧ file_at m' t = Some data.
Proof.
  unfold writeTempFile, os_Remove, file_at. destruct (te_mkdir e); [|intros [= <- <-]; by split]. cbn [negb].
  destruct (te_name e) as [t|]; [|intros [= <- <-]; by split].
  destruct (te_write e), (te_chmod e), (te_close e); cbn [negb]; intros [= <- <-];
    (split; [intros q Hq; specialize (Hq t eq_refl); destruct (te_remove e); rewrite ?lookup_delete_ne, ?lookup_insert_ne by done; done
    |intros t' [= <-]; by rewrite ?lookup_insert_eq]).
Qed.

Lemma outcome_frame e certPath keyPath certPEM keyPEM m m1 m2 m3 r :
  (∀ q, q ∈ [path_Clean certPath; path_Clean keyPath; path_Clean (bak certPath); path_Clean (bak keyPath)] →
     m1 !! q = m !! q ∧ m3 !! q = m2 !! q) →
  pair_outcome e certPath keyPath certPEM keyPEM m1 m2 r → pair_outcome e certPath keyPath certPEM keyPEM m m3 r.
Proof.
  intros F. unfold pair_outcome, recoverable, file_at.
  rewrite (proj2 (F (path_Clean certPath) ltac:(set_solver))), (proj2 (F (path_Clean keyPath) ltac:(set_solver))).
  rewrite (proj2 (F (path_Clean (bak certPath)) ltac:(set_solver))), (proj2 (F (path_Clean (bak keyPath)) ltac:(set_solver))).
  by rewrite (proj1 (F (path_Clean certPath) ltac:(set_solver))), (proj1 (F (path_Clean keyPath) ltac:(set_solver))).
Qed.

Lemma outcome_untouched e certPath keyPath certPEM keyPEM m m' err :
  (∀ q, q ∈ [path_Clean certPath; path_Clean keyPath] → m' !! q = m !! q) →
  pair_outcome e certPath keyPath certPEM keyPEM m m' (Err err).
Proof.
  intros F. cbn. unfold recoverable, file_at.
  rewrite (F (path_Clean certPath)), (F (path_Clean keyPath)) by set_solver. auto.
Qed.
Lemma os_Remove_other ok p m q : q ≠ path_Clean p → os_Remove ok p m !! q = m !! q.
Proof. intros H. unfold os_Remove. destruct ok; [by rewrite lookup_delete_ne|done]. Qed.
Lemma removeIfSet_other ok p m q : (∀ t, p = Some t → q ≠ path_Clean t) → removeIfSet ok p m !! q = m !! q.
Proof. intros H. destruct p; [|done]. apply os_Remove_other. auto. Qed.

Lemma write_pair_outcome e certPath keyPath certPEM keyPEM m r m' : paths_ok e certPath keyPath m →
  writeCertKeyPairAtomic e certPath keyPath certPEM keyPEM m = (r, m') →
  pair_outcome e certPath keyPath certPEM keyPEM m m' r.
Proof.
  intros [Hd Hk Hc]. unfold writeCertKeyPairAtomic.
  destruct (_ || _); [intros [= <- <-]; by apply outcome_untouched|].
  case_bool_decide; [intros [= <- <-]; by apply outcome_untouched|].
  destruct (writeTempFile (pv_key_temp e) keyPEM m) as [rk m1] eqn:H1. apply writeTempFile_spec in H1 as [F1 S1].
  set (four := [path_Clean certPath; path_Clean keyPath; path_Clean (bak certPath); path_Clean (bak keyPath)]) in *.
  assert (∀ q, q ∈ [path_Clean certPath; path_Clean keyPath] → q ∈ four) as H4 by (subst four; set_solver).
  assert (∀ q, q ∈ four → m1 !! q = m !! q) as F1'.
  { intros q Hq. apply F1. intros t Ht ->. by apply (Hk _ Ht). }
  destruct rk as [keyTemp|]; [|intros [= <- <-]; apply outcome_untouched; auto].
  destruct (S1 _ eq_refl) as [Nk Ck]. destruct (Hk _ Nk) as [_ Nk4].
  destruct (writeTempFile (pv_cert_temp e) certPEM m1) as [rc m2] eqn:H2. apply writeTempFile_spec in H2 as [F2 S2].
  assert (∀ q, q ∈ four → m2 !! q = m !! q) as F2'.
  { intros q Hq. rewrite F2; [auto|]. intros t Ht ->. destruct (Hc _ Ht) as (_ & Hn & _); by apply Hn. }
  destruct rc as [certTemp|]; cycle 1.
  { intros [= <- <-]. apply outcome_untouched. intros q Hq%H4. rewrite os_Remove_other by (intros ->; done). auto. }
  destruct (S2 _ eq_refl) as [Nc Cc]. destruct (Hc _ Nc) as (_ & Nc4 & Nck). rewrite Nk in Nck. cbn in Nck.
  destruct (swap_pair _ _ _ _ _ _) as [[r' [keyLeft certLeft]] m3] eqn:H3. intros [= <- <-].
  eapply (outcome_frame _ _ _ _ _ _ m2 m3).
  - intros q Hq. split; [auto|]. rewrite !removeIfSet_other; [done|..]; intros t; [destruct certLeft|destruct keyLeft]; intros [= <-] ->; done.
  - eapply swap_pair_outcome; [|..|exact H3]; [|unfold file_at in *; rewrite F2; [done|]|done].
    + apply (NoDup_app four [path_Clean certTemp; path_Clean keyTemp]). split_and!; [done| |].
      * intros x Hx. rewrite !not_elem_of_cons. split_and!; [by intros ->..|apply not_elem_of_nil].
      * apply NoDup_cons. split; [|apply NoDup_singleton]. intros ?%list_elem_of_singleton. congruence.
    + intros t Ht Heq. rewrite Nc in Ht. injection Ht as <-. congruence.
Qed.

(** C11. Replacing a node's certificate and key is all or nothing: on success both paths
    hold the new, matching, unexpired pair; on an error with a completed rollback both
    hold what they held before (a first key that could not be removed again aside);
    and even when the rollback fails the old certificate and key are each still at
    their path or at its backup name. *)
Theorem cert_update_atomic X509KeyPair now e certPath keyPath u m :
  paths_ok e certPath keyPath m →
  let '(r, m') := ApplyCertUpdate X509KeyPair now e certPath keyPath (Some u) m in
  pair_outcome e certPath keyPath (cu_CertPem u) (cu_KeyPem u) m m' r ∧
  (r = Ok () → X509KeyPair (cu_CertPem u) (cu_KeyPem u) = true ∧
     (cu_ValidUntilUnix u = 0 ∨ now < cu_ValidUntilUnix u * 1000000000)).
Proof.
  intros Hp. unfold ApplyCertUpdate.
  case_bool_decide; [by split; [apply outcome_untouched|]|]. case_bool_decide; [by split; [apply outcome_untouched|]|].
  destruct (negb (_ =? 0) && _) eqn:He; [by split; [apply outcome_untouched|]|].
  destruct (X509KeyPair _ _) eqn:Hx; [|by split; [apply outcome_untouched|]]. cbn [negb].
  destruct (writeCertKeyPairAtomic _ _ _ _ _ m) as [r m'] eqn:Hw. split; [by eapply write_pair_outcome|].
  intros _. split; [done|]. lia.
Qed.

Definition calm_temp (name : string) : temp_env := MkTempEnv true (Some name) true "" true true true.
(** The second rename fails; everything else works. *)
Definition stuck_cert : pair_env :=
  MkPairEnv (calm_temp "/etc/awg/.node.key.tmp-1") (calm_temp "/etc/awg/.node.crt.tmp-2")
    (MkBackupEnv StatAnswers true true) (MkBackupEnv StatAnswers true true) true false
    (MkRestoreEnv true true) (MkRestoreEnv true true) true true true true.
Definition old_pair : files := {[ "/etc/awg/node.crt" := "old cert"; "/etc/awg/node.key" := "old key" ]}.
Definition new_pair : CertUpdate := MkCertUpdate "new cert" "new key" 2000000000.

Lemma cert_update_atomic_witness :
  ApplyCertUpdate (λ _ _, true) 0 stuck_cert "/etc/awg/node.crt" "/etc/awg/node.key" (Some new_pair) old_pair =
    (Err (ErrUpdateReplaceCert false), old_pair) ∧
  pair_outcome stuck_cert "/etc/awg/node.crt" "/etc/awg/node.key" "new cert" "new key" old_pair old_pair
    (Err (ErrUpdateReplaceCert false)).
Proof.
  assert (ApplyCertUpdate (λ _ _, true) 0 stuck_cert "/etc/awg/node.crt" "/etc/awg/node.key" (Some new_pair) old_pair =
    (Err (ErrUpdateReplaceCert false), old_pair)) as H by by vm_compute.
  split; [exact H|].
  assert (paths_ok stuck_cert "/etc/awg/node.crt" "/etc/awg/node.key" old_pair) as Hp.
  { split; [apply (bool_decide_unpack _); by vm_compute|..]; intros t [= <-]; (split_and!; [by vm_compute|..]).
    - apply (bool_decide_unpack _); by vm_compute.
    - apply (bool_decide_unpack _); by vm_compute.
    - by vm_compute. }
  pose proof (cert_update_atomic (λ _ _, true) 0 stuck_cert _ _ new_pair _ Hp) as T. rewrite H in T. apply T.
Defined.

(** ** What an update leaves alone *)

(** The paths one update may write. *)
Definition touched (e : pair_env) (certPath keyPath : string) (q : string) : Prop :=
  q ∈ [path_Clean certPath; path_Clean keyPath; path_Clean (bak certPath); path_Clean (bak keyPath)] ∨
  Some q = path_Clean <$> te_name (pv_key_temp e) ∨ Some q = path_Clean <$> te_name (pv_cert_temp e).

Lemma os_Rename_other ok src dst m m' q : q ≠ path_Clean src → q ≠ path_Clean dst →
  os_Rename ok src dst m = Some m' → m' !! q = m !! q.
Proof.
  intros H1 H2. unfold os_Rename. destruct (file_at m src); [|done]. cbn [mbind option_bind]. destruct ok; intros [= <-].
  by rewrite lookup_insert_ne, lookup_delete_ne by done.
Qed.
Lemma restoreFile_other e path had inst m q : q ≠ path_Clean path → q ≠ path_Clean (bak path) →
  (restoreFile e path had inst m).2 !! q = m !! q.
Proof.
  intros H1 H2. unfold restoreFile. set (m1 := if inst then _ else m).
  assert (m1 !! q = m !! q) as E by (subst m1; destruct inst; [by apply os_Remove_other|done]).
  destruct had; cbn [negb]; [|done]. destruct (os_Rename _ _ _ m1) eqn:Hr; cbn [snd]; [|done].
  rewrite <- E. by eapply os_Rename_other in Hr.
Qed.
Lemma restorePair_other ce ke certPath keyPath a b c d m q :
  q ∉ [path_Clean certPath; path_Clean keyPath; path_Clean (bak certPath); path_Clean (bak keyPath)] →
  (restoreCertKeyPair ce ke certPath keyPath a b c d m).2 !! q = m !! q.
Proof.
  rewrite !not_elem_of_cons. intros (H1 & H2 & H3 & H4 & _). unfold restoreCertKeyPair.
  pose proof (restoreFile_other ce certPath a c m q H1 H3) as E1. destruct (restoreFile ce _ _ _ m) as [o1 m1]. cbn in E1.
  pose proof (restoreFile_other ke keyPath b d m1 q H2 H4) as E2. destruct (restoreFile ke _ _ _ m1) as [o2 m2]. cbn in *. congruence.
Qed.
Lemma backup_other e path m q : q ≠ path_Clean path → q ≠ path_Clean (bak path) →
  (backupExistingFile e path m).2 !! q = m !! q.
Proof.
  intros H1 H2. unfold backupExistingFile. destruct (be_stat e); [|done..]. destruct (file_at m path); [|done].
  destruct (os_Rename _ _ _ _) eqn:Hr; cbn [snd]; [|by apply os_Remove_other].
  rewrite <- (os_Remove_other (be_remove e) (bak path) m q H2). by eapply os_Rename_other in Hr.
Qed.

Lemma swap_pair_other e certPath keyPath certTemp keyTemp m q :
  q ∉ [path_Clean certPath; path_Clean keyPath; path_Clean (bak certPath); path_Clean (bak keyPath)] →
  q ≠ path_Clean certTemp → q ≠ path_Clean keyTemp →
  (swap_pair e certPath keyPath certTemp keyTemp m).2 !! q = m !! q.
Proof.
  intros Hq Hc Hk. pose proof Hq as Hq'. rewrite !not_elem_of_cons in Hq'. destruct Hq' as (H1 & H2 & H3 & H4 & _).
  unfold swap_pair, rename_pair.
  pose proof (backup_other (pv_key_backup e) keyPath m q H2 H4) as E1.
  destruct (backupExistingFile _ keyPath m) as [[hadKey|] m1]; [|done]. cbn in E1.
  pose proof (backup_other (pv_cert_backup e) certPath m1 q H1 H3) as E2.
  destruct (backupExistingFile _ certPath m1) as [[hadCert|] m2]; cbn in E2; rewrite <- E1, <- E2.
  - destruct (os_Rename _ keyTemp _ m2) as [m3|] eqn:H5.
    + apply os_Rename_other with (q := q) in H5; [|done..]. rewrite <- H5.
      destruct (os_Rename _ certTemp _ m3) as [m4|] eqn:H6.
      * apply os_Rename_other with (q := q) in H6; [|done..]. cbn. by rewrite !removeBackup_other by done.
      * rewrite <- (restorePair_other (pv_restore_cert e) (pv_restore_key e) certPath keyPath hadCert hadKey false true m3 q Hq).
        by destruct (restoreCertKeyPair _ _ _ _ _ _ _ _ m3).
    + rewrite <- (restorePair_other (pv_restore_cert e) (pv_restore_key e) certPath keyPath hadCert hadKey false false m2 q Hq).
      by destruct (restoreCertKeyPair _ _ _ _ _ _ _ _ m2).
  - rewrite <- (restorePair_other (pv_restore_cert e) (pv_restore_key e) certPath keyPath false hadKey false false m2 q Hq).
    by destruct (restoreCertKeyPair _ _ _ _ _ _ _ _ m2).
Qed.

Lemma cert_update_frame X509KeyPair now e certPath keyPath u m q : ¬ touched e certPath keyPath q →
  (ApplyCertUpdate X509KeyPair now e certPath keyPath u m).2 !! q = m !! q.
Proof.
  intros Hq. unfold ApplyCertUpdate. destruct u as [u|]; [|done].
  repeat (match goal with |- (if ?b then _ else _).2 !! _ = _ => destruct b; [done|] end).
  unfold writeCertKeyPairAtomic. destruct (_ || _); [done|]. case_bool_decide; [done|].
  destruct (writeTempFile (pv_key_temp e) _ m) as [rk m1] eqn:H1. apply writeTempFile_spec in H1 as [F1 S1].
  assert (m1 !! q = m !! q) as E1.
  { apply F1. intros t Ht ->. apply Hq. right. left. by rewrite Ht. }
  destruct rk as [keyTemp|]; [|done].
  destruct (writeTempFile (pv_cert_temp e) _ m1) as [rc m2] eqn:H2. apply writeTempFile_spec in H2 as [F2 S2].
  assert (m2 !! q = m !! q) as E2.
  { rewrite F2; [done|]. intros t Ht ->. apply Hq. right. right. by rewrite Ht. }
  destruct (S1 _ eq_refl) as [Nk _].
  assert (q ≠ path_Clean keyTemp) as Hk. { intros ->. apply Hq. right. left. by rewrite Nk. }
  destruct rc as [certTemp|]; [|cbn; by rewrite os_Remove_other]. destruct (S2 _ eq_refl) as [Nc _].
  assert (q ≠ path_Clean certTemp) as Hc. { intros ->. apply Hq. right. right. by rewrite Nc. }
  rewrite <- E2, <- (swap_pair_other e certPath keyPath certTemp keyTemp m2 q) by (try done; intros Hin; apply Hq; by left).
  destruct (swap_pair _ _ _ _ _ m2) as [[r [a b]] m3]. cbn.
  rewrite !removeIfSet_other; [done|..]; intros t; [destruct b|destruct a]; by intros [= <-].
Qed.
