(* ===== verification/ClientAgent.v ===== *)
(** * The client agent ([src/pkg/clientd/agent.go], [nat_traverse.go])

    The agent registers its node, follows the peer-list, ownership and certificate
    streams of the control plane, keeps the last state in a file, and hands every new
    state to a configurator. The configurator, the JSON codec and the key-pair check
    are parameters; what the operating system and the control plane answer is an
    argument of each turn. The three receiving goroutines send into one channel: the
    agent sees some interleaving of their messages, which is the list of updates a
    run is given; its end is the cancellation of the context. *)

From S2P Require Import Prelude GoStrings GoNet GoText GoPath Role Ledger Registry PeerList Server ServerProofs.
From S2P Require Import WgTypes DualListener Netlink LinkConfig PeerReload CertUpdate.

(** ** The state and its updates

    Slices are values here, so [Clone], [clonePeers] and [cloneOwnership] are the
    identity. A decoded message has no nil entry. *)

Definition State0 : State := MkState [] [] 0 0.
Definition state_IsZero (s : State) : bool :=
  bool_decide (st_Peers s = []) && bool_decide (st_Ownership s = []) && (st_PeerListVersion s =? 0) && (st_OwnershipVersion s =? 0).

(** No role: the message does not carry one. *)
Definition client_peer (p : PeerEntry) : ClientPeer :=
  MkClientPeer (pe_PeerName p) "" (pe_PeerOverlayIp p) (to_bytes (pe_PeerPubkey p)) (pe_PeerEndpointHost p)
    (pe_AllowedIps p) (pe_PersistentKeepaliveSecs p) (pe_Protocol p).
Definition withPeerList (u : PeerListUpdate) (s : State) : State :=
  MkState (client_peer <$> pu_Peers u) (st_Ownership s) (pu_Version u) (st_OwnershipVersion s).
Definition WithPeerList (u : option PeerListUpdate) (s : State) : State * bool :=
  match u with
  | None => (s, false)
  | Some u => if pu_Version u <=? st_PeerListVersion s then (s, false) else (withPeerList u s, true)
  end.
Definition WithPeerListSnapshot (u : option PeerListUpdate) (s : State) : State * bool :=
  match u with None => (s, false) | Some u => (withPeerList u s, true) end.

Definition client_ownership (e : OwnershipProto) : ClientOwnership :=
  MkClientOwnership (op_OverlayIp e) (op_OwningMaster e) (op_LastReassignedAtUnix e) (op_Reason e).
Definition withOwnership (u : OwnershipUpdate) (s : State) : State :=
  MkState (st_Peers s) (client_ownership <$> ou_Entries u) (st_PeerListVersion s) (ou_Version u).
Definition WithOwnership (u : option OwnershipUpdate) (s : State) : State * bool :=
  match u with
  | None => (s, false)
  | Some u => if ou_Version u <=? st_OwnershipVersion s then (s, false) else (withOwnership u s, true)
  end.
Definition WithOwnershipSnapshot (u : option OwnershipUpdate) (s : State) : State * bool :=
  match u with None => (s, false) | Some u => (withOwnership u s, true) end.

(** ** Configuration *)

Record AgentConfig := MkAgentConfig {
  ac_NodeName : string; ac_Roles : list Role; ac_OverlayIP : string; ac_Region : string; ac_NodeCertPEM : string;
  ac_CertPath : string; ac_KeyPath : string; ac_Version : string; ac_InterfaceName : string; ac_Protocol : string;
  ac_PublicKey : Key; ac_EndpointHost : string; ac_StatePath : string; ac_ApplyTimeout : Z
}.

Inductive stream_error := SEof | SCancelled | SDeadline | SOther (text : string).
Inductive agent_error :=
  | ErrAgentName | ErrAgentRoles | ErrAgentComposability (e : role_error) | ErrAgentOverlay | ErrAgentRegion
  | ErrAgentVersion | ErrAgentProtocol (p : string) | ErrAgentCertPaths | ErrAgentClient | ErrAgentConfigurator
  | ErrCacheRead | ErrCacheParse
  | ErrCacheDir | ErrCacheTemp | ErrCacheWrite | ErrCacheClose | ErrCacheRename
  | ErrRegister | ErrRegisterRejected (reason : string)
  | ErrOpenPeers | ErrOpenOwnership | ErrOpenCerts
  | ErrStreamClosed | ErrStream (e : stream_error)
  | ErrCertUpdate (e : update_error) | ErrReregister (e : agent_error)
  | ErrApplyState (e : reload_error).

(** [client] and [configurator] say whether these are set; [tempDir] is
    [os.TempDir()]. *)
Definition NewAgent (tempDir : string) (cfg : AgentConfig) (client configurator : bool) : res agent_error AgentConfig :=
  check! negb (blank (ac_NodeName cfg)) else ErrAgentName;
  check! negb (bool_decide (ac_Roles cfg = [])) else ErrAgentRoles;
  let! _ := wrap_err ErrAgentComposability (ValidateComposability (ac_Roles cfg)) in
  check! negb (blank (ac_OverlayIP cfg)) else ErrAgentOverlay;
  check! negb (blank (ac_Region cfg)) else ErrAgentRegion;
  check! negb (blank (ac_Version cfg)) else ErrAgentVersion;
  check! bool_decide (ac_Protocol cfg = vanilla_text) || bool_decide (ac_Protocol cfg = amnezia_text)
    else ErrAgentProtocol (ac_Protocol cfg);
  check! eqb (blank (ac_CertPath cfg)) (blank (ac_KeyPath cfg)) else ErrAgentCertPaths;
  check! client else ErrAgentClient;
  check! configurator else ErrAgentConfigurator;
  Ok (if blank (ac_StatePath cfg)
      then MkAgentConfig (ac_NodeName cfg) (ac_Roles cfg) (ac_OverlayIP cfg) (ac_Region cfg) (ac_NodeCertPEM cfg)
             (ac_CertPath cfg) (ac_KeyPath cfg) (ac_Version cfg) (ac_InterfaceName cfg) (ac_Protocol cfg)
             (ac_PublicKey cfg) (ac_EndpointHost cfg) (path_Join [tempDir; "awg-mesh-clientd-state.json"])
             (ac_ApplyTimeout cfg)
      else cfg).

Definition publicKeyBytes (key : Key) : list ascii := if IsZero key then [] else key.

(** The request of [register], with the certificate the agent holds now. *)
Definition register_request (cfg : AgentConfig) (certPEM : string) : RegisterNodeRequest :=
  MkRegisterNodeRequest (ac_NodeName cfg) (ac_Roles cfg) (ac_OverlayIP cfg) (ac_Region cfg) certPEM
    (ac_Version cfg) (of_bytes (publicKeyBytes (ac_PublicKey cfg))) (TrimSpace (ac_EndpointHost cfg)) (ac_Protocol cfg).
(** The control plane's answer: an error, a nil response, or a response. *)
Inductive register_answer := RegFails | RegNil | RegReply (accepted : bool) (reason : string).
Definition register_result (a : register_answer) : res agent_error unit :=
  match a with
  | RegFails => Err ErrRegister
  | RegReply false reason => Err (ErrRegisterRejected reason)
  | _ => Ok ()
  end.

(** ** The state cache *)

Section Agent.
(** [json.Unmarshal] and [json.MarshalIndent] at [State]; the latter cannot fail on
    this type. *)
Context (encode : State → string) (decode : string → option State).

Definition Load (readable : bool) (path : string) (m : files) : res agent_error State :=
  match file_at m path with
  | None => Ok State0
  | Some b =>
      if negb readable then Err ErrCacheRead else
      match decode b with None => Err ErrCacheParse | Some s => Ok s end
  end.

(** [se_temp] is the new name [os.CreateTemp] picked; the deferred removal runs on
    every path after that. *)
Record save_env := MkSaveEnv {
  se_mkdir : bool; se_temp : option string; se_write : bool; se_partial : string; se_close : bool;
  se_rename : bool; se_remove : bool
}.
Definition Save (e : save_env) (path : string) (state : State) (m : files) : res agent_error unit * files :=
  if negb (se_mkdir e) then (Err ErrCacheDir, m) else
  match se_temp e with
  | None => (Err ErrCacheTemp, m)
  | Some tmp =>
      let removed := os_Remove (se_remove e) tmp in
      if negb (se_write e) then (Err ErrCacheWrite, removed (<[path_Clean tmp := se_partial e]> m)) else
      let m := <[path_Clean tmp := encode state]> m in
      if negb (se_close e) then (Err ErrCacheClose, removed m) else
      match os_Rename (se_rename e) tmp path m with
      | None => (Err ErrCacheRename, removed m)
      | Some m => (Ok (), removed m)
      end
  end.

(** ** The run *)

Inductive streamUpdate :=
  | UPeers (u : PeerListUpdate)
  | UOwnership (u : OwnershipUpdate)
  | UCert (u : CertUpdate)
  | UError (cancelled : bool) (e : stream_error).      (* whether the context is done *)

(** What a receiving goroutine sends: the messages, then the error that ended the
    stream, unless the context is done; a certificate stream may just end. *)
Definition recvPeerUpdates (cancelled : bool) (msgs : list PeerListUpdate) (e : stream_error) : list streamUpdate :=
  (UPeers <$> msgs) ++ if cancelled then [] else [UError false e].
Definition recvOwnershipUpdates (cancelled : bool) (msgs : list OwnershipUpdate) (e : stream_error) : list streamUpdate :=
  (UOwnership <$> msgs) ++ if cancelled then [] else [UError false e].
Definition recvCertUpdates (cancelled : bool) (msgs : list CertUpdate) (e : stream_error) : list streamUpdate :=
  (UCert <$> msgs) ++ match e with SEof => [] | _ => if cancelled then [] else [UError false e] end.

Context {W : Type} (configurator_Apply : nat → State → W → res reload_error unit * W).
Context (X509KeyPair : string → string → bool).

Record agent_run := MkRun {
  ar_state : State; ar_peerSeen : bool; ar_ownershipSeen : bool;
  ar_cert : string;                          (* [cfg.NodeCertPEM] *)
  ar_files : files; ar_world : W;
  ar_requests : list RegisterNodeRequest;    (* sent so far *)
  ar_applied : list State                    (* given to the configurator *)
}.

Definition agent_register (cfg : AgentConfig) (a : register_answer) (r : agent_run) : res agent_error unit * agent_run :=
  (register_result a,
   MkRun (ar_state r) (ar_peerSeen r) (ar_ownershipSeen r) (ar_cert r) (ar_files r) (ar_world r)
     (ar_requests r ++ [register_request cfg (ar_cert r)]) (ar_applied r)).
Definition agent_apply (r : agent_run) : res agent_error unit * agent_run :=
  let '(out, w) := configurator_Apply (length (ar_applied r)) (ar_state r) (ar_world r) in
  (wrap_err ErrApplyState out,
   MkRun (ar_state r) (ar_peerSeen r) (ar_ownershipSeen r) (ar_cert r) (ar_files r) w (ar_requests r) (ar_applied r ++ [ar_state r])).

Record turn_env := MkTurnEnv { tv_save : save_env; tv_now : Z; tv_pair : pair_env; tv_register : register_answer }.

(** The rest of a turn whose update changed the state: save, then apply. *)
Definition save_and_apply (cfg : AgentConfig) (e : turn_env) (r : agent_run) : res agent_error unit * agent_run :=
  let '(out, m) := Save (tv_save e) (ac_StatePath cfg) (ar_state r) (ar_files r) in
  let r := MkRun (ar_state r) (ar_peerSeen r) (ar_ownershipSeen r) (ar_cert r) m (ar_world r) (ar_requests r) (ar_applied r) in
  match out with Err err => (Err err, r) | Ok _ => agent_apply r end.

Definition handle_peers (u : PeerListUpdate) (r : agent_run) : agent_run * bool :=
  let '(s, changed) := if ar_peerSeen r then WithPeerList (Some u) (ar_state r) else WithPeerListSnapshot (Some u) (ar_state r) in
  (MkRun s true (ar_ownershipSeen r) (ar_cert r) (ar_files r) (ar_world r) (ar_requests r) (ar_applied r), changed).
Definition handle_ownership (u : OwnershipUpdate) (r : agent_run) : agent_run * bool :=
  let '(s, changed) := if ar_ownershipSeen r then WithOwnership (Some u) (ar_state r) else WithOwnershipSnapshot (Some u) (ar_state r) in
  (MkRun s (ar_peerSeen r) true (ar_cert r) (ar_files r) (ar_world r) (ar_requests r) (ar_applied r), changed).
Definition handle_cert (cfg : AgentConfig) (e : turn_env) (u : CertUpdate) (r : agent_run) : res agent_error unit * agent_run :=
  let '(out, m) := ApplyCertUpdate X509KeyPair (tv_now e) (tv_pair e) (ac_CertPath cfg) (ac_KeyPath cfg) (Some u) (ar_files r) in
  let with_files cert := MkRun (ar_state r) (ar_peerSeen r) (ar_ownershipSeen r) cert m (ar_world r) (ar_requests r) (ar_applied r) in
  match out with
  | Err err => (Err (ErrCertUpdate err), with_files (ar_cert r))
  | Ok _ =>
      let '(reg, r) := agent_register cfg (tv_register e) (with_files (cu_CertPem u)) in
      (wrap_err ErrReregister reg, r)
  end.

(** An error that ends the run: quietly when the context is done. *)
Definition stream_end (cancelled : bool) (e : stream_error) : res agent_error unit :=
  if cancelled then Ok () else
  match e with
  | SCancelled | SDeadline => Ok ()
  | SEof => Err ErrStreamClosed
  | SOther _ => Err (ErrStream e)
  end.

Fixpoint agent_loop (cfg : AgentConfig) (e : nat → turn_env) (i : nat) (ups : list streamUpdate) (r : agent_run) {struct ups}
    : res agent_error unit * agent_run :=
  match ups with
  | [] => (Ok (), r)
  | UError cancelled err :: _ => (stream_end cancelled err, r)
  | UCert u :: ups =>
      match handle_cert cfg (e i) u r with
      | (Err err, r) => (Err err, r)
      | (Ok _, r) => agent_loop cfg e (S i) ups r
      end
  | UPeers u :: ups =>
      let '(r, changed) := handle_peers u r in
      if negb changed then agent_loop cfg e (S i) ups r else
      match save_and_apply cfg (e i) r with
      | (Err err, r) => (Err err, r)
      | (Ok _, r) => agent_loop cfg e (S i) ups r
      end
  | UOwnership u :: ups =>
      let '(r, changed) := handle_ownership u r in
      if negb changed then agent_loop cfg e (S i) ups r else
      match save_and_apply cfg (e i) r with
      | (Err err, r) => (Err err, r)
      | (Ok _, r) => agent_loop cfg e (S i) ups r
      end
  end.

Record run_env := MkRunEnv {
  rv_readable : bool; rv_register : register_answer; rv_peers : bool; rv_ownership : bool; rv_certs : bool;
  rv_turn : nat → turn_env
}.

Definition agent_Run (cfg : AgentConfig) (e : run_env) (ups : list streamUpdate) (m : files) (w : W)
    : res agent_error unit * agent_run :=
  let start s := MkRun s false false (ac_NodeCertPEM cfg) m w [] [] in
  match Load (rv_readable e) (ac_StatePath cfg) m with
  | Err err => (Err err, start State0)
  | Ok state =>
      match agent_register cfg (rv_register e) (start state) with
      | (Err err, r) => (Err err, r)
      | (Ok _, r) =>
          match (if negb (state_IsZero state) then agent_apply r else (Ok (), r)) with
          | (Err err, r) => (Err err, r)
          | (Ok _, r) =>
              if negb (rv_peers e) then (Err ErrOpenPeers, r) else
              if negb (rv_ownership e) then (Err ErrOpenOwnership, r) else
              if negb (blank (ac_CertPath cfg)) && negb (rv_certs e) then (Err ErrOpenCerts, r) else
              agent_loop cfg (rv_turn e) 0 ups r
          end
      end
  end.
End Agent.

(** ** What a run has seen *)

(** The updates before the first stream error. *)
Fixpoint before_error (ups : list streamUpdate) : list streamUpdate :=
  match ups with
  | [] | UError _ _ :: _ => []
  | u :: ups => u :: before_error ups
  end.
Definition peers_of (ups : list streamUpdate) : list PeerListUpdate :=
  omap (λ u, match u with UPeers u => Some u | _ => None end) ups.
Definition ownership_of (ups : list streamUpdate) : list OwnershipUpdate :=
  omap (λ u, match u with UOwnership u => Some u | _ => None end) ups.

(** The first message of a stream is taken, then only newer ones. *)
Definition newest {U : Type} (version : U → Z) (us : list U) : option U :=
  foldl (λ acc u, match acc with
                  | Some v => if version u <=? version v then Some v else Some u
                  | None => Some u end) None us.

Lemma newest_snoc {U} (version : U → Z) us u :
  newest version (us ++ [u]) = match newest version us with
                               | Some v => if version u <=? version v then Some v else Some u
                               | None => Some u end.
Proof. unfold newest. by rewrite foldl_snoc. Qed.

(** On a stream with increasing versions that is the last message. *)
Lemma newest_increasing {U} (version : U → Z) us :
  StronglySorted (λ a b, version a < version b) us → newest version us = last us.
Proof.
  induction us as [|u us IH] using rev_ind; [done|]. intros Hs. rewrite newest_snoc, last_snoc.
  apply StronglySorted_app in Hs as (Hlt & Hs & _).
  rewrite (IH Hs). destruct (last us) as [v|] eqn:Hl; [|done].
  apply last_Some_elem_of in Hl. specialize (Hlt v u Hl ltac:(set_solver)).
  by rewrite (proj2 (Z.leb_gt _ _)).
Qed.

(** The state a run that began with [s0] must have after these updates. *)
Definition expected (s0 : State) (ups : list streamUpdate) : State :=
  let '(peers, pv) := match newest pu_Version (peers_of ups) with
    | Some u => (client_peer <$> pu_Peers u, pu_Version u) | None => (st_Peers s0, st_PeerListVersion s0) end in
  let '(owners, ov) := match newest ou_Version (ownership_of ups) with
    | Some u => (client_ownership <$> ou_Entries u, ou_Version u) | None => (st_Ownership s0, st_OwnershipVersion s0) end in
  MkState peers owners pv ov.

Lemma expected_nil s0 : expected s0 [] = s0.
Proof. by destruct s0. Qed.
Lemma peers_of_app a b : peers_of (a ++ b) = peers_of a ++ peers_of b.
Proof. apply omap_app. Qed.
Lemma ownership_of_app a b : ownership_of (a ++ b) = ownership_of a ++ ownership_of b.
Proof. apply omap_app. Qed.

Lemma newest_none {U} (version : U → Z) us : newest version us = None ↔ us = [].
Proof.
  split; [|by intros ->]. destruct us as [|u us] using rev_ind; [done|]. rewrite newest_snoc. intros H. by repeat case_match.
Qed.

Section Sync.
Context (encode : State → string) (decode : string → option State).
Context {W : Type} (configurator_Apply : nat → State → W → res reload_error unit * W).
Context (X509KeyPair : string → string → bool) (cfg : AgentConfig).
Hypothesis codec : ∀ s, decode (encode s) = Some s.

(** A temporary file is not the cache itself, and the credentials are elsewhere. *)
Definition turn_ok (e : turn_env) : Prop :=
  (∀ tmp, se_temp (tv_save e) = Some tmp → path_Clean tmp ≠ path_Clean (ac_StatePath cfg)) ∧
  ¬ touched (tv_pair e) (ac_CertPath cfg) (ac_KeyPath cfg) (path_Clean (ac_StatePath cfg)).

Lemma Save_cache e s m : (∀ tmp, se_temp e = Some tmp → path_Clean tmp ≠ path_Clean (ac_StatePath cfg)) →
  let '(r, m') := Save encode e (ac_StatePath cfg) s m in
  file_at m' (ac_StatePath cfg) = match r with Ok _ => Some (encode s) | Err _ => file_at m (ac_StatePath cfg) end.
Proof.
  intros Hn. unfold Save. destruct (se_mkdir e); [|done]. cbn [negb]. destruct (se_temp e) as [tmp|]; [|done].
  specialize (Hn tmp eq_refl). unfold file_at.
  destruct (se_write e); cbn [negb]; [|by rewrite os_Remove_other, lookup_insert_ne by done].
  destruct (se_close e); cbn [negb]; [|by rewrite os_Remove_other, lookup_insert_ne by done].
  unfold os_Rename, file_at. rewrite lookup_insert_eq. cbn [mbind option_bind].
  destruct (se_rename e); rewrite os_Remove_other by done; [by rewrite lookup_insert_eq|by rewrite lookup_insert_ne].
Qed.

Lemma Save_well tmp partial remove path s m :
  ∃ m', Save encode (MkSaveEnv true (Some tmp) true partial true true remove) path s m = (Ok (), m').
Proof. unfold Save, os_Rename, file_at. cbn [se_mkdir se_temp se_write se_close se_rename negb]. rewrite lookup_insert_eq. by eexists. Qed.

(** What holds whenever the loop waits for an update, [seen] being what it got. *)
Record sync_inv (s0 : State) (seen : list streamUpdate) (r : @agent_run W) : Prop := {
  sy_state : ar_state r = expected s0 seen;
  sy_peers : ar_peerSeen r = bool_decide (peers_of seen ≠ []);
  sy_ownership : ar_ownershipSeen r = bool_decide (ownership_of seen ≠ []);
  sy_cache : Load decode true (ac_StatePath cfg) (ar_files r) = Ok (ar_state r);
  sy_applied : last (ar_applied r) = Some (ar_state r) ∨ ar_applied r = [] ∧ ar_state r = State0
}.

Lemma expected_peers s0 seen u r : sync_inv s0 seen r →
  (handle_peers u r).1 = MkRun (expected s0 (seen ++ [UPeers u])) true (ar_ownershipSeen r) (ar_cert r) (ar_files r)
    (ar_world r) (ar_requests r) (ar_applied r) ∧
  ((handle_peers u r).2 = false → expected s0 (seen ++ [UPeers u]) = ar_state r).
Proof.
  intros [Hs Hp _ _ _]. unfold handle_peers, expected in *. rewrite peers_of_app, ownership_of_app, app_nil_r.
  change (peers_of [UPeers u]) with [u]. rewrite newest_snoc, Hp.
  destruct (newest pu_Version (peers_of seen)) as [v|] eqn:Hn.
  - rewrite bool_decide_eq_true_2 by (intros He; apply newest_none with (version := pu_Version) in He; congruence).
    unfold WithPeerList. destruct (newest ou_Version _); rewrite Hs; cbn; destruct (_ <=? _); by split.
  - apply newest_none in Hn as ->. cbn. destruct (newest ou_Version _); rewrite Hs; by split.
Qed.
Lemma expected_ownership s0 seen u r : sync_inv s0 seen r →
  (handle_ownership u r).1 = MkRun (expected s0 (seen ++ [UOwnership u])) (ar_peerSeen r) true (ar_cert r) (ar_files r)
    (ar_world r) (ar_requests r) (ar_applied r) ∧
  ((handle_ownership u r).2 = false → expected s0 (seen ++ [UOwnership u]) = ar_state r).
Proof.
  intros [Hs _ Ho _ _]. unfold handle_ownership, expected in *. rewrite peers_of_app, ownership_of_app, app_nil_r.
  change (ownership_of [UOwnership u]) with [u]. rewrite newest_snoc, Ho.
  destruct (newest ou_Version (ownership_of seen)) as [v|] eqn:Hn.
  - rewrite bool_decide_eq_true_2 by (intros He; apply newest_none with (version := ou_Version) in He; congruence).
    unfold WithOwnership. destruct (newest pu_Version _); rewrite Hs; cbn; destruct (_ <=? _); by split.
  - apply newest_none in Hn as ->. cbn. destruct (newest pu_Version _); rewrite Hs; by split.
Qed.

(** A changed state is saved and applied. *)
Lemma save_and_apply_ok e (r r' : @agent_run W) : turn_ok e →
  save_and_apply encode configurator_Apply cfg e r = (Ok (), r') →
  ar_state r' = ar_state r ∧ ar_peerSeen r' = ar_peerSeen r ∧ ar_ownershipSeen r' = ar_ownershipSeen r ∧
  Load decode true (ac_StatePath cfg) (ar_files r') = Ok (ar_state r) ∧ last (ar_applied r') = Some (ar_state r).
Proof using codec.
  intros [Ht _]. unfold save_and_apply, agent_apply.
  pose proof (Save_cache (tv_save e) (ar_state r) (ar_files r) Ht) as Hc.
  destruct (Save _ _ _ _ _) as [[[]|err] m]; [|done]. cbn.
  destruct (configurator_Apply _ _ _) as [[[]|err] w]; [|done]. intros [= <-]. cbn.
  split_and!; try done; [|by rewrite last_snoc]. unfold Load. by rewrite Hc, codec.
Qed.

Lemma handle_cert_ok e u (r r' : @agent_run W) : turn_ok e → handle_cert X509KeyPair cfg e u r = (Ok (), r') →
  ar_state r' = ar_state r ∧ ar_peerSeen r' = ar_peerSeen r ∧ ar_ownershipSeen r' = ar_ownershipSeen r ∧
  file_at (ar_files r') (ac_StatePath cfg) = file_at (ar_files r) (ac_StatePath cfg) ∧ ar_applied r' = ar_applied r.
Proof.
  intros [_ Ht]. unfold handle_cert.
  pose proof (cert_update_frame X509KeyPair (tv_now e) _ _ _ (Some u) (ar_files r) _ Ht) as Hf.
  destruct (ApplyCertUpdate _ _ _ _ _ _ _) as [[[]|err] m]; [|done]. unfold agent_register.
  destruct (register_result _) as [[]|err]; [|done]. intros [= <-]. by split_and!.
Qed.

(** The rest of a turn after [handle_peers] or [handle_ownership]. *)
Definition finish_turn (e : turn_env) (rc : @agent_run W * bool) : res agent_error unit * @agent_run W :=
  if negb rc.2 then (Ok (), rc.1) else save_and_apply encode configurator_Apply cfg e rc.1.

Lemma finish_turn_sync s0 seen u e (r : @agent_run W) rc r2 : turn_ok e → sync_inv s0 seen r →
  ar_state rc.1 = expected s0 (seen ++ [u]) → ar_peerSeen rc.1 = bool_decide (peers_of (seen ++ [u]) ≠ []) →
  ar_ownershipSeen rc.1 = bool_decide (ownership_of (seen ++ [u]) ≠ []) →
  ar_files rc.1 = ar_files r → ar_applied rc.1 = ar_applied r → (rc.2 = false → ar_state rc.1 = ar_state r) →
  finish_turn e rc = (Ok (), r2) → sync_inv s0 (seen ++ [u]) r2.
Proof using codec.
  intros He Hi H1 H2 H3 H4 H5 H6. unfold finish_turn. destruct rc as [r1 []]; cbn in *.
  - intros Hs. apply save_and_apply_ok in Hs as (E1 & E2 & E3 & E4 & E5); [|done].
    split; rewrite ?E1, ?E2, ?E3; auto.
  - intros [= <-]. specialize (H6 eq_refl). destruct Hi as [_ _ _ I4 I5]. split; try done; by rewrite ?H4, ?H5, H6.
Qed.

Lemma peers_turn s0 seen u e (r r2 : @agent_run W) : turn_ok e → sync_inv s0 seen r →
  finish_turn e (handle_peers u r) = (Ok (), r2) → sync_inv s0 (seen ++ [UPeers u]) r2.
Proof using codec.
  intros He Hi. destruct (expected_peers s0 seen u r Hi) as [H1 H2]. destruct (handle_peers u r) as [r1 changed]. cbn in H1, H2.
  subst r1. apply finish_turn_sync with (r := r); try done; cbn.
  - rewrite peers_of_app. by rewrite bool_decide_eq_true_2 by (by destruct (peers_of seen)).
  - rewrite ownership_of_app, app_nil_r. apply Hi.
Qed.
Lemma ownership_turn s0 seen u e (r r2 : @agent_run W) : turn_ok e → sync_inv s0 seen r →
  finish_turn e (handle_ownership u r) = (Ok (), r2) → sync_inv s0 (seen ++ [UOwnership u]) r2.
Proof using codec.
  intros He Hi. destruct (expected_ownership s0 seen u r Hi) as [H1 H2]. destruct (handle_ownership u r) as [r1 changed]. cbn in H1, H2.
  subst r1. apply finish_turn_sync with (r := r); try done; cbn.
  - rewrite peers_of_app, app_nil_r. apply Hi.
  - rewrite ownership_of_app. by rewrite bool_decide_eq_true_2 by (by destruct (ownership_of seen)).
Qed.
Lemma cert_turn s0 seen u e (r r2 : @agent_run W) : turn_ok e → sync_inv s0 seen r →
  handle_cert X509KeyPair cfg e u r = (Ok (), r2) → sync_inv s0 (seen ++ [UCert u]) r2.
Proof.
  intros He [I1 I2 I3 I4 I5] Hh. apply handle_cert_ok in Hh as (E1 & E2 & E3 & E4 & E5); [|done].
  split; rewrite ?E1, ?E2, ?E3, ?E5; try done.
  - rewrite I1. unfold expected. by rewrite peers_of_app, ownership_of_app, !app_nil_r.
  - by rewrite peers_of_app, app_nil_r.
  - by rewrite ownership_of_app, app_nil_r.
  - unfold Load in *. by rewrite E4.
Qed.

Lemma agent_loop_peers e i u ups (r : @agent_run W) :
  agent_loop encode configurator_Apply X509KeyPair cfg e i (UPeers u :: ups) r =
  match finish_turn (e i) (handle_peers u r) with
  | (Err err, r) => (Err err, r)
  | (Ok _, r) => agent_loop encode configurator_Apply X509KeyPair cfg e (S i) ups r
  end.
Proof. cbn [agent_loop]. unfold finish_turn. by destruct (handle_peers u r) as [r1 []]. Qed.
Lemma agent_loop_ownership e i u ups (r : @agent_run W) :
  agent_loop encode configurator_Apply X509KeyPair cfg e i (UOwnership u :: ups) r =
  match finish_turn (e i) (handle_ownership u r) with
  | (Err err, r) => (Err err, r)
  | (Ok _, r) => agent_loop encode configurator_Apply X509KeyPair cfg e (S i) ups r
  end.
Proof. cbn [agent_loop]. unfold finish_turn. by destruct (handle_ownership u r) as [r1 []]. Qed.

Lemma agent_loop_sync s0 ups : ∀ e i seen (r r' : @agent_run W), (∀ j, turn_ok (e j)) → sync_inv s0 seen r →
  agent_loop encode configurator_Apply X509KeyPair cfg e i ups r = (Ok (), r') → sync_inv s0 (seen ++ before_error ups) r'.
Proof using codec.
  induction ups as [|u ups IH]; intros e i seen r r' He Hi.
  { intros [= <-]. by rewrite app_nil_r. }
  destruct u as [u|u|u|c err]; [rewrite agent_loop_peers|rewrite agent_loop_ownership|cbn [agent_loop]|cbn [agent_loop]];
    cbn [before_error].
  - destruct (finish_turn _ _) as [[[]|err] r2] eqn:Hs; [|done]. rewrite (cons_middle (UPeers u) seen (before_error ups)), app_assoc.
    apply IH; [done|]. by eapply peers_turn.
  - destruct (finish_turn _ _) as [[[]|err] r2] eqn:Hs; [|done]. rewrite (cons_middle (UOwnership u) seen (before_error ups)), app_assoc.
    apply IH; [done|]. by eapply ownership_turn.
  - destruct (handle_cert _ _ _ _ _) as [[[]|err] r2] eqn:Hs; [|done]. rewrite (cons_middle (UCert u) seen (before_error ups)), app_assoc.
    apply IH; [done|]. by eapply cert_turn.
  - intros H. injection H as Hr <-. by rewrite app_nil_r.
Qed.

Lemma agent_Run_sync e ups m w r : (∀ j, turn_ok (rv_turn e j)) →
  agent_Run encode decode configurator_Apply X509KeyPair cfg e ups m w = (Ok (), r) →
  ∃ s0, Load decode true (ac_StatePath cfg) m = Ok s0 ∧ sync_inv s0 (before_error ups) r.
Proof using codec.
  intros He. unfold agent_Run. destruct (Load decode (rv_readable e) (ac_StatePath cfg) m) as [s0|] eqn:Hl; [|done].
  assert (Load decode true (ac_StatePath cfg) m = Ok s0) as Hl'.
  { unfold Load in *. destruct (file_at m _); [|done]. by destruct (rv_readable e). }
  unfold agent_register. destruct (register_result _) as [[]|]; [|done]. cbn [ar_state ar_requests].
  set (r0 := MkRun s0 _ _ _ _ _ _ _).
  intros H. exists s0. split; [done|].
  assert (∀ r1, (if negb (state_IsZero s0) then agent_apply configurator_Apply r0 else (Ok (), r0)) = (Ok (), r1) →
    sync_inv s0 [] r1) as Hstart.
  { intros r1. destruct (state_IsZero s0) eqn:Hz; cbn [negb].
    - intros [= <-]. split; [symmetry; apply expected_nil|done|done|done|]; cbn. right. split; [done|].
      unfold state_IsZero in Hz. destruct s0 as [ps os pv ov]. cbn in Hz. unfold State0.
      apply andb_true_iff in Hz as [[[Hz1%bool_decide_eq_true Hz2%bool_decide_eq_true]%andb_true_iff Hz3]%andb_true_iff Hz4].
      f_equal; [done|done|lia|lia].
    - unfold agent_apply. destruct (configurator_Apply _ _ _) as [[[]|err] w1]; [|done]. intros [= <-].
      split; [symmetry; apply expected_nil|done|done|done|]; cbn. by left. }
  destruct (if negb (state_IsZero s0) then _ else _) as [[[]|err] r1]; [|done]. specialize (Hstart r1 eq_refl).
  destruct (rv_peers e); [|done]. destruct (rv_ownership e); [|done]. cbn [negb] in H. destruct (_ && _); [done|].
  exact (agent_loop_sync s0 ups _ _ [] r1 r He Hstart H).
Qed.
End Sync.

(** C5. While a client agent runs, it has exactly the newest data it was sent: its peers
    and ownership are those of the newest message of each stream (the first snapshot
    counts even if the cached state claims a later version), the state file decodes
    to this state, and it is the state last given to the configurator - whatever the
    order in which the streams and certificate updates interleave. *)
Theorem agent_in_sync encode decode {W} (Apply : nat → State → W → res reload_error unit * W) X509KeyPair cfg e ups m w r :
  (∀ s, decode (encode s) = Some s) → (∀ j, turn_ok cfg (rv_turn e j)) →
  agent_Run encode decode Apply X509KeyPair cfg e ups m w = (Ok (), r) →
  ∃ s0, Load decode true (ac_StatePath cfg) m = Ok s0 ∧ ar_state r = expected s0 (before_error ups) ∧
    Load decode true (ac_StatePath cfg) (ar_files r) = Ok (ar_state r) ∧
    (last (ar_applied r) = Some (ar_state r) ∨ ar_applied r = [] ∧ ar_state r = State0).
Proof.
  intros Hc He H. destruct (agent_Run_sync _ _ _ _ _ Hc _ _ _ _ _ He H) as (s0 & Hl & Hs). exists s0.
  destruct Hs. auto.
Qed.

(** ** A peer list the client cannot apply *)

Section Refused.
Context (encode : State → string) (decode : string → option State).
Context {W : Type} (configurator_Apply : nat → State → W → res reload_error unit * W).
Context (X509KeyPair : string → string → bool) (cfg : AgentConfig).
Hypothesis codec : ∀ s, decode (encode s) = Some s.

Definition refused (s : State) : Prop := ∀ n w, ∃ err w', configurator_Apply n s w = (Err err, w').

Notation run := (agent_Run encode decode configurator_Apply X509KeyPair cfg).

(** With such a state in the cache a run ends before it opens a stream. *)
Lemma refused_run s e ups m w : Load decode true (ac_StatePath cfg) m = Ok s → state_IsZero s = false → refused s →
  ∃ err r, run e ups m w = (Err err, r) ∧ ar_files r = m.
Proof.
  intros Hl Hz Hr. unfold agent_Run. unfold Load in *. destruct (file_at m _) as [b|].
  - destruct (rv_readable e); cbn [negb]; [|by eexists _, _]. destruct (decode b) as [s'|]; [|done]. injection Hl as ->.
    unfold agent_register. destruct (register_result _) as [[]|]; [|by eexists _, _]. rewrite Hz. cbn.
    unfold agent_apply. destruct (Hr 0%nat w) as (err & w' & E). cbn. rewrite E. by eexists _, _.
  - injection Hl as <-. done.
Qed.

(** The daemon starts the agent over and over, on the files the last run left; each
    time the control plane may answer and send something else. *)
Fixpoint restarts (l : list (run_env * list streamUpdate)) (m : files) (w : W) : list (res agent_error unit) * files :=
  match l with
  | [] => ([], m)
  | (e, ups) :: l =>
      let '(out, r) := run e ups m w in
      let '(outs, m) := restarts l (ar_files r) (ar_world r) in (out :: outs, m)
  end.

Lemma refused_restarts s l : ∀ m w, Load decode true (ac_StatePath cfg) m = Ok s → state_IsZero s = false → refused s →
  let '(outs, m') := restarts l m w in Forall (λ out, is_ok out = false) outs ∧ m' = m.
Proof.
  induction l as [|[e ups] l IH]; intros m w Hl Hz Hr; cbn [restarts]; [by split|].
  destruct (refused_run s e ups m w Hl Hz Hr) as (err & r & -> & Hf). rewrite Hf.
  specialize (IH m (ar_world r) Hl Hz Hr). destruct (restarts l m (ar_world r)) as [outs m'].
  destruct IH as [IH ->]. split; [by constructor|done].
Qed.

Definition not_error (u : streamUpdate) : Prop := match u with UError _ _ => False | _ => True end.

Lemma agent_loop_app ups : ∀ e i more (r r1 : @agent_run W), Forall not_error ups →
  agent_loop encode configurator_Apply X509KeyPair cfg e i ups r = (Ok (), r1) →
  agent_loop encode configurator_Apply X509KeyPair cfg e i (ups ++ more) r =
  agent_loop encode configurator_Apply X509KeyPair cfg e (i + length ups) more r1.
Proof.
  induction ups as [|u ups IH]; intros e i more r r1 Hn H.
  { injection H as <-. cbn. by rewrite Nat.add_0_r. }
  inversion Hn as [|? ? Hu Hn']; subst. cbn [length]. rewrite Nat.add_succ_r, <- Nat.add_succ_l.
  destruct u; [| | |done]; cbn [app agent_loop] in *.
  - destruct (handle_peers u r) as [r2 []]; cbn [negb] in *; [|by apply IH].
    destruct (save_and_apply _ _ _ _ _) as [[[]|] r3]; [by apply IH|done].
  - destruct (handle_ownership u r) as [r2 []]; cbn [negb] in *; [|by apply IH].
    destruct (save_and_apply _ _ _ _ _) as [[[]|] r3]; [by apply IH|done].
  - destruct (handle_cert _ _ _ _ _) as [[[]|] r3]; [by apply IH|done].
Qed.

(** The first such state is saved before it is applied. *)
Lemma refused_update_saved e ups u more m w r m1 : Forall not_error ups →
  turn_ok cfg (rv_turn e (length ups)) →
  run e ups m w = (Ok (), r) → (handle_peers u r).2 = true →
  refused (ar_state (handle_peers u r).1) →
  Save encode (tv_save (rv_turn e (length ups))) (ac_StatePath cfg) (ar_state (handle_peers u r).1) (ar_files r) = (Ok (), m1) →
  ∃ err r2, run e (ups ++ UPeers u :: more) m w = (Err err, r2) ∧ ar_files r2 = m1 ∧
    Load decode true (ac_StatePath cfg) m1 = Ok (ar_state (handle_peers u r).1).
Proof using codec.
  intros Hn [Ht _] H Hch Hr Hs. pose proof (Save_cache encode cfg _ (ar_state (handle_peers u r).1) (ar_files r) Ht) as Hc.
  rewrite Hs in Hc. unfold agent_Run in *. destruct (Load decode _ _ m) as [s0|]; [|done]. unfold agent_register in *.
  destruct (register_result _) as [[]|]; [|done].
  destruct (if negb (state_IsZero s0) then _ else _) as [[[]|] r0]; [|done].
  destruct (rv_peers e), (rv_ownership e); try done. cbn [negb] in *. destruct (_ && _); [done|].
  rewrite (agent_loop_app ups _ _ _ _ r Hn H). cbn [agent_loop].
  assert (ar_files (handle_peers u r).1 = ar_files r) as Hf by (unfold handle_peers; by case_match).
  destruct (handle_peers u r) as [r1 changed]. cbn in *. subst changed. cbn [negb]. unfold save_and_apply. rewrite Hf, Hs.
  unfold agent_apply. cbn. destruct (Hr (length (ar_applied r1)) (ar_world r1)) as (err & w' & ->). cbn.
  eexists _, _. split_and!; [done|done|]. unfold Load. by rewrite Hc, codec.
Qed.
End Refused.

(** *** With the transport configurator *)

(** The configurator of clientd as the agent calls it; the resolver and the system may
    answer differently each time. *)
Definition transport_Apply {L A} `{!LinkConfigurator L A} (R : nat → string → option UDPAddr) (e : nat → apply_env A)
    (c : TransportConfigurator) (n : nat) (s : State) (wl : world * L) : res reload_error unit * (world * L) :=
  let '(r, w, l) := Apply (R n) (e n) c s wl.1 wl.2 in (r, (w, l)).

Definition malformed_key (p : PeerEntry) : Prop := pe_PeerPubkey p ≠ "" ∧ length (to_bytes (pe_PeerPubkey p)) ≠ key_size.

Lemma malformed_not_convertible R p : malformed_key p → ¬ convertible R (client_peer p).
Proof.
  intros [Hne Hlen]. unfold convertible, PeerEntryToWGConfig. cbn [client_peer cp_PeerName cp_Protocol cp_PeerPubkey cp_AllowedIPs].
  destruct (bool_decide (TrimSpace _ = "")); [tauto|]. destruct (_ && _ && _); [tauto|].
  rewrite bool_decide_eq_false_2.
  - unfold NewKey. rewrite (bool_decide_eq_false_2 (length (to_bytes _) = key_size)) by done. cbn. tauto.
  - intros He. apply Hne. rewrite <- (of_to_bytes (pe_PeerPubkey p)), He. done.
Qed.

Lemma malformed_refused {L A} `{!LinkConfigurator L A} R e c s p :
  client_peer p ∈ st_Peers s → malformed_key p → refused (transport_Apply (L := L) R e c) s.
Proof.
  intros Hin Hm n [w l]. unfold transport_Apply. cbn [fst snd].
  destruct (convert_peers_refuses (R n) (st_Peers s) (client_peer p) Hin (malformed_not_convertible _ _ Hm)) as [err Hc].
  pose proof (Apply_cases (R n) (e n) c s w l) as H. destruct (Apply (R n) (e n) c s w l) as [[r w'] l'].
  destruct H as [(-> & -> & Hr)|(? & ? & ? & ? & _ & H & _)]; [|congruence].
  destruct r as [[]|err']; [done|]. by eexists _, _.
Qed.

(** C40. One malformed key takes a client down for good: when a running agent gets a
    peer list that changes its state, with an entry whose public key is neither empty
    (such an entry is skipped) nor 32 bytes long, and the list is saved as its last
    known state, then the run fails with the list saved. From then on every restart
    fails before it opens a stream, whatever the control plane answers or has
    corrected, and the state file never changes again. *)
Theorem malformed_key_is_permanent {L A} `{!LinkConfigurator L A} encode decode R ae c X509KeyPair cfg e ups u more m
    (w : world * L) r m1 later w1 p :
  (∀ s, decode (encode s) = Some s) →
  turn_ok cfg (rv_turn e (length ups)) → Forall not_error ups →
  agent_Run encode decode (transport_Apply R ae c) X509KeyPair cfg e ups m w = (Ok (), r) →
  (handle_peers u r).2 = true →
  Save encode (tv_save (rv_turn e (length ups))) (ac_StatePath cfg) (ar_state (handle_peers u r).1) (ar_files r) = (Ok (), m1) →
  p ∈ pu_Peers u → malformed_key p →
  (∃ err r2, agent_Run encode decode (transport_Apply R ae c) X509KeyPair cfg e (ups ++ UPeers u :: more) m w = (Err err, r2) ∧
     ar_files r2 = m1) ∧
  let '(outs, m2) := restarts encode decode (transport_Apply R ae c) X509KeyPair cfg later m1 w1 in
  Forall (λ out, is_ok out = false) outs ∧ m2 = m1.
Proof.
  intros Hc Ht Hn Hrun Hch Hs Hp Hm.
  assert (st_Peers (ar_state (handle_peers u r).1) = client_peer <$> pu_Peers u) as Hpeers.
  { unfold handle_peers, WithPeerList, WithPeerListSnapshot in *. destruct (ar_peerSeen r); [|done].
    by destruct (_ <=? _). }
  assert (client_peer p ∈ st_Peers (ar_state (handle_peers u r).1)) as Hin by (rewrite Hpeers; by apply list_elem_of_fmap_2).
  pose proof (malformed_refused (L := L) R ae c _ p Hin Hm) as Hr.
  destruct (refused_update_saved _ _ _ _ _ Hc e ups u more m w r m1 Hn Ht Hrun Hch Hr Hs) as (err & r2 & H1 & H2 & Hl).
  split; [by eexists _, _|]. apply refused_restarts with (s := ar_state (handle_peers u r).1); [done| |done].
  unfold state_IsZero. rewrite bool_decide_eq_false_2; [done|]. intros He. rewrite He in Hin. by apply not_elem_of_nil in Hin.
Qed.

(** ** A codec and a scenario *)

Definition peer_tuple (p : ClientPeer) :=
  (cp_PeerName p, cp_PeerRole p, cp_PeerOverlayIP p, cp_PeerPubkey p, cp_PeerEndpointHost p, cp_AllowedIPs p,
   cp_PersistentKeepaliveSecs p, cp_Protocol p).
#[global] Instance ClientPeer_eq_dec : EqDecision ClientPeer.
Proof. solve_decision. Defined.
#[global] Instance ClientPeer_countable : Countable ClientPeer.
Proof.
  apply (inj_countable' peer_tuple (λ '(a, b, c, d, e, f, g, h), MkClientPeer a b c d e f g h)). by intros [].
Defined.
#[global] Instance ClientOwnership_eq_dec : EqDecision ClientOwnership.
Proof. solve_decision. Defined.
#[global] Instance ClientOwnership_countable : Countable ClientOwnership.
Proof.
  apply (inj_countable' (λ o, (co_OverlayIP o, co_OwningMaster o, co_LastReassignedAtUnix o, co_Reason o))
    (λ '(a, b, c, d), MkClientOwnership a b c d)). by intros [].
Defined.
#[global] Instance State_eq_dec : EqDecision State.
Proof. solve_decision. Defined.
#[global] Instance State_countable : Countable State.
Proof.
  apply (inj_countable' (λ s, (st_Peers s, st_Ownership s, st_PeerListVersion s, st_OwnershipVersion s))
    (λ '(a, b, c, d), MkState a b c d)). by intros [].
Defined.

(** Some injective codec: the bits of stdpp's encoding as text. *)
Fixpoint bits_text (p : positive) : string :=
  match p with xH => "" | xO p => String "0" (bits_text p) | xI p => String "1" (bits_text p) end.
Fixpoint bits_value (s : string) : positive :=
  match s with "" => xH | String a s => if bool_decide (a = "1"%char) then xI (bits_value s) else xO (bits_value s) end.
Lemma bits_value_text p : bits_value (bits_text p) = p.
Proof. induction p as [p IH|p IH|]; cbn; by rewrite ?IH. Qed.
Definition demo_encode (s : State) : string := bits_text (encode s).
Definition demo_decode (s : string) : option State := decode (bits_value s).
Lemma demo_codec s : demo_decode (demo_encode s) = Some s.
Proof. unfold demo_decode, demo_encode. rewrite bits_value_text. apply decode_encode. Qed.

(** A control plane with a sound master, then a second master whose key has 3 bytes;
    the peer lists a client is sent before and after. *)
Definition demo_key : string := of_bytes (replicate key_size "k"%char).
Definition demo_master (name ip pubkey : string) : RegisterNodeRequest :=
  MkRegisterNodeRequest name [RoleMaster] ip "eu" "PEM" "1" pubkey "203.0.113.1:51821" amnezia_text.
Definition demo_before : Server := (RegisterNode demo_clock None (demo_master "m1" "10.0.0.1" demo_key) (fresh_server 16)).2.
Definition demo_after : Server := (RegisterNode demo_clock None (demo_master "m2" "10.0.0.2" "bad") demo_before).2.
Definition demo_update (s : Server) : PeerListUpdate :=
  match (peer_list_now "c1" s).1 with Ok u => u | Err _ => MkPeerListUpdate "" [] 0 end.

Definition demo_agent : AgentConfig :=
  MkAgentConfig "c1" [RoleClient] "10.0.0.9" "eu" "PEM" "" "" "1" "awg0" amnezia_text (replicate key_size "c"%char) ""
    "/var/lib/awg-mesh/clientd-state.json" 0.
Definition demo_turn (_ : nat) : turn_env :=
  MkTurnEnv (MkSaveEnv true (Some "/var/lib/awg-mesh/clientd-state.json.1.tmp") true "" true true true) 0 stuck_cert RegNil.
Definition demo_run_env : run_env := MkRunEnv true (RegReply true "") true true true demo_turn.
Definition demo_tc : TransportConfigurator :=
  MkTC (Some (0%nat, "awg0")) [RoleClient] None 51821 (Some (host_net 167772169)) true.
Definition demo_apply_env (_ : nat) : apply_env bool := MkApplyEnv false false true true true (λ _, true).
Definition demo_world : world * net_state :=
  (MkWorld {[ 0%nat ]} 1 [], MkNetState {[ "awg0" := 7 ]} [] ∅ ∅).
Definition demo_Apply := transport_Apply (L := net_state) (λ _, resolve_literal) demo_apply_env demo_tc.
Lemma demo_turn_ok n : turn_ok demo_agent (demo_turn n).
Proof.
  split; [intros tmp [= <-]; by vm_compute|]. unfold touched. cbn [demo_turn tv_pair stuck_cert pv_key_temp pv_cert_temp te_name calm_temp].
  intros [H|[H|H]]; [|by vm_compute in H..]. revert H. apply (bool_decide_unpack (¬ _)). by vm_compute.
Qed.
Lemma demo_ran encode decode :
  ∃ r, agent_Run encode decode demo_Apply (λ _ _, true) demo_agent demo_run_env [UPeers (demo_update demo_before)] ∅ demo_world = (Ok (), r) ∧
  st_PeerListVersion (ar_state r) = 1 ∧ (handle_peers (demo_update demo_after) r).2 = true ∧
  ∃ m1, Save encode (tv_save (demo_turn 1)) (ac_StatePath demo_agent) (ar_state (handle_peers (demo_update demo_after) r).1)
    (ar_files r) = (Ok (), m1).
Proof.
  destruct (agent_Run encode _ _ _ _ _ _ ∅ demo_world) as [out r] eqn:H. vm_compute in H.
  injection H as <- <-. eexists. split; [reflexivity|]. split; [by vm_compute|]. split; [by vm_compute|]. by eapply Save_well.
Qed.

Lemma agent_in_sync_witness : ∃ r,
  agent_Run demo_encode demo_decode demo_Apply (λ _ _, true) demo_agent demo_run_env [UPeers (demo_update demo_before)] ∅ demo_world = (Ok (), r) ∧
  st_PeerListVersion (ar_state r) = 1 ∧
  Load demo_decode true (ac_StatePath demo_agent) (ar_files r) = Ok (ar_state r).
Proof.
  destruct (demo_ran demo_encode demo_decode) as (r & H & Hv & _). exists r. split; [exact H|]. split; [exact Hv|].
  destruct (agent_in_sync demo_encode demo_decode demo_Apply (λ _ _, true) demo_agent demo_run_env
    [UPeers (demo_update demo_before)] ∅ demo_world r demo_codec demo_turn_ok H) as (s0 & _ & _ & Hl & _). exact Hl.
Defined.

Lemma demo_bad_entry : ∃ p, p ∈ pu_Peers (demo_update demo_after) ∧ malformed_key p ∧ pe_PeerName p = "m2".
Proof.
  destruct (demo_update demo_after) as [sub peers v] eqn:H. vm_compute in H. injection H as _ <- _.
  eexists. split; [right; left|]. split; [|reflexivity]. by split; vm_compute.
Qed.

(** The control plane accepted the second master. *)
Lemma malformed_key_is_permanent_witness :
  rs_Accepted (RegisterNode demo_clock None (demo_master "m2" "10.0.0.2" "bad") demo_before).1 = true ∧
  ∃ err r2, agent_Run demo_encode demo_decode demo_Apply (λ _ _, true) demo_agent demo_run_env
    [UPeers (demo_update demo_before); UPeers (demo_update demo_after)] ∅ demo_world = (Err err, r2) ∧
  Forall (λ out, is_ok out = false)
    (restarts demo_encode demo_decode demo_Apply (λ _ _, true) demo_agent
       [(demo_run_env, [UPeers (demo_update demo_before)]); (demo_run_env, [])] (ar_files r2) demo_world).1.
Proof.
  split; [vm_compute; reflexivity|].
  destruct (demo_ran demo_encode demo_decode) as (r & H & _ & Hch & m1 & Hs). destruct demo_bad_entry as (p & Hp & Hm & _).
  destruct (malformed_key_is_permanent demo_encode demo_decode (λ _, resolve_literal) demo_apply_env demo_tc (λ _ _, true)
    demo_agent demo_run_env [UPeers (demo_update demo_before)] (demo_update demo_after) [] ∅ demo_world r m1
    [(demo_run_env, [UPeers (demo_update demo_before)]); (demo_run_env, [])] demo_world p
    demo_codec (demo_turn_ok 1) ltac:(repeat constructor) H Hch Hs Hp Hm) as [(err & r2 & H2 & Hf) Hre].
  exists err, r2. split; [exact H2|]. rewrite Hf. unfold demo_Apply.
  destruct (restarts _ _ _ _ _ _ m1 demo_world) as [outs m2]. apply Hre.
Defined.
