(* ===== verification/LedgerStream.v ===== *)
(** * From the ledger to the streams, lock by lock ([src/pkg/control_plane/ledger.go], [fanout.go])

    [reassign] and [Remove] change the ledger and take the snapshot under the lock of the
    ledger, release it, and only then call the listener, which broadcasts under the lock of
    the broadcaster. Between the two, other calls change the ledger and broadcast. Here a
    mutation and the broadcast of its notification are separate steps: the notifications on
    their way are kept in [fs_pending], and any of them may be broadcast next. (A goroutine
    broadcasts before its next mutation, so the runs of the program are among these.) The
    two broadcasters of the server are the instances [pmsg] and [omsg] of the message. *)

From S2P Require Import Prelude GoStrings GoNet Role.
From S2P Require Import Ledger Registry Fanout PeerList Server ServerProofs PeerReload ClientAgent.

Record fan_state (M : Type) := MkFan {
  fs_ledger : Ledger;
  fs_pending : list Notification;      (* taken under the lock, not yet broadcast *)
  fs_bcast : Broadcaster M
}.
Arguments MkFan {M}.
Arguments fs_ledger {M}.
Arguments fs_pending {M}.
Arguments fs_bcast {M}.

Inductive fan_step :=
  | FMutate (op : ledger_op)           (* one critical section of the ledger *)
  | FBroadcast (i : nat)               (* the listener runs for the [i]th notification on its way *)
  | FSubscribe
  | FCancel (id : string)
  | FRecv (ch : nat).

Section fan.
Context {M : Type} (msg : Notification → M).

(** A step, with the message received on [ch], if any. *)
Definition fan_one (ch : nat) (step : fan_step) (st : fan_state M) : list M * fan_state M :=
  let 'MkFan l pending b := st in
  match step with
  | FMutate op => let '(l', ns) := run_op op l in ([], MkFan l' (pending ++ ns) b)
  | FBroadcast i =>
      match pending !! i with
      | Some n => ([], MkFan l (delete i pending) (Broadcast (msg n) b))
      | None => ([], st)
      end
  | FSubscribe => let '(d, b') := bstep ch BSubscribe b in (d, MkFan l pending b')
  | FCancel id => let '(d, b') := bstep ch (BCancel id) b in (d, MkFan l pending b')
  | FRecv c => let '(d, b') := bstep ch (BRecv c) b in (d, MkFan l pending b')
  end.

Fixpoint fan_run (ch : nat) (steps : list fan_step) (st : fan_state M) : list M * fan_state M :=
  match steps with
  | [] => ([], st)
  | s :: steps => let '(d1, st1) := fan_one ch s st in
                  let '(d2, st2) := fan_run ch steps st1 in (d1 ++ d2, st2)
  end.

Definition mutations : list fan_step → list ledger_op :=
  omap (λ s, match s with FMutate op => Some op | _ => None end).

(** ** A run splits into a run of the ledger and a run of the broadcaster *)

Record fan_split (ch : nat) (ops : list ledger_op) (st st' : fan_state M) (recv : list M) (ns : list Notification) : Prop := MkSplit {
  sp_ledger : run_ops ops (fs_ledger st) = (fs_ledger st', ns);
  sp_bcast : ∃ bops sent, brun ch bops (fs_bcast st) = (recv, fs_bcast st') ∧ broadcasts bops = msg <$> sent ∧
    sent ++ fs_pending st' ≡ₚ fs_pending st ++ ns
}.

Lemma split_refl ch st : fan_split ch [] st st [] [].
Proof. split; [done|]. exists [], []. split_and!; [done|done|]. by rewrite app_nil_r. Qed.

Lemma split_trans ch ops1 ops2 st1 st2 st3 r1 r2 ns1 ns2 :
  fan_split ch ops1 st1 st2 r1 ns1 → fan_split ch ops2 st2 st3 r2 ns2 →
  fan_split ch (ops1 ++ ops2) st1 st3 (r1 ++ r2) (ns1 ++ ns2).
Proof.
  intros [L1 (b1 & s1 & B1 & C1 & P1)] [L2 (b2 & s2 & B2 & C2 & P2)]. split.
  - by rewrite run_ops_app, L1, L2.
  - exists (b1 ++ b2), (s1 ++ s2). split_and!.
    + by rewrite brun_app, B1, B2.
    + by rewrite broadcasts_app, C1, C2, fmap_app.
    + rewrite <- app_assoc, P2, app_assoc, P1. by rewrite app_assoc.
Qed.

(** A step of the broadcaster alone. *)
Lemma split_bop ch bop' l pending b :
  broadcasts [bop'] = [] →
  fan_split ch [] (MkFan l pending b) (MkFan l pending (bstep ch bop' b).2) (bstep ch bop' b).1 [].
Proof.
  intros Hb. split; [done|]. exists [bop'], []. split_and!; [|done|by rewrite app_nil_r].
  simpl. destruct (bstep ch bop' b). simpl. by rewrite app_nil_r.
Qed.

Lemma fan_one_split ch step st :
  ∃ ns, fan_split ch (mutations [step]) st (fan_one ch step st).2 (fan_one ch step st).1 ns.
Proof.
  destruct st as [l pending b], step as [op|i| |id|c]; simpl.
  - destruct (run_op op l) as [l' ns] eqn:E. exists ns. split; [simpl; by rewrite E, app_nil_r|].
    by exists [], [].
  - destruct (pending !! i) as [n|] eqn:Hi; [|exists []; apply split_refl]. exists []. split; [done|].
    exists [BBroadcast (msg n)], [n]. split_and!; [done|done|]. simpl. rewrite app_nil_r.
    symmetry. by apply delete_Permutation.
  - exists []. by apply (split_bop ch BSubscribe).
  - exists []. by apply (split_bop ch (BCancel id)).
  - exists []. pose proof (split_bop ch (BRecv c) l pending b eq_refl) as H. simpl in H.
    by destruct (Recv c b).
Qed.

Lemma fan_run_split ch steps : ∀ st,
  ∃ ns, fan_split ch (mutations steps) st (fan_run ch steps st).2 (fan_run ch steps st).1 ns.
Proof.
  induction steps as [|s steps IH]; intros st; [exists []; apply split_refl|].
  destruct (fan_one_split ch s st) as [ns1 H1]. simpl fan_run. destruct (fan_one ch s st) as [d1 st1].
  destruct (IH st1) as [ns2 H2]. destruct (fan_run ch steps st1) as [d2 st2]. exists (ns1 ++ ns2).
  replace (mutations (s :: steps)) with (mutations [s] ++ mutations steps)
    by (unfold mutations; by destruct s).
  by eapply split_trans.
Qed.

(** What the subscriber of a channel has, against what was to be sent. *)
Lemma subscriber_accounts steps st :
  bc_wf (fs_bcast st) →
  let '((id, ch), b1) := Subscribe (fs_bcast st) in
  let '(recv, st2) := fan_run ch steps (MkFan (fs_ledger st) (fs_pending st) b1) in
  let '(l2, ns) := run_ops (mutations steps) (fs_ledger st) in
  fs_ledger st2 = l2 ∧
  ∃ buf closed lost, bc_chans (fs_bcast st2) !! ch = Some (MkChan buf closed) ∧
    (closed = false ↔ bc_subs (fs_bcast st2) !! id = Some ch) ∧
    (closed = false → lost = []) ∧
    recv ++ buf ++ lost ++ (msg <$> fs_pending st2) ≡ₚ msg <$> fs_pending st ++ ns.
Proof.
  intros Hwf. pose proof (Subscribe_fresh_status (fs_bcast st)) as Hst. pose proof (Subscribe_wf _ Hwf) as Hwf1.
  destruct (Subscribe (fs_bcast st)) as [[id ch] b1]. simpl in Hst, Hwf1.
  destruct (fan_run_split ch steps (MkFan (fs_ledger st) (fs_pending st) b1)) as [ns [Hl (bops & sent & Hb & Hs & Hp)]].
  destruct (fan_run ch steps _) as [recv st2]. simpl in Hl, Hb, Hp. rewrite Hl. split; [done|].
  pose proof (brun_status bops id ch b1 [] [] Hwf1 Hst) as H. rewrite Hb, Hs in H. simpl in H.
  assert (∀ xs, recv ++ xs ≡ₚ msg <$> sent → recv ++ xs ++ (msg <$> fs_pending st2) ≡ₚ msg <$> fs_pending st ++ ns) as Hsum.
  { intros xs Hx. rewrite <- Hp, app_assoc, Hx. by rewrite fmap_app. }
  destruct H as [buf Hsub Hc Hd|buf Hsub Hc [lost Hd]].
  - exists buf, false, []. split_and!; [done|done|done|]. simpl. apply Hsum. by rewrite Hd.
  - exists buf, true, lost. split_and!; [done| |done|].
    + split; [done|]. intros H. by destruct (Hsub id).
    + rewrite (app_assoc buf). apply Hsum. by rewrite Hd, app_assoc.
Qed.
End fan.

(** C9. A subscriber is sent every mutation exactly once, although the ledger releases its
    lock before it calls the listener: from the moment a channel is subscribed, however
    mutations, broadcasts, other subscriptions, cancellations and receives interleave,
    - the mutations since then carry the consecutive versions after the ledger's version
      (as the [int64] counter wraps), and the last of them is the ledger as it is;
    - what the subscriber received, what is buffered for it and what is still on its way
      is, up to order, what was on its way when it subscribed and one message per mutation
      - nothing twice, nothing else, nothing missing as long as its channel is open;
    - only a channel that was closed, by which its stream ends, has lost any. *)
Theorem stream_exactly_once {M} (msg : Notification → M) steps st :
  bc_wf (fs_bcast st) → lg_listener (fs_ledger st) = true → Forall no_listener_change (mutations steps) →
  let '((id, ch), b1) := Subscribe (fs_bcast st) in
  let '(recv, st2) := fan_run msg ch steps (MkFan (fs_ledger st) (fs_pending st) b1) in
  let '(l2, ns) := run_ops (mutations steps) (fs_ledger st) in
  fs_ledger st2 = l2 ∧
  nt_version <$> ns = (λ i, wrap_int64 (lg_version (fs_ledger st) + i)) <$> seqZ 1 (Z.of_nat (length ns)) ∧
  (∀ n, last ns = Some n → n = MkNotification (snapshotLocked l2) (lg_version l2)) ∧
  ∃ buf closed lost, bc_chans (fs_bcast st2) !! ch = Some (MkChan buf closed) ∧
    (closed = false ↔ bc_subs (fs_bcast st2) !! id = Some ch) ∧
    (closed = false → lost = []) ∧
    recv ++ buf ++ lost ++ (msg <$> fs_pending st2) ≡ₚ msg <$> fs_pending st ++ ns.
Proof.
  intros Hwf Hl Hf. pose proof (subscriber_accounts msg steps st Hwf) as H.
  pose proof (run_ops_wrapped (mutations steps) (fs_ledger st) Hf Hl) as Hv.
  destruct (Subscribe (fs_bcast st)) as [[id ch] b1]. destruct (fan_run _ _ _ _) as [recv st2].
  destruct (run_ops _ _) as [l2 ns]. destruct H as [Hled Hrest]. destruct Hv as (_ & Hv & _ & Hlast).
  split_and!; done.
Qed.

(** ** What a client makes of the stream *)

(** [StreamPeerList] turns a message into an update with the registry of that moment. *)
Definition sent_as (subject : string) (m : PeerListUpdateMsg) (u : PeerListUpdate) : Prop :=
  ∃ r, u = buildPeerListUpdate r subject (pm_Snapshot m) (pm_Version m).

(** The client takes the first update as it is and the others by version. *)
Definition client_reads (first : PeerListUpdate) (us : list PeerListUpdate) (s : State) : State :=
  foldl (λ s u, (WithPeerList (Some u) s).1) (WithPeerListSnapshot (Some first) s).1 us.

Lemma WithPeerList_cases u s :
  ((WithPeerList (Some u) s).1 = s ∧ pu_Version u ≤ st_PeerListVersion s) ∨
  ((WithPeerList (Some u) s).1 = withPeerList u s ∧ st_PeerListVersion s < pu_Version u).
Proof. simpl. destruct (Z.leb_spec (pu_Version u) (st_PeerListVersion s)); [by left|by right]. Qed.

(** When the newest version of the updates is [v], the client ends with an update of that version. *)
Lemma fold_newest us v : ∀ s,
  Forall (λ u, pu_Version u ≤ v) us → st_PeerListVersion s ≤ v →
  let s' := foldl (λ s u, (WithPeerList (Some u) s).1) s us in
  (st_PeerListVersion s = v → s' = s) ∧
  (st_PeerListVersion s < v → (∃ u, u ∈ us ∧ pu_Version u = v) →
   ∃ u, u ∈ us ∧ pu_Version u = v ∧ st_PeerListVersion s' = v ∧ st_Peers s' = client_peer <$> pu_Peers u).
Proof.
  induction us as [|u us IH]; intros s Hle Hs; cbn [foldl].
  { split; [done|]. intros _ (u & H & _). by apply not_elem_of_nil in H. }
  apply Forall_cons in Hle as [Hu Hle].
  destruct (WithPeerList_cases u s) as [[-> Hc]|[-> Hc]].
  - destruct (IH s Hle Hs) as [IH1 IH2]. split; [done|]. intros Hlt (x & Hx & Hv).
    apply elem_of_cons in Hx as [->|Hx]; [lia|].
    destruct IH2 as (y & Hy & ?); [done|by eauto|]. exists y. split; [by right|done].
  - destruct (IH (withPeerList u s) Hle Hu) as [IH1 IH2]. split; [lia|]. intros _ (x & Hx & Hv).
    destruct (decide (pu_Version u = v)) as [He|Hne].
    + rewrite (IH1 He). exists u. split_and!; [by left|done|done|done].
    + apply elem_of_cons in Hx as [->|Hx]; [done|].
      destruct IH2 as (y & Hy & ?); [simpl; lia|by eauto|]. exists y. split; [by right|done].
Qed.

(** The newest message of a complete stream is the ledger as it is. *)
Lemma newest_is_current ops l (old : list Notification) :
  Forall no_listener_change ops → lg_listener l = true → 0 ≤ lg_version l →
  lg_version l + Z.of_nat (length ops) < 2 ^ 63 → Forall (λ n, nt_version n ≤ lg_version l) old →
  let '(l2, ns) := run_ops ops l in
  ns ≠ [] → lg_version l < lg_version l2 ∧
    MkNotification (snapshotLocked l2) (lg_version l2) ∈ old ++ ns ∧
    ∀ n, n ∈ old ++ ns → nt_version n ≤ lg_version l2 ∧
      (nt_version n = lg_version l2 → n = MkNotification (snapshotLocked l2) (lg_version l2)).
Proof.
  intros Hf Hl H0 Hb Hold. pose proof (run_ops_notifications ops l Hf Hl H0 Hb) as H.
  destruct (run_ops ops l) as [l2 ns]. destruct H as (Hv & Hl2 & _ & Hlast). intros Hne.
  destruct (last ns) as [n|] eqn:En; [|by apply last_None in En]. specialize (Hlast n eq_refl).
  assert (0 < length ns)%nat by (destruct ns; [done|simpl; lia]). split_and!; [lia| |].
  { rewrite <- Hlast. apply elem_of_app. right. by apply last_Some_elem_of. }
  assert (∀ i x, ns !! i = Some x → nt_version x = lg_version l + 1 + Z.of_nat i) as Hnth.
  { intros i x Hx. assert ((nt_version <$> ns) !! i = Some (nt_version x)) as Hi by (by rewrite list_lookup_fmap, Hx).
    rewrite Hv in Hi. apply lookup_seqZ in Hi. lia. }
  intros x Hx. apply elem_of_app in Hx as [Hx|Hx].
  { eapply Forall_forall in Hold; [|exact Hx]. simpl in Hold. lia. }
  apply list_elem_of_lookup in Hx as [i Hi]. pose proof (Hnth i x Hi) as Hxi.
  pose proof (lookup_lt_Some _ _ _ Hi) as Hlt. split; [lia|]. intros He.
  rewrite last_lookup in En. replace i with (pred (length ns)) in Hi by lia. congruence.
Qed.

(** C39. A client ends with the peer list of the ledger as it is, although versions may
    overtake each other: let a client read its first update (not newer than the ledger) and
    then, in the order they arrive, the updates made of the messages of its channel, taking
    each only if its version is newer than the one it has. Once at least one mutation has
    happened since it subscribed, nothing is on its way any more, and its channel is open
    and empty, its version is the ledger's and its peers are those built from the ledger's
    current snapshot (with the registry at the time of sending). What was on its way when
    the client subscribed is assumed to be no newer than the ledger, and the version
    counter must not have wrapped. *)
Theorem stream_converges subject steps st first us s0 :
  bc_wf (fs_bcast st) → lg_listener (fs_ledger st) = true → Forall no_listener_change (mutations steps) →
  0 ≤ lg_version (fs_ledger st) → lg_version (fs_ledger st) + Z.of_nat (length (mutations steps)) < 2 ^ 63 →
  Forall (λ n, nt_version n ≤ lg_version (fs_ledger st)) (fs_pending st) →
  pu_Version first ≤ lg_version (fs_ledger st) →
  let '((id, ch), b1) := Subscribe (fs_bcast st) in
  let '(recv, st2) := fan_run pmsg ch steps (MkFan (fs_ledger st) (fs_pending st) b1) in
  Forall2 (sent_as subject) recv us →
  fs_ledger st2 ≠ fs_ledger st → fs_pending st2 = [] →
  bc_chans (fs_bcast st2) !! ch = Some (MkChan [] false) →
  let client := client_reads first us s0 in
  st_PeerListVersion client = lg_version (fs_ledger st2) ∧
  ∃ r, st_Peers client = client_peer <$>
    pu_Peers (buildPeerListUpdate r subject (snapshotLocked (fs_ledger st2)) (lg_version (fs_ledger st2))).
Proof.
  intros Hwf Hl Hf H0 Hb Hold Hfirst. pose proof (subscriber_accounts pmsg steps st Hwf) as H.
  pose proof (newest_is_current (mutations steps) (fs_ledger st) (fs_pending st) Hf Hl H0 Hb Hold) as Hn.
  pose proof (run_ops_wrapped (mutations steps) (fs_ledger st) Hf Hl) as Hw.
  destruct (Subscribe (fs_bcast st)) as [[id ch] b1]. destruct (fan_run _ _ _ _) as [recv st2].
  destruct (run_ops _ _) as [l2 ns]. destruct H as [-> (buf & closed & lost & Hc & _ & Hlost & Hp)].
  intros Hus Hch Hpend Hopen. rewrite Hopen in Hc. injection Hc as <- <-. rewrite Hlost, Hpend, !app_nil_r in Hp by done.
  destruct Hw as (_ & _ & Hnil & _). destruct Hn as (Hlt & Hcur & Hmax).
  { intros ->. by apply Hch, Hnil. }
  set (n := MkNotification _ _) in Hcur, Hmax.
  assert (∀ u, u ∈ us → ∃ r x, x ∈ fs_pending st ++ ns ∧ u = buildPeerListUpdate r subject (nt_snapshot x) (nt_version x)) as Hu.
  { intros u Hin. apply list_elem_of_lookup in Hin as [i Hi].
    destruct (Forall2_lookup_r _ _ _ i u Hus Hi) as (m & Hm & r & ->). apply list_elem_of_lookup_2 in Hm. rewrite Hp in Hm. apply list_elem_of_fmap in Hm as (x & -> & Hx). by exists r, x. }
  assert (∃ u, u ∈ us ∧ pu_Version u = lg_version l2) as Hex.
  { assert (pmsg n ∈ recv) as Hm by (rewrite Hp; by apply list_elem_of_fmap_2).
    apply list_elem_of_lookup in Hm as [i Hi]. destruct (Forall2_lookup_l _ _ _ i _ Hus Hi) as (u & Hin & r & ->).
    eexists. split; [by eapply list_elem_of_lookup_2|].
    apply buildPeerListUpdate_version. }
  destruct (fold_newest us (lg_version l2) (WithPeerListSnapshot (Some first) s0).1) as [_ Hfold].
  - apply Forall_forall. intros u (r & x & Hx & ->)%Hu. rewrite buildPeerListUpdate_version. by apply Hmax.
  - simpl. lia.
  - destruct Hfold as (u & Hin & Hv & Hver & Hpeers); [simpl; lia|done|]. split; [exact Hver|].
    destruct (Hu u Hin) as (r & x & Hx & ->). exists r. unfold client_reads. rewrite Hpeers.
    rewrite buildPeerListUpdate_version in Hv. by rewrite (proj2 (Hmax x Hx) Hv).
Qed.

(** ** A run in which the broadcasts overtake each other *)

Definition idle_fan : fan_state PeerListUpdateMsg := MkFan (SetListener true NewLedger) [] NewBroadcaster.
Definition overtaking : list fan_step :=
  [FMutate (OpReassign 5 "10.0.0.1" "" "m1" "register" false); FMutate (OpReassign 6 "10.0.0.2" "" "m2" "register" false);
   FBroadcast 1; FRecv 0; FBroadcast 0; FRecv 0].
Definition overtaken : list PeerListUpdateMsg * fan_state PeerListUpdateMsg :=
  fan_run pmsg 0 overtaking (MkFan (fs_ledger idle_fan) [] (Subscribe (fs_bcast idle_fan)).2).

(** Versions can arrive in the wrong order: two calls change the ledger, and the second is
    the first to reach the broadcaster. *)
Theorem versions_out_of_order : pm_Version <$> overtaken.1 = [2; 1].
Proof. vm_compute. reflexivity. Qed.

Lemma stream_exactly_once_witness :
  pm_Version <$> overtaken.1 ≡ₚ [1; 2] ∧ lg_version (fs_ledger overtaken.2) = 2.
Proof.
  pose proof (stream_exactly_once pmsg overtaking idle_fan NewBroadcaster_wf eq_refl ltac:(repeat constructor)) as H.
  assert (bc_chans (fs_bcast overtaken.2) !! 0%nat = Some (MkChan [] false) ∧ fs_pending overtaken.2 = [] ∧
    lg_version (fs_ledger overtaken.2) = 2) as (Hc & Hp & Hl) by (vm_compute; split_and!; reflexivity).
  assert (pm_Version <$> (pmsg <$> (run_ops (mutations overtaking) (fs_ledger idle_fan)).2) = [1; 2]) as Hn by (vm_compute; reflexivity).
  change (Subscribe (fs_bcast idle_fan)) with ((idString 1, 0%nat), (Subscribe (fs_bcast idle_fan)).2) in H. cbv beta iota in H.
  change (fan_run pmsg 0 overtaking _) with overtaken in H. destruct overtaken as [recv st2]. cbn [fst snd] in *.
  destruct (run_ops _ _) as [l2 ns]. destruct H as (_ & _ & _ & buf & closed & lost & Hch & _ & Hlost & Hperm).
  rewrite Hc in Hch. injection Hch as <- <-. rewrite Hlost, Hp, !app_nil_r in Hperm by done.
  split; [|done]. rewrite Hperm. cbn [fs_pending idle_fan app snd] in *. by rewrite Hn.
Defined.

Definition demo_update (m : PeerListUpdateMsg) : PeerListUpdate := buildPeerListUpdate NewRegistry "c1" (pm_Snapshot m) (pm_Version m).
Lemma stream_converges_witness :
  let client := client_reads (buildPeerListUpdate NewRegistry "c1" [] 0) (demo_update <$> overtaken.1) State0 in
  st_PeerListVersion client = 2.
Proof.
  intros client.
  pose proof (stream_converges "c1" overtaking idle_fan (buildPeerListUpdate NewRegistry "c1" [] 0) (demo_update <$> overtaken.1) State0
    NewBroadcaster_wf eq_refl ltac:(repeat constructor)) as H.
  change (Subscribe (fs_bcast idle_fan)) with ((idString 1, 0%nat), (Subscribe (fs_bcast idle_fan)).2) in H. cbv beta iota in H.
  change (fan_run pmsg 0 overtaking _) with overtaken in H.
  assert (lg_version (fs_ledger overtaken.2) = 2) as Hl by (vm_compute; reflexivity).
  assert (bc_chans (fs_bcast overtaken.2) !! 0%nat = Some (MkChan [] false)) as Hc by (vm_compute; reflexivity).
  assert (fs_pending overtaken.2 = []) as Hp by (vm_compute; reflexivity).
  assert (fs_ledger overtaken.2 ≠ fs_ledger idle_fan) as Hne by (intros E; rewrite E in Hl; vm_compute in Hl; discriminate).
  subst client. destruct overtaken as [recv st2]. cbn [fst snd] in *. rewrite <- Hl. apply H.
  - vm_compute. discriminate.
  - vm_compute. reflexivity.
  - constructor.
  - rewrite buildPeerListUpdate_version. vm_compute. discriminate.
  - apply Forall2_fmap_r, Forall_Forall2_diag, Forall_true. intros m. by exists NewRegistry.
  - exact Hne.
  - exact Hp.
  - exact Hc.
Defined.
