(* ===== verification/ClientCommand.v ===== *)
(** * The client command ([src/pkg/clientd/command.go], [nat_traverse.go])

    What the daemon does around the agent: the checks on its flags, the credentials of
    the connection, the transport it creates on first use, and the loop that restarts
    the agent with growing pauses. Flag parsing itself is Go's [flag] package. *)

From S2P Require Import Prelude GoStrings GoNet GoText GoPath Role Server.
From S2P Require Import WgTypes DualListener Netlink LinkConfig PeerReload CertUpdate ClientAgent.

(** ** Flags *)

Record CommandConfig := MkCommandConfig {
  cc_ControlPlane : string; cc_Name : string; cc_OverlayIP : string; cc_Region : string; cc_CertPath : string;
  cc_KeyPath : string; cc_CACertPath : string; cc_WireGuardPrivateKeyPath : string; cc_StateDir : string;
  cc_InterfaceName : string; cc_ListenPort : Z; cc_EndpointHost : string; cc_Protocol : string; cc_Roles : list Role;
  cc_AllowInsecureControlPlane : bool
}.

Inductive command_error :=
  | ErrMissingFlags (flags : list string)
  | ErrFlagProtocol (p : string)
  | ErrFlagRoles (e : role_error)
  | ErrFlagIface (e : name_error)
  | ErrFlagPort (port : Z)
  | ErrFlagEndpoint (host : string)
  | ErrFlagInsecure (target : string)
  | ErrLoadCACert | ErrLoadClientCert
  | ErrKeyPath | ErrKeyRead (path : string) | ErrKeyParse (path : string) (e : key_error) | ErrKeyZero (path : string)
  | ErrOverlayRequired | ErrOverlayParse (value : string)
  | ErrDial
  | ErrReadCert
  | ErrNewAgent (e : agent_error)
  | ErrAgentRun (e : agent_error).

(** netip's [Addr.IsLoopback]. *)
Definition addr_loopback (a : Addr) : bool :=
  match Unmap a with
  | Addr4 v => v / 2 ^ 24 =? 127
  | Addr6 v _ => v =? 1
  | AddrInvalid => false
  end.
Definition isLoopbackControlPlaneTarget (target : string) : bool :=
  match SplitHostPort target with
  | Err _ => false
  | Ok (host, _) =>
      if EqualFold host "localhost" then true else
      match ParseAddr host with None => false | Some addr => addr_loopback addr end
  end.

Definition defaultCACertPath (certPath : string) : string :=
  let cleanCertPath := path_Clean certPath in
  if negb (bool_decide (path_Base cleanCertPath = "node.crt")) then "" else
  let certDir := path_Dir cleanCertPath in
  if bool_decide (path_Base certDir = ".") || negb (bool_decide (path_Base (path_Dir certDir) = "nodes")) then "" else
  path_Join [path_Dir (path_Dir certDir); "ca.crt"].
Definition defaultWireGuardPrivateKeyPath (certPath : string) : string :=
  path_Join [path_Dir (path_Clean certPath); "wireguard-private.key"].

(** The required flags that are blank, in the order they are checked. *)
Definition missing_flags (cfg : CommandConfig) : list string :=
  omap (λ x : string * string, if blank x.1 then Some x.2 else None)
    [(cc_ControlPlane cfg, "--control-plane"); (cc_Name cfg, "--name"); (cc_OverlayIP cfg, "--overlay-ip");
     (cc_Region cfg, "--region"); (cc_CertPath cfg, "--cert"); (cc_StateDir cfg, "--state-dir"); (cc_InterfaceName cfg, "--iface")].

Section Command.
(** [regularFile] asks the file system. *)
Context (ResolveUDPAddr : string → option UDPAddr) (regularFile : string → bool).

(** The paths and roles that default. *)
Definition default_CACertPath (cfg : CommandConfig) : string :=
  if blank (cc_CACertPath cfg) then
    let candidate := defaultCACertPath (cc_CertPath cfg) in
    if negb (bool_decide (candidate = "")) && regularFile candidate then candidate else cc_CACertPath cfg
  else cc_CACertPath cfg.
Definition with_defaults (cfg : CommandConfig) : CommandConfig :=
  MkCommandConfig (cc_ControlPlane cfg) (cc_Name cfg) (cc_OverlayIP cfg) (cc_Region cfg) (cc_CertPath cfg)
    (if blank (cc_KeyPath cfg) then path_Join [path_Dir (cc_CertPath cfg); "node.key"] else cc_KeyPath cfg)
    (default_CACertPath cfg)
    (if blank (cc_WireGuardPrivateKeyPath cfg) then defaultWireGuardPrivateKeyPath (cc_CertPath cfg)
     else cc_WireGuardPrivateKeyPath cfg)
    (cc_StateDir cfg) (cc_InterfaceName cfg) (cc_ListenPort cfg) (cc_EndpointHost cfg) (cc_Protocol cfg)
    (if bool_decide (cc_Roles cfg = []) then [RoleClient] else cc_Roles cfg) (cc_AllowInsecureControlPlane cfg).
Definition with_endpoint (endpoint : string) (cfg : CommandConfig) : CommandConfig :=
  MkCommandConfig (cc_ControlPlane cfg) (cc_Name cfg) (cc_OverlayIP cfg) (cc_Region cfg) (cc_CertPath cfg)
    (cc_KeyPath cfg) (cc_CACertPath cfg) (cc_WireGuardPrivateKeyPath cfg) (cc_StateDir cfg) (cc_InterfaceName cfg)
    (cc_ListenPort cfg) endpoint (cc_Protocol cfg) (cc_Roles cfg) (cc_AllowInsecureControlPlane cfg).

Definition ValidateCommandConfig (cfg0 : CommandConfig) : res command_error CommandConfig :=
  if negb (bool_decide (missing_flags cfg0 = [])) then Err (ErrMissingFlags (missing_flags cfg0)) else
  let cfg := with_defaults cfg0 in
  check! bool_decide (cc_Protocol cfg = vanilla_text) || bool_decide (cc_Protocol cfg = amnezia_text)
    else ErrFlagProtocol (cc_Protocol cfg);
  let! _ := wrap_err ErrFlagRoles (ValidateComposability (cc_Roles cfg)) in
  let! _ := wrap_err ErrFlagIface (ValidateInterfaceName (cc_InterfaceName cfg)) in
  check! negb ((cc_ListenPort cfg <? 0) || (65535 <? cc_ListenPort cfg)) else ErrFlagPort (cc_ListenPort cfg);
  let endpoint := TrimSpace (cc_EndpointHost cfg) in
  let! cfg :=
    if bool_decide (endpoint = "") then Ok cfg else
    match ResolveUDPAddr endpoint with
    | None => Err (ErrFlagEndpoint (cc_EndpointHost cfg))
    | Some _ => Ok (with_endpoint endpoint cfg)
    end in
  if blank (cc_CACertPath cfg) && negb (cc_AllowInsecureControlPlane cfg) && negb (isLoopbackControlPlaneTarget (cc_ControlPlane cfg))
  then Err (ErrFlagInsecure (cc_ControlPlane cfg)) else
  Ok cfg.

(** ** Connecting *)

Definition controlPlaneServerName (target : string) : string :=
  match SplitHostPort target with
  | Err _ => "localhost"
  | Ok (host, _) => if bool_decide (host = "") then "localhost" else trim_brackets host
  end.

(** Insecure, or mutual TLS with the name to verify. *)
Inductive Credentials := Insecure | MutualTLS (serverName : string).
(** [ca] and [client]: whether the CA certificate and the client pair load. *)
Definition controlPlaneTransportCredentials (ca client : bool) (cfg : CommandConfig) : res command_error Credentials :=
  if blank (cc_CACertPath cfg) then Ok Insecure else
  check! ca else ErrLoadCACert;
  check! client else ErrLoadClientCert;
  Ok (MutualTLS (controlPlaneServerName (cc_ControlPlane cfg))).

Definition certUpdatePaths (cfg : CommandConfig) : string * string :=
  if blank (cc_CACertPath cfg) then ("", "") else (cc_CertPath cfg, cc_KeyPath cfg).

Definition loadWireGuardPrivateKey (readable : bool) (path : string) (m : files) : res command_error Key :=
  let trimmed := TrimSpace path in
  if bool_decide (trimmed = "") then Err ErrKeyPath else
  match file_at m trimmed with
  | None => Err (ErrKeyRead trimmed)
  | Some data =>
      check! readable else ErrKeyRead trimmed;
      let! key := wrap_err (ErrKeyParse trimmed) (ParseKey (TrimSpace data)) in
      if IsZero key then Err (ErrKeyZero trimmed) else Ok key
  end.

(** An address, or a network in which the address is kept unmasked. *)
Definition parseOverlayAddress (value : string) : res command_error IPNet :=
  let trimmed := TrimSpace value in
  if bool_decide (trimmed = "") then Err ErrOverlayRequired else
  if Contains trimmed "/" then
    match ParseCIDR trimmed with
    | None => Err (ErrOverlayParse value)
    | Some (ip, network) =>
        Ok (MkIPNet (net_v4 network) (if net_v4 network then default 0 (To4 ip) else ip) (net_bits network))
    end
  else
    match ParseIP trimmed with
    | None => Err (ErrOverlayParse value)
    | Some ip => Ok match To4 ip with Some v => MkIPNet true v 32 | None => MkIPNet false ip 128 end
    end.

(** ** The lazy configurator *)

Context {L A : Type} `{!LinkConfigurator L A}.

Record lazyTransportConfigurator := MkLazy {
  lz_protocol : string; lz_name : string; lz_localRoles : list Role; lz_privateKey : Key; lz_listenPort : Z; lz_overlayAddr : IPNet
}.
(** The part that changes: the transport, the devices, the links. *)
Record lazy_state := MkLazyState { ls_transport : option nat; ls_world : world; ls_links : L }.

(** [newTransport]; [ok] says whether the driver comes up. *)
Definition newTransport (ok : bool) (protocol name : string) (w : world) : option nat * world :=
  let make p := match create (if ok then FactoryMakes p else FactoryFails) name w with
                | (Ok (Some (id, _)), w) => (Some id, w)
                | (_, w) => (None, w)
                end in
  if bool_decide (protocol = vanilla_text) then make ProtocolVanilla else
  if bool_decide (protocol = amnezia_text) then make ProtocolAmneziaWG else (None, w).

Definition transportForApply (ok : bool) (c : lazyTransportConfigurator) (s : lazy_state) : option nat * lazy_state :=
  match ls_transport s with
  | Some id => (Some id, s)
  | None =>
      match newTransport ok (lz_protocol c) (lz_name c) (ls_world s) with
      | (None, w) => (None, MkLazyState None w (ls_links s))
      | (Some id, w) => (Some id, MkLazyState (Some id) w (ls_links s))
      end
  end.

(** What the environment answers to one application. *)
Record lazy_env := MkLazyEnv { le_create : bool; le_resolve : string → option UDPAddr; le_apply : apply_env A }.
Definition lazy_Apply (e : nat → lazy_env) (c : lazyTransportConfigurator) (n : nat) (state : State) (s : lazy_state)
    : res reload_error unit * lazy_state :=
  match transportForApply (le_create (e n)) c s with
  | (None, s) => (Err ErrNewTransport, s)
  | (Some id, s) =>
      let tc := MkTC (Some (id, lz_name c)) (lz_localRoles c) (Some (lz_privateKey c)) (lz_listenPort c) (Some (lz_overlayAddr c)) true in
      let '(r, w, l) := Apply (le_resolve (e n)) (le_apply (e n)) tc state (ls_world s) (ls_links s) in
      (r, MkLazyState (ls_transport s) w l)
  end.
Definition lazy_Close (s : lazy_state) : lazy_state :=
  match ls_transport s with
  | None => s
  | Some id => MkLazyState (ls_transport s) (close id (ls_world s)) (ls_links s)
  end.

(** ** Restarting the agent *)

Definition reconnectInitialBackoff : Z := 1000000000.
Definition reconnectMaxBackoff : Z := 30 * 1000000000.
Definition reconnectStableAfter : Z := 30 * 1000000000.

Context (encode : State → string) (decode : string → option State) (X509KeyPair : string → string → bool).
Context (PublicKey : Key → Key) (tempDir Version : string).

(** One turn of the loop: whether the certificate can be read, what the agent is
    answered and sent, how long it ran, and whether the context is done after the run
    or during the pause. *)
Record iteration := MkIteration {
  it_readable : bool; it_env : run_env; it_updates : list streamUpdate; it_apply : nat → lazy_env;
  it_elapsed : Z; it_cancelled : bool; it_pauseCancelled : bool
}.

Definition agent_config (cfg : CommandConfig) (certPEM : string) (privateKey : Key) : AgentConfig :=
  let '(certPath, keyPath) := certUpdatePaths cfg in
  MkAgentConfig (cc_Name cfg) (cc_Roles cfg) (cc_OverlayIP cfg) (cc_Region cfg) certPEM certPath keyPath Version
    (cc_InterfaceName cfg) (cc_Protocol cfg) (PublicKey privateKey) (cc_EndpointHost cfg)
    (path_Join [cc_StateDir cfg; "clientd-state.json"]) 0.

Record daemon_state := MkDaemonState { ds_files : files; ds_lazy : lazy_state; ds_pauses : list Z }.

(** The loop, until it returns or the turns run out ([None]: still running). *)
Fixpoint reconnect_loop (cfg : CommandConfig) (privateKey : Key) (c : lazyTransportConfigurator) (backoff : Z)
    (its : list iteration) (d : daemon_state) {struct its} : option (res command_error unit) * daemon_state :=
  match its with
  | [] => (None, d)
  | it :: its =>
      match file_at (ds_files d) (cc_CertPath cfg) with
      | None => (Some (Err ErrReadCert), d)
      | Some certPEM =>
          if negb (it_readable it) then (Some (Err ErrReadCert), d) else
          match NewAgent tempDir (agent_config cfg certPEM privateKey) true true with
          | Err e => (Some (Err (ErrNewAgent e)), d)
          | Ok acfg =>
              let '(out, r) := agent_Run encode decode (lazy_Apply (it_apply it) c) X509KeyPair acfg (it_env it)
                                 (it_updates it) (ds_files d) (ds_lazy d) in
              let d := MkDaemonState (ar_files r) (ar_world r) (ds_pauses d) in
              if is_ok out || it_cancelled it then (Some (wrap_err ErrAgentRun out), d) else
              let backoff := if reconnectStableAfter <=? it_elapsed it then reconnectInitialBackoff else backoff in
              let d := MkDaemonState (ds_files d) (ds_lazy d) (ds_pauses d ++ [backoff]) in
              if it_pauseCancelled it then (Some (Ok ()), d) else
              reconnect_loop cfg privateKey c (Z.min (backoff * 2) reconnectMaxBackoff) its d
          end
      end
  end.

(** What is answered before the loop: the credentials, the key file, the dialing. *)
Record setup_env := MkSetupEnv { su_ca : bool; su_client : bool; su_keyReadable : bool; su_dial : bool }.

(** The deferred [Close] runs when the loop returns. *)
Definition runWithConfig (e : setup_env) (cfg0 : CommandConfig) (its : list iteration) (m : files) (w : world) (l : L)
    : option (res command_error unit) * daemon_state :=
  let d := MkDaemonState m (MkLazyState None w l) [] in
  match ValidateCommandConfig cfg0 with
  | Err err => (Some (Err err), d)
  | Ok cfg =>
      match controlPlaneTransportCredentials (su_ca e) (su_client e) cfg with
      | Err err => (Some (Err err), d)
      | Ok _ =>
          match loadWireGuardPrivateKey (su_keyReadable e) (cc_WireGuardPrivateKeyPath cfg) m with
          | Err err => (Some (Err err), d)
          | Ok privateKey =>
              match parseOverlayAddress (cc_OverlayIP cfg) with
              | Err err => (Some (Err err), d)
              | Ok overlayAddress =>
                  if negb (su_dial e) then (Some (Err ErrDial), d) else
                  let c := MkLazy (cc_Protocol cfg) (cc_InterfaceName cfg) (cc_Roles cfg) privateKey (cc_ListenPort cfg) overlayAddress in
                  let '(out, d) := reconnect_loop cfg privateKey c reconnectInitialBackoff its d in
                  (out, match out with
                        | Some _ => MkDaemonState (ds_files d) (lazy_Close (ds_lazy d)) (ds_pauses d)
                        | None => d
                        end)
              end
          end
      end
  end.

(** [RunCommand]'s exit status, for parsed flags ([None]: they do not parse). *)
Definition RunCommand (e : setup_env) (parsed : option CommandConfig) (its : list iteration) (m : files) (w : world) (l : L)
    : option Z * daemon_state :=
  let d := MkDaemonState m (MkLazyState None w l) [] in
  match parsed with
  | None => (Some 2, d)
  | Some cfg =>
      match ValidateCommandConfig cfg with
      | Err _ => (Some 2, d)
      | Ok cfg =>
          let '(out, d) := runWithConfig e cfg its m w l in
          ((λ r, if is_ok r then 0 else 1) <$> out, d)
      end
  end.
End Command.

(** ** Probing for NAT traversal (nat_traverse.go) *)

Inductive grpc_code := CodeUnimplemented | CodeUnavailable | CodeOther.
Inductive NATStatus := NATStatusAvailable | NATStatusDisabled | NATStatusUnavailable.
Record NATResult := MkNATResult { nr_Status : NATStatus; nr_Reason : string }.
Inductive probe_error := ErrProbeClient | ErrProbeOpen (reason : string) | ErrProbeReceive (reason : string).

Definition probe_failure (wrap : string → probe_error) (code : grpc_code) (reason : string) : res probe_error NATResult :=
  match code with
  | CodeUnimplemented => Ok (MkNATResult NATStatusDisabled reason)
  | CodeUnavailable => Ok (MkNATResult NATStatusUnavailable reason)
  | CodeOther => Err (wrap reason)
  end.
(** [opened] and [received]: the errors of opening the stream and of the first receive. *)
Definition Probe (client : bool) (opened received : option (grpc_code * string)) : res probe_error NATResult :=
  if negb client then Err ErrProbeClient else
  match opened with
  | Some (code, reason) => probe_failure ErrProbeOpen code reason
  | None =>
      match received with
      | Some (code, reason) => probe_failure ErrProbeReceive code reason
      | None => Ok (MkNATResult NATStatusAvailable "")
      end
  end.

(** ** Insecure connections *)

(** A target on this machine. *)
Definition loopback_target (target : string) : Prop :=
  ∃ host port, SplitHostPort target = Ok (host, port) ∧
    (EqualFold host "localhost" = true ∨ ∃ a, ParseAddr host = Some a ∧ addr_loopback a = true).

Lemma loopback_target_iff target : isLoopbackControlPlaneTarget target = true ↔ loopback_target target.
Proof.
  unfold isLoopbackControlPlaneTarget, loopback_target. destruct (SplitHostPort target) as [[host port]|].
  2: { split; [done|]. by intros (? & ? & ? & _). }
  destruct (EqualFold host "localhost") eqn:Hf.
  - split; [intros _|done]. exists host, port. auto.
  - destruct (ParseAddr host) as [a|] eqn:Ha; (split; [intros H|intros (? & ? & [= <- <-] & [H|(a' & H1 & H2)])]); try congruence.
    exists host, port. split; [done|]. right. by exists a.
Qed.

Lemma with_endpoint_fields h cfg :
  cc_CACertPath (with_endpoint h cfg) = cc_CACertPath cfg ∧ cc_ControlPlane (with_endpoint h cfg) = cc_ControlPlane cfg ∧
  cc_AllowInsecureControlPlane (with_endpoint h cfg) = cc_AllowInsecureControlPlane cfg.
Proof. done. Qed.

Lemma validate_insecure R rf cfg0 cfg : ValidateCommandConfig R rf cfg0 = Ok cfg → blank (cc_CACertPath cfg) = true →
  cc_AllowInsecureControlPlane cfg0 = true ∨ loopback_target (cc_ControlPlane cfg0).
Proof.
  unfold ValidateCommandConfig. destruct (negb _); [done|]. destruct (_ || _); [|done].
  destruct (ValidateComposability _); [|done]. destruct (ValidateInterfaceName _); [|done]. cbn [wrap_err res_bind].
  destruct (negb _); [|done]. rewrite <- loopback_target_iff.
  set (c := if bool_decide (TrimSpace _ = "") then _ else _). intros H Hb.
  assert (c = Ok cfg ∧ blank (cc_CACertPath cfg) && negb (cc_AllowInsecureControlPlane cfg) &&
    negb (isLoopbackControlPlaneTarget (cc_ControlPlane cfg)) = false) as [Hc Hg].
  { destruct c as [c'|]; [|done]. cbn [res_bind] in H. destruct (_ && _ && _) eqn:E; [done|]. by injection H as <-. }
  assert (cc_ControlPlane cfg = cc_ControlPlane cfg0 ∧ cc_AllowInsecureControlPlane cfg = cc_AllowInsecureControlPlane cfg0) as [H1 H2].
  { subst c. case_bool_decide; [by injection Hc as <-|]. destruct (R _); [|done]. by injection Hc as <-. }
  rewrite Hb, H1, H2 in Hg. destruct (cc_AllowInsecureControlPlane cfg0); [by left|]. right.
  by destruct (isLoopbackControlPlaneTarget _).
Qed.

(** The daemon talks to its control plane without TLS only when the operator asked for
    it or the target is on this machine: [localhost] in any case, an address of
    127.0.0.0/8 (IPv4-mapped or not), or ::1. With a CA certificate the connection is
    mutual TLS, verified against the host of the target. *)
Theorem command_insecure_loopback R rf ca client cfg0 cfg cred :
  ValidateCommandConfig R rf cfg0 = Ok cfg → controlPlaneTransportCredentials ca client cfg = Ok cred →
  match cred with
  | Insecure => cc_AllowInsecureControlPlane cfg0 = true ∨ loopback_target (cc_ControlPlane cfg0)
  | MutualTLS serverName => serverName = controlPlaneServerName (cc_ControlPlane cfg) ∧ blank (cc_CACertPath cfg) = false
  end.
Proof.
  intros Hv. unfold controlPlaneTransportCredentials. destruct (blank (cc_CACertPath cfg)) eqn:Hb.
  - intros [= <-]. by eapply validate_insecure.
  - destruct ca, client; intros [= <-]. done.
Qed.

(** ** Pauses *)

(** How many short runs in a row ended at each turn, counted from the first pause after
    a long run. *)
Fixpoint short_runs (k : nat) (elapsed : list Z) : list nat :=
  match elapsed with
  | [] => []
  | t :: elapsed =>
      let k := if reconnectStableAfter <=? t then 0%nat else k in
      k :: short_runs (S k) elapsed
  end.
(** 1, 2, 4, 8, 16, then 30 seconds. *)
Definition pause (k : nat) : Z := Z.min (2 ^ Z.of_nat k * reconnectInitialBackoff) reconnectMaxBackoff.

Lemma pause_S k : Z.min (pause k * 2) reconnectMaxBackoff = pause (S k).
Proof.
  unfold pause, reconnectMaxBackoff, reconnectInitialBackoff. rewrite Nat2Z.inj_succ, Z.pow_succ_r by lia. lia.
Qed.
Lemma pause_bounds k : reconnectInitialBackoff ≤ pause k ≤ reconnectMaxBackoff.
Proof.
  unfold pause, reconnectMaxBackoff, reconnectInitialBackoff.
  pose proof (Z.pow_le_mono_r 2 0 (Z.of_nat k)). lia.
Qed.

Section Loop.
Context (R : string → option UDPAddr) (rf : string → bool) {L A : Type} `{!LinkConfigurator L A}.
Context (encode : State → string) (decode : string → option State) (X509KeyPair : string → string → bool).
Context (PublicKey : Key → Key) (tempDir Version : string).

Notation loop := (reconnect_loop (L := L) (A := A) encode decode X509KeyPair PublicKey tempDir Version).

Lemma reconnect_pauses cfg key c its : ∀ k (d : @daemon_state L), let '(out, d') := loop cfg key c (pause k) its d in
  ∃ n, ds_pauses d' = ds_pauses d ++ take n (pause <$> short_runs k (it_elapsed <$> its)) ∧ (out = None → n = length its).
Proof.
  assert (∀ (o : res command_error unit) (d : @daemon_state L) l, 
    ∃ n, ds_pauses d = ds_pauses d ++ take n l ∧ (Some o = None → n = length its)) as Hstop.
  { intros. exists 0%nat. by rewrite take_0, app_nil_r. }
  revert Hstop. induction its as [|it its IH]; intros Hstop k d; cbn [reconnect_loop].
  { exists 0%nat. by rewrite take_0, app_nil_r. }
  destruct (file_at _ _) as [pem|]; [|apply Hstop]. destruct (it_readable it); [|apply Hstop]. cbn [negb].
  destruct (NewAgent _ _ _ _) as [acfg|]; [|apply Hstop]. destruct (agent_Run _ _ _ _ _ _ _ _ _) as [out r].
  destruct (is_ok out || it_cancelled it); [apply (Hstop _ (MkDaemonState _ _ _))|]. cbn [ds_files ds_lazy ds_pauses].
  rewrite fmap_cons. cbn [short_runs]. rewrite fmap_cons.
  set (k' := if reconnectStableAfter <=? it_elapsed it then 0%nat else k).
  replace (if reconnectStableAfter <=? it_elapsed it then reconnectInitialBackoff else pause k) with (pause k')
    by (subst k'; destruct (reconnectStableAfter <=? it_elapsed it); [by vm_compute|done]).
  destruct (it_pauseCancelled it); [by exists 1%nat|]. rewrite pause_S.
  match goal with |- context [reconnect_loop _ _ _ _ _ _ _ _ _ _ its ?d'] =>
    specialize (IH ltac:(intros ? d0 ?; exists 0%nat; by rewrite take_0, app_nil_r) (S k') d') end.
  destruct (reconnect_loop _ _ _ _ _ _ _ _ _ _ its _) as [out' d'']. destruct IH as (n & Hn & Hout).
  exists (S n). rewrite Hn. cbn [ds_pauses take length]. rewrite <- app_assoc. split; [done|]. intros E. by rewrite Hout.
Qed.

(** *** The agent touches the world only through the configurator *)

Lemma agent_Run_world {W} (apply : nat → State → W → res reload_error unit * W) (P : W → Prop) acfg e ups m w :
  (∀ n s w, P w → P (apply n s w).2) → P w → P (ar_world (agent_Run encode decode apply X509KeyPair acfg e ups m w).2).
Proof.
  intros HP Hw.
  assert (∀ r : @agent_run W, P (ar_world r) → P (ar_world (agent_apply apply r).2)) as Happ.
  { intros r Hr. unfold agent_apply. specialize (HP (length (ar_applied r)) (ar_state r) _ Hr).
    by destruct (apply _ _ _) as [out w']. }
  assert (∀ turn (r : @agent_run W), P (ar_world r) → P (ar_world (save_and_apply encode apply acfg turn r).2)) as Hsave.
  { intros turn r Hr. unfold save_and_apply. destruct (Save _ _ _ _ _) as [[[]|] m']; [|done]. by apply Happ. }
  assert (∀ ups turn i (r : @agent_run W), P (ar_world r) →
    P (ar_world (agent_loop encode apply X509KeyPair acfg turn i ups r).2)) as Hloop.
  { clear ups. induction ups as [|u ups IH]; intros turn i r Hr; [done|].
    assert (∀ r1 : @agent_run W, P (ar_world r1) → P (ar_world (match save_and_apply encode apply acfg (turn i) r1 with
      | (Err err, r) => (Err err, r) | (Ok _, r) => agent_loop encode apply X509KeyPair acfg turn (S i) ups r end).2)) as Hs.
    { intros r1 Hr1. specialize (Hsave (turn i) r1 Hr1). destruct (save_and_apply _ _ _ _ r1) as [[[]|] r2]; [by apply IH|done]. }
    destruct u as [u|u|u|b err]; cbn [agent_loop].
    - assert (ar_world (handle_peers u r).1 = ar_world r) as E by (unfold handle_peers; by case_match).
      destruct (handle_peers u r) as [r1 []]; cbn in E; cbn [negb]; [apply Hs|apply IH]; by rewrite E.
    - assert (ar_world (handle_ownership u r).1 = ar_world r) as E by (unfold handle_ownership; by case_match).
      destruct (handle_ownership u r) as [r1 []]; cbn in E; cbn [negb]; [apply Hs|apply IH]; by rewrite E.
    - assert (ar_world (handle_cert X509KeyPair acfg (turn i) u r).2 = ar_world r) as E
        by (unfold handle_cert; destruct (ApplyCertUpdate _ _ _ _ _ _ _) as [[[]|] ?]; done).
      destruct (handle_cert _ _ _ _ r) as [[[]|] r1]; cbn in E; [apply IH|cbn]; by rewrite E.
    - done. }
  unfold agent_Run. destruct (Load _ _ _ _) as [s0|]; [|done]. unfold agent_register.
  destruct (register_result _) as [[]|]; [|done].
  match goal with |- context [agent_apply apply ?r0] =>
    assert (P (ar_world (if negb (state_IsZero s0) then agent_apply apply r0 else (Ok (), r0)).2)) as Hstart
      by (destruct (negb _); [by apply Happ|done]) end.
  destruct (if negb (state_IsZero s0) then _ else _) as [[[]|] r1]; [|exact Hstart]. cbn [snd] in Hstart.
  destruct (negb (rv_peers e)); [done|]. destruct (negb (rv_ownership e)); [done|]. destruct (_ && _); [done|]. by apply Hloop.
Qed.

(** *** One transport at most *)

(** [base] are the devices open before the daemon started. *)
Definition one_transport (base : gset nat) (s : @lazy_state L) : Prop :=
  world_ok (ls_world s) ∧
  match ls_transport s with
  | None => w_open (ls_world s) = base
  | Some id => id ∉ base ∧ w_open (ls_world s) = {[ id ]} ∪ base
  end.

Lemma transportForApply_one base ok c s : one_transport base s → one_transport base (transportForApply ok c s).2.
Proof.
  intros [Hw Ht]. unfold transportForApply. destruct (ls_transport s) as [id|] eqn:E; [split; [done|]; cbn; by rewrite E|].
  unfold newTransport.
  assert (∀ p, one_transport base (match (match create (if ok then FactoryMakes p else FactoryFails) (lz_name c) (ls_world s) with
    | (Ok (Some (id, _)), w) => (Some id, w) | (_, w) => (None, w) end) with
    | (None, w) => (None (A := nat), MkLazyState None w (ls_links s))
    | (Some id, w) => (Some id, MkLazyState (Some id) w (ls_links s)) end).2) as Hm.
  { intros p. destruct (create _ _ _) as [r w'] eqn:Hc. apply create_spec in Hc as [Hok Hc]; [|done].
    destruct r as [[[id q]|]|]; cbn; [|by rewrite Hc..]. destruct Hc as (_ & _ & Hn & Ho & _). by rewrite <- Ht. }
  repeat case_bool_decide; [apply Hm..|done].
Qed.
Lemma Apply_open R' (e : apply_env A) c s w (l : L) :
  w_open (Apply R' e c s w l).1.2 = w_open w ∧ w_next (Apply R' e c s w l).1.2 = w_next w.
Proof.
  pose proof (Apply_cases R' e c s w l) as H. destruct (Apply R' e c s w l) as [[r w'] l'].
  by destruct H as [(-> & _)|(? & ? & ? & ? & _ & _ & -> & _)].
Qed.
Lemma lazy_Apply_one base e c n st s : one_transport base s → one_transport base (lazy_Apply (A := A) e c n st s).2.
Proof.
  intros Hs. unfold lazy_Apply. pose proof (transportForApply_one base (le_create (e n)) c s Hs) as H.
  destruct (transportForApply _ c s) as [[id|] s1]; [|done]. cbn in H. set (tc := MkTC _ _ _ _ _ _).
  destruct (Apply_open (le_resolve (e n)) (le_apply (e n)) tc st (ls_world s1) (ls_links s1)) as [Ho Hn].
  destruct (Apply _ _ tc st _ _) as [[r w'] l']. cbn in *. destruct H as [Hw Ht]. split; cbn.
  - intros i Hi. rewrite Ho in Hi. rewrite Hn. by apply Hw.
  - destruct (ls_transport s1); by rewrite Ho.
Qed.

Lemma reconnect_one base cfg key c its : ∀ b (d : @daemon_state L), one_transport base (ds_lazy d) →
  one_transport base (ds_lazy (loop cfg key c b its d).2).
Proof.
  induction its as [|it its IH]; intros b d Hd; cbn [reconnect_loop]; [done|].
  destruct (file_at _ _) as [pem|]; [|done]. destruct (it_readable it); [|done]. cbn [negb].
  destruct (NewAgent _ _ _ _) as [acfg|]; [|done].
  pose proof (agent_Run_world (lazy_Apply (it_apply it) c) (one_transport base) acfg (it_env it) (it_updates it) (ds_files d)
    (ds_lazy d) (lazy_Apply_one base (it_apply it) c) Hd) as Hr.
  destruct (agent_Run _ _ _ _ _ _ _ _ _) as [out r]. cbn in Hr.
  destruct (_ || _); [done|]. destruct (it_pauseCancelled it); [done|]. by apply IH.
Qed.
Lemma lazy_Close_one base (s : @lazy_state L) : one_transport base s → w_open (ls_world (lazy_Close s)) = base.
Proof.
  intros [_ Hs]. unfold lazy_Close. destruct (ls_transport s) as [id|]; [|done]. destruct Hs as [Hid Hs]. cbn. rewrite Hs. set_solver.
Qed.

Notation run := (runWithConfig (L := L) (A := A) R rf encode decode X509KeyPair PublicKey tempDir Version).

(** Where the run stands when the loop was not entered, and when it was. *)
Lemma run_cases e cfg its m w l : let d0 := MkDaemonState m (MkLazyState None w l) [] in
  (∃ err, run e cfg its m w l = (Some (Err err), d0)) ∨
  ∃ cfg' key c, run e cfg its m w l =
    (let '(out, d) := loop cfg' key c (pause 0) its d0 in
     (out, match out with Some _ => MkDaemonState (ds_files d) (lazy_Close (ds_lazy d)) (ds_pauses d) | None => d end)).
Proof.
  cbn zeta. unfold runWithConfig. destruct (ValidateCommandConfig _ _ _) as [cfg'|err]; [|left; by exists err].
  destruct (controlPlaneTransportCredentials _ _ _) as [cred|err]; [|left; by exists err].
  destruct (loadWireGuardPrivateKey _ _ _) as [key|err]; [|left; by exists err].
  destruct (parseOverlayAddress _) as [addr|err]; [|left; by exists err].
  destruct (su_dial e); [|left; by eexists]. right. by eexists cfg', key, _.
Qed.

(** The pauses between two runs of the agent are 1, 2, 4, 8, 16 and then 30 seconds, and
    start again at one second after a run that lasted at least 30 seconds; no run is
    restarted without its pause. *)
Theorem reconnect_backoff e cfg its m w l : let '(out, d) := run e cfg its m w l in
  (∃ n, ds_pauses d = take n (pause <$> short_runs 0 (it_elapsed <$> its)) ∧ (out = None → n = length its)) ∧
  Forall (λ p, reconnectInitialBackoff ≤ p ≤ reconnectMaxBackoff) (ds_pauses d).
Proof.
  assert (∀ n l, Forall (λ p, reconnectInitialBackoff ≤ p ≤ reconnectMaxBackoff) (take n (pause <$> l))) as Hb.
  { intros n ks. apply Forall_take, Forall_fmap, Forall_true. intros k. apply pause_bounds. }
  destruct (run_cases e cfg its m w l) as [[err ->]|(cfg' & key & c & ->)]; [split; [by exists 0%nat|by constructor]|].
  match goal with |- context [reconnect_loop _ _ _ _ _ _ _ _ _ _ its ?d0] =>
    pose proof (reconnect_pauses cfg' key c its 0 d0) as H end.
  destruct (reconnect_loop _ _ _ _ _ _ _ _ _ _ its _) as [out d]. cbn [ds_pauses app] in H.
  destruct H as (n & Hn & Hout). assert (ds_pauses (match out with
    Some _ => MkDaemonState (ds_files d) (lazy_Close (ds_lazy d)) (ds_pauses d) | None => d end) = ds_pauses d) as -> by by destruct out.
  rewrite Hn. split; [by exists n|apply Hb].
Qed.

(** C12. The daemon holds one tunnel device at most, whatever fails and however often the
    agent is restarted, and none once it has returned. *)
Theorem command_no_leak e cfg its m w l : world_ok w → let '(out, d) := run e cfg its m w l in
  match out with
  | Some _ => w_open (ls_world (ds_lazy d)) = w_open w
  | None => one_transport (w_open w) (ds_lazy d)
  end.
Proof.
  intros Hw. destruct (run_cases e cfg its m w l) as [[err ->]|(cfg' & key & c & ->)]; [done|].
  match goal with |- context [reconnect_loop _ _ _ _ _ _ _ _ _ ?b its ?d0] =>
    pose proof (reconnect_one (w_open w) cfg' key c its b d0 ltac:(by split)) as H end.
  destruct (reconnect_loop _ _ _ _ _ _ _ _ _ _ its _) as [[out|] d]; [by apply lazy_Close_one|done].
Qed.
End Loop.

(** ** A run *)

Definition demo_command : CommandConfig :=
  MkCommandConfig "127.0.0.1:7443" "c1" "10.0.0.9" "eu" "/etc/awg/node.crt" "" "" "" "/var/lib/awg-mesh" "awg0" 51821 ""
    amnezia_text [] false.
Definition demo_files : files :=
  {[ "/etc/awg/node.crt" := "PEM"; "/etc/awg/wireguard-private.key" := "AQIDBAUGBwgJCgsMDQ4PEBESExQVFhcYGRobHB0eHyA=" ]}.
Definition demo_lazy_env (_ : nat) : lazy_env := MkLazyEnv true resolve_literal (demo_apply_env 0).
(** The stream of the first run breaks after a peer list; the second run is stopped. *)
Definition demo_turns : list (@iteration bool) :=
  [MkIteration true demo_run_env [UPeers (demo_update demo_before); UError false SEof] demo_lazy_env 5000000000 false false;
   MkIteration true demo_run_env [UError true SCancelled] demo_lazy_env 5000000000 true false].
Notation demo_run := (runWithConfig (L := net_state) resolve_literal (λ _, false) (λ _, "state") (λ _, Some State0) (λ _ _, true)
  (λ k, k) "/tmp" "1" (MkSetupEnv true true true true) demo_command demo_turns demo_files).

Lemma command_insecure_loopback_witness :
  loopback_target "127.0.0.1:7443" ∧ ¬ loopback_target "192.0.2.1:7443".
Proof.
  split; [|rewrite <- loopback_target_iff; by vm_compute].
  destruct (ValidateCommandConfig resolve_literal (λ _, false) demo_command) as [cfg|err] eqn:Hv; [|by vm_compute in Hv].
  destruct (command_insecure_loopback resolve_literal (λ _, false) true true demo_command cfg Insecure Hv) as [H|H];
    [|done|exact H].
  vm_compute in Hv. injection Hv as <-. reflexivity.
Defined.

(** The device was created, configured and closed. *)
Lemma command_no_leak_witness : let w := MkWorld {[ 0%nat ]} 1 [] in
  let '(out, d) := demo_run w demo_world.2 in
  out = Some (Ok ()) ∧ w_open (ls_world (ds_lazy d)) = {[ 0%nat ]} ∧ length (w_log (ls_world (ds_lazy d))) = 3%nat ∧
  ds_pauses d = [reconnectInitialBackoff].
Proof.
  cbn zeta. pose proof (command_no_leak (L := net_state) resolve_literal (λ _, false) (λ _, "state") (λ _, Some State0) (λ _ _, true)
    (λ k, k) "/tmp" "1" (MkSetupEnv true true true true) demo_command demo_turns demo_files (MkWorld {[ 0%nat ]} 1 [])
    demo_world.2) as H.
  destruct (runWithConfig _ _ _ _ _ _ _ _ _ _ _ _ _ _) as [out d] eqn:Hr. vm_compute in Hr. injection Hr as <- <-.
  split; [done|]. split; [apply H; intros id Hid; cbn in Hid |- *; apply elem_of_singleton in Hid; lia|]. split; by vm_compute.
Defined.
