(* ===== verification/Mesh.v ===== *)
(** * Control plane and client together

    What the control plane knows - the registry and the ledger - against what a client
    has configured once it applied the peer list built from them
    ([buildPeerListUpdate] of src/pkg/control_plane/server.go, [withPeerList] and
    [TransportConfigurator.Apply] of src/pkg/clientd). A WireGuard peer is here an entry
    of the request the device is configured with; nothing excludes two masters that
    registered with one public key, whose entries a device would merge. *)

From S2P Require Import Prelude GoStrings GoNet GoText Role Ledger Registry PeerList Server ServerProofs.
From S2P Require Import WgTypes DualListener Netlink LinkConfig PeerReload ClientAgent.

(** An ownership entry for the IPv4 address [v], written in dotted form. *)
Definition entry_addr (e : OwnershipEntry) (v : Z) : Prop := 0 ≤ v < 2 ^ 32 ∧ oe_OverlayIP e = addr4_string v.

(** What the client needs of a master's registration. *)
Definition master_ok (R : string → option UDPAddr) (r : Registry) (m : string) : Prop :=
  TrimSpace m ≠ "" ∧
  ∀ node, registry_Lookup r m = Some node →
    (rn_Protocol node = "" ∨ rn_Protocol node = vanilla_text ∨ rn_Protocol node = amnezia_text) ∧
    (rn_Pubkey node = "" ∨ length (to_bytes (rn_Pubkey node)) = key_size) ∧
    (TrimSpace (rn_EndpointHost node) = "" ∨ is_Some (R (rn_EndpointHost node))).

(** ** One allowed IP *)

Lemma slash32_plain v : TrimSpace (host_route v) = host_route v.
Proof.
  apply TrimSpace_plain. unfold host_route. rewrite to_bytes_app. apply Forall_app. split.
  - eapply Forall_impl; [apply addr4_chars|]. intros a. destruct a as [[] [] [] [] [] [] [] []]; vm_compute; congruence.
  - by repeat constructor.
Qed.
Lemma slash32_route e v : entry_addr e v → slash32 e = host_route v.
Proof. intros [_ H]. unfold slash32, host_route. by rewrite H. Qed.
Lemma allowed_ip_host v : 0 ≤ v < 2 ^ 32 → allowed_ip (host_route v) = Some (host_net v).
Proof.
  intros Hv. unfold allowed_ip. unfold host_route. rewrite (ParseCIDR_host (addr4_string v) v); [done| |].
  - by apply ParseAddr_addr4_string.
  - apply addr4_no_slash.
Qed.

Lemma parse_share es vs : Forall2 entry_addr es vs → parseAllowedIPs (slash32 <$> es) = Ok (host_net <$> vs).
Proof.
  induction 1 as [|e v es vs He _ IH]; [done|]. rewrite fmap_cons. cbn [parseAllowedIPs].
  rewrite (slash32_route e v He), slash32_plain, bool_decide_eq_false_2.
  - rewrite allowed_ip_host by apply He. by rewrite IH.
  - unfold host_route. intros H. apply (f_equal to_bytes) in H. rewrite to_bytes_app in H. by apply app_nil in H as [_ ?].
Qed.

Lemma normalize_host v : normalizeCIDR (host_net v) = host_net v.
Proof. unfold normalizeCIDR, clear_low. cbn. by rewrite Z.shiftr_0_r. Qed.

Section Delivery.
Context (R : string → option UDPAddr) (r : Registry) (subject : string) (snapshot : list OwnershipEntry) (version : Z).
Hypothesis distinct : NoDup (oe_OverlayIP <$> snapshot).
Hypothesis addresses : ∀ e, e ∈ snapshot → ∃ v, entry_addr e v.
Hypothesis masters : ∀ e, e ∈ snapshot → master_ok R r (oe_OwningMaster e).

Notation so := (subject_overlay r subject).
Notation peers := (pu_Peers (buildPeerListUpdate r subject snapshot version)).

Lemma entry_allowed p : p ∈ peers → pe_AllowedIps p = slash32 <$> share so (pe_PeerName p) snapshot.
Proof.
  destruct (buildPeerListUpdate_peers r subject snapshot version) as (order & _ & Hn & Ha & _).
  intros [i Hi]%list_elem_of_lookup. pose proof (f_equal (lookup i) Ha) as H. rewrite <- Hn, !list_lookup_fmap, Hi in H.
  by injection H.
Qed.
Lemma entry_owner p : p ∈ peers → ∃ e, e ∈ snapshot ∧ kept so e ∧ oe_OwningMaster e = pe_PeerName p.
Proof.
  destruct (buildPeerListUpdate_peers r subject snapshot version) as (order & _ & Hn & _ & Ho).
  intros Hp. apply Ho. rewrite <- Hn. by apply list_elem_of_fmap_2.
Qed.
Lemma share_addresses m : ∃ vs, Forall2 entry_addr (share so m snapshot) vs.
Proof using addresses.
  clear R distinct masters. assert (∀ e, e ∈ share so m snapshot → ∃ v, entry_addr e v) as H.
  { intros e He. unfold share in He. rewrite !list_elem_of_filter in He. apply addresses. tauto. }
  induction (share so m snapshot) as [|e es IH]; [by exists []|].
  destruct (H e) as [v Hv]; [set_solver|]. destruct IH as [vs IH]; [set_solver|]. exists (v :: vs). by constructor.
Qed.

(** How an entry of the list converts: skipped without a key, else its master's key
    and the addresses the master owns. *)
Lemma entry_converts p : p ∈ peers →
  convertible R (client_peer p) ∧
  (has_key (client_peer p) → ∃ cfg vs, PeerEntryToWGConfig R (client_peer p) = Ok cfg ∧
     pc_PublicKey cfg = to_bytes (pe_PeerPubkey p) ∧ pc_AllowedIPs cfg = host_net <$> vs ∧
     Forall2 entry_addr (share so (pe_PeerName p) snapshot) vs).
Proof using addresses masters.
  intros Hp. destruct (entry_owner p Hp) as (e & He & _ & Ho). destruct (masters e He) as [Hname Hnode]. rewrite Ho in Hname, Hnode.
  destruct (share_addresses (pe_PeerName p)) as [vs Hvs]. pose proof (parse_share _ _ Hvs) as Hparse.
  rewrite <- (entry_allowed p Hp) in Hparse. destruct (peer_list_entries r subject snapshot version p Hp) as [agg Hagg].
  unfold convertible, PeerEntryToWGConfig.
  cbn [client_peer cp_PeerName cp_Protocol cp_PeerPubkey cp_AllowedIPs cp_PeerEndpointHost cp_PersistentKeepaliveSecs].
  unfold has_key. cbn [client_peer cp_PeerPubkey]. rewrite (bool_decide_eq_false_2 (TrimSpace _ = "")) by done.
  assert ((pe_Protocol p = "" ∨ pe_Protocol p = vanilla_text ∨ pe_Protocol p = amnezia_text) ∧
    (to_bytes (pe_PeerPubkey p) = [] ∨ length (to_bytes (pe_PeerPubkey p)) = key_size) ∧
    (TrimSpace (pe_PeerEndpointHost p) = "" ∨ is_Some (R (pe_PeerEndpointHost p)))) as (Hprot & Hkey & Hend).
  { rewrite Hagg. unfold peer_entry. destruct (registry_Lookup r (pe_PeerName p)) as [node|] eqn:Hl; cbn; [|auto].
    destruct (Hnode node eq_refl) as (H1 & H2 & H3). split_and!; [done| |done]. destruct H2 as [->|H2]; auto. }
  replace (bool_decide _ && bool_decide _ && bool_decide _) with false
    by (destruct Hprot as [->|[->| ->]]; by vm_compute).
  destruct Hkey as [Hk|Hk].
  { rewrite Hk. cbn. split; [done|]. intros []. done. }
  rewrite bool_decide_eq_false_2 by (intros E; rewrite E in Hk; done).
  unfold NewKey. rewrite (bool_decide_eq_true_2 _ Hk), Hparse, (copy_key_id _ Hk). cbn.
  destruct Hend as [He'|[a He']].
  - rewrite bool_decide_eq_false_2 by tauto. cbn. split; [done|]. intros _. by eexists _, vs.
  - rewrite He'. case_bool_decide; (cbn; split; [done|]); intros _; by eexists _, vs.
Qed.

Lemma peer_names_nodup : NoDup (cp_PeerName <$> filter has_key (client_peer <$> peers)).
Proof.
  destruct (buildPeerListUpdate_peers r subject snapshot version) as (order & Hnd & Hn & _ & _).
  eapply sublist_NoDup; [|apply fmap_sublist, sublist_filter]. rewrite <- list_fmap_compose.
  by replace (cp_PeerName ∘ client_peer <$> peers) with (pe_PeerName <$> peers) by done; rewrite Hn.
Qed.

(** An address is among the networks of the peer of its owner, and of no other. *)
Lemma entry_has_address p cfg e v : p ∈ peers → PeerEntryToWGConfig R (client_peer p) = Ok cfg → e ∈ snapshot → kept so e →
  entry_addr e v → host_net v ∈ pc_AllowedIPs cfg ↔ oe_OwningMaster e = pe_PeerName p.
Proof using addresses distinct masters.
  intros Hp Hc He Hk Hv. destruct (entry_converts p Hp) as [_ H]. destruct (H (converted_has_key _ _ _ Hc)) as (cfg' & vs & Hc' & _ & Ha & Hf).
  rewrite Hc' in Hc. injection Hc as ->. rewrite Ha. split.
  - intros (v' & Heq & Hin)%list_elem_of_fmap. injection Heq as <-.
    apply list_elem_of_lookup in Hin as [i Hi]. destruct (Forall2_lookup_r _ _ _ _ _ Hf Hi) as (e' & Hi' & Hv').
    apply list_elem_of_lookup_2 in Hi'. unfold share in Hi'. rewrite !list_elem_of_filter in Hi'. destruct Hi' as (<- & _ & He').
    f_equal. apply (NoDup_key_inj oe_OverlayIP snapshot); [done..|]. destruct Hv as [_ ->], Hv' as [_ ->]. done.
  - intros Ho. apply list_elem_of_fmap. exists v. split; [done|].
    assert (e ∈ share so (pe_PeerName p) snapshot) as Hs by (unfold share; by rewrite !list_elem_of_filter).
    apply list_elem_of_lookup in Hs as [i Hi]. destruct (Forall2_lookup_l _ _ _ _ _ Hf Hi) as (v' & Hi' & Hv').
    assert (v' = v) as ->; [|by eapply list_elem_of_lookup_2].
    destruct Hv as [Hr Ht], Hv' as [Hr' Ht']. rewrite Ht in Ht'. apply (f_equal ParseAddr) in Ht'.
    rewrite !ParseAddr_addr4_string in Ht' by done. congruence.
Qed.
End Delivery.

(** ** A kernel that takes every request *)

Definition calm_env : apply_env bool := MkApplyEnv false false true true true (λ _, true).

Lemma install_routes_well name own src nets : ∀ i seen (l : net_state), is_Some (LinkByName name l) →
  ∃ l', install_routes (λ _, true) name own src i seen nets l = (Ok (), l').
Proof.
  induction nets as [|n nets IH]; intros i seen l Hl; cbn [install_routes]; [by eexists|].
  case_bool_decide; [by apply IH|]. case_bool_decide; [by apply IH|]. cbn [lc_RouteReplaceLinkWithSrc netlink_LinkConfigurator].
  unfold RouteReplaceLinkWithSrc. destruct Hl as [idx Hl]. rewrite Hl. cbn [negb]. apply IH. by exists idx.
Qed.

Lemma configure_links_well c name own nets (l : net_state) : is_Some (LinkByName name l) →
  tc_OverlayAddress c = Some own → tc_LinkConfigurator c = true →
  ∃ l', configure_links calm_env c name nets l = (Ok (), l').
Proof.
  intros [idx Hl] Ho Hc. unfold configure_links, installPeerRoutes. rewrite Ho, Hc. cbn [negb calm_env ae_addr ae_up ae_route].
  cbn [lc_AddrAdd lc_LinkSetUp netlink_LinkConfigurator]. unfold AddrAdd, LinkSetUp. rewrite Hl.
  case_bool_decide; cbn [negb]; unfold LinkByName in *; cbn [ns_links]; rewrite Hl; apply install_routes_well; by exists idx.
Qed.

(** The peer list of the control plane, as the client holds it. *)
Definition told (r : Registry) (subject : string) (snapshot : list OwnershipEntry) (version : Z) (s0 : State) : State :=
  withPeerList (buildPeerListUpdate r subject snapshot version) s0.

Lemma told_roles r subject snapshot version s0 :
  reject_non_master (st_Peers (told r subject snapshot version s0)) = Ok ().
Proof.
  apply reject_non_master_ok. unfold told, withPeerList. cbn [st_Peers]. apply Forall_fmap, Forall_forall. intros p _. by left.
Qed.

(** The client applies the list: the configuration it makes and the routes. *)
Lemma told_applies R r subject snapshot version s0 c id name own w (l : net_state) :
  (∀ e, e ∈ snapshot → ∃ v, entry_addr e v) → (∀ e, e ∈ snapshot → master_ok R r (oe_OwningMaster e)) →
  tc_Transport c = Some (id, name) → tc_OverlayAddress c = Some own → tc_LinkConfigurator c = true →
  is_Some (LinkByName name l) →
  ∃ cfgs l', Apply R calm_env c (told r subject snapshot version s0) w l = (Ok (), configure id (peers_config c cfgs) w, l') ∧
    Forall2 (λ p cfg, PeerEntryToWGConfig R p = Ok cfg)
      (filter has_key (st_Peers (told r subject snapshot version s0))) cfgs ∧
    links_applied c name cfgs l l'.
Proof.
  intros Ha Hm Ht Ho Hc Hl.
  assert (Forall (convertible R) (st_Peers (told r subject snapshot version s0))) as Hconv.
  { unfold told, withPeerList. cbn [st_Peers]. apply Forall_fmap, Forall_forall. intros p Hp.
    by apply (entry_converts R r subject snapshot version Ha Hm). }
  destruct (convert_peers_total R _ Hconv) as [[cfgs sk] Hcv]. destruct (configure_links_well c name own cfgs l Hl Ho Hc) as [l' Hlk].
  exists cfgs, l'. split_and!.
  - unfold Apply, BuildPeerConfigs. rewrite Ht, told_roles. cbn [calm_env ae_cancelled]. set (roles := if bool_decide _ then _ else _).
    destruct (localHasClient roles); cbn [res_bind]; rewrite Hcv; cbn [ae_cancelled2 ae_configure calm_env negb];
      change (MkApplyEnv false false true true true (λ _, true)) with calm_env; by rewrite Hlk.
  - by apply convert_peers_ok in Hcv as [? _].
  - by eapply configure_links_ok.
Qed.

(** An address owned by a master the client knows the key of, as the client has it:
    one peer carries it, with the owner's key, and the kernel routes it. *)
Definition delivered_to (cfgs : list PeerConfig) (l : net_state) (name : string) (own : IPNet) (v : Z) (key : Key) : Prop :=
  (∃ i cfg, cfgs !! i = Some cfg ∧ pc_PublicKey cfg = key ∧ host_net v ∈ pc_AllowedIPs cfg ∧
     ∀ j cfg', cfgs !! j = Some cfg' → host_net v ∈ pc_AllowedIPs cfg' → j = i) ∧
  (host_route v ≠ net_string (normalizeCIDR own) → routed l (host_net v) name (ip_of own)).

Section Told.
Context (R : string → option UDPAddr) (r : Registry) (subject : string) (snapshot : list OwnershipEntry) (version : Z) (s0 : State).
Hypothesis distinct : NoDup (oe_OverlayIP <$> snapshot).
Hypothesis addresses : ∀ e, e ∈ snapshot → ∃ v, entry_addr e v.
Hypothesis masters : ∀ e, e ∈ snapshot → master_ok R r (oe_OwningMaster e).
Context (cfgs : list PeerConfig).
Hypothesis converted : Forall2 (λ p cfg, PeerEntryToWGConfig R p = Ok cfg)
  (filter has_key (st_Peers (told r subject snapshot version s0))) cfgs.

Notation peers := (pu_Peers (buildPeerListUpdate r subject snapshot version)).

Lemma cfg_entry j cfg : cfgs !! j = Some cfg →
  ∃ p, p ∈ peers ∧ filter has_key (client_peer <$> peers) !! j = Some (client_peer p) ∧ PeerEntryToWGConfig R (client_peer p) = Ok cfg.
Proof using converted.
  intros Hj. destruct (Forall2_lookup_r _ _ _ _ _ converted Hj) as (cp & Hcp & Hc). apply list_elem_of_lookup_2 in Hcp as Hin.
  apply list_elem_of_filter in Hin as [_ (p & -> & Hp)%list_elem_of_fmap]. by exists p.
Qed.
Lemma entry_cfg p cfg : p ∈ peers → PeerEntryToWGConfig R (client_peer p) = Ok cfg →
  ∃ i, cfgs !! i = Some cfg ∧ filter has_key (client_peer <$> peers) !! i = Some (client_peer p).
Proof using converted.
  intros Hp Hc. assert (client_peer p ∈ filter has_key (client_peer <$> peers)) as Hfl.
  { apply list_elem_of_filter. split; [by eapply converted_has_key|by apply list_elem_of_fmap_2]. }
  apply list_elem_of_lookup in Hfl as [i Hi]. destruct (Forall2_lookup_l _ _ _ _ _ converted Hi) as (cfg' & Hi' & Hc').
  exists i. rewrite Hc in Hc'. injection Hc' as <-. done.
Qed.

(** All networks are hosts. *)
Lemma cfgs_hosts n : n ∈ peer_nets cfgs → ∃ v, 0 ≤ v < 2 ^ 32 ∧ n = host_net v.
Proof using addresses converted masters.
  intros (ns & Hn1 & Hn2)%list_elem_of_join. apply list_elem_of_fmap in Hn2 as (cfg & -> & [j Hj]%list_elem_of_lookup).
  destruct (cfg_entry j cfg Hj) as (p & Hp & _ & Hc). destruct (entry_converts R r subject snapshot version addresses masters p Hp) as [_ H].
  destruct (H (converted_has_key _ _ _ Hc)) as (cfg' & vs & Hc' & _ & Ha & Hf). rewrite Hc' in Hc. injection Hc as ->.
  rewrite Ha in Hn1. apply list_elem_of_fmap in Hn1 as (v & -> & [k Hk]%list_elem_of_lookup). exists v. split; [|done].
  by destruct (Forall2_lookup_r _ _ _ _ _ Hf Hk) as (e & _ & [? _]).
Qed.

(** The owner's entry, when its key is known. *)
Lemma owner_entry e node : e ∈ snapshot → kept (subject_overlay r subject) e →
  registry_Lookup r (oe_OwningMaster e) = Some node → rn_Pubkey node ≠ "" →
  ∃ p cfg, p ∈ peers ∧ pe_PeerName p = oe_OwningMaster e ∧ PeerEntryToWGConfig R (client_peer p) = Ok cfg ∧
    pc_PublicKey cfg = to_bytes (rn_Pubkey node).
Proof using addresses masters.
  intros He Hk Hnode Hkey. destruct (buildPeerListUpdate_peers r subject snapshot version) as (order & _ & Hn & _ & Ho).
  assert (oe_OwningMaster e ∈ order) as Hin by (apply Ho; eauto). rewrite <- Hn in Hin.
  apply list_elem_of_fmap in Hin as (p & Hname & Hp).
  destruct (peer_list_entries r subject snapshot version p Hp) as [agg Hagg]. rewrite <- Hname in Hagg.
  unfold peer_entry in Hagg. rewrite Hnode in Hagg.
  assert (has_key (client_peer p)) as Hhk.
  { rewrite Hagg. unfold has_key. cbn. intros E. apply Hkey. rewrite <- (of_to_bytes (rn_Pubkey node)), E. done. }
  destruct (entry_converts R r subject snapshot version addresses masters p Hp) as [_ Hcv].
  destruct (Hcv Hhk) as (cfg & vs & Hc & Hpk & _ & _). exists p, cfg. split_and!; try done. by rewrite Hpk, Hagg.
Qed.

Lemma told_delivered c name own (l l' : net_state) e v node :
  tc_OverlayAddress c = Some own → links_applied c name cfgs l l' →
  e ∈ snapshot → entry_addr e v → kept (subject_overlay r subject) e →
  registry_Lookup r (oe_OwningMaster e) = Some node → rn_Pubkey node ≠ "" →
  delivered_to cfgs l' name own v (to_bytes (rn_Pubkey node)).
Proof using addresses converted distinct masters.
  intros Hown Hl He Hv Hk Hnode Hkey.
  destruct (owner_entry e node He Hk Hnode Hkey) as (p & cfg & Hp & Hname & Hc & Hpk).
  destruct (entry_cfg p cfg Hp Hc) as (i & Hi & Hi').
  assert (host_net v ∈ pc_AllowedIPs cfg) as Hhas
    by (by apply (entry_has_address R r subject snapshot version distinct addresses masters p cfg e v)). split.
  - exists i, cfg. split_and!; try done. intros j cfg2 Hj Hv2. destruct (cfg_entry j cfg2 Hj) as (p2 & Hp2 & Hj2 & Hc2).
    apply (entry_has_address R r subject snapshot version distinct addresses masters p2 cfg2 e v) in Hv2; [|done..].
    pose proof (peer_names_nodup r subject snapshot version) as Hnd.
    eapply (NoDup_lookup _ j i (oe_OwningMaster e) Hnd); rewrite list_lookup_fmap; [rewrite Hj2|rewrite Hi']; cbn; congruence.
  - intros Hne. unfold links_applied in Hl. rewrite Hown in Hl. destruct Hl as (_ & _ & Hr & _).
    assert (host_net v ∈ peer_nets cfgs) as Hmine.
    { apply list_elem_of_join. exists (pc_AllowedIPs cfg). split; [done|]. apply list_elem_of_fmap_2. by eapply list_elem_of_lookup_2. }
    destruct (Hr (host_net v) Hmine) as (d & Hd1 & (n & -> & Hn2)%list_elem_of_fmap & Hd3); [by rewrite normalize_host|].
    destruct (cfgs_hosts n Hn2) as (v2 & Hv2 & ->). rewrite !normalize_host in *. rewrite !net_string_host in Hd1.
    apply host_route_inj in Hd1; [by subst|done|apply Hv].
Qed.
End Told.


(** The scenario of [ClientAgent] before the malformed registration. *)
Definition demo_ledger : list OwnershipEntry := (Ledger.Snapshot (sv_ledger demo_before)).1.

Lemma demo_ledger_is : ∃ t, demo_ledger = [MkEntry "10.0.0.1" "m1" t "" "register" 1].
Proof. eexists. by vm_compute. Qed.

