(* ===== verification/MasterAgent.v ===== *)
(** * The master runtime ([src/pkg/node/master_v2.go])

    A master opens its two listeners, assigns its overlay address, registers itself
    with the control plane it hosts, and adds every node that registers as a peer of
    the mesh device. The devices are those of [DualListener], the links those of
    [LinkConfigurator], the control plane is [Server]; what they answer is an argument
    of each call. What the mesh device makes of the peers it is given - a later peer
    takes an address over from an earlier one, and replaces the peer of its own key -
    is a parameter, the class [MeshDevice]. *)

From S2P Require Import Prelude GoStrings GoNet GoPath GoText Role.
From S2P Require Import Ledger Registry AuditTrail Fanout PeerList CertLifecycle Server ServerProofs ServerContracts.
From S2P Require Import WgTypes DualListener Netlink LinkConfig PeerReload Daemon.

(** ** Configuration *)

Record MasterCoordinationConfig := MkMCConfig {
  mc_ListenAddr : string; mc_StateDir : string; mc_CADir : string; mc_CertHosts : list string;
  mc_CertRotationDays : Z; mc_AuditCap : Z; mc_AllowInsecurePublicBind : bool
}.
Record MasterConfig := MkMasterConfig {
  ma_Name : string; ma_OverlayIP : string; ma_MeshEndpointHost : string; ma_DualListener : DualListenerConfig;
  ma_Coordination : option MasterCoordinationConfig; ma_LinkConfigurator : bool
}.

Inductive advertise_error :=
  | ErrEndpointEmpty | ErrEndpointForm (e : hostport_error) | ErrEndpointHost | ErrEndpointPort (port : string).
Inductive link_error := ErrLinkAddr (e : net_error) | ErrLinkMeshUp (e : net_error) | ErrLinkClientUp (e : net_error).
Inductive self_error := ErrSelfKey (e : dual_error) | ErrSelfZeroKey | ErrSelfRegister (e : server_error).
(** [errors.Join] keeps the error of closing the listeners. *)
Inductive master_error :=
  | ErrMasterName | ErrMasterOverlay | ErrMasterOverlayParse (value : string) | ErrMasterEndpoint (endpoint : string) (e : advertise_error)
  | ErrMasterNoLinks | ErrMasterListener (e : dual_error) | ErrMasterCoordination (e : daemon_error)
  | ErrMasterStart (e : dual_error)
  | ErrMasterLinks (e : link_error) (closeErr : res dual_error unit)
  | ErrMasterSelf (e : self_error) (closeErr : res dual_error unit)
  | ErrMasterCoordinationStart (closeErr : res dual_error unit)
  | ErrMasterStopped (err : option string) (closeErr : res dual_error unit)
  | ErrMasterClose (e : dual_error).
Inductive peer_error :=
  | ErrPeerKeyLength (name : string) (len : nat) | ErrPeerOverlay (name ip : string) | ErrPeerEndpointParse (name endpoint : string)
  | ErrPeerAdd (name : string) (e : dual_error) | ErrPeerRouted (name : string) (e : net_error).

(** An IPv4 address in four bytes, any other in sixteen. *)
Definition parseMasterOverlayAddress (value : string) : option IPNet :=
  match ParseAddr (TrimSpace value) with
  | None => None
  | Some (Addr4 v) => Some (MkIPNet true v 32)
  | Some a => Some (MkIPNet false (addr_val a) 128)
  end.

Definition validateAdvertisedMeshEndpoint (endpoint : string) : res master_error unit :=
  if bool_decide (endpoint = "") then Err (ErrMasterEndpoint endpoint ErrEndpointEmpty) else
  match SplitHostPort endpoint with
  | Err e => Err (ErrMasterEndpoint endpoint (ErrEndpointForm e))
  | Ok (host, portText) =>
      if blank host then Err (ErrMasterEndpoint endpoint ErrEndpointHost) else
      match Atoi portText with
      | None => Err (ErrMasterEndpoint endpoint (ErrEndpointPort portText))
      | Some port =>
          if (port <? 1) || (65535 <? port) then Err (ErrMasterEndpoint endpoint (ErrEndpointPort portText)) else Ok ()
      end
  end.

Definition hasRole (roles : list Role) (want : Role) : bool := existsb (λ got, bool_decide (got = want)) roles.

Record Master := MkMaster {
  ms_cfg : MasterConfig; ms_overlayAddress : IPNet; ms_listener : DualListener; ms_coordination : option Daemon
}.

(** [NewMasterCoordination]: the daemon's configuration, the observer apart. *)
Definition daemon_config (c : MasterCoordinationConfig) : DaemonConfig :=
  MkDaemonConfig (mc_ListenAddr c) (mc_StateDir c) (mc_CADir c) (mc_CertHosts c) (mc_CertRotationDays c) (mc_AuditCap c)
    (mc_AllowInsecurePublicBind c).

(** Factories that are not set get the default ones. *)
Definition with_factories (d : DualListenerConfig) : DualListenerConfig :=
  MkDLConfig (dc_ClientInterfaceName d) (dc_MeshInterfaceName d) (dc_ClientListenPort d) (dc_MeshListenPort d)
    (dc_ClientPrivateKey d) (dc_MeshPrivateKey d) (dc_ClientPeers d) true true.

Definition NewMaster (e : daemon_env) (cfg : MasterConfig) : res master_error Master :=
  check! negb (blank (ma_Name cfg)) else ErrMasterName;
  check! negb (blank (ma_OverlayIP cfg)) else ErrMasterOverlay;
  match parseMasterOverlayAddress (ma_OverlayIP cfg) with
  | None => Err (ErrMasterOverlayParse (ma_OverlayIP cfg))
  | Some overlayAddr =>
      let endpoint := TrimSpace (ma_MeshEndpointHost cfg) in
      let! _ := match ma_Coordination cfg with Some _ => validateAdvertisedMeshEndpoint endpoint | None => Ok () end in
      check! ma_LinkConfigurator cfg else ErrMasterNoLinks;
      let listenerCfg := with_factories (ma_DualListener cfg) in
      let! listener := wrap_err ErrMasterListener (NewDualListener listenerCfg) in
      let! coordination := match ma_Coordination cfg with
                           | None => Ok None
                           | Some c => let! d := wrap_err ErrMasterCoordination (NewDaemon e (daemon_config c)) in Ok (Some d)
                           end in
      Ok (MkMaster (MkMasterConfig (ma_Name cfg) (ip_string (ip_of overlayAddr)) endpoint listenerCfg (ma_Coordination cfg)
                      (ma_LinkConfigurator cfg)) overlayAddr listener coordination)
  end.

Section Master.
Context (ResolveUDPAddr : string → option UDPAddr) {L A : Type} `{!LinkConfigurator L A}.

(** ** A registered node becomes a peer *)

(** What the device and the kernel answer to one call of the observer; [pa_took]: a
    request that was answered with an error took effect nonetheless. *)
Record peer_env := MkPeerEnv { pa_add : bool; pa_took : bool; pa_route : A }.

(** Nodes that get no peer: the master itself, other masters, other protocols, nodes
    without a key. *)
Definition not_a_peer (masterName : string) (node : RegisteredNode) : bool :=
  bool_decide (rn_Name node = "") || bool_decide (rn_Name node = masterName) || hasRole (rn_Roles node) RoleMaster ||
  (negb (bool_decide (rn_Protocol node = "")) && negb (bool_decide (rn_Protocol node = amnezia_text))) ||
  bool_decide (rn_Pubkey node = "").
Definition mesh_peer (node : RegisteredNode) (overlay : IPNet) (endpoint : option UDPAddr) : PeerConfig :=
  MkPeerConfig (to_bytes (rn_Pubkey node)) false false None endpoint None true [overlay].

Definition applyRegisteredMeshPeer (e : peer_env) (listener : DualListener) (masterName : string) (localOverlay : IPNet)
    (node : RegisteredNode) (w : world) (l : L) : res peer_error unit * world * L :=
  let name := rn_Name node in
  if not_a_peer masterName node then (Ok (), w, l) else
  if negb (bool_decide (length (to_bytes (rn_Pubkey node)) = key_size))
  then (Err (ErrPeerKeyLength name (length (to_bytes (rn_Pubkey node)))), w, l) else
  match parseMasterOverlayAddress (rn_OverlayIP node) with
  | None => (Err (ErrPeerOverlay name (rn_OverlayIP node)), w, l)
  | Some peerOverlay =>
      let snapshot := DualListener.Snapshot listener in
      let endpoint := TrimSpace (rn_EndpointHost node) in
      match (if bool_decide (endpoint = "") then Ok None else
             match ResolveUDPAddr endpoint with
             | None => Err (ErrPeerEndpointParse name (rn_EndpointHost node))
             | Some addr => Ok (Some addr)
             end) with
      | Err err => (Err err, w, l)
      | Ok endpoint =>
          match AddMeshPeer (pa_add e) (mesh_peer node peerOverlay endpoint) listener w with
          | (Err err, w) => (Err (ErrPeerAdd name err), w, l)
          | (Ok _, w) =>
              match lc_RouteReplaceLinkWithSrc (pa_route e) peerOverlay (sn_MeshInterfaceName snapshot) (ip_of localOverlay) l with
              | (Err err, l) => (Err (ErrPeerRouted name err), w, l)
              | (Ok _, l) => (Ok (), w, l)
              end
          end
      end
  end.

(** ** Running *)

Record links_env := MkLinksEnv { lk_addr : A; lk_mesh : A; lk_client : A }.
Definition configureLinks (e : links_env) (m : Master) (l : L) : res link_error unit * L :=
  let snapshot := DualListener.Snapshot (ms_listener m) in
  match lc_AddrAdd (lk_addr e) (sn_MeshInterfaceName snapshot) (ms_overlayAddress m) l with
  | (Err err, l) => (Err (ErrLinkAddr err), l)
  | (Ok _, l) =>
      match lc_LinkSetUp (lk_mesh e) (sn_MeshInterfaceName snapshot) l with
      | (Err err, l) => (Err (ErrLinkMeshUp err), l)
      | (Ok _, l) =>
          match lc_LinkSetUp (lk_client e) (sn_ClientInterfaceName snapshot) l with
          | (Err err, l) => (Err (ErrLinkClientUp err), l)
          | (Ok _, l) => (Ok (), l)
          end
      end
  end.

Definition self_cert : string := "self-registered-master".
Definition self_node (m : Master) (meshPubkey : Key) : RegisteredNode :=
  MkNode (ma_Name (ms_cfg m)) [RoleMaster] (ma_OverlayIP (ms_cfg m)) "" self_cert "" 0 "" 0 0 None (of_bytes meshPubkey)
    (ma_MeshEndpointHost (ms_cfg m)) amnezia_text.
(** [stats]: what the mesh device reports of itself. *)
Definition selfRegisterCoordination (clock : nat → string → time) (stats : option Device) (m : Master) (s : Server)
    : res self_error unit * Server :=
  match MeshPublicKey stats (ms_listener m) with
  | Err e => (Err (ErrSelfKey e), s)
  | Ok meshPubkey =>
      if WgTypes.IsZero meshPubkey then (Err ErrSelfZeroKey, s) else
      let '(r, s) := SelfRegister clock (self_node m meshPubkey) s in
      (wrap_err ErrSelfRegister r, s)
  end.

(** Why the wait ends: the context is done, or the coordination returned [err] while
    the context was done or not. *)
Inductive wait_end := ContextDone | CoordinationDone (err : option string) (contextDone : bool).
Record run_answers := MkRunAnswers {
  ra_start : start_env; ra_links : links_env; ra_stats : option Device; ra_coordination : bool; ra_wait : wait_end;
  ra_closeMesh : bool; ra_closeClient : bool
}.

Definition set_listener (m : Master) (listener : DualListener) : Master :=
  MkMaster (ms_cfg m) (ms_overlayAddress m) listener (ms_coordination m).
(** The listeners; stopping the coordination is a matter of the next file. *)
Definition master_Close (a : run_answers) (m : Master) (w : world) : res dual_error unit * Master * world :=
  let '(r, listener, w) := DualListener.Close (ra_closeMesh a) (ra_closeClient a) (ms_listener m) w in
  (r, set_listener m listener, w).

(** What is left of a run: the master, its devices, its links and the control plane. *)
Record master_run := MkMasterRun { mn_master : Master; mn_world : world; mn_links : L; mn_server : Server }.

Definition master_Run (clock : nat → string → time) (a : run_answers) (m : Master) (w : world) (l : L) (s : Server)
    : res master_error unit * master_run :=
  match DualListener.Start (ra_start a) (ms_listener m) w with
  | (Err e, listener, w) => (Err (ErrMasterStart e), MkMasterRun (set_listener m listener) w l s)
  | (Ok _, listener, w) =>
      let m := set_listener m listener in
      let fail err l s := let '(closeErr, m, w) := master_Close a m w in (Err (err closeErr), MkMasterRun m w l s) in
      match configureLinks (ra_links a) m l with
      | (Err err, l) => fail (ErrMasterLinks err) l s
      | (Ok _, l) =>
          let '(registered, s) := match ms_coordination m with
                                  | None => (Ok (), s)
                                  | Some _ => selfRegisterCoordination clock (ra_stats a) m s
                                  end in
          match registered with
          | Err err => fail (ErrMasterSelf err) l s
          | Ok _ =>
              if bool_decide (is_Some (ms_coordination m)) && negb (ra_coordination a)
              then fail ErrMasterCoordinationStart l s else
              match (if bool_decide (is_Some (ms_coordination m)) then ra_wait a else ContextDone) with
              | CoordinationDone (Some err) _ => fail (ErrMasterStopped (Some err)) l s
              | CoordinationDone None false => fail (ErrMasterStopped None) l s
              | _ =>
                  let '(closeErr, m, w) := master_Close a m w in
                  (wrap_err ErrMasterClose closeErr, MkMasterRun m w l s)
              end
          end
      end
  end.
End Master.

(** ** The devices after a run *)

Section Run.
Context (ResolveUDPAddr : string → option UDPAddr) {L A : Type} `{!LinkConfigurator L A}.
Context (clock : nat → string → time).

Definition mesh_iface (m : Master) : string := dc_MeshInterfaceName (dl_cfg (ms_listener m)).
Definition client_iface (m : Master) : string := dc_ClientInterfaceName (dl_cfg (ms_listener m)).
(** The links are ready: the overlay address on the mesh device, both devices up. *)
Definition links_ready (m : Master) (l : L) : Prop :=
  addressed l (mesh_iface m) (ms_overlayAddress m) ∧ is_up l (mesh_iface m) ∧ is_up l (client_iface m).

Lemma configureLinks_ok (e : links_env (A := A)) m l l' : configureLinks e m l = (Ok (), l') → links_ready m l'.
Proof.
  unfold configureLinks, links_ready. cbn [Snapshot sn_MeshInterfaceName sn_ClientInterfaceName].
  fold (mesh_iface m) (client_iface m).
  destruct (lc_AddrAdd _ _ _ _) as [[[]|] l1] eqn:E1; [|done]. apply lc_AddrAdd_ok in E1.
  destruct (lc_LinkSetUp _ (mesh_iface m) _) as [[[]|] l2] eqn:E2; [|done]. apply lc_LinkSetUp_ok in E2 as (U2 & _ & A2).
  destruct (lc_LinkSetUp _ (client_iface m) _) as [[[]|] l3] eqn:E3; [|done]. apply lc_LinkSetUp_ok in E3 as (U3 & P3 & A3).
  intros [= <-]. auto.
Qed.

(** The master is in the registry under its own key. *)
Definition self_registered (m : Master) (stats : option Device) (s : Server) : Prop :=
  ∃ dev node, stats = Some dev ∧ registry_Lookup (sv_registry s) (ma_Name (ms_cfg m)) = Some node ∧
    rn_Roles node = [RoleMaster] ∧ rn_OverlayIP node = ma_OverlayIP (ms_cfg m) ∧ rn_Protocol node = amnezia_text ∧
    rn_Pubkey node = of_bytes (dv_PublicKey dev).

Lemma seeds_SelfRegister node s s' : SelfRegister clock node s = (Ok (), s') → ∃ r',
  Register (clock (sv_ticks s) "") node (sv_registry s) = Ok r' ∧ sv_registry s' = r'.
Proof.
  unfold SelfRegister. unfold bind at 1, Now at 1. set (s0 := MkServer _ _ _ _ _ _). unfold bind at 1.
  pose proof (on_registry_run (Register (clock (sv_ticks s) "") node) s0) as Hr.
  change (sv_registry s0) with (sv_registry s) in Hr. destruct (Register _ node _) as [r'|err]; [|by rewrite Hr].
  destruct (on_registry _ s0) as [x s1]. cbn [fst snd] in Hr. destruct Hr as (-> & <- & _).
  destruct (is_master node); [|unfold ret; intros [= <-]; eauto]. unfold bind at 1.
  pose proof (ledger_reassign_run clock (rn_OverlayIP node) (rn_Name node) "self-register" s1) as (Hl & _).
  destruct (ledger_reassign _ _ _ _ s1) as [[v|err] s2]; [|done]. cbn [snd] in Hl.
  unfold seedExistingRegisteredNodeOwnership, bind, get_registry. cbn [fst snd].
  pose proof (sd_registry _ _ (seeds_all clock (registry_List (sv_registry s2)) s2)) as Hsd.
  destruct (seed_all _ _ s2) as [u s3]. intros [= -> ->]. cbn [snd] in Hsd. exists (sv_registry s1). by rewrite Hsd.
Qed.

Lemma selfRegister_ok stats m s s' : selfRegisterCoordination clock stats m s = (Ok (), s') →
  self_registered m stats s'.
Proof.
  unfold selfRegisterCoordination, MeshPublicKey, self_registered. destruct (dl_mesh _); [|done]. destruct stats as [dev|]; [|done].
  destruct (WgTypes.IsZero (dv_PublicKey dev)) eqn:Hz; [done|].
  destruct (SelfRegister clock _ s) as [[[]|] s1] eqn:E; [|done]. intros [= <-].
  apply seeds_SelfRegister in E as (r' & [_ ->]%Register_spec & Hs). exists dev. eexists. split; [done|]. unfold registry_Lookup.
  rewrite Hs. cbn [rg_byName self_node rn_Name]. rewrite lookup_insert_eq. split; [done|].
  assert (of_bytes (dv_PublicKey dev) ≠ "") as Hne.
  { by destruct (dv_PublicKey dev). }
  unfold registered, cloneRegisteredNode. destruct (_ !! _) as [p|]; [|done].
  destruct (certBytesEqual _ _); cbn; unfold or_else; rewrite !bool_decide_eq_false_2 by done; split_and!; try done.
Qed.

Lemma NewMaster_fields e cfg m : NewMaster e cfg = Ok m →
  NewDualListener (with_factories (ma_DualListener cfg)) = Ok (ms_listener m) ∧
  parseMasterOverlayAddress (ma_OverlayIP cfg) = Some (ms_overlayAddress m) ∧
  ma_Name (ms_cfg m) = ma_Name cfg ∧ ma_OverlayIP (ms_cfg m) = ip_string (ip_of (ms_overlayAddress m)) ∧
  (is_Some (ms_coordination m) ↔ is_Some (ma_Coordination cfg)).
Proof.
  unfold NewMaster. intros H. destruct (parseMasterOverlayAddress _) as [overlay|]; [|inv_res].
  destruct (NewDualListener _) as [l|] eqn:El; [|destruct (ma_Coordination cfg); inv_res; done].
  destruct (ma_Coordination cfg) as [c|]; inv_res; cbn; split_and!; try done.
Qed.

Lemma master_Close_spec base dcfg (a : run_answers (A := A)) m w : dl_inv base dcfg (ms_listener m, w) → let '(r, m', w') := master_Close a m w in
  w_open w' = base ∧ dl_started (ms_listener m') = false ∧ m' = set_listener m (ms_listener m').
Proof.
  intros H. unfold master_Close.
  pose proof (dl_inv_step base dcfg _ _ H (step_Close (ra_closeMesh a) (ra_closeClient a) (ms_listener m) w)) as Hi.
  destruct (DualListener.Close _ _ _ w) as [[r listener] w'] eqn:E. unfold DualListener.Close in E. injection E as _ <- _.
  cbn in Hi |- *. destruct Hi as (_ & _ & Ho & _). split_and!; [|done|done]. rewrite Ho. unfold held. cbn. set_solver.
Qed.

Lemma NewDualListener_inv dcfg listener w : NewDualListener dcfg = Ok listener → world_ok w →
  dl_inv (w_open w) (dl_cfg listener) (listener, w) ∧ dl_started listener = false.
Proof.
  unfold NewDualListener. intros H Hw. inv_res. cbn. split_and!; try done; unfold held; cbn; set_solver.
Qed.

(** The wait ended with the context, not with the coordination. *)
Definition ended_by_context (wait : wait_end) : Prop :=
  match wait with ContextDone | CoordinationDone None true => True | _ => False end.

(** The master cleans up after itself: however the run ends - a listener, a link, the
    self-registration or the coordination failing, the coordination stopping, the
    context ending - no device of the run stays open and the listener can be started
    again. A run that ends without error had its overlay address on the mesh device
    and both devices up, was registered under the key of its mesh device when it
    hosts a control plane, and ended because of its context. *)
Theorem master_run_clean e cfg m a w (l : L) s :
  NewMaster e cfg = Ok m → world_ok w →
  let '(out, r) := master_Run (A := A) clock a m w l s in
  w_open (mn_world r) = w_open w ∧ dl_started (ms_listener (mn_master r)) = false ∧
  (out = Ok () → links_ready m (mn_links r) ∧
     (is_Some (ma_Coordination cfg) → self_registered m (ra_stats a) (mn_server r) ∧ ended_by_context (ra_wait a))).
Proof.
  intros Hm Hw. apply NewMaster_fields in Hm as (Hn & _ & _ & _ & Hc). apply (NewDualListener_inv _ _ w) in Hn as [Hl Hst]; [|done].
  unfold master_Run. pose proof (dl_inv_step _ _ _ _ Hl (step_Start (ra_start a) (ms_listener m) w)) as Hi.
  destruct (DualListener.Start _ _ w) as [[[[]|err] listener] w1] eqn:Est; cbn [fst snd] in Hi.
  2: { apply Start_spec in Est as [_ [-> Ho]]; [|done]. done. }
  set (m1 := set_listener m listener).
  pose proof (master_Close_spec _ _ a m1 w1 Hi) as Hclose. destruct (master_Close a m1 w1) as [[closeErr m2] w2].
  destruct Hclose as (Ho & Hs & _).
  destruct (configureLinks (ra_links a) m1 l) as [[[]|err] l1] eqn:Elinks; [|done].
  assert (links_ready m l1) as Hready.
  { apply configureLinks_ok in Elinks. destruct Hi as (Hcfg & _). unfold links_ready, mesh_iface, client_iface in *. cbn in Elinks.
    by rewrite Hcfg in Elinks. }
  destruct (match ms_coordination m1 with Some _ => _ | None => _ end) as [[[]|err] s1] eqn:Eself; [|done].
  assert (is_Some (ma_Coordination cfg) → self_registered m (ra_stats a) s1) as Hself.
  { intros Hsome. apply Hc in Hsome as [d Hd]. cbn [ms_coordination m1 set_listener] in Eself. rewrite Hd in Eself.
    by apply selfRegister_ok in Eself. }
  destruct (bool_decide (is_Some (ms_coordination m1)) && negb (ra_coordination a)); [done|].
  case_bool_decide as Hco; cbn [ms_coordination m1 set_listener] in Hco.
  - destruct (ra_wait a) as [|[err|] [|]]; cbn [mn_world mn_master mn_links mn_server ended_by_context]; split_and!; try done;
      intros _; split; auto.
  - cbn [mn_world mn_master mn_links mn_server]. split_and!; [done|done|]. intros _. split; [done|]. intros Hsome. by apply Hc in Hsome.
Qed.
End Run.

(** ** Registration with the master as observer *)

Section Observer.
Context (clock : nat → string → time).

(** The node the observer of a registration is called with, if it is called: the one
    that would be accepted without an observer. *)
Definition observed (req : RegisterNodeRequest) (s : Server) : option RegisteredNode :=
  let '(resp, s') := RegisterNode clock None req s in
  if rs_Accepted resp then registry_Lookup (sv_registry s') (rq_NodeName req) else None.

(** A registration ends the same way under every observer, or reaches the observer. *)
Lemma RegisterNode_reaches req s :
  (∃ out, (∀ o, RegisterNode clock o req s = out) ∧ rs_Accepted out.1 = false) ∨
  (∃ saved s2, registry_Lookup (sv_registry s2) (rq_NodeName req) = Some saved ∧ ∀ o, RegisterNode clock o req s =
     match notifyRegistrationObserver o saved with
     | Err e => reject_and_remove clock (rq_NodeName req) e s2
     | Ok _ => (do* audit clock "register" (rq_NodeName req) (DRegister (rq_Roles req) (rq_OverlayIp req) (rq_Region req));
                ret (MkRegisterNodeResponse true None (Unix (rn_RegisteredAt saved)))) s2
     end).
Proof.
  assert (∀ e s2, rs_Accepted (reject_and_remove clock (rq_NodeName req) e s2).1 = false) as Hrej.
  { intros e s2. pose proof (reject_and_remove_run clock (rq_NodeName req) e s2) as H. destruct (reject_and_remove _ _ _ _). apply H. }
  unfold RegisterNode. destruct (bool_decide (rq_NodeName req = "")); [left; by eexists|].
  unfold bind, Now.
  destruct (on_registry _ _) as [[[]|e] s1] eqn:E1; [|left; by eexists].
  set (owned := if is_master (requested_node req) then _ else _). 
  destruct (owned s1) as [[v|e] s2] eqn:E2; [|left; eexists; split; [reflexivity|apply Hrej]]. clear owned E2.
  unfold get_registry. destruct (registry_Lookup _ _) as [saved|] eqn:E3; [|left; by eexists].
  pose proof (sd_registry _ _ (seeds_registration clock saved s2)) as Hs.
  destruct (seedRegistrationOwnership clock saved s2) as [[[]|e] s3]; [|left; eexists; split; [reflexivity|apply Hrej]].
  right. exists saved, s3. cbn [snd] in Hs. rewrite Hs. split; [done|]. intros o. by destruct (notifyRegistrationObserver o saved).
Qed.

(** An observer decides about that node and nothing else. *)
Lemma RegisterNode_observed f req s :
  match observed req s with
  | None => RegisterNode clock (Some f) req s = RegisterNode clock None req s
  | Some node =>
      match f node with
      | None => RegisterNode clock (Some f) req s = RegisterNode clock None req s
      | Some _ => rs_Accepted (RegisterNode clock (Some f) req s).1 = false ∧
          rg_byName (sv_registry (RegisterNode clock (Some f) req s).2) !! rq_NodeName req = None
      end
  end.
Proof.
  unfold observed. destruct (RegisterNode_reaches req s) as [(out & Ho & Ha)|(saved & s2 & Hl & Ho)]; rewrite !Ho.
  { destruct out as [resp s']. cbn in Ha. by rewrite Ha. }
  cbn -[reject_and_remove registry_Lookup Append]. rewrite Hl.
  destruct (f saved) as [e|]; [|done].
  pose proof (reject_and_remove_run clock (rq_NodeName req) (EObserver e) s2) as H. destruct (reject_and_remove _ _ _ s2). tauto.
Qed.
End Observer.

(** ** The mesh device

    What WireGuard documents of the peers of a device: a request that replaces the
    allowed IPs of a peer leaves it with exactly those, and takes them from any other
    peer that had them; other peers and other networks are untouched. *)

Class MeshDevice (D : Type) := {
  md_ips : D → Key → option (list IPNet);       (* the allowed IPs of a peer *)
  md_set : PeerConfig → D → D;
  md_set_own : ∀ p d, pc_Remove p = false → pc_UpdateOnly p = false → pc_ReplaceAllowedIPs p = true →
    md_ips (md_set p d) (pc_PublicKey p) = Some (pc_AllowedIPs p);
  md_set_other : ∀ p d k ips, k ≠ pc_PublicKey p → md_ips d k = Some ips → (∀ n, n ∈ ips → n ∉ pc_AllowedIPs p) →
    md_ips (md_set p d) k = Some ips
}.

(** The peers a device was asked to add between two states of the world. *)
Definition new_peers (w w' : world) : list PeerConfig :=
  omap (λ ev, match ev with EvAddPeer _ p => Some p | _ => None end) (drop (length (w_log w)) (w_log w')).

Section System.
(** The clock never reads Go's zero time. *)
Context (clock : nat → string → time) (Hclock : ∀ n label, clock n label ≠ 0) (ResolveUDPAddr : string → option UDPAddr) {L A : Type} `{!LinkConfigurator L A}.
Context {D : Type} `{!MeshDevice D}.
(** How an error of the observer is printed. *)
Context (describe : peer_error → string) (m : Master).

Record mesh_state := MkMeshState { mt_server : Server; mt_world : world; mt_device : D; mt_links : L }.
Notation name := (ma_Name (ms_cfg m)).
Notation apply e node := (applyRegisteredMeshPeer (A := A) ResolveUDPAddr e (ms_listener m) name (ms_overlayAddress m) node).

(** The mesh device after the requests of one call. *)
Definition device_after (e : peer_env (A := A)) (w w' : world) (d : D) : D :=
  if pa_add e || pa_took e then foldl (λ d p, md_set p d) d (new_peers w w') else d.

(** [RegisterNode] of the control plane a running master hosts. *)
Definition master_register (e : peer_env (A := A)) (req : RegisterNodeRequest) (st : mesh_state) : RegisterNodeResponse * mesh_state :=
  let '(r, w, l) := match observed clock req (mt_server st) with
                    | Some node => apply e node (mt_world st) (mt_links st)
                    | None => (Ok (), mt_world st, mt_links st)
                    end in
  let '(resp, s) := RegisterNode clock (Some (λ _, match r with Ok _ => None | Err err => Some (describe err) end)) req (mt_server st) in
  (resp, MkMeshState s w (device_after e (mt_world st) w (mt_device st)) l).
Definition master_decommission (node : string) (st : mesh_state) : DecommissionResponse * mesh_state :=
  let '(resp, s) := DecommissionNode clock node (mt_server st) in (resp, MkMeshState s (mt_world st) (mt_device st) (mt_links st)).

(** An overlay address in the spelling Go prints it in. *)
Definition canonical (ip : string) : Prop := ∀ n, parseMasterOverlayAddress ip = Some n → ip = ip_string (ip_of n).
(** No other registered node has the public key the request carries. *)
Definition key_free (req : RegisterNodeRequest) (s : Server) : Prop := ∀ n node,
  rg_byName (sv_registry s) !! n = Some node → n ≠ rq_NodeName req → rq_Pubkey req ≠ "" → rn_Pubkey node ≠ rq_Pubkey req.

Inductive mesh_step : mesh_state → mesh_state → Prop :=
  | step_register e req st : canonical (rq_OverlayIp req) → key_free req (mt_server st) → mesh_step st (master_register e req st).2
  | step_decommission node st : mesh_step st (master_decommission node st).2.

(** The node is a peer of the mesh device with its overlay address as only allowed
    IP, and the kernel routes that address to the device. *)
Definition connected (node : RegisteredNode) (d : D) (l : L) : Prop :=
  ∃ overlay, parseMasterOverlayAddress (rn_OverlayIP node) = Some overlay ∧
    length (to_bytes (rn_Pubkey node)) = key_size ∧ md_ips d (to_bytes (rn_Pubkey node)) = Some [overlay] ∧
    routed l overlay (mesh_iface m) (ip_of (ms_overlayAddress m)).

Lemma new_peers_none w : new_peers w w = [].
Proof. unfold new_peers. by rewrite drop_all. Qed.
Lemma new_peers_one id p w : new_peers w (add_peer id p w) = [p].
Proof. unfold new_peers, add_peer. cbn [w_log]. by rewrite drop_app_length. Qed.

(** One call asks the device for at most the peer of this node; it succeeds only with
    the peer added and routed. *)
Lemma apply_cases e node w l : let '(r, w', l') := apply e node w l in
  (∀ d, routed l d (mesh_iface m) (ip_of (ms_overlayAddress m)) → routed l' d (mesh_iface m) (ip_of (ms_overlayAddress m))) ∧
  (new_peers w w' = [] ∨ ∃ overlay endpoint, parseMasterOverlayAddress (rn_OverlayIP node) = Some overlay ∧
     new_peers w w' = [mesh_peer node overlay endpoint]) ∧
  (r = Ok () → not_a_peer name node = false → pa_add e = true ∧ length (to_bytes (rn_Pubkey node)) = key_size ∧
     ∃ overlay endpoint, parseMasterOverlayAddress (rn_OverlayIP node) = Some overlay ∧
       new_peers w w' = [mesh_peer node overlay endpoint] ∧ routed l' overlay (mesh_iface m) (ip_of (ms_overlayAddress m))).
Proof.
  unfold applyRegisteredMeshPeer.
  destruct (not_a_peer name node); [rewrite new_peers_none; split_and!; [auto|auto|done]|].
  destruct (decide (length (to_bytes (rn_Pubkey node)) = key_size)) as [Hlen|Hlen];
    [rewrite (bool_decide_eq_true_2 _ Hlen)|rewrite (bool_decide_eq_false_2 _ Hlen)]; cbn [negb]; cycle 1.
  { rewrite new_peers_none; split_and!; [auto|auto|done]. }
  destruct (parseMasterOverlayAddress _) as [overlay|] eqn:Hp; [|rewrite new_peers_none; split_and!; [auto|auto|done]].
  destruct (if bool_decide (TrimSpace (rn_EndpointHost node) = "") then _ else _) as [endpoint|];
    [|rewrite new_peers_none; split_and!; [auto|auto|done]].
  unfold AddMeshPeer. destruct (dl_mesh (ms_listener m)) as [id|]; [|rewrite new_peers_none; split_and!; [auto|auto|done]].
  destruct (pa_add e); [|rewrite new_peers_one; split_and!; [auto|right; by eexists _, _|done]].
  cbn [Snapshot sn_MeshInterfaceName]. fold (mesh_iface m).
  destruct (lc_RouteReplaceLinkWithSrc _ _ _ _ l) as [[[]|err] l'] eqn:Hr; rewrite new_peers_one.
  - apply lc_Route_ok in Hr as Hok. split_and!; [|right; by eexists _, _|].
    + intros d Hd. destruct (decide (d = overlay)) as [->|Hne]; [done|].
      pose proof (lc_Route_other (pa_route e) overlay (mesh_iface m) (ip_of (ms_overlayAddress m)) l d (mesh_iface m)
        (ip_of (ms_overlayAddress m)) Hne) as H. rewrite Hr in H. by apply H.
    + intros _ _. split_and!; [done|done|]. by eexists _, _.
  - apply lc_Route_err in Hr as ->. split_and!; [auto|right; by eexists _, _|done].
Qed.

(** What is kept over a run. *)
Record mesh_inv (st : mesh_state) : Prop := {
  mi_registry : registry_wf (sv_registry (mt_server st));
  mi_keys : ∀ n1 n2 x y, rg_byName (sv_registry (mt_server st)) !! n1 = Some x → rg_byName (sv_registry (mt_server st)) !! n2 = Some y →
    n1 ≠ n2 → rn_Pubkey x ≠ "" → rn_Pubkey x ≠ rn_Pubkey y;
  mi_canonical : ∀ n node, rg_byName (sv_registry (mt_server st)) !! n = Some node → not_a_peer name node = false → canonical (rn_OverlayIP node);
  mi_connected : ∀ n node, rg_byName (sv_registry (mt_server st)) !! n = Some node → not_a_peer name node = false →
    connected node (mt_device st) (mt_links st)
}.

(** Adding one node leaves a connected node with another key and address connected. *)
Lemma connected_kept e node node' overlay endpoint w w' d l l' :
  (∀ d, routed l d (mesh_iface m) (ip_of (ms_overlayAddress m)) → routed l' d (mesh_iface m) (ip_of (ms_overlayAddress m))) →
  new_peers w w' = [mesh_peer node overlay endpoint] → rn_Pubkey node' ≠ rn_Pubkey node →
  parseMasterOverlayAddress (rn_OverlayIP node') ≠ Some overlay →
  connected node' d l → connected node' (device_after e w w' d) l'.
Proof.
  intros Hl Hnew Hkey Hip (o & Hp & Hlen & Hd & Hr). exists o. split_and!; [done..| |by apply Hl].
  unfold device_after. destruct (_ || _); [|done]. rewrite Hnew. cbn [foldl]. apply md_set_other; [|done|].
  - cbn. intros E. apply Hkey. by rewrite <- (of_to_bytes (rn_Pubkey node')), E, of_to_bytes.
  - intros n ->%list_elem_of_singleton. cbn. intros ->%list_elem_of_singleton. by apply Hip.
Qed.

(** The node an observer sees: the request's, with the key of its predecessor when the
    request has none, at an address of its own. *)
Lemma observed_node req s node : registry_wf (sv_registry s) → observed clock req s = Some node →
  rn_OverlayIP node = rq_OverlayIp req ∧
  (rn_Pubkey node = rq_Pubkey req ∨ rq_Pubkey req = "" ∧ ∃ old, rg_byName (sv_registry s) !! rq_NodeName req = Some old ∧ rn_Pubkey node = rn_Pubkey old) ∧
  ∀ n x, rg_byName (sv_registry s) !! n = Some x → n ≠ rq_NodeName req → rn_OverlayIP x ≠ rn_OverlayIP node.
Proof.
  intros Hwf. unfold observed. pose proof (RegisterNode_full clock None req s) as Hrun.
  pose proof (rc_registry _ _ (handles_RegisterNode clock None Hclock req s) Hwf) as Hwf'.
  destruct (RegisterNode clock None req s) as [resp s']. destruct Hrun as (Hoth & _ & Hres). cbn [snd] in Hwf'.
  destruct (rs_Accepted resp); [|done]. destruct Hres as ((now & Hn) & _). unfold registry_Lookup. rewrite Hn. intros [= <-].
  destruct (registered_identity now (requested_node req) (rg_byName (sv_registry s) !! rq_NodeName req)) as (_ & _ & E & _).
  split_and!; [done| |].
  - unfold registered. destruct (rg_byName (sv_registry s) !! rq_NodeName req) as [old|]; [|by left].
    assert (or_else (rq_Pubkey req) (rn_Pubkey old) = rq_Pubkey req ∨ rq_Pubkey req = "" ∧ or_else (rq_Pubkey req) (rn_Pubkey old) = rn_Pubkey old) as H
      by (unfold or_else; case_bool_decide; auto).
    destruct (certBytesEqual _ _); cbn [inherit set_cert_rollover requested_node rn_Pubkey]; (destruct H as [H|[H1 H]]; [by left|right; split; [done|]; by exists old]).
  - intros n x Hx Hne Eq. apply Hne. rewrite <- Hoth in Hx by done. by apply (overlay_unique _ _ _ _ _ Hwf' Hx Hn).
Qed.

(** A registration decided by an observer: others are untouched; an accepted one stores
    the observed node, and only if the observer agreed. *)
Lemma register_decided (r : res peer_error unit) req s :
  let f := λ _ : RegisteredNode, match r with Ok _ => None | Err err => Some (describe err) end in
  let s' := (RegisterNode clock (Some f) req s).2 in
  (∀ n, n ≠ rq_NodeName req → rg_byName (sv_registry s') !! n = rg_byName (sv_registry s) !! n) ∧
  (∀ node, rg_byName (sv_registry s') !! rq_NodeName req = Some node →
    rg_byName (sv_registry s) !! rq_NodeName req = Some node ∧ observed clock req s = None ∨
    observed clock req s = Some node ∧ r = Ok ()).
Proof.
  cbv zeta. pose proof (RegisterNode_observed clock (λ _, match r with Ok _ => None | Err err => Some (describe err) end) req s) as Hobs.
  pose proof (RegisterNode_run clock (Some (λ _, match r with Ok _ => None | Err err => Some (describe err) end)) req s) as Hrun.
  destruct (RegisterNode clock (Some _) req s) as [resp s'] eqn:Hreg. destruct Hrun as (Hoth & _ & Hres). cbn [snd fst] in *.
  split; [done|]. intros node Hn. destruct (observed clock req s) as [node0|] eqn:Ho.
  - right. destruct r as [[]|err]; [|destruct Hobs; congruence]. split; [|done]. rewrite <- Ho. unfold observed in Ho |- *. rewrite <- Hobs in Ho |- *.
    destruct (rs_Accepted resp); [|done]. unfold registry_Lookup. by rewrite Hn.
  - left. split; [|done]. unfold observed in Ho. rewrite <- Hobs in Ho. destruct (rs_Accepted resp).
    + unfold registry_Lookup in Ho. by rewrite Hn in Ho.
    + destruct Hres as [Hres|Hres]; congruence.
Qed.

Lemma register_inv e req st : canonical (rq_OverlayIp req) → key_free req (mt_server st) → mesh_inv st → mesh_inv (master_register e req st).2.
Proof.
  intros Hcan Hfree [Hwf Hkeys Hcans Hconn]. unfold master_register. set (s := mt_server st) in *.
  set (a := match observed clock req s with Some node => _ | None => _ end).
  destruct a as [[r w'] l'] eqn:Ea. subst a.
  pose proof (register_decided r req s) as [Hoth Hown].
  pose proof (rc_registry _ _ (handles_RegisterNode clock (Some (λ _, match r with Ok _ => None | Err err => Some (describe err) end)) Hclock req s) Hwf) as Hwf'.
  destruct (RegisterNode clock (Some _) req s) as [resp s']. cbn [snd] in Hoth, Hown, Hwf'.
  assert (∀ n x, rg_byName (sv_registry s) !! n = Some x → not_a_peer name x = false →
    n ≠ rq_NodeName req ∨ observed clock req s = None → connected x (device_after e (mt_world st) w' (mt_device st)) l') as Hold.
  { intros n x Hx Hp Hor. destruct (observed clock req s) as [node|] eqn:Ho.
    2: { injection Ea as _ <- <-. pose proof (Hconn n x Hx Hp) as H. unfold device_after. rewrite new_peers_none. by destruct (_ || _). }
    destruct Hor as [Hne|]; [|done]. destruct (observed_node req s node Hwf Ho) as (Eip & Hpk & Hips).
    pose proof (apply_cases e node (mt_world st) (mt_links st)) as Hap. rewrite Ea in Hap. destruct Hap as (Hr & Hnp & _).
    destruct Hnp as [Hnp|(o & ep & Hparse & Hnp)].
    { destruct (Hconn n x Hx Hp) as (o & H1 & H2 & H3 & H4). exists o. split_and!; [done..| |by apply Hr].
      unfold device_after. rewrite Hnp. by destruct (_ || _). }
    eapply connected_kept; [exact Hr|exact Hnp| | |by apply (Hconn n)].
    - destruct (Hconn n x Hx Hp) as (_ & _ & Hlen & _). assert (rn_Pubkey x ≠ "") as Hxk by (intros E; by rewrite E in Hlen).
      destruct Hpk as [-> |(_ & old & Hold & ->)].
      + intros E. apply (Hfree n x Hx Hne); congruence.
      + by apply (Hkeys n (rq_NodeName req)).
    - intros Hpx. apply (Hips n x Hx Hne). rewrite (Hcans n x Hx Hp _ Hpx). rewrite Eip in Hparse |- *. by rewrite (Hcan _ Hparse). }
  constructor; cbn [mt_server mt_device mt_links]; [done| | |].
  - intros n1 n2 x y H1 H2 Hne Hk.
    assert (∀ n z, rg_byName (sv_registry s') !! n = Some z → (n ≠ rq_NodeName req ∧ rg_byName (sv_registry s) !! n = Some z) ∨
      n = rq_NodeName req ∧ (rg_byName (sv_registry s) !! n = Some z ∨ observed clock req s = Some z)) as Hc.
    { intros n z Hz. destruct (decide (n = rq_NodeName req)) as [->|Hn]; [|left; by rewrite <- (Hoth n Hn)].
      right. split; [done|]. destruct (Hown z Hz) as [[? _]|[? _]]; auto. }
    assert (∀ n z u, n ≠ rq_NodeName req → rg_byName (sv_registry s) !! n = Some z → observed clock req s = Some u →
      rn_Pubkey u ≠ "" → rn_Pubkey u ≠ rn_Pubkey z) as Hnew.
    { intros n z u Hn Hz Ho Hu. destruct (observed_node req s u Hwf Ho) as (_ & [E|(_ & old & Hold' & E)] & _).
      - rewrite E in *. intros E2. by apply (Hfree n z Hz Hn).
      - rewrite E in *. by apply (Hkeys (rq_NodeName req) n). }
    destruct (Hc _ _ H1) as [[A1 A2]|[-> [A2|A2]]], (Hc _ _ H2) as [[B1 B2]|[-> [B2|B2]]]; try done; try (by eapply Hkeys).
    + intros E. by apply (Hnew n1 x y A1 A2 B2); congruence.
    + by apply (Hnew n2 y x B1 B2 A2).
  - intros n node Hn Hp. destruct (decide (n = rq_NodeName req)) as [->|Hne]; [|rewrite Hoth in Hn by done; by apply (Hcans n)].
    destruct (Hown node Hn) as [[Hs _]|[Ho _]]; [by apply (Hcans (rq_NodeName req))|].
    destruct (observed_node req s node Hwf Ho) as (-> & _). done.
  - intros n node Hn Hp. destruct (decide (n = rq_NodeName req)) as [->|Hne].
    2: { rewrite Hoth in Hn by done. apply (Hold n); auto. }
    destruct (Hown node Hn) as [[Hs Hno]|[Ho ->]]; [apply (Hold (rq_NodeName req)); auto|].
    rewrite Ho in Ea. pose proof (apply_cases e node (mt_world st) (mt_links st)) as Hap. rewrite Ea in Hap.
    destruct Hap as (_ & _ & Hok). destruct (Hok eq_refl Hp) as (Hadd & Hlen & o & ep & Hparse & Hnp & Hr).
    exists o. split_and!; [done..| |done]. unfold device_after. rewrite Hadd, Hnp. cbn [orb foldl].
    apply (md_set_own (mesh_peer node o ep) (mt_device st)); done.
Qed.

Lemma DecommissionNode_registry x s n node :
  rg_byName (sv_registry (DecommissionNode clock x s).2) !! n = Some node → rg_byName (sv_registry s) !! n = Some node.
Proof.
  unfold DecommissionNode. destruct (bool_decide (x = "")); [done|]. unfold bind at 1, get_registry.
  destruct (registry_Lookup _ x) as [target|]; [|done]. unfold bind at 1, get_ledger.
  destruct (_ && _); [done|]. unfold bind at 1.
  match goal with |- context [on_ledger ?op s] => pose proof (on_ledger_run op s) as (_ & Hr & _); destruct (on_ledger op s) as [[count err] s1] end.
  cbn [snd] in Hr. unfold bind at 1, Now at 1. destruct err as [e|]; [cbn; by rewrite Hr|].
  set (s2 := MkServer _ _ _ _ _ _). unfold bind at 1. pose proof (on_registry_run (registry_Remove x) s2) as Hrm.
  change (sv_registry s2) with (sv_registry s1) in Hrm. rewrite Hr in Hrm. unfold registry_Remove in Hrm at 1.
  destruct (rg_byName (sv_registry s) !! x) as [old|] eqn:Hx; [|rewrite Hrm; cbn; by rewrite Hr].
  destruct (on_registry _ s2) as [out s3]. cbn [fst snd] in Hrm. destruct Hrm as (-> & Hs3 & _). cbn. rewrite Hs3. cbn.
  intros H. by apply lookup_delete_Some in H as [_ H].
Qed.

Lemma mesh_step_inv st st' : mesh_step st st' → mesh_inv st → mesh_inv st'.
Proof.
  intros [e req s Hc Hf|x s] Hinv; [by apply register_inv|]. destruct Hinv as [H1 H2 H3 H4]. unfold master_decommission.
  pose proof (DecommissionNode_registry x (mt_server s)) as H.
  pose proof (rc_registry _ _ (handles_Decommission clock Hclock x (mt_server s)) H1) as Hwf.
  destruct (DecommissionNode _ _ _) as [resp s']. cbn [snd] in *. constructor; cbn [mt_server mt_device mt_links]; [done|..]; eauto.
Qed.

(** A node the mesh device must know: not the master, no master at all, speaking the
    mesh protocol or leaving it open, with a key. *)
Definition mesh_node (node : RegisteredNode) : Prop :=
  rn_Name node ≠ "" ∧ rn_Name node ≠ name ∧ RoleMaster ∉ rn_Roles node ∧
  (rn_Protocol node = "" ∨ rn_Protocol node = amnezia_text) ∧ rn_Pubkey node ≠ "".
Lemma mesh_node_iff node : not_a_peer name node = false ↔ mesh_node node.
Proof.
  unfold not_a_peer, mesh_node. rewrite !orb_false_iff, andb_false_iff, !negb_false_iff, !bool_decide_eq_false, !bool_decide_eq_true.
  assert (hasRole (rn_Roles node) RoleMaster = false ↔ RoleMaster ∉ rn_Roles node) as ->; [|tauto].
  unfold hasRole. rewrite <- not_true_iff_false, existsb_exists. split; intros H Hin; apply H.
  - exists RoleMaster. split; [by apply list_elem_of_In|by apply bool_decide_eq_true].
  - destruct Hin as (r & Hr & ->%bool_decide_eq_true). by apply list_elem_of_In.
Qed.

End System.

Lemma handles_own_registration clock node : handles (SelfRegister clock node).
Proof.
  unfold SelfRegister. apply handles_bind; [apply handles_Now|]. intros now.
  apply handles_bind; [apply handles_on_registry; intros ????; by eapply Register_wf|]. intros [|]; [|apply handles_ret].
  destruct (is_master node); [|apply handles_ret]. apply handles_bind; [apply handles_reassign|]. intros [|]; [|apply handles_ret].
  apply handles_bind; [apply handles_get_registry|]. intros r. apply handles_seed_all.
Qed.

(** ** A master *)

Definition demo_master_cfg : MasterConfig :=
  MkMasterConfig "m1" "10.0.0.1" "203.0.113.1:51821" DefaultDualListenerConfig
    (Some (MkMCConfig "127.0.0.1:51820" "/state" "" [] 0 16 false)) true.
Definition demo_pubkey (c : ascii) : string := of_bytes (replicate key_size c).
Definition demo_device : Device := MkDevice "wg-mesh" (replicate key_size "p"%char) (replicate key_size "m"%char) 51821 0 true [].
Definition demo_links : net_state := MkNetState {[ "wg-clients" := 4; "wg-mesh" := 5 ]} [] ∅ ∅.
Definition demo_answers (wait : wait_end) : run_answers :=
  MkRunAnswers all_ok (MkLinksEnv true true true) (Some demo_device) true wait true true.
Notation demo_run_of wait := (λ m, master_Run demo_clock (demo_answers wait) m world0 demo_links (fresh_server 16)).

(** A run that its context ends, and one whose coordination stops by itself. *)
Lemma master_run_clean_witness : ∃ m, NewMaster bare_env demo_master_cfg = Ok m ∧
  (let '(out, r) := demo_run_of ContextDone m in out = Ok () ∧ w_open (mn_world r) = ∅ ∧ self_registered m (Some demo_device) (mn_server r)) ∧
  (let '(out, r) := demo_run_of (CoordinationDone None false) m in
   out = Err (ErrMasterStopped None (Ok ())) ∧ w_open (mn_world r) = ∅ ∧ length (w_log (mn_world r)) = 6%nat).
Proof.
  destruct (NewMaster bare_env demo_master_cfg) as [m|err] eqn:Hm; [|by vm_compute in Hm]. exists m. split; [done|].
  assert (world_ok world0) as Hw by (intros id Hid; cbn in Hid; set_solver).
  split.
  - pose proof (master_run_clean demo_clock bare_env demo_master_cfg m (demo_answers ContextDone) world0 demo_links (fresh_server 16) Hm Hw) as H.
    destruct (master_Run _ _ _ _ _ _) as [out r] eqn:Hr. destruct H as (Ho & _ & Hok).
    assert (out = Ok ()) as ->.
    { vm_compute in Hm. injection Hm as <-. vm_compute in Hr. by injection Hr as <- _. }
    split_and!; [done|done|]. apply Hok; [done|]. by eexists.
  - vm_compute in Hm. injection Hm as <-. by vm_compute.
Defined.

(** The same master after it started: its listener holds devices 0 and 1. *)
Definition demo_overlay : IPNet := MkIPNet true 167772161 32.
Definition demo_running : Master :=
  MkMaster (MkMasterConfig "m1" "10.0.0.1" "203.0.113.1:51821" DefaultDualListenerConfig (ma_Coordination demo_master_cfg) true)
    demo_overlay (MkDL DefaultDualListenerConfig (Some 0%nat) (Some 1%nat) true) None.
(** A device that keeps its peers in a map. *)
Definition map_ips (d : gmap Key (list IPNet)) (k : Key) : option (list IPNet) := d !! k.
Definition map_set (p : PeerConfig) (d : gmap Key (list IPNet)) : gmap Key (list IPNet) :=
  if pc_Remove p then delete (pc_PublicKey p) d else
  if pc_UpdateOnly p && bool_decide (d !! pc_PublicKey p = None) then d else
  let others := filter (λ n, n ∉ pc_AllowedIPs p) <$> d in
  <[pc_PublicKey p := (if pc_ReplaceAllowedIPs p then [] else default [] (others !! pc_PublicKey p)) ++ pc_AllowedIPs p]> others.
#[global, program] Instance map_device : MeshDevice (gmap Key (list IPNet)) := {| md_ips := map_ips; md_set := map_set |}.
Next Obligation.
  intros p d H1 H2 H3. unfold map_ips, map_set. rewrite H1, H2, H3. cbn [andb app]. apply lookup_insert_eq.
Qed.
Next Obligation.
  intros p d k ips Hne Hk Hips. unfold map_ips, map_set in *. destruct (pc_Remove p); [by rewrite lookup_delete_ne|].
  destruct (_ && _); [done|]. cbv zeta. rewrite lookup_insert_ne by done. rewrite lookup_fmap, Hk. cbn. f_equal.
  apply filter_all. apply Forall_forall. intros n Hn. by apply Hips.
Qed.

Definition demo_mesh : mesh_state (L := net_state) (D := gmap Key (list IPNet)) :=
  MkMeshState (SelfRegister demo_clock (self_node demo_running (dv_PublicKey demo_device)) (fresh_server 16)).2
    (MkWorld {[ 0%nat; 1%nat ]} 2 []) ∅ demo_links.
Definition demo_client_request : RegisterNodeRequest :=
  MkRegisterNodeRequest "c1" [RoleClient] "10.0.0.9" "eu" "PEM" "1" (demo_pubkey "c") "" amnezia_text.
Notation demo_register_with e req st := (master_register demo_clock resolve_literal (λ _, "peer") demo_running e req st).


(** Nothing checks that a public key is new: a second node that registers with the key
    of the first is accepted, and the first is no longer reachable, although it is
    still registered: the peer of the device now carries the second one's address. *)
Theorem shared_key_disconnects :
  let '(r1, st1) := demo_register_with (MkPeerEnv true true true) demo_client_request demo_mesh in
  let '(r2, st2) := demo_register_with (MkPeerEnv true true true)
    (MkRegisterNodeRequest "c2" [RoleClient] "10.0.0.10" "eu" "PEM2" "1" (demo_pubkey "c") "" amnezia_text) st1 in
  rs_Accepted r1 = true ∧ rs_Accepted r2 = true ∧
  rn_OverlayIP <$> rg_byName (sv_registry (mt_server st2)) !! "c1" = Some "10.0.0.9" ∧
  md_ips (mt_device st2) (to_bytes (demo_pubkey "c")) = (λ n, [n]) <$> parseMasterOverlayAddress "10.0.0.10".
Proof. vm_compute. split_and!; reflexivity. Qed.

(** The pin of the master's own registration is a constant of the program: any node
    may register under the master's name with the text in place of a certificate, and
    the peer lists then carry its key in the place of the master's. *)
Theorem self_registration_is_not_pinned :
  let '(resp, st) := demo_register_with (MkPeerEnv true true true)
    (MkRegisterNodeRequest "m1" [RoleMaster] "10.0.0.1" "eu" self_cert "1" (demo_pubkey "x") "198.51.100.1:51821" amnezia_text) demo_mesh in
  rs_Accepted resp = true ∧
  ∃ u, (peer_list_now "c1" (mt_server st)).1 = Ok u ∧
    (λ p, (pe_PeerName p, pe_PeerPubkey p, pe_AllowedIps p)) <$> pu_Peers u = [("m1", demo_pubkey "x", ["10.0.0.1/32"])].
Proof. vm_compute. split; [reflexivity|]. eexists. split; reflexivity. Qed.

(** A node that is rejected because its route fails has left the registry and stays a
    peer of the mesh device. *)
Theorem rejected_node_stays_a_peer :
  let '(resp, st) := demo_register_with (MkPeerEnv true true false) demo_client_request demo_mesh in
  rs_Accepted resp = false ∧ rg_byName (sv_registry (mt_server st)) !! "c1" = None ∧
  md_ips (mt_device st) (to_bytes (demo_pubkey "c")) = (λ n, [n]) <$> parseMasterOverlayAddress "10.0.0.9".
Proof. vm_compute. split_and!; reflexivity. Qed.
