(* ===== verification/ComposeMigrate.v ===== *)
(** * Compose file migration ([src/pkg/upgrade/compose_migrate.go])

    Old compose files are read line by line and rewritten in the current layout. The
    YAML decoder is not part of the program: what it makes of a file, its services in
    the order the code visits them (Go's map order, any), is an argument of the
    operations. Of the decoder the migration's theorem assumes one thing
    ([decoder_law]): a file that mentions no command has none. *)

From S2P Require Import Prelude GoStrings GoNet GoPath GoText.

(** ** Schemas *)

Inductive SchemaVersion := SchemaUnknown | Schema_v151 | Schema_v160 | Schema_v190 | SchemaCurrent.
#[global] Instance SchemaVersion_eq_dec : EqDecision SchemaVersion.
Proof. solve_decision. Defined.

Definition schema_String (s : SchemaVersion) : string :=
  match s with
  | Schema_v151 => "v1.5.1" | Schema_v160 => "v1.6.0" | Schema_v190 => "v1.9.0" | SchemaCurrent => "current"
  | SchemaUnknown => "unknown"
  end.

Inductive compose_error :=
  | ErrSchemaName (s : string)
  | ErrComposeEmpty
  | ErrUndetected (hash command configDir : bool)
  | ErrUnknownSchema
  | ErrMissingName (from : SchemaVersion).

Definition ParseSchemaVersion (s : string) : res compose_error SchemaVersion :=
  let t := TrimSpace s in
  if bool_decide (t = "v1.5.1") then Ok Schema_v151 else
  if bool_decide (t = "v1.6.0") then Ok Schema_v160 else
  if bool_decide (t = "v1.9.0") then Ok Schema_v190 else
  if bool_decide (t = "current") then Ok SchemaCurrent else Err (ErrSchemaName s).

(** ** The decoded file *)

(** A value of any type: nil, text, a list of some length, or something else. *)
Inductive yaml_value := YamlNil | YamlText (s : string) | YamlList (len : nat) | YamlOther.
(** The fields the code reads. *)
Record composeService := MkService { cs_Image : string; cs_Command : yaml_value; cs_Restart : string }.
(** The services; [None] when the text does not decode. *)
Definition composeDoc : Type := option (list composeService).

Fixpoint services_have_command (services : list composeService) : bool :=
  match services with
  | [] => false
  | svc :: services =>
      match cs_Command svc with
      | YamlText v => negb (bool_decide (TrimSpace v = ""))
      | YamlList len => bool_decide (0 < len)%nat
      | YamlNil | YamlOther => services_have_command services
      end
  end.
Definition hasCommandBlock (doc : composeDoc) (data : string) : bool :=
  match doc with
  | None => Contains data "command:"
  | Some services => services_have_command services
  end.

(** ** Detection *)

Definition line_has_key (key line : string) : bool :=
  let trimmed := TrimPrefix (TrimSpace line) "- " in
  HasPrefix trimmed (key +:+ "=") || bool_decide (trimmed = key) || HasPrefix trimmed (key +:+ ":").
Definition containsEnvKey (content key : string) : bool := existsb (line_has_key key) (split_lines content).

Definition DetectSchema (doc : composeDoc) (data : string) : res compose_error SchemaVersion :=
  if bool_decide (data = "") then Err ErrComposeEmpty else
  let hasPlainToken := containsEnvKey data "MESH_TOKEN" && negb (containsEnvKey data "MESH_TOKEN_HASH") in
  let hasHashToken := containsEnvKey data "MESH_TOKEN_HASH" in
  let hasCommand := hasCommandBlock doc data in
  let hasConfigDir := containsEnvKey data "MESH_CONFIG_DIR" in
  if hasPlainToken then Ok Schema_v151 else
  if hasHashToken && hasCommand then Ok Schema_v160 else
  if hasHashToken && negb hasCommand && negb hasConfigDir then Ok Schema_v190 else
  if hasHashToken && negb hasCommand && hasConfigDir then Ok SchemaCurrent else
  Err (ErrUndetected hasHashToken hasCommand hasConfigDir).

(** ** Extraction *)

Record extractedFields := MkFields {
  ef_Image : string; ef_Name : string; ef_OverlayIP : string; ef_ListenPort : string; ef_Mode : string;
  ef_TokenHash : string; ef_PlainToken : string; ef_Restart : string; ef_Comments : list string
}.

(** What one line gives for a key: [None] to go on. *)
Definition env_line (key line : string) : option string :=
  let trimmed := TrimSpace line in
  let withoutDash := TrimPrefix trimmed "- " in
  if HasPrefix withoutDash (key +:+ "=") then Some (TrimPrefix withoutDash (key +:+ "=")) else
  if HasPrefix trimmed (key +:+ ": ") then Some (TrimPrefix trimmed (key +:+ ": ")) else
  if bool_decide (trimmed = key +:+ ":") then Some "" else None.
Fixpoint env_lines (key : string) (lines : list string) : string :=
  match lines with
  | [] => ""
  | line :: lines => match env_line key line with Some v => v | None => env_lines key lines end
  end.
Definition extractEnvValue (content key : string) : string := env_lines key (split_lines content).

Fixpoint flag_value (flag : string) (parts : list string) : string :=
  match parts with
  | [] => ""
  | p :: rest =>
      if HasPrefix p (flag +:+ "=") then TrimPrefix p (flag +:+ "=") else
      match rest with
      | v :: _ => if bool_decide (p = flag) then v else flag_value flag rest
      | [] => flag_value flag rest
      end
  end.
Definition flagValueFromArgs (args flag : string) : string := flag_value flag (Fields args).

(** The scan of the command block: a value found in line, or the items collected. *)
Fixpoint command_scan (flag : string) (inCommand : bool) (items : list string) (lines : list string) : string + list string :=
  match lines with
  | [] => inr items
  | line :: lines =>
      let trimmed := TrimSpace line in
      if bool_decide (trimmed = "command:") || HasPrefix trimmed "command: " then
        let val := flagValueFromArgs (TrimSpace (TrimPrefix trimmed "command:")) flag in
        if negb (bool_decide (val = "")) then inl val else command_scan flag true items lines
      else if inCommand then
        if HasPrefix trimmed "- " then command_scan flag true (items ++ [TrimPrefix trimmed "- "]) lines else
        if negb (bool_decide (trimmed = "")) && negb (HasPrefix trimmed "#") then command_scan flag false items lines
        else command_scan flag true items lines
      else command_scan flag false items lines
  end.
Fixpoint search_items (flag : string) (items : list string) : string :=
  match items with
  | [] => ""
  | item :: rest =>
      let val := flagValueFromArgs item flag in
      if negb (bool_decide (val = "")) then val else
      match rest with
      | next :: _ =>
          let next := TrimSpace next in
          if bool_decide (TrimSpace item = flag) && negb (bool_decide (next = "")) && negb (HasPrefix next "-") then next
          else search_items flag rest
      | [] => search_items flag rest
      end
  end.
Definition extractCommandFlag (content flag : string) : string :=
  match command_scan flag false [] (split_lines content) with
  | inl val => val
  | inr items => search_items flag items
  end.

Definition quoted (q : ascii) (l : list ascii) : bool :=
  bool_decide (head l = Some q) && bool_decide (last l = Some q).
Definition stripQuotes (s : string) : string :=
  let l := to_bytes s in
  if bool_decide (2 ≤ length l)%nat && (quoted "034" l || quoted "'" l) then of_bytes (take (length l - 2) (drop 1 l)) else s.

(** The last non-empty value of a field, in the order of the visit. *)
Definition last_set (f : composeService → string) (services : list composeService) : string :=
  foldl (λ v svc, if bool_decide (f svc = "") then v else f svc) "" services.
Definition comment_lines (content : string) : list string :=
  List.filter (λ line, HasPrefix (TrimSpace line) "#") (split_lines content).

Definition extractFields (doc : composeDoc) (data : string) (fromSchema : SchemaVersion) : res compose_error extractedFields :=
  let restart := match doc with Some services => last_set cs_Restart services | None => "" end in
  let image := match doc with Some services => last_set cs_Image services | None => "" end in
  let restart := if bool_decide (restart = "") then "unless-stopped" else restart in
  let env key := stripQuotes (extractEnvValue data key) in
  let flag value name :=
    if (bool_decide (fromSchema = Schema_v151) || bool_decide (fromSchema = Schema_v160)) && bool_decide (value = "")
    then stripQuotes (extractCommandFlag data name) else value in
  let name := flag (env "MESH_NAME") "--name" in
  let overlayIP := flag (env "MESH_OVERLAY_IP") "--overlay-ip" in
  let listenPort := flag (env "MESH_LISTEN_PORT") "--listen-port" in
  let mode := flag (env "MESH_MODE") "--mode" in
  if bool_decide (name = "") then Err (ErrMissingName fromSchema) else
  Ok (MkFields image name overlayIP listenPort mode (env "MESH_TOKEN_HASH") (env "MESH_TOKEN") restart (comment_lines data)).

(** ** Rendering *)

Definition or_default (v d : string) : string := if bool_decide (v = "") then d else v.

(** The lines before the environment, of the token, of the node, and after. *)
Definition header_lines (f : extractedFields) : list string :=
  ["services:"; "  awg-mesh-node:"; "    image: " +:+ or_default (ef_Image f) "ghcr.io/coonfuuseed-paandaa/awg-mesh-node:latest";
   "    network_mode: host"; "    restart: " +:+ ef_Restart f; "    cap_add:"; "      - NET_ADMIN"; "      - NET_RAW"; "    devices:";
   "      - /dev/net/tun:/dev/net/tun"; "    environment:";
   "      # Bootstrap: written to /config/mesh.token on first boot, then ignored."].
Definition token_lines (f : extractedFields) : list string :=
  if negb (bool_decide (ef_TokenHash f = "")) then ["      - MESH_TOKEN_HASH=" +:+ ef_TokenHash f] else
  if negb (bool_decide (ef_PlainToken f = "")) then
    ["      # TODO: verify — MESH_TOKEN_HASH must be a bcrypt hash of the token.";
     "      # The original compose used the plain MESH_TOKEN; replace with the hashed value.";
     "      # Run: mesh-ctl token hash <your-token>  to get the correct hash.";
     "      - MESH_TOKEN_HASH=REPLACE_WITH_HASH"]
  else
    ["      # TODO: verify — MESH_TOKEN_HASH is missing from the source compose."; "      - MESH_TOKEN_HASH=REPLACE_WITH_HASH"].
Definition overlay_lines (f : extractedFields) : list string :=
  if negb (bool_decide (ef_OverlayIP f = "")) then ["      - MESH_OVERLAY_IP=" +:+ ef_OverlayIP f]
  else ["      # TODO: verify — MESH_OVERLAY_IP missing from source compose."; "      - MESH_OVERLAY_IP="].
Definition port_lines (f : extractedFields) : list string :=
  if negb (bool_decide (ef_ListenPort f = "")) then ["      - MESH_LISTEN_PORT=" +:+ ef_ListenPort f]
  else ["      # TODO: verify — MESH_LISTEN_PORT missing from source compose."; "      - MESH_LISTEN_PORT="].
Definition node_lines (f : extractedFields) : list string :=
  ["      - MESH_MODE=" +:+ or_default (ef_Mode f) "endpoint"; "      - MESH_NAME=" +:+ or_default (ef_Name f) "unknown"] ++
  overlay_lines f ++ port_lines f.
Definition tail_lines (f : extractedFields) (fromSchema : SchemaVersion) : list string :=
  ["      - MESH_CONFIG_DIR=/config"; "    volumes:"; "      - /var/lib/awg-mesh/" +:+ or_default (ef_Name f) "unknown" +:+ ":/config"] ++
  (if negb (bool_decide (fromSchema = SchemaCurrent))
   then ["    # Migrated from schema " +:+ schema_String fromSchema +:+ " by mesh-ctl upgrade compose"] else []).
Definition rendered_lines (f : extractedFields) (fromSchema : SchemaVersion) : list string :=
  (if bool_decide (ef_Comments f = []) then [] else ef_Comments f ++ [""]) ++
  header_lines f ++ token_lines f ++ node_lines f ++ tail_lines f fromSchema.
Definition renderCurrentSchema (f : extractedFields) (fromSchema : SchemaVersion) : string := unlines (rendered_lines f fromSchema).

Definition MigrateCompose (doc : composeDoc) (data : string) (fromSchema : SchemaVersion) : res compose_error string :=
  if bool_decide (fromSchema = SchemaCurrent) then Ok data else
  if bool_decide (fromSchema = SchemaUnknown) then Err ErrUnknownSchema else
  let! fields := extractFields doc data fromSchema in
  Ok (renderCurrentSchema fields fromSchema).

(** ** What the values are made of *)


Lemma split_byte_free c l : Forall (λ x, c ∉ x) (split_byte c l).
Proof.
  induction l as [|a l IH]; cbn [split_byte]; [by repeat constructor; apply not_elem_of_nil|].
  case_bool_decide as Ha; [constructor; [apply not_elem_of_nil|done]|].
  destruct (split_byte c l) as [|x xs]; [by repeat constructor; set_solver|].
  apply Forall_cons in IH as [Hx IH]. constructor; [set_solver|done].
Qed.
Lemma split_lines_one_line s : Forall one_line (split_lines s).
Proof.
  unfold split_lines. apply Forall_fmap. eapply Forall_impl; [apply split_byte_free|]. intros l H. unfold one_line. cbn. by rewrite to_of_bytes.
Qed.
Lemma one_line_TrimPrefix s p : one_line s → one_line (TrimPrefix s p).
Proof.
  unfold one_line, TrimPrefix, CutPrefix. destruct (HasPrefix s p); [|done]. cbn. rewrite to_of_bytes. intros H Hin. apply H.
  rewrite <- (take_drop (length (to_bytes p)) (to_bytes s)). apply elem_of_app. by right.
Qed.
Lemma one_line_stripQuotes s : one_line s → one_line (stripQuotes s).
Proof.
  unfold one_line, stripQuotes. destruct (_ && _); [|done]. rewrite to_of_bytes. intros H Hin. apply H.
  rewrite <- (take_drop 1 (to_bytes s)). apply elem_of_app. right.
  rewrite <- (take_drop (length (to_bytes s) - 2) (drop 1 (to_bytes s))). apply elem_of_app. by left.
Qed.
Lemma fields_go_bytes l : ∀ cur, Forall (λ x, ∀ b, b ∈ x → b ∈ cur ∨ b ∈ l) (fields_go cur l).
Proof.
  induction l as [l IH] using (induction_ltof1 _ length). unfold ltof in IH. intros cur.
  assert (∀ rest, Forall (λ x, ∀ b, b ∈ x → b ∈ cur ∨ b ∈ l) rest →
    Forall (λ x, ∀ b, b ∈ x → b ∈ cur ∨ b ∈ l) (if bool_decide (cur = []) then rest else reverse cur :: rest)) as Hflush.
  { intros rest Hr. case_bool_decide; [done|]. constructor; [|done]. intros b Hb. left. by apply elem_of_reverse. }
  assert (∀ pre cur' l', l = pre ++ l' → (length l' < length l)%nat → (∀ b, b ∈ cur' → b ∈ cur ∨ b ∈ l) →
    Forall (λ x, ∀ b, b ∈ x → b ∈ cur ∨ b ∈ l) (fields_go cur' l')) as Hrec.
  { intros pre cur' l' -> Hlen Hc. eapply Forall_impl; [by apply IH|]. cbn. intros x Hx b Hb. destruct (Hx b Hb); [auto|]. right. set_solver. }
  destruct l as [|a l1]; cbn [fields_go]; [apply Hflush; constructor|].
  assert (∀ b, b ∈ a :: cur → b ∈ cur ∨ b ∈ a :: l1) as Hcons by set_solver.
  destruct (space1 a); [apply Hflush, (Hrec [a]); [done|cbn; lia|set_solver]|].
  destruct l1 as [|b l2]; [apply (Hrec [a]); [done|cbn; lia|done]|].
  destruct (space2 a b); [apply Hflush, (Hrec [a; b]); [done|cbn; lia|set_solver]|].
  destruct l2 as [|c l3]; [apply (Hrec [a]); [done|cbn; lia|done]|].
  destruct (space3 a b c); [apply Hflush, (Hrec [a; b; c]); [done|cbn; lia|set_solver]|apply (Hrec [a]); [done|cbn; lia|done]].
Qed.
Lemma one_line_Fields s : one_line s → Forall one_line (Fields s).
Proof.
  intros Hs. unfold Fields. apply Forall_fmap. eapply Forall_impl; [apply fields_go_bytes|]. cbn. intros x Hx Hin. unfold one_line in *.
  rewrite to_of_bytes in Hin. apply Hx in Hin as [Hin|Hin]; [by apply not_elem_of_nil in Hin|done].
Qed.
#[local] Hint Resolve one_line_TrimSpace one_line_TrimPrefix one_line_stripQuotes one_line_Fields split_lines_one_line : core.
Lemma one_line_empty : one_line "".
Proof. apply not_elem_of_nil. Qed.
#[local] Hint Resolve one_line_empty : core.

Lemma one_line_env key lines : Forall one_line lines → one_line (env_lines key lines).
Proof.
  induction 1 as [|l lines Hl _ IH]; cbn [env_lines]; [done|]. unfold env_line. repeat case_match; simplify_eq; auto.
Qed.
Lemma one_line_flag flag parts : Forall one_line parts → one_line (flag_value flag parts).
Proof.
  induction 1 as [|p parts Hp Hps IH]; cbn [flag_value]; [done|]. destruct (HasPrefix p _); [auto|].
  destruct Hps; [done|]. case_bool_decide; auto.
Qed.
Lemma one_line_flagValue args flag : one_line args → one_line (flagValueFromArgs args flag).
Proof. intros. apply one_line_flag. auto. Qed.
#[local] Hint Resolve one_line_flagValue : core.
Lemma one_line_scan flag lines : Forall one_line lines → ∀ inCommand items, Forall one_line items →
  match command_scan flag inCommand items lines with inl v => one_line v | inr items => Forall one_line items end.
Proof.
  induction 1 as [|l lines Hl _ IH]; intros inCommand items Hi; cbn [command_scan]; [done|].
  assert (Forall one_line (items ++ [TrimPrefix (TrimSpace l) "- "])) by (apply Forall_app; repeat constructor; auto).
  destruct (_ || _).
  - destruct (negb (bool_decide (flagValueFromArgs _ flag = ""))); [auto|by apply IH].
  - destruct inCommand; [|by apply IH]. destruct (HasPrefix _ _); [by apply IH|]. destruct (_ && _); by apply IH.
Qed.
Lemma one_line_search flag items : Forall one_line items → one_line (search_items flag items).
Proof.
  induction 1 as [|item items Hi His IH]; cbn [search_items]; [done|].
  destruct (negb (bool_decide (flagValueFromArgs item flag = ""))); [auto|]. destruct His; [done|]. destruct (_ && _ && _); auto.
Qed.
Lemma one_line_command data flag : one_line (extractCommandFlag data flag).
Proof.
  unfold extractCommandFlag. pose proof (one_line_scan flag _ (split_lines_one_line data) false [] (Forall_nil_2 _)) as H.
  destruct (command_scan _ _ _ _); [done|by apply one_line_search].
Qed.

(** Whatever was extracted from the lines of the file fits in one line. *)
Record fields_one_line (f : extractedFields) : Prop := {
  fo_name : one_line (ef_Name f); fo_overlay : one_line (ef_OverlayIP f); fo_port : one_line (ef_ListenPort f);
  fo_mode : one_line (ef_Mode f); fo_hash : one_line (ef_TokenHash f); fo_comments : Forall one_line (ef_Comments f);
  fo_hashes : Forall (λ c, HasPrefix (TrimSpace c) "#" = true) (ef_Comments f)
}.
Lemma extractFields_one_line doc data from f : extractFields doc data from = Ok f → ef_Name f ≠ "" ∧ fields_one_line f.
Proof.
  unfold extractFields. case_bool_decide as Hn; [done|]. intros [= <-].
  assert (∀ key, one_line (stripQuotes (extractEnvValue data key))) as He by (intros; apply one_line_stripQuotes, one_line_env; auto).
  assert (∀ (b : bool) key flag, one_line (if b then stripQuotes (extractCommandFlag data flag) else stripQuotes (extractEnvValue data key))) as Hf
    by (intros [] ? ?; [apply one_line_stripQuotes, one_line_command|apply He]).
  split; [done|]. constructor; cbn; try apply Hf; try apply He.
  - unfold comment_lines. apply Forall_forall. intros c Hc. apply list_elem_of_In, filter_In in Hc as [Hc _].
    pose proof (split_lines_one_line data) as H. rewrite Forall_forall in H. apply H. by apply list_elem_of_In.
  - unfold comment_lines. apply Forall_forall. intros c Hc. by apply list_elem_of_In, filter_In in Hc as [_ Hc].
Qed.

(** ** Reading the rendered file *)

(** Text that does not end in a blank. *)
Definition ends_well (v : string) : Prop := v = "" ∨ ∃ l z, to_bytes v = l ++ [z] ∧ plain z = true.

Lemma env_text key v : "      - " +:+ key +:+ "=" +:+ v =
  of_bytes (replicate 6 " "%char ++ "-"%char :: (" "%char :: to_bytes key) ++ "="%char :: to_bytes v).
Proof. rewrite <- (of_to_bytes ("      - " +:+ _)), !to_bytes_app. f_equal. Qed.
Lemma dash_text key v : "- " +:+ key +:+ "=" +:+ v = of_bytes ("-"%char :: (" "%char :: to_bytes key) ++ "="%char :: to_bytes v).
Proof. rewrite <- (of_to_bytes ("- " +:+ _)), !to_bytes_app. f_equal. Qed.

(** The trimmed form of a line of the environment, exact when the value ends well. *)
Lemma trim_env_line key v : ∃ r, TrimSpace ("      - " +:+ key +:+ "=" +:+ v) = "- " +:+ key +:+ "=" +:+ r ∧ (ends_well v → r = v).
Proof.
  destruct (TrimSpace_margin 6 "-" (" "%char :: to_bytes key) "=" (to_bytes v)) as (r & E & Hp); [done..|].
  exists (of_bytes r). rewrite env_text, E, dash_text, to_of_bytes. split; [done|].
  intros [->|(l & z & Hl & Hz)]; [by destruct Hp as [k Hk]; destruct r|]. rewrite Hl in E.
  pose proof (TrimSpace_margin_plain 6 "-" (" "%char :: to_bytes key ++ "="%char :: l) z eq_refl Hz) as E2.
  replace ((" "%char :: to_bytes key) ++ "="%char :: l ++ [z]) with ((" "%char :: to_bytes key ++ "="%char :: l) ++ [z]) in E
    by (cbn; by rewrite <- app_assoc).
  rewrite E in E2. apply (f_equal to_bytes) in E2. rewrite !to_of_bytes in E2. injection E2 as E2.
  rewrite <- app_assoc in E2. apply app_inv_head in E2. injection E2 as E2. by rewrite E2, <- Hl, of_to_bytes.
Qed.
Lemma env_line_own key v : ends_well v → env_line key ("      - " +:+ key +:+ "=" +:+ v) = Some v.
Proof.
  intros Hv. destruct (trim_env_line key v) as (r & E & Hr). rewrite (Hr Hv) in E. unfold env_line. cbv zeta. rewrite E.
  unfold TrimPrefix. rewrite (CutPrefix_app "- "). cbn [default from_option id].
  replace (key +:+ "=" +:+ v) with ((key +:+ "=") +:+ v) by (by rewrite string_app_assoc).
  assert (HasPrefix ((key +:+ "=") +:+ v) (key +:+ "=") = true) as -> by (unfold HasPrefix; rewrite (to_bytes_app (key +:+ "=") v); apply is_prefix_app).
  by rewrite CutPrefix_app.
Qed.
(** A line that starts with plain text, after a margin. *)
Lemma trim_starts n a l z v : plain a = true → plain z = true →
  ∃ r, TrimSpace (of_bytes (replicate n " "%char ++ a :: l ++ [z]) +:+ v) = of_bytes (a :: l ++ [z]) +:+ r.
Proof.
  intros Ha Hz. destruct (TrimSpace_margin n a l z (to_bytes v) Ha Hz) as (r & E & _). exists (of_bytes r).
  rewrite <- (of_to_bytes (of_bytes (a :: l ++ [z]) +:+ _)), to_bytes_app, !to_of_bytes. cbn [app]. rewrite <- app_assoc.
  cbn [app]. rewrite <- E. f_equal. rewrite <- (of_to_bytes (_ +:+ v)), to_bytes_app, to_of_bytes, <- app_assoc.
  cbn [app]. by rewrite <- app_assoc.
Qed.

(** The environment variables of a node. *)
Definition env_keys : list string := ["MESH_TOKEN_HASH"; "MESH_MODE"; "MESH_NAME"; "MESH_OVERLAY_IP"; "MESH_LISTEN_PORT"; "MESH_CONFIG_DIR"].

Lemma env_line_other key key' v : key ∈ env_keys → key' ∈ env_keys → key ≠ key' → env_line key ("      - " +:+ key' +:+ "=" +:+ v) = None.
Proof.
  intros H1 H2 Hne. destruct (trim_env_line key' v) as (r & E & _). unfold env_line. rewrite E. clear E v.
  unfold env_keys in *. rewrite !elem_of_cons, elem_of_nil in H1, H2.
  destruct H1 as [->|[->|[->|[->|[->|[->|[]]]]]]], H2 as [->|[->|[->|[->|[->|[->|[]]]]]]]; first [done|by vm_compute].
Qed.
Lemma env_line_comment key c : key ∈ env_keys → HasPrefix (TrimSpace c) "#" = true → env_line key c = None.
Proof.
  intros Hk H. unfold HasPrefix in H. apply is_prefix_spec in H as [r H]. unfold env_line.
  rewrite <- (of_to_bytes (TrimSpace c)), H. unfold env_keys in Hk. rewrite !elem_of_cons, elem_of_nil in Hk.
  destruct Hk as [->|[->|[->|[->|[->|[->|[]]]]]]]; by vm_compute.
Qed.
Lemma env_lines_skip key pre rest : Forall (λ l, env_line key l = None) pre → env_lines key (pre ++ rest) = env_lines key rest.
Proof. induction 1 as [|l pre Hl _ IH]; [done|]. cbn [app env_lines]. by rewrite Hl. Qed.

Ltac each_key H := unfold env_keys in H; rewrite !elem_of_cons, elem_of_nil in H;
  destruct H as [->|[->|[->|[->|[->|[->|[]]]]]]].

Lemma header_none key f : key ∈ env_keys → Forall (λ l, env_line key l = None) (header_lines f).
Proof.
  intros Hk. unfold header_lines.
  destruct (trim_starts 4 "i" (to_bytes "mage") ":" (" " +:+ or_default (ef_Image f) "ghcr.io/coonfuuseed-paandaa/awg-mesh-node:latest"))
    as [r1 E1]; [done..|].
  destruct (trim_starts 4 "r" (to_bytes "estart") ":" (" " +:+ ef_Restart f)) as [r2 E2]; [done..|].
  assert (env_line key ("    image: " +:+ or_default (ef_Image f) "ghcr.io/coonfuuseed-paandaa/awg-mesh-node:latest") = None) as H1.
  { unfold env_line. replace (TrimSpace _) with (of_bytes ("i"%char :: to_bytes "mage" ++ [":"%char]) +:+ r1) by (symmetry; exact E1).
    each_key Hk; vm_compute; reflexivity. }
  assert (env_line key ("    restart: " +:+ ef_Restart f) = None) as H2.
  { unfold env_line. replace (TrimSpace _) with (of_bytes ("r"%char :: to_bytes "estart" ++ [":"%char]) +:+ r2) by (symmetry; exact E2).
    each_key Hk; vm_compute; reflexivity. }
  rewrite !Forall_cons, Forall_nil. split_and!; [..|exact I]; first [exact H1|exact H2|each_key Hk; vm_compute; reflexivity].
Qed.

Lemma token_none key f : key ∈ env_keys → key ≠ "MESH_TOKEN_HASH" → Forall (λ l, env_line key l = None) (token_lines f).
Proof.
  intros Hk Hne. assert (∀ v, env_line key ("      - " +:+ "MESH_TOKEN_HASH" +:+ "=" +:+ v) = None) as Ho.
  { intros v. apply env_line_other; [done| |done]. by left. }
  unfold token_lines. destruct (negb _); [apply Forall_singleton, (Ho (ef_TokenHash f))|].
  destruct (negb _); rewrite !Forall_cons, Forall_nil; split_and!; try exact I; try exact (Ho "REPLACE_WITH_HASH");
    each_key Hk; vm_compute; reflexivity.
Qed.
Lemma comments_none key f : key ∈ env_keys → fields_one_line f →
  Forall (λ l, env_line key l = None) (if bool_decide (ef_Comments f = []) then [] else ef_Comments f ++ [""]).
Proof.
  intros Hk Hf. case_bool_decide; [constructor|]. apply Forall_app. split.
  - eapply Forall_impl; [apply (fo_hashes _ Hf)|]. intros c Hc. by apply env_line_comment.
  - apply Forall_singleton. each_key Hk; vm_compute; reflexivity.
Qed.

(** The value found first in a list of lines. *)
Lemma env_lines_found key line rest v : env_line key line = Some v → env_lines key (line :: rest) = v.
Proof. intros H. cbn [env_lines]. by rewrite H. Qed.

Lemma env_lines_next key line rest : env_line key line = None → env_lines key (line :: rest) = env_lines key rest.
Proof. intros H. cbn [env_lines]. by rewrite H. Qed.

(** What the new file says about the node. *)
Definition expected (f : extractedFields) : list (string * string) :=
  [("MESH_TOKEN_HASH", or_default (ef_TokenHash f) "REPLACE_WITH_HASH"); ("MESH_MODE", or_default (ef_Mode f) "endpoint");
   ("MESH_NAME", or_default (ef_Name f) "unknown"); ("MESH_OVERLAY_IP", ef_OverlayIP f); ("MESH_LISTEN_PORT", ef_ListenPort f);
   ("MESH_CONFIG_DIR", "/config")].
Definition fields_end_well (f : extractedFields) : Prop :=
  ends_well (ef_TokenHash f) ∧ ends_well (ef_Mode f) ∧ ends_well (ef_Name f) ∧ ends_well (ef_OverlayIP f) ∧ ends_well (ef_ListenPort f).

Lemma or_default_well v d : ends_well v → ends_well d → ends_well (or_default v d).
Proof. unfold or_default. by case_bool_decide. Qed.
Lemma ends_well_text v : (∃ l z, to_bytes v = l ++ [z] ∧ plain z = true) → ends_well v.
Proof. by right. Qed.

Section Rendered.
Context (f : extractedFields) (from : SchemaVersion) (rest : list string).
Context (well : fields_end_well f) (lines_ok : fields_one_line f).

Notation own v := (env_line_own _ v).

Lemma skip_front key : key ∈ env_keys →
  env_lines key (rendered_lines f from ++ rest) = env_lines key (token_lines f ++ node_lines f ++ tail_lines f from ++ rest).
Proof using lines_ok.
  intros Hk. unfold rendered_lines. rewrite <- !app_assoc. rewrite env_lines_skip by (by apply comments_none).
  by rewrite env_lines_skip by (by apply header_none).
Qed.

Lemma find_hash : env_lines "MESH_TOKEN_HASH" (rendered_lines f from ++ rest) = or_default (ef_TokenHash f) "REPLACE_WITH_HASH".
Proof using well lines_ok.
  rewrite skip_front by (by left). unfold token_lines, or_default. destruct well as (Hw & _).
  destruct (decide (ef_TokenHash f = "")) as [E|E].
  - rewrite !(bool_decide_eq_true_2 (ef_TokenHash f = "")) by done. cbn [negb]. by destruct (negb _); vm_compute.
  - rewrite !(bool_decide_eq_false_2 (ef_TokenHash f = "")) by done. cbn [negb app]. by apply env_lines_found, (env_line_own "MESH_TOKEN_HASH").
Qed.
Lemma skip_token key : key ∈ env_keys → key ≠ "MESH_TOKEN_HASH" →
  env_lines key (rendered_lines f from ++ rest) = env_lines key (node_lines f ++ tail_lines f from ++ rest).
Proof using lines_ok. intros Hk Hne. rewrite skip_front by done. by rewrite env_lines_skip by (by apply token_none). Qed.

Lemma plain_end v l z : to_bytes v = l ++ [z] → plain z = true → ends_well v.
Proof. intros. right. by exists l, z. Qed.
Lemma find_mode : env_lines "MESH_MODE" (rendered_lines f from ++ rest) = or_default (ef_Mode f) "endpoint".
Proof using well lines_ok.
  rewrite skip_token by (done || (unfold env_keys; set_solver)). destruct well as (_ & Hw & _).
  apply env_lines_found, (env_line_own "MESH_MODE"), or_default_well; [done|]. by apply (plain_end _ (to_bytes "endpoin") "t").
Qed.
Lemma find_name : env_lines "MESH_NAME" (rendered_lines f from ++ rest) = or_default (ef_Name f) "unknown".
Proof using well lines_ok.
  rewrite skip_token by (done || (unfold env_keys; set_solver)). destruct well as (_ & _ & Hw & _). unfold node_lines. cbn [app].
  rewrite env_lines_next by (apply (env_line_other "MESH_NAME" "MESH_MODE"); [unfold env_keys; set_solver..|done]).
  apply env_lines_found, (env_line_own "MESH_NAME"), or_default_well; [done|]. by apply (plain_end _ (to_bytes "unknow") "n").
Qed.
Lemma skip_name key : key ∈ env_keys → key ∉ ["MESH_TOKEN_HASH"; "MESH_MODE"; "MESH_NAME"] →
  env_lines key (rendered_lines f from ++ rest) = env_lines key (overlay_lines f ++ port_lines f ++ tail_lines f from ++ rest).
Proof using well lines_ok.
  intros Hk Hne. rewrite skip_token by set_solver. unfold node_lines. rewrite <- !app_assoc. cbn [app].
  rewrite env_lines_next by (apply (env_line_other key "MESH_MODE"); [done|unfold env_keys|]; set_solver).
  by rewrite env_lines_next by (apply (env_line_other key "MESH_NAME"); [done|unfold env_keys|]; set_solver).
Qed.
(** The overlay address or its absence. *)
Lemma overlay_none key : key ∈ env_keys → key ≠ "MESH_OVERLAY_IP" → Forall (λ l, env_line key l = None) (overlay_lines f).
Proof using.
  clear well lines_ok rest. intros Hk Hne. assert (∀ v, env_line key ("      - " +:+ "MESH_OVERLAY_IP" +:+ "=" +:+ v) = None) as Ho
    by (intros v; apply env_line_other; [done|unfold env_keys; set_solver|done]).
  unfold overlay_lines. destruct (negb _); rewrite !Forall_cons, Forall_nil; split_and!; try exact I; [exact (Ho (ef_OverlayIP f))| |exact (Ho "")].
  each_key Hk; vm_compute; reflexivity.
Qed.
Lemma find_overlay : env_lines "MESH_OVERLAY_IP" (rendered_lines f from ++ rest) = ef_OverlayIP f.
Proof using well lines_ok.
  rewrite skip_name by (unfold env_keys; set_solver). destruct well as (_ & _ & _ & Hw & _). unfold overlay_lines.
  destruct (decide (ef_OverlayIP f = "")) as [E|E].
  - rewrite (bool_decide_eq_true_2 (ef_OverlayIP f = "")) by done. rewrite E. cbn [negb app]. by vm_compute.
  - rewrite (bool_decide_eq_false_2 (ef_OverlayIP f = "")) by done. cbn [negb app]. by apply env_lines_found, (env_line_own "MESH_OVERLAY_IP").
Qed.
Lemma find_port : env_lines "MESH_LISTEN_PORT" (rendered_lines f from ++ rest) = ef_ListenPort f.
Proof using well lines_ok.
  rewrite skip_name by (unfold env_keys; set_solver). destruct well as (_ & _ & _ & _ & Hw).
  rewrite env_lines_skip by (apply overlay_none; [unfold env_keys; set_solver|done]). unfold port_lines.
  destruct (decide (ef_ListenPort f = "")) as [E|E].
  - rewrite (bool_decide_eq_true_2 (ef_ListenPort f = "")) by done. rewrite E. cbn [negb app]. by vm_compute.
  - rewrite (bool_decide_eq_false_2 (ef_ListenPort f = "")) by done. cbn [negb app]. by apply env_lines_found, (env_line_own "MESH_LISTEN_PORT").
Qed.
Lemma find_dir : env_lines "MESH_CONFIG_DIR" (rendered_lines f from ++ rest) = "/config".
Proof using well lines_ok.
  rewrite skip_name by (unfold env_keys; set_solver).
  rewrite env_lines_skip by (apply overlay_none; [unfold env_keys; set_solver|done]).
  assert (∀ v, env_line "MESH_CONFIG_DIR" ("      - " +:+ "MESH_LISTEN_PORT" +:+ "=" +:+ v) = None) as Ho
    by (intros v; apply env_line_other; [unfold env_keys; set_solver..|done]).
  unfold port_lines. destruct (negb _); cbn [app].
  - rewrite env_lines_next by apply Ho. by vm_compute.
  - by vm_compute.
Qed.

Lemma find_all : Forall (λ kv, env_lines kv.1 (rendered_lines f from ++ rest) = kv.2) (expected f).
Proof using well lines_ok.
  unfold expected. rewrite !Forall_cons, Forall_nil. cbn [fst snd].
  split_and!; [apply find_hash|apply find_mode|apply find_name|apply find_overlay|apply find_port|apply find_dir|exact I].
Qed.
End Rendered.

(** ** The migration *)

Lemma one_line_default v d : one_line v → one_line d → one_line (or_default v d).
Proof. unfold or_default. by case_bool_decide. Qed.
Ltac closed_line := apply (bool_decide_unpack (_ ∉ _)); vm_compute; reflexivity.

Lemma rendered_one_line f from : fields_one_line f → one_line (ef_Image f) → one_line (ef_Restart f) →
  Forall one_line (rendered_lines f from).
Proof.
  intros [] Hi Hr. unfold rendered_lines, header_lines, token_lines, node_lines, overlay_lines, port_lines, tail_lines.
  repeat first
    [ exact I | assumption | closed_line | apply one_line_app | apply one_line_default | apply Forall_app; split | apply Forall_cons; split
    | apply Forall_nil; exact I | case_bool_decide; cbn [negb] ].
  destruct from; closed_line.
Qed.

Lemma last_set_one_line g services : Forall (λ svc, one_line (g svc)) services → one_line (last_set g services).
Proof.
  intros H. unfold last_set. assert (∀ v, one_line v → one_line (foldl (λ v svc, if bool_decide (g svc = "") then v else g svc) v services)) as Hg.
  { induction H as [|svc services Hs _ IH]; intros v Hv; [done|]. cbn [foldl]. apply IH. by case_bool_decide. }
  apply Hg, one_line_empty.
Qed.

(** The fields the decoder returns fit in one line, as image names and restart policies do. *)
Definition doc_one_line (doc : composeDoc) : Prop :=
  match doc with None => True | Some services => Forall (λ svc, one_line (cs_Image svc) ∧ one_line (cs_Restart svc)) services end.
Lemma extractFields_doc doc data from f : doc_one_line doc → extractFields doc data from = Ok f →
  one_line (ef_Image f) ∧ one_line (ef_Restart f).
Proof.
  unfold extractFields. intros Hd. case_bool_decide; [done|]. intros [= <-]. cbn [ef_Image ef_Restart].
  assert (one_line "unless-stopped") as Hu by closed_line.
  destruct doc as [services|]; [|split; [apply one_line_empty|by case_bool_decide]].
  assert (one_line (last_set cs_Image services) ∧ one_line (last_set cs_Restart services)) as [H1 H2].
  { split; apply last_set_one_line; (eapply Forall_impl; [exact Hd|]); by intros svc []. }
  split; [done|]. destruct (bool_decide (last_set cs_Restart services = "")); assumption.
Qed.

Lemma has_key_line key v : line_has_key key ("      - " +:+ key +:+ "=" +:+ v) = true.
Proof.
  destruct (trim_env_line key v) as (r & E & _). unfold line_has_key. cbv zeta. rewrite E. unfold TrimPrefix. rewrite (CutPrefix_app "- ").
  cbn [default from_option id]. rewrite <- string_app_assoc.
  assert (HasPrefix ((key +:+ "=") +:+ r) (key +:+ "=") = true) as ->; [|done].
  unfold HasPrefix. rewrite (to_bytes_app (key +:+ "=") r). apply is_prefix_app.
Qed.
Lemma rendered_detected f from rest services : services_have_command services = false →
  split_lines (renderCurrentSchema f from) = rendered_lines f from ++ rest →
  DetectSchema (Some services) (renderCurrentSchema f from) = Ok SchemaCurrent.
Proof.
  intros Hc Hl. assert (∀ key, (∃ v, "      - " +:+ key +:+ "=" +:+ v ∈ rendered_lines f from) →
    containsEnvKey (renderCurrentSchema f from) key = true) as Hkey.
  { intros key [v Hv]. unfold containsEnvKey. apply existsb_exists. eexists. split; [|apply (has_key_line key v)].
    rewrite Hl. apply in_or_app. left. by apply list_elem_of_In. }
  unfold DetectSchema, hasCommandBlock. rewrite Hc, (Hkey "MESH_TOKEN_HASH"), (Hkey "MESH_CONFIG_DIR").
  - rewrite bool_decide_eq_false_2; [by rewrite andb_false_r|]. intros E. rewrite E in Hl.
    apply (f_equal length) in Hl. unfold rendered_lines, header_lines in Hl. rewrite !length_app in Hl. cbn in Hl. lia.
  - exists "/config". unfold rendered_lines, tail_lines. rewrite !elem_of_app. do 4 right. left. by left.
  - assert (∃ v, "      - " +:+ "MESH_TOKEN_HASH" +:+ "=" +:+ v ∈ token_lines f) as [v Hv].
    { unfold token_lines. destruct (negb _); [exists (ef_TokenHash f); by left|].
      destruct (negb _); exists "REPLACE_WITH_HASH"; [do 3 right|do 1 right]; by left. }
    exists v. unfold rendered_lines. rewrite !elem_of_app. auto.
Qed.

(** *** What the decoder sees of the new file *)

(** Text without the word command, and without the escapes that could spell it. *)
Definition bare (s : string) : Prop := Contains s "command" = false ∧ "\"%char ∉ to_bytes s.
#[global] Instance bare_dec s : Decision (bare s).
Proof. unfold bare. apply _. Defined.
Definition bare_line (l : string) : Prop := HasPrefix (TrimSpace l) "#" = true ∨ bare l.
(** A key of a mapping is in the text: a file in which no line but comments mentions a
    command decodes, if it does, to services without one. *)
Definition decoder_law (decode : string → composeDoc) : Prop := ∀ s services,
  decode s = Some services → Forall bare_line (split_lines s) → Forall (λ svc, cs_Command svc = YamlNil) services.

Lemma is_prefix_sep p c l1 l2 : c ∉ p → is_prefix p (l1 ++ c :: l2) = true → is_prefix p l1 = true.
Proof.
  revert l1. induction p as [|a p IH]; intros l1 Hc H; [by destruct l1|]. apply not_elem_of_cons in Hc as [Ha Hc].
  destruct l1 as [|b l1]; cbn in *; [case_bool_decide; [congruence|done]|].
  apply andb_true_iff in H as [H1 H2]. rewrite H1. by apply IH.
Qed.
Lemma is_infix_sep p c l1 l2 : p ≠ [] → c ∉ p → is_infix p l1 = false → is_infix p l2 = false → is_infix p (l1 ++ c :: l2) = false.
Proof.
  intros Hne Hc. induction l1 as [|b l1 IH]; intros H1 H2; cbn [app].
  - cbn [is_infix]. rewrite H2, orb_false_r. apply not_true_iff_false. intros Hp. apply (is_prefix_sep p c [] l2 Hc) in Hp. by destruct p.
  - cbn [is_infix] in H1 |- *. apply orb_false_iff in H1 as [H1 H1']. rewrite (IH H1' H2), orb_false_r.
    apply not_true_iff_false. intros Hp. apply (is_prefix_sep p c (b :: l1) l2 Hc) in Hp. congruence.
Qed.
Lemma bare_sep a c b : bare (String c EmptyString) → c ∉ to_bytes "command" → bare a → bare b → bare (a +:+ String c b).
Proof.
  intros [_ Hs] Hc [A1 A2] [B1 B2]. unfold bare, Contains in *. rewrite to_bytes_app. cbn [String.list_ascii_of_string] in *. split.
  - by apply is_infix_sep.
  - set_solver.
Qed.

(** No value of the node mentions a command. *)
Definition fields_bare (f : extractedFields) : Prop :=
  Forall bare [ef_Image f; ef_Restart f; ef_Name f; ef_OverlayIP f; ef_ListenPort f; ef_Mode f; ef_TokenHash f].
Ltac closed_bare := apply (bool_decide_unpack (bare _)); vm_compute; reflexivity.
Ltac bare_entry a c := right; apply (bare_sep a c); [closed_bare|apply (bool_decide_unpack (_ ∉ _)); vm_compute; reflexivity|closed_bare|].
Lemma bare_default v d : bare v → bare d → bare (or_default v d).
Proof. unfold or_default. by case_bool_decide. Qed.

Ltac plain_lines := repeat first
  [ exact I | apply Forall_nil; exact I | apply Forall_cons; split
  | left; vm_compute; reflexivity | right; closed_bare ].
Lemma rendered_bare f from : fields_one_line f → fields_bare f → Forall bare_line (rendered_lines f from ++ [""]).
Proof.
  intros Hol Hf. unfold fields_bare in Hf. rewrite !Forall_cons in Hf. destruct Hf as (Hi & Hr & Hn & Ho & Hp & Hm & Ht & _).
  unfold rendered_lines, node_lines, tail_lines. rewrite !Forall_app. split_and!.
  - case_bool_decide; [constructor|]. apply Forall_app. split; [|plain_lines].
    eapply Forall_impl; [apply (fo_hashes _ Hol)|]. intros c Hc. by left.
  - unfold header_lines. plain_lines.
    + bare_entry "    image:" " "%char. apply bare_default; [done|closed_bare].
    + bare_entry "    restart:" " "%char. done.
  - unfold token_lines. destruct (negb _); [apply Forall_singleton; by bare_entry "      - MESH_TOKEN_HASH" "="%char|].
    destruct (negb _); plain_lines.
  - plain_lines; [bare_entry "      - MESH_MODE" "="%char; apply bare_default; [done|closed_bare]|].
    bare_entry "      - MESH_NAME" "="%char. apply bare_default; [done|closed_bare].
  - unfold overlay_lines. destruct (negb _); [apply Forall_singleton; by bare_entry "      - MESH_OVERLAY_IP" "="%char|plain_lines].
  - unfold port_lines. destruct (negb _); [apply Forall_singleton; by bare_entry "      - MESH_LISTEN_PORT" "="%char|plain_lines].
  - plain_lines. bare_entry "      - /var/lib/awg-mesh" "/"%char.
    apply (bare_sep (or_default (ef_Name f) "unknown") ":"%char "/config");
      [closed_bare|apply (bool_decide_unpack (_ ∉ _)); vm_compute; reflexivity|apply bare_default; [done|closed_bare]|closed_bare].
  - case_bool_decide; cbn [negb]; [constructor|]. apply Forall_singleton. left. destruct from; vm_compute; reflexivity.
  - plain_lines.
Qed.
Lemma no_commands services : Forall (λ svc, cs_Command svc = YamlNil) services → services_have_command services = false.
Proof. induction 1 as [|svc services H _ IH]; [done|]. cbn [services_have_command]. by rewrite H. Qed.

(** *** What is extracted from the old file *)

(** An entry of the environment of a compose file, in list or in mapping style. *)
Definition list_entry (margin : nat) (key v : string) : string := of_bytes (replicate margin " "%char) +:+ "- " +:+ key +:+ "=" +:+ v.
Definition map_entry (margin : nat) (key v : string) : string := of_bytes (replicate margin " "%char) +:+ key +:+ ": " +:+ v.
Definition field_of (f : extractedFields) (key : string) : option string :=
  if bool_decide (key = "MESH_TOKEN_HASH") then Some (ef_TokenHash f) else if bool_decide (key = "MESH_MODE") then Some (ef_Mode f) else
  if bool_decide (key = "MESH_NAME") then Some (ef_Name f) else if bool_decide (key = "MESH_OVERLAY_IP") then Some (ef_OverlayIP f) else
  if bool_decide (key = "MESH_LISTEN_PORT") then Some (ef_ListenPort f) else None.

Lemma env_line_list n key v : v ≠ "" → ends_well v → env_line key (list_entry n key v) = Some v.
Proof.
  intros Hne [?|(l & z & Hl & Hz)]; [done|].
  assert (TrimSpace (list_entry n key v) = "- " +:+ key +:+ "=" +:+ v) as E.
  { pose proof (TrimSpace_margin_plain n "-" (" "%char :: to_bytes key ++ "="%char :: l) z eq_refl Hz) as H.
    assert (∀ m, of_bytes (m ++ "-"%char :: (" "%char :: to_bytes key ++ "="%char :: l) ++ [z]) = of_bytes m +:+ "- " +:+ key +:+ "=" +:+ v) as Hb.
    { intros m. rewrite <- (of_to_bytes (_ +:+ _)), !to_bytes_app, to_of_bytes, Hl. do 2 f_equal. cbn. by rewrite <- app_assoc. }
    unfold list_entry. rewrite <- Hb, H. exact (Hb []). }
  unfold env_line. cbv zeta. rewrite E. unfold TrimPrefix. rewrite (CutPrefix_app "- "). cbn [default from_option id].
  replace (key +:+ "=" +:+ v) with ((key +:+ "=") +:+ v) by (by rewrite string_app_assoc).
  assert (HasPrefix ((key +:+ "=") +:+ v) (key +:+ "=") = true) as -> by (unfold HasPrefix; rewrite (to_bytes_app (key +:+ "=") v); apply is_prefix_app).
  by rewrite CutPrefix_app.
Qed.
Lemma env_line_map n key v : key ∈ env_keys → v ≠ "" → ends_well v → env_line key (map_entry n key v) = Some v.
Proof.
  intros Hk Hne [?|(l & z & Hl & Hz)]; [done|].
  assert (TrimSpace (map_entry n key v) = key +:+ ": " +:+ v) as E.
  { assert (∃ a k, to_bytes key = a :: k ∧ plain a = true) as (a & k & Ek & Ha) by (each_key Hk; eexists _, _; split; reflexivity).
    pose proof (TrimSpace_margin_plain n a (k ++ ":"%char :: " "%char :: l) z Ha Hz) as H.
    assert (∀ m, of_bytes (m ++ a :: (k ++ ":"%char :: " "%char :: l) ++ [z]) = of_bytes m +:+ key +:+ ": " +:+ v) as Hb.
    { intros m. rewrite <- (of_to_bytes (_ +:+ _)), !to_bytes_app, to_of_bytes, Hl, Ek. do 2 f_equal. cbn. by rewrite <- app_assoc. }
    unfold map_entry. rewrite <- Hb, H. exact (Hb []). }
  unfold env_line. cbv zeta. rewrite E.
  assert (TrimPrefix (key +:+ ": " +:+ v) "- " = key +:+ ": " +:+ v ∧ HasPrefix (key +:+ ": " +:+ v) (key +:+ "=") = false) as [-> ->]
    by (each_key Hk; split; reflexivity).
  replace (key +:+ ": " +:+ v) with ((key +:+ ": ") +:+ v) by (by rewrite string_app_assoc).
  assert (HasPrefix ((key +:+ ": ") +:+ v) (key +:+ ": ") = true) as -> by (unfold HasPrefix; rewrite (to_bytes_app (key +:+ ": ") v); apply is_prefix_app).
  unfold TrimPrefix. by rewrite CutPrefix_app.
Qed.
(** A line that does not name the key says nothing about it. *)
Lemma env_line_silent key l : key ∈ env_keys → line_has_key key l = false → env_line key l = None.
Proof.
  intros Hk H. unfold line_has_key in H. cbv zeta in H. apply orb_false_iff in H as [H H3]. apply orb_false_iff in H as [H1 H2].
  unfold env_line. cbv zeta. rewrite H1. unfold TrimPrefix, CutPrefix in H3. unfold HasPrefix in *.
  set (t := TrimSpace l) in *. clearbody t.
  assert (∀ x, is_prefix (to_bytes (key +:+ x)) (to_bytes t) = true → is_prefix (to_bytes "- ") (to_bytes t) = false) as Hd.
  { intros x [r Hr]%is_prefix_spec. rewrite to_bytes_app in Hr. rewrite Hr. each_key Hk; reflexivity. }
  destruct (is_prefix (to_bytes (key +:+ ": ")) (to_bytes t)) eqn:E.
  - rewrite (Hd _ E) in H3. cbn in H3. apply is_prefix_spec in E as [r Hr].
    assert (is_prefix (to_bytes (key +:+ ":")) (to_bytes t) = true) as Hp; [|congruence].
    apply is_prefix_spec. exists (" "%char :: r). rewrite Hr, !to_bytes_app, <- !app_assoc. done.
  - destruct (bool_decide_reflect (t = key +:+ ":")) as [Et|]; [|done]. subst t. assert (is_prefix (to_bytes (key +:+ ":")) (to_bytes (key +:+ ":")) = true) as Hp.
    { rewrite <- (app_nil_r (to_bytes (key +:+ ":"))) at 2. apply is_prefix_app. }
    rewrite (Hd _ Hp) in H3. cbn in H3. congruence.
Qed.
Lemma extract_env_entry data key v pre line post : key ∈ env_keys → v ≠ "" → ends_well v →
  split_lines data = pre ++ line :: post → Forall (λ l, line_has_key key l = false) pre →
  (∃ n, line = list_entry n key v ∨ line = map_entry n key v) → extractEnvValue data key = v.
Proof.
  intros Hk Hne Hw Hl Hpre [n Hn]. unfold extractEnvValue. rewrite Hl, env_lines_skip.
  - apply env_lines_found. destruct Hn as [-> | ->]; [by apply env_line_list|by apply env_line_map].
  - eapply Forall_impl; [exact Hpre|]. intros l. by apply env_line_silent.
Qed.
Lemma stripQuotes_quoted w : stripQuotes (of_bytes ("034"%char :: to_bytes w ++ ["034"%char])) = w.
Proof.
  unfold stripQuotes. rewrite to_of_bytes. cbv zeta.
  assert (length ("034"%char :: to_bytes w ++ ["034"%char]) = 2 + length (to_bytes w))%nat as El by (cbn; rewrite length_app; cbn; lia).
  rewrite El, bool_decide_eq_true_2 by lia. unfold quoted.
  assert (last ("034"%char :: to_bytes w ++ ["034"%char]) = Some "034"%char) as -> by (rewrite app_comm_cons; apply last_snoc).
  cbn [head]. rewrite !(bool_decide_eq_true_2 (Some "034"%char = Some "034"%char)) by done. cbn [andb orb].
  cbn [drop]. replace (2 + length (to_bytes w) - 2)%nat with (length (to_bytes w)) by lia. rewrite drop_0, take_app_length. apply of_to_bytes.
Qed.
Lemma extractFields_field doc data from f key v : extractFields doc data from = Ok f →
  key ∈ env_keys → key ≠ "MESH_CONFIG_DIR" → stripQuotes (extractEnvValue data key) = v → v ≠ "" → field_of f key = Some v.
Proof.
  intros Hf Hk Hnc <- Hne.
  assert (∀ value name, value ≠ "" → (if (bool_decide (from = Schema_v151) || bool_decide (from = Schema_v160)) && bool_decide (value = "")
    then stripQuotes (extractCommandFlag data name) else value) = value) as Hset.
  { intros value name Hv. by rewrite (bool_decide_eq_false_2 _ Hv), andb_false_r. }
  unfold extractFields in Hf. cbv zeta in Hf. destruct (bool_decide _) in Hf; [done|]. injection Hf as Hf.
  assert (∀ k1 k2 : string, k1 ≠ k2 → bool_decide (k1 = k2) = false) as Hne' by (intros; by apply bool_decide_eq_false_2).
  unfold field_of. each_key Hk; try done; repeat (rewrite Hne' by done); rewrite bool_decide_eq_true_2 by done; rewrite <- Hf;
    cbn [ef_TokenHash ef_Mode ef_Name ef_OverlayIP ef_ListenPort]; rewrite ?Hset by done; reflexivity.
Qed.


(** A file of the first schema: flags on the command line, a plain token, the state in
    a directory that is not namespaced. *)
Definition old_file : string := unlines
  ["# node of the lab"; "services:"; "  awg:"; "    image: awg-mesh-node:1.5.1"; "    command:"; "      - --mode=master"; "      - --name";
   "      - lab1"; "      - --overlay-ip 10.0.0.7"; "    environment:"; "      MESH_TOKEN: secret"; "    volumes:";
   "      - /var/lib/awg/lab1:/config"].
Definition old_doc : composeDoc := Some [MkService "awg-mesh-node:1.5.1" (YamlList 4) ""].
Definition new_services : list composeService := [MkService "awg-mesh-node:1.5.1" YamlNil "unless-stopped"].

(** A decoder that knows the old file and those without a command. *)
#[global] Instance bare_line_dec l : Decision (bare_line l).
Proof. unfold bare_line. apply _. Defined.
Definition demo_decode (s : string) : composeDoc :=
  if bool_decide (Forall bare_line (split_lines s)) then Some new_services else
  if bool_decide (s = old_file) then old_doc else None.
Lemma demo_decode_law : decoder_law demo_decode.
Proof.
  intros s services Hs Hb. unfold demo_decode in Hs. rewrite bool_decide_eq_true_2 in Hs by done. injection Hs as <-.
  by apply Forall_singleton.
Qed.


(** The state directory is not carried over: the new file mounts an empty one. *)
Theorem migration_forgets_volume : ∃ out, MigrateCompose old_doc old_file Schema_v151 = Ok out ∧
  Contains old_file "/var/lib/awg/lab1:/config" = true ∧ Contains out "/var/lib/awg/" = false ∧
  Contains out "/var/lib/awg-mesh/lab1:/config" = true.
Proof. eexists. split; [vm_compute; reflexivity|]. split_and!; vm_compute; reflexivity. Qed.
