(* ===== verification/GoFiles.v ===== *)
(** * File trees: Go's [os] and [path/filepath] on Unix

    A tree maps the components of absolute paths to files and directories. Paths are
    resolved by their text: the development does not follow symbolic links, and
    permission bits are left out. What the operating system answers to a call that
    changes the tree is an argument. *)

From S2P Require Import Prelude GoStrings GoNet GoPath GoText.

(** ** Components *)

Definition path_parts (p : string) : list string := of_bytes <$> split_byte "/" (to_bytes p).
(** The components of a cleaned path. *)
Definition comps (p : string) : list string := reverse (foldl (clean_step (HasPrefix p "/")) [] (path_parts p)).
(** A component that names an entry of a directory. *)
Definition normal (c : string) : Prop := c ≠ "" ∧ c ≠ "." ∧ c ≠ ".." ∧ "/"%char ∉ to_bytes c.
#[global] Instance normal_dec c : Decision (normal c).
Proof. unfold normal. apply _. Defined.
(** The text of an absolute path. *)
Definition abs_text (cs : list string) : string := "/" +:+ join "/" cs.

Lemma path_Clean_comps p : path_Clean p =
  if HasPrefix p "/" then abs_text (comps p) else if bool_decide (join "/" (comps p) = "") then "." else join "/" (comps p).
Proof. done. Qed.

Lemma part_no_slash p : Forall (λ c, "/"%char ∉ to_bytes c) (path_parts p).
Proof.
  unfold path_parts. apply Forall_fmap. induction (to_bytes p) as [|a l IH]; cbn [split_byte].
  { apply Forall_singleton. cbn. by apply not_elem_of_nil. }
  case_bool_decide as Ha; [constructor; [cbn; by apply not_elem_of_nil|done]|].
  destruct (split_byte "/" l) as [|x xs]; [apply Forall_singleton; cbn; set_solver|].
  apply Forall_cons in IH as [Hx IH]. constructor; [|done]. cbn in *. rewrite to_of_bytes in *. set_solver.
Qed.

(** Cleaning keeps the stack of a rooted path normal. *)
Lemma clean_normal parts : Forall (λ c, "/"%char ∉ to_bytes c) parts → ∀ stack, Forall normal stack →
  Forall normal (foldl (clean_step true) stack parts).
Proof.
  induction 1 as [|c parts Hc _ IH]; intros stack Hs; cbn [foldl]; [done|]. apply IH. unfold clean_step.
  case_bool_decide as H1; [done|]. case_bool_decide as H2; [done|]. cbn [orb]. case_bool_decide as H3.
  - destruct stack as [|top rest]; [done|]. apply Forall_cons in Hs as [Ht Hs]. by case_bool_decide as H4; [subst; destruct Ht as (_ & _ & ? & _)|].
  - constructor; [|done]. by split_and!.
Qed.
Lemma comps_normal p : HasPrefix p "/" = true → Forall normal (comps p).
Proof. intros H. unfold comps. rewrite H. apply Forall_reverse, clean_normal; [apply part_no_slash|constructor]. Qed.

(** Normal parts are pushed as they come. *)
Lemma clean_push rooted cs : Forall normal cs → ∀ stack, foldl (clean_step rooted) stack cs = reverse cs ++ stack.
Proof.
  induction 1 as [|c cs (H1 & H2 & H3 & _) _ IH]; intros stack; [done|]. cbn [foldl]. unfold clean_step at 2.
  rewrite !bool_decide_eq_false_2 by done. cbn [orb]. rewrite IH, reverse_cons. by rewrite <- app_assoc.
Qed.

Lemma split_join cs : cs ≠ [] → Forall (λ c, "/"%char ∉ to_bytes c) cs → path_parts (join "/" cs) = cs.
Proof.
  intros Hne H. unfold path_parts, join. induction H as [|c cs Hc Hcs IH]; [done|]. destruct cs as [|d cs].
  - cbn [String.concat]. rewrite split_byte_none by done. cbn. by rewrite of_to_bytes.
  - change (String.concat "/" (c :: d :: cs)) with (c +:+ "/" +:+ String.concat "/" (d :: cs)). rewrite !to_bytes_app.
    cbn [String.list_ascii_of_string app]. rewrite split_byte_app by done. rewrite fmap_cons, of_to_bytes. f_equal. by apply IH.
Qed.
Lemma parts_abs cs : cs ≠ [] → Forall (λ c, "/"%char ∉ to_bytes c) cs → path_parts (abs_text cs) = "" :: cs.
Proof.
  intros Hne H. unfold path_parts, abs_text. rewrite to_bytes_app. cbn [String.list_ascii_of_string app].
  cbn [split_byte]. rewrite bool_decide_eq_true_2 by done. rewrite fmap_cons. change (of_bytes []) with "". f_equal. by apply split_join.
Qed.
Lemma normal_no_slash cs : Forall normal cs → Forall (λ c, "/"%char ∉ to_bytes c) cs.
Proof. intros H. eapply Forall_impl; [exact H|]. by intros c (_ & _ & _ & Hc). Qed.
Lemma comps_abs cs : Forall normal cs → comps (abs_text cs) = cs.
Proof.
  intros H. destruct cs as [|c cs]; [by vm_compute|]. unfold comps.
  assert (HasPrefix (abs_text (c :: cs)) "/" = true) as -> by (unfold HasPrefix, abs_text; rewrite to_bytes_app; apply is_prefix_app).
  rewrite parts_abs; [|done|by apply normal_no_slash].
  change (foldl (clean_step true) [] ("" :: c :: cs)) with (foldl (clean_step true) [] (c :: cs)). rewrite clean_push, app_nil_r by done. apply reverse_involutive.
Qed.

(** *** Joining below a directory *)

Lemma HasPrefix_slash s : HasPrefix s "/" = true ↔ ∃ r, to_bytes s = "/"%char :: r.
Proof. unfold HasPrefix. by rewrite is_prefix_spec. Qed.
Lemma HasPrefix_app s t p : HasPrefix s p = true → HasPrefix (s +:+ t) p = true.
Proof. unfold HasPrefix. rewrite to_bytes_app, !is_prefix_spec. intros [r ->]. rewrite <- app_assoc. eauto. Qed.

(** The parts of two paths joined by a slash. *)
Lemma parts_app a b : path_parts (a +:+ "/" +:+ b) = path_parts a ++ path_parts b.
Proof.
  unfold path_parts. rewrite !to_bytes_app. cbn [String.list_ascii_of_string app]. rewrite <- fmap_app. f_equal.
  induction (to_bytes a) as [|x l IH]; cbn [app split_byte].
  - by rewrite bool_decide_eq_true_2.
  - case_bool_decide; [by rewrite IH|]. rewrite IH. destruct (split_byte "/" l) eqn:E; [|done].
    destruct l; [done|]. cbn in E. case_bool_decide; [done|]. by destruct (split_byte "/" l).
Qed.
Lemma comps_clean p : HasPrefix p "/" = true → comps (path_Clean p) = comps p ∧ HasPrefix (path_Clean p) "/" = true.
Proof.
  intros H. rewrite path_Clean_comps, H. split; [by apply comps_abs, comps_normal|].
  apply HasPrefix_slash. unfold abs_text. rewrite to_bytes_app. cbn. eauto.
Qed.
Lemma comps_Join root rel : HasPrefix root "/" = true → rel ≠ "" → HasPrefix (path_Join [root; rel]) "/" = true ∧
  comps (path_Join [root; rel]) = reverse (foldl (clean_step true) (reverse (comps root)) (path_parts rel)).
Proof.
  intros Hr Hne. assert (root ≠ "") as Hne2 by (by intros ->).
  unfold path_Join. rewrite !filter_cons, filter_nil, !decide_True by done.
  change (join "/" [root; rel]) with (root +:+ "/" +:+ rel).
  assert (HasPrefix (root +:+ "/" +:+ rel) "/" = true) as Hp by (by apply HasPrefix_app).
  destruct (comps_clean _ Hp) as [Hc Hpc]. split; [done|]. rewrite Hc. unfold comps. rewrite Hp, Hr, parts_app, foldl_app, reverse_involutive. done.
Qed.
(** Normal parts, with or without a slash behind, go below the root. *)
Lemma comps_Join_normal root rel ps : HasPrefix root "/" = true → rel ≠ "" → Forall normal ps →
  path_parts rel = ps ∨ path_parts rel = ps ++ [""] → comps (path_Join [root; rel]) = comps root ++ ps.
Proof.
  intros Hr Hne Hn Hp. rewrite (proj2 (comps_Join root rel Hr Hne)).
  assert (foldl (clean_step true) (reverse (comps root)) (path_parts rel) = reverse ps ++ reverse (comps root)) as ->.
  { destruct Hp as [-> | ->]; [by apply clean_push|]. rewrite foldl_app, (clean_push true ps) by done. reflexivity. }
  by rewrite reverse_app, !reverse_involutive.
Qed.

(** *** Directory and name of an absolute path *)

Lemma abs_clean p : HasPrefix p "/" = true → path_Clean p = abs_text (comps p).
Proof. intros H. by rewrite path_Clean_comps, H. Qed.
Lemma abs_rooted cs : HasPrefix (abs_text cs) "/" = true.
Proof. unfold HasPrefix, abs_text. rewrite to_bytes_app. apply is_prefix_app. Qed.
Lemma path_Clean_abs cs : Forall normal cs → path_Clean (abs_text cs) = abs_text cs.
Proof. intros H. by rewrite abs_clean, comps_abs by (done || apply abs_rooted). Qed.

Lemma join_app a b : a ≠ [] → b ≠ [] → join "/" (a ++ b) = join "/" a +:+ "/" +:+ join "/" b.
Proof.
  intros Ha Hb. unfold join. induction a as [|x a IH]; [done|]. destruct a as [|y a]; [by destruct b|]. cbn [app].
  change (String.concat "/" (x :: y :: a ++ b)) with (x +:+ "/" +:+ String.concat "/" ((y :: a) ++ b)). rewrite IH by done.
  change (String.concat "/" (x :: y :: a)) with (x +:+ "/" +:+ String.concat "/" (y :: a)). by rewrite !string_app_assoc.
Qed.
Lemma abs_snoc cs c : ∃ x, abs_text (cs ++ [c]) = x +:+ "/" +:+ c ∧ (x = "" ∧ cs = [] ∨ x = abs_text cs ∧ cs ≠ []).
Proof.
  destruct cs as [|y cs]; [exists ""; auto|]. exists (abs_text (y :: cs)). unfold abs_text. rewrite join_app by done.
  change (join "/" [c]) with c. rewrite string_app_assoc. auto.
Qed.

Lemma abs_text_extend cs b x : abs_text (cs ++ [b]) +:+ x = abs_text (cs ++ [b +:+ x]).
Proof.
  destruct (abs_snoc cs b) as (y & -> & Hy), (abs_snoc cs (b +:+ x)) as (z & -> & Hz).
  assert (y = z) as -> by (destruct Hy as [[-> ->]|[-> ?]], Hz as [[-> ?]|[-> ?]]; done). by rewrite !string_app_assoc.
Qed.
Lemma drop_until_slash_app l r : "/"%char ∉ l → drop_until_slash (l ++ "/"%char :: r) = "/"%char :: r.
Proof.
  induction l as [|a l IH]; intros H; cbn [app drop_until_slash]; [by rewrite bool_decide_eq_true_2|].
  apply not_elem_of_cons in H as [H1 H2]. rewrite bool_decide_eq_false_2 by done. auto.
Qed.
Lemma take_until_slash_app l r : "/"%char ∉ l → take_until_slash (l ++ "/"%char :: r) = l.
Proof.
  induction l as [|a l IH]; intros H; cbn [app take_until_slash]; [by rewrite bool_decide_eq_true_2|].
  apply not_elem_of_cons in H as [H1 H2]. rewrite bool_decide_eq_false_2 by done. f_equal. auto.
Qed.
Lemma path_Dir_abs cs c : Forall normal (cs ++ [c]) → path_Dir (abs_text (cs ++ [c])) = abs_text cs.
Proof.
  intros [Hcs (_ & _ & _ & Hc)%Forall_singleton]%Forall_app. destruct (abs_snoc cs c) as (x & -> & Hx). unfold path_Dir.
  rewrite !to_bytes_app. cbn [String.list_ascii_of_string app]. rewrite reverse_app, reverse_cons, <- app_assoc. cbn [app].
  rewrite drop_until_slash_app by (by rewrite elem_of_reverse). rewrite reverse_cons, reverse_involutive.
  destruct Hx as [[-> ->]|[-> Hne]]; [by vm_compute|].
  replace (of_bytes (to_bytes (abs_text cs) ++ ["/"%char])) with (abs_text cs +:+ "/" +:+ "").
  2: { rewrite <- (of_to_bytes (abs_text cs +:+ _)). by rewrite to_bytes_app. }
  rewrite abs_clean by (apply HasPrefix_app, abs_rooted). f_equal. unfold comps.
  rewrite HasPrefix_app by apply abs_rooted. rewrite parts_app, foldl_app. change (path_parts "") with [""]. cbn [foldl].
  change (clean_step true ?st "") with st. rewrite <- (comps_abs cs) at 2 by done. unfold comps. by rewrite abs_rooted.
Qed.
Lemma path_Base_abs cs c : Forall normal (cs ++ [c]) → path_Base (abs_text (cs ++ [c])) = c.
Proof.
  intros [Hcs (Hne & _ & _ & Hc)%Forall_singleton]%Forall_app. destruct (abs_snoc cs c) as (x & -> & Hx). unfold path_Base.
  rewrite bool_decide_eq_false_2.
  2: { intros E. apply (f_equal to_bytes) in E. rewrite !to_bytes_app in E. by destruct (to_bytes x). }
  rewrite !to_bytes_app. cbn [String.list_ascii_of_string app]. rewrite reverse_app, reverse_cons, <- app_assoc. cbn [app].
  assert (to_bytes c ≠ []) as Hb by (intros E; apply Hne; rewrite <- (of_to_bytes c), E; done).
  destruct (reverse (to_bytes c)) as [|a l] eqn:E; [by apply (f_equal reverse) in E; rewrite reverse_involutive in E|].
  assert (a ≠ "/"%char) as Ha by (intros ->; apply Hc; rewrite <- elem_of_reverse, E; by left).
  assert ("/"%char ∉ a :: l) as Hal by (by rewrite <- E, elem_of_reverse).
  cbn [app drop_slashes]. rewrite !(bool_decide_eq_false_2 (a = "/"%char)) by done. rewrite bool_decide_eq_false_2 by done.
  change (a :: l ++ "/"%char :: reverse (to_bytes x)) with ((a :: l) ++ "/"%char :: reverse (to_bytes x)).
  rewrite take_until_slash_app, <- E, reverse_involutive by done. apply of_to_bytes.
Qed.

(** *** Clean relative names *)

(** A stack of a relative path: some [..] at the bottom, normal parts above. *)
Definition rel_stack (stack : list string) : Prop := ∃ n k, stack = n ++ replicate k ".." ∧ Forall normal n.
Lemma clean_rel_stack parts : Forall (λ c, "/"%char ∉ to_bytes c) parts → ∀ stack, rel_stack stack →
  rel_stack (foldl (clean_step false) stack parts).
Proof.
  induction 1 as [|c parts Hc _ IH]; intros stack Hs; cbn [foldl]; [done|]. apply IH. unfold clean_step.
  case_bool_decide as H1; [done|]. case_bool_decide as H2; [done|]. cbn [orb]. destruct Hs as (n & k & -> & Hn).
  case_bool_decide as H3.
  - subst c. destruct n as [|top n].
    + exists [], (S k). split; [|done]. destruct k; [done|]. cbn [replicate app]. by rewrite bool_decide_eq_true_2.
    + apply Forall_cons in Hn as [(_ & _ & Ht & _) Hn]. cbn [app]. rewrite bool_decide_eq_false_2 by done. by exists n, k.
  - exists (c :: n), k. split; [done|]. constructor; [by split_and!|done].
Qed.
Lemma comps_relative p : HasPrefix p "/" = false → ∃ k n, comps p = replicate k ".." ++ n ∧ Forall normal n.
Proof.
  intros H. unfold comps. rewrite H. destruct (clean_rel_stack (path_parts p) (part_no_slash p) []) as (n & k & -> & Hn).
  { by exists [], 0%nat. }
  exists k, (reverse n). rewrite reverse_app, reverse_replicate. split; [done|by apply Forall_reverse].
Qed.
(** A relative path that is clean and does not start with [..] consists of normal parts. *)
Lemma clean_relative_normal p : HasPrefix p "/" = false → path_Clean p = p → p ≠ "." → p ≠ ".." → HasPrefix p "../" = false →
  Forall normal (path_parts p) ∧ path_parts p = comps p.
Proof.
  intros Hr Hc Hd Hdd Hpre. rewrite path_Clean_comps, Hr in Hc. destruct (comps_relative p Hr) as (k & n & Hk & Hn).
  case_bool_decide as He; [congruence|]. destruct k as [|k].
  - cbn [replicate app] in Hk. assert (comps p ≠ []) as Hne by (intros E; by rewrite E in He).
    rewrite <- Hc at 1 2. rewrite split_join; [rewrite Hk; done|done|]. rewrite Hk. by apply normal_no_slash.
  - exfalso. rewrite Hk in Hc. cbn [replicate app] in Hc. destruct (replicate k ".." ++ n) as [|c cs]; [by apply Hdd|].
    unfold HasPrefix in Hpre. rewrite <- Hc in Hpre. change (join "/" (".." :: c :: cs)) with ("../" +:+ join "/" (c :: cs)) in Hpre.
    by rewrite to_bytes_app, is_prefix_app in Hpre.
Qed.

(** [filepath.Rel] of two absolute paths. *)
Fixpoint strip_common (base targ : list string) : list string * list string :=
  match base, targ with
  | b :: base', t :: targ' => if bool_decide (b = t) then strip_common base' targ' else (base, targ)
  | _, _ => (base, targ)
  end.
Definition path_Rel (base targ : string) : string :=
  let '(b, t) := strip_common (comps base) (comps targ) in
  match (replicate (length b) ".." ++ t)%list with [] => "." | l => join "/" l end.

Lemma strip_common_app b t : strip_common b (b ++ t) = ([], t).
Proof. induction b as [|x b IH]; [by destruct t|]. cbn. by rewrite bool_decide_eq_true_2. Qed.

(** ** Trees *)

Inductive node := NDir | NFile (body : string) | NLink.
#[global] Instance node_eq_dec : EqDecision node.
Proof. solve_decision. Defined.
Notation tree := (gmap (list string) node).
Notation dir_path := (list string).

(** What the system answers: the call succeeds, or fails having done a part of it - the
    first directories, the first bytes, the removals a predicate selects. *)
Inductive answer := AOk | AFail (part : nat) (removed : dir_path → bool).

(** [os.MkdirAll] on the components below [base]. *)
Fixpoint mkdir_below (budget : nat) (base cs : dir_path) (t : tree) : bool * tree :=
  match cs with
  | [] => (true, t)
  | c :: cs =>
      let p := base ++ [c] in
      match t !! p with
      | Some NDir => mkdir_below budget p cs t
      | Some _ => (false, t)
      | None =>
          match budget with
          | 0%nat => (false, t)
          | S budget => mkdir_below budget p cs (<[p := NDir]> t)
          end
      end
  end.
Definition os_MkdirAll (a : answer) (p : string) (t : tree) : bool * tree :=
  match a with
  | AOk => mkdir_below (length (comps p)) [] (comps p) t
  | AFail n _ => (false, (mkdir_below n [] (comps p) t).2)
  end.

(** Creating or truncating a file and writing [body] to it; a failure leaves the file
    as it was, or with a part of the body. *)
Definition parent_dir (p : dir_path) (t : tree) : bool :=
  match p with
  | [] => false
  | _ => bool_decide (removelast p = []) || bool_decide (t !! removelast p = Some NDir)
  end.
Definition os_WriteFile (a : answer) (p : string) (body : string) (t : tree) : bool * tree :=
  let p := comps p in
  if negb (parent_dir p t) || bool_decide (t !! p = Some NDir) then (false, t) else
  match a with
  | AOk => (true, <[p := NFile body]> t)
  | AFail 0 _ => (false, t)
  | AFail (S n) _ => (false, <[p := NFile (of_bytes (take n (to_bytes body)))]> t)
  end.

Definition below (p k : dir_path) : bool := bool_decide (p `prefix_of` k).
(** [os.RemoveAll]; a failure removes some of the entries. *)
Definition os_RemoveAll (a : answer) (p : string) (t : tree) : bool * tree :=
  let p := comps p in
  match a with
  | AOk => (true, filter (λ kx, below p kx.1 = false) t)
  | AFail _ removed => (false, filter (λ kx, below p kx.1 && removed kx.1 = false) t)
  end.
(** [os.Remove]: a file, a link or an empty directory. *)
Inductive remove_result := Removed | NotThere | NotRemoved.
Definition os_RemoveOne (a : answer) (p : string) (t : tree) : remove_result * tree :=
  let p := comps p in
  match t !! p with
  | None => (NotThere, t)
  | Some _ =>
      if negb (bool_decide (filter (λ kx, below p kx.1 && negb (bool_decide (kx.1 = p)) = true) t = ∅)) then (NotRemoved, t) else
      match a with AOk => (Removed, delete p t) | AFail _ _ => (NotRemoved, t) end
  end.

(** The entries below a path, by their relative paths, and a tree put below a path. *)
Definition subtree (p : dir_path) (t : tree) : tree :=
  list_to_map ((λ kx, (drop (length p) kx.1, kx.2)) <$> map_to_list (filter (λ kx, below p kx.1 = true) t)).
Definition graft (p : dir_path) (t : tree) : tree := kmap (p ++.) t.
(** [os.Rename] to a name that is free: the entries below move with it. *)
Definition os_RenameTree (a : answer) (src dst : string) (t : tree) : bool * tree :=
  let src := comps src in
  let dst := comps dst in
  match a with
  | AFail _ _ => (false, t)
  | AOk =>
      if bool_decide (t !! src = None) || negb (bool_decide (t !! dst = None)) || negb (parent_dir dst t) || below src dst then (false, t) else
      (true, graft dst (subtree src t) ∪ filter (λ kx, below src kx.1 = false) t)
  end.

(** *** What the operations change *)

Lemma below_spec p k : below p k = true ↔ ∃ r, k = p ++ r.
Proof. unfold below. rewrite bool_decide_eq_true. done. Qed.
Lemma below_app p r : below p (p ++ r) = true.
Proof. apply below_spec. eauto. Qed.

Lemma lookup_subtree p t r : subtree p t !! r = t !! (p ++ r).
Proof.
  unfold subtree. set (l := map_to_list (filter (λ kx, below p kx.1 = true) t)).
  assert (∀ k x, (k, x) ∈ l ↔ t !! k = Some x ∧ below p k = true) as Hl.
  { intros k x. unfold l. rewrite elem_of_map_to_list, map_lookup_filter_Some. done. }
  assert (NoDup ((λ kx : dir_path * node, (drop (length p) kx.1, kx.2)) <$> l).*1) as Hnd.
  { rewrite <- list_fmap_compose. assert (NoDup l) as Hn by apply NoDup_map_to_list.
    assert (NoDup l.*1) as Hn1 by apply NoDup_fst_map_to_list. clear Hn.
    replace (fst ∘ _ <$> l) with (drop (length p) <$> l.*1) by (by rewrite <- list_fmap_compose).
    assert (∀ k, k ∈ l.*1 → below p k = true) as Hb.
    { intros k Hk. apply list_elem_of_fmap in Hk as ([k' x] & -> & Hk). by apply Hl in Hk as [_ Hk]. }
    clear Hl. clearbody l. induction Hn1 as [|k ks Hk Hn1 IH]; [constructor|]. rewrite fmap_cons. constructor.
    - intros Hin. apply list_elem_of_fmap in Hin as (k' & E & Hk'). apply Hk.
      assert (below p k = true) as [r1 ->]%below_spec by (apply Hb; by left).
      assert (below p k' = true) as [r2 ->]%below_spec by (apply Hb; by right).
      rewrite !drop_app_length in E. by subst.
    - apply IH. intros k' Hk'. apply Hb. by right. }
  apply option_eq. intros x. rewrite <- elem_of_list_to_map by done. rewrite list_elem_of_fmap. split.
  - intros ([k y] & [= -> ->] & [Hk [r' ->]%below_spec]%Hl). by rewrite drop_app_length.
  - intros Hx. exists (p ++ r, x). cbn. rewrite drop_app_length. split; [done|]. apply Hl. split; [done|apply below_app].
Qed.
Lemma lookup_graft p t r : graft p t !! (p ++ r) = t !! r.
Proof. unfold graft. apply (lookup_kmap (M1 := gmap (list string)) (M2 := gmap (list string)) (p ++.)). Qed.
Lemma lookup_graft_none p t k : below p k = false → graft p t !! k = None.
Proof.
  intros H. unfold graft. apply lookup_kmap_None; [apply _|]. intros r ->. by rewrite below_app in H.
Qed.

(** Nothing changes outside [P], except that directories appear at places of [Q]. *)
Definition confined (P Q : dir_path → Prop) (t t' : tree) : Prop := ∀ k, ¬ P k →
  t' !! k = t !! k ∨ (Q k ∧ t !! k = None ∧ t' !! k = Some NDir).
Lemma confined_refl P Q t : confined P Q t t.
Proof. intros k _. by left. Qed.
Lemma confined_trans P Q t1 t2 t3 : confined P Q t1 t2 → confined P Q t2 t3 → confined P Q t1 t3.
Proof.
  intros H1 H2 k Hk. destruct (H1 k Hk) as [E1|(Hq & N1 & E1)], (H2 k Hk) as [E2|(Hq2 & N2 & E2)].
  - left. congruence.
  - right. split_and!; [done|congruence|done].
  - right. split_and!; [done|done|congruence].
  - congruence.
Qed.

Lemma mkdir_below_confined (P Q : dir_path → Prop) n : ∀ cs base t, (∀ r, r `prefix_of` cs → r ≠ [] → P (base ++ r) ∨ Q (base ++ r)) →
  confined P Q t (mkdir_below n base cs t).2.
Proof.
  intros cs. revert n. induction cs as [|c cs IH]; intros n base t HQ; cbn [mkdir_below]; [apply confined_refl|].
  assert (∀ r, r `prefix_of` cs → r ≠ [] → P ((base ++ [c]) ++ r) ∨ Q ((base ++ [c]) ++ r)) as HQ'.
  { intros r Hr _. rewrite <- app_assoc. apply HQ; [by apply prefix_cons|done]. }
  destruct (t !! (base ++ [c])) as [[| |]|] eqn:E; [by apply IH|apply confined_refl..|].
  destruct n as [|n]; [apply confined_refl|]. eapply confined_trans; [|by apply IH].
  intros k Hk. destruct (decide (k = base ++ [c])) as [->|Hne]; [|left; by rewrite lookup_insert_ne].
  right. rewrite lookup_insert_eq. split_and!; [|done|done]. destruct (HQ [c]) as [?|?]; [by exists cs|done..].
Qed.
Lemma MkdirAll_confined (P Q : dir_path → Prop) a p t : (∀ r, r `prefix_of` comps p → r ≠ [] → P r ∨ Q r) → confined P Q t (os_MkdirAll a p t).2.
Proof. intros H. destruct a; by apply mkdir_below_confined. Qed.
Lemma WriteFile_confined (P Q : dir_path → Prop) a p body t : P (comps p) → confined P Q t (os_WriteFile a p body t).2.
Proof.
  intros H k Hk. left. unfold os_WriteFile. destruct (_ || _); [done|]. assert (k ≠ comps p) by (by intros ->).
  destruct a as [|[|n]]; cbn [snd]; [by rewrite lookup_insert_ne|done|by rewrite lookup_insert_ne].
Qed.
Lemma filter_below_other (p : dir_path) (f : dir_path → bool) (t : tree) (k : dir_path) : below p k = false → filter (λ kx : dir_path * node, below p kx.1 && f kx.1 = false) t !! k = t !! k.
Proof.
  intros Hk. apply option_eq. intros x. rewrite map_lookup_filter_Some. cbn. rewrite Hk. naive_solver.
Qed.
Lemma RemoveAll_confined (P Q : dir_path → Prop) a p t : (∀ r, P (comps p ++ r)) → confined P Q t (os_RemoveAll a p t).2.
Proof.
  intros H k Hk. left. assert (below (comps p) k = false) as Hb.
  { apply not_true_iff_false. intros [r ->]%below_spec. by apply Hk. }
  destruct a as [|n f]; cbn [os_RemoveAll snd]; [|by apply filter_below_other].
  apply option_eq. intros x. rewrite map_lookup_filter_Some. cbn. naive_solver.
Qed.
Lemma RemoveOne_confined (P Q : dir_path → Prop) a p t : P (comps p) → confined P Q t (os_RemoveOne a p t).2.
Proof.
  intros H k Hk. left. unfold os_RemoveOne. destruct (t !! comps p); [|done]. destruct (negb _); [done|].
  destruct a; [|done]. cbn [snd]. by rewrite lookup_delete_ne by (by intros <-).
Qed.
Lemma RenameTree_confined (P Q : dir_path → Prop) a src dst t : (∀ r, P (comps src ++ r)) → (∀ r, P (comps dst ++ r)) →
  confined P Q t (os_RenameTree a src dst t).2.
Proof.
  intros Hs Hd k Hk. left. unfold os_RenameTree. destruct a; [|done]. destruct (_ || _ || _ || _); [done|]. cbn [snd].
  assert (below (comps src) k = false ∧ below (comps dst) k = false) as [Hb1 Hb2].
  { split; apply not_true_iff_false; intros [r ->]%below_spec; by apply Hk. }
  rewrite lookup_union_r by (by apply lookup_graft_none). apply option_eq. intros x. rewrite map_lookup_filter_Some. cbn. naive_solver.
Qed.

(** *** Calls that succeed *)

(** Every entry lies in a directory. *)
Definition tree_wf (t : tree) : Prop := ∀ k c, is_Some (t !! (k ++ [c])) → k = [] ∨ t !! k = Some NDir.

Lemma parent_dir_snoc (ds : dir_path) (a : string) (t : tree) : ds = [] ∨ t !! ds = Some NDir → parent_dir (ds ++ [a]) t = true.
Proof.
  intros H. unfold parent_dir. rewrite removelast_last. destruct (ds ++ [a]) eqn:E; [by destruct ds|].
  destruct H as [-> | ->]; [done|]. by rewrite (bool_decide_eq_true_2 (Some NDir = _)), orb_true_r.
Qed.
Lemma tree_wf_prefix t k : tree_wf t → is_Some (t !! k) → ∀ r, r `prefix_of` k → r ≠ [] → r ≠ k → t !! r = Some NDir.
Proof.
  intros Hwf. induction k as [|c k IH] using rev_ind; intros Hk r [x E] Hr Hne; [by destruct r|].
  destruct x as [|y x _] using rev_ind; [by rewrite app_nil_r in E|].
  rewrite app_assoc in E. apply app_inj_tail in E as [E _]. destruct (Hwf k c Hk) as [->|Hd]; [by destruct r|].
  destruct (decide (r = k)) as [->|Hne2]; [done|]. apply IH; [by rewrite Hd|by exists x|done|done].
Qed.

(** [MkdirAll] succeeds when no file is in the way, and makes exactly the missing directories. *)
Lemma mkdir_below_ok cs : ∀ base t n, (length cs ≤ n)%nat →
  (∀ r, r `prefix_of` cs → r ≠ [] → t !! (base ++ r) = None ∨ t !! (base ++ r) = Some NDir) →
  ∃ t', mkdir_below n base cs t = (true, t') ∧
    (∀ r, r `prefix_of` cs → r ≠ [] → t' !! (base ++ r) = Some NDir) ∧
    ∀ k, (∀ r, r `prefix_of` cs → r ≠ [] → k ≠ base ++ r) → t' !! k = t !! k.
Proof.
  induction cs as [|c cs IH]; intros base t n Hn Hok; cbn [mkdir_below].
  { exists t. split_and!; [done| |done]. intros r [k E] Hr. by destruct r. }
  assert (∀ t', (∀ k, k ≠ base ++ [c] → t' !! k = t !! k) → t' !! (base ++ [c]) = Some NDir → ∀ n, (length cs ≤ n)%nat → ∃ t'',
    mkdir_below n (base ++ [c]) cs t' = (true, t'') ∧ (∀ r, r `prefix_of` c :: cs → r ≠ [] → t'' !! (base ++ r) = Some NDir) ∧
    ∀ k, (∀ r, r `prefix_of` c :: cs → r ≠ [] → k ≠ base ++ r) → t'' !! k = t !! k) as Hstep.
  { intros t' Ht' Hc n' Hn'. destruct (IH (base ++ [c]) t' n' Hn') as (t'' & E & H1 & H2).
    { intros r Hr Hne. rewrite <- app_assoc, Ht' by (intros E; apply app_inv_head in E; injection E as ->; done).
      apply Hok; [by apply prefix_cons|done]. }
    exists t''. split_and!; [done| |].
    - intros r [k E'] Hne. destruct r as [|x r]; [done|]. injection E' as <- E'. destruct (decide (r = [])) as [->|Hr].
      + rewrite H2; [done|]. intros q Hq Hqn Eq. rewrite <- (app_nil_r (base ++ [c])) in Eq at 1. apply app_inv_head in Eq. congruence.
      + specialize (H1 r). rewrite <- app_assoc in H1. apply H1; [by exists k|done].
    - intros k Hk. rewrite H2; [apply Ht'; apply (Hk [c]); [by exists cs|done]|].
      intros r Hr Hne. rewrite <- app_assoc. apply Hk; [by apply prefix_cons|done]. }
  destruct (Hok [c]) as [E|E]; [by exists cs|done|..]; rewrite E; cbn [length] in Hn.
  - destruct n as [|n]; [lia|]. apply Hstep; [|apply lookup_insert_eq|lia]. intros k Hk. by rewrite lookup_insert_ne.
  - apply Hstep; [done|done|lia].
Qed.
Lemma MkdirAll_ok p t : (∀ r, r `prefix_of` comps p → r ≠ [] → t !! r = None ∨ t !! r = Some NDir) →
  ∃ t', os_MkdirAll AOk p t = (true, t') ∧ (∀ r, r `prefix_of` comps p → r ≠ [] → t' !! r = Some NDir) ∧
    ∀ k, (¬ k `prefix_of` comps p ∨ k = []) → t' !! k = t !! k.
Proof.
  intros H. destruct (mkdir_below_ok (comps p) [] t _ (le_n _) H) as (t' & E & H1 & H2). exists t'. split_and!; [done|done|].
  intros k Hk. apply H2. intros r Hr Hne ->. destruct Hk; [done|]. by destruct r.
Qed.
(** An existing directory stays as it is. *)
Lemma MkdirAll_existing p t : tree_wf t → comps p = [] ∨ t !! comps p = Some NDir → os_MkdirAll AOk p t = (true, t).
Proof.
  intros Hwf Hp. assert (∀ r, r `prefix_of` comps p → r ≠ [] → t !! r = Some NDir) as Hd.
  { intros r Hr Hne. destruct Hp as [E|Hd]; [rewrite E in Hr; destruct Hr as [k E2]; by destruct r|].
    destruct (decide (r = comps p)) as [->|Hn]; [done|]. by eapply tree_wf_prefix. }
  destruct (MkdirAll_ok p t) as (t' & E & H1 & H2); [auto|]. rewrite E. f_equal. apply map_eq. intros k.
  destruct (decide (k `prefix_of` comps p)) as [Hk|Hk]; [|auto]. destruct (decide (k = [])) as [->|Hne]; [auto|]. by rewrite H1, Hd.
Qed.
