(* ===== verification/Backup.v ===== *)
(** * Backup and restore ([src/cmd/mesh-ctl/cmd/backup.go])

    The archive of the operator's state and its restoration, over the trees of
    [GoFiles]. A zip archive is the list of its members; its encoding and that of the
    manifest are parameters, as are the working directory, the home directory, the
    clock and what the system answers to each call. *)

From S2P Require Import Prelude GoStrings GoNet GoPath GoText GoFiles.

Definition backupArchiveFormat : string := "awg-mesh-backup".
Definition backupArchiveVersion : Z := 1.
Definition backupManifestName : string := "manifest.json".
Definition backupLocalConfigPrefix : string := "local-config".
Definition backupTopologyPrefix : string := "topology".
Definition backupControlPlanePrefix : string := "control-plane-state".
Definition backupRestoreTempUnixNano : nat := 36.

Record backupManifestIncludes := MkIncludes { bi_LocalConfig : bool; bi_Topology : bool; bi_ControlPlaneState : bool }.
Record backupManifestEntry := MkManifestEntry { be_Prefix : string; be_SourcePath : string; be_FileCount : Z; be_ByteCount : Z }.
Record backupManifest := MkManifest {
  bm_Format : string; bm_Version : Z; bm_CreatedAtUnix : Z; bm_ConfigDir : string; bm_TopologyPath : string;
  bm_Includes : backupManifestIncludes; bm_Entries : list backupManifestEntry
}.
Record backupOptions := MkBackupOptions { bo_archivePath : string; bo_topologyPath : string; bo_configDir : string; bo_controlPlaneStateDir : string }.
Record restoreOptions := MkRestoreOptions {
  ro_archivePath : string; ro_topologyPath : string; ro_configDir : string; ro_controlPlaneStateDir : string; ro_confirm : bool
}.

(** A member: the directory flag of its mode, and its contents. *)
Record member := MkMember { zm_name : string; zm_modeDir : bool; zm_body : string }.
(** [FileInfo().IsDir()]: a name that ends in a slash is a directory, too. *)
Definition member_IsDir (m : member) : bool := zm_modeDir m || HasSuffix (zm_name m) "/".

Inductive member_error := EmptyName | NotPortable | NotSafe | NoPrefix.
Inductive backup_error :=
  | ErrArchivePath | ErrAbs | ErrRequired (p : string) | ErrNotDirectory (p : string) | ErrIsDirectory (p : string)
  | ErrMkdirs (p : string) | ErrCreateArchive | ErrSource (p : dir_path) | ErrSymlink (p : dir_path) | ErrWriteArchive
  | ErrOpenArchive | ErrManifestMissing | ErrManifestRead | ErrManifestDecode
  | ErrFormat (f : string) | ErrVersion (v : Z) | ErrNoConfigState | ErrNoTopologyState | ErrUndeclaredState | ErrMemberPrefix (p : string)
  | ErrMember (name : string) (e : member_error) | ErrOutside (rel : string)
  | ErrNeedStateDir | ErrRestoreRoot (p : string) | ErrRestoreHome (p : string) | ErrRestoreFile | ErrInsideTarget (p : string) | ErrConfirm
  | ErrNoMembers (prefix : string) | ErrExtract (name : string) | ErrRemoveTarget (p : string) | ErrReplaceTarget (p : string)
  | ErrTopologyNested (name : string) | ErrTopologyMany | ErrTopologyNone.

(** ** Names *)

Definition TrimSuffix (s suf : string) : string :=
  if HasSuffix s suf then of_bytes (take (length (to_bytes s) - length (to_bytes suf)) (to_bytes s)) else s.
Definition archivePath (prefix rel : string) : string := prefix +:+ "/" +:+ path_Clean rel.

Definition validateArchiveMemberName (name : string) : res backup_error string :=
  check! negb (blank name) else ErrMember name EmptyName;
  check! negb (HasPrefix name "/" || Contains name "\") else ErrMember name NotPortable;
  let entryName := TrimSuffix name "/" in
  let clean := path_Clean entryName in
  check! negb (bool_decide (clean = ".") || negb (bool_decide (clean = entryName)) || HasPrefix clean "../" || bool_decide (clean = ".."))
    else ErrMember name NotSafe;
  match path_parts clean with
  | prefix :: _ :: _ => Ok prefix
  | _ => Err (ErrMember name NoPrefix)
  end.

Definition safeRestorePath (root archiveRel : string) : res backup_error string :=
  let! _ := validateArchiveMemberName ("x/" +:+ archiveRel) in
  let target := path_Clean (path_Join [root; archiveRel]) in
  let rel := path_Rel root target in
  if bool_decide (rel = ".") || HasPrefix rel ".." || HasPrefix rel "/" then Err (ErrOutside archiveRel) else Ok target.

Definition pathWithinDirectory (candidate dir : string) : bool :=
  let rel := path_Rel dir candidate in
  negb (bool_decide (rel = ".")) && negb (HasPrefix rel "..") && negb (HasPrefix rel "/").

(** [%0*x] with a width of 36. *)
Fixpoint hex_text (fuel : nat) (n : Z) (acc : list ascii) : list ascii :=
  match fuel with
  | 0%nat => acc
  | S fuel => hex_text fuel (n / 16) (hex_digit (n mod 16) :: acc)
  end.
Definition strconvUnixNano (now : Z) : string := of_bytes (hex_text backupRestoreTempUnixNano now []).

(** ** The file system *)

Record fsys := MkFsys { fy_tree : tree; fy_calls : nat }.
Definition F (X : Type) : Type := fsys → res backup_error X * fsys.
Definition fret {X} (x : X) : F X := λ s, (Ok x, s).
Definition ffail {X} (e : backup_error) : F X := λ s, (Err e, s).
Definition fbind {X Y} (m : F X) (k : X → F Y) : F Y := λ s,
  match m s with (Ok x, s) => k x s | (Err e, s) => (Err e, s) end.
Notation "'run!' x := m 'in' k" := (fbind m (λ x, k)) (at level 10, x pattern, m at level 100, k at level 200).
Notation "'exec!' m ; k" := (fbind m (λ _, k)) (at level 10, m at level 100, k at level 200).
Definition flift {X} (r : res backup_error X) : F X := λ s, (r, s).
(** [defer]: [cleanup] runs when [m] failed. *)
Definition on_error {X} (cleanup : F unit) (m : F X) : F X := λ s,
  match m s with (Ok x, s) => (Ok x, s) | (Err e, s) => (Err e, (cleanup s).2) end.

Section Files.
(** The answer to each call that changes the tree. *)
Context (ans : nat → answer).
Definition call (op : answer → tree → bool * tree) (e : backup_error) : F unit := λ s,
  let '(ok, t) := op (ans (fy_calls s)) (fy_tree s) in
  (if ok then Ok () else Err e, MkFsys t (S (fy_calls s))).
Definition ignore (op : answer → tree → bool * tree) : F unit := λ s,
  (Ok (), MkFsys (op (ans (fy_calls s)) (fy_tree s)).2 (S (fy_calls s))).

Context (cwd home : option string) (readable : dir_path → bool).

Definition path_Abs (p : string) : res backup_error string :=
  if HasPrefix p "/" then Ok (path_Clean p) else
  match cwd with Some d => Ok (path_Join [d; p]) | None => Err ErrAbs end.
Definition samePath (left right : string) : bool :=
  match path_Abs left, path_Abs right with
  | Ok l, Ok r => bool_decide (path_Clean l = path_Clean r)
  | _, _ => bool_decide (path_Clean left = path_Clean right)
  end.

Definition normalizedArchivePath (raw : string) : res backup_error string :=
  let trimmed := TrimSpace raw in
  if bool_decide (trimmed = "") then Err ErrArchivePath else
  let! abs := path_Abs trimmed in Ok (path_Clean abs).
(** [os.Stat]; the root is a directory. *)
Definition stat (p : string) (t : tree) : option node := if bool_decide (comps p = []) then Some NDir else t !! comps p.
Definition requireExistingDir (raw : string) : F string := λ s,
  (let! abs := path_Abs (TrimSpace raw) in
   match stat abs (fy_tree s) with
   | Some NDir => Ok (path_Clean abs)
   | Some _ => Err (ErrNotDirectory abs)
   | None => Err (ErrRequired abs)
   end, s).
Definition requireExistingFile (raw : string) : F string := λ s,
  (let! abs := path_Abs (TrimSpace raw) in
   match stat abs (fy_tree s) with
   | Some NDir => Err (ErrIsDirectory abs)
   | Some _ => Ok (path_Clean abs)
   | None => Err (ErrRequired abs)
   end, s).
Definition rejectDangerousRestoreTarget (target : string) : res backup_error unit :=
  if bool_decide (target = "/") || bool_decide (target = "") then Err (ErrRestoreRoot target) else
  match home with
  | Some h => if samePath target h then Err (ErrRestoreHome target) else Ok ()
  | None => Ok ()
  end.
Definition validateRestoreDirectory (raw : string) : res backup_error string :=
  let! abs := path_Abs (TrimSpace raw) in
  let clean := path_Clean abs in
  let! _ := rejectDangerousRestoreTarget clean in Ok clean.
Definition validateRestoreFile (raw : string) : res backup_error string :=
  let trimmed := TrimSpace raw in
  if bool_decide (trimmed = "") then Err ErrRestoreFile else
  let! abs := path_Abs trimmed in Ok (path_Clean abs).

(** ** Writing the archive *)

(** [filepath.WalkDir]: a directory before its entries, these in the order of their names. *)
Definition walk (root : dir_path) (t : tree) : list (dir_path * node) :=
  sort_by (λ kx, join (String "000" "") kx.1) (map_to_list (filter (λ kx, below root kx.1 = true) t)).

Record backupEntrySummary := MkSummary { sm_prefix : string; sm_sourcePath : string; sm_fileCount : Z; sm_byteCount : Z }.
Definition manifestEntry (s : backupEntrySummary) : backupManifestEntry :=
  MkManifestEntry (sm_prefix s) (sm_sourcePath s) (sm_fileCount s) (sm_byteCount s).

Fixpoint add_entries (archive root : dir_path) (prefix : string) (entries : list (dir_path * node)) (sm : backupEntrySummary)
    (zip : list member) : res backup_error (backupEntrySummary * list member) :=
  match entries with
  | [] => Ok (sm, zip)
  | (current, n) :: entries =>
      if negb (readable current) then Err (ErrSource current) else
      let rel := drop (length root) current in
      let name := archivePath prefix (join "/" rel) in
      match n with
      | NLink => Err (ErrSymlink current)
      | NDir =>
          if bool_decide (rel = []) then add_entries archive root prefix entries sm zip else
          add_entries archive root prefix entries sm (zip ++ [MkMember (name +:+ "/") true ""])
      | NFile body =>
          if bool_decide (current = archive) || bool_decide (rel = []) then add_entries archive root prefix entries sm zip else
          add_entries archive root prefix entries
            (MkSummary (sm_prefix sm) (sm_sourcePath sm) (sm_fileCount sm + 1) (sm_byteCount sm + Z.of_nat (length (to_bytes body))))
            (zip ++ [MkMember name false body])
      end
  end.
Definition addDirectory (archive prefix root : string) (zip : list member) : F (backupEntrySummary * list member) := λ s,
  (add_entries (comps archive) (comps root) prefix (walk (comps root) (fy_tree s)) (MkSummary prefix root 0 0) zip, s).
Definition addFile (prefix source : string) (zip : list member) : F (backupEntrySummary * list member) := λ s,
  (match fy_tree s !! comps source with
   | None => Err (ErrSource (comps source))
   | Some NDir => Err (ErrIsDirectory source)
   | Some NLink => Err (ErrSymlink (comps source))
   | Some (NFile body) =>
       check! readable (comps source) else ErrSource (comps source);
       Ok (MkSummary prefix source 1 (Z.of_nat (length (to_bytes body))), zip ++ [MkMember (archivePath prefix (path_Base source)) false body])
   end, s).

Context (zip_encode : list member → string) (zip_decode : string → option (list member)).
Context (json_encode : backupManifest → string) (json_decode : string → option backupManifest).
(** What an archive that was not finished holds. *)
Context (unfinished : string).

Definition write_members (now : Z) (options : backupOptions) (archive configRoot topologyFile : string) : F unit :=
  run! (configSummary, zip) := addDirectory archive backupLocalConfigPrefix configRoot [] in
  run! (topologySummary, zip) := addFile backupTopologyPrefix topologyFile zip in
  let entries := [manifestEntry configSummary; manifestEntry topologySummary] in
  run! (entries, state, zip) :=
    (if blank (bo_controlPlaneStateDir options) then fret (entries, false, zip) else
     run! controlPlaneRoot := requireExistingDir (bo_controlPlaneStateDir options) in
     run! (controlPlaneSummary, zip) := addDirectory archive backupControlPlanePrefix controlPlaneRoot zip in
     fret ((entries ++ [manifestEntry controlPlaneSummary])%list, true, zip)) in
  let manifest := MkManifest backupArchiveFormat backupArchiveVersion now configRoot topologyFile (MkIncludes true true state) entries in
  call (λ a, os_WriteFile a archive (zip_encode (zip ++ [MkMember backupManifestName false (json_encode manifest)]))) ErrWriteArchive.

Definition runBackupCommand (now : Z) (options : backupOptions) : F unit :=
  run! archive := flift (normalizedArchivePath (bo_archivePath options)) in
  run! configRoot := requireExistingDir (bo_configDir options) in
  run! topologyFile := requireExistingFile (bo_topologyPath options) in
  exec! call (λ a, os_MkdirAll a (path_Dir archive)) (ErrMkdirs (path_Dir archive));
  exec! call (λ a, os_WriteFile a archive "") ErrCreateArchive;
  on_error (ignore (λ _, os_WriteFile AOk archive unfinished)) (write_members now options archive configRoot topologyFile).

(** ** Reading the archive *)

(** Whether the contents of a member can be read. *)
Context (member_ok : member → bool).

Fixpoint readBackupManifest (zip : list member) : res backup_error backupManifest :=
  match zip with
  | [] => Err ErrManifestMissing
  | m :: zip =>
      if negb (bool_decide (zm_name m = backupManifestName)) then readBackupManifest zip else
      check! member_ok m else ErrManifestRead;
      match json_decode (zm_body m) with None => Err ErrManifestDecode | Some manifest => Ok manifest end
  end.

Fixpoint validate_members (state seenManifest : bool) (zip : list member) : res backup_error bool :=
  match zip with
  | [] => Ok seenManifest
  | m :: zip =>
      if bool_decide (zm_name m = backupManifestName) then validate_members state true zip else
      let! prefix := validateArchiveMemberName (zm_name m) in
      if bool_decide (prefix = backupLocalConfigPrefix) || bool_decide (prefix = backupTopologyPrefix)
      then validate_members state seenManifest zip else
      if bool_decide (prefix = backupControlPlanePrefix)
      then check! state else ErrUndeclaredState; validate_members state seenManifest zip
      else Err (ErrMemberPrefix prefix)
  end.
Definition validateBackupArchive (zip : list member) (manifest : backupManifest) : res backup_error unit :=
  check! bool_decide (bm_Format manifest = backupArchiveFormat) else ErrFormat (bm_Format manifest);
  check! bm_Version manifest =? backupArchiveVersion else ErrVersion (bm_Version manifest);
  check! bi_LocalConfig (bm_Includes manifest) else ErrNoConfigState;
  check! bi_Topology (bm_Includes manifest) else ErrNoTopologyState;
  let! seenManifest := validate_members (bi_ControlPlaneState (bm_Includes manifest)) false zip in
  check! seenManifest else ErrManifestMissing;
  Ok ().

(** ** Restoring *)

Definition extractZipFile (m : member) (targetPath : string) : F unit :=
  if negb (member_ok m) then ffail (ErrExtract (zm_name m)) else
  call (λ a, os_WriteFile a targetPath (zm_body m)) (ErrExtract (zm_name m)).

(** The members below a prefix, into a directory; whether there was one. *)
Fixpoint extract_members (prefix tempRoot : string) (found : bool) (zip : list member) : F bool :=
  match zip with
  | [] => fret found
  | m :: zip =>
      match CutPrefix (zm_name m) (prefix +:+ "/") with
      | None => extract_members prefix tempRoot found zip
      | Some rel =>
          if bool_decide (rel = "") then extract_members prefix tempRoot found zip else
          run! targetPath := flift (safeRestorePath tempRoot rel) in
          exec! (if member_IsDir m then call (λ a, os_MkdirAll a targetPath) (ErrMkdirs targetPath)
                 else exec! call (λ a, os_MkdirAll a (path_Dir targetPath)) (ErrMkdirs (path_Dir targetPath));
                      extractZipFile m targetPath);
          extract_members prefix tempRoot true zip
      end
  end.

Definition temp_root (now : Z) (targetRoot : string) : string :=
  path_Join [path_Dir targetRoot; "." +:+ path_Base targetRoot +:+ ".restore-" +:+ strconvUnixNano now].
Definition restoreDirectoryPrefix (now : Z) (zip : list member) (prefix targetDir : string) : F unit :=
  run! targetRoot := flift (validateRestoreDirectory targetDir) in
  let parent := path_Dir targetRoot in
  exec! call (λ a, os_MkdirAll a parent) (ErrMkdirs parent);
  let tempRoot := temp_root now targetRoot in
  exec! call (λ a, os_MkdirAll a tempRoot) (ErrMkdirs tempRoot);
  on_error (ignore (λ a, os_RemoveAll a tempRoot))
    (run! found := extract_members prefix tempRoot false zip in
     if negb found then ffail (ErrNoMembers prefix) else
     exec! call (λ a, os_RemoveAll a targetRoot) (ErrRemoveTarget targetRoot);
     call (λ a, os_RenameTree a tempRoot targetRoot) (ErrReplaceTarget targetRoot)).

Fixpoint topology_member (entry : option member) (zip : list member) : res backup_error (option member) :=
  match zip with
  | [] => Ok entry
  | m :: zip =>
      match CutPrefix (zm_name m) (backupTopologyPrefix +:+ "/") with
      | None => topology_member entry zip
      | Some rel =>
          if bool_decide (rel = "") || member_IsDir m then topology_member entry zip else
          if Contains rel "/" then Err (ErrTopologyNested (zm_name m)) else
          match entry with Some _ => Err ErrTopologyMany | None => topology_member (Some m) zip end
      end
  end.
Definition restoreTopologyFile (zip : list member) (topologyTarget : string) : F unit :=
  run! targetPath := flift (validateRestoreFile topologyTarget) in
  run! topologyEntry := flift (topology_member None zip) in
  match topologyEntry with
  | None => ffail ErrTopologyNone
  | Some m =>
      exec! call (λ a, os_MkdirAll a (path_Dir targetPath)) (ErrMkdirs (path_Dir targetPath));
      let tempPath := targetPath +:+ ".restore-tmp" in
      on_error (ignore (λ a t, (true, (os_RemoveOne a tempPath t).2)))
        (exec! extractZipFile m tempPath;
         exec! call (λ a t, let '(r, t) := os_RemoveOne a targetPath t in
                            (match r with NotRemoved => false | _ => true end, t)) (ErrRemoveTarget targetPath);
         call (λ a, os_RenameTree a tempPath targetPath) (ErrReplaceTarget targetPath))
  end.

Definition open_archive (archive : string) : F (list member) := λ s,
  (match fy_tree s !! comps archive with
   | Some (NFile data) => match zip_decode data with Some zip => Ok zip | None => Err ErrOpenArchive end
   | _ => Err ErrOpenArchive
   end, s).

(** The targets, validated in the order of the source: all is checked before the
    first change. *)
Definition restore_targets (options : restoreOptions) (archive : string) (state : bool) : res backup_error (string * string * string) :=
  if state && blank (ro_controlPlaneStateDir options) then Err ErrNeedStateDir else
  let! configTarget := validateRestoreDirectory (ro_configDir options) in
  let! topologyTarget := validateRestoreFile (ro_topologyPath options) in
  if pathWithinDirectory archive configTarget then Err (ErrInsideTarget configTarget) else
  let! controlPlaneTarget :=
    if state then
      let! target := validateRestoreDirectory (ro_controlPlaneStateDir options) in
      if pathWithinDirectory archive target then Err (ErrInsideTarget target) else Ok target
    else Ok "" in
  check! ro_confirm options else ErrConfirm;
  Ok (configTarget, topologyTarget, controlPlaneTarget).
Definition runRestoreCommand (now : nat → Z) (options : restoreOptions) : F unit :=
  run! archive := flift (normalizedArchivePath (ro_archivePath options)) in
  run! zip := open_archive archive in
  run! manifest := flift (readBackupManifest zip) in
  exec! flift (validateBackupArchive zip manifest);
  let state := bi_ControlPlaneState (bm_Includes manifest) in
  run! (configTarget, topologyTarget, controlPlaneTarget) := flift (restore_targets options archive state) in
  exec! restoreDirectoryPrefix (now 0%nat) zip backupLocalConfigPrefix configTarget;
  exec! restoreTopologyFile zip topologyTarget;
  if state then restoreDirectoryPrefix (now 1%nat) zip backupControlPlanePrefix controlPlaneTarget else fret ().
End Files.

(** ** Names of members *)

Lemma TrimSuffix_slash s : TrimSuffix s "/" = s ∨ s = TrimSuffix s "/" +:+ "/".
Proof.
  unfold TrimSuffix. destruct (HasSuffix s "/") eqn:H; [right|by left]. unfold HasSuffix in H. apply is_prefix_spec in H as [r H].
  change (reverse (to_bytes "/")) with ["/"%char] in H. apply (f_equal reverse) in H. rewrite reverse_involutive, reverse_app in H.
  change (reverse ["/"%char]) with ["/"%char] in H. rewrite <- (of_to_bytes s) at 1. rewrite H, length_app.
  change (length (to_bytes "/")) with 1%nat. cbn [length]. replace (length (reverse r) + 1 - 1)%nat with (length (reverse r)) by lia.
  rewrite take_app_length. rewrite <- (of_to_bytes (of_bytes (reverse r) +:+ "/")), to_bytes_app, to_of_bytes. done.
Qed.

(** A member name that passes consists of normal parts, at least two, and perhaps a slash. *)
Lemma member_name_parts name prefix : validateArchiveMemberName name = Ok prefix →
  ∃ p ps, Forall normal (prefix :: p :: ps) ∧ (path_parts name = prefix :: p :: ps ∨ path_parts name = prefix :: p :: ps ++ [""]).
Proof.
  unfold validateArchiveMemberName. intros H. inv_res. bool_to_prop.
  set (e := TrimSuffix name "/") in *. assert (HasPrefix e "/" = false) as He.
  { destruct (TrimSuffix_slash name) as [E|E]; fold e in E; [by rewrite E|]. apply not_true_iff_false. intros Hp.
    rewrite E, (HasPrefix_app e "/" "/" Hp) in *. done. }
  rewrite H3 in *. destruct (clean_relative_normal e He) as [Hn _]; [done..|].
  destruct (path_parts e) as [|p0 [|p ps]] eqn:Hparts; [done..|]. injection H as ->. exists p, ps. split; [done|].
  destruct (TrimSuffix_slash name) as [E|E]; fold e in E; [left; by rewrite <- E|right].
  rewrite E. change (e +:+ "/") with (e +:+ "/" +:+ ""). rewrite parts_app, Hparts. done.
Qed.

(** A path to restore to lies properly below the root. *)
Lemma safe_path root rel target : HasPrefix root "/" = true → safeRestorePath root rel = Ok target →
  ∃ ps, ps ≠ [] ∧ Forall normal ps ∧ target = abs_text (comps root ++ ps).
Proof.
  intros Hr. unfold safeRestorePath. intros H. inv_res.
  destruct (member_name_parts _ _ Ha) as (p & ps & Hn & Hp). apply Forall_cons in Hn as [_ Hn]. exists (p :: ps). split; [done|]. split; [done|].
  change ("x/" +:+ rel) with ("x" +:+ "/" +:+ rel) in Hp. rewrite (parts_app "x" rel) in Hp. change (path_parts "x") with ["x"] in Hp. cbn [app] in Hp.
  assert (path_parts rel = p :: ps ∨ path_parts rel = (p :: ps) ++ [""]) as Hrel by (destruct Hp as [Hp|Hp]; injection Hp as _ Hp; auto).
  assert (rel ≠ "") as Hne.
  { intros ->. change (path_parts "") with [""] in Hrel. apply Forall_cons in Hn as [(Hne & _) _].
    destruct Hrel as [E|E]; injection E as E; [congruence|]. destruct ps; done. }
  pose proof (comps_Join_normal root rel (p :: ps) Hr Hne Hn Hrel) as Hcomps.
  rewrite abs_clean by (by apply comps_Join). by rewrite Hcomps.
Qed.

(** ** Restoring stays in its place *)

Section Confined.
Context (ans : nat → answer) (cwd home : option string) (readable : dir_path → bool).
Context (zip_decode : string → option (list member)) (json_decode : string → option backupManifest) (member_ok : member → bool).
Context (Hcwd : ∀ d, cwd = Some d → HasPrefix d "/" = true).

Section Area.
Context (P Q : dir_path → Prop).
Definition keeps {X} (m : F X) : Prop := ∀ s, confined P Q (fy_tree s) (fy_tree (m s).2).

Lemma kept_ret {X} (x : X) : keeps (fret x).
Proof. intros s. apply confined_refl. Qed.
Lemma kept_fail {X} e : keeps (X := X) (ffail e).
Proof. intros s. apply confined_refl. Qed.
Lemma kept_lift {X} (r : res backup_error X) : keeps (flift r).
Proof. intros s. apply confined_refl. Qed.
Lemma kept_bind {X Y} (m : F X) (k : X → F Y) : keeps m → (∀ x, keeps (k x)) → keeps (fbind m k).
Proof.
  intros Hm Hk s. unfold fbind. specialize (Hm s). destruct (m s) as [[x|e] s1]; [|done].
  eapply confined_trans; [exact Hm|apply Hk].
Qed.
(** Continuations that use what an earlier check established. *)
Lemma kept_lift_bind {X Y} (r : res backup_error X) (k : X → F Y) : (∀ x, r = Ok x → keeps (k x)) → keeps (fbind (flift r) k).
Proof. intros Hk s. unfold fbind, flift. destruct r as [x|e]; [by apply Hk|apply confined_refl]. Qed.
Lemma kept_on_error {X} c (m : F X) : keeps c → keeps m → keeps (on_error c m).
Proof.
  intros Hc Hm s. unfold on_error. specialize (Hm s). destruct (m s) as [[x|e] s1]; [done|].
  eapply confined_trans; [exact Hm|apply Hc].
Qed.
Lemma kept_call op e : (∀ a t, confined P Q t (op a t).2) → keeps (call ans op e).
Proof. intros H s. unfold call. specialize (H (ans (fy_calls s)) (fy_tree s)). by destruct (op _ _) as [[] t]. Qed.
Lemma kept_ignore op : (∀ a t, confined P Q t (op a t).2) → keeps (ignore ans op).
Proof. intros H s. apply H. Qed.

Lemma kept_MkdirAll p e : (∀ r, r `prefix_of` comps p → r ≠ [] → P r ∨ Q r) → keeps (call ans (λ a, os_MkdirAll a p) e).
Proof. intros H. apply kept_call. intros a t. by apply MkdirAll_confined. Qed.
Lemma kept_extract m p : P (comps p) → keeps (extractZipFile ans member_ok m p).
Proof.
  intros H. unfold extractZipFile. destruct (negb _); [apply kept_fail|]. apply kept_call. intros a t. by apply WriteFile_confined.
Qed.

Lemma kept_members prefix tempRoot zip : HasPrefix tempRoot "/" = true → (∀ r, P (comps tempRoot ++ r)) →
  (∀ r, r `prefix_of` comps tempRoot → r ≠ [] → P r ∨ Q r) → ∀ found, keeps (extract_members ans member_ok prefix tempRoot found zip).
Proof.
  intros Hr Hb Ha. induction zip as [|m zip IH]; intros found; cbn [extract_members]; [apply kept_ret|].
  destruct (CutPrefix _ _) as [rel|]; [|done]. destruct (bool_decide (rel = "")); [done|].
  apply kept_lift_bind. intros target (ps & Hne & Hn & ->)%safe_path; [|done].
  assert (Forall normal (comps tempRoot ++ ps)) as Hall by (apply Forall_app; split; [by apply comps_normal|done]).
  assert (∀ qs, qs `prefix_of` comps tempRoot ++ ps → qs ≠ [] → P qs ∨ Q qs) as Hpre.
  { intros qs [k E] Hqs. destruct (decide (qs `prefix_of` comps tempRoot)) as [Hp|Hp]; [by apply Ha|]. left.
    assert (comps tempRoot `prefix_of` qs) as [r ->]; [|apply Hb].
    destruct (prefix_weak_total (comps tempRoot) qs (comps tempRoot ++ ps)) as [?|?]; [by eexists|by eexists|done|done]. }
  destruct (exists_last Hne) as (ps' & c & ->). rewrite app_assoc in *.
  apply kept_bind; [|intros _; apply IH]. destruct (member_IsDir m).
  - apply kept_MkdirAll. by rewrite comps_abs.
  - apply kept_bind; [|intros _].
    + apply kept_MkdirAll. rewrite path_Dir_abs by done. rewrite comps_abs by (by apply Forall_app in Hall as [? _]).
      intros r Hpr. apply Hpre. by apply prefix_app_r.
    + apply kept_extract. rewrite comps_abs by done. rewrite <- app_assoc. apply Hb.
Qed.
End Area.

(** *** Targets *)

Lemma Abs_rooted p a : path_Abs cwd p = Ok a → HasPrefix a "/" = true.
Proof using Hcwd.
  unfold path_Abs. destruct (HasPrefix p "/") eqn:E; [intros [= <-]; by apply comps_clean|].
  destruct cwd as [d|] eqn:Hd; [|done]. intros [= <-]. specialize (Hcwd d eq_refl).
  destruct (decide (p = "")) as [->|Hne]; [|by apply comps_Join].
  unfold path_Join. rewrite !filter_cons, filter_nil, (decide_False (P := "" ≠ "")) by auto.
  rewrite decide_True by (by intros ->). change (join "/" [d]) with d. by apply comps_clean.
Qed.
Lemma Restore_directory raw c : validateRestoreDirectory cwd home raw = Ok c →
  ∃ cs b, c = abs_text (cs ++ [b]) ∧ Forall normal (cs ++ [b]).
Proof using Hcwd.
  unfold validateRestoreDirectory, rejectDangerousRestoreTarget. intros H. inv_res.
  apply Abs_rooted in Ha. rewrite abs_clean in * by done. pose proof (comps_normal _ Ha) as Hn.
  destruct (decide (comps a = [])) as [E|E]; [by rewrite E in Hc|]. clear Ha0.
  destruct (exists_last E) as (cs & b & Eb). rewrite Eb in *. by exists cs, b.
Qed.
Lemma Restore_file raw c : validateRestoreFile cwd raw = Ok c → ∃ cs, c = abs_text cs ∧ Forall normal cs.
Proof using Hcwd.
  unfold validateRestoreFile. intros H. inv_res. apply Abs_rooted in Ha. rewrite abs_clean by done. exists (comps a).
  split; [done|by apply comps_normal].
Qed.

Lemma hex_digit_no_slash d : 0 ≤ d < 16 → hex_digit d ≠ "/"%char.
Proof.
  intros Hd. assert (Forall (λ d, hex_digit d ≠ "/"%char) (seqZ 0 16)) as H by (apply (bool_decide_unpack _); by vm_compute).
  rewrite Forall_forall in H. apply H. apply elem_of_seqZ. lia.
Qed.
Lemma hex_text_no_slash fuel : ∀ n acc, "/"%char ∉ acc → "/"%char ∉ hex_text fuel n acc.
Proof.
  induction fuel as [|fuel IH]; intros n acc Ha; cbn [hex_text]; [done|]. apply IH. apply not_elem_of_cons. split; [|done].
  apply not_eq_sym, hex_digit_no_slash. apply Z.mod_pos_bound. lia.
Qed.
Definition temp_name (now : Z) (b : string) : string := "." +:+ b +:+ ".restore-" +:+ strconvUnixNano now.
Lemma temp_name_normal now b : normal b → normal (temp_name now b).
Proof.
  intros (_ & _ & _ & Hb). unfold temp_name, normal, strconvUnixNano.
  pose proof (hex_text_no_slash backupRestoreTempUnixNano now [] (not_elem_of_nil _)) as Hx.
  set (x := hex_text _ _ _) in *. clearbody x.
  assert (∀ t : string, (length (to_bytes t) < 3)%nat → "." +:+ b +:+ ".restore-" +:+ of_bytes x ≠ t) as Hlen.
  { intros t Ht E. rewrite <- E, !to_bytes_app, !length_app in Ht. cbn in Ht. lia. }
  split_and!; [apply Hlen; cbn; lia..|]. rewrite !to_bytes_app, to_of_bytes, !not_elem_of_app. split_and!; [|done| |done];
    apply (bool_decide_unpack (_ ∉ _)); by vm_compute.
Qed.
Lemma temp_root_abs now cs b : Forall normal (cs ++ [b]) → temp_root now (abs_text (cs ++ [b])) = abs_text (cs ++ [temp_name now b]).
Proof.
  intros Hn. unfold temp_root. rewrite path_Dir_abs, path_Base_abs by done. fold (temp_name now b).
  apply Forall_app in Hn as [Hcs Hb]. rewrite Forall_singleton in Hb. pose proof (temp_name_normal now b Hb) as Ht.
  assert (temp_name now b ≠ "") as Hne by apply Ht.
  destruct (comps_Join (abs_text cs) (temp_name now b) (abs_rooted cs) Hne) as [Hp _].
  assert (comps (path_Join [abs_text cs; temp_name now b]) = cs ++ [temp_name now b]) as Hc.
  { rewrite (comps_Join_normal _ _ [temp_name now b]); [by rewrite comps_abs|apply abs_rooted|done|by apply Forall_singleton|].
    left. destruct Ht as (_ & _ & _ & Ht). apply (split_join [temp_name now b]); [done|by apply Forall_singleton]. }
  unfold path_Join in *. rewrite !filter_cons, filter_nil in *. rewrite !decide_True in * by done.
  set (p := join "/" _) in *. assert (HasPrefix p "/" = true) as Hpp.
  { apply (HasPrefix_app (abs_text cs)), abs_rooted. }
  rewrite abs_clean in * by done. by rewrite comps_abs in Hc by (by apply comps_normal); rewrite Hc.
Qed.

(** *** The commands *)

Lemma kept_directory (P Q : dir_path → Prop) now zip prefix raw : 
  (∀ c, validateRestoreDirectory cwd home raw = Ok c →
     (∀ r, P (comps c ++ r)) ∧ (∀ r, P (comps (temp_root now c) ++ r)) ∧ (∀ r, r `prefix_of` comps (path_Dir c) → Q r)) →
  keeps P Q (restoreDirectoryPrefix ans cwd home member_ok now zip prefix raw).
Proof using Hcwd.
  intros HP. unfold restoreDirectoryPrefix. apply kept_lift_bind. intros c Hc. destruct (HP c Hc) as (H1 & H2 & H3).
  destruct (Restore_directory raw c Hc) as (cs & b & -> & Hn). rewrite temp_root_abs in * by done.
  assert (Forall normal (cs ++ [temp_name now b])) as Hnt.
  { apply Forall_app in Hn as [? Hb]. rewrite Forall_singleton in Hb. apply Forall_app. split; [done|]. by apply Forall_singleton, temp_name_normal. }
  rewrite path_Dir_abs in * by done.
  assert (∀ r, r `prefix_of` cs → Q r) as HQ by (intros r Hr; apply H3; rewrite comps_abs by (by apply Forall_app in Hn as [? _]); done).
  assert (∀ r, r `prefix_of` cs ++ [temp_name now b] → r ≠ [] → P r ∨ Q r) as Htemp.
  { intros r [k E] _. destruct k as [|x k] using rev_ind.
    - rewrite app_nil_r in E. subst r. left. rewrite <- (comps_abs (cs ++ _)) by done. rewrite <- (app_nil_r (comps _)). apply H2.
    - rewrite app_assoc in E. apply app_inj_tail in E as [-> _]. right. apply HQ. by exists k. }
  apply kept_bind; [|intros _].
  { apply kept_MkdirAll. rewrite comps_abs by (by apply Forall_app in Hn as [? _]). auto. }
  apply kept_bind; [|intros _]; [apply kept_MkdirAll; by rewrite comps_abs|].
  apply kept_on_error; [apply kept_ignore; intros; by apply RemoveAll_confined|].
  apply kept_bind; [|intros found].
  { apply kept_members; [apply abs_rooted|done|by rewrite comps_abs]. }
  destruct (negb found); [apply kept_fail|]. apply kept_bind; [|intros _].
  - apply kept_call. intros. by apply RemoveAll_confined.
  - apply kept_call. intros. by apply RenameTree_confined.
Qed.

Lemma kept_topology (P Q : dir_path → Prop) zip raw :
  (∀ c, validateRestoreFile cwd raw = Ok c →
     (∀ r, P (comps c ++ r)) ∧ (∀ r, P (comps (c +:+ ".restore-tmp") ++ r)) ∧ (∀ r, r `prefix_of` comps (path_Dir c) → Q r)) →
  keeps P Q (restoreTopologyFile ans cwd member_ok zip raw).
Proof.
  intros HP. unfold restoreTopologyFile. apply kept_lift_bind. intros c Hc. destruct (HP c Hc) as (H1 & H2 & H3).
  assert (P (comps c) ∧ P (comps (c +:+ ".restore-tmp"))) as [Hpc Hpt].
  { rewrite <- (app_nil_r (comps c)), <- (app_nil_r (comps (c +:+ _))). auto. }
  apply kept_lift_bind. intros [m|] _; [|apply kept_fail]. apply kept_bind; [|intros _].
  { apply kept_MkdirAll. auto. }
  apply kept_on_error; [apply kept_ignore; intros; cbn [snd]; by apply RemoveOne_confined|].
  apply kept_bind; [|intros _]; [by apply kept_extract|]. apply kept_bind; [|intros _].
  - apply kept_call. intros a t. pose proof (RemoveOne_confined P Q a c t Hpc) as H. by destruct (os_RemoveOne a c t).
  - apply kept_call. intros. by apply RenameTree_confined.
Qed.

(** What restoring a directory or a file may touch: the target, its temporary name and
    all below; and the directories that lead to it. *)
Definition directory_area (now : Z) (raw : string) (k : dir_path) : Prop :=
  ∃ c, validateRestoreDirectory cwd home raw = Ok c ∧ (below (comps c) k = true ∨ below (comps (temp_root now c)) k = true).
Definition file_area (raw : string) (k : dir_path) : Prop :=
  ∃ c, validateRestoreFile cwd raw = Ok c ∧ (below (comps c) k = true ∨ below (comps (c +:+ ".restore-tmp")) k = true).
Definition leads_to_directory (raw : string) (k : dir_path) : Prop :=
  ∃ c, validateRestoreDirectory cwd home raw = Ok c ∧ k `prefix_of` comps (path_Dir c).
Definition leads_to_file (raw : string) (k : dir_path) : Prop :=
  ∃ c, validateRestoreFile cwd raw = Ok c ∧ k `prefix_of` comps (path_Dir c).
Definition restored_area (now : nat → Z) (config topology controlPlane : string) (state : bool) (k : dir_path) : Prop :=
  directory_area (now 0%nat) config k ∨ file_area topology k ∨ (state = true ∧ directory_area (now 1%nat) controlPlane k).
Definition leading (config topology controlPlane : string) (state : bool) (k : dir_path) : Prop :=
  leads_to_directory config k ∨ leads_to_file topology k ∨ (state = true ∧ leads_to_directory controlPlane k).

(** C20. Whatever an archive contains - member names that climb, absolute names, other
    prefixes - and wherever the system fails, restoring it changes nothing outside
    the targets of the restore and their temporary names, but for directories on the
    way to them; and it changes nothing at all unless the archive has a valid
    manifest, every member name is safe and expected, and the operator confirmed. *)
Theorem restore_confined now options s :
  let '(r, s') := runRestoreCommand ans cwd home zip_decode json_decode member_ok now options s in
  fy_tree s' = fy_tree s ∨
  ∃ archive zip manifest config topology controlPlane,
    let state := bi_ControlPlaneState (bm_Includes manifest) in
    normalizedArchivePath cwd (ro_archivePath options) = Ok archive ∧ (open_archive zip_decode archive s).1 = Ok zip ∧
    readBackupManifest json_decode member_ok zip = Ok manifest ∧ validateBackupArchive zip manifest = Ok () ∧
    restore_targets cwd home options archive state = Ok (config, topology, controlPlane) ∧ ro_confirm options = true ∧
    confined (restored_area now config topology controlPlane state) (leading config topology controlPlane state) (fy_tree s) (fy_tree s').
Proof using Hcwd.
  unfold runRestoreCommand. unfold fbind at 1, flift at 1. destruct (normalizedArchivePath _ _) as [archive|e] eqn:En; [|by left].
  unfold fbind at 1. assert (open_archive zip_decode archive s = ((open_archive zip_decode archive s).1, s)) as Eo by done.
  destruct (open_archive zip_decode archive s).1 as [zip|e]; rewrite Eo; [|by left].
  unfold fbind at 1, flift at 1. destruct (readBackupManifest _ _ zip) as [manifest|e] eqn:Em; [|by left].
  unfold fbind at 1, flift at 1. destruct (validateBackupArchive zip manifest) as [[]|e] eqn:Ev; [|by left].
  unfold fbind at 1, flift at 1. destruct (restore_targets _ _ _ _ _) as [[[config topology] controlPlane]|e] eqn:Et; [|by left].
  assert (ro_confirm options = true) as Hconf by (unfold restore_targets in Et; destruct (_ && _); inv_res; done).
  set (state := bi_ControlPlaneState _) in *.
  set (m := fbind (restoreDirectoryPrefix _ _ _ _ _ _ _ _) _).
  assert (keeps (restored_area now config topology controlPlane state) (leading config topology controlPlane state) m) as Hk.
  { subst m. apply kept_bind; [|intros _; apply kept_bind; [|intros _; destruct state eqn:Es; [|apply kept_ret]]].
    - apply kept_directory. intros c Hc. split_and!; intros r; [left..|intros Hr; left]; exists c; (split; [done|]); auto using below_app.
    - apply kept_topology. intros c Hc. split_and!; intros r; [right; left..|intros Hr; right; left]; exists c; (split; [done|]); auto using below_app.
    - apply kept_directory. intros c Hc. split_and!; intros r; [right; right..|intros Hr; right; right]; (split; [done|]); exists c; (split; [done|]); auto using below_app. }
  specialize (Hk s). destruct (m s) as [r s']. right. exists archive, zip, manifest, config, topology, controlPlane. cbn zeta.
  split_and!; try done. by rewrite Eo.
Qed.
End Confined.

(** An archive that climbs out of its prefix changes nothing. *)
Definition climbing : list member := [MkMember "local-config/../../etc/passwd" false "root"; MkMember "topology/t.yml" false "t"; MkMember backupManifestName false ""].
Definition plain_manifest : backupManifest := MkManifest backupArchiveFormat backupArchiveVersion 0 "" "" (MkIncludes true true false) [].
Definition victim : fsys := MkFsys (list_to_map [(["etc"], NDir); (["etc"; "passwd"], NFile "root:x:0"); (["a.zip"], NFile "zip")]) 0.
Lemma restore_confined_witness :
  fy_tree (runRestoreCommand (λ _, AOk) None None (λ _, Some climbing) (λ _, Some plain_manifest) (λ _, true) (λ _, 0)
    (MkRestoreOptions "/a.zip" "/m/t.yml" "/m/config" "" true) victim).2 = fy_tree victim.
Proof.
  pose proof (restore_confined (λ _, AOk) None None (λ _, Some climbing) (λ _, Some plain_manifest) (λ _, true) ltac:(done) (λ _, 0)
    (MkRestoreOptions "/a.zip" "/m/t.yml" "/m/config" "" true) victim) as H.
  destruct (runRestoreCommand _ _ _ _ _ _ _ _ _) as [r s']. destruct H as [H|(archive & zip & manifest & c & t & p & Ha & Ho & Hr & Hv & _)]; [exact H|].
  exfalso. vm_compute in Ha. injection Ha as <-. vm_compute in Ho. injection Ho as <-. vm_compute in Hr. injection Hr as <-. by vm_compute in Hv.
Defined.
