(* ===== verification/BackupProofs.v ===== *)
(** * Backup and restore: the round trip

    What [Backup] writes and what it reads fit together: restoring the archive of a
    backup reproduces the directories and the topology file, entry by entry. *)

From S2P Require Import Prelude GoStrings GoNet GoPath GoText GoFiles Backup.

(** ** Names that survive *)

(** The names a restore accepts: components without a backslash, of which the first
    does not start with two dots. *)
Definition good_rel (rel : dir_path) : Prop :=
  rel ≠ [] ∧ Forall normal rel ∧ Forall (λ c, "\"%char ∉ to_bytes c) rel ∧ Forall (λ c, HasPrefix c ".." = false) (take 1 rel).
#[global] Instance good_rel_dec rel : Decision (good_rel rel).
Proof. unfold good_rel. apply _. Defined.

Lemma join_cons c cs : join "/" (c :: cs) = c +:+ match cs with [] => "" | _ => "/" +:+ join "/" cs end.
Proof.
  destruct cs; [|done]. change (join "/" [c]) with c. rewrite <- (of_to_bytes (c +:+ "")), to_bytes_app, app_nil_r. by rewrite of_to_bytes.
Qed.
Lemma to_bytes_nil c : to_bytes c = [] → c = "".
Proof. by destruct c. Qed.
Lemma normal_head c : normal c → ∃ a l, to_bytes c = a :: l ∧ a ≠ "/"%char.
Proof.
  intros (Hne & _ & _ & Hs). destruct (to_bytes c) as [|a l] eqn:E; [by apply to_bytes_nil in E|].
  exists a, l. split; [done|]. intros ->. apply Hs. by left.
Qed.
Lemma join_relative cs : Forall normal cs → HasPrefix (join "/" cs) "/" = false.
Proof.
  intros H. destruct cs as [|c cs]; [done|]. apply Forall_cons in H as [Hc _]. rewrite join_cons. unfold HasPrefix. rewrite to_bytes_app.
  destruct (normal_head c Hc) as (a & l & -> & Ha). cbn. by rewrite bool_decide_eq_false_2.
Qed.
Lemma join_nonempty cs : cs ≠ [] → Forall normal cs → join "/" cs ≠ "".
Proof.
  intros Hne H. destruct cs as [|c cs]; [done|]. apply Forall_cons in H as [Hc _]. rewrite join_cons. intros E.
  apply (f_equal to_bytes) in E. rewrite to_bytes_app in E. destruct (normal_head c Hc) as (a & l & E2 & _). by rewrite E2 in E.
Qed.
Lemma clean_join cs : cs ≠ [] → Forall normal cs → path_Clean (join "/" cs) = join "/" cs ∧ comps (join "/" cs) = cs.
Proof.
  intros Hne H. assert (comps (join "/" cs) = cs) as Hc.
  { unfold comps. rewrite split_join, clean_push, app_nil_r by (done || by apply normal_no_slash). apply reverse_involutive. }
  rewrite path_Clean_comps, join_relative, Hc by done. split; [|done]. by rewrite bool_decide_eq_false_2 by (by apply join_nonempty).
Qed.

Lemma join_bytes b cs : Forall (λ c, b ∉ to_bytes c) cs → b ≠ "/"%char → b ∉ to_bytes (join "/" cs).
Proof.
  intros H Hb. induction H as [|c cs Hc Hcs IH]; [apply not_elem_of_nil|]. rewrite join_cons, to_bytes_app. apply not_elem_of_app.
  split; [done|]. destruct cs; [apply not_elem_of_nil|]. rewrite to_bytes_app. apply not_elem_of_app. split; [|done]. cbn. set_solver.
Qed.
Lemma HasSuffix_slash s c : "/"%char ∉ to_bytes c → c ≠ "" → HasSuffix (s +:+ c) "/" = false.
Proof.
  intros Hc Hne. unfold HasSuffix. rewrite to_bytes_app, reverse_app. destruct (reverse (to_bytes c)) as [|a l] eqn:E.
  { apply (f_equal reverse) in E. rewrite reverse_involutive in E. by apply to_bytes_nil in E. }
  change (reverse (to_bytes "/")) with ["/"%char]. cbn. rewrite andb_true_r. apply bool_decide_eq_false_2. intros <-. apply Hc.
  apply elem_of_reverse. rewrite E. by left.
Qed.
Lemma TrimSuffix_join cs : cs ≠ [] → Forall normal cs → TrimSuffix (join "/" cs) "/" = join "/" cs ∧ TrimSuffix (join "/" cs +:+ "/") "/" = join "/" cs.
Proof.
  intros Hne H. unfold TrimSuffix. split.
  - destruct (exists_last Hne) as (cs' & c & ->). apply Forall_app in H as [_ H]. rewrite Forall_singleton in H.
    destruct (join_snoc "/" cs' c) as [p ->]. rewrite HasSuffix_slash; [done|apply H..].
  - assert (HasSuffix (join "/" cs +:+ "/") "/" = true) as ->.
    { unfold HasSuffix. rewrite to_bytes_app, reverse_app. apply is_prefix_app. }
    rewrite to_bytes_app, length_app. change (length (to_bytes "/")) with 1%nat.
    replace (length (to_bytes (join "/" cs)) + 1 - 1)%nat with (length (to_bytes (join "/" cs))) by lia. rewrite take_app_length. apply of_to_bytes.
Qed.
Lemma string_app_nil s : s +:+ "" = s.
Proof. rewrite <- (of_to_bytes (s +:+ "")), to_bytes_app, app_nil_r. apply of_to_bytes. Qed.
Lemma clean_relative cs : cs ≠ [] → Forall normal cs →
  bool_decide (join "/" cs = ".") = false ∧ HasPrefix (join "/" cs) "../" = false ∧ bool_decide (join "/" cs = "..") = false.
Proof.
  intros Hne H. pose proof (split_join cs Hne (normal_no_slash cs H)) as Hs.
  assert (∀ c ps, path_parts (join "/" cs) = c :: ps → normal c) as Hc by (rewrite Hs; intros c ps ->; by apply Forall_cons in H as [? _]).
  split_and!.
  - apply bool_decide_eq_false_2. intros E. destruct (Hc "." []) as (_ & ? & _); [by rewrite E|done].
  - apply not_true_iff_false. unfold HasPrefix. rewrite is_prefix_spec. intros [r E].
    assert (join "/" cs = ".." +:+ "/" +:+ of_bytes r) as E2 by (rewrite <- (of_to_bytes (join "/" cs)), E; done).
    destruct (Hc ".." (path_parts (of_bytes r))) as (_ & _ & ? & _); [by rewrite E2, parts_app|done].
  - apply bool_decide_eq_false_2. intros E. destruct (Hc ".." []) as (_ & _ & ? & _); [by rewrite E|done].
Qed.

Lemma blank_plain a l : plain a = true → blank (of_bytes (a :: l)) = false.
Proof.
  intros Ha. unfold blank, TrimSpace. rewrite to_of_bytes, trim_left_plain by done.
  destruct (trim_right_keeps a [] l Ha) as (r & E & _). cbn [app] in E. rewrite E. by apply bool_decide_eq_false_2.
Qed.
(** The slash behind the name of a directory. *)
Definition dir_mark (dir : bool) : string := if dir then "/" else "".
Lemma member_name_ok a l c cs dir : plain a = true → Forall normal (of_bytes (a :: l) :: c :: cs) → "\"%char ∉ a :: l →
  Forall (λ c, "\"%char ∉ to_bytes c) (c :: cs) →
  validateArchiveMemberName (join "/" (of_bytes (a :: l) :: c :: cs) +:+ dir_mark dir) = Ok (of_bytes (a :: l)).
Proof.
  intros Ha Hn Hb1 Hb2. set (p := of_bytes (a :: l)) in *. unfold validateArchiveMemberName.
  destruct (TrimSuffix_join (p :: c :: cs)) as [Et1 Et2]; [done..|]. destruct (clean_join (p :: c :: cs)) as [Ec _]; [done..|].
  assert (TrimSuffix (join "/" (p :: c :: cs) +:+ dir_mark dir) "/" = join "/" (p :: c :: cs)) as ->.
  { destruct dir; [done|]. cbn [dir_mark]. by rewrite string_app_nil. }
  rewrite Ec.
  assert (blank (join "/" (p :: c :: cs) +:+ dir_mark dir) = false) as ->.
  { rewrite join_cons. rewrite <- (of_to_bytes (_ +:+ dir_mark dir)), !to_bytes_app. unfold p at 1. rewrite to_of_bytes. by apply blank_plain. }
  assert (HasPrefix (join "/" (p :: c :: cs) +:+ dir_mark dir) "/" = false) as ->.
  { rewrite join_cons. unfold HasPrefix. rewrite !to_bytes_app. unfold p. rewrite to_of_bytes. cbn. rewrite bool_decide_eq_false_2; [done|].
    apply Forall_cons in Hn as [(_ & _ & _ & Hs) _]. unfold p in Hs. rewrite to_of_bytes in Hs. intros <-. apply Hs. by left. }
  assert (Contains (join "/" (p :: c :: cs) +:+ dir_mark dir) "\" = false) as ->.
  { unfold Contains. change (to_bytes "\") with ["\"%char]. rewrite is_infix_byte, to_bytes_app. apply bool_decide_eq_false_2. apply not_elem_of_app. split; [|by destruct dir; cbn; set_solver].
    apply join_bytes; [|done]. constructor; [|done]. unfold p. by rewrite to_of_bytes. }
  cbn [negb orb]. destruct (clean_relative (p :: c :: cs)) as (-> & -> & ->); [done..|]. rewrite bool_decide_eq_true_2 by done. cbn [negb orb].
  rewrite split_join; [done|done|by apply normal_no_slash].
Qed.

Lemma good_first rel : good_rel rel → HasPrefix (join "/" rel) ".." = false.
Proof.
  intros (Hne & Hn & _ & Hd). destruct rel as [|c cs]; [done|]. cbn [take] in Hd. rewrite Forall_singleton in Hd.
  apply Forall_cons in Hn as [(_ & Hdot & _ & _) _]. rewrite join_cons. unfold HasPrefix in *. rewrite to_bytes_app.
  change (to_bytes "..") with ["."%char; "."%char] in *. destruct (to_bytes c) as [|x [|y l]] eqn:E.
  - cbn. destruct cs; [done|]. by rewrite to_bytes_app.
  - cbn. destruct (decide ("."%char = x)) as [<-|Hx]; [|by rewrite bool_decide_eq_false_2].
    exfalso. apply Hdot. rewrite <- (of_to_bytes c), E. done.
  - exact Hd.
Qed.
(** A good name leads below the root it is restored to. *)
Lemma safe_good root rel dir : HasPrefix root "/" = true → good_rel rel →
  safeRestorePath root (join "/" rel +:+ dir_mark dir) = Ok (abs_text (comps root ++ rel)).
Proof.
  intros Hr Hg. pose proof Hg as (Hne & Hn & Hb & _). unfold safeRestorePath.
  destruct rel as [|c cs]; [done|].
  replace ("x/" +:+ join "/" (c :: cs) +:+ dir_mark dir) with (join "/" (of_bytes ["x"%char] :: c :: cs) +:+ dir_mark dir).
  2: { rewrite (join_cons (of_bytes _)). by rewrite !string_app_assoc. }
  rewrite member_name_ok; [|done| |by apply (bool_decide_unpack _); vm_compute|done].
  2: { constructor; [|done]. by apply (bool_decide_unpack _); vm_compute. }
  cbn [res_bind]. set (rel := join "/" (c :: cs) +:+ dir_mark dir).
  assert (rel ≠ "") as Hre.
  { intros E. apply (f_equal to_bytes) in E. unfold rel in E. rewrite to_bytes_app in E. apply app_nil in E as [E _].
    apply to_bytes_nil in E. by apply (join_nonempty (c :: cs)) in E. }
  assert (path_parts rel = c :: cs ∨ path_parts rel = (c :: cs) ++ [""]) as Hparts.
  { pose proof (split_join (c :: cs) Hne (normal_no_slash _ Hn)) as Hs. unfold rel. destruct dir; cbn [dir_mark].
    - right. change "/" with ("/" +:+ "") at 2. by rewrite parts_app, Hs.
    - left. by rewrite string_app_nil. }
  destruct (comps_Join root rel Hr Hre) as [Hp _]. pose proof (comps_Join_normal root rel (c :: cs) Hr Hre Hn Hparts) as Hc.
  assert (Forall normal (comps root ++ c :: cs)) as Hall by (apply Forall_app; split; [by apply comps_normal|done]).
  rewrite (abs_clean _ Hp), Hc. unfold path_Rel. rewrite comps_abs, strip_common_app by done. cbn [length replicate app].
  change (match c :: cs with [] => "." | _ => join "/" (c :: cs) end) with (join "/" (c :: cs)).
  destruct (clean_relative (c :: cs)) as (-> & _ & _); [done..|]. rewrite good_first, join_relative by done. done.
Qed.

(** ** Extracting an archive *)

(** The member of an entry. *)
Definition entry_member (prefix : string) (k : dir_path) (x : node) : member :=
  match x with
  | NFile body => MkMember (prefix +:+ "/" +:+ join "/" k) false body
  | _ => MkMember (prefix +:+ "/" +:+ join "/" k +:+ "/") true ""
  end.
(** The members of a prefix are the entries of a tree. *)
Definition archived (prefix : string) (d : tree) (zip : list member) : Prop :=
  (∀ m rel, m ∈ zip → CutPrefix (zm_name m) (prefix +:+ "/") = Some rel → rel ≠ "" →
     ∃ k x, d !! k = Some x ∧ k ≠ [] ∧ m = entry_member prefix k x) ∧
  (∀ k x, d !! k = Some x → k ≠ [] → entry_member prefix k x ∈ zip).
(** A tree an archive can carry: no links, and names a restore accepts. *)
Definition portable (d : tree) : Prop := map_Forall (λ k x, k ≠ [] → x ≠ NLink ∧ good_rel k) d.
#[global] Instance portable_dec d : Decision (portable d).
Proof. unfold portable. apply _. Defined.

Lemma entry_member_name prefix k x : x ≠ NLink → ∃ dir, zm_name (entry_member prefix k x) = (prefix +:+ "/") +:+ (join "/" k +:+ dir_mark dir).
Proof.
  intros Hx. destruct x as [|body|]; [exists true|exists false|done]; cbn [entry_member zm_name dir_mark].
  - by rewrite !string_app_assoc.
  - by rewrite string_app_nil, !string_app_assoc.
Qed.
Lemma entry_member_IsDir prefix k x : x ≠ NLink → good_rel k → member_IsDir (entry_member prefix k x) = bool_decide (x = NDir).
Proof.
  intros Hx (Hne & Hn & _). destruct x as [|body|]; [by rewrite bool_decide_eq_true_2| |done].
  rewrite bool_decide_eq_false_2 by done. unfold member_IsDir. cbn [entry_member zm_modeDir zm_name orb].
  destruct (exists_last Hne) as (k0 & c & ->). apply Forall_app in Hn as [_ Hc]. rewrite Forall_singleton in Hc.
  destruct (join_snoc "/" k0 c) as [p ->]. rewrite <- !string_app_assoc. apply HasSuffix_slash; apply Hc.
Qed.
Lemma entry_member_inj prefix k x q y : entry_member prefix k x = entry_member prefix q y → x ≠ NLink → y ≠ NLink → good_rel k → good_rel q → k = q ∧ x = y.
Proof.
  intros E Hx Hy Hk Hq. assert (bool_decide (x = NDir) = bool_decide (y = NDir)) as Ed.
  { rewrite <- (entry_member_IsDir prefix k x), <- (entry_member_IsDir prefix q y) by done. by rewrite E. }
  assert (k = q) as ->.
  { destruct Hk as (Hk0 & Hk & _), Hq as (Hq0 & Hq & _).
    rewrite <- (split_join k), <- (split_join q) by (done || by apply normal_no_slash).
    pose proof (f_equal zm_name E) as En. pose proof (CutPrefix_app (prefix +:+ "/") (join "/" k)). pose proof (CutPrefix_app (prefix +:+ "/") (join "/" q)).
    pose proof (CutPrefix_app (prefix +:+ "/") (join "/" k +:+ "/")). pose proof (CutPrefix_app (prefix +:+ "/") (join "/" q +:+ "/")).
    rewrite !string_app_assoc in *.
    destruct x, y; cbn [entry_member zm_name] in En; try done; [|congruence].
    rewrite <- (proj2 (TrimSuffix_join k Hk0 Hk)), <- (proj2 (TrimSuffix_join q Hq0 Hq)). congruence. }
  split; [done|]. by destruct x, y; cbn [entry_member] in E; simplify_eq.
Qed.

Section Extract.
Context (d : tree) (tc : dir_path) (Hwf : tree_wf d) (Hport : portable d) (Hne : tc ≠ []) (Hn : Forall normal tc).
Context (member_ok : member → bool) (Hok : ∀ m, member_ok m = true).

(** Between two members: the place exists, and what is in it belongs there. *)
Definition extracting (t : tree) : Prop :=
  (∀ r, r `prefix_of` tc → r ≠ [] → t !! r = Some NDir) ∧ ∀ k x, k ≠ [] → t !! (tc ++ k) = Some x → d !! k = Some x.
Definition grows (t t' : tree) : Prop := ∀ k x, t !! (tc ++ k) = Some x → t' !! (tc ++ k) = Some x.

Lemma prefix_of_place r k : r `prefix_of` tc ++ k → r `prefix_of` tc ∨ ∃ r', r = tc ++ r' ∧ r' ≠ [] ∧ r' `prefix_of` k.
Proof using Type.
  intros H. destruct (decide (r `prefix_of` tc)) as [?|Hp]; [by left|right].
  destruct (prefix_weak_total tc r (tc ++ k)) as [[r' ->]|?]; [by eexists|done| |done].
  exists r'. split; [done|]. split; [intros ->; apply Hp; by rewrite app_nil_r|]. destruct H as [x E].
  rewrite <- app_assoc in E. apply app_inv_head in E. by exists x.
Qed.
Lemma prefix_dir k r : is_Some (d !! k) → r `prefix_of` k → r ≠ [] → r = k ∨ d !! r = Some NDir.
Proof using Hwf. intros Hk Hr Hr0. destruct (decide (r = k)); [by left|right]. by eapply tree_wf_prefix. Qed.

Lemma mkdirs_within k t : k = [] ∨ d !! k = Some NDir → Forall normal k → extracting t →
  ∃ t', os_MkdirAll AOk (abs_text (tc ++ k)) t = (true, t') ∧ extracting t' ∧ grows t t' ∧ t' !! (tc ++ k) = Some NDir ∧
    ∀ q, ¬ q `prefix_of` k → t' !! (tc ++ q) = t !! (tc ++ q).
Proof using Hwf Hne Hn.
  intros Hk Hkn [He1 He2]. assert (Forall normal (tc ++ k)) as Hall by (by apply Forall_app).
  assert (∀ r, r `prefix_of` k → r ≠ [] → d !! r = Some NDir) as Hd.
  { intros r Hr Hr0. destruct Hk as [->|Hk]; [destruct Hr as [y E]; by destruct r|].
    destruct (prefix_dir k r) as [->|?]; [by rewrite Hk|done..]. }
  destruct (MkdirAll_ok (abs_text (tc ++ k)) t) as (t' & E & H1 & H2).
  { rewrite comps_abs by done. intros r [Hr|(r' & -> & Hr0 & Hr)]%prefix_of_place Hrn; [right; auto|].
    destruct (t !! (tc ++ r')) as [x|] eqn:Ex; [right|by left]. apply He2 in Ex; [|done]. rewrite Hd in Ex by done. done. }
  rewrite comps_abs in H1, H2 by done. exists t'.
  assert (∀ q, ¬ q `prefix_of` k → t' !! (tc ++ q) = t !! (tc ++ q)) as Hq.
  { intros q Hq. apply H2. left. intros [y Ey]. rewrite <- app_assoc in Ey. apply app_inv_head in Ey. apply Hq. by exists y. }
  assert (∀ q, q `prefix_of` k → t' !! (tc ++ q) = Some NDir) as Hq2.
  { intros q Hq2. apply H1; [by apply prefix_app|]. by destruct tc. }
  split_and!; [done|split| | |done].
  - intros r Hr Hr0. apply H1; [by apply prefix_app_r|done].
  - intros q x Hq0 Ex. destruct (decide (q `prefix_of` k)) as [Hp|Hp]; [|rewrite Hq in Ex by done; auto].
    rewrite Hq2 in Ex by done. rewrite Hd by done. done.
  - intros q x Ex. destruct (decide (q `prefix_of` k)) as [Hp|Hp]; [|by rewrite Hq]. rewrite Hq2 by done.
    destruct (decide (q = [])) as [->|Hq0].
    + rewrite app_nil_r, He1 in Ex by done. done.
    + apply He2 in Ex; [|done]. by rewrite Hd in Ex.
  - by apply Hq2.
Qed.

Notation all_well := (λ _ : nat, AOk).
Lemma fbind_ok {X Y} (m : F X) (k : X → F Y) s x s1 : m s = (Ok x, s1) → fbind m k s = k x s1.
Proof using Type. intros E. unfold fbind. by rewrite E. Qed.
Lemma call_ok op e s t : op AOk (fy_tree s) = (true, t) → call all_well op e s = (Ok (), MkFsys t (S (fy_calls s))).
Proof using Type. intros E. unfold call. by rewrite E. Qed.
Lemma WriteFile_new p body t : parent_dir (comps p) t = true → t !! comps p ≠ Some NDir →
  os_WriteFile AOk p body t = (true, <[comps p := NFile body]> t).
Proof using Type. intros Hp Ht. unfold os_WriteFile. by rewrite Hp, bool_decide_eq_false_2. Qed.

(** One member puts one entry in its place. *)
Lemma extract_entry prefix k x s : d !! k = Some x → k ≠ [] → extracting (fy_tree s) →
  let m := entry_member prefix k x in
  let target := abs_text (tc ++ k) in
  ∃ s', (if member_IsDir m then call all_well (λ a, os_MkdirAll a target) (ErrMkdirs target)
         else fbind (call all_well (λ a, os_MkdirAll a (path_Dir target)) (ErrMkdirs (path_Dir target)))
                (λ _, extractZipFile all_well member_ok m target)) s = (Ok (), s') ∧
    extracting (fy_tree s') ∧ grows (fy_tree s) (fy_tree s') ∧ fy_tree s' !! (tc ++ k) = Some x.
Proof using Hwf Hport Hne Hn Hok.
  intros Hk Hk0 He m target. destruct (Hport k x Hk Hk0) as [Hx Hg]. pose proof Hg as (_ & Hkn & _).
  unfold m. rewrite entry_member_IsDir by done. destruct x as [|body|]; [| |done].
  - rewrite bool_decide_eq_true_2 by done. destruct (mkdirs_within k (fy_tree s)) as (t' & E & ? & ? & ? & _); [by right|done|done|].
    eexists. split; [apply call_ok; exact E|]. done.
  - rewrite bool_decide_eq_false_2 by done. destruct (exists_last Hk0) as (k0 & c & Ek). subst k.
    assert (path_Dir target = abs_text (tc ++ k0)) as ->.
    { unfold target. rewrite app_assoc. apply path_Dir_abs. rewrite <- app_assoc. by apply Forall_app. }
    destruct (mkdirs_within k0 (fy_tree s)) as (t' & E & He' & Hgr & Hd & _).
    { destruct (Hwf k0 c) as [?|?]; [by rewrite Hk|by left|by right]. }
    { by apply Forall_app in Hkn as [? _]. }
    { done. }
    unfold fbind. rewrite (call_ok _ _ s t' E). unfold extractZipFile. rewrite Hok. cbn [negb].
    assert (comps target = tc ++ k0 ++ [c]) as Ec by (apply comps_abs; by apply Forall_app).
    assert (t' !! (tc ++ k0 ++ [c]) ≠ Some NDir) as Hnd.
    { intros Ex. apply He' in Ex; [congruence|done]. }
    eexists. split; [apply call_ok; apply WriteFile_new; cbn [fy_tree]|].
    + rewrite Ec, app_assoc. apply parent_dir_snoc. by right.
    + by rewrite Ec.
    + cbn [fy_tree zm_body entry_member]. rewrite Ec. destruct He' as [He1 He2]. split_and!; [split| |by rewrite lookup_insert_eq].
      * intros r Hr Hr0. rewrite lookup_insert_ne; [by apply He1|]. intros <-. apply prefix_length in Hr. rewrite !length_app in Hr. cbn in Hr. lia.
      * intros q y Hq0. rewrite lookup_insert_Some. intros [[Eq <-]|[_ Ey]]; [|auto]. apply app_inv_head in Eq as <-. done.
      * intros q y Ey%Hgr. destruct (decide (q = k0 ++ [c])) as [->|Hq]; [|by rewrite lookup_insert_ne by (intros Eq; by apply app_inv_head in Eq)].
        rewrite lookup_insert_eq. apply He2 in Ey; [congruence|done].
Qed.
(** The loop puts the entries of all its members in place. *)
Lemma extract_all prefix zip : ∀ found s,
  (∀ m rel, m ∈ zip → CutPrefix (zm_name m) (prefix +:+ "/") = Some rel → rel ≠ "" → ∃ k x, d !! k = Some x ∧ k ≠ [] ∧ m = entry_member prefix k x) →
  extracting (fy_tree s) →
  ∃ found' s', extract_members all_well member_ok prefix (abs_text tc) found zip s = (Ok found', s') ∧
    extracting (fy_tree s') ∧ grows (fy_tree s) (fy_tree s') ∧
    (∀ k x, d !! k = Some x → k ≠ [] → entry_member prefix k x ∈ zip → fy_tree s' !! (tc ++ k) = Some x ∧ found' = true) ∧ (found = true → found' = true).
Proof using Hwf Hport Hne Hn Hok.
  induction zip as [|m zip IH]; intros found s Hz He; cbn [extract_members].
  { exists found, s. split_and!; [done|done|by intros k x|intros k x _ _ H; by apply elem_of_nil in H|done]. }
  assert (∀ m' rel, m' ∈ zip → CutPrefix (zm_name m') (prefix +:+ "/") = Some rel → rel ≠ "" → ∃ k x, d !! k = Some x ∧ k ≠ [] ∧ m' = entry_member prefix k x) as Hz'.
  { intros m' rel Hm. apply Hz. by right. }
  assert (∀ k x, d !! k = Some x → k ≠ [] → m = entry_member prefix k x → ∃ dir, CutPrefix (zm_name m) (prefix +:+ "/") = Some (join "/" k +:+ dir_mark dir) ∧ join "/" k +:+ dir_mark dir ≠ "") as Hcut.
  { intros k x Hk Hk0 ->. destruct (Hport k x Hk Hk0) as [Hx Hg]. destruct (entry_member_name prefix k x Hx) as [dir ->]. exists dir.
    rewrite CutPrefix_app. split; [done|]. intros E. apply (f_equal to_bytes) in E. rewrite to_bytes_app in E. apply app_nil in E as [E%to_bytes_nil _].
    destruct Hg as (_ & Hg & _). by apply join_nonempty in E. }
  assert (∀ rel, (CutPrefix (zm_name m) (prefix +:+ "/") = None ∨ CutPrefix (zm_name m) (prefix +:+ "/") = Some rel ∧ rel = "") →
    ∃ found' s', extract_members all_well member_ok prefix (abs_text tc) found zip s = (Ok found', s') ∧
    extracting (fy_tree s') ∧ grows (fy_tree s) (fy_tree s') ∧
    (∀ k x, d !! k = Some x → k ≠ [] → entry_member prefix k x ∈ m :: zip → fy_tree s' !! (tc ++ k) = Some x ∧ found' = true) ∧ (found = true → found' = true)) as Hskip.
  { intros rel Hrel. destruct (IH found s Hz' He) as (found' & s' & E & H1 & H2 & H3 & H4). exists found', s'. split_and!; [done..| |done].
    intros k x Hk Hk0 [Em|Hin]%elem_of_cons; [|auto]. destruct (Hcut k x Hk Hk0 (eq_sym Em)) as (dir & Ec & Hn0).
    destruct Hrel as [Er|[Er ->]]; [congruence|]. rewrite Er in Ec. by injection Ec as Ec. }
  destruct (CutPrefix (zm_name m) (prefix +:+ "/")) as [rel|] eqn:Erel; [|apply (Hskip ""); by left].
  case_bool_decide as Hr0; [apply (Hskip rel); by right|]. clear Hskip.
  destruct (Hz m rel) as (k & x & Hk & Hk0 & Em); [by left|done|done|]. destruct (Hcut k x Hk Hk0 Em) as (dir & [= ->] & _).
  destruct (Hport k x Hk Hk0) as [_ Hg]. rewrite (fbind_ok _ _ s (abs_text (tc ++ k)) s).
  2: { unfold flift. rewrite safe_good, comps_abs by (done || apply abs_rooted). done. }
  destruct (extract_entry prefix k x s Hk Hk0 He) as (s1 & E1 & He1 & Hg1 & Hk1). rewrite <- Em in E1. rewrite (fbind_ok _ _ s () s1 E1).
  destruct (IH true s1 Hz' He1) as (found' & s' & E & H1 & H2 & H3 & H4). exists found', s'. split_and!; [done..| | |auto].
  - intros q y Hq. by apply H2, Hg1.
  - intros q y Hq Hq0 [E2|Hin]%elem_of_cons; [|auto]. rewrite <- E2 in Em.
    destruct (Hport q y Hq Hq0), (Hport k x Hk Hk0). apply (entry_member_inj prefix) in Em as [-> ->]; [|done..]. split; [by apply H2|auto].
Qed.
End Extract.

(** ** Restoring a directory *)

Notation all_well := (λ _ : nat, AOk).
Lemma on_error_ok {X} c (m : F X) s x s' : m s = (Ok x, s') → on_error c m s = (Ok x, s').
Proof. intros E. unfold on_error. by rewrite E. Qed.
Lemma temp_name_other now b : temp_name now b ≠ b.
Proof.
  intros E. apply (f_equal (λ s, length (to_bytes s))) in E. unfold temp_name in E. rewrite !to_bytes_app, !length_app in E. cbn in E. lia.
Qed.
Lemma below_sibling cs (b b' : string) r : b ≠ b' → below (cs ++ [b]) (cs ++ [b'] ++ r) = false.
Proof.
  intros H. apply not_true_iff_false. intros [q E]%below_spec. rewrite <- app_assoc in E. apply app_inv_head in E. by injection E as <- _.
Qed.
Lemma below_self p : below p p = true.
Proof. apply below_spec. exists []. by rewrite app_nil_r. Qed.
Lemma below_brother cs (b b' : string) : b ≠ b' → below (cs ++ [b]) (cs ++ [b']) = false.
Proof. apply (below_sibling cs b b' []). Qed.
Lemma lookup_filter_below (p : dir_path) (t : tree) (k : dir_path) : filter (λ kx : dir_path * node, below p kx.1 = false) t !! k = if below p k then None else t !! k.
Proof.
  apply option_eq. intros x. rewrite map_lookup_filter_Some. cbn. destruct (below p k); naive_solver.
Qed.
(** A directory that moves to a free name takes its entries along. *)
Lemma RenameTree_ok (cs : dir_path) (a b : string) (t : tree) : Forall normal (cs ++ [a]) → Forall normal (cs ++ [b]) → a ≠ b → t !! (cs ++ [a]) ≠ None →
  t !! (cs ++ [b]) = None → cs = [] ∨ t !! cs = Some NDir →
  ∃ t', os_RenameTree AOk (abs_text (cs ++ [a])) (abs_text (cs ++ [b])) t = (true, t') ∧
    (∀ r, t !! (cs ++ [a] ++ r) ≠ None ∨ t !! (cs ++ [b] ++ r) = None → t' !! (cs ++ [b] ++ r) = t !! (cs ++ [a] ++ r)) ∧
    (∀ r, t' !! (cs ++ [a] ++ r) = None) ∧ ∀ k, below (cs ++ [a]) k = false → below (cs ++ [b]) k = false → t' !! k = t !! k.
Proof.
  intros Ha Hb Hab Hsrc Hdst Hpar. unfold os_RenameTree. rewrite !comps_abs by done.
  rewrite (bool_decide_eq_false_2 (t !! (cs ++ [a]) = None)), (bool_decide_eq_true_2 (t !! (cs ++ [b]) = None)) by done. cbn [negb orb].
  assert (parent_dir (cs ++ [b]) t = true) as -> by (by apply parent_dir_snoc).
  assert (below (cs ++ [a]) (cs ++ [b]) = false) as -> by (by apply below_brother).
  cbn [negb orb]. eexists. split; [done|].
  assert (∀ r, cs ++ [b] ++ r = (cs ++ [b]) ++ r) as Eb by (intros; by rewrite app_assoc).
  assert (∀ r, cs ++ [a] ++ r = (cs ++ [a]) ++ r) as Ea by (intros; by rewrite app_assoc). split_and!.
  - intros r H. rewrite Eb, lookup_union, lookup_graft, lookup_subtree, <- Ea, <- Eb, lookup_filter_below, below_sibling by done.
    destruct (t !! (cs ++ [a] ++ r)) eqn:E1; [by destruct (t !! (cs ++ [b] ++ r))|]. destruct H as [H|H]; [done|]. by rewrite H.
  - intros r. rewrite lookup_union_r by (apply lookup_graft_none; by apply below_sibling).
    by rewrite lookup_filter_below, Ea, below_app.
  - intros k Hka Hkb. rewrite lookup_union_r by (by apply lookup_graft_none). by rewrite lookup_filter_below, Hka.
Qed.

(** The directories on the way to a free name, and the name. *)
Lemma make_place (cs : dir_path) (c : string) (t : tree) : Forall normal (cs ++ [c]) →
  (∀ r, r `prefix_of` cs → r ≠ [] → t !! r = None ∨ t !! r = Some NDir) → (∀ k, t !! (cs ++ [c] ++ k) = None) →
  ∃ t1 t2, os_MkdirAll AOk (abs_text cs) t = (true, t1) ∧ os_MkdirAll AOk (abs_text (cs ++ [c])) t1 = (true, t2) ∧
    (∀ r, r `prefix_of` cs ++ [c] → r ≠ [] → t2 !! r = Some NDir) ∧ ∀ k, k ≠ [] → t2 !! ((cs ++ [c]) ++ k) = None.
Proof.
  intros Hn Hway Hfree. assert (Forall normal cs) as Hcs by (by apply Forall_app in Hn as [? _]).
  destruct (MkdirAll_ok (abs_text cs) t) as (t1 & E1 & H1 & H1'); [by rewrite comps_abs|]. rewrite comps_abs in H1, H1' by done.
  assert (∀ k, t1 !! ((cs ++ [c]) ++ k) = None) as Hfree1.
  { intros k. rewrite H1'; [by rewrite <- app_assoc|]. left. intros Hp%prefix_length. rewrite !length_app in Hp. cbn in Hp. lia. }
  destruct (MkdirAll_ok (abs_text (cs ++ [c])) t1) as (t2 & E2 & H2 & H2').
  { rewrite comps_abs by done. intros r [y E] Hr0. destruct y as [|z y _] using rev_ind.
    - left. rewrite app_nil_r in E. subst r. rewrite <- (app_nil_r (cs ++ [c])). apply Hfree1.
    - right. rewrite app_assoc in E. apply app_inj_tail in E as [E _]. apply H1; [by exists y|done]. }
  rewrite comps_abs in H2, H2' by done. exists t1, t2. split_and!; [done..|]. intros k Hk. rewrite H2'; [apply Hfree1|].
  left. intros Hp%prefix_length. rewrite !length_app in Hp. destruct k; [done|]. cbn in Hp. lia.
Qed.

Section Directory.
Context (cwd home : option string) (member_ok : member → bool) (Hok : ∀ m, member_ok m = true).

Lemma restore_directory_exact (now : Z) (zip : list member) (prefix raw : string) (cs : dir_path) (b : string) (d t : tree) (n : nat) :
  validateRestoreDirectory cwd home raw = Ok (abs_text (cs ++ [b])) → Forall normal (cs ++ [b]) →
  archived prefix d zip → tree_wf d → portable d → (∃ k x, k ≠ [] ∧ d !! k = Some x) →
  (∀ r, r `prefix_of` cs → r ≠ [] → t !! r = None ∨ t !! r = Some NDir) →
  (∀ k, t !! (cs ++ [temp_name now b] ++ k) = None) →
  ∃ s', restoreDirectoryPrefix all_well cwd home member_ok now zip prefix raw (MkFsys t n) = (Ok (), s') ∧
    (∀ k, fy_tree s' !! (cs ++ [b] ++ k) = if bool_decide (k = []) then Some NDir else d !! k) ∧
    (∀ k, fy_tree s' !! (cs ++ [temp_name now b] ++ k) = None).
Proof using Hok.
  intros Hval Hn [Hz1 Hz2] Hwf Hport (k0 & x0 & Hk0 & Hd0) Hway Hfree. set (tc := cs ++ [temp_name now b]).
  assert (Forall normal cs ∧ normal b) as [Hcs Hb] by (apply Forall_app in Hn as [? Hb]; by rewrite Forall_singleton in Hb).
  assert (Forall normal tc) as Htc by (apply Forall_app; split; [done|]; by apply Forall_singleton, temp_name_normal).
  unfold restoreDirectoryPrefix. rewrite (fbind_ok _ _ _ (abs_text (cs ++ [b])) (MkFsys t n)) by (unfold flift; by rewrite Hval).
  rewrite path_Dir_abs, temp_root_abs by done. fold tc.
  assert (tc ≠ []) as Htc0 by (unfold tc; by destruct cs).
  destruct (make_place cs (temp_name now b) t) as (t1 & t2 & E1 & E2 & H2 & H2'); [done..|].
  erewrite fbind_ok by (apply call_ok; exact E1). erewrite fbind_ok by (apply call_ok; exact E2). cbn [fy_calls].
  assert (extracting d tc t2) as He by (split; [done|]; intros k x Hk Hx; by rewrite H2' in Hx).
  destruct (extract_all d tc Hwf Hport Htc0 Htc member_ok Hok prefix zip false (MkFsys t2 (S (S n)))) as (found & s3 & E3 & [He3 He3'] & _ & H3 & _); [done..|].
  assert (found = true) as -> by (by destruct (H3 k0 x0 Hd0 Hk0 (Hz2 k0 x0 Hd0 Hk0))).
  set (t4 := filter (λ kx : dir_path * node, below (cs ++ [b]) kx.1 = false) (fy_tree s3)).
  destruct (RenameTree_ok cs (temp_name now b) b t4) as (t5 & E5 & H5 & H5' & _); [done|done|by apply temp_name_other| | | |].
  - unfold t4. fold tc. rewrite lookup_filter_below. unfold tc at 1. rewrite below_brother by (by apply not_eq_sym, temp_name_other). by rewrite He3.
  - unfold t4. by rewrite lookup_filter_below, below_self.
  - destruct (decide (cs = [])) as [->|Hcs0]; [by left|right]. unfold t4. rewrite lookup_filter_below.
    assert (below (cs ++ [b]) cs = false) as ->.
    { apply not_true_iff_false. intros [q E]%below_spec. apply (f_equal length) in E. rewrite !length_app in E. cbn in E. lia. }
    apply He3; [|done]. unfold tc. by eexists.
  - exists (MkFsys t5 (S (S (fy_calls s3)))). split; [|split; [|exact H5']].
    + apply on_error_ok. rewrite (fbind_ok _ _ _ true s3 E3). cbn [negb]. erewrite fbind_ok by (apply call_ok; unfold os_RemoveAll; rewrite comps_abs by done; reflexivity).
      apply call_ok. cbn [fy_tree]. exact E5.
    + intros k. cbn [fy_tree]. rewrite H5.
      2: { right. unfold t4. rewrite lookup_filter_below. replace (cs ++ [b] ++ k) with ((cs ++ [b]) ++ k) by (by rewrite app_assoc). by rewrite below_app. }
      unfold t4. rewrite lookup_filter_below, below_sibling by (by apply not_eq_sym, temp_name_other). rewrite app_assoc. fold tc.
      case_bool_decide as Hk; [subst; rewrite app_nil_r; by apply He3|]. destruct (d !! k) as [x|] eqn:Ex; [by apply H3; auto|].
      destruct (fy_tree s3 !! (tc ++ k)) as [y|] eqn:Ey; [|done]. apply He3' in Ey; [congruence|done].
Qed.
End Directory.

(** ** Restoring the topology *)

Definition topology_temp (b : string) : string := b +:+ ".restore-tmp".
Lemma topology_temp_normal b : normal b → normal (topology_temp b).
Proof.
  intros (_ & _ & _ & Hb). unfold topology_temp, normal.
  assert (∀ s : string, (length (to_bytes s) < 12)%nat → b +:+ ".restore-tmp" ≠ s) as Hlen.
  { intros s Hs E. rewrite <- E, to_bytes_app, length_app in Hs. cbn in Hs. lia. }
  split_and!; [apply Hlen; cbn; lia..|]. rewrite to_bytes_app, not_elem_of_app. split; [done|]. apply (bool_decide_unpack _); by vm_compute.
Qed.
Lemma topology_temp_other b : topology_temp b ≠ b.
Proof. intros E. apply (f_equal (λ s, length (to_bytes s))) in E. unfold topology_temp in E. rewrite to_bytes_app, length_app in E. cbn in E. lia. Qed.

(** A file written beside its place, and moved there. *)
Lemma replace_file (cs : dir_path) (b body : string) (t : tree) : Forall normal (cs ++ [b]) → cs = [] ∨ t !! cs = Some NDir →
  (∀ k, t !! (cs ++ [topology_temp b] ++ k) = None) → t !! (cs ++ [b]) ≠ Some NDir → (∀ k, k ≠ [] → t !! (cs ++ [b] ++ k) = None) →
  ∃ t2 r t3 t4, os_WriteFile AOk (abs_text (cs ++ [topology_temp b])) body t = (true, t2) ∧
    os_RemoveOne AOk (abs_text (cs ++ [b])) t2 = (r, t3) ∧ r ≠ NotRemoved ∧
    os_RenameTree AOk (abs_text (cs ++ [topology_temp b])) (abs_text (cs ++ [b])) t3 = (true, t4) ∧
    t4 !! (cs ++ [b]) = Some (NFile body) ∧ ∀ k, k ≠ cs ++ [b] → t4 !! k = t !! k.
Proof.
  intros Hn Hpar Hfree Hnd Hbelow. set (a := topology_temp b) in *.
  assert (Forall normal (cs ++ [a])) as Hna.
  { apply Forall_app in Hn as [? Hb]. rewrite Forall_singleton in Hb. apply Forall_app. split; [done|]. by apply Forall_singleton, topology_temp_normal. }
  assert (a ≠ b) as Hab by apply topology_temp_other.
  assert (cs ++ [a] ≠ cs ++ [b]) as Hne by (intros E; by apply app_inj_tail in E as [_ E]).
  assert (∀ x, cs ++ [x] ≠ cs) as Hlong by (intros x E; apply (f_equal length) in E; rewrite length_app in E; cbn in E; lia).
  set (t2 := <[cs ++ [a] := NFile body]> t). set (t3 := delete (cs ++ [b]) t2).
  assert (∀ k, k ≠ cs ++ [a] → k ≠ cs ++ [b] → t3 !! k = t !! k) as H3.
  { intros k Hka Hkb. unfold t3, t2. by rewrite lookup_delete_ne, lookup_insert_ne by auto. }
  assert (t3 !! (cs ++ [a]) = Some (NFile body)) as H3a by (unfold t3, t2; by rewrite lookup_delete_ne, lookup_insert_eq).
  assert (t3 !! (cs ++ [b]) = None) as H3b by apply lookup_delete_eq.
  assert (∃ r, os_RemoveOne AOk (abs_text (cs ++ [b])) t2 = (r, t3) ∧ r ≠ NotRemoved) as (r & E3 & Hr).
  { unfold os_RemoveOne. rewrite comps_abs by done.
    destruct (t2 !! (cs ++ [b])) as [x|] eqn:Ex; [|exists NotThere; split; [|done]; f_equal; unfold t3; by rewrite delete_id].
    rewrite bool_decide_eq_true_2; [by exists Removed|]. apply map_empty. intros k. apply map_lookup_filter_None. right. intros y Hk. cbn. intros H. bool_to_prop.
    apply below_spec in H as [q ->]. destruct (decide (q = [])) as [->|Hq]; [by rewrite app_nil_r in *|].
    unfold t2 in Hk. rewrite <- app_assoc in Hk. rewrite lookup_insert_ne, Hbelow in Hk; [done|done|]. intros E. apply app_inv_head in E. by injection E. }
  destruct (RenameTree_ok cs a b t3) as (t4 & E4 & H4 & H4' & H4''); [done|done|done|by rewrite H3a|done|by rewrite H3|].
  exists t2, r, t3, t4. split_and!; [|done..| |].
  - rewrite WriteFile_new; rewrite comps_abs by done; [done|by apply parent_dir_snoc|pose proof (Hfree []) as E; rewrite app_nil_r in E; by rewrite E].
  - specialize (H4 []). rewrite !app_nil_r in H4. rewrite H4; [done|by right].
  - intros k Hk. destruct (below (cs ++ [a]) k) eqn:Ha.
    { apply below_spec in Ha as [q ->]. rewrite <- app_assoc. by rewrite H4', Hfree. }
    destruct (below (cs ++ [b]) k) eqn:Hb; [|rewrite H4'' by done; apply H3; [intros ->; by rewrite below_self in Ha|done]].
    apply below_spec in Hb as [q ->]. assert (q ≠ []) as Hq by (intros ->; by rewrite app_nil_r in Hk). rewrite <- app_assoc in *.
    assert (∀ x, cs ++ [x] ++ q ≠ cs ++ [a] ∧ cs ++ [x] ++ q ≠ cs ++ [b]) as Hx.
    { intros x. split; intros E; apply app_inv_head in E; injection E as _ E; done. }
    rewrite H4, Hbelow by (done || right; rewrite H3 by apply Hx; by apply Hbelow). rewrite H3 by apply Hx. apply Hfree.
Qed.

Section TopologyFile.
Context (cwd : option string) (member_ok : member → bool) (Hok : ∀ m, member_ok m = true).

(** What restoring a file needs: no file on the way, a free temporary name, and a target
    that is no directory. *)
Definition file_room (cs : dir_path) (b : string) (t : tree) : Prop :=
  (∀ r, r `prefix_of` cs → r ≠ [] → t !! r = None ∨ t !! r = Some NDir) ∧
  (∀ k, t !! (cs ++ [topology_temp b] ++ k) = None) ∧ t !! (cs ++ [b]) ≠ Some NDir ∧ ∀ k, k ≠ [] → t !! (cs ++ [b] ++ k) = None.

Lemma restore_topology_exact (zip : list member) (raw : string) (cs : dir_path) (b : string) (m : member) (s : fsys) :
  validateRestoreFile cwd raw = Ok (abs_text (cs ++ [b])) → Forall normal (cs ++ [b]) → topology_member None zip = Ok (Some m) →
  file_room cs b (fy_tree s) →
  ∃ s', restoreTopologyFile all_well cwd member_ok zip raw s = (Ok (), s') ∧ fy_tree s' !! (cs ++ [b]) = Some (NFile (zm_body m)) ∧
    ∀ k, k ≠ cs ++ [b] → fy_tree s' !! k = fy_tree s !! k ∨ (k `prefix_of` cs ∧ fy_tree s !! k = None ∧ fy_tree s' !! k = Some NDir).
Proof using Hok.
  intros Hval Hn Hm (Hway & Hfree & Hnd & Hbelow). destruct s as [t n]. cbn [fy_tree] in *.
  assert (Forall normal cs ∧ normal b) as [Hcs Hb] by (apply Forall_app in Hn as [? Hb]; by rewrite Forall_singleton in Hb).
  assert (∀ x, ¬ cs ++ [x] `prefix_of` cs) as Hlong.
  { intros x Hp%prefix_length. rewrite length_app in Hp. cbn in Hp. lia. }
  unfold restoreTopologyFile. rewrite (fbind_ok _ _ _ (abs_text (cs ++ [b])) (MkFsys t n)) by (unfold flift; by rewrite Hval).
  rewrite (fbind_ok _ _ _ (Some m) (MkFsys t n)) by (unfold flift; by rewrite Hm).
  rewrite path_Dir_abs, abs_text_extend by done. fold (topology_temp b).
  destruct (MkdirAll_ok (abs_text cs) t) as (t1 & E1 & H1 & H1'); [by rewrite comps_abs|]. rewrite comps_abs in H1, H1' by done.
  erewrite fbind_ok by (apply call_ok; exact E1). cbn [fy_calls].
  assert (∀ x r, t1 !! (cs ++ [x] ++ r) = t !! (cs ++ [x] ++ r)) as H1s.
  { intros x r. apply H1'. left. intros Hp. apply (Hlong x). etrans; [|exact Hp]. rewrite app_assoc. by apply prefix_app_r. }
  destruct (replace_file cs b (zm_body m) t1) as (t2 & r & t3 & t4 & E2 & E3 & Hr & E4 & H4 & H4').
  { done. }
  { destruct (decide (cs = [])); [by left|right]. by apply H1. }
  { intros k. rewrite H1s. apply Hfree. }
  { pose proof (H1s b []) as E. rewrite !app_nil_r in E. by rewrite E. }
  { intros k Hk. rewrite H1s. by apply Hbelow. }
  exists (MkFsys t4 (S (S (S (S n))))). cbn [fy_tree]. split; [|split; [done|]].
  - apply on_error_ok. unfold extractZipFile. rewrite Hok. cbn [negb]. erewrite fbind_ok by (apply call_ok; exact E2).
    erewrite fbind_ok by (apply call_ok; cbn [fy_tree]; rewrite E3; by destruct r). apply call_ok. exact E4.
  - intros k Hk. rewrite H4' by done. destruct (decide (k `prefix_of` cs)) as [Hp|Hp]; [|left; apply H1'; by left].
    destruct (decide (k = [])) as [->|Hk0]; [left; apply H1'; by right|]. destruct (Hway k Hp Hk0) as [E|E]; [right; auto|left]. by rewrite H1, E.
Qed.
End TopologyFile.

(** ** What a backup writes *)

Section Written.
Context (readable : dir_path → bool) (Hread : ∀ k, readable k = true).

Definition entries_of (prefix : string) (root : dir_path) (entries : list (dir_path * node)) : list member :=
  omap (λ kx, if bool_decide (drop (length root) kx.1 = []) then None else Some (entry_member prefix (drop (length root) kx.1) kx.2)) entries.
Lemma add_entries_spec archive root prefix entries : Forall (λ kx, kx.2 ≠ NLink ∧ kx.1 ≠ archive ∧ Forall normal (drop (length root) kx.1)) entries →
  ∀ sm zip, ∃ sm', add_entries readable archive root prefix entries sm zip = Ok (sm', zip ++ entries_of prefix root entries).
Proof using Hread.
  induction 1 as [|[k x] entries (Hx & Ha & Hn) _ IH]; intros sm zip; cbn [add_entries].
  { exists sm. by rewrite app_nil_r. }
  rewrite Hread. cbn [negb fst snd] in *. unfold entries_of. cbn [omap list_omap fst snd]. fold (entries_of prefix root entries).
  set (rel := drop (length root) k) in *. case_bool_decide as Hr.
  - destruct x as [|body|]; [apply IH| |done]. rewrite orb_true_r. apply IH.
  - assert (archivePath prefix (join "/" rel) = prefix +:+ "/" +:+ join "/" rel) as -> by (unfold archivePath; by rewrite (proj1 (clean_join rel Hr Hn))).
    destruct x as [|body|]; [| |done]; [|rewrite (bool_decide_eq_false_2 (k = archive)) by done; cbn [orb]].
    + destruct (IH sm (zip ++ [MkMember ((prefix +:+ "/" +:+ join "/" rel) +:+ "/") true ""])) as [sm' ->]. exists sm'.
      rewrite <- app_assoc. cbn [app entry_member]. by rewrite !string_app_assoc.
    + destruct (IH (MkSummary (sm_prefix sm) (sm_sourcePath sm) (sm_fileCount sm + 1) (sm_byteCount sm + Z.of_nat (length (to_bytes body))))
        (zip ++ [MkMember (prefix +:+ "/" +:+ join "/" rel) false body])) as [sm' ->]. exists sm'. by rewrite <- app_assoc.
Qed.

(** The members of a directory are its entries. *)
Lemma elem_of_entries_of prefix root t m : m ∈ entries_of prefix root (walk root t) ↔
  ∃ k x, subtree root t !! k = Some x ∧ k ≠ [] ∧ m = entry_member prefix k x.
Proof using Type.
  unfold entries_of. rewrite list_elem_of_omap. split.
  - intros ([k x] & Hkx & Hm). unfold walk in Hkx. rewrite sort_by_elem_of, elem_of_map_to_list, map_lookup_filter_Some in Hkx. cbn [fst] in Hkx.
    destruct Hkx as [Hk [r ->]%below_spec]. cbn [fst snd] in Hm. rewrite drop_app_length in Hm. case_bool_decide; [done|]. injection Hm as <-.
    exists r, x. by rewrite lookup_subtree.
  - intros (k & x & Hk & Hk0 & ->). rewrite lookup_subtree in Hk. exists (root ++ k, x). split.
    + unfold walk. rewrite sort_by_elem_of, elem_of_map_to_list, map_lookup_filter_Some. split; [done|apply below_app].
    + cbn [fst snd]. rewrite drop_app_length. by rewrite bool_decide_eq_false_2.
Qed.
Lemma addDirectory_spec archive prefix root zip s : Forall normal archive → Forall normal root → portable (subtree root (fy_tree s)) →
  fy_tree s !! root ≠ Some NLink → below root archive = false →
  ∃ sm, addDirectory readable (abs_text archive) prefix (abs_text root) zip s = (Ok (sm, zip ++ entries_of prefix root (walk root (fy_tree s))), s).
Proof using Hread.
  intros Ha Hr Hp Hl Hb. unfold addDirectory. rewrite !comps_abs by done.
  destruct (add_entries_spec archive root prefix (walk root (fy_tree s))) with (sm := MkSummary prefix (abs_text root) 0 0) (zip := zip) as [sm E]; [|exists sm; by rewrite E].
  apply Forall_forall. intros [k x] Hkx. unfold walk in Hkx. rewrite sort_by_elem_of, elem_of_map_to_list, map_lookup_filter_Some in Hkx. cbn [fst] in Hkx.
  destruct Hkx as [Hk [r ->]%below_spec]. cbn [fst snd]. rewrite drop_app_length. split_and!.
  - destruct (decide (r = [])) as [->|Hr0]; [rewrite app_nil_r in Hk; by intros ->|]. by destruct (Hp r x) as [? _]; [by rewrite lookup_subtree|..].
  - intros E. rewrite <- E, below_app in Hb. done.
  - destruct (decide (r = [])) as [->|Hr0]; [done|]. by destruct (Hp r x) as [_ (_ & ? & _)]; [by rewrite lookup_subtree|..].
Qed.
End Written.

(** Members of other prefixes. *)
Definition first_byte (s : string) : option ascii := head (to_bytes s).
Lemma CutPrefix_other name p a b : first_byte name = Some a → first_byte p = Some b → a ≠ b → CutPrefix name p = None.
Proof.
  unfold first_byte, CutPrefix, HasPrefix. destruct (to_bytes name), (to_bytes p); [done..|]. cbn. intros [= ->] [= ->] H. by rewrite bool_decide_eq_false_2.
Qed.
Lemma first_byte_app s t a : first_byte s = Some a → first_byte (s +:+ t) = Some a.
Proof. unfold first_byte. rewrite to_bytes_app. by destruct (to_bytes s). Qed.
Lemma first_byte_entry prefix k x a : first_byte prefix = Some a → first_byte (zm_name (entry_member prefix k x)) = Some a.
Proof. intros H. destruct x; by apply first_byte_app. Qed.
(** The prefixes of the archive. *)
Definition state_prefix (p : string) : Prop := p = backupLocalConfigPrefix ∨ p = backupControlPlanePrefix.
Lemma entry_member_valid prefix k x : state_prefix prefix → x ≠ NLink → good_rel k → validateArchiveMemberName (zm_name (entry_member prefix k x)) = Ok prefix.
Proof.
  intros Hp Hx (Hk0 & Hn & Hb & _). destruct (entry_member_name prefix k x Hx) as [dir ->]. destruct k as [|c cs]; [done|].
  assert (∃ a l, prefix = of_bytes (a :: l) ∧ plain a = true ∧ normal prefix ∧ "\"%char ∉ a :: l) as (a & l & E & Ha & Hnp & Hbp).
  { destruct Hp as [-> | ->]; [exists "l"%char, (to_bytes "ocal-config")|exists "c"%char, (to_bytes "ontrol-plane-state")];
      (split; [reflexivity|]); split_and!; try apply (bool_decide_unpack _); by vm_compute. }
  replace ((prefix +:+ "/") +:+ join "/" (c :: cs) +:+ dir_mark dir) with (join "/" (prefix :: c :: cs) +:+ dir_mark dir).
  2: { rewrite (join_cons prefix). by rewrite !string_app_assoc. }
  rewrite E in *. apply member_name_ok; [done| |done|done]. by constructor.
Qed.

(** *** Reading it back *)

Lemma topology_member_skip l rest entry : Forall (λ m, CutPrefix (zm_name m) (backupTopologyPrefix +:+ "/") = None) l →
  topology_member entry (l ++ rest) = topology_member entry rest.
Proof. induction 1 as [|m l Hm _ IH]; [done|]. cbn [app topology_member]. by rewrite Hm. Qed.
Lemma readBackupManifest_skip json_decode member_ok l rest : Forall (λ m, zm_name m ≠ backupManifestName) l →
  readBackupManifest json_decode member_ok (l ++ rest) = readBackupManifest json_decode member_ok rest.
Proof. induction 1 as [|m l Hm _ IH]; [done|]. cbn [app readBackupManifest]. by rewrite bool_decide_eq_false_2. Qed.
Definition expected (state : bool) (m : member) : Prop := zm_name m ≠ backupManifestName ∧
  ∃ p, validateArchiveMemberName (zm_name m) = Ok p ∧ (p = backupLocalConfigPrefix ∨ p = backupTopologyPrefix ∨ (p = backupControlPlanePrefix ∧ state = true)).
Lemma validate_members_skip state l rest seen : Forall (expected state) l → validate_members state seen (l ++ rest) = validate_members state seen rest.
Proof.
  induction 1 as [|m l [Hm (p & Hv & Hp)] _ IH]; [done|]. cbn [app validate_members]. rewrite bool_decide_eq_false_2, Hv by done. cbn [res_bind].
  destruct Hp as [-> | [-> | [-> ->]]]; exact IH.
Qed.

(** What an archive has to say for a restore to succeed. *)
Record carries (json_decode : string → option backupManifest) (member_ok : member → bool) (config : tree) (topology : string) (state : option tree)
    (zip : list member) : Prop := {
  carries_config : archived backupLocalConfigPrefix config zip;
  carries_topology : ∃ m, topology_member None zip = Ok (Some m) ∧ zm_body m = topology;
  carries_state : ∀ d, state = Some d → archived backupControlPlanePrefix d zip;
  carries_manifest : ∃ manifest, readBackupManifest json_decode member_ok zip = Ok manifest ∧
    validateBackupArchive zip manifest = Ok () ∧ bi_ControlPlaneState (bm_Includes manifest) = bool_decide (is_Some state)
}.

Section Members.
Context (config : tree) (topologyName topology : string) (state : option tree) (mc ms : list member) (json : string).
Context (Hconfig : portable config) (Hstate : ∀ d, state = Some d → portable d).
Context (Hmc : ∀ m, m ∈ mc ↔ ∃ k x, config !! k = Some x ∧ k ≠ [] ∧ m = entry_member backupLocalConfigPrefix k x).
Context (Hms : ∀ m, m ∈ ms ↔ ∃ d k x, state = Some d ∧ d !! k = Some x ∧ k ≠ [] ∧ m = entry_member backupControlPlanePrefix k x).
Context (Hname : normal topologyName) (Hback : "\"%char ∉ to_bytes topologyName).

Definition topology_entry : member := MkMember (archivePath backupTopologyPrefix topologyName) false topology.
Definition manifest_member : member := MkMember backupManifestName false json.
Definition written : list member := mc ++ topology_entry :: ms ++ [manifest_member].

Lemma topology_entry_name : zm_name topology_entry = backupTopologyPrefix +:+ "/" +:+ topologyName.
Proof using Hname.
  cbn [zm_name topology_entry]. unfold archivePath. destruct (clean_join [topologyName]) as [E _]; [done|by apply Forall_singleton|].
  change (join "/" [topologyName]) with topologyName in E. by rewrite E.
Qed.
(** Each member of one of the four kinds shows it by its first byte. *)
Lemma written_cases m : m ∈ written → (m ∈ mc ∧ first_byte (zm_name m) = Some "l"%char) ∨ (m = topology_entry ∧ first_byte (zm_name m) = Some "t"%char) ∨
  (m ∈ ms ∧ first_byte (zm_name m) = Some "c"%char) ∨ (m = manifest_member ∧ first_byte (zm_name m) = Some "m"%char).
Proof using Hmc Hms Hname.
  unfold written. rewrite elem_of_app, elem_of_cons, elem_of_app, list_elem_of_singleton. intros [H | [-> | [H | ->] ] ].
  - left. split; [done|]. apply Hmc in H as (k & x & _ & _ & ->). by apply first_byte_entry.
  - right; left. split; [done|]. rewrite topology_entry_name. by apply first_byte_app.
  - right; right; left. split; [done|]. apply Hms in H as (d & k & x & _ & _ & _ & ->). by apply first_byte_entry.
  - by do 3 right.
Qed.
Lemma cut_by_first_byte p b m rel : first_byte p = Some b → CutPrefix (zm_name m) (p +:+ "/") = Some rel → first_byte (zm_name m) = Some b.
Proof using Type.
  intros Hp Hc. destruct (first_byte (zm_name m)) as [a|] eqn:Ea.
  - destruct (decide (a = b)) as [->|Hab]; [done|]. by rewrite (CutPrefix_other _ _ a b) in Hc by (done || by apply first_byte_app).
  - unfold first_byte in *. unfold CutPrefix, HasPrefix in Hc. rewrite to_bytes_app in Hc. by destruct (to_bytes (zm_name m)), (to_bytes p).
Qed.

Lemma written_config : archived backupLocalConfigPrefix config written.
Proof using Hmc Hms Hname.
  split.
  - intros m rel Hm Hc _. apply (cut_by_first_byte _ "l"%char) in Hc; [|done]. apply Hmc.
    by destruct (written_cases m Hm) as [[? ?]|[[_ E]|[[_ E]|[_ E]]]]; [|rewrite E in Hc..].
  - intros k x Hk Hk0. unfold written. apply elem_of_app. left. apply Hmc. eauto.
Qed.
Lemma written_state d : state = Some d → archived backupControlPlanePrefix d written.
Proof using Hmc Hms Hname.
  intros Hd. split.
  - intros m rel Hm Hc _. apply (cut_by_first_byte _ "c"%char) in Hc; [|done]. assert (m ∈ ms) as (d' & k & x & Hd' & Hk)%Hms.
    { by destruct (written_cases m Hm) as [[_ E]|[[_ E]|[[? _]|[_ E]]]]; [rewrite E in Hc..| |rewrite E in Hc]. }
    rewrite Hd in Hd'. injection Hd' as <-. eauto.
  - intros k x Hk Hk0. unfold written. assert (entry_member backupControlPlanePrefix k x ∈ ms) by (apply Hms; eauto 10).
    rewrite elem_of_app, elem_of_cons, elem_of_app. auto.
Qed.
Lemma written_topology : topology_member None written = Ok (Some topology_entry).
Proof using Hmc Hms Hname.
  assert (∀ l, (∀ m, m ∈ l → m ∈ mc ∨ m ∈ ms) → Forall (λ m, CutPrefix (zm_name m) (backupTopologyPrefix +:+ "/") = None) l) as Hskip.
  { intros l Hl. apply Forall_forall. intros m Hm. destruct (Hl m Hm) as [H|H].
    - apply Hmc in H as (k & x & _ & _ & ->). eapply CutPrefix_other; [by apply first_byte_entry|reflexivity|done].
    - apply Hms in H as (d & k & x & _ & _ & _ & ->). eapply CutPrefix_other; [by apply first_byte_entry|reflexivity|done]. }
  unfold written. rewrite topology_member_skip by (apply Hskip; auto). cbn [topology_member].
  rewrite topology_entry_name. replace (backupTopologyPrefix +:+ "/" +:+ topologyName) with ((backupTopologyPrefix +:+ "/") +:+ topologyName) by (by rewrite string_app_assoc).
  rewrite CutPrefix_app. destruct Hname as (Hn0 & _ & _ & Hs). rewrite bool_decide_eq_false_2 by done. cbn [orb].
  assert (member_IsDir topology_entry = false) as ->.
  { unfold member_IsDir. rewrite topology_entry_name. cbn [zm_modeDir topology_entry orb]. rewrite <- string_app_assoc. by apply HasSuffix_slash. }
  rewrite Contains_slash, bool_decide_eq_false_2 by done. rewrite topology_member_skip by (apply Hskip; auto). by vm_compute.
Qed.

Lemma written_expected : Forall (expected (bool_decide (is_Some state))) (mc ++ topology_entry :: ms).
Proof using Hmc Hms Hname Hconfig Hstate Hback.
  assert (∀ n a, first_byte n = Some a → a ≠ "m"%char → n ≠ backupManifestName) as Hman by (intros n a Hn Ha ->; by injection Hn).
  rewrite Forall_app, Forall_cons, !Forall_forall. split_and!.
  - intros m (k & x & Hk & Hk0 & ->)%Hmc. split; [eapply Hman; [by apply first_byte_entry|done]|].
    exists backupLocalConfigPrefix. destruct (Hconfig k x Hk Hk0). rewrite entry_member_valid by (done || by left). auto.
  - split; [eapply Hman; [rewrite topology_entry_name; by apply first_byte_app|done]|]. exists backupTopologyPrefix. split; [|auto].
    rewrite topology_entry_name. pose proof (member_name_ok "t"%char (to_bytes "opology") topologyName [] false) as H.
    cbn [dir_mark] in H. rewrite string_app_nil in H. apply H; [done| | |by apply Forall_singleton]; [|apply (bool_decide_unpack _); by vm_compute].
    repeat apply Forall_cons_2; [apply (bool_decide_unpack _); by vm_compute|done|constructor].
  - intros m (d & k & x & Hd & Hk & Hk0 & ->)%Hms. split; [eapply Hman; [by apply first_byte_entry|done]|].
    exists backupControlPlanePrefix. destruct (Hstate d Hd k x Hk Hk0). rewrite entry_member_valid by (done || by right). split; [done|].
    do 2 right. split; [done|]. apply bool_decide_eq_true_2. by rewrite Hd.
Qed.

(** The archive of a backup carries what the backup was taken of. *)
Lemma written_carries json_decode member_ok manifest : (∀ m, member_ok m = true) → json_decode json = Some manifest →
  bm_Format manifest = backupArchiveFormat → bm_Version manifest = backupArchiveVersion →
  bm_Includes manifest = MkIncludes true true (bool_decide (is_Some state)) → carries json_decode member_ok config topology state written.
Proof using Hmc Hms Hname Hconfig Hstate Hback.
  intros Hok Hj Hf Hv Hi. pose proof written_expected as He. assert (written = (mc ++ topology_entry :: ms) ++ [manifest_member]) as Ew.
  { unfold written. by rewrite <- app_assoc. }
  split; [apply written_config|exists topology_entry; split; [apply written_topology|done]|apply written_state|].
  exists manifest. split_and!; [| |by rewrite Hi].
  - rewrite Ew, readBackupManifest_skip by (eapply Forall_impl; [exact He|]; by intros m [? _]). cbn [readBackupManifest].
    rewrite bool_decide_eq_true_2 by done. cbn [negb]. rewrite Hok. cbn [zm_body manifest_member]. by rewrite Hj.
  - unfold validateBackupArchive. rewrite Hf, Hv, Hi, bool_decide_eq_true_2 by done. cbn [bi_LocalConfig bi_Topology bi_ControlPlaneState].
    rewrite Ew, validate_members_skip by done. by vm_compute.
Qed.
End Members.
