(* ===== verification/BackupRoundtrip.v ===== *)
(** * Backup and restore: whole runs

    A run of [runBackupCommand] and a later run of [runRestoreCommand], perhaps on
    another machine, over the lemmas of [BackupProofs]. *)

From S2P Require Import Prelude GoStrings GoNet GoPath GoText GoFiles Backup BackupProofs.

(** ** Places *)

(** No file stands on the way to a place; a place is free. *)
Definition way_clear (cs : dir_path) (t : tree) : Prop := map_Forall (λ k x, k `prefix_of` cs → x = NDir) t.
Definition place_free (p : dir_path) (t : tree) : Prop := map_Forall (λ k _, below p k = false) t.
Definition apart (p q : dir_path) : Prop := below p q = false ∧ below q p = false.
#[global] Instance way_clear_dec cs t : Decision (way_clear cs t).
Proof. unfold way_clear. apply _. Defined.
#[global] Instance place_free_dec p t : Decision (place_free p t).
Proof. unfold place_free. apply _. Defined.
#[global] Instance apart_dec p q : Decision (apart p q).
Proof. unfold apart. apply _. Defined.

Lemma way_clear_lookup (cs : dir_path) (t : tree) r : way_clear cs t → r `prefix_of` cs → t !! r = None ∨ t !! r = Some NDir.
Proof. intros H Hr. destruct (t !! r) as [x|] eqn:E; [right|by left]. by rewrite (H r x E Hr). Qed.
Lemma place_free_lookup (p : dir_path) (t : tree) r : place_free p t → t !! (p ++ r) = None.
Proof. intros H. destruct (t !! (p ++ r)) as [x|] eqn:E; [|done]. apply H in E. by rewrite below_app in E. Qed.
(** What lies below one place is not on the way to, nor below, one apart from it. *)
Lemma apart_prefix p q r : apart p q → r `prefix_of` q → below p r = false.
Proof.
  intros [H _] Hr. apply not_true_iff_false. intros [x ->]%below_spec. apply not_true_iff_false in H. apply H.
  apply bool_decide_eq_true. etrans; [|exact Hr]. by eexists.
Qed.
Lemma apart_below p q r : apart p q → below p (q ++ r) = false.
Proof.
  intros [H1 H2]. apply not_true_iff_false. intros H%bool_decide_eq_true.
  destruct (prefix_weak_total p q (q ++ r)) as [Hp|Hp]; [done|by eexists|..].
  - apply not_true_iff_false in H1. apply H1. by apply bool_decide_eq_true.
  - apply not_true_iff_false in H2. apply H2. by apply bool_decide_eq_true.
Qed.
Lemma apart_sym p q : apart p q → apart q p.
Proof. by intros [? ?]. Qed.

Lemma subtree_wf p t : tree_wf t → tree_wf (subtree p t).
Proof.
  intros Hwf k c. rewrite !lookup_subtree, app_assoc. intros H%Hwf. destruct H as [H|H]; [left|by right].
  by apply app_nil in H as [_ ->].
Qed.
Lemma subtree_same (p : dir_path) (t t' : tree) : (∀ k, t' !! (p ++ k) = t !! (p ++ k)) → subtree p t' = subtree p t.
Proof. intros H. apply map_eq. intros k. by rewrite !lookup_subtree. Qed.

(** ** A backup *)

Section Runs.
Context (cwd home : option string) (Hcwd : ∀ d, cwd = Some d → HasPrefix d "/" = true).
Context (readable : dir_path → bool) (Hread : ∀ k, readable k = true) (member_ok : member → bool) (Hok : ∀ m, member_ok m = true).
Context (zip_encode : list member → string) (zip_decode : string → option (list member)) (unfinished : string).
Context (json_encode : backupManifest → string) (json_decode : string → option backupManifest).
(** The codecs: an archive decodes to its members. Of the manifest only the format, the
    version and the flags are used, which are plain ASCII; the encoder replaces bytes of
    paths that are not UTF-8. *)
Context (Hzip : ∀ z, zip_decode (zip_encode z) = Some z).
Context (Hjson : ∀ m, ∃ m', json_decode (json_encode m) = Some m' ∧
  bm_Format m' = bm_Format m ∧ bm_Version m' = bm_Version m ∧ bm_Includes m' = bm_Includes m).

Lemma abs_text_inj cs cs' : Forall normal cs → Forall normal cs' → abs_text cs = abs_text cs' → cs = cs'.
Proof using Type. intros H H' E. by rewrite <- (comps_abs cs), <- (comps_abs cs'), E. Qed.
Lemma requireExistingDir_inv (raw : string) (t : tree) (n : nat) (p : dir_path) : Forall normal p → (requireExistingDir cwd raw (MkFsys t n)).1 = Ok (abs_text p) →
  (p = [] ∨ t !! p = Some NDir) ∧ ∀ (t' : tree) (n' : nat), p = [] ∨ t' !! p = Some NDir → requireExistingDir cwd raw (MkFsys t' n') = (Ok (abs_text p), MkFsys t' n').
Proof using Hcwd.
  intros Hp. unfold requireExistingDir. cbn [fst fy_tree]. destruct (path_Abs cwd (TrimSpace raw)) as [a|e] eqn:Ea; [|done]. cbn [res_bind].
  pose proof (Abs_rooted cwd Hcwd _ _ Ea) as Hr. rewrite abs_clean by done. pose proof (comps_normal a Hr) as Hn.
  intros H. assert (comps a = p) as E; [|subst p; split].
  - destruct (stat a t) as [[| |]|]; [|done..]. apply abs_text_inj; [done..|]. congruence.
  - unfold stat in H. case_bool_decide as Hc; [by left|right]. by destruct (t !! comps a) as [[| |]|].
  - intros t' n' Hp'. unfold stat. destruct Hp' as [E | ->]; [by rewrite bool_decide_eq_true_2|]. by destruct (bool_decide (comps a = [])).
Qed.
Lemma requireExistingFile_inv (raw : string) (t : tree) (n : nat) (p : dir_path) : Forall normal p → (requireExistingFile cwd raw (MkFsys t n)).1 = Ok (abs_text p) →
  p ≠ [] ∧ t !! p ≠ Some NDir.
Proof using Hcwd.
  intros Hp. unfold requireExistingFile. cbn [fst fy_tree]. destruct (path_Abs cwd (TrimSpace raw)) as [a|e] eqn:Ea; [|done]. cbn [res_bind].
  pose proof (Abs_rooted cwd Hcwd _ _ Ea) as Hr. rewrite abs_clean by done. pose proof (comps_normal a Hr) as Hn.
  intros H. assert (comps a = p) as E; [|subst p].
  - destruct (stat a t) as [[| |]|]; [done|..|done]; (apply abs_text_inj; [done..|]); congruence.
  - unfold stat in H. case_bool_decide as Hc; [done|]. split; [done|]. by intros E; rewrite E in H.
Qed.

(** What a backup is taken of: where the options lead, and what is there. *)
Record sources (options : backupOptions) (t : tree) (archiveDir : dir_path) (archiveName : string) (config topologyDir : dir_path)
    (topologyName topology : string) (state : option dir_path) : Prop := {
  so_archive : normalizedArchivePath cwd (bo_archivePath options) = Ok (abs_text (archiveDir ++ [archiveName]));
  so_config : (requireExistingDir cwd (bo_configDir options) (MkFsys t 0)).1 = Ok (abs_text config);
  so_topology : (requireExistingFile cwd (bo_topologyPath options) (MkFsys t 0)).1 = Ok (abs_text (topologyDir ++ [topologyName]));
  so_state : if state is Some p then blank (bo_controlPlaneStateDir options) = false ∧
      (requireExistingDir cwd (bo_controlPlaneStateDir options) (MkFsys t 0)).1 = Ok (abs_text p) else blank (bo_controlPlaneStateDir options) = true;
  so_normal : Forall (Forall normal) [archiveDir ++ [archiveName]; config; topologyDir ++ [topologyName]; default [] state];
  so_portable : portable (subtree config t) ∧ if state is Some p then portable (subtree p t) else True;
  so_file : t !! (topologyDir ++ [topologyName]) = Some (NFile topology);
  so_name : "\"%char ∉ to_bytes topologyName;
  so_way : way_clear archiveDir t;
  so_free : t !! (archiveDir ++ [archiveName]) ≠ Some NDir;
  so_outside : below config (archiveDir ++ [archiveName]) = false ∧ topologyDir ++ [topologyName] ≠ archiveDir ++ [archiveName] ∧
      if state is Some p then below p (archiveDir ++ [archiveName]) = false else True
}.

(** The archive file, created and written. *)
Lemma archive_created (ds : dir_path) (a : string) (t : tree) : Forall normal (ds ++ [a]) → way_clear ds t → t !! (ds ++ [a]) ≠ Some NDir →
  ∃ t1 t2, os_MkdirAll AOk (abs_text ds) t = (true, t1) ∧ os_WriteFile AOk (abs_text (ds ++ [a])) "" t1 = (true, t2) ∧
    (∀ body, os_WriteFile AOk (abs_text (ds ++ [a])) body t2 = (true, <[ds ++ [a] := NFile body]> t2)) ∧
    ∀ k, k ≠ ds ++ [a] → t2 !! k = t !! k ∨ (k `prefix_of` ds ∧ t !! k = None ∧ t2 !! k = Some NDir).
Proof using Type.
  intros Hn Hway Hfree. assert (Forall normal ds) as Hds by (by apply Forall_app in Hn as [? _]).
  assert (¬ ds ++ [a] `prefix_of` ds) as Hlong by (intros Hp%prefix_length; rewrite length_app in Hp; cbn in Hp; lia).
  destruct (MkdirAll_ok (abs_text ds) t) as (t1 & E1 & H1 & H1').
  { rewrite comps_abs by done. intros r Hr _. by eapply way_clear_lookup. }
  rewrite comps_abs in H1, H1' by done.
  assert (∀ t', (∀ k, k ≠ ds ++ [a] → t' !! k = t1 !! k) → parent_dir (ds ++ [a]) t' = true) as Hpar.
  { intros t' Ht'. apply parent_dir_snoc. destruct (decide (ds = [])) as [->|Hd]; [by left|right].
    rewrite Ht', H1; [done..|]. intros E. apply Hlong. by rewrite <- E. }
  exists t1, (<[ds ++ [a] := NFile ""]> t1). split_and!; [done|..].
  - rewrite WriteFile_new; rewrite comps_abs by done; [done|by apply Hpar|]. rewrite H1'; [done|by left].
  - intros body. rewrite WriteFile_new; rewrite comps_abs by done; [done| |by rewrite lookup_insert_eq].
    apply Hpar. intros k Hk. by rewrite lookup_insert_ne.
  - intros k Hk. rewrite lookup_insert_ne by done. destruct (decide (k `prefix_of` ds)) as [Hp|Hp]; [|left; apply H1'; by left].
    destruct (decide (k = [])) as [->|Hk0]; [left; apply H1'; by right|].
    destruct (way_clear_lookup _ _ k Hway Hp) as [E|E]; [right; by rewrite H1|left; by rewrite H1].
Qed.

(** The members, written in one go. *)
Lemma write_carries (now : Z) (options : backupOptions) (t : tree) (n : nat) (archive config td : dir_path) (tn topology : string) (state : option dir_path) :
  Forall normal archive → Forall normal config → Forall normal (td ++ [tn]) → "\"%char ∉ to_bytes tn → t !! config = Some NDir →
  portable (subtree config t) → below config archive = false → t !! (td ++ [tn]) = Some (NFile topology) →
  (if state is Some p then blank (bo_controlPlaneStateDir options) = false ∧
     (∀ m, requireExistingDir cwd (bo_controlPlaneStateDir options) (MkFsys t m) = (Ok (abs_text p), MkFsys t m)) ∧
     Forall normal p ∧ t !! p = Some NDir ∧ portable (subtree p t) ∧ below p archive = false
   else blank (bo_controlPlaneStateDir options) = true) →
  (∀ body, os_WriteFile AOk (abs_text archive) body t = (true, <[archive := NFile body]> t)) →
  ∃ zip, write_members all_well cwd readable zip_encode json_encode now options (abs_text archive) (abs_text config) (abs_text (td ++ [tn])) (MkFsys t n) =
      (Ok (), MkFsys (<[archive := NFile (zip_encode zip)]> t) (S n)) ∧
    carries json_decode member_ok (subtree config t) topology ((λ p, subtree p t) <$> state) zip.
Proof using Hread Hok Hjson.
  intros Hna Hnc Hnt Hback Hcd Hcp Hcb Htf Hs Hw. unfold write_members.
  assert (normal tn) as Hntn by (apply Forall_app in Hnt as [_ Hnt]; by rewrite Forall_singleton in Hnt).
  set (mc := entries_of backupLocalConfigPrefix config (walk config t)).
  destruct (addDirectory_spec readable Hread archive backupLocalConfigPrefix config [] (MkFsys t n)) as [sm1 Ec]; [done..|by cbn; rewrite Hcd|done|].
  rewrite (fbind_ok _ _ _ _ _ Ec). cbn [app fy_tree]. fold mc.
  erewrite fbind_ok. 2: { unfold addFile. cbn [fy_tree]. rewrite comps_abs, Htf, Hread by done. rewrite path_Base_abs by done. reflexivity. }
  assert (∃ entries ms, (if blank (bo_controlPlaneStateDir options) then fret ([manifestEntry sm1; manifestEntry (MkSummary backupTopologyPrefix (abs_text (td ++ [tn])) 1 (Z.of_nat (length (to_bytes topology))))], false, mc ++ [topology_entry tn topology])
    else run! controlPlaneRoot := requireExistingDir cwd (bo_controlPlaneStateDir options) in
     run! (controlPlaneSummary, zip) := addDirectory readable (abs_text archive) backupControlPlanePrefix controlPlaneRoot (mc ++ [topology_entry tn topology]) in
     fret (([manifestEntry sm1; manifestEntry (MkSummary backupTopologyPrefix (abs_text (td ++ [tn])) 1 (Z.of_nat (length (to_bytes topology))))] ++ [manifestEntry controlPlaneSummary])%list, true, zip)) (MkFsys t n) =
     (Ok (entries, bool_decide (is_Some state), (mc ++ [topology_entry tn topology]) ++ ms), MkFsys t n) ∧
     ∀ m, m ∈ ms ↔ ∃ d k x, (λ p, subtree p t) <$> state = Some d ∧ d !! k = Some x ∧ k ≠ [] ∧ m = entry_member backupControlPlanePrefix k x)
    as (entries & ms & Es & Hms).
  { destruct state as [p|].
    - destruct Hs as (-> & Hr & Hnp & Hpd & Hpp & Hpb). rewrite (fbind_ok _ _ _ _ _ (Hr n)).
      destruct (addDirectory_spec readable Hread archive backupControlPlanePrefix p (mc ++ [topology_entry tn topology]) (MkFsys t n)) as [sm2 Ep]; [done..|by cbn; rewrite Hpd|done|].
      rewrite (fbind_ok _ _ _ _ _ Ep). eexists _, _. split; [reflexivity|]. intros m. rewrite elem_of_entries_of. naive_solver.
    - rewrite Hs. eexists _, []. rewrite app_nil_r. split; [reflexivity|]. intros m. split; [by intros ?%elem_of_nil|]. by intros (? & ? & ? & ? & _). }
  rewrite (fbind_ok _ _ _ _ _ Es). 
  set (manifest := MkManifest _ _ _ _ _ _ _). destruct (Hjson manifest) as (m' & Hm & Hmf & Hmv & Hmi).
  exists (written tn topology mc ms (json_encode manifest)). split.
  - apply call_ok. cbn [fy_tree]. rewrite Hw. unfold written. by rewrite <- !app_assoc.
  - apply (written_carries _ _ _ _ _ _ _) with (manifest := m'); try done.
    + destruct state as [p|]; [|done]. intros d [= <-]. by destruct Hs as (_ & _ & _ & _ & ? & _).
    + intros m. apply elem_of_entries_of.
    + rewrite Hmi. unfold manifest. cbn. by destruct state.
Qed.

(** A backup writes an archive that carries its sources, and changes nothing else but
    directories on the way to it. *)
Lemma backup_carries (now : Z) (options : backupOptions) (t : tree) (n : nat) (ad : dir_path) (an : string) (config td : dir_path) (tn topology : string)
    (state : option dir_path) : tree_wf t → sources options t ad an config td tn topology state →
  ∃ zip s', runBackupCommand all_well cwd readable zip_encode json_encode unfinished now options (MkFsys t n) = (Ok (), s') ∧
    fy_tree s' !! (ad ++ [an]) = Some (NFile (zip_encode zip)) ∧
    carries json_decode member_ok (subtree config t) topology ((λ p, subtree p t) <$> state) zip ∧
    ∀ k, k ≠ ad ++ [an] → fy_tree s' !! k = t !! k ∨ (k `prefix_of` ad ∧ t !! k = None ∧ fy_tree s' !! k = Some NDir).
Proof using Hcwd Hread Hok Hjson.
  intros Hwf [Ha Hc Ht Hs Hn [Hpc Hp] Hf Hname Hway Hfree (Ho1 & Ho2 & Ho3)]. rewrite !Forall_cons in Hn. destruct Hn as (Hna & Hnc & Hnt & Hns & _).
  destruct (archive_created ad an t) as (t1 & t2 & E1 & E2 & E3 & H2); [done..|].
  assert (∀ p, below p (ad ++ [an]) = false → ∀ k, t2 !! (p ++ k) = t !! (p ++ k)) as Hagree.
  { intros p Hb k. destruct (H2 (p ++ k)) as [?|(Hk & _)]; [|done|].
    - intros E. by rewrite <- E, below_app in Hb.
    - exfalso. apply not_true_iff_false in Hb. apply Hb, bool_decide_eq_true. apply prefix_app_r. etrans; [by eexists|exact Hk]. }
  assert (∀ p raw, Forall normal p → below p (ad ++ [an]) = false → (requireExistingDir cwd raw (MkFsys t 0)).1 = Ok (abs_text p) →
    t2 !! p = Some NDir ∧ (∀ m, requireExistingDir cwd raw (MkFsys t m) = (Ok (abs_text p), MkFsys t m)) ∧
    ∀ m, requireExistingDir cwd raw (MkFsys t2 m) = (Ok (abs_text p), MkFsys t2 m)) as Hdir.
  { intros p raw Hpn Hb Hr. destruct (requireExistingDir_inv _ _ _ _ Hpn Hr) as [[->|Hd] Hsame]; [done|].
    pose proof (Hagree p Hb []) as Hd2. rewrite !app_nil_r, Hd in Hd2. auto. }
  destruct (Hdir config _ Hnc Ho1 Hc) as (Hcd & Hc' & _).
  destruct (write_carries now options t2 (S (S n)) (ad ++ [an]) config td tn topology state) as (zip & Ew & Hz); [done..| |done| | |done|].
  { by rewrite (subtree_same config t t2) by (by apply Hagree). }
  { destruct (H2 (td ++ [tn])) as [->|(_ & Hnone & _)]; [done|done|congruence]. }
  { destruct state as [p|]; [|done]. destruct Hs as [Hs1 Hs2]. destruct (Hdir p _ Hns Ho3 Hs2) as (? & _ & ?).
    split_and!; [done..| |done]. by rewrite (subtree_same p t t2) by (by apply Hagree). }
  exists zip. eexists. split_and!; [| | |].
  - unfold runBackupCommand. rewrite (fbind_ok _ _ _ _ (MkFsys t n)) by (unfold flift; by rewrite Ha).
    rewrite (fbind_ok _ _ _ _ _ (Hc' n)).
    rewrite (fbind_ok _ _ _ (abs_text (td ++ [tn])) (MkFsys t n)) by (rewrite <- Ht; reflexivity).
    rewrite path_Dir_abs by done. erewrite fbind_ok by (apply call_ok; exact E1). erewrite fbind_ok by (apply call_ok; exact E2).
    apply on_error_ok. exact Ew.
  - cbn [fy_tree]. apply lookup_insert_eq.
  - destruct state as [p|]; cbn [fmap option_fmap option_map] in Hz |- *.
    + rewrite (subtree_same config t t2), (subtree_same p t t2) in Hz by (by apply Hagree). done.
    + rewrite (subtree_same config t t2) in Hz by (by apply Hagree). done.
  - intros k Hk. cbn [fy_tree]. rewrite lookup_insert_ne by done. by apply H2.
Qed.

(** ** A restore *)

(** A validated path is valid again, when no blanks surround it. *)
Lemma Abs_again cs : Forall normal cs → path_Abs cwd (abs_text cs) = Ok (abs_text cs).
Proof using Type. intros H. unfold path_Abs. by rewrite abs_rooted, path_Clean_abs. Qed.
Lemma Restore_directory_again raw cs : Forall normal cs → TrimSpace (abs_text cs) = abs_text cs → validateRestoreDirectory cwd home raw = Ok (abs_text cs) →
  validateRestoreDirectory cwd home (abs_text cs) = Ok (abs_text cs).
Proof using Type.
  intros Hn Ht H. unfold validateRestoreDirectory in *. rewrite Ht, Abs_again by done. cbn [res_bind]. rewrite path_Clean_abs by done.
  apply res_bind_ok in H as (a & _ & H). apply res_bind_ok in H as ([] & H & [= E]). rewrite E in H. by rewrite H.
Qed.
Lemma Restore_file_again cs : Forall normal cs → TrimSpace (abs_text cs) = abs_text cs → validateRestoreFile cwd (abs_text cs) = Ok (abs_text cs).
Proof using Type.
  intros Hn Ht. unfold validateRestoreFile. rewrite Ht, Abs_again by done. cbn [res_bind]. rewrite path_Clean_abs by done.
  by rewrite bool_decide_eq_false_2.
Qed.

(** One directory restored: its contents, its temporary name, and the rest. *)
Definition directory_room (now : Z) (cs : dir_path) (b : string) (t : tree) : Prop := way_clear cs t ∧ place_free (cs ++ [temp_name now b]) t.
Definition directory_done (now : Z) (cs : dir_path) (b : string) (d t t' : tree) : Prop :=
  (∀ k, t' !! (cs ++ [b] ++ k) = if bool_decide (k = []) then Some NDir else d !! k) ∧
  (∀ k, t' !! (cs ++ [temp_name now b] ++ k) = None) ∧
  ∀ k, below (cs ++ [b]) k = false → below (cs ++ [temp_name now b]) k = false →
    t' !! k = t !! k ∨ (k `prefix_of` cs ∧ t !! k = None ∧ t' !! k = Some NDir).
Definition populated (d : tree) : Prop := tree_wf d ∧ portable d ∧ ∃ k x, k ≠ [] ∧ d !! k = Some x.
Lemma restore_directory_full (now : Z) (zip : list member) (prefix raw : string) (cs : dir_path) (b : string) (d : tree) (s : fsys) :
  validateRestoreDirectory cwd home raw = Ok (abs_text (cs ++ [b])) → Forall normal (cs ++ [b]) → archived prefix d zip → populated d →
  directory_room now cs b (fy_tree s) →
  ∃ s', restoreDirectoryPrefix all_well cwd home member_ok now zip prefix raw s = (Ok (), s') ∧ directory_done now cs b d (fy_tree s) (fy_tree s').
Proof using Hcwd Hok.
  intros Hval Hn Hz (Hwf & Hp & Hex) [Hway Hfree]. destruct s as [t n].
  destruct (restore_directory_exact cwd home member_ok Hok now zip prefix raw cs b d t n) as (s' & E & H1 & H2); [done..| | |].
  { intros r Hr _. by eapply way_clear_lookup. }
  { intros k. rewrite app_assoc. by apply place_free_lookup. }
  exists s'. split; [done|]. split; [done|]. split; [done|]. intros k Hk1 Hk2.
  assert (Forall normal cs ∧ Forall normal (cs ++ [temp_name now b])) as [Hcs Hct].
  { apply Forall_app in Hn as [Hcs Hb]. rewrite Forall_singleton in Hb. split; [done|]. apply Forall_app. split; [done|]. by apply Forall_singleton, temp_name_normal. }
  pose proof (kept_directory all_well cwd home member_ok Hcwd (λ k, below (cs ++ [b]) k = true ∨ below (cs ++ [temp_name now b]) k = true) (λ k, k `prefix_of` cs)
    now zip prefix raw) as Hk. rewrite Hval in Hk. unfold keeps in Hk. specialize (Hk) with (s := MkFsys t n). rewrite E in Hk. apply Hk.
  - intros c [= <-]. rewrite temp_root_abs, path_Dir_abs, !comps_abs by done. split_and!; intros r; [left|right|]; [apply below_app..|done].
  - rewrite Hk1, Hk2. by intros [?|?].
Qed.

(** *** Elsewhere *)

Lemma app3 (cs : dir_path) (b : string) k : cs ++ [b] ++ k = (cs ++ [b]) ++ k.
Proof using Type. by rewrite app_assoc. Qed.
Lemma prefix_snoc (cs : dir_path) (b : string) r : r `prefix_of` cs ++ [b] → r = cs ++ [b] ∨ r `prefix_of` cs.
Proof using Type.
  intros [k E]. destruct k as [|x k _] using rev_ind; [left; by rewrite app_nil_r in E|right].
  rewrite app_assoc in E. apply app_inj_tail in E as [E _]. by exists k.
Qed.
Lemma longer_below (cs r : dir_path) (b : string) : r `prefix_of` cs → below (cs ++ [b]) r = false.
Proof using Type.
  intros Hr%prefix_length. apply not_true_iff_false. intros [k ->]%below_spec. rewrite !length_app in Hr. cbn in Hr. lia.
Qed.
Lemma prefix_of_below (p q : dir_path) : p `prefix_of` q → below p q = true.
Proof using Type. intros H. by apply bool_decide_eq_true. Qed.
Section Elsewhere.
Context (now : Z) (cs : dir_path) (b : string) (d t t' : tree) (Hdone : directory_done now cs b d t t').
Lemma elsewhere_way q r : apart (cs ++ [b]) q → apart (cs ++ [temp_name now b]) q → r `prefix_of` q →
  t' !! r = t !! r ∨ (r `prefix_of` cs ∧ t !! r = None ∧ t' !! r = Some NDir).
Proof using Hdone. intros H1 H2 Hr. apply Hdone; by eapply apart_prefix. Qed.
Lemma elsewhere q r : apart (cs ++ [b]) q → apart (cs ++ [temp_name now b]) q → t' !! (q ++ r) = t !! (q ++ r).
Proof using Hdone.
  intros H1 H2. destruct Hdone as (_ & _ & H). destruct (H (q ++ r)) as [?|(Hp & _)]; [by apply apart_below..|done|].
  exfalso. destruct H1 as [_ H1]. apply not_true_iff_false in H1. apply H1, prefix_of_below, prefix_app_r. etrans; [by eexists|exact Hp].
Qed.
Lemma elsewhere_way_clear q : apart (cs ++ [b]) q → apart (cs ++ [temp_name now b]) q → way_clear q t → way_clear q t'.
Proof using Hdone.
  intros H1 H2 Hway r x Hx Hr. destruct (elsewhere_way q r H1 H2 Hr) as [E|(_ & _ & E)]; [|congruence].
  rewrite E in Hx. by apply (Hway r x).
Qed.
End Elsewhere.
Lemma way_clear_prefix (p q : dir_path) (t : tree) : p `prefix_of` q → way_clear q t → way_clear p t.
Proof using Type. intros Hp H k x Hk Hr. apply (H k x Hk). by etrans. Qed.

(** Where the topology goes: apart from the configuration, or to its place in it, which
    is where [mesh-ctl] keeps it by default. *)
Definition topology_place (now : Z) (cs : dir_path) (cb : string) (ts : dir_path) (tb topology : string) (config t : tree) : Prop :=
  (Forall (λ p, Forall (apart p) [ts ++ [tb]; ts ++ [topology_temp tb]]) [cs ++ [cb]; cs ++ [temp_name now cb]] ∧
     way_clear ts t ∧ place_free (ts ++ [topology_temp tb]) t ∧ map_Forall (λ k x, below (ts ++ [tb]) k = true → k = ts ++ [tb] ∧ x ≠ NDir) t) ∨
  (∃ q, ts = cs ++ [cb] ++ q ∧ config !! (q ++ [tb]) = Some (NFile topology) ∧ config !! (q ++ [topology_temp tb]) = None).
(** The file has its room after the configuration is in place. *)
Lemma topology_room (now : Z) (cs ts : dir_path) (cb tb topology : string) (config t t1 : tree) : tree_wf config → directory_done now cs cb config t t1 →
  way_clear cs t → topology_place now cs cb ts tb topology config t →
  file_room ts tb t1.
Proof using Type.
  intros Hwf Hdone Hway [(Hap & Htw & Htf & Htb)|(q & -> & Hq & Hqt)].
  - rewrite !Forall_cons in Hap. destruct Hap as ((A1 & A2 & _) & (B1 & B2 & _) & _). split_and!.
    + intros r Hr _. assert (r `prefix_of` ts ++ [tb]) as Hr' by (by apply prefix_app_r).
      destruct (elsewhere_way now cs cb config t t1 Hdone _ r A1 B1 Hr') as [->|(_ & _ & ?)]; [by eapply way_clear_lookup|by right].
    + intros k. rewrite app3, (elsewhere now cs cb config t t1 Hdone) by done. by apply place_free_lookup.
    + pose proof (elsewhere now cs cb config t t1 Hdone (ts ++ [tb]) [] A1 B1) as E. rewrite app_nil_r in E. rewrite E.
      intros Hd. destruct (Htb _ _ Hd (below_self _)) as [_ Hx]. done.
    + intros k Hk. rewrite app3, (elsewhere now cs cb config t t1 Hdone) by done. destruct (t !! _) as [x|] eqn:Ex; [|done].
      destruct (Htb _ _ Ex (below_app _ _)) as [E _]. rewrite <- (app_nil_r (ts ++ [tb])) in E at 2. by apply app_inv_head in E.
  - destruct Hdone as (H1 & _ & H3).
    assert (∀ k, q ++ k ≠ [] → t1 !! ((cs ++ [cb] ++ q) ++ k) = config !! (q ++ k)) as Hin.
    { intros k Hk. rewrite <- !app_assoc, H1. by rewrite bool_decide_eq_false_2. }
    assert (∀ x k, x = tb ∨ x = topology_temp tb → k ≠ [] → config !! (q ++ [x] ++ k) = None) as Hleaf.
    { intros x k Hx Hk. destruct (config !! (q ++ [x] ++ k)) as [y|] eqn:E; [|done].
      assert (config !! (q ++ [x]) = Some NDir) as Hd; [|destruct Hx as [-> | ->]; congruence].
      eapply tree_wf_prefix; [done|by rewrite E| |by destruct q|].
      - rewrite app_assoc. by eexists.
      - intros Eq. apply app_inv_head in Eq. by destruct k. }
    assert (∀ x k, q ++ [x] ++ k ≠ []) as Hne by (intros x k; by destruct q).
    split_and!.
    + intros r Hr Hr0. rewrite app3 in Hr. apply prefix_of_place in Hr as [Hr|(r' & -> & Hr1 & Hr)].
      * destruct (prefix_snoc cs cb r Hr) as [-> | Hr'].
        { right. specialize (H1 []). by rewrite app_nil_r in H1. }
        destruct (H3 r) as [-> | (_ & _ & ?)]; [by apply longer_below..|by eapply way_clear_lookup|by right].
      * right. rewrite <- app3, H1, bool_decide_eq_false_2 by done. eapply tree_wf_prefix; [done|by rewrite Hq|by apply prefix_app_r|done|].
        intros ->. apply prefix_length in Hr. rewrite length_app in Hr. cbn in Hr. lia.
    + intros k. rewrite Hin by done. destruct (decide (k = [])) as [->|Hk]; [by rewrite app_nil_r|]. apply Hleaf; [by right|done].
    + rewrite Hin by (intros E; by apply (Hne tb [])). by rewrite Hq.
    + intros k Hk. rewrite Hin by done. apply Hleaf; [by left|done].
Qed.

(** Restoring the file leaves the configuration as it was restored. *)
Lemma config_kept (now : Z) (cs ts : dir_path) (cb tb topology : string) (config t t1 t2 : tree) : tree_wf config → directory_done now cs cb config t t1 →
  topology_place now cs cb ts tb topology config t → t2 !! (ts ++ [tb]) = Some (NFile topology) →
  (∀ k, k ≠ ts ++ [tb] → t2 !! k = t1 !! k ∨ (k `prefix_of` ts ∧ t1 !! k = None ∧ t2 !! k = Some NDir)) →
  ∀ k, t2 !! (cs ++ [cb] ++ k) = t1 !! (cs ++ [cb] ++ k).
Proof using Type.
  intros Hwf (H1 & _) [(Hap & _)|(q & -> & Hq & Hqt)] Ht H2 k.
  - rewrite !Forall_cons in Hap. destruct Hap as (((A1 & _) & _) & _). apply not_true_iff_false in A1. rewrite app3.
    destruct (H2 ((cs ++ [cb]) ++ k)) as [?|(Hp & _)]; [|done|].
    + intros E. apply A1. rewrite <- E. apply below_app.
    + exfalso. apply A1, prefix_of_below, prefix_app_r. etrans; [by eexists|exact Hp].
  - destruct (decide (k = q ++ [tb])) as [->|Hk].
    + rewrite H1, bool_decide_eq_false_2, Hq by (by destruct q). rewrite <- !app_assoc in Ht. done.
    + destruct (H2 (cs ++ [cb] ++ k)) as [?|(Hp & Hn & _)]; [|done|].
      * rewrite <- !app_assoc. intros E. by repeat apply app_inv_head in E.
      * exfalso. assert (k `prefix_of` q) as Hkq by (by repeat apply prefix_app_inv in Hp). rewrite H1 in Hn. case_bool_decide as Hk0; [done|].
        assert (config !! k = Some NDir); [|congruence]. eapply tree_wf_prefix; [done|by rewrite Hq|by apply prefix_app_r|done|done].
Qed.

(** The state directory has its room after both. *)
Lemma state_room (now now' : Z) (cs ts ss : dir_path) (cb tb sb : string) (config t t1 t2 : tree) : directory_done now cs cb config t t1 →
  (∀ k, k ≠ ts ++ [tb] → t2 !! k = t1 !! k ∨ (k `prefix_of` ts ∧ t1 !! k = None ∧ t2 !! k = Some NDir)) →
  apart (cs ++ [cb]) (ss ++ [sb]) → apart (cs ++ [cb]) (ss ++ [temp_name now' sb]) →
  apart (cs ++ [temp_name now cb]) (ss ++ [sb]) → apart (cs ++ [temp_name now cb]) (ss ++ [temp_name now' sb]) →
  apart (ts ++ [tb]) (ss ++ [sb]) → apart (ts ++ [tb]) (ss ++ [temp_name now' sb]) → directory_room now' ss sb t → directory_room now' ss sb t2.
Proof using Type.
  intros Hd H2 A1 A2 B1 B2 C1 C2 [Hway Hfree]. split.
  - intros r x Hx Hr. assert (r `prefix_of` ss ++ [sb]) as Hr' by (by apply prefix_app_r).
    destruct (H2 r) as [E|(_ & _ & E)]; [intros ->; pose proof (apart_prefix _ _ _ C1 Hr') as E; by rewrite below_self in E| |congruence].
    destruct (elsewhere_way _ _ _ _ _ _ Hd _ _ A1 B1 Hr') as [E'|(_ & _ & E')]; [|congruence]. apply (Hway r x); [congruence|done].
  - intros r x Hx. apply not_true_iff_false. intros [k ->]%below_spec.
    destruct (H2 ((ss ++ [temp_name now' sb]) ++ k)) as [E|(Hp & _)].
    + intros E. pose proof (apart_below _ _ k C2) as Hb. by rewrite E, below_self in Hb.
    + rewrite (elsewhere _ _ _ _ _ _ Hd) in E by done. rewrite (place_free_lookup _ t k Hfree) in E. congruence.
    + destruct C2 as [_ C2]. apply not_true_iff_false in C2. apply C2, prefix_of_below, prefix_app_r. etrans; [by eexists|exact Hp].
Qed.

(** *** The run *)

(** Where a restore goes: what the options name, and that there is room. *)
Record destinations (options : restoreOptions) (now : nat → Z) (t : tree) (archive cs : dir_path) (cb : string) (ts : dir_path) (tb : string)
    (state : option (dir_path * string)) (config : tree) (topology : string) : Prop := {
  de_archive : normalizedArchivePath cwd (ro_archivePath options) = Ok (abs_text archive);
  de_targets : restore_targets cwd home options (abs_text archive) (bool_decide (is_Some state)) =
    Ok (abs_text (cs ++ [cb]), abs_text (ts ++ [tb]), if state is Some (ss, sb) then abs_text (ss ++ [sb]) else "");
  de_normal : Forall (λ p, Forall normal p ∧ TrimSpace (abs_text p) = abs_text p) ([cs ++ [cb]; ts ++ [tb]] ++ (if state is Some (ss, sb) then [ss ++ [sb]] else []));
  de_normal_archive : Forall normal archive;
  de_config : directory_room (now 0%nat) cs cb t;
  de_topology : topology_place (now 0%nat) cs cb ts tb topology config t;
  de_state : if state is Some (ss, sb) then directory_room (now 1%nat) ss sb t ∧
      Forall (λ p, Forall (apart p) [ss ++ [sb]; ss ++ [temp_name (now 1%nat) sb]]) [cs ++ [cb]; cs ++ [temp_name (now 0%nat) cb]; ts ++ [tb]] else True
}.


Lemma restore_targets_inv options archive state c f p : restore_targets cwd home options archive state = Ok (c, f, p) →
  validateRestoreDirectory cwd home (ro_configDir options) = Ok c ∧ (state = true → validateRestoreDirectory cwd home (ro_controlPlaneStateDir options) = Ok p).
Proof using Type.
  unfold restore_targets. destruct (_ && _); [done|]. intros H. apply res_bind_ok in H as (c' & -> & H). apply res_bind_ok in H as (f' & _ & H).
  destruct (pathWithinDirectory archive c'); [done|]. apply res_bind_ok in H as (p' & Hp & H). destruct (ro_confirm options); [|done].
  inversion H; subst. split; [done|]. intros ->. apply res_bind_ok in Hp as (p2 & -> & Hp). by destruct (pathWithinDirectory archive p2); inversion Hp; subst.
Qed.
(** What a restore leaves: the directory with the entries of the archive. *)
Definition holds_tree (p : dir_path) (d t : tree) : Prop := ∀ k, t !! (p ++ k) = if bool_decide (k = []) then Some NDir else d !! k.
Lemma restore_complete (now : nat → Z) (options : restoreOptions) (t : tree) (n : nat) (archive cs : dir_path) (cb : string) (ts : dir_path) (tb : string)
    (state : option (dir_path * string)) (config : tree) (topology : string) (stored : option tree) (zip : list member) :
  carries json_decode member_ok config topology stored zip → populated config → (∀ d, stored = Some d → populated d) →
  bool_decide (is_Some stored) = bool_decide (is_Some state) → destinations options now t archive cs cb ts tb state config topology →
  t !! archive = Some (NFile (zip_encode zip)) →
  ∃ s', runRestoreCommand all_well cwd home zip_decode json_decode member_ok now options (MkFsys t n) = (Ok (), s') ∧
    holds_tree (cs ++ [cb]) config (fy_tree s') ∧ fy_tree s' !! (ts ++ [tb]) = Some (NFile topology) ∧
    ∀ ss sb d, state = Some (ss, sb) → stored = Some d → holds_tree (ss ++ [sb]) d (fy_tree s').
Proof using Hcwd Hok Hzip.
  intros [Hzc (m & Htm & Hmb) Hzs (manifest & Hread' & Hvalid & Hflag)] Hpc Hps Hsame [Hda Hdt Hdn Hdna Hdc Hdtop Hds] Hfile.
  rewrite Hsame in Hflag. rewrite Forall_app, !Forall_cons in Hdn. destruct Hdn as (((Hnc & Hbc) & (Hnt & Hbt) & _) & Hns).
  unfold runRestoreCommand. rewrite (fbind_ok _ _ _ _ (MkFsys t n)) by (unfold flift; by rewrite Hda).
  rewrite (fbind_ok _ _ _ zip (MkFsys t n)) by (unfold open_archive; cbn [fy_tree]; by rewrite comps_abs, Hfile, Hzip).
  rewrite (fbind_ok _ _ _ manifest (MkFsys t n)) by (unfold flift; by rewrite Hread').
  rewrite (fbind_ok _ _ _ () (MkFsys t n)) by (unfold flift; by rewrite Hvalid). rewrite Hflag.
  rewrite (fbind_ok _ _ _ _ (MkFsys t n)) by (unfold flift; by rewrite Hdt).
  destruct (restore_targets_inv _ _ _ _ _ _ Hdt) as [Hvc Hvs].
  destruct (restore_directory_full (now 0%nat) zip backupLocalConfigPrefix (abs_text (cs ++ [cb])) cs cb config (MkFsys t n)) as (s1 & E1 & Hd1);
    [by eapply Restore_directory_again|done..|].
  rewrite (fbind_ok _ _ _ _ _ E1). cbn [fy_tree] in Hd1.
  destruct (restore_topology_exact cwd member_ok Hok zip (abs_text (ts ++ [tb])) ts tb m s1) as (s2 & E2 & Ht2 & H2);
    [by apply Restore_file_again|done|done|eapply topology_room; [apply Hpc|exact Hd1|apply Hdc|exact Hdtop]|].
  rewrite (fbind_ok _ _ _ _ _ E2). rewrite Hmb in Ht2.
  assert (holds_tree (cs ++ [cb]) config (fy_tree s2)) as Hc2.
  { intros k. rewrite <- app3. erewrite (config_kept _ _ _ _ _ _ config) by (done || apply Hpc). apply Hd1. }
  destruct state as [[ss sb]|]; [|by exists s2].
  rewrite (bool_decide_eq_true_2 (is_Some (Some _))) in * by done. apply bool_decide_eq_true in Hsame as [d Hd]. rewrite Forall_singleton in Hns.
  destruct Hns as [Hns Hbs], Hds as [Hsr Hap]. rewrite !Forall_cons in Hap. destruct Hap as ((A1 & A2 & _) & (B1 & B2 & _) & (C1 & C2 & _) & _).
  destruct (restore_directory_full (now 1%nat) zip backupControlPlanePrefix (abs_text (ss ++ [sb])) ss sb d s2) as (s3 & E3 & Hd3);
    [by eapply Restore_directory_again; auto|done|by apply Hzs|by apply Hps|by eapply state_room|].
  exists s3. split_and!; [done| | |].
  - intros k. rewrite <- Hc2. apply (elsewhere _ _ _ _ _ _ Hd3); by apply apart_sym.
  - rewrite <- Ht2. pose proof (elsewhere _ _ _ _ _ _ Hd3 (ts ++ [tb]) []) as E. rewrite app_nil_r in E. apply E; by apply apart_sym.
  - intros ss' sb' d' [= <- <-] Hd'. rewrite Hd in Hd'. injection Hd' as <-. intros k. rewrite <- app3. apply Hd3.
Qed.

Lemma populated_subtree (p : dir_path) (t : tree) : tree_wf t → portable (subtree p t) → (∃ k x, k ≠ [] ∧ t !! (p ++ k) = Some x) → populated (subtree p t).
Proof using Type.
  intros Hwf Hp (k & x & Hk & Hx). split; [by apply subtree_wf|]. split; [done|]. exists k, x. by rewrite lookup_subtree.
Qed.
Lemma source_directory (p : dir_path) (raw : string) (t : tree) (a : dir_path) : Forall normal p → below p a = false →
  (requireExistingDir cwd raw (MkFsys t 0)).1 = Ok (abs_text p) → t !! p = Some NDir.
Proof using Hcwd. intros Hn Hb H. by destruct (requireExistingDir_inv raw t 0 p Hn H) as [[->|?] _]. Qed.
Lemma holds_source (p q : dir_path) (t t' : tree) : t !! p = Some NDir → holds_tree q (subtree p t) t' → ∀ k, t' !! (q ++ k) = t !! (p ++ k).
Proof using Type. intros Hp H k. rewrite H. case_bool_decide as Hk; [subst; by rewrite app_nil_r|apply lookup_subtree]. Qed.
Definition inhabited_at (p : dir_path) (t : tree) : Prop := ∃ k x, k ≠ [] ∧ t !! (p ++ k) = Some x.

(** C19. A backup succeeds, and restoring its archive - later, elsewhere, to other
    places - succeeds and brings back every entry: the configuration directory, the
    topology file, and the state of the control plane when it was included, with
    nothing left of what was there before. Needed are names that travel (no links, no
    backslashes, no first component starting with two dots), at least one entry in
    each directory, room at the targets, and a system that does not fail. *)
Theorem backup_restore_roundtrip (now : Z) (now' : nat → Z) (bopts : backupOptions) (ropts : restoreOptions) (t t' : tree) (n n' : nat)
    (ad : dir_path) (an : string) (config td : dir_path) (tn topology : string) (state : option dir_path)
    (archive cs : dir_path) (cb : string) (ts : dir_path) (tb : string) (restored : option (dir_path * string)) :
  tree_wf t → sources bopts t ad an config td tn topology state → inhabited_at config t → (∀ p, state = Some p → inhabited_at p t) →
  bool_decide (is_Some state) = bool_decide (is_Some restored) →
  destinations ropts now' t' archive cs cb ts tb restored (subtree config t) topology →
  let '(r, s1) := runBackupCommand all_well cwd readable zip_encode json_encode unfinished now bopts (MkFsys t n) in
  r = Ok () ∧
  (fy_tree s1 !! (ad ++ [an]) = t' !! archive →
   let '(r', s2) := runRestoreCommand all_well cwd home zip_decode json_decode member_ok now' ropts (MkFsys t' n') in
   r' = Ok () ∧ (∀ k, fy_tree s2 !! ((cs ++ [cb]) ++ k) = t !! (config ++ k)) ∧ fy_tree s2 !! (ts ++ [tb]) = t !! (td ++ [tn]) ∧
   ∀ p ss sb, state = Some p → restored = Some (ss, sb) → ∀ k, fy_tree s2 !! ((ss ++ [sb]) ++ k) = t !! (p ++ k)).
Proof using Hcwd Hread Hok Hzip Hjson.
  intros Hwf Hsrc Hci Hsi Hsame Hdest. destruct (backup_carries now bopts t n ad an config td tn topology state Hwf Hsrc) as (zip & s1 & -> & Hz & Hcar & _).
  split; [done|]. intros Hfile. rewrite Hz in Hfile. destruct Hsrc as [_ Hc _ Hs Hn [Hpc Hp] Hf _ _ _ (Ho1 & _ & Ho3)].
  rewrite !Forall_cons in Hn. destruct Hn as (_ & Hnc & _ & Hns & _).
  destruct (restore_complete now' ropts t' n' archive cs cb ts tb restored (subtree config t) topology ((λ p, subtree p t) <$> state) zip)
    as (s2 & -> & H1 & H2 & H3); [done|by apply populated_subtree| | |done|done|].
  - intros d. destruct state as [p|]; [|done]. intros [= <-]. apply populated_subtree; [done..|]. by apply Hsi.
  - rewrite <- Hsame. by destruct state.
  - split; [done|]. split_and!; [|by rewrite Hf|].
    + apply holds_source; [|done]. by eapply source_directory.
    + intros p ss sb -> Hr. apply holds_source; [destruct Hs; by eapply source_directory|]. by apply H3.
Qed.
End Runs.

(** ** Instances *)

(** Codecs: archives and manifests as numbers, numbers as their binary digits. *)
#[global] Instance member_eq_dec : EqDecision member.
Proof. solve_decision. Defined.
#[global] Instance member_countable : Countable member :=
  inj_countable' (λ m, (zm_name m, zm_modeDir m, zm_body m)) (λ '(a, b, c), MkMember a b c) ltac:(by intros []).
Fixpoint digits (p : positive) : string :=
  match p with xH => "" | xO p => "0" +:+ digits p | xI p => "1" +:+ digits p end.
Fixpoint of_digits (s : string) : positive :=
  match s with "" => xH | String a s => if bool_decide (a = "0"%char) then xO (of_digits s) else xI (of_digits s) end.
Lemma of_digits_digits p : of_digits (digits p) = p.
Proof.
  induction p as [p IH|p IH|]; [|..|done].
  - change (digits (xI p)) with (String "1" (digits p)). cbn [of_digits]. by rewrite IH.
  - change (digits (xO p)) with (String "0" (digits p)). cbn [of_digits]. by rewrite IH.
Qed.
Definition zip_text (z : list member) : string := digits (encode z).
Definition zip_read (s : string) : option (list member) := decode (of_digits s).
Lemma zip_read_text z : zip_read (zip_text z) = Some z.
Proof. unfold zip_read, zip_text. by rewrite of_digits_digits, decode_encode. Qed.
(** What a restore reads of a manifest. *)
Definition json_text (m : backupManifest) : string :=
  digits (encode (bm_Format m, bm_Version m, bi_LocalConfig (bm_Includes m), bi_Topology (bm_Includes m), bi_ControlPlaneState (bm_Includes m))).
Definition json_read (s : string) : option backupManifest :=
  (λ '(f, v, a, b, c), MkManifest f v 0 "" "" (MkIncludes a b c) []) <$> (decode (of_digits s) : option (string * Z * bool * bool * bool)).
Lemma json_read_text m : ∃ m', json_read (json_text m) = Some m' ∧ bm_Format m' = bm_Format m ∧ bm_Version m' = bm_Version m ∧ bm_Includes m' = bm_Includes m.
Proof.
  unfold json_read, json_text. rewrite of_digits_digits, decode_encode. eexists. split; [reflexivity|]. by destruct m as [? ? ? ? ? []].
Qed.
Lemma tree_wf_check t : map_Forall (λ k _, removelast k = [] ∨ t !! removelast k = Some NDir) t → tree_wf t.
Proof. intros H k c [x Hx]. apply H in Hx. by rewrite removelast_last in Hx. Qed.

(** An operator's machine, and a new one with remains of an older installation. *)
Definition old_machine : tree := list_to_map [
  (["home"], NDir); (["home"; "op"], NDir); (["home"; "op"; "mesh"], NDir); (["home"; "op"; "mesh"; "ca.key"], NFile "key");
  (["home"; "op"; "mesh"; "nodes"], NDir); (["home"; "op"; "mesh"; "nodes"; "m1"], NDir); (["home"; "op"; "mesh"; "nodes"; "m1"; "node.crt"], NFile "crt");
  (["home"; "op"; "mesh"; "mesh-topology.yml"], NFile "schema_version: 2"); (["var"], NDir); (["var"; "state"], NDir); (["var"; "state"; "audit.log"], NFile "x")].
Definition old_options : backupOptions := MkBackupOptions "backups/mesh.zip" "/home/op/mesh/mesh-topology.yml" "mesh" "/var/state".
Definition new_machine (archive : string) : tree := list_to_map [
  (["srv"], NDir); (["srv"; "mesh"], NDir); (["srv"; "mesh"; "ca.key"], NFile "stale"); (["srv"; "mesh"; "stale.txt"], NFile "stale"); (["tmp"], NDir); (["tmp"; "mesh.zip"], NFile archive)].
Definition new_options : restoreOptions := MkRestoreOptions "/tmp/mesh.zip" "/srv/mesh/mesh-topology.yml" " /srv/mesh/ " "/srv/state" true.
Definition old_backup : res backup_error unit * fsys :=
  runBackupCommand (λ _, AOk) (Some "/home/op") (λ _, true) zip_text json_text "" 0 old_options (MkFsys old_machine 0).
Definition archive_of (s : fsys) (p : dir_path) : string := if fy_tree s !! p is Some (NFile data) then data else "".
Definition moved : tree := new_machine (archive_of old_backup.2 ["home"; "op"; "backups"; "mesh.zip"]).
Definition new_restore : res backup_error unit * fsys :=
  runRestoreCommand (λ _, AOk) (Some "/home/op") (Some "/home/op") zip_read json_read (λ _, true) (λ i, Z.of_nat i) new_options (MkFsys moved 0).

Lemma old_sources : sources (Some "/home/op") old_options old_machine ["home"; "op"; "backups"] "mesh.zip" ["home"; "op"; "mesh"] ["home"; "op"; "mesh"]
  "mesh-topology.yml" "schema_version: 2" (Some ["var"; "state"]).
Proof. split; try (by vm_compute); try (apply (bool_decide_unpack _); by vm_compute). Qed.
Lemma new_destinations : destinations (Some "/home/op") (Some "/home/op") new_options (λ i, Z.of_nat i) moved ["tmp"; "mesh.zip"] ["srv"] "mesh" ["srv"; "mesh"] "mesh-topology.yml"
  (Some (["srv"], "state")) (subtree ["home"; "op"; "mesh"] old_machine) "schema_version: 2".
Proof.
  split.
  - by vm_compute.
  - by vm_compute.
  - apply (bool_decide_unpack _); vm_compute; reflexivity.
  - apply (bool_decide_unpack _); vm_compute; reflexivity.
  - split; apply (bool_decide_unpack _); vm_compute; reflexivity.
  - right. exists []. split_and!; by vm_compute.
  - split; [split; apply (bool_decide_unpack _); by vm_compute|]. apply (bool_decide_unpack _); by vm_compute.
Qed.
Lemma backup_restore_roundtrip_witness : new_restore.1 = Ok () ∧
  (∀ k, fy_tree new_restore.2 !! (["srv"; "mesh"] ++ k) = old_machine !! (["home"; "op"; "mesh"] ++ k)) ∧
  ∀ k, fy_tree new_restore.2 !! (["srv"; "state"] ++ k) = old_machine !! (["var"; "state"] ++ k).
Proof.
  pose proof (backup_restore_roundtrip (Some "/home/op") (Some "/home/op") ltac:(by intros d [= <-]) (λ _, true) (λ _, eq_refl) (λ _, true) (λ _, eq_refl)
    zip_text zip_read "" json_text json_read zip_read_text json_read_text 0 (λ i, Z.of_nat i) old_options new_options old_machine moved 0 0
    ["home"; "op"; "backups"] "mesh.zip" ["home"; "op"; "mesh"] ["home"; "op"; "mesh"] "mesh-topology.yml" "schema_version: 2" (Some ["var"; "state"])
    ["tmp"; "mesh.zip"] ["srv"] "mesh" ["srv"; "mesh"] "mesh-topology.yml" (Some (["srv"], "state"))) as H.
  fold old_backup new_restore in H. rewrite (surjective_pairing old_backup), (surjective_pairing new_restore) in H. destruct H as [_ H].
  - apply tree_wf_check, (bool_decide_unpack _); by vm_compute.
  - apply old_sources.
  - exists ["ca.key"], (NFile "key"). by vm_compute.
  - intros p [= <-]. exists ["audit.log"], (NFile "x"). by vm_compute.
  - done.
  - apply new_destinations.
  - destruct H as (H1 & H2 & _ & H4); [apply (bool_decide_unpack _); vm_compute; exact I|]. split_and!; [done|exact H2|]. by apply (H4 ["var"; "state"] ["srv"] "state").
Defined.

(** *** What does not survive *)

(** A directory whose entry has a name that starts with two dots is backed up, but the
    archive cannot be restored: [safeRestorePath] takes the name for a way up. The same
    holds of an empty directory, of which the archive has no members. *)
Definition restore_of_backup (entries : list (dir_path * node)) : res backup_error unit * res backup_error unit :=
  let t : tree := list_to_map (((λ '(k, x), (["c"] ++ k, x)) <$> entries) ++ [(["c"], NDir); (["t.yml"], NFile "t")]) in
  let '(r1, s1) := runBackupCommand (λ _, AOk) None (λ _, true) zip_text json_text "" 0 (MkBackupOptions "/a.zip" "/t.yml" "/c" "") (MkFsys t 0) in
  (r1, (runRestoreCommand (λ _, AOk) None None zip_read json_read (λ _, true) (λ _, 0) (MkRestoreOptions "/a.zip" "/t.yml" "/c" "" true) s1).1).
Theorem backup_not_restorable :
  restore_of_backup [(["..data"], NFile "x")] = (Ok (), Err (ErrOutside "..data")) ∧
  restore_of_backup [] = (Ok (), Err (ErrNoMembers backupLocalConfigPrefix)) ∧
  restore_of_backup [(["x"; "..data"], NFile "x")] = (Ok (), Ok ()).
Proof. split_and!; vm_compute; reflexivity. Qed.

(** When the last step, renaming, fails, the old directory is gone and the deferred
    cleanup removes the new one. *)
Theorem failed_rename_loses_both :
  let s := MkFsys moved 0 in
  let '(r, s') := runRestoreCommand (λ n, if bool_decide (n = 11)%nat then AFail 0 (λ _, false) else AOk) None None zip_read json_read (λ _, true) (λ i, Z.of_nat i) new_options s in
  r = Err (ErrReplaceTarget "/srv/mesh") ∧ is_Some (fy_tree s !! ["srv"; "mesh"; "ca.key"]) ∧ filter (λ kx, below ["srv"] kx.1 = true) (fy_tree s') = {[ ["srv"] := NDir ]}.
Proof. vm_compute. split; [reflexivity|]. split; [eexists; reflexivity|]. reflexivity. Qed.
