(* ===== verification/Token.v ===== *)
(** * Node tokens ([src/pkg/tls/token.go])

    The secret an operator hands to a node, its hash, and the file that keeps it.
    Argon2id and the random source are parameters; files live in the trees of [GoFiles]. *)

From S2P Require Import Prelude GoStrings GoNet GoPath GoText GoFiles.

(** ** Base64 without padding, for URLs ([base64.RawURLEncoding]) *)

Definition url_char (d : Z) : ascii := if d =? 62 then "-"%char else if d =? 63 then "_"%char else b64_char d.
Definition url_val (a : ascii) : option Z :=
  if bool_decide (a = "-"%char) then Some 62 else if bool_decide (a = "_"%char) then Some 63 else
  if bool_decide (a = "+"%char) || bool_decide (a = "/"%char) then None else b64_val a.
Fixpoint url_encode_bytes (l : list ascii) : list ascii :=
  match l with
  | [] => []
  | [a] => let v := code a * 65536 in [url_char (v / 262144); url_char (v / 4096 mod 64)]
  | [a; b] => let v := code a * 65536 + code b * 256 in [url_char (v / 262144); url_char (v / 4096 mod 64); url_char (v / 64 mod 64)]
  | a :: b :: c :: l =>
      let v := code a * 65536 + code b * 256 + code c in
      url_char (v / 262144) :: url_char (v / 4096 mod 64) :: url_char (v / 64 mod 64) :: url_char (v mod 64) :: url_encode_bytes l
  end.
Fixpoint url_decode_bytes (l : list ascii) : option (list ascii) :=
  match l with
  | [] => Some []
  | [_] => None
  | [a; b] => x ← url_val a; y ← url_val b; Some [chr (x * 4 + y / 16)]
  | [a; b; c] => x ← url_val a; y ← url_val b; z ← url_val c; Some [chr (x * 4 + y / 16); chr (y mod 16 * 16 + z / 4)]
  | a :: b :: c :: d :: l =>
      x ← url_val a; y ← url_val b; z ← url_val c; w ← url_val d; r ← url_decode_bytes l;
      Some (chr (x * 4 + y / 16) :: chr (y mod 16 * 16 + z / 4) :: chr (z mod 4 * 64 + w) :: r)
  end.
Definition url_encode (l : list ascii) : string := of_bytes (url_encode_bytes l).
Definition url_decode (s : string) : option (list ascii) := url_decode_bytes (filter (λ a, b64_skip a = false) (to_bytes s)).

Definition url_text (a : ascii) : bool := match url_val a with Some _ => true | None => false end.
Lemma url_char_facts d : 0 ≤ d < 64 → url_val (url_char d) = Some d ∧ b64_skip (url_char d) = false ∧ plain (url_char d) = true.
Proof.
  intros H. assert (Forall (λ d, url_val (url_char d) = Some d ∧ b64_skip (url_char d) = false ∧ plain (url_char d) = true) (seqZ 0 64)) as Hall
    by (apply (bool_decide_unpack _); vm_compute; exact I).
  rewrite Forall_forall in Hall. apply Hall. apply elem_of_seqZ. lia.
Qed.
Lemma url_encode_chars l : Forall (λ a, url_text a = true ∧ b64_skip a = false ∧ plain a = true) (url_encode_bytes l).
Proof.
  assert (∀ d, 0 ≤ d < 64 → url_text (url_char d) = true ∧ b64_skip (url_char d) = false ∧ plain (url_char d) = true) as Hd.
  { intros d Hd. destruct (url_char_facts d Hd) as (H1 & H2 & H3). unfold url_text. by rewrite H1. }
  induction l as [|a|a b|a b c l IH] using b64_encode_ind; cbn [url_encode_bytes]; [constructor|..].
  - destruct (sextets (code a) 0 0) as (H1 & H2 & _); try lia; try apply code_range. rewrite !Z.mul_0_l, !Z.add_0_r in *. repeat (constructor; auto).
  - destruct (sextets (code a) (code b) 0) as (H1 & H2 & H3 & _); try lia; try apply code_range. rewrite !Z.add_0_r in *. repeat (constructor; auto).
  - destruct (sextets (code a) (code b) (code c)) as (H1 & H2 & H3 & H4 & _); try apply code_range. repeat (constructor; auto).
Qed.
Lemma url_decode_encode_bytes l : url_decode_bytes (url_encode_bytes l) = Some l.
Proof.
  assert (∀ d, 0 ≤ d < 64 → url_val (url_char d) = Some d) as Hv by (intros d Hd; by apply url_char_facts).
  induction l as [|a|a b|a b c l IH] using b64_encode_ind; cbn [url_encode_bytes]; [done|..]; cbn [url_decode_bytes].
  - destruct (sextets (code a) 0 0) as (H1 & H2 & _ & _ & Ea & _); try lia; try apply code_range. rewrite !Z.mul_0_l, !Z.add_0_r in *.
    rewrite !Hv by done. cbn. by rewrite Ea, chr_code.
  - destruct (sextets (code a) (code b) 0) as (H1 & H2 & H3 & _ & Ea & Eb & _); try lia; try apply code_range. rewrite !Z.add_0_r in *.
    rewrite !Hv by done. cbn. by rewrite Ea, Eb, !chr_code.
  - destruct (sextets (code a) (code b) (code c)) as (H1 & H2 & H3 & H4 & Ea & Eb & Ec); try apply code_range.
    rewrite !Hv by done. cbn [mbind option_bind]. rewrite IH. cbn [mbind option_bind]. by rewrite Ea, Eb, Ec, !chr_code.
Qed.
Lemma url_decode_encode l : url_decode (url_encode l) = Some l.
Proof.
  unfold url_decode, url_encode. rewrite to_of_bytes, filter_all; [apply url_decode_encode_bytes|].
  eapply Forall_impl; [apply url_encode_chars|]. by intros a (_ & ? & _).
Qed.
Lemma url_encode_length n : ∀ l, length l = (3 * n)%nat → length (url_encode_bytes l) = (4 * n)%nat.
Proof.
  induction n as [|n IH]; intros l Hl; [by destruct l|]. destruct l as [|a [|b [|c l]]]; cbn in Hl; try lia.
  cbn [url_encode_bytes length]. rewrite IH by lia. lia.
Qed.

(** ** Hashes *)

Definition tokenFile : string := "mesh.token".
Definition tokenByteLen : nat := 32.
Definition tokenFormatPrefix : string := "mesh1.".
Definition argon2idAlgo : Z := 1.
Definition tokenFormatV1 : Z := 1.
Definition argon2MemKB : Z := 4096.
Definition argon2Iters : Z := 1.
Definition argon2Parallel : Z := 1.
Definition argon2KeyLen : nat := 32.
Definition argon2SaltLen : nat := 16.
Definition tokenBlobLen : nat := 54.

Inductive token_error := ErrRandom | ErrUnknownTokenFormat | ErrMalformedTokenBlob | ErrInvalidToken | PanicArgon2
  | ErrTokenDir | ErrTokenWrite | ErrTokenReplace | ErrTokenRead.
#[global] Instance token_error_eq_dec : EqDecision token_error.
Proof. solve_decision. Defined.

(** [copy] into a zeroed slice of [n] bytes. *)
Definition copy_into (n : nat) (src : list ascii) : list ascii := take n src ++ replicate (n - length src) (chr 0).
Definition be16 (v : Z) : list ascii := [chr (v / 256); chr (v mod 256)].

Record token_hash := MkTokenHash {
  th_formatVersion : Z; th_algo : Z; th_mCostKB : Z; th_tCost : Z; th_parallelism : Z; th_salt : list ascii; th_key : list ascii
}.

Section Argon.
(** [argon2.IDKey]: password, salt, time, memory, threads, length of the key. *)
Context (IDKey : list ascii → list ascii → Z → Z → Z → nat → list ascii).

Definition GenerateToken (random : option (list ascii)) : res token_error string :=
  match random with None => Err ErrRandom | Some buf => Ok (hex_encode (take tokenByteLen buf)) end.

Definition token_blob (salt key : list ascii) : list ascii :=
  [chr tokenFormatV1; chr argon2idAlgo] ++ be16 argon2MemKB ++ [chr argon2Iters; chr argon2Parallel] ++
  copy_into argon2SaltLen salt ++ copy_into argon2KeyLen key.
Definition HashTokenV2 (random : option (list ascii)) (rawToken : string) : res token_error string :=
  match random with
  | None => Err ErrRandom
  | Some salt =>
      let key := IDKey (to_bytes rawToken) salt argon2Iters argon2MemKB argon2Parallel argon2KeyLen in
      Ok (tokenFormatPrefix +:+ url_encode (token_blob salt key))
  end.
Definition HashToken (random : option (list ascii)) (token : string) : res token_error string := HashTokenV2 random token.

Definition at_byte (l : list ascii) (i : nat) : Z := default 0 (code <$> l !! i).
Definition ParseV2 (hash : string) : res token_error token_hash :=
  match CutPrefix hash tokenFormatPrefix with
  | None => Err ErrUnknownTokenFormat
  | Some body =>
      match url_decode body with
      | None => Err ErrMalformedTokenBlob
      | Some blob =>
          if negb (bool_decide (length blob = tokenBlobLen)) then Err ErrMalformedTokenBlob else
          Ok (MkTokenHash (at_byte blob 0) (at_byte blob 1) (at_byte blob 2 * 256 + at_byte blob 3) (at_byte blob 4) (at_byte blob 5)
               (take 16 (drop 6 blob)) (take 32 (drop 22 blob)))
      end
  end.

(** [argon2.IDKey] panics without rounds or threads. *)
Definition VerifyToken (rawToken hash : string) : res token_error unit :=
  let! h := ParseV2 hash in
  if (th_tCost h <? 1) || (th_parallelism h <? 1) then Err PanicArgon2 else
  let computed := IDKey (to_bytes rawToken) (th_salt h) (th_tCost h) (th_mCostKB h) (th_parallelism h) (length (th_key h)) in
  if bool_decide (computed = th_key h) then Ok () else Err ErrInvalidToken.
End Argon.

(** ** Files *)

(** [os.Rename] of a file; a file in its place is replaced. *)
Definition os_RenameFile (a : answer) (src dst : string) (t : tree) : bool * tree :=
  let src := comps src in
  let dst := comps dst in
  match a, t !! src, t !! dst with
  | AOk, Some (NFile body), Some NDir => (false, t)
  | AOk, Some (NFile body), _ => if parent_dir dst t then (true, <[dst := NFile body]> (delete src t)) else (false, t)
  | _, _, _ => (false, t)
  end.
Definition token_path (dir : string) : string := path_Join [dir; tokenFile].
(** The answers to the four calls. *)
Record save_answers := MkSaveAnswers { sa_mkdir : answer; sa_write : answer; sa_rename : answer; sa_remove : answer }.
Definition SaveTokenHash (a : save_answers) (dir hash : string) (t : tree) : res token_error unit * tree :=
  let '(ok, t) := os_MkdirAll (sa_mkdir a) dir t in
  if negb ok then (Err ErrTokenDir, t) else
  let path := token_path dir in
  let tmpPath := path +:+ ".tmp" in
  let '(ok, t) := os_WriteFile (sa_write a) tmpPath hash t in
  if negb ok then (Err ErrTokenWrite, t) else
  let '(ok, t) := os_RenameFile (sa_rename a) tmpPath path t in
  if negb ok then (Err ErrTokenReplace, (os_RemoveOne (sa_remove a) tmpPath t).2) else (Ok (), t).
(** [os.ReadFile] may fail. *)
Definition LoadTokenHash (readable : bool) (dir : string) (t : tree) : res token_error string :=
  match t !! comps (token_path dir) with
  | Some (NFile data) => if readable then Ok (TrimSpace data) else Err ErrTokenRead
  | _ => Err ErrTokenRead
  end.

(** ** Hashing and verifying *)

Section Verify.
Context (IDKey : list ascii → list ascii → Z → Z → Z → nat → list ascii).
Context (IDKey_length : ∀ p s t m c n, length (IDKey p s t m c n) = n).

Lemma copy_into_exact n src : length src = n → copy_into n src = src.
Proof using Type. intros <-. unfold copy_into. rewrite take_ge, Nat.sub_diag by done. apply app_nil_r. Qed.
Lemma token_blob_length salt key : length salt = argon2SaltLen → length key = argon2KeyLen → length (token_blob salt key) = tokenBlobLen.
Proof using Type. intros Hs Hk. unfold token_blob. rewrite !length_app, !copy_into_exact by done. by rewrite Hs, Hk. Qed.
Lemma ParseV2_blob salt key : length salt = argon2SaltLen → length key = argon2KeyLen →
  ParseV2 (tokenFormatPrefix +:+ url_encode (token_blob salt key)) = Ok (MkTokenHash tokenFormatV1 argon2idAlgo argon2MemKB argon2Iters argon2Parallel salt key).
Proof using Type.
  intros Hs Hk. unfold ParseV2. rewrite CutPrefix_app, url_decode_encode, token_blob_length by done. cbn [negb].
  rewrite bool_decide_eq_true_2 by done. cbn [negb]. unfold token_blob. rewrite !copy_into_exact by done.
  set (l := salt ++ key). cbn [app be16]. f_equal. f_equal; try (by vm_compute).
  - change (drop 6 _) with l. unfold l. by apply take_app_length'.
  - change (drop 22 _) with (drop 16 l). unfold l. rewrite drop_app_length' by done. apply take_ge. by rewrite Hk.
Qed.
(** The text of a hash: the prefix and 72 characters that need no quoting. *)
Definition safe_char (a : ascii) : bool := url_text a || bool_decide (a = "."%char).
Lemma hash_text salt key : length salt = argon2SaltLen → length key = argon2KeyLen →
  let h := tokenFormatPrefix +:+ url_encode (token_blob salt key) in
  length (to_bytes h) = 78%nat ∧ Forall (λ a, safe_char a = true) (to_bytes h) ∧ TrimSpace h = h.
Proof using Type.
  intros Hs Hk h. pose proof (url_encode_chars (token_blob salt key)) as Hc.
  pose proof (url_encode_length 18 (token_blob salt key)) as Hl. rewrite token_blob_length in Hl by done. specialize (Hl eq_refl).
  unfold h, url_encode. rewrite to_bytes_app, to_of_bytes. split_and!.
  - by rewrite length_app, Hl.
  - apply Forall_app. split; [apply (bool_decide_unpack _); by vm_compute|]. eapply Forall_impl; [exact Hc|]. intros a (Ha & _). unfold safe_char. by rewrite Ha.
  - set (l := url_encode_bytes _) in *. destruct l as [|z l _] using rev_ind; [done|]. apply Forall_app in Hc as [_ Hz].
    rewrite Forall_singleton in Hz. destruct Hz as (_ & _ & Hz).
    rewrite <- (of_to_bytes (tokenFormatPrefix +:+ _)), to_bytes_app, to_of_bytes.
    pose proof (TrimSpace_margin_plain 0 "m"%char (to_bytes "esh1." ++ l) z eq_refl Hz) as E. cbn [replicate app] in E.
    rewrite <- app_assoc in E. exact E.
Qed.

Lemma VerifyToken_blob salt key raw : length salt = argon2SaltLen → length key = argon2KeyLen →
  VerifyToken IDKey raw (tokenFormatPrefix +:+ url_encode (token_blob salt key)) =
    if bool_decide (IDKey (to_bytes raw) salt argon2Iters argon2MemKB argon2Parallel argon2KeyLen = key) then Ok () else Err ErrInvalidToken.
Proof using Type.
  intros Hs Hk. unfold VerifyToken. rewrite ParseV2_blob by done. cbn [res_bind th_tCost th_parallelism th_salt th_mCostKB th_key]. by rewrite Hk.
Qed.

(** A token verifies against its own hash, and another text verifies exactly when
    Argon2id maps both to one key under the salt of the hash; every other text is
    refused as invalid. The hash has 78 characters, all safe in a shell and a compose
    file. *)
Theorem token_verifies_iff salt raw raw' : length salt = argon2SaltLen →
  ∃ h, HashToken IDKey (Some salt) raw = Ok h ∧
    length (to_bytes h) = 78%nat ∧ Forall (λ a, safe_char a = true) (to_bytes h) ∧
    VerifyToken IDKey raw' h =
      if bool_decide (IDKey (to_bytes raw') salt argon2Iters argon2MemKB argon2Parallel argon2KeyLen =
                      IDKey (to_bytes raw) salt argon2Iters argon2MemKB argon2Parallel argon2KeyLen) then Ok () else Err ErrInvalidToken.
Proof using IDKey_length.
  intros Hs. eexists. split; [reflexivity|].
  destruct (hash_text salt (IDKey (to_bytes raw) salt argon2Iters argon2MemKB argon2Parallel argon2KeyLen) Hs (IDKey_length _ _ _ _ _ _)) as (H1 & H2 & _).
  split; [done|]. split; [done|]. apply VerifyToken_blob; [done|apply IDKey_length].
Qed.
End Verify.

(** *** The token file *)

Definition abs_dir (dir : string) : Prop := HasPrefix dir "/" = true.
Lemma join_file dir c : abs_dir dir → normal c → path_Join [dir; c] = abs_text (comps dir ++ [c]).
Proof.
  intros Hd Hc. assert (c ≠ "") as Hne by apply Hc. destruct (comps_Join dir c Hd Hne) as [Hp _].
  assert (comps (path_Join [dir; c]) = comps dir ++ [c]) as Hcs.
  { apply (comps_Join_normal dir c [c]); [done|done|by apply Forall_singleton|]. left. destruct Hc as (_ & _ & _ & Hs).
    apply (split_join [c]); [done|by apply Forall_singleton]. }
  unfold path_Join in *. rewrite !filter_cons, filter_nil in *. rewrite !decide_True in * by (done || by intros ->).
  set (p := join "/" _) in *. assert (HasPrefix p "/" = true) as Hpp by (apply (HasPrefix_app dir); done).
  rewrite abs_clean in * by done. rewrite comps_abs in Hcs by (by apply comps_normal). by rewrite Hcs.
Qed.
Lemma token_path_abs dir : abs_dir dir → token_path dir = abs_text (comps dir ++ [tokenFile]) ∧
  token_path dir +:+ ".tmp" = abs_text (comps dir ++ ["mesh.token.tmp"]) ∧ Forall normal (comps dir ++ [tokenFile]) ∧ Forall normal (comps dir ++ ["mesh.token.tmp"]).
Proof.
  intros Hd. assert (normal tokenFile ∧ normal "mesh.token.tmp") as [H1 H2] by (split; apply (bool_decide_unpack _); by vm_compute).
  pose proof (comps_normal dir Hd) as Hn. unfold token_path. rewrite join_file by done. split; [done|]. split.
  - apply abs_text_extend.
  - split; apply Forall_app; split; try done; by apply Forall_singleton.
Qed.
Lemma RenameFile_cases a src dst t : os_RenameFile a src dst t = (false, t) ∨
  ∃ body, t !! comps src = Some (NFile body) ∧ os_RenameFile a src dst t = (true, <[comps dst := NFile body]> (delete (comps src) t)).
Proof.
  unfold os_RenameFile. destruct a; [|by left]. destruct (t !! comps src) as [[|body|]|]; try by left.
  destruct (t !! comps dst) as [[| |]|]; [by left|..]; (destruct (parent_dir _ t); [right; by exists body|by left]).
Qed.

(** Saving a hash leaves the old one or the new one, whatever fails; when it reports
    success the new one is there; and nothing else changes but the temporary file and
    directories on the way. *)
Theorem save_token_atomic a dir hash t : abs_dir dir →
  let '(r, t') := SaveTokenHash a dir hash t in
  let p := comps dir ++ [tokenFile] in
  (t' !! p = t !! p ∨ t' !! p = Some (NFile hash)) ∧ (r = Ok () → t' !! p = Some (NFile hash)) ∧
  confined (λ k, k = p ∨ k = comps dir ++ ["mesh.token.tmp"]) (λ k, k `prefix_of` comps dir) t t'.
Proof.
  intros Hd. destruct (token_path_abs dir Hd) as (E1 & E2 & Hn1 & Hn2). set (p := comps dir ++ [tokenFile]) in *. set (q := comps dir ++ ["mesh.token.tmp"]) in *.
  set (P := λ k, k = p ∨ k = q). set (Q := λ k, k `prefix_of` comps dir).
  assert (p ≠ q) as Hpq by (intros E; apply app_inj_tail in E as [_ E]; discriminate).
  assert (¬ p `prefix_of` comps dir) as Hlong by (intros Hp%prefix_length; unfold p in Hp; rewrite length_app in Hp; cbn in Hp; lia).
  unfold SaveTokenHash. rewrite E2, E1.
  pose proof (MkdirAll_confined P Q (sa_mkdir a) dir t ltac:(intros r Hr _; by right)) as C1.
  pose proof (MkdirAll_confined (λ _, False) Q (sa_mkdir a) dir t ltac:(intros r Hr _; by right)) as C1'.
  destruct (os_MkdirAll (sa_mkdir a) dir t) as [ok1 t1]. cbn [snd] in *. assert (t1 !! p = t !! p) as H1 by (by destruct (C1' p) as [?|[? _]]; [tauto|..]).
  destruct ok1; cbn [negb]; [|split_and!; [by left|done|done]].
  pose proof (WriteFile_confined P Q (sa_write a) (abs_text q) hash t1 ltac:(right; by apply comps_abs)) as C2.
  pose proof (WriteFile_confined (λ k, k = q) (λ _, False) (sa_write a) (abs_text q) hash t1 (comps_abs q Hn2)) as C2'.
  assert (∀ t2, os_WriteFile (sa_write a) (abs_text q) hash t1 = (true, t2) → t2 !! q = Some (NFile hash)) as W2.
  { unfold os_WriteFile. rewrite comps_abs by done. intros t2. destruct (_ || _); [done|]. destruct (sa_write a) as [|[|n] f]; [|done..]. intros [= <-]. apply lookup_insert_eq. }
  destruct (os_WriteFile (sa_write a) (abs_text q) hash t1) as [ok2 t2]. cbn [snd] in *. assert (t2 !! p = t !! p) as H2 by (rewrite <- H1; by destruct (C2' p Hpq) as [?|[? _]]).
  pose proof (confined_trans _ _ _ _ _ C1 C2) as C12. destruct ok2; cbn [negb]; [|split_and!; [by left|done|done]]. specialize (W2 t2 eq_refl).
  destruct (RenameFile_cases (sa_rename a) (abs_text q) (abs_text p) t2) as [->|(body & Hb & ->)]; cbn [negb].
  - pose proof (RemoveOne_confined P Q (sa_remove a) (abs_text q) t2 ltac:(right; by apply comps_abs)) as C3.
    pose proof (RemoveOne_confined (λ k, k = q) (λ _, False) (sa_remove a) (abs_text q) t2 (comps_abs q Hn2)) as C3'.
    split_and!; [left; rewrite <- H2; by destruct (C3' p Hpq) as [?|[? _]]|done|by eapply confined_trans].
  - rewrite !comps_abs in * by done. rewrite W2 in Hb. injection Hb as <-. rewrite lookup_insert_eq. split_and!; [by right|done|]. eapply confined_trans; [exact C12|].
    intros k Hk. left. rewrite lookup_insert_ne, lookup_delete_ne; [done|..]; intros <-; apply Hk; [by right|by left].
Qed.

(** A stand-in for Argon2id: the password, padded. *)
Definition padded_key (p s : list ascii) (t m c : Z) (n : nat) : list ascii := take n (p ++ replicate n "0"%char).
Lemma padded_key_length p s t m c n : length (padded_key p s t m c n) = n.
Proof. unfold padded_key. rewrite length_take, length_app, length_replicate. lia. Qed.
Definition some_salt : list ascii := replicate 16 "s"%char.
Lemma token_verifies_iff_witness : ∃ h, HashToken padded_key (Some some_salt) "secret" = Ok h ∧
  VerifyToken padded_key "secret" h = Ok () ∧ VerifyToken padded_key "guess" h = Err ErrInvalidToken.
Proof.
  destruct (token_verifies_iff padded_key padded_key_length some_salt "secret" "secret" eq_refl) as (h & Eh & _ & _ & E1).
  destruct (token_verifies_iff padded_key padded_key_length some_salt "secret" "guess" eq_refl) as (h' & Eh' & _ & _ & E2).
  rewrite Eh in Eh'. injection Eh' as <-. exists h. split; [done|]. rewrite E1, E2. split; vm_compute; reflexivity.
Defined.
(** [ParseV2] takes any version, algorithm and costs: a hash without rounds makes the
    verification of every token panic. *)
Theorem zero_rounds_panic IDKey raw : ∃ h, ParseV2 h = Ok (MkTokenHash 7 9 0 0 1 (replicate 16 "s"%char) (replicate 32 "k"%char)) ∧ VerifyToken IDKey raw h = Err PanicArgon2.
Proof.
  exists (tokenFormatPrefix +:+ url_encode ([chr 7; chr 9; chr 0; chr 0; chr 0; chr 1] ++ replicate 16 "s"%char ++ replicate 32 "k"%char)).
  split; vm_compute; reflexivity.
Qed.
