(* ===== verification/NodeAuth.v ===== *)
(** * Authentication of the node agent ([src/pkg/grpc/server.go])

    The servers a node agent runs, the interceptor that lets a call through - a verified
    client certificate, or the bearer token - and the two caches that follow files on
    disk: the token's hash and the server's certificate. What a read or a [Stat] sees is
    an argument, so that a file may change between any two of them. *)

From S2P Require Import Prelude GoStrings GoNet GoPath GoText GoFiles Token.

(** ** The token's hash, cached *)

(** [cachedMtime] of a provider that never saw the file is Go's zero time, here [None]. *)
Record token_provider := MkProvider { tp_cached : string; tp_mtime : option Z }.
(** [LoadTokenHash] and [Stat] at start. *)
Definition newTokenHashProvider (load : res token_error string) (stat : option Z) : token_provider :=
  MkProvider (match load with Ok h => h | Err _ => "" end) stat.
Definition current_hash (stat : option Z) (load : res token_error string) (p : token_provider) : string * token_provider :=
  match stat with
  | None => (tp_cached p, p)
  | Some m =>
      if bool_decide (tp_mtime p = Some m) then (tp_cached p, p) else
      match load with
      | Ok h => (h, MkProvider h (Some m))
      | Err _ => (tp_cached p, p)
      end
  end.

(** ** The interceptor *)

Record incoming := MkIncoming {
  in_chains : option nat;                  (* verified chains of the connection, when it is TLS *)
  in_authorization : option (list string)  (* the metadata of that name, when there is any *)
}.
Inductive admission := Handled | Unauthenticated | Crashed.
Section Interceptor.
Context (IDKey : list ascii → list ascii → Z → Z → Z → nat → list ascii).
Definition verified_peer (rq : incoming) : bool := match in_chains rq with Some (S _) => true | _ => false end.
Definition bearer_token (rq : incoming) : option string :=
  match in_authorization rq with Some (raw :: _) => CutPrefix raw "Bearer " | _ => None end.
Definition makeUnaryAuthInterceptor (stat : option Z) (load : res token_error string) (rq : incoming) (p : token_provider) : admission * token_provider :=
  if verified_peer rq then (Handled, p) else
  match bearer_token rq with
  | None => (Unauthenticated, p)
  | Some token =>
      let '(hash, p) := current_hash stat load p in
      (match VerifyToken IDKey token hash with Ok _ => Handled | Err PanicArgon2 => Crashed | Err _ => Unauthenticated end, p)
  end.
End Interceptor.

(** ** The server's certificate, cached *)

Section Certificates.
Context {Cert Pool : Type}.
Record cert_provider := MkCertProvider {
  cp_fallback : option Cert; cp_cache : option Cert; cp_crtMtime : option Z; cp_keyMtime : option Z
}.
Definition newDynamicCertificateProvider : cert_provider := MkCertProvider None None None None.
(** What one call reads: the two files' times, the pair, the times again, and a fresh
    self-signed certificate when it has to make one. *)
Record cert_reads := MkCertReads {
  cr_stat : option Z * option Z; cr_load : option Cert; cr_stat2 : option Z * option Z; cr_fresh : option Cert
}.
Definition cached_cert (r : cert_reads) (p : cert_provider) : option Cert :=
  match cp_cache p, cr_stat r with
  | Some c, (Some m1, Some m2) => if bool_decide (cp_crtMtime p = Some m1) && bool_decide (cp_keyMtime p = Some m2) then Some c else None
  | Some c, _ => Some c
  | None, _ => None
  end.
Definition getFallbackCertificate (r : cert_reads) (p : cert_provider) : option Cert * cert_provider :=
  match cp_fallback p with
  | Some c => (Some c, p)
  | None =>
      match cr_fresh r with
      | Some c => (Some c, MkCertProvider (Some c) (cp_cache p) (cp_crtMtime p) (cp_keyMtime p))
      | None => (None, p)
      end
  end.
Definition getServerCertificate (r : cert_reads) (p : cert_provider) : option Cert * cert_provider :=
  match cached_cert r p with
  | Some c => (Some c, p)
  | None =>
      match cr_load r with
      | Some c => (Some c, MkCertProvider (cp_fallback p) (Some c)
                     (match (cr_stat2 r).1 with Some m => Some m | None => cp_crtMtime p end)
                     (match (cr_stat2 r).2 with Some m => Some m | None => cp_keyMtime p end))
      | None =>
          match cp_cache p with
          | Some c => (Some c, p)
          | None => getFallbackCertificate r p
          end
      end
  end.

Inductive client_auth := NoClientCert | VerifyClientCertIfGiven (pool : Pool).
Definition getClientConfig (pool : option Pool) : client_auth :=
  match pool with None => NoClientCert | Some pool => VerifyClientCertIfGiven pool end.

(** The three servers: what they need to start, and how they look at client certificates. *)
Inductive server_error := ErrServerCert | ErrServerCA | ErrServerToken.
Inductive transport := PlainTransport | StaticTLS (cert : Cert) (pool : Pool) | DynamicTLS.
Definition NewServer (cert : option Cert) (pool : option Pool) (token : res token_error string) : res server_error transport :=
  match cert with
  | None => Err ErrServerCert
  | Some c =>
      match pool with
      | None => Err ErrServerCA
      | Some pl => match token with Ok _ => Ok (StaticTLS c pl) | Err _ => Err ErrServerToken end
      end
  end.
Definition NewInsecureServer (token : res token_error string) : res server_error transport :=
  match token with Ok _ => Ok PlainTransport | Err _ => Err ErrServerToken end.
Definition NewDynamicServer (token : res token_error string) : res server_error transport :=
  match token with Ok _ => Ok DynamicTLS | Err _ => Err ErrServerToken end.

(** [crypto/tls]: the verified chains of a connection whose client presents [cert], or
    that the handshake fails. *)
Context (verifies : Pool → Cert → bool).
Definition client_chains (auth : client_auth) (cert : option Cert) : option nat :=
  match auth, cert with
  | VerifyClientCertIfGiven pool, Some c => if verifies pool c then Some 1%nat else None
  | _, _ => Some 0%nat
  end.
Definition connection_chains (tr : transport) (pool_now : option Pool) (cert : option Cert) : option (option nat) :=
  match tr with
  | PlainTransport => Some None
  | StaticTLS _ pool => Some <$> client_chains (VerifyClientCertIfGiven pool) cert
  | DynamicTLS => Some <$> client_chains (getClientConfig pool_now) cert
  end.
End Certificates.
Arguments transport : clear implicits.
Arguments cert_reads : clear implicits.
Arguments cert_provider : clear implicits.
Arguments client_auth : clear implicits.

(** ** The caches follow the files *)

(** The token file over time, with its modification time, and the calls that ask for the
    hash. *)
Inductive token_event := TWrite (content : string) (mtime : Z) | TRemove | TCall.
Notation token_disk := (option (string * Z)).
Definition stat_of (d : token_disk) : option Z := snd <$> d.
Definition load_of (d : token_disk) : res token_error string := match d with Some (c, _) => Ok (TrimSpace c) | None => Err ErrTokenRead end.
Fixpoint run_cached (evs : list token_event) (d : token_disk) (p : token_provider) : list string :=
  match evs with
  | [] => []
  | TWrite c m :: evs => run_cached evs (Some (c, m)) p
  | TRemove :: evs => run_cached evs None p
  | TCall :: evs => let '(h, p) := current_hash (stat_of d) (load_of d) p in h :: run_cached evs d p
  end.
(** The reference: every call reads the file; without a file the last answer stands. *)
Fixpoint run_direct (evs : list token_event) (d : token_disk) (last : string) : list string :=
  match evs with
  | [] => []
  | TWrite c m :: evs => run_direct evs (Some (c, m)) last
  | TRemove :: evs => run_direct evs None last
  | TCall :: evs => let h := match d with Some (c, _) => TrimSpace c | None => last end in h :: run_direct evs d h
  end.
Fixpoint later_writes (since : Z) (evs : list token_event) : Prop :=
  match evs with
  | [] => True
  | TWrite _ m :: evs => since < m ∧ later_writes m evs
  | _ :: evs => later_writes since evs
  end.
Definition in_sync (since : Z) (d : token_disk) (p : token_provider) : Prop :=
  (∀ pm, tp_mtime p = Some pm → pm ≤ since) ∧
  ∀ c m, d = Some (c, m) → m ≤ since ∧ (tp_mtime p = Some m → tp_cached p = TrimSpace c).

Lemma run_cached_direct evs : ∀ since d p, in_sync since d p → later_writes since evs → run_cached evs d p = run_direct evs d (tp_cached p).
Proof.
  induction evs as [|[c m| |] evs IH]; intros since d p [Hp Hd] Hev; cbn [run_cached run_direct later_writes] in *; [done|..].
  - destruct Hev as [Hm Hev]. apply (IH m); [|done]. split; [intros pm Hpm; specialize (Hp pm Hpm); lia|].
    intros c' m' [= <- <-]. split; [lia|]. intros Hpm. specialize (Hp m Hpm). lia.
  - by apply (IH since).
  - unfold current_hash, stat_of, load_of. destruct d as [[c m]|]; cbn [fmap option_fmap option_map snd].
    + destruct (Hd c m eq_refl) as [Hm Hsame]. case_bool_decide as Hpm.
      * rewrite <- (Hsame Hpm). f_equal. apply (IH since); [done|done].
      * f_equal. apply (IH since (Some (c, m)) (MkProvider (TrimSpace c) (Some m))); [|done].
        split; [by intros pm [= <-]|]. by intros c' m' [= <- <-].
    + f_equal. by apply (IH since).
Qed.

(** Rotating the token needs no restart: as long as each write of the file has a later
    modification time, the caching provider answers every call as if it read the file. *)
Theorem token_hot_rotation content mtime evs : later_writes mtime evs →
  let d := Some (content, mtime) in
  run_cached evs d (newTokenHashProvider (load_of d) (stat_of d)) = run_direct evs d (TrimSpace content).
Proof.
  intros H d. apply (run_cached_direct evs mtime); [|done]. split; [by intros pm [= <-]|]. by intros c m [= <- <-].
Qed.
Lemma token_hot_rotation_witness :
  run_cached [TCall; TWrite " new " 2; TCall; TRemove; TCall] (Some ("old", 1)) (newTokenHashProvider (load_of (Some ("old", 1))) (Some 1)) = ["old"; "new"; "new"].
Proof. exact (token_hot_rotation "old" 1 [TCall; TWrite " new " 2; TCall; TRemove; TCall] (conj eq_refl I)). Defined.

(** The provider reads the file before it looks at its time: a write between the two is
    not noticed, and the old token is accepted until the file changes once more. *)
Theorem provider_start_race old new m n :
  run_cached (replicate n TCall) (Some (new, m)) (newTokenHashProvider (load_of (Some (old, 0))) (Some m)) = replicate n (TrimSpace old).
Proof.
  unfold newTokenHashProvider, load_of. induction n as [|n IH]; [done|]. cbn [replicate run_cached]. unfold current_hash, stat_of. cbn [fmap option_fmap option_map snd tp_mtime].
  rewrite bool_decide_eq_true_2 by done. cbn [tp_cached]. f_equal. exact IH.
Qed.

Section Served.
Context {Cert : Type}.
Fixpoint serve (reads : list (cert_reads Cert)) (p : cert_provider Cert) : list (option Cert) :=
  match reads with
  | [] => []
  | r :: reads => let '(c, p) := getServerCertificate r p in c :: serve reads p
  end.
(** Once a certificate was loaded, every later handshake gets a loaded one, whatever
    happens to the files: never the self-signed stand-in, and never an error. *)
Theorem cert_last_known_good reads : ∀ p c, cp_cache p = Some c →
  Forall (λ o, ∃ c', o = Some c' ∧ (c' = c ∨ c' ∈ omap cr_load reads)) (serve reads p).
Proof.
  induction reads as [|r reads IH]; intros p c Hc; cbn [serve]; [constructor|].
  assert (∀ c1 p1, cp_cache p1 = Some c1 → (c1 = c ∨ cr_load r = Some c1) → Forall (λ o, ∃ c', o = Some c' ∧ (c' = c ∨ c' ∈ omap cr_load (r :: reads))) (Some c1 :: serve reads p1)) as Hnext.
  { intros c1 p1 H1 Hfrom. assert (∀ x, x ∈ omap cr_load reads → x ∈ omap cr_load (r :: reads)) as Hmono.
    { intros x. cbn [omap list_omap]. destruct (cr_load r); [by right|done]. }
    assert (c1 = c ∨ c1 ∈ omap cr_load (r :: reads)) as Hc1.
    { destruct Hfrom as [?|Hl]; [by left|right]. cbn [omap list_omap]. rewrite Hl. by left. }
    constructor; [by exists c1|]. eapply Forall_impl; [by apply (IH p1 c1)|]. intros o (c' & -> & Hc'). exists c'. split; [done|]. destruct Hc' as [-> | Hin]; auto. }
  unfold getServerCertificate, cached_cert. rewrite Hc. destruct (cr_stat r) as [[m1|] [m2|]]; [|by apply Hnext; auto..].
  destruct (_ && _); [by apply Hnext; auto|]. destruct (cr_load r) as [c1|] eqn:El; by apply Hnext; auto.
Qed.
End Served.

(** ** Who gets in *)

Section Admission.
Context {Cert Pool : Type} (verifies : Pool → Cert → bool).
Context (IDKey : list ascii → list ascii → Z → Z → Z → nat → list ascii).
Context (IDKey_length : ∀ p s t m c n, length (IDKey p s t m c n) = n).

(** The client's certificate is verified against the pool the server uses. *)
Definition cert_admits (tr : transport Cert Pool) (pool_now : option Pool) (cert : option Cert) : bool :=
  match tr, pool_now, cert with
  | StaticTLS _ pool, _, Some c => verifies pool c
  | DynamicTLS, Some pool, Some c => verifies pool c
  | _, _, _ => false
  end.
(** The first authorization value carries a token with the key of the secret. *)
Definition token_admits (salt : list ascii) (secret : string) (authorization : option (list string)) : bool :=
  match authorization with
  | Some (raw :: _) =>
      match CutPrefix raw "Bearer " with
      | Some token => bool_decide (IDKey (to_bytes token) salt argon2Iters argon2MemKB argon2Parallel argon2KeyLen =
                                   IDKey (to_bytes secret) salt argon2Iters argon2MemKB argon2Parallel argon2KeyLen)
      | None => false
      end
  | _ => false
  end.

Lemma chains_verified tr pool_now cert chains : connection_chains verifies tr pool_now cert = Some chains →
  verified_peer (MkIncoming chains None) = cert_admits tr pool_now cert.
Proof using Type.
  unfold connection_chains, cert_admits, client_chains, getClientConfig, verified_peer. cbn [in_chains].
  destruct tr, pool_now as [pool'|], cert as [c|]; cbn; try (by intros [= <-]);
    match goal with |- context [verifies ?a ?b] => destruct (verifies a b) end; cbn; (by intros [= <-]) || done.
Qed.

(** C31. Once the hash of a secret is saved, and the provider sees that the file changed,
    a call is handled exactly when the connection's client certificate is verified
    against the server's pool, or the first authorization value is a bearer token that
    Argon2id maps to the key of the secret; every other call is refused, and none
    crashes the server. *)
Theorem call_admitted_iff salt secret hash a dir t t' m p (tr : transport Cert Pool) pool_now cert chains authorization :
  length salt = argon2SaltLen → HashToken IDKey (Some salt) secret = Ok hash → abs_dir dir →
  SaveTokenHash a dir hash t = (Ok (), t') → tp_mtime p ≠ Some m → connection_chains verifies tr pool_now cert = Some chains →
  (makeUnaryAuthInterceptor IDKey (Some m) (LoadTokenHash true dir t') (MkIncoming chains authorization) p).1 =
    if cert_admits tr pool_now cert || token_admits salt secret authorization then Handled else Unauthenticated.
Proof using IDKey_length.
  intros Hs Hh Hd Hsave Hm Hch. pose proof (chains_verified _ _ _ _ Hch) as Hv. unfold makeUnaryAuthInterceptor.
  change (verified_peer (MkIncoming chains authorization)) with (verified_peer (MkIncoming chains None)). rewrite Hv.
  destruct (cert_admits tr pool_now cert); [done|]. cbn [orb]. unfold token_admits, bearer_token. cbn [in_authorization].
  destruct authorization as [[|raw vals]|]; [done| |done]. destruct (CutPrefix raw "Bearer ") as [token|]; [|done].
  assert (LoadTokenHash true dir t' = Ok hash) as Hload.
  { pose proof (save_token_atomic a dir hash t Hd) as Hat. rewrite Hsave in Hat. destruct Hat as (_ & Hat & _). specialize (Hat eq_refl).
    destruct (token_path_abs dir Hd) as (E & _ & Hn & _). unfold LoadTokenHash. rewrite E, comps_abs, Hat by done. injection Hh as <-. f_equal.
    apply hash_text; [done|apply IDKey_length]. }
  unfold current_hash. rewrite bool_decide_eq_false_2, Hload by done. injection Hh as <-.
  rewrite VerifyToken_blob by (done || apply IDKey_length). by case_bool_decide.
Qed.
End Admission.

Definition demo_hash : string := match HashToken padded_key (Some some_salt) "secret" with Ok h => h | Err _ => "" end.
Definition all_ok : save_answers := MkSaveAnswers AOk AOk AOk AOk.
Definition demo_config : tree := (SaveTokenHash all_ok "/config" demo_hash ∅).2.
Definition demo_call (authorization : string) : admission :=
  (makeUnaryAuthInterceptor padded_key (Some 5) (LoadTokenHash true "/config" demo_config) (MkIncoming (Some 0%nat) (Some [authorization])) (MkProvider "" None)).1.
Lemma demo_saved : SaveTokenHash all_ok "/config" demo_hash ∅ = (Ok (), demo_config).
Proof.
  unfold demo_config. assert ((SaveTokenHash all_ok "/config" demo_hash ∅).1 = Ok ()) as E by (vm_compute; reflexivity).
  destruct (SaveTokenHash all_ok "/config" demo_hash ∅) as [r t]. cbn [fst snd] in *. by rewrite E.
Qed.
Lemma call_admitted_iff_witness : demo_call "Bearer secret" = Handled ∧ demo_call "Bearer guess" = Unauthenticated.
Proof.
  assert (∀ v, demo_call v = if token_admits padded_key some_salt "secret" (Some [v]) then Handled else Unauthenticated) as H.
  { intros v. exact (call_admitted_iff (Cert := nat) (Pool := nat) Nat.eqb padded_key padded_key_length some_salt "secret" demo_hash all_ok "/config" ∅ demo_config 5
      (MkProvider "" None) DynamicTLS (Some 1%nat) None (Some 0%nat) (Some [v]) eq_refl eq_refl eq_refl demo_saved ltac:(done) eq_refl). }
  rewrite !H. split; vm_compute; reflexivity.
Defined.
