(* ===== verification/IpRange.v ===== *)
(** * Managing overlay ranges ([src/cmd/mesh-ctl/cmd/ip.go])

    The commands that add, resize, rename, delete a range and set its balancer. Each
    loads the topology, edits it and saves it; the file is modelled by the topology it
    decodes to, and saving (a temporary file and a rename) happens or does not. *)

From S2P Require Import Prelude GoStrings GoNet.
From S2P Require Import Ranges.
From S2P Require Import TopologyV2.
From S2P Require Import Topology.

Inductive ip_error :=
  | ErrIpFlag (flag : string) | ErrIpLoad | ErrIpSave
  | ErrIpExists (name : string) | ErrIpMissing (name : string) | ErrIpParse (e : range_error)
  | ErrIpOverlap (name : string) | ErrIpBalancerParse (ip : string) | ErrIpBalancerOutside (ip : string)
  | ErrIpNode (kind name : string).

Definition ranges (t : Topology) : list NamedRange := oc_Ranges (tp_Overlay t).
Definition set_ranges (rs : list NamedRange) (t : Topology) : Topology :=
  MkTopology (tp_Defaults t) (MkOverlayConfig (oc_Space (tp_Overlay t)) (oc_PhysicalMTU (tp_Overlay t)) (oc_AWGOverhead (tp_Overlay t)) rs)
    (tp_Masters t) (tp_Endpoints t) (tp_Clients t) (tp_Capture t) (tp_Rotation t).

(** [-1] is [None]. *)
Definition findRangeIndex (t : Topology) (name : string) : option nat := fst <$> list_find (λ r, nr_Name r = name) (ranges t).

(** The loop over the existing ranges; those that do not parse are skipped. *)
Fixpoint find_overlap (skip : option nat) (i : nat) (newRange : Range) (rs : list NamedRange) : option string :=
  match rs with
  | [] => None
  | existing :: rs =>
      if bool_decide (skip = Some i) then find_overlap skip (S i) newRange rs else
      match ParseRange existing with
      | Err _ => find_overlap skip (S i) newRange rs
      | Ok r => if RangesOverlap newRange r then Some (nr_Name existing) else find_overlap skip (S i) newRange rs
      end
  end.

(** The first node with an address inside the range. *)
Definition uses_range (r : Range) (overlayIP : string) : bool :=
  match ParseAddr overlayIP with Some ip => range_contains r ip | None => false end.
Definition checkNodesUseRange (t : Topology) (r : Range) : res ip_error unit :=
  match list_find (λ m, uses_range r (mn_OverlayIP m) = true) (tp_Masters t) with
  | Some (_, m) => Err (ErrIpNode "master" (mn_Name m))
  | None =>
      match list_find (λ e, uses_range r (en_OverlayIP e) = true) (tp_Endpoints t) with
      | Some (_, e) => Err (ErrIpNode "endpoint" (en_Name e))
      | None =>
          match list_find (λ c, uses_range r (cn_OverlayIP c) = true) (tp_Clients t) with
          | Some (_, c) => Err (ErrIpNode "client" (cn_Name c))
          | None => Ok ()
          end
      end
  end.

Inductive ip_command :=
  | RangeAdd (name cidr balancerIP : string) | RangeResize (name cidr : string) | RangeRename (name newName : string)
  | RangeDelete (name : string) | RangeSetBalancer (name balancerIP : string).

Definition check_balancer (r : Range) (balancerIP : string) : res ip_error unit :=
  match ParseAddr balancerIP with
  | None => Err (ErrIpBalancerParse balancerIP)
  | Some bip => if range_contains r bip then Ok () else Err (ErrIpBalancerOutside balancerIP)
  end.
Definition lift_range {X} (r : res range_error X) : res ip_error X := match r with Ok x => Ok x | Err e => Err (ErrIpParse e) end.

Definition range_add (name cidr balancerIP : string) (t : Topology) : res ip_error Topology :=
  if bool_decide (name ∈ nr_Name <$> ranges t) then Err (ErrIpExists name) else
  let newNamedRange := MkNamedRange name cidr balancerIP in
  let! newRange := lift_range (ParseRange newNamedRange) in
  match find_overlap None 0 newRange (ranges t) with
  | Some other => Err (ErrIpOverlap other)
  | None =>
      let! _ := if bool_decide (balancerIP ≠ "") then check_balancer newRange balancerIP else Ok () in
      Ok (set_ranges (ranges t ++ [newNamedRange]) t)
  end.

Definition at_range (t : Topology) (name : string) : res ip_error (nat * NamedRange) :=
  match findRangeIndex t name with
  | None => Err (ErrIpMissing name)
  | Some idx => match ranges t !! idx with Some nr => Ok (idx, nr) | None => Err (ErrIpMissing name) end
  end.
Definition range_resize (name cidr : string) (t : Topology) : res ip_error Topology :=
  let! (idx, nr) := at_range t name in
  let! newRange := lift_range (ParseRange (MkNamedRange name cidr (nr_BalancerIP nr))) in
  match find_overlap (Some idx) 0 newRange (ranges t) with
  | Some other => Err (ErrIpOverlap other)
  | None =>
      let! _ := match ParseAddr (nr_BalancerIP nr) with
                | Some bip => if bool_decide (nr_BalancerIP nr ≠ "") && negb (range_contains newRange bip)
                              then Err (ErrIpBalancerOutside (nr_BalancerIP nr)) else Ok ()
                | None => Ok ()
                end in
      Ok (set_ranges (<[idx := MkNamedRange (nr_Name nr) cidr (nr_BalancerIP nr)]> (ranges t)) t)
  end.
(** The names of the others, for the check of the new one. *)
Definition range_rename (name newName : string) (t : Topology) : res ip_error Topology :=
  let! (idx, nr) := at_range t name in
  if bool_decide (newName ∈ nr_Name <$> delete idx (ranges t)) then Err (ErrIpExists newName) else
  Ok (set_ranges (<[idx := MkNamedRange newName (nr_CIDR nr) (nr_BalancerIP nr)]> (ranges t)) t).
(** The last range takes the place of the deleted one. *)
Definition range_delete (name : string) (t : Topology) : res ip_error Topology :=
  let! (idx, nr) := at_range t name in
  let! r := lift_range (ParseRange nr) in
  let! _ := checkNodesUseRange t r in
  let last := (length (ranges t) - 1)%nat in
  match ranges t !! last with
  | Some final => Ok (set_ranges (take last (<[idx := final]> (ranges t))) t)
  | None => Err (ErrIpMissing name)
  end.
Definition range_set_balancer (name balancerIP : string) (t : Topology) : res ip_error Topology :=
  let! (idx, nr) := at_range t name in
  let! r := lift_range (ParseRange nr) in
  let! _ := check_balancer r balancerIP in
  Ok (set_ranges (<[idx := MkNamedRange (nr_Name nr) (nr_CIDR nr) balancerIP]> (ranges t)) t).

(** A required flag is checked before the topology is loaded. *)
Definition missing_flag (c : ip_command) : option string :=
  match c with
  | RangeAdd _ cidr _ | RangeResize _ cidr => if bool_decide (cidr = "") then Some "--cidr" else None
  | RangeRename _ newName => if bool_decide (newName = "") then Some "--new-name" else None
  | RangeDelete _ => None
  | RangeSetBalancer _ ip => if bool_decide (ip = "") then Some "--balancer-ip" else None
  end.
Definition edit_ranges (c : ip_command) : Topology → res ip_error Topology :=
  match c with
  | RangeAdd name cidr ip => range_add name cidr ip
  | RangeResize name cidr => range_resize name cidr
  | RangeRename name newName => range_rename name newName
  | RangeDelete name => range_delete name
  | RangeSetBalancer name ip => range_set_balancer name ip
  end.
Definition run_ip (saves : bool) (c : ip_command) (file : option Topology) : res ip_error unit * option Topology :=
  match missing_flag c with
  | Some flag => (Err (ErrIpFlag flag), file)
  | None =>
      match file with
      | None => (Err ErrIpLoad, file)
      | Some t =>
          match edit_ranges c t with
          | Err e => (Err e, file)
          | Ok t' => if saves then (Ok (), Some t') else (Err ErrIpSave, file)
          end
      end
  end.
Fixpoint run_ips (cs : list (bool * ip_command)) (file : option Topology) : option Topology :=
  match cs with [] => file | (saves, c) :: cs => run_ips cs (run_ip saves c file).2 end.

(** ** What the commands preserve *)

Definition disjoint_ranges (a b : NamedRange) : Prop := ∀ ra rb, ParseRange a = Ok ra → ParseRange b = Ok rb → RangesOverlap ra rb = false.
Definition balancer_inside (nr : NamedRange) : Prop :=
  nr_BalancerIP nr = "" ∨ ∃ r b, ParseRange nr = Ok r ∧ ParseAddr (nr_BalancerIP nr) = Some b ∧ range_contains r b = true.
(** Names are unique, networks disjoint, balancers inside. *)
Definition distinct_pairs (rs : list NamedRange) : Prop :=
  ∀ i j a b, rs !! i = Some a → rs !! j = Some b → i ≠ j → nr_Name a ≠ nr_Name b ∧ disjoint_ranges a b.
Definition ranges_ok (rs : list NamedRange) : Prop := distinct_pairs rs ∧ Forall balancer_inside rs.

Lemma disjoint_sym a b : disjoint_ranges a b → disjoint_ranges b a.
Proof. intros H ra rb Ha Hb. unfold RangesOverlap. rewrite orb_comm. exact (H rb ra Hb Ha). Qed.
(** The network of a range comes from its CIDR alone. *)
Lemma ParseRange_network a b ra rb : nr_CIDR a = nr_CIDR b → ParseRange a = Ok ra → ParseRange b = Ok rb → rg_Network ra = rg_Network rb.
Proof.
  intros E. unfold ParseRange. rewrite E. destruct (ParsePrefix (nr_CIDR b)) as [p|]; [|done].
  repeat case_bool_decide; try destruct (ParseAddr (nr_BalancerIP a)); try destruct (ParseAddr (nr_BalancerIP b)); try done; by intros [= <-] [= <-].
Qed.
Lemma ParseRange_same a b : nr_CIDR a = nr_CIDR b → nr_BalancerIP a = nr_BalancerIP b → ∀ ra, ParseRange a = Ok ra → ∃ rb, ParseRange b = Ok rb.
Proof.
  intros E1 E2 ra. unfold ParseRange. rewrite E1, E2. destruct (ParsePrefix (nr_CIDR b)) as [p|]; [|done].
  case_bool_decide; [|eauto]. destruct (ParseAddr (nr_BalancerIP b)); [eauto|done].
Qed.
Lemma overlap_network a a' b : rg_Network a = rg_Network a' → RangesOverlap a b = RangesOverlap a' b.
Proof. unfold RangesOverlap. by intros ->. Qed.
(** A range with the CIDR of another that parses is as disjoint as it. *)
Lemma disjoint_like a a' b : nr_CIDR a' = nr_CIDR a → (∀ r, ParseRange a' = Ok r → ∃ r', ParseRange a = Ok r') → disjoint_ranges a b → disjoint_ranges a' b.
Proof.
  intros E Hp H ra rb Ha Hb. destruct (Hp ra Ha) as [r' Hr']. rewrite (overlap_network ra r'); [by apply H|]. by eapply ParseRange_network.
Qed.

Lemma find_overlap_none skip newRange rs : ∀ i, find_overlap skip i newRange rs = None →
  ∀ j b rb, rs !! j = Some b → skip ≠ Some (i + j)%nat → ParseRange b = Ok rb → RangesOverlap newRange rb = false.
Proof.
  induction rs as [|x rs IH]; intros i H j b rb Hj Hs Hb; [done|]. cbn [find_overlap] in H. destruct j as [|j].
  - injection Hj as ->. rewrite Nat.add_0_r in Hs. rewrite bool_decide_eq_false_2, Hb in H by done. by destruct (RangesOverlap newRange rb).
  - apply (IH (S i)) with (j := j) (b := b); [|done|by rewrite Nat.add_succ_comm|done].
    destruct (bool_decide _); [done|]. destruct (ParseRange x); [|done]. by destruct (RangesOverlap newRange a).
Qed.

(** Rearranging and dropping ranges. *)
Lemma ranges_ok_sub (π : nat → nat) rs rs' : (∀ i a, rs' !! i = Some a → rs !! π i = Some a) →
  (∀ i j, is_Some (rs' !! i) → is_Some (rs' !! j) → π i = π j → i = j) → ranges_ok rs → ranges_ok rs'.
Proof.
  intros Hπ Hinj [H1 H2]. split.
  - intros i j a b Hi Hj Hij. apply (H1 (π i) (π j)); [by apply Hπ..|]. intros E. apply Hij, Hinj; [by rewrite Hi|by rewrite Hj|done].
  - apply Forall_lookup. intros i a Hi. rewrite Forall_lookup in H2. by apply (H2 (π i)), Hπ.
Qed.
(** One range changes. *)
Lemma ranges_ok_insert idx nr nr' rs : ranges_ok rs → rs !! idx = Some nr →
  (∀ j b, rs !! j = Some b → j ≠ idx → nr_Name nr' ≠ nr_Name b ∧ disjoint_ranges nr' b) → balancer_inside nr' → ranges_ok (<[idx := nr']> rs).
Proof.
  intros [H1 H2] Hidx Hnew Hb. split; [|by apply Forall_insert].
  intros i j a b Hi Hj Hij. rewrite list_lookup_insert_Some in Hi, Hj.
  destruct Hi as [(-> & -> & _)|[Hi Ei]], Hj as [(-> & -> & _)|[Hj Ej]]; [done|..].
  - apply (Hnew j b); [done|done].
  - destruct (Hnew i a Ei) as [Hn Hd]; [done|]. split; [by apply not_eq_sym|by apply disjoint_sym].
  - by apply (H1 i j).
Qed.
Lemma at_range_ok t name idx nr : at_range t name = Ok (idx, nr) → ranges t !! idx = Some nr ∧ nr_Name nr = name.
Proof.
  unfold at_range, findRangeIndex. destruct (list_find _ _) as [[i x]|] eqn:E; [|done]. cbn. apply list_find_Some in E as (E & Hn & _). rewrite E. by intros [= <- <-].
Qed.

Lemma check_balancer_ok r ip : check_balancer r ip = Ok () → ∃ b, ParseAddr ip = Some b ∧ range_contains r b = true.
Proof. unfold check_balancer. destruct (ParseAddr ip) as [b|]; [|done]. destruct (range_contains r b) eqn:E; [eauto|done]. Qed.

Lemma range_add_ok name cidr ip t t' : ranges_ok (ranges t) → range_add name cidr ip t = Ok t' → ranges_ok (ranges t').
Proof.
  intros [H1 H2]. unfold range_add. case_bool_decide as Hn; [done|]. destruct (ParseRange _) as [r|e] eqn:Er; [|done]. cbn [lift_range res_bind].
  destruct (find_overlap _ _ _ _) as [o|] eqn:Eo; [done|]. intros H. apply res_bind_ok in H as ([] & Hb & [= <-]). cbn.
  set (nr := MkNamedRange name cidr ip) in *. split.
  - assert (∀ j b, ranges t !! j = Some b → nr_Name nr ≠ nr_Name b ∧ disjoint_ranges nr b) as Hnew.
    { intros j b Hj. split.
      - intros E. apply Hn. change name with (nr_Name nr). rewrite E. apply list_elem_of_fmap_2. by eapply list_elem_of_lookup_2.
      - intros ra rb Ha Hb'. rewrite Er in Ha. injection Ha as <-. by apply (find_overlap_none None r (ranges t) 0 Eo j b). }
    intros i j a b Hi Hj Hij. rewrite lookup_app_Some in Hi, Hj.
    destruct Hi as [Hi|[Li Hi]], Hj as [Hj|[Lj Hj]].
    + by apply (H1 i j).
    + apply list_lookup_singleton_Some in Hj as [_ <-]. destruct (Hnew i a Hi). split; [by apply not_eq_sym|by apply disjoint_sym].
    + apply list_lookup_singleton_Some in Hi as [_ <-]. by apply (Hnew j b).
    + apply list_lookup_singleton_Some in Hi as [Ei _], Hj as [Ej _]. lia.
  - apply Forall_app. split; [done|]. apply Forall_singleton. destruct (decide (ip = "")) as [He|He]; [by left|]. rewrite bool_decide_eq_true_2 in Hb by done.
    apply check_balancer_ok in Hb as (b & Hb & Hc). right. by exists r, b.
Qed.
Lemma range_resize_ok name cidr t t' : ranges_ok (ranges t) → range_resize name cidr t = Ok t' → ranges_ok (ranges t').
Proof.
  intros Hok. unfold range_resize. destruct (at_range t name) as [[idx nr]|e] eqn:Ea; [|done]. cbn [res_bind].
  apply at_range_ok in Ea as [Hidx Hname]. destruct (ParseRange _) as [r|e] eqn:Er; [|done]. cbn [lift_range res_bind].
  destruct (find_overlap _ _ _ _) as [o|] eqn:Eo; [done|]. intros H. apply res_bind_ok in H as ([] & Hb & [= <-]). cbn.
  assert (ParseRange (MkNamedRange (nr_Name nr) cidr (nr_BalancerIP nr)) = Ok r) as Er' by (by rewrite Hname).
  apply (ranges_ok_insert idx nr); [done|done| |].
  - intros j b Hj Hij. destruct (proj1 Hok idx j nr b Hidx Hj) as [Hn _]; [done|]. split; [exact Hn|]. intros ra rb Ha Hb'. rewrite Er' in Ha. injection Ha as <-.
    apply (find_overlap_none (Some idx) r (ranges t) 0 Eo j b); [done| |done]. cbn. congruence.
  - destruct (decide (nr_BalancerIP nr = "")) as [E|E]; [by left|right]. cbn [nr_BalancerIP].
    assert (is_Some (ParseAddr (nr_BalancerIP nr))) as [b Eb].
    { unfold ParseRange in Er. cbn [nr_CIDR nr_BalancerIP nr_Name] in Er. destruct (ParsePrefix cidr); [|done]. rewrite bool_decide_eq_true_2 in Er by done. by destruct (ParseAddr (nr_BalancerIP nr)). }
    rewrite Eb, bool_decide_eq_true_2 in Hb by done. exists r, b. split_and!; [done|done|]. by destruct (range_contains r b).
Qed.
Lemma range_rename_ok name newName t t' : ranges_ok (ranges t) → range_rename name newName t = Ok t' → ranges_ok (ranges t').
Proof.
  intros Hok. unfold range_rename. destruct (at_range t name) as [[idx nr]|e] eqn:Ea; [|done]. cbn [res_bind].
  apply at_range_ok in Ea as [Hidx _]. case_bool_decide as Hn; [done|]. intros [= <-]. cbn.
  assert (∀ r, ParseRange (MkNamedRange newName (nr_CIDR nr) (nr_BalancerIP nr)) = Ok r → ∃ r', ParseRange nr = Ok r') as Hp.
  { intros r Hr. eapply ParseRange_same; [..|exact Hr]; done. }
  apply (ranges_ok_insert idx nr); [done|done| |].
  - intros j b Hj Hij. destruct (proj1 Hok idx j nr b Hidx Hj) as [_ Hd]; [done|]. split; [|by apply (disjoint_like nr)]. cbn. intros ->. apply Hn. apply list_elem_of_fmap_2.
    apply list_elem_of_lookup. destruct (decide (j < idx)%nat) as [Hlt|Hge].
    + exists j. by rewrite list_lookup_delete_lt.
    + exists (j - 1)%nat. rewrite list_lookup_delete_ge by lia. by replace (S (j - 1)) with j by lia.
  - destruct Hok as [_ Hb]. rewrite Forall_lookup in Hb. destruct (Hb idx nr Hidx) as [E|(r & b & Hr & Hb' & Hc)]; [by left|right]. cbn.
    destruct (ParseRange_same nr (MkNamedRange newName (nr_CIDR nr) (nr_BalancerIP nr)) eq_refl eq_refl r Hr) as [r' Hr']. exists r', b. split_and!; [done|done|].
    unfold range_contains in *. erewrite ParseRange_network; [exact Hc| |exact Hr'|eassumption]. done.
Qed.
Lemma range_set_balancer_ok name ip t t' : ranges_ok (ranges t) → range_set_balancer name ip t = Ok t' → ranges_ok (ranges t').
Proof.
  intros Hok. unfold range_set_balancer. destruct (at_range t name) as [[idx nr]|e] eqn:Ea; [|done]. cbn [res_bind].
  apply at_range_ok in Ea as [Hidx _]. destruct (ParseRange nr) as [r|e] eqn:Er; [|done]. cbn [lift_range res_bind].
  intros H. apply res_bind_ok in H as ([] & Hb & [= <-]). apply check_balancer_ok in Hb as (b & Hb & Hc). cbn.
  assert (∃ r', ParseRange (MkNamedRange (nr_Name nr) (nr_CIDR nr) ip) = Ok r') as [r' Hr'].
  { unfold ParseRange in *. cbn [nr_CIDR nr_BalancerIP nr_Name]. destruct (ParsePrefix (nr_CIDR nr)); [|done]. rewrite Hb. destruct (bool_decide (ip ≠ "")); eexists; reflexivity. }
  apply (ranges_ok_insert idx nr); [done|done| |].
  - intros j c Hj Hij. destruct (proj1 Hok idx j nr c Hidx Hj) as [Hn Hd]; [done|]. split; [done|]. apply (disjoint_like nr); [done| |done]. by exists r.
  - right. exists r', b. split_and!; [done|done|]. unfold range_contains in *. erewrite ParseRange_network; [exact Hc| |exact Hr'|eassumption]. done.
Qed.
Lemma swap_delete {A} (l : list A) idx final i a : l !! (length l - 1)%nat = Some final → (idx < length l)%nat →
  take (length l - 1) (<[idx := final]> l) !! i = Some a → l !! (if decide (i = idx) then length l - 1 else i)%nat = Some a ∧ (i < length l - 1)%nat.
Proof.
  intros Hf Hi H. apply lookup_take_Some in H as [H Hlt]. split; [|done]. destruct (decide (i = idx)) as [->|Hne].
  - rewrite list_lookup_insert_eq in H by done. congruence.
  - by rewrite list_lookup_insert_ne in H.
Qed.
Lemma range_delete_ok name t t' : ranges_ok (ranges t) → range_delete name t = Ok t' → ranges_ok (ranges t').
Proof.
  intros Hok. unfold range_delete. destruct (at_range t name) as [[idx nr]|e] eqn:Ea; [|done]. cbn [res_bind].
  apply at_range_ok in Ea as [Hidx _]. destruct (lift_range _); [|done]. cbn [res_bind]. destruct (checkNodesUseRange _ _); [|done]. cbn [res_bind].
  destruct (ranges t !! (length (ranges t) - 1)%nat) as [final|] eqn:Ef; [|done]. intros [= <-]. cbn. assert (idx < length (ranges t))%nat as Hlt by (by apply lookup_lt_is_Some; rewrite Hidx).
  apply (ranges_ok_sub (λ i, if decide (i = idx) then length (ranges t) - 1 else i)%nat (ranges t)); [| |done].
  - intros i b Hi. by eapply swap_delete.
  - intros i j [b Hi] [c Hj]. eapply swap_delete in Hi as [_ Hi], Hj as [_ Hj]; [|done..]. repeat destruct (decide _); lia.
Qed.

(** C38. Whatever commands an operator runs, and whichever saves fail, the ranges of the
    topology keep unique names, disjoint networks and balancers inside their ranges. *)
Theorem range_commands_preserve cs : ∀ file, (∀ t, file = Some t → ranges_ok (ranges t)) → ∀ t, run_ips cs file = Some t → ranges_ok (ranges t).
Proof.
  induction cs as [|[saves c] cs IH]; intros file Hf t; cbn [run_ips]; [apply Hf|]. apply IH. intros t1. unfold run_ip.
  destruct (missing_flag c); [apply Hf|]. destruct file as [t0|]; [|done]. specialize (Hf t0 eq_refl).
  destruct (edit_ranges c t0) as [t2|e] eqn:E; [|by intros [= <-]]. destruct saves; intros [= <-]; [|done].
  destruct c; eauto using range_add_ok, range_resize_ok, range_rename_ok, range_delete_ok, range_set_balancer_ok.
Qed.

(** Deleting a range strands no node: an address of a node that some range contained is
    still contained in one. *)
Definition node_addresses (t : Topology) : list string :=
  (mn_OverlayIP <$> tp_Masters t) ++ (en_OverlayIP <$> tp_Endpoints t) ++ (cn_OverlayIP <$> tp_Clients t).
Definition in_some_range (rs : list NamedRange) (ip : string) : Prop := ∃ nr r, nr ∈ rs ∧ ParseRange nr = Ok r ∧ uses_range r ip = true.
Lemma check_nodes_ok t r : checkNodesUseRange t r = Ok () → ∀ ip, ip ∈ node_addresses t → uses_range r ip = false.
Proof.
  unfold checkNodesUseRange, node_addresses. destruct (list_find _ (tp_Masters t)) as [[]|] eqn:E1; [done|].
  destruct (list_find _ (tp_Endpoints t)) as [[]|] eqn:E2; [done|]. destruct (list_find _ (tp_Clients t)) as [[]|] eqn:E3; [done|]. intros _ ip.
  apply list_find_None in E1. apply list_find_None in E2. apply list_find_None in E3.
  rewrite Forall_forall in E1. rewrite Forall_forall in E2. rewrite Forall_forall in E3. rewrite !elem_of_app, !list_elem_of_fmap.
  intros [(x & -> & Hx)|[(x & -> & Hx)|(x & -> & Hx)]]; apply not_true_iff_false; auto.
Qed.
Theorem delete_strands_nobody name t t' : range_delete name t = Ok t' →
  ∀ ip, ip ∈ node_addresses t → in_some_range (ranges t) ip → in_some_range (ranges t') ip.
Proof.
  unfold range_delete. destruct (at_range t name) as [[idx nr]|e] eqn:Ea; [|done]. cbn [res_bind].
  apply at_range_ok in Ea as [Hidx _]. destruct (ParseRange nr) as [r|e] eqn:Er; [|done]. cbn [lift_range res_bind].
  destruct (checkNodesUseRange t r) as [[]|e] eqn:Ec; [|done]. cbn [res_bind].
  destruct (ranges t !! (length (ranges t) - 1)%nat) as [final|] eqn:Ef; [|done]. intros [= <-] ip Hip (nr' & r' & Hin & Hr' & Hu).
  exists nr', r'. split_and!; [|done|done]. cbn. pose proof (check_nodes_ok t r Ec ip Hip) as Hno.
  apply list_elem_of_lookup in Hin as [j Hj]. assert (j ≠ idx) as Hne by congruence.
  assert (j < length (ranges t) ∧ idx < length (ranges t))%nat as [Hlj Hli] by (split; apply lookup_lt_is_Some; [by rewrite Hj|by rewrite Hidx]).
  apply list_elem_of_lookup. destruct (decide (j = length (ranges t) - 1)%nat) as [->|Hl].
  - rewrite Ef in Hj. injection Hj as ->. exists idx. rewrite lookup_take_lt by lia. by apply list_lookup_insert_eq.
  - exists j. rewrite lookup_take_lt by lia. by rewrite list_lookup_insert_ne.
Qed.

(** A topology of one master and two ranges. *)
Definition two_ranges : Topology :=
  MkTopology (MkImageDefaults "" "") (MkOverlayConfig "10.0.0.0/8" 1500 0
      [MkNamedRange "masters" "10.1.0.0/24" "10.1.0.9"; MkNamedRange "clients" "10.2.0.0/24" ""])
    [MkMasterNode "m1" "h" "" "10.1.0.1" 51820 0 [] false] [] [] (MkCapture "" "" 0) (MkRotation "" "" "" "").
Lemma two_ranges_ok : ranges_ok (ranges two_ranges).
Proof.
  split.
  - assert (∀ b, disjoint_ranges (MkNamedRange "masters" "10.1.0.0/24" "10.1.0.9") b → disjoint_ranges b (MkNamedRange "masters" "10.1.0.0/24" "10.1.0.9")) as Hsym by (intros; by apply disjoint_sym).
    assert (disjoint_ranges (MkNamedRange "masters" "10.1.0.0/24" "10.1.0.9") (MkNamedRange "clients" "10.2.0.0/24" "")) as Hd.
    { intros ra rb Ha Hb. vm_compute in Ha, Hb. injection Ha as <-. injection Hb as <-. by vm_compute. }
    intros [|[|i]] [|[|j]] a b [= <-] [= <-] Hij; try done; split; try done; auto.
  - cbn. rewrite !Forall_cons. split_and!; [right|by left|constructor]. eexists _, _. split; [by vm_compute|]. split; [by vm_compute|]. by vm_compute.
Qed.
Lemma range_commands_preserve_witness : ∃ t,
  run_ips [(true, RangeAdd "dmz" "10.3.0.0/24" ""); (true, RangeAdd "bad" "10.3.0.128/25" ""); (false, RangeDelete "clients"); (true, RangeDelete "masters"); (true, RangeDelete "clients")] (Some two_ranges) = Some t ∧
  nr_Name <$> ranges t = ["masters"; "dmz"] ∧ ranges_ok (ranges t).
Proof.
  eexists. split; [vm_compute; reflexivity|]. split; [reflexivity|].
  apply (range_commands_preserve [(true, RangeAdd "dmz" "10.3.0.0/24" ""); (true, RangeAdd "bad" "10.3.0.128/25" ""); (false, RangeDelete "clients"); (true, RangeDelete "masters"); (true, RangeDelete "clients")] (Some two_ranges)).
  - intros t [= <-]. apply two_ranges_ok.
  - vm_compute. reflexivity.
Defined.

(** Adding does not look at the overlay space, so that the topology it saves does not
    validate; resizing, unlike deleting, does not look at the nodes. *)
Theorem add_and_resize_unchecked : ValidateTopology two_ranges = [] ∧
  (∃ t, range_add "lan" "192.168.0.0/24" "" two_ranges = Ok t ∧ ve_Severity <$> ValidateTopology t = [SevError]) ∧
  ∃ t, range_resize "masters" "10.1.0.8/29" two_ranges = Ok t ∧
    in_some_range (ranges two_ranges) "10.1.0.1" ∧ omap (λ nr, match ParseRange nr with Ok r => if uses_range r "10.1.0.1" then Some nr else None | Err _ => None end) (ranges t) = [].
Proof.
  split; [by vm_compute|]. split; eexists; (split; [vm_compute; reflexivity|]); [by vm_compute|]. split; [|by vm_compute].
  eexists _, _. split; [by left|]. split; [vm_compute; reflexivity|]. by vm_compute.
Qed.
