(* ===== verification/FileScript.v ===== *)
(** * Scripts over a file tree

    A command is a sequence of file-system calls that stops at the first error. The
    system's answer to every call is an argument, and so is what other processes do to
    the tree before it: [others n] happens before call [n]. A relation between trees
    that each call and the other processes respect is respected by the whole script,
    by one lemma per combinator. *)

From S2P Require Import Prelude GoStrings GoNet GoPath GoText GoFiles.

Record world := MkWorld { w_tree : tree; w_calls : nat }.
Definition FS (E X : Type) : Type := world → res E X * world.
Definition fs_ret {E X : Type} (x : X) : FS E X := λ w, (Ok x, w).
Definition fs_fail {E X : Type} (e : E) : FS E X := λ w, (Err e, w).
Definition fs_lift {E X : Type} (r : res E X) : FS E X := λ w, (r, w).
Definition fs_bind {E X Y : Type} (m : FS E X) (k : X → FS E Y) : FS E Y := λ w,
  match m w with (Ok x, w) => k x w | (Err e, w) => (Err e, w) end.
(** Errors wrapped by the caller. *)
Definition fs_wrap {E E' X : Type} (f : E → E') (m : FS E X) : FS E' X := λ w,
  match m w with (Ok x, w) => (Ok x, w) | (Err e, w) => (Err (f e), w) end.
(** The outcome as a value, for code that looks at the error. *)
Definition fs_try {E E' X : Type} (m : FS E X) : FS E' (res E X) := λ w, let '(r, w) := m w in (Ok r, w).
(** [defer]: [cleanup] runs however [m] ends. *)
Definition fs_defer {E E' X Y : Type} (cleanup : FS E' Y) (m : FS E X) : FS E X := λ w, let '(r, w) := m w in (r, (cleanup w).2).
Notation "'do!' x := m 'in' k" := (fs_bind m (λ x, k)) (at level 10, x pattern, m at level 100, k at level 200).
Notation "'then!' m ; k" := (fs_bind m (λ _, k)) (at level 10, m at level 100, k at level 200).

(** ** Calls *)

Inductive read_result := RBody (body : string) | RMissing | RFailed.
(** A proper prefix that is not a directory makes a lookup fail with [ENOTDIR]. *)
Fixpoint through_file (base cs : dir_path) (t : tree) : bool :=
  match cs with
  | [] | [_] => false
  | c :: cs => match t !! (base ++ [c]) with Some (NFile _) => true | _ => through_file (base ++ [c]) cs t end
  end.
Definition os_ReadFile (a : answer) (p : string) (t : tree) : read_result :=
  match a, t !! comps p with
  | AOk, Some (NFile body) => RBody body
  | AOk, None => if through_file [] (comps p) t then RFailed else RMissing
  | _, _ => RFailed
  end.
(** [os.IsNotExist] of the error of [os.Stat]. *)
Definition os_Missing (a : answer) (p : string) (t : tree) : bool :=
  match a with
  | AOk => bool_decide (comps p ≠ []) && bool_decide (t !! comps p = None) && negb (through_file [] (comps p) t)
  | AFail _ _ => false
  end.

(** [os.CreateTemp] with the suffix it ends up with: an empty file at a free name. When
    every name it tries is taken, its error is [os.ErrExist]. *)
Inductive create_result := Created | AlreadyExists | CreateFailed.
Definition os_CreateTemp (a : answer) (p : string) (t : tree) : create_result * tree :=
  let p := comps p in
  match a with
  | AFail _ _ => (CreateFailed, t)
  | AOk => if negb (parent_dir p t) then (CreateFailed, t) else
           if bool_decide (t !! p = None) then (Created, <[p := NFile ""]> t) else (AlreadyExists, t)
  end.
(** [os.Link]: a second name for a file, only where there is none. *)
Definition os_Link (a : answer) (src dst : string) (t : tree) : create_result * tree :=
  match a, t !! comps src with
  | AOk, Some (NFile body) =>
      if negb (parent_dir (comps dst) t) then (CreateFailed, t) else
      if bool_decide (t !! comps dst = None) then (Created, <[comps dst := NFile body]> t) else (AlreadyExists, t)
  | _, _ => (CreateFailed, t)
  end.

Section Calls.
Context (ans : nat → answer) (others : nat → tree → tree).
(** One call: the others, then the call itself. *)
Definition fs_op {E X : Type} (op : answer → tree → X * tree) : FS E X := λ w,
  let '(x, t) := op (ans (w_calls w)) (others (w_calls w) (w_tree w)) in (Ok x, MkWorld t (S (w_calls w))).
Definition fs_call {E : Type} (op : answer → tree → bool * tree) (e : E) : FS E unit :=
  do! ok := fs_op op in if ok : bool then fs_ret () else fs_fail e.
Definition fs_read {E : Type} (p : string) : FS E read_result := fs_op (λ a t, (os_ReadFile a p t, t)).
Definition fileMissing {E : Type} (p : string) : FS E bool := fs_op (λ a t, (os_Missing a p t, t)).
End Calls.

(** ** Relations a script respects *)

Section Respects.
Context (ans : nat → answer) (others : nat → tree → tree).
Context (R : tree → tree → Prop) (R_refl : ∀ t, R t t) (R_trans : ∀ t1 t2 t3, R t1 t2 → R t2 t3 → R t1 t3).
Context (others_R : ∀ n t, R t (others n t)).

Definition respects {E X : Type} (m : FS E X) : Prop := ∀ w, R (w_tree w) (w_tree (m w).2).

Lemma respects_ret {E X : Type} (x : X) : respects (E := E) (fs_ret x).
Proof using R_refl. intros w. apply R_refl. Qed.
Lemma respects_fail {E X : Type} (e : E) : respects (X := X) (fs_fail e).
Proof using R_refl. intros w. apply R_refl. Qed.
Lemma respects_lift {E X : Type} (r : res E X) : respects (fs_lift r).
Proof using R_refl. intros w. apply R_refl. Qed.
Lemma respects_bind {E X Y : Type} (m : FS E X) (k : X → FS E Y) : respects m → (∀ x, respects (k x)) → respects (fs_bind m k).
Proof using R_trans.
  intros Hm Hk w. unfold fs_bind. specialize (Hm w). destruct (m w) as [[x|e] w1]; [|done]. eapply R_trans; [exact Hm|apply Hk].
Qed.
(** The continuation may use a check that passed. *)
Lemma respects_lift_bind {E X Y : Type} (r : res E X) (k : X → FS E Y) : (∀ x, r = Ok x → respects (k x)) → respects (fs_bind (fs_lift r) k).
Proof using R_refl. intros Hk w. unfold fs_bind, fs_lift. destruct r as [x|e]; [by apply Hk|apply R_refl]. Qed.
Lemma respects_wrap {E E' X : Type} (f : E → E') (m : FS E X) : respects m → respects (fs_wrap f m).
Proof using Type. intros Hm w. unfold fs_wrap. specialize (Hm w). by destruct (m w) as [[x|e] w1]. Qed.
Lemma respects_try {E E' X : Type} (m : FS E X) : respects m → respects (fs_try (E' := E') m).
Proof using Type. intros Hm w. unfold fs_try. specialize (Hm w). by destruct (m w). Qed.
Lemma respects_defer {E E' X Y : Type} (c : FS E' Y) (m : FS E X) : respects c → respects m → respects (fs_defer c m).
Proof using R_trans.
  intros Hc Hm w. unfold fs_defer. specialize (Hm w). destruct (m w) as [r w1]. cbn [snd] in *. eapply R_trans; [exact Hm|apply Hc].
Qed.
Lemma respects_op {E X : Type} (op : answer → tree → X * tree) : (∀ a t, R t (op a t).2) → respects (fs_op ans others (E := E) op).
Proof using R_trans others_R.
  intros H w. unfold fs_op. specialize (H (ans (w_calls w)) (others (w_calls w) (w_tree w))).
  destruct (op _ _) as [x t]. cbn in *. eapply R_trans; [apply others_R|exact H].
Qed.
Lemma respects_call {E : Type} (op : answer → tree → bool * tree) (e : E) : (∀ a t, R t (op a t).2) → respects (fs_call ans others op e).
Proof using R_refl R_trans others_R.
  intros H. apply respects_bind; [by apply respects_op|]. intros []; [apply respects_ret|apply respects_fail].
Qed.
Lemma respects_read {E : Type} p : respects (fs_read ans others (E := E) p).
Proof using R_refl R_trans others_R. apply respects_op. intros a t. apply R_refl. Qed.
Lemma respects_missing {E : Type} p : respects (fileMissing ans others (E := E) p).
Proof using R_refl R_trans others_R. apply respects_op. intros a t. apply R_refl. Qed.
End Respects.

(** A successful sequence is two successful parts. *)
Lemma fs_bind_ok {E X Y : Type} (m : FS E X) (k : X → FS E Y) w y w' : fs_bind m k w = (Ok y, w') →
  ∃ x w1, m w = (Ok x, w1) ∧ k x w1 = (Ok y, w').
Proof. unfold fs_bind. destruct (m w) as [[x|e] w1]; [|done]. intros H. eauto. Qed.
Lemma fs_wrap_ok {E E' X : Type} (f : E → E') (m : FS E X) w x w' : fs_wrap f m w = (Ok x, w') → m w = (Ok x, w').
Proof. unfold fs_wrap. destruct (m w) as [[y|e] w1]; [congruence|done]. Qed.
Lemma fs_call_ok {E : Type} (ans : nat → answer) (others : nat → tree → tree) (op : answer → tree → bool * tree) (e : E) w u w' : fs_call ans others op e w = (Ok u, w') →
  op (ans (w_calls w)) (others (w_calls w) (w_tree w)) = (true, w_tree w').
Proof.
  intros H. apply fs_bind_ok in H as (ok & w1 & H1 & H2). unfold fs_op in H1. destruct (op _ _) as [b t] eqn:E1.
  injection H1 as <- <-. destruct b; [|done]. by injection H2 as _ <-.
Qed.

(** *** The new calls change one entry *)

Lemma CreateTemp_cases (a : answer) (p : string) (t : tree) : let '(r, t') := os_CreateTemp a p t in
  (t' = t ∧ r ≠ Created) ∨ (t !! comps p = None ∧ t' = <[comps p := NFile ""]> t ∧ r = Created).
Proof. unfold os_CreateTemp. destruct a; [|by left]. destruct (negb _); [by left|]. case_bool_decide; [by right|by left]. Qed.
Lemma Link_cases (a : answer) (src dst : string) (t : tree) : let '(r, t') := os_Link a src dst t in
  (t' = t ∧ r ≠ Created) ∨
  (∃ body, t !! comps src = Some (NFile body) ∧ t !! comps dst = None ∧ t' = <[comps dst := NFile body]> t ∧ r = Created).
Proof.
  unfold os_Link. destruct a; [|by left]. destruct (t !! comps src) as [[|body|]|]; try by left.
  destruct (negb _); [by left|]. case_bool_decide; [right; by exists body|by left].
Qed.
