(* ===== verification/KeyFiles.v ===== *)
(** * WireGuard key files of mesh-ctl ([src/cmd/mesh-ctl/cmd/node_mikrotik.go])

    A node's private key is made once and kept: it is written to a temporary file and
    linked into place, which fails when another process was faster, and read back. The
    public key's file must agree with it. *)

From S2P Require Import Prelude GoStrings GoNet GoPath GoText GoFiles WgTypes Token FileScript.

Inductive key_file_error :=
  | KMissing | KRead | KParse (e : key_error) | KZero | KGenerate (e : key_error) | KWrite | KChanged | KMismatch | KDir.
Inductive write_error := WExists | WFailed.

Section Keys.
Context (ans : nat → answer) (others : nat → tree → tree).
(** The random source and the number [os.CreateTemp] puts into a name, by call; Curve25519. *)
Context (random : nat → option (list ascii)) (suffix : nat → Z) (PublicKey : list ascii → list ascii).

Definition now_calls {E : Type} : FS E nat := λ w, (Ok (w_calls w), w).

Definition readNonZeroWGKey (path : string) : FS key_file_error (list ascii) :=
  do! r := fs_read ans others path in
  match r with
  | RBody raw =>
      match ParseKey (TrimSpace raw) with
      | Err e => fs_fail (KParse e)
      | Ok key => if IsZero key then fs_fail KZero else fs_ret key
      end
  | RMissing => fs_fail KMissing
  | RFailed => fs_fail KRead
  end.

Definition temp_name (path : string) (n : nat) : string := path_Join [path_Dir path; "." +:+ path_Base path +:+ ".tmp-" +:+ Itoa (suffix n)].
(** [Chmod] and [Close] may fail; the model has no permission bits. *)
Definition no_change (a : answer) (t : tree) : bool * tree := (match a with AOk => true | AFail _ _ => false end, t).
Definition create_outcome (r : create_result) : FS write_error unit :=
  match r with Created => fs_ret () | AlreadyExists => fs_fail WExists | CreateFailed => fs_fail WFailed end.
Definition writeFileExclusive (path data : string) : FS write_error unit :=
  do! n := now_calls in
  let tempPath := temp_name path n in
  do! r := fs_op ans others (λ a, os_CreateTemp a tempPath) in
  then! create_outcome r;
  fs_defer (fs_op ans others (λ a, os_RemoveOne a tempPath) : FS unit remove_result)
    (then! fs_call ans others (λ a, os_WriteFile a tempPath data) WFailed;
     then! fs_call ans others no_change WFailed;
     then! fs_call ans others no_change WFailed;
     do! r := fs_op ans others (λ a, os_Link a tempPath path) in
     create_outcome r).

Definition key_line (key : list ascii) : string := key_String key +:+ String "010" "".
Definition loadOrCreatePrivateWGKey (path : string) : FS key_file_error (list ascii) :=
  do! r := fs_try (readNonZeroWGKey path) in
  match r with
  | Ok key => fs_ret key
  | Err KMissing =>
      do! n := now_calls in
      do! generated := fs_lift (wrap_err KGenerate (GeneratePrivateKey (random n))) in
      do! written := fs_try (writeFileExclusive path (key_line generated)) in
      match written with
      | Err WExists => readNonZeroWGKey path
      | Err WFailed => fs_fail KWrite
      | Ok _ =>
          do! stored := readNonZeroWGKey path in
          if bool_decide (stored ≠ generated) then fs_fail KChanged else fs_ret stored
      end
  | Err e => fs_fail e
  end.

Definition requireStoredPublicWGKey (path : string) (expected : list ascii) : FS key_file_error unit :=
  do! existing := readNonZeroWGKey path in
  if bool_decide (existing ≠ expected) then fs_fail KMismatch else fs_ret ().
Definition syncPublicWGKey (path : string) (expected : list ascii) : FS key_file_error unit :=
  do! r := fs_try (requireStoredPublicWGKey path expected) in
  match r with
  | Ok _ => fs_ret ()
  | Err KMissing =>
      do! written := fs_try (writeFileExclusive path (key_line expected)) in
      match written with
      | Err WFailed => fs_fail KWrite
      | _ => requireStoredPublicWGKey path expected
      end
  | Err e => fs_fail e
  end.

Definition loadOrCreateWireGuardKeyPair (dir privateFilename publicFilename : string) : FS key_file_error (list ascii * list ascii) :=
  then! fs_call ans others (λ a, os_MkdirAll a dir) KDir;
  do! privateKey := loadOrCreatePrivateWGKey (path_Join [dir; privateFilename]) in
  let publicKey := PublicKey privateKey in
  then! syncPublicWGKey (path_Join [dir; publicFilename]) publicKey;
  fs_ret (privateKey, publicKey).
End Keys.

(** ** Keys stay *)

(** Files at [K] keep their contents. *)
Definition kept_files (K : dir_path → Prop) (t t' : tree) : Prop := ∀ k body, K k → t !! k = Some (NFile body) → t' !! k = Some (NFile body).
Lemma kept_files_refl (K : dir_path → Prop) (t : tree) : kept_files K t t.
Proof. by intros k b. Qed.
Lemma kept_files_trans (K : dir_path → Prop) (t1 t2 t3 : tree) : kept_files K t1 t2 → kept_files K t2 t3 → kept_files K t1 t3.
Proof. intros H1 H2 k b Hk Hb. by apply H2, H1. Qed.
(** Whatever only makes directories elsewhere keeps them. *)
Lemma confined_kept (K Q : dir_path → Prop) (t t' : tree) : confined (λ k, ¬ K k) Q t t' → kept_files K t t'.
Proof. intros H k b Hk Hb. destruct (H k ltac:(tauto)) as [->|(_ & Hn & _)]; [done|congruence]. Qed.

(** The temporary file is not the key. *)
Lemma temp_name_abs (suffix : nat → Z) (ds : dir_path) (c : string) (n : nat) : Forall normal (ds ++ [c]) →
  temp_name suffix (abs_text (ds ++ [c])) n = abs_text (ds ++ ["." +:+ c +:+ ".tmp-" +:+ Itoa (suffix n)]) ∧
  normal ("." +:+ c +:+ ".tmp-" +:+ Itoa (suffix n)) ∧ c ≠ "." +:+ c +:+ ".tmp-" +:+ Itoa (suffix n).
Proof.
  intros Hn. assert (Forall normal ds ∧ normal c) as [Hds Hc] by (rewrite Forall_app, Forall_singleton in Hn; done). set (x := "." +:+ c +:+ ".tmp-" +:+ Itoa (suffix n)).
  assert (normal x) as Hx.
  { destruct Hc as (Hne & _ & _ & Hs). unfold x. split_and!.
    - done.
    - intros E. apply (f_equal to_bytes) in E. rewrite !to_bytes_app in E. destruct (to_bytes c); discriminate E.
    - intros E. apply (f_equal (λ s, length (to_bytes s))) in E. rewrite !to_bytes_app, !length_app in E. cbn in E. lia.
    - rewrite !to_bytes_app, !elem_of_app. pose proof (int_char_free (suffix n) "/"%char eq_refl). cbn. set_solver. }
  split_and!; [|done|].
  - unfold temp_name. fold x. rewrite path_Base_abs, path_Dir_abs by done. fold x. rewrite join_file; [|apply abs_rooted|done]. by rewrite comps_abs.
  - unfold x. intros E. apply (f_equal (λ s, length (to_bytes s))) in E. rewrite !to_bytes_app, !length_app in E. cbn in E. lia.
Qed.

Section Kept.
Context (ans : nat → answer) (others : nat → tree → tree).
Context (random : nat → option (list ascii)) (suffix : nat → Z) (PublicKey : list ascii → list ascii).
Context (K : dir_path → Prop) (others_kept : ∀ n t, kept_files K t (others n t)).
(** Temporary names are not key files. *)
Context (ds : dir_path) (Hds : Forall normal ds) (no_temp : ∀ x, K (ds ++ [x]) → HasPrefix x "." = false).
Notation kept := (respects (kept_files K)).

Lemma kept_insert_new (t : tree) (k : dir_path) (x : node) : t !! k = None → kept_files K t (<[k := x]> t).
Proof using Type. intros Hn k' b _ Hb. rewrite lookup_insert_ne; [done|]. by intros <-; congruence. Qed.

#[local] Hint Resolve kept_files_refl kept_files_trans others_kept : core.
#[local] Hint Resolve respects_ret respects_fail respects_lift respects_try respects_read : kept.

Lemma kept_readKey path : kept (readNonZeroWGKey ans others path).
Proof using others_kept.
  apply respects_bind; eauto; [apply respects_read; eauto|]. intros [raw| |]; [|by apply respects_fail..].
  destruct (ParseKey _) as [key|e]; [|by apply respects_fail]. destruct (IsZero key); [by apply respects_fail|by apply respects_ret].
Qed.

Lemma kept_writeExclusive c data : normal c → kept (writeFileExclusive ans others suffix (abs_text (ds ++ [c])) data).
Proof using Hds no_temp others_kept.
  intros Hc. assert (Forall normal (ds ++ [c])) as Hn by (apply Forall_app; split; [done|by apply Forall_singleton]).
  apply respects_bind; eauto; [intros w; eauto|]. intros n.
  destruct (temp_name_abs suffix ds c n Hn) as (E & Hx & _). rewrite E. set (x := "." +:+ c +:+ _) in *. set (tmp := abs_text (ds ++ [x])).
  assert (comps tmp = ds ++ [x]) as Htmp by (apply comps_abs, Forall_app; split; [done|by apply Forall_singleton]).
  assert (¬ K (ds ++ [x])) as HK.
  { intros HK%no_temp. unfold x, HasPrefix in HK. by rewrite to_bytes_app, is_prefix_app in HK. }
  assert (∀ r, kept (create_outcome r)) as Hout by (intros []; [by apply respects_ret|by apply respects_fail..]).
  apply respects_bind; eauto.
  { apply respects_op; eauto. intros a t. pose proof (CreateTemp_cases a tmp t) as H. destruct (os_CreateTemp a tmp t) as [r t'].
    destruct H as [[-> _]|(Hnone & -> & _)]; [eauto|by apply kept_insert_new]. }
  intros r. apply respects_bind; eauto. intros _. apply respects_defer; eauto.
  { apply respects_op; eauto. intros a t. apply (confined_kept K (λ _, False)). apply RemoveOne_confined. by rewrite Htmp. }
  apply respects_bind; eauto.
  { apply respects_call; eauto. intros a t. apply (confined_kept K (λ _, False)). apply WriteFile_confined. by rewrite Htmp. }
  intros _. apply respects_bind; eauto; [apply respects_call; eauto|]. intros _. apply respects_bind; eauto; [apply respects_call; eauto|]. intros _.
  apply respects_bind; eauto. apply respects_op; eauto. intros a t. pose proof (Link_cases a tmp (abs_text (ds ++ [c])) t) as H.
  destruct (os_Link _ _ _ _) as [r' t']. destruct H as [[-> _]|(body & _ & Hnone & -> & _)]; [eauto|by apply kept_insert_new].
Qed.

Lemma kept_private c : normal c → kept (loadOrCreatePrivateWGKey ans others random suffix (abs_text (ds ++ [c]))).
Proof using Hds no_temp others_kept.
  intros Hc. apply respects_bind; eauto; [apply respects_try, kept_readKey|]. intros [key|e]; [by apply respects_ret|].
  destruct e; try by apply respects_fail. apply respects_bind; eauto; [intros w; eauto|]. intros n.
  apply respects_bind; eauto; [by apply respects_lift|]. intros generated.
  apply respects_bind; eauto; [by apply respects_try, kept_writeExclusive|]. intros [u|[]]; [|apply kept_readKey|by apply respects_fail].
  apply respects_bind; eauto; [apply kept_readKey|]. intros stored. destruct (bool_decide _); [by apply respects_fail|by apply respects_ret].
Qed.
Lemma kept_require path expected : kept (requireStoredPublicWGKey ans others path expected).
Proof using others_kept.
  apply respects_bind; eauto; [apply kept_readKey|]. intros x. destruct (bool_decide _); [by apply respects_fail|by apply respects_ret].
Qed.
Lemma kept_sync c expected : normal c → kept (syncPublicWGKey ans others suffix (abs_text (ds ++ [c])) expected).
Proof using Hds no_temp others_kept.
  intros Hc. apply respects_bind; eauto; [apply respects_try, kept_require|]. intros [u|e]; [by apply respects_ret|].
  destruct e; try by apply respects_fail. apply respects_bind; eauto; [by apply respects_try, kept_writeExclusive|].
  intros [v|[]]; [apply kept_require..|by apply respects_fail].
Qed.

(** *** What a key that was returned says about the file *)

Definition holds_key (k : dir_path) (key : list ascii) (t : tree) : Prop :=
  ∃ body, t !! k = Some (NFile body) ∧ ParseKey (TrimSpace body) = Ok key ∧ IsZero key = false.
Lemma holds_key_kept k key t t' : K k → kept_files K t t' → holds_key k key t → holds_key k key t'.
Proof using Type. intros Hk H (body & Hb & Hp). exists body. split; [by apply H|done]. Qed.
Lemma holds_key_unique k a b t : holds_key k a t → holds_key k b t → a = b.
Proof using Type. intros (x & Hx & Ha & _) (y & Hy & Hb & _). congruence. Qed.

Lemma readKey_ok path w key w' : readNonZeroWGKey ans others path w = (Ok key, w') → holds_key (comps path) key (w_tree w').
Proof using Type.
  intros H. apply fs_bind_ok in H as (r & w1 & H1 & H2). unfold fs_read, fs_op in H1. cbn beta iota in H1. injection H1 as <- <-.
  unfold os_ReadFile in H2. set (t := others _ _) in *. destruct (ans _); [|done]. destruct (t !! comps path) as [[|body|]|] eqn:E; try done.
  2: { by destruct (through_file _ _ _). }
  destruct (ParseKey (TrimSpace body)) as [k|e] eqn:Ek; [|done]. destruct (IsZero k) eqn:Ez; [done|]. injection H2 as -> <-. by exists body.
Qed.
Lemma private_ok c w key w' : normal c → loadOrCreatePrivateWGKey ans others random suffix (abs_text (ds ++ [c])) w = (Ok key, w') →
  holds_key (ds ++ [c]) key (w_tree w').
Proof using Hds.
  intros Hc. assert (comps (abs_text (ds ++ [c])) = ds ++ [c]) as Hp by (apply comps_abs, Forall_app; split; [done|by apply Forall_singleton]).
  set (path := abs_text (ds ++ [c])) in *. assert (∀ w key w', readNonZeroWGKey ans others path w = (Ok key, w') → holds_key (ds ++ [c]) key (w_tree w')) as Hread.
  { intros w1 k1 w2 H. apply readKey_ok in H. by rewrite Hp in H. }
  intros H. apply fs_bind_ok in H as (r & w1 & H1 & H2). unfold fs_try in H1.
  destruct (readNonZeroWGKey ans others path w) as [r' w1'] eqn:Er. injection H1 as <- <-.
  destruct r' as [k|e]; [injection H2 as -> <-; by eapply Hread|]. destruct e; try done.
  apply fs_bind_ok in H2 as (n & w2 & _ & H2). apply fs_bind_ok in H2 as (g & w3 & _ & H2). apply fs_bind_ok in H2 as (wr & w4 & _ & H2).
  destruct wr as [u|[]]; [|by eapply Hread|done]. apply fs_bind_ok in H2 as (stored & w5 & H3 & H4).
  destruct (bool_decide _); [done|]. injection H4 as -> <-. by eapply Hread.
Qed.
Lemma sync_ok c expected w u w' : normal c → syncPublicWGKey ans others suffix (abs_text (ds ++ [c])) expected w = (Ok u, w') →
  holds_key (ds ++ [c]) expected (w_tree w').
Proof using Hds.
  intros Hc. assert (comps (abs_text (ds ++ [c])) = ds ++ [c]) as Hp by (apply comps_abs, Forall_app; split; [done|by apply Forall_singleton]).
  set (path := abs_text (ds ++ [c])) in *.
  assert (∀ w u w', requireStoredPublicWGKey ans others path expected w = (Ok u, w') → holds_key (ds ++ [c]) expected (w_tree w')) as Hreq.
  { intros w1 u1 w2 H. apply fs_bind_ok in H as (k & w3 & H1 & H2). apply readKey_ok in H1. rewrite Hp in H1.
    case_bool_decide as Hne; [done|]. injection H2 as _ <-. by subst k. }
  intros H. apply fs_bind_ok in H as (r & w1 & H1 & H2). unfold fs_try in H1.
  destruct (requireStoredPublicWGKey ans others path expected w) as [r' w1'] eqn:Er. injection H1 as <- <-.
  destruct r' as [k|e]; [injection H2 as _ <-; by eapply Hreq|]. destruct e; try done.
  apply fs_bind_ok in H2 as (wr & w2 & _ & H2). destruct wr as [v|[]]; [by eapply Hreq..|done].
Qed.
End Kept.

(** ** One key per directory *)

Section Pair.
Context (ans : nat → answer) (others : nat → tree → tree).
Context (random : nat → option (list ascii)) (suffix : nat → Z) (PublicKey : list ascii → list ascii).
Context (dir priv pub : string) (Hdir : abs_dir dir) (Hpriv : normal priv) (Hpub : normal pub).
Context (plain_priv : HasPrefix priv "." = false) (plain_pub : HasPrefix pub "." = false).
Definition key_paths (k : dir_path) : Prop := k = comps dir ++ [priv] ∨ k = comps dir ++ [pub].

Lemma key_paths_plain x : key_paths (comps dir ++ [x]) → HasPrefix x "." = false.
Proof using plain_priv plain_pub. by intros [E|E]; apply app_inj_tail in E as [_ ->]. Qed.

Lemma pair_kept : (∀ n t, kept_files key_paths t (others n t)) →
  respects (kept_files key_paths) (loadOrCreateWireGuardKeyPair ans others random suffix PublicKey dir priv pub).
Proof using Hdir Hpriv Hpub plain_priv plain_pub.
  intros Ho. pose proof (comps_normal dir Hdir) as Hn. pose proof (kept_files_refl key_paths) as R. pose proof (kept_files_trans key_paths) as T.
  unfold loadOrCreateWireGuardKeyPair. rewrite !join_file by done. apply respects_bind; [done| |].
  { apply respects_call; [done..|]. intros a t. eapply confined_kept, (MkdirAll_confined _ (λ k, k `prefix_of` comps dir)).
    intros r Hr _. by right. }
  intros _. apply respects_bind; [done|by apply kept_private; [..|apply key_paths_plain|]|]. intros key.
  apply respects_bind; [done|by apply kept_sync; [..|apply key_paths_plain|]|]. intros _. by apply respects_ret.
Qed.
Lemma pair_ok w key public w' : (∀ n t, kept_files key_paths t (others n t)) →
  loadOrCreateWireGuardKeyPair ans others random suffix PublicKey dir priv pub w = (Ok (key, public), w') →
  public = PublicKey key ∧ holds_key (comps dir ++ [priv]) key (w_tree w') ∧ holds_key (comps dir ++ [pub]) public (w_tree w').
Proof using Hdir Hpriv Hpub plain_priv plain_pub.
  intros Ho. pose proof (comps_normal dir Hdir) as Hn. unfold loadOrCreateWireGuardKeyPair. rewrite !join_file by done. intros H.
  apply fs_bind_ok in H as (u & w1 & _ & H). apply fs_bind_ok in H as (k & w2 & Hk & H). apply fs_bind_ok in H as (v & w3 & Hs & H).
  unfold fs_ret in H. inversion H. subst k public w3. apply private_ok in Hk; [|done..].
  pose proof (kept_sync ans others suffix key_paths Ho (comps dir) Hn key_paths_plain pub (PublicKey key) Hpub w2) as Hkeep. rewrite Hs in Hkeep.
  split_and!; [done| |by eapply sync_ok]. eapply (holds_key_kept key_paths); [by left|exact Hkeep|done].
Qed.
End Pair.

(** C21. However many processes prepare a node at once, and whatever calls fail, its key is
    made once: a run leaves key files that exist as they are; when two runs report
    success, one ending after the other with only such runs between, they return the
    same key pair, and both files hold it. *)
Theorem one_key_pair ans1 ans2 others1 others2 random1 random2 suffix1 suffix2 PublicKey dir priv pub w1 w2 k1 p1 k2 p2 w1' w2' :
  abs_dir dir → normal priv → normal pub → HasPrefix priv "." = false → HasPrefix pub "." = false →
  (∀ n t, kept_files (key_paths dir priv pub) t (others1 n t)) → (∀ n t, kept_files (key_paths dir priv pub) t (others2 n t)) →
  loadOrCreateWireGuardKeyPair ans1 others1 random1 suffix1 PublicKey dir priv pub w1 = (Ok (k1, p1), w1') →
  loadOrCreateWireGuardKeyPair ans2 others2 random2 suffix2 PublicKey dir priv pub w2 = (Ok (k2, p2), w2') →
  kept_files (key_paths dir priv pub) (w_tree w1') (w_tree w2') →
  respects (kept_files (key_paths dir priv pub)) (loadOrCreateWireGuardKeyPair ans1 others1 random1 suffix1 PublicKey dir priv pub) ∧
  k1 = k2 ∧ p1 = PublicKey k1 ∧ p2 = p1 ∧
  holds_key (comps dir ++ [priv]) k1 (w_tree w2') ∧ holds_key (comps dir ++ [pub]) p1 (w_tree w2').
Proof.
  intros Hdir Hpriv Hpub Pp Pq Ho1 Ho2 H1 H2 Hkept. split; [by apply pair_kept|].
  destruct (pair_ok _ _ _ _ _ _ _ _ Hdir Hpriv Hpub Pp Pq _ _ _ _ Ho1 H1) as (E1 & A1 & B1).
  destruct (pair_ok _ _ _ _ _ _ _ _ Hdir Hpriv Hpub Pp Pq _ _ _ _ Ho2 H2) as (E2 & A2 & B2).
  apply (holds_key_kept (key_paths dir priv pub) _ _ _ _ (or_introl eq_refl) Hkept) in A1.
  assert (k1 = k2) as <- by exact (holds_key_unique _ _ _ _ A1 A2). subst p1 p2. done.
Qed.

(** ** A first run succeeds *)

Definition all_ok (n : nat) : answer := AOk.
Definition alone (n : nat) (t : tree) : tree := t.

(** The line of a key reads back. *)
Lemma key_line_parses key : key_ok key → ParseKey (TrimSpace (key_line key)) = Ok key.
Proof. intros Hk. unfold key_line, key_String. rewrite b64_encode_line. by apply ParseKey_String. Qed.

Section Fresh.
Context (random : nat → option (list ascii)) (suffix : nat → Z) (PublicKey : list ascii → list ascii).
Context (ds : dir_path) (Hds : Forall normal ds).
Notation path c := (abs_text (ds ++ [c])).
Definition dir_there (t : tree) : Prop := ∀ r, r `prefix_of` ds → r ≠ [] → t !! r = Some NDir.
Definition temps_free (c : string) (t : tree) : Prop := ∀ n, t !! (ds ++ ["." +:+ c +:+ ".tmp-" +:+ Itoa (suffix n)]) = None.

Lemma path_comps c : normal c → comps (path c) = ds ++ [c].
Proof using Hds. intros Hc. apply comps_abs, Forall_app. split; [done|by apply Forall_singleton]. Qed.
Lemma dir_there_parent c t : dir_there t → parent_dir (ds ++ [c]) t = true.
Proof using Type. intros H. apply parent_dir_snoc. destruct (decide (ds = [])) as [|Hne]; [by left|right; by apply H]. Qed.
Lemma dir_there_through c t : dir_there t → through_file [] (ds ++ [c]) t = false.
Proof using Type.
  intros H. assert (∀ rest base, ds = base ++ rest → through_file base (rest ++ [c]) t = false) as Hgen; [|by apply Hgen].
  induction rest as [|x rest IH]; intros base E; [done|]. cbn [app through_file]. destruct (rest ++ [c]) eqn:Er; [done|].
  rewrite H; [apply IH; by rewrite <- app_assoc| |by destruct base]. exists rest. by rewrite <- app_assoc.
Qed.

Lemma read_missing c w : normal c → dir_there (w_tree w) → w_tree w !! (ds ++ [c]) = None →
  readNonZeroWGKey all_ok alone (path c) w = (Err KMissing, MkWorld (w_tree w) (S (w_calls w))).
Proof using Hds.
  intros Hc Hd Hn. unfold readNonZeroWGKey, fs_read, fs_op, fs_bind, os_ReadFile, all_ok, alone. rewrite path_comps by done.
  rewrite Hn, dir_there_through by done. done.
Qed.
Lemma read_key c w key : normal c → key_ok key → IsZero key = false → w_tree w !! (ds ++ [c]) = Some (NFile (key_line key)) →
  readNonZeroWGKey all_ok alone (path c) w = (Ok key, MkWorld (w_tree w) (S (w_calls w))).
Proof using Hds.
  intros Hc Hk Hz Hb. unfold readNonZeroWGKey, fs_read, fs_op, fs_bind, os_ReadFile, all_ok, alone. rewrite path_comps by done.
  rewrite Hb. cbn beta iota. by rewrite key_line_parses, Hz.
Qed.

Lemma write_fresh c data w : normal c → dir_there (w_tree w) → w_tree w !! (ds ++ [c]) = None → temps_free c (w_tree w) →
  ∃ w', writeFileExclusive all_ok alone suffix (path c) data w = (Ok (), w') ∧ w_tree w' !! (ds ++ [c]) = Some (NFile data) ∧
    ∀ k, k ≠ ds ++ [c] → (∀ n, k ≠ ds ++ ["." +:+ c +:+ ".tmp-" +:+ Itoa (suffix n)]) → w_tree w' !! k = w_tree w !! k.
Proof using Hds.
  intros Hc Hd Hn Hf. assert (Forall normal (ds ++ [c])) as Hnc by (apply Forall_app; split; [done|by apply Forall_singleton]).
  destruct w as [t n]. cbn [w_tree w_calls] in *. specialize (Hf n). destruct (temp_name_abs suffix ds c n Hnc) as (E & Hx & Hcx).
  unfold writeFileExclusive, now_calls, fs_bind at 1. cbn [w_calls]. rewrite E. set (x := "." +:+ c +:+ _) in *.
  assert (Forall normal (ds ++ [x])) as Hnx by (apply Forall_app; split; [done|by apply Forall_singleton]).
  assert (ds ++ [x] ≠ ds ++ [c]) as Hne by (intros E'; apply app_inj_tail in E' as [_ E']; congruence).
  unfold fs_bind at 1, fs_op at 1, all_ok at 1, alone at 1, os_CreateTemp. cbn [w_calls w_tree]. rewrite (path_comps x Hx).
  rewrite dir_there_parent, bool_decide_eq_true_2 by done. cbn [negb]. unfold create_outcome at 1, fs_ret, fs_bind at 1.
  set (t1 := <[ds ++ [x] := NFile ""]> t). assert (dir_there t1) as Hd1.
  { intros r Hr Hrn. unfold t1. rewrite lookup_insert_ne; [by apply Hd|]. intros <-. apply prefix_length in Hr. rewrite length_app in Hr. cbn in Hr. lia. }
  unfold fs_defer. unfold fs_call, fs_bind, fs_op, all_ok, alone, no_change, fs_ret, os_WriteFile. cbn beta iota. cbn [w_calls w_tree]. rewrite !(path_comps x Hx).
  assert (t1 !! (ds ++ [x]) = Some (NFile "")) as Ht1 by apply lookup_insert_eq.
  rewrite dir_there_parent, Ht1, bool_decide_eq_false_2 by done. cbn [negb orb w_tree w_calls].
  set (t2 := <[ds ++ [x] := NFile data]> t1). assert (dir_there t2) as Hd2.
  { intros r Hr Hrn. unfold t2. rewrite lookup_insert_ne; [by apply Hd1|]. intros <-. apply prefix_length in Hr. rewrite length_app in Hr. cbn in Hr. lia. }
  unfold os_Link. rewrite (path_comps x Hx), (path_comps c Hc). assert (t2 !! (ds ++ [x]) = Some (NFile data)) as Ht2 by apply lookup_insert_eq.
  rewrite Ht2, dir_there_parent by done. cbn [negb].
  assert (t2 !! (ds ++ [c]) = None) as Hnone by (unfold t2, t1; by rewrite !lookup_insert_ne).
  rewrite bool_decide_eq_true_2 by done. cbn [create_outcome fs_ret w_calls w_tree]. set (t3 := <[ds ++ [c] := NFile data]> t2).
  pose proof (RemoveOne_confined (λ k, k = ds ++ [x]) (λ _, False) AOk (path x) t3 (path_comps x Hx)) as Hrm.
  destruct (os_RemoveOne AOk (path x) t3) as [r t4]. cbn [snd] in *. eexists. split; [reflexivity|]. cbn [w_tree].
  assert (∀ k, k ≠ ds ++ [x] → t4 !! k = t3 !! k) as H4 by (intros k Hk; by destruct (Hrm k Hk) as [?|[? _]]).
  split; [rewrite H4 by done; apply lookup_insert_eq|]. intros k Hkc Hkx. rewrite H4 by (apply Hkx). unfold t3, t2, t1.
  rewrite !lookup_insert_ne by (done || intros <-; by apply (Hkx n)). done.
Qed.
End Fresh.

(** *** The key pair of [node prepare] *)

Definition wg_private : string := "wireguard-private.key".
Definition wg_public : string := "wireguard-public.key".
Lemma wg_names_normal : normal wg_private ∧ normal wg_public.
Proof. split; apply (bool_decide_unpack _); by vm_compute. Qed.
(** Nothing of the key pair is there, and nothing blocks the directory. *)
Definition ready_dir (suffix : nat → Z) (dir : string) (t : tree) : Prop :=
  (∀ r, r `prefix_of` comps dir → r ≠ [] → t !! r = None ∨ t !! r = Some NDir) ∧
  t !! (comps dir ++ [wg_private]) = None ∧ t !! (comps dir ++ [wg_public]) = None ∧
  temps_free suffix (comps dir) wg_private t ∧ temps_free suffix (comps dir) wg_public t.

Section Prepared.
Context (random : nat → option (list ascii)) (suffix : nat → Z) (PublicKey : list ascii → list ascii).
Context (random_ok : ∀ n, ∃ r, random n = Some r ∧ length r = key_size).
Context (public_ok : ∀ k, key_ok k → key_ok (PublicKey k) ∧ IsZero (PublicKey k) = false).
Notation pair := (loadOrCreateWireGuardKeyPair all_ok alone random suffix PublicKey).

Lemma private_fresh ds w : Forall normal ds → dir_there ds (w_tree w) → w_tree w !! (ds ++ [wg_private]) = None → temps_free suffix ds wg_private (w_tree w) →
  ∃ n r w', random n = Some r ∧ length r = key_size ∧ loadOrCreatePrivateWGKey all_ok alone random suffix (abs_text (ds ++ [wg_private])) w = (Ok (clamp r), w') ∧
    w_tree w' !! (ds ++ [wg_private]) = Some (NFile (key_line (clamp r))) ∧
    ∀ k, k ≠ ds ++ [wg_private] → (∀ n, k ≠ ds ++ ["." +:+ wg_private +:+ ".tmp-" +:+ Itoa (suffix n)]) → w_tree w' !! k = w_tree w !! k.
Proof using random_ok.
  intros Hds Hd Hn Hf. destruct wg_names_normal as [Hp _]. unfold loadOrCreatePrivateWGKey, fs_bind at 1, fs_try at 1. rewrite read_missing by done.
  unfold now_calls, fs_bind at 1. cbn [w_calls]. destruct (random_ok (S (w_calls w))) as (r & Er & Hr). exists (S (w_calls w)), r.
  rewrite Er. unfold fs_lift, fs_bind at 1. cbn [wrap_err GeneratePrivateKey GenerateKey].
  destruct (write_fresh suffix ds Hds wg_private (key_line (clamp r)) (MkWorld (w_tree w) (S (w_calls w))) Hp Hd Hn Hf) as (w1 & E1 & F1 & G1).
  unfold fs_bind at 1, fs_try. rewrite E1. unfold fs_bind. rewrite (read_key ds Hds wg_private w1 (clamp r)); [|done|unfold key_ok; by rewrite clamp_length|by apply clamp_nonzero|done].
  rewrite bool_decide_eq_false_2 by tauto. eexists. by split_and!.
Qed.
Lemma public_fresh ds w key : Forall normal ds → key_ok key → IsZero key = false → dir_there ds (w_tree w) → w_tree w !! (ds ++ [wg_public]) = None → temps_free suffix ds wg_public (w_tree w) →
  ∃ w', syncPublicWGKey all_ok alone suffix (abs_text (ds ++ [wg_public])) key w = (Ok (), w') ∧ w_tree w' !! (ds ++ [wg_public]) = Some (NFile (key_line key)) ∧
    ∀ k, k ≠ ds ++ [wg_public] → (∀ n, k ≠ ds ++ ["." +:+ wg_public +:+ ".tmp-" +:+ Itoa (suffix n)]) → w_tree w' !! k = w_tree w !! k.
Proof using Type.
  intros Hds Hk Hz Hd Hn Hf. destruct wg_names_normal as [_ Hp]. unfold syncPublicWGKey, fs_bind at 1, fs_try at 1.
  unfold requireStoredPublicWGKey at 1, fs_bind at 1. rewrite read_missing by done.
  destruct (write_fresh suffix ds Hds wg_public (key_line key) (MkWorld (w_tree w) (S (w_calls w))) Hp Hd Hn Hf) as (w1 & E1 & F1 & G1).
  unfold fs_bind at 1, fs_try. rewrite E1. unfold requireStoredPublicWGKey, fs_bind. rewrite (read_key ds Hds wg_public w1 key) by done.
  rewrite bool_decide_eq_false_2 by tauto. eexists. by split_and!.
Qed.
(** A pair that is there is returned, and nothing changes. *)
Lemma pair_again dir w key : abs_dir dir → key_ok key → IsZero key = false → dir_there (comps dir) (w_tree w) →
  w_tree w !! (comps dir ++ [wg_private]) = Some (NFile (key_line key)) → w_tree w !! (comps dir ++ [wg_public]) = Some (NFile (key_line (PublicKey key))) →
  (pair dir wg_private wg_public w).1 = Ok (key, PublicKey key) ∧ ∀ k, w_tree (pair dir wg_private wg_public w).2 !! k = w_tree w !! k.
Proof using public_ok.
  intros Hdir Hk Hz Hd Hp Hq. pose proof (comps_normal dir Hdir) as Hn. destruct wg_names_normal as [Np Nq], (public_ok key Hk) as [Hk2 Hz2].
  destruct (MkdirAll_ok dir (w_tree w)) as (t1 & E1 & D1 & F1); [intros r Hr Hne; right; by apply Hd|].
  assert (∀ k, t1 !! k = w_tree w !! k) as Ht1.
  { intros k. destruct (decide (k `prefix_of` comps dir ∧ k ≠ [])) as [[Hk1 Hk3]|Hno]; [by rewrite D1, Hd|]. apply F1.
    destruct (decide (k = [])); [by right|]. left. tauto. }
  assert (pair dir wg_private wg_public w = (Ok (key, PublicKey key), MkWorld t1 (S (S (S (w_calls w)))))) as ->; [|by split].
  unfold loadOrCreateWireGuardKeyPair. rewrite !join_file by done. unfold fs_call, fs_bind, fs_op, all_ok at 1, alone at 1. rewrite E1. cbn [fs_ret].
  unfold loadOrCreatePrivateWGKey, fs_bind at 1, fs_try at 1.
  rewrite (read_key (comps dir) Hn wg_private (MkWorld t1 (S (w_calls w))) key Np Hk Hz) by (by cbn; rewrite Ht1). unfold fs_ret.
  unfold syncPublicWGKey, fs_bind at 1, fs_try at 1, requireStoredPublicWGKey at 1, fs_bind at 1. cbn [w_tree w_calls].
  rewrite (read_key (comps dir) Hn wg_public (MkWorld t1 (S (S (w_calls w)))) (PublicKey key) Nq Hk2 Hz2) by (by cbn; rewrite Ht1).
  by rewrite bool_decide_eq_false_2 by tauto.
Qed.

(** Without interference and failing calls, preparing an empty directory creates the
    key pair from the random source, clamped, and every later run returns that pair and
    changes nothing. *)
Theorem key_pair_created dir w : abs_dir dir → ready_dir suffix dir (w_tree w) →
  ∃ n r w', random n = Some r ∧ pair dir wg_private wg_public w = (Ok (clamp r, PublicKey (clamp r)), w') ∧
    (pair dir wg_private wg_public w').1 = Ok (clamp r, PublicKey (clamp r)) ∧
    ∀ k, w_tree (pair dir wg_private wg_public w').2 !! k = w_tree w' !! k.
Proof using random_ok public_ok.
  intros Hdir (Hway & Hp & Hq & Hfp & Hfq). pose proof (comps_normal dir Hdir) as Hn. destruct wg_names_normal as [Np Nq]. set (ds := comps dir) in *.
  destruct (MkdirAll_ok dir (w_tree w) Hway) as (t1 & E1 & D1 & F1). fold ds in D1, F1.
  assert (∀ x, t1 !! (ds ++ [x]) = w_tree w !! (ds ++ [x])) as Ht1.
  { intros x. apply F1. left. intros Hx%prefix_length. rewrite length_app in Hx. cbn in Hx. lia. }
  set (w1 := MkWorld t1 (S (w_calls w))).
  destruct (private_fresh ds w1 Hn D1) as (n & r & w2 & Er & Hr & E2 & G2 & F2); [cbn; by rewrite Ht1|intros m; cbn; by rewrite Ht1|].
  assert (key_ok (clamp r) ∧ IsZero (clamp r) = false) as [Hk Hz] by (split; [unfold key_ok; by rewrite clamp_length|by apply clamp_nonzero]).
  destruct (public_ok _ Hk) as [Hk2 Hz2].
  assert (∀ k, k `prefix_of` ds → ∀ x, k ≠ ds ++ [x]) as Hshort.
  { intros k Hkp%prefix_length x ->. rewrite length_app in Hkp. cbn in Hkp. lia. }
  assert (∀ x m, HasPrefix x "." = false → x ≠ "." +:+ m) as Hdot.
  { intros x m Hx ->. unfold HasPrefix in Hx. by rewrite to_bytes_app, is_prefix_app in Hx. }
  assert (∀ x, x ≠ wg_private → (∀ n, x ≠ "." +:+ wg_private +:+ ".tmp-" +:+ Itoa (suffix n)) → w_tree w2 !! (ds ++ [x]) = w_tree w !! (ds ++ [x])) as F2'.
  { intros x Hx1 Hx2. rewrite F2; [apply Ht1|..]; [|intros m]; intros E%app_inj_tail; destruct E as [_ E]; [done|by eapply Hx2]. }
  assert (dir_there ds (w_tree w2)) as Hd2 by (intros k Hk1 Hk3; rewrite F2; [by apply D1|by apply Hshort|intros m; by apply Hshort]).
  destruct (public_fresh ds w2 (PublicKey (clamp r)) Hn Hk2 Hz2 Hd2) as (w3 & E3 & G3 & F3).
  { rewrite F2'; [done|done|]. intros m. by apply Hdot. }
  { intros m. rewrite F2'; [by apply Hfq|by apply not_eq_sym, Hdot|]. intros m' E. apply (f_equal to_bytes) in E. rewrite !to_bytes_app in E. discriminate E. }
  assert (pair dir wg_private wg_public w = (Ok (clamp r, PublicKey (clamp r)), w3)) as E.
  { unfold loadOrCreateWireGuardKeyPair. rewrite !join_file by done. fold ds. unfold fs_call, fs_bind, fs_op, all_ok at 1, alone at 1. rewrite E1.
    change (fs_ret () {| w_tree := t1; w_calls := S (w_calls w) |}) with (@Ok key_file_error _ (), w1). cbn beta iota. rewrite E2, E3. done. }
  exists n, r, w3. split; [done|]. split; [done|]. apply pair_again; [done|done|done| |rewrite F3; [done|..]|done].
  - intros k Hk1 Hk3. fold ds in Hk1. rewrite F3; [by apply Hd2|by apply Hshort|intros m; by apply Hshort].
  - intros E'%app_inj_tail. by destruct E'.
  - intros m E'%app_inj_tail. destruct E' as [_ E']. by eapply Hdot.
Qed.
End Prepared.

(** *** Two processes at once *)

Definition demo_random (a : ascii) (n : nat) : option (list ascii) := Some (replicate 32 a).
Definition demo_suffix (z : Z) (n : nat) : Z := z.
Definition demo_public (k : list ascii) : list ascii := <[0%nat := "p"%char]> k.
Definition demo_dir : string := "/etc/mesh/nodes/a".
Definition second_run (w : world) : res key_file_error (list ascii * list ascii) * world :=
  loadOrCreateWireGuardKeyPair all_ok alone (demo_random "b") (demo_suffix 2) demo_public demo_dir wg_private wg_public w.
(** The second process runs between the first one's look and its write. *)
Definition overtaken (n : nat) (t : tree) : tree := if Nat.eqb n 2 then w_tree (second_run (MkWorld t 0)).2 else t.
Definition first_run (w : world) : res key_file_error (list ascii * list ascii) * world :=
  loadOrCreateWireGuardKeyPair all_ok overtaken (demo_random "a") (demo_suffix 1) demo_public demo_dir wg_private wg_public w.
Definition bkey : list ascii := clamp (replicate 32 "b"%char).
Definition after_first : world := (first_run (MkWorld ∅ 0)).2.

Lemma one_key_pair_witness : (first_run (MkWorld ∅ 0)).1 = Ok (bkey, demo_public bkey) ∧ holds_key (comps demo_dir ++ [wg_private]) bkey (w_tree (second_run after_first).2).
Proof.
  assert ((first_run (MkWorld ∅ 0)).1 = Ok (bkey, demo_public bkey)) as E1 by (vm_compute; reflexivity).
  assert ((second_run after_first).1 = Ok (bkey, demo_public bkey)) as E2 by (vm_compute; reflexivity).
  split; [exact E1|]. assert (abs_dir demo_dir) as Hd by reflexivity. destruct wg_names_normal as [Hp Hq].
  assert (∀ n t, kept_files (key_paths demo_dir wg_private wg_public) t (alone n t)) as Ha by (intros; apply kept_files_refl).
  assert (∀ w, kept_files (key_paths demo_dir wg_private wg_public) (w_tree w) (w_tree (second_run w).2)) as Hs.
  { intros w. exact (pair_kept all_ok alone (demo_random "b") (demo_suffix 2) demo_public demo_dir wg_private wg_public Hd Hp Hq eq_refl eq_refl Ha w). }
  assert (∀ n t, kept_files (key_paths demo_dir wg_private wg_public) t (overtaken n t)) as Ho.
  { intros n t. unfold overtaken. destruct (Nat.eqb n 2); [apply (Hs (MkWorld t 0))|apply kept_files_refl]. }
  destruct (one_key_pair all_ok all_ok overtaken alone (demo_random "a") (demo_random "b") (demo_suffix 1) (demo_suffix 2) demo_public demo_dir wg_private wg_public
    (MkWorld ∅ 0) after_first bkey (demo_public bkey) bkey (demo_public bkey) after_first (second_run after_first).2 Hd Hp Hq eq_refl eq_refl Ho Ha) as (_ & _ & _ & _ & H & _).
  - rewrite <- E1. apply surjective_pairing.
  - rewrite <- E2. apply surjective_pairing.
  - apply Hs.
  - exact H.
Defined.
Lemma key_pair_created_witness : ready_dir (demo_suffix 2) demo_dir ∅ ∧ ∃ w', second_run (MkWorld ∅ 0) = (Ok (bkey, demo_public bkey), w').
Proof.
  assert (ready_dir (demo_suffix 2) demo_dir ∅) as Hr by (split_and!; [by left|done..]).
  split; [exact Hr|]. destruct (key_pair_created (demo_random "b") (demo_suffix 2) demo_public) with (dir := demo_dir) (w := MkWorld ∅ 0) as (n & r & w' & E1 & E2 & _).
  - intros n. by exists (replicate 32 "b"%char).
  - intros k Hk. unfold demo_public, key_ok. rewrite length_insert. split; [done|]. by destruct k.
  - reflexivity.
  - exact Hr.
  - injection E1 as <-. exists w'. exact E2.
Defined.
