(* ===== verification/RouterOS.v ===== *)
(** * RouterOS scripts ([src/pkg/mikrotik/commands.go], [templates.go], [routing.go])

    The commands that run the client in a container on a MikroTik router: quoting,
    the dialects of RouterOS versions, addresses of the virtual link, environment,
    and the scripts put together from them. A rendered template is the list of its
    lines. Changing case leaves letters outside ASCII as they are. *)

From S2P Require Import Prelude GoStrings GoNet GoPath GoText TopologyV2 Ranges Topology Token.

(** ** Quoting *)

Definition dquote : ascii := "034"%char.
Definition bslash : ascii := "092"%char.
Definition newline : ascii := "010"%char.
(** [strings.ReplaceAll] of one byte. *)
Definition replace_byte (c : ascii) (by_ : list ascii) (l : list ascii) : list ascii :=
  mjoin ((λ a, if bool_decide (a = c) then by_ else [a]) <$> l).
Definition ReplaceByte (s : string) (c : ascii) (r : string) : string := of_bytes (replace_byte c (to_bytes r) (to_bytes s)).

Definition quoteRouterOSValue (value : string) : string :=
  let escaped := replace_byte bslash [bslash; bslash] (to_bytes value) in
  let escaped := replace_byte dquote [bslash; dquote] escaped in
  of_bytes ([dquote] ++ escaped ++ [dquote]).
Definition token_special : string := of_bytes [" "; "009"; dquote; "'"]%char.
Definition escapeRouterOSToken (value : string) : string :=
  let trimmed := TrimSpace value in
  if bool_decide (trimmed = "") then of_bytes [dquote; dquote] else
  if ContainsAny trimmed token_special then quoteRouterOSValue trimmed else trimmed.

(** ** Names *)

Definition ToUpperSnake (name : string) : string := ToUpper (ReplaceByte (TrimSpace name) "-" "_").
Definition DeriveContainerName (topologyName : string) : string := "AWG_MESH_" +:+ ToUpperSnake topologyName.
Definition DeriveEnvListName (containerName : string) : string :=
  if bool_decide (containerName = "") then "AWG_MESH_ENVS" else containerName +:+ "_ENVS".
Definition DeriveMountName (containerName : string) : string := containerName +:+ "_CONFIG".

(** ** Dialects *)

Inductive containerDialect := containerDialectLegacy | containerDialectTransitional | containerDialectCanonical.
#[global] Instance containerDialect_eq_dec : EqDecision containerDialect.
Proof. solve_decision. Defined.
Inductive dialect_error :=
  | ErrRosFormat (v : string) | ErrRosMajor (v : string) | ErrRosMinor (v : string) | ErrRosPatch (v : string)
  | ErrRosUnsupported (v : string) | ErrRosNoContainer (v : string) | ErrRosRegression (v : string).
#[global] Instance dialect_error_eq_dec : EqDecision dialect_error.
Proof. solve_decision. Defined.

Definition selectMikrotikDialect (version : string) : res dialect_error containerDialect :=
  let trimmed := TrimSpace version in
  if bool_decide (trimmed = "") then Ok containerDialectCanonical else
  match of_bytes <$> split_byte "." (to_bytes trimmed) with
  | major :: minor :: rest =>
      match Atoi major with
      | None => Err (ErrRosMajor version)
      | Some major =>
          match Atoi minor with
          | None => Err (ErrRosMinor version)
          | Some minor =>
              let! patch := match rest with
                            | [] => Ok 0
                            | p :: _ => match Atoi p with Some p => Ok p | None => Err (ErrRosPatch version) end
                            end in
              if negb (major =? 7) then Err (ErrRosUnsupported version) else
              if minor <? 5 then Err (ErrRosNoContainer version) else
              if minor =? 22 then Err (ErrRosRegression version) else
              if minor <=? 17 then Ok containerDialectLegacy else
              if minor <=? 20 then Ok containerDialectTransitional else
              if (minor =? 21) && (patch <? 4) then Ok containerDialectTransitional else Ok containerDialectCanonical
          end
      end
  | _ => Err (ErrRosFormat version)
  end.

(** ** Addresses of the virtual link *)

(** [netip.Addr.String], [Addr.Prefix] and [Prefix.String]. *)
Definition addr_String (a : Addr) : string :=
  match a with
  | AddrInvalid => "invalid IP"
  | Addr4 v => addr4_string v
  | Addr6 v zone =>
      (if in_v4_mapped v then "::ffff:" +:+ addr4_string (v mod 2 ^ 32) else addr6_string v) +:+
      (if bool_decide (zone = "") then "" else "%" +:+ zone)
  end.
Definition addr_Prefix (a : Addr) (bits : Z) : option Prefix :=
  let p := MkPrefix a bits in if prefix_valid p then Some (Masked p) else None.
Definition prefix_String (p : Prefix) : string := addr_String (pfx_addr p) +:+ "/" +:+ Itoa (pfx_bits p).

Definition defaultVethPrefixBits : Z := 24.
Definition defaultVethSubnet : string := "100.127.0.0/24".
Definition defaultVethAddress : string := "100.127.0.2/24".
Definition defaultVethGateway : string := "100.127.0.1".
Definition defaultBridgeName : string := "BR_AWG_MESH".

Definition deriveSubnetCIDR (gateway : string) : string :=
  match ParseAddr (TrimSpace gateway) with
  | None => defaultVethSubnet
  | Some addr => match addr_Prefix addr defaultVethPrefixBits with Some p => prefix_String p | None => defaultVethSubnet end
  end.
(** [strings.SplitN(s, "/", 2)[0]] *)
Definition before_slash (s : string) : string := match cut_byte "/" (to_bytes s) with Some (l, _) => of_bytes l | None => s end.
(** The container's address and the router's. *)
Definition deriveVethAddressAndGateway (gateway : string) : string * string :=
  let trimmed := TrimSpace gateway in
  if bool_decide (trimmed = "") then (defaultVethAddress, defaultVethGateway) else
  match ParsePrefix trimmed with
  | Some prefix =>
      let gatewayAddr := pfx_addr prefix in
      let containerAddr := if addr_valid (Next gatewayAddr) then Next gatewayAddr else gatewayAddr in
      (addr_String containerAddr +:+ "/" +:+ Itoa (pfx_bits prefix), addr_String gatewayAddr)
  | None =>
      match ParseAddr trimmed with
      | None =>
          if Contains trimmed "/" then (trimmed, TrimSpace (before_slash trimmed)) else (trimmed +:+ "/24", trimmed)
      | Some (Addr4 v) =>
          let last := v mod 256 in
          let local := v - last + (if 1 <? last then last - 1 else 1) in
          (addr4_string local +:+ "/" +:+ Itoa defaultVethPrefixBits, addr4_string v)
      | Some addr => (addr_String addr +:+ "/64", addr_String addr)
      end
  end.

(** ** Commands *)

Record ContainerConfig := MkContainerConfig {
  ct_Name : string; ct_Image : string; ct_Interface : string; ct_RootDir : string; ct_MountName : string; ct_MountSrc : string;
  ct_DNS : list string; ct_EnvVars : gmap string string; ct_Command : string; ct_TargetROSVersion : string
}.
Definition list_param (dialect : containerDialect) : string :=
  if bool_decide (dialect ≠ containerDialectCanonical) then "name" else "list".
Definition env_value (key value : string) : string := if bool_decide (key = "MESH_TOKEN_HASH") then value else quoteRouterOSValue value.
Definition buildEnvCommands (envListName : string) (envVars : gmap string string) (dialect : containerDialect) : list string :=
  (λ '(key, value), "/container/envs/add " +:+ list_param dialect +:+ "=" +:+ escapeRouterOSToken envListName +:+
                    " key=" +:+ escapeRouterOSToken key +:+ " value=" +:+ env_value key value)
    <$> sort_by fst (map_to_list envVars).
Definition has_mount (cfg : ContainerConfig) : bool := bool_decide (ct_MountName cfg ≠ "") && bool_decide (ct_MountSrc cfg ≠ "").
(** The attributes of the command, with the values they are given. *)
Definition add_attributes (cfg : ContainerConfig) (envListName : string) (dialect : containerDialect) : list string :=
  let rootDir := if bool_decide (ct_RootDir cfg = "") then "/docker/awg-mesh-client-" +:+ ToLower (TrimSpace (ct_Name cfg)) else ct_RootDir cfg in
  let imageParam := if bool_decide (dialect = containerDialectLegacy) then "image" else "remote-image" in
  ["interface=" +:+ escapeRouterOSToken (ct_Interface cfg);
   imageParam +:+ "=" +:+ escapeRouterOSToken (ct_Image cfg);
   "hostname=" +:+ escapeRouterOSToken (ReplaceByte (ToLower (ct_Name cfg)) "_" "-");
   "root-dir=" +:+ escapeRouterOSToken rootDir;
   "envlist=" +:+ escapeRouterOSToken envListName;
   "name=" +:+ escapeRouterOSToken (ct_Name cfg)] ++
  (if has_mount cfg
   then [(if bool_decide (dialect ≠ containerDialectCanonical) then "mounts" else "mountlists") +:+ "=" +:+ escapeRouterOSToken (ct_MountName cfg)] else []) ++
  (match ct_DNS cfg with [] => [] | dns => ["dns=" +:+ escapeRouterOSToken (join "," dns)] end) ++
  (if bool_decide (TrimSpace (ct_Command cfg) ≠ "") then ["cmd=" +:+ quoteRouterOSValue (TrimSpace (ct_Command cfg))] else []) ++
  ["logging=yes"; "start-on-boot=yes"].
Definition buildContainerAddCommand (cfg : ContainerConfig) (envListName : string) (dialect : containerDialect) : string :=
  join " " ("/container/add" :: add_attributes cfg envListName dialect).
Definition mount_command (cfg : ContainerConfig) (dialect : containerDialect) : list string :=
  if has_mount cfg
  then ["/container/mounts/add " +:+ list_param dialect +:+ "=" +:+ escapeRouterOSToken (ct_MountName cfg) +:+
        " src=" +:+ escapeRouterOSToken (ct_MountSrc cfg) +:+ " dst=/config"] else [].
Definition GenerateContainerCommandsForTarget (cfg : ContainerConfig) : res dialect_error (list string) :=
  let! dialect := selectMikrotikDialect (ct_TargetROSVersion cfg) in
  let envListName := DeriveEnvListName (ct_Name cfg) in
  Ok (mount_command cfg dialect ++ buildEnvCommands envListName (ct_EnvVars cfg) dialect ++ [buildContainerAddCommand cfg envListName dialect]).
Definition GenerateContainerCommands (cfg : ContainerConfig) : res dialect_error (list string) := GenerateContainerCommandsForTarget cfg.

Definition or_bridge (bridgeName : string) : string := if bool_decide (bridgeName = "") then defaultBridgeName else bridgeName.
Definition GenerateBridgeCommands (bridgeName vethName gateway : string) : list string :=
  let normalizedGateway := (deriveVethAddressAndGateway gateway).2 in
  let safeBridge := escapeRouterOSToken (or_bridge bridgeName) in
  ["/interface/bridge/add name=" +:+ safeBridge +:+ " comment=" +:+ quoteRouterOSValue "awg-mesh container bridge";
   "/ip/address/add address=" +:+ escapeRouterOSToken normalizedGateway +:+ "/" +:+ Itoa defaultVethPrefixBits +:+ " interface=" +:+ safeBridge +:+
     " comment=" +:+ quoteRouterOSValue "awg-mesh container gateway";
   "/interface/bridge/port add bridge=" +:+ safeBridge +:+ " interface=" +:+ escapeRouterOSToken vethName].
Definition container_ip (gateway : string) : string := before_slash (deriveVethAddressAndGateway gateway).1.
Definition GenerateNATCommands (gateway : string) (grpcPort : Z) : list string :=
  let subnet := deriveSubnetCIDR (deriveVethAddressAndGateway gateway).2 in
  ["/ip/firewall/nat add chain=srcnat action=masquerade src-address=" +:+ escapeRouterOSToken subnet +:+ " comment=" +:+ quoteRouterOSValue "awg-mesh: container masquerade"] ++
  (if 0 <? grpcPort
   then ["/ip/firewall/nat add chain=dstnat protocol=tcp dst-port=" +:+ Itoa grpcPort +:+ " action=dst-nat to-addresses=" +:+ escapeRouterOSToken (container_ip gateway) +:+
         " to-ports=" +:+ Itoa grpcPort +:+ " comment=" +:+ quoteRouterOSValue "awg-mesh: gRPC management port"] else []).
Definition GenerateVethCommands (name gateway : string) : list string :=
  let '(vethAddress, normalizedGateway) := deriveVethAddressAndGateway gateway in
  ["/interface/veth add name=" +:+ escapeRouterOSToken name +:+ " address=" +:+ escapeRouterOSToken vethAddress +:+ " gateway=" +:+ escapeRouterOSToken normalizedGateway].
Definition GenerateRouteCommands (overlayNet gateway : string) : list string :=
  ["/ip/route add dst-address=" +:+ escapeRouterOSToken overlayNet +:+ " gateway=" +:+ escapeRouterOSToken (container_ip gateway) +:+
   " comment=" +:+ quoteRouterOSValue "awg-mesh: overlay network"].
Definition lines_text (ls : list string) : string := join (String newline "") ls.
Definition GenerateFirewallCommands (bridgeName : string) : list string :=
  let safeBridge := escapeRouterOSToken (or_bridge bridgeName) in
  let established := quoteRouterOSValue "awg-mesh: established return traffic" in
  let outbound := quoteRouterOSValue "awg-mesh: container outbound" in
  let accept_established := "    /ip/firewall/filter add chain=forward action=accept connection-state=established,related in-interface=" +:+ safeBridge +:+ " comment=" +:+ established in
  let accept_outbound := "    /ip/firewall/filter add chain=forward action=accept in-interface=" +:+ safeBridge +:+ " comment=" +:+ outbound in
  [lines_text
    [":local fastTrackId [/ip/firewall/filter find where action=fasttrack-connection chain=forward]";
     ":if ([:len $fastTrackId] > 0) do={";
     accept_established +:+ " place-before=$fastTrackId";
     accept_outbound +:+ " place-before=$fastTrackId";
     "} else={";
     accept_established;
     accept_outbound;
     "    # WARNING: no fasttrack-connection rule found, appended to chain end";
     "    :log warning " +:+ String dquote "awg-mesh: no fasttrack-connection rule, appended to chain end" +:+ String dquote "";
     "}"]].

(** ** The deployment script *)

Record DeployScript := MkDeployScript {
  dp_TopologyName : string; dp_ContainerName : string; dp_BridgeName : string; dp_Image : string; dp_Veth : string; dp_VethGateway : string;
  dp_OverlayIP : string; dp_OverlayNet : string; dp_TokenHash : string; dp_NodeCertB64 : string; dp_NodeKeyB64 : string; dp_CACertB64 : string;
  dp_WGKeyB64 : string; dp_ControlPlane : string; dp_Region : string; dp_ListenPort : Z; dp_EndpointHost : string; dp_Protocol : string;
  dp_InterfaceName : string; dp_TargetROS : string; dp_DNS : list string; dp_GRPCPort : Z; dp_StorageRoot : string
}.
Inductive deploy_error :=
  | ErrDeployRequired (what : string) | ErrControlPlaneTarget | ErrListenPort | ErrEndpointHost
  | ErrDeployOverlayIP (ip : string) | ErrDeployOverlayNet (net : string) | ErrDialect (e : dialect_error).
#[global] Instance deploy_error_eq_dec : EqDecision deploy_error.
Proof. solve_decision. Defined.

(** [strconv.ParseUint(s, 10, 16)] *)
Definition ParseUint16 (s : string) : option Z :=
  match to_bytes s with
  | [] => None
  | ds => match digits_val 0 ds with Some v => if v <? 2 ^ 16 then Some v else None | None => None end
  end.
(** One host:port value without blanks. *)
Definition single_target (value : string) : bool :=
  let trimmed := TrimSpace value in
  bool_decide (trimmed = "") ||
  (bool_decide (length (Fields trimmed) = 1%nat) && Contains trimmed ":" &&
   match SplitHostPort trimmed with
   | Ok (host, port) =>
       negb (bool_decide (TrimSpace host = "")) && negb (bool_decide (TrimSpace port = "")) &&
       match ParseUint16 port with Some p => negb (p =? 0) | None => false end
   | Err _ => false
   end).
Definition validateControlPlaneTarget (value : string) : res deploy_error unit := if single_target value then Ok () else Err ErrControlPlaneTarget.
Definition validateEndpointHost (value : string) : res deploy_error unit := if single_target value then Ok () else Err ErrEndpointHost.
Definition required (what value : string) : res deploy_error unit := if bool_decide (TrimSpace value = "") then Err (ErrDeployRequired what) else Ok ().
Definition validateDeployScript (ds : DeployScript) : res deploy_error unit :=
  let! _ := required "container name" (dp_ContainerName ds) in
  let! _ := required "topology name" (dp_TopologyName ds) in
  let! _ := required "container image" (dp_Image ds) in
  let! _ := required "veth interface" (dp_Veth ds) in
  let! _ := required "token hash" (dp_TokenHash ds) in
  let! _ := required "overlay IP" (dp_OverlayIP ds) in
  let! _ := required "overlay network" (dp_OverlayNet ds) in
  let! _ := validateControlPlaneTarget (dp_ControlPlane ds) in
  if (dp_ListenPort ds <? 0) || (65535 <? dp_ListenPort ds) then Err ErrListenPort else
  let! _ := validateEndpointHost (dp_EndpointHost ds) in
  match ParseAddr (dp_OverlayIP ds) with
  | None => Err (ErrDeployOverlayIP (dp_OverlayIP ds))
  | Some _ => match ParsePrefix (dp_OverlayNet ds) with None => Err (ErrDeployOverlayNet (dp_OverlayNet ds)) | Some _ => Ok () end
  end.

(** A variable that is only set when its value is not blank. *)
Definition set_nonblank (key value : string) (m : gmap string string) : gmap string string :=
  if bool_decide (TrimSpace value ≠ "") then <[key := TrimSpace value]> m else m.
Definition buildDeployEnvVars (ds : DeployScript) : gmap string string :=
  let m := <["MESH_TOKEN_HASH" := TrimSpace (dp_TokenHash ds)]> (<["MESH_MODE" := "clientd"]>
    (<["MESH_NAME" := TrimSpace (dp_TopologyName ds)]> (<["MESH_OVERLAY_IP" := TrimSpace (dp_OverlayIP ds)]> ∅))) in
  set_nonblank "MESH_WG_KEY_B64" (dp_WGKeyB64 ds) (set_nonblank "MESH_CA_CERT_B64" (dp_CACertB64 ds)
    (set_nonblank "MESH_NODE_KEY_B64" (dp_NodeKeyB64 ds) (set_nonblank "MESH_NODE_CERT_B64" (dp_NodeCertB64 ds) m))).

Definition or_else (value dflt : string) : string := let t := TrimSpace value in if bool_decide (t = "") then dflt else t.
Definition client_args (ds : DeployScript) : list string :=
  ["--mode"; "clientd"; "--control-plane"; TrimSpace (dp_ControlPlane ds); "--name"; TrimSpace (dp_TopologyName ds);
   "--overlay-ip"; TrimSpace (dp_OverlayIP ds); "--region"; or_else (dp_Region ds) "default";
   "--cert"; "/config/node.crt"; "--key"; "/config/node.key"; "--ca-cert"; "/config/ca.crt"; "--state-dir"; "/config";
   "--iface"; or_else (dp_InterfaceName ds) "awg-mesh0"; "--protocol"; or_else (dp_Protocol ds) "amneziawg"] ++
  (if 0 <? dp_ListenPort ds then ["--mesh-listen-port"; Itoa (dp_ListenPort ds)] else []) ++
  (if bool_decide (TrimSpace (dp_EndpointHost ds) ≠ "") then ["--endpoint-host"; TrimSpace (dp_EndpointHost ds)] else []).
Definition buildClientCommand (ds : DeployScript) : string :=
  if bool_decide (TrimSpace (dp_ControlPlane ds) = "") then "" else join " " (client_args ds).

Definition storage_root (ds : DeployScript) : string := if bool_decide (dp_StorageRoot ds = "") then "docker" else dp_StorageRoot ds.
Definition container_config (ds : DeployScript) : ContainerConfig :=
  MkContainerConfig (dp_ContainerName ds) (dp_Image ds) (dp_Veth ds)
    ("/" +:+ storage_root ds +:+ "/awg-mesh-client-" +:+ ToLower (dp_TopologyName ds))
    (DeriveMountName (dp_ContainerName ds))
    ("/" +:+ storage_root ds +:+ "/etc/awg-mesh-client-" +:+ ToLower (dp_TopologyName ds) +:+ "-config")
    (dp_DNS ds) (buildDeployEnvVars ds) (buildClientCommand ds) (dp_TargetROS ds).
(** The lines of [deployScriptTemplate]. *)
Definition deploy_lines (ds : DeployScript) (containerCommands : list string) : list string :=
  let target := TrimSpace (dp_ControlPlane ds) in
  ["# awg-mesh RouterOS deployment script";
   "# Generated for container " +:+ dp_ContainerName ds;
   "# Topology node name: " +:+ dp_TopologyName ds] ++
  (if bool_decide (target = "") then [] else ["# Responsible master coordination target: " +:+ target]) ++
  ["#"; "# KEYPAIR NOTE:";
   "# The awg-mesh-client container generates its own AmneziaWG keypair on first boot.";
   "# After running this script and starting the container, run:";
   "#"; "#   mesh-ctl client init " +:+ dp_TopologyName ds; "#";
   "# from the admin workstation. The init RPC reads the node's public key and";
   "# registers it with all masters via gRPC — no manual key exchange needed.";
   ""; "# === Veth ==="] ++ GenerateVethCommands (dp_Veth ds) (dp_VethGateway ds) ++
  [""; "# === Bridge (idempotent — shared across awg-mesh containers) ==="] ++ GenerateBridgeCommands (dp_BridgeName ds) (dp_Veth ds) (dp_VethGateway ds) ++
  [""; "# === NAT ==="] ++ GenerateNATCommands (dp_VethGateway ds) (dp_GRPCPort ds) ++
  [""; "# === Firewall (placed before defconf drop rules) ==="] ++ GenerateFirewallCommands (dp_BridgeName ds) ++
  [""; "# === Route: overlay space → container ==="] ++ GenerateRouteCommands (dp_OverlayNet ds) (dp_VethGateway ds) ++
  [""; "# === Mount + Container ==="] ++ containerCommands ++
  [""; "# RouterOS starts the container after local image import; start-on-boot=yes keeps it running after reboot."].
Definition GenerateDeployRSC (ds : DeployScript) : res deploy_error string :=
  let! _ := validateDeployScript ds in
  let! containerCommands := wrap_err ErrDialect (GenerateContainerCommandsForTarget (container_config ds)) in
  Ok (unlines (deploy_lines ds containerCommands)).

(** ** The rotation script *)

Record RotateParams := MkRotateParams { rp_Jc : Z; rp_Jmin : Z; rp_Jmax : Z; rp_S1 : Z; rp_S2 : Z; rp_H1 : Z; rp_H2 : Z; rp_H3 : Z; rp_H4 : Z }.
Inductive rotate_error := ErrRotateName | ErrRotateNegative (name : string) | ErrRotateRange (jmin jmax : Z).
Definition param_values (p : RotateParams) : list (string * Z) :=
  [("jc", rp_Jc p); ("jmin", rp_Jmin p); ("jmax", rp_Jmax p); ("s1", rp_S1 p); ("s2", rp_S2 p); ("h1", rp_H1 p); ("h2", rp_H2 p); ("h3", rp_H3 p); ("h4", rp_H4 p)].
Definition validateRotateParams (p : RotateParams) : res rotate_error unit :=
  match list_find (λ nv, nv.2 < 0) (param_values p) with
  | Some (_, (name, _)) => Err (ErrRotateNegative name)
  | None => if rp_Jmax p <? rp_Jmin p then Err (ErrRotateRange (rp_Jmin p) (rp_Jmax p)) else Ok ()
  end.
Definition encoded_params (p : RotateParams) : string := join "," ((λ '(n, v), n +:+ "=" +:+ Itoa v) <$> param_values p).
Definition rotate_lines (name : string) (p : RotateParams) : list string :=
  ["# awg-mesh AWG parameter rotation script"; "# Generated for container " +:+ name; "";
   ":local envList " +:+ quoteRouterOSValue (DeriveEnvListName name);
   ":local params " +:+ quoteRouterOSValue (encoded_params p);
   ":local existing [/container/envs/find where list=$envList and key=" +:+ String dquote "MESH_AWG_PARAMS" +:+ String dquote "]";
   ":if ([:len $existing] = 0) do={";
   "    /container/envs/add list=$envList key=MESH_AWG_PARAMS value=$params";
   "} else={";
   "    /container/envs/set $existing value=$params";
   "}";
   "/container/restart [find where name=" +:+ quoteRouterOSValue name +:+ "]"].
Definition GenerateRotateRSC (containerName : string) (p : RotateParams) : res rotate_error string :=
  let name := TrimSpace containerName in
  if bool_decide (name = "") then Err ErrRotateName else
  let! _ := validateRotateParams p in
  Ok (unlines (rotate_lines name p)).

(** ** The routing script *)

Record policyEntry := MkPolicyEntry { pe_Name : string; pe_TableName : string; pe_ConnectionMark : string; pe_DSCP : Z; pe_Gateway : string; pe_Target : string }.
Inductive routing_error := ErrNoPolicies (client : string) | ErrPolicyDSCP (policy : string) (dscp : Z) | ErrPolicyGateway (policy : string).
Definition resolveTargetGateway (policy : RoutingPolicy) (fallback : string) (topo : option Topology) : string * string :=
  let found :=
    match topo, Topology.rp_Targets policy with
    | Some t, targetName :: _ =>
        match FindEndpoint t targetName with
        | Some ep => if bool_decide (TrimSpace (en_OverlayIP ep) ≠ "") then Some (en_OverlayIP ep, targetName) else None
        | None => None
        end
    | _, _ => None
    end in
  let found_master :=
    match topo, Topology.rp_Targets policy with
    | Some t, targetName :: _ =>
        match FindMaster t targetName with
        | Some m => if mn_Exit m && bool_decide (TrimSpace (mn_OverlayIP m) ≠ "") then Some (mn_OverlayIP m, targetName) else None
        | None => None
        end
    | _, _ => None
    end in
  match found with
  | Some r => r
  | None => match found_master with Some r => r | None => if bool_decide (fallback ≠ "") then (fallback, "fallback") else ("", "") end
  end.
Definition policy_entry (fallback : string) (topo : option Topology) (policy : RoutingPolicy) : res routing_error policyEntry :=
  if negb (ValidateDSCP (rp_DSCP policy)) then Err (ErrPolicyDSCP (rp_Name policy) (rp_DSCP policy)) else
  let '(gateway, targetName) := resolveTargetGateway policy fallback topo in
  if bool_decide (gateway = "") then Err (ErrPolicyGateway (rp_Name policy)) else
  Ok (MkPolicyEntry (rp_Name policy) ("vpn-mesh-" +:+ Itoa (rp_DSCP policy)) (rp_Name policy +:+ "-conn") (rp_DSCP policy) gateway targetName).
Definition quoted (s : string) : string := String dquote (s +:+ String dquote "").
Definition policy_lines (p : policyEntry) : list string :=
  let dscp := Itoa (pe_DSCP p) in
  ["/routing/table";
   "add name=" +:+ pe_TableName p +:+ " fib comment=" +:+ quoted ("awg-mesh: " +:+ pe_Name p +:+ " (DSCP " +:+ dscp +:+ ")");
   ""; "/ip/firewall/mangle";
   "add chain=prerouting connection-mark=" +:+ pe_ConnectionMark p +:+ " action=change-dscp new-dscp=" +:+ dscp +:+ " comment=" +:+ quoted ("awg-mesh: " +:+ pe_Name p);
   ""; "/routing/rule";
   "add fwmark=" +:+ dscp +:+ " table=" +:+ pe_TableName p +:+ " comment=" +:+ quoted ("awg-mesh: route DSCP " +:+ dscp +:+ " via " +:+ pe_TableName p);
   ""; "/ip/route";
   "add dst-address=0.0.0.0/0 gateway=" +:+ pe_Gateway p +:+ " routing-table=" +:+ pe_TableName p +:+ " distance=5 comment=" +:+
     quoted ("awg-mesh: " +:+ pe_Name p +:+ " default via " +:+ pe_Target p);
   ""].
Definition classifier_lines (p : policyEntry) : list string :=
  let name := pe_Name p in
  ["#";
   "# Policy: " +:+ name +:+ " (DSCP " +:+ Itoa (pe_DSCP p) +:+ ", table " +:+ pe_TableName p +:+ ", target " +:+ pe_Target p +:+ " gateway " +:+ pe_Gateway p +:+ ")";
   "# Example — route traffic to an address list through this VPN:";
   "#   /ip/firewall/address-list";
   "#   add list=" +:+ name +:+ "-dst address=1.2.3.0/24 comment=" +:+ quoted ("awg-mesh: " +:+ name +:+ " — sample");
   "#"; "#   /ip/firewall/mangle";
   "#   add chain=prerouting dst-address-list=" +:+ name +:+ "-dst action=mark-connection \";
   "#     new-connection-mark=" +:+ pe_ConnectionMark p +:+ " passthrough=yes \";
   "#     comment=" +:+ quoted ("awg-mesh: classify " +:+ name)].
Definition routing_header (client : string) : list string :=
  ["# awg-mesh DSCP routing configuration"; "# Generated by mesh-ctl routing generate --platform mikrotik"; "# Client: " +:+ client;
   "#"; "# IMPORTANT — Classifier rules required."; "#";
   "# This script installs per-DSCP routing tables and /routing/rule entries that";
   "# steer marked connections to the correct VPN endpoint. However, it does NOT";
   "# tag any traffic by itself. You must add mark-connection rules upstream so";
   "# each connection gets the correct connection-mark before the routing rules run.";
   "# See the commented starter block at the bottom of this file for ready-to-edit";
   "# examples."; "#";
   "# Without classifier rules, DSCP routing is a no-op — no packet is";
   "# routed through the VPN."].
Definition classifier_header : list string :=
  ["# -----------------------------------------------------------------------";
   "# CLASSIFIER TEMPLATE (uncomment and edit to activate DSCP routing)."; "#";
   "# Each policy below has a matching commented block. Pick at least one";
   "# mark-connection rule per policy and fill in the match criteria";
   "# (src/dst address, address-list, interface, port, etc.).";
   "# -----------------------------------------------------------------------"].
Definition GenerateRoutingRSC (client : ClientNode) (fallbackGateway : string) (topo : option Topology) : res routing_error string :=
  match cn_RoutingPolicies client with
  | [] => Err (ErrNoPolicies (cn_Name client))
  | policies =>
      let! entries := fold_res (λ _ acc p, let! e := policy_entry fallbackGateway topo p in Ok (acc ++ [e])) [] policies in
      Ok (unlines (routing_header (cn_Name client) ++ mjoin (policy_lines <$> entries) ++ classifier_header ++ mjoin (classifier_lines <$> entries)))
  end.
