(* ===== verification/RouterOSProofs.v ===== *)
(** * RouterOS scripts: what the generated lines say

    The reader of scripts is RouterOS, which is not part of the program: it is a parameter,
    and the class [RouterOSReader] states what is relied on. The law speaks only of literal
    text: words separated by one blank, made of bare characters (letters, digits and a few
    signs) and of double-quoted parts in which a backslash precedes a quote or a backslash.
    It says nothing of [$], [?], brackets, semicolons and the like, to which RouterOS gives
    a meaning (a [$] also inside quotes); the values of a script must be free of them. Under
    the law every value that was put into a command is recovered: no value can add an
    attribute or change another. *)

From S2P Require Import Prelude GoStrings GoNet GoPath GoText TopologyV2 Ranges Topology Token RouterOS.

(** ** Literal text *)

Definition bare_signs : list ascii := ["-"; "_"; "."; "/"; ":"; ","; "="; "@"; "+"]%char.
Definition bare_char (a : ascii) : bool :=
  let c := code a in
  ((48 <=? c) && (c <=? 57)) || ((65 <=? c) && (c <=? 90)) || ((97 <=? c) && (c <=? 122)) || bool_decide (a ∈ bare_signs).
(** Printable ASCII but [$] and [?]. *)
Definition quoted_char (a : ascii) : bool :=
  let c := code a in (32 <=? c) && (c <=? 126) && negb (bool_decide (a ∈ ["$"; "?"]%char)).
(** What a token may hold: with a blank or a quote it is written in quotes, else bare. *)
Definition token_char (a : ascii) : bool := bare_char a || bool_decide (a ∈ [" "; dquote; "'"]%char).

Definition all_chars (P : ascii → bool) (s : string) : Prop := Forall (λ a, P a = true) (to_bytes s).
#[global] Instance all_chars_dec P s : Decision (all_chars P s).
Proof. unfold all_chars. apply _. Defined.
Notation quotable := (all_chars quoted_char).
Notation tokenable := (all_chars token_char).

Definition escape1 (a : ascii) : list ascii :=
  if bool_decide (a = bslash) then [bslash; bslash] else if bool_decide (a = dquote) then [bslash; dquote] else [a].
Definition quoted_text (v : string) : string := of_bytes ([dquote] ++ mjoin (escape1 <$> to_bytes v) ++ [dquote]).

(** A word: bare text and then, possibly, a quoted value - as in [key=value]. *)
Record literal_word := MkWord { lw_bare : string; lw_quoted : option string }.
Definition word_ok (w : literal_word) : Prop :=
  all_chars bare_char (lw_bare w) ∧ match lw_quoted w with Some v => quotable v | None => lw_bare w ≠ "" end.
(** The text of a word and what it stands for. *)
Definition word_text (w : literal_word) : string := lw_bare w +:+ match lw_quoted w with Some v => quoted_text v | None => "" end.
Definition word_value (w : literal_word) : string := lw_bare w +:+ default "" (lw_quoted w).

(** A reader of script lines: [None] for a line it does not accept. *)
Class RouterOSReader (ros_line : string → option (list string)) : Prop := {
  ros_literal : ∀ ws, ws ≠ [] → Forall word_ok ws → ros_line (join " " (word_text <$> ws)) = Some (word_value <$> ws)
}.

(** ** Words that read as a value *)

(** [w] is literal text for [r]. *)
Definition reads (w r : string) : Prop := ∃ lw, word_ok lw ∧ w = word_text lw ∧ r = word_value lw.

Lemma string_nil_r a : a +:+ "" = a.
Proof. rewrite <- (of_to_bytes (a +:+ "")), to_bytes_app, app_nil_r. apply of_to_bytes. Qed.
Definition bare_word (w : string) : bool := negb (bool_decide (w = "")) && forallb bare_char (to_bytes w).
Lemma bare_word_chars w : bare_word w = true → w ≠ "" ∧ all_chars bare_char w.
Proof.
  intros [H1 H2]%andb_prop. apply negb_true_iff, bool_decide_eq_false in H1. split; [done|].
  apply Forall_forall. intros a Ha. eapply forallb_forall in H2; [done|]. by apply list_elem_of_In.
Qed.
Lemma reads_word w : bare_word w = true → reads w w.
Proof.
  intros [H1 H2]%bare_word_chars. exists (MkWord w None). split; [done|]. unfold word_text, word_value. cbn. by rewrite string_nil_r.
Qed.
Lemma reads_attr k v w : bare_word k = true → reads v w → reads (k +:+ v) (k +:+ w).
Proof.
  intros [H1 H2]%bare_word_chars ([b q] & [Hb Hq] & -> & ->). exists (MkWord (k +:+ b) q). unfold word_text, word_value. cbn in *.
  rewrite !string_app_assoc. split; [|done]. split; cbn; [unfold all_chars; rewrite to_bytes_app; by apply Forall_app|].
  destruct q; [done|]. by destruct k.
Qed.

(** The escaped text, byte by byte. *)
Lemma quote_text v : quoteRouterOSValue v = quoted_text v.
Proof.
  assert (∀ x y : list (list ascii), mjoin (x ++ y) = mjoin x ++ mjoin y) as Hj by (intros x y; induction x as [|z x IHx]; [done|]; change (mjoin ((z :: x) ++ y)) with (z ++ mjoin (x ++ y)); by rewrite IHx, app_assoc).
  unfold quoteRouterOSValue, quoted_text. f_equal. f_equal. f_equal. unfold replace_byte.
  induction (to_bytes v) as [|a l IH]; [done|]. rewrite !fmap_cons.
  change (mjoin (?z :: ?x)) with (z ++ mjoin x). rewrite fmap_app, Hj, IH. f_equal.
  unfold escape1. case_bool_decide as H1; [subst; by vm_compute|]. cbn. case_bool_decide; [subst; by vm_compute|done].
Qed.
Lemma reads_quote v : quotable v → reads (quoteRouterOSValue v) v.
Proof. intros Hv. rewrite quote_text. exists (MkWord "" (Some v)). split; [split; [constructor|done]|done]. Qed.

(** ** Closure of the character classes *)

Lemma all_chars_impl (P Q : ascii → bool) s : (∀ a, P a = true → Q a = true) → all_chars P s → all_chars Q s.
Proof. intros H Hs. eapply Forall_impl; [exact Hs|exact H]. Qed.
Lemma token_quoted a : token_char a = true → quoted_char a = true.
Proof. destruct a as [[] [] [] [] [] [] [] []]; vm_compute; congruence. Qed.
Lemma tokenable_quotable s : tokenable s → quotable s.
Proof. apply all_chars_impl, token_quoted. Qed.
Lemma all_chars_app P a b : all_chars P a → all_chars P b → all_chars P (a +:+ b).
Proof. unfold all_chars. rewrite to_bytes_app. intros. by apply Forall_app. Qed.
Lemma all_chars_join P sep l : all_chars P sep → Forall (all_chars P) l → all_chars P (join sep l).
Proof.
  intros Hs. unfold join. induction 1 as [|x l Hx Hl IH]; [constructor|]. destruct l as [|y l]; [done|].
  change (String.concat sep (x :: y :: l)) with (x +:+ sep +:+ String.concat sep (y :: l)). auto using all_chars_app.
Qed.
Lemma all_chars_TrimSpace P s : all_chars P s → all_chars P (TrimSpace s).
Proof.
  unfold all_chars, TrimSpace. rewrite to_of_bytes. rewrite !Forall_forall. intros H a Hin. apply H.
  destruct (trim_right_prefix (trim_left (to_bytes s))) as [k Hk].
  destruct (trim_with_suffix space2 space3 (to_bytes s)) as [k' Hk'].
  rewrite Hk'. apply elem_of_app. right. change (trim_with space2 space3 (to_bytes s)) with (trim_left (to_bytes s)).
  rewrite Hk. apply elem_of_app. by left.
Qed.
Lemma all_chars_ToLower s : tokenable s → tokenable (ToLower s).
Proof.
  unfold all_chars, ToLower. rewrite to_of_bytes. induction 1 as [|a l Ha Hl IH]; [constructor|].
  assert (code a < 128) as Hlt by (destruct a as [[] [] [] [] [] [] [] []]; vm_compute in Ha |- *; congruence).
  destruct (is_upper a) eqn:Hu.
  - cbn [to_lower]. rewrite Hu. constructor; [|done].
    revert Hu. clear. destruct a as [[] [] [] [] [] [] [] []]; vm_compute; congruence.
  - rewrite to_lower_cons by done. by constructor.
Qed.
Lemma all_chars_ReplaceByte P s c r : all_chars P s → all_chars P r → all_chars P (ReplaceByte s c r).
Proof.
  unfold all_chars, ReplaceByte, replace_byte. rewrite to_of_bytes. intros Hs Hr. induction Hs as [|a l Ha Hl IH]; [constructor|].
  rewrite fmap_cons. change (mjoin (?z :: ?x)) with (z ++ mjoin x). apply Forall_app. split; [|done].
  case_bool_decide; [done|by constructor].
Qed.

Lemma reads_token v : tokenable v → reads (escapeRouterOSToken v) (TrimSpace v).
Proof.
  intros Hv%all_chars_TrimSpace. unfold escapeRouterOSToken. case_bool_decide as He.
  { rewrite He. by apply (reads_quote ""), Forall_nil. }
  destruct (ContainsAny _ _) eqn:Ec; [by apply reads_quote, tokenable_quotable|]. apply reads_word.
  unfold bare_word. rewrite bool_decide_eq_false_2 by done. apply forallb_forall. intros a Ha. apply list_elem_of_In in Ha.
  assert (a ∉ to_bytes token_special) as Hs.
  { intros Hin. apply not_true_iff_false in Ec. apply Ec. apply existsb_exists. exists a. split; [by apply list_elem_of_In|]. by apply bool_decide_eq_true. }
  unfold all_chars in Hv. rewrite Forall_forall in Hv. specialize (Hv a Ha). unfold token_char in Hv. apply orb_prop in Hv as [Hv|Hv]; [done|].
  exfalso. apply Hs. apply bool_decide_eq_true in Hv. unfold token_special. rewrite to_of_bytes. set_solver.
Qed.

Definition reads_all (ws rs : list string) : Prop := Forall2 reads ws rs.
Lemma reads_all_app a x b y : reads_all a x → reads_all b y → reads_all (a ++ b) (x ++ y).
Proof. apply Forall2_app. Qed.

Section Reader.
Context (ros_line : string → option (list string)) `{!RouterOSReader ros_line}.
Lemma line_reads ws rs : ws ≠ [] → reads_all ws rs → ros_line (join " " ws) = Some rs.
Proof using All.
  intros Hne H.
  assert (∃ pss, Forall word_ok pss ∧ ws = word_text <$> pss ∧ rs = word_value <$> pss) as (pss & Hok & -> & ->).
  { clear Hne. induction H as [|w r ws rs (ps & Hp & -> & ->) H (pss & Hok & -> & ->)]; [by exists []|].
    exists (ps :: pss). by split; [constructor|]. }
  apply ros_literal; [|done]. intros ->. by apply Hne.
Qed.
End Reader.

(** ** The container commands *)

Ltac literal_chars := apply (bool_decide_unpack _); by vm_compute.

(** The values of a configuration are literal text. *)
Record config_literal (cfg : ContainerConfig) : Prop := {
  ol_Name : tokenable (ct_Name cfg); ol_Image : tokenable (ct_Image cfg); ol_Interface : tokenable (ct_Interface cfg);
  ol_RootDir : tokenable (ct_RootDir cfg); ol_MountName : tokenable (ct_MountName cfg); ol_MountSrc : tokenable (ct_MountSrc cfg);
  ol_DNS : Forall (all_chars token_char) (ct_DNS cfg); ol_EnvVars : map_Forall (λ k v, tokenable k ∧ quotable v) (ct_EnvVars cfg);
  ol_Command : quotable (ct_Command cfg);
  ol_hash : ∀ h, ct_EnvVars cfg !! "MESH_TOKEN_HASH" = Some h → bare_word h = true
}.

(** What each command says: its words, with the values as they were given. *)
Definition mount_words (cfg : ContainerConfig) (d : containerDialect) : list (list string) :=
  if has_mount cfg
  then [["/container/mounts/add"; list_param d +:+ "=" +:+ TrimSpace (ct_MountName cfg); "src=" +:+ TrimSpace (ct_MountSrc cfg); "dst=/config"]] else [].
Definition env_words (listName : string) (d : containerDialect) (kv : string * string) : list string :=
  ["/container/envs/add"; list_param d +:+ "=" +:+ TrimSpace listName; "key=" +:+ TrimSpace kv.1; "value=" +:+ kv.2].
Definition add_words (cfg : ContainerConfig) (listName : string) (d : containerDialect) : list string :=
  ["/container/add"; "interface=" +:+ TrimSpace (ct_Interface cfg);
   (if bool_decide (d = containerDialectLegacy) then "image" else "remote-image") +:+ "=" +:+ TrimSpace (ct_Image cfg);
   "hostname=" +:+ TrimSpace (ReplaceByte (ToLower (ct_Name cfg)) "_" "-");
   "root-dir=" +:+ TrimSpace (if bool_decide (ct_RootDir cfg = "") then "/docker/awg-mesh-client-" +:+ ToLower (TrimSpace (ct_Name cfg)) else ct_RootDir cfg);
   "envlist=" +:+ TrimSpace listName; "name=" +:+ TrimSpace (ct_Name cfg)] ++
  (if has_mount cfg then [(if bool_decide (d ≠ containerDialectCanonical) then "mounts" else "mountlists") +:+ "=" +:+ TrimSpace (ct_MountName cfg)] else []) ++
  (match ct_DNS cfg with [] => [] | dns => ["dns=" +:+ TrimSpace (join "," dns)] end) ++
  (if bool_decide (TrimSpace (ct_Command cfg) ≠ "") then ["cmd=" +:+ TrimSpace (ct_Command cfg)] else []) ++
  ["logging=yes"; "start-on-boot=yes"].

Lemma DeriveEnvListName_chars name : tokenable name → tokenable (DeriveEnvListName name).
Proof.
  intros H. unfold DeriveEnvListName. case_bool_decide; [literal_chars|]. apply all_chars_app; [done|literal_chars].
Qed.
Lemma reads_tok k v : bare_word k = true → tokenable v → reads (k +:+ escapeRouterOSToken v) (k +:+ TrimSpace v).
Proof. intros Hk Hv. apply reads_attr; [done|]. by apply reads_token. Qed.
Lemma reads_tok2 k v : bare_word k = true → tokenable v → reads (k +:+ "=" +:+ escapeRouterOSToken v) (k +:+ "=" +:+ TrimSpace v).
Proof. intros Hk Hv. apply reads_attr; [done|]. by apply reads_tok. Qed.

Section Deploy.
Context (ros_line : string → option (list string)) `{!RouterOSReader ros_line}.

Lemma mount_reads cfg d : config_literal cfg → ros_line <$> mount_command cfg d = Some <$> mount_words cfg d.
Proof.
  intros H. unfold mount_command, mount_words. destruct (has_mount cfg); [|done]. rewrite !list_fmap_singleton. f_equal.
  erewrite <- (line_reads ros_line ["/container/mounts/add"; list_param d +:+ "=" +:+ escapeRouterOSToken (ct_MountName cfg); "src=" +:+ escapeRouterOSToken (ct_MountSrc cfg); "dst=/config"]);
    [|done|].
  - f_equal. unfold join. cbn [String.concat]. by rewrite !string_app_assoc.
  - repeat (apply Forall2_cons; split); [by apply reads_word|apply reads_tok2; [by destruct d|apply H]|apply reads_tok; [done|apply H]|by apply reads_word|constructor].
Qed.
Lemma env_value_reads k v : quotable v → (k = "MESH_TOKEN_HASH" → bare_word v = true) → reads (env_value k v) v.
Proof. intros Hv Hh. unfold env_value. case_bool_decide; [by apply reads_word, Hh|by apply reads_quote]. Qed.
Lemma env_reads listName envs d : tokenable listName → map_Forall (λ k v, tokenable k ∧ quotable v) envs →
  (∀ h, envs !! "MESH_TOKEN_HASH" = Some h → bare_word h = true) →
  ros_line <$> buildEnvCommands listName envs d = Some <$> (env_words listName d <$> sort_by fst (map_to_list envs)).
Proof.
  intros Hn He Hh. unfold buildEnvCommands. rewrite <- !list_fmap_compose. apply list_fmap_ext. intros i [k v] Hi. cbn.
  apply list_elem_of_lookup_2, sort_by_elem_of, elem_of_map_to_list in Hi. destruct (He k v Hi) as [Hk Hv].
  erewrite <- (line_reads ros_line ["/container/envs/add"; list_param d +:+ "=" +:+ escapeRouterOSToken listName; "key=" +:+ escapeRouterOSToken k; "value=" +:+ env_value k v]); [|done|].
  - f_equal. unfold join. cbn [String.concat]. by rewrite !string_app_assoc.
  - repeat (apply Forall2_cons; split); [by apply reads_word|apply reads_tok2; [by destruct d|done]|by apply reads_tok| |constructor].
    apply reads_attr; [done|]. apply env_value_reads; [done|]. intros ->. by apply Hh.
Qed.
Lemma add_reads cfg listName d : config_literal cfg → tokenable listName →
  ros_line (buildContainerAddCommand cfg listName d) = Some (add_words cfg listName d).
Proof.
  intros H Hl. apply (line_reads ros_line); [done|]. unfold add_words, add_attributes.
  assert (tokenable (ToLower (ct_Name cfg))) as Hlow by apply all_chars_ToLower, H.
  refine (List.Forall2_cons _ _ (reads_word "/container/add" eq_refl) _).
  apply (reads_all_app [_; _; _; _; _; _] [_; _; _; _; _; _]).
  { repeat (apply Forall2_cons; split); [apply reads_tok; [done|apply H]|apply reads_tok2; [by destruct d|apply H]| | |by apply reads_tok|apply reads_tok; [done|apply H]|constructor].
    - apply reads_tok; [done|]. apply all_chars_ReplaceByte; [done|literal_chars].
    - apply reads_tok; [done|]. case_bool_decide; [|apply H]. apply all_chars_app; [literal_chars|].
      apply all_chars_ToLower, all_chars_TrimSpace, H. }
  apply reads_all_app.
  { destruct (has_mount cfg); [|constructor]. apply Forall2_cons. split; [|constructor]. apply reads_tok2; [by destruct d|apply H]. }
  apply reads_all_app.
  { pose proof (ol_DNS cfg H) as Hd. destruct (ct_DNS cfg) as [|x l]; [constructor|]. apply Forall2_cons. split; [|constructor]. apply reads_tok; [done|].
    apply all_chars_join; [literal_chars|done]. }
  apply reads_all_app.
  { case_bool_decide; [|constructor]. apply Forall2_cons. split; [|constructor]. apply reads_attr; [done|]. apply reads_quote, all_chars_TrimSpace, H. }
  repeat (apply Forall2_cons; split); [by apply reads_word..|constructor].
Qed.

(** The commands for a container say exactly what was configured: read back word by word
    they are the mount, one environment variable per entry in the order of the names,
    and the container with its attributes - no value adds a word or touches another. *)
Lemma container_commands_read cfg cmds : config_literal cfg → GenerateContainerCommandsForTarget cfg = Ok cmds →
  ∃ d, selectMikrotikDialect (ct_TargetROSVersion cfg) = Ok d ∧
    ros_line <$> cmds = Some <$> (mount_words cfg d ++ (env_words (DeriveEnvListName (ct_Name cfg)) d <$> sort_by fst (map_to_list (ct_EnvVars cfg))) ++
      [add_words cfg (DeriveEnvListName (ct_Name cfg)) d]).
Proof.
  intros H. unfold GenerateContainerCommandsForTarget. intros Hc. inv_res. exists a. split; [done|].
  assert (tokenable (DeriveEnvListName (ct_Name cfg))) as Hn by (apply DeriveEnvListName_chars, H).
  rewrite !fmap_app, mount_reads, env_reads by (done || apply H). rewrite !list_fmap_singleton, add_reads by done. done.
Qed.

(** *** Deployment *)

(** The values of a script are literal text: printable ASCII without [$] and [?], and those
    that may be written without quotes only letters, digits, blanks, quotes and [bare_signs]. *)
Definition deploy_literal (ds : DeployScript) : Prop :=
  Forall (all_chars quoted_char) [dp_OverlayIP ds; dp_NodeCertB64 ds; dp_NodeKeyB64 ds; dp_CACertB64 ds; dp_WGKeyB64 ds;
    dp_ControlPlane ds; dp_Region ds; dp_EndpointHost ds; dp_Protocol ds; dp_InterfaceName ds] ∧
  Forall (all_chars token_char) ([dp_TopologyName ds; dp_ContainerName ds; dp_Image ds; dp_Veth ds; dp_StorageRoot ds] ++ dp_DNS ds).

Lemma or_else_chars P v d : all_chars P v → all_chars P d → all_chars P (or_else v d).
Proof. intros Hv Hd. unfold or_else. case_bool_decide; [done|by apply all_chars_TrimSpace]. Qed.
(** The text of an argument: a given text, trimmed, with a default, or a literal. *)
Ltac arg_chars :=
  match goal with
  | H : all_chars ?P ?v |- all_chars ?P ?v => exact H
  | |- all_chars _ (TrimSpace _) => by auto using all_chars_TrimSpace, tokenable_quotable
  | |- all_chars _ (or_else _ _) => apply or_else_chars; [by auto using tokenable_quotable|literal_chars]
  | |- all_chars _ _ => literal_chars
  | |- _ => constructor
  end.
Lemma Itoa_quotable z : quotable (Itoa z).
Proof. eapply Forall_impl; [apply Itoa_chars|]. intros a. destruct a as [[] [] [] [] [] [] [] []]; vm_compute; congruence. Qed.

Lemma safe_char_bare a : safe_char a = true → bare_char a = true.
Proof. destruct a as [[] [] [] [] [] [] [] []]; vm_compute; congruence. Qed.
Lemma set_nonblank_keeps key value (m : gmap string string) k v : set_nonblank key value m !! k = Some v → (k = key ∧ v = TrimSpace value) ∨ m !! k = Some v.
Proof. unfold set_nonblank. case_bool_decide; [|by right]. intros Hl. apply lookup_insert_Some in Hl as [[<- <-]|[_ Hl]]; [by left|by right]. Qed.
Lemma deploy_env_entry ds k v : buildDeployEnvVars ds !! k = Some v →
  (k, v) ∈ [("MESH_WG_KEY_B64", TrimSpace (dp_WGKeyB64 ds)); ("MESH_CA_CERT_B64", TrimSpace (dp_CACertB64 ds)); ("MESH_NODE_KEY_B64", TrimSpace (dp_NodeKeyB64 ds));
    ("MESH_NODE_CERT_B64", TrimSpace (dp_NodeCertB64 ds)); ("MESH_TOKEN_HASH", TrimSpace (dp_TokenHash ds)); ("MESH_MODE", "clientd");
    ("MESH_NAME", TrimSpace (dp_TopologyName ds)); ("MESH_OVERLAY_IP", TrimSpace (dp_OverlayIP ds))].
Proof.
  unfold buildDeployEnvVars. intros H. do 4 (apply set_nonblank_keeps in H as [[-> ->]|H]; [set_solver|]).
  do 4 (apply lookup_insert_Some in H as [[<- <-]|[_ H]]; [set_solver|]). by rewrite lookup_empty in H.
Qed.

Context (IDKey : list ascii → list ascii → Z → Z → Z → nat → list ascii).
Context (IDKey_length : ∀ p s t m c n, length (IDKey p s t m c n) = n).

Lemma deploy_config_literal ds salt raw : length salt = argon2SaltLen → HashToken IDKey (Some salt) raw = Ok (dp_TokenHash ds) → deploy_literal ds →
  config_literal (container_config ds) ∧ TrimSpace (dp_TokenHash ds) = dp_TokenHash ds.
Proof using All.
  intros Hs Hh [Hq Ht]. rewrite !Forall_cons in Hq. destruct Hq as (Q1 & Q2 & Q3 & Q4 & Q5 & Q6 & Q7 & Q8 & Q9 & Q10 & _).
  apply Forall_app in Ht as [Ht Hdns]. rewrite !Forall_cons in Ht. destruct Ht as (T1 & T2 & T3 & T4 & T5 & _).
  destruct (hash_text salt (IDKey (to_bytes raw) salt argon2Iters argon2MemKB argon2Parallel argon2KeyLen) Hs (IDKey_length _ _ _ _ _ _)) as (Hlen & Hsafe & Htrim).
  injection Hh as Hh. rewrite Hh in Hsafe, Htrim, Hlen. split; [|done].
  assert (all_chars bare_char (dp_TokenHash ds)) as Hbare by (eapply Forall_impl; [exact Hsafe|apply safe_char_bare]).
  assert (quotable (dp_TokenHash ds)) as Hquot.
  { apply tokenable_quotable. eapply all_chars_impl; [|exact Hbare]. intros a Ha. unfold token_char. by rewrite Ha. }
  assert (bare_word (dp_TokenHash ds) = true) as Hword.
  { unfold bare_word. rewrite bool_decide_eq_false_2 by (intros E; by rewrite E in Hlen). apply forallb_forall. intros a Ha.
    unfold all_chars in Hbare. rewrite Forall_forall in Hbare. apply Hbare. by apply list_elem_of_In. }
  assert (tokenable (storage_root ds)) as Hroot by (unfold storage_root; case_bool_decide; [literal_chars|done]).
  split; cbn [container_config ct_Name ct_Image ct_Interface ct_RootDir ct_MountName ct_MountSrc ct_DNS ct_EnvVars ct_Command]; try done.
  - repeat (apply all_chars_app; [first [literal_chars|done]|]). by apply all_chars_ToLower.
  - apply all_chars_app; [done|literal_chars].
  - repeat (apply all_chars_app; [first [literal_chars|done|by apply all_chars_ToLower]|]). literal_chars.
  - intros k v Hkv%deploy_env_entry. rewrite !elem_of_cons in Hkv.
    repeat (destruct Hkv as [[= -> ->]|Hkv]; [split; [literal_chars|arg_chars]|]). by apply not_elem_of_nil in Hkv.
  - unfold buildClientCommand. case_bool_decide; [literal_chars|]. apply all_chars_join; [literal_chars|]. unfold client_args.
    rewrite !Forall_app. split; [|split].
    + rewrite !Forall_cons. split_and!; arg_chars.
    + destruct (0 <? dp_ListenPort ds); [|constructor]. rewrite !Forall_cons. split_and!; [literal_chars|apply Itoa_quotable|constructor].
    + case_bool_decide; [|constructor]. rewrite !Forall_cons. split_and!; [literal_chars|by apply all_chars_TrimSpace|constructor].
  - intros h Hl%deploy_env_entry. rewrite !elem_of_cons in Hl. repeat (destruct Hl as [E|Hl]; [injection E as E; try discriminate E; subst; by rewrite Htrim|]). by apply not_elem_of_nil in Hl.
Qed.

End Deploy.

(** ** A reader

    A reader of the literal subset, which has the law: anything else is not accepted. *)
Fixpoint plain_words (inside : bool) (cur l : list ascii) : option (list (list ascii)) :=
  match l with
  | [] => if inside then None else Some [cur]
  | a :: l1 =>
      if inside then
        if bool_decide (a = dquote) then plain_words false cur l1 else
        if bool_decide (a = bslash) then
          match l1 with
          | b :: l2 => if bool_decide (b = bslash) || bool_decide (b = dquote) then plain_words true (cur ++ [b]) l2 else None
          | [] => None
          end
        else if quoted_char a then plain_words true (cur ++ [a]) l1 else None
      else if bool_decide (a = " "%char) then (cur ::.) <$> plain_words false [] l1
      else if bool_decide (a = dquote) then plain_words true cur l1
      else if bare_char a then plain_words false (cur ++ [a]) l1 else None
  end.
Definition plain_line (s : string) : option (list string) := match plain_words false [] (to_bytes s) with Some ws => Some (map of_bytes ws) | None => None end.

Lemma plain_bare s : all_chars bare_char s → ∀ cur rest, plain_words false cur (to_bytes s ++ rest) = plain_words false (cur ++ to_bytes s) rest.
Proof.
  unfold all_chars. induction 1 as [|a l Ha Hl IH]; intros cur rest; cbn [app]; [by rewrite app_nil_r|].
  cbn [plain_words]. rewrite Ha. assert (a ≠ " "%char ∧ a ≠ dquote) as [H1 H2] by (split; intros ->; by vm_compute in Ha).
  rewrite !bool_decide_eq_false_2 by done. rewrite IH. by rewrite <- app_assoc.
Qed.
Lemma plain_quoted s : quotable s → ∀ cur rest, plain_words false cur (to_bytes (quoted_text s) ++ rest) = plain_words false (cur ++ to_bytes s) rest.
Proof.
  intros Hs cur rest. unfold quoted_text. rewrite to_of_bytes. cbn [app]. cbn [plain_words]. rewrite (bool_decide_eq_false_2 (dquote = " "%char)), (bool_decide_eq_true_2 (dquote = dquote)) by done.
  unfold all_chars in Hs. revert cur. induction Hs as [|a l Ha Hl IH]; intros cur; cbn [fmap list_fmap mjoin list_join app].
  - rewrite app_nil_r. reflexivity.
  - rewrite (cons_middle a cur l), (app_assoc cur), <- (IH (cur ++ [a])). rewrite <- (app_assoc (escape1 a)).
    unfold escape1. case_bool_decide as H1; [by subst a|]. case_bool_decide as H2; [by subst a|].
    cbn [app plain_words]. by rewrite (bool_decide_eq_false_2 (a = dquote)), (bool_decide_eq_false_2 (a = bslash)), Ha by done.
Qed.
Lemma plain_word w : word_ok w → ∀ cur rest, plain_words false cur (to_bytes (word_text w) ++ rest) = plain_words false (cur ++ to_bytes (word_value w)) rest.
Proof.
  intros [Hb Hq] cur rest. unfold word_text, word_value. rewrite !to_bytes_app, <- app_assoc, plain_bare by done.
  destruct (lw_quoted w) as [v|].
  - change (default "" (Some v)) with v. rewrite plain_quoted by done. by rewrite <- app_assoc.
  - change (to_bytes "") with (@nil ascii). by rewrite app_nil_r.
Qed.
#[export] Instance plain_reader : RouterOSReader plain_line.
Proof.
  split. intros ws Hne Hok. unfold plain_line. enough (plain_words false [] (to_bytes (join " " (word_text <$> ws))) = Some (to_bytes <$> (word_value <$> ws))) as ->.
  { f_equal. clear. induction ws as [|r rs IH]; cbn; [done|]. by rewrite of_to_bytes, IH. }
  induction Hok as [|w ws Hw Hok IH]; [done|]. destruct ws as [|w2 ws].
  - change (join " " (word_text <$> [w])) with (word_text w). rewrite <- (app_nil_r (to_bytes (word_text w))), plain_word by done. done.
  - change (join " " (word_text <$> w :: w2 :: ws)) with (word_text w +:+ " " +:+ join " " (word_text <$> w2 :: ws)). rewrite !to_bytes_app, plain_word by done.
    change (to_bytes " " ++ ?l) with (" "%char :: l). cbn [plain_words app]. rewrite (bool_decide_eq_true_2 (" "%char = " "%char)) by done.
    rewrite IH by done. done.
Qed.

Definition demo_deploy (token region name : string) : DeployScript :=
  MkDeployScript name "AWG_MESH_HOME" "" "img:1" "AWG_MESH_HOME" "" "10.7.0.9" "10.7.0.0/24" token "Y2VydA==" "a2V5" "Y2E=" "" "10.0.0.1:9090" region 51820 "" "" "" "7.21.4" ["1.1.1.1"] 0 "".
Definition demo_script : string := match HashToken padded_key (Some some_salt) "secret" with
  | Ok h => match GenerateDeployRSC (demo_deploy h "eu" "home") with Ok s => s | Err _ => "" end | Err _ => "" end.

(** *** What the quoting leaves alone *)

(** A value with a [$] is put between quotes as it is: the [$], which RouterOS expands also
    inside quotes, is not escaped. *)
Theorem dollar_not_escaped v : bslash ∉ to_bytes v → dquote ∉ to_bytes v →
  quoteRouterOSValue v = of_bytes ([dquote] ++ to_bytes v ++ [dquote]).
Proof.
  intros H1 H2. rewrite quote_text. unfold quoted_text. f_equal. f_equal. f_equal.
  induction (to_bytes v) as [|a l IH]; [done|]. apply not_elem_of_cons in H1 as [H1 H1'], H2 as [H2 H2'].
  rewrite fmap_cons. change (mjoin (?z :: ?x)) with (z ++ mjoin x). rewrite IH by done. unfold escape1.
  by rewrite !bool_decide_eq_false_2 by done.
Qed.
(** A token with a semicolon or a bracket, which end a command or begin a nested one, is
    written without quotes. *)
Theorem token_not_quoted : escapeRouterOSToken "a;b[c]" = "a;b[c]".
Proof. by vm_compute. Qed.

(** ** The container's command line *)

Definition word (s : string) : Prop := s ≠ "" ∧ Forall (λ a, plain a = true) (to_bytes s).
Lemma fields_go_plain w : Forall (λ a, plain a = true) w → ∀ cur rest, fields_go cur (w ++ rest) = fields_go (reverse w ++ cur) rest.
Proof.
  induction 1 as [|a w Ha Hw IH]; intros cur rest; [done|]. rewrite reverse_cons, <- app_assoc. cbn [app].
  rewrite <- IH. unfold plain in Ha. apply andb_prop in Ha as [H1 H2]. apply negb_true_iff in H1. cbn [fields_go]. rewrite H1.
  assert (∀ b, space2 a b = false) as E2 by (intros b; destruct (space2 a b) eqn:E; [apply space2_high in E; lia|done]).
  assert (∀ b c, space3 a b c = false) as E3 by (intros b c; destruct (space3 a b c) eqn:E; [apply space3_high in E; lia|done]).
  destruct (w ++ rest) as [|b l2]; [done|]. rewrite E2. destruct l2 as [|c l3]; [done|]. by rewrite E3.
Qed.
Lemma Fields_join ws : Forall word ws → Fields (join " " ws) = ws.
Proof.
  intros H. unfold Fields. enough (fields_go [] (to_bytes (join " " ws)) = to_bytes <$> ws) as ->.
  { clear. induction ws as [|w ws IH]; [done|]. rewrite !fmap_cons, of_to_bytes. by f_equal. }
  induction H as [|w ws [Hne Hw] H IH]; [done|].
  assert (to_bytes w ≠ []) as Hb by (intros E; apply Hne; rewrite <- (of_to_bytes w), E; done).
  assert (bool_decide (reverse (to_bytes w) = []) = false) as Hd.
  { apply bool_decide_eq_false. intros E. apply (f_equal reverse) in E. rewrite reverse_involutive in E. done. }
  destruct ws as [|w2 ws].
  - change (join " " [w]) with w. rewrite <- (app_nil_r (to_bytes w)) at 1. rewrite fields_go_plain, app_nil_r by done. cbn [fields_go]. rewrite Hd, reverse_involutive. done.
  - change (join " " (w :: w2 :: ws)) with (w +:+ " " +:+ join " " (w2 :: ws)). rewrite !to_bytes_app, fields_go_plain, app_nil_r by done.
    change (to_bytes " " ++ ?l) with (" "%char :: l). cbn [fields_go]. change (space1 " "%char) with true. cbn beta iota. rewrite Hd, reverse_involutive, IH. done.
Qed.
(** The command line splits into the intended arguments when each is one word. *)
Theorem client_command_args ds : TrimSpace (dp_ControlPlane ds) ≠ "" → Forall word (client_args ds) → Fields (buildClientCommand ds) = client_args ds.
Proof. intros Hc Hw. unfold buildClientCommand. rewrite bool_decide_eq_false_2 by done. by apply Fields_join. Qed.
(** Nothing requires that: a region of two words becomes a value and a stray argument. *)
Theorem region_splits : ∃ ds, validateDeployScript ds = Ok () ∧ Fields (buildClientCommand ds) ≠ client_args ds.
Proof. exists (demo_deploy "mesh1.x" "eu west" "home"). split; [by vm_compute|]. intros E. apply (f_equal length) in E. by vm_compute in E. Qed.
(** A line break in a node's name ends the comment it is put into: the rest is a command of its own. *)
Theorem name_breaks_line : ∃ ds script, GenerateDeployRSC ds = Ok script ∧ "system reboot" ∈ split_lines script.
Proof.
  set (ds := demo_deploy "mesh1.x" "eu" (of_bytes (to_bytes "home" ++ newline :: to_bytes "system reboot"))).
  destruct (GenerateDeployRSC ds) as [script|e] eqn:E; [|by vm_compute in E]. exists ds, script. split; [done|].
  enough (match GenerateDeployRSC ds with Ok s => bool_decide ("system reboot" ∈ split_lines s) | Err _ => false end = true) as H.
  { rewrite E in H. by apply bool_decide_eq_true in H. }
  by vm_compute.
Qed.

(** ** The virtual link *)

Lemma addr4_TrimSpace v : TrimSpace (addr4_string v) = addr4_string v.
Proof.
  apply TrimSpace_plain. eapply Forall_impl; [apply addr4_chars|]. intros a. destruct a as [[] [] [] [] [] [] [] []]; vm_compute; congruence.
Qed.
Lemma addr4_not_prefix v : ParsePrefix (addr4_string v) = None.
Proof.
  unfold ParsePrefix, cut_last_byte. assert ("/"%char ∉ reverse (to_bytes (addr4_string v))) as H by (rewrite elem_of_reverse; apply addr4_no_slash).
  enough (cut_byte "/" (reverse (to_bytes (addr4_string v))) = None) as -> by done. revert H. generalize (reverse (to_bytes (addr4_string v))).
  induction l as [|a l IH]; intros H; [done|]. apply not_elem_of_cons in H as [H1 H2]. cbn [cut_byte]. by rewrite bool_decide_eq_false_2, IH.
Qed.
Lemma addr4_nonempty v : addr4_string v ≠ "".
Proof.
  intros E. apply (f_equal to_bytes) in E. revert E. unfold addr4_string, join. cbn [octets fmap list_fmap String.concat]. rewrite !to_bytes_app.
  pose proof (Itoa_nonempty ((v / 256 ^ 3) mod 256)). destruct (to_bytes (Itoa _)); done.
Qed.
(** A gateway given as a plain IPv4 address that ends in 1 - as the documented default
    does - is also the address the container gets: the router and the container share it. *)
Theorem gateway_collides v : 0 ≤ v < 2 ^ 32 → v mod 256 = 1 →
  deriveVethAddressAndGateway (addr4_string v) = (addr4_string v +:+ "/24", addr4_string v) ∧ container_ip (addr4_string v) = addr4_string v.
Proof.
  intros Hv Hm. assert (deriveVethAddressAndGateway (addr4_string v) = (addr4_string v +:+ "/24", addr4_string v)) as E.
  { unfold deriveVethAddressAndGateway. rewrite addr4_TrimSpace, bool_decide_eq_false_2 by apply addr4_nonempty. rewrite addr4_not_prefix, ParseAddr_addr4_string by done.
    rewrite Hm. change (1 <? 1) with false. cbn beta iota. replace (v - 1 + 1) with v by lia. done. }
  split; [done|]. unfold container_ip, before_slash. rewrite E. cbn [fst]. rewrite to_bytes_app. change (to_bytes "/24") with ("/"%char :: to_bytes "24").
  rewrite cut_byte_app by apply addr4_no_slash. apply of_to_bytes.
Qed.
