(* ===== verification/RouterStatic.v ===== *)
(** * Native WireGuard on RouterOS ([src/pkg/mikrotik/v2])

    The script that makes a router a mesh client without a container: one WireGuard
    peer per master, and the overlay addresses of all other nodes spread over them. *)

From S2P Require Import Prelude GoStrings GoNet GoPath GoText Role TopologyV2 Ranges Topology Token WgTypes RouterOS RouterOSProofs DualListener PeerReload.

Definition DefaultInterfaceName : string := "awg-mesh".
Definition DefaultStaticListenPort : Z := 13231.
Definition defaultKeepaliveInterval : string := "25s".

Record RosPeer := MkRosPeer {
  rp_PeerName : string; rp_PublicKey : string; rp_EndpointAddress : string; rp_EndpointPort : Z; rp_AllowedIPs : list string;
  rp_PersistentKeepalive : string; rp_Comment : string
}.
Record StaticScript := MkStaticScript {
  ss_MeshName : string; ss_ClientName : string; ss_InterfaceName : string; ss_ListenPort : Z; ss_PrivateKey : string; ss_ClientAddress : string;
  ss_InterfaceComment : string; ss_AddressComment : string; ss_Peers : list RosPeer
}.
Inductive static_error :=
  | ErrStaticTopology | ErrStaticInvalid (e : v2_error) | ErrStaticPrivateKey | ErrStaticClientName | ErrStaticNotClient (name : string) | ErrStaticUndeclared (name : string)
  | ErrStaticPlatform (node platform : string) | ErrStaticOverlay (node ip : string) | ErrStaticProtocol (master protocol : string) | ErrStaticEndpoint (master : string)
  | ErrStaticNoMasters | ErrStaticMasterKey (master : string).

Definition hasRole (node : NodeV2) (want : string) : bool := existsb (λ r, bool_decide (r = want)) (n2_Roles node).
Definition nodeOverlayCIDR (node : NodeV2) : res static_error string :=
  match ParseAddr (TrimSpace (n2_OverlayIP node)) with
  | None => Err (ErrStaticOverlay (n2_Name node) (n2_OverlayIP node))
  | Some addr =>
      match addr_Prefix addr (match addr with Addr6 _ _ => 128 | _ => 32 end) with
      | None => Err (ErrStaticOverlay (n2_Name node) (n2_OverlayIP node))
      | Some prefix => Ok (prefix_String prefix)
      end
  end.
Definition masterEndpointAddress (master : NodeV2) : res static_error string :=
  if bool_decide (TrimSpace (n2_PublicIP master) ≠ "") then Ok (TrimSpace (n2_PublicIP master)) else
  if bool_decide (TrimSpace (n2_BridgeIP master) ≠ "") then Ok (TrimSpace (n2_BridgeIP master)) else Err (ErrStaticEndpoint (n2_Name master)).
Definition findClientNode (topo : TopologyV2) (clientName : string) : res static_error NodeV2 :=
  let trimmed := TrimSpace clientName in
  if bool_decide (trimmed = "") then Err ErrStaticClientName else
  match List.find (λ n, bool_decide (n2_Name n = trimmed)) (t2_Nodes topo) with
  | None => Err (ErrStaticUndeclared trimmed)
  | Some node => if negb (hasRole node RoleClient) then Err (ErrStaticNotClient trimmed) else Ok node
  end.

(** ** Peers and their addresses *)

Record peerBuilder := MkPeerBuilder { pb_peer : RosPeer; pb_seen : gset string }.
Definition set_allowed (ips : list string) (p : RosPeer) : RosPeer :=
  MkRosPeer (rp_PeerName p) (rp_PublicKey p) (rp_EndpointAddress p) (rp_EndpointPort p) ips (rp_PersistentKeepalive p) (rp_Comment p).
Definition addAllowedIP (cidr : string) (b : peerBuilder) : peerBuilder :=
  if bool_decide (cidr ∈ pb_seen b) then b else
  MkPeerBuilder (set_allowed (rp_AllowedIPs (pb_peer b) ++ [cidr]) (pb_peer b)) ({[cidr]} ∪ pb_seen b).
Record routeTarget := MkRouteTarget { rt_Name : string; rt_CIDR : string }.
(** [peerBuilders[i%len(peerBuilders)].addAllowedIP(target.CIDR)] for every target. *)
Fixpoint distribute (i : nat) (targets : list routeTarget) (builders : list peerBuilder) : list peerBuilder :=
  match targets with
  | [] => builders
  | t :: targets => distribute (S i) targets (alter (addAllowedIP (rt_CIDR t)) (i mod length builders)%nat builders)
  end.

Section Sorted.
(** [sort.Slice] by name; names may repeat. *)
Context (sort_masters : list NodeV2 → list NodeV2) {masters_sorted : SortSliceBy n2_Name sort_masters}.
Context (sort_targets : list routeTarget → list routeTarget) {targets_sorted : SortSliceBy rt_Name sort_targets}.

Definition collectMasterNodes (topo : TopologyV2) : res static_error (list NodeV2) :=
  let! masters := fold_res (λ _ acc node,
    if negb (hasRole node RoleMaster) then Ok acc else
    let protocol := TrimSpace (n2_ClientProtocol node) in
    if bool_decide (protocol ≠ "") && bool_decide (protocol ≠ vanilla_text) then Err (ErrStaticProtocol (n2_Name node) (n2_ClientProtocol node)) else
    let! _ := masterEndpointAddress node in Ok (acc ++ [node])) [] (t2_Nodes topo) in
  match masters with [] => Err ErrStaticNoMasters | _ => Ok (sort_masters masters) end.

Definition master_builder (masterPublicKeys : gmap string (list ascii)) (master : NodeV2) : res static_error peerBuilder :=
  match masterPublicKeys !! n2_Name master with
  | None => Err (ErrStaticMasterKey (n2_Name master))
  | Some publicKey =>
      if IsZero publicKey then Err (ErrStaticMasterKey (n2_Name master)) else
      let! endpoint := masterEndpointAddress master in
      let! allowed := nodeOverlayCIDR master in
      Ok (addAllowedIP allowed (MkPeerBuilder
        (MkRosPeer (n2_Name master) (key_String publicKey) endpoint DefaultClientListenPort [] defaultKeepaliveInterval ("awg-mesh: " +:+ n2_Name master +:+ " client-facing peer")) ∅))
  end.
Definition is_target (client node : NodeV2) : bool := negb (bool_decide (n2_Name node = n2_Name client) || hasRole node RoleMaster).
Definition route_targets (topo : TopologyV2) (client : NodeV2) : res static_error (list routeTarget) :=
  fold_res (λ _ acc node, if negb (is_target client node) then Ok acc else let! cidr := nodeOverlayCIDR node in Ok (acc ++ [MkRouteTarget (n2_Name node) cidr])) [] (t2_Nodes topo).
Definition finish_peer (b : peerBuilder) : RosPeer := set_allowed (sort_by id (rp_AllowedIPs (pb_peer b))) (pb_peer b).
Definition buildMasterPeers (topo : TopologyV2) (client : NodeV2) (masters : list NodeV2) (masterPublicKeys : gmap string (list ascii)) : res static_error (list RosPeer) :=
  let! builders := fold_res (λ _ acc m, let! b := master_builder masterPublicKeys m in Ok (acc ++ [b])) [] masters in
  let! targets := route_targets topo client in
  Ok (finish_peer <$> distribute 0 (sort_targets targets) builders).

Definition BuildStaticScript (topo : option TopologyV2) (clientName : string) (clientPrivateKey : list ascii) (masterPublicKeys : gmap string (list ascii)) : res static_error StaticScript :=
  match topo with
  | None => Err ErrStaticTopology
  | Some topo =>
      let! _ := wrap_err ErrStaticInvalid (ValidateV2 (Some topo)) in
      if IsZero clientPrivateKey then Err ErrStaticPrivateKey else
      let! client := findClientNode topo clientName in
      let platform := TrimSpace (n2_Platform client) in
      if bool_decide (platform ≠ "") && negb (EqualFold platform "mikrotik") then Err (ErrStaticPlatform (n2_Name client) (n2_Platform client)) else
      let! clientAddress := nodeOverlayCIDR client in
      let! masters := collectMasterNodes topo in
      let! peers := buildMasterPeers topo client masters masterPublicKeys in
      Ok (MkStaticScript (TrimSpace (mc_Name (t2_Mesh topo))) (n2_Name client) DefaultInterfaceName DefaultStaticListenPort (key_String clientPrivateKey) clientAddress
        ("awg-mesh: " +:+ n2_Name client +:+ " native WireGuard") ("awg-mesh: " +:+ n2_Name client +:+ " overlay address") peers)
  end.

Definition escapeRouterOSList (values : list string) : string := escapeRouterOSToken (join "," values).
Definition peer_line (s : StaticScript) (p : RosPeer) : string :=
  "/interface/wireguard/peers/add interface=" +:+ escapeRouterOSToken (ss_InterfaceName s) +:+ " public-key=" +:+ quoteRouterOSValue (rp_PublicKey p) +:+
  " endpoint-address=" +:+ escapeRouterOSToken (rp_EndpointAddress p) +:+ " endpoint-port=" +:+ Itoa (rp_EndpointPort p) +:+
  " allowed-address=" +:+ escapeRouterOSList (rp_AllowedIPs p) +:+ " persistent-keepalive=" +:+ escapeRouterOSToken (rp_PersistentKeepalive p) +:+
  " comment=" +:+ quoteRouterOSValue (rp_Comment p).
Definition renderStaticScript (s : StaticScript) : string :=
  unlines (["# awg-mesh v2 RouterOS native WireGuard client script"; "# Mesh: " +:+ ss_MeshName s; "# Client: " +:+ ss_ClientName s; "";
    "/interface/wireguard/add name=" +:+ escapeRouterOSToken (ss_InterfaceName s) +:+ " listen-port=" +:+ Itoa (ss_ListenPort s) +:+
      " private-key=" +:+ quoteRouterOSValue (ss_PrivateKey s) +:+ " comment=" +:+ quoteRouterOSValue (ss_InterfaceComment s);
    "";
    "/ip/address/add address=" +:+ escapeRouterOSToken (ss_ClientAddress s) +:+ " interface=" +:+ escapeRouterOSToken (ss_InterfaceName s) +:+
      " comment=" +:+ quoteRouterOSValue (ss_AddressComment s)] ++
   mjoin ((λ p, [""; peer_line s p]) <$> ss_Peers s)).
Definition GenerateStaticRSC (topo : option TopologyV2) (clientName : string) (clientPrivateKey : list ascii) (masterPublicKeys : gmap string (list ascii)) : res static_error string :=
  let! script := BuildStaticScript topo clientName clientPrivateKey masterPublicKeys in Ok (renderStaticScript script).
End Sorted.

(** ** Where the addresses go *)

Definition builder_wf (b : peerBuilder) : Prop := (∀ c, c ∈ pb_seen b ↔ c ∈ rp_AllowedIPs (pb_peer b)) ∧ NoDup (rp_AllowedIPs (pb_peer b)).
Lemma addAllowedIP_spec c b : builder_wf b → builder_wf (addAllowedIP c b) ∧ rp_PeerName (pb_peer (addAllowedIP c b)) = rp_PeerName (pb_peer b) ∧
  rp_PublicKey (pb_peer (addAllowedIP c b)) = rp_PublicKey (pb_peer b) ∧
  ∀ x, x ∈ rp_AllowedIPs (pb_peer (addAllowedIP c b)) ↔ x = c ∨ x ∈ rp_AllowedIPs (pb_peer b).
Proof.
  intros [Hs Hn]. unfold addAllowedIP. case_bool_decide as Hc.
  - split; [by split|]. split; [done|]. split; [done|]. intros x. split; [auto|]. intros [-> |Hx]; [by apply Hs|done].
  - unfold builder_wf. cbn [pb_peer pb_seen set_allowed rp_AllowedIPs rp_PeerName rp_PublicKey]. split; [split|split; [done|split; [done|]]].
    + intros x. rewrite elem_of_union, elem_of_singleton, elem_of_app, list_elem_of_singleton, Hs. tauto.
    + apply NoDup_app. split; [done|]. split; [|apply NoDup_singleton]. intros x Hx E%list_elem_of_singleton. subst x. by apply Hc, Hs.
    + intros x. rewrite elem_of_app, list_elem_of_singleton. tauto.
Qed.
Lemma distribute_spec ts : ∀ i bs k b', Forall builder_wf bs → distribute i ts bs !! k = Some b' →
  ∃ b, bs !! k = Some b ∧ builder_wf b' ∧ rp_PeerName (pb_peer b') = rp_PeerName (pb_peer b) ∧ rp_PublicKey (pb_peer b') = rp_PublicKey (pb_peer b) ∧
    ∀ c, c ∈ rp_AllowedIPs (pb_peer b') ↔ c ∈ rp_AllowedIPs (pb_peer b) ∨ ∃ j t, ts !! j = Some t ∧ ((i + j) mod length bs)%nat = k ∧ c = rt_CIDR t.
Proof.
  induction ts as [|t ts IH]; intros i bs k b' Hwf Hk; cbn [distribute] in Hk.
  { exists b'. rewrite Forall_lookup in Hwf. split_and!; [done|by eapply Hwf|done|done|]. intros c. split; [auto|]. intros [?|(j & t & Ht & _)]; [done|by rewrite lookup_nil in Ht]. }
  set (m := (i mod length bs)%nat) in *. set (bs1 := alter (addAllowedIP (rt_CIDR t)) m bs) in *.
  assert (length bs1 = length bs) as Hlen by apply length_alter.
  assert (Forall builder_wf bs1) as Hwf1.
  { apply Forall_lookup. intros q b Hq. rewrite Forall_lookup in Hwf. unfold bs1 in Hq. destruct (decide (q = m)) as [->|Hne].
    - rewrite list_lookup_alter_eq in Hq. apply fmap_Some in Hq as (b0 & Hb0 & ->). apply addAllowedIP_spec. by eapply Hwf.
    - rewrite list_lookup_alter_ne in Hq by done. by eapply Hwf. }
  destruct (IH (S i) bs1 k b' Hwf1 Hk) as (b1 & Hb1 & Hw & Hn & Hp & Hc). rewrite Hlen in Hc.
  assert (∀ P : nat → routeTarget → Prop, (∃ j x, (t :: ts) !! j = Some x ∧ P j x) ↔ P 0%nat t ∨ ∃ j x, ts !! j = Some x ∧ P (S j) x) as Hsplit.
  { intros P. split.
    - intros ([|j] & x & Hx & HP); [injection Hx as ->; by left|right; eauto].
    - intros [HP|(j & x & Hx & HP)]; [by exists 0%nat, t|by exists (S j), x]. }
  rewrite Forall_lookup in Hwf. unfold bs1 in Hb1. destruct (decide (k = m)) as [->|Hne].
  - rewrite list_lookup_alter_eq in Hb1. apply fmap_Some in Hb1 as (b & Hb & ->). exists b.
    destruct (addAllowedIP_spec (rt_CIDR t) b) as (_ & Hn1 & Hp1 & Hin); [by eapply Hwf|]. split_and!; [done|done|congruence|congruence|].
    intros c. rewrite Hc, Hin, (Hsplit (λ j x, ((i + j) mod length bs)%nat = m ∧ c = rt_CIDR x)).
    rewrite Nat.add_0_r. setoid_rewrite <- Nat.add_succ_comm. unfold m. tauto.
  - rewrite list_lookup_alter_ne in Hb1 by done. exists b1. split_and!; [done..|]. intros c. rewrite Hc, (Hsplit (λ j x, ((i + j) mod length bs)%nat = k ∧ c = rt_CIDR x)).
    rewrite Nat.add_0_r. setoid_rewrite <- Nat.add_succ_comm. unfold m in Hne. split; [tauto|]. intros [?|[[? _]|?]]; [auto|congruence|auto].
Qed.
Lemma distribute_length ts : ∀ i bs, length (distribute i ts bs) = length bs.
Proof. induction ts as [|t ts IH]; intros i bs; cbn [distribute]; [done|]. by rewrite IH, length_alter. Qed.

(** *** Loops that collect *)

Lemma collect_masters (nodes out : list NodeV2) :
  fold_res (λ _ acc node,
    if negb (hasRole node RoleMaster) then Ok acc else
    let protocol := TrimSpace (n2_ClientProtocol node) in
    if bool_decide (protocol ≠ "") && bool_decide (protocol ≠ vanilla_text) then Err (ErrStaticProtocol (n2_Name node) (n2_ClientProtocol node)) else
    let! _ := masterEndpointAddress node in Ok (acc ++ [node])) [] nodes = Ok out → out = filter (λ n, hasRole n RoleMaster = true) nodes.
Proof.
  intros H. revert H. apply (fold_res_ind _ (λ l out, out = filter (λ n, hasRole n RoleMaster = true) l)); [done|].
  intros i l acc x acc' -> Hs. rewrite filter_app, filter_cons, filter_nil. destruct (hasRole x RoleMaster) eqn:Er; cbn [negb] in Hs.
  - cbn zeta in Hs. inv_res. rewrite decide_True by done. done.
  - injection Hs as <-. rewrite decide_False by done. by rewrite app_nil_r.
Qed.
Lemma collect_targets (client : NodeV2) (nodes : list NodeV2) (out : list routeTarget) :
  fold_res (λ _ acc node, if negb (is_target client node) then Ok acc else let! cidr := nodeOverlayCIDR node in Ok (acc ++ [MkRouteTarget (n2_Name node) cidr])) [] nodes = Ok out →
  Forall2 (λ n t, nodeOverlayCIDR n = Ok (rt_CIDR t)) (filter (λ n, is_target client n = true) nodes) out.
Proof.
  intros H. revert H. apply (fold_res_ind _ (λ l out, Forall2 (λ n t, nodeOverlayCIDR n = Ok (rt_CIDR t)) (filter (λ n, is_target client n = true) l) out)); [constructor|].
  intros i l acc x acc' Hacc Hs. rewrite filter_app, filter_cons, filter_nil. destruct (is_target client x) eqn:Er; cbn [negb] in Hs.
  - inv_res. rewrite decide_True by done. apply Forall2_app; [done|]. apply Forall2_cons. split; [done|constructor].
  - injection Hs as <-. rewrite decide_False by done. by rewrite app_nil_r.
Qed.
Lemma collect_builders (keys : gmap string (list ascii)) (masters : list NodeV2) (out : list peerBuilder) :
  fold_res (λ _ acc m, let! b := master_builder keys m in Ok (acc ++ [b])) [] masters = Ok out →
  Forall2 (λ m b, master_builder keys m = Ok b) masters out.
Proof.
  intros H. revert H. apply (fold_res_ind _ (Forall2 (λ m b, master_builder keys m = Ok b))); [constructor|].
  intros i l acc x acc' Hacc Hs. inv_res. apply Forall2_app; [done|]. apply Forall2_cons. split; [done|constructor].
Qed.
Lemma master_builder_spec keys m b : master_builder keys m = Ok b →
  builder_wf b ∧ rp_PeerName (pb_peer b) = n2_Name m ∧ ∃ c, nodeOverlayCIDR m = Ok c ∧ rp_AllowedIPs (pb_peer b) = [c].
Proof.
  unfold master_builder. destruct (keys !! n2_Name m) as [k|]; [|done]. destruct (IsZero k); [done|]. intros H. inv_res.
  match goal with |- builder_wf (addAllowedIP ?c ?b0) ∧ _ => destruct (addAllowedIP_spec c b0) as (H1 & H2 & _ & _) end.
  { split; [set_solver|apply NoDup_nil_2]. }
  split_and!; [done|done|]. eexists. split; [done|]. unfold addAllowedIP. by rewrite bool_decide_eq_false_2.
Qed.

Definition cidr_of (n : NodeV2) : string := match nodeOverlayCIDR n with Ok c => c | Err _ => "" end.

Section Routes.
Context (sort_masters : list NodeV2 → list NodeV2) {masters_sorted : SortSliceBy n2_Name sort_masters}.
Context (sort_targets : list routeTarget → list routeTarget) {targets_sorted : SortSliceBy rt_Name sort_targets}.
Notation build := (BuildStaticScript sort_masters sort_targets).

(** What a script was built from. *)
Record built (topo : TopologyV2) (client : NodeV2) (masters : list NodeV2) (targets : list routeTarget) (s : StaticScript) : Prop := {
  bt_masters : masters ≡ₚ filter (λ n, hasRole n RoleMaster = true) (t2_Nodes topo);
  bt_nonempty : masters ≠ [];
  bt_targets : rt_CIDR <$> targets ≡ₚ cidr_of <$> filter (λ n, is_target client n = true) (t2_Nodes topo);
  bt_ok : Forall (λ n, is_target client n = true → nodeOverlayCIDR n = Ok (cidr_of n)) (t2_Nodes topo);
  bt_length : length (ss_Peers s) = length masters;
  bt_peer : ∀ i m, masters !! i = Some m → ∃ p, ss_Peers s !! i = Some p ∧ rp_PeerName p = n2_Name m ∧ nodeOverlayCIDR m = Ok (cidr_of m) ∧
    NoDup (rp_AllowedIPs p) ∧
    ∀ c, c ∈ rp_AllowedIPs p ↔ c = cidr_of m ∨ ∃ j t, targets !! j = Some t ∧ (j mod length masters)%nat = i ∧ c = rt_CIDR t
}.
Lemma script_built topo name key keys s : build (Some topo) name key keys = Ok s →
  ∃ client masters targets, findClientNode topo name = Ok client ∧ collectMasterNodes sort_masters topo = Ok masters ∧ built topo client masters targets s.
Proof using masters_sorted targets_sorted.
  intros H. unfold BuildStaticScript in H. cbn beta iota in H. inv_res.
  match goal with Hc : findClientNode _ _ = Ok ?c, Hm : collectMasterNodes _ _ = Ok ?ms, Hb : buildMasterPeers _ _ _ _ _ = Ok ?ps |- _ =>
    rename c into client, ms into masters, ps into peers, Hm into Hmasters, Hb into Hpeers end.
  unfold buildMasterPeers in Hpeers. inv_res.
  match goal with Hb : fold_res _ [] masters = Ok ?bs, Ht : route_targets _ _ = Ok ?ts |- _ => rename bs into builders, ts into targets, Hb into Hbuild, Ht into Htarg end.
  apply collect_builders in Hbuild. apply collect_targets in Htarg. exists client, masters, (sort_targets targets). split; [done|]. split; [done|].
  assert (masters ≡ₚ filter (λ n, hasRole n RoleMaster = true) (t2_Nodes topo) ∧ masters ≠ []) as [Hperm Hmne].
  { clear -Hmasters masters_sorted. unfold collectMasterNodes in Hmasters. destruct (fold_res _ _ _) as [found|e] eqn:Ef; [|done]. apply collect_masters in Ef.
    cbn [res_bind] in Hmasters. destruct found as [|n l]; [done|]. injection Hmasters as <-. rewrite <- Ef. split; [apply slice_by_perm|].
    intros E. pose proof (slice_by_perm (key := n2_Name) (sorter := sort_masters) (n :: l)) as Hp. rewrite E in Hp. by apply Permutation_nil in Hp. }
  assert (Forall builder_wf builders) as Hwf.
  { apply Forall_lookup. intros i b Hi. eapply Forall2_lookup_r in Hbuild as (m & _ & Hm); [|exact Hi]. by destruct (master_builder_spec _ _ _ Hm). }
  assert (length builders = length masters) as Hlen by (symmetry; by eapply Forall2_length).
  assert (∀ (l : list NodeV2) ts, Forall2 (λ n t, nodeOverlayCIDR n = Ok (rt_CIDR t)) l ts → rt_CIDR <$> ts = cidr_of <$> l ∧ Forall (λ n, nodeOverlayCIDR n = Ok (cidr_of n)) l) as Hcid.
  { induction 1 as [|n t l ts Hnt _ IH]; [split; [done|constructor]|]. destruct IH as [IH1 IH2]. unfold cidr_of at 1. rewrite !fmap_cons. unfold cidr_of at 1. rewrite Hnt, IH1.
    split; [done|]. constructor; [|done]. unfold cidr_of. by rewrite Hnt. }
  destruct (Hcid _ _ Htarg) as [Hc1 Hc2]. split.
  - done.
  - done.
  - rewrite <- Hc1. apply Permutation_map. apply slice_by_perm.
  - apply Forall_forall. intros n Hn Ht. rewrite Forall_forall in Hc2. apply Hc2. by apply list_elem_of_filter.
  - cbn [ss_Peers]. by rewrite length_fmap, distribute_length.
  - intros i m Hi. cbn [ss_Peers]. eapply Forall2_lookup_l in Hbuild as (b & Hb & Hmb); [|exact Hi]. apply master_builder_spec in Hmb as (_ & Hname & c & Hcm & Hall).
    assert (is_Some (distribute 0 (sort_targets targets) builders !! i)) as [b' Hb'].
    { apply lookup_lt_is_Some. rewrite distribute_length, Hlen. by eapply lookup_lt_Some. }
    destruct (distribute_spec _ _ _ _ _ Hwf Hb') as (b0 & Hb0 & [_ Hnd] & Hn & _ & Hin). rewrite Hb0 in Hb. injection Hb as ->.
    exists (finish_peer b'). rewrite list_lookup_fmap, Hb'. split_and!; [done|cbn; congruence|unfold cidr_of; by rewrite Hcm| |].
    + cbn. by rewrite sort_by_perm.
    + intros x. cbn. rewrite sort_by_elem_of, Hin, Hall, list_elem_of_singleton, Hlen. unfold cidr_of. rewrite Hcm. done.
Qed.

End Routes.

(** The line of a peer says what the peer is, to every reader of literal text, when its
    values are literal text ([RouterOSProofs]). *)
Definition peer_literal (p : RosPeer) : Prop := quotable (rp_PublicKey p) ∧ tokenable (rp_EndpointAddress p) ∧ Forall (all_chars token_char) (rp_AllowedIPs p) ∧ tokenable (rp_PersistentKeepalive p) ∧ quotable (rp_Comment p).
Theorem peer_line_reads ros_line `{!RouterOSReader ros_line} s p : tokenable (ss_InterfaceName s) → peer_literal p →
  ros_line (peer_line s p) = Some ["/interface/wireguard/peers/add"; "interface=" +:+ TrimSpace (ss_InterfaceName s); "public-key=" +:+ rp_PublicKey p;
    "endpoint-address=" +:+ TrimSpace (rp_EndpointAddress p); "endpoint-port=" +:+ Itoa (rp_EndpointPort p); "allowed-address=" +:+ TrimSpace (join "," (rp_AllowedIPs p));
    "persistent-keepalive=" +:+ TrimSpace (rp_PersistentKeepalive p); "comment=" +:+ rp_Comment p].
Proof.
  intros Hi (Hk & He & Ha & Hp & Hc).
  erewrite <- (line_reads ros_line ["/interface/wireguard/peers/add"; "interface=" +:+ escapeRouterOSToken (ss_InterfaceName s); "public-key=" +:+ quoteRouterOSValue (rp_PublicKey p);
    "endpoint-address=" +:+ escapeRouterOSToken (rp_EndpointAddress p); "endpoint-port=" +:+ Itoa (rp_EndpointPort p); "allowed-address=" +:+ escapeRouterOSList (rp_AllowedIPs p);
    "persistent-keepalive=" +:+ escapeRouterOSToken (rp_PersistentKeepalive p); "comment=" +:+ quoteRouterOSValue (rp_Comment p)]); [|done|].
  - reflexivity.
  - assert (reads (Itoa (rp_EndpointPort p)) (Itoa (rp_EndpointPort p))) as Hport.
    { apply reads_word. unfold bare_word. rewrite bool_decide_eq_false_2 by (intros E; apply (Itoa_nonempty (rp_EndpointPort p)); by rewrite E).
      apply forallb_forall. intros a Ha'. apply list_elem_of_In in Ha'. pose proof (Itoa_chars (rp_EndpointPort p)) as Hch. rewrite Forall_forall in Hch.
      specialize (Hch a Ha'). revert Hch. destruct a as [[] [] [] [] [] [] [] []]; vm_compute; congruence. }
    repeat (apply Forall2_cons; split); [by apply reads_word|by apply reads_tok|by apply reads_attr; [|apply reads_quote]|by apply reads_tok|by apply reads_attr| |by apply reads_tok|by apply reads_attr; [|apply reads_quote]|constructor].
    apply reads_tok; [done|]. apply all_chars_join; [literal_chars|done].
Qed.

(** ** Examples *)

Definition demo_node (name ip public : string) (roles : list string) : NodeV2 := MkNodeV2 name roles ip "" public 0 "" "" "" "" "" "" "".
Definition demo_topo (a b : string) : TopologyV2 :=
  MkTopologyV2 SchemaV2 (MkMeshConfig "demo" "fd00::/64" [])
    [demo_node "home" "fd00::100" "" [RoleClient]; demo_node "m1" "fd00::11" "192.0.2.1" [RoleMaster]; demo_node "m2" "fd00::12" "192.0.2.2" [RoleMaster; RoleEgress];
     demo_node "e1" a "" [RoleEgress]; demo_node "e2" b "" [RoleEgress]] [] (MkRotation "" "" "" "") (MkCapture "" "" 0) (MkObservability 0 0 "" "").
Definition demo_keys : gmap string (list ascii) := <["m1" := sample_key]> (<["m2" := sample_key]> ∅).
Definition demo_build (a b : string) : res static_error StaticScript := BuildStaticScript (sort_by n2_Name) (sort_by rt_Name) (Some (demo_topo a b)) "home" sample_key demo_keys.
Definition demo_static : StaticScript := match demo_build "fd00::1" "fd00::2" with Ok s => s | Err _ => MkStaticScript "" "" "" 0 "" "" "" "" [] end.
(** The validator compares the texts of overlay addresses: two nodes with one IPv6 address
    written in two ways pass, and two peers get the same address. *)
Theorem alias_in_two_peers : match demo_build "fd00::1" "fd00:0::1" with
  | Ok s => rp_AllowedIPs <$> ss_Peers s = [["fd00::1/128"; "fd00::11/128"]; ["fd00::1/128"; "fd00::12/128"]] | Err _ => False end.
Proof. vm_compute. reflexivity. Qed.
