(* ===== verification/TlsFiles.v ===== *)
(** * TLS material ([src/pkg/tls/ca.go], [cert.go])

    The certificate authority of the mesh and the certificates it issues: templates,
    files, checks. PEM, X.509 and the signatures are a class of operations with the
    laws the code relies on; the random source and the clock are arguments. Every key is
    an ECDSA key. *)

From S2P Require Import Prelude GoStrings GoNet GoPath GoText GoFiles Ledger Registry CertLifecycle Token FileScript.

Definition Minute : Z := 60 * Second.
Definition certificateValidityBackdate : Z := Minute.

(** [*x509.Certificate]: the encoded bytes and what the code reads of them. *)
Record x509_Certificate := MkX509 { x_Raw : string; x_Cert : Certificate }.
Inductive KeyUsage := KeyUsageDigitalSignature | KeyUsageCertSign | KeyUsageCRLSign.
Inductive ExtKeyUsage := ExtKeyUsageClientAuth | ExtKeyUsageServerAuth.
(** The template of [x509.CreateCertificate]; [BasicConstraintsValid] is set with [IsCA]. *)
Record template := MkTemplate {
  tm_SerialNumber : Z; tm_CommonName : string; tm_NotBefore : time; tm_NotAfter : time; tm_IsCA : bool;
  tm_KeyUsage : list KeyUsage; tm_ExtKeyUsage : list ExtKeyUsage; tm_DNSNames : list string; tm_IPAddresses : list Z }.
(** The certificate made from it: X.509 keeps whole seconds. *)
Definition cert_of (tm : template) : Certificate :=
  MkCert (tm_CommonName tm) (tm_NotBefore tm - tm_NotBefore tm mod Second) (tm_NotAfter tm - tm_NotAfter tm mod Second) (tm_DNSNames tm) (tm_IPAddresses tm).

Inductive tls_error :=
  | ErrTlsGenerateKey | ErrTlsSerial | ErrTlsCreate | ErrTlsParse | ErrTlsValidity | ErrTlsMarshal
  | ErrTlsDir | ErrTlsWrite (file : string) | ErrTlsRead (file : string) | ErrTlsNoPEM (file : string)
  | ErrTlsParseFile (file : string) | ErrTlsKeyPair | ErrTlsNoCACert | ErrTlsVerify.
#[global] Instance tls_error_eq_dec : EqDecision tls_error.
Proof. solve_decision. Defined.

(** [encoding/pem], [crypto/x509], [crypto/tls]. A parent of [None] is the template itself;
    keys stand for their public halves too. *)
Class X509 := {
  PrivKey : Type;
  pem_Encode : string → string → string;
  pem_Decode : string → option string;
  ParseCertificate : string → option Certificate;
  CreateCertificate : template → option x509_Certificate → PrivKey → PrivKey → option string;
  MarshalECPrivateKey : PrivKey → option string;
  ParseECPrivateKey : string → option PrivKey;
  X509KeyPair : string → string → bool;
  AppendCertsFromPEM : string → bool;
  Verify : time → string → string → bool }.
Definition valid_at (now : time) (c : Certificate) : Prop := crt_NotBefore c ≤ now ≤ crt_NotAfter c.
(** What their documentation says of values they made themselves. A chain is accepted
    when its root is a CA whose key usage allows it to sign certificates and both
    certificates are valid at the time. *)
Class X509Laws `{X509} : Prop := {
  pem_law ty b : pem_Decode (pem_Encode ty b) = Some b;
  key_law k d : MarshalECPrivateKey k = Some d → ParseECPrivateKey d = Some k;
  create_law tm p k s der : CreateCertificate tm p k s = Some der → ParseCertificate der = Some (cert_of tm);
  pair_law tm p k s der d : CreateCertificate tm p k s = Some der → MarshalECPrivateKey k = Some d →
    X509KeyPair (pem_Encode "CERTIFICATE" der) (pem_Encode "EC PRIVATE KEY" d) = true;
  pool_law der c : ParseCertificate der = Some c → AppendCertsFromPEM (pem_Encode "CERTIFICATE" der) = true;
  verify_law ca tm k s root der now : tm_IsCA ca = true → KeyUsageCertSign ∈ tm_KeyUsage ca → CreateCertificate ca None s s = Some root →
    CreateCertificate tm (Some (MkX509 root (cert_of ca))) k s = Some der →
    valid_at now (cert_of ca) → valid_at now (cert_of tm) → Verify now root der = true }.

Section Issue.
Context {X : X509}.
(** What the random source and the clock give one call. *)
Record draws := MkDraws { dr_key : option PrivKey; dr_serial : option Z; dr_now : time }.

Definition ca_template (commonName : string) (serial : Z) (now : time) : template :=
  MkTemplate serial commonName (now - certificateValidityBackdate) (now + 10 * 365 * 24 * Hour) true [KeyUsageCertSign; KeyUsageCRLSign] [] [] [].
Definition GenerateCA (dr : draws) (commonName : string) : res tls_error (x509_Certificate * PrivKey) :=
  let! key := from_option Ok (Err ErrTlsGenerateKey) (dr_key dr) in
  let! serial := from_option Ok (Err ErrTlsSerial) (dr_serial dr) in
  let! certDER := from_option Ok (Err ErrTlsCreate) (CreateCertificate (ca_template commonName serial (dr_now dr)) None key key) in
  let! cert := from_option Ok (Err ErrTlsParse) (ParseCertificate certDER) in
  Ok (MkX509 certDER cert, key).

(** A host is an address or a name. *)
Definition add_host (st : list Z * list string) (h : string) : list Z * list string :=
  match ParseIP h with Some ip => (st.1 ++ [ip], st.2) | None => (st.1, st.2 ++ [h]) end.
Definition node_template (commonName : string) (hosts : list string) (validFor serial : Z) (now : time) : template :=
  let '(ips, names) := foldl add_host ([], []) hosts in
  MkTemplate serial commonName (now - certificateValidityBackdate) (now + validFor) false [KeyUsageDigitalSignature] [ExtKeyUsageClientAuth; ExtKeyUsageServerAuth] names ips.
Definition IssueCertWithValidity (dr : draws) (caCert : x509_Certificate) (caKey : PrivKey) (commonName : string) (hosts : list string) (validFor : Z) : res tls_error (string * string) :=
  if validFor <=? 0 then Err ErrTlsValidity else
  let! key := from_option Ok (Err ErrTlsGenerateKey) (dr_key dr) in
  let! serial := from_option Ok (Err ErrTlsSerial) (dr_serial dr) in
  let! certDER := from_option Ok (Err ErrTlsCreate) (CreateCertificate (node_template commonName hosts validFor serial (dr_now dr)) (Some caCert) key caKey) in
  let certPEM := pem_Encode "CERTIFICATE" certDER in
  let! keyDER := from_option Ok (Err ErrTlsMarshal) (MarshalECPrivateKey key) in
  Ok (certPEM, pem_Encode "EC PRIVATE KEY" keyDER).
Definition IssueCert (dr : draws) (caCert : x509_Certificate) (caKey : PrivKey) (commonName : string) (hosts : list string) : res tls_error (string * string) :=
  IssueCertWithValidity dr caCert caKey commonName hosts (365 * 24 * Hour).

Definition EncodeCertPEM (cert : x509_Certificate) : string := pem_Encode "CERTIFICATE" (x_Raw cert).
Definition ValidateCert (now : time) (certPEM : string) (caCert : x509_Certificate) : res tls_error unit :=
  let! bytes := from_option Ok (Err (ErrTlsNoPEM "")) (pem_Decode certPEM) in
  let! _ := from_option Ok (Err ErrTlsParse) (ParseCertificate bytes) in
  if Verify now (x_Raw caCert) bytes then Ok () else Err ErrTlsVerify.
Definition CertInfo (certPEM : string) : res tls_error (string * time) :=
  let! bytes := from_option Ok (Err (ErrTlsNoPEM "")) (pem_Decode certPEM) in
  let! cert := from_option Ok (Err ErrTlsParse) (ParseCertificate bytes) in
  Ok (crt_CommonName cert, crt_NotAfter cert).
End Issue.

(** ** Files *)

Section Files.
Context {X : X509} (ans : nat → answer) (others : nat → tree → tree).

Definition SaveCA (dir : string) (cert : x509_Certificate) (key : PrivKey) : FS tls_error unit :=
  then! fs_call ans others (λ a, os_MkdirAll a dir) ErrTlsDir;
  then! fs_call ans others (λ a, os_WriteFile a (path_Join [dir; "ca.crt"]) (EncodeCertPEM cert)) (ErrTlsWrite "ca.crt");
  do! keyDER := fs_lift (from_option Ok (Err ErrTlsMarshal) (MarshalECPrivateKey key)) in
  fs_call ans others (λ a, os_WriteFile a (path_Join [dir; "ca.key"]) (pem_Encode "EC PRIVATE KEY" keyDER)) (ErrTlsWrite "ca.key").

Definition read_or (path : string) (e : tls_error) : FS tls_error string :=
  do! r := fs_read ans others path in match r with RBody body => fs_ret body | _ => fs_fail e end.
Definition LoadCA (dir : string) : FS tls_error (x509_Certificate * PrivKey) :=
  do! certPEM := read_or (path_Join [dir; "ca.crt"]) (ErrTlsRead "ca.crt") in
  do! block := fs_lift (from_option Ok (Err (ErrTlsNoPEM "ca.crt")) (pem_Decode certPEM)) in
  do! cert := fs_lift (from_option Ok (Err (ErrTlsParseFile "ca.crt")) (ParseCertificate block)) in
  do! keyPEM := read_or (path_Join [dir; "ca.key"]) (ErrTlsRead "ca.key") in
  do! keyBlock := fs_lift (from_option Ok (Err (ErrTlsNoPEM "ca.key")) (pem_Decode keyPEM)) in
  do! key := fs_lift (from_option Ok (Err (ErrTlsParseFile "ca.key")) (ParseECPrivateKey keyBlock)) in
  fs_ret (MkX509 block cert, key).

Definition SaveCertKey (dir certPEM keyPEM : string) : FS tls_error unit :=
  then! fs_call ans others (λ a, os_MkdirAll a dir) ErrTlsDir;
  then! fs_call ans others (λ a, os_WriteFile a (path_Join [dir; "node.crt"]) certPEM) (ErrTlsWrite "node.crt");
  fs_call ans others (λ a, os_WriteFile a (path_Join [dir; "node.key"]) keyPEM) (ErrTlsWrite "node.key").
(** The result stands for the [tls.Certificate] made of the two texts. *)
Definition LoadCertKey (dir : string) : FS tls_error (string * string) :=
  do! certPEM := read_or (path_Join [dir; "node.crt"]) ErrTlsKeyPair in
  do! keyPEM := read_or (path_Join [dir; "node.key"]) ErrTlsKeyPair in
  if X509KeyPair certPEM keyPEM then fs_ret (certPEM, keyPEM) else fs_fail ErrTlsKeyPair.
(** The result stands for the pool with the certificates of the text. *)
Definition LoadCACert (path : string) : FS tls_error string :=
  do! data := read_or path (ErrTlsRead path) in
  if AppendCertsFromPEM data then fs_ret data else fs_fail ErrTlsNoCACert.
End Files.
