(* ===== verification/NodeCmd.v ===== *)
(** * The node commands of mesh-ctl
    ([src/cmd/mesh-ctl/cmd/node.go], [node_mikrotik.go], [onboarding.go], [controlplane_client.go], [topology.go])

    [node prepare] makes the certificate authority, a certificate, a token and keys of a
    declared node; [node init] registers the prepared node with the control plane;
    [node remove] decommissions it; [node list] lists the declared nodes. Scripts over
    the file tree; the control plane is the modelled server. *)

From S2P Require Import Prelude GoStrings GoNet GoPath GoText Role Ranges TopologyV2 Topology Migrate WgTypes DualListener Ledger Registry CertLifecycle Server ClientCommand RouterOS RouterStatic.
From S2P Require Import GoFiles Token FileScript KeyFiles TlsFiles.

Definition topologyOutputHuman : string := "human".
Definition topologyOutputJSON : string := "json".
Definition defaultNodeInitTimeout : Z := 10 * Second.
Definition defaultNodeRemoveTimeout : Z := 10 * Second.
Definition maxNodeDrainSeconds : Z := 2 ^ 31 - 1.
Definition routerOSScriptFilename : string := "routeros.rsc".
Definition mikrotikClientImageRepo : string := "ghcr.io/coonfuuseed-paandaa/awg-mesh-client".
Definition masterClientWGPrivateKeyFile : string := "client-wg-private.key".
Definition masterClientWGPublicKeyFile : string := "client-wg-public.key".
Definition controlPlaneAdminCertDir : string := "admin".
Definition controlPlaneAdminCertCommonName : string := "mesh-ctl-admin".

Record nodePrepareOptions := MkPrepareOptions {
  po_nodeName : string; po_topologyPath : string; po_configDir : string; po_platform : string; po_controlPlane : string; po_targetROS : string; po_output : string }.
Record nodeInitOptions := MkInitOptions {
  io_nodeName : string; io_topologyPath : string; io_configDir : string; io_controlPlane : string; io_nodeVersion : string; io_output : string; io_timeout : Z }.
Record nodeRemoveOptions := MkRemoveOptions {
  ro_nodeName : string; ro_configDir : string; ro_controlPlane : string; ro_drain : Z; ro_output : string; ro_timeout : Z }.
Record nodePrepareJSONOutput := MkPrepareOutput {
  pr_NodeName : string; pr_NodeDir : string; pr_TokenPath : string; pr_TokenHashPath : string; pr_CertPath : string; pr_KeyPath : string;
  pr_RouterOSScriptPath : string; pr_WireGuardPrivateKeyPath : string; pr_WireGuardPublicKeyPath : string }.
Record nodeInitJSONOutput := MkInitOutput { ir_NodeName : string; ir_Accepted : bool; ir_RegisteredAtUnix : Z; ir_RejectReason : option server_error }.
Record nodeRemoveJSONOutput := MkRemoveOutput { rr_NodeName : string; rr_Success : bool; rr_ReassignedOverlayCount : Z; rr_Error : option server_error }.
Record nodeListEntry := MkListEntry { le_Name : string; le_OverlayIP : string; le_Roles : list string; le_Platform : string; le_Region : string; le_Status : string }.

Inductive node_error :=
  | NOutput (output : string) | NTopologyPath | NTopologyRead | NTopologySchema (e : migrate_error) | NTopologyV1 | NTopologyVersion (v : Z)
  | NTopologyParse | NTopologyInvalid (e : v2_error) | NNameRequired | NTopologyRequired | NNotDeclared (name : string) | NNotASegment (name : string) | NOutside (name : string)
  | NMeshCA (e : tls_error) | NMeshCAIncomplete | NIssue (e : tls_error) | NSaveCert (e : tls_error) | NToken (e : token_error) | NSaveToken | NSaveHash (e : token_error)
  | NKeyPair (e : key_file_error) | NControlPlaneRequired | NPlatform (platform : string) | NNotClient (name : string) | NReadFile (file : string)
  | NEndpoint (e : endpoint_error) | NPublicIPPort (name : string) | NDeploy (e : deploy_error) | NStatic (e : static_error) | NWriteScript
  | NLoadCert (e : tls_error) | NReadCert | NConfigDir | NAdminCA (e : tls_error) | NAdminIssue (e : tls_error) | NAdminSave (e : tls_error) | NAdminIncomplete | NAdminLoad (e : tls_error)
  | NLoadCA (e : tls_error) | NConnect | NCall | NNilResponse | NRejected (reason : option server_error) | NDecommission (reason : option server_error)
  | NDrainNegative | NDrainFraction | NDrainTooLong.

(** ** Options *)

Definition normalizeTopologyOutput (output : string) : res node_error string :=
  let o := ToLower (TrimSpace output) in
  if bool_decide (o = "") || bool_decide (o = topologyOutputHuman) then Ok topologyOutputHuman else
  if bool_decide (o = topologyOutputJSON) then Ok topologyOutputJSON else Err (NOutput output).
Definition validateNodeInitOptions (o : nodeInitOptions) : res node_error nodeInitOptions :=
  let nodeName := TrimSpace (io_nodeName o) in
  if bool_decide (nodeName = "") then Err NNameRequired else
  let controlPlane := TrimSpace (io_controlPlane o) in
  if bool_decide (controlPlane = "") then Err NControlPlaneRequired else
  let! output := normalizeTopologyOutput (io_output o) in
  Ok (MkInitOptions nodeName (io_topologyPath o) (io_configDir o) controlPlane (or_else (io_nodeVersion o) "dev") output
        (if io_timeout o <=? 0 then defaultNodeInitTimeout else io_timeout o)).
(** Go's division and remainder truncate. *)
Definition validateNodeRemoveOptions (o : nodeRemoveOptions) : res node_error nodeRemoveOptions :=
  let nodeName := TrimSpace (ro_nodeName o) in
  if bool_decide (nodeName = "") then Err NNameRequired else
  let controlPlane := TrimSpace (ro_controlPlane o) in
  if bool_decide (controlPlane = "") then Err NControlPlaneRequired else
  if ro_drain o <? 0 then Err NDrainNegative else
  if negb (Z.rem (ro_drain o) Second =? 0) then Err NDrainFraction else
  let drainSec := Z.quot (ro_drain o) Second in
  if maxNodeDrainSeconds <? drainSec then Err NDrainTooLong else
  let! output := normalizeTopologyOutput (ro_output o) in
  Ok (MkRemoveOptions nodeName (ro_configDir o) controlPlane (drainSec * Second) output
        (if ro_timeout o <=? 0 then defaultNodeRemoveTimeout else ro_timeout o)).

Definition findTopologyNode (topo : option TopologyV2) (name : string) : res node_error NodeV2 :=
  let trimmed := TrimSpace name in
  if bool_decide (trimmed = "") then Err NNameRequired else
  match topo with
  | None => Err NTopologyRequired
  | Some topo => match List.find (λ n, bool_decide (n2_Name n = trimmed)) (t2_Nodes topo) with Some node => Ok node | None => Err (NNotDeclared trimmed) end
  end.

Definition segment_special : string := of_bytes ["/"%char; bslash].
Definition safeNodeConfigDir (configDir name : string) : res node_error string :=
  let trimmed := TrimSpace name in
  if bool_decide (trimmed = "") then Err NNameRequired else
  if bool_decide (trimmed = ".") || bool_decide (trimmed = "..") || ContainsAny trimmed segment_special then Err (NNotASegment name) else
  let root := path_Clean (path_Join [configDir; "nodes"]) in
  let dir := path_Clean (path_Join [root; trimmed]) in
  let rel := path_Rel root dir in
  if bool_decide (rel = ".") || HasPrefix rel ".." || HasPrefix rel "/" then Err (NOutside name) else Ok dir.

Definition host_step (st : list string * gset string) (candidate : string) : list string * gset string :=
  let trimmed := TrimSpace candidate in
  if bool_decide (trimmed = "") then st else if bool_decide (trimmed ∈ st.2) then st else (st.1 ++ [trimmed], {[trimmed]} ∪ st.2).
Definition nodeCertificateHosts (node : NodeV2) : list string :=
  (foldl host_step ([], ∅) [n2_Name node; n2_OverlayIP node; n2_BridgeIP node; n2_PublicIP node]).1.

Definition nodeMeshListenPort (node : NodeV2) : Z := if 0 <? n2_MeshListenPort node then n2_MeshListenPort node else DefaultMeshListenPort.
(** The same conditions as in the validator of the topology. *)
Definition validateNodeMeshEndpoint (endpoint : string) : res node_error unit := wrap_err NEndpoint (validateV2MeshEndpoint endpoint).
Definition nodeAdvertisedMeshEndpoint (node : NodeV2) : res node_error string :=
  let endpoint := TrimSpace (n2_MeshEndpoint node) in
  if bool_decide (endpoint ≠ "") then let! _ := validateNodeMeshEndpoint endpoint in Ok endpoint else
  let publicIP := TrimSpace (n2_PublicIP node) in
  if bool_decide (publicIP = "") then Ok "" else
  if is_ok (SplitHostPort publicIP) then Err (NPublicIPPort (n2_Name node)) else
  let endpoint := JoinHostPort (trim_brackets publicIP) (Itoa (nodeMeshListenPort node)) in
  let! _ := validateNodeMeshEndpoint endpoint in Ok endpoint.

Definition preparePlatform (override : string) (node : NodeV2) : string :=
  let trimmed := ToLower (TrimSpace override) in
  if bool_decide (trimmed ≠ "") then trimmed else
  if EqualFold (TrimSpace (n2_Platform node)) "mikrotik" then "mikrotik" else "".
Definition defaultMikrotikClientImage (version : string) : string :=
  let tag := TrimSpace version in
  mikrotikClientImageRepo +:+ ":" +:+ (if bool_decide (tag = "") || bool_decide (tag = "dev") then "latest" else tag).
Definition nodeHasRole (node : NodeV2) (want : string) : bool := existsb (λ r, bool_decide (r = want)) (n2_Roles node).

Definition nodePlatform (node : NodeV2) : string := or_else (n2_Platform node) "-".
Definition roleListLabelFromStrings (roles : list string) : string := match roles with [] => "-" | _ => join "," roles end.

(** ** Preparing *)

Section Prepare.
Context {X : X509} (ans : nat → answer) (others : nat → tree → tree).
(** The random source, [os.CreateTemp]'s numbers and Curve25519 of the key files; Argon2id. *)
Context (random : nat → option (list ascii)) (suffix : nat → Z) (PublicKey : list ascii → list ascii).
Context (IDKey : list ascii → list ascii → Z → Z → Z → nat → list ascii).
(** The YAML decoder, for the permissive document and for the topology; [awgmesh.Version]. *)
Context (unmarshal_map : string → option (option (list (string * yaml_value)))) (unmarshal_v2 : string → option TopologyV2) (version : string).
Notation "'call!' op 'else' e ; k" := (fs_bind (fs_call ans others op e) (λ _, k)) (at level 10, op at level 99, e at level 99, k at level 200).

Definition loadTopologyV2 (path : string) : FS node_error TopologyV2 :=
  if bool_decide (TrimSpace path = "") then fs_fail NTopologyPath else
  do! r := fs_read ans others path in
  match r with
  | RBody data =>
      do! v := fs_lift (wrap_err NTopologySchema (DetectSchemaVersion unmarshal_map data)) in
      if v =? SchemaV1 then fs_fail NTopologyV1 else
      if negb (v =? SchemaV2) then fs_fail (NTopologyVersion v) else
      do! topo := fs_lift (from_option Ok (Err NTopologyParse) (unmarshal_v2 data)) in
      then! fs_lift (wrap_err NTopologyInvalid (ValidateV2 (Some topo)));
      fs_ret topo
  | _ => fs_fail NTopologyRead
  end.

Definition loadOrCreateMeshCA (dr : draws) (configDir meshName : string) : FS node_error (x509_Certificate * PrivKey) :=
  do! certMissing := fileMissing ans others (path_Join [configDir; "ca.crt"]) in
  do! keyMissing := fileMissing ans others (path_Join [configDir; "ca.key"]) in
  if certMissing && keyMissing then
    let commonName := or_else meshName "awg-mesh" in
    do! ca := fs_lift (wrap_err NMeshCA (GenerateCA dr (commonName +:+ " CA"))) in
    then! fs_wrap NMeshCA (SaveCA ans others configDir ca.1 ca.2);
    fs_ret ca
  else if negb (Bool.eqb certMissing keyMissing) then fs_fail NMeshCAIncomplete
  else fs_wrap NMeshCA (LoadCA ans others configDir).

Definition saveToken (nodeDir token : string) : FS node_error unit :=
  call! (λ a, os_MkdirAll a nodeDir) else NSaveToken;
  fs_call ans others (λ a, os_WriteFile a (path_Join [nodeDir; "token"]) token) NSaveToken.
(** [pkgtls.SaveTokenHash], call by call. *)
Definition saveTokenHash (dir hash : string) : FS node_error unit :=
  call! (λ a, os_MkdirAll a dir) else NSaveHash ErrTokenDir;
  let path := token_path dir in
  let tmpPath := path +:+ ".tmp" in
  call! (λ a, os_WriteFile a tmpPath hash) else NSaveHash ErrTokenWrite;
  do! ok := fs_op ans others (λ a, os_RenameFile a tmpPath path) in
  if ok : bool then fs_ret () else
  then! (fs_op ans others (λ a, os_RemoveOne a tmpPath) : FS node_error remove_result);
  fs_fail (NSaveHash ErrTokenReplace).

Definition readBase64File (path : string) : FS node_error string :=
  do! r := fs_read ans others path in
  match r with RBody data => fs_ret (b64_encode (to_bytes data)) | _ => fs_fail (NReadFile path) end.
Definition deploy_values (topo : TopologyV2) (node : NodeV2) (tokenHash controlPlane targetROS certB64 keyB64 caB64 wgKeyB64 endpointHost : string) : DeployScript :=
  let containerName := DeriveContainerName (n2_Name node) in
  MkDeployScript (n2_Name node) containerName "" (defaultMikrotikClientImage version) containerName "" (n2_OverlayIP node) (mc_OverlaySupernet (t2_Mesh topo))
    tokenHash certB64 keyB64 caB64 wgKeyB64 controlPlane (n2_Region node) (nodeMeshListenPort node) endpointHost "" "" targetROS [] 0 "".
(** The result is the path of the script. *)
Definition prepareMikrotikRouterOS (topo : TopologyV2) (node : NodeV2) (configDir nodeDir tokenHash controlPlane targetROS : string) : FS node_error string :=
  if negb (nodeHasRole node RoleClient) then fs_fail (NNotClient (n2_Name node)) else
  if bool_decide (TrimSpace controlPlane = "") then fs_fail NControlPlaneRequired else
  do! certB64 := readBase64File (path_Join [nodeDir; "node.crt"]) in
  do! keyB64 := readBase64File (path_Join [nodeDir; "node.key"]) in
  do! caB64 := readBase64File (path_Join [configDir; "ca.crt"]) in
  do! r := fs_try (readBase64File (path_Join [nodeDir; "wireguard-private.key"])) in
  let wgKeyB64 := match r with Ok s => s | Err _ => "" end in
  do! endpointHost := fs_lift (nodeAdvertisedMeshEndpoint node) in
  do! script := fs_lift (wrap_err NDeploy (GenerateDeployRSC (deploy_values topo node tokenHash controlPlane targetROS certB64 keyB64 caB64 wgKeyB64 endpointHost))) in
  let scriptPath := path_Join [nodeDir; routerOSScriptFilename] in
  call! (λ a, os_WriteFile a scriptPath script) else NWriteScript;
  fs_ret scriptPath.

(** What the random sources and clocks give one run. *)
Record prepare_draws := MkPrepareDraws { pd_ca : draws; pd_cert : draws; pd_token : option (list ascii); pd_salt : option (list ascii) }.
Definition prepare_keys (o : nodePrepareOptions) (topo : TopologyV2) (node : NodeV2) (nd tokenHash : string) : FS node_error nodePrepareJSONOutput :=
  let result script priv pub := MkPrepareOutput (n2_Name node) nd (path_Join [nd; "token"]) (path_Join [nd; "mesh.token"]) (path_Join [nd; "node.crt"]) (path_Join [nd; "node.key"]) script priv pub in
  let platform := preparePlatform (po_platform o) node in
  if bool_decide (platform = "") || bool_decide (platform = "linux") then
    then! fs_wrap NKeyPair (loadOrCreateWireGuardKeyPair ans others random suffix PublicKey nd wg_private wg_public);
    fs_ret (result "" (path_Join [nd; wg_private]) (path_Join [nd; wg_public]))
  else if bool_decide (platform = "mikrotik") then
    if bool_decide (TrimSpace (po_controlPlane o) = "") then fs_fail NControlPlaneRequired else
    do! script := prepareMikrotikRouterOS topo node (po_configDir o) nd tokenHash (po_controlPlane o) (po_targetROS o) in
    fs_ret (result script "" "")
  else fs_fail (NPlatform platform).
Definition runNodePrepareCommand (dr : prepare_draws) (o : nodePrepareOptions) : FS node_error nodePrepareJSONOutput :=
  then! fs_lift (normalizeTopologyOutput (po_output o));
  do! topo := loadTopologyV2 (po_topologyPath o) in
  do! node := fs_lift (findTopologyNode (Some topo) (po_nodeName o)) in
  do! nd := fs_lift (safeNodeConfigDir (po_configDir o) (n2_Name node)) in
  do! ca := loadOrCreateMeshCA (pd_ca dr) (po_configDir o) (mc_Name (t2_Mesh topo)) in
  do! pem := fs_lift (wrap_err NIssue (IssueCert (pd_cert dr) ca.1 ca.2 (n2_Name node) (nodeCertificateHosts node))) in
  then! fs_wrap NSaveCert (SaveCertKey ans others nd pem.1 pem.2);
  do! token := fs_lift (wrap_err NToken (GenerateToken (pd_token dr))) in
  do! tokenHash := fs_lift (wrap_err NToken (HashToken IDKey (pd_salt dr) token)) in
  then! saveToken nd token;
  then! saveTokenHash nd tokenHash;
  prepare_keys o topo node nd tokenHash.

(** The native WireGuard variant. *)
Section Native.
Context (sort_masters : list NodeV2 → list NodeV2) (sort_targets : list routeTarget → list routeTarget).
Fixpoint master_keys (configDir : string) (nodes : list NodeV2) (acc : gmap string (list ascii)) : FS node_error (gmap string (list ascii)) :=
  match nodes with
  | [] => fs_ret acc
  | current :: nodes =>
      if negb (nodeHasRole current RoleMaster) then master_keys configDir nodes acc else
      do! masterDir := fs_lift (safeNodeConfigDir configDir (n2_Name current)) in
      do! keys := fs_wrap NKeyPair (loadOrCreateWireGuardKeyPair ans others random suffix PublicKey masterDir masterClientWGPrivateKeyFile masterClientWGPublicKeyFile) in
      master_keys configDir nodes (<[n2_Name current := keys.2]> acc)
  end.
Definition prepareMikrotikNativeWireGuardRouterOS (topo : TopologyV2) (node : NodeV2) (configDir nodeDir : string) : FS node_error (string * string * string) :=
  if negb (nodeHasRole node RoleClient) then fs_fail (NNotClient (n2_Name node)) else
  do! client := fs_wrap NKeyPair (loadOrCreateWireGuardKeyPair ans others random suffix PublicKey nodeDir wg_private wg_public) in
  do! masterPublicKeys := master_keys configDir (t2_Nodes topo) ∅ in
  do! script := fs_lift (wrap_err NStatic (GenerateStaticRSC sort_masters sort_targets (Some topo) (n2_Name node) client.1 masterPublicKeys)) in
  let scriptPath := path_Join [nodeDir; routerOSScriptFilename] in
  call! (λ a, os_WriteFile a scriptPath script) else NWriteScript;
  fs_ret (scriptPath, path_Join [nodeDir; wg_private], path_Join [nodeDir; wg_public]).
End Native.

(** ** Registering and removing *)

Definition loadOrCreateControlPlaneAdminCert (dr : draws) (configDir : string) : FS node_error (string * string) :=
  if bool_decide (TrimSpace configDir = "") then fs_fail NConfigDir else
  let adminDir := path_Join [configDir; controlPlaneAdminCertDir] in
  do! certMissing := fileMissing ans others (path_Join [adminDir; "node.crt"]) in
  do! keyMissing := fileMissing ans others (path_Join [adminDir; "node.key"]) in
  then! (if certMissing && keyMissing then
    do! ca := fs_wrap NAdminCA (LoadCA ans others configDir) in
    do! pem := fs_lift (wrap_err NAdminIssue (IssueCert dr ca.1 ca.2 controlPlaneAdminCertCommonName [controlPlaneAdminCertCommonName])) in
    fs_wrap NAdminSave (SaveCertKey ans others adminDir pem.1 pem.2)
  else if negb (Bool.eqb certMissing keyMissing) then fs_fail NAdminIncomplete else fs_ret ());
  fs_wrap NAdminLoad (LoadCertKey ans others adminDir).
(** The client pair, the roots and the name to verify. *)
Record AdminCredentials := MkAdminCredentials { ad_cert : string * string; ad_roots : string; ad_serverName : string }.
Definition controlPlaneAdminTransportCredentials (dr : draws) (controlPlane configDir : string) : FS node_error AdminCredentials :=
  do! cert := loadOrCreateControlPlaneAdminCert dr configDir in
  do! rootCAs := fs_wrap NLoadCA (LoadCACert ans others (path_Join [configDir; "ca.crt"])) in
  fs_ret (MkAdminCredentials cert rootCAs (controlPlaneServerName controlPlane)).
(** [newclient]: whether [grpc.NewClient] accepts the target. *)
Definition newControlPlaneAdminConn (newclient : bool) (dr : draws) (controlPlane configDir : string) : FS node_error AdminCredentials :=
  do! credentials := controlPlaneAdminTransportCredentials dr controlPlane configDir in
  if newclient then fs_ret credentials else fs_fail NConnect.

Definition prepared_pubkey (r : read_result) : string :=
  match r with
  | RBody raw => match b64_decode (TrimSpace raw) with Some decoded => if bool_decide (length decoded = 32%nat) then of_bytes decoded else "" | None => "" end
  | _ => ""
  end.
Definition init_request (newclient : bool) (dr : draws) (v : nodeInitOptions) : FS node_error RegisterNodeRequest :=
  do! topo := loadTopologyV2 (io_topologyPath v) in
  do! node := fs_lift (findTopologyNode (Some topo) (io_nodeName v)) in
  do! nd := fs_lift (safeNodeConfigDir (io_configDir v) (n2_Name node)) in
  then! fs_wrap NLoadCert (LoadCertKey ans others nd);
  do! r := fs_read ans others (path_Join [nd; "node.crt"]) in
  do! certPEM := (match r with RBody b => fs_ret b | _ => fs_fail NReadCert end) in
  then! newControlPlaneAdminConn newclient dr (io_controlPlane v) (io_configDir v);
  do! raw := fs_read ans others (path_Join [nd; wg_public]) in
  do! endpointHost := fs_lift (nodeAdvertisedMeshEndpoint node) in
  let protocol := if bool_decide (n2_MeshProtocol node = "") then "amneziawg" else n2_MeshProtocol node in
  fs_ret (MkRegisterNodeRequest (n2_Name node) (n2_Roles node) (n2_OverlayIP node) (n2_Region node) certPEM (io_nodeVersion v) (prepared_pubkey raw) endpointHost protocol).
(** What the client sees of the call: an error, or a response. *)
Definition init_result (name : string) (answer : res unit RegisterNodeResponse) : res node_error nodeInitJSONOutput :=
  match answer with
  | Err _ => Err NCall
  | Ok resp =>
      if negb (rs_Accepted resp) then Err (NRejected (rs_RejectReason resp)) else
      Ok (MkInitOutput name (rs_Accepted resp) (rs_RegisteredAtUnix resp) (rs_RejectReason resp))
  end.
Definition remove_result_of (name : string) (answer : res unit DecommissionResponse) : res node_error nodeRemoveJSONOutput :=
  match answer with
  | Err _ => Err NCall
  | Ok resp =>
      if negb (dr_Success resp) then Err (NDecommission (dr_Error resp)) else
      Ok (MkRemoveOutput name (dr_Success resp) (dr_ReassignedOverlayCount resp) (dr_Error resp))
  end.

(** [lost]: the call fails on the way there, or on the way back. *)
Inductive delivery := Delivered | RequestLost | ResponseLost.
Definition deliver {R : Type} (d : delivery) (rpc : M R) (s : Server) : res unit R * Server :=
  match d with
  | RequestLost => (Err (), s)
  | Delivered => let '(r, s) := rpc s in (Ok r, s)
  | ResponseLost => let '(_, s) := rpc s in (Err (), s)
  end.

Context (clock : nat → string → time) (onRegister : option (RegisteredNode → option string)).
Definition runNodeInitCommand (newclient : bool) (dr : draws) (d : delivery) (o : nodeInitOptions) (w : world) (s : Server) : res node_error nodeInitJSONOutput * world * Server :=
  match validateNodeInitOptions o with
  | Err e => (Err e, w, s)
  | Ok v =>
      match init_request newclient dr v w with
      | (Err e, w) => (Err e, w, s)
      | (Ok req, w) =>
          let '(answer, s) := deliver d (RegisterNode clock onRegister req) s in
          (init_result (rq_NodeName req) answer, w, s)
      end
  end.
Definition runNodeRemoveCommand (newclient : bool) (dr : draws) (d : delivery) (o : nodeRemoveOptions) (w : world) (s : Server) : res node_error nodeRemoveJSONOutput * world * Server :=
  match validateNodeRemoveOptions o with
  | Err e => (Err e, w, s)
  | Ok v =>
      match newControlPlaneAdminConn newclient dr (ro_controlPlane v) (ro_configDir v) w with
      | (Err e, w) => (Err e, w, s)
      | (Ok _, w) =>
          let '(answer, s) := deliver d (DecommissionNode clock (ro_nodeName v)) s in
          (remove_result_of (ro_nodeName v) answer, w, s)
      end
  end.
End Prepare.

(** ** Listing *)

Section Listing.
Context (sort_nodes : list NodeV2 → list NodeV2).
Definition buildNodeListEntries (topo : TopologyV2) : list nodeListEntry :=
  (λ n, MkListEntry (n2_Name n) (n2_OverlayIP n) (n2_Roles n) (nodePlatform n) (n2_Region n) "declared") <$> sort_nodes (t2_Nodes topo).
(** The result is the output format and the entries. *)
Definition runNodeListCommand (ans : nat → answer) (others : nat → tree → tree) (unmarshal_map : string → option (option (list (string * yaml_value)))) (unmarshal_v2 : string → option TopologyV2)
    (topologyPath output : string) : FS node_error (string * list nodeListEntry) :=
  do! output := fs_lift (normalizeTopologyOutput output) in
  do! topo := loadTopologyV2 ans others unmarshal_map unmarshal_v2 topologyPath in
  fs_ret (output, buildNodeListEntries topo).
End Listing.
