(* ===== verification/NodeCmdProofs.v ===== *)
(** * What the node commands do

    [node prepare] touches the mesh's authority and the directory of its node only; what
    it leaves there is trusted, and [node init] registers exactly that. *)

From S2P Require Import Prelude GoStrings GoNet GoPath GoText Role Ranges TopologyV2 Topology Migrate WgTypes DualListener Ledger Registry CertLifecycle Server ServerContracts ClientCommand RouterOS RouterStatic.
From S2P Require Import GoFiles Token FileScript KeyFiles TlsFiles NodeCmd.

(** ** Directories *)

Lemma ContainsAny_free s chars a : ContainsAny s chars = false → a ∈ to_bytes chars → a ∉ to_bytes s.
Proof.
  unfold ContainsAny. intros H Ha Hs. apply not_true_iff_false in H. apply H. apply existsb_exists. exists a. split; [by apply list_elem_of_In|].
  by apply bool_decide_eq_true_2.
Qed.
(** The directory of a node is [nodes/<name>] below the configuration, one level deep. *)
Lemma safe_dir configDir name dir : abs_dir configDir → safeNodeConfigDir configDir name = Ok dir →
  normal (TrimSpace name) ∧ dir = abs_text (comps configDir ++ ["nodes"; TrimSpace name]).
Proof.
  intros Hd. unfold safeNodeConfigDir. set (c := TrimSpace name). case_bool_decide as H1; [done|]. case_bool_decide as H2; [done|].
  case_bool_decide as H3; [done|]. cbn [orb]. destruct (ContainsAny c segment_special) eqn:H4; [done|].
  assert (normal c) as Hc by (split_and!; [done..|]; eapply ContainsAny_free; [exact H4|apply list_elem_of_In; by left]).
  assert (normal "nodes") as Hno by (apply (bool_decide_unpack _); by vm_compute).
  pose proof (comps_normal configDir Hd) as Hn. assert (Forall normal (comps configDir ++ ["nodes"])) as Hn1 by (apply Forall_app; split; [done|by apply Forall_singleton]).
  rewrite (join_file configDir "nodes") by done. rewrite path_Clean_abs by done. rewrite join_file by (done || apply abs_rooted).
  rewrite comps_abs, <- app_assoc by done. cbn [app]. intros H. case_match; [done|]. injection H as <-. split; [done|].
  apply path_Clean_abs. rewrite Forall_app, !Forall_cons. done.
Qed.
Lemma find_trimmed topo a b : TrimSpace a = TrimSpace b → findTopologyNode topo a = findTopologyNode topo b.
Proof. unfold findTopologyNode. by intros ->. Qed.
Lemma found_node topo name node : findTopologyNode (Some topo) name = Ok node → node ∈ t2_Nodes topo ∧ n2_Name node = TrimSpace name.
Proof.
  unfold findTopologyNode. case_bool_decide; [done|]. destruct (List.find _ _) as [n|] eqn:E; [|done]. intros [= ->].
  apply find_some in E as [Hin Hn]. split; [by apply list_elem_of_In|by apply bool_decide_eq_true in Hn].
Qed.

(** ** Confinement *)

Section Confined.
Context (ans : nat → answer) (others : nat → tree → tree) (P Q : dir_path → Prop).
Context (others_confined : ∀ n t, confined P Q t (others n t)).
Notation conf := (respects (confined P Q)).
(** [MkdirAll] may make the directories of [dir]. *)
Definition way (dir : string) : Prop := ∀ r, r `prefix_of` comps dir → r ≠ [] → P r ∨ Q r.

Lemma c_ret {E X : Type} (x : X) : conf (fs_ret x : FS E X).
Proof using Type. apply respects_ret, confined_refl. Qed.
Lemma c_fail {E X : Type} (e : E) : conf (fs_fail e : FS E X).
Proof using Type. apply respects_fail, confined_refl. Qed.
Lemma c_lift {E X : Type} (r : res E X) : conf (fs_lift r).
Proof using Type. apply respects_lift, confined_refl. Qed.
Lemma c_bind {E X Y : Type} (m : FS E X) (k : X → FS E Y) : conf m → (∀ x, conf (k x)) → conf (fs_bind m k).
Proof using Type. apply respects_bind, confined_trans. Qed.
Lemma c_lift_bind {E X Y : Type} (r : res E X) (k : X → FS E Y) : (∀ x, r = Ok x → conf (k x)) → conf (fs_bind (fs_lift r) k).
Proof using Type. apply respects_lift_bind, confined_refl. Qed.
Lemma c_wrap {E E' X : Type} (f : E → E') (m : FS E X) : conf m → conf (fs_wrap f m).
Proof using Type. apply respects_wrap. Qed.
Lemma c_try {E E' X : Type} (m : FS E X) : conf m → conf (fs_try (E' := E') m).
Proof using Type. apply respects_try. Qed.
Lemma c_defer {E E' X Y : Type} (c : FS E' Y) (m : FS E X) : conf c → conf m → conf (fs_defer c m).
Proof using Type. apply respects_defer, confined_trans. Qed.
Lemma c_op {E X : Type} (op : answer → tree → X * tree) : (∀ a t, confined P Q t (op a t).2) → conf (fs_op ans others op : FS E X).
Proof using others_confined. apply respects_op; [apply confined_trans|done]. Qed.
Lemma c_call {E : Type} (op : answer → tree → bool * tree) (e : E) : (∀ a t, confined P Q t (op a t).2) → conf (fs_call ans others op e).
Proof using others_confined. apply respects_call; [apply confined_refl|apply confined_trans|done]. Qed.
Lemma c_read {E : Type} p : conf (fs_read ans others p : FS E read_result).
Proof using others_confined. apply respects_read; [apply confined_refl|apply confined_trans|done]. Qed.
Lemma c_missing {E : Type} p : conf (fileMissing ans others p : FS E bool).
Proof using others_confined. apply respects_missing; [apply confined_refl|apply confined_trans|done]. Qed.
Lemma c_calls {E : Type} : conf (now_calls : FS E nat).
Proof using Type. intros w. apply confined_refl. Qed.
Lemma c_mkdir {E : Type} dir (e : E) : way dir → conf (fs_call ans others (λ a, os_MkdirAll a dir) e).
Proof using others_confined. intros H. apply c_call. intros a t. by apply MkdirAll_confined. Qed.
Lemma c_write {E : Type} p body (e : E) : P (comps p) → conf (fs_call ans others (λ a, os_WriteFile a p body) e).
Proof using others_confined. intros H. apply c_call. intros a t. by apply WriteFile_confined. Qed.
Lemma c_remove {E : Type} p : P (comps p) → conf (fs_op ans others (λ a, os_RemoveOne a p) : FS E remove_result).
Proof using others_confined. intros H. apply c_op. intros a t. by apply RemoveOne_confined. Qed.
Lemma c_rename {E : Type} src dst : P (comps src) → P (comps dst) → conf (fs_op ans others (λ a, os_RenameFile a src dst) : FS E bool).
Proof using others_confined.
  intros Hs Hd. apply c_op. intros a t. destruct (RenameFile_cases a src dst t) as [->|(body & _ & ->)]; [apply confined_refl|]. cbn [snd].
  intros k Hk. left. rewrite lookup_insert_ne, lookup_delete_ne; [done|..]; intros <-; done.
Qed.
End Confined.

Create HintDb conf.
#[export] Hint Resolve c_ret c_fail c_lift c_wrap c_try c_read c_missing c_calls c_mkdir c_write c_remove c_rename : conf.
(** Walk through a script; what is left are the places it writes to. *)
Ltac conf_walk :=
  repeat first
    [ apply c_ret | apply c_fail | apply c_lift | apply c_read; assumption | apply c_missing; assumption | apply c_calls
    | apply c_wrap | apply c_try
    | apply c_mkdir; [assumption|] | apply c_write; [assumption|] | apply c_remove; [assumption|] | apply c_rename; [assumption|..]
    | apply c_defer | apply c_bind; [|intros ?]
    | match goal with |- respects _ (match ?x with _ => _ end) => destruct x end
    | match goal with |- respects _ (if ?x then _ else _) => destruct x end ].

Lemma file_normal : Forall normal ["ca.crt"; "ca.key"; "node.crt"; "node.key"; "token"; "mesh.token"; "mesh.token.tmp"; routerOSScriptFilename; wg_private; wg_public; "admin"; "nodes"].
Proof. apply (bool_decide_unpack _). by vm_compute. Qed.
Ltac file_name := first [ assumption | apply (bool_decide_unpack _); vm_compute; exact I ].
Lemma comps_file dir c : abs_dir dir → normal c → comps (path_Join [dir; c]) = comps dir ++ [c].
Proof. intros Hd Hc. rewrite join_file by done. apply comps_abs, Forall_app. split; [by apply comps_normal|by apply Forall_singleton]. Qed.

Ltac in_list := apply (bool_decide_unpack (_ ∈ _)); vm_compute; exact I.
Ltac conf_places := first [ assumption | rewrite comps_file by (assumption || file_name); assumption | rewrite comps_abs by assumption; assumption ].

Section Scripts.
Context {X : X509} (ans : nat → answer) (others : nat → tree → tree) (P Q : dir_path → Prop).
Context (others_confined : ∀ n t, confined P Q t (others n t)).
Notation conf := (respects (confined P Q)).

Lemma c_SaveCA dir cert key : abs_dir dir → way P Q dir → P (comps dir ++ ["ca.crt"]) → P (comps dir ++ ["ca.key"]) → conf (SaveCA ans others dir cert key).
Proof using others_confined. intros Hd Hw H1 H2. unfold SaveCA. conf_walk; conf_places. Qed.
Lemma c_LoadCA dir : conf (LoadCA ans others dir).
Proof using others_confined. unfold LoadCA, read_or. conf_walk. Qed.
Lemma c_SaveCertKey dir c k : abs_dir dir → way P Q dir → P (comps dir ++ ["node.crt"]) → P (comps dir ++ ["node.key"]) → conf (SaveCertKey ans others dir c k).
Proof using others_confined. intros Hd Hw H1 H2. unfold SaveCertKey. conf_walk; conf_places. Qed.
Lemma c_LoadCertKey dir : conf (LoadCertKey ans others dir).
Proof using others_confined. unfold LoadCertKey, read_or. conf_walk. Qed.

Lemma c_MeshCA dr dir name : abs_dir dir → way P Q dir → P (comps dir ++ ["ca.crt"]) → P (comps dir ++ ["ca.key"]) → conf (loadOrCreateMeshCA ans others dr dir name).
Proof using others_confined. intros Hd Hw H1 H2. unfold loadOrCreateMeshCA. conf_walk; conf_places. Qed.
Lemma c_saveToken dir token : abs_dir dir → way P Q dir → P (comps dir ++ ["token"]) → conf (saveToken ans others dir token).
Proof using others_confined. intros Hd Hw H1. unfold saveToken. conf_walk; conf_places. Qed.
Lemma c_saveTokenHash dir hash : abs_dir dir → way P Q dir → P (comps dir ++ [tokenFile]) → P (comps dir ++ ["mesh.token.tmp"]) → conf (saveTokenHash ans others dir hash).
Proof using others_confined.
  intros Hd Hw H1 H2. destruct (token_path_abs dir Hd) as (E1 & E2 & N1 & N2). unfold saveTokenHash. rewrite E2, E1.
  conf_walk; conf_places.
Qed.
End Scripts.

(** The files of a key pair and the temporary ones. *)
Definition key_name (priv pub x : string) : Prop := x = priv ∨ x = pub ∨ HasPrefix x "." = true.

Section KeyScripts.
Context {X : X509} (ans : nat → answer) (others : nat → tree → tree) (P Q : dir_path → Prop).
Context (others_confined : ∀ n t, confined P Q t (others n t)).
Context (random : nat → option (list ascii)) (suffix : nat → Z) (PublicKey : list ascii → list ascii).
Notation conf := (respects (confined P Q)).
Context (dir priv pub : string) (Hdir : abs_dir dir) (Hway : way P Q dir) (Hp : normal priv) (Hq : normal pub).
Context (Hin : ∀ x, key_name priv pub x → P (comps dir ++ [x])).

Lemma c_writeExclusive c data : normal c → key_name priv pub c → conf (writeFileExclusive ans others suffix (abs_text (comps dir ++ [c])) data).
Proof using Hdir Hin others_confined.
  intros Hc Hk. pose proof (comps_normal dir Hdir) as Hn. assert (Forall normal (comps dir ++ [c])) as Hnc by (apply Forall_app; split; [done|by apply Forall_singleton]).
  apply c_bind; [apply c_calls|]. intros n. destruct (temp_name_abs suffix (comps dir) c n Hnc) as (-> & Hx & _). set (x := "." +:+ c +:+ _) in *.
  assert (P (comps (abs_text (comps dir ++ [x])))) as HP by (rewrite comps_abs; [apply Hin; right; right; unfold x, HasPrefix; by rewrite to_bytes_app, is_prefix_app|apply Forall_app; split; [done|by apply Forall_singleton]]).
  set (tmp := abs_text (comps dir ++ [x])) in *. apply c_bind; [|intros r].
  { apply c_op; [done|]. intros a t. pose proof (CreateTemp_cases a tmp t) as H. destruct (os_CreateTemp a tmp t) as [r t'].
    destruct H as [[-> _]|(_ & -> & _)]; [apply confined_refl|]. intros k Hk0. left. cbn [snd]. rewrite lookup_insert_ne; [done|by intros <-]. }
  apply c_bind; [destruct r; [apply c_ret|apply c_fail..]|]. intros _. apply c_defer; [by apply c_remove|].
  apply c_bind; [by apply c_write|]. intros _. apply c_bind; [apply c_call; [done|intros; apply confined_refl]|]. intros _.
  apply c_bind; [apply c_call; [done|intros; apply confined_refl]|]. intros _. apply c_bind; [|intros r'; destruct r'; [apply c_ret|apply c_fail..]].
  apply c_op; [done|]. intros a t. pose proof (Link_cases a tmp (abs_text (comps dir ++ [c])) t) as H. destruct (os_Link _ _ _ _) as [r' t'].
  destruct H as [[-> _]|(body & _ & _ & -> & _)]; [apply confined_refl|]. intros k Hk0. left. cbn [snd]. rewrite lookup_insert_ne; [done|].
  intros <-. apply Hk0. rewrite comps_abs by done. by apply Hin.
Qed.
Lemma c_readKey path : conf (readNonZeroWGKey ans others path).
Proof using others_confined. unfold readNonZeroWGKey. conf_walk. Qed.
Lemma c_require path key : conf (requireStoredPublicWGKey ans others path key).
Proof using others_confined. apply c_bind; [apply c_readKey|]. intros k. conf_walk. Qed.
Lemma c_keypair : conf (loadOrCreateWireGuardKeyPair ans others random suffix PublicKey dir priv pub).
Proof using Hdir Hway Hin Hp Hq others_confined.
  assert (key_name priv pub priv ∧ key_name priv pub pub) as [Kp Kq] by (unfold key_name; tauto). unfold loadOrCreateWireGuardKeyPair. rewrite !join_file by done. apply c_bind; [by apply c_mkdir|]. intros _. apply c_bind.
  - apply c_bind; [apply c_try, c_readKey|]. intros [k|[]]; try (apply c_ret || apply c_fail). apply c_bind; [apply c_calls|]. intros n.
    apply c_bind; [apply c_lift|]. intros g. apply c_bind; [by apply c_try, c_writeExclusive|]. intros [u|[]]; [|apply c_readKey|apply c_fail].
    apply c_bind; [apply c_readKey|]. intros st. conf_walk.
  - intros k. apply c_bind; [|intros _; apply c_ret]. apply c_bind; [apply c_try, c_require|]. intros [u|[]]; try (apply c_ret || apply c_fail).
    apply c_bind; [by apply c_try, c_writeExclusive|]. intros [v|[]]; [apply c_require..|apply c_fail].
Qed.
End KeyScripts.

(** ** Where [node prepare] writes *)

(** The authority's files and the directory of the node. *)
Definition prepare_places (configDir name : string) (k : dir_path) : Prop :=
  k = comps configDir ++ ["ca.crt"] ∨ k = comps configDir ++ ["ca.key"] ∨ (comps configDir ++ ["nodes"; TrimSpace name]) `prefix_of` k.
Definition prepare_dirs (configDir name : string) (k : dir_path) : Prop := k `prefix_of` (comps configDir ++ ["nodes"; TrimSpace name]).

Section PrepareConfined.
Context {X : X509} (ans : nat → answer) (others : nat → tree → tree).
Context (random : nat → option (list ascii)) (suffix : nat → Z) (PublicKey : list ascii → list ascii).
Context (IDKey : list ascii → list ascii → Z → Z → Z → nat → list ascii).
Context (unmarshal_map : string → option (option (list (string * yaml_value)))) (unmarshal_v2 : string → option TopologyV2) (version : string).

Lemma prepare_respects dr o : abs_dir (po_configDir o) →
  let P := prepare_places (po_configDir o) (po_nodeName o) in let Q := prepare_dirs (po_configDir o) (po_nodeName o) in
  (∀ n t, confined P Q t (others n t)) → respects (confined P Q) (runNodePrepareCommand ans others random suffix PublicKey IDKey unmarshal_map unmarshal_v2 version dr o).
Proof using Type.
  intros Hd P Q Ho. unfold runNodePrepareCommand. apply c_bind; [apply c_lift|]. intros _. apply c_bind; [unfold loadTopologyV2; conf_walk|]. intros topo.
  apply c_lift_bind. intros node [_ Hname]%found_node. apply c_lift_bind. intros nd Hnd. destruct (safe_dir _ _ _ Hd Hnd) as [Hn ->].
  rewrite Hname, TrimSpace_idem in *. set (cs := comps (po_configDir o)) in *. set (name := TrimSpace (po_nodeName o)) in *. set (nd := abs_text (cs ++ ["nodes"; name])).
  assert (Forall normal (cs ++ ["nodes"; name])) as Hnn by (apply Forall_app; split; [by apply comps_normal|constructor; [file_name|by apply Forall_singleton]]).
  assert (abs_dir nd) as Hnd2 by apply abs_rooted. assert (comps nd = cs ++ ["nodes"; name]) as Hcs by (by apply comps_abs).
  assert (∀ x, P (comps nd ++ [x])) as Hin by (intros x; right; right; rewrite Hcs; by exists [x]).
  assert (way P Q nd) as Hway by (intros r Hr _; right; rewrite Hcs in Hr; exact Hr).
  assert (way P Q (po_configDir o)) as Hway0 by (intros r Hr _; right; exact (prefix_app_r _ _ ["nodes"; name] Hr)).
  apply c_bind; [apply c_MeshCA; [done..|by left|by right; left]|]. intros ca. apply c_bind; [apply c_lift|]. intros pem.
  apply c_bind; [by apply c_wrap, c_SaveCertKey|]. intros _. apply c_bind; [apply c_lift|]. intros token. apply c_bind; [apply c_lift|]. intros hash.
  apply c_bind; [by apply c_saveToken|]. intros _. apply c_bind; [by apply c_saveTokenHash|]. intros _. unfold prepare_keys.
  destruct (_ || _). { apply c_bind; [|intros _; apply c_ret]. apply c_wrap, c_keypair; [done..|apply wg_names_normal|apply wg_names_normal|intros x _; apply Hin]. }
  destruct (bool_decide _); [|apply c_fail]. destruct (bool_decide _); [apply c_fail|]. apply c_bind; [|intros s; apply c_ret].
  unfold prepareMikrotikRouterOS, readBase64File. conf_walk. rewrite comps_file by (done || file_name). apply Hin.
Qed.
End PrepareConfined.

(** ** What a successful run leaves, without interference *)

Lemma conf_keeps (P Q : dir_path → Prop) (t t' : tree) k body : confined P Q t t' → ¬ P k → t !! k = Some (NFile body) → t' !! k = Some (NFile body).
Proof. intros H Hk Hb. destruct (H k Hk) as [->|(_ & Hn & _)]; [done|congruence]. Qed.
Lemma alone_confined (P Q : dir_path → Prop) n t : confined P Q t (alone n t).
Proof. apply confined_refl. Qed.
#[export] Hint Resolve alone_confined : conf.

Lemma snoc_ne (ds : dir_path) a b : a ≠ b → ds ++ [a] ≠ ds ++ [b].
Proof. intros Hne E. by apply app_inj_tail in E as [_ ?]. Qed.

Section Alone.
Context {X : X509} (ans : nat → answer).

Lemma write_ok {E : Type} p body (e : E) w u w' : fs_call ans alone (λ a, os_WriteFile a p body) e w = (Ok u, w') →
  w_tree w' = <[comps p := NFile body]> (w_tree w).
Proof using Type.
  intros H%fs_call_ok. unfold os_WriteFile, alone in H. destruct (_ || _); [done|]. destruct (ans _) as [|[|n] r]; [|done..]. by injection H.
Qed.
Lemma read_ok {E : Type} p body w w' : (fs_read ans alone p : FS E read_result) w = (Ok (RBody body), w') → w_tree w' = w_tree w ∧ w_tree w !! comps p = Some (NFile body).
Proof using Type.
  unfold fs_read, fs_op, os_ReadFile, alone. intros [= H <-]. split; [done|]. destruct (ans _); [|done]. destruct (w_tree w !! comps p) as [[| |]|]; try done; [by injection H as ->|].
  by destruct (through_file _ _ _).
Qed.
Lemma read_or_ok p e body w w' : read_or ans alone p e w = (Ok body, w') → w_tree w' = w_tree w ∧ w_tree w !! comps p = Some (NFile body).
Proof using Type.
  intros H. apply fs_bind_ok in H as (r & w1 & H1 & H2). destruct r as [b| |]; [|done..]. injection H2 as -> <-. by eapply read_ok.
Qed.
Lemma missing_ok {E : Type} p b w w' : (fileMissing ans alone p : FS E bool) w = (Ok b, w') → w_tree w' = w_tree w ∧ (b = true → w_tree w !! comps p = None).
Proof using Type.
  unfold fileMissing, fs_op, os_Missing, alone. intros [= <- <-]. split; [done|]. destruct (ans _); [|done]. intros H. apply andb_true_iff in H as [H _].
  apply andb_true_iff in H as [_ H]. by apply bool_decide_eq_true in H.
Qed.
Lemma lift_ok {E Y : Type} (r : res E Y) w y w' : fs_lift r w = (Ok y, w') → r = Ok y ∧ w' = w.
Proof using Type. unfold fs_lift. intros [= -> <-]. done. Qed.
Lemma option_ok {E Y : Type} (o : option Y) (e : E) y : from_option Ok (Err e) o = Ok y → o = Some y.
Proof using Type. destruct o; [by intros [= ->]|done]. Qed.

Lemma SaveCA_ok dir cert key w u w' : abs_dir dir → SaveCA ans alone dir cert key w = (Ok u, w') → ∃ d, MarshalECPrivateKey key = Some d ∧
  w_tree w' !! (comps dir ++ ["ca.crt"]) = Some (NFile (EncodeCertPEM cert)) ∧ w_tree w' !! (comps dir ++ ["ca.key"]) = Some (NFile (pem_Encode "EC PRIVATE KEY" d)).
Proof using Type.
  intros Hd H. apply fs_bind_ok in H as (u1 & w1 & _ & H). apply fs_bind_ok in H as (u2 & w2 & H2 & H). apply fs_bind_ok in H as (d & w3 & H3 & H).
  apply lift_ok in H3 as [H3%option_ok ->]. apply write_ok in H2. apply write_ok in H. rewrite !comps_file in * by (done || file_name).
  exists d. split; [done|]. rewrite H, H2, lookup_insert_eq. split; [|done]. rewrite lookup_insert_ne; [apply lookup_insert_eq|by apply snoc_ne].
Qed.
Lemma SaveCertKey_ok dir c k w u w' : abs_dir dir → SaveCertKey ans alone dir c k w = (Ok u, w') →
  w_tree w' !! (comps dir ++ ["node.crt"]) = Some (NFile c) ∧ w_tree w' !! (comps dir ++ ["node.key"]) = Some (NFile k).
Proof using Type.
  intros Hd H. apply fs_bind_ok in H as (u1 & w1 & _ & H). apply fs_bind_ok in H as (u2 & w2 & H2 & H).
  apply write_ok in H2. apply write_ok in H. rewrite !comps_file in * by (done || file_name).
  rewrite H, H2, lookup_insert_eq. split; [|done]. rewrite lookup_insert_ne; [apply lookup_insert_eq|by apply snoc_ne].
Qed.
Lemma LoadCA_ok dir ca key w w' : abs_dir dir → LoadCA ans alone dir w = (Ok (ca, key), w') → w_tree w' = w_tree w ∧ ∃ certPEM keyPEM d,
  w_tree w !! (comps dir ++ ["ca.crt"]) = Some (NFile certPEM) ∧ w_tree w !! (comps dir ++ ["ca.key"]) = Some (NFile keyPEM) ∧
  pem_Decode certPEM = Some (x_Raw ca) ∧ ParseCertificate (x_Raw ca) = Some (x_Cert ca) ∧ pem_Decode keyPEM = Some d ∧ ParseECPrivateKey d = Some key.
Proof using Type.
  intros Hd H. apply fs_bind_ok in H as (certPEM & w1 & H1 & H). apply fs_bind_ok in H as (block & w2 & H2 & H). apply fs_bind_ok in H as (cert & w3 & H3 & H).
  apply fs_bind_ok in H as (keyPEM & w4 & H4 & H). apply fs_bind_ok in H as (d & w5 & H5 & H). apply fs_bind_ok in H as (k & w6 & H6 & H).
  apply lift_ok in H2 as [H2%option_ok ->], H3 as [H3%option_ok ->], H5 as [H5%option_ok ->], H6 as [H6%option_ok ->]. injection H as <- -> <-.
  apply read_or_ok in H1 as [E1 H1], H4 as [E4 H4]. rewrite !comps_file in * by (done || file_name). rewrite E1 in *.
  split; [done|]. by exists certPEM, keyPEM, d.
Qed.
Lemma LoadCertKey_ok dir c k w w' : abs_dir dir → LoadCertKey ans alone dir w = (Ok (c, k), w') → w_tree w' = w_tree w ∧
  w_tree w !! (comps dir ++ ["node.crt"]) = Some (NFile c) ∧ w_tree w !! (comps dir ++ ["node.key"]) = Some (NFile k) ∧ X509KeyPair c k = true.
Proof using Type.
  intros Hd H. apply fs_bind_ok in H as (c1 & w1 & H1 & H). apply fs_bind_ok in H as (k1 & w2 & H2 & H). destruct (X509KeyPair c1 k1) eqn:E; [|done].
  injection H as -> -> <-. apply read_or_ok in H1 as [E1 H1], H2 as [E2 H2]. rewrite !comps_file in * by (done || file_name). rewrite E1 in *. done.
Qed.
Lemma saveToken_ok dir token w u w' : abs_dir dir → saveToken ans alone dir token w = (Ok u, w') → w_tree w' !! (comps dir ++ ["token"]) = Some (NFile token).
Proof using Type.
  intros Hd H. apply fs_bind_ok in H as (u1 & w1 & _ & H). apply write_ok in H. rewrite comps_file in H by (done || file_name). rewrite H. apply lookup_insert_eq.
Qed.
Lemma saveTokenHash_ok dir hash w u w' : abs_dir dir → saveTokenHash ans alone dir hash w = (Ok u, w') → w_tree w' !! (comps dir ++ [tokenFile]) = Some (NFile hash).
Proof using Type.
  intros Hd H. destruct (token_path_abs dir Hd) as (E1 & E2 & N1 & N2). unfold saveTokenHash in H. rewrite E2, E1 in H.
  apply fs_bind_ok in H as (u1 & w1 & _ & H). apply fs_bind_ok in H as (u2 & w2 & H2 & H). apply write_ok in H2. apply fs_bind_ok in H as (ok & w3 & H3 & H).
  unfold fs_op, alone in H3. destruct (os_RenameFile _ _ _ _) as [b t] eqn:Er. injection H3 as <- <-. destruct b.
  - injection H as _ <-. destruct (RenameFile_cases (ans (w_calls w2)) (abs_text (comps dir ++ ["mesh.token.tmp"])) (abs_text (comps dir ++ [tokenFile])) (w_tree w2)) as [E|(body & Hb & E)].
    + rewrite E in Er. discriminate Er.
    + rewrite E in Er. injection Er as <-. rewrite !comps_abs in * by done. rewrite H2, lookup_insert_eq in Hb. injection Hb as <-. apply lookup_insert_eq.
  - apply fs_bind_ok in H as (r & w4 & _ & H). done.
Qed.
End Alone.

(** ** The authority *)

Section Authority.
Context {X : X509} {L : X509Laws}.
(** An authority as [GenerateCA] makes it, and its files. *)
Definition made_ca (ca : x509_Certificate) (key : PrivKey) : Prop :=
  ∃ cn serial now, CreateCertificate (ca_template cn serial now) None key key = Some (x_Raw ca) ∧ x_Cert ca = cert_of (ca_template cn serial now).
Definition ca_files (cs : dir_path) (ca : x509_Certificate) (key : PrivKey) (t : tree) : Prop :=
  made_ca ca key ∧ ∃ d, MarshalECPrivateKey key = Some d ∧ t !! (cs ++ ["ca.crt"]) = Some (NFile (EncodeCertPEM ca)) ∧
    t !! (cs ++ ["ca.key"]) = Some (NFile (pem_Encode "EC PRIVATE KEY" d)).
(** No authority yet, or a whole one. *)
Definition ca_state (cs : dir_path) (t : tree) : Prop :=
  (t !! (cs ++ ["ca.crt"]) = None ∧ t !! (cs ++ ["ca.key"]) = None) ∨ ∃ ca key, ca_files cs ca key t.

Lemma GenerateCA_made dr cn ca key : GenerateCA dr cn = Ok (ca, key) → made_ca ca key.
Proof using L.
  unfold GenerateCA. intros H. apply res_bind_ok in H as (k & _ & H). apply res_bind_ok in H as (serial & _ & H).
  apply res_bind_ok in H as (der & Hd%option_ok & H). apply res_bind_ok in H as (cert & Hc%option_ok & H). injection H as <- <-.
  exists cn, serial, (dr_now dr). split; [done|]. cbn. apply create_law in Hd. congruence.
Qed.
Lemma MeshCA_ok ans dr dir name w ca key w' : abs_dir dir → ca_state (comps dir) (w_tree w) → loadOrCreateMeshCA ans alone dr dir name w = (Ok (ca, key), w') →
  ca_files (comps dir) ca key (w_tree w') ∧ ∀ ca0 key0, ca_files (comps dir) ca0 key0 (w_tree w) → ca = ca0 ∧ key = key0.
Proof using L.
  intros Hd Hst H. apply fs_bind_ok in H as (cm & w1 & H1 & H). apply fs_bind_ok in H as (km & w2 & H2 & H). apply missing_ok in H1 as [E1 M1], H2 as [E2 M2].
  rewrite !comps_file in * by (done || file_name). rewrite <- E1 in Hst, M1. rewrite <- E2 in Hst, M1, M2. rewrite <- E1, <- E2. clear E1 E2 w w1.
  destruct (cm && km) eqn:Hb.
  - apply andb_true_iff in Hb as [-> ->]. apply fs_bind_ok in H as (ca' & w3 & H3 & H). apply lift_ok in H3 as [H3 ->]. apply fs_bind_ok in H as (u & w4 & H4 & H).
    injection H as -> <-. apply fs_wrap_ok in H4. cbn [fst snd] in H4. apply SaveCA_ok in H4 as (d & Hd1 & Hc & Hk); [|done]. unfold wrap_err in H3. destruct (GenerateCA _ _) as [[ca0 key0]|] eqn:Eg; [|done].
    injection H3 as -> ->. apply GenerateCA_made in Eg. split; [split; [done|by exists d]|]. intros ca1 key1 (_ & d1 & _ & E & _). rewrite (M1 eq_refl) in E. done.
  - destruct (negb _); [done|]. apply fs_wrap_ok in H. apply LoadCA_ok in H as (E & certPEM & keyPEM & d & Hc & Hk & Hp & Hpc & Hpk & Hkk); [|done].
    destruct Hst as [[Hn _]|(ca0 & key0 & Hf)]; [congruence|]. rewrite E.
    assert (∀ ca1 key1, ca_files (comps dir) ca1 key1 (w_tree w2) → ca = ca1 ∧ key = key1) as Hsame.
    { intros ca1 key1 ((cn & serial & now & Hm1 & Hm2) & d1 & Hd1 & Hc1 & Hk1). assert (certPEM = EncodeCertPEM ca1 ∧ keyPEM = pem_Encode "EC PRIVATE KEY" d1) as [-> ->] by (split; congruence).
      unfold EncodeCertPEM in Hp. rewrite pem_law in Hp, Hpk. injection Hp as Hp. injection Hpk as <-. apply key_law in Hd1. apply create_law in Hm1.
      split; [|congruence]. destruct ca as [raw c], ca1 as [raw1 c1]. cbn in *. subst raw1. f_equal. congruence. }
    destruct (Hsame ca0 key0 Hf) as [-> ->]. done.
Qed.

(** A certificate of the authority. *)
Record trusted (ca : x509_Certificate) (name : string) (hosts : list string) (issued : time) (certPEM : string) : Prop := {
  tr_cert : ∃ der cert, pem_Decode certPEM = Some der ∧ ParseCertificate der = Some cert ∧ crt_CommonName cert = name ∧
    ∀ h, h ∈ hosts → match ParseIP h with Some ip => ip ∈ crt_IPAddresses cert | None => h ∈ crt_DNSNames cert end;
  tr_valid : ∀ now, valid_at now (x_Cert ca) → issued - certificateValidityBackdate ≤ now ≤ issued + 365 * 24 * Hour - Second → ValidateCert now certPEM ca = Ok () }.

Lemma add_host_spec hosts : ∀ st, let '(ips, names) := foldl add_host st hosts in
  (∀ ip, ip ∈ st.1 → ip ∈ ips) ∧ (∀ n, n ∈ st.2 → n ∈ names) ∧ ∀ h, h ∈ hosts → match ParseIP h with Some ip => ip ∈ ips | None => h ∈ names end.
Proof using Type.
  induction hosts as [|h hosts IH]; intros [ips names]; cbn [foldl]; [split_and!; [done|done|intros h Hh; by apply not_elem_of_nil in Hh]|].
  specialize (IH (add_host (ips, names) h)). destruct (foldl add_host (add_host (ips, names) h) hosts) as [ips' names']. destruct IH as (H1 & H2 & H3).
  unfold add_host in H1, H2. cbn [fst snd] in *. split_and!.
  - intros ip Hip. apply H1. destruct (ParseIP h); cbn; [apply elem_of_app; by left|done].
  - intros n Hn. apply H2. destruct (ParseIP h); cbn; [done|apply elem_of_app; by left].
  - intros x [-> |Hx]%elem_of_cons; [|by apply H3]. destruct (ParseIP h) as [ip|]; [apply H1|apply H2]; cbn; apply elem_of_app; right; by apply list_elem_of_singleton.
Qed.
Lemma IssueCert_trusted dr ca key name hosts c k : made_ca ca key → IssueCert dr ca key name hosts = Ok (c, k) →
  X509KeyPair c k = true ∧ trusted ca name hosts (dr_now dr) c.
Proof using L.
  intros (cn & serial & now0 & Hm1 & Hm2) H. unfold IssueCert, IssueCertWithValidity in H. change (365 * 24 * Hour <=? 0) with false in H. cbn iota in H.
  apply res_bind_ok in H as (sk & _ & H). apply res_bind_ok in H as (sn & _ & H). apply res_bind_ok in H as (der & Hd%option_ok & H).
  apply res_bind_ok in H as (kd & Hk%option_ok & H). injection H as <- <-. split; [by eapply pair_law|]. pose proof (create_law _ _ _ _ _ Hd) as Hp.
  pose proof (add_host_spec hosts ([], [])) as Hh. unfold node_template in *. destruct (foldl add_host ([], []) hosts) as [ips names]. destruct Hh as (_ & _ & Hh).
  constructor; [exists der; eexists; split_and!; [apply pem_law|exact Hp|done|exact Hh]|]. intros now Hca Hnow. unfold ValidateCert. rewrite pem_law. cbn [from_option res_bind].
  rewrite Hp. cbn [from_option res_bind]. destruct ca as [raw cert]. cbn [x_Raw x_Cert] in *. subst cert. rewrite (verify_law _ _ _ _ _ _ now (eq_refl : tm_IsCA (ca_template cn serial now0) = true) (list_elem_of_here _ _) Hm1 Hd Hca); [done|].
  unfold valid_at, cert_of. cbn [crt_NotBefore crt_NotAfter tm_NotBefore tm_NotAfter].
  pose proof (Z.mod_pos_bound (dr_now dr - certificateValidityBackdate) Second ltac:(done)). pose proof (Z.mod_pos_bound (dr_now dr + 365 * 24 * Hour) Second ltac:(done)). lia.
Qed.
End Authority.

(** ** A prepared node *)

Section Prepared.
Context {X : X509} {L : X509Laws}.
Context (random : nat → option (list ascii)) (suffix : nat → Z) (PublicKey : list ascii → list ascii).
Context (IDKey : list ascii → list ascii → Z → Z → Z → nat → list ascii) (IDKey_length : ∀ p s t m c n, length (IDKey p s t m c n) = n).
Context (unmarshal_map : string → option (option (list (string * yaml_value)))) (unmarshal_v2 : string → option TopologyV2) (version : string).
Notation load ans := (loadTopologyV2 ans alone unmarshal_map unmarshal_v2).
Notation prepare ans := (runNodePrepareCommand ans alone random suffix PublicKey IDKey unmarshal_map unmarshal_v2 version).

Definition topology_file (path : string) (topo : TopologyV2) (t : tree) : Prop :=
  ∃ data, t !! comps path = Some (NFile data) ∧ unmarshal_v2 data = Some topo ∧ ValidateV2 (Some topo) = Ok ().
Lemma load_ok ans path w topo w' : load ans path w = (Ok topo, w') → w_tree w' = w_tree w ∧ topology_file path topo (w_tree w).
Proof using Type.
  unfold loadTopologyV2. case_bool_decide; [done|]. intros Hrun. apply fs_bind_ok in Hrun as (r & w1 & H1 & Hrun). destruct r as [data| |]; [|done..].
  apply read_ok in H1 as [E1 H1]. apply fs_bind_ok in Hrun as (v & w2 & H2 & Hrun). apply lift_ok in H2 as [_ ->]. destruct (v =? SchemaV1); [done|]. destruct (negb _); [done|].
  apply fs_bind_ok in Hrun as (tp & w3 & H3 & Hrun). apply lift_ok in H3 as [H3%option_ok ->]. apply fs_bind_ok in Hrun as (u & w4 & H4 & Hrun). apply lift_ok in H4 as [H4 ->].
  injection Hrun as -> <-. split; [done|]. exists data. split_and!; [done..|]. by destruct (ValidateV2 _) as [[]|].
Qed.

(** What [node prepare] leaves in the directory [nd] of the node and beside it. *)
Record prepared (o : nodePrepareOptions) (dr : prepare_draws) (topo : TopologyV2) (node : NodeV2) (ca : x509_Certificate) (key : PrivKey) (t : tree) : Prop := {
  pp_declared : findTopologyNode (Some topo) (po_nodeName o) = Ok node;
  pp_ca : ca_files (comps (po_configDir o)) ca key t;
  pp_files : let nd := comps (po_configDir o) ++ ["nodes"; TrimSpace (po_nodeName o)] in ∃ certPEM keyPEM token hash,
    t !! (nd ++ ["node.crt"]) = Some (NFile certPEM) ∧ t !! (nd ++ ["node.key"]) = Some (NFile keyPEM) ∧
    X509KeyPair certPEM keyPEM = true ∧ trusted ca (n2_Name node) (nodeCertificateHosts node) (dr_now (pd_cert dr)) certPEM ∧
    t !! (nd ++ ["token"]) = Some (NFile token) ∧ t !! (nd ++ ["mesh.token"]) = Some (NFile hash) ∧ VerifyToken IDKey token hash = Ok () ∧
    if bool_decide (preparePlatform (po_platform o) node = "mikrotik")
    then ∃ wgKey endpoint script, t !! (nd ++ ["routeros.rsc"]) = Some (NFile script) ∧
      GenerateDeployRSC (deploy_values version topo node hash (po_controlPlane o) (po_targetROS o) (b64_encode (to_bytes certPEM)) (b64_encode (to_bytes keyPEM))
        (b64_encode (to_bytes (EncodeCertPEM ca))) wgKey endpoint) = Ok script
    else ∃ k, holds_key (nd ++ [wg_private]) k t ∧ holds_key (nd ++ [wg_public]) (PublicKey k) t }.

Lemma readBase64_ok ans p s w w' : readBase64File ans alone p w = (Ok s, w') → w_tree w' = w_tree w ∧ ∃ data, w_tree w !! comps p = Some (NFile data) ∧ s = b64_encode (to_bytes data).
Proof using Type.
  intros H. apply fs_bind_ok in H as (r & w1 & H1 & H). destruct r as [data| |]; [|done..]. injection H as <- <-. apply read_ok in H1 as [E1 H1]. split; [done|by exists data].
Qed.
Lemma mikrotik_ok ans topo node configDir nd hash cp ros p w w' cert key ca : abs_dir configDir → abs_dir nd →
  w_tree w !! (comps nd ++ ["node.crt"]) = Some (NFile cert) → w_tree w !! (comps nd ++ ["node.key"]) = Some (NFile key) → w_tree w !! (comps configDir ++ ["ca.crt"]) = Some (NFile ca) →
  prepareMikrotikRouterOS ans alone version topo node configDir nd hash cp ros w = (Ok p, w') →
  ∃ wgKey endpoint script, w_tree w' = <[comps nd ++ ["routeros.rsc"] := NFile script]> (w_tree w) ∧
    GenerateDeployRSC (deploy_values version topo node hash cp ros (b64_encode (to_bytes cert)) (b64_encode (to_bytes key)) (b64_encode (to_bytes ca)) wgKey endpoint) = Ok script.
Proof using Type.
  intros Hcd Hnd Hc Hk Ha H. unfold prepareMikrotikRouterOS in H. destruct (negb _); [done|]. case_bool_decide; [done|].
  apply fs_bind_ok in H as (s1 & w1 & H1 & H). apply fs_bind_ok in H as (s2 & w2 & H2 & H). apply fs_bind_ok in H as (s3 & w3 & H3 & H). apply fs_bind_ok in H as (r & w4 & H4 & H).
  apply fs_bind_ok in H as (ep & w5 & H5 & H). apply fs_bind_ok in H as (script & w6 & H6 & H). apply fs_bind_ok in H as (u & w7 & H7 & H). injection H as _ <-.
  apply readBase64_ok in H1 as (E1 & d1 & H1 & ->), H2 as (E2 & d2 & H2 & ->), H3 as (E3 & d3 & H3 & ->). apply lift_ok in H5 as [H5 ->], H6 as [H6 ->]. apply write_ok in H7.
  assert (w_tree w4 = w_tree w3) as E4. { unfold fs_try in H4. destruct (readBase64File _ _ _ w3) as [r' w3'] eqn:Er. injection H4 as <- <-.
    unfold readBase64File, fs_bind, fs_read, fs_op, alone in Er. cbn beta iota in Er. destruct (os_ReadFile _ _ _); by injection Er as _ <-. }
  rewrite !comps_file in * by (done || file_name). rewrite E1 in *. rewrite E2 in *. rewrite E3 in *. rewrite E4 in H7.
  assert (d1 = cert ∧ d2 = key ∧ d3 = ca) as (-> & -> & ->) by (split_and!; congruence).
  destruct (GenerateDeployRSC _) as [s|e] eqn:Eg; [|done]. injection H6 as ->. eexists _, ep, script. split; [exact H7|exact Eg].
Qed.

(** The keys, or the script, keep what is there beside them. *)
Lemma keys_ok ans o topo node nd hash w out w' cert key ca : abs_dir (po_configDir o) → abs_dir nd → (∀ x, comps (po_configDir o) ++ ["ca.crt"] ≠ comps nd ++ [x]) →
  w_tree w !! (comps nd ++ ["node.crt"]) = Some (NFile cert) → w_tree w !! (comps nd ++ ["node.key"]) = Some (NFile key) → w_tree w !! (comps (po_configDir o) ++ ["ca.crt"]) = Some (NFile ca) →
  prepare_keys ans alone random suffix PublicKey version o topo node nd hash w = (Ok out, w') →
  (∀ x body, x ∈ ["node.crt"; "node.key"; "token"; "mesh.token"] → w_tree w !! (comps nd ++ [x]) = Some (NFile body) → w_tree w' !! (comps nd ++ [x]) = Some (NFile body)) ∧
  (∀ k body, (∀ x, k ≠ comps nd ++ [x]) → w_tree w !! k = Some (NFile body) → w_tree w' !! k = Some (NFile body)) ∧
  if bool_decide (preparePlatform (po_platform o) node = "mikrotik")
  then ∃ wgKey endpoint script, w_tree w' !! (comps nd ++ ["routeros.rsc"]) = Some (NFile script) ∧
    GenerateDeployRSC (deploy_values version topo node hash (po_controlPlane o) (po_targetROS o) (b64_encode (to_bytes cert)) (b64_encode (to_bytes key)) (b64_encode (to_bytes ca)) wgKey endpoint) = Ok script
  else ∃ k, holds_key (comps nd ++ [wg_private]) k (w_tree w') ∧ holds_key (comps nd ++ [wg_public]) (PublicKey k) (w_tree w').
Proof using Type.
  intros Hcd Hnd Hca Hc Hk Ha H. unfold prepare_keys in H. set (pf := preparePlatform (po_platform o) node) in *. destruct wg_names_normal as [Np Nq].
  destruct (bool_decide (pf = "") || bool_decide (pf = "linux")) eqn:Hpf.
  - rewrite bool_decide_eq_false_2 by (intros E; by rewrite E in Hpf). apply fs_bind_ok in H as ([k pub] & w1 & H1 & H). injection H as _ <-. apply fs_wrap_ok in H1.
    set (P := λ k, ∃ x, k = comps nd ++ [x] ∧ key_name wg_private wg_public x). set (Q := λ k, k `prefix_of` comps nd).
    pose proof (c_keypair ans alone P Q (alone_confined P Q) random suffix PublicKey nd wg_private wg_public Hnd ltac:(by intros r Hr _; right) Np Nq ltac:(intros x Hx; by exists x) w) as Hconf.
    rewrite H1 in Hconf. cbn [snd] in Hconf. split_and!.
    + intros x body Hx. apply (conf_keeps P Q); [done|]. intros (y & E & Hy). apply app_inj_tail in E as [_ <-]. rewrite !elem_of_cons in Hx.
      repeat destruct Hx as [-> |Hx]; [destruct Hy as [Hy|[Hy|Hy]]; discriminate Hy..|by apply not_elem_of_nil in Hx].
    + intros k0 body Hk0. apply (conf_keeps P Q); [done|]. intros (y & E & _). by apply (Hk0 y).
    + exists k. eapply pair_ok in H1 as (-> & A & B); [done|done..|intros n t; apply kept_files_refl].
  - case_bool_decide as Hm; [|done]. case_bool_decide; [done|]. apply fs_bind_ok in H as (p & w1 & H1 & H). injection H as _ <-.
    eapply mikrotik_ok in H1 as (wgKey & ep & script & E & Hg); [|done..]. rewrite E. split_and!.
    + intros x body Hx Hb. rewrite lookup_insert_ne; [done|]. apply snoc_ne. intros <-. revert Hx. apply (bool_decide_unpack (_ ∉ _)). by vm_compute.
    + intros k body Hk0 Hb. rewrite lookup_insert_ne; [done|]. by apply not_eq_sym, Hk0.
    + exists wgKey, ep, script. split; [apply lookup_insert_eq|done].
Qed.

(** Saving the certificate, the token and its hash. *)
Lemma material_ok ans nd cert key token hash w u1 w1 u2 w2 u3 w3 : abs_dir nd →
  fs_wrap NSaveCert (SaveCertKey ans alone nd cert key) w = (Ok u1, w1) → saveToken ans alone nd token w1 = (Ok u2, w2) → saveTokenHash ans alone nd hash w2 = (Ok u3, w3) →
  w_tree w3 !! (comps nd ++ ["node.crt"]) = Some (NFile cert) ∧ w_tree w3 !! (comps nd ++ ["node.key"]) = Some (NFile key) ∧
  w_tree w3 !! (comps nd ++ ["token"]) = Some (NFile token) ∧ w_tree w3 !! (comps nd ++ ["mesh.token"]) = Some (NFile hash) ∧
  ∀ k body, (∀ x, k ≠ comps nd ++ [x]) → w_tree w !! k = Some (NFile body) → w_tree w3 !! k = Some (NFile body).
Proof using Type.
  intros Hnd H1 H2 H3. apply fs_wrap_ok in H1. set (in_ := λ (l : list string) (k : dir_path), ∃ x, k = comps nd ++ [x] ∧ x ∈ l). set (Q := λ k, k `prefix_of` comps nd).
  assert (∀ l x, x ∈ l → in_ l (comps nd ++ [x])) as Hin by (intros l x Hx; by exists x).
  assert (∀ l, way (in_ l) Q nd) as Hway by (by intros l r Hr _; right).
  pose proof (c_SaveCertKey ans alone (in_ ["node.crt"; "node.key"]) Q (alone_confined _ _) nd cert key Hnd (Hway _) ltac:(apply Hin; in_list) ltac:(apply Hin; in_list) w) as C1.
  pose proof (c_saveToken ans alone (in_ ["token"]) Q (alone_confined _ _) nd token Hnd (Hway _) ltac:(apply Hin; in_list) w1) as C2.
  pose proof (c_saveTokenHash ans alone (in_ ["mesh.token"; "mesh.token.tmp"]) Q (alone_confined _ _) nd hash Hnd (Hway _) ltac:(apply Hin; in_list) ltac:(apply Hin; in_list) w2) as C3.
  rewrite H1 in C1. rewrite H2 in C2. rewrite H3 in C3. cbn [snd] in *. apply SaveCertKey_ok in H1 as [A1 B1]; [|done]. apply saveToken_ok in H2; [|done]. apply saveTokenHash_ok in H3; [|done].
  assert (∀ l x, bool_decide (x ∈ l) = false → ¬ in_ l (comps nd ++ [x])) as Hout by (intros l x Hx%bool_decide_eq_false (y & E & Hy); by apply app_inj_tail in E as [_ <-]).
  split_and!; [..|exact H3|].
  - eapply conf_keeps, (conf_keeps _ _ _ _ _ _ C2), A1; [exact C3|by apply Hout..].
  - eapply conf_keeps, (conf_keeps _ _ _ _ _ _ C2), B1; [exact C3|by apply Hout..].
  - eapply conf_keeps, H2; [exact C3|by apply Hout].
  - intros k body Hk Hb. assert (∀ l, ¬ in_ l k) as Hno by (intros l (x & E & _); by apply (Hk x)).
    eapply conf_keeps, (conf_keeps _ _ _ _ _ _ C2), (conf_keeps _ _ _ _ _ _ C1), Hb; [exact C3|apply Hno..].
Qed.
Lemma prepare_leaves ans dr o w out w' : abs_dir (po_configDir o) → ca_state (comps (po_configDir o)) (w_tree w) →
  (∀ salt, pd_salt dr = Some salt → length salt = argon2SaltLen) → prepare ans dr o w = (Ok out, w') →
  ∃ topo node ca key, topology_file (po_topologyPath o) topo (w_tree w) ∧ prepared o dr topo node ca key (w_tree w') ∧
    ∀ ca0 key0, ca_files (comps (po_configDir o)) ca0 key0 (w_tree w) → ca = ca0 ∧ key = key0.
Proof using L IDKey_length.
  intros Hcd Hst Hsalt H. unfold runNodePrepareCommand in H. apply fs_bind_ok in H as (x0 & w0 & H0 & H). apply lift_ok in H0 as [_ ->].
  apply fs_bind_ok in H as (topo & w1 & H1 & H). apply load_ok in H1 as [E1 Ht]. apply fs_bind_ok in H as (node & w2 & H2 & H). apply lift_ok in H2 as [Hdecl ->]. pose proof (found_node _ _ _ Hdecl) as [_ Hname].
  apply fs_bind_ok in H as (nd & w3 & H3 & H). apply lift_ok in H3 as [H3 ->]. apply safe_dir in H3 as [Hn ->]; [|done].
  apply fs_bind_ok in H as ([ca key] & w4 & H4 & H). rewrite <- E1 in Hst. eapply MeshCA_ok in H4 as [Hca Hsame]; [|done..]. rewrite E1 in Hsame.
  apply fs_bind_ok in H as ([cert kpem] & w5 & H5 & H). apply lift_ok in H5 as [H5 ->]. apply fs_bind_ok in H as (u1 & w6 & H6 & H).
  apply fs_bind_ok in H as (token & w7 & H7 & H). apply lift_ok in H7 as [_ ->]. apply fs_bind_ok in H as (hash & w8 & H8 & H). apply lift_ok in H8 as [H8 ->].
  apply fs_bind_ok in H as (u2 & w9 & H9 & H). apply fs_bind_ok in H as (u3 & w10 & H10 & H). cbn [fst snd] in *.
  destruct (IssueCert _ _ _ _ _) as [[c k]|] eqn:Ei; [|done]. injection H5 as -> ->. pose proof Hca as [Hm (d & Hd & Hc1 & Hc2)]. destruct (IssueCert_trusted _ _ _ _ _ _ _ Hm Ei) as [Hpair Htr].
  rewrite Hname, TrimSpace_idem in *. set (cs := comps (po_configDir o)) in *. set (name := TrimSpace (po_nodeName o)) in *.
  assert (comps (abs_text (cs ++ ["nodes"; name])) = cs ++ ["nodes"; name]) as Hcs by (apply comps_abs, Forall_app; split; [by apply comps_normal|constructor; [file_name|by apply Forall_singleton]]).
  set (ndp := abs_text (cs ++ ["nodes"; name])) in *. assert (abs_dir ndp) as Hnd by apply abs_rooted.
  assert (∀ f x, cs ++ [f] ≠ comps ndp ++ [x]) as Hout. { intros f x E. apply (f_equal length) in E. rewrite Hcs, !length_app in E. cbn in E. lia. }
  destruct (material_ok _ _ _ _ _ _ _ _ _ _ _ _ _ Hnd H6 H9 H10) as (F1 & F2 & F3 & F4 & F5).
  eapply keys_ok in H as (G1 & G2 & G3); [|done|done|apply Hout|exact F1|exact F2|apply F5; [apply Hout|exact Hc1]]. rewrite Hcs in *.
  exists topo, node, ca, key. split; [done|]. split; [|done]. constructor; [done|split; [done|exists d; split_and!; [done|apply G2, F5..]; try done; apply Hout]|].
  exists cert, kpem, token, hash. rewrite Hname. split_and!; [apply G1; [in_list|done]..|done|done|apply G1; [in_list|done]|apply G1; [in_list|done]| |exact G3].
  unfold wrap_err in H8. destruct (HashToken IDKey (pd_salt dr) token) as [h|] eqn:Eh; [|done]. injection H8 as ->. unfold HashToken, HashTokenV2 in Eh.
  destruct (pd_salt dr) as [salt|] eqn:Es; [|done]. injection Eh as <-. rewrite VerifyToken_blob by (by apply Hsalt || apply IDKey_length). by rewrite bool_decide_eq_true_2.
Qed.

(** *** Registration *)

Notation request ans := (init_request ans alone unmarshal_map unmarshal_v2).
Lemma c_admin ans others P Q nc dr cp dir : (∀ n t, confined P Q t (others n t)) → abs_dir dir → way P Q (path_Join [dir; "admin"]) →
  P (comps dir ++ ["admin"; "node.crt"]) → P (comps dir ++ ["admin"; "node.key"]) → respects (confined P Q) (newControlPlaneAdminConn ans others nc dr cp dir).
Proof using Type.
  intros Ho Hd Hw H1 H2. assert (abs_dir (path_Join [dir; "admin"])) as Ha by (rewrite join_file by (done || file_name); apply abs_rooted).
  assert (comps (path_Join [dir; "admin"]) = comps dir ++ ["admin"]) as Hc by (apply comps_file; [done|file_name]).
  apply c_bind; [|intros c; destruct nc; [apply c_ret|apply c_fail]]. apply c_bind; [|intros c; apply c_bind; [unfold LoadCACert, read_or; conf_walk|intros; apply c_ret]].
  unfold loadOrCreateControlPlaneAdminCert, controlPlaneAdminCertDir. destruct (bool_decide _); [apply c_fail|]. apply c_bind; [by apply c_missing|]. intros cm. apply c_bind; [by apply c_missing|]. intros km.
  apply c_bind; [|intros _; by apply c_wrap, c_LoadCertKey]. destruct (cm && km); [|destruct (negb _); [apply c_fail|apply c_ret]].
  apply c_bind; [by apply c_wrap, c_LoadCA|]. intros ca. apply c_bind; [apply c_lift|]. intros pem. apply c_wrap, c_SaveCertKey; [done..| |]; by rewrite Hc, <- app_assoc.
Qed.
Lemma prepared_pubkey_ok k key t raw : holds_key k key t → t !! k = Some (NFile raw) → prepared_pubkey (RBody raw) = of_bytes key ∧ key_ok key.
Proof using Type.
  intros (body & Hb & Hp & _) Hr. rewrite Hr in Hb. injection Hb as <-. unfold prepared_pubkey, ParseKey in *. destruct (b64_decode _) as [dec|]; [|done]. apply NewKey_ok in Hp as [-> Hk]. unfold key_ok in *. rewrite bool_decide_eq_true_2 by done. done.
Qed.
(** What the request of [node init] carries. *)
Lemma request_ok nc dr v w req w' : abs_dir (io_configDir v) → request all_ok nc dr v w = (Ok req, w') →
  ∃ topo node, topology_file (io_topologyPath v) topo (w_tree w) ∧ findTopologyNode (Some topo) (io_nodeName v) = Ok node ∧
    let nd := comps (io_configDir v) ++ ["nodes"; TrimSpace (io_nodeName v)] in
    rq_NodeName req = n2_Name node ∧ rq_Roles req = n2_Roles node ∧ rq_OverlayIp req = n2_OverlayIP node ∧
    w_tree w !! (nd ++ ["node.crt"]) = Some (NFile (rq_NodeCertPem req)) ∧
    (∀ key, holds_key (nd ++ [wg_public]) key (w_tree w) → rq_Pubkey req = of_bytes key ∧ key_ok key) ∧
    (∀ key x, holds_key (nd ++ [x]) key (w_tree w) → holds_key (nd ++ [x]) key (w_tree w')).
Proof using Type.
  intros Hd H. apply fs_bind_ok in H as (topo & w1 & H1 & H). apply load_ok in H1 as [E1 Ht]. apply fs_bind_ok in H as (node & w2 & H2 & H). apply lift_ok in H2 as [H2 ->].
  apply fs_bind_ok in H as (nd & w3 & H3 & H). apply lift_ok in H3 as [H3 ->]. apply safe_dir in H3 as [Hn ->]; [|done]. pose proof (found_node _ _ _ H2) as [_ Hname].
  rewrite Hname, TrimSpace_idem in *. set (cs := comps (io_configDir v)) in *. set (name := TrimSpace (io_nodeName v)) in *.
  assert (comps (abs_text (cs ++ ["nodes"; name])) = cs ++ ["nodes"; name]) as Hcs by (apply comps_abs, Forall_app; split; [by apply comps_normal|constructor; [file_name|by apply Forall_singleton]]).
  set (ndp := abs_text (cs ++ ["nodes"; name])) in *. assert (abs_dir ndp) as Hnd by apply abs_rooted.
  apply fs_bind_ok in H as ([c k] & w4 & H4 & H). apply fs_wrap_ok in H4. apply LoadCertKey_ok in H4 as [E4 _]; [|done].
  apply fs_bind_ok in H as (r & w5 & H5 & H). apply fs_bind_ok in H as (cert & w6 & H6 & H). destruct r as [cert'| |]; [|done..]. injection H6 as -> <-. apply read_ok in H5 as [E5 H5].
  apply fs_bind_ok in H as (cr & w7 & H7 & H). apply fs_bind_ok in H as (raw & w8 & H8 & H). apply fs_bind_ok in H as (ep & w9 & H9 & H). apply lift_ok in H9 as [_ ->]. injection H as <- <-.
  rewrite comps_file, Hcs in H5 by (done || file_name). rewrite E4 in E5, H5. rewrite E1 in E5, H5.
  set (P := λ k, k = cs ++ ["admin"; "node.crt"] ∨ k = cs ++ ["admin"; "node.key"]). set (Q := λ k, k `prefix_of` (cs ++ ["admin"])).
  assert (way P Q (path_Join [io_configDir v; "admin"])) as Hway by (intros r' Hr' _; right; rewrite comps_file in Hr' by (done || file_name); exact Hr').
  pose proof (c_admin all_ok alone P Q nc dr (io_controlPlane v) (io_configDir v) (alone_confined P Q) Hd Hway (or_introl eq_refl) (or_intror eq_refl) w5) as C. rewrite H7 in C. cbn [snd] in C.
  rewrite E5 in C. unfold fs_read, fs_op, all_ok, alone in H8. cbn beta iota in H8. injection H8 as <- <-. cbn [w_tree].
  assert (∀ x, ¬ P ((cs ++ ["nodes"; name]) ++ [x])) as HP by (intros x [E|E]; rewrite <- app_assoc in E; apply app_inv_head in E; discriminate E).
  assert (∀ key x, holds_key ((cs ++ ["nodes"; name]) ++ [x]) key (w_tree w) → holds_key ((cs ++ ["nodes"; name]) ++ [x]) key (w_tree w7)) as Hkeep.
  { intros key x (body & Hb & Hrest). exists body. split; [|done]. eapply conf_keeps; [exact C|apply HP|done]. }
  exists topo, node. split_and!; try done. intros key Hk%Hkeep. destruct (Hk) as (body & Hb & _). cbn [rq_Pubkey]. unfold os_ReadFile. rewrite comps_file, Hcs, Hb by (done || file_name).
  by eapply prepared_pubkey_ok.
Qed.
End Prepared.
