(* ===== verification/NodeCmdRuns.v ===== *)
(** * Whole runs of the node commands

    Where [node prepare] writes, what it leaves, and that [node init] registers exactly
    that; what goes wrong when the authority is made by two processes at once, or when
    a write fails half way. A stand-in for X.509 lets the examples run. *)

From S2P Require Import Prelude GoStrings GoNet GoPath GoText Role Ranges TopologyV2 Topology Migrate WgTypes DualListener Ledger Registry AuditTrail CertLifecycle Server ServerContracts ClientCommand RouterOS RouterStatic.
From S2P Require Import GoFiles Token FileScript KeyFiles TlsFiles NodeCmd NodeCmdProofs.

Section Runs.
Context {X : X509} {L : X509Laws}.
Context (random : nat → option (list ascii)) (suffix : nat → Z) (PublicKey : list ascii → list ascii).
Context (IDKey : list ascii → list ascii → Z → Z → Z → nat → list ascii) (IDKey_length : ∀ p s t m c n, length (IDKey p s t m c n) = n).
Context (unmarshal_map : string → option (option (list (string * yaml_value)))) (unmarshal_v2 : string → option TopologyV2) (version : string).
Context (clock : nat → string → time) (onRegister : option (RegisteredNode → option string)).
Notation prepare ans others := (runNodePrepareCommand ans others random suffix PublicKey IDKey unmarshal_map unmarshal_v2 version).
Notation init ans := (runNodeInitCommand ans alone unmarshal_map unmarshal_v2 clock onRegister).

(** C15. Whatever the topology declares, whatever names it uses, whichever calls fail and
    whatever other runs for the same node do in between, preparing a node changes the
    two files of the mesh's authority and the node's own directory only; elsewhere at
    most the directories that lead there appear. *)
Theorem prepare_confined ans others dr o : abs_dir (po_configDir o) →
  let P := prepare_places (po_configDir o) (po_nodeName o) in let Q := prepare_dirs (po_configDir o) (po_nodeName o) in
  (∀ n t, confined P Q t (others n t)) →
  ∀ w, confined P Q (w_tree w) (w_tree (prepare ans others dr o w).2).
Proof using Type. intros Hd P Q Ho. by apply prepare_respects. Qed.


End Runs.

(** ** A stand-in for X.509

    A certificate is encoded with its subject's key, its signer's and whether it may sign
    others; a signature is valid when the signer is the subject of an authority that may. *)

#[global] Instance Certificate_eq_dec : EqDecision Certificate.
Proof. solve_decision. Defined.
#[global] Instance Certificate_countable : Countable Certificate.
Proof.
  apply (inj_countable' (λ c, (crt_CommonName c, crt_NotBefore c, crt_NotAfter c, crt_DNSNames c, crt_IPAddresses c))
    (λ '(cn, nb, na, dns, ips), MkCert cn nb na dns ips)). by intros [].
Defined.
Fixpoint pos_text (p : positive) : string :=
  match p with xI p => String "1" (pos_text p) | xO p => String "0" (pos_text p) | xH => "" end.
Fixpoint text_pos (s : string) : option positive :=
  match s with
  | EmptyString => Some xH
  | String "1" s => xI <$> text_pos s
  | String "0" s => xO <$> text_pos s
  | String _ _ => None
  end.
Lemma text_pos_text p : text_pos (pos_text p) = Some p.
Proof. induction p as [p IH|p IH|]; cbn; [by rewrite IH..|done]. Qed.
Definition demo_der (x : Certificate * string * string * bool) : string := pos_text (encode x).
Definition demo_parse (s : string) : option (Certificate * string * string * bool) := text_pos s ≫= decode.
Lemma demo_parse_der x : demo_parse (demo_der x) = Some x.
Proof. unfold demo_parse, demo_der. rewrite text_pos_text. cbn. apply decode_encode. Qed.
Definition demo_pem (ty b : string) : string := String "P" b.
Definition demo_unpem (s : string) : option string := match s with String "P" b => Some b | _ => None end.
Definition demo_verify (now : time) (root der : string) : bool :=
  match demo_parse root, demo_parse der with
  | Some (ca, subject, _, signs), Some (c, _, signer, _) =>
      signs && bool_decide (signer = subject) && bool_decide (valid_at now ca) && bool_decide (valid_at now c)
  | _, _ => false
  end.
#[global] Instance KeyUsage_eq_dec : EqDecision KeyUsage.
Proof. solve_decision. Defined.
#[global] Instance valid_at_dec now c : Decision (valid_at now c).
Proof. unfold valid_at. apply _. Defined.
#[global] Instance demo_x509 : X509 := {|
  PrivKey := string; pem_Encode := demo_pem; pem_Decode := demo_unpem; ParseCertificate := λ s, (λ x, x.1.1.1) <$> demo_parse s;
  CreateCertificate := λ tm p k s, Some (demo_der (cert_of tm, k, s, tm_IsCA tm && bool_decide (KeyUsageCertSign ∈ tm_KeyUsage tm))); MarshalECPrivateKey := Some; ParseECPrivateKey := Some;
  X509KeyPair := λ c k, match demo_unpem c ≫= demo_parse, demo_unpem k with Some (_, subject, _, _), Some k => bool_decide (subject = k) | _, _ => false end;
  AppendCertsFromPEM := λ s, bool_decide (is_Some (demo_unpem s ≫= demo_parse)); Verify := demo_verify |}.
#[global] Instance demo_x509_laws : X509Laws.
Proof.
  constructor; cbn -[demo_der demo_parse demo_verify].
  - done.
  - by intros k d [= ->].
  - intros tm p k s der [= <-]. by rewrite demo_parse_der.
  - intros tm p k s der d [= <-] [= ->]. rewrite demo_parse_der. by rewrite bool_decide_eq_true_2.
  - intros der c H. destruct (demo_parse der) as [x|] eqn:E; [|done]. by apply bool_decide_eq_true_2.
  - intros ca tm k s root der now Hc Hu [= <-] [= <-] Hca Htm. unfold demo_verify. rewrite !demo_parse_der, Hc. by rewrite !bool_decide_eq_true_2.
Qed.

(** ** One node, prepared and registered *)

Definition demo_config : string := "/etc/mesh".
Definition demo_topology : string := "/etc/topology.yml".
Definition run_topo : TopologyV2 := demo_topo "fd00::1" "fd00::2".
Definition demo_prepare_options (platform : string) : nodePrepareOptions := MkPrepareOptions "e1" demo_topology demo_config platform "" "" "".
Definition demo_init_options : nodeInitOptions := MkInitOptions " e1 " demo_topology demo_config "10.0.0.1:9090" "" "" 0.
Definition demo_time : time := 63850000000 * Second.
Definition demo_draws (k : string) : draws := MkDraws (X := demo_x509) (Some k) (Some 7) demo_time.
Definition demo_prepare_draws (k : string) : prepare_draws :=
  MkPrepareDraws (demo_draws (k +:+ "-ca")) (demo_draws (k +:+ "-node")) (Some (replicate 32 "t"%char)) (Some some_salt).
Definition demo_map (s : string) : option (option (list (string * yaml_value))) := Some (Some [("schema_version", YInt 2)]).
Definition demo_tree : tree := <[["etc"] := NDir]> (<[["etc"; "topology.yml"] := NFile "nodes"]> ∅).
Definition demo_prepare (ans : nat → answer) (others : nat → tree → tree) (k : string) (w : world) : res node_error nodePrepareJSONOutput * world :=
  runNodePrepareCommand ans others (demo_random "b") (demo_suffix 2) demo_public padded_key demo_map (λ _, Some run_topo) "2.0"
    (demo_prepare_draws k) (demo_prepare_options "") w.
Definition demo_start : world := MkWorld demo_tree 0.
Definition after_prepare : world := (demo_prepare all_ok alone "a" demo_start).2.
Definition demo_out : nodePrepareJSONOutput :=
  MkPrepareOutput "e1" "/etc/mesh/nodes/e1" "/etc/mesh/nodes/e1/token" "/etc/mesh/nodes/e1/mesh.token" "/etc/mesh/nodes/e1/node.crt" "/etc/mesh/nodes/e1/node.key" ""
    "/etc/mesh/nodes/e1/wireguard-private.key" "/etc/mesh/nodes/e1/wireguard-public.key".
Definition run_server : Server := NewServer NewRegistry NewLedger (NewAuditLog DEmpty 10).
Definition init_with (ans : nat → answer) (w : world) : res node_error nodeInitJSONOutput * world * Server :=
  runNodeInitCommand ans alone demo_map (λ _, Some run_topo) (λ _ _, demo_time) None true (demo_draws "admin") Delivered demo_init_options w run_server.
Definition demo_init : world → res node_error nodeInitJSONOutput * world * Server := init_with all_ok.

Lemma demo_runs : (demo_prepare all_ok alone "a" demo_start).1 = Ok demo_out ∧ is_ok (demo_init after_prepare).1.1 = true.
Proof. split; vm_compute; reflexivity. Qed.

Lemma prepare_confined_witness : w_tree after_prepare !! ["etc"; "topology.yml"] = Some (NFile "nodes").
Proof.
  pose proof (prepare_confined (demo_random "b") (demo_suffix 2) demo_public padded_key demo_map (λ _, Some run_topo) "2.0" all_ok alone (demo_prepare_draws "a") (demo_prepare_options "")
    eq_refl (alone_confined _ _) demo_start) as C.
  eapply conf_keeps; [exact C| |vm_compute; reflexivity]. apply (bool_decide_unpack (¬ (_ ∨ _ ∨ _))). vm_compute. exact I.
Defined.
Lemma demo_ca_state : ca_state (comps demo_config) (w_tree demo_start).
Proof. left. split; vm_compute; reflexivity. Qed.
Lemma demo_salt k : ∀ salt, pd_salt (demo_prepare_draws k) = Some salt → length salt = argon2SaltLen.
Proof. intros salt E. injection E as <-. reflexivity. Qed.

(** ** The authority's files are written one after the other *)

(** A run that cannot write [ca.key] leaves [ca.crt] alone, *)
Definition no_ca_key (n : nat) : answer := if Nat.eqb n 5 then AFail 0 (λ _, false) else AOk.
Definition half_world : world := (demo_prepare no_ca_key alone "a" demo_start).2.
(** and from then on every run refuses to work and changes nothing. *)
Theorem half_authority : (demo_prepare no_ca_key alone "a" demo_start).1 = Err (NMeshCA (ErrTlsWrite "ca.key")) ∧
  (∀ k, (demo_prepare all_ok alone k half_world).1 = Err NMeshCAIncomplete) ∧ ∀ k, w_tree (demo_prepare all_ok alone k half_world).2 = w_tree half_world.
Proof. split_and!; [|intros k|intros k]; vm_compute; reflexivity. Qed.

(** Two runs that both find no authority each make one. When the second writes both files
    between the two writes of the first, the certificate of one and the key of the other
    stay: the first run succeeds, and its node is not trusted. *)
Definition other_ca : x509_Certificate * string := match GenerateCA (demo_draws "b-ca") "demo CA" with Ok p => p | Err _ => (MkX509 "" (MkCert "" 0 0 [] []), "") end.
Definition overtaken_ca (n : nat) (t : tree) : tree :=
  if Nat.eqb n 5 then w_tree (SaveCA all_ok alone demo_config other_ca.1 other_ca.2 (MkWorld t 0)).2 else t.
Theorem authority_race : let '(r, w) := demo_prepare all_ok overtaken_ca "a" demo_start in
  r = Ok demo_out ∧ w_tree w !! ["etc"; "mesh"; "ca.crt"] = Some (NFile (EncodeCertPEM other_ca.1)) ∧
  match w_tree w !! ["etc"; "mesh"; "nodes"; "e1"; "node.crt"] with
  | Some (NFile cert) => ValidateCert demo_time cert other_ca.1 = Err ErrTlsVerify
  | _ => False
  end.
Proof. vm_compute. split_and!; reflexivity. Qed.

(** ** An unreadable key *)

(** [node init] takes a public key file it cannot read for a node without a key: the node is
    registered, and no peer will be configured for it. *)
Definition no_public_key (n : nat) : answer := if Nat.eqb n (w_calls after_prepare + 14) then AFail 0 (λ _, false) else AOk.
Theorem unreadable_key_ignored : is_ok (init_with no_public_key after_prepare).1.1 = true ∧
  rn_Pubkey <$> rg_byName (sv_registry (init_with no_public_key after_prepare).2) !! "e1" = Some "" ∧
  rn_Pubkey <$> rg_byName (sv_registry (demo_init after_prepare).2) !! "e1" = Some (of_bytes (demo_public bkey)).
Proof. vm_compute. split_and!; reflexivity. Qed.
