(* ===== verification/GoDuration.v ===== *)
(** * Go's [time.Duration] as text

    [ParseDuration] reads a signed sequence of decimal numbers with units into
    nanoseconds; the fraction of a number is scaled in binary64 arithmetic, as the library
    does. [Duration_String] writes nanoseconds in the largest units that fit. *)

From Stdlib Require Import SpecFloat.
From S2P Require Import Prelude GoStrings GoNet GoText.

(** ** Reading *)

(** [unitMap]; the two micro signs are U+00B5 and U+03BC. *)
Definition unit_of (u : list ascii) : option Z :=
  let s := of_bytes u in
  if bool_decide (s = "ns") then Some 1 else
  if bool_decide (s = "us") then Some 1000 else
  if bool_decide (u = chr <$> [194; 181; 115]) then Some 1000 else
  if bool_decide (u = chr <$> [206; 188; 115]) then Some 1000 else
  if bool_decide (s = "ms") then Some 1000000 else
  if bool_decide (s = "s") then Some 1000000000 else
  if bool_decide (s = "m") then Some 60000000000 else
  if bool_decide (s = "h") then Some 3600000000000 else None.

(** The digits at the front; [None] when they exceed [1<<63]. *)
Fixpoint leadingInt (x : Z) (l : list ascii) : option (Z * list ascii) :=
  match l with
  | a :: r =>
      if negb (is_digit a) then Some (x, l) else
      if 2 ^ 63 / 10 <? x then None else
      let x := x * 10 + (code a - 48) in
      if 2 ^ 63 <? x then None else leadingInt x r
  | [] => Some (x, [])
  end.
(** Digits that do not fit are skipped. *)
Fixpoint leadingFraction (overflow : bool) (x : Z) (scale : spec_float) (l : list ascii) : Z * spec_float * list ascii :=
  match l with
  | a :: r =>
      if negb (is_digit a) then (x, scale, l) else
      if overflow then leadingFraction true x scale r else
      if (2 ^ 63 - 1) / 10 <? x then leadingFraction true x scale r else
      let y := x * 10 + (code a - 48) in
      if 2 ^ 63 <? y then leadingFraction true x scale r else
      leadingFraction false y (SFmul 53 1024 scale (float64 10)) r
  | [] => (x, scale, [])
  end.
Definition number_char (a : ascii) : bool := bool_decide (a = "."%char) || is_digit a.
Fixpoint span_unit (l : list ascii) : list ascii * list ascii :=
  match l with
  | a :: r => if number_char a then ([], l) else let '(u, rest) := span_unit r in (a :: u, rest)
  | [] => ([], [])
  end.
(** One number and its unit: the nanoseconds and what follows. *)
Definition duration_term (l : list ascii) : option (Z * list ascii) :=
  match l with
  | [] => None
  | c :: _ =>
      if negb (number_char c) then None else
      '(v, l1) ← leadingInt 0 l;
      let pre := negb (bool_decide (length l = length l1)) in
      let '(f, scale, l2, post) :=
        match l1 with
        | "."%char :: r => let '(f, scale, r') := leadingFraction false 0 (float64 1) r in (f, scale, r', negb (bool_decide (length r = length r')))
        | _ => (0, float64 1, l1, false)
        end in
      if negb pre && negb post then None else
      let '(u, rest) := span_unit l2 in
      if bool_decide (u = []) then None else
      unit ← unit_of u;
      if 2 ^ 63 / unit <? v then None else
      let v := v * unit in
      let v := if 0 <? f then v + float_trunc (SFmul 53 1024 (float64 f) (SFdiv 53 1024 (float64 unit) scale)) else v in
      if 2 ^ 63 <? v then None else Some (v, rest)
  end.
(** Every term is at least two bytes long, so the length of the text is enough fuel. *)
Fixpoint duration_terms (fuel : nat) (d : Z) (l : list ascii) : option Z :=
  match l, fuel with
  | [], _ => Some d
  | _, O => None
  | _, S fuel =>
      '(v, rest) ← duration_term l;
      if 2 ^ 63 <? d + v then None else duration_terms fuel (d + v) rest
  end.
Definition ParseDuration (s : string) : option Z :=
  let '(neg, l) := match to_bytes s with "-"%char :: l => (true, l) | "+"%char :: l => (false, l) | l => (false, l) end in
  if bool_decide (l = ["0"%char]) then Some 0 else
  if bool_decide (l = []) then None else
  d ← duration_terms (length l) 0 l;
  if neg : bool then Some (- d) else if 2 ^ 63 - 1 <? d then None else Some d.

(** ** Writing *)

(** [fmtFrac]: the last [prec] digits without trailing zeros, after the point. *)
Fixpoint fmtFrac (prec : nat) (print : bool) (v : Z) (acc : list ascii) : list ascii * Z :=
  match prec with
  | O => (if print then "."%char :: acc else acc, v)
  | S prec =>
      let digit := v mod 10 in
      let print := print || negb (digit =? 0) in
      fmtFrac prec print (v / 10) (if print then chr (48 + digit) :: acc else acc)
  end.
Definition Duration_String (d : Z) : string :=
  let u := Z.abs d in
  let text :=
    if u <? 1000000000 then
      if u =? 0 then "0s" else
      let '(prec, unit) := if u <? 1000 then (0%nat, "ns") else if u <? 1000000 then (3%nat, of_bytes (chr <$> [194; 181; 115])) else (6%nat, "ms") in
      let '(frac, u) := fmtFrac prec false u [] in
      Itoa u +:+ of_bytes frac +:+ unit
    else
      let '(frac, u) := fmtFrac 9 false u [] in
      let seconds := Itoa (u mod 60) +:+ of_bytes frac +:+ "s" in
      let minutes := u / 60 in
      if minutes =? 0 then seconds else
      let text := Itoa (minutes mod 60) +:+ "m" +:+ seconds in
      let hours := minutes / 60 in
      if hours =? 0 then text else Itoa hours +:+ "h" +:+ text in
  if d <? 0 then "-" +:+ text else text.

(** ** The fuel is enough *)

Lemma leadingInt_length l : ∀ x v r, leadingInt x l = Some (v, r) → (length r ≤ length l)%nat.
Proof.
  induction l as [|a l IH]; intros x v r; cbn [leadingInt]; [intros [= _ <-]; done|].
  destruct (negb (is_digit a)); [intros [= _ <-]; done|]. destruct (_ <? x); [done|]. cbv zeta. destruct (2 ^ 63 <? _); [done|].
  intros H%IH. cbn [length]. lia.
Qed.
Lemma leadingFraction_length l : ∀ o x sc f sc' r, leadingFraction o x sc l = (f, sc', r) → (length r ≤ length l)%nat.
Proof.
  induction l as [|a l IH]; intros o x sc f sc' r; cbn [leadingFraction]; [intros [= _ _ <-]; done|].
  destruct (negb (is_digit a)); [intros [= _ _ <-]; done|]. cbv zeta. repeat case_match; intros H'%IH; cbn [length]; lia.
Qed.
Lemma span_unit_app l : (span_unit l).1 ++ (span_unit l).2 = l.
Proof.
  induction l as [|a l IH]; cbn [span_unit]; [done|]. destruct (number_char a); [done|]. destruct (span_unit l) as [u r]. cbn in *. by rewrite IH.
Qed.
Lemma duration_term_length l v r : duration_term l = Some (v, r) → (length r < length l)%nat.
Proof.
  destruct l as [|c l0] eqn:E; [done|]. rewrite <- E. unfold duration_term.
  rewrite E at 1. destruct (negb (number_char c)); [done|]. destruct (leadingInt 0 l) as [[v1 l1]|] eqn:H1; cbn [mbind option_bind]; [|done].
  apply leadingInt_length in H1. cbv zeta.
  set (p := match l1 with "."%char :: r => let '(f, scale, r') := leadingFraction false 0 (float64 1) r in
    (f, scale, r', negb (bool_decide (length r = length r'))) | _ => (0, float64 1, l1, false) end).
  assert (length p.1.2 ≤ length l1)%nat as Hp.
  { subst p. destruct l1 as [|a l1]; [done|]. destruct (bool_decide_reflect (a = "."%char)) as [->|Ha].
    - destruct (leadingFraction _ _ _ l1) as [[f sc] r'] eqn:Hf. apply leadingFraction_length in Hf. cbn [fst snd length]. lia.
    - assert (∀ X (A B : X), match a with "."%char => A | _ => B end = B) as Hm by (intros X A B; by destruct a as [[] [] [] [] [] [] [] []]).
      by rewrite Hm. }
  destruct p as [[[f sc] l2] post]. cbn [fst snd] in Hp. destruct (negb _ && negb post); [done|].
  pose proof (span_unit_app l2) as Hs. destruct (span_unit l2) as [u rest]. cbn [fst snd] in Hs.
  destruct (bool_decide_reflect (u = [])) as [|Hu]; [done|]. destruct (unit_of u) as [unit|]; cbn [mbind option_bind]; [|done].
  repeat case_match; try done; intros [= _ <-]; apply (f_equal length) in Hs; rewrite length_app in Hs;
    destruct u; try done; cbn [length] in Hs; lia.
Qed.
Lemma duration_terms_fuel n : ∀ fuel d l, (length l ≤ n)%nat → (n ≤ fuel)%nat → duration_terms fuel d l = duration_terms n d l.
Proof.
  induction n as [|n IH]; intros fuel d l Hn Hf; [destruct l, fuel; done || (cbn [length] in Hn; lia)|].
  destruct fuel as [|fuel]; [lia|]. destruct l as [|a l]; [done|]. cbn [duration_terms].
  destruct (duration_term (a :: l)) as [[v r]|] eqn:E; cbn [mbind option_bind]; [|done]. apply duration_term_length in E. cbn [length] in *.
  destruct (_ <? _); [done|]. apply IH; lia.
Qed.

Example durations_read : ParseDuration <$> ["1.5h"; "-2m30s"; "300ms"; "1"; "9223372036.854775807s"; "9223372036.854775809s"; ".5s"; "."; "0"] =
  [Some 5400000000000; Some (-150000000000); Some 300000000; None; Some 9223372036854775807; None; Some 500000000; None; Some 0].
Proof. vm_compute. reflexivity. Qed.
Example durations_written : Duration_String <$> [0; 1500; 300000000; 30000000000; 5400000000000; -90500000000] = ["0s"; of_bytes (to_bytes "1.5" ++ (chr <$> [194; 181; 115])); "300ms"; "30s"; "1h30m0s"; "-1m30.5s"].
Proof. vm_compute. reflexivity. Qed.
