(* ===== verification/GoFlag.v ===== *)
(** * Go's [flag] package

    A flag set is a map from names to values; a value has a kind, which decides how text
    is read into it. [Parse] follows [FlagSet.Parse] with [ContinueOnError]: it stops at
    the first argument that is not a flag, and at the first error. *)

From stdpp Require Import pretty.
From S2P Require Import Prelude GoStrings GoNet GoText GoDuration.

(** [FList] is a value that collects every occurrence. *)
Inductive flag_value := FString (s : string) | FBool (b : bool) | FInt (z : Z) | FDuration (d : Z) | FList (l : list string).
Inductive flag_error :=
  | ErrFlagSyntax (arg : string) | ErrFlagUndefined (name : string) | ErrFlagHelp
  | ErrFlagNeedsArgument (name : string) | ErrFlagInvalid (name value : string).
Notation flags := (gmap string flag_value).

(** ** Values *)

(** [strconv.ParseBool] *)
Definition ParseBool (s : string) : option bool :=
  if bool_decide (s ∈ ["1"; "t"; "T"; "TRUE"; "true"; "True"]) then Some true else
  if bool_decide (s ∈ ["0"; "f"; "F"; "FALSE"; "false"; "False"]) then Some false else None.

(** [strconv.ParseInt] with base 0: a prefix selects the base, underscores may separate
    digits. *)
Definition digit_of (a : ascii) : option Z :=
  let c := code a in
  if (48 <=? c) && (c <=? 57) then Some (c - 48) else
  if (97 <=? c) && (c <=? 122) then Some (c - 87) else
  if (65 <=? c) && (c <=? 90) then Some (c - 55) else None.
Definition lower_is (a b : ascii) : bool := bool_decide (code a = code b) || bool_decide (code a + 32 = code b).
Definition split_base (l : list ascii) : Z * list ascii :=
  match l with
  | "0"%char :: b :: c :: rest =>
      if lower_is b "b" then (2, c :: rest) else if lower_is b "o" then (8, c :: rest) else
      if lower_is b "x" then (16, c :: rest) else (8, b :: c :: rest)
  | "0"%char :: rest => (8, rest)
  | _ => (10, l)
  end.
Fixpoint base_digits (base acc : Z) (l : list ascii) : option Z :=
  match l with
  | [] => Some acc
  | "_"%char :: l => base_digits base acc l
  | a :: l => d ← digit_of a; if base <=? d then None else base_digits base (acc * base + d) l
  end.
(** The class of the last character: the beginning, a digit or a prefix, an underscore,
    another one. *)
Inductive saw := SawStart | SawDigit | SawUnderscore | SawOther.
Fixpoint underscores_ok (hex : bool) (s : saw) (l : list ascii) : bool :=
  match l with
  | [] => match s with SawUnderscore => false | _ => true end
  | a :: l =>
      if match digit_of a with Some d => (d <? 10) || (hex && (d <? 16)) | None => false end then underscores_ok hex SawDigit l else
      if bool_decide (a = "_"%char) then match s with SawDigit => underscores_ok hex SawUnderscore l | _ => false end else
      match s with SawUnderscore => false | _ => underscores_ok hex SawOther l end
  end.
Definition underscoreOK (l : list ascii) : bool :=
  match l with
  | "0"%char :: b :: rest =>
      if lower_is b "b" || lower_is b "o" || lower_is b "x" then underscores_ok (lower_is b "x") SawDigit rest else underscores_ok false SawStart l
  | _ => underscores_ok false SawStart l
  end.
Definition ParseInt0 (s : string) : option Z :=
  let '(neg, l) := match to_bytes s with "-"%char :: l => (true, l) | "+"%char :: l => (false, l) | l => (false, l) end in
  match l with
  | [] => None
  | _ =>
      let '(base, ds) := split_base l in
      v ← base_digits base 0 ds;
      if bool_decide ("_"%char ∈ ds) && negb (underscoreOK l) then None else
      let z := if neg : bool then - v else v in
      if (- 2 ^ 63 <=? z) && (z <? 2 ^ 63) then Some z else None
  end.

(** ** Parsing *)

Inductive flag_shape := NotAFlag | Terminator | BadFlag | AFlag (name : string) (value : option string).
(** [name=value]; the equals sign cannot be first. *)
Definition name_value (name : list ascii) : flag_shape :=
  match name with
  | [] => BadFlag
  | a :: rest =>
      if bool_decide (a = "-"%char) || bool_decide (a = "="%char) then BadFlag else
      match cut_byte "=" rest with
      | Some (l, r) => AFlag (of_bytes (a :: l)) (Some (of_bytes r))
      | None => AFlag (of_bytes name) None
      end
  end.
Definition flag_shape_of (s : string) : flag_shape :=
  match to_bytes s with
  | "-"%char :: "-"%char :: [] => Terminator
  | "-"%char :: "-"%char :: name => name_value name
  | "-"%char :: a :: rest => name_value (a :: rest)
  | _ => NotAFlag
  end.

(** [Value.Set] *)
Definition set_flag (cur : flag_value) (v : string) : option flag_value :=
  match cur with
  | FString _ => Some (FString v)
  | FBool _ => FBool <$> ParseBool v
  | FInt _ => FInt <$> ParseInt0 v
  | FDuration _ => FDuration <$> ParseDuration v
  | FList l => Some (FList (l ++ [v]))
  end.
(** The flags and the arguments that are left. *)
Fixpoint flag_Parse (m : flags) (args : list string) : res flag_error (flags * list string) :=
  match args with
  | [] => Ok (m, [])
  | s :: rest =>
      match flag_shape_of s with
      | NotAFlag => Ok (m, args)
      | Terminator => Ok (m, rest)
      | BadFlag => Err (ErrFlagSyntax s)
      | AFlag name value =>
          match m !! name with
          | None => Err (if bool_decide (name = "help") || bool_decide (name = "h") then ErrFlagHelp else ErrFlagUndefined name)
          | Some cur =>
              match cur, value, rest with
              | FBool _, None, _ => flag_Parse (<[name := FBool true]> m) rest
              | _, Some v, _ => match set_flag cur v with Some x => flag_Parse (<[name := x]> m) rest | None => Err (ErrFlagInvalid name v) end
              | _, None, v :: rest => match set_flag cur v with Some x => flag_Parse (<[name := x]> m) rest | None => Err (ErrFlagInvalid name v) end
              | _, None, [] => Err (ErrFlagNeedsArgument name)
              end
          end
      end
  end.

(** *** Reading a flag set *)

Definition str (m : flags) (name : string) : string := match m !! name with Some (FString s) => s | _ => "" end.
Definition int (m : flags) (name : string) : Z := match m !! name with Some (FInt z) => z | _ => 0 end.
Definition boolean (m : flags) (name : string) : bool := match m !! name with Some (FBool b) => b | _ => false end.
Definition duration (m : flags) (name : string) : Z := match m !! name with Some (FDuration d) => d | _ => 0 end.
Definition list_of (m : flags) (name : string) : list string := match m !! name with Some (FList l) => l | _ => [] end.

(** *** Facts *)

(** A flag and its value as two arguments. *)
Lemma parse_pair m s name cur v x rest : flag_shape_of s = AFlag name None → m !! name = Some cur → (∀ b, cur ≠ FBool b) → set_flag cur v = Some x →
  flag_Parse m (s :: v :: rest) = flag_Parse (<[name := x]> m) rest.
Proof. intros Hs Hm Hb Hx. cbn [flag_Parse]. rewrite Hs, Hm. destruct cur; rewrite ?Hx; try done. by destruct (Hb b). Qed.
Lemma parse_switch m s name b rest : flag_shape_of s = AFlag name None → m !! name = Some (FBool b) → flag_Parse m (s :: rest) = flag_Parse (<[name := FBool true]> m) rest.
Proof. intros Hs Hm. cbn [flag_Parse]. by rewrite Hs, Hm. Qed.
Lemma parse_undefined m s name v rest : flag_shape_of s = AFlag name v → m !! name = None → name ≠ "help" → name ≠ "h" → flag_Parse m (s :: rest) = Err (ErrFlagUndefined name).
Proof. intros Hs Hm H1 H2. cbn [flag_Parse]. rewrite Hs, Hm. by rewrite !bool_decide_eq_false_2. Qed.

(** *** A printed number reads back *)

Lemma digits_val_bound l : Forall (λ a, is_digit a = true) l → ∀ acc v, 0 ≤ acc → digits_val acc l = Some v → v < (acc + 1) * 10 ^ Z.of_nat (length l).
Proof.
  induction 1 as [|a l Ha _ IH]; intros acc v Hacc; cbn [digits_val length].
  { intros [= <-]. cbn. lia. }
  rewrite Ha. intros Hv. unfold is_digit in Ha. apply IH in Hv; [|lia]. rewrite Nat2Z.inj_succ, Z.pow_succ_r by lia.
  assert (0 < 10 ^ Z.of_nat (length l)) by (apply Z.pow_pos_nonneg; lia). nia.
Qed.
Lemma Itoa_head z : 0 < z → ∃ a l, to_bytes (Itoa z) = a :: l ∧ a ≠ "0"%char ∧ Forall (λ a, is_digit a = true) (a :: l) ∧ digits_val 0 (a :: l) = Some z.
Proof.
  intros Hz. destruct z as [|p|p]; [lia| |lia]. destruct (Itoa_nonneg (Z.pos p) ltac:(lia)) as (Hf & Hne & Hv).
  change (Itoa (Z.pos p)) with (pretty_N_go (N.pos p) "") in *. destruct (pretty_N_go_digits (N.pos p)) as (ds & Hs & _ & _ & Hl & _).
  rewrite Hs, app_nil_r in *. destruct ds as [|a l]; [done|]. exists a, l. split_and!; try done. intros ->.
  apply Forall_cons in Hf as [_ Hf]. change (digits_val 0 ("0"%char :: l)) with (digits_val 0 l) in Hv. apply (digits_val_bound l Hf) in Hv; [|lia].
  specialize (Hl (length l)). cbn [length] in Hl. assert (S (length l) ≤ length l)%nat; [|lia]. apply Hl. change (Z.of_N (N.pos p)) with (Z.pos p). lia.
Qed.
Lemma base_digits_decimal l : Forall (λ a, is_digit a = true) l → ∀ acc, base_digits 10 acc l = digits_val acc l.
Proof.
  induction 1 as [|a l Ha _ IH]; intros acc; [done|]. cbn [digits_val]. rewrite Ha, <- IH. pose proof Ha as Hd. unfold is_digit in Hd.
  assert (digit_of a = Some (code a - 48)) as Hx by (unfold digit_of; by rewrite Hd).
  assert (base_digits 10 acc (a :: l) = (d ← digit_of a; if 10 <=? d then None else base_digits 10 (acc * 10 + d) l)) as ->.
  { destruct a as [[] [] [] [] [] [] [] []]; try reflexivity. discriminate Ha. }
  rewrite Hx. cbn [mbind option_bind]. rewrite (proj2 (Z.leb_gt 10 _)) by lia. done.
Qed.
Lemma ParseInt0_Itoa z : 0 < z < 2 ^ 63 → ParseInt0 (Itoa z) = Some z.
Proof.
  intros Hz. destruct (Itoa_head z ltac:(lia)) as (a & l & E & Ha & Hf & Hv). unfold ParseInt0. rewrite E, sign_split_digits by (by apply Forall_cons in Hf as [? _]).
  assert (split_base (a :: l) = (10, a :: l)) as -> by (destruct a as [[] [] [] [] [] [] [] []]; try reflexivity; done).
  rewrite base_digits_decimal, Hv by done. cbn [mbind option_bind].
  rewrite (bool_decide_eq_false_2 ("_"%char ∈ a :: l)) by (intros Hin; rewrite Forall_forall in Hf; by apply Hf in Hin). cbn [andb].
  by rewrite (proj2 (Z.leb_le _ _)), (proj2 (Z.ltb_lt _ _)) by lia.
Qed.
