(* ===== verification/NodeMain.v ===== *)
(** * The node's entry point ([src/cmd/awg-mesh-node/main.go])

    [runCommand] reads the command line of a node, decides what the node becomes
    ([node_plan]), and runs it; the agent of a client reads its own command line, which
    [clientd_args] writes ([src/pkg/clientd/command.go], [ParseCommandConfig]). What the
    started component reports comes from outside; its configuration, the exit status and
    the text on standard output are computed. *)

From S2P Require Import Prelude GoStrings GoNet GoPath GoText GoDuration GoFlag Role.
From S2P Require Import WgTypes DualListener PeerReload Daemon Masquerade Ingress Balancer ClientAgent ClientCommand MasterAgent.

(** ** Modes *)

Definition supportedModes : list (string * string) :=
  [("control-plane", "CR-002"); ("master", "CR-004"); ("endpoint", "CR-005"); ("client", "CR-003"); ("clientd", "CR-003");
   ("egress", "CR-005"); ("ingress", "CR-006"); ("balancer", "CR-007")].
Definition roleForMode (mode : string) : Role :=
  if bool_decide (mode = "client") || bool_decide (mode = "clientd") then RoleClient else
  if bool_decide (mode = "endpoint") then RoleEgress else mode.
(** The insertion sort of [sortedKeys]: an element moves left past the greater ones. The
    sorted part is kept with its last element first. *)
Fixpoint move_left (k : string) (sorted : list string) : list string :=
  match sorted with
  | [] => [k]
  | x :: l => if bool_decide (String.le x k) then k :: sorted else x :: move_left k l
  end.
Definition sortedKeys (keys : list string) : list string := reverse (foldl (λ sorted k, move_left k sorted) [] keys).
Definition warnDeprecatedMode (mode : string) : list string :=
  if bool_decide (mode = "client") then ["warning: --mode client is deprecated for v2.0; use --mode clientd"] else
  if bool_decide (mode = "endpoint") then ["warning: --mode endpoint is deprecated for v2.0; use --mode egress"] else
  if bool_decide (mode = "control-plane") then
    ["warning: --mode control-plane is retained for v2.0.1 compatibility and deprecated for the current happy path; use --mode master with master-owned coordination"]
  else [].

(** ** Flags *)

(** [awg-mesh-node]'s flags with their defaults. *)
Definition node_flags : flags := list_to_map
  [("mode", FString ""); ("version", FBool false); ("listen", FString "127.0.0.1:51820"); ("state-dir", FString "/var/lib/awg-mesh");
   ("ca-dir", FString ""); ("cert-hosts", FString ""); ("cert-rotation-days", FInt 90); ("audit-cap", FInt 8192);
   ("allow-insecure-public-bind", FBool false);
   ("coordination-listen", FString ""); ("coordination-state-dir", FString ""); ("coordination-ca-dir", FString "");
   ("coordination-cert-hosts", FString ""); ("coordination-cert-rotation-days", FInt 0); ("coordination-audit-cap", FInt 0);
   ("allow-insecure-coordination-bind", FBool false);
   ("control-plane", FString ""); ("name", FString ""); ("overlay-ip", FString ""); ("region", FString ""); ("cert", FString "");
   ("key", FString ""); ("ca-cert", FString ""); ("wireguard-private-key", FString ""); ("iface", FString "awg-mesh0");
   ("protocol", FString amnezia_text); ("allow-insecure-control-plane", FBool false);
   ("client-iface", FString DefaultClientInterfaceName); ("mesh-iface", FString DefaultMeshInterfaceName);
   ("client-listen-port", FInt DefaultClientListenPort); ("mesh-listen-port", FInt DefaultMeshListenPort);
   ("public-ip", FString ""); ("mesh-endpoint", FString ""); ("client-private-key-file", FString ""); ("client-peer", FList []);
   ("internet-iface", FString "");
   ("ingress-public-addr", FString ""); ("ingress-tenant", FString DefaultTenant); ("ingress-tls-mode", FString TLSModeTLSTerminate);
   ("ingress-protocol", FString ProtocolHTTP); ("ingress-health-interval", FDuration Ingress.DefaultHealthProbeInterval);
   ("ingress-udp-idle-timeout", FDuration DefaultUDPIdleTimeout); ("ingress-metrics", FString ""); ("ingress-acme-cache", FString "");
   ("ingress-acme-email", FString ""); ("ingress-http3", FBool false); ("ingress-route", FList []);
   ("balancer-mode", FString ModeDumb); ("balancer-health-interval", FDuration Balancer.DefaultHealthProbeInterval);
   ("balancer-flow-idle-timeout", FDuration DefaultFlowIdleTimeout); ("balancer-metrics", FString ""); ("balancer-egress", FList []);
   ("balancer-dscp", FList []); ("balancer-fwmark", FList []); ("dry-run", FBool false)].

(** [clientd]'s flags. *)
Definition clientd_flags : flags := list_to_map
  [("control-plane", FString ""); ("name", FString ""); ("overlay-ip", FString ""); ("region", FString ""); ("cert", FString "");
   ("key", FString ""); ("ca-cert", FString ""); ("wireguard-private-key", FString ""); ("state-dir", FString "/var/lib/awg-mesh");
   ("iface", FString "awg-mesh0"); ("listen-port", FInt DefaultMeshListenPort); ("endpoint-host", FString "");
   ("protocol", FString amnezia_text); ("allow-insecure-control-plane", FBool false)].
(** What the flags of [ParseCommandConfig] set. *)
Definition clientd_config (m : flags) : CommandConfig :=
  MkCommandConfig (str m "control-plane") (str m "name") (str m "overlay-ip") (str m "region") (str m "cert") (str m "key")
    (str m "ca-cert") (str m "wireguard-private-key") (str m "state-dir") (str m "iface") (int m "listen-port") (str m "endpoint-host")
    (str m "protocol") [] (boolean m "allow-insecure-control-plane").
Inductive client_parse_error := ErrClientFlags (e : flag_error) | ErrClientConfig (e : command_error).
Definition ParseCommandConfig (ResolveUDPAddr : string → option UDPAddr) (regularFile : string → bool) (args : list string)
    : res client_parse_error CommandConfig :=
  let! p := wrap_err ErrClientFlags (flag_Parse clientd_flags args) in
  wrap_err ErrClientConfig (ValidateCommandConfig ResolveUDPAddr regularFile (clientd_config p.1)).

(** ** Values of flags *)

Inductive arg_error :=
  | ErrKeyFileRead (label path : string) | ErrKeyFileParse (label path : string) (e : key_error) | ErrKeyFileZero (label path : string)
  | ErrClientPeerForm (value : string) | ErrClientPeerKey (value : string) (e : key_error)
  | ErrAllowedCIDR (value cidr : string) | ErrAllowedNone (value : string)
  | ErrCoordinationListen | ErrCoordinationState
  | ErrPublicIPPort | ErrPublicIPEmpty
  | ErrEndpointHostPort (flag : string) (e : hostport_error) | ErrEndpointNoHost (flag : string) | ErrEndpointBadPort (flag port : string)
  | ErrIngressRoute (value : string)
  | ErrEgressForm (value : string) | ErrEgressTarget (value : string) | ErrEgressOption (value option : string)
  | ErrEgressWeight (value weight : string) | ErrEgressKey (value key : string)
  | ErrLabelForm (type value : string) | ErrLabelNumber (type value number : string).

(** [read]: the contents of a file, when it can be read. *)
Definition loadOptionalWGPrivateKey (read : string → option string) (path label : string) : res arg_error (option Key) :=
  let trimmed := TrimSpace path in
  if bool_decide (trimmed = "") then Ok None else
  let label := if blank label then "wireguard private key file" else label in
  match read trimmed with
  | None => Err (ErrKeyFileRead label trimmed)
  | Some data =>
      match ParseKey (TrimSpace data) with
      | Err e => Err (ErrKeyFileParse label trimmed e)
      | Ok key => if IsZero key then Err (ErrKeyFileZero label trimmed) else Ok (Some key)
      end
  end.

Definition append_parsed {X : Type} (parse : string → res arg_error X) (_ : nat) (out : list X) (value : string) : res arg_error (list X) :=
  let! x := parse value in Ok (out ++ [x]).
Definition split_commas (s : string) : list string := of_bytes <$> split_byte "," (to_bytes s).
Definition parseCSV (value : string) : list string :=
  omap (λ part, let trimmed := TrimSpace part in if bool_decide (trimmed = "") then None else Some trimmed) (split_commas value).

(** [value]: the flag's value, for the error. *)
Definition cidr_step (value : string) (_ : nat) (allowed : list IPNet) (part : string) : res arg_error (list IPNet) :=
  let trimmed := TrimSpace part in
  if bool_decide (trimmed = "") then Ok allowed else
  match ParseCIDR trimmed with None => Err (ErrAllowedCIDR value trimmed) | Some (_, ipNet) => Ok (allowed ++ [ipNet]) end.
Definition parseAllowedCIDRs (value raw : string) : res arg_error (list IPNet) :=
  let! allowed := fold_res (cidr_step value) [] (split_commas raw) in
  if bool_decide (allowed = []) then Err (ErrAllowedNone value) else Ok allowed.
Definition peer_step (_ : nat) (peers : list PeerConfig) (value : string) : res arg_error (list PeerConfig) :=
  match cut_last_byte "=" (to_bytes value) with
  | None => Err (ErrClientPeerForm value)
  | Some (rawKey, rawAllowed) =>
      match ParseKey (TrimSpace (of_bytes rawKey)) with
      | Err e => Err (ErrClientPeerKey value e)
      | Ok key =>
          let! allowed := parseAllowedCIDRs value (of_bytes rawAllowed) in
          Ok (peers ++ [MkPeerConfig key false false None None None true allowed])
      end
  end.
Definition parseMasterClientPeers (values : list string) : res arg_error (list PeerConfig) := fold_res peer_step [] values.

Definition buildMasterCoordinationConfig (listenAddr stateDir caDir : string) (certHosts : list string) (certRotationDays auditCap : Z)
    (allowInsecureBind : bool) : res arg_error (option MasterCoordinationConfig) :=
  let listenAddr := TrimSpace listenAddr in
  if bool_decide (listenAddr = "") then
    if negb (blank stateDir) || negb (blank caDir) || bool_decide (0 < length certHosts)%nat || negb (certRotationDays =? 0) ||
       negb (auditCap =? 0) || allowInsecureBind
    then Err ErrCoordinationListen else Ok None
  else
  let stateDir := TrimSpace stateDir in
  if bool_decide (stateDir = "") then Err ErrCoordinationState else
  Ok (Some (MkMCConfig listenAddr stateDir (TrimSpace caDir) certHosts certRotationDays auditCap allowInsecureBind)).

Definition validateEndpointAddress (endpoint flagName : string) : res arg_error unit :=
  match SplitHostPort endpoint with
  | Err e => Err (ErrEndpointHostPort flagName e)
  | Ok (host, portText) =>
      if blank host then Err (ErrEndpointNoHost flagName) else
      match Atoi portText with
      | None => Err (ErrEndpointBadPort flagName portText)
      | Some port => if (port <? 1) || (65535 <? port) then Err (ErrEndpointBadPort flagName portText) else Ok ()
      end
  end.
Definition advertisedMeshEndpoint (explicitEndpoint publicIP : string) (meshListenPort : Z) : res arg_error string :=
  let explicitEndpoint := TrimSpace explicitEndpoint in
  let publicIP := TrimSpace publicIP in
  if negb (bool_decide (explicitEndpoint = "")) then
    let! _ := validateEndpointAddress explicitEndpoint "--mesh-endpoint" in Ok explicitEndpoint else
  if bool_decide (publicIP = "") then Ok "" else
  if is_ok (SplitHostPort publicIP) then Err ErrPublicIPPort else
  if bool_decide (trim_brackets publicIP = "") then Err ErrPublicIPEmpty else
  let endpoint := JoinHostPort (trim_brackets publicIP) (Itoa meshListenPort) in
  let! _ := validateEndpointAddress endpoint "--public-ip" in Ok endpoint.

Definition route_flag_step (tenant tlsMode protocol : string) (enableHTTP3 : bool) (_ : nat) (routes : list Route) (value : string)
    : res arg_error (list Route) :=
  match Cut value "=" with
  | None => Err (ErrIngressRoute value)
  | Some (hostname, target) => Ok (routes ++ [MkRoute tenant hostname target tlsMode protocol enableHTTP3])
  end.
Definition buildIngressConfig (name overlayIP publicAddr tenant tlsMode protocol : string) (healthInterval udpIdle : Z)
    (metricsAddr acmeCache acmeEmail : string) (enableHTTP3 : bool) (routeValues : list string) : res arg_error Ingress.Config :=
  let! routes := fold_res (route_flag_step tenant tlsMode protocol enableHTTP3) [] routeValues in
  Ok (Ingress.MkConfig name overlayIP publicAddr routes healthInterval udpIdle metricsAddr acmeCache acmeEmail enableHTTP3).

Definition egress_option_step (value : string) (_ : nat) (egress : EgressTarget) (raw : string) : res arg_error EgressTarget :=
  match Cut (TrimSpace raw) "=" with
  | None => Err (ErrEgressOption value raw)
  | Some (key, val) =>
      if bool_decide (key = "weight") then
        match Atoi val with
        | None => Err (ErrEgressWeight value val)
        | Some weight => Ok (Balancer.MkEgress (eg_ID egress) (eg_Target egress) weight)
        end
      else Err (ErrEgressKey value key)
  end.
Definition parseBalancerEgress (value : string) : res arg_error EgressTarget :=
  match Cut value "=" with
  | None => Err (ErrEgressForm value)
  | Some (id, rest) =>
      match split_commas rest with
      | [] => Err (ErrEgressTarget value)
      | target :: options =>
          if blank target then Err (ErrEgressTarget value) else
          fold_res (egress_option_step value) (Balancer.MkEgress id (TrimSpace target) 1) options
      end
  end.
Definition parseBalancerLabel (labelType : LabelType) (value : string) : res arg_error LabelMapping :=
  match Cut value "=" with
  | None => Err (ErrLabelForm labelType value)
  | Some (rawNumber, egressID) =>
      match Atoi (TrimSpace rawNumber) with
      | None => Err (ErrLabelNumber labelType value rawNumber)
      | Some parsed => Ok (MkLabel labelType parsed (TrimSpace egressID))
      end
  end.
Definition buildBalancerConfig (name overlayIP mode : string) (healthInterval flowIdle : Z) (metricsAddr : string)
    (egressValues dscpValues fwmarkValues : list string) : res arg_error Balancer.Config :=
  let! egresses := fold_res (append_parsed parseBalancerEgress) [] egressValues in
  let! labels := fold_res (append_parsed (parseBalancerLabel LabelDSCP)) [] dscpValues in
  let! labels := fold_res (append_parsed (parseBalancerLabel LabelFWMark)) labels fwmarkValues in
  Ok (Balancer.MkConfig name overlayIP mode egresses labels healthInterval flowIdle metricsAddr).

(** ** What the node becomes *)

Record EgressConfig := MkEgressConfig { ec_Name : string; ec_OverlayIP : string; ec_InternetInterface : string }.
Inductive node_plan :=
  | RunControlPlane (cfg : DaemonConfig)
  | RunMaster (cfg : MasterConfig)
  | RunEgress (cfg : EgressConfig) (clientCfg : CommandConfig)
  | RunIngress (cfg : Ingress.Config)
  | RunBalancer (cfg : Balancer.Config)
  | RunClientd (args : list string).

Definition mesh_endpoint (m : flags) : res arg_error string :=
  advertisedMeshEndpoint (str m "mesh-endpoint") (str m "public-ip") (int m "mesh-listen-port").
Definition control_plane_config (m : flags) : DaemonConfig :=
  MkDaemonConfig (str m "listen") (str m "state-dir") (str m "ca-dir") (parseCSV (str m "cert-hosts")) (int m "cert-rotation-days")
    (int m "audit-cap") (boolean m "allow-insecure-public-bind").
Definition master_config (read : string → option string) (m : flags) : res arg_error MasterConfig :=
  let! clientPrivateKey := loadOptionalWGPrivateKey read (str m "client-private-key-file") "client private key file" in
  let! meshPrivateKey := loadOptionalWGPrivateKey read (str m "wireguard-private-key") "wireguard private key file" in
  let! clientPeers := parseMasterClientPeers (list_of m "client-peer") in
  let! coordination :=
    buildMasterCoordinationConfig (str m "coordination-listen") (str m "coordination-state-dir") (str m "coordination-ca-dir")
      (parseCSV (str m "coordination-cert-hosts")) (int m "coordination-cert-rotation-days") (int m "coordination-audit-cap")
      (boolean m "allow-insecure-coordination-bind") in
  let! meshEndpoint := mesh_endpoint m in
  Ok (MkMasterConfig (str m "name") (str m "overlay-ip") meshEndpoint
        (MkDLConfig (str m "client-iface") (str m "mesh-iface") (int m "client-listen-port") (int m "mesh-listen-port")
           clientPrivateKey meshPrivateKey clientPeers false false)
        coordination true).
(** The client configuration of an egress node. *)
Definition egress_client_config (m : flags) (meshEndpoint : string) : CommandConfig :=
  MkCommandConfig (str m "control-plane") (str m "name") (str m "overlay-ip") (str m "region") (str m "cert") (str m "key")
    (str m "ca-cert") (str m "wireguard-private-key") (str m "state-dir") (str m "iface") (int m "mesh-listen-port") meshEndpoint
    (str m "protocol") [RoleEgress] (boolean m "allow-insecure-control-plane").
Definition opt_arg (name value : string) : list string := if bool_decide (value = "") then [] else [name; value].
Definition clientd_args (m : flags) : res arg_error (list string) :=
  let args :=
    ["--control-plane"; str m "control-plane"; "--name"; str m "name"; "--overlay-ip"; str m "overlay-ip"; "--region"; str m "region";
     "--cert"; str m "cert"; "--state-dir"; str m "state-dir"; "--iface"; str m "iface"; "--protocol"; str m "protocol"] ++
    (if boolean m "allow-insecure-control-plane" then ["--allow-insecure-control-plane"] else []) ++
    opt_arg "--key" (str m "key") ++ opt_arg "--ca-cert" (str m "ca-cert") ++
    opt_arg "--wireguard-private-key" (str m "wireguard-private-key") ++
    (if 0 <? int m "mesh-listen-port" then ["--listen-port"; Itoa (int m "mesh-listen-port")] else []) in
  if bool_decide (str m "public-ip" = "") && bool_decide (str m "mesh-endpoint" = "") then Ok args else
  let! meshEndpoint := mesh_endpoint m in
  Ok (args ++ opt_arg "--endpoint-host" meshEndpoint).

(** [None]: the mode has no case of its own. *)
Definition mode_plan (read : string → option string) (mode : string) (m : flags) : option (res arg_error node_plan) :=
  if bool_decide (mode = "control-plane") then Some (Ok (RunControlPlane (control_plane_config m))) else
  if bool_decide (mode = "master") then Some (let! cfg := master_config read m in Ok (RunMaster cfg)) else
  if bool_decide (mode = "endpoint") || bool_decide (mode = "egress") then
    Some (let! meshEndpoint := mesh_endpoint m in
          Ok (RunEgress (MkEgressConfig (str m "name") (str m "overlay-ip") (str m "internet-iface")) (egress_client_config m meshEndpoint))) else
  if bool_decide (mode = "ingress") then
    Some (let! cfg := buildIngressConfig (str m "name") (str m "overlay-ip") (str m "ingress-public-addr") (str m "ingress-tenant")
                        (str m "ingress-tls-mode") (str m "ingress-protocol") (duration m "ingress-health-interval")
                        (duration m "ingress-udp-idle-timeout") (str m "ingress-metrics") (str m "ingress-acme-cache")
                        (str m "ingress-acme-email") (boolean m "ingress-http3") (list_of m "ingress-route") in
          Ok (RunIngress cfg)) else
  if bool_decide (mode = "balancer") then
    Some (let! cfg := buildBalancerConfig (str m "name") (str m "overlay-ip") (str m "balancer-mode") (duration m "balancer-health-interval")
                        (duration m "balancer-flow-idle-timeout") (str m "balancer-metrics") (list_of m "balancer-egress")
                        (list_of m "balancer-dscp") (list_of m "balancer-fwmark") in
          Ok (RunBalancer cfg)) else
  if bool_decide (mode = "client") || bool_decide (mode = "clientd") then Some (let! args := clientd_args m in Ok (RunClientd args)) else
  None.

(** ** Running it *)

Inductive node_error :=
  | NFlags (e : flag_error) | NUnsupported | NArg (e : arg_error) | NRole (e : role_error) | NDaemon (e : daemon_error) | NMaster (e : master_error)
  | NEgress (e : egress_error) | NClient (e : command_error) | NClientParse (e : client_parse_error)
  | NIngress (e : ingress_error) | NBalancer (e : config_error)
  | NRun.                             (* what the started component failed with *)
(** A line of text, or an error after the name of what failed. *)
Inductive message := Line (s : string) | Failed (who : string) (e : node_error).
(** What is started, as it was made from its configuration. *)
Inductive component :=
  | StartedControlPlane (d : Daemon)
  | StartedMaster (m : Master)
  | StartedEgress (e : Egress) (clientCfg : CommandConfig)
  | StartedIngress (cfg : Ingress.Config) (plan : Ingress.Plan)
  | StartedBalancer (r : Runtime)
  | StartedClient (cfg : CommandConfig).
(** [o_started]: the component that was told to run; [o_exit] is [None] while it does. *)
Record output := MkOutput { o_stdout : string; o_stderr : list message; o_started : option component; o_exit : option Z }.

Definition refuse (code : Z) (out : string) (err : list message) : output := MkOutput out err None (Some code).
(** The component runs: it goes on, or returns with or without an error. *)
Definition start (who out : string) (c : component) (ran : option bool) : output :=
  match ran with
  | None => MkOutput out [] (Some c) None
  | Some true => MkOutput out [] (Some c) (Some 0)
  | Some false => MkOutput out [Failed who NRun] (Some c) (Some 1)
  end.
Definition nl : string := String "010" "".
Definition bool_text (b : bool) : string := if b then "true" else "false".
Definition sentence (parts : list string) : string := join "" parts.
Definition protocol_text (p : DualListener.Protocol) : string := match p with ProtocolVanilla => vanilla_text | ProtocolAmneziaWG => amnezia_text end.

(** [pkg/ingress] [NewRuntime], the metrics apart. *)
Definition ingress_NewRuntime (cfg : Ingress.Config) : res ingress_error (Ingress.Config * Ingress.Plan) :=
  let! normalized := Ingress.NormalizeConfig cfg in
  let! plan := Ingress.PlanConfig normalized in
  let! _ := Ingress.NewRegistry (ic_Routes normalized) in
  Ok (normalized, plan).
Definition tlsPlan (plan : Ingress.Plan) : string := if ip_ACMEEnabled plan then "acme" else "plain".

Section Run.
(** The version text, files, the daemon's environment, name resolution; [ran]: what the
    started component returned. *)
Context (version : string) (read : string → option string) (env : daemon_env)
  (ResolveUDPAddr : string → option UDPAddr) (regularFile : string → bool) (ran : option bool).

Definition runControlPlane (cfg : DaemonConfig) : output :=
  let out := sentence ["awg-mesh-node "; version; " — mode=control-plane — listen="; dc_ListenAddr cfg; " state="; dc_StateDir cfg; nl] in
  match NewDaemon env cfg with
  | Err e => refuse 1 out [Failed "control-plane" (NDaemon e)]
  | Ok daemon => start "control-plane" out (StartedControlPlane daemon) ran
  end.

Definition runMaster (cfg : MasterConfig) (dryRun : bool) : output :=
  match NewMaster env cfg with
  | Err e => refuse 2 "" [Failed "master" (NMaster e)]
  | Ok master =>
      let status := ms_cfg master in
      let listeners := DualListener.Snapshot (ms_listener master) in
      let coordination := match ma_Coordination status with
                          | Some c => " coordination=" +:+ mc_ListenAddr c
                          | None => " coordination=disabled"
                          end in
      let meshEndpoint := if bool_decide (ma_MeshEndpointHost status = "") then "" else " endpoint=" +:+ ma_MeshEndpointHost status in
      if dryRun then
        refuse 0 (sentence ["master dry-run node="; ma_Name status; " overlay="; ma_OverlayIP status;
          " client="; sn_ClientInterfaceName listeners; ":"; Itoa (sn_ClientListenPort listeners); "/"; protocol_text (sn_ClientProtocol listeners);
          " mesh="; sn_MeshInterfaceName listeners; ":"; Itoa (sn_MeshListenPort listeners); "/"; protocol_text (sn_MeshProtocol listeners);
          meshEndpoint; coordination; nl]) []
      else
      start "master" (sentence ["awg-mesh-node "; version; " — mode=master — node="; ma_Name status; " overlay="; ma_OverlayIP status;
          " client="; sn_ClientInterfaceName listeners; ":"; Itoa (sn_ClientListenPort listeners);
          " mesh="; sn_MeshInterfaceName listeners; ":"; Itoa (sn_MeshListenPort listeners); meshEndpoint; coordination; nl]) (StartedMaster master) ran
  end.

(** The second [NewEgress] differs from the first in the agent only. *)
Definition runEgress (cfg : EgressConfig) (clientCfg : CommandConfig) (dryRun : bool) : output :=
  let NewEgress := NewEgress (ec_Name cfg) (ec_OverlayIP cfg) (ec_InternetInterface cfg) in
  match NewEgress with
  | Err e => refuse 2 "" [Failed "egress" (NEgress e)]
  | Ok egress =>
      let status := egress_Status (Some egress) in
      if dryRun then
        let endpoint := if bool_decide (cc_EndpointHost clientCfg = "") then "" else " endpoint=" +:+ cc_EndpointHost clientCfg in
        let nat := es_Masquerade status in
        refuse 0 (sentence ["egress dry-run node="; es_Name status; " overlay="; es_OverlayIP status; " internet="; es_InternetInterface status;
          " listen="; Itoa (cc_ListenPort clientCfg); endpoint; " nat="; mp_Table nat; ":"; mp_Chain nat; "/"; mp_Operation nat; nl]) []
      else
      match ValidateCommandConfig ResolveUDPAddr regularFile clientCfg with
      | Err e => refuse 2 "" [Failed "egress: clientd" (NClient e)]
      | Ok clientCfg =>
          match NewEgress with
          | Err e => refuse 2 "" [Failed "egress" (NEgress e)]
          | Ok egress =>
              start "egress" (sentence ["awg-mesh-node "; version; " — mode=egress — node="; es_Name status; " overlay="; es_OverlayIP status;
                " internet="; es_InternetInterface status; nl]) (StartedEgress egress clientCfg) ran
          end
      end
  end.

Definition runIngress (cfg : Ingress.Config) (dryRun : bool) : output :=
  match ingress_NewRuntime cfg with
  | Err e => refuse 2 "" [Failed "ingress" (NIngress e)]
  | Ok (normalized, plan) =>
      if dryRun then
        refuse 0 (sentence (["ingress dry-run node="; ip_Name plan; " overlay="; ip_OverlayIP plan; " public="; ip_PublicAddress plan;
          " routes="; Itoa (Z.of_nat (ip_RouteCount plan)); " health="; Duration_String (ip_HealthProbeInterval plan);
          " udp_idle="; Duration_String (ip_UDPIdleTimeout plan); " tls="; tlsPlan plan; " http3="; bool_text (ip_HTTP3Enabled plan)] ++
          (if bool_decide (ip_MetricsAddress plan = "") then [] else [" metrics="; ip_MetricsAddress plan]) ++
          mjoin ((λ route, [" route="; ro_Tenant route; ":"; ro_Hostname route; "->"; ro_Target route; "/"; ro_Mode route]) <$> ip_Routes plan) ++
          [nl])) []
      else
      start "ingress" (sentence ["awg-mesh-node "; version; " — mode=ingress — node="; ip_Name plan; " overlay="; ip_OverlayIP plan;
        " public="; ip_PublicAddress plan; " routes="; Itoa (Z.of_nat (ip_RouteCount plan)); nl]) (StartedIngress normalized plan) ran
  end.

Definition runBalancer (cfg : Balancer.Config) (dryRun : bool) : output :=
  match NewRuntime cfg with
  | Err e => refuse 2 "" [Failed "balancer" (NBalancer e)]
  | Ok runtime =>
      let plan := rt_plan runtime in
      if dryRun then
        refuse 0 (sentence (["balancer dry-run node="; pl_Name plan; " overlay="; pl_OverlayIP plan; " mode="; pl_Mode plan;
          " egresses="; Itoa (Z.of_nat (pl_EgressCount plan)); " health="; Duration_String (pl_HealthProbeInterval plan);
          " flow_idle="; Duration_String (pl_FlowIdleTimeout plan)] ++
          (if bool_decide (pl_MetricsAddress plan = "") then [] else [" metrics="; pl_MetricsAddress plan]) ++
          mjoin ((λ egress, [" egress="; eg_ID egress; "->"; eg_Target egress; "/weight="; Itoa (eg_Weight egress)]) <$> pl_Egresses plan) ++
          mjoin ((λ label, [" "; lm_Type label; "="; Itoa (lm_Value label); "->"; lm_EgressID label]) <$> pl_Labels plan) ++ [nl])) []
      else
      start "balancer" (sentence ["awg-mesh-node "; version; " — mode=balancer — node="; pl_Name plan; " overlay="; pl_OverlayIP plan;
        " policy="; pl_Mode plan; " egresses="; Itoa (Z.of_nat (pl_EgressCount plan)); nl]) (StartedBalancer runtime) ran
  end.

(** [clientd.RunCommand]: what the agent prints is not included. *)
Definition runClientd (args : list string) : output :=
  match ParseCommandConfig ResolveUDPAddr regularFile args with
  | Err e => refuse 2 "" [Failed "clientd" (NClientParse e)]
  | Ok cfg => start "clientd" "" (StartedClient cfg) ran
  end.

Definition run_plan (p : node_plan) (dryRun : bool) : output :=
  match p with
  | RunControlPlane cfg => runControlPlane cfg
  | RunMaster cfg => runMaster cfg dryRun
  | RunEgress cfg clientCfg => runEgress cfg clientCfg dryRun
  | RunIngress cfg => runIngress cfg dryRun
  | RunBalancer cfg => runBalancer cfg dryRun
  | RunClientd args => runClientd args
  end.

Definition modes_line : message := Line ("supported modes: " +:+ join ", " (sortedKeys supportedModes.*1)).
Definition add_stderr (lines : list message) (o : output) : output := MkOutput (o_stdout o) (lines ++ o_stderr o) (o_started o) (o_exit o).
(** The mode's name before an error of its arguments. *)
Definition mode_label (mode : string) : string :=
  if bool_decide (mode = "endpoint") then "egress" else if bool_decide (mode = "client") then "clientd" else mode.

Definition runCommand (args : list string) : output :=
  match flag_Parse node_flags args with
  | Err e => refuse 2 "" [Failed "" (NFlags e)]
  | Ok (m, _) =>
      if boolean m "version" then refuse 0 (sentence ["awg-mesh-node "; version; nl]) [] else
      let mode := str m "mode" in
      if bool_decide (mode = "") then refuse 2 "" [Line "error: --mode is required"; modes_line] else
      match snd <$> list_find (λ kv : string * string, kv.1 = mode) supportedModes with
      | None => refuse 2 "" [Failed mode NUnsupported; modes_line]
      | Some (_, implCR) =>
          add_stderr (Line <$> warnDeprecatedMode mode)
          match (if bool_decide (mode = "control-plane") then Ok () else ValidateComposability [roleForMode mode]) with
          | Err e => refuse 2 "" [Failed mode (NRole e)]
          | Ok _ =>
              match mode_plan read mode m with
              | Some (Err e) => refuse 2 "" [Failed (mode_label mode) (NArg e)]
              | Some (Ok p) => run_plan p (boolean m "dry-run")
              | None =>
                  refuse 0 (sentence ["awg-mesh-node "; version; " — mode="; mode; " — daemon implementation lands in "; implCR; nl])
                    [Line "CR-001 skeleton: this binary intentionally exits without doing any networking."]
              end
          end
      end
  end.
End Run.
