(* ===== verification/NodeMainProofs.v ===== *)
(** * Proofs about the node's entry point

    The command line a client node hands to its agent, the command line a router's script
    starts a client with, the advertised endpoint, dry runs and exit statuses. *)

From S2P Require Import Prelude GoStrings GoNet GoPath GoText GoDuration GoFlag Role.
From S2P Require Import WgTypes DualListener PeerReload Daemon Masquerade Ingress Balancer ClientAgent ClientCommand MasterAgent.
From S2P Require Import RouterOS RouterOSProofs NodeMain.

(** ** Numbers of a parsed flag set fit in an [int] *)

Definition ints_ok (m : flags) : Prop := ∀ name z, m !! name = Some (FInt z) → - 2 ^ 63 ≤ z < 2 ^ 63.
Lemma ParseInt0_range s z : ParseInt0 s = Some z → - 2 ^ 63 ≤ z < 2 ^ 63.
Proof.
  unfold ParseInt0. destruct (match to_bytes s with "-"%char :: l => (true, l) | "+"%char :: l => (false, l) | l => (false, l) end) as [neg l].
  destruct l as [|a l]; [done|]. destruct (split_base _) as [base ds]. destruct (base_digits _ _ _) as [v|]; cbn [mbind option_bind]; [|done].
  destruct (_ && negb _); [done|]. destruct (_ && _) eqn:E; [|done]. intros [= <-]. lia.
Qed.
Lemma set_flag_ints cur v x : set_flag cur v = Some x → ∀ z, x = FInt z → - 2 ^ 63 ≤ z < 2 ^ 63.
Proof.
  destruct cur; cbn [set_flag]; intros H z' ->; try done; apply fmap_Some in H as (y & H & E); try done.
  injection E as ->. by eapply ParseInt0_range.
Qed.
Lemma ints_ok_insert m name x : ints_ok m → (∀ z, x = FInt z → - 2 ^ 63 ≤ z < 2 ^ 63) → ints_ok (<[name := x]> m).
Proof. intros Hm Hx k z [[_ ->]|[_ H]]%lookup_insert_Some; eauto. Qed.
Lemma flag_Parse_ints_n n : ∀ m args m' rest, (length args ≤ n)%nat → ints_ok m → flag_Parse m args = Ok (m', rest) → ints_ok m'.
Proof.
  induction n as [|n IH]; intros m [|s args] m' rest Hlen Hm; cbn [length] in Hlen; try lia; cbn [flag_Parse]; try by intros [= <- <-].
  destruct (flag_shape_of s) as [| | |name value]; try by intros [= <- <-].
  destruct (m !! name) as [cur|]; [|done].
  assert (∀ v x args', set_flag cur v = Some x → (length args' ≤ n)%nat → flag_Parse (<[name := x]> m) args' = Ok (m', rest) → ints_ok m') as Hset.
  { intros v x args' Hx Hl. apply IH; [done|]. apply ints_ok_insert; [done|]. by eapply set_flag_ints. }
  assert (flag_Parse (<[name := FBool true]> m) args = Ok (m', rest) → ints_ok m') as Hsw.
  { apply IH; [lia|]. by apply ints_ok_insert. }
  assert (∀ v args', (length args' ≤ n)%nat →
    match set_flag cur v with Some x => flag_Parse (<[name := x]> m) args' | None => Err (ErrFlagInvalid name v) end = Ok (m', rest) → ints_ok m') as Hgo.
  { intros v args' Hl. destruct (set_flag cur v) as [x|] eqn:E; [|done]. by apply (Hset v). }
  destruct cur, value as [v|]; try exact Hsw; try (apply Hgo; lia); destruct args as [|v args]; try done; apply Hgo; cbn [length] in *; lia.
Qed.
Definition int_fits (v : flag_value) : bool := match v with FInt z => (- 2 ^ 63 <=? z) && (z <? 2 ^ 63) | _ => true end.
Lemma node_ints args m rest : flag_Parse node_flags args = Ok (m, rest) → ints_ok m.
Proof.
  apply (flag_Parse_ints_n (length args)); [done|]. intros name z Hz.
  assert (map_Forall (λ _ v, int_fits v = true) node_flags) as H by (apply (bool_decide_unpack _); vm_compute; exact I).
  apply H in Hz. cbn [int_fits] in Hz. lia.
Qed.
Lemma int_range m name : ints_ok m → - 2 ^ 63 ≤ int m name < 2 ^ 63.
Proof. intros Hm. unfold int. destruct (m !! name) as [[]|] eqn:E; try lia. by eapply Hm. Qed.

(** ** Flags that are written when they say something *)

(** A flag that still has its default reads back whether or not it is written. *)
Lemma parse_opt m s name v rest : flag_shape_of s = AFlag name None → m !! name = Some (FString "") →
  flag_Parse m (opt_arg s v ++ rest) = flag_Parse (<[name := FString v]> m) rest.
Proof.
  intros Hs Hm. unfold opt_arg. case_bool_decide as E; cbn [app].
  - by rewrite E, (insert_id m name (FString "")).
  - by apply (parse_pair _ _ _ (FString "")).
Qed.
Lemma parse_opt_switch m s name (b : bool) rest : flag_shape_of s = AFlag name None → m !! name = Some (FBool false) →
  flag_Parse m ((if b then [s] else []) ++ rest) = flag_Parse (<[name := FBool b]> m) rest.
Proof.
  intros Hs Hm. destruct b; cbn [app]; [by apply (parse_switch _ _ _ false)|]. by rewrite (insert_id m name (FBool false)).
Qed.
Lemma parse_opt_int m s name z d rest : flag_shape_of s = AFlag name None → m !! name = Some (FInt d) → z < 2 ^ 63 →
  flag_Parse m ((if 0 <? z then [s; Itoa z] else []) ++ rest) = flag_Parse (<[name := FInt (if 0 <? z then z else d)]> m) rest.
Proof.
  intros Hs Hm Hz. destruct (Z.ltb_spec 0 z); cbn [app]; [|by rewrite (insert_id m name (FInt d))].
  apply (parse_pair _ _ _ (FInt d)); [done..|]. cbn [set_flag]. rewrite ParseInt0_Itoa by lia. done.
Qed.

(** ** The client's command line *)

(** The configuration the node's flags describe. *)
Definition client_config_of (m : flags) (meshEndpoint : string) : CommandConfig :=
  let port := int m "mesh-listen-port" in
  MkCommandConfig (str m "control-plane") (str m "name") (str m "overlay-ip") (str m "region") (str m "cert") (str m "key")
    (str m "ca-cert") (str m "wireguard-private-key") (str m "state-dir") (str m "iface") (if 0 <? port then port else DefaultMeshListenPort)
    meshEndpoint (str m "protocol") [] (boolean m "allow-insecure-control-plane").


Lemma mesh_endpoint_none m : str m "public-ip" = "" → str m "mesh-endpoint" = "" → mesh_endpoint m = Ok "".
Proof. intros E1 E2. unfold mesh_endpoint. by rewrite E1, E2. Qed.
Lemma clientd_args_parse m : ints_ok m →
  match clientd_args m, mesh_endpoint m with
  | Err e, Err e' => e = e'
  | Ok args, Ok ep => ∃ m' : flags, flag_Parse clientd_flags args = Ok (m', []) ∧ clientd_config m' = client_config_of m ep
  | _, _ => False
  end.
Proof.
  intros Hm. pose proof (int_range m "mesh-listen-port" Hm) as Hp.
  assert (clientd_args m = let! e := mesh_endpoint m in Ok (
    ["--control-plane"; str m "control-plane"; "--name"; str m "name"; "--overlay-ip"; str m "overlay-ip"; "--region"; str m "region";
     "--cert"; str m "cert"; "--state-dir"; str m "state-dir"; "--iface"; str m "iface"; "--protocol"; str m "protocol"] ++
    (if boolean m "allow-insecure-control-plane" then ["--allow-insecure-control-plane"] else []) ++
    opt_arg "--key" (str m "key") ++ opt_arg "--ca-cert" (str m "ca-cert") ++
    opt_arg "--wireguard-private-key" (str m "wireguard-private-key") ++
    (if 0 <? int m "mesh-listen-port" then ["--listen-port"; Itoa (int m "mesh-listen-port")] else []) ++ opt_arg "--endpoint-host" e ++ [])) as ->.
  { unfold clientd_args. destruct (bool_decide (str m "public-ip" = "") && bool_decide (str m "mesh-endpoint" = "")) eqn:E.
    - apply andb_true_iff in E as [E1%bool_decide_eq_true_1 E2%bool_decide_eq_true_1].
      rewrite (mesh_endpoint_none m E1 E2). cbn [res_bind]. change (opt_arg "--endpoint-host" "") with (@nil string). by rewrite !app_nil_r.
    - destruct (mesh_endpoint m) as [e|e]; cbn [res_bind]; [|done]. by rewrite <- !app_assoc, app_nil_r. }
  destruct (mesh_endpoint m) as [e|e]; cbn [res_bind]; [|done]. eexists. split.
  - cbn [app]. do 8 (erewrite parse_pair; [|reflexivity|reflexivity|discriminate|reflexivity]).
    rewrite (parse_opt_switch _ _ "allow-insecure-control-plane") by reflexivity.
    rewrite (parse_opt _ _ "key"), (parse_opt _ _ "ca-cert"), (parse_opt _ _ "wireguard-private-key") by reflexivity.
    rewrite (parse_opt_int _ _ "listen-port" _ DefaultMeshListenPort) by (reflexivity || lia).
    rewrite (parse_opt _ _ "endpoint-host") by reflexivity. reflexivity.
  - reflexivity.
Qed.

Section Runs.
Context (version : string) (read : string → option string) (env : daemon_env)
  (ResolveUDPAddr : string → option UDPAddr) (regularFile : string → bool) (ran : option bool).
Notation run := (runCommand version read env ResolveUDPAddr regularFile ran).
Notation plan := (run_plan version env ResolveUDPAddr regularFile ran).

(** A client with this configuration: refused, or running as validated. *)
Definition client_runs (cfg : CommandConfig) : output :=
  match ValidateCommandConfig ResolveUDPAddr regularFile cfg with
  | Err e => refuse 2 "" [Failed "clientd" (NClientParse (ErrClientConfig e))]
  | Ok valid => start "clientd" "" (StartedClient valid) ran
  end.
Definition client_outcome (m : flags) : output :=
  match mesh_endpoint m with
  | Err e => refuse 2 "" [Failed "clientd" (NArg e)]
  | Ok ep => client_runs (client_config_of m ep)
  end.

Lemma client_mode args m rest : flag_Parse node_flags args = Ok (m, rest) → boolean m "version" = false →
  str m "mode" = "clientd" ∨ str m "mode" = "client" →
  run args = add_stderr (Line <$> warnDeprecatedMode (str m "mode")) (client_outcome m).
Proof using Type.
  intros Hp Hv Hmode. pose proof (clientd_args_parse m (node_ints _ _ _ Hp)) as Hargs. unfold runCommand. rewrite Hp, Hv. cbv beta iota zeta.
  assert (mode_plan read (str m "mode") m = Some (let! args := clientd_args m in Ok (RunClientd args)) ∧ mode_label (str m "mode") = "clientd") as [Hplan Hlabel].
  { unfold mode_plan. by destruct Hmode as [-> | ->]. }
  rewrite Hplan, Hlabel. destruct Hmode as [Hmode | Hmode]; rewrite Hmode in *; cbn -[client_outcome add_stderr clientd_args runClientd]; f_equal; unfold client_outcome;
    destruct (clientd_args m) as [cargs|e], (mesh_endpoint m) as [ep|e']; cbn [res_bind]; try done; subst;
    try done; destruct Hargs as (m' & Hm' & Hcfg); unfold client_runs; cbn [run_plan]; unfold runClientd, ParseCommandConfig;
    rewrite Hm'; cbn [wrap_err res_bind fst]; rewrite Hcfg; by destruct (ValidateCommandConfig _ _ _).
Qed.

(** ** The router's script *)

(** What the entry point of the container puts before the command
    ([src/deploy/client-init.sh]): the command names every other flag it could add. *)
Definition entrypoint_flags (keyFile : bool) : list string :=
  if keyFile then ["--wireguard-private-key=/config/wireguard-private.key"] else [].

(** The configuration a deployment describes, before and after validation. *)
Definition deployed_config (keyFile : bool) (ds : DeployScript) : CommandConfig :=
  MkCommandConfig (TrimSpace (dp_ControlPlane ds)) (TrimSpace (dp_TopologyName ds)) (TrimSpace (dp_OverlayIP ds)) (or_else (dp_Region ds) "default")
    "/config/node.crt" "/config/node.key" "/config/ca.crt" (if keyFile then "/config/wireguard-private.key" else "") "/config"
    (or_else (dp_InterfaceName ds) "awg-mesh0") (if 0 <? dp_ListenPort ds then dp_ListenPort ds else DefaultMeshListenPort) ""
    (or_else (dp_Protocol ds) "amneziawg") [] false.
Definition deployed_client_config (ds : DeployScript) : CommandConfig :=
  MkCommandConfig (TrimSpace (dp_ControlPlane ds)) (TrimSpace (dp_TopologyName ds)) (TrimSpace (dp_OverlayIP ds)) (or_else (dp_Region ds) "default")
    "/config/node.crt" "/config/node.key" "/config/ca.crt" "/config/wireguard-private.key" "/config" (or_else (dp_InterfaceName ds) "awg-mesh0")
    (if 0 <? dp_ListenPort ds then dp_ListenPort ds else DefaultMeshListenPort) "" (or_else (dp_Protocol ds) "amneziawg") [RoleClient] false.

Lemma entrypoint_parse keyFile args : flag_Parse node_flags (entrypoint_flags keyFile ++ args) =
  flag_Parse (<["wireguard-private-key" := FString (if keyFile then "/config/wireguard-private.key" else "")]> node_flags) args.
Proof using Type. destruct keyFile; [reflexivity|]. cbn [entrypoint_flags app]. by rewrite (insert_id node_flags) by reflexivity. Qed.

Lemma client_args_parse keyFile ds : dp_ListenPort ds < 2 ^ 63 → TrimSpace (dp_EndpointHost ds) = "" →
  ∃ m : flags, flag_Parse node_flags (entrypoint_flags keyFile ++ client_args ds) = Ok (m, []) ∧ boolean m "version" = false ∧ str m "mode" = "clientd" ∧
    mesh_endpoint m = Ok "" ∧ client_config_of m "" = deployed_config keyFile ds.
Proof using Type.
  intros Hp Hep. rewrite entrypoint_parse. unfold client_args. rewrite bool_decide_eq_false_2 by (intros H; by apply H). eexists. split.
  - cbn [app]. do 11 (erewrite parse_pair; [|reflexivity|reflexivity|discriminate|reflexivity]).
    rewrite (parse_opt_int _ _ "mesh-listen-port" _ DefaultMeshListenPort) by (reflexivity || lia). reflexivity.
  - split_and!; [reflexivity..|]. unfold client_config_of, deployed_config. f_equal.
    match goal with |- context [int ?m "mesh-listen-port"] => change (int m "mesh-listen-port") with (if 0 <? dp_ListenPort ds then dp_ListenPort ds else DefaultMeshListenPort) end.
    destruct (Z.ltb_spec 0 (dp_ListenPort ds)) as [H|H]; [|done]. by rewrite (proj2 (Z.ltb_lt _ _) H).
Qed.
Lemma client_args_endpoint keyFile ds : dp_ListenPort ds < 2 ^ 63 → TrimSpace (dp_EndpointHost ds) ≠ "" →
  flag_Parse node_flags (entrypoint_flags keyFile ++ client_args ds) = Err (ErrFlagUndefined "endpoint-host").
Proof using Type.
  intros Hp Hep. rewrite entrypoint_parse. unfold client_args. rewrite bool_decide_eq_true_2 by done.
  cbn [app]. do 11 (erewrite parse_pair; [|reflexivity|reflexivity|discriminate|reflexivity]).
  rewrite (parse_opt_int _ _ "mesh-listen-port" _ DefaultMeshListenPort) by (reflexivity || lia).
  apply (parse_undefined _ _ "endpoint-host" None); [reflexivity..|discriminate|discriminate].
Qed.

Lemma or_else_nonblank v d : blank d = false → blank (or_else v d) = false.
Proof using Type.
  intros Hd. unfold or_else. cbv zeta. destruct (bool_decide_reflect (TrimSpace v = "")) as [_|E]; [done|].
  apply bool_decide_eq_false_2. by rewrite TrimSpace_idem.
Qed.
Lemma deployed_complete keyFile ds : validateDeployScript ds = Ok () → TrimSpace (dp_ControlPlane ds) ≠ "" →
  missing_flags (deployed_config keyFile ds) = [] ∧ dp_ListenPort ds < 2 ^ 63 ∧ 0 ≤ cc_ListenPort (deployed_config keyFile ds) ≤ 65535.
Proof using Type.
  intros Hv Hcp. unfold validateDeployScript, required in Hv. inv_res. bool_to_prop. cbn [deployed_config cc_ListenPort].
  split; [|split; [lia|unfold DefaultMeshListenPort; destruct (Z.ltb_spec 0 (dp_ListenPort ds)); lia]].
  assert (∀ x, TrimSpace x ≠ "" → blank (TrimSpace x) = false) as Hb by (intros x Hx; apply bool_decide_eq_false_2; by rewrite TrimSpace_idem).
  unfold missing_flags. cbn [omap list_omap deployed_config cc_ControlPlane cc_Name cc_OverlayIP cc_Region cc_CertPath cc_StateDir cc_InterfaceName fst snd].
  rewrite !Hb by done. rewrite !or_else_nonblank by reflexivity. reflexivity.
Qed.
Lemma deployed_valid keyFile ds : validateDeployScript ds = Ok () → TrimSpace (dp_ControlPlane ds) ≠ "" →
  or_else (dp_Protocol ds) "amneziawg" = vanilla_text ∨ or_else (dp_Protocol ds) "amneziawg" = amnezia_text →
  ValidateInterfaceName (or_else (dp_InterfaceName ds) "awg-mesh0") = Ok () →
  ValidateCommandConfig ResolveUDPAddr regularFile (deployed_config keyFile ds) = Ok (deployed_client_config ds).
Proof using Type.
  intros Hv Hcp Hproto Hif. destruct (deployed_complete keyFile ds Hv Hcp) as (Hm & _ & Hport). unfold ValidateCommandConfig.
  rewrite (bool_decide_eq_true_2 _ Hm). cbn [negb]. unfold with_defaults.
  assert (default_CACertPath regularFile (deployed_config keyFile ds) = "/config/ca.crt") as -> by reflexivity.
  cbn [cc_Protocol cc_Roles cc_InterfaceName cc_ListenPort cc_EndpointHost cc_CACertPath] in *.
  rewrite (proj2 (orb_true_iff _ _)) by (rewrite !bool_decide_eq_true; exact Hproto).
  change (ValidateComposability _) with (@Ok role_error unit ()). cbn [wrap_err res_bind]. cbn [deployed_config cc_InterfaceName] in *. rewrite Hif. cbn [wrap_err res_bind].
  cbn [cc_ListenPort] in *. rewrite (proj2 (Z.ltb_ge _ _)), (proj2 (Z.ltb_ge _ _)) by lia. cbn [negb orb]. by destruct keyFile.
Qed.

(** ** Dry runs and exit statuses *)

(** The modes whose dry run only prints a plan. *)
Definition plans_only (p : node_plan) : bool := match p with RunControlPlane _ | RunClientd _ => false | _ => true end.
Definition egress_client_ok (p : node_plan) : bool :=
  match p with RunEgress _ clientCfg => is_ok (ValidateCommandConfig ResolveUDPAddr regularFile clientCfg) | _ => true end.

Lemma start_started who out c : o_started (start who out c ran) = Some c.
Proof using Type. by destruct ran as [[]|]. Qed.
(** A dry run starts nothing and predicts the run, except that it does not look at the
    client configuration of an egress node; a control plane and a client have none. *)
Lemma dry_run_predicts p :
  (plans_only p = true → o_started (plan p true) = None ∧
     (o_exit (plan p true) = Some 0 ∧ egress_client_ok p = true ↔ is_Some (o_started (plan p false)))) ∧
  (plans_only p = false → plan p true = plan p false).
Proof using All.
  assert (¬ is_Some (@None component)) as Hnone by (by intros [? ?]).
  assert (∀ c : component, is_Some (Some c)) as Hsome by (intros c; by exists c).
  split; [|by destruct p]. intros Hp. destruct p as [| cfg | cfg ccfg | cfg | cfg |]; try discriminate; cbn [run_plan egress_client_ok].
  - unfold runMaster. destruct (NewMaster env cfg); cbn; rewrite ?start_started; naive_solver.
  - unfold runEgress. destruct (NewEgress _ _ _) as [eg|]; cbn; [|naive_solver].
    destruct (ValidateCommandConfig _ _ ccfg); cbn; rewrite ?start_started; naive_solver.
  - unfold runIngress. destruct (ingress_NewRuntime cfg) as [[? ?]|]; cbn; rewrite ?start_started; naive_solver.
  - unfold runBalancer. destruct (NewRuntime cfg); cbn; rewrite ?start_started; naive_solver.
Qed.
(** Status 1 is for what was started and failed, and for a control plane that cannot be
    made; what is refused otherwise has status 0 or 2. *)
Lemma exit_status p dryRun : let o := plan p dryRun in
  (is_Some (o_started o) → o_exit o = (λ ok : bool, if ok then 0 else 1) <$> ran) ∧
  (o_started o = None → o_exit o = Some 0 ∨ o_exit o = Some 2 ∨ (∃ cfg, p = RunControlPlane cfg) ∧ o_exit o = Some 1).
Proof using All.
  cbv zeta. assert (¬ is_Some (@None component)) as Hnone by (by intros [? ?]). assert (∀ who out c, o_exit (start who out c ran) = (λ ok : bool, if ok then 0 else 1) <$> ran) as Hs by (intros; by destruct ran as [[]|]).
  destruct p; cbn [run_plan]; unfold runControlPlane, runMaster, runEgress, runIngress, runBalancer, runClientd;
    repeat case_match; cbn; rewrite ?start_started, ?Hs; naive_solver.
Qed.
Lemma every_mode_planned mode implCR m : (mode, implCR) ∈ supportedModes → is_Some (mode_plan read mode m).
Proof using Type.
  unfold supportedModes. intros H. repeat (apply elem_of_cons in H as [[= -> ->]|H]; [eexists; reflexivity|]). by apply elem_of_nil in H.
Qed.
End Runs.

(** ** The advertised endpoint *)

Definition endpoint_ok (endpoint : string) : Prop :=
  ∃ host portText port, SplitHostPort endpoint = Ok (host, portText) ∧ blank host = false ∧ Atoi portText = Some port ∧ 1 ≤ port ≤ 65535.
Lemma validateEndpointAddress_ok endpoint flagName : validateEndpointAddress endpoint flagName = Ok () ↔ endpoint_ok endpoint.
Proof.
  unfold validateEndpointAddress, endpoint_ok. split.
  - intros H. destruct (SplitHostPort endpoint) as [[host portText]|]; [|done]. destruct (blank host) eqn:Hb; [done|].
    destruct (Atoi portText) as [port|] eqn:Ha; [|done]. destruct (_ || _) eqn:Hr; [done|]. exists host, portText, port. split_and!; try done; lia.
  - intros (host & portText & port & -> & -> & -> & Hp). rewrite (proj2 (Z.ltb_ge _ _)), (proj2 (Z.ltb_ge _ _)) by lia. done.
Qed.
(** An endpoint is advertised exactly when a flag asks for one, and it is usable. *)
Lemma advertised_ok explicit public port r : advertisedMeshEndpoint explicit public port = Ok r →
  (r = "" ↔ blank explicit = true ∧ blank public = true) ∧ (r ≠ "" → endpoint_ok r).
Proof.
  unfold advertisedMeshEndpoint. cbv zeta. unfold blank.
  destruct (bool_decide_reflect (TrimSpace explicit = "")) as [E|E]; cbn [negb]; intros H.
  - destruct (bool_decide_reflect (TrimSpace public = "")) as [P|P]; [injection H as <-; naive_solver|].
    destruct (is_ok _); [done|]. destruct (bool_decide _); [done|]. inv_res. destruct a. apply validateEndpointAddress_ok in Ha.
    split; [|done]. split; [|naive_solver]. intros E'. rewrite E' in Ha. by destruct Ha as (? & ? & ? & ? & _).
  - inv_res. destruct a. apply validateEndpointAddress_ok in Ha. naive_solver.
Qed.
(** What the flags accept the master accepts: with coordination, only a missing endpoint
    is refused. *)
Lemma master_accepts_endpoint e cfg : endpoint_ok e → ma_MeshEndpointHost cfg = e → TrimSpace e = e → validateAdvertisedMeshEndpoint (TrimSpace (ma_MeshEndpointHost cfg)) = Ok ().
Proof.
  intros (host & portText & port & Hs & Hb & Ha & Hp) -> ->. unfold validateAdvertisedMeshEndpoint. rewrite bool_decide_eq_false_2.
  - rewrite Hs, Hb, Ha. by rewrite (proj2 (Z.ltb_ge _ _)), (proj2 (Z.ltb_ge _ _)) by lia.
  - intros ->. discriminate.
Qed.

(** ** The sorted modes *)

Lemma move_left_perm k l : move_left k l ≡ₚ k :: l.
Proof. induction l as [|x l IH]; cbn [move_left]; [done|]. case_bool_decide; [done|]. rewrite IH. constructor. Qed.
Lemma move_left_sorted k l : StronglySorted (flip String.le) l → StronglySorted (flip String.le) (move_left k l).
Proof.
  induction 1 as [|x l Hl IH Hx]; cbn [move_left]; [by repeat constructor|]. case_bool_decide as E.
  - constructor; [by constructor|]. constructor; [done|]. eapply Forall_impl; [exact Hx|]. intros y Hy. by transitivity x.
  - constructor; [done|]. rewrite move_left_perm. constructor; [|done]. unfold flip. destruct (total String.le k x); naive_solver.
Qed.
Lemma sortedKeys_spec keys : sortedKeys keys ≡ₚ keys ∧ StronglySorted String.le (sortedKeys keys).
Proof.
  unfold sortedKeys.
  assert (∀ acc, foldl (λ sorted k, move_left k sorted) acc keys ≡ₚ acc ++ keys) as Hp.
  { induction keys as [|k keys IH]; intros acc; cbn [foldl]; [by rewrite app_nil_r|]. rewrite IH, move_left_perm. cbn [app]. by rewrite Permutation_middle. }
  assert (∀ acc, StronglySorted (flip String.le) acc → StronglySorted (flip String.le) (foldl (λ sorted k, move_left k sorted) acc keys)) as Hs.
  { clear Hp. induction keys as [|k keys IH]; intros acc Ha; cbn [foldl]; [done|]. by apply IH, move_left_sorted. }
  split; [by rewrite reverse_Permutation, Hp|]. specialize (Hs [] ltac:(constructor)). revert Hs. generalize (foldl (λ sorted k, move_left k sorted) [] keys).
  intros l. induction 1 as [|x l Hl IH Hx]; [constructor|]. rewrite reverse_cons. apply StronglySorted_app. split_and!; [|done|by repeat constructor].
  intros a b Ha ->%list_elem_of_singleton. rewrite elem_of_reverse in Ha. rewrite Forall_forall in Hx. by apply Hx.
Qed.

(** ** The properties *)

(** C25. A client node runs the agent its own flags describe: although the node writes a
    second command line for the agent, which the agent parses with another flag set, the
    agent is started with the very configuration that validating the node's flags
    directly gives - every path, key and name of it - or refused for the same reason.
    This holds for all values: empty ones, ones that look like flags, any port of an
    [int]; the listen port alone is the default one when the node's is not positive. An
    unusable public endpoint stops the node before the agent. *)
Theorem client_node_equiv version read env R rf ran args m rest : flag_Parse node_flags args = Ok (m, rest) →
  boolean m "version" = false → str m "mode" = "clientd" ∨ str m "mode" = "client" →
  runCommand version read env R rf ran args =
    add_stderr (Line <$> warnDeprecatedMode (str m "mode"))
      match mesh_endpoint m with
      | Err e => refuse 2 "" [Failed "clientd" (NArg e)]
      | Ok ep =>
          match ValidateCommandConfig R rf (client_config_of m ep) with
          | Err e => refuse 2 "" [Failed "clientd" (NClientParse (ErrClientConfig e))]
          | Ok cfg => start "clientd" "" (StartedClient cfg) ran
          end
      end ∧
  (∀ ep, mesh_endpoint m = Ok ep → ep ≠ "" → endpoint_ok ep).
Proof.
  intros Hp Hv Hm. split; [by rewrite (client_mode _ _ _ _ _ _ _ _ _ Hp Hv Hm)|]. intros ep Hep. by apply (advertised_ok _ _ _ _ Hep).
Qed.

Definition client_line (port : string) : list string :=
  ["--mode"; "client"; "--control-plane"; "127.0.0.1:9090"; "--name"; "--odd"; "--overlay-ip"; "10.0.0.9"; "--region"; "eu";
   "--cert"; "/config/node.crt"; "--public-ip"; "198.51.100.7"; "--mesh-listen-port"; port].
Definition flags_of (args : list string) : flags := match flag_Parse node_flags args with Ok (m, _) => m | Err _ => ∅ end.
Lemma flags_of_parse args : is_ok (flag_Parse node_flags args) = true → ∃ rest, flag_Parse node_flags args = Ok (flags_of args, rest).
Proof. unfold flags_of. destruct (flag_Parse node_flags args) as [[m rest]|]; [by exists rest|done]. Qed.
Lemma client_node_equiv_witness :
  let o := runCommand "v" (λ _, None) bare_env resolve_literal (λ _, false) None (client_line "443") in
  o = MkOutput "" [Line "warning: --mode client is deprecated for v2.0; use --mode clientd"]
        (Some (StartedClient (MkCommandConfig "127.0.0.1:9090" "--odd" "10.0.0.9" "eu" "/config/node.crt" "/config/node.key" ""
          "/config/wireguard-private.key" "/var/lib/awg-mesh" "awg-mesh0" 443 "198.51.100.7:443" amnezia_text [RoleClient] false))) None ∧
  mesh_endpoint (flags_of (client_line "443")) = Ok "198.51.100.7:443" ∧ endpoint_ok "198.51.100.7:443".
Proof.
  destruct (flags_of_parse (client_line "443")) as [rest Hp]; [vm_compute; reflexivity|].
  assert (mesh_endpoint (flags_of (client_line "443")) = Ok "198.51.100.7:443") as He by (vm_compute; reflexivity).
  destruct (client_node_equiv "v" (λ _, None) bare_env resolve_literal (λ _, false) None _ _ _ Hp) as [H1 H2];
    [vm_compute; reflexivity|right; vm_compute; reflexivity|].
  cbv zeta. split; [|split; [exact He|apply H2; [exact He|discriminate]]]. rewrite H1. vm_compute. reflexivity.
Defined.

(** A word of a command line that no reader splits or unquotes: visible ASCII characters
    but quotes, backslashes and dollar signs. *)
Definition cmd_char (a : ascii) : bool :=
  plain a && negb (bool_decide (a ∈ [dquote; "'"%char; bslash; "$"%char])).
Definition cmd_word (s : string) : Prop := s ≠ "" ∧ Forall (λ a, cmd_char a = true) (to_bytes s).

(** C24. A router's client starts as it was deployed, if it does not advertise an endpoint.
    [split] is how the container runtime cuts the command into arguments; of it only is
    assumed that it cuts simple words at the single blanks between them. For every
    accepted deployment with a coordination target whose arguments all are such words (a
    region or name with a blank in it is not), with a known protocol and a valid
    interface name, the command of the container, with or without the key file that the
    entry point adds to it, starts the agent with the configuration of the deployment.
    A deployment with an endpoint never starts: the command names a flag the node does
    not have, and the container ends with status 2. *)
Theorem deployed_client split version read env R rf ran keyFile ds :
  (∀ ws, ws ≠ [] → Forall cmd_word ws → split (join " " ws) = ws) →
  validateDeployScript ds = Ok () → TrimSpace (dp_ControlPlane ds) ≠ "" → Forall cmd_word (client_args ds) →
  let o := runCommand version read env R rf ran (entrypoint_flags keyFile ++ split (buildClientCommand ds)) in
  (TrimSpace (dp_EndpointHost ds) = "" →
   or_else (dp_Protocol ds) "amneziawg" = vanilla_text ∨ or_else (dp_Protocol ds) "amneziawg" = amnezia_text →
   ValidateInterfaceName (or_else (dp_InterfaceName ds) "awg-mesh0") = Ok () →
   o = start "clientd" "" (StartedClient (deployed_client_config ds)) ran) ∧
  (TrimSpace (dp_EndpointHost ds) ≠ "" → o = refuse 2 "" [Failed "" (NFlags (ErrFlagUndefined "endpoint-host"))]).
Proof.
  intros Hsplit Hv Hcp Hw. cbv zeta. destruct (deployed_complete keyFile ds Hv Hcp) as (_ & Hport & _).
  assert (split (buildClientCommand ds) = client_args ds) as ->.
  { unfold buildClientCommand. rewrite bool_decide_eq_false_2 by done. by apply Hsplit. }
  split.
  - intros Hep Hproto Hif. destruct (client_args_parse keyFile ds Hport Hep) as (m & Hm & Hver & Hmode & Hend & Hcfg).
    rewrite (client_mode _ _ _ _ _ _ _ _ _ Hm Hver (or_introl Hmode)), Hmode. unfold client_outcome, client_runs. rewrite Hend, Hcfg.
    rewrite (deployed_valid R rf keyFile ds Hv Hcp Hproto Hif). by destruct ran as [[]|].
  - intros Hep. unfold runCommand. by rewrite (client_args_endpoint keyFile ds Hport Hep).
Qed.

Definition demo_deployment (endpoint : string) : DeployScript :=
  MkDeployScript "router-01" "awg-mesh-client" "bridge" "img" "veth1" "192.168.99.1" "172.21.92.130" "172.21.92.0/24" "hash" "" "" "" ""
    "192.0.2.5:9090" "" 51821 endpoint "" "" "7.20" [] 9090 "".
Lemma cmd_word_word s : cmd_word s → word s.
Proof.
  intros [Hne H]. split; [done|]. eapply Forall_impl; [exact H|]. intros a Ha. unfold cmd_char in Ha. by apply andb_true_iff in Ha as [? _].
Qed.
Lemma Fields_splits ws : ws ≠ [] → Forall cmd_word ws → Fields (join " " ws) = ws.
Proof. intros _ H. apply Fields_join. eapply Forall_impl; [exact H|]. apply cmd_word_word. Qed.
#[global] Instance cmd_word_dec s : Decision (cmd_word s).
Proof. unfold cmd_word. apply _. Defined.
Lemma deployed_client_witness :
  runCommand "v" (λ _, None) bare_env resolve_literal (λ _, false) None
    (entrypoint_flags true ++ Fields (buildClientCommand (demo_deployment ""))) =
    MkOutput "" [] (Some (StartedClient (deployed_client_config (demo_deployment "")))) None ∧
  runCommand "v" (λ _, None) bare_env resolve_literal (λ _, false) None
    (entrypoint_flags false ++ Fields (buildClientCommand (demo_deployment "203.0.113.5:51821"))) =
    refuse 2 "" [Failed "" (NFlags (ErrFlagUndefined "endpoint-host"))].
Proof.
  pose proof (deployed_client Fields "v" (λ _, None) bare_env resolve_literal (λ _, false) None) as H. split.
  - apply (H true (demo_deployment "")); [exact Fields_splits|vm_compute; reflexivity|discriminate|apply (bool_decide_unpack _); vm_compute; exact I|
      vm_compute; reflexivity|right; vm_compute; reflexivity|vm_compute; reflexivity].
  - apply (H false (demo_deployment "203.0.113.5:51821")); [exact Fields_splits|vm_compute; reflexivity|discriminate|
      apply (bool_decide_unpack _); vm_compute; exact I|vm_compute; discriminate].
Defined.

(** *** What the models answer on concrete command lines *)

Definition run_line (ran : option bool) (args : list string) : output :=
  runCommand "2.0.1" (λ _, None) bare_env resolve_literal (λ _, false) ran args.
Example master_dry_run :
  run_line None ["--mode"; "master"; "--name"; "m1"; "--overlay-ip"; "10.0.0.1"; "--public-ip"; "[2001:db8::7]"; "--mesh-listen-port=0x1BB"; "--dry-run"] =
  refuse 0 ("master dry-run node=m1 overlay=10.0.0.1 client=wg-clients:51820/vanilla-wg mesh=wg-mesh:443/amneziawg endpoint=[2001:db8::7]:443 coordination=disabled" +:+ nl) [].
Proof. vm_compute. reflexivity. Qed.
Example balancer_dry_run :
  run_line None ["--mode"; "balancer"; "--name"; "b1"; "--overlay-ip"; "10.0.0.1"; "--balancer-egress"; "e1=10.1.0.1:443,weight=2"; "--balancer-dscp"; "10=e1";
    "--balancer-health-interval"; "90s"; "--balancer-mode=labeled"; "--dry-run"] =
  refuse 0 ("balancer dry-run node=b1 overlay=10.0.0.1 mode=labeled egresses=1 health=1m30s flow_idle=30s egress=e1->10.1.0.1:443/weight=2 dscp=10->e1" +:+ nl) [].
Proof. vm_compute. reflexivity. Qed.
Example no_mode : run_line None [] = refuse 2 "" [Line "error: --mode is required";
  Line "supported modes: balancer, client, clientd, control-plane, egress, endpoint, ingress, master"].
Proof. vm_compute. reflexivity. Qed.

(** A dry run of an egress node passes although the run is refused. *)
Definition egress_line : list string := ["--mode"; "egress"; "--name"; "e1"; "--overlay-ip"; "10.0.0.2"; "--internet-iface"; "eth0"].
Lemma egress_dry_run_misleads : o_exit (run_line None (egress_line ++ ["--dry-run"])) = Some 0 ∧ o_exit (run_line None egress_line) = Some 2.
Proof. vm_compute. split; reflexivity. Qed.
(** A dry run of a client or of a control plane starts it. *)
Lemma dry_run_starts : is_Some (o_started (run_line None (client_line "443" ++ ["--dry-run"]))) ∧
  is_Some (o_started (run_line None ["--mode"; "control-plane"; "--dry-run"])).
Proof. split; eexists; vm_compute; reflexivity. Qed.
(** The port 0, which lets the driver choose, becomes the default port in a client; an
    egress node keeps it. *)
Lemma listen_port_zero_lost m ep : int m "mesh-listen-port" = 0 →
  cc_ListenPort (client_config_of m ep) = DefaultMeshListenPort ∧ cc_ListenPort (egress_client_config m ep) = 0.
Proof. intros H. unfold client_config_of, egress_client_config. cbn [cc_ListenPort]. by rewrite H. Qed.
