(* ===== verification/Maps.v ===== *)
(** * Maps made from lists

    A Go loop that writes every element of a list into a map: later elements replace
    earlier ones with the same key. *)

From S2P Require Import Prelude.

Section Inserted.
Context {A K V : Type} `{Countable K} (key : A → K) (value : A → V).
Definition insert_all (m : gmap K V) (l : list A) : gmap K V := foldl (λ m a, <[key a := value a]> m) m l.
Lemma insert_all_other l : ∀ m k, k ∉ key <$> l → insert_all m l !! k = m !! k.
Proof using Type.
  induction l as [|a l IH]; intros m k Hk; [done|]. cbn [insert_all foldl]. fold (insert_all (<[key a := value a]> m) l).
  rewrite fmap_cons, not_elem_of_cons in Hk. destruct Hk as [Hne Hk]. rewrite IH by done. by rewrite lookup_insert_ne.
Qed.
Lemma insert_all_lookup l : NoDup (key <$> l) → ∀ m a, a ∈ l → insert_all m l !! key a = Some (value a).
Proof using Type.
  induction l as [|x l IH]; intros Hnd m a Ha; [by apply elem_of_nil in Ha|]. rewrite fmap_cons, NoDup_cons in Hnd. destruct Hnd as [Hx Hnd].
  cbn [insert_all foldl]. fold (insert_all (<[key x := value x]> m) l). apply elem_of_cons in Ha as [->|Ha]; [|by apply IH].
  rewrite insert_all_other by done. by rewrite lookup_insert_eq.
Qed.
Lemma insert_all_inv l : ∀ m k v, insert_all m l !! k = Some v → (∃ a, a ∈ l ∧ key a = k ∧ value a = v) ∨ m !! k = Some v.
Proof using Type.
  induction l as [|x l IH]; intros m k v; [by right|]. cbn [insert_all foldl]. fold (insert_all (<[key x := value x]> m) l).
  intros [(a & Ha & E1 & E2)|[[<- <-]|[_ Hm]]%lookup_insert_Some]%IH; [|left; exists x|by right]; [left; exists a|]; set_solver.
Qed.
End Inserted.
