(* ===== verification/Dns.v ===== *)
(** * The overlay's DNS zone ([src/pkg/dns/zone.go], [src/pkg/dns/server.go])

    [BuildZoneRecords] makes an address and a reverse record for every node; the server
    keeps the two kinds in two maps and answers queries from them. The map of nodes is
    given as the list of its entries in the order the loop meets them, which is any order.
    Which handler gets a query is the DNS library's choice; sending a message is its work.
    [ToLower] is exact on ASCII text. *)

From S2P Require Import Prelude Maps GoStrings GoNet GoText.

(** ** zone.go *)

Record DnsRecord := MkDnsRecord { dr_Name : string; dr_Type : string; dr_Value : string }.

Definition dotted (zone : string) : string := if HasSuffix zone "." then zone else zone +:+ ".".
(** For an address that is not IPv4 the text is empty. *)
Definition reverseIP (ip : Z) : string :=
  match To4 ip with
  | None => ""
  | Some v => join "." (Itoa <$> reverse (octets 4 v))
  end.
(** The records of one node; [zone] ends in a dot. *)
Definition node_records (zone : string) (node : string * string) : list DnsRecord :=
  let trimmedName := TrimSpace node.1 in
  let trimmedIP := TrimSpace node.2 in
  if bool_decide (trimmedName = "") || bool_decide (trimmedIP = "") then [] else
  match ParseIP trimmedIP with
  | None => []
  | Some parsedIP =>
      if bool_decide (To4 parsedIP = None) then [] else
      let fqdn := trimmedName +:+ "." +:+ zone in
      [MkDnsRecord fqdn "A" (ip_string parsedIP); MkDnsRecord (reverseIP parsedIP +:+ ".in-addr.arpa.") "PTR" fqdn]
  end.
Definition BuildZoneRecords (zone : string) (nodes : list (string * string)) : list DnsRecord :=
  let trimmedZone := TrimSpace zone in
  if bool_decide (trimmedZone = "") then [] else nodes ≫= node_records (dotted trimmedZone).

(** ** server.go *)

Record DnsServer := MkDnsServer {
  sv_zone : string; sv_listen : string; sv_upstream : string; sv_aMap : gmap string Z; sv_ptrMap : gmap string string
}.

Definition load_record (maps : gmap string Z * gmap string string) (r : DnsRecord) : gmap string Z * gmap string string :=
  if bool_decide (dr_Type r = "A") then
    match ParseIP (dr_Value r) with Some ip => (<[ToLower (dr_Name r) := ip]> maps.1, maps.2) | None => maps end
  else if bool_decide (dr_Type r = "PTR") then (maps.1, <[ToLower (dr_Name r) := dr_Value r]> maps.2)
  else maps.
(** New maps take the place of the old ones. *)
Definition loadRecords (records : list DnsRecord) (s : DnsServer) : DnsServer :=
  let maps := foldl load_record (∅, ∅) records in
  MkDnsServer (sv_zone s) (sv_listen s) (sv_upstream s) maps.1 maps.2.
Definition UpdateRecords : list DnsRecord → DnsServer → DnsServer := loadRecords.
(** No zone, no server. *)
Definition dns_NewServer (zone listen upstream : string) (records : list DnsRecord) : option DnsServer :=
  let trimmedZone := TrimSpace zone in
  if bool_decide (trimmedZone = "") then None else
  let trimmedListen := TrimSpace listen in
  let trimmedListen := if bool_decide (trimmedListen = "") then "127.0.0.1:53" else trimmedListen in
  let trimmedUpstream := TrimSpace upstream in
  let trimmedUpstream := if bool_decide (trimmedUpstream = "") then "1.1.1.1" else trimmedUpstream in
  let trimmedUpstream := if Contains trimmedUpstream ":" then trimmedUpstream else trimmedUpstream +:+ ":53" in
  Some (loadRecords records (MkDnsServer (dotted trimmedZone) trimmedListen trimmedUpstream ∅ ∅)).

(** *** Queries *)

Definition TypeA : Z := 1.
Definition TypePTR : Z := 12.
Record Question := MkQuestion { q_Name : string; q_Qtype : Z }.
(** The header of an answer has the name of the question, class IN and 60 seconds. *)
Inductive RR := RRA (name : string) (ip : Z) | RRPTR (name fqdn : string).
(** The response code: 0, or 2 for a failure of the server. *)
Record Reply := MkReply { re_Authoritative : bool; re_Rcode : Z; re_Answer : list RR }.

Definition handleZone (s : DnsServer) (questions : list Question) : Reply :=
  MkReply true 0 (questions ≫= λ q,
    let name := ToLower (q_Name q) in
    if q_Qtype q =? TypeA then match sv_aMap s !! name with Some ip => [RRA (q_Name q) ip] | None => [] end else []).
Definition handlePTR (s : DnsServer) (questions : list Question) : Reply :=
  MkReply true 0 (questions ≫= λ q,
    if negb (q_Qtype q =? TypePTR) then [] else
    let name := ToLower (q_Name q) in
    match sv_ptrMap s !! name with Some fqdn => [RRPTR (q_Name q) fqdn] | None => [] end).
(** [resp]: what the upstream server answers. *)
Definition handleForward (resp : option Reply) : Reply := match resp with Some r => r | None => MkReply false 2 [] end.

(** ** Nodes and their records *)

(** An IPv4 node of the map: its full name and its address. *)
Definition zone_entry (zone : string) (node : string * string) : option (string * Z) :=
  if bool_decide (TrimSpace node.1 = "") then None else
  match ParseIP (TrimSpace node.2) with
  | Some ip => (λ v, (TrimSpace node.1 +:+ "." +:+ dotted (TrimSpace zone), v)) <$> To4 ip
  | None => None
  end.
Definition reverse_name (v : Z) : string := join "." (Itoa <$> reverse (octets 4 v)) +:+ ".in-addr.arpa.".
Definition entry_records (e : string * Z) : list DnsRecord := [MkDnsRecord e.1 "A" (addr4_string e.2); MkDnsRecord (reverse_name e.2) "PTR" e.1].
Definition load_entry (maps : gmap string Z * gmap string string) (e : string * Z) : gmap string Z * gmap string string :=
  (<[ToLower e.1 := v4_mapped e.2]> maps.1, <[reverse_name e.2 := e.1]> maps.2).

Lemma To4_range ip v : To4 ip = Some v → 0 ≤ v < 2 ^ 32.
Proof. unfold To4. destruct (in_v4_mapped ip); intros [= <-]. by apply Z.mod_pos_bound. Qed.
Lemma node_records_entry zone node :
  node_records (dotted (TrimSpace zone)) node = match zone_entry zone node with Some e => entry_records e | None => [] end.
Proof.
  unfold node_records, zone_entry. cbv zeta. destruct (bool_decide_reflect (TrimSpace node.1 = "")) as [|_]; [done|]. cbn [orb].
  destruct (bool_decide_reflect (TrimSpace node.2 = "")) as [->|_]; [done|]. destruct (ParseIP (TrimSpace node.2)) as [ip|]; [|done].
  unfold reverseIP, ip_string. destruct (To4 ip) as [v|]; [|done]. reflexivity.
Qed.
Lemma BuildZoneRecords_entries zone nodes : TrimSpace zone ≠ "" → BuildZoneRecords zone nodes = omap (zone_entry zone) nodes ≫= entry_records.
Proof.
  intros Hz. unfold BuildZoneRecords. cbv zeta. rewrite bool_decide_eq_false_2 by done. induction nodes as [|n nodes IH]; [done|].
  cbn [mbind list_bind omap list_omap]. rewrite IH, node_records_entry. destruct (zone_entry zone n); reflexivity.
Qed.

(** ** The maps of the server *)

Lemma ParseIP_addr4 v : 0 ≤ v < 2 ^ 32 → ParseIP (addr4_string v) = Some (v4_mapped v).
Proof. intros H. unfold ParseIP. by rewrite ParseAddr_addr4_string. Qed.

(** The address with its bytes in reverse order; its text is the reverse name. *)
Definition swap_bytes (v : Z) : Z := be_val (reverse (octets 4 v)).
Lemma octets_be_val a b c d : 0 ≤ a < 256 → 0 ≤ b < 256 → 0 ≤ c < 256 → 0 ≤ d < 256 → octets 4 (be_val [a; b; c; d]) = [a; b; c; d].
Proof.
  intros Ha Hb Hc Hd. unfold be_val. cbn [foldl fold_left octets Z.of_nat Pos.of_succ_nat Pos.succ].
  change (256 ^ Z.of_nat 3) with 16777216. change (256 ^ Z.of_nat 2) with 65536. change (256 ^ Z.of_nat 1) with 256. change (256 ^ Z.of_nat 0) with 1.
  repeat (apply (f_equal2 cons); [Z.div_mod_to_equations; lia|]). reflexivity.
Qed.
Lemma octet_byte v k : 0 ≤ (v / 256 ^ k) mod 256 < 256.
Proof. by apply Z.mod_pos_bound. Qed.
Lemma octets_swap v : octets 4 (swap_bytes v) = reverse (octets 4 v).
Proof. unfold swap_bytes. cbn [octets reverse rev_append]. apply octets_be_val; apply octet_byte. Qed.
Lemma swap_bytes_range v : 0 ≤ swap_bytes v < 2 ^ 32.
Proof.
  unfold swap_bytes. pose proof (be_val_bound (reverse (octets 4 v))) as H. rewrite length_reverse, length_octets in H.
  apply H. apply Forall_reverse. cbn [octets]. repeat (constructor; [apply octet_byte|]). constructor.
Qed.
Lemma reverse_name_swap v : reverse_name v = addr4_string (swap_bytes v) +:+ ".in-addr.arpa.".
Proof. unfold reverse_name, addr4_string. by rewrite octets_swap. Qed.
Lemma swap_bytes_inj v w : 0 ≤ v < 2 ^ 32 → 0 ≤ w < 2 ^ 32 → swap_bytes v = swap_bytes w → v = w.
Proof.
  intros Hv Hw H. apply (f_equal (octets 4)) in H. rewrite !octets_swap in H. apply (inj reverse) in H. apply (f_equal be_val) in H.
  rewrite !be_val_octets in H. change (256 ^ Z.of_nat 4) with (2 ^ 32) in H. by rewrite !Z.mod_small in H.
Qed.
Lemma string_app_suffix_inj a b s : a +:+ s = b +:+ s → a = b.
Proof.
  intros H. apply (f_equal to_bytes) in H. rewrite !to_bytes_app in H. apply (inj (.++ _)) in H.
  apply (f_equal of_bytes) in H. by rewrite !of_to_bytes in H.
Qed.
Lemma reverse_name_inj v w : 0 ≤ v < 2 ^ 32 → 0 ≤ w < 2 ^ 32 → reverse_name v = reverse_name w → v = w.
Proof.
  intros Hv Hw. rewrite !reverse_name_swap. intros H%string_app_suffix_inj. apply swap_bytes_inj; [done..|].
  apply (f_equal ParseAddr) in H. rewrite !ParseAddr_addr4_string in H by apply swap_bytes_range. by injection H.
Qed.
Lemma quad_char_low a : quad_char a = true → is_upper a = false ∧ code a < 128.
Proof.
  unfold quad_char, is_digit, is_upper. intros [H|H%bool_decide_eq_true_1]%orb_true_iff; [|by subst; split]. split; [apply andb_false_iff; left|]; lia.
Qed.
Lemma reverse_name_lower v : ToLower (reverse_name v) = reverse_name v.
Proof.
  unfold ToLower. rewrite reverse_name_swap, to_lower_fix, of_to_bytes; [done|]. rewrite to_bytes_app. apply Forall_app. split.
  - eapply Forall_impl; [apply addr4_chars|]. intros a. apply quad_char_low.
  - apply (bool_decide_unpack _). vm_compute. exact I.
Qed.

Definition entry_ok (e : string * Z) : Prop := 0 ≤ e.2 < 2 ^ 32.
Lemma zone_entry_ok zone n e : zone_entry zone n = Some e → entry_ok e.
Proof.
  unfold zone_entry. destruct (bool_decide _); [done|]. destruct (ParseIP _); [|done]. intros (v & H & ->)%fmap_Some. by apply To4_range in H.
Qed.
Lemma load_entries es : Forall entry_ok es → ∀ maps, foldl load_record maps (es ≫= entry_records) = foldl load_entry maps es.
Proof.
  induction 1 as [|e es He _ IH]; intros maps; [done|]. change ((e :: es) ≫= entry_records) with (entry_records e ++ (es ≫= entry_records)).
  rewrite foldl_app. cbn [entry_records foldl]. rewrite IH. f_equal. unfold load_record. cbn [dr_Type dr_Name dr_Value fst snd].
  rewrite ParseIP_addr4, reverse_name_lower by done. reflexivity.
Qed.

Lemma load_entries_maps es : ∀ maps, foldl load_entry maps es =
  (insert_all (λ e, ToLower e.1) (λ e, v4_mapped e.2) maps.1 es, insert_all (λ e, reverse_name e.2) fst maps.2 es).
Proof. induction es as [|e es IH]; intros [m1 m2]; [done|]. cbn [foldl]. rewrite IH. reflexivity. Qed.

(** ** Forward and reverse *)

Definition ascii_text (s : string) : Prop := Forall (λ a, code a < 128) (to_bytes s).

Lemma zone_entries_ok zone nodes : Forall entry_ok (omap (zone_entry zone) nodes).
Proof. apply Forall_forall. intros e (n & _ & H)%list_elem_of_omap. by eapply zone_entry_ok. Qed.
Lemma reverse_names_distinct es : Forall entry_ok es → NoDup es.*2 → NoDup ((λ e : string * Z, reverse_name e.2) <$> es).
Proof.
  intros Hok Hnd. change (NoDup ((reverse_name ∘ snd) <$> es)). rewrite list_fmap_compose. apply (Forall_fmap snd (λ v, 0 ≤ v < 2 ^ 32)) in Hok.
  revert Hok Hnd. generalize es.*2. intros l Hok Hnd. induction Hnd as [|v l Hv Hnd IH]; [constructor|].
  apply Forall_cons in Hok as [H1 H2]. rewrite fmap_cons. constructor; [|by apply IH]. intros (w & E & Hw)%list_elem_of_fmap.
  rewrite Forall_forall in H2. apply reverse_name_inj in E; [by subst|done|by apply H2].
Qed.

(** The server's maps hold the entries of the zone. *)
Definition serves (s : DnsServer) (es : list (string * Z)) : Prop :=
  (∀ e, e ∈ es → sv_aMap s !! ToLower e.1 = Some (v4_mapped e.2) ∧ sv_ptrMap s !! reverse_name e.2 = Some e.1) ∧
  (∀ k ip, sv_aMap s !! k = Some ip → ∃ e, e ∈ es ∧ ToLower e.1 = k ∧ v4_mapped e.2 = ip) ∧
  (∀ k f, sv_ptrMap s !! k = Some f → ∃ e, e ∈ es ∧ reverse_name e.2 = k ∧ e.1 = f).
Lemma loadRecords_serves zone nodes s : let es := omap (zone_entry zone) nodes in
  TrimSpace zone ≠ "" → NoDup ((λ e, ToLower e.1) <$> es) → NoDup es.*2 → serves (loadRecords (BuildZoneRecords zone nodes) s) es.
Proof.
  intros es Hz Hn Ha. pose proof (zone_entries_ok zone nodes) as Hok. fold es in Hok. unfold loadRecords, serves. cbv zeta. cbn [sv_aMap sv_ptrMap].
  rewrite BuildZoneRecords_entries, load_entries, load_entries_maps by done. cbn [fst snd]. fold es. split_and!.
  - intros e He. split.
    + by apply (insert_all_lookup (λ e, ToLower e.1) (λ e : string * Z, v4_mapped e.2)).
    + apply (insert_all_lookup (λ e : string * Z, reverse_name e.2) fst); [by apply reverse_names_distinct|done].
  - intros k ip [H|H]%insert_all_inv; [done|by rewrite lookup_empty in H].
  - intros k ip [H|H]%insert_all_inv; [done|by rewrite lookup_empty in H].
Qed.

(** C27. Forward and reverse lookups agree, in whichever order the map of nodes is read:
    when the IPv4 nodes of a zone have different names, up to case, and different
    addresses, a query for the name of a node, in any case, is answered with exactly its
    address, and the query for the reverse name of this address with exactly the full
    name; and the server answers nothing else: every answer, forward or reverse, is one of
    a node of the zone. Replacing the records forgets the old ones. *)
Theorem dns_forward_reverse zone listen upstream nodes old : let es := omap (zone_entry zone) nodes in
  TrimSpace zone ≠ "" → Forall (λ e, ascii_text e.1) es → NoDup ((λ e, ToLower e.1) <$> es) → NoDup es.*2 →
  ∃ s0, dns_NewServer zone listen upstream old = Some s0 ∧
  let s := UpdateRecords (BuildZoneRecords zone nodes) s0 in
  (∀ fqdn v, (fqdn, v) ∈ es →
    (∀ q, ToLower q = ToLower fqdn → handleZone s [MkQuestion q TypeA] = MkReply true 0 [RRA q (v4_mapped v)]) ∧
    handlePTR s [MkQuestion (reverse_name v) TypePTR] = MkReply true 0 [RRPTR (reverse_name v) fqdn]) ∧
  (∀ qs rr, rr ∈ re_Answer (handleZone s qs) ++ re_Answer (handlePTR s qs) → ∃ e, e ∈ es ∧
    match rr with
    | RRA q ip => ToLower q = ToLower e.1 ∧ ip = v4_mapped e.2
    | RRPTR q fqdn => ToLower q = reverse_name e.2 ∧ fqdn = e.1
    end).
Proof.
  intros es Hz _ Hn Ha. unfold dns_NewServer. cbv zeta. rewrite bool_decide_eq_false_2 by done. eexists. split; [reflexivity|].
  unfold UpdateRecords. match goal with |- context [loadRecords (BuildZoneRecords zone nodes) ?s0] => destruct (loadRecords_serves zone nodes s0 Hz Hn Ha) as (Hs & Hinv & Hpinv); set (s := loadRecords _ s0) in * end.
  split.
  - intros fqdn v He. destruct (Hs _ He) as [H1 H2]. cbn [fst snd] in *. split.
    + intros q Hq. unfold handleZone. cbn [mbind list_bind q_Name q_Qtype]. rewrite Hq, H1. reflexivity.
    + unfold handlePTR. cbn [mbind list_bind q_Name q_Qtype]. rewrite reverse_name_lower, H2. reflexivity.
  - intros qs rr [H|H]%elem_of_app; cbn [handleZone handlePTR re_Answer] in H; apply list_elem_of_bind in H as (q & H & _).
    + destruct (q_Qtype q =? TypeA); [|by apply elem_of_nil in H]. destruct (sv_aMap s !! _) as [ip|] eqn:E; [|by apply elem_of_nil in H].
      apply list_elem_of_singleton in H as ->. destruct (Hinv _ _ E) as (e & He & E1 & E2). by exists e.
    + destruct (negb _); [by apply elem_of_nil in H|]. destruct (sv_ptrMap s !! _) as [f|] eqn:E; [|by apply elem_of_nil in H].
      apply list_elem_of_singleton in H as ->. destruct (Hpinv _ _ E) as (e & He & E1 & E2). by exists e.
Qed.

Definition demo_nodes : list (string * string) := [("node-EU", " 10.0.0.1"); ("v6", "2001:db8::1"); ("", "10.0.0.3"); ("node-us", "::ffff:10.0.0.2"); ("bad", "10.0.0")].
Lemma dns_forward_reverse_witness : ∃ s0, dns_NewServer "mesh.zone" "" "9.9.9.9" [] = Some s0 ∧ sv_upstream s0 = "9.9.9.9:53" ∧
  let s := UpdateRecords (BuildZoneRecords "mesh.zone" demo_nodes) s0 in
  handleZone s [MkQuestion "NODE-eu.mesh.zone." TypeA] = MkReply true 0 [RRA "NODE-eu.mesh.zone." (v4_mapped 167772161)] ∧
  handlePTR s [MkQuestion "2.0.0.10.in-addr.arpa." TypePTR] = MkReply true 0 [RRPTR "2.0.0.10.in-addr.arpa." "node-us.mesh.zone."].
Proof.
  destruct (dns_forward_reverse "mesh.zone" "" "9.9.9.9" demo_nodes []) as (s0 & E & H & _).
  - discriminate.
  - apply (bool_decide_unpack _). vm_compute. exact I.
  - apply (bool_decide_unpack _). vm_compute. exact I.
  - apply (bool_decide_unpack _). vm_compute. exact I.
  - exists s0. split; [exact E|]. split; [injection E as <-; reflexivity|]. cbv zeta. split.
    + apply (H "node-EU.mesh.zone." 167772161); [apply (bool_decide_unpack _); vm_compute; exact I|vm_compute; reflexivity].
    + apply (H "node-us.mesh.zone." 167772162). apply (bool_decide_unpack _). vm_compute. exact I.
Defined.

(** Names that differ in case only share one entry: the answer depends on the order in
    which the map of nodes is read. *)
Lemma case_collision : let answer nodes := (λ s, re_Answer (handleZone s [MkQuestion "a.z." TypeA])) <$> dns_NewServer "z" "" "" (BuildZoneRecords "z" nodes) in
  answer [("a", "10.0.0.1"); ("A", "10.0.0.2")] ≠ answer [("A", "10.0.0.2"); ("a", "10.0.0.1")].
Proof. vm_compute. discriminate. Qed.
