(* ===== verification/Diagnose.v ===== *)
(** * Diagnostic commands ([src/cmd/mesh-ctl/cmd]: inspect.go, status.go, and the scrape
    configuration of topology.go)

    [inspect] compares what a node reports with what the administrator's files say;
    [status] lists the nodes and, on request, probes every master for every endpoint;
    [generate-prometheus-config] turns a topology into scrape targets. Answers of nodes
    are arguments; tables are lists of rows, their column widths are left out. *)

From S2P Require Import Prelude Maps GoStrings GoNet GoPath GoText Role TopologyV2 Ranges Topology RotateCmd.

(** ** inspect.go *)

Record TransportPeerState := MkPeerState {
  ps_Name : string; ps_PublicKeyHex : string; ps_AllowedIps : list string; ps_DiskPublicKeyHex : string; ps_DiskAllowedIps : list string
}.
Record adminPeerView := MkAdminPeer { ap_name : string; ap_ifaceName : string; ap_pubkeyHex : string; ap_allowedIPs : list string }.
Record driftRow := MkDriftRow {
  dr_peerName : string; dr_ifaceName : string; dr_adminKey : string; dr_diskKey : string; dr_runtimeKey : string;
  dr_adminIPs : string; dr_diskIPs : string; dr_runtimeIPs : string; dr_driftReasons : list string
}.

(** The key as 32 bytes, or as 64 characters and white space. *)
Definition readAdminPubkey (m : gmap string string) (cfgDir name : string) : string :=
  match m !! path_Join [nodeDir cfgDir name; "pubkey"] with
  | None => ""
  | Some data =>
      let trimmed := TrimSpace data in
      if bool_decide (length (to_bytes data) = 32%nat) then hex_encode (to_bytes data) else
      if bool_decide (length (to_bytes trimmed) = 64%nat) then ToLower trimmed else ""
  end.

Definition buildAdminView (m : gmap string string) (topo : Topology) (nodeName cfgDir : string) (master : option MasterNode) (ep : option EndpointNode)
    : list adminPeerView :=
  match master with
  | Some master =>
      omap (λ epName, (λ _, MkAdminPeer epName ("wg-" +:+ epName) (readAdminPubkey m cfgDir epName) []) <$> FindEndpoint topo epName) (mn_Endpoints master)
  | None =>
      match ep with
      | Some _ =>
          omap (λ ms, if containsName (mn_Endpoints ms) nodeName
                      then Some (MkAdminPeer (mn_Name ms) ("wg-" +:+ of_bytes (take 12 (to_bytes (mn_Name ms)))) (readAdminPubkey m cfgDir (mn_Name ms))
                                   [mn_OverlayIP ms +:+ "/32"])
                      else None) (tp_Masters topo)
      | None => []
      end
  end.

Definition sortedUniqueIPs (s : list string) : string := join "," (sort_by id (elements (list_to_set (TrimSpace <$> s) : gset string))).
Definition ipsMatch (expected actual : list string) : bool :=
  bool_decide (length expected = 0%nat) || bool_decide (sortedUniqueIPs expected = sortedUniqueIPs actual).

(** The maps of the node's peers; a later peer replaces an earlier one. *)
Definition peers_by (key : TransportPeerState → string) (peers : list TransportPeerState) : gmap string TransportPeerState :=
  foldl (λ m p, <[key p := p]> m) ∅ peers.
Definition disk_key (p : TransportPeerState) : string := if bool_decide (ps_DiskPublicKeyHex p = "") then ps_PublicKeyHex p else ps_DiskPublicKeyHex p.
Definition disk_ips (p : TransportPeerState) : list string := if bool_decide (length (ps_DiskAllowedIps p) = 0%nat) then ps_AllowedIps p else ps_DiskAllowedIps p.
Definition locate (peers : list TransportPeerState) (ap : adminPeerView) : option TransportPeerState :=
  match peers_by ps_PublicKeyHex peers !! ap_pubkeyHex ap with Some np => Some np | None => peers_by ps_Name peers !! ap_name ap end.
Definition drift_reasons (ap : adminPeerView) (np : TransportPeerState) : list string :=
  (if bool_decide (ap_pubkeyHex ap = "") then ["admin_pubkey_missing"] else
   if bool_decide (ps_PublicKeyHex np ≠ ap_pubkeyHex ap) then ["key_mismatch"] else []) ++
  (if bool_decide (disk_key np ≠ ps_PublicKeyHex np) then ["disk_runtime_diverge"] else []) ++
  (if bool_decide (0 < length (ap_allowedIPs ap))%nat && negb (ipsMatch (ap_allowedIPs ap) (ps_AllowedIps np)) then ["stale_allowed_ips"] else []).
Definition admin_row (peers : list TransportPeerState) (ap : adminPeerView) : driftRow :=
  let adminIPs := join "," (ap_allowedIPs ap) in
  match locate peers ap with
  | None => MkDriftRow (ap_name ap) (ap_ifaceName ap) (ap_pubkeyHex ap) "" "" adminIPs "" "" ["missing_peer"]
  | Some np => MkDriftRow (ap_name ap) (ap_ifaceName ap) (ap_pubkeyHex ap) (disk_key np) (ps_PublicKeyHex np) adminIPs
                 (join "," (disk_ips np)) (join "," (ps_AllowedIps np)) (drift_reasons ap np)
  end.
Definition seen_keys (peers : list TransportPeerState) (admin : list adminPeerView) : gset string :=
  list_to_set (omap (λ ap, ps_PublicKeyHex <$> locate peers ap) admin).
Definition extra_row (np : TransportPeerState) : driftRow :=
  MkDriftRow (ps_Name np) "" "" (disk_key np) (ps_PublicKeyHex np) "" (join "," (disk_ips np)) (join "," (ps_AllowedIps np)) ["extra_peer"].
Definition drift_rows (admin : list adminPeerView) (peers : list TransportPeerState) : list driftRow :=
  (admin_row peers <$> admin) ++ (extra_row <$> filter (λ np, ps_PublicKeyHex np ∉ seen_keys peers admin) peers).
(** [printInspectReport]'s result. *)
Definition hasDrift (rows : list driftRow) : bool := existsb (λ r, bool_decide (0 < length (dr_driftReasons r))%nat) rows.
(** [s[:n-1]] and the three bytes of the ellipsis. *)
Definition truncate (s : string) (n : Z) : string :=
  if Z.of_nat (length (to_bytes s)) <=? n then s else
  if n <? 1 then "" else of_bytes (take (Z.to_nat (n - 1)) (to_bytes s)) +:+ of_bytes (chr <$> [226; 128; 166]).

Inductive inspect_error :=
  | ErrInspectTopology | ErrInspectToken (node : string) | ErrInspectUnknown (node : string) | ErrInspectConnect (node : string)
  | ErrInspectState (node : string) | ErrDrift (node : string).
(** What asking the node for its state gives. *)
Inductive state_answer := StateUnimplemented | StateFailed | StatePeers (peers : list TransportPeerState).
(** The rows, when a report is printed, and the command's result. *)
Definition runInspect (topo : option Topology) (m : gmap string string) (configDir nodeName : string) (connect : string → bool)
    (ask : string → state_answer) : option (list driftRow) * res inspect_error unit :=
  match topo with
  | None => (None, Err ErrInspectTopology)
  | Some topo =>
      match loadToken m (nodeDir configDir nodeName) with
      | None => (None, Err (ErrInspectToken nodeName))
      | Some _ =>
          let master := FindMaster topo nodeName in
          let ep := FindEndpoint topo nodeName in
          match (match master, ep with Some ms, _ => Some (master_GRPCAddr ms) | None, Some e => Some (endpoint_GRPCAddr e) | None, None => None end) with
          | None => (None, Err (ErrInspectUnknown nodeName))
          | Some grpcAddr =>
              if negb (connect grpcAddr) then (None, Err (ErrInspectConnect nodeName)) else
              match ask grpcAddr with
              | StateUnimplemented => (None, Ok ())
              | StateFailed => (None, Err (ErrInspectState nodeName))
              | StatePeers peers =>
                  let rows := drift_rows (buildAdminView m topo nodeName configDir master ep) peers in
                  (Some rows, if hasDrift rows then Err (ErrDrift nodeName) else Ok ())
              end
          end
      end
  end.

(** ** status.go *)

Definition tunnelDisplayCount (mode : string) (grpcTunnelCount transportAllocations : Z) : Z :=
  if bool_decide (mode = "endpoint") then transportAllocations else grpcTunnelCount.
Record allocation := MkAllocation { al_Tunnel : string; al_MasterIP : string; al_EndpointIP : string }.
Definition transport_by_tunnel (allocs : list allocation) : gmap string string :=
  foldl (λ m a, <[al_Tunnel a := al_MasterIP a +:+ "->" +:+ al_EndpointIP a]> m) ∅ allocs.
(** The allocations whose tunnel is [master/endpoint]. *)
Definition allocations_of (allocs : list allocation) (epName : string) : Z :=
  Z.of_nat (length (filter (λ a, snd <$> Cut (al_Tunnel a) "/" = Some epName) allocs)).
Record StatusResponse := MkStatusResponse { sr_Name : string; sr_Mode : string; sr_OverlayIp : string; sr_Tunnels : list string }.
Record nodeInfo := MkNodeInfo { ni_name : string; ni_host : string; ni_grpcAddr : string; ni_mode : string }.
Definition status_nodes (topo : Topology) : list nodeInfo :=
  ((λ m, MkNodeInfo (mn_Name m) (mn_Host m) (master_GRPCAddr m) "master") <$> tp_Masters topo) ++
  ((λ e, MkNodeInfo (en_Name e) (en_Host e) (endpoint_GRPCAddr e) "endpoint") <$> tp_Endpoints topo).
Record status_row := MkStatusRow {
  st_name : string; st_mode : string; st_host : string; st_status : string; st_overlay : string; st_transport : string; st_tunnels : Z
}.
(** [allocs]: the allocations of transport.yml, none when it cannot be read. *)
Definition node_status (m : gmap string string) (configDir : string) (connect : string → bool) (GetStatus : string → option StatusResponse)
    (allocs : list allocation) (n : nodeInfo) : status_row :=
  let plain status := MkStatusRow (ni_name n) (ni_mode n) (ni_host n) status "-" "-" 0 in
  match loadToken m (nodeDir configDir (ni_name n)) with
  | None => plain "NO_TOKEN"
  | Some _ =>
      if negb (connect (ni_grpcAddr n)) then plain "CONNECT_ERR" else
      match GetStatus (ni_grpcAddr n) with
      | None => plain "OFFLINE"
      | Some resp =>
          let byTunnel := transport_by_tunnel allocs in
          let transportPairs := omap (λ tunnel, t ← byTunnel !! tunnel; if bool_decide (t = "") then None else Some t) (sr_Tunnels resp) in
          let transportDisplay := if bool_decide (0 < length transportPairs)%nat then join "," transportPairs else "-" in
          let endpointAllocations := if bool_decide (ni_mode n = "endpoint") then allocations_of allocs (ni_name n) else 0 in
          MkStatusRow (sr_Name resp) (sr_Mode resp) (ni_host n) "ONLINE" (sr_OverlayIp resp) transportDisplay
            (tunnelDisplayCount (ni_mode n) (Z.of_nat (length (sr_Tunnels resp))) endpointAllocations)
      end
  end.

(** *** Probing the data plane *)

Definition handshakeStaleThreshold : Z := 3 * 60 * 1000000000.
Record TunnelHealth := MkTunnelHealth { th_Name : string; th_Healthy : bool; th_LastCheckMs : Z; th_ConsecutiveFailures : Z }.
Record pairProbeResult := MkPair { pr_masterName : string; pr_endpointName : string; pr_reason : string }.
(** [now]: nanoseconds since Go's zero time. Saturation of [Sub] does not matter for the
    comparison. *)
Definition classifyTunnelHealth (h : option TunnelHealth) (masterPeerKey : list ascii) (adminEndpointKeyHex : string) (now : Z) : string :=
  match h with
  | None => "missing_peer"
  | Some h =>
      if th_Healthy h then "" else
      if negb (bool_decide (adminEndpointKeyHex = "")) && bool_decide (length masterPeerKey = 32%nat) &&
         negb (bool_decide (hex_encode masterPeerKey = adminEndpointKeyHex)) then "key_mismatch" else
      if (0 <? th_LastCheckMs h) && (handshakeStaleThreshold <? now - time_Unix (th_LastCheckMs h / 1000) ((th_LastCheckMs h mod 1000) * 1000000))
      then "handshake_timeout" else
      if 0 <? th_ConsecutiveFailures h then "handshake_timeout" else "unreachable"
  end.

(** The answers of a master; [None] for a call that failed. *)
Record master_answers := MkMasterAnswers { pa_health : option (list TunnelHealth); pa_tunnels : option (list string) }.

Section Probes.
Context (m : gmap string string) (topo : Topology) (cfgDir : string) (connect : string → bool) (ask : string → master_answers) (now : string → Z).

Definition health_by_name (a : master_answers) : gmap string TunnelHealth :=
  foldl (λ m h, <[th_Name h := h]> m) ∅ (default [] (pa_health a)).
(** The tunnel status carries no key: the map holds nil for every name. *)
Definition live_peer_keys (a : master_answers) : gmap string (list ascii) :=
  foldl (λ m t, <[t := []]> m) ∅ (default [] (pa_tunnels a)).
Definition probeNodePairs (master : MasterNode) : list pairProbeResult :=
  let all reason := (λ epName, MkPair (mn_Name master) epName reason) <$> mn_Endpoints master in
  match loadToken m (nodeDir cfgDir (mn_Name master)) with
  | None => all "unreachable"
  | Some _ =>
      if negb (connect (master_GRPCAddr master)) then all "unreachable" else
      let a := ask (master_GRPCAddr master) in
      (λ epName, MkPair (mn_Name master) epName
        match FindEndpoint topo epName with
        | None => "missing_peer"
        | Some _ => classifyTunnelHealth (health_by_name a !! epName) (default [] (live_peer_keys a !! epName))
                      (readAdminPubkey m cfgDir epName) (now (mn_Name master))
        end) <$> mn_Endpoints master
  end.
(** [finished]: the masters with endpoints, in the order their goroutines append. *)
Definition runDataPlaneProbes (finished : list MasterNode) : list pairProbeResult := mjoin (probeNodePairs <$> finished).
Definition probed_masters : list MasterNode := filter (λ ms, (0 < length (mn_Endpoints ms))%nat) (tp_Masters topo).
(** The printed pairs, and whether the command succeeds. *)
Definition verifyDataPlane (finished : list MasterNode) : list pairProbeResult * bool :=
  let broken := filter (λ r, pr_reason r ≠ "") (runDataPlaneProbes finished) in
  (broken, bool_decide (broken = [])).
End Probes.

(** ** Scrape targets (topology.go) *)

Definition defaultTopologyJob : string := "awg-mesh".
Inductive prometheus_error := ErrPromPort (port : string) | ErrPromListen (listen : string).
Definition validatePort (port : string) : res prometheus_error unit :=
  match Atoi port with
  | None => Err (ErrPromPort port)
  | Some n => if (n <? 1) || (65535 <? n) then Err (ErrPromPort port) else Ok ()
  end.
(** [None]: metrics are off. *)
Definition prometheusPort (listen : string) : res prometheus_error (option string) :=
  let trimmed := TrimSpace listen in
  if bool_decide (trimmed = "") then Ok None else
  match SplitHostPort trimmed with
  | Ok (_, port) => let! _ := validatePort port in Ok (Some port)
  | Err _ => match validatePort trimmed with Ok _ => Ok (Some trimmed) | Err _ => Err (ErrPromListen listen) end
  end.
Definition roleListLabel (roles : list Role) : string := join "," roles.
Record prometheusStaticConfig := MkStaticConfig { sc_Targets : list string; sc_Labels : gmap string string }.
Record prometheusScrapeConfig := MkScrapeConfig { sc_JobName : string; sc_StaticConfigs : list prometheusStaticConfig }.
Definition static_config (port : string) (node : NodeV2) : prometheusStaticConfig :=
  let labels := <["node" := n2_Name node]> (<["roles" := roleListLabel (n2_Roles node)]> ∅) in
  MkStaticConfig [JoinHostPort (n2_OverlayIP node) port]
    (if blank (n2_Region node) then labels else <["region" := TrimSpace (n2_Region node)]> labels).
(** Names are distinct in a validated topology, so every sort gives this list. *)
Definition buildPrometheusConfig (topo : TopologyV2) (jobName : string) : res prometheus_error (list prometheusScrapeConfig) :=
  let! port := prometheusPort (ob_PrometheusListen (t2_Observability topo)) in
  match port with
  | None => Ok []
  | Some port =>
      let trimmedJobName := TrimSpace jobName in
      let trimmedJobName := if bool_decide (trimmedJobName = "") then defaultTopologyJob else trimmedJobName in
      Ok [MkScrapeConfig trimmedJobName (static_config port <$> sort_by n2_Name (t2_Nodes topo))]
  end.

(** ** Lists of networks *)

Definition no_comma (s : string) : Prop := ","%char ∉ to_bytes s.
Lemma split_commas_join l : l ≠ [] → Forall no_comma l → split_byte "," (to_bytes (join "," l)) = (λ s, to_bytes s) <$> l.
Proof.
  intros Hne Hf. induction Hf as [|s l Hs Hf IH]; [done|]. destruct l as [|t l].
  - cbn [join String.concat fmap list_fmap]. by apply split_byte_none.
  - change (join "," (s :: t :: l)) with (s +:+ "," +:+ join "," (t :: l)). rewrite to_bytes_app.
    change (to_bytes ("," +:+ join "," (t :: l))) with (","%char :: to_bytes (join "," (t :: l))).
    rewrite split_byte_app by done. rewrite IH by done. done.
Qed.
Lemma join_commas_inj l k : l ≠ [] → k ≠ [] → Forall no_comma l → Forall no_comma k → join "," l = join "," k → l = k.
Proof.
  intros Hl Hk Fl Fk H. apply (f_equal (λ s, split_byte "," (to_bytes s))) in H. rewrite !split_commas_join in H by done.
  apply (f_equal (fmap (λ b, of_bytes b))) in H. rewrite <- !list_fmap_compose in H.
  assert (∀ x : list string, ((λ b, of_bytes b) ∘ (λ s, to_bytes s)) <$> x = x) as E; [|by rewrite !E in H].
  intros x. rewrite <- (list_fmap_id x) at 2. apply list_fmap_ext. intros i s _. apply of_to_bytes.
Qed.

Definition ip_set (s : list string) : gset string := list_to_set (TrimSpace <$> s).
Definition sorted_set (s : gset string) : list string := sort_by id (elements s).
Lemma sorted_set_elem x s : x ∈ sorted_set s ↔ x ∈ s.
Proof. unfold sorted_set. by rewrite sort_by_elem_of, elem_of_elements. Qed.
(** Texts of networks, as lists and as sets. *)
Definition ips_ok (s : list string) : Prop := Forall (λ ip, no_comma (TrimSpace ip) ∧ TrimSpace ip ≠ "") s.
Lemma ips_ok_sorted s : ips_ok s → Forall (λ ip, no_comma ip ∧ ip ≠ "") (sorted_set (ip_set s)).
Proof.
  intros Hs. apply Forall_forall. intros x Hx. rewrite sorted_set_elem in Hx. unfold ip_set in Hx.
  apply elem_of_list_to_set, list_elem_of_fmap in Hx as (ip & -> & Hip). unfold ips_ok in Hs. rewrite Forall_forall in Hs. by apply Hs.
Qed.
Lemma sorted_join_empty s : ips_ok s → sortedUniqueIPs s = "" → ip_set s = ∅.
Proof.
  intros Hs H. unfold sortedUniqueIPs in H. fold (ip_set s) (sorted_set (ip_set s)) in H. apply ips_ok_sorted in Hs.
  destruct (sorted_set (ip_set s)) as [|x l] eqn:E.
  - apply set_eq. intros y. split; [|set_solver]. intros Hy. rewrite <- sorted_set_elem, E in Hy. by apply elem_of_nil in Hy.
  - apply Forall_cons in Hs as [[_ Hx] _]. by destruct x, l.
Qed.
Lemma ipsMatch_sets expected actual : ips_ok expected → ips_ok actual → expected ≠ [] → ipsMatch expected actual = true ↔ ip_set expected = ip_set actual.
Proof.
  intros He Ha Hne. unfold ipsMatch. rewrite bool_decide_eq_false_2 by (intros H; by apply Hne, length_zero_iff_nil). cbn [orb]. rewrite bool_decide_eq_true.
  split; [|intros H; unfold sortedUniqueIPs; fold (ip_set expected) (ip_set actual); by rewrite H].
  intros H. pose proof (ips_ok_sorted _ He) as Fe. pose proof (ips_ok_sorted _ Ha) as Fa.
  destruct (decide (sortedUniqueIPs actual = "")) as [E|E].
  { rewrite (sorted_join_empty _ He), (sorted_join_empty _ Ha); congruence. }
  unfold sortedUniqueIPs in H, E. fold (ip_set expected) (sorted_set (ip_set expected)) (ip_set actual) (sorted_set (ip_set actual)) in H, E.
  apply join_commas_inj in H.
  - apply set_eq. intros x. by rewrite <- !sorted_set_elem, H.
  - intros E'. rewrite E' in H. by rewrite <- H in E.
  - intros E'. by rewrite E' in E.
  - eapply Forall_impl; [exact Fe|]. naive_solver.
  - eapply Forall_impl; [exact Fa|]. naive_solver.
Qed.

(** ** A node in sync *)

Lemma peers_by_key peers np : NoDup (ps_PublicKeyHex <$> peers) → np ∈ peers → peers_by ps_PublicKeyHex peers !! ps_PublicKeyHex np = Some np.
Proof. intros Hnd Hin. exact (insert_all_lookup ps_PublicKeyHex id peers Hnd ∅ np Hin). Qed.
Lemma peers_by_inv key peers k np : peers_by key peers !! k = Some np → np ∈ peers ∧ key np = k.
Proof. intros [(a & Ha & <- & <-)|H]%(insert_all_inv key id); [by split|by rewrite lookup_empty in H]. Qed.
Lemma locate_in peers ap np : locate peers ap = Some np → np ∈ peers.
Proof. unfold locate. destruct (_ !! ap_pubkeyHex ap) eqn:E; [intros [= <-]; by apply (peers_by_inv _ _ _ _ E)|]. by intros [? _]%peers_by_inv. Qed.

(** What the administrator expects of a peer. *)
Definition as_expected (ap : adminPeerView) (np : TransportPeerState) : Prop :=
  ps_PublicKeyHex np = ap_pubkeyHex ap ∧ (ps_DiskPublicKeyHex np = "" ∨ ps_DiskPublicKeyHex np = ps_PublicKeyHex np) ∧
  (ap_allowedIPs ap ≠ [] → ip_set (ap_allowedIPs ap) = ip_set (ps_AllowedIps np)).
Lemma drift_reasons_none ap np : ips_ok (ap_allowedIPs ap) → ips_ok (ps_AllowedIps np) →
  drift_reasons ap np = [] ↔ ap_pubkeyHex ap ≠ "" ∧ as_expected ap np.
Proof.
  intros Ha Hn. unfold drift_reasons, as_expected.
  assert ((if bool_decide (0 < length (ap_allowedIPs ap))%nat && negb (ipsMatch (ap_allowedIPs ap) (ps_AllowedIps np)) then ["stale_allowed_ips"] else []) = []
    ↔ (ap_allowedIPs ap ≠ [] → ip_set (ap_allowedIPs ap) = ip_set (ps_AllowedIps np))) as <-.
  { destruct (decide (ap_allowedIPs ap = [])) as [E|E]; [rewrite E; naive_solver|]. rewrite <- ipsMatch_sets by done.
    rewrite bool_decide_eq_true_2 by (destruct (ap_allowedIPs ap); [done|cbn; lia]). destruct (ipsMatch _ _); naive_solver. }
  assert ((ps_DiskPublicKeyHex np = "" ∨ ps_DiskPublicKeyHex np = ps_PublicKeyHex np) ↔ disk_key np = ps_PublicKeyHex np) as ->
    by (unfold disk_key; case_bool_decide; naive_solver).
  rewrite !app_nil. repeat case_bool_decide; naive_solver.
Qed.
Lemma admin_row_none peers ap : NoDup (ps_PublicKeyHex <$> peers) → ips_ok (ap_allowedIPs ap) → Forall (λ np, ips_ok (ps_AllowedIps np)) peers →
  dr_driftReasons (admin_row peers ap) = [] ↔ ap_pubkeyHex ap ≠ "" ∧ ∃ np, np ∈ peers ∧ as_expected ap np.
Proof.
  intros Hnd Ha Hf. rewrite Forall_forall in Hf. unfold admin_row. split.
  - destruct (locate peers ap) as [np|] eqn:E; [|done]. cbn [dr_driftReasons]. pose proof (locate_in _ _ _ E) as Hin.
    intros [Hk He]%drift_reasons_none; [|done|by apply Hf]. split; [done|]. by exists np.
  - intros (Hk & np & Hin & He). assert (locate peers ap = Some np) as ->.
    { unfold locate. destruct He as [<- _]. by rewrite peers_by_key. }
    cbn [dr_driftReasons]. apply drift_reasons_none; [done|by apply Hf|done].
Qed.
Lemma hasDrift_false rows : hasDrift rows = false ↔ Forall (λ r, dr_driftReasons r = []) rows.
Proof.
  unfold hasDrift. induction rows as [|r rows IH]; [done|]. cbn [existsb]. rewrite orb_false_iff, Forall_cons, IH, bool_decide_eq_false.
  destruct (dr_driftReasons r); cbn [length]; naive_solver lia.
Qed.
Lemma located_expected peers ap np : NoDup (ps_PublicKeyHex <$> peers) → np ∈ peers → ps_PublicKeyHex np = ap_pubkeyHex ap → locate peers ap = Some np.
Proof. intros Hnd Hin E. unfold locate. by rewrite <- E, peers_by_key. Qed.


Definition demo_key : string := of_bytes (replicate 64 "a"%char).
Definition demo_topology : Topology :=
  MkTopology (MkImageDefaults "" "") (MkOverlayConfig "" 0 0 []) [MkMasterNode "m1" "h" "" "10.0.0.1" 51820 0 ["ep-a"] false]
    [MkEndpointNode "ep-a" "h2" "" "10.0.0.9" 51820 0 "eu"] [] (MkCapture "" "" 0) (MkRotation "" "" "" "").
Definition demo_files : gmap string string :=
  list_to_map [("/c/nodes/ep-a/token", "t"); ("/c/nodes/m1/token", "t"); ("/c/nodes/m1/pubkey", demo_key +:+ String "010" "")].
Definition demo_peers : list TransportPeerState := [MkPeerState "renamed" demo_key ["10.0.0.1/32"; " 10.0.0.1/32"] demo_key []].

(** Peers that share a key with a matched one are not reported as extra: a node that
    reports an empty key for two peers hides the second. *)
Lemma extra_peer_hidden : let admin := [MkAdminPeer "a" "" "" []] in let peers := [MkPeerState "a" "" [] "" []; MkPeerState "intruder" "" ["0.0.0.0/0"] "" []] in
  dr_peerName <$> drift_rows admin peers = ["a"] ∧ "extra_peer" ∉ drift_rows admin peers ≫= dr_driftReasons.
Proof. split; [vm_compute; reflexivity|]. apply (bool_decide_unpack _). vm_compute. exact I. Qed.

(** ** The data plane *)

Section DataPlane.
Context (m : gmap string string) (topo : Topology) (cfgDir : string) (connect : string → bool) (ask : string → master_answers) (now : string → Z).
Notation probe := (probeNodePairs m topo cfgDir connect ask now).

(** The master can be asked, knows the endpoint and calls its tunnel healthy. *)
Definition pair_ok (master : MasterNode) (epName : string) : Prop :=
  is_Some (loadToken m (nodeDir cfgDir (mn_Name master))) ∧ connect (master_GRPCAddr master) = true ∧ is_Some (FindEndpoint topo epName) ∧
  ∃ h, health_by_name (ask (master_GRPCAddr master)) !! epName = Some h ∧ th_Healthy h = true.

Lemma classify_healthy h key admin t : classifyTunnelHealth h key admin t = "" ↔ ∃ x, h = Some x ∧ th_Healthy x = true.
Proof using Type.
  unfold classifyTunnelHealth. destruct h as [h|]; [|split; [done|by intros (x & ? & _)]]. destruct (th_Healthy h) eqn:E.
  - split; [|done]. intros _. by exists h.
  - split; [|intros (x & [= <-] & ?); congruence]. repeat (destruct (_ && _)); try destruct (0 <? _); done.
Qed.
Lemma probe_healthy master : Forall (λ r, pr_reason r = "") (probe master) ↔ Forall (pair_ok master) (mn_Endpoints master).
Proof using Type.
  unfold probeNodePairs, pair_ok. destruct (loadToken _ _) as [tok|] eqn:Et.
  2: { rewrite Forall_fmap. destruct (mn_Endpoints master); rewrite ?Forall_cons; [by rewrite !Forall_nil|]. split; [by intros [? _]|]. intros [[[? ?] _] _]. done. }
  destruct (connect _) eqn:Ec; cbn [negb].
  2: { rewrite Forall_fmap. destruct (mn_Endpoints master); rewrite ?Forall_cons; [by rewrite !Forall_nil|]. split; [by intros [? _]|]. by intros [(_ & ? & _) _]. }
  cbv zeta. rewrite Forall_fmap. apply Forall_iff. intros ep. cbn [compose pr_reason]. destruct (FindEndpoint topo ep) as [e|].
  - rewrite classify_healthy. split; [|naive_solver]. intros H. split_and!; eauto.
  - split; [done|]. intros (_ & _ & [? ?] & _). done.
Qed.
Lemma probe_pairs master : (λ r, (pr_masterName r, pr_endpointName r)) <$> probe master = (λ ep, (mn_Name master, ep)) <$> mn_Endpoints master.
Proof using Type.
  unfold probeNodePairs. destruct (loadToken _ _); [destruct (connect _)|]; cbn [negb]; cbv zeta; rewrite <- list_fmap_compose; by apply list_fmap_ext.
Qed.

(** The verdict is about all pairs of the topology, whatever the order in which the probes
    finish: every pair is looked at once, and the command succeeds exactly when each is
    healthy. *)
Lemma data_plane_verdict finished : finished ≡ₚ probed_masters topo →
  ((verifyDataPlane m topo cfgDir connect ask now finished).2 = true ↔ Forall (λ ms, Forall (pair_ok ms) (mn_Endpoints ms)) (tp_Masters topo)) ∧
  (λ r, (pr_masterName r, pr_endpointName r)) <$> runDataPlaneProbes m topo cfgDir connect ask now finished ≡ₚ
    (tp_Masters topo ≫= λ ms, (λ ep, (mn_Name ms, ep)) <$> mn_Endpoints ms).
Proof using Type.
  intros Hp. split.
  - unfold verifyDataPlane, runDataPlaneProbes. cbn [snd]. rewrite bool_decide_eq_true.
    transitivity (Forall (λ ms, Forall (pair_ok ms) (mn_Endpoints ms)) finished).
    + transitivity (Forall (λ r, pr_reason r = "") (mjoin (probe <$> finished))).
      * induction (mjoin (probe <$> finished)) as [|r l IH]; [by rewrite Forall_nil|]. rewrite filter_cons, Forall_cons.
        destruct (decide (pr_reason r ≠ "")) as [H|H]; [naive_solver|]. rewrite IH. destruct (decide (pr_reason r = "")); naive_solver.
      * clear Hp. induction finished as [|ms l IH]; [by rewrite !Forall_nil|]. cbn [fmap list_fmap mjoin list_join]. rewrite Forall_app, Forall_cons, IH, probe_healthy. done.
    + rewrite Hp. unfold probed_masters. rewrite !Forall_forall. split.
      * intros H ms Hms. destruct (mn_Endpoints ms) eqn:E; [constructor|]. rewrite <- E. apply H. apply list_elem_of_filter. split; [|done]. rewrite E. cbn. lia.
      * intros H ms [_ Hms]%list_elem_of_filter. by apply H.
  - unfold runDataPlaneProbes. transitivity (finished ≫= λ ms, (λ ep, (mn_Name ms, ep)) <$> mn_Endpoints ms).
    + apply reflexive_eq. clear Hp. induction finished as [|ms l IH]; [done|]. cbn [fmap list_fmap mjoin list_join mbind list_bind]. by rewrite fmap_app, probe_pairs, <- IH.
    + rewrite Hp. unfold probed_masters. apply reflexive_eq. clear Hp. induction (tp_Masters topo) as [|ms l IH]; [done|]. rewrite filter_cons.
      destruct (decide _) as [H|H]; cbn [mbind list_bind]; [by rewrite IH|]. rewrite IH. destruct (mn_Endpoints ms); [done|]. cbn in H. lia.
Qed.

(** The reason [key_mismatch] is never given: the keys of the running peers are not
    looked up. *)
Lemma live_keys_empty a name : default [] (live_peer_keys a !! name) = [].
Proof using Type.
  unfold live_peer_keys. destruct (_ !! name) as [k|] eqn:E; [|done]. apply (insert_all_inv id (λ _, [])) in E as [(x & _ & _ & <-)|E]; [done|].
  by rewrite lookup_empty in E.
Qed.
Lemma key_mismatch_unreported master r : r ∈ probe master → pr_reason r ≠ "key_mismatch".
Proof using Type.
  unfold probeNodePairs. destruct (loadToken _ _); [destruct (connect _)|]; cbn [negb]; cbv zeta; intros (ep & -> & _)%list_elem_of_fmap; cbn [pr_reason]; try discriminate.
  destruct (FindEndpoint topo ep); [|discriminate]. rewrite live_keys_empty. unfold classifyTunnelHealth. destruct (_ !! ep) as [h|]; [|discriminate].
  cbn [length]. rewrite (bool_decide_eq_false_2 (0%nat = 32%nat)) by discriminate. rewrite andb_false_r. cbn [andb]. repeat case_match; discriminate.
Qed.
End DataPlane.
(** A master that does not answer is reported as missing the peer. *)
Lemma silent_master_missing_peer : pr_reason <$> probeNodePairs demo_files demo_topology "/c" (λ _, true) (λ _, MkMasterAnswers None None) (λ _, 0)
    (MkMasterNode "m1" "h" "" "10.0.0.1" 51820 0 ["ep-a"] false) = ["missing_peer"].
Proof. vm_compute. reflexivity. Qed.

(** ** Scrape targets *)

Lemma prometheusPort_ok listen port : prometheusPort listen = Ok (Some port) → ∃ n, Atoi port = Some n ∧ 1 ≤ n ≤ 65535.
Proof.
  unfold prometheusPort. cbv zeta. destruct (bool_decide _); [done|].
  assert (∀ p, validatePort p = Ok () → ∃ n, Atoi p = Some n ∧ 1 ≤ n ≤ 65535) as Hv.
  { intros p. unfold validatePort. destruct (Atoi p) as [n|]; [|done]. destruct (_ || _) eqn:E; [done|]. intros _. exists n. split; [done|lia]. }
  destruct (SplitHostPort _) as [[host p]|]; intros H.
  - inv_res. destruct a. by apply Hv.
  - destruct (validatePort (TrimSpace listen)) as [[]|] eqn:E; [|done]. injection H as <-. by apply Hv.
Qed.
(** One target per node, in the order of the names. *)
Lemma prometheus_targets topo jobName scrape : buildPrometheusConfig topo jobName = Ok [scrape] →
  ∃ port, prometheusPort (ob_PrometheusListen (t2_Observability topo)) = Ok (Some port) ∧
    (sc_StaticConfigs scrape ≫= sc_Targets) ≡ₚ ((λ n, JoinHostPort (n2_OverlayIP n) port) <$> t2_Nodes topo) ∧ sc_JobName scrape ≠ "".
Proof.
  unfold buildPrometheusConfig. intros H. inv_res. destruct a as [port|]; [|done]. injection H as <-. exists port. cbn [sc_StaticConfigs sc_JobName]. split_and!; [done| |].
  - rewrite <- (sort_by_perm n2_Name (t2_Nodes topo)) at 2. apply reflexive_eq. induction (sort_by n2_Name (t2_Nodes topo)) as [|n l IH]; [done|].
    cbn [fmap list_fmap mbind list_bind]. by rewrite IH.
  - case_bool_decide; done.
Qed.
