(* ===== verification/Bootstrap.v ===== *)
(** * Preparing a host ([src/cmd/mesh-ctl/cmd/bootstrap.go])

    [runBootstrap] logs in to a host over SSH, installs Docker when it is missing and pulls
    the node's image. A run is a function of the answers of the machine and of the host,
    and yields the events it caused and its result. Parsing keys and the SSH protocol are
    the library's; the log is left out. *)

From S2P Require Import Prelude GoStrings GoNet GoPath GoText.

(** ** The image reference *)

Definition alnum (a : ascii) : bool := is_digit a || is_lower a || is_upper a.
Definition ref_char (a : ascii) : bool := alnum a || bool_decide (a ∈ ["."; "_"; "-"; "/"; ":"; "@"]%char).
Definition imageRefRE (ref : string) : bool :=
  match to_bytes ref with [] => false | a :: l => alnum a && forallb ref_char l end.
Inductive boot_error :=
  | ErrImageEmpty | ErrImageChars (ref : string)
  | ErrLoadKey (path : string) | ErrNoAgent (sock : string) | ErrNoAuth | ErrHome | ErrKnownHosts (path : string) | ErrDial
  | ErrDetect | ErrInstall | ErrVersion | ErrPull (image : string)
  | Panic.                                  (* shellQuote on a single quote *)
Definition validateImageRef (ref : string) : res boot_error unit :=
  if bool_decide (ref = "") then Err ErrImageEmpty else if imageRefRE ref then Ok () else Err (ErrImageChars ref).
Definition quote_char : ascii := "039"%char.
(** [None]: the function panics. *)
Definition shellQuote (s : string) : option string :=
  if bool_decide (quote_char ∈ to_bytes s) then None else Some (String quote_char "" +:+ s +:+ String quote_char "").

(** ** Logging in *)

Record bootstrapOpts := MkBootstrapOpts {
  bo_host : string; bo_user : string; bo_port : Z; bo_sshKey : string; bo_sshPassphrase : string; bo_image : string; bo_acceptNewHostKey : bool
}.
Inductive agent_dial := AgentNone | AgentConn | AgentFailed.
Inductive key_parse := KeyParsed | KeyProtected | KeyMalformed.
(** The administrator's machine, and whether the host can be dialed. *)
Record local_env := MkLocalEnv {
  le_agent : agent_dial; le_sock : string; le_home : option string; le_stat : string → bool; le_read : string → option string;
  le_passphrase : string; le_parse : string → key_parse; le_parseWith : string → string → bool; le_knownHosts : string → bool; le_dial : bool
}.
Inductive auth_method := AuthAgent | AuthKey (path : string).
Inductive host_check := CheckKnownHosts (path : string) | CheckNothing.
Inductive event :=
  | AgentOpened | AgentClosed
  | Dialed (addr user : string) (auth : list auth_method) (check : host_check) | HostClosed
  | Ran (command : string) | Printed (line : string).

Section Local.
Context (e : local_env) (opts : bootstrapOpts).

Definition resolveDefaultSSHKey : string :=
  match le_home e with
  | None => ""
  | Some home =>
      let ed := path_Join [home; ".ssh"; "id_ed25519"] in
      let rsa := path_Join [home; ".ssh"; "id_rsa"] in
      if le_stat e ed then ed else if le_stat e rsa then rsa else ""
  end.
Definition loadPrivateKey (path passphrase : string) : bool :=
  match le_read e path with
  | None => false
  | Some keyBytes =>
      let passphrase := if bool_decide (passphrase = "") then le_passphrase e else passphrase in
      if bool_decide (passphrase ≠ "") then le_parseWith e keyBytes passphrase else
      match le_parse e keyBytes with KeyParsed => true | KeyProtected | KeyMalformed => false end
  end.
(** The methods; on an error the agent's connection is closed at once. *)
Definition buildAuthMethods : res boot_error (list auth_method) * list event :=
  let '(methods, opened, cleanup) :=
    match le_agent e with AgentConn => ([AuthAgent], [AgentOpened], [AgentClosed]) | AgentNone | AgentFailed => ([], [], []) end in
  let keyPath := if bool_decide (bo_sshKey opts = "") then resolveDefaultSSHKey else bo_sshKey opts in
  let loaded :=
    if bool_decide (keyPath = "") then Ok methods else
    if loadPrivateKey keyPath (bo_sshPassphrase opts) then Ok (methods ++ [AuthKey keyPath]) else
    if bool_decide (length methods = 0%nat) then Err (ErrLoadKey keyPath) else Ok methods in
  match loaded with
  | Err err => (Err err, opened ++ cleanup)
  | Ok methods =>
      if bool_decide (length methods = 0%nat) then
        (Err (match le_agent e with AgentFailed => if bool_decide (le_sock e ≠ "") then ErrNoAgent (le_sock e) else ErrNoAuth | _ => ErrNoAuth end), opened ++ cleanup)
      else (Ok methods, opened)
  end.
Definition buildHostKeyCallback : res boot_error host_check :=
  if bo_acceptNewHostKey opts then Ok CheckNothing else
  match le_home e with
  | None => Err ErrHome
  | Some home =>
      let knownHostsPath := path_Join [home; ".ssh"; "known_hosts"] in
      if le_knownHosts e knownHostsPath then Ok (CheckKnownHosts knownHostsPath) else Err (ErrKnownHosts knownHostsPath)
  end.
Definition cleanup_agent : list event := match le_agent e with AgentConn => [AgentClosed] | _ => [] end.
(** The deferred cleanup comes after the attempt to dial. *)
Definition dialSSH : res boot_error unit * list event :=
  match buildAuthMethods with
  | (Err err, ev) => (Err err, ev)
  | (Ok methods, ev) =>
      match buildHostKeyCallback with
      | Err err => (Err err, ev ++ cleanup_agent)
      | Ok check =>
          (if le_dial e then Ok () else Err ErrDial,
           ev ++ [Dialed (bo_host opts +:+ ":" +:+ Itoa (bo_port opts)) (bo_user opts) methods check] ++ cleanup_agent)
      end
  end.
End Local.

(** ** The host *)

(** What running a command gives: no session, an exit status with the output, or a broken
    connection. The host sees the commands it ran before. *)
Inductive remote := NoSession | Exited (status : Z) (out : string) | Broken.
Definition host := list string → string → remote.

Definition docker_detect : string := "command -v docker >/dev/null 2>&1".
Definition docker_install : string := "curl -fsSL https://get.docker.com | sh".
Definition docker_version : string := "docker --version".
Definition docker_pull (quoted : string) : string := "docker pull " +:+ quoted.
Definition docker_inspect (quoted : string) : string :=
  "docker inspect --format='{{index .RepoDigests 0}}' " +:+ quoted +:+ " 2>/dev/null || echo unknown".

Section Host.
Context (h : host).

(** A command with what it gives; without a session nothing runs. *)
Definition session (done : list string) (command : string) : remote * list string :=
  match h done command with NoSession => (NoSession, done) | r => (r, done ++ [command]) end.
Definition checkDockerPresent (done : list string) : res boot_error bool * list string :=
  match session done docker_detect with
  | (NoSession, done) => (Err ErrDetect, done)
  | (Exited 0 _, done) => (Ok true, done)
  | (_, done) => (Ok false, done)
  end.
Definition run_ok (done : list string) (command : string) (err : boot_error) : res boot_error unit * list string :=
  match session done command with
  | (Exited 0 _, done) => (Ok (), done)
  | (_, done) => (Err err, done)
  end.
Definition installDocker (done : list string) : res boot_error unit * list string := run_ok done docker_install ErrInstall.
Definition pullImage (done : list string) (image : string) : res boot_error unit * list string :=
  match shellQuote image with
  | None => (Err Panic, done)
  | Some quoted => run_ok done (docker_pull quoted) (ErrPull image)
  end.
Definition runRemoteOutput (done : list string) (command : string) : option string * list string :=
  match session done command with
  | (Exited 0 out, done) => (Some out, done)
  | (_, done) => (None, done)
  end.

(** From the version check on: the lines printed at the end, or an error. *)
Definition pull_and_report (opts : bootstrapOpts) (done : list string) : res boot_error (list string) * list string :=
  match runRemoteOutput done docker_version with
  | (None, done) => (Err ErrVersion, done)
  | (Some dockerVersion, done) =>
      match pullImage done (bo_image opts) with
      | (Err err, done) => (Err err, done)
      | (Ok _, done) =>
          match shellQuote (bo_image opts) with
          | None => (Err Panic, done)
          | Some quoted =>
              let '(out, done) := runRemoteOutput done (docker_inspect quoted) in
              let digest := TrimSpace (default "unknown" out) in
              (Ok ["[bootstrap] SUCCESS"; "  Host:          " +:+ bo_host opts; "  Docker:        " +:+ TrimSpace dockerVersion;
                   "  Image:         " +:+ bo_image opts; "  Image digest:  " +:+ digest;
                   "Host is ready. Run 'mesh-ctl node prepare <name>' next."], done)
          end
      end
  end.
(** The commands after the login. *)
Definition provision (opts : bootstrapOpts) : res boot_error (list string) * list string :=
  match checkDockerPresent [] with
  | (Err err, done) => (Err err, done)
  | (Ok dockerPresent, done) =>
      match (if dockerPresent then (Ok (), done) else installDocker done) with
      | (Err err, done) => (Err err, done)
      | (Ok _, done) => pull_and_report opts done
      end
  end.
End Host.

Definition runBootstrap (e : local_env) (h : host) (opts : bootstrapOpts) : res boot_error unit * list event :=
  match validateImageRef (bo_image opts) with
  | Err err => (Err err, [])
  | Ok _ =>
      match dialSSH e opts with
      | (Err err, ev) => (Err err, ev)
      | (Ok _, ev) =>
          let '(r, commands) := provision h opts in
          match r with
          | Err err => (Err err, ev ++ (Ran <$> commands) ++ [HostClosed])
          | Ok lines => (Ok (), ev ++ (Ran <$> commands) ++ (Printed <$> lines) ++ [HostClosed])
          end
      end
  end.

(** ** Output with a prefix *)

(** The text written through and the incomplete line that is held back. *)
Record prefixWriter := MkPrefixWriter { pw_prefix : string; pw_out : list ascii; pw_buf : list ascii }.
Fixpoint flush_lines (prefix buf cur : list ascii) : list ascii * list ascii :=
  match buf with
  | [] => ([], reverse cur)
  | a :: r =>
      if bool_decide (a = "010"%char) then let '(out, rest) := flush_lines prefix r [] in (prefix ++ reverse cur ++ ["010"%char] ++ out, rest)
      else flush_lines prefix r (a :: cur)
  end.
Definition pw_Write (b : list ascii) (p : prefixWriter) : prefixWriter :=
  let '(out, rest) := flush_lines (to_bytes (pw_prefix p)) (pw_buf p ++ b) [] in MkPrefixWriter (pw_prefix p) (pw_out p ++ out) rest.

(** ** Facts *)

Lemma ref_char_plain a : ref_char a = true → a ≠ quote_char.
Proof. intros H ->. discriminate H. Qed.
Lemma valid_image ref : validateImageRef ref = Ok () → ref ≠ "" ∧ Forall (λ a, ref_char a = true) (to_bytes ref).
Proof.
  unfold validateImageRef. destruct (bool_decide_reflect (ref = "")) as [|Hne]; [done|]. destruct (imageRefRE ref) eqn:E; [|done]. intros _. split; [done|].
  unfold imageRefRE in E. destruct (to_bytes ref) as [|a l]; [done|]. apply andb_true_iff in E as [Ha Hl]. constructor; [unfold ref_char; by rewrite Ha|].
  apply Is_true_eq_left, forallb_True in Hl. eapply Forall_impl; [exact Hl|]. intros x Hx. by apply Is_true_eq_true.
Qed.
Definition quoted (image : string) : string := String quote_char "" +:+ image +:+ String quote_char "".
Lemma shellQuote_valid image : validateImageRef image = Ok () → shellQuote image = Some (quoted image).
Proof.
  intros [_ H]%valid_image. unfold shellQuote. rewrite bool_decide_eq_false_2; [done|]. intros Hin. rewrite Forall_forall in H. by apply H, ref_char_plain in Hin.
Qed.

(** The commands of a run, as far as they get. *)
Definition script (install : bool) (image : string) : list string :=
  [docker_detect] ++ (if install then [docker_install] else []) ++ [docker_version; docker_pull (quoted image); docker_inspect (quoted image)].

Section Provision.
Context (h : host) (opts : bootstrapOpts).

(** A command of a session ran, or nothing did. *)
Lemma session_ran done c : (session h done c).2 = done ∧ (session h done c).1 = NoSession ∨ (session h done c).2 = done ++ [c] ∧ (session h done c).1 = h done c.
Proof using Type. unfold session. destruct (h done c) eqn:E; cbn; auto. Qed.

Lemma script_prefix {A} (done l : list A) c rest : l = done ++ c :: rest → done `prefix_of` l ∧ done ++ [c] `prefix_of` l.
Proof using Type. intros ->. split; [by exists (c :: rest)|]. exists rest. by rewrite <- app_assoc. Qed.

(** One command of the script: what ran stays a beginning of the script. *)
Lemma run_ok_prefix l done c rest err : l = done ++ c :: rest → 
  let '(r, done') := run_ok h done c err in done' `prefix_of` l ∧ (r = Ok () → done' = done ++ [c] ∧ ∃ out, h done c = Exited 0 out) ∧ (r = Ok () ∨ r = Err err).
Proof using Type.
  intros Hl. destruct (script_prefix _ _ _ _ Hl) as [H1 H2]. unfold run_ok, session.
  destruct (h done c) as [|[|p|p] out|]; (split_and!; [done| |auto]); try done. intros _. split; [done|]. by exists out.
Qed.
Lemma output_prefix l done c rest : l = done ++ c :: rest → 
  let '(r, done') := runRemoteOutput h done c in done' `prefix_of` l ∧ ∀ out, r = Some out → done' = done ++ [c] ∧ h done c = Exited 0 out.
Proof using Type.
  intros Hl. destruct (script_prefix _ _ _ _ Hl) as [H1 H2]. unfold runRemoteOutput, session.
  destruct (h done c) as [|[|p|p] out|]; (split; [done|]); try done. intros o [= ->]. done.
Qed.

(** What a success needs: Docker was found or its installer succeeded, Docker answers, and
    it pulled the image. *)
Definition pulled (install : bool) : Prop :=
  let pre := [docker_detect] ++ (if install then [docker_install] else []) in
  (if install then ∃ out, h [docker_detect] docker_install = Exited 0 out else ∃ out, h [] docker_detect = Exited 0 out) ∧
  (∃ out, h pre docker_version = Exited 0 out) ∧ (∃ out, h (pre ++ [docker_version]) (docker_pull (quoted (bo_image opts))) = Exited 0 out).

Lemma pull_and_report_run (install : bool) : let pre := [docker_detect] ++ (if install then [docker_install] else []) in
  validateImageRef (bo_image opts) = Ok () →
  (if install then ∃ out, h [docker_detect] docker_install = Exited 0 out else ∃ out, h [] docker_detect = Exited 0 out) →
  let '(r, done) := pull_and_report h opts pre in
  done `prefix_of` script install (bo_image opts) ∧ r ≠ @Err boot_error (list string) Panic ∧ (is_ok r = true → pulled install).
Proof using Type.
  intros pre Hv Hfirst. set (l := script install (bo_image opts)). unfold pull_and_report.
  assert (l = pre ++ docker_version :: [docker_pull (quoted (bo_image opts)); docker_inspect (quoted (bo_image opts))]) as Hl by (subst l pre; by destruct install).
  pose proof (output_prefix l pre docker_version _ Hl) as H1. destruct (runRemoteOutput h pre docker_version) as [[v|] done1]; [|by destruct H1].
  destruct H1 as [_ H1]. destruct (H1 v eq_refl) as [-> Hv1]. unfold pullImage. rewrite (shellQuote_valid _ Hv).
  assert (l = (pre ++ [docker_version]) ++ docker_pull (quoted (bo_image opts)) :: [docker_inspect (quoted (bo_image opts))]) as Hl2 by (by rewrite Hl, <- app_assoc).
  pose proof (run_ok_prefix l _ _ _ (ErrPull (bo_image opts)) Hl2) as H2. destruct (run_ok h _ _ _) as [[[]|err] done2]; destruct H2 as (Hp & Hok & Herr).
  - destruct (Hok eq_refl) as [-> Hpull].
    assert (l = ((pre ++ [docker_version]) ++ [docker_pull (quoted (bo_image opts))]) ++ [docker_inspect (quoted (bo_image opts))]) as Hl3 by (by rewrite Hl2, <- !app_assoc).
    pose proof (output_prefix l _ _ _ Hl3) as H3. destruct (runRemoteOutput h _ _) as [out done3]. destruct H3 as [H3 _]. split_and!; [done|done|].
    intros _. unfold pulled. fold pre. split_and!; [done|by exists v|done].
  - split_and!; [done|destruct Herr; congruence|done].
Qed.
Lemma provision_run : validateImageRef (bo_image opts) = Ok () → let '(r, done) := provision h opts in
  r ≠ @Err boot_error (list string) Panic ∧ ∃ install, done `prefix_of` script install (bo_image opts) ∧ (is_ok r = true → pulled install).
Proof using Type.
  intros Hv. unfold provision, checkDockerPresent, session.
  assert (let '(r, done) := match installDocker h [docker_detect] with (Err err, done) => (Err err, done) | (Ok _, done) => pull_and_report h opts done end in
    r ≠ @Err boot_error (list string) Panic ∧ ∃ install, done `prefix_of` script install (bo_image opts) ∧ (is_ok r = true → pulled install)) as Hinst.
  { pose proof (run_ok_prefix (script true (bo_image opts)) [docker_detect] docker_install _ ErrInstall eq_refl) as H1. unfold installDocker.
    destruct (run_ok h _ _ _) as [[[]|err] done]; destruct H1 as (Hp & Hok & Herr).
    - destruct (Hok eq_refl) as [-> Hi]. pose proof (pull_and_report_run true Hv Hi) as H. cbn [app] in *. destruct (pull_and_report h opts _) as [r d].
      destruct H as (H1 & H2 & H3). split; [done|]. by exists true.
    - split; [destruct Herr; congruence|]. by exists true. }
  destruct (h [] docker_detect) as [|[|p|p] out|] eqn:E; try exact Hinst.
  - split; [done|]. exists true. split; [apply prefix_nil|done].
  - pose proof (pull_and_report_run false Hv (ex_intro _ out E)) as H. cbn [app] in *. destruct (pull_and_report h opts _) as [r d].
    destruct H as (H1 & H2 & H3). split; [done|]. by exists false.
Qed.
End Provision.

(** ** A whole run *)

Definition commands (ev : list event) : list string := omap (λ x, match x with Ran c => Some c | _ => None end) ev.
Definition agent_opened (ev : list event) : Z := Z.of_nat (length (omap (λ x, match x with AgentOpened => Some () | _ => None end) ev)).
Definition agent_closed (ev : list event) : Z := Z.of_nat (length (omap (λ x, match x with AgentClosed => Some () | _ => None end) ev)).
Definition strict_checks (ev : list event) : Prop := ∀ addr user auth check, Dialed addr user auth check ∈ ev → ∃ home, check = CheckKnownHosts (path_Join [home; ".ssh"; "known_hosts"]).

Lemma commands_app a b : commands (a ++ b) = commands a ++ commands b.
Proof. apply omap_app. Qed.
Lemma agents_app a b : agent_opened (a ++ b) = agent_opened a + agent_opened b ∧ agent_closed (a ++ b) = agent_closed a + agent_closed b.
Proof. unfold agent_opened, agent_closed. rewrite !omap_app, !length_app. lia. Qed.
Lemma commands_ran cs : commands (Ran <$> cs) = cs.
Proof. induction cs as [|c cs IH]; [done|]. cbn. f_equal. exact IH. Qed.
Lemma quiet_ran cs : agent_opened (Ran <$> cs) = 0 ∧ agent_closed (Ran <$> cs) = 0.
Proof. induction cs as [|c cs IH]; [done|]. exact IH. Qed.

Lemma dialSSH_run e opts : let '(r, ev) := dialSSH e opts in
  commands ev = [] ∧ agent_opened ev = agent_closed ev ∧ (bo_acceptNewHostKey opts = false → strict_checks ev) ∧ r ≠ Err Panic.
Proof.
  unfold dialSSH, buildAuthMethods, buildHostKeyCallback, strict_checks, cleanup_agent. destruct (le_agent e), (bo_acceptNewHostKey opts);
    repeat (case_match; simplify_eq; try done); split_and!; try done; intros; cbn [app] in *; try discriminate;
    repeat match goal with H : _ ∈ _ :: _ |- _ => apply elem_of_cons in H as [H|H]; [try discriminate H; try (injection H as -> -> -> ->; by eexists)|] | H : _ ∈ [] |- _ => by apply elem_of_nil in H end.
Qed.

(** Preparing a host is safe and says what it did, whatever the machine and the host
    answer: an image reference that is not one is refused before anything happens; the
    host is asked for nothing but the commands of the script, in their order, with the
    image in quotes it cannot leave; a run never panics, and closes the connection to the
    key agent once; without the flag the host is checked against the known hosts; success
    means that Docker was there or was installed, answers, and pulled the image. *)
Theorem bootstrap_run e h opts : let '(r, ev) := runBootstrap e h opts in
  r ≠ Err Panic ∧ agent_opened ev = agent_closed ev ∧ (bo_acceptNewHostKey opts = false → strict_checks ev) ∧
  (commands ev ≠ [] ∨ r = Ok () → Forall (λ a, ref_char a = true) (to_bytes (bo_image opts))) ∧
  (validateImageRef (bo_image opts) ≠ Ok () → ev = []) ∧
  ∃ install, commands ev `prefix_of` script install (bo_image opts) ∧ (r = Ok () → pulled h opts install).
Proof.
  unfold runBootstrap. destruct (validateImageRef (bo_image opts)) as [[]|err] eqn:Hv.
  2: { split_and!; try done; [|intros _ ? ? ? ? H; by apply elem_of_nil in H|naive_solver|exists true; split; [apply prefix_nil|done]].
    unfold validateImageRef in Hv. repeat case_match; congruence. }
  pose proof (dialSSH_run e opts) as Hd. destruct (dialSSH e opts) as [[[]|err] ev]; destruct Hd as (Hc & Ha & Hs & Hp).
  2: { split_and!; try done; [intros [?|?]; congruence|]. exists true. rewrite Hc. split; [apply prefix_nil|done]. }
  pose proof (provision_run h opts Hv) as Hr. destruct (provision h opts) as [r cs]. destruct Hr as (Hpanic & install & Hpre & Hpull).
  apply valid_image in Hv as [_ Hchars].
  assert (∀ tail, commands tail = [] → agent_opened tail = 0 ∧ agent_closed tail = 0 → (∀ a b c d, Dialed a b c d ∉ tail) →
    let ev' := ev ++ (Ran <$> cs) ++ tail in commands ev' = cs ∧ agent_opened ev' = agent_closed ev' ∧ (bo_acceptNewHostKey opts = false → strict_checks ev')) as Hev.
  { intros tail H1 [H2 H3] H4. cbv zeta. rewrite !commands_app, Hc, commands_ran, H1, app_nil_r. split; [done|].
    destruct (agents_app ev ((Ran <$> cs) ++ tail)) as [-> ->], (agents_app (Ran <$> cs) tail) as [-> ->], (quiet_ran cs) as [-> ->]. split; [lia|].
    intros Hflag addr u a c [H|[H|H]%elem_of_app]%elem_of_app; [by eapply Hs|by apply list_elem_of_fmap in H as (? & ? & _)|by apply H4 in H]. }
  destruct r as [lines|err].
  - destruct (Hev ((Printed <$> lines) ++ [HostClosed])) as (E1 & E2 & E3).
    + rewrite commands_app. clear. induction lines as [|x l IH]; [done|exact IH].
    + destruct (agents_app (Printed <$> lines) [HostClosed]) as [-> ->]. clear. induction lines as [|x l IH]; [done|exact IH].
    + intros a b c d [H|H]%elem_of_app; [by apply list_elem_of_fmap in H as (? & ? & _)|by apply list_elem_of_singleton in H].
    + rewrite E1. split_and!; try done. exists install. split; [done|]. intros _. by apply Hpull.
  - destruct (Hev [HostClosed]) as (E1 & E2 & E3); [done..|intros a b c d H; by apply list_elem_of_singleton in H|].
    rewrite E1. split_and!; try done; [congruence|]. by exists install.
Qed.

(** ** Prefixed output *)

Definition newline : ascii := "010"%char.
Lemma flush_app p b : ∀ cur c, flush_lines p (b ++ c) cur =
  let '(out, rest) := flush_lines p b cur in let '(out', rest') := flush_lines p c (reverse rest) in (out ++ out', rest').
Proof.
  induction b as [|a b IH]; intros cur c; cbn [app flush_lines]; [rewrite reverse_involutive; by destruct (flush_lines p c cur)|].
  case_bool_decide; [|apply IH]. rewrite IH. destruct (flush_lines p b []) as [out rest], (flush_lines p c (reverse rest)) as [out' rest'].
  by rewrite <- !app_assoc.
Qed.
Lemma flush_plain p d : newline ∉ d → ∀ cur c, flush_lines p (d ++ c) cur = flush_lines p c (reverse d ++ cur).
Proof.
  induction d as [|a d IH]; intros Hd cur c; [done|]. apply not_elem_of_cons in Hd as [Ha Hd]. cbn [app flush_lines].
  rewrite bool_decide_eq_false_2 by (intros ->; by apply Ha). rewrite IH by done. by rewrite reverse_cons, <- app_assoc.
Qed.
Lemma flush_rest p b : ∀ cur, newline ∉ cur → newline ∉ (flush_lines p b cur).2.
Proof.
  induction b as [|a b IH]; intros cur Hc; cbn [flush_lines snd]; [by rewrite elem_of_reverse|]. case_bool_decide as E.
  - specialize (IH [] (not_elem_of_nil _)). by destruct (flush_lines p b []).
  - apply IH. intros [H|H]%elem_of_cons; [by subst a|done].
Qed.
(** The output does not depend on how the text is cut into writes; a last line without an
    end is held back, and never written. *)
Lemma prefix_writer_chunks p a b : newline ∉ pw_buf p → pw_Write b (pw_Write a p) = pw_Write (a ++ b) p.
Proof.
  intros Hp. unfold pw_Write. rewrite app_assoc, (flush_app _ (pw_buf p ++ a) [] b).
  pose proof (flush_rest (to_bytes (pw_prefix p)) (pw_buf p ++ a) [] (not_elem_of_nil _)) as Hr.
  destruct (flush_lines _ (pw_buf p ++ a) []) as [out rest]. cbn [fst snd pw_prefix pw_out pw_buf] in *.
  rewrite flush_plain, app_nil_r by done. destruct (flush_lines _ b (reverse rest)) as [out' rest']. by rewrite <- app_assoc.
Qed.
Lemma last_line_lost : let p := pw_Write (to_bytes "pulled") (MkPrefixWriter "[bootstrap] " [] []) in pw_out p = [] ∧ pw_buf p = to_bytes "pulled".
Proof. vm_compute. split; reflexivity. Qed.

(** *** A concrete run *)

Definition demo_local : local_env :=
  MkLocalEnv AgentConn "/run/agent" (Some "/home/op") (λ _, false) (λ _, None) "" (λ _, KeyMalformed) (λ _ _, false) (λ _, true) true.
Definition demo_host : host := λ done c, if bool_decide (c = docker_detect) then Exited 127 "" else Exited 0 "Docker 27".
Example bootstrap_demo : let '(r, ev) := runBootstrap demo_local demo_host (MkBootstrapOpts "h1" "root" 22 "" "" "ghcr.io/x/node:1" false) in
  r = Ok () ∧ commands ev = script true "ghcr.io/x/node:1" ∧
  runBootstrap demo_local demo_host (MkBootstrapOpts "h1" "root" 22 "" "" "x; reboot" false) = (Err (ErrImageChars "x; reboot"), []).
Proof. vm_compute. split_and!; reflexivity. Qed.
(** An unexpected answer counts as an absent Docker: the installer runs after a dropped
    connection. *)
Example broken_detection_installs : (provision (λ done c, if bool_decide (c = docker_detect) then Broken else Exited 1 "") (MkBootstrapOpts "h" "" 22 "" "" "i" false)).2 =
  [docker_detect; docker_install].
Proof. vm_compute. reflexivity. Qed.
